(* ===== verification/_CoqProject ===== *)
-Q . S2P
Prelude.v
Text.v
Bytes.v
BTree.v
BoundedSet.v
Common.v
Float64.v
ReplayCache.v
Pulse.v
PulseFacts.v
Metrics.v
Reputation.v
AppMessage.v
Observability.v
Relay.v
RelayFacts.v
RelayLimiter.v
RelayMetering.v
RelayBehaviour.v
RelayServer.v
Addresses.v
Connections.v
Storage.v
Namespace.v
RelayClient.v
PeerCache.v
PeerCacheFacts.v
PeerBook.v
ConnectionStrategy.v
Dns.v
RelayDiscovery.v
StackDiscovery.v
Rendezvous.v
RendezvousFacts.v
Dht.v
DhtEvents.v
DhtFacts.v
Dcutr.v
ConnectionEvents.v
ConnectionEventsFacts.v
Lan.v
Turn.v
NodeConfig.v
DtlsWire.v
DtlsConn.v
Fragmentation.v
ReassemblyFacts.v
AppSecurity.v
GossipEvents.v
GossipFacts.v
GsTimeCache.v
GsBackoff.v
GsMessageCache.v
GsSubscriptions.v
GsQueue.v
GsConfig.v
GsScore.v
GsProtocol.v
GsRouter.v
GsScoreFacts.v
GsMesh.v
GsHeartbeat.v
GsMessages.v
GsRouterFacts.v
GsMeshFacts.v
GsHeartbeatFacts.v
GsMessageFacts.v
GsInvariant.v
GsFrame.v
GsDelivery.v
GsForward.v
GsRetry.v
GsHandler.v
Instances.v
Witnesses.v
WitnessesRelay.v
WitnessesNet.v
WitnessesDht.v
WitnessesGs.v
WitnessesSvc.v
