(* ===== verification/Prelude.v ===== *)
(** * p2p-net: a verification of the peer-to-peer node

    p2p-net is a Rust library that runs one node of an application's
    peer-to-peer network on libp2p: it finds the other nodes of the application,
    connects to them directly or through relays, and carries authenticated
    application messages over gossip.  This development models its decision
    logic (crates/), the relay server and the whole gossipsub router it vendors
    (external/) as executable Rocq definitions, and proves what makes them
    correct.

    ** How the program is put together

    One event loop (crates/node/runtime) owns the libp2p swarm and all state.
    It receives swarm events, dispatches them to the handlers of
    crates/node/events, and runs periodic maintenance.  A handler updates the
    state of the components (peer book, caches, relay state, DHT and rendezvous
    state, dial plans, metrics), calls the swarm, and writes the snapshot and
    the pulses that an observer sees.  There is no concurrency inside the loop:
    a run of the node is a sequence of handler calls, which is how the
    invariants below are stated (an [Inductive] step relation per component,
    [rtc] for runs).  Concurrency is modelled where the code depends on it:
    processes racing on the identity key, a browser flush interleaved with
    writes (Storage), and the queues that the gossipsub router shares with its
    connection handlers, interleaved at their locks (GsQueue).  The gossip of
    application messages runs through the vendored gossipsub: the router keeps
    the meshes and caches, a handler per connection moves its queue to the wire,
    and the peer scores are an interface (a class) of the router that the score
    component discharges.

    ** Conventions

    - Integers are [Z]; their width is written out where the code has it
      ([sat_add], [sat_sub], [u64_max], [usize_max] of 64 bits).
      Instants and durations are nanoseconds, wall-clock times are seconds, and
      the clock is an argument.
    - [Result] is [result], [?] is [let?]; a body that may panic has type
      [run], and [let!] propagates the panic.
    - [HashMap] and [HashSet] are [gmap] and [gset]; where the code iterates
      over one, the order is an argument or the class [HashIter] (some
      permutation of the elements), so theorems hold for every order.
      [BTreeSet] is BTree, with its ascending order.
    - A struct is a [Record] with the source's field names, prefixed where two
      structs share one; [upd_f] applies a function to the field [f].
    - A [while] loop is [loop step fuel]: the step is the loop body, [None] is
      its exit, and the fuel is a bound computed from the state (the size of
      the structure the loop shrinks), proved to be enough where it is used, so
      that the result is the result of the loop.
    - Code outside src/ is a class with its operations ([HexLib], [Blake3Lib],
      [Sha256Lib], [PeerIdLib], [MultiaddrLib], [KeypairLib], [PeerRecordLib],
      [RendezvousLib], the serde codecs) and, where a theorem needs one, a
      class of documented laws ([HexLaws], [PeerIdLaws], ...).  Instances.v
      instantiates them all with concrete functions.  Calls on the swarm are
      recorded as data (lists of actions, requests, closed connections); its
      answers are arguments.

    ** Files

    Shared:
    - Prelude (this file): results and panics, machine integers, [loop], the
      generic lemmas, the hint databases and tactics; Text, Bytes, BTree,
      BoundedSet: what the code uses of strings, byte slices, ordered sets and
      queue-bounded sets; Common: crates/common/error.rs and the libp2p types;
      Float64: binary64 arithmetic, over the executable specification of the
      Standard Library, for the code that computes with [f64].

    Messages:
    - ReplayCache: the replay window; Pulse, PulseFacts: heartbeats
      (crates/protocol/pulse.rs); Reputation: crates/protocol/reputation.rs;
      Metrics: crates/api/metrics.rs; AppMessage: crates/api/mod.rs,
      payload_bytes.rs; AppSecurity: crates/protocol/app_security.rs;
      Fragmentation, ReassemblyFacts: crates/api/fragmentation.rs;
      Observability: crates/node/events/observability.rs; GossipEvents,
      GossipFacts: the gossip handlers (crates/node/events/gossip.rs, app.rs).

    Relay:
    - Relay, RelayFacts: crates/connectivity/relay (address, schedule, config,
      policy) and mediator.rs; RelayLimiter, RelayBehaviour, RelayMetering: the
      server of external/libp2p-relay and crates/connectivity/relay/metering.rs;
      RelayServer: crates/node/events/relay_server.rs; RelayClient: reservations
      and their retries (relay/reservation_retry.rs, requested.rs,
      crates/node/events/relay_client.rs); RelayDiscovery: relay selection
      (relay_discovery.rs, public_fallback.rs, webrtc.rs).

    Connections:
    - Addresses: crates/connectivity/addr.rs, listen address classes,
      crates/stack/external_addresses.rs; Connections: limits.rs,
      direct_upgrade.rs; PeerBook: peer_book.rs; PeerCache, PeerCacheFacts:
      peer_cache/; ConnectionStrategy: connection_strategy.rs, dcutr.rs and
      crates/node/dial.rs; Dcutr: crates/stack/dcutr.rs; ConnectionEvents,
      ConnectionEventsFacts: the handlers of crates/node/events/connection.rs
      and connection/, and the maintenance of
      crates/node/runtime_maintenance.rs.

    Discovery:
    - Namespace: namespace.rs; StackDiscovery: crates/stack/discovery.rs and
      identify_state.rs; Rendezvous, RendezvousFacts: rendezvous.rs and the
      rendezvous handlers; Dht, DhtEvents, DhtFacts: crates/connectivity/dht.rs,
      dht/, crates/node/events/kademlia.rs and the refresh schedule; Dns:
      dns.rs, dns/doh.rs and the JSON client crates/common/http.rs; Lan: lan.rs
      and the LAN arms of crates/node/runtime/driver_native.rs.

    Services and configuration:
    - Turn: ICE servers (ice.rs), the TURN client, broker, providers and server
      (connectivity/turn/), the browser's ICE plan (node/config/webrtc.rs) and
      the node's TURN runtime (node/turn.rs, node/events/turn.rs); NodeConfig:
      the configuration with its validation (node/config.rs, config/,
      config_validation.rs, connectivity/discovery.rs), profiles, environment
      and the capability resolver (profile.rs, environment.rs, capabilities.rs),
      and the public-IP probe (public_ip.rs).

    DTLS (external/dtls/src):
    - DtlsWire: the enumerations, extensions, handshake messages and records
      with both directions of their codecs; DtlsConn: fragment_buffer/,
      handshake/handshake_cache.rs and the record path of conn/mod.rs, from
      fragmentation and numbering to replay checks, decryption and delivery,
      with its own witnesses.  The cipher suite is the record of its methods,
      the replay detector a class with its law.

    Storage:
    - Storage: crates/platform/traits.rs, memory.rs, wasm.rs and
      crates/connectivity/identity.rs.

    Gossipsub (external/libp2p-gossipsub/src):
    - GsTimeCache: time_cache.rs, gossip_promises.rs; GsBackoff: backoff.rs;
      GsMessageCache: mcache.rs; GsSubscriptions: subscription_filter.rs;
      GsQueue: queue.rs; GsConfig: config.rs and the node's own parameters
      (crates/stack/behaviour.rs); GsProtocol: protocol.rs, rpc_proto.rs,
      types.rs; GsScore, GsScoreFacts: peer_score.rs, peer_score/params.rs;
      GsRouter, GsMesh, GsHeartbeat, GsMessages: behaviour.rs over a state monad
      with panics, from the state and its helpers to the operations; GsHandler:
      handler.rs.  Their theorems: GsRouterFacts, GsMeshFacts, GsHeartbeatFacts,
      GsMessageFacts and GsInvariant (the invariant of the router and that no
      operation panics), GsFrame (operations that respect a preorder),
      GsDelivery, GsForward, GsRetry.

    Instances and the Witnesses files apply each theorem that has a hypothesis
    at concrete data.

    ** What the theorems show

    - Messages: a heartbeat or an application message is accepted at most once
      while its replay window lasts, only when authentic and fresh; what the
      application receives was published by the named author on that topic of
      that network; payloads split into fragments and delivered in any order
      are rebuilt exactly, within the memory ceilings; the wire codecs are
      inverse to each other; the handlers never panic and give exactly one
      verdict per message.
    - Bounded state: the reputation store, the peer book with its indexes, the
      reassembler, the pool of unverified relayed peers, the Identify memory
      (with the calls to Kademlia that follow it) and the DHT bookkeeping stay
      within their stated bounds under every sequence of operations.
    - Relay: circuits and reservations stay within the admission limits (with
      the exact bound the code enforces), the token buckets admit at most their
      limit plus one per interval, the meter's totals are the bytes forwarded,
      the selector returns the first address of each relay in order, and no
      requested reservation is forgotten.
    - Connections: the per-IP cap holds for kept connections, a path migrates
      only to a confirmed direct one, a plan tries each usable address once and
      failures walk through it, public addresses are those outside the
      reserved blocks, and libp2p is told of exactly the remembered external
      addresses (a refinement).
    - Discovery: equal protocol strings mean equal namespaces; accepted address
      records are signed by the peer they name and hold public routes to it
      only; the rate of automatic dials and of refreshes is bounded, and a
      refresh returns.
    - Storage: racing creators of the identity key agree on one key over every
      backend that keeps the storage interface; a clean journal is durable.
    - Gossipsub: no operation of the router panics in a state it can reach; a
      message reaches the application once while the duplicate cache holds it,
      and a router that waits for validation passes on only accepted messages;
      a strict node takes over only messages signed by their author, and what a
      signing node publishes is accepted over the wire by a strict node whose
      limits the frame meets; the heartbeat fills and cuts every mesh to exactly
      its target size; backoffs, the caches and the limits on undecoded RPCs do
      exactly what they state; no wake-up of a shared queue is lost; a handler
      opens a bounded number of substreams; no behaviour lifts a score above its
      cap and a bad score survives a reconnection.
    - DNS and LAN: a [/dnsaddr] resolution ends whatever the network answers,
      within stated numbers of requests and results; a beacon is believed only
      from a local source and only about local addresses of one other peer, and
      an announced IPv4 or local listener is found.
    - TURN and ICE: the browser is given only servers the configuration lists or
      a broker offered on hosts that are trusted or that broker's own; a broker's rate limit, with its exact bound; a
      valid configuration bounds the composed ICE list; a relay-only browser
      contacts no STUN server.
    - Configuration: the runtime configuration resolves to the capabilities it
      was made from, so that nothing the resolver forbids comes back; what the
      public-IP probe advertises is public, dialable and complete.
    - DTLS: records and all handshake messages survive marshalling, datagrams
      are cut exactly where records end, a fragmented handshake message is
      rebuilt whatever the order and repetition of its records once each of its
      fragments has arrived within the buffer's limit, application
      data is delivered only after decryption and never twice for one record
      number, and the fragment buffer holds fewer bytes than its limit; which
      messages make the parser panic is stated exactly.
    - Behaviours that depart from what the code means to do are theorems too,
      listed as findings with the line they concern.

    ** Bounds and fuel

    Loops use the size of the structure they shrink.  The search for an
    anchored provider key (Dht) has the code's own bound of 2^20 candidates;
    the fallback dials use the number of remaining attempts of the plan; the
    segment loop of Namespace is proved to terminate within the length of its
    input; the recursion of [/dnsaddr] records has ten levels of fuel, one for
    each depth the code admits and one that refuses, and is shown never to run
    out; the loop that reads a TXT value has one unit per byte; the DTLS parsers
    have one unit per byte of input, and the recursion that joins fragments one
    per fragment, which is proved never to be exceeded.

    ** Not modelled

    - Transports, sockets and cryptography (crates/stack/transport, the flights
      and cipher suites of external/dtls, external/libp2p-webrtc,
      libp2p-webrtc-websys, libp2p-dns): input and output, and handshakes whose
      content (key exchange, certificates, SCTP, the browser's WebRTC) is in
      libraries outside src/.
    - The client behaviour and the wire protocol of external/libp2p-relay:
      framed streams driven by libp2p's connection handlers; the node's use of
      them (reservations, retries, routes) is modelled.
    - Metrics of gossipsub and the Prometheus exporter: counters and text that
      no decision reads.  The partial-message extension of gossipsub: behind a
      feature the node does not enable.  [f64::powf] is a parameter.
    - The async drivers (crates/node/runtime, startup, handle, commands): glue
      that selects over channels and timers and calls the handlers modelled
      here; the LAN arms of the native driver are modelled.
    - The applications, the language bindings, the browser shims and the
      platform backends: user-interface, foreign-function and file-system glue
      behind the storage interface, which is modelled.
    - Serde's derived codecs and visitors: the JSON of configurations and
      requests is the serializer's. *)

From stdpp Require Export base tactics gmap sets list strings pretty sorting.
From Stdlib Require Export ZArith Lia.

#[local] Open Scope Z_scope.

(** * Results, panics and the notation of the error monads

    [Result<A, E>] is [result A E]; the [?] operator is [let?].  An operation
    that may panic (slice indexing, [expect]) has type [run A], and [let!]
    propagates a panic the way unwinding does. *)

Declare Scope p2p_scope.
Delimit Scope p2p_scope with p2p.
#[global] Open Scope p2p_scope.

Inductive result (A E : Type) : Type :=
| Ok (a : A)
| Err (e : E).
Arguments Ok {A E} a.
Arguments Err {A E} e.

Inductive run (A : Type) : Type :=
| Ret (a : A)
| Panic.
Arguments Ret {A} a.
Arguments Panic {A}.

Definition result_bind {A B E} (r : result A E) (k : A -> result B E) : result B E :=
  match r with Ok a => k a | Err e => Err e end.

Definition map_err {A E F} (r : result A E) (f : E -> F) : result A F :=
  match r with Ok a => Ok a | Err e => Err (f e) end.

Definition ok_or {A E} (o : option A) (e : E) : result A E :=
  match o with Some a => Ok a | None => Err e end.

Definition ok {A E} (r : result A E) : option A :=
  match r with Ok a => Some a | Err _ => None end.

Definition is_ok {A E} (r : result A E) : bool :=
  match r with Ok _ => true | Err _ => false end.

Definition run_bind {A B} (r : run A) (k : A -> run B) : run B :=
  match r with Ret a => k a | Panic => Panic end.

(** [Option::expect] and [Option::unwrap]. *)
Definition expect {A} (o : option A) : run A :=
  match o with Some a => Ret a | None => Panic end.

Notation "'let?' x := e 'in' k" := (result_bind e (fun x => k))
  (at level 10, x pattern, e at level 200, k at level 200) : p2p_scope.
Notation "'let!' x := e 'in' k" := (run_bind e (fun x => k))
  (at level 10, x pattern, e at level 200, k at level 200) : p2p_scope.

(** A loop body that returns early on the first error: [for x in l { f(x)?; }]. *)
Fixpoint try_for_each {A E} (f : A -> result unit E) (l : list A) : result unit E :=
  match l with
  | [] => Ok tt
  | x :: l' => let? _ := f x in try_for_each f l'
  end.

(** [Iterator::map(f).collect::<Result<Vec<_>, _>>()]: the first error wins. *)
Fixpoint try_collect {A B E} (f : A -> result B E) (l : list A) : result (list B) E :=
  match l with
  | [] => Ok []
  | x :: l' =>
      let? y := f x in
      let? ys := try_collect f l' in
      Ok (y :: ys)
  end.

#[global] Instance result_eq_dec {A E} `{EqDecision A, EqDecision E} : EqDecision (result A E).
Proof. solve_decision. Defined.

(** * Machine integers

    A [w]-bit integer is a [Z]; the arithmetic the sources use is saturating,
    and every operation that could wrap is written out here. *)

Definition u16_max : Z := 65535.
Definition u32_max : Z := 4294967295.
Definition u64_max : Z := 18446744073709551615.
(** [usize] of the 64-bit native targets. *)
Definition usize_max : Z := 18446744073709551615.
Definition i32_min : Z := -2147483648.
Definition i32_max : Z := 2147483647.

Definition is_u16 (z : Z) : Prop := 0 <= z <= u16_max.
Definition is_u32 (z : Z) : Prop := 0 <= z <= u32_max.
Definition is_u64 (z : Z) : Prop := 0 <= z <= u64_max.
Definition is_i32 (z : Z) : Prop := i32_min <= z <= i32_max.

(** [saturating_add], [saturating_mul] at the width whose maximum is [max];
    [saturating_sub] of an unsigned type bottoms out at 0. *)
Definition sat_add (max a b : Z) : Z := Z.min max (a + b).
Definition sat_mul (max a b : Z) : Z := Z.min max (a * b).
Definition sat_sub (a b : Z) : Z := Z.max 0 (a - b).

(** [i32::saturating_add] and [i32::saturating_sub]. *)
Definition i32_sat (z : Z) : Z := Z.max i32_min (Z.min i32_max z).
Definition i32_sat_add (a b : Z) : Z := i32_sat (a + b).
Definition i32_sat_sub (a b : Z) : Z := i32_sat (a - b).

(** [usize::div_ceil] for a positive divisor. *)
Definition div_ceil (a b : Z) : Z := (a + b - 1) / b.

(** The length of a collection as a [usize]. *)
Definition len {A} (l : list A) : Z := Z.of_nat (length l).

Lemma len_app {A} (l k : list A) : len (l ++ k) = len l + len k.
Proof. unfold len. rewrite length_app. lia. Qed.

Lemma len_nonneg {A} (l : list A) : 0 <= len l.
Proof. unfold len. lia. Qed.

Ltac unfold_width :=
  unfold is_u16, is_u32, is_u64, is_i32, sat_add, sat_mul, sat_sub,
    i32_sat_add, i32_sat_sub, i32_sat, u16_max, u32_max, u64_max, usize_max,
    i32_min, i32_max, len in *.

(** [ulia] decides linear goals about machine integers. *)
Ltac ulia := unfold_width; lia.

(** [mlia] is [lia] on quotients and remainders by constants. *)
Ltac mlia := Z.to_euclidean_division_equations; lia.

(** Invert every hypothesis that equates two constructors of a result. *)
Ltac inv_result :=
  repeat match goal with
  | H : Ok _ = Ok _ |- _ => injection H as H; try subst
  | H : Err _ = Err _ |- _ => injection H as H; try subst
  | H : Ret _ = Ret _ |- _ => injection H as H; try subst
  | H : Ok _ = Err _ |- _ => discriminate H
  | H : Err _ = Ok _ |- _ => discriminate H
  | H : Panic = Ret _ |- _ => discriminate H
  | H : Ret _ = Panic |- _ => discriminate H
  end.

(** Walk through a chain of [let?]/[if]/[match] in a hypothesis that says how
    the whole chain ended, closing the branches that ended otherwise. *)
Ltac step_result H :=
  repeat (progress (cbn [result_bind run_bind map_err ok_or expect] in H; inv_result) ||
    match type of H with
    | context [match ?e with _ => _ end] =>
        let E := fresh "E" in destruct e eqn:E; try discriminate H
    | context [result_bind ?e _] => let E := fresh "E" in destruct e eqn:E; try discriminate H
    | context [run_bind ?e _] => let E := fresh "E" in destruct e eqn:E; try discriminate H
    end).

(** * [while] loops

    One iteration is a partial step ([None] when the loop condition fails or
    the body breaks).  A measure that every iteration decreases bounds the
    number of iterations, so [loop step (m s) s] is the loop run to its end. *)
Fixpoint loop {S : Type} (step : S -> option S) (fuel : nat) (s : S) : S :=
  match fuel with
  | O => s
  | Datatypes.S n => match step s with None => s | Some s' => loop step n s' end
  end.

Section loops.
Context {S : Type} (step : S -> option S) (m : S -> nat).
Context (Hdec : forall s s', step s = Some s' -> (m s' < m s)%nat).

Lemma loop_exits fuel s : (m s <= fuel)%nat -> step (loop step fuel s) = None.
Proof using Hdec.
  revert s. induction fuel as [|n IH]; intros s Hm; cbn.
  - destruct (step s) eqn:E; [apply Hdec in E; lia|done].
  - destruct (step s) as [s'|] eqn:E; [|done]. apply IH. apply Hdec in E. lia.
Qed.

Lemma loop_fuel f1 f2 s :
  (m s <= f1)%nat -> (m s <= f2)%nat -> loop step f1 s = loop step f2 s.
Proof using Hdec.
  revert f2 s. induction f1 as [|n IH]; intros f2 s H1 H2; destruct f2 as [|n2]; cbn; try done.
  - destruct (step s) eqn:E; [apply Hdec in E; lia|done].
  - destruct (step s) eqn:E; [apply Hdec in E; lia|done].
  - destruct (step s) as [s'|] eqn:E; [|done]. apply Hdec in E. apply IH; lia.
Qed.
End loops.

Lemma loop_stop {S} (step : S -> option S) fuel s : step s = None -> loop step fuel s = s.
Proof. intros H. destruct fuel; cbn; [done|]. by rewrite H. Qed.

Lemma loop_inv {S} (step : S -> option S) (P : S -> Prop) fuel s :
  (forall s s', P s -> step s = Some s' -> P s') -> P s -> P (loop step fuel s).
Proof.
  intros Hs. revert s. induction fuel as [|n IH]; intros s HP; cbn; [done|].
  destruct (step s) as [s'|] eqn:E; [|done]. eauto.
Qed.

(** A loop whose measure decreases in the states its invariant allows. *)
Lemma loop_inv_exits {S} (step : S -> option S) (P : S -> Prop) (m : S -> nat) fuel s :
  (forall s s', P s -> step s = Some s' -> P s' /\ (m s' < m s)%nat) ->
  P s -> (m s <= fuel)%nat -> P (loop step fuel s) /\ step (loop step fuel s) = None.
Proof.
  intros Hs. revert s. induction fuel as [|n IH]; intros s HP Hm; cbn;
    destruct (step s) as [s'|] eqn:E; try done; destruct (Hs _ _ HP E); [lia|]. apply IH; [done|lia].
Qed.

(** * Total orders: [Ord] of the keys of the ordered collections. *)
Class TotalOrd (A : Type) := {
  ord_leb : A -> A -> bool;
  ord_refl x : ord_leb x x = true;
  ord_total x y : ord_leb x y = true \/ ord_leb y x = true;
  ord_trans x y z : ord_leb x y = true -> ord_leb y z = true -> ord_leb x z = true;
  ord_antisym x y : ord_leb x y = true -> ord_leb y x = true -> x = y;
}.

#[local] Obligation Tactic := idtac.

#[global] Program Instance Z_ord : TotalOrd Z := {| ord_leb := Z.leb |}.
Next Obligation. intros; lia. Qed.
Next Obligation. intros; lia. Qed.
Next Obligation. intros x y z ? ?; lia. Qed.
Next Obligation. intros; lia. Qed.

(** Tuples compare lexicographically. *)
#[global] Program Instance pair_ord {A B} `{EqDecision A, TotalOrd A, TotalOrd B} : TotalOrd (A * B) :=
  {| ord_leb p q := if decide (p.1 = q.1) then ord_leb p.2 q.2 else ord_leb p.1 q.1 |}.
Next Obligation. intros. cbn. case_decide; [apply ord_refl|done]. Qed.
Next Obligation.
  intros. cbn. repeat case_decide; try congruence; apply ord_total.
Qed.
Next Obligation.
  intros A B ??? [a1 b1] [a2 b2] [a3 b3]. cbn. repeat case_decide; simplify_eq; try done.
  - apply ord_trans.
  - intros Ha Hb. pose proof (ord_antisym _ _ Ha Hb). congruence.
  - apply ord_trans.
Qed.
Next Obligation.
  intros A B ??? [a1 b1] [a2 b2]. cbn. repeat case_decide; simplify_eq; try done.
  - intros. f_equal. by apply ord_antisym.
  - intros Ha Hb. pose proof (ord_antisym _ _ Ha Hb). congruence.
Qed.

Lemma forallb_false_exists {A} (f : A -> bool) l :
  forallb f l = false -> exists x, x ∈ l /\ f x = false.
Proof.
  induction l as [|x l IH]; cbn; [done|]. destruct (f x) eqn:E; cbn.
  - intros (y & ? & ?)%IH. exists y. split; [by right|done].
  - intros _. exists x. split; [by left|done].
Qed.

(** * Sums over the entries of a map *)
Section msum.
Context {K V : Type} `{Countable K}.

Definition msum (f : K -> V -> Z) (m : gmap K V) : Z := map_fold (fun k v z => f k v + z) 0 m.

Lemma msum_empty f : msum f ∅ = 0.
Proof. apply map_fold_empty. Qed.

Lemma msum_insert f m k v : m !! k = None -> msum f (<[k := v]> m) = f k v + msum f m.
Proof. intros Hk. unfold msum. rewrite map_fold_insert_L; [done| |done]. intros. lia. Qed.

Lemma msum_delete f m k v : m !! k = Some v -> msum f (delete k m) = msum f m - f k v.
Proof.
  intros Hk. rewrite <- (insert_delete_id m k v Hk) at 2.
  rewrite msum_insert by apply lookup_delete_eq. lia.
Qed.

(** Overwriting an entry moves the sum by the difference. *)
Lemma msum_overwrite f m k v w : m !! k = Some v -> msum f (<[k := w]> m) = msum f m - f k v + f k w.
Proof.
  intros Hk. rewrite <- insert_delete_eq, msum_insert by apply lookup_delete_eq.
  rewrite (msum_delete f m k v Hk). lia.
Qed.

Lemma msum_nonneg f m : map_Forall (fun k v => 0 <= f k v) m -> 0 <= msum f m.
Proof.
  induction m as [|k v m Hk IH] using map_ind; [by rewrite msum_empty|].
  rewrite map_Forall_insert, msum_insert by done. intros [Hv Hm]. specialize (IH Hm). lia.
Qed.

(** One entry is at most the sum of all of them. *)
Lemma msum_elem f m k v :
  map_Forall (fun k v => 0 <= f k v) m -> m !! k = Some v -> f k v <= msum f m.
Proof.
  intros Hm Hk. pose proof (msum_delete f m k v Hk).
  pose proof (msum_nonneg f (delete k m) (map_Forall_delete _ _ _ Hm)). lia.
Qed.

Lemma msum_le f g m : map_Forall (fun k v => f k v <= g k v) m -> msum f m <= msum g m.
Proof.
  induction m as [|k v m Hk IH] using map_ind; [done|].
  rewrite map_Forall_insert, !msum_insert by done. intros [Hv Hm]. specialize (IH Hm). lia.
Qed.

Lemma msum_ext f g m : map_Forall (fun k v => f k v = g k v) m -> msum f m = msum g m.
Proof.
  intros Hm. apply Z.le_antisymm; apply msum_le; intros k v Hk; apply Hm in Hk; lia.
Qed.
End msum.

(** Two maps with the same keys and equal summands have the same sum. *)
Lemma msum_related {K V W} `{Countable K} (f : K -> V -> Z) (g : K -> W -> Z) (m : gmap K V) (n : gmap K W) :
  (forall k, is_Some (m !! k) <-> is_Some (n !! k)) ->
  (forall k v w, m !! k = Some v -> n !! k = Some w -> f k v = g k w) -> msum f m = msum g n.
Proof.
  revert n. induction m as [|k v m Hk IH] using map_ind; intros n Hdom Heq.
  - replace n with (∅ : gmap K W); [by rewrite !msum_empty|]. symmetry. apply map_eq. intros k.
    rewrite lookup_empty. apply eq_None_not_Some. intros Hn%Hdom. rewrite lookup_empty in Hn. by destruct Hn.
  - assert (is_Some (n !! k)) as [w Hw] by (apply Hdom; rewrite lookup_insert_eq; eauto).
    rewrite msum_insert by done. pose proof (msum_delete g n k w Hw) as Hd.
    rewrite (Heq k v w (lookup_insert_eq _ _ _) Hw). rewrite (IH (delete k n)); [lia| |].
    + intros i. rewrite lookup_delete_is_Some, <- Hdom, lookup_insert_is_Some'. split; [|naive_solver].
      intros Hi. split; [|by right]. intros <-. rewrite Hk in Hi. by destruct Hi.
    + intros i x y Hx [Hne Hy]%lookup_delete_Some. apply Heq; [|done]. by rewrite lookup_insert_ne.
Qed.

Lemma sublist_Forall {A} (P : A -> Prop) l k : l `sublist_of` k -> Forall P k -> Forall P l.
Proof.
  induction 1 as [|x l k Hlk IH|x l k Hlk IH]; [done|..]; rewrite !Forall_cons; tauto.
Qed.

Lemma sublist_fmap {A B} (f : A -> B) l k : l `sublist_of` k -> (f <$> l) `sublist_of` (f <$> k).
Proof. induction 1; cbn; by constructor. Qed.

(** Distinct under [g] is distinct under any [h] that is at least as fine. *)
Lemma NoDup_fmap_finer {A B C} (g : A -> B) (h : A -> C) l :
  (forall x y, x ∈ l -> y ∈ l -> h x = h y -> g x = g y) -> NoDup (g <$> l) -> NoDup (h <$> l).
Proof.
  induction l as [|x l IH]; intros Hgh Hnd; cbn in *; [constructor|].
  apply NoDup_cons in Hnd as [Hx Hnd]. apply NoDup_cons. split.
  - intros (y & Hy & Hin)%list_elem_of_fmap. apply Hx, list_elem_of_fmap. exists y.
    split; [|done]. apply Hgh; [by left|by right|done].
  - apply IH; [|done]. intros y z Hy Hz. apply Hgh; by right.
Qed.

Lemma sublist_StronglySorted {A} (R : A -> A -> Prop) l k :
  l `sublist_of` k -> StronglySorted R k -> StronglySorted R l.
Proof.
  induction 1 as [|x l k Hlk IH|x l k Hlk IH]; intros Hk; [done| |].
  - apply StronglySorted_cons in Hk as [Hx Hk]. apply StronglySorted_cons. split; [|auto].
    by eapply sublist_Forall.
  - apply StronglySorted_cons in Hk as [_ Hk]. auto.
Qed.

(** * Guards

    [if cond { return Err(e); }] in a function that returns [Result<(), E>]. *)
Definition reject_if {E} (cond : bool) (e : E) : result unit E :=
  if cond then Err e else Ok tt.

Lemma reject_if_Ok {E} (c : bool) (e : E) u : reject_if c e = Ok u <-> c = false.
Proof. destruct c, u; cbn; split; congruence. Qed.

Lemma bind_Ok {A B E} (r : result A E) (k : A -> result B E) b :
  result_bind r k = Ok b <-> exists a, r = Ok a /\ k a = Ok b.
Proof.
  destruct r as [a|e]; cbn; split.
  - eauto.
  - by intros (? & [= <-] & ?).
  - done.
  - by intros (? & ? & ?).
Qed.

Lemma bind_unit_Ok {B E} (r : result unit E) (k : unit -> result B E) b :
  result_bind r k = Ok b <-> r = Ok tt /\ k tt = Ok b.
Proof.
  rewrite bind_Ok. split; [intros ([] & ? & ?)|intros []]; eauto.
Qed.

(** Every element passed the check when the whole loop did, and only then. *)
Lemma try_for_each_Ok {A E} (f : A -> result unit E) l :
  try_for_each f l = Ok tt <-> Forall (fun x => f x = Ok tt) l.
Proof.
  induction l as [|x l IH]; cbn; [by split; [constructor|]|].
  rewrite bind_unit_Ok, IH. by rewrite Forall_cons.
Qed.

Lemma try_collect_Ok {A B E} (f : A -> result B E) l ys :
  try_collect f l = Ok ys <-> Forall2 (fun x y => f x = Ok y) l ys.
Proof.
  revert ys. induction l as [|x l IH]; intros ys; cbn.
  - split; [intros [= <-]; constructor|]. by intros ->%Forall2_nil_inv_l.
  - rewrite bind_Ok. setoid_rewrite bind_Ok. setoid_rewrite IH. split.
    + intros (y & Hy & ys' & Hys & [= <-]). by constructor.
    + intros (y & ys' & ? & ? & ->)%Forall2_cons_inv_l. eauto.
Qed.

(** The database of the specifications of guards and of the error monad: it
    turns [validate cfg = Ok tt] into the conjunction of the facts checked. *)
Create Rewrite HintDb guards.
#[export] Hint Rewrite @reject_if_Ok @bind_unit_Ok @try_for_each_Ok
  bool_decide_eq_false bool_decide_eq_true orb_false_iff andb_true_iff negb_false_iff
  negb_true_iff : guards.

Ltac guards := autorewrite with guards.
Ltac guards_in H := autorewrite with guards in H.

Lemma filter_id {A} (Q : A -> Prop) `{forall x, Decision (Q x)} (l : list A) : Forall Q l -> filter Q l = l.
Proof. induction 1 as [|x l Hx Hl IH]; [done|]. by rewrite filter_cons_True, IH. Qed.

Lemma filter_split_fmap {A B} (f : A -> B) (Q : A -> Prop) `{forall x, Decision (Q x)} (l : list A) :
  f <$> l ≡ₚ (f <$> filter Q l) ++ (f <$> filter (fun x => ~ Q x) l).
Proof.
  induction l as [|x l IH]; [done|]. rewrite fmap_cons, !filter_cons. destruct (decide (Q x)).
  - rewrite decide_False by tauto. rewrite fmap_cons. cbn [app]. by rewrite IH.
  - rewrite decide_True by tauto. rewrite fmap_cons, <- Permutation_middle. by rewrite IH.
Qed.
