(* ===== verification/Text.v ===== *)
(** Text: what the sources use of [str].  A Rust string is the list of its
    UTF-8 bytes, as a Rocq [string]; [trim] strips the Unicode [White_Space]
    characters at both ends, whose encodings are listed below. *)

From S2P Require Import Prelude.
From Stdlib Require Import Ascii.

#[local] Open Scope Z_scope.

Definition code (c : ascii) : Z := Z.of_nat (nat_of_ascii c).

Definition chars (s : string) : list ascii := String.list_ascii_of_string s.
Definition text (l : list ascii) : string := String.string_of_list_ascii l.

Definition str_len (s : string) : Z := Z.of_nat (String.length s).

(** The UTF-8 encodings of the [White_Space] characters: U+0009..U+000D,
    U+0020, U+0085, U+00A0, U+1680, U+2000..U+200A, U+2028, U+2029, U+202F,
    U+205F and U+3000. *)
Definition white_space : list (list Z) :=
  [[9]; [10]; [11]; [12]; [13]; [32]; [194; 133]; [194; 160]; [225; 154; 128];
   [226; 128; 128]; [226; 128; 129]; [226; 128; 130]; [226; 128; 131]; [226; 128; 132];
   [226; 128; 133]; [226; 128; 134]; [226; 128; 135]; [226; 128; 136]; [226; 128; 137];
   [226; 128; 138]; [226; 128; 168]; [226; 128; 169]; [226; 128; 175]; [226; 129; 159];
   [227; 128; 128]].

(** What follows the first of [seqs] that starts [l]. *)
Fixpoint strip_prefix (p : list Z) (l : list ascii) : option (list ascii) :=
  match p, l with
  | [], _ => Some l
  | x :: p', c :: l' => if decide (code c = x) then strip_prefix p' l' else None
  | _ :: _, [] => None
  end.

Fixpoint strip_any (seqs : list (list Z)) (l : list ascii) : option (list ascii) :=
  match seqs with
  | [] => None
  | p :: seqs' => match strip_prefix p l with Some r => Some r | None => strip_any seqs' l end
  end.

Definition trim_start_with (seqs : list (list Z)) (l : list ascii) : list ascii :=
  loop (strip_any seqs) (length l) l.

Definition trim_chars (l : list ascii) : list ascii :=
  reverse (trim_start_with (reverse <$> white_space) (reverse (trim_start_with white_space l))).

Definition trim (s : string) : string := text (trim_chars (chars s)).

(** [u8::is_ascii_alphanumeric], [u8::is_ascii_hexdigit], [to_ascii_lowercase]. *)
Definition is_ascii_digit (c : ascii) : bool := bool_decide (48 <= code c <= 57).
Definition is_ascii_alphanumeric (c : ascii) : bool :=
  is_ascii_digit c || bool_decide (65 <= code c <= 90) || bool_decide (97 <= code c <= 122).
Definition is_ascii_hexdigit (c : ascii) : bool :=
  is_ascii_digit c || bool_decide (65 <= code c <= 70) || bool_decide (97 <= code c <= 102).

Definition to_ascii_lowercase_char (c : ascii) : ascii :=
  if decide (65 <= code c <= 90) then ascii_of_nat (Z.to_nat (code c + 32)) else c.
Definition to_ascii_lowercase (s : string) : string := text (map to_ascii_lowercase_char (chars s)).

Lemma text_chars s : text (chars s) = s.
Proof. apply String.string_of_list_ascii_of_string. Qed.

Lemma chars_text l : chars (text l) = l.
Proof. apply String.list_ascii_of_string_of_list_ascii. Qed.

Lemma length_chars s : length (chars s) = String.length s.
Proof. induction s; cbn; [done|]. by f_equal. Qed.

Lemma chars_app s t : chars (s +:+ t) = chars s ++ chars t.
Proof. induction s as [|c s IH]; [done|]. change (c :: chars (s +:+ t) = c :: chars s ++ chars t). by rewrite IH. Qed.

(** Every strip removes at least one byte. *)
Lemma strip_prefix_length p l r :
  strip_prefix p l = Some r -> length l = (length p + length r)%nat.
Proof.
  revert l. induction p as [|x p IH]; intros l; cbn; [by intros [= ->]|].
  destruct l as [|c l]; [done|]. cbn. case_decide; [|done]. intros Hl%IH. lia.
Qed.

Lemma strip_any_length seqs l r :
  Forall (fun p => p ≠ []) seqs -> strip_any seqs l = Some r -> (length r < length l)%nat.
Proof.
  induction seqs as [|p seqs IH]; cbn; [done|]. intros [Hp Hs]%Forall_cons.
  destruct (strip_prefix p l) as [r'|] eqn:E; [|auto].
  intros [= <-]. apply strip_prefix_length in E. destruct p; [done|]. cbn in E. lia.
Qed.

Lemma white_space_nonempty : Forall (fun p => p ≠ []) white_space.
Proof. by repeat constructor. Qed.

Lemma white_space_rev_nonempty : Forall (fun p => p ≠ []) (reverse <$> white_space).
Proof. by repeat constructor. Qed.

(** The loop of [trim_start] stops only where no white space starts. *)
Lemma trim_start_exits seqs l :
  Forall (fun p => p ≠ []) seqs -> strip_any seqs (trim_start_with seqs l) = None.
Proof.
  intros Hs. apply (loop_exits (strip_any seqs) length); [|done].
  intros a b. by apply strip_any_length.
Qed.

(** A text whose first and last characters start no white space is unchanged. *)
Lemma strip_any_None seqs c l :
  Forall (fun p => head p ≠ Some (code c) /\ p ≠ []) seqs -> strip_any seqs (c :: l) = None.
Proof.
  induction seqs as [|p seqs IH]; cbn; [done|]. intros [[Hh Hp] Hs]%Forall_cons.
  destruct p as [|x p]; [done|]. cbn in Hh |- *. case_decide; [congruence|]. auto.
Qed.

Lemma trim_start_id seqs c l :
  Forall (fun p => head p ≠ Some (code c) /\ p ≠ []) seqs -> trim_start_with seqs (c :: l) = c :: l.
Proof. intros. unfold trim_start_with. by apply loop_stop, strip_any_None. Qed.

(** A character that neither starts nor ends a white space. *)
Definition not_space (c : ascii) : Prop :=
  Forall (fun p => head p ≠ Some (code c) /\ p ≠ []) white_space /\
  Forall (fun p => head p ≠ Some (code c) /\ p ≠ []) (reverse <$> white_space).

Lemma trim_id t : t ≠ ""%string -> Forall not_space (chars t) -> trim t = t.
Proof.
  intros Hne Hall. unfold trim, trim_chars. rewrite <- (text_chars t) at 2.
  destruct (chars t) as [|c l] eqn:E; [destruct t; [done|discriminate E]|].
  apply Forall_cons in Hall as Hc. destruct Hc as [[Hc _] _]. rewrite trim_start_id by done.
  assert (Forall not_space (reverse (c :: l))) as Hrev by (by apply Forall_reverse).
  destruct (reverse (c :: l)) as [|d r] eqn:Er.
  { apply (f_equal length) in Er. rewrite length_reverse in Er. done. }
  apply Forall_cons in Hrev as [[_ Hd] _]. rewrite trim_start_id by done.
  rewrite <- Er, reverse_involutive. done.
Qed.

(** The decimal text of a number holds digits only. *)
Lemma pretty_N_go_digits x s :
  Forall (fun c => is_ascii_digit c = true) (chars s) ->
  Forall (fun c => is_ascii_digit c = true) (chars (pretty_N_go x s)).
Proof.
  revert s. induction (N.lt_wf_0 x) as [x _ IH]; intros s Hs.
  destruct (decide (x = 0%N)) as [->|Hx]; [by rewrite pretty_N_go_0|].
  rewrite pretty_N_go_step by lia. apply IH; [by apply N.div_lt; lia|].
  constructor; [|done]. unfold pretty_N_char. by repeat case_match.
Qed.

Lemma pretty_N_digits (x : N) : Forall (fun c => is_ascii_digit c = true) (chars (pretty x)).
Proof.
  unfold pretty, pretty_N. case_decide; [by repeat constructor|].
  apply pretty_N_go_digits. constructor.
Qed.

Lemma pretty_Z_digits (z : Z) :
  0 <= z -> Forall (fun c => is_ascii_digit c = true) (chars (pretty z)).
Proof.
  intros Hz. destruct z as [|p|p]; [by repeat constructor| |lia]. apply (pretty_N_digits (Npos p)).
Qed.

(** Two texts that start with digits followed by a separator split the same way. *)
Lemma digits_split (a b c d : list ascii) (sep : ascii) :
  is_ascii_digit sep = false ->
  Forall (fun x => is_ascii_digit x = true) a -> Forall (fun x => is_ascii_digit x = true) b ->
  a ++ sep :: c = b ++ sep :: d -> a = b /\ c = d.
Proof.
  intros Hsep. revert b. induction a as [|x a IH]; intros b Ha Hb; cbn.
  - destruct b as [|y b]; cbn; [by intros [= ->]|].
    intros [= <- _]. apply Forall_cons in Hb as [Hb _]. congruence.
  - apply Forall_cons in Ha as [Hx Ha]. destruct b as [|y b]; cbn.
    + intros [= -> _]. congruence.
    + intros [= -> E]. apply Forall_cons in Hb as [_ Hb].
      destruct (IH b Ha Hb E) as [-> ->]. done.
Qed.

(** * The order of texts: lexicographic on the bytes, as [String]'s [Ord]. *)
Fixpoint lex_leb {A} (leb : A -> A -> bool) (eqb : A -> A -> bool) (l k : list A) : bool :=
  match l, k with
  | [], _ => true
  | _ :: _, [] => false
  | x :: l', y :: k' => if eqb x y then lex_leb leb eqb l' k' else leb x y
  end.

#[local] Obligation Tactic := idtac.

#[global] Program Instance list_ord {A} `{EqDecision A, TotalOrd A} : TotalOrd (list A) :=
  {| ord_leb := lex_leb ord_leb (fun x y => bool_decide (x = y)) |}.
Next Obligation.
  intros A ?? l. induction l as [|x l IH]; cbn; [done|]. by rewrite bool_decide_eq_true_2.
Qed.
Next Obligation.
  intros A ?? l. induction l as [|x l IH]; intros [|y k]; cbn; try auto.
  repeat case_bool_decide; try congruence; [apply IH|apply ord_total].
Qed.
Next Obligation.
  intros A ?? l. induction l as [|x l IH]; intros [|y k] [|z m]; cbn; try done.
  repeat case_bool_decide; subst; try done; try congruence.
  - apply IH.
  - intros Hxy Hyx. pose proof (ord_antisym _ _ Hxy Hyx). congruence.
  - apply ord_trans.
Qed.
Next Obligation.
  intros A ?? l. induction l as [|x l IH]; intros [|y k]; cbn; try done.
  repeat case_bool_decide; subst; try done; try congruence.
  - intros. f_equal. by apply IH.
  - intros Hxy Hyx. pose proof (ord_antisym _ _ Hxy Hyx). congruence.
Qed.

Definition bytes_of_string (s : string) : list Z := code <$> chars s.

#[global] Instance bytes_of_string_inj : Inj (=) (=) bytes_of_string.
Proof.
  intros s t Hst. rewrite <- (text_chars s), <- (text_chars t). f_equal. unfold bytes_of_string in Hst.
  revert Hst. apply list_fmap_eq_inj. intros x y Hxy. unfold code in Hxy.
  rewrite <- (ascii_nat_embedding x), <- (ascii_nat_embedding y). f_equal. lia.
Qed.

#[global] Program Instance string_ord : TotalOrd string :=
  {| ord_leb s t := ord_leb (bytes_of_string s) (bytes_of_string t) |}.
Next Obligation. intros. apply ord_refl. Qed.
Next Obligation. intros. apply ord_total. Qed.
Next Obligation. intros x y z. apply ord_trans. Qed.
Next Obligation. intros x y Hxy Hyx. apply (inj bytes_of_string). by apply ord_antisym. Qed.
