(* ===== verification/Bytes.v ===== *)
(** Bytes, big-endian integers and slices: what the wire codecs use of the
    language ([u16::to_be_bytes], [u64::from_be_bytes], [slice::get], slice
    indexing) and what they use of the byte-level crates ([hex], [blake3]),
    which are parameters with their documented laws. *)

From S2P Require Import Prelude Text.
From Stdlib Require Export Init.Byte.
From Stdlib Require Import Strings.Byte.

#[local] Open Scope Z_scope.

#[global] Instance byte_eq_dec : EqDecision byte.
Proof. intros a b. apply Byte.byte_eq_dec. Defined.

Lemma byte_code_roundtrip b : (n ← decode (encode (Byte.to_N b)); Byte.of_N n) = Some b.
Proof. rewrite decode_encode. cbn. apply Byte.of_to_N. Qed.

#[global] Instance byte_countable : Countable byte := {|
  encode b := encode (Byte.to_N b);
  decode p := n ← decode p; Byte.of_N n;
  decode_encode := byte_code_roundtrip;
|}.

(** [b as u64] and [z as u8]. *)
Definition byte_to_Z (b : byte) : Z := Z.of_N (Byte.to_N b).
Definition byte_of_Z (z : Z) : byte := default x00 (Byte.of_N (Z.to_N (z mod 256))).

Lemma byte_to_Z_range b : 0 <= byte_to_Z b < 256.
Proof. unfold byte_to_Z. pose proof (Byte.to_N_bounded b). lia. Qed.

Lemma byte_of_to_Z b : byte_of_Z (byte_to_Z b) = b.
Proof.
  unfold byte_of_Z. rewrite Z.mod_small by apply byte_to_Z_range.
  unfold byte_to_Z. rewrite N2Z.id, Byte.of_to_N. done.
Qed.

Lemma byte_to_of_Z z : byte_to_Z (byte_of_Z z) = z mod 256.
Proof.
  unfold byte_of_Z, byte_to_Z.
  pose proof (Z.mod_pos_bound z 256 ltac:(lia)) as Hr.
  destruct (Byte.of_N (Z.to_N (z mod 256))) as [b|] eqn:E; cbn.
  - apply Byte.to_of_N in E. rewrite E. lia.
  - apply Byte.of_N_None_iff in E. lia.
Qed.

(** [to_be_bytes] of an [n]-byte integer, and [from_be_bytes]. *)
Fixpoint le_bytes (n : nat) (z : Z) : list byte :=
  match n with
  | O => []
  | S n' => byte_of_Z z :: le_bytes n' (z / 256)
  end.

Definition be_bytes (n : nat) (z : Z) : list byte := reverse (le_bytes n z).

Fixpoint le_value (l : list byte) : Z :=
  match l with
  | [] => 0
  | b :: l' => byte_to_Z b + 256 * le_value l'
  end.

Definition be_value (l : list byte) : Z := le_value (reverse l).

Lemma length_le_bytes n z : length (le_bytes n z) = n.
Proof. revert z. induction n; intros; cbn; [done|]. by rewrite IHn. Qed.

Lemma length_be_bytes n z : length (be_bytes n z) = n.
Proof. unfold be_bytes. by rewrite length_reverse, length_le_bytes. Qed.

Lemma le_value_bytes n z : le_value (le_bytes n z) = z mod 256 ^ Z.of_nat n.
Proof.
  revert z. induction n as [|n IH]; intros z.
  - cbn. by rewrite Z.mod_1_r.
  - cbn [le_bytes le_value]. rewrite IH, byte_to_of_Z.
    replace (Z.of_nat (S n)) with (Z.of_nat n + 1) by lia.
    rewrite Z.pow_add_r, Z.pow_1_r, Z.mul_comm with (m := 256) by lia.
    rewrite Z.rem_mul_r; lia.
Qed.

Lemma le_bytes_value l : le_bytes (length l) (le_value l) = l.
Proof.
  induction l as [|b l IH]; [done|]. cbn.
  pose proof (byte_to_Z_range b) as Hb. f_equal.
  - rewrite <- (byte_of_to_Z b) at 2. unfold byte_of_Z. do 3 f_equal.
    rewrite Z.mul_comm, Z_mod_plus_full. done.
  - rewrite Z.mul_comm, Z.div_add by lia. rewrite Z.div_small by lia. exact IH.
Qed.

Lemma le_value_range l : 0 <= le_value l < 256 ^ len l.
Proof.
  unfold len. induction l as [|b l IH]; [cbn; lia|].
  cbn [le_value length]. pose proof (byte_to_Z_range b).
  rewrite Nat2Z.inj_succ, Z.pow_succ_r by lia. lia.
Qed.

Lemma be_value_bytes n z : 0 <= z < 256 ^ Z.of_nat n -> be_value (be_bytes n z) = z.
Proof.
  intros H. unfold be_value, be_bytes. rewrite reverse_involutive, le_value_bytes.
  by apply Z.mod_small.
Qed.

Lemma be_bytes_value l : be_bytes (length l) (be_value l) = l.
Proof.
  unfold be_bytes, be_value. rewrite <- (length_reverse l), le_bytes_value.
  apply reverse_involutive.
Qed.

Lemma be_value_range l : 0 <= be_value l < 256 ^ len l.
Proof.
  unfold be_value. pose proof (le_value_range (reverse l)) as H.
  unfold len in *. by rewrite length_reverse in H.
Qed.

Lemma be_value_u16 l : len l = 2 -> is_u16 (be_value l).
Proof. intros Hl. pose proof (be_value_range l) as Hr. rewrite Hl in Hr. ulia. Qed.

Lemma be_value_u64 l : len l = 8 -> is_u64 (be_value l).
Proof. intros Hl. pose proof (be_value_range l) as Hr. rewrite Hl in Hr. ulia. Qed.

(** * Slices

    [data.get(i..j)] is [slice_get]; [data[i..j]] is the same range, and
    panics when it is out of bounds. *)
Definition slice_get {A} (data : list A) (i j : Z) : option (list A) :=
  if decide (0 <= i <= j /\ j <= len data)
  then Some (take (Z.to_nat (j - i)) (drop (Z.to_nat i) data))
  else None.

Definition slice_index {A} (data : list A) (i j : Z) : run (list A) :=
  expect (slice_get data i j).

Lemma slice_get_Some {A} (data : list A) i j :
  0 <= i <= j -> j <= len data ->
  slice_get data i j = Some (take (Z.to_nat (j - i)) (drop (Z.to_nat i) data)).
Proof. intros. unfold slice_get. rewrite decide_True by done. done. Qed.

Lemma slice_get_length {A} (data l : list A) i j :
  slice_get data i j = Some l -> len l = j - i.
Proof.
  unfold slice_get. case_decide as H; intros [= <-].
  unfold len in *. rewrite length_take, length_drop. lia.
Qed.

Lemma slice_get_is_Some {A} (data : list A) i j :
  0 <= i <= j -> j <= len data ->
  exists l, slice_get data i j = Some l /\ len l = j - i.
Proof.
  intros H1 H2. rewrite slice_get_Some by done. eexists. split; [done|].
  eapply slice_get_length. by apply slice_get_Some.
Qed.

(** The slice between two parts of known length is the middle part. *)
Lemma slice_get_app {A} (pre mid post : list A) i j :
  i = len pre -> j = i + len mid ->
  slice_get (pre ++ mid ++ post) i j = Some mid.
Proof.
  intros -> ->. rewrite slice_get_Some; unfold len in *; rewrite ?length_app; try lia.
  rewrite Nat2Z.id, drop_app_length.
  replace (Z.to_nat _) with (length mid) by lia. by rewrite take_app_length.
Qed.

(** A slice splits the rest of the data. *)
Lemma slice_get_drop {A} (data l : list A) i j :
  slice_get data i j = Some l -> drop (Z.to_nat i) data = l ++ drop (Z.to_nat j) data.
Proof.
  unfold slice_get. case_decide as Hd; intros [= <-].
  rewrite <- (take_drop (Z.to_nat (j - i)) (drop (Z.to_nat i) data)) at 1.
  f_equal. rewrite drop_drop. f_equal. lia.
Qed.

Lemma slice_index_Ret {A} (data : list A) i j :
  0 <= i <= j -> j <= len data ->
  exists l, slice_index data i j = Ret l /\ slice_get data i j = Some l /\ len l = j - i.
Proof.
  intros H1 H2. destruct (slice_get_is_Some data i j H1 H2) as (l & Hl & Hlen).
  exists l. unfold slice_index. by rewrite Hl.
Qed.

(** * The [hex] crate

    [hex::encode] writes two digits per byte; [hex::decode] reads them back,
    in either case; [hex::decode_to_slice] fills a slice of [n] bytes and
    fails unless the text has exactly [2 * n] digits. *)
Class HexLib := {
  hex_encode : list byte -> string;
  hex_decode : string -> result (list byte) string;
}.

Class HexLaws (H : HexLib) : Prop := {
  hex_decode_encode bs : hex_decode (hex_encode bs) = Ok bs;
  hex_decode_length s bs : hex_decode s = Ok bs -> Z.of_nat (String.length s) = 2 * len bs;
}.

(** [hex::encode] writes hex digits only. *)
Class HexDigits (H : HexLib) : Prop := {
  hex_digits bs : Forall (fun c => is_ascii_hexdigit c = true) (chars (hex_encode bs));
}.

(** * The [blake3] crate: a 32-byte digest. *)
Class Blake3Lib := {
  blake3_hash : list byte -> list byte;
}.

Class Blake3Laws (B : Blake3Lib) : Prop := {
  blake3_length bs : len (blake3_hash bs) = 32;
}.

(** [Hash::to_hex] is the lower-case hex text of the digest. *)
Definition blake3_hex `{HexLib, Blake3Lib} (bs : list byte) : string :=
  hex_encode (blake3_hash bs).

Lemma blake3_hex_len `{H : HexLib, B : Blake3Lib} `{!HexLaws H, !Blake3Laws B} bs :
  Z.of_nat (String.length (blake3_hex bs)) = 64.
Proof.
  unfold blake3_hex. pose proof (hex_decode_encode (blake3_hash bs)) as E.
  apply hex_decode_length in E. by rewrite blake3_length in E.
Qed.

Lemma blake3_hex_inj `{H : HexLib, B : Blake3Lib} `{!HexLaws H} a b :
  blake3_hex a = blake3_hex b -> blake3_hash a = blake3_hash b.
Proof.
  unfold blake3_hex. intros E. pose proof (hex_decode_encode (blake3_hash a)) as Ha.
  rewrite E, hex_decode_encode in Ha. by injection Ha.
Qed.

Lemma be_bytes_inj n a b :
  0 <= a < 256 ^ Z.of_nat n -> 0 <= b < 256 ^ Z.of_nat n -> be_bytes n a = be_bytes n b -> a = b.
Proof. intros Ha Hb E. rewrite <- (be_value_bytes n a), <- (be_value_bytes n b) by done. by rewrite E. Qed.
