(* ===== verification/BTree.v ===== *)
(** Ordered sets: what the sources use of [std::collections::BTreeSet].  The
    elements are a [gset]; [bt_first] is [iter().next()], the least element, and
    [bt_iter] is [iter()], the elements in ascending order. *)

From S2P Require Import Prelude.

#[local] Open Scope Z_scope.

Section btree.
Context {A : Type} `{Countable A, TotalOrd A}.

Definition ord_min (x : A) (acc : option A) : option A :=
  match acc with
  | None => Some x
  | Some y => if ord_leb x y then Some x else Some y
  end.

Definition bt_first (s : gset A) : option A := foldr ord_min None (elements s).

#[global] Instance ord_leb_dec : RelDecision (fun x y : A => ord_leb x y = true).
Proof. intros x y. apply _. Defined.

Definition bt_iter (s : gset A) : list A :=
  merge_sort (fun x y => ord_leb x y = true) (elements s).

Lemma foldr_ord_min_None (l : list A) : foldr ord_min None l = None -> l = [].
Proof.
  destruct l as [|x l]; [done|]. cbn.
  destruct (foldr ord_min None l) as [y|]; cbn; [destruct (ord_leb x y)|]; done.
Qed.

Lemma foldr_ord_min (l : list A) x :
  foldr ord_min None l = Some x -> x ∈ l /\ forall y, y ∈ l -> ord_leb x y = true.
Proof.
  revert x. induction l as [|a l IH]; intros x; cbn; [done|].
  destruct (foldr ord_min None l) as [z|] eqn:E; cbn.
  - destruct (IH z eq_refl) as [Hin Hle].
    destruct (ord_leb a z) eqn:Ez; intros [= <-].
    + split; [by left|]. intros y [->|Hy]%elem_of_cons; [apply ord_refl|].
      eapply ord_trans; eauto.
    + split; [by right|]. intros y [->|Hy]%elem_of_cons; [|auto].
      destruct (ord_total z a); [done|congruence].
  - apply foldr_ord_min_None in E as ->. intros [= <-]. split; [by left|].
    intros y ->%list_elem_of_singleton. apply ord_refl.
Qed.

(** The first element is in the set and below every other one. *)
Lemma bt_first_Some (s : gset A) x :
  bt_first s = Some x -> x ∈ s /\ forall y, y ∈ s -> ord_leb x y = true.
Proof.
  intros Hf. apply foldr_ord_min in Hf as [Hin Hle]. split; [by apply elem_of_elements|].
  intros y Hy. apply Hle. by apply elem_of_elements.
Qed.

Lemma bt_first_None (s : gset A) : bt_first s = None <-> s = ∅.
Proof.
  split.
  - intros Hf. apply foldr_ord_min_None in Hf. by apply elements_empty_iff, leibniz_equiv in Hf.
  - intros ->. unfold bt_first. by rewrite elements_empty.
Qed.

Lemma bt_first_is_Some (s : gset A) : s ≠ ∅ -> exists x, bt_first s = Some x.
Proof. intros Hs. destruct (bt_first s) eqn:E; [eauto|]. by apply bt_first_None in E. Qed.

Lemma size_remove_elem (s : gset A) x : x ∈ s -> (size (s ∖ {[x]}) < size s)%nat.
Proof.
  intros Hx. apply subset_size. set_solver.
Qed.

Lemma bt_iter_Permutation (s : gset A) : bt_iter s ≡ₚ elements s.
Proof. apply merge_sort_Permutation. Qed.

Lemma elem_of_bt_iter (s : gset A) x : x ∈ bt_iter s <-> x ∈ s.
Proof. by rewrite bt_iter_Permutation, elem_of_elements. Qed.
End btree.
