(* ===== verification/BoundedSet.v ===== *)
(** Sets bounded by evicting their oldest member: a [HashSet] beside a
    [VecDeque] that holds its members in the order they came.  The sources keep
    several (crates/connectivity/dht/state.rs [prune_peer_set] and
    [remove_peer_from_bounded_set], crates/node/dial.rs); they all follow this
    discipline, so its invariant is proved once here. *)

From S2P Require Import Prelude.

#[local] Open Scope Z_scope.

Section bounded.
Context {A : Type} `{Countable A}.

Record BoundedSet := { bset : gset A; border : list A }.

Definition BoundedSet_empty : BoundedSet := {| bset := ∅; border := [] |}.

(** One iteration of the pruning loop; it breaks when the queue is empty. *)
Definition prune_peer_step (max_entries : Z) (b : BoundedSet) : option BoundedSet :=
  if decide (max_entries < Z.of_nat (size (bset b))) then
    match border b with
    | [] => None
    | evicted :: rest => Some {| bset := bset b ∖ {[evicted]}; border := rest |}
    end
  else None.

Definition prune_peer_set (max_entries : Z) (b : BoundedSet) : BoundedSet :=
  loop (prune_peer_step max_entries) (length (border b)) b.

Definition bounded_insert (max_entries : Z) (x : A) (b : BoundedSet) : bool * BoundedSet :=
  if decide (x ∈ bset b) then (false, b)
  else (true, prune_peer_set max_entries {| bset := {[x]} ∪ bset b; border := border b ++ [x] |}).

Definition remove_peer_from_bounded_set (x : A) (b : BoundedSet) : bool * BoundedSet :=
  if decide (x ∈ bset b) then (true, {| bset := bset b ∖ {[x]}; border := filter (fun y => y ≠ x) (border b) |})
  else (false, b).

(** The queue is the set, each member once, within the bound. *)
Definition bounded_ok (max_entries : Z) (b : BoundedSet) : Prop :=
  NoDup (border b) /\ bset b = list_to_set (border b) /\ len (border b) <= max_entries.

Lemma size_of_order (l : list A) : NoDup l -> Z.of_nat (size (list_to_set l : gset A)) = len l.
Proof. intros Hl. unfold len. by rewrite size_list_to_set. Qed.

Lemma prune_spec max_entries b :
  0 <= max_entries -> NoDup (border b) -> bset b = list_to_set (border b) ->
  let n := Z.to_nat (len (border b) - max_entries) in
  prune_peer_set max_entries b = {| bset := list_to_set (drop n (border b)); border := drop n (border b) |}.
Proof.
  intros Hm. unfold prune_peer_set. destruct b as [s l]. cbn. revert s. induction l as [|x l IH]; intros s Hnd ->; cbn.
  - rewrite drop_nil. done.
  - unfold prune_peer_step at 1. cbn [bset border].
    change ({[x]} ∪ list_to_set l : gset A) with (list_to_set (x :: l) : gset A). rewrite size_of_order by done.
    apply NoDup_cons in Hnd as [Hx Hnd].
    case_decide as Hd.
    + rewrite IH; [|done|set_solver].
      replace (Z.to_nat (len (x :: l) - max_entries)) with (S (Z.to_nat (len l - max_entries))); [done|].
      unfold len in *. cbn in *. lia.
    + replace (Z.to_nat (len (x :: l) - max_entries)) with 0%nat by lia. done.
Qed.

Lemma bounded_insert_ok max_entries x b :
  0 <= max_entries -> bounded_ok max_entries b -> bounded_ok max_entries (bounded_insert max_entries x b).2.
Proof.
  intros Hm (Hnd & Hs & Hl). unfold bounded_insert. case_decide as Hx; [done|]. cbn [snd].
  rewrite Hs, elem_of_list_to_set in Hx. rewrite prune_spec; cbn [bset border]; [|done| |].
  - split; cbn; [eapply sublist_NoDup; [|apply sublist_drop]|split; [done|]].
    + apply NoDup_app. split; [done|]. split; [set_solver|apply NoDup_singleton].
    + unfold len in *. rewrite length_drop. lia.
  - apply NoDup_app. split; [done|]. split; [set_solver|apply NoDup_singleton].
  - rewrite Hs. set_solver.
Qed.

(** Within the bound an insertion keeps every member; past it the oldest goes. *)
Lemma bounded_insert_elem max_entries x y b :
  0 < max_entries -> bounded_ok max_entries b ->
  y ∈ bset (bounded_insert max_entries x b).2 <->
  (y = x \/ y ∈ bset b) /\ (x ∈ bset b \/ len (border b) < max_entries \/ Some y ≠ head (border b)).
Proof.
  intros Hm (Hnd & Hs & Hl). unfold bounded_insert. case_decide as Hx; cbn [snd].
  { split; [intros; split; [by right|by left]|intros [[->|] _]; done]. }
  assert (Hx' : x ∉ border b) by (by rewrite Hs, elem_of_list_to_set in Hx).
  rewrite prune_spec; cbn [bset border]; [|lia| |].
  2: { apply NoDup_app. split; [done|]. split; [set_solver|apply NoDup_singleton]. }
  2: { rewrite Hs. set_solver. }
  rewrite len_app. change (len [x]) with 1. rewrite Hs, elem_of_list_to_set in Hx.
  destruct (decide (len (border b) < max_entries)) as [Hlt|Hge].
  - replace (Z.to_nat (len (border b) + 1 - max_entries)) with 0%nat by lia. rewrite Hs. set_solver.
  - replace (Z.to_nat (len (border b) + 1 - max_entries)) with 1%nat by lia.
    destruct (border b) as [|z l] eqn:E; [unfold len in *; cbn in *; lia|]. cbn [app drop head].
    apply NoDup_cons in Hnd as [Hz Hnd]. rewrite Hs.
    assert (Ha : y ∈ (list_to_set (l ++ [x]) : gset A) <-> y ∈ l \/ y = x) by set_solver.
    assert (Hb : y ∈ (list_to_set (z :: l) : gset A) <-> y = z \/ y ∈ l) by set_solver.
    assert (Hc : x ∉ (list_to_set (z :: l) : gset A)) by set_solver. rewrite Ha, Hb.
    split.
    + intros [Hy| ->]; (split; [tauto|right; right; intros [= ->]]); [done|]. apply Hx. by left.
    + intros [[->|[->|Hy]] [?|[?|Hne]]]; try tauto; lia.
Qed.

Lemma remove_bounded_ok max_entries x b :
  bounded_ok max_entries b -> bounded_ok max_entries (remove_peer_from_bounded_set x b).2.
Proof.
  intros (Hnd & Hs & Hl). unfold remove_peer_from_bounded_set. case_decide as Hx; [|done]. cbn. split; cbn.
  - by apply NoDup_filter.
  - split; [rewrite Hs; apply set_eq; intros y; rewrite elem_of_difference, !elem_of_list_to_set, list_elem_of_filter; set_solver|].
    unfold len in *. pose proof (length_filter (fun y => y ≠ x) (border b)). lia.
Qed.

Lemma remove_bounded_elem x y b :
  y ∈ bset (remove_peer_from_bounded_set x b).2 <-> y ∈ bset b /\ y ≠ x.
Proof. unfold remove_peer_from_bounded_set. case_decide; cbn; set_solver. Qed.

Lemma BoundedSet_empty_ok max_entries : 0 <= max_entries -> bounded_ok max_entries BoundedSet_empty.
Proof. intros. split; [constructor|]. done. Qed.
End bounded.
Arguments BoundedSet A {_ _}.
