(* ===== verification/Common.v ===== *)
(** The error type of the crate (crates/common/error.rs) and the identity and
    address types of libp2p, which the sources only use through their public
    interface: [PeerId] and [Multiaddr] are parameters with their documented
    laws. *)

From S2P Require Import Prelude Bytes.
From Stdlib Require Import Strings.Byte.

#[local] Open Scope Z_scope.

Inductive NetError : Type :=
| Build (reason : string)
| Listen (addr reason : string)
| Heartbeat (reason : string)
| GossipCodec (reason : string)
| Config (path reason : string)
| Identity (path reason : string)
| ApiCommand (reason : string)
| Dial (target reason : string)
| AppTopic (topic reason : string)
| AppMessageError (topic reason : string).

#[global] Instance NetError_eq_dec : EqDecision NetError.
Proof. solve_decision. Defined.

Definition config_at (path reason : string) : NetError := Config path reason.
Definition config (reason : string) : NetError := config_at "<config>" reason.
Definition config_error (reason : string) : NetError := config reason.
Definition config_error_at (path reason : string) : NetError := config_at path reason.

(** * [libp2p::PeerId] *)
Class PeerIdLib := {
  PeerId : Type;
  peer_eq_dec :: EqDecision PeerId;
  peer_countable :: Countable PeerId;
  peer_ord :: TotalOrd PeerId;
  peer_to_string : PeerId -> string;
  peer_parse : string -> result PeerId string;
  peer_to_bytes : PeerId -> list byte;
  peer_from_bytes : list byte -> result PeerId string;
}.

(** [FromStr] reads back [Display], [from_bytes] reads back [to_bytes]. *)
Class PeerIdLaws (P : PeerIdLib) : Prop := {
  peer_parse_to_string p : peer_parse (peer_to_string p) = Ok p;
  peer_from_to_bytes p : peer_from_bytes (peer_to_bytes p) = Ok p;
}.

(** * IP addresses of the standard library: octets and segments. *)
Record Ipv4Addr := { ip4_a : Z; ip4_b : Z; ip4_c : Z; ip4_d : Z }.
Record Ipv6Addr := { ip6_segments : list Z }.

#[global] Instance Ipv4Addr_eq_dec : EqDecision Ipv4Addr.
Proof. solve_decision. Defined.
#[global] Instance Ipv6Addr_eq_dec : EqDecision Ipv6Addr.
Proof. solve_decision. Defined.

#[global] Instance Ipv4Addr_countable : Countable Ipv4Addr.
Proof.
  apply (inj_countable' (fun i => (ip4_a i, ip4_b i, ip4_c i, ip4_d i))
    (fun '(a, b, c, d) => Build_Ipv4Addr a b c d)). by intros [].
Defined.
#[global] Instance Ipv6Addr_countable : Countable Ipv6Addr.
Proof. apply (inj_countable' ip6_segments Build_Ipv6Addr). by intros []. Defined.

Inductive IpAddr : Type := V4 (ip : Ipv4Addr) | V6 (ip : Ipv6Addr).

#[global] Instance IpAddr_eq_dec : EqDecision IpAddr.
Proof. solve_decision. Defined.
#[global] Instance IpAddr_countable : Countable IpAddr.
Proof.
  apply (inj_countable' (fun i => match i with V4 a => inl a | V6 a => inr a end)
    (fun s => match s with inl a => V4 a | inr a => V6 a end)). by intros [].
Defined.

(** * [libp2p::Multiaddr]: a sequence of protocol components

    [Protocol] has the components the sources name; every other component of
    the libp2p enum is [OtherProtocol] with its text. *)
Section protocol.
Context {P : PeerIdLib}.

Inductive Protocol : Type :=
| Ip4 (ip : Ipv4Addr)
| Ip6 (ip : Ipv6Addr)
| Dns (name : string)
| Dns4 (name : string)
| Dns6 (name : string)
| Dnsaddr (name : string)
| Tcp (port : Z)
| Udp (port : Z)
| Quic
| QuicV1
| Ws
| Wss
| WebRTC
| WebRTCDirect
| P2pWebRtcDirect
| WebTransport
| Certhash (hash : string)
| P2p (peer : PeerId)
| P2pCircuit
| OtherProtocol (text : string).

#[global] Instance Protocol_eq_dec : EqDecision Protocol.
Proof. solve_decision. Defined.

Class MultiaddrLib := {
  Multiaddr : Type;
  addr_eq_dec :: EqDecision Multiaddr;
  addr_countable :: Countable Multiaddr;
  addr_ord :: TotalOrd Multiaddr;
  addr_iter : Multiaddr -> list Protocol;
  addr_with : Multiaddr -> Protocol -> Multiaddr;
  addr_to_string : Multiaddr -> string;
  addr_parse : string -> result Multiaddr string;
}.

(** [with] appends one component; [FromStr] reads back [Display]. *)
Class MultiaddrLaws (M : MultiaddrLib) : Prop := {
  addr_iter_with a p : addr_iter (addr_with a p) = addr_iter a ++ [p];
  addr_parse_to_string a : addr_parse (addr_to_string a) = Ok a;
}.
End protocol.

(** The order in which a [HashSet] (or the keys of a [HashMap]) is traversed is some order of its elements. *)
Class HashIter (A : Type) `{Countable A} := {
  hash_iter : gset A -> list A;
  hash_iter_elements s : hash_iter s ≡ₚ elements s;
}.
