(* ===== verification/Float64.v ===== *)
(** [f64]: the binary64 numbers of IEEE 754, on the executable specification of the
    Standard Library.  A number is a canonical [spec_float]; the operations round to
    nearest, ties to even, and are shown to give canonical numbers again.  On top of
    them: what the casts of the source compute, that comparison is the order of the
    values, and that adding a number that is not positive never leads above the other. *)

From S2P Require Import Prelude.
From Stdlib Require Import Floats.SpecFloat.

#[local] Open Scope Z_scope.

Module Rounding.
Definition prec : Z := 53.
Definition emax : Z := 1024.
Abbreviation emin := (SpecFloat.emin prec emax).
Abbreviation fexp := (SpecFloat.fexp prec emax).
Abbreviation round_aux := (binary_round_aux prec emax).
Abbreviation valid := (valid_binary prec emax).

(** * Rounding *)

Lemma fexp_eq e : fexp e = Z.max (e - 53) (-1074).
Proof. done. Qed.

Lemma digits2_log2 p : Zpos (digits2_pos p) = Z.log2 (Zpos p) + 1.
Proof.
  induction p as [p IH|p IH|]; [| |done]; cbn [digits2_pos]; rewrite Pos2Z.inj_succ, IH.
  - by rewrite (Pos2Z.inj_xI p), Z.log2_succ_double.
  - by rewrite (Pos2Z.inj_xO p), Z.log2_double.
Qed.

Lemma Zdigits2_bounds m : 0 < m -> 2 ^ (Zdigits2 m - 1) <= m < 2 ^ Zdigits2 m.
Proof.
  intros Hm. destruct m as [|p|p]; [lia| |lia]. cbn [Zdigits2]. rewrite digits2_log2.
  pose proof (Z.log2_spec (Zpos p) ltac:(lia)). by replace (Z.log2 (Zpos p) + 1 - 1) with (Z.log2 (Zpos p)) by lia.
Qed.

Lemma Zdigits2_pos m : 0 < m -> 0 < Zdigits2 m.
Proof. destruct m; cbn; lia. Qed.

Lemma Zdigits2_unique m d : 0 < d -> 2 ^ (d - 1) <= m < 2 ^ d -> Zdigits2 m = d.
Proof.
  intros Hd Hm. assert (0 < m) by (pose proof (Z.pow_pos_nonneg 2 (d - 1)); lia).
  destruct m as [|p|p]; [lia| |lia]. cbn [Zdigits2]. rewrite digits2_log2.
  rewrite (Z.log2_unique (Zpos p) (d - 1)); [lia|lia|]. by replace (Z.succ (d - 1)) with d by lia.
Qed.

Lemma iter_pos_iter {A} (f : A -> A) p x : iter_pos f p x = Pos.iter f x p.
Proof. revert x. induction p as [p IH|p IH|]; intros x; cbn; [|by rewrite !IH|done]. rewrite !IH. by rewrite <- Pos.iter_swap, <- Pos.iter_swap. Qed.

(** Shifting right divides, and remembers whether anything was lost. *)
Definition lost (r : shr_record) : bool := shr_r r || shr_s r.

Lemma shr_1_spec r : 0 <= shr_m r ->
  shr_m (shr_1 r) = shr_m r / 2 /\ lost (shr_1 r) = Z.odd (shr_m r) || lost r.
Proof.
  destruct r as [m r s]. unfold lost. destruct m as [|[p|p|]|p]; cbn; try lia; intros _; (split; [|by destruct r, s]); try done.
  - rewrite (Pos2Z.inj_xI p). apply (Z.div_unique _ _ _ 1); lia.
  - rewrite (Pos2Z.inj_xO p). apply (Z.div_unique _ _ _ 0); lia.
Qed.

Lemma shr_iter_spec p r : 0 <= shr_m r ->
  shr_m (iter_pos shr_1 p r) = shr_m r / 2 ^ Zpos p /\
  (lost (iter_pos shr_1 p r) = false <-> lost r = false /\ shr_m r mod 2 ^ Zpos p = 0).
Proof.
  rewrite iter_pos_iter. intros Hm. induction p as [|p [IH1 IH2]] using Pos.peano_ind.
  - cbn. destruct (shr_1_spec r Hm) as [-> ->]. split; [done|]. rewrite orb_false_iff. rewrite Zmod_odd. destruct (Z.odd _); naive_solver.
  - rewrite Pos.iter_succ, Pos2Z.inj_succ, Z.pow_succ_r by lia.
    assert (Hp : 0 < 2 ^ Zpos p) by (apply Z.pow_pos_nonneg; lia).
    destruct (shr_1_spec (Pos.iter shr_1 r p)) as [-> ->]; [rewrite IH1; apply Z.div_pos; lia|].
    rewrite IH1, Z.div_div by lia. rewrite (Z.mul_comm (2 ^ _) 2). split; [done|].
    rewrite orb_false_iff, IH2. rewrite (Z.mul_comm 2), Z.rem_mul_r by lia. rewrite Zmod_odd.
    pose proof (Z.mod_pos_bound (shr_m r) (2 ^ Zpos p) Hp).
    destruct (Z.odd (shr_m r / _)); split; [naive_solver|intros [? ?]; exfalso; lia|intros (_ & ? & ->); split; [done|lia]|].
    intros [? ?]. split_and!; [done|done|lia].
Qed.

Lemma shr_fexp_spec m e l : 0 <= m -> e <= fexp (Zdigits2 m + e) ->
  exists r, shr_fexp prec emax m e l = (r, fexp (Zdigits2 m + e)) /\ shr_m r = m / 2 ^ (fexp (Zdigits2 m + e) - e) /\
    (l = loc_Exact -> m mod 2 ^ (fexp (Zdigits2 m + e) - e) = 0 -> lost r = false).
Proof.
  intros Hm He. unfold shr_fexp, shr. set (e' := fexp _) in *.
  assert (H0 : shr_m (shr_record_of_loc m l) = m) by (by destruct l as [|[]]).
  assert (H1 : l = loc_Exact -> lost (shr_record_of_loc m l) = false) by (by intros ->).
  destruct (e' - e) as [|p|p] eqn:E; [| |lia]; (eexists; split; [f_equal; lia|]).
  - change (2 ^ 0) with 1. rewrite Z.div_1_r. naive_solver.
  - destruct (shr_iter_spec p (shr_record_of_loc m l)) as [-> H2]; rewrite ?H0 in *; naive_solver.
Qed.

Lemma round_nearest_even_spec r :
  shr_m r <= round_nearest_even (shr_m r) (loc_of_shr_record r) <= shr_m r + 1 /\
  (lost r = false -> round_nearest_even (shr_m r) (loc_of_shr_record r) = shr_m r).
Proof. destruct r as [m [] []]; cbn; try destruct (Z.even m); split; (lia || done). Qed.

(** The second half of rounding: a mantissa of at most 53 bits at the exponent [e],
    or the next power of two. *)
Inductive finished (s : bool) (m e : Z) : spec_float -> Prop :=
  | finished_zero : m = 0 -> finished s m e (S754_zero s)
  | finished_finite m' e' : bounded prec emax m' e' = true -> Zpos m' * 2 ^ (e' - emin) = m * 2 ^ (e - emin) ->
      finished s m e (S754_finite s m' e')
  | finished_infinity : 2 ^ (emax - emin) <= m * 2 ^ (e - emin) -> finished s m e (S754_infinity s).

Definition finish (s : bool) (m e : Z) : spec_float :=
  let '(r, e) := shr_fexp prec emax m e loc_Exact in
  match shr_m r with
  | Z0 => S754_zero s
  | Zpos m => if Z.leb e (emax - prec) then S754_finite s m e else S754_infinity s
  | _ => S754_nan
  end.

Lemma canonical_iff p e : canonical_mantissa prec emax p e = true <->
  e = -1074 /\ Zpos p < 2 ^ 53 \/ -1074 < e /\ 2 ^ 52 <= Zpos p < 2 ^ 53.
Proof.
  unfold canonical_mantissa. rewrite Z.eqb_eq. change (Zpos (digits2_pos p)) with (Zdigits2 (Zpos p)).
  pose proof (Zdigits2_bounds (Zpos p) ltac:(lia)) as Hb. pose proof (Zdigits2_pos (Zpos p) ltac:(lia)).
  rewrite fexp_eq. set (d := Zdigits2 (Zpos p)) in *. split.
  - intros He. assert (d <= 53) by lia. pose proof (Z.pow_le_mono_r 2 d 53 ltac:(lia) ltac:(lia)).
    destruct (decide (e = -1074)); [left; lia|right]. assert (d = 53) by lia. split; [lia|]. by replace d with 53 in Hb.
  - intros [[-> Hp]|[He Hp]].
    + assert (d <= 53); [|lia]. apply Z.lt_succ_r, (Z.pow_lt_mono_r_iff 2); [lia|lia|].
      apply (Z.le_lt_trans _ (2 * 2 ^ (d - 1))); [rewrite <- Z.pow_succ_r by lia; by replace (Z.succ (d - 1)) with d by lia|].
      replace (2 ^ Z.succ 53) with (2 * 2 ^ 53) by done. lia.
    + unfold d. rewrite (Zdigits2_unique _ 53); [lia|lia|done].
Qed.

Lemma finish_keep s m e : 0 < m < 2 ^ 53 -> e = -1074 \/ -1074 < e /\ 2 ^ 52 <= m ->
  finish s m e = if Z.leb e (emax - prec) then S754_finite s (Z.to_pos m) e else S754_infinity s.
Proof.
  intros Hm He. destruct m as [|p|p]; [lia| |lia].
  assert (Hc : canonical_mantissa prec emax p e = true) by (apply canonical_iff; lia).
  unfold finish, shr_fexp. change (Zdigits2 (Zpos p)) with (Zpos (digits2_pos p)).
  unfold canonical_mantissa in Hc. apply Z.eqb_eq in Hc. rewrite Hc, Z.sub_diag. done.
Qed.

Lemma finish_carry s e : -1074 <= e -> finish s (2 ^ 53) e = if Z.leb (e + 1) (emax - prec) then S754_finite s (2 ^ 52) (e + 1) else S754_infinity s.
Proof.
  intros He. unfold finish, shr_fexp. change (Zdigits2 (2 ^ 53)) with 54. rewrite fexp_eq.
  replace (Z.max (54 + e - 53) (-1074) - e) with 1 by lia. done.
Qed.

Lemma finish_spec s m e : 0 <= m <= 2 ^ 53 -> e = -1074 \/ -1074 < e /\ 2 ^ 52 <= m -> finished s m e (finish s m e).
Proof.
  intros Hm He. destruct (decide (m = 0)) as [->|Hn].
  { destruct He as [->|[? ?]]; [|lia]. by apply finished_zero. }
  assert (Hpow : forall x, -1074 <= x -> 2 ^ (x - emin) = 2 ^ (x + 1074)) by done.
  destruct (decide (m = 2 ^ 53)) as [->|Hn'].
  - rewrite finish_carry by lia. destruct (Z.leb_spec (e + 1) (emax - prec)) as [H|H].
    + apply finished_finite; [unfold bounded; rewrite andb_true_iff; split; [apply canonical_iff; lia|by apply Z.leb_le]|].
      replace (e + 1 - emin) with (Z.succ (e - emin)) by lia. rewrite Z.pow_succ_r by (change emin with (-1074); lia). lia.
    + apply finished_infinity. change (emax - prec) with 971 in H. change emin with (-1074).
      rewrite <- Z.pow_add_r by lia. apply Z.pow_le_mono_r; [lia|]. change emax with 1024. lia.
  - rewrite finish_keep by lia. destruct (Z.leb_spec e (emax - prec)) as [H|H].
    + apply finished_finite; [unfold bounded; rewrite andb_true_iff; split; [|by apply Z.leb_le]|by rewrite Z2Pos.id by lia].
      apply canonical_iff. rewrite Z2Pos.id by lia. lia.
    + apply finished_infinity. change (emax - prec) with 971 in H. destruct He as [->|[He Hm']]; [lia|]. change emin with (-1074).
      apply (Z.le_trans _ (2 ^ 52 * 2 ^ (e - -1074))); [|apply Z.mul_le_mono_nonneg_r; [apply Z.pow_nonneg; lia|done]].
      rewrite <- Z.pow_add_r by lia. apply Z.pow_le_mono_r; [lia|]. change emax with 1024. lia.
Qed.

(** Rounding: the mantissa is divided by a power of two and the quotient, or its
    successor, finished. *)
Lemma round_aux_spec s m e l : 0 <= m -> e <= fexp (Zdigits2 m + e) ->
  exists rnd, let e' := fexp (Zdigits2 m + e) in let q := m / 2 ^ (e' - e) in
    q <= rnd <= q + 1 /\ (l = loc_Exact -> m mod 2 ^ (e' - e) = 0 -> rnd = q) /\
    (0 <= rnd <= 2 ^ 53 /\ (e' = -1074 \/ -1074 < e' /\ 2 ^ 52 <= rnd)) /\ finished s rnd e' (round_aux s m e l).
Proof.
  intros Hm He. destruct (shr_fexp_spec m e l Hm He) as (r & E & Hq & Hx).
  pose proof (round_nearest_even_spec r) as [Hr Hr']. unfold binary_round_aux. rewrite E.
  set (rnd := round_nearest_even _ _) in *. fold (finish s rnd (fexp (Zdigits2 m + e))).
  exists rnd. cbn zeta. rewrite fexp_eq in *. set (e' := Z.max _ _) in *. set (k := e' - e) in *.
  assert (Hk : 0 < 2 ^ k) by (apply Z.pow_pos_nonneg; lia).
  assert (Hb : 0 <= rnd <= 2 ^ 53 /\ (e' = -1074 \/ -1074 < e' /\ 2 ^ 52 <= rnd)).
  { destruct (decide (m = 0)) as [->|Hn].
    - rewrite Z.div_0_l in Hq by lia. change (Zdigits2 0) with 0 in e'. assert (2 ^ 53 > 1) by done. lia.
    - pose proof (Zdigits2_bounds m ltac:(lia)) as [Hlo Hhi]. pose proof (Zdigits2_pos m ltac:(lia)).
      pose proof (Z.pow_le_mono_r 2 (Zdigits2 m) (k + 53) ltac:(lia) ltac:(lia)) as Hd. rewrite Z.pow_add_r in Hd by lia.
      assert (Hq' : shr_m r < 2 ^ 53) by (rewrite Hq; apply Z.div_lt_upper_bound; lia).
      assert (0 <= shr_m r) by (rewrite Hq; by apply Z.div_pos). split; [lia|].
      destruct (decide (e' = -1074)); [by left|right]. split; [lia|].
      assert (2 ^ 52 <= shr_m r); [|lia]. rewrite Hq. apply Z.div_le_lower_bound; [done|].
      rewrite <- Z.pow_add_r by lia. replace (k + 52) with (Zdigits2 m - 1) by lia. done. }
  split_and!; [lia|lia|intros Hl Hz; rewrite Hr'; [done|auto]|lia|lia|apply Hb|].
  apply finish_spec; apply Hb.
Qed.

Lemma finished_valid s m e x : finished s m e x -> valid x = true.
Proof. by intros [| |]. Qed.

Lemma round_aux_valid s m e l : 0 <= m -> e <= fexp (Zdigits2 m + e) -> valid (round_aux s m e l) = true.
Proof. intros Hm He. destruct (round_aux_spec s m e l Hm He) as (rnd & _ & _ & _ & H). by eapply finished_valid. Qed.

Lemma pow_pos k : 0 <= k -> 0 < 2 ^ k.
Proof. intros. by apply Z.pow_pos_nonneg. Qed.

Lemma pow_split a b c : 0 <= b <= c -> a * 2 ^ c = a * 2 ^ (c - b) * 2 ^ b.
Proof. intros. rewrite <- Z.mul_assoc, <- Z.pow_add_r by lia. f_equal. f_equal. lia. Qed.

Lemma iter_xO m d : Zpos (Pos.iter xO m d) = Zpos m * 2 ^ Zpos d.
Proof.
  induction d as [|d IH] using Pos.peano_ind; [cbn; lia|].
  rewrite Pos.iter_succ, Pos2Z.inj_succ, Z.pow_succ_r by lia. rewrite Pos2Z.inj_xO. lia.
Qed.

Lemma shl_align_spec m e t : exists m', shl_align m e t = (m', Z.min e t) /\ Zpos m' = Zpos m * 2 ^ (e - Z.min e t).
Proof.
  unfold shl_align. destruct (t - e) as [|p|p] eqn:E.
  - exists m. replace (Z.min e t) with e by lia. rewrite Z.sub_diag. split; [done|lia].
  - exists m. replace (Z.min e t) with e by lia. rewrite Z.sub_diag. split; [done|lia].
  - exists (Pos.iter xO m p). rewrite iter_xO. replace (Z.min e t) with t by lia. replace (e - t) with (Zpos p) by lia. done.
Qed.

Lemma Zdigits2_shift m k : 0 < m -> 0 <= k -> Zdigits2 (m * 2 ^ k) = Zdigits2 m + k.
Proof.
  intros Hm Hk. pose proof (Zdigits2_bounds m Hm). pose proof (Zdigits2_pos m Hm). pose proof (pow_pos k Hk).
  apply Zdigits2_unique; [lia|]. replace (Zdigits2 m + k - 1) with (Zdigits2 m - 1 + k) by lia.
  rewrite !Z.pow_add_r by lia. nia.
Qed.

(** Rounding a positive mantissa at any exponent. *)
Lemma round_spec s m e : exists m' e0 rnd, let e' := fexp (Zdigits2 (Zpos m) + e) in
  e0 <= e' /\ e0 = Z.min e e' /\ Zpos m' = Zpos m * 2 ^ (e - e0) /\
  (Zpos m' / 2 ^ (e' - e0) <= rnd <= Zpos m' / 2 ^ (e' - e0) + 1) /\
  (Zpos m' mod 2 ^ (e' - e0) = 0 -> rnd = Zpos m' / 2 ^ (e' - e0)) /\
  (e' = -1074 \/ -1074 < e' /\ 2 ^ 52 <= rnd) /\ finished s rnd e' (binary_round prec emax s m e).
Proof.
  unfold binary_round. change (Zpos (digits2_pos m)) with (Zdigits2 (Zpos m)). set (t := fexp _).
  destruct (shl_align_spec m e t) as (m' & -> & Hm'). set (e0 := Z.min e t) in *.
  assert (Hd : Zdigits2 (Zpos m') + e0 = Zdigits2 (Zpos m) + e).
  { rewrite Hm', Zdigits2_shift by lia. lia. }
  destruct (round_aux_spec s (Zpos m') e0 loc_Exact) as (rnd & H1 & H2 & H3 & H4); [lia|rewrite Hd; fold t; lia|].
  rewrite Hd in *. fold t in H1, H2, H3, H4. exists m', e0, rnd. cbn zeta. fold t. split_and!; [lia|done|exact Hm'|apply H1|apply H1|by apply H2|apply H3|exact H4].
Qed.

Lemma round_valid s m e : valid (binary_round prec emax s m e) = true.
Proof. destruct (round_spec s m e) as (? & ? & ? & _ & _ & _ & _ & _ & _ & H). by eapply finished_valid. Qed.

Lemma normalize_valid m e z : valid (binary_normalize prec emax m e z) = true.
Proof. destruct m; [done|apply round_valid|apply round_valid]. Qed.

(** * The operations give canonical numbers *)
Lemma SFadd_valid x y : valid x = true -> valid y = true -> valid (SFadd prec emax x y) = true.
Proof. destruct x as [[]|[]| |[]], y as [[]|[]| |[]]; cbn [SFadd]; intros; try done; apply normalize_valid. Qed.

Lemma SFsub_valid x y : valid x = true -> valid y = true -> valid (SFsub prec emax x y) = true.
Proof. destruct x as [[]|[]| |[]], y as [[]|[]| |[]]; cbn [SFsub]; intros; try done; apply normalize_valid. Qed.

Lemma bounded_iff m e : bounded prec emax m e = true <->
  (e = -1074 /\ Zpos m < 2 ^ 53 \/ -1074 < e /\ 2 ^ 52 <= Zpos m < 2 ^ 53) /\ e <= 971.
Proof. unfold bounded. by rewrite andb_true_iff, canonical_iff, Z.leb_le. Qed.

Lemma Zdigits2_ge m d : 0 < d -> 2 ^ (d - 1) <= m -> d <= Zdigits2 m.
Proof.
  intros Hd Hm. pose proof (pow_pos (d - 1) ltac:(lia)). pose proof (Zdigits2_bounds m ltac:(lia)). pose proof (Zdigits2_pos m ltac:(lia)).
  enough (d - 1 < Zdigits2 m) by lia. apply (Z.pow_lt_mono_r_iff 2); lia.
Qed.

Lemma SFmul_valid x y : valid x = true -> valid y = true -> valid (SFmul prec emax x y) = true.
Proof.
  destruct x as [|[]| |s1 m1 e1], y as [|[]| |s2 m2 e2]; cbn [SFmul valid_binary]; try done.
  rewrite !bounded_iff. intros [H1 _] [H2 _]. apply round_aux_valid; [lia|]. rewrite fexp_eq.
  destruct H1 as [[-> _]|[_ H1]], H2 as [[-> _]|[_ H2]]; [lia| | |];
    (assert (53 <= Zdigits2 (Zpos (m1 * m2))); [apply Zdigits2_ge; [lia|]; rewrite Pos2Z.inj_mul; change (53 - 1) with 52; nia|lia]).
Qed.

Lemma SFdiv_valid x y : valid x = true -> valid y = true -> valid (SFdiv prec emax x y) = true.
Proof.
  destruct x as [|[]| |s1 m1 e1], y as [|[]| |s2 m2 e2]; cbn [SFdiv]; try done. intros _ _.
  unfold SFdiv_core_binary. cbv zeta. set (d1 := Zdigits2 (Zpos m1)). set (d2 := Zdigits2 (Zpos m2)). set (e' := Z.min _ _). set (s := e1 - e2 - e').
  assert (Hs : 0 <= s) by lia.
  replace (match s with Z0 => Zpos m1 | Zpos _ => Z.shiftl (Zpos m1) s | Zneg _ => 0 end) with (Zpos m1 * 2 ^ s).
  2: { destruct s eqn:E; [lia|rewrite Z.shiftl_mul_pow2; lia|lia]. }
  pose proof (Z_div_mod (Zpos m1 * 2 ^ s) (Zpos m2) ltac:(lia)) as Hdiv. destruct (Z.div_eucl _ _) as [q r]. destruct Hdiv as [Hq Hr].
  pose proof (pow_pos s Hs). assert (0 <= q) by nia. apply round_aux_valid; [done|]. rewrite fexp_eq.
  destruct (decide (e' <= -1074)); [lia|]. pose proof (fexp_eq (d1 + e1 - (d2 + e2))) as Hf.
  assert (53 <= Zdigits2 q); [|lia]. apply Zdigits2_ge; [lia|]. change (53 - 1) with 52.
  pose proof (Zdigits2_bounds (Zpos m1) ltac:(lia)) as [H1 _]. pose proof (Zdigits2_bounds (Zpos m2) ltac:(lia)) as [_ H2]. fold d1 in H1. fold d2 in H2.
  assert (0 < d1 /\ 0 < d2) by (split; by apply Zdigits2_pos).
  assert (Hbig : 2 ^ (d2 + 52) <= Zpos m1 * 2 ^ s).
  { apply (Z.le_trans _ (2 ^ (d1 - 1) * 2 ^ s)); [|nia]. rewrite <- Z.pow_add_r by lia. apply Z.pow_le_mono_r; lia. }
  rewrite Z.pow_add_r in Hbig by lia. nia.
Qed.

(** * Values

    The value of a finite number, in units of the smallest one. *)
Definition mag (m : positive) (e : Z) : Z := Zpos m * 2 ^ (e - emin).

Definition val (x : spec_float) : Z :=
  match x with S754_finite s m e => if s then - mag m e else mag m e | _ => 0 end.

Definition is_finite (x : spec_float) : bool := match x with S754_zero _ | S754_finite _ _ _ => true | _ => false end.

Lemma mag_pos m e : bounded prec emax m e = true -> 0 < mag m e.
Proof. rewrite bounded_iff. intros. unfold mag. change emin with (-1074). pose proof (pow_pos (e - -1074) ltac:(lia)). lia. Qed.

Lemma mag_lt m1 e1 m2 e2 : bounded prec emax m1 e1 = true -> bounded prec emax m2 e2 = true -> e1 < e2 -> mag m1 e1 < mag m2 e2.
Proof.
  rewrite !bounded_iff. intros H1 H2 He. unfold mag. change emin with (-1074).
  assert (Hm2 : 2 ^ 52 <= Zpos m2) by lia. pose proof (pow_pos (e1 - -1074) ltac:(lia)).
  assert (Hm1 : Zpos m1 < 2 ^ 53) by lia. replace (e2 - -1074) with ((e2 - e1) + (e1 - -1074)) by lia.
  rewrite Z.pow_add_r, Z.mul_assoc by lia. apply Z.mul_lt_mono_pos_r; [done|].
  pose proof (Z.pow_le_mono_r 2 1 (e2 - e1) ltac:(lia) ltac:(lia)). change (2 ^ 1) with 2 in *. change (2 ^ 53) with (2 ^ 52 * 2) in Hm1. nia.
Qed.

Lemma mag_compare m1 e1 m2 e2 : bounded prec emax m1 e1 = true -> bounded prec emax m2 e2 = true ->
  match e1 ?= e2 with Eq => Pos.compare_cont Eq m1 m2 | c => c end = (mag m1 e1 ?= mag m2 e2).
Proof.
  intros H1 H2. destruct (Z.compare_spec e1 e2) as [->|He|He].
  - change (Pos.compare_cont Eq m1 m2) with (Zpos m1 ?= Zpos m2). unfold mag. apply bounded_iff in H2.
    apply Zmult_compare_compat_r. change emin with (-1074). pose proof (pow_pos (e2 - -1074) ltac:(lia)). lia.
  - symmetry. rewrite Z.compare_lt_iff. by apply mag_lt.
  - symmetry. rewrite Z.compare_gt_iff. by apply mag_lt.
Qed.

Lemma compare_val x y : valid x = true -> valid y = true -> is_finite x = true -> is_finite y = true ->
  SFcompare x y = Some (val x ?= val y).
Proof.
  destruct x as [s1|s1| |s1 m1 e1], y as [s2|s2| |s2 m2 e2]; try done; cbn [valid_binary val]; intros H1 H2 _ _; cbn [SFcompare]; f_equal.
  - pose proof (mag_pos _ _ H2). destruct s2; symmetry; [rewrite Z.compare_gt_iff|rewrite Z.compare_lt_iff]; lia.
  - pose proof (mag_pos _ _ H1). destruct s1; symmetry; [rewrite Z.compare_lt_iff|rewrite Z.compare_gt_iff]; lia.
  - pose proof (mag_pos _ _ H1). pose proof (mag_pos _ _ H2). pose proof (mag_compare m1 e1 m2 e2 H1 H2) as Hc.
    destruct s1, s2; [|symmetry; rewrite Z.compare_lt_iff; lia|symmetry; rewrite Z.compare_gt_iff; lia|done].
    rewrite Z.compare_opp, (Z.compare_antisym (mag m1 e1)), <- Hc. by destruct (e1 ?= e2).
Qed.

(** Rounding does not cross a number: a positive value that is at most the one of
    [(m2, e2)] stays so, and one that is at least that stays so. *)
Lemma round_below s m e m2 e2 : -1074 <= e -> bounded prec emax m2 e2 = true -> mag m e <= mag m2 e2 ->
  let r := binary_round prec emax s m e in
  is_finite r = true /\ (r = S754_zero s \/ exists m' e', r = S754_finite s m' e' /\ mag m' e' <= mag m2 e2).
Proof.
  intros He Hb Hle r. pose proof Hb as Hb'. apply bounded_iff in Hb'.
  destruct (round_spec s m e) as (mz & e0 & rnd & H0 & He0 & Hmz & Hq & Hx & _ & Hf). fold r in Hf.
  pose proof (Zdigits2_bounds (Zpos m) ltac:(lia)) as [Hlo _]. pose proof (Zdigits2_pos (Zpos m) ltac:(lia)).
  rewrite fexp_eq in *. set (e' := Z.max _ _) in *. unfold mag in *. change emin with (-1074) in *.
  assert (Hlt : Zpos m2 * 2 ^ (e2 - -1074) < 2 ^ (53 + (e2 - -1074))).
  { rewrite Z.pow_add_r by lia. apply Z.mul_lt_mono_pos_r; [apply pow_pos|]; lia. }
  assert (He' : e' <= e2).
  { enough (Zdigits2 (Zpos m) - 1 + (e - -1074) < 53 + (e2 - -1074)) by lia.
    apply (Z.pow_lt_mono_r_iff 2); [lia|lia|]. rewrite Z.pow_add_r by lia. pose proof (pow_pos (e - -1074) ltac:(lia)). nia. }
  rewrite (pow_split _ (e' - -1074) (e2 - -1074)) in Hle by lia. set (n := Zpos m2 * 2 ^ (e2 - -1074 - (e' - -1074))) in *.
  pose proof (pow_pos (e' - e0) ltac:(lia)) as Hk. pose proof (pow_pos (e0 - -1074) ltac:(lia)) as Hp0.
  assert (Hn : Zpos mz <= n * 2 ^ (e' - e0)).
  { apply (Z.mul_le_mono_pos_r _ _ (2 ^ (e0 - -1074))); [done|]. rewrite <- Z.mul_assoc, <- Z.pow_add_r by lia.
    replace (e' - e0 + (e0 - -1074)) with (e' - -1074) by lia. rewrite Hmz, <- Z.mul_assoc, <- Z.pow_add_r by lia.
    by replace (e - e0 + (e0 - -1074)) with (e - -1074) by lia. }
  assert (Hrnd : rnd <= n).
  { pose proof (Z.div_mod (Zpos mz) (2 ^ (e' - e0)) ltac:(lia)) as Hdm. pose proof (Z.mod_pos_bound (Zpos mz) _ Hk).
    assert (Zpos mz / 2 ^ (e' - e0) <= n) by (apply Z.div_le_upper_bound; lia).
    destruct (decide (Zpos mz / 2 ^ (e' - e0) = n)) as [E|]; [rewrite Hx; [lia|rewrite E in Hdm; lia]|lia]. }
  pose proof (pow_pos (e' - -1074) ltac:(lia)).
  assert (Hv : rnd * 2 ^ (e' - -1074) <= Zpos m2 * 2 ^ (e2 - -1074)).
  { rewrite (pow_split (Zpos m2) (e' - -1074) (e2 - -1074)) by lia. fold n. nia. }
  destruct Hf as [|m' e'' Hb'' Hv''|Hi].
  - split; [done|by left].
  - split; [done|right]. exists m', e''. split; [done|]. change emin with (-1074) in *. rewrite Hv''. done.
  - exfalso. pose proof (Z.pow_le_mono_r 2 (53 + (e2 - -1074)) (emax - emin) ltac:(lia) ltac:(change (emax - emin) with 2098; lia)).
    change emin with (-1074) in *. lia.
Qed.

Lemma round_above s m e m2 e2 : -1074 <= e -> bounded prec emax m2 e2 = true -> mag m2 e2 <= mag m e ->
  let r := binary_round prec emax s m e in
  r = S754_infinity s \/ exists m' e', r = S754_finite s m' e' /\ mag m2 e2 <= mag m' e'.
Proof.
  intros He Hb Hle r. pose proof (mag_pos _ _ Hb) as Hpos. apply bounded_iff in Hb.
  destruct (round_spec s m e) as (mz & e0 & rnd & H0 & He0 & Hmz & Hq & _ & Hbig & Hf). fold r in Hf.
  pose proof (fexp_eq (Zdigits2 (Zpos m) + e)) as Hfe. set (e' := fexp _) in *.
  unfold mag in *. change emin with (-1074) in *.
  assert (Hv : Zpos m2 * 2 ^ (e2 - -1074) <= rnd * 2 ^ (e' - -1074)).
  { destruct (decide (e' <= e2)) as [He'|He'].
    - rewrite (pow_split (Zpos m2) (e' - -1074) (e2 - -1074)) in * by lia. set (n := Zpos m2 * 2 ^ (e2 - -1074 - (e' - -1074))) in *.
      pose proof (pow_pos (e' - e0) ltac:(lia)) as Hk. pose proof (pow_pos (e0 - -1074) ltac:(lia)) as Hp0. pose proof (pow_pos (e' - -1074) ltac:(lia)).
      apply Z.mul_le_mono_pos_r; [done|]. apply (Z.le_trans _ (Zpos mz / 2 ^ (e' - e0))); [|lia]. apply Z.div_le_lower_bound; [done|].
      apply (Z.mul_le_mono_pos_r _ _ (2 ^ (e0 - -1074))); [done|]. rewrite Hmz, (Z.mul_comm (2 ^ (e' - e0))), <- !Z.mul_assoc, <- !Z.pow_add_r by lia.
      replace (e' - e0 + (e0 - -1074)) with (e' - -1074) by lia. by replace (e - e0 + (e0 - -1074)) with (e - -1074) by lia.
    - assert (Hr : 2 ^ 52 <= rnd) by lia. replace (e' - -1074) with (1 + (e' - e2 - 1) + (e2 - -1074)) by lia.
      rewrite !Z.pow_add_r, Z.mul_assoc by lia. pose proof (pow_pos (e' - e2 - 1) ltac:(lia)). pose proof (pow_pos (e2 - -1074) ltac:(lia)).
      apply Z.mul_le_mono_pos_r; [done|]. change (2 ^ 1) with 2. change (2 ^ 53) with (2 ^ 52 * 2) in Hb. nia. }
  destruct Hf as [->|m' e'' Hb'' Hv''|Hi]; [lia| |by left].
  right. exists m', e''. split; [done|]. change emin with (-1074) in *. rewrite Hv''. done.
Qed.

(** * Signs and sums *)
Definition zero : spec_float := S754_zero false.

Lemma round_aux_sign s m e l :
  match round_aux s m e l with S754_finite s' _ _ | S754_infinity s' => s' = s | _ => True end.
Proof. unfold binary_round_aux. destruct (shr_fexp _ _ m e l). destruct (shr_fexp _ _ _ _ _). destruct (shr_m _); [done| |done]. by destruct (Z.leb _ _). Qed.

Lemma round_sign s m e :
  match binary_round prec emax s m e with S754_finite s' _ _ | S754_infinity s' => s' = s | _ => True end.
Proof. unfold binary_round. destruct (shl_align m e _). apply round_aux_sign. Qed.

Lemma mul_not_positive x y : SFltb x zero = false -> SFltb zero y = false -> SFltb zero (SFmul prec emax x y) = false.
Proof.
  destruct x as [|[]| |[] m1 e1], y as [|[]| |[] m2 e2]; try done. intros _ _. cbn [SFmul xorb].
  pose proof (round_aux_sign true (Zpos (m1 * m2)) (e1 + e2) loc_Exact) as H. by destruct (round_aux _ _ _ _) as [| | |]; subst.
Qed.

Lemma square_not_negative x : SFltb (SFmul prec emax x x) zero = false.
Proof.
  destruct x as [|[]| |s m e]; try done. cbn [SFmul]. rewrite xorb_nilpotent.
  pose proof (round_aux_sign false (Zpos (m * m)) (e + e) loc_Exact) as H. by destruct (round_aux _ _ _ _) as [| | |]; subst.
Qed.

(** Both mantissas at the smaller exponent. *)
Lemma aligned m1 e1 m2 e2 : bounded prec emax m1 e1 = true -> bounded prec emax m2 e2 = true ->
  let ez := Z.min e1 e2 in
  -1074 <= ez /\ Zpos (fst (shl_align m1 e1 ez)) * 2 ^ (ez - emin) = mag m1 e1 /\ Zpos (fst (shl_align m2 e2 ez)) * 2 ^ (ez - emin) = mag m2 e2.
Proof.
  rewrite !bounded_iff. intros H1 H2 ez. change emin with (-1074). split; [lia|].
  destruct (shl_align_spec m1 e1 ez) as (? & -> & Hm1), (shl_align_spec m2 e2 ez) as (? & -> & Hm2). cbn [fst]. unfold mag. change emin with (-1074).
  rewrite Hm1, Hm2, <- !Z.mul_assoc, <- !Z.pow_add_r by lia. split; f_equal; f_equal; lia.
Qed.

Lemma sub_not_negative x y : valid x = true -> valid y = true -> SFltb y x = true -> SFltb (SFsub prec emax x y) zero = false.
Proof.
  intros Hx Hy Hlt. destruct (is_finite x && is_finite y) eqn:Hfin; [|by destruct x as [|[]| |[]], y as [|[]| |[]]].
  apply andb_true_iff in Hfin as [Fx Fy]. unfold SFltb in Hlt. rewrite compare_val in Hlt by done.
  destruct (Z.compare_spec (val y) (val x)) as [|Hval|]; try done. clear Hlt.
  destruct x as [s1|s1| |s1 m1 e1], y as [s2|s2| |s2 m2 e2]; try done.
  - destruct s2; [done|]. cbn in Hval. pose proof (mag_pos _ _ Hy). lia.
  - destruct s1; [|done]. cbn in Hval. pose proof (mag_pos _ _ Hx). lia.
  - destruct (aligned m1 e1 m2 e2 Hx Hy) as (He & H1 & H2). cbn [SFsub]. set (ez := Z.min e1 e2) in *.
    set (a := Zpos (fst (shl_align m1 e1 ez))) in *. set (b := Zpos (fst (shl_align m2 e2 ez))) in *.
    pose proof (pow_pos (ez - emin) ltac:(change emin with (-1074); lia)) as Hp.
    assert (Hpos : 0 < cond_Zopp s1 a - cond_Zopp s2 b).
    { apply (Z.mul_pos_cancel_r _ (2 ^ (ez - emin))); [done|]. cbn [val] in Hval. rewrite <- H1, <- H2 in Hval. destruct s1, s2; cbn [cond_Zopp]; lia. }
    destruct (cond_Zopp s1 a - cond_Zopp s2 b) as [|p|p]; [lia| |lia]. cbn [binary_normalize].
    pose proof (round_sign false p ez) as H. by destruct (binary_round _ _ _ _ _) as [| | |]; subst.
Qed.

Lemma add_below x y : valid x = true -> valid y = true -> is_finite x = true -> is_finite y = true -> val y <= 0 ->
  let r := SFadd prec emax x y in r = S754_infinity true \/ is_finite r = true /\ val r <= val x.
Proof.
  destruct x as [s1|s1| |s1 m1 e1], y as [s2|s2| |s2 m2 e2]; try done; cbn [valid_binary]; intros Hx Hy _ _ Hval.
  - right. by destruct s1, s2.
  - by right.
  - right. split; [done|apply Z.le_refl].
  - destruct (aligned m1 e1 m2 e2 Hx Hy) as (He & H1 & H2). cbn [SFadd]. set (ez := Z.min e1 e2) in *.
    pose proof (pow_pos (ez - emin) ltac:(change emin with (-1074); lia)) as Hp. pose proof (mag_pos _ _ Hx). pose proof (mag_pos _ _ Hy).
    destruct s2; [|cbn in Hval; lia]. cbn [cond_Zopp val] in *.
    set (a := Zpos (fst (shl_align m1 e1 ez))) in *. set (b := Zpos (fst (shl_align m2 e2 ez))) in *.
    destruct (cond_Zopp s1 a + - b) as [|p|p] eqn:E; cbn [binary_normalize].
    + right. split; [done|]. destruct s1; cbn [cond_Zopp val] in *; nia.
    + destruct s1; cbn [cond_Zopp] in E; [lia|]. right.
      assert (Hm : mag p ez <= mag m1 e1) by (unfold mag at 1; rewrite <- E; nia).
      destruct (round_below false p ez m1 e1 He Hx Hm) as (Hr & [E'|(m' & e' & E' & Hle)]); cbn zeta in E'; rewrite E'; (split; [done|]); cbn; lia.
    + destruct s1; cbn [cond_Zopp] in E.
      * assert (Hm : mag m1 e1 <= mag p ez) by (unfold mag at 2; replace (Zpos p) with (a + b) by lia; nia).
        destruct (round_above true p ez m1 e1 He Hx Hm) as [E'|(m' & e' & E' & Hle)]; cbn zeta in E'; rewrite E'; [by left|].
        right. split; [done|cbn; lia].
      * pose proof (round_sign true p ez) as Hs. pose proof (round_valid true p ez) as Hv. cbn [val] in *.
        destruct (binary_round _ _ _ _ _) as [s| | |s m e] eqn:Er; subst; [right; split; [done|cbn; lia]|by left| |].
        -- destruct (round_spec true p ez) as (? & ? & ? & _ & _ & _ & _ & _ & _ & Hf). rewrite Er in Hf. inversion Hf.
        -- right. split; [done|]. cbn in Hv |- *. pose proof (mag_pos _ _ Hv). lia.
Qed.

(** Adding a number that is not positive never leads above a bound. *)
Lemma add_not_above bound x y : valid bound = true -> valid x = true -> valid y = true ->
  SFltb zero y = false -> SFltb bound x = false -> SFltb bound (SFadd prec emax x y) = false.
Proof.
  intros Hb Hx Hy Hpos Hlt. destruct (is_finite x && is_finite y) eqn:Hfin.
  2: { by destruct bound as [|[]| |[]], x as [|[]| |[]], y as [|[]| |[]]. }
  apply andb_true_iff in Hfin as [Fx Fy]. destruct (is_finite bound) eqn:Fb.
  2: { destruct bound as [|[]| |]; try done; [by destruct x as [|[]| |[]]|by destruct (SFadd _ _ x y) as [|[]| |[]]]. }
  assert (Hval : val y <= 0).
  { unfold SFltb in Hpos. rewrite compare_val in Hpos by done. destruct (Z.compare_spec (val zero) (val y)); cbn in *; (lia || done). }
  pose proof (SFadd_valid x y Hx Hy) as Hr. destruct (add_below x y Hx Hy Fx Fy Hval) as [->|[Fr Hle]]; [by destruct bound as [|[]| |[]]|].
  unfold SFltb in *. rewrite compare_val in * by done.
  destruct (Z.compare_spec (val bound) (val x)); [| |]; try done; (destruct (Z.compare_spec (val bound) (val (SFadd prec emax x y))); [done|lia|done]).
Qed.
End Rounding.

(** * [f64] *)
Record f64 := F64 { spec : spec_float; canonical : valid_binary 53 1024 spec = true }.

Definition f64_zero : f64 := F64 (S754_zero false) eq_refl.
Definition f64_add (x y : f64) : f64 := F64 (SFadd 53 1024 (spec x) (spec y)) (Rounding.SFadd_valid _ _ (canonical x) (canonical y)).
Definition f64_sub (x y : f64) : f64 := F64 (SFsub 53 1024 (spec x) (spec y)) (Rounding.SFsub_valid _ _ (canonical x) (canonical y)).
Definition f64_mul (x y : f64) : f64 := F64 (SFmul 53 1024 (spec x) (spec y)) (Rounding.SFmul_valid _ _ (canonical x) (canonical y)).
Definition f64_div (x y : f64) : f64 := F64 (SFdiv 53 1024 (spec x) (spec y)) (Rounding.SFdiv_valid _ _ (canonical x) (canonical y)).
Definition f64_lt (x y : f64) : bool := SFltb (spec x) (spec y).
Definition f64_le (x y : f64) : bool := SFleb (spec x) (spec y).
Definition f64_eq (x y : f64) : bool := SFeqb (spec x) (spec y).

(** [n as f64] of an integer, and [n / d] of a literal. *)
Definition f64_of_Z (n : Z) : f64 := F64 (binary_normalize 53 1024 n 0 false) (Rounding.normalize_valid n 0 false).
Definition f64_lit (n d : Z) : f64 := f64_div (f64_of_Z n) (f64_of_Z d).

(** [x as usize]: truncated and clamped; a NaN becomes zero. *)
Definition f64_as_usize (x : f64) : Z :=
  match spec x with
  | S754_finite false m e => Z.min usize_max (Z.shiftl (Zpos m) e)
  | S754_infinity false => usize_max
  | _ => 0
  end.

(** [Duration::as_secs_f64], of a duration in nanoseconds *)
Definition as_secs_f64 (d : Z) : f64 :=
  f64_add (f64_of_Z (d / 1000000000)) (f64_div (f64_of_Z (d mod 1000000000)) (f64_of_Z 1000000000)).

(** [(a + b) * 0.5] and [(x * n as f64) as usize]. *)
Definition f64_mean (a b : f64) : f64 := f64_mul (f64_add a b) (f64_lit 1 2).
Definition f64_share (x : f64) (n : Z) : Z := f64_as_usize (f64_mul x (f64_of_Z n)).

Lemma f64_lt_irrefl x : f64_lt x x = false.
Proof.
  unfold f64_lt, SFltb. destruct x as [[[]|[]| |[] m e] H]; try done; cbn [spec SFcompare].
  - rewrite Z.compare_refl. change (Pos.compare_cont Eq m m) with (Pos.compare m m). by rewrite Pos.compare_refl.
  - rewrite Z.compare_refl. change (Pos.compare_cont Eq m m) with (Pos.compare m m). by rewrite Pos.compare_refl.
Qed.

(** Adding what is not positive never leads above a bound. *)
Lemma f64_add_below bound x y : f64_lt f64_zero y = false -> f64_lt bound x = false -> f64_lt bound (f64_add x y) = false.
Proof. intros Hy Hx. apply Rounding.add_not_above; [apply canonical|apply canonical|apply canonical|done|done]. Qed.

(** A penalty never lifts a number above a bound: the square of a number, or a
    difference that is not negative, times a weight that is not positive. *)
Lemma f64_penalty bound x p w : f64_lt f64_zero w = false -> f64_lt p f64_zero = false -> f64_lt bound x = false ->
  f64_lt bound (f64_add x (f64_mul p w)) = false.
Proof. intros Hw Hp Hx. apply f64_add_below; [|done]. by apply Rounding.mul_not_positive. Qed.

Lemma f64_square x : f64_lt (f64_mul x x) f64_zero = false.
Proof. apply Rounding.square_not_negative. Qed.

Lemma f64_excess x y : f64_lt y x = true -> f64_lt (f64_sub x y) f64_zero = false.
Proof. apply Rounding.sub_not_negative; apply canonical. Qed.

Example f64_examples :
  f64_lt (f64_lit 1 10) (f64_lit 2 10) = true /\ f64_eq (f64_add (f64_lit 1 10) (f64_lit 2 10)) (f64_lit 3 10) = false /\
  f64_as_usize (f64_mul (f64_lit 1 4) (f64_of_Z 9)) = 2 /\ f64_eq (f64_add (f64_of_Z (2 ^ 53)) (f64_of_Z 1)) (f64_of_Z (2 ^ 53)) = true /\
  f64_eq (as_secs_f64 1500000000) (f64_lit 3 2) = true.
Proof. vm_compute. done. Qed.
