(* ===== verification/ReplayCache.v ===== *)
(** The bounded replay window that the heartbeat and the application-message
    security layers share (crates/protocol/pulse.rs [HeartbeatReplayCache] and
    crates/protocol/app_security.rs [AppMessageReplayCache] hold the same
    algorithm over their own key types): the cache as the code has it, a
    [HashMap] of insertion times and a [VecDeque] of insertion order, the
    abstract window it implements, a list of keys with their times, and the
    refinement between the two. *)

From S2P Require Import Prelude.

#[local] Open Scope Z_scope.

Section replay.
Context {K : Type} `{Countable K}.

Record ReplayCache := {
  capacity : Z;
  ttl_ns : Z;
  entries : gmap K Z;
  order : list K;
}.

Definition set_window (c : ReplayCache) (e : gmap K Z) (o : list K) : ReplayCache :=
  {| capacity := capacity c; ttl_ns := ttl_ns c; entries := e; order := o |}.

(** One iteration of the [while let] of [prune]. *)
Definition prune_step (now_ns : Z) (c : ReplayCache) : option ReplayCache :=
  match order c with
  | [] => None
  | front :: rest =>
      match entries c !! front with
      | None => Some (set_window c (entries c) rest)
      | Some inserted_ns =>
          if decide (sat_sub now_ns inserted_ns <= ttl_ns c) then None
          else Some (set_window c (delete front (entries c)) rest)
      end
  end.

Definition prune (c : ReplayCache) (now_ns : Z) : ReplayCache :=
  loop (prune_step now_ns) (length (order c)) c.

(** One iteration of the capacity loop. *)
Definition evict_step (c : ReplayCache) : option ReplayCache :=
  if decide (capacity c < Z.of_nat (size (entries c))) then
    match order c with
    | oldest :: rest => Some (set_window c (delete oldest (entries c)) rest)
    | [] => None
    end
  else None.

Definition evict (c : ReplayCache) : ReplayCache := loop evict_step (length (order c)) c.

(** [check_and_insert] once the key is known ([None]: the caller could not
    build one, which it finds out after the prune). *)
Definition check_and_insert_key (c : ReplayCache) (key : option K) (now_ns : Z) : bool * ReplayCache :=
  let c := prune c now_ns in
  match key with
  | None => (false, c)
  | Some key =>
      if decide (is_Some (entries c !! key)) then (false, c)
      else (true, evict (set_window c (<[key := now_ns]> (entries c)) (order c ++ [key])))
  end.

(** * The abstract window *)
Definition fresh (ttl now_ns : Z) (p : K * Z) : bool := bool_decide (sat_sub now_ns p.2 <= ttl).

Fixpoint window_prune (ttl now_ns : Z) (w : list (K * Z)) : list (K * Z) :=
  match w with
  | [] => []
  | p :: w' => if fresh ttl now_ns p then w else window_prune ttl now_ns w'
  end.

(** The most recent [cap] elements. *)
Definition window_last (cap : Z) (w : list (K * Z)) : list (K * Z) :=
  drop (length w - Z.to_nat cap) w.

Definition window_check (cap ttl : Z) (w : list (K * Z)) (key : option K) (now_ns : Z)
  : bool * list (K * Z) :=
  let w := window_prune ttl now_ns w in
  match key with
  | None => (false, w)
  | Some key =>
      if decide (key ∈ w.*1) then (false, w)
      else (true, window_last cap (w ++ [(key, now_ns)]))
  end.

(** * The representation invariant *)
Definition represents (c : ReplayCache) (w : list (K * Z)) : Prop :=
  order c = w.*1 /\ NoDup w.*1 /\ entries c = list_to_map w.

(** A cache never holds more than [capacity] keys. *)
Definition bounded (c : ReplayCache) : Prop :=
  1 <= capacity c /\ Z.of_nat (size (entries c)) <= capacity c.

Lemma represents_size c w : represents c w -> size (entries c) = length w.
Proof.
  intros (_ & Hnd & ->). rewrite <- length_map_to_list.
  by rewrite map_to_list_to_map by done.
Qed.

Lemma represents_lookup c w k : represents c w -> is_Some (entries c !! k) <-> k ∈ w.*1.
Proof.
  intros (_ & Hnd & ->). rewrite <- not_eq_None_Some, <- not_elem_of_list_to_map.
  split; intros Hk; [by apply dec_stable|tauto].
Qed.

Lemma represents_elem c w k t : represents c w -> (k, t) ∈ w -> entries c !! k = Some t.
Proof. intros (_ & Hnd & ->). by apply elem_of_list_to_map. Qed.

Lemma represents_empty cap ttl :
  represents {| capacity := cap; ttl_ns := ttl; entries := ∅; order := [] |} [].
Proof. repeat split. constructor. Qed.

(** Removing the front of the order keeps the representation. *)
Lemma represents_tail c p w :
  represents c (p :: w) -> represents (set_window c (delete p.1 (entries c)) w.*1) w.
Proof.
  destruct p as [k t]. intros (Ho & Hnd & He). apply NoDup_cons in Hnd as [Hnot Hnd].
  repeat split; [done|]. cbn. rewrite He. cbn.
  apply delete_insert_id. by apply not_elem_of_list_to_map.
Qed.

Lemma prune_step_represents c w now :
  represents c w ->
  prune_step now c =
  match w with
  | [] => None
  | p :: w' => if fresh (ttl_ns c) now p then None
               else Some (set_window c (delete p.1 (entries c)) w'.*1)
  end.
Proof.
  intros Hr. destruct w as [|[k t] w]; unfold prune_step; destruct Hr as (Ho & Hnd & He);
    rewrite Ho; [done|]. cbn. rewrite He. cbn. rewrite lookup_insert_eq.
  unfold fresh. cbn. by repeat case_decide; try case_bool_decide.
Qed.

Lemma prune_represents c w now :
  represents c w -> represents (prune c now) (window_prune (ttl_ns c) now w).
Proof.
  intros Hr. unfold prune. destruct Hr as (Ho & Hr'). rewrite Ho, length_fmap.
  assert (represents c w) as Hr by (by split). clear Ho Hr'.
  revert c Hr. induction w as [|p w IH]; intros c Hr; [done|].
  cbn [length loop window_prune]. rewrite (prune_step_represents c (p :: w)) by done.
  destruct (fresh (ttl_ns c) now p); [done|].
  apply (IH _ (represents_tail c p w Hr)).
Qed.

Lemma prune_config c now : capacity (prune c now) = capacity c /\ ttl_ns (prune c now) = ttl_ns c.
Proof.
  unfold prune. apply (loop_inv _ (fun c' => capacity c' = capacity c /\ ttl_ns c' = ttl_ns c)); [|done].
  intros s s' [<- <-] Hs. unfold prune_step in Hs.
  repeat (case_match || case_decide); simplify_eq; done.
Qed.

Lemma evict_represents c w :
  0 <= capacity c -> represents c w -> represents (evict c) (window_last (capacity c) w).
Proof.
  intros Hc Hr. unfold evict. destruct Hr as (Ho & Hr'). rewrite Ho, length_fmap.
  assert (represents c w) as Hr by (by split). clear Ho Hr'.
  revert c Hc Hr. induction w as [|p w IH]; intros c Hc Hr; [done|].
  cbn [length loop]. unfold evict_step. rewrite (represents_size c _ Hr).
  destruct (Hr) as [Ho _]. rewrite Ho. cbn [length fmap list_fmap]. case_decide as Hd.
  - assert (length (p :: w) - Z.to_nat (capacity c) = S (length w - Z.to_nat (capacity c)))%nat
      as E by (cbn [length]; lia).
    unfold window_last. rewrite E. cbn [drop].
    apply (IH (set_window c (delete p.1 (entries c)) w.*1)); [done|by apply represents_tail].
  - unfold window_last. replace (length (p :: w) - _)%nat with O by (cbn [length]; lia). done.
Qed.

Lemma evict_config c : capacity (evict c) = capacity c /\ ttl_ns (evict c) = ttl_ns c.
Proof.
  unfold evict. apply (loop_inv _ (fun c' => capacity c' = capacity c /\ ttl_ns c' = ttl_ns c)); [|done].
  intros s s' [<- <-] Hs. unfold evict_step in Hs.
  repeat (case_match || case_decide); simplify_eq; done.
Qed.

Lemma window_prune_elem ttl now w p : p ∈ window_prune ttl now w -> p ∈ w.
Proof.
  induction w as [|q w IH]; cbn; [done|]. destruct (fresh ttl now q); [done|].
  intros Hp. right. auto.
Qed.

(** The code's cache behaves as the abstract window, call by call. *)
Lemma check_refines c w key now :
  0 <= capacity c -> represents c w ->
  let r := check_and_insert_key c key now in
  let s := window_check (capacity c) (ttl_ns c) w key now in
  r.1 = s.1 /\ represents r.2 s.2 /\ capacity r.2 = capacity c /\ ttl_ns r.2 = ttl_ns c.
Proof.
  intros Hc Hr. pose proof (prune_represents c w now Hr) as Hp.
  destruct (prune_config c now) as [Hcap Httl].
  unfold check_and_insert_key, window_check. destruct key as [k|]; [|done].
  pose proof (represents_lookup _ _ k Hp) as Hin.
  repeat case_decide; try tauto.
  cbn [fst snd]. split; [done|]. rewrite <- Hcap.
  set (c' := set_window _ _ _).
  assert (represents c' (window_prune (ttl_ns c) now w ++ [(k, now)])) as Hr'.
  { destruct Hp as (Ho & Hnd & He). unfold represents, c'; cbn.
    rewrite Ho, He, fmap_app. cbn. split; [done|]. split.
    - apply NoDup_app. split; [done|]. split; [|apply NoDup_singleton].
      intros x Hx ->%list_elem_of_singleton. tauto.
    - rewrite list_to_map_snoc; [done|tauto]. }
  split; [|destruct (evict_config c') as [-> ->]; done].
  change (capacity (prune c now)) with (capacity c'). apply evict_represents; [|done].
  cbn. by rewrite Hcap.
Qed.

Lemma length_window_last cap w : 0 <= cap -> Z.of_nat (length (window_last cap w)) <= cap.
Proof. intros. unfold window_last. rewrite length_drop. lia. Qed.

Lemma length_window_prune ttl now w : (length (window_prune ttl now w) <= length w)%nat.
Proof. induction w as [|q w IH]; cbn; [lia|]. destruct (fresh ttl now q); cbn; lia. Qed.

Lemma window_check_bounded cap ttl w key now :
  0 <= cap -> Z.of_nat (length w) <= cap ->
  Z.of_nat (length (window_check cap ttl w key now).2) <= cap.
Proof.
  intros Hc Hw. unfold window_check. pose proof (length_window_prune ttl now w).
  destruct key; [|cbn; lia]. case_decide; cbn [snd]; [lia|]. by apply length_window_last.
Qed.

(** * Retention

    [retained k t n w]: key [k] is in the window since time [t] and at most [n]
    keys were inserted after it. *)
Definition retained (k : K) (t : Z) (n : nat) (w : list (K * Z)) : Prop :=
  exists pre post, w = pre ++ (k, t) :: post /\ (length post <= n)%nat.

Lemma retained_elem k t n w : retained k t n w -> (k, t) ∈ w.
Proof. intros (pre & post & -> & _). apply elem_of_app. right. by left. Qed.

Lemma retained_prune k t n w ttl now :
  sat_sub now t <= ttl -> retained k t n w -> retained k t n (window_prune ttl now w).
Proof.
  intros Ht (pre & post & -> & Hn). induction pre as [|q pre IH]; cbn.
  - unfold fresh. rewrite bool_decide_eq_true_2 by done. by exists [], post.
  - destruct (fresh ttl now q); [by exists (q :: pre), post|done].
Qed.

Lemma retained_last k t n w cap key now :
  retained k t n w -> Z.of_nat n + 1 < cap ->
  retained k t (S n) (window_last cap (w ++ [(key, now)])).
Proof.
  intros (pre & post & -> & Hn) Hcap. unfold window_last. set (d := (_ - _)%nat).
  assert (d <= length pre)%nat as Hd.
  { unfold d. rewrite !length_app. cbn. lia. }
  exists (drop d pre), (post ++ [(key, now)]). split.
  - rewrite <- app_assoc, drop_app_le by done. done.
  - rewrite length_app. cbn. lia.
Qed.

(** A call within the key's lifetime keeps the key, as long as fewer than
    [cap] keys were inserted since; and it recognizes the key. *)
Lemma window_check_retains k t n w cap ttl key now :
  sat_sub now t <= ttl -> retained k t n w ->
  let r := window_check cap ttl w key now in
  (Z.of_nat n + Z.b2z r.1 < cap -> retained k t (n + Z.to_nat (Z.b2z r.1)) r.2) /\
  (key = Some k -> r.1 = false).
Proof.
  intros Ht Hr. pose proof (retained_prune k t n w ttl now Ht Hr) as Hp.
  unfold window_check. destruct key as [k'|]; cbn; [|by rewrite Nat.add_0_r].
  case_decide as Hd; cbn [fst snd Z.b2z].
  - by rewrite Nat.add_0_r.
  - split; [intros; replace (n + _)%nat with (S n) by lia; by apply retained_last|].
    intros [= ->]. destruct Hd. apply retained_elem in Hp.
    by apply (list_elem_of_fmap_2 fst) in Hp.
Qed.

(** A key that was just inserted is retained. *)
Lemma window_check_inserts k w cap ttl now :
  1 <= cap -> (window_check cap ttl w (Some k) now).1 = true ->
  retained k now 0 (window_check cap ttl w (Some k) now).2.
Proof.
  intros Hc. unfold window_check. case_decide; [done|]. intros _. cbn [snd].
  unfold window_last. set (w' := window_prune ttl now w). set (d := (_ - _)%nat).
  assert (d <= length w')%nat as Hd by (unfold d; rewrite length_app; cbn; lia).
  exists (drop d w'), []. rewrite drop_app_le by done. split; [done|cbn; lia].
Qed.

(** * Sequences of calls

    The calls made on a cache, in order: the clock reading, the key and the
    answer of each. *)
Record call := { call_now : Z; call_key : option K; call_new : bool }.

Inductive call_trace : ReplayCache -> list call -> ReplayCache -> Prop :=
| call_trace_nil c : call_trace c [] c
| call_trace_cons c now key b c1 tr c2 :
    check_and_insert_key c key now = (b, c1) -> call_trace c1 tr c2 ->
    call_trace c ({| call_now := now; call_key := key; call_new := b |} :: tr) c2.

Definition news (tr : list call) : nat := length (List.filter call_new tr).

Lemma call_trace_represents c tr c' w :
  call_trace c tr c' -> 1 <= capacity c -> represents c w -> Z.of_nat (length w) <= capacity c ->
  exists w', represents c' w' /\ capacity c' = capacity c /\ ttl_ns c' = ttl_ns c /\
    Z.of_nat (length w') <= capacity c.
Proof.
  intros Htr. revert w. induction Htr as [c|c now key b c1 tr c2 Hc _ IH]; intros w Hcap Hw Hl; [eauto|].
  destruct (check_refines c w key now ltac:(lia) Hw) as (_ & Hr & Hcap' & Httl').
  rewrite Hc in Hr, Hcap', Httl'. cbn [snd] in *. rewrite <- Hcap', <- Httl'.
  apply (IH _ ltac:(lia) Hr). rewrite Hcap'. by apply window_check_bounded; [lia|].
Qed.

(** A key stays in the window while its lifetime lasts and fewer than
    [capacity] keys are inserted after it. *)
Lemma call_trace_retains c tr c' w k t n :
  call_trace c tr c' -> 1 <= capacity c -> represents c w -> retained k t n w ->
  Forall (fun e => sat_sub (call_now e) t <= ttl_ns c) tr ->
  Z.of_nat (n + news tr) < capacity c ->
  exists w', represents c' w' /\ capacity c' = capacity c /\ ttl_ns c' = ttl_ns c /\
    retained k t (n + news tr) w'.
Proof.
  intros Htr. revert w n.
  induction Htr as [c|c now key b c1 tr c2 Hc _ IH]; intros w n Hcap Hw Hk Ht Hn.
  - exists w. rewrite Nat.add_0_r. by split_and!.
  - apply Forall_cons in Ht as [Ht0 Ht]. cbn in Ht0.
    destruct (check_refines c w key now ltac:(lia) Hw) as (Hb & Hr & Hcap' & Httl').
    destruct (window_check_retains k t n w (capacity c) (ttl_ns c) key now Ht0 Hk) as [Hret _].
    rewrite <- Hb in Hret. rewrite Hc in Hr, Hcap', Httl', Hret. cbn [fst snd] in *.
    assert (news ({| call_now := now; call_key := key; call_new := b |} :: tr)
      = Z.to_nat (Z.b2z b) + news tr)%nat as Hnews by (by destruct b).
    rewrite Hnews in *. rewrite <- Hcap', <- Httl' in *. rewrite Nat.add_assoc in *.
    apply (IH _ _ Hcap Hr); [apply Hret; destruct b; cbn in *; lia|done|done].
Qed.

(** A key that was new is not new again while its lifetime lasts, provided
    fewer than [capacity] keys were inserted in between. *)
Lemma call_trace_not_new_twice c k t0 tr t1 b c' w :
  1 <= capacity c -> represents c w ->
  call_trace c ({| call_now := t0; call_key := Some k; call_new := true |} :: tr ++
                [{| call_now := t1; call_key := Some k; call_new := b |}]) c' ->
  Forall (fun e => call_now e <= t1) tr -> sat_sub t1 t0 <= ttl_ns c ->
  Z.of_nat (news tr) < capacity c ->
  b = false.
Proof.
  intros Hcap Hw Htr Hle Hlive Hnews.
  inversion Htr as [|? ? ? ? c1 ? ? H0 Htr' ]; subst. clear Htr.
  assert (exists c2, call_trace c1 tr c2 /\
    exists c3, check_and_insert_key c2 (Some k) t1 = (b, c3)) as (c2 & Htr & c3 & Hlast).
  { clear -Htr'. revert c1 Htr'. induction tr as [|e tr IH]; intros c1 Htr; cbn in Htr;
      inversion Htr as [|? ? ? ? c1' ? ? Hc Htr'']; subst.
    - exists c1. split; [constructor|eauto].
    - destruct (IH _ Htr'') as (c2 & ? & ?). exists c2. split; [by econstructor|done]. }
  destruct (check_refines c w (Some k) t0 ltac:(lia) Hw) as (Hb & Hr & Hcap' & Httl').
  rewrite H0 in Hb, Hr, Hcap', Httl'. cbn [fst snd] in *.
  pose proof (window_check_inserts k w (capacity c) (ttl_ns c) t0 Hcap (eq_sym Hb)) as Hret.
  destruct (call_trace_retains c1 tr c2 _ k t0 0 Htr ltac:(lia) Hr Hret) as (w2 & Hw2 & Hcap2 & Httl2 & Hret2).
  { eapply Forall_impl; [exact Hle|]. cbn. intros e He. rewrite Httl'. ulia. }
  { rewrite Hcap'. lia. }
  destruct (check_refines c2 w2 (Some k) t1 ltac:(lia) Hw2) as (Hb2 & _).
  destruct (window_check_retains k t0 _ w2 (capacity c2) (ttl_ns c2) (Some k) t1
    ltac:(rewrite Httl2, Httl'; done) Hret2) as [_ Hdup].
  rewrite Hlast in Hb2. cbn [fst] in Hb2. rewrite Hdup in Hb2; done.
Qed.

Lemma call_trace_app c tr1 tr2 c2 :
  call_trace c (tr1 ++ tr2) c2 <-> exists c1, call_trace c tr1 c1 /\ call_trace c1 tr2 c2.
Proof.
  revert c. induction tr1 as [|e tr1 IH]; intros c; cbn; split.
  - intros. exists c. split; [constructor|done].
  - intros (c1 & H1 & ?). by inversion H1; subst.
  - intros H1. inversion H1 as [|? ? ? ? c1 ? ? Hc Htr]; subst. apply IH in Htr as (c' & ? & ?).
    exists c'. split; [by econstructor|done].
  - intros (c1 & H1 & H2). inversion H1; subst. econstructor; [done|]. apply IH. eauto.
Qed.
End replay.

Arguments ReplayCache : clear implicits.
Arguments ReplayCache K {_ _}.
