(* ===== verification/Pulse.v ===== *)
(** Heartbeats (crates/protocol/pulse.rs): the compact binary wire format, the
    freshness and authenticity checks, the replay cache and the validation of a
    received frame, with the message-security configuration they run under. *)

From S2P Require Import Prelude Bytes Common ReplayCache.

#[local] Open Scope Z_scope.

Definition HEARTBEAT_SCHEMA_VERSION : Z := 2.
Definition HEARTBEAT_ENTROPY_BYTES : Z := 32.
Definition MAX_HEARTBEAT_WIRE_BYTES : Z := 4096.
Definition MAX_HEARTBEAT_AGE_SECS : Z := 10 * 60.
Definition MAX_HEARTBEAT_FUTURE_SKEW_SECS : Z := 2 * 60.
Definition DEFAULT_REPLAY_CACHE_CAPACITY : Z := 8192.
Definition DEFAULT_REPLAY_CACHE_TTL_SECS : Z := 15 * 60.
Definition DEFAULT_MAX_APP_MESSAGE_AGE_SECS : Z := 10 * 60.
Definition DEFAULT_MAX_APP_MESSAGE_FUTURE_SKEW_SECS : Z := 2 * 60.
Definition DEFAULT_APP_REPLAY_CACHE_CAPACITY : Z := 8192.
Definition DEFAULT_APP_REPLAY_CACHE_TTL_SECS : Z := 15 * 60.

Definition NS_PER_SEC : Z := 1000000000.
(** [*b"P2PH"] *)
Definition HEARTBEAT_WIRE_MAGIC : list byte := ["P"; "2"; "P"; "H"]%byte.
Definition NONCE_BYTES : Z := 32.
Definition FIXED_WIRE_BYTES : Z :=
  len HEARTBEAT_WIRE_MAGIC + 2 + 2 + 8 + NONCE_BYTES + HEARTBEAT_ENTROPY_BYTES.

Definition heartbeat_topic (network_id : Z) : string :=
  "p2p-net/heartbeat/v" +:+ pretty HEARTBEAT_SCHEMA_VERSION +:+ "/net-" +:+ pretty network_id.

Record HeartbeatEnvelope := {
  hb_schema_version : Z;
  hb_peer_id : string;
  hb_timestamp_ns : Z;
  hb_nonce_hex : string;
  hb_entropy : list byte;
}.

#[global] Instance HeartbeatEnvelope_eq_dec : EqDecision HeartbeatEnvelope.
Proof. solve_decision. Defined.

Record ReputationConfig := {
  accept_reward : Z;
  invalid_penalty : Z;
  decay_step : Z;
  decay_interval_secs : Z;
}.

Definition ReputationConfig_default : ReputationConfig := {|
  accept_reward := 1;
  invalid_penalty := 5;
  decay_step := 1;
  decay_interval_secs := 60;
|}.

Definition ReputationConfig_validate (cfg : ReputationConfig) : result unit NetError :=
  let? _ := reject_if (bool_decide (accept_reward cfg <= 0))
    (config_error "message_security.reputation.accept_reward must be positive") in
  let? _ := reject_if (bool_decide (invalid_penalty cfg <= 0))
    (config_error "message_security.reputation.invalid_penalty must be positive") in
  let? _ := reject_if (bool_decide (decay_step cfg <= 0))
    (config_error "message_security.reputation.decay_step must be positive") in
  let? _ := reject_if (bool_decide (decay_interval_secs cfg = 0))
    (config_error "message_security.reputation.decay_interval_secs must be at least 1") in
  Ok tt.

Record MessageSecurityConfig := {
  max_heartbeat_wire_bytes : Z;
  max_heartbeat_age_secs : Z;
  max_heartbeat_future_skew_secs : Z;
  replay_cache_capacity : Z;
  replay_cache_ttl_secs : Z;
  max_app_message_age_secs : Z;
  max_app_message_future_skew_secs : Z;
  app_replay_cache_capacity : Z;
  app_replay_cache_ttl_secs : Z;
  reputation : ReputationConfig;
}.

Definition MessageSecurityConfig_default : MessageSecurityConfig := {|
  max_heartbeat_wire_bytes := MAX_HEARTBEAT_WIRE_BYTES;
  max_heartbeat_age_secs := MAX_HEARTBEAT_AGE_SECS;
  max_heartbeat_future_skew_secs := MAX_HEARTBEAT_FUTURE_SKEW_SECS;
  replay_cache_capacity := DEFAULT_REPLAY_CACHE_CAPACITY;
  replay_cache_ttl_secs := DEFAULT_REPLAY_CACHE_TTL_SECS;
  max_app_message_age_secs := DEFAULT_MAX_APP_MESSAGE_AGE_SECS;
  max_app_message_future_skew_secs := DEFAULT_MAX_APP_MESSAGE_FUTURE_SKEW_SECS;
  app_replay_cache_capacity := DEFAULT_APP_REPLAY_CACHE_CAPACITY;
  app_replay_cache_ttl_secs := DEFAULT_APP_REPLAY_CACHE_TTL_SECS;
  reputation := ReputationConfig_default;
|}.

Definition MessageSecurityConfig_validate (cfg : MessageSecurityConfig) : result unit NetError :=
  let? _ := reject_if (bool_decide (max_heartbeat_wire_bytes cfg = 0))
    (config_error "message_security.max_heartbeat_wire_bytes must be at least 1") in
  let? _ := reject_if (bool_decide (1024 * 1024 < max_heartbeat_wire_bytes cfg))
    (config_error "message_security.max_heartbeat_wire_bytes must not exceed 1048576") in
  let? _ := reject_if (bool_decide (max_heartbeat_age_secs cfg = 0))
    (config_error "message_security.max_heartbeat_age_secs must be at least 1") in
  let? _ := reject_if
    (bool_decide (max_heartbeat_age_secs cfg < max_heartbeat_future_skew_secs cfg))
    (config_error "message_security.max_heartbeat_future_skew_secs must be <= max_heartbeat_age_secs") in
  let? _ := reject_if (bool_decide (replay_cache_capacity cfg = 0))
    (config_error "message_security.replay_cache_capacity must be at least 1") in
  let? _ := reject_if (bool_decide (replay_cache_ttl_secs cfg = 0))
    (config_error "message_security.replay_cache_ttl_secs must be at least 1") in
  let? _ := reject_if
    (bool_decide (replay_cache_ttl_secs cfg <
      sat_add u64_max (max_heartbeat_age_secs cfg) (max_heartbeat_future_skew_secs cfg)))
    (config_error "message_security.replay_cache_ttl_secs must cover max_heartbeat_age_secs + max_heartbeat_future_skew_secs") in
  let? _ := reject_if (bool_decide (max_app_message_age_secs cfg = 0))
    (config_error "message_security.max_app_message_age_secs must be at least 1") in
  let? _ := reject_if
    (bool_decide (max_app_message_age_secs cfg < max_app_message_future_skew_secs cfg))
    (config_error "message_security.max_app_message_future_skew_secs must be <= max_app_message_age_secs") in
  let? _ := reject_if (bool_decide (app_replay_cache_capacity cfg = 0))
    (config_error "message_security.app_replay_cache_capacity must be at least 1") in
  let? _ := reject_if (bool_decide (app_replay_cache_ttl_secs cfg = 0))
    (config_error "message_security.app_replay_cache_ttl_secs must be at least 1") in
  let? _ := reject_if
    (bool_decide (app_replay_cache_ttl_secs cfg <
      sat_add u64_max (max_app_message_age_secs cfg) (max_app_message_future_skew_secs cfg)))
    (config_error "message_security.app_replay_cache_ttl_secs must cover max_app_message_age_secs + max_app_message_future_skew_secs") in
  ReputationConfig_validate (reputation cfg).

(** The [u64]/[usize] fields of a configuration are in range. *)
Definition MessageSecurityConfig_wf (cfg : MessageSecurityConfig) : Prop :=
  is_u64 (max_heartbeat_wire_bytes cfg) /\ is_u64 (max_heartbeat_age_secs cfg) /\
  is_u64 (max_heartbeat_future_skew_secs cfg) /\ is_u64 (replay_cache_capacity cfg) /\
  is_u64 (replay_cache_ttl_secs cfg) /\ is_u64 (max_app_message_age_secs cfg) /\
  is_u64 (max_app_message_future_skew_secs cfg) /\ is_u64 (app_replay_cache_capacity cfg) /\
  is_u64 (app_replay_cache_ttl_secs cfg).

Section pulse.
Context `{HX : HexLib} `{BL : Blake3Lib} `{PL : PeerIdLib}.

(** [HeartbeatEnvelope::new]: the entropy is what [OsRng] wrote, the time is
    the wall clock's. *)
Definition HeartbeatEnvelope_new (peer_id : PeerId) (entropy : list byte) (now_ns : Z)
  : HeartbeatEnvelope := {|
  hb_schema_version := HEARTBEAT_SCHEMA_VERSION;
  hb_peer_id := peer_to_string peer_id;
  hb_timestamp_ns := now_ns;
  hb_nonce_hex := blake3_hex entropy;
  hb_entropy := entropy;
|}.

Definition collect_local_heartbeat (peer_id : PeerId) (entropy : list byte) (now_ns : Z)
  : result HeartbeatEnvelope NetError :=
  Ok (HeartbeatEnvelope_new peer_id entropy now_ns).

Definition decode_nonce (nonce_hex : string) : option (list byte) :=
  match hex_decode nonce_hex with
  | Ok decoded => if decide (len decoded = NONCE_BYTES) then Some decoded else None
  | Err _ => None
  end.

Definition encode_heartbeat_wire (env : HeartbeatEnvelope) : result (list byte) NetError :=
  let? peer := map_err (peer_parse (hb_peer_id env))
    (fun err => GossipCodec ("invalid heartbeat peer id: " +:+ err)) in
  let peer_bytes := peer_to_bytes peer in
  let? peer_len := (if decide (len peer_bytes <= u16_max) then Ok (len peer_bytes)
                    else Err (GossipCodec "heartbeat peer id is too long")) in
  let? nonce := ok_or (decode_nonce (hb_nonce_hex env))
    (GossipCodec "heartbeat nonce must be 32-byte hex") in
  let? _ := reject_if (bool_decide (len (hb_entropy env) ≠ HEARTBEAT_ENTROPY_BYTES))
    (GossipCodec ("heartbeat entropy must be " +:+ pretty HEARTBEAT_ENTROPY_BYTES +:+ " bytes")) in
  Ok (HEARTBEAT_WIRE_MAGIC
      ++ be_bytes 2 (hb_schema_version env)
      ++ be_bytes 2 peer_len
      ++ peer_bytes
      ++ be_bytes 8 (hb_timestamp_ns env)
      ++ nonce
      ++ hb_entropy env).

(** [read_u16] and [read_u64]: the value and the advanced cursor. *)
Definition read_be (width : Z) (data : list byte) (cursor : Z) : result (Z * Z) NetError :=
  let end_ := sat_add usize_max cursor width in
  let? bytes := ok_or
    (match slice_get data cursor end_ with
     | Some slice => if decide (len slice = width) then Some slice else None
     | None => None
     end)
    (GossipCodec "heartbeat frame is truncated") in
  Ok (be_value bytes, end_).

Definition read_u16 (data : list byte) (cursor : Z) : result (Z * Z) NetError := read_be 2 data cursor.
Definition read_u64 (data : list byte) (cursor : Z) : result (Z * Z) NetError := read_be 8 data cursor.

(** [checked_add] at the width of [usize]. *)
Definition checked_add (a b : Z) : option Z :=
  if decide (a + b <= usize_max) then Some (a + b) else None.

(** The decoder; a slice out of bounds is a panic. *)
Definition decode_heartbeat_wire (data : list byte) : run (result HeartbeatEnvelope NetError) :=
  if decide (len data < FIXED_WIRE_BYTES) then
    Ret (Err (GossipCodec "heartbeat frame is truncated"))
  else
  let! magic := slice_index data 0 (len HEARTBEAT_WIRE_MAGIC) in
  if decide (magic ≠ HEARTBEAT_WIRE_MAGIC) then
    Ret (Err (GossipCodec "heartbeat frame magic mismatch"))
  else
  match read_u16 data (len HEARTBEAT_WIRE_MAGIC) with
  | Err e => Ret (Err e)
  | Ok (schema_version, cursor) =>
  match read_u16 data cursor with
  | Err e => Ret (Err e)
  | Ok (peer_len, cursor) =>
  match checked_add FIXED_WIRE_BYTES peer_len with
  | None => Ret (Err (GossipCodec "heartbeat frame length overflow"))
  | Some expected_len =>
  if decide (len data ≠ expected_len) then
    Ret (Err (GossipCodec "heartbeat frame length mismatch"))
  else
  let peer_end := cursor + peer_len in
  let! peer_slice := slice_index data cursor peer_end in
  match peer_from_bytes peer_slice with
  | Err err => Ret (Err (GossipCodec ("invalid heartbeat peer id bytes: " +:+ err)))
  | Ok peer =>
  let cursor := peer_end in
  match read_u64 data cursor with
  | Err e => Ret (Err e)
  | Ok (timestamp_ns, cursor) =>
  let! nonce := slice_index data cursor (cursor + NONCE_BYTES) in
  let cursor := cursor + NONCE_BYTES in
  let! entropy := slice_index data cursor (cursor + HEARTBEAT_ENTROPY_BYTES) in
  Ret (Ok {|
    hb_schema_version := schema_version;
    hb_peer_id := peer_to_string peer;
    hb_timestamp_ns := timestamp_ns;
    hb_nonce_hex := hex_encode nonce;
    hb_entropy := entropy;
  |})
  end end end end end.

Definition verify_heartbeat_with_config (source : PeerId) (env : HeartbeatEnvelope) (now_ns : Z)
    (cfg : MessageSecurityConfig) : bool :=
  if decide (hb_schema_version env ≠ HEARTBEAT_SCHEMA_VERSION) then false else
  if decide (hb_peer_id env ≠ peer_to_string source) then false else
  if decide (len (hb_entropy env) ≠ HEARTBEAT_ENTROPY_BYTES) then false else
  if forallb (fun b => bool_decide (b = x00)) (hb_entropy env) then false else
  match decode_nonce (hb_nonce_hex env) with
  | None => false
  | Some nonce =>
  if decide (blake3_hash (hb_entropy env) ≠ nonce) then false else
  let max_future_ns := sat_mul u64_max (max_heartbeat_future_skew_secs cfg) NS_PER_SEC in
  let max_age_ns := sat_mul u64_max (max_heartbeat_age_secs cfg) NS_PER_SEC in
  if decide (sat_add u64_max now_ns max_future_ns < hb_timestamp_ns env) then false else
  if decide (max_age_ns < sat_sub now_ns (hb_timestamp_ns env)) then false else
  true
  end.

Definition verify_heartbeat (source : PeerId) (env : HeartbeatEnvelope) (now_ns : Z) : bool :=
  verify_heartbeat_with_config source env now_ns MessageSecurityConfig_default.

Inductive HeartbeatValidationDecision :=
| Accept
| Reject
| IgnoreDuplicate
| RejectOversize.

#[global] Instance HeartbeatValidationDecision_eq_dec : EqDecision HeartbeatValidationDecision.
Proof. solve_decision. Defined.

Record HeartbeatValidationResult := {
  decision : HeartbeatValidationDecision;
  envelope : option HeartbeatEnvelope;
}.

Record HeartbeatReplayKey := {
  key_source : PeerId;
  key_schema_version : Z;
  key_timestamp_ns : Z;
  key_nonce : list byte;
}.

#[global] Instance HeartbeatReplayKey_eq_dec : EqDecision HeartbeatReplayKey.
Proof. solve_decision. Defined.

#[global] Program Instance HeartbeatReplayKey_countable : Countable HeartbeatReplayKey :=
  inj_countable'
    (fun k => (key_source k, key_schema_version k, key_timestamp_ns k, key_nonce k))
    (fun '(s, v, t, n) => {| key_source := s; key_schema_version := v;
                             key_timestamp_ns := t; key_nonce := n |}) _.
Next Obligation. by intros []. Qed.

Definition HeartbeatReplayCache : Type := ReplayCache HeartbeatReplayKey.

Definition HeartbeatReplayCache_new (cfg : MessageSecurityConfig) : HeartbeatReplayCache := {|
  capacity := Z.max (replay_cache_capacity cfg) 1;
  ttl_ns := sat_mul u64_max (replay_cache_ttl_secs cfg) NS_PER_SEC;
  entries := ∅;
  order := [];
|}.

Definition replay_key (source : PeerId) (env : HeartbeatEnvelope) : option HeartbeatReplayKey :=
  match decode_nonce (hb_nonce_hex env) with
  | None => None
  | Some nonce => Some {|
      key_source := source;
      key_schema_version := hb_schema_version env;
      key_timestamp_ns := hb_timestamp_ns env;
      key_nonce := nonce;
    |}
  end.

Definition check_and_insert (c : HeartbeatReplayCache) (source : PeerId) (env : HeartbeatEnvelope)
    (now_ns : Z) : bool * HeartbeatReplayCache :=
  check_and_insert_key c (replay_key source env) now_ns.

Definition validate_heartbeat_wire (source : PeerId) (data : list byte) (now_ns : Z)
    (cfg : MessageSecurityConfig) (replay_cache : HeartbeatReplayCache)
  : run (HeartbeatValidationResult * HeartbeatReplayCache) :=
  if decide (max_heartbeat_wire_bytes cfg < len data) then
    Ret ({| decision := RejectOversize; envelope := None |}, replay_cache)
  else
  let! decoded := decode_heartbeat_wire data in
  match decoded with
  | Err _ => Ret ({| decision := Reject; envelope := None |}, replay_cache)
  | Ok env =>
  if negb (verify_heartbeat_with_config source env now_ns cfg) then
    Ret ({| decision := Reject; envelope := Some env |}, replay_cache)
  else
  let (is_new, replay_cache) := check_and_insert replay_cache source env now_ns in
  if negb is_new then
    Ret ({| decision := IgnoreDuplicate; envelope := Some env |}, replay_cache)
  else Ret ({| decision := Accept; envelope := Some env |}, replay_cache)
  end.
End pulse.
