(* ===== verification/PulseFacts.v ===== *)
(** Correctness of heartbeats: the decoder accepts exactly the frames of the
    documented grammar and never panics, the encoder and the decoder are
    inverse, an accepted frame is authentic and fresh, and no frame is accepted
    twice. *)

From S2P Require Import Prelude Bytes Common ReplayCache Pulse.

#[local] Open Scope Z_scope.

Section facts.
Context `{HX : HexLib} `{BL : Blake3Lib} `{PL : PeerIdLib}.

(** The documented frame: magic | schema(u16) | peer_len(u16) | peer_id bytes |
    timestamp(u64) | nonce([u8;32]) | entropy([u8;32]). *)
Definition frame (schema : Z) (peer_bytes : list byte) (timestamp : Z) (nonce entropy : list byte)
  : list byte :=
  HEARTBEAT_WIRE_MAGIC ++ be_bytes 2 schema ++ be_bytes 2 (len peer_bytes) ++ peer_bytes
  ++ be_bytes 8 timestamp ++ nonce ++ entropy.

Lemma frame_length schema pb ts nonce entropy :
  len nonce = 32 -> len entropy = 32 -> len (frame schema pb ts nonce entropy) = 80 + len pb.
Proof.
  unfold frame, len. intros. rewrite !length_app, !length_be_bytes. cbn. lia.
Qed.

Lemma read_be_Ok w data c v c' :
  read_be w data c = Ok (v, c') ->
  c' = c + w /\ exists bs, slice_get data c (c + w) = Some bs /\ v = be_value bs /\ len bs = w.
Proof.
  unfold read_be. destruct (slice_get data c (sat_add usize_max c w)) as [bs|] eqn:E; [|done].
  pose proof (slice_get_length _ _ _ _ E) as Hl.
  case_decide as Hd; [|done]. cbn. intros [= <- <-].
  assert (sat_add usize_max c w = c + w) as Hw by lia.
  rewrite Hw in *. eauto.
Qed.

Lemma read_be_slice w data c bs :
  slice_get data c (c + w) = Some bs -> c + w <= usize_max ->
  read_be w data c = Ok (be_value bs, c + w).
Proof.
  intros Hs Hc. unfold read_be. pose proof (slice_get_length _ _ _ _ Hs).
  replace (sat_add usize_max c w) with (c + w) by ulia.
  rewrite Hs. rewrite decide_True by lia. done.
Qed.

Lemma read_be_range w data c v c' :
  read_be w data c = Ok (v, c') -> 0 <= w -> 0 <= v < 256 ^ w.
Proof.
  intros (-> & bs & _ & -> & <-)%read_be_Ok _. apply be_value_range.
Qed.

(** The chunks that follow each other in the data rebuild it. *)
Lemma frame_of_slices data a b1 b2 pb b3 nonce entropy :
  slice_get data 0 4 = Some a -> slice_get data 4 6 = Some b1 -> slice_get data 6 8 = Some b2 ->
  slice_get data 8 (8 + be_value b2) = Some pb ->
  slice_get data (8 + be_value b2) (16 + be_value b2) = Some b3 ->
  slice_get data (16 + be_value b2) (48 + be_value b2) = Some nonce ->
  slice_get data (48 + be_value b2) (80 + be_value b2) = Some entropy ->
  a = HEARTBEAT_WIRE_MAGIC -> len data = 80 + be_value b2 ->
  data = frame (be_value b1) pb (be_value b3) nonce entropy.
Proof.
  intros S0 S1 S2 S3 S4 S5 S6 -> Hlen.
  pose proof (slice_get_length _ _ _ _ S1) as L1. pose proof (slice_get_length _ _ _ _ S2) as L2.
  pose proof (slice_get_length _ _ _ _ S3) as L3. pose proof (slice_get_length _ _ _ _ S4) as L4.
  apply slice_get_drop in S0, S1, S2, S3, S4, S5, S6.
  change data with (drop (Z.to_nat 0) data). rewrite S0, S1, S2, S3, S4, S5, S6.
  rewrite (drop_ge data) by ulia. rewrite app_nil_r. unfold frame.
  replace (len pb) with (be_value b2) by lia.
  pose proof (be_bytes_value b1) as E1. pose proof (be_bytes_value b2) as E2.
  pose proof (be_bytes_value b3) as E3.
  replace (length b1) with 2%nat in E1 by ulia. replace (length b2) with 2%nat in E2 by ulia.
  replace (length b3) with 8%nat in E3 by ulia. by rewrite E1, E2, E3.
Qed.

(** What [decode_heartbeat_wire] returns for a well-formed frame. *)
Definition frame_envelope (schema : Z) (peer : PeerId) (ts : Z) (nonce entropy : list byte)
  : HeartbeatEnvelope := {|
  hb_schema_version := schema;
  hb_peer_id := peer_to_string peer;
  hb_timestamp_ns := ts;
  hb_nonce_hex := hex_encode nonce;
  hb_entropy := entropy;
|}.

(** The frames the decoder accepts, as a predicate on the raw bytes. *)
Definition is_frame (data : list byte) (env : HeartbeatEnvelope) : Prop :=
  exists schema pb peer ts nonce entropy,
    data = frame schema pb ts nonce entropy /\ env = frame_envelope schema peer ts nonce entropy /\
    is_u16 schema /\ len pb <= u16_max /\ peer_from_bytes pb = Ok peer /\ is_u64 ts /\
    len nonce = NONCE_BYTES /\ len entropy = HEARTBEAT_ENTROPY_BYTES.

Lemma slice_cast {A} (data : list A) i j i' j' l :
  slice_get data i j = Some l -> i = i' -> j = j' -> slice_get data i' j' = Some l.
Proof. by intros ? -> ->. Qed.

(** Every run of the decoder ends with an error or with a frame read. *)
Lemma decode_cases data :
  (exists e, decode_heartbeat_wire data = Ret (Err (GossipCodec e))) \/
  (exists env, decode_heartbeat_wire data = Ret (Ok env) /\ is_frame data env).
Proof.
  unfold decode_heartbeat_wire. case_decide as Hlen; [eauto|].
  change FIXED_WIRE_BYTES with 80 in *. change (len HEARTBEAT_WIRE_MAGIC) with 4.
  destruct (slice_index_Ret data 0 4) as (magic & -> & S0 & _); [lia..|]. cbn [run_bind].
  case_decide as Hm; [eauto|].
  unfold read_u16, read_u64.
  destruct (slice_get_is_Some data 4 (4 + 2)) as (b1 & S1 & L1); [lia..|].
  rewrite (read_be_slice 2 data 4 b1 S1) by ulia.
  destruct (slice_get_is_Some data (4 + 2) (4 + 2 + 2)) as (b2 & S2 & L2); [lia..|].
  rewrite (read_be_slice 2 data (4 + 2) b2 S2) by ulia.
  assert (0 <= be_value b1 <= u16_max) as R1 by (by apply be_value_u16).
  assert (0 <= be_value b2 <= u16_max) as R2 by (by apply be_value_u16).
  unfold checked_add. rewrite decide_True by ulia.
  case_decide as Hl; [eauto|].
  destruct (slice_index_Ret data (4 + 2 + 2) (4 + 2 + 2 + be_value b2)) as (pb & -> & S3 & L3); [lia..|].
  cbn [run_bind]. destruct (peer_from_bytes pb) as [peer|err] eqn:Hp; [|eauto].
  destruct (slice_get_is_Some data (4 + 2 + 2 + be_value b2) (4 + 2 + 2 + be_value b2 + 8))
    as (b3 & S4 & L4); [lia..|].
  rewrite (read_be_slice 8 data _ b3 S4) by ulia.
  assert (is_u64 (be_value b3)) as R3 by (apply be_value_u64; lia).
  change NONCE_BYTES with 32 in *. change HEARTBEAT_ENTROPY_BYTES with 32 in *.
  destruct (slice_index_Ret data (4 + 2 + 2 + be_value b2 + 8) (4 + 2 + 2 + be_value b2 + 8 + 32))
    as (nonce & -> & S5 & L5); [lia..|]. cbn [run_bind].
  destruct (slice_index_Ret data (4 + 2 + 2 + be_value b2 + 8 + 32)
    (4 + 2 + 2 + be_value b2 + 8 + 32 + 32)) as (entropy & -> & S6 & L6); [lia..|].
  right. eexists. split; [done|].
  exists (be_value b1), pb, peer, (be_value b3), nonce, entropy.
  change NONCE_BYTES with 32. change HEARTBEAT_ENTROPY_BYTES with 32.
  split_and!; try done; try ulia.
  apply (frame_of_slices data magic b1 b2); try done; eapply slice_cast; eauto; lia.
Qed.

(** Where the parts of a frame lie. *)
Lemma frame_slices schema pb ts nonce entropy :
  len nonce = 32 -> len entropy = 32 ->
  let data := frame schema pb ts nonce entropy in
  slice_get data 0 4 = Some HEARTBEAT_WIRE_MAGIC /\
  slice_get data 4 (4 + 2) = Some (be_bytes 2 schema) /\
  slice_get data (4 + 2) (4 + 2 + 2) = Some (be_bytes 2 (len pb)) /\
  slice_get data (4 + 2 + 2) (4 + 2 + 2 + len pb) = Some pb /\
  slice_get data (4 + 2 + 2 + len pb) (4 + 2 + 2 + len pb + 8) = Some (be_bytes 8 ts) /\
  slice_get data (4 + 2 + 2 + len pb + 8) (4 + 2 + 2 + len pb + 8 + 32) = Some nonce /\
  slice_get data (4 + 2 + 2 + len pb + 8 + 32) (4 + 2 + 2 + len pb + 8 + 32 + 32) = Some entropy.
Proof.
  intros Hn He data.
  assert (forall pre mid post i j, pre ++ mid ++ post = data -> i = len pre -> j = i + len mid ->
    slice_get data i j = Some mid) as Sl by (intros ? ? ? ? ? <-; apply slice_get_app).
  set (m := HEARTBEAT_WIRE_MAGIC). set (b1 := be_bytes 2 schema).
  set (b2 := be_bytes 2 (len pb)). set (b3 := be_bytes 8 ts).
  assert (len b1 = 2) as L1 by (unfold len, b1; by rewrite length_be_bytes).
  assert (len b2 = 2) as L2 by (unfold len, b2; by rewrite length_be_bytes).
  assert (len b3 = 8) as L3 by (unfold len, b3; by rewrite length_be_bytes).
  assert (len m = 4) as L0 by done.
  split_and!.
  - by apply (Sl [] m _ _ _ eq_refl).
  - apply (Sl m b1 _ _ _ eq_refl); lia.
  - apply (Sl (m ++ b1) b2 (pb ++ b3 ++ nonce ++ entropy));
      rewrite <- ?app_assoc, ?len_app; [done|lia..].
  - apply (Sl (m ++ b1 ++ b2) pb (b3 ++ nonce ++ entropy));
      rewrite <- ?app_assoc, ?len_app; [done|lia..].
  - apply (Sl (m ++ b1 ++ b2 ++ pb) b3 (nonce ++ entropy));
      rewrite <- ?app_assoc, ?len_app; [done|lia..].
  - apply (Sl (m ++ b1 ++ b2 ++ pb ++ b3) nonce entropy);
      rewrite <- ?app_assoc, ?len_app; [done|lia..].
  - apply (Sl (m ++ b1 ++ b2 ++ pb ++ b3 ++ nonce) entropy []);
      rewrite ?app_nil_r, <- ?app_assoc, ?len_app; [done|lia..].
Qed.

(** A frame of the grammar is decoded. *)
Lemma decode_frame schema pb peer ts nonce entropy :
  is_u16 schema -> len pb <= u16_max -> peer_from_bytes pb = Ok peer -> is_u64 ts ->
  len nonce = NONCE_BYTES -> len entropy = HEARTBEAT_ENTROPY_BYTES ->
  decode_heartbeat_wire (frame schema pb ts nonce entropy) =
  Ret (Ok (frame_envelope schema peer ts nonce entropy)).
Proof.
  change NONCE_BYTES with 32. change HEARTBEAT_ENTROPY_BYTES with 32.
  intros Hs Hpb Hp Ht Hn He. pose proof (frame_length schema pb ts nonce entropy Hn He) as Hl.
  destruct (frame_slices schema pb ts nonce entropy Hn He) as (S0 & S1 & S2 & S3 & S4 & S5 & S6).
  set (data := frame schema pb ts nonce entropy) in *. pose proof (len_nonneg pb).
  unfold decode_heartbeat_wire, read_u16, read_u64, slice_index, checked_add.
  change FIXED_WIRE_BYTES with 80. change (len HEARTBEAT_WIRE_MAGIC) with 4.
  change NONCE_BYTES with 32. change HEARTBEAT_ENTROPY_BYTES with 32.
  rewrite decide_False by lia. rewrite S0. cbn [expect run_bind]. rewrite decide_False by tauto.
  rewrite (read_be_slice 2 data 4 _ S1) by ulia. rewrite (read_be_slice 2 data _ _ S2) by ulia.
  rewrite be_value_bytes by ulia.
  rewrite decide_True by ulia. rewrite decide_False by (rewrite Hl; tauto).
  rewrite S3. cbn [expect run_bind]. rewrite Hp. rewrite (read_be_slice 8 data _ _ S4) by ulia.
  rewrite S5. cbn [expect run_bind]. rewrite S6. cbn [expect run_bind].
  rewrite be_value_bytes by ulia. rewrite be_value_bytes by ulia. done.
Qed.

(** For every byte string, [decode_heartbeat_wire] returns (no slice it
    takes is out of bounds, so it cannot panic), and it returns an envelope
    exactly when the bytes are a frame of the documented grammar, the one read
    from that frame. *)
Theorem decode_heartbeat_exact data :
  decode_heartbeat_wire data ≠ Panic /\
  forall env, decode_heartbeat_wire data = Ret (Ok env) <-> is_frame data env.
Proof.
  split.
  - destruct (decode_cases data) as [[e ->]|(env & -> & _)]; done.
  - intros env. split.
    + intros Hd. destruct (decode_cases data) as [[e He]|(env' & He & Hf)]; congruence.
    + intros (schema & pb & peer & ts & nonce & entropy & -> & -> & ? & ? & ? & ? & ? & ?).
      by apply decode_frame.
Qed.

Context {HL : HexLaws HX} {PLW : PeerIdLaws PL}.

Lemma decode_nonce_length s nonce : decode_nonce s = Some nonce -> len nonce = NONCE_BYTES.
Proof. unfold decode_nonce. intros. repeat (case_match || case_decide); by simplify_eq. Qed.

Lemma decode_nonce_encode nonce : len nonce = NONCE_BYTES -> decode_nonce (hex_encode nonce) = Some nonce.
Proof using HL. intros. unfold decode_nonce. rewrite hex_decode_encode. by rewrite decide_True. Qed.

(** What a successful encoding consists of. *)
Lemma encode_Ok env wire :
  encode_heartbeat_wire env = Ok wire ->
  exists peer nonce,
    peer_parse (hb_peer_id env) = Ok peer /\ decode_nonce (hb_nonce_hex env) = Some nonce /\
    len (peer_to_bytes peer) <= u16_max /\ len (hb_entropy env) = HEARTBEAT_ENTROPY_BYTES /\
    wire = frame (hb_schema_version env) (peer_to_bytes peer) (hb_timestamp_ns env) nonce (hb_entropy env).
Proof.
  unfold encode_heartbeat_wire. destruct (peer_parse _) as [peer|]; cbn; [|done].
  case_decide; cbn; [|done]. destruct (decode_nonce _) as [nonce|]; cbn; [|done].
  unfold reject_if. case_bool_decide as Hb; cbn; [done|]. intros [= <-].
  exists peer, nonce. split_and!; done.
Qed.

(** Decoding what [encode_heartbeat_wire] wrote gives back the envelope,
    with the peer id and the nonce in their canonical text; an envelope built
    by [HeartbeatEnvelope::new] comes back unchanged. *)
Theorem heartbeat_wire_roundtrip env wire :
  is_u16 (hb_schema_version env) -> is_u64 (hb_timestamp_ns env) ->
  encode_heartbeat_wire env = Ok wire ->
  (exists peer nonce,
    peer_parse (hb_peer_id env) = Ok peer /\ decode_nonce (hb_nonce_hex env) = Some nonce /\
    decode_heartbeat_wire wire = Ret (Ok (frame_envelope (hb_schema_version env) peer
      (hb_timestamp_ns env) nonce (hb_entropy env)))) /\
  (forall peer entropy now, env = HeartbeatEnvelope_new peer entropy now ->
    decode_heartbeat_wire wire = Ret (Ok env)).
Proof using HL PLW.
  intros Hs Ht (peer & nonce & Hp & Hn & Hl & He & ->)%encode_Ok.
  pose proof (decode_frame (hb_schema_version env) (peer_to_bytes peer) peer (hb_timestamp_ns env)
    nonce (hb_entropy env) Hs Hl (peer_from_to_bytes peer) Ht (decode_nonce_length _ _ Hn) He) as Hd.
  split; [by exists peer, nonce|].
  intros peer' entropy now ->. cbn in *. rewrite Hd. unfold frame_envelope, HeartbeatEnvelope_new.
  rewrite peer_parse_to_string in Hp. injection Hp as <-.
  unfold decode_nonce, blake3_hex in Hn. rewrite hex_decode_encode in Hn.
  case_decide; [|done]. injection Hn as <-. done.
Qed.

(** * Validation *)

Lemma verify_sound source env now cfg :
  verify_heartbeat_with_config source env now cfg = true ->
  hb_schema_version env = HEARTBEAT_SCHEMA_VERSION /\
  hb_peer_id env = peer_to_string source /\
  len (hb_entropy env) = HEARTBEAT_ENTROPY_BYTES /\
  (exists b, b ∈ hb_entropy env /\ b ≠ x00) /\
  decode_nonce (hb_nonce_hex env) = Some (blake3_hash (hb_entropy env)) /\
  hb_timestamp_ns env <=
    sat_add u64_max now (sat_mul u64_max (max_heartbeat_future_skew_secs cfg) NS_PER_SEC) /\
  sat_sub now (hb_timestamp_ns env) <= sat_mul u64_max (max_heartbeat_age_secs cfg) NS_PER_SEC.
Proof.
  unfold verify_heartbeat_with_config. intros H.
  destruct (decide (hb_schema_version env ≠ _)) as [|Hs]; [done|].
  destruct (decide (hb_peer_id env ≠ _)) as [|Hp]; [done|].
  destruct (decide (len (hb_entropy env) ≠ _)) as [|He]; [done|].
  destruct (forallb _ _) eqn:Hz; [done|].
  destruct (decode_nonce _) as [nonce|]; [|done].
  repeat case_decide; try done.
  apply forallb_false_exists in Hz as (b & Hb & Hne).
  split_and!; try by apply dec_stable.
  - exists b. by apply bool_decide_eq_false in Hne.
  - congruence.
  - lia.
  - lia.
Qed.

(** The two ways a validation ends: before the replay cache is consulted, or
    with the cache's verdict on a verified envelope. *)
Lemma validate_cases source data now cfg c r c' :
  validate_heartbeat_wire source data now cfg c = Ret (r, c') ->
  (decision r ≠ Accept /\ c' = c) \/
  (exists env b, len data <= max_heartbeat_wire_bytes cfg /\
    decode_heartbeat_wire data = Ret (Ok env) /\
    verify_heartbeat_with_config source env now cfg = true /\
    check_and_insert c source env now = (b, c') /\ envelope r = Some env /\
    decision r = if b then Accept else IgnoreDuplicate).
Proof.
  unfold validate_heartbeat_wire. case_decide; [intros; inv_result; by left|].
  destruct (decode_heartbeat_wire data) as [[env|e]|]; cbn; [|intros; inv_result; by left|done].
  destruct (verify_heartbeat_with_config source env now cfg) eqn:Hv; cbn;
    [|intros; inv_result; by left].
  destruct (check_and_insert c source env now) as [b c''] eqn:Hc.
  intros Hr. right. exists env, b. destruct b; cbn in Hr; inv_result; split_and!; try done; lia.
Qed.

(** An accepted frame is within the size limit, is a frame of the grammar
    that names the gossip author itself as its peer, with 32 bytes of non-zero
    entropy whose BLAKE3 digest is the nonce, and its timestamp is neither more
    than the configured skew ahead of the clock nor older than the configured
    age. *)
Theorem accepted_heartbeat_is_authentic_and_fresh source data now cfg c r c' :
  validate_heartbeat_wire source data now cfg c = Ret (r, c') -> decision r = Accept ->
  exists env, envelope r = Some env /\ is_frame data env /\
    len data <= max_heartbeat_wire_bytes cfg /\
    hb_schema_version env = HEARTBEAT_SCHEMA_VERSION /\
    hb_peer_id env = peer_to_string source /\
    len (hb_entropy env) = HEARTBEAT_ENTROPY_BYTES /\
    (exists b, b ∈ hb_entropy env /\ b ≠ x00) /\
    decode_nonce (hb_nonce_hex env) = Some (blake3_hash (hb_entropy env)) /\
    hb_timestamp_ns env <=
      sat_add u64_max now (sat_mul u64_max (max_heartbeat_future_skew_secs cfg) NS_PER_SEC) /\
    sat_sub now (hb_timestamp_ns env) <= sat_mul u64_max (max_heartbeat_age_secs cfg) NS_PER_SEC.
Proof.
  intros [[? _]|(env & b & Hl & Hd & Hv & _ & He & _)]%validate_cases Ha; [done|].
  exists env. split; [done|]. split.
  - destruct (decode_cases data) as [[e He']|(env' & He' & Hf)]; congruence.
  - split; [done|]. by apply verify_sound.
Qed.

(** * Replay

    A run of the validator: the frames received, in order, with their clock
    readings and the decisions taken. *)
Record hb_event := {
  ev_source : PeerId;
  ev_data : list byte;
  ev_now : Z;
  ev_decision : HeartbeatValidationDecision;
}.

Inductive hb_trace (cfg : MessageSecurityConfig)
  : HeartbeatReplayCache -> list hb_event -> HeartbeatReplayCache -> Prop :=
| hb_trace_nil c : hb_trace cfg c [] c
| hb_trace_cons c source data now r c1 tr c2 :
    validate_heartbeat_wire source data now cfg c = Ret (r, c1) ->
    hb_trace cfg c1 tr c2 ->
    hb_trace cfg c ({| ev_source := source; ev_data := data; ev_now := now;
                       ev_decision := decision r |} :: tr) c2.

(** The same run, computed. *)
Fixpoint hb_run (cfg : MessageSecurityConfig) (c : HeartbeatReplayCache)
    (inputs : list (PeerId * list byte * Z)) : run (list hb_event * HeartbeatReplayCache) :=
  match inputs with
  | [] => Ret ([], c)
  | (source, data, now) :: rest =>
      let! (r, c1) := validate_heartbeat_wire source data now cfg c in
      let! (tr, c2) := hb_run cfg c1 rest in
      Ret ({| ev_source := source; ev_data := data; ev_now := now;
              ev_decision := decision r |} :: tr, c2)
  end.

Lemma hb_run_trace cfg c inputs tr c' : hb_run cfg c inputs = Ret (tr, c') -> hb_trace cfg c tr c'.
Proof.
  revert c tr. induction inputs as [|[[source data] now] rest IH]; intros c tr; cbn.
  - intros. inv_result. constructor.
  - destruct (validate_heartbeat_wire _ _ _ _ _) as [[r c1]|] eqn:Hv; cbn; [|done].
    destruct (hb_run cfg c1 rest) as [[tr' c2]|] eqn:Hr; cbn; [|done].
    intros. inv_result. econstructor; eauto.
Qed.

Lemma hb_run_inputs cfg c inputs tr c' :
  hb_run cfg c inputs = Ret (tr, c') ->
  map (fun e => (ev_source e, ev_data e, ev_now e)) tr = inputs.
Proof.
  revert c tr. induction inputs as [|[[source data] now] rest IH]; intros c tr; cbn.
  - intros. by inv_result.
  - destruct (validate_heartbeat_wire _ _ _ _ _) as [[r c1]|]; cbn; [|done].
    destruct (hb_run cfg c1 rest) as [[tr' c2]|] eqn:Hr; cbn; [|done].
    intros. inv_result. cbn. f_equal. eauto.
Qed.

Definition is_accept (e : hb_event) : bool := bool_decide (ev_decision e = Accept).

Definition accepts (tr : list hb_event) : nat := length (List.filter is_accept tr).

Lemma hb_trace_app cfg c tr1 tr2 c2 :
  hb_trace cfg c (tr1 ++ tr2) c2 <-> exists c1, hb_trace cfg c tr1 c1 /\ hb_trace cfg c1 tr2 c2.
Proof.
  revert c. induction tr1 as [|e tr1 IH]; intros c; cbn; split.
  - intros. exists c. split; [constructor|done].
  - intros (c1 & H1 & ?). by inversion H1; subst.
  - intros H. inversion H; subst. match goal with H : hb_trace _ _ (_ ++ _) _ |- _ => apply IH in H as (c' & ? & ?) end.
    exists c'. split; [by econstructor|done].
  - intros (c1 & H1 & H2). inversion H1; subst. econstructor; [done|]. apply IH. eauto.
Qed.

(** The calls a run makes on its replay cache: one per verified frame, new
    exactly when the frame is accepted. *)
Lemma hb_trace_calls cfg c tr c' :
  hb_trace cfg c tr c' ->
  exists calls, call_trace c calls c' /\ news calls = accepts tr /\
    forall P : Z -> Prop, Forall (fun e => P (ev_now e)) tr -> Forall (fun k => P (call_now k)) calls.
Proof.
  induction 1 as [c|c source data now r c1 tr c2 Hv _ (calls & Hcalls & Hnews & Hall)].
  - exists []. split_and!; [constructor|done|by constructor].
  - apply validate_cases in Hv as [[Hd ->]|(env & b & _ & _ & _ & Hci & _ & Hd)].
    + exists calls. split_and!; [done| |].
      * rewrite Hnews. unfold accepts. cbn. unfold is_accept at 2. cbn.
        by rewrite bool_decide_eq_false_2 by done.
      * intros P HP. apply Forall_cons in HP as [_ HP]. auto.
    + exists ({| call_now := now; call_key := replay_key source env; call_new := b |} :: calls).
      split_and!.
      * by econstructor.
      * unfold news, accepts in *. cbn. unfold is_accept at 1. cbn. rewrite Hd.
        destruct b; [rewrite bool_decide_eq_true_2 by done|rewrite bool_decide_eq_false_2 by done];
          cbn; lia.
      * intros P HP. apply Forall_cons in HP as [? HP]. constructor; auto.
Qed.

(** A validated configuration keeps a key at least as long as its timestamp
    can pass the freshness check. *)
Lemma expired_is_stale cfg t0 t1 ts :
  MessageSecurityConfig_validate cfg = Ok tt -> MessageSecurityConfig_wf cfg ->
  is_u64 t0 -> is_u64 t1 ->
  ts <= sat_add u64_max t0 (sat_mul u64_max (max_heartbeat_future_skew_secs cfg) NS_PER_SEC) ->
  sat_mul u64_max (replay_cache_ttl_secs cfg) NS_PER_SEC < sat_sub t1 t0 ->
  sat_mul u64_max (max_heartbeat_age_secs cfg) NS_PER_SEC < sat_sub t1 ts.
Proof.
  unfold MessageSecurityConfig_validate. guards. unfold MessageSecurityConfig_wf, NS_PER_SEC.
  intros. destruct_and!. ulia.
Qed.

Lemma new_represents cfg : represents (HeartbeatReplayCache_new cfg) [].
Proof. apply represents_empty. Qed.

(** C1: Replay protection.  Under a validated configuration, start from the
    empty cache and receive any sequence of frames.  Once a frame from a source
    was accepted at time [t0], the same frame from that source is not accepted
    again at any later time [t1], whatever was received in between, provided no
    clock reading in between is past [t1] and fewer than
    [replay_cache_capacity] frames were accepted in between. *)
Theorem heartbeat_never_accepted_twice cfg tr1 source data t0 tr2 t1 d c :
  MessageSecurityConfig_validate cfg = Ok tt -> MessageSecurityConfig_wf cfg ->
  hb_trace cfg (HeartbeatReplayCache_new cfg)
    (tr1 ++ {| ev_source := source; ev_data := data; ev_now := t0; ev_decision := Accept |} ::
     tr2 ++ [{| ev_source := source; ev_data := data; ev_now := t1; ev_decision := d |}]) c ->
  is_u64 t0 -> is_u64 t1 -> Forall (fun e => ev_now e <= t1) tr2 ->
  Z.of_nat (accepts tr2) < replay_cache_capacity cfg ->
  d ≠ Accept.
Proof.
  intros Hcfg Hwf Htr Ht0 Ht1 Htr2 Hacc ->.
  apply hb_trace_app in Htr as (c1 & Htr1 & Htr).
  inversion Htr as [|? ? ? ? r0 c1' ? ? Hv0 Htr' Hev0]; subst; clear Htr.
  apply hb_trace_app in Htr' as (c2 & Htrm & Htr').
  inversion Htr' as [|? ? ? ? r1 c2' ? ? Hv1 _ Hev1]; subst; clear Htr'.
  assert (decision r0 = Accept) as Hr0 by congruence.
  assert (decision r1 = Accept) as Hr1 by congruence.
  apply hb_trace_calls in Htr1 as (calls1 & Hcalls1 & _ & _).
  apply hb_trace_calls in Htrm as (calls & Hcalls & Hnews & Hnow).
  destruct (call_trace_represents _ _ _ [] Hcalls1 ltac:(cbn; lia) (new_represents cfg) ltac:(cbn; lia))
    as (w1 & Hw1 & Hcap1 & Httl1 & _). cbn in Hcap1, Httl1.
  apply validate_cases in Hv0 as [[? _]|(env & b & _ & Hdec & Hver & Hci & _ & Hb)]; [done|].
  apply validate_cases in Hv1 as [[? _]|(env' & b' & _ & Hdec' & Hver' & Hci' & _ & Hb')]; [done|].
  rewrite Hdec in Hdec'. injection Hdec' as <-.
  destruct b; [|congruence]. destruct b'; [|congruence].
  apply verify_sound in Hver as (_ & _ & _ & _ & Hnonce & Hfut & _).
  apply verify_sound in Hver' as (_ & _ & _ & _ & _ & _ & Hage).
  destruct (decide (sat_sub t1 t0 <= ttl_ns c1)) as [Hlive|Hdead]; last first.
  { pose proof (expired_is_stale cfg t0 t1 _ Hcfg Hwf Ht0 Ht1 Hfut). rewrite Httl1 in Hdead. lia. }
  unfold check_and_insert, replay_key in Hci, Hci'. rewrite Hnonce in Hci, Hci'.
  enough (true = false) by done.
  eapply (call_trace_not_new_twice c1 _ t0 calls t1); [lia|exact Hw1| |by apply (Hnow (fun z => z <= t1))|done|lia].
  econstructor; [exact Hci|]. apply call_trace_app. exists c2. split; [done|].
  econstructor; [exact Hci'|constructor].
Qed.

(** The replay cache refines the abstract window.  After any run of the
    validator the [HashMap] and the [VecDeque] hold the same keys, each once,
    in insertion order, at most [capacity] of them. *)
Theorem heartbeat_cache_wf cfg tr c :
  hb_trace cfg (HeartbeatReplayCache_new cfg) tr c ->
  exists w, represents c w /\ len w <= Z.max (replay_cache_capacity cfg) 1 /\
    Z.of_nat (size (entries c)) = len w.
Proof.
  intros (calls & Hcalls & _ & _)%hb_trace_calls.
  destruct (call_trace_represents _ _ _ [] Hcalls ltac:(cbn; lia) (new_represents cfg) ltac:(cbn; lia))
    as (w & Hw & Hcap & _ & Hl).
  exists w. split_and!; [done|exact Hl|]. by rewrite (represents_size c w Hw).
Qed.
End facts.
