(* ===== verification/Metrics.v ===== *)
(** Runtime telemetry (crates/api/metrics.rs): bandwidth counters with bounded
    per-peer and per-topic tables. *)

From S2P Require Import Prelude Bytes Common.

#[local] Open Scope Z_scope.

Definition TRANSPORT_ACCOUNTING_OVERHEAD_BYTES : Z := 64.
Definition CONNECTION_HANDSHAKE_ESTIMATE_BYTES : Z := 1536.
Definition MAX_TRACKED_PEER_BANDWIDTH : Z := 512.
Definition MAX_TRACKED_TOPIC_BANDWIDTH : Z := 256.

Record PeerBandwidth := { peer_bytes_sent : Z; peer_bytes_recv : Z }.
Record TopicBandwidth := { topic_bytes_sent : Z; topic_bytes_recv : Z }.
Record StorageMetrics := { total_chunks_stored : Z; total_bytes_stored : Z }.
Record ComputeMetrics := {
  execution_cycles_estimated : Z;
  active_request_count : Z;
  choked_peers_count : Z;
}.

Definition PeerBandwidth_default : PeerBandwidth := {| peer_bytes_sent := 0; peer_bytes_recv := 0 |}.
Definition TopicBandwidth_default : TopicBandwidth := {| topic_bytes_sent := 0; topic_bytes_recv := 0 |}.

(** [if map.contains_key(&k) || map.len() < limit { f(map.entry(k).or_default()) }],
    when there is a key. *)
Definition track {K V} `{Countable K} (limit : Z) (dflt : V) (k : option K) (f : V -> V)
    (m : gmap K V) : gmap K V :=
  match k with
  | None => m
  | Some k =>
      if decide (is_Some (m !! k) \/ Z.of_nat (size m) < limit)
      then <[k := f (default dflt (m !! k))]> m
      else m
  end.

Definition peer_add_sent (bytes : Z) (b : PeerBandwidth) : PeerBandwidth :=
  {| peer_bytes_sent := sat_add u64_max (peer_bytes_sent b) bytes; peer_bytes_recv := peer_bytes_recv b |}.
Definition peer_add_recv (bytes : Z) (b : PeerBandwidth) : PeerBandwidth :=
  {| peer_bytes_sent := peer_bytes_sent b; peer_bytes_recv := sat_add u64_max (peer_bytes_recv b) bytes |}.
Definition topic_add_sent (bytes : Z) (b : TopicBandwidth) : TopicBandwidth :=
  {| topic_bytes_sent := sat_add u64_max (topic_bytes_sent b) bytes; topic_bytes_recv := topic_bytes_recv b |}.
Definition topic_add_recv (bytes : Z) (b : TopicBandwidth) : TopicBandwidth :=
  {| topic_bytes_sent := topic_bytes_sent b; topic_bytes_recv := sat_add u64_max (topic_bytes_recv b) bytes |}.

Definition accounted_transport_bytes (serialized_len : Z) : Z :=
  sat_add u64_max serialized_len TRANSPORT_ACCOUNTING_OVERHEAD_BYTES.

Section metrics.
Context `{PL : PeerIdLib}.

Record BandwidthMetrics := {
  total_bytes_sent : Z;
  total_bytes_received : Z;
  peer_stats : gmap PeerId PeerBandwidth;
  topic_stats : gmap string TopicBandwidth;
}.

Record NodeMetrics := {
  uptime_seconds : Z;
  bandwidth : BandwidthMetrics;
  storage : StorageMetrics;
  compute : ComputeMetrics;
}.

Definition BandwidthMetrics_default : BandwidthMetrics :=
  {| total_bytes_sent := 0; total_bytes_received := 0; peer_stats := ∅; topic_stats := ∅ |}.

Definition NodeMetrics_default : NodeMetrics := {|
  uptime_seconds := 0;
  bandwidth := BandwidthMetrics_default;
  storage := {| total_chunks_stored := 0; total_bytes_stored := 0 |};
  compute := {| execution_cycles_estimated := 0; active_request_count := 0; choked_peers_count := 0 |};
|}.

Definition set_bandwidth (m : NodeMetrics) (b : BandwidthMetrics) : NodeMetrics :=
  {| uptime_seconds := uptime_seconds m; bandwidth := b; storage := storage m; compute := compute m |}.

Definition record_sent (b : BandwidthMetrics) (peer_id : option PeerId) (topic : option string)
    (bytes : Z) : BandwidthMetrics := {|
  total_bytes_sent := sat_add u64_max (total_bytes_sent b) bytes;
  total_bytes_received := total_bytes_received b;
  peer_stats := track MAX_TRACKED_PEER_BANDWIDTH PeerBandwidth_default peer_id
    (peer_add_sent bytes) (peer_stats b);
  topic_stats := track MAX_TRACKED_TOPIC_BANDWIDTH TopicBandwidth_default topic
    (topic_add_sent bytes) (topic_stats b);
|}.

Definition record_received (b : BandwidthMetrics) (peer_id : option PeerId) (topic : option string)
    (bytes : Z) : BandwidthMetrics := {|
  total_bytes_sent := total_bytes_sent b;
  total_bytes_received := sat_add u64_max (total_bytes_received b) bytes;
  peer_stats := track MAX_TRACKED_PEER_BANDWIDTH PeerBandwidth_default peer_id
    (peer_add_recv bytes) (peer_stats b);
  topic_stats := track MAX_TRACKED_TOPIC_BANDWIDTH TopicBandwidth_default topic
    (topic_add_recv bytes) (topic_stats b);
|}.

Definition for_peer (m : NodeMetrics) (peer_id : option PeerId) : NodeMetrics :=
  match peer_id with
  | None => m
  | Some p =>
      set_bandwidth m {|
        total_bytes_sent := total_bytes_sent (bandwidth m);
        total_bytes_received := total_bytes_received (bandwidth m);
        peer_stats := match peer_stats (bandwidth m) !! p with
                      | Some stats => {[p := stats]}
                      | None => ∅
                      end;
        topic_stats := ∅;
      |}
  end.

Definition record_connection_handshake (m : NodeMetrics) (peer_id : option PeerId) : NodeMetrics :=
  let b := record_sent (bandwidth m) peer_id None CONNECTION_HANDSHAKE_ESTIMATE_BYTES in
  set_bandwidth m (record_received b peer_id None CONNECTION_HANDSHAKE_ESTIMATE_BYTES).

Definition record_storage_write (m : NodeMetrics) (bytes : Z) : NodeMetrics := {|
  uptime_seconds := uptime_seconds m;
  bandwidth := bandwidth m;
  storage := {|
    total_chunks_stored := sat_add u64_max (total_chunks_stored (storage m)) 1;
    total_bytes_stored := sat_add u64_max (total_bytes_stored (storage m)) bytes |};
  compute := compute m;
|}.

(** [u32::try_from(count).unwrap_or(u32::MAX)] *)
Definition record_choked_peers (m : NodeMetrics) (count : Z) : NodeMetrics := {|
  uptime_seconds := uptime_seconds m;
  bandwidth := bandwidth m;
  storage := storage m;
  compute := {|
    execution_cycles_estimated := execution_cycles_estimated (compute m);
    active_request_count := active_request_count (compute m);
    choked_peers_count := if decide (count <= u32_max) then count else u32_max |};
|}.
End metrics.

(** * Bounded tables

    A table driven by a sequence of keyed updates. *)
Section track_facts.
Context {K V : Type} `{Countable K} (limit : Z) (dflt : V).

Definition track_all (us : list (option K * (V -> V))) : gmap K V :=
  foldl (fun m u => track limit dflt u.1 u.2 m) ∅ us.

(** The updates made for one key, in order. *)
Definition updates_of (k : K) (us : list (option K * (V -> V))) : list (V -> V) :=
  snd <$> filter (fun u => u.1 = Some k) us.

Lemma track_all_snoc us u : track_all (us ++ [u]) = track limit dflt u.1 u.2 (track_all us).
Proof. unfold track_all. by rewrite foldl_app. Qed.

Lemma updates_of_snoc k us u :
  updates_of k (us ++ [u]) = updates_of k us ++ (if decide (u.1 = Some k) then [u.2] else []).
Proof.
  unfold updates_of. rewrite filter_app, fmap_app. f_equal. cbn. by case_decide.
Qed.

Lemma track_size k f (m : gmap K V) :
  0 <= limit -> Z.of_nat (size m) <= limit -> Z.of_nat (size (track limit dflt k f m)) <= limit.
Proof.
  intros Hl Hm. destruct k as [k|]; cbn; [|done]. case_decide as Hd; [|done].
  destruct (m !! k) eqn:E.
  - by rewrite map_size_insert_Some by (by exists v).
  - rewrite map_size_insert_None by done. destruct Hd as [[]|]; [done|lia].
Qed.

(** The table is bounded; a tracked key saw every one of its updates; a key
    that is missing although it was updated was refused by a full table. *)
Lemma track_all_exact us :
  0 < limit ->
  Z.of_nat (size (track_all us)) <= limit /\
  forall k,
    match track_all us !! k with
    | Some v => v = foldl (fun v f => f v) dflt (updates_of k us) /\ updates_of k us ≠ []
    | None => updates_of k us = [] \/ Z.of_nat (size (track_all us)) = limit
    end.
Proof.
  intros Hl. induction us as [|u us [Hsize IH]] using rev_ind.
  { split; [unfold track_all; cbn; rewrite map_size_empty; lia|]. intros k. by left. }
  rewrite track_all_snoc. split; [by apply track_size; [lia|]|].
  intros k. specialize (IH k). rewrite updates_of_snoc. destruct u as [[k'|] f]; cbn [fst snd track].
  2: { rewrite decide_False by done. by rewrite app_nil_r. }
  destruct (decide (k = k')) as [->|Hne].
  - rewrite (decide_True (P := Some k' = Some k')) by done. case_decide as Hd.
    + rewrite lookup_insert_eq, foldl_app. split; [|by destruct (updates_of k' us)]. cbn. f_equal.
      destruct (track_all us !! k') as [v|]; cbn; [by destruct IH|].
      destruct Hd as [[]|]; [done|]. destruct IH as [->|]; [done|lia].
    + destruct (track_all us !! k') as [v|] eqn:E; [destruct Hd; left; by exists v|]. right.
      destruct (decide (Z.of_nat (size (track_all us)) < limit)); [destruct Hd; by right|lia].
  - rewrite (decide_False (P := Some k' = Some k)) by congruence. rewrite app_nil_r. case_decide as Hd; [|done].
    rewrite lookup_insert_ne by done. destruct (track_all us !! k) as [v|] eqn:E; [done|].
    destruct IH as [->|Hfull]; [by left|]. right. destruct Hd as [Hs|]; [|lia].
    by rewrite map_size_insert_Some by done.
Qed.
End track_facts.

(** * The counters *)
Section metrics_facts.
Context `{PL : PeerIdLib}.

(** One accounting call. *)
Record accounting := {
  acc_sent : bool;
  acc_peer : option PeerId;
  acc_topic : option string;
  acc_bytes : Z;
}.

Definition account (b : BandwidthMetrics) (a : accounting) : BandwidthMetrics :=
  if acc_sent a then record_sent b (acc_peer a) (acc_topic a) (acc_bytes a)
  else record_received b (acc_peer a) (acc_topic a) (acc_bytes a).

Definition account_all (l : list accounting) : BandwidthMetrics := foldl account BandwidthMetrics_default l.

(** The bytes of the calls in one direction that satisfy a predicate. *)
Definition bytes_where (sent : bool) (P : accounting -> bool) (l : list accounting) : Z :=
  foldr (fun a z => (if Bool.eqb (acc_sent a) sent && P a then acc_bytes a else 0) + z) 0 l.

Lemma bytes_where_snoc sent P l a :
  bytes_where sent P (l ++ [a]) =
  bytes_where sent P l + (if Bool.eqb (acc_sent a) sent && P a then acc_bytes a else 0).
Proof.
  induction l as [|b l IH]; cbn.
  - apply Z.add_comm.
  - unfold bytes_where in IH. rewrite IH. apply Z.add_assoc.
Qed.

Lemma bytes_where_nonneg sent P l : Forall (fun a => 0 <= acc_bytes a) l -> 0 <= bytes_where sent P l.
Proof.
  unfold bytes_where. induction 1 as [|a l Ha _ IH]; cbn; [done|]. destruct (Bool.eqb _ _ && _); lia.
Qed.

Definition for_peer_p (p : PeerId) (a : accounting) : bool := bool_decide (acc_peer a = Some p).
Definition for_topic_p (t : string) (a : accounting) : bool := bool_decide (acc_topic a = Some t).

Definition peer_update (a : accounting) : option PeerId * (PeerBandwidth -> PeerBandwidth) :=
  (acc_peer a, if acc_sent a then peer_add_sent (acc_bytes a) else peer_add_recv (acc_bytes a)).
Definition topic_update (a : accounting) : option string * (TopicBandwidth -> TopicBandwidth) :=
  (acc_topic a, if acc_sent a then topic_add_sent (acc_bytes a) else topic_add_recv (acc_bytes a)).

Lemma account_all_tables l :
  peer_stats (account_all l) = track_all MAX_TRACKED_PEER_BANDWIDTH PeerBandwidth_default (peer_update <$> l) /\
  topic_stats (account_all l) = track_all MAX_TRACKED_TOPIC_BANDWIDTH TopicBandwidth_default (topic_update <$> l).
Proof.
  induction l as [|a l [IHp IHt]] using rev_ind; [done|].
  rewrite !fmap_app. unfold account_all in *. rewrite foldl_app. cbn [foldl fmap list_fmap].
  rewrite !track_all_snoc, <- IHp, <- IHt. unfold account, peer_update, topic_update.
  by destruct (acc_sent a).
Qed.

Lemma account_all_totals l :
  Forall (fun a => 0 <= acc_bytes a) l ->
  total_bytes_sent (account_all l) = Z.min u64_max (bytes_where true (fun _ => true) l) /\
  total_bytes_received (account_all l) = Z.min u64_max (bytes_where false (fun _ => true) l).
Proof.
  induction l as [|a l IH] using rev_ind; [done|].
  intros [Hl Ha]%Forall_app. apply Forall_cons in Ha as [Ha _]. destruct (IH Hl) as [IHs IHr]. clear IH.
  pose proof (bytes_where_nonneg true (fun _ => true) l Hl).
  pose proof (bytes_where_nonneg false (fun _ => true) l Hl).
  unfold account_all in *. rewrite foldl_app, !bytes_where_snoc. cbn [foldl].
  generalize dependent (foldl account BandwidthMetrics_default l). intros b IHs IHr. unfold account.
  generalize dependent (bytes_where true (fun _ => true) l).
  generalize dependent (bytes_where false (fun _ => true) l). intros y Hr Hy x Hs Hx.
  destruct (acc_sent a); cbn; split; ulia.
Qed.

Lemma peer_updates_value l p :
  Forall (fun a => 0 <= acc_bytes a) l ->
  foldl (fun v f => f v) PeerBandwidth_default (updates_of p (peer_update <$> l)) =
  {| peer_bytes_sent := Z.min u64_max (bytes_where true (for_peer_p p) l);
     peer_bytes_recv := Z.min u64_max (bytes_where false (for_peer_p p) l) |}.
Proof.
  induction l as [|a l IH] using rev_ind; [done|].
  intros [Hl Ha]%Forall_app. apply Forall_cons in Ha as [Ha _]. specialize (IH Hl).
  pose proof (bytes_where_nonneg true (for_peer_p p) l Hl) as Hs.
  pose proof (bytes_where_nonneg false (for_peer_p p) l Hl) as Hr.
  rewrite fmap_app, !bytes_where_snoc. cbn [fmap list_fmap]. rewrite updates_of_snoc, foldl_app, IH.
  revert Hs Hr. generalize (bytes_where true (for_peer_p p) l), (bytes_where false (for_peer_p p) l).
  intros x y Hx Hy. unfold peer_update, for_peer_p. cbn [fst snd].
  case_decide as Hd; [rewrite bool_decide_eq_true_2 by done|rewrite bool_decide_eq_false_2 by done];
    destruct (acc_sent a); cbn; unfold peer_add_sent, peer_add_recv; cbn; f_equal; ulia.
Qed.

Lemma topic_updates_value l t :
  Forall (fun a => 0 <= acc_bytes a) l ->
  foldl (fun v f => f v) TopicBandwidth_default (updates_of t (topic_update <$> l)) =
  {| topic_bytes_sent := Z.min u64_max (bytes_where true (for_topic_p t) l);
     topic_bytes_recv := Z.min u64_max (bytes_where false (for_topic_p t) l) |}.
Proof.
  induction l as [|a l IH] using rev_ind; [done|].
  intros [Hl Ha]%Forall_app. apply Forall_cons in Ha as [Ha _]. specialize (IH Hl).
  pose proof (bytes_where_nonneg true (for_topic_p t) l Hl) as Hs.
  pose proof (bytes_where_nonneg false (for_topic_p t) l Hl) as Hr.
  rewrite fmap_app, !bytes_where_snoc. cbn [fmap list_fmap]. rewrite updates_of_snoc, foldl_app, IH.
  revert Hs Hr. generalize (bytes_where true (for_topic_p t) l), (bytes_where false (for_topic_p t) l).
  intros x y Hx Hy. unfold topic_update, for_topic_p. cbn [fst snd].
  case_decide as Hd; [rewrite bool_decide_eq_true_2 by done|rewrite bool_decide_eq_false_2 by done];
    destruct (acc_sent a); cbn; unfold topic_add_sent, topic_add_recv; cbn; f_equal; ulia.
Qed.

Lemma updates_of_nil_peer l p :
  updates_of p (peer_update <$> l) = [] <-> Forall (fun a => acc_peer a ≠ Some p) l.
Proof.
  induction l as [|a l IH]; [done|]. unfold updates_of in *. cbn. rewrite Forall_cons, <- IH.
  case_decide as Hd; cbn; split; try done; tauto.
Qed.

(** Telemetry is bounded and exact.  After any sequence of accounting calls
    the totals are the sums of the bytes of each direction, saturated at
    [u64::MAX]; at most 512 peers and 256 topics are tracked; the counters of
    every tracked peer and topic are the saturated sums of all its calls, none
    missed; and a peer that was seen but is not tracked met a full table. *)
Theorem bandwidth_accounting_exact l :
  Forall (fun a => 0 <= acc_bytes a) l ->
  let b := account_all l in
  total_bytes_sent b = Z.min u64_max (bytes_where true (fun _ => true) l) /\
  total_bytes_received b = Z.min u64_max (bytes_where false (fun _ => true) l) /\
  Z.of_nat (size (peer_stats b)) <= MAX_TRACKED_PEER_BANDWIDTH /\
  Z.of_nat (size (topic_stats b)) <= MAX_TRACKED_TOPIC_BANDWIDTH /\
  (forall p s, peer_stats b !! p = Some s ->
     peer_bytes_sent s = Z.min u64_max (bytes_where true (for_peer_p p) l) /\
     peer_bytes_recv s = Z.min u64_max (bytes_where false (for_peer_p p) l)) /\
  (forall t s, topic_stats b !! t = Some s ->
     topic_bytes_sent s = Z.min u64_max (bytes_where true (for_topic_p t) l) /\
     topic_bytes_recv s = Z.min u64_max (bytes_where false (for_topic_p t) l)) /\
  (forall a p, a ∈ l -> acc_peer a = Some p -> peer_stats b !! p = None ->
     Z.of_nat (size (peer_stats b)) = MAX_TRACKED_PEER_BANDWIDTH).
Proof.
  intros Hl b. subst b. destruct (account_all_totals l Hl) as [-> ->].
  destruct (account_all_tables l) as [-> ->].
  destruct (track_all_exact MAX_TRACKED_PEER_BANDWIDTH PeerBandwidth_default (peer_update <$> l))
    as [Hsp Hp]; [done|].
  destruct (track_all_exact MAX_TRACKED_TOPIC_BANDWIDTH TopicBandwidth_default (topic_update <$> l))
    as [Hst Ht]; [done|].
  split_and!; try done.
  - intros p s Hs. specialize (Hp p). rewrite Hs in Hp. destruct Hp as [-> _].
    by rewrite peer_updates_value.
  - intros t s Hs. specialize (Ht t). rewrite Hs in Ht. destruct Ht as [-> _].
    by rewrite topic_updates_value.
  - intros a p Ha Hpa Hn. specialize (Hp p). rewrite Hn in Hp. destruct Hp as [Hnil|]; [|done].
    apply updates_of_nil_peer in Hnil. rewrite Forall_forall in Hnil. by apply Hnil in Ha.
Qed.

(** A report scoped to one peer keeps the totals, drops the topics and shows
    exactly that peer's counters. *)
Lemma for_peer_scoped m p :
  let s := for_peer m (Some p) in
  total_bytes_sent (bandwidth s) = total_bytes_sent (bandwidth m) /\
  total_bytes_received (bandwidth s) = total_bytes_received (bandwidth m) /\
  topic_stats (bandwidth s) = ∅ /\
  forall q, peer_stats (bandwidth s) !! q =
    if decide (q = p) then peer_stats (bandwidth m) !! p else None.
Proof.
  split_and!; try done. intros q. cbn. destruct (peer_stats (bandwidth m) !! p) as [s|] eqn:E.
  - rewrite lookup_singleton. by repeat case_decide; subst.
  - rewrite lookup_empty. by case_decide.
Qed.
End metrics_facts.
