(* ===== verification/Reputation.v ===== *)
(** Peer reputation (crates/protocol/reputation.rs): a bounded store of scores
    with an oldest-first index.  The operations as the code has them, the
    invariant that ties the index to the map, the memory bound under peer churn,
    the eviction policy and the exact effect of a decay tick, whatever order the
    [HashMap] yields its keys in. *)

From S2P Require Import Prelude Bytes BTree Common Pulse.

#[local] Open Scope Z_scope.

Definition MAX_TRACKED_REPUTATION_PEERS : Z := 8192.
Definition NEUTRAL_RETENTION_INTERVALS : Z := 10.

(** [Duration::MAX] in nanoseconds. *)
Definition DURATION_MAX : Z := u64_max * NS_PER_SEC + 999999999.

(** [Instant]s are nanoseconds on the monotonic clock. *)
Record ReputationEntry := {
  score : Z;
  invalid : Z;
  accepted : Z;
  duplicate_ignored : Z;
  last_updated : Z;
}.

Definition ReputationEntry_default (now : Z) : ReputationEntry := {|
  score := 0;
  invalid := 0;
  accepted := 0;
  duplicate_ignored := 0;
  last_updated := now;
|}.

Definition set_last_updated (now : Z) (e : ReputationEntry) : ReputationEntry := {|
  score := score e; invalid := invalid e; accepted := accepted e;
  duplicate_ignored := duplicate_ignored e; last_updated := now;
|}.

Definition set_score (s : Z) (e : ReputationEntry) : ReputationEntry := {|
  score := s; invalid := invalid e; accepted := accepted e;
  duplicate_ignored := duplicate_ignored e; last_updated := last_updated e;
|}.

(** The closures that [accept], [penalize_invalid] and [ignore_duplicate] pass
    to [update_peer]. *)
Definition on_accept (reward : Z) (e : ReputationEntry) : ReputationEntry := {|
  score := i32_sat_add (score e) reward; invalid := invalid e;
  accepted := sat_add u64_max (accepted e) 1;
  duplicate_ignored := duplicate_ignored e; last_updated := last_updated e;
|}.

Definition on_invalid (penalty : Z) (e : ReputationEntry) : ReputationEntry := {|
  score := i32_sat_sub (score e) penalty; invalid := sat_add u64_max (invalid e) 1;
  accepted := accepted e;
  duplicate_ignored := duplicate_ignored e; last_updated := last_updated e;
|}.

Definition on_duplicate (e : ReputationEntry) : ReputationEntry := {|
  score := score e; invalid := invalid e; accepted := accepted e;
  duplicate_ignored := sat_add u64_max (duplicate_ignored e) 1; last_updated := last_updated e;
|}.

Section reputation.
Context `{PL : PeerIdLib}.

Record ReputationStore := {
  by_peer : gmap PeerId ReputationEntry;
  age_order : gset (Z * PeerId);
  rep_cfg : ReputationConfig;
  max_peers : Z;
}.

Definition set_store (st : ReputationStore) (m : gmap PeerId ReputationEntry)
    (o : gset (Z * PeerId)) : ReputationStore :=
  {| by_peer := m; age_order := o; rep_cfg := rep_cfg st; max_peers := max_peers st |}.

Definition with_capacity (cfg : ReputationConfig) (max : Z) : ReputationStore :=
  {| by_peer := ∅; age_order := ∅; rep_cfg := cfg; max_peers := Z.max max 1 |}.

Definition ReputationStore_new (cfg : ReputationConfig) : ReputationStore :=
  with_capacity cfg MAX_TRACKED_REPUTATION_PEERS.

Definition enforce_step (st : ReputationStore) : option ReputationStore :=
  if decide (max_peers st < Z.of_nat (size (by_peer st))) then
    match bt_first (age_order st) with
    | None => None
    | Some oldest =>
        Some (set_store st (delete oldest.2 (by_peer st)) (age_order st ∖ {[oldest]}))
    end
  else None.

(** The index shrinks at every iteration, so its size bounds the loop. *)
Definition enforce_capacity (st : ReputationStore) : ReputationStore :=
  loop enforce_step (size (age_order st)) st.

Definition update_peer (st : ReputationStore) (peer : PeerId)
    (update : ReputationEntry -> ReputationEntry) (now : Z) : ReputationStore :=
  let st1 :=
    match by_peer st !! peer with
    | Some entry =>
        set_store st (<[peer := set_last_updated now (update entry)]> (by_peer st))
          (age_order st ∖ {[(last_updated entry, peer)]})
    | None =>
        set_store st (<[peer := update (ReputationEntry_default now)]> (by_peer st)) (age_order st)
    end in
  enforce_capacity (set_store st1 (by_peer st1) (age_order st1 ∪ {[(now, peer)]})).

Definition accept (st : ReputationStore) (peer : PeerId) (now : Z) : ReputationStore :=
  update_peer st peer (on_accept (accept_reward (rep_cfg st))) now.

Definition penalize_invalid (st : ReputationStore) (peer : PeerId) (now : Z) : ReputationStore :=
  update_peer st peer (on_invalid (invalid_penalty (rep_cfg st))) now.

Definition ignore_duplicate (st : ReputationStore) (peer : PeerId) (now : Z) : ReputationStore :=
  update_peer st peer on_duplicate now.

Definition remove_peer (st : ReputationStore) (peer : PeerId) : bool * ReputationStore :=
  match by_peer st !! peer with
  | None => (false, st)
  | Some entry =>
      (true, set_store st (delete peer (by_peer st)) (age_order st ∖ {[(last_updated entry, peer)]}))
  end.

Definition decay_interval (st : ReputationStore) : Z :=
  Z.max (decay_interval_secs (rep_cfg st)) 1 * NS_PER_SEC.

(** [interval.checked_mul(10).unwrap_or(Duration::MAX)] *)
Definition neutral_retention (st : ReputationStore) : Z :=
  let ns := decay_interval st * NEUTRAL_RETENTION_INTERVALS in
  if decide (ns <= DURATION_MAX) then ns else DURATION_MAX.

Definition decayed_score (step s : Z) : Z :=
  if decide (s < 0) then Z.min (i32_sat_add s step) 0 else Z.max (i32_sat_sub s step) 0.

(** The body of the loop of [tick_decay]. *)
Definition decay_peer (now : Z) (st : ReputationStore) (peer : PeerId) : ReputationStore :=
  let step := Z.max (decay_step (rep_cfg st)) 1 in
  match by_peer st !! peer with
  | None => st
  | Some entry =>
      let age := sat_sub now (last_updated entry) in
      if decide (score entry = 0 /\ neutral_retention st <= age) then (remove_peer st peer).2
      else if decide (score entry = 0 \/ age < decay_interval st) then st
      else
        set_store st
          (<[peer := set_last_updated now (set_score (decayed_score step (score entry)) entry)]>
             (by_peer st))
          (age_order st ∖ {[(last_updated entry, peer)]} ∪ {[(now, peer)]})
  end.

(** [tick_decay], with the order in which [HashMap::keys] yields the peers. *)
Definition tick_decay (st : ReputationStore) (peers : list PeerId) (now : Z) : ReputationStore :=
  foldl (decay_peer now) st peers.

(** * The index invariant *)
Definition indexed (st : ReputationStore) : Prop :=
  forall t p, (t, p) ∈ age_order st <-> exists e, by_peer st !! p = Some e /\ last_updated e = t.

Definition entry_ok (e : ReputationEntry) : Prop :=
  is_i32 (score e) /\ is_u64 (invalid e) /\ is_u64 (accepted e) /\ is_u64 (duplicate_ignored e).

Record rep_wf (st : ReputationStore) : Prop := {
  wf_indexed : indexed st;
  wf_bounded : Z.of_nat (size (by_peer st)) <= max_peers st;
  wf_capacity : 1 <= max_peers st;
  wf_entries : map_Forall (fun _ e => entry_ok e) (by_peer st);
}.

(** The operations of the runtime on the store, at monotonic clock readings. *)
Inductive rep_step : ReputationStore -> ReputationStore -> Prop :=
| step_accept st peer now : rep_step st (accept st peer now)
| step_penalize st peer now : rep_step st (penalize_invalid st peer now)
| step_ignore st peer now : rep_step st (ignore_duplicate st peer now)
| step_tick st peers now :
    peers ≡ₚ elements (dom (by_peer st)) -> rep_step st (tick_decay st peers now).
End reputation.

(** * Facts

    Correctness of the reputation store. *)

Section facts.
Context `{PL : PeerIdLib}.

Lemma indexed_remove st p e :
  indexed st -> by_peer st !! p = Some e ->
  indexed (set_store st (delete p (by_peer st)) (age_order st ∖ {[(last_updated e, p)]})).
Proof.
  intros Hi Hp t q. cbn. rewrite elem_of_difference, elem_of_singleton, (Hi t q). split.
  - intros [(e' & Hq & <-) Hne]. exists e'. split; [|done].
    rewrite lookup_delete_ne; [done|]. intros <-. simplify_eq.
  - intros (e' & Hq & <-). apply lookup_delete_Some in Hq as [Hne Hq]. split; [eauto|]. congruence.
Qed.

Lemma indexed_insert st p e' (now : Z) :
  indexed st -> by_peer st !! p = None -> last_updated e' = now ->
  indexed (set_store st (<[p := e']> (by_peer st)) (age_order st ∪ {[(now, p)]})).
Proof.
  intros Hi Hp Ht t q. cbn. rewrite elem_of_union, elem_of_singleton, (Hi t q). split.
  - intros [(e & Hq & <-)|[= -> ->]].
    + exists e. split; [|done]. rewrite lookup_insert_ne; [done|]. congruence.
    + exists e'. by rewrite lookup_insert_eq.
  - intros (e & Hq & <-). apply lookup_insert_Some in Hq as [[-> ->]|[? ?]]; [right; congruence|left; eauto].
Qed.

Lemma indexed_replace st p e e' now :
  indexed st -> by_peer st !! p = Some e -> last_updated e' = now ->
  indexed (set_store st (<[p := e']> (by_peer st))
    (age_order st ∖ {[(last_updated e, p)]} ∪ {[(now, p)]})).
Proof.
  intros Hi Hp Ht.
  pose proof (indexed_insert _ p e' now (indexed_remove st p e Hi Hp)) as H'.
  cbn in H'. rewrite insert_delete_eq in H'. apply H'; [apply lookup_delete_eq|done].
Qed.

(** * The capacity loop *)
Lemma enforce_step_Some st st' :
  enforce_step st = Some st' ->
  max_peers st < Z.of_nat (size (by_peer st)) /\
  exists t p, bt_first (age_order st) = Some (t, p) /\
    st' = set_store st (delete p (by_peer st)) (age_order st ∖ {[(t, p)]}).
Proof.
  unfold enforce_step. case_decide; [|done]. destruct (bt_first _) as [[t p]|]; [|done].
  intros [= <-]. eauto.
Qed.

Lemma enforce_step_decreases st st' :
  enforce_step st = Some st' -> (size (age_order st') < size (age_order st))%nat.
Proof.
  intros (_ & t & p & Hf & ->)%enforce_step_Some. apply bt_first_Some in Hf as [Hin _].
  by apply size_remove_elem.
Qed.

(** What one eviction removes: the entry with the oldest index key. *)
Lemma enforce_step_evicts st st' :
  indexed st -> enforce_step st = Some st' ->
  indexed st' /\ max_peers st' = max_peers st /\ rep_cfg st' = rep_cfg st /\
  max_peers st <= Z.of_nat (size (by_peer st')) /\
  exists p e, by_peer st !! p = Some e /\ by_peer st' = delete p (by_peer st) /\
    forall q e', by_peer st !! q = Some e' ->
      ord_leb (last_updated e, p) (last_updated e', q) = true.
Proof.
  intros Hi (Hsz & t & p & Hf & ->)%enforce_step_Some.
  apply bt_first_Some in Hf as [Hin Hmin]. apply Hi in Hin as Hp. destruct Hp as (e & Hp & <-).
  split_and!; try done.
  - by apply indexed_remove.
  - cbn. rewrite map_size_delete_Some by eauto. lia.
  - exists p, e. split_and!; try done. intros q e' Hq. apply Hmin, Hi. eauto.
Qed.

(** The state of the loop, against the store it started from. *)
Definition evicting (st0 st : ReputationStore) : Prop :=
  indexed st /\ max_peers st = max_peers st0 /\ rep_cfg st = rep_cfg st0 /\
  by_peer st ⊆ by_peer st0 /\
  Z.min (Z.of_nat (size (by_peer st0))) (max_peers st0) <= Z.of_nat (size (by_peer st)) /\
  forall p e q e', by_peer st0 !! p = Some e -> by_peer st !! p = None ->
    by_peer st !! q = Some e' -> ord_leb (last_updated e, p) (last_updated e', q) = true.

Lemma enforce_evicting st : indexed st -> evicting st (enforce_capacity st).
Proof.
  intros Hi. unfold enforce_capacity. apply (loop_inv _ (evicting st)).
  - intros s s' (His & Hm & Hc & Hsub & Hsz & Hold) Hs.
    destruct (enforce_step_evicts s s' His Hs) as (Hi' & Hm' & Hc' & Hsz' & p & e & Hp & Hb & Hmin).
    split_and!; [done|congruence|congruence| | |].
    + rewrite Hb. etrans; [apply delete_subseteq|done].
    + lia.
    + intros p' e' q e'' Hp' Hgone Hq. rewrite Hb in Hgone, Hq. apply lookup_delete_Some in Hq as [Hne Hq].
      apply lookup_delete_None in Hgone as [->|Hgone]; [|eauto].
      assert (e' = e) as -> by (eapply lookup_weaken in Hp; [|exact Hsub]; congruence). eauto.
  - split_and!; try done; [lia|]. intros; congruence.
Qed.

Lemma enforce_capacity_bounded st :
  indexed st -> 0 <= max_peers st -> Z.of_nat (size (by_peer (enforce_capacity st))) <= max_peers st.
Proof.
  intros Hi Hm. destruct (enforce_evicting st Hi) as (Hi' & Hm' & _).
  pose proof (loop_exits enforce_step (fun s => size (age_order s)) enforce_step_decreases
    (size (age_order st)) st ltac:(lia)) as Hexit. fold (enforce_capacity st) in Hexit.
  unfold enforce_step in Hexit. rewrite Hm' in Hexit. case_decide; [|lia].
  destruct (bt_first _) eqn:Hf; [done|]. apply bt_first_None in Hf.
  destruct (decide (by_peer (enforce_capacity st) = ∅)) as [->|Hne]; [rewrite map_size_empty; lia|].
  apply map_choose in Hne as (p & e & Hp).
  assert ((last_updated e, p) ∈ age_order (enforce_capacity st)) by (apply Hi'; eauto). set_solver.
Qed.

(** * Updates *)

(** The store before the capacity loop of [update_peer]. *)
Definition updated (st : ReputationStore) (peer : PeerId) (e : ReputationEntry) (now : Z) : ReputationStore :=
  set_store st (<[peer := e]> (by_peer st))
    (match by_peer st !! peer with
     | Some old => age_order st ∖ {[(last_updated old, peer)]}
     | None => age_order st
     end ∪ {[(now, peer)]}).

Definition updated_entry (st : ReputationStore) (peer : PeerId)
    (update : ReputationEntry -> ReputationEntry) (now : Z) : ReputationEntry :=
  match by_peer st !! peer with
  | Some old => set_last_updated now (update old)
  | None => update (ReputationEntry_default now)
  end.

Lemma update_peer_eq st peer update now :
  update_peer st peer update now =
  enforce_capacity (updated st peer (updated_entry st peer update now) now).
Proof. unfold update_peer, updated, updated_entry. by destruct (by_peer st !! peer). Qed.

Lemma updated_indexed st peer e now :
  indexed st -> last_updated e = now -> indexed (updated st peer e now).
Proof.
  intros Hi He. unfold updated. destruct (by_peer st !! peer) as [old|] eqn:Hp.
  - by apply indexed_replace.
  - by apply indexed_insert.
Qed.

(** A closure that keeps the clock stamp and the machine-integer ranges. *)
Definition good_update (f : ReputationEntry -> ReputationEntry) : Prop :=
  (forall e, last_updated (f e) = last_updated e) /\ (forall e, entry_ok e -> entry_ok (f e)).

Lemma on_accept_good r : good_update (on_accept r).
Proof. split; [done|]. intros e (? & ? & ? & ?). unfold entry_ok in *. cbn. split_and!; ulia. Qed.

Lemma on_invalid_good r : good_update (on_invalid r).
Proof. split; [done|]. intros e (? & ? & ? & ?). unfold entry_ok in *. cbn. split_and!; ulia. Qed.

Lemma on_duplicate_good : good_update on_duplicate.
Proof. split; [done|]. intros e (? & ? & ? & ?). unfold entry_ok in *. cbn. split_and!; ulia. Qed.

Lemma updated_entry_stamp st peer f now :
  good_update f -> last_updated (updated_entry st peer f now) = now.
Proof. intros [Hf _]. unfold updated_entry. destruct (by_peer st !! peer); cbn; [done|]. by rewrite Hf. Qed.

Lemma updated_entry_ok st peer f now :
  good_update f -> rep_wf st -> entry_ok (updated_entry st peer f now).
Proof.
  intros [_ Hf] Hwf. unfold updated_entry. destruct (by_peer st !! peer) as [e|] eqn:Hp.
  - apply (wf_entries _ Hwf) in Hp. apply Hf in Hp. done.
  - apply Hf. unfold entry_ok. cbn. split_and!; ulia.
Qed.

Lemma update_peer_wf st peer f now : good_update f -> rep_wf st -> rep_wf (update_peer st peer f now).
Proof.
  intros Hf Hwf. rewrite update_peer_eq. set (e := updated_entry st peer f now).
  assert (indexed (updated st peer e now)) as Hi
    by (apply updated_indexed; [apply Hwf|by apply updated_entry_stamp]).
  pose proof (wf_capacity _ Hwf) as Hc.
  destruct (enforce_evicting _ Hi) as (Hi' & Hm & _ & Hsub & _). cbn in Hm. split.
  - done.
  - rewrite Hm. exact (enforce_capacity_bounded _ Hi ltac:(cbn; lia)).
  - by rewrite Hm.
  - intros q e' Hq. eapply lookup_weaken in Hq; [|exact Hsub]. cbn in Hq.
    apply lookup_insert_Some in Hq as [[_ <-]|[_ Hq]]; [by apply updated_entry_ok|].
    by apply (wf_entries _ Hwf) in Hq.
Qed.

(** * Decay *)

(** What a tick does to one entry, without machine arithmetic. *)
Definition toward_zero (step s : Z) : Z := if decide (s < 0) then Z.min 0 (s + step) else Z.max 0 (s - step).

Definition decayed (st : ReputationStore) (now : Z) (e : ReputationEntry) : option ReputationEntry :=
  let age := Z.max 0 (now - last_updated e) in
  if decide (score e = 0) then
    if decide (neutral_retention st <= age) then None else Some e
  else if decide (age < decay_interval st) then Some e
  else Some (set_last_updated now
         (set_score (toward_zero (Z.max (decay_step (rep_cfg st)) 1) (score e)) e)).

Lemma decayed_score_toward_zero step s :
  is_i32 s -> 1 <= step <= i32_max -> decayed_score step s = toward_zero step s.
Proof. unfold decayed_score, toward_zero. intros. case_decide; ulia. Qed.

(** The effect of the loop body on the map, on the index and on the limits. *)
Lemma decay_peer_spec now st p :
  indexed st -> is_i32 (decay_step (rep_cfg st)) ->
  map_Forall (fun _ e => entry_ok e) (by_peer st) ->
  let st' := decay_peer now st p in
  indexed st' /\ rep_cfg st' = rep_cfg st /\ max_peers st' = max_peers st /\
  by_peer st' !! p = by_peer st !! p ≫= decayed st now /\
  (forall q, q ≠ p -> by_peer st' !! q = by_peer st !! q).
Proof.
  intros Hi Hstep Hok. unfold decay_peer. destruct (by_peer st !! p) as [e|] eqn:Hp; [|done].
  assert (is_i32 (score e)) as Hs by (by apply Hok in Hp as [? _]).
  cbn [option_bind mbind]. unfold decayed. change (Z.max 0 (now - last_updated e)) with (sat_sub now (last_updated e)).
  repeat case_decide; try lia; try tauto.
  - unfold remove_peer. rewrite Hp. split_and!; try done.
    + by apply indexed_remove.
    + cbn. apply lookup_delete_eq.
    + intros q Hq. cbn. by apply lookup_delete_ne.
  - split_and!; try done.
    + by apply indexed_replace.
    + cbn. rewrite lookup_insert_eq, decayed_score_toward_zero; [done|done|ulia].
    + intros q Hq. cbn. by apply lookup_insert_ne.
Qed.

Lemma decayed_ok st now e e' :
  is_i32 (decay_step (rep_cfg st)) -> entry_ok e -> decayed st now e = Some e' -> entry_ok e'.
Proof.
  intros Hs (? & ? & ? & ?). unfold decayed, entry_ok in *. repeat case_decide; intros; simplify_eq; try done.
  cbn. unfold toward_zero. split_and!; try done. case_decide; ulia.
Qed.

Lemma decayed_config st st' now e :
  rep_cfg st' = rep_cfg st -> decayed st' now e = decayed st now e.
Proof. unfold decayed, decay_interval, neutral_retention, decay_interval. by intros ->. Qed.

Lemma tick_decay_spec st peers now :
  indexed st -> is_i32 (decay_step (rep_cfg st)) ->
  map_Forall (fun _ e => entry_ok e) (by_peer st) -> NoDup peers ->
  let st' := tick_decay st peers now in
  indexed st' /\ rep_cfg st' = rep_cfg st /\ max_peers st' = max_peers st /\
  forall p, by_peer st' !! p =
    if decide (p ∈ peers) then by_peer st !! p ≫= decayed st now else by_peer st !! p.
Proof.
  unfold tick_decay. revert st. induction peers as [|a peers IH]; intros st Hi Hs Hok Hnd; [done|].
  apply NoDup_cons in Hnd as [Hna Hnd]. cbn [foldl].
  destruct (decay_peer_spec now st a Hi Hs Hok) as (Hi1 & Hc1 & Hm1 & Ha & Hother).
  assert (map_Forall (fun _ e => entry_ok e) (by_peer (decay_peer now st a))) as Hok1.
  { intros q e Hq. destruct (decide (q = a)) as [->|Hne].
    - rewrite Ha in Hq. destruct (by_peer st !! a) as [e0|] eqn:He0; [|done].
      apply (decayed_ok st now e0 e Hs); [by apply Hok in He0|done].
    - rewrite Hother in Hq by done. by apply Hok in Hq. }
  rewrite <- Hc1 in Hs. destruct (IH _ Hi1 Hs Hok1 Hnd) as (Hi2 & Hc2 & Hm2 & Hl).
  split_and!; [done|congruence..|]. intros p. rewrite Hl.
  destruct (decide (p = a)) as [->|Hne].
  - rewrite decide_False by done. rewrite decide_True by (by left). done.
  - rewrite Hother by done. destruct (decide (p ∈ peers)).
    + rewrite decide_True by (by right). destruct (by_peer st !! p); [|done]. by apply decayed_config.
    + rewrite decide_False; [done|]. intros [?|?]%elem_of_cons; done.
Qed.

(** A decay tick does the same to every entry whatever order the map
    yields its keys in: a neutral entry idle for ten decay intervals is
    dropped, a scored entry idle for one interval moves one step towards zero,
    never past it, and is restamped, and every other entry is unchanged. *)
Theorem tick_decay_exact st peers now :
  rep_wf st -> is_i32 (decay_step (rep_cfg st)) -> peers ≡ₚ elements (dom (by_peer st)) ->
  forall p, by_peer (tick_decay st peers now) !! p = by_peer st !! p ≫= decayed st now.
Proof.
  intros Hwf Hs Hp p.
  assert (NoDup peers) as Hnd by (rewrite Hp; apply NoDup_elements).
  destruct (tick_decay_spec st peers now (wf_indexed _ Hwf) Hs (wf_entries _ Hwf) Hnd) as (_ & _ & _ & Hl).
  rewrite Hl. case_decide as Hin; [done|].
  rewrite Hp, elem_of_elements, not_elem_of_dom in Hin. by rewrite Hin.
Qed.

Lemma tick_decay_wf st peers now :
  is_i32 (decay_step (rep_cfg st)) -> peers ≡ₚ elements (dom (by_peer st)) ->
  rep_wf st -> rep_wf (tick_decay st peers now).
Proof.
  intros Hs Hp Hwf.
  assert (NoDup peers) as Hnd by (rewrite Hp; apply NoDup_elements).
  destruct (tick_decay_spec st peers now (wf_indexed _ Hwf) Hs (wf_entries _ Hwf) Hnd) as (Hi & Hc & Hm & Hl).
  assert (forall p e, by_peer (tick_decay st peers now) !! p = Some e ->
    exists e0, by_peer st !! p = Some e0 /\ entry_ok e) as Hsub.
  { intros p e. rewrite Hl. case_decide.
    - destruct (by_peer st !! p) as [e0|] eqn:He0; [|done]. intros Hd. exists e0. split; [done|].
      eapply decayed_ok; [done| |done]. by apply (wf_entries _ Hwf) in He0.
    - intros He. exists e. split; [done|]. by apply (wf_entries _ Hwf) in He. }
  split.
  - done.
  - rewrite Hm. etrans; [|apply (wf_bounded _ Hwf)]. apply inj_le. rewrite <- !size_dom.
    apply subseteq_size. intros p. rewrite !elem_of_dom. intros [e He]. apply Hsub in He as (e0 & ? & _). eauto.
  - rewrite Hm. apply Hwf.
  - intros p e He. apply Hsub in He as (e0 & _ & ?). done.
Qed.

Lemma with_capacity_wf cfg max : rep_wf (with_capacity cfg max).
Proof.
  split; cbn [by_peer age_order max_peers with_capacity].
  - intros t p. cbn [by_peer age_order with_capacity]. rewrite lookup_empty.
    split; [set_solver|]. by intros (? & ? & _).
  - rewrite map_size_empty. lia.
  - lia.
  - apply map_Forall_empty.
Qed.

Lemma step_config st st' : rep_step st st' -> rep_wf st -> is_i32 (decay_step (rep_cfg st)) ->
  rep_cfg st' = rep_cfg st /\ max_peers st' = max_peers st.
Proof.
  intros Hstep Hwf Hs. destruct Hstep as [st p now|st p now|st p now|st peers now Hp].
  1-3: unfold accept, penalize_invalid, ignore_duplicate; rewrite update_peer_eq;
    edestruct enforce_evicting as (_ & -> & -> & _); [|done];
    (apply updated_indexed; [apply Hwf|apply updated_entry_stamp];
     auto using on_accept_good, on_invalid_good, on_duplicate_good).
  assert (NoDup peers) as Hnd by (rewrite Hp; apply NoDup_elements).
  destruct (tick_decay_spec st peers now (wf_indexed _ Hwf) Hs (wf_entries _ Hwf) Hnd) as (_ & ? & ? & _). done.
Qed.

(** Under any sequence of accepts, penalties, ignored duplicates and decay
    ticks from an empty store, the store holds at most [max_peers] peers, its
    age index holds exactly the (last update, peer) pairs of the map, and every
    score and counter stays in its machine range. *)
Theorem reputation_store_bounded_and_indexed cfg max st :
  is_i32 (decay_step cfg) -> rtc rep_step (with_capacity cfg max) st ->
  rep_wf st /\ max_peers st = Z.max max 1 /\ rep_cfg st = cfg.
Proof.
  intros Hs. revert st. apply rtc_ind_r; [split; [apply with_capacity_wf|done]|].
  intros x y _ Hyz (Hwf & Hm & Hc). rewrite <- Hc in Hs.
  destruct (step_config _ _ Hyz Hwf Hs) as [Hc' Hm']. split; [|split; congruence].
  destruct Hyz; try (by apply tick_decay_wf);
    apply update_peer_wf; auto using on_accept_good, on_invalid_good, on_duplicate_good.
Qed.

(** Eviction is oldest first and minimal: an update drops another peer
    only when the store was full, the dropped peer's (last update, peer) key is
    below that of every other peer that stays, and no peer's record other than
    the updated one changes. *)
Theorem reputation_eviction_oldest_first st peer f now p e :
  rep_wf st -> good_update f -> p ≠ peer -> by_peer st !! p = Some e ->
  let st' := update_peer st peer f now in
  (by_peer st' !! p = None \/ by_peer st' !! p = Some e) /\
  (by_peer st' !! p = None ->
    Z.of_nat (size (by_peer st)) = max_peers st /\ by_peer st !! peer = None /\
    Z.of_nat (size (by_peer st')) = max_peers st /\
    forall q e', by_peer st' !! q = Some e' -> ord_leb (last_updated e, p) (last_updated e', q) = true).
Proof.
  intros Hwf Hf Hne Hp. cbn. rewrite update_peer_eq. set (e1 := updated_entry st peer f now).
  set (st1 := updated st peer e1 now).
  assert (indexed st1) as Hi
    by (apply updated_indexed; [apply Hwf|by apply updated_entry_stamp]).
  destruct (enforce_evicting _ Hi) as (_ & Hm & _ & Hsub & Hsz & Hold).
  assert (by_peer st1 !! p = Some e) as Hp1 by (cbn; by rewrite lookup_insert_ne).
  pose proof (wf_capacity _ Hwf) as Hc. pose proof (wf_bounded _ Hwf) as Hb.
  split.
  - destruct (by_peer (enforce_capacity st1) !! p) as [e'|] eqn:He'; [|by left].
    right. eapply lookup_weaken in He'; [|exact Hsub]. congruence.
  - intros Hgone.
    assert (size (by_peer (enforce_capacity st1)) < size (by_peer st1))%nat as Hlt.
    { rewrite <- !size_dom. apply subset_size. split.
      - by apply subseteq_dom.
      - intros Hd. assert (p ∈ dom (by_peer (enforce_capacity st1))) as Hin
          by (apply Hd, elem_of_dom; eauto).
        apply elem_of_dom in Hin as [? ?]. congruence. }
    pose proof (enforce_capacity_bounded st1 Hi ltac:(cbn; lia)) as Hbd.
    change (max_peers st1) with (max_peers st) in *.
    pose proof (map_size_insert peer e1 (by_peer st)) as Hins.
    change (<[peer := e1]> (by_peer st)) with (by_peer st1) in Hins.
    destruct (by_peer st !! peer) as [old|]; unfold id in Hins; [lia|].
    split_and!; try done; [lia|lia|]. intros q e' Hq. by eapply Hold.
Qed.
End facts.
