(* ===== verification/AppMessage.v ===== *)
(** Application messages (crates/api/mod.rs): topics, envelopes, their
    validation, the binding of an envelope to the authenticated author and
    topic, and the wire codec.  [serde_json] is a parameter: a codec per type,
    whose reader reads back what its writer wrote. *)

From S2P Require Import Prelude Bytes Text Common.
From Stdlib Require Import Ascii.

#[local] Open Scope Z_scope.

(** [serde_json::to_vec] and [serde_json::from_slice] at a type. *)
Class SerdeJson (T : Type) := {
  json_to_vec : T -> result (list byte) string;
  json_from_slice : list byte -> result T string;
}.

Class SerdeJsonLaws (T : Type) (S : SerdeJson T) : Prop := {
  json_roundtrip x raw : json_to_vec x = Ok raw -> json_from_slice raw = Ok x;
}.

Definition APP_MESSAGE_SCHEMA_VERSION : Z := 2.
Definition APP_TOPIC_PREFIX : string := "p2p-net/app".
Definition MAX_APP_TOPIC_LEN : Z := 128.
Definition MAX_APP_MESSAGE_BYTES : Z := 1024 * 1024.

Inductive PeerSource :=
| Connected
| Bootstrap
| BootstrapSeed
| PublicBootstrapSeed
| Rendezvous
| PublicRendezvous
| DhtProvider
| LanDiscovery
| RelayDiscovery
| PublicRelayDiscovery
| SourcePeerCache
| Manual.

#[global] Instance PeerSource_eq_dec : EqDecision PeerSource.
Proof. solve_decision. Defined.

(** The derived [Ord]: declaration order. *)
Definition source_index (s : PeerSource) : Z :=
  match s with
  | Connected => 0 | Bootstrap => 1 | BootstrapSeed => 2 | PublicBootstrapSeed => 3
  | Rendezvous => 4 | PublicRendezvous => 5 | DhtProvider => 6 | LanDiscovery => 7
  | RelayDiscovery => 8 | PublicRelayDiscovery => 9 | SourcePeerCache => 10 | Manual => 11
  end.

Definition source_of_index (z : Z) : option PeerSource :=
  nth_error [Connected; Bootstrap; BootstrapSeed; PublicBootstrapSeed; Rendezvous; PublicRendezvous;
    DhtProvider; LanDiscovery; RelayDiscovery; PublicRelayDiscovery; SourcePeerCache; Manual] (Z.to_nat z).

Lemma source_of_index_index s : source_of_index (source_index s) = Some s.
Proof. by destruct s. Qed.

#[global] Instance PeerSource_countable : Countable PeerSource :=
  inj_countable source_index source_of_index source_of_index_index.

Definition PeerSource_as_str (s : PeerSource) : string :=
  match s with
  | Connected => "connected"
  | Bootstrap => "bootstrap"
  | BootstrapSeed => "bootstrap_seed"
  | PublicBootstrapSeed => "public_bootstrap_seed"
  | Rendezvous => "rendezvous"
  | PublicRendezvous => "public_rendezvous"
  | DhtProvider => "dht_provider"
  | LanDiscovery => "lan_discovery"
  | RelayDiscovery => "relay_discovery"
  | PublicRelayDiscovery => "public_relay_discovery"
  | SourcePeerCache => "peer_cache"
  | Manual => "manual"
  end.

(** The derived order follows the declaration order. *)
#[global] Program Instance PeerSource_ord : TotalOrd PeerSource :=
  {| ord_leb a b := Z.leb (source_index a) (source_index b) |}.
Next Obligation. intros. apply Z.leb_refl. Qed.
Next Obligation. intros. rewrite !Z.leb_le. lia. Qed.
Next Obligation. intros x y z. rewrite !Z.leb_le. lia. Qed.
Next Obligation.
  intros x y. rewrite !Z.leb_le. intros. assert (source_index x = source_index y) as E by lia.
  apply (f_equal source_of_index) in E. rewrite !source_of_index_index in E. by injection E.
Qed.

(** A peer visible through the application API. *)
Record PeerInfo := {
  pi_peer_id : string;
  pi_connected : bool;
  pi_addresses : list string;
  pi_sources : list PeerSource;
  pi_supports_relay : option bool;
  pi_supports_rendezvous : option bool;
  pi_supports_dcutr : option bool;
  pi_last_seen_unix_secs : option Z;
  pi_namespace : option string;
}.

Section peer_info.
Context `{PL : PeerIdLib}.

Definition PeerInfo_connected (peer_id : PeerId) : PeerInfo := {|
  pi_peer_id := peer_to_string peer_id; pi_connected := true; pi_addresses := [];
  pi_sources := [Connected]; pi_supports_relay := None; pi_supports_rendezvous := None;
  pi_supports_dcutr := None; pi_last_seen_unix_secs := None; pi_namespace := None |}.

Definition PeerInfo_discovered (peer_id : PeerId) (source : PeerSource) (addresses : list string)
  : PeerInfo := {|
  pi_peer_id := peer_to_string peer_id; pi_connected := false; pi_addresses := addresses;
  pi_sources := [source]; pi_supports_relay := None; pi_supports_rendezvous := None;
  pi_supports_dcutr := None; pi_last_seen_unix_secs := None; pi_namespace := None |}.

Definition with_namespace (i : PeerInfo) (namespace : string) : PeerInfo := {|
  pi_peer_id := pi_peer_id i; pi_connected := pi_connected i; pi_addresses := pi_addresses i;
  pi_sources := pi_sources i; pi_supports_relay := pi_supports_relay i;
  pi_supports_rendezvous := pi_supports_rendezvous i; pi_supports_dcutr := pi_supports_dcutr i;
  pi_last_seen_unix_secs := pi_last_seen_unix_secs i; pi_namespace := Some namespace |}.

Definition has_source (i : PeerInfo) (source : PeerSource) : bool := bool_decide (source ∈ pi_sources i).
End peer_info.

Record AppMessage := {
  msg_schema_version : Z;
  msg_network_id : Z;
  msg_topic : string;
  msg_source_peer_id : string;
  msg_target_peer_id : option string;
  msg_timestamp_ns : Z;
  msg_nonce_hex : string;
  msg_payload : list byte;
}.

#[global] Instance AppMessage_eq_dec : EqDecision AppMessage.
Proof. solve_decision. Defined.

(** The bytes a topic may hold: ASCII letters, digits and [- _ . /]. *)
Definition topic_char (c : ascii) : bool :=
  is_ascii_alphanumeric c ||
  bool_decide (c = "-"%char \/ c = "_"%char \/ c = "."%char \/ c = "/"%char).

Definition normalize_app_topic (topic : string) : result string NetError :=
  let topic := trim topic in
  if decide (topic = "") then Err (AppTopic topic "topic must not be empty")
  else if decide (MAX_APP_TOPIC_LEN < str_len topic) then
    Err (AppTopic topic ("topic must not exceed " +:+ pretty MAX_APP_TOPIC_LEN +:+ " bytes"))
  else if negb (forallb topic_char (chars topic)) then
    Err (AppTopic topic "topic may only contain ASCII letters, numbers, '-', '_', '.', or '/'")
  else Ok topic.

Definition validate_app_payload_len (n : Z) : result unit NetError :=
  reject_if (bool_decide (MAX_APP_MESSAGE_BYTES < n))
    (AppMessageError "<unknown>" ("message must not exceed " +:+ pretty MAX_APP_MESSAGE_BYTES +:+ " bytes")).

Definition app_topic_name (network_id : Z) (topic : string) : result string NetError :=
  let? topic := normalize_app_topic topic in
  Ok (APP_TOPIC_PREFIX +:+ "/v" +:+ pretty APP_MESSAGE_SCHEMA_VERSION +:+ "/net-" +:+
      pretty network_id +:+ "/" +:+ topic).

(** A Gossipsub topic hashed by identity: the hash is the topic's name. *)
Record TopicHash := { topic_hash : string }.

#[global] Instance TopicHash_eq_dec : EqDecision TopicHash.
Proof. solve_decision. Defined.

Definition IdentTopic_hash (name : string) : TopicHash := {| topic_hash := name |}.

Definition app_ident_topic (network_id : Z) (topic : string) : result TopicHash NetError :=
  let? name := app_topic_name network_id topic in Ok (IdentTopic_hash name).

Section messages.
Context `{HX : HexLib} `{BL : Blake3Lib} `{PL : PeerIdLib}.

(** [AppMessage::new]: [entropy] is what [OsRng] wrote, [now_ns] the clock. *)
Definition AppMessage_new (network_id : Z) (topic : string) (source_peer_id : PeerId)
    (target_peer_id : option PeerId) (payload entropy : list byte) (now_ns : Z)
  : result AppMessage NetError :=
  let? topic := normalize_app_topic topic in
  let? _ := validate_app_payload_len (len payload) in
  Ok {|
    msg_schema_version := APP_MESSAGE_SCHEMA_VERSION;
    msg_network_id := network_id;
    msg_topic := topic;
    msg_source_peer_id := peer_to_string source_peer_id;
    msg_target_peer_id := peer_to_string <$> target_peer_id;
    msg_timestamp_ns := now_ns;
    msg_nonce_hex := blake3_hex entropy;
    msg_payload := payload;
  |}.

Definition AppMessage_addressed (network_id : Z) (topic : string) (source_peer_id target_peer_id : PeerId)
    (payload entropy : list byte) (now_ns : Z) : result AppMessage NetError :=
  AppMessage_new network_id topic source_peer_id (Some target_peer_id) payload entropy now_ns.

Definition AppMessage_broadcast (network_id : Z) (topic : string) (source_peer_id : PeerId)
    (payload entropy : list byte) (now_ns : Z) : result AppMessage NetError :=
  AppMessage_new network_id topic source_peer_id None payload entropy now_ns.

Definition is_for_peer (m : AppMessage) (local_peer : PeerId) : bool :=
  match msg_target_peer_id m with
  | Some target => bool_decide (target = peer_to_string local_peer)
  | None => true
  end.

(** The [map_err] of a peer id that does not parse. *)
Definition parse_peer (topic what s : string) : result PeerId NetError :=
  map_err (peer_parse s) (fun err => AppMessageError topic ("invalid " +:+ what +:+ " peer id: " +:+ err)).

Definition validate_app_message (m : AppMessage) : result unit NetError :=
  let? _ := reject_if (bool_decide (msg_schema_version m ≠ APP_MESSAGE_SCHEMA_VERSION))
    (AppMessageError (msg_topic m) ("unsupported schema version " +:+ pretty (msg_schema_version m)
       +:+ "; expected " +:+ pretty APP_MESSAGE_SCHEMA_VERSION)) in
  let? _ := normalize_app_topic (msg_topic m) in
  let? _ := parse_peer (msg_topic m) "source" (msg_source_peer_id m) in
  let? _ := match msg_target_peer_id m with
            | Some target => let? _ := parse_peer (msg_topic m) "target" target in Ok tt
            | None => Ok tt
            end in
  validate_app_payload_len (len (msg_payload m)).

Definition validate_app_message_authentication (m : AppMessage) (authenticated_source : PeerId)
    (received_topic : TopicHash) : result unit NetError :=
  let? claimed_source := parse_peer (msg_topic m) "source" (msg_source_peer_id m) in
  let? _ := reject_if (bool_decide (claimed_source ≠ authenticated_source))
    (AppMessageError (msg_topic m) "source peer id does not match authenticated Gossipsub author") in
  let? expected_topic := app_ident_topic (msg_network_id m) (msg_topic m) in
  let? _ := reject_if (bool_decide (expected_topic ≠ received_topic))
    (AppMessageError (msg_topic m)
       "application envelope does not match the authenticated Gossipsub topic") in
  Ok tt.

Context `{SJ : SerdeJson AppMessage}.

Definition encode_app_message (m : AppMessage) : result (list byte) NetError :=
  let? _ := validate_app_message m in
  let? encoded := map_err (json_to_vec m) (AppMessageError (msg_topic m)) in
  let? _ := reject_if (bool_decide (6 * MAX_APP_MESSAGE_BYTES < len encoded))
    (AppMessageError (msg_topic m) "encoded application envelope exceeds wire safety bound") in
  Ok encoded.

Definition decode_app_message (raw : list byte) : result AppMessage NetError :=
  let? _ := reject_if (bool_decide (6 * MAX_APP_MESSAGE_BYTES < len raw))
    (AppMessageError "<unknown>" "encoded application envelope exceeds wire safety bound") in
  let? m := map_err (json_from_slice raw) (AppMessageError "<unknown>") in
  let? _ := validate_app_message m in
  Ok m.
End messages.

(** * Facts *)

Lemma normalize_Ok topic t :
  normalize_app_topic topic = Ok t ->
  t = trim topic /\ t ≠ "" /\ str_len t <= MAX_APP_TOPIC_LEN /\
  Forall (fun c => topic_char c = true) (chars t).
Proof.
  unfold normalize_app_topic. repeat case_decide; try done.
  destruct (forallb topic_char (chars (trim topic))) eqn:E; cbn; [|done].
  intros [= <-]. split_and!; [done..|lia|].
  apply Forall_forall. intros c Hc. rewrite forallb_forall in E. apply E. by apply list_elem_of_In.
Qed.

Lemma topic_char_not_space c : topic_char c = true -> not_space c.
Proof.
  destruct c as [[] [] [] [] [] [] [] []]; intros H; vm_compute in H; try discriminate H;
    (split; repeat constructor; intros H'; vm_compute in H'; discriminate H').
Qed.

Lemma trim_topic_id t :
  t ≠ "" -> Forall (fun c => topic_char c = true) (chars t) -> trim t = t.
Proof. intros Hne Hall. apply trim_id; [done|]. eapply Forall_impl; [exact Hall|]. apply topic_char_not_space. Qed.

Lemma normalize_idempotent topic t :
  normalize_app_topic topic = Ok t -> normalize_app_topic t = Ok t.
Proof.
  intros (Ht & Hne & Hlen & Hall)%normalize_Ok.
  unfold normalize_app_topic. rewrite trim_topic_id by done.
  rewrite decide_False by done. rewrite decide_False by lia.
  assert (forallb topic_char (chars t) = true) as ->; [|done].
  apply forallb_forall. intros c Hc. rewrite Forall_forall in Hall. apply Hall. by apply list_elem_of_In.
Qed.

(** [normalize_app_topic] returns a trimmed, non-empty topic of at most 128
    bytes of the allowed alphabet, and normalizing that topic again returns it
    unchanged. *)
Theorem normalize_app_topic_canonical topic t :
  normalize_app_topic topic = Ok t ->
  t = trim topic /\ t ≠ "" /\ str_len t <= MAX_APP_TOPIC_LEN /\
  Forall (fun c => topic_char c = true) (chars t) /\ normalize_app_topic t = Ok t.
Proof.
  intros H. pose proof (normalize_idempotent _ _ H). apply normalize_Ok in H. naive_solver.
Qed.

(** The Gossipsub topic determines the network and the topic. *)
Lemma app_topic_name_inj n1 t1 n2 t2 name :
  is_u32 n1 -> is_u32 n2 ->
  app_topic_name n1 t1 = Ok name -> app_topic_name n2 t2 = Ok name ->
  n1 = n2 /\ trim t1 = trim t2.
Proof.
  unfold app_topic_name. intros H1 H2.
  destruct (normalize_app_topic t1) as [u1|] eqn:E1; cbn [result_bind]; [|done].
  destruct (normalize_app_topic t2) as [u2|] eqn:E2; cbn [result_bind]; [|done].
  apply normalize_Ok in E1 as [-> _], E2 as [-> _].
  intros [= <-] Heq. injection Heq as Heq. apply (f_equal chars) in Heq. rewrite !chars_app in Heq.
  cbn [app] in Heq.
  apply (digits_split _ _ _ _ "/"%char) in Heq as [Hn Ht];
    [|done|apply pretty_Z_digits; ulia..].
  apply (f_equal text) in Hn, Ht. rewrite !text_chars in Hn, Ht.
  apply (inj pretty) in Hn. done.
Qed.

Section message_facts.
Context `{HX : HexLib} `{BL : Blake3Lib} `{PL : PeerIdLib}.

Lemma parse_peer_Ok topic what s p : parse_peer topic what s = Ok p <-> peer_parse s = Ok p.
Proof. unfold parse_peer. destruct (peer_parse s); cbn; split; congruence. Qed.

Lemma authentication_Ok m source received :
  validate_app_message_authentication m source received = Ok tt <->
  peer_parse (msg_source_peer_id m) = Ok source /\
  app_ident_topic (msg_network_id m) (msg_topic m) = Ok received.
Proof.
  unfold validate_app_message_authentication. rewrite bind_Ok. split.
  - intros (p & Hp & Hr). apply parse_peer_Ok in Hp. rewrite bind_unit_Ok, reject_if_Ok, bind_Ok in Hr.
    destruct Hr as (Hs & t & Ht & Hrt). rewrite bind_unit_Ok, reject_if_Ok in Hrt. destruct Hrt as [Hrt _].
    apply bool_decide_eq_false, dec_stable in Hs. apply bool_decide_eq_false, dec_stable in Hrt.
    subst. done.
  - intros [Hp Ht]. exists source. split; [by apply parse_peer_Ok|]. rewrite Ht. cbn.
    unfold reject_if. by rewrite !bool_decide_eq_false_2 by tauto.
Qed.

(** An envelope that passes authentication on the Gossipsub topic of
    network [n] and topic [t] names the authenticated author as its source,
    belongs to network [n] and carries topic [t]: it cannot be replayed under
    another author, on another network or on another topic. *)
Theorem authenticated_envelope_is_bound m source received n t :
  is_u32 (msg_network_id m) -> is_u32 n ->
  app_ident_topic n t = Ok received ->
  validate_app_message_authentication m source received = Ok tt ->
  peer_parse (msg_source_peer_id m) = Ok source /\ msg_network_id m = n /\
  trim (msg_topic m) = trim t.
Proof.
  intros Hm Hn Ht [Hs Hr]%authentication_Ok. split; [done|].
  unfold app_ident_topic in *. apply bind_Ok in Ht as (name & Hname & [= <-]).
  apply bind_Ok in Hr as (name' & Hname' & [= <-]). by eapply app_topic_name_inj.
Qed.

Context `{SJ : SerdeJson AppMessage}.

Lemma encode_app_message_Ok m raw :
  encode_app_message m = Ok raw ->
  validate_app_message m = Ok tt /\ json_to_vec m = Ok raw /\ len raw <= 6 * MAX_APP_MESSAGE_BYTES.
Proof.
  unfold encode_app_message. rewrite bind_unit_Ok, bind_Ok. intros (Hv & raw' & Hj & Hr).
  rewrite bind_unit_Ok, reject_if_Ok in Hr. destruct Hr as [Hl [= ->]].
  apply bool_decide_eq_false in Hl. destruct (json_to_vec m); cbn in Hj; [|done].
  split_and!; [done|congruence|]. lia.
Qed.

Lemma decode_app_message_Ok raw m :
  decode_app_message raw = Ok m <->
  len raw <= 6 * MAX_APP_MESSAGE_BYTES /\ json_from_slice raw = Ok m /\ validate_app_message m = Ok tt.
Proof.
  unfold decode_app_message. rewrite bind_unit_Ok, reject_if_Ok, bool_decide_eq_false, bind_Ok. split.
  - intros (Hl & m' & Hj & Hr). rewrite bind_unit_Ok in Hr. destruct Hr as [Hv [= ->]].
    split_and!; [lia| |done]. destruct (json_from_slice raw); cbn in Hj; congruence.
  - intros (Hl & Hj & Hv). split; [lia|]. exists m. rewrite Hj. cbn. split; [done|]. by rewrite Hv.
Qed.

Context {SL : SerdeJsonLaws AppMessage SJ}.

(** The application codec is a round trip within its bounds: whatever
    [encode_app_message] writes is at most 6 MiB and [decode_app_message] reads
    the same message back, and only messages that validate are ever decoded. *)
Theorem app_message_roundtrip m raw :
  encode_app_message m = Ok raw ->
  decode_app_message raw = Ok m /\ len raw <= 6 * MAX_APP_MESSAGE_BYTES /\
  validate_app_message m = Ok tt.
Proof using SL.
  intros (Hv & Hj & Hl)%encode_app_message_Ok. split_and!; try done.
  apply decode_app_message_Ok. split_and!; [done|by apply json_roundtrip|done].
Qed.

(** Messages built by the API validate. *)
Lemma AppMessage_new_valid {PLW : PeerIdLaws PL} n topic src dst payload entropy now m :
  AppMessage_new n topic src dst payload entropy now = Ok m -> validate_app_message m = Ok tt.
Proof.
  unfold AppMessage_new. rewrite bind_Ok. intros (t & Ht & Hr). rewrite bind_unit_Ok in Hr.
  destruct Hr as [Hp [= <-]]. unfold validate_app_message. cbn.
  rewrite (normalize_idempotent topic t Ht). cbn.
  unfold parse_peer. rewrite peer_parse_to_string. cbn.
  destruct dst as [d|]; cbn; [rewrite peer_parse_to_string; cbn|]; done.
Qed.
End message_facts.
