(* ===== verification/Observability.v ===== *)
(** Batched observability (crates/node/events/observability.rs) and the pulse
    ring of the snapshot (crates/node/mod.rs [push_pulse]). *)

From S2P Require Import Prelude.

#[local] Open Scope Z_scope.

Definition MAX_PENDING_PULSES : Z := 64.

Record ObservabilityBatch := {
  ob_app_messages_received : Z;
  ob_app_messages_ignored : Z;
  ob_app_messages_rejected : Z;
  ob_gossip_messages_accepted : Z;
  ob_gossip_messages_ignored : Z;
  ob_gossip_messages_rejected : Z;
  ob_peer_connectivity_dirty : bool;
  ob_dht_snapshot_dirty : bool;
  ob_pulses : list string;
}.

Definition ObservabilityBatch_default : ObservabilityBatch := {|
  ob_app_messages_received := 0; ob_app_messages_ignored := 0; ob_app_messages_rejected := 0;
  ob_gossip_messages_accepted := 0; ob_gossip_messages_ignored := 0; ob_gossip_messages_rejected := 0;
  ob_peer_connectivity_dirty := false; ob_dht_snapshot_dirty := false; ob_pulses := [] |}.

Definition app_received (o : ObservabilityBatch) : ObservabilityBatch := {|
  ob_app_messages_received := sat_add usize_max (ob_app_messages_received o) 1;
  ob_app_messages_ignored := ob_app_messages_ignored o;
  ob_app_messages_rejected := ob_app_messages_rejected o;
  ob_gossip_messages_accepted := ob_gossip_messages_accepted o;
  ob_gossip_messages_ignored := ob_gossip_messages_ignored o;
  ob_gossip_messages_rejected := ob_gossip_messages_rejected o;
  ob_peer_connectivity_dirty := ob_peer_connectivity_dirty o;
  ob_dht_snapshot_dirty := ob_dht_snapshot_dirty o; ob_pulses := ob_pulses o |}.

Definition app_ignored (o : ObservabilityBatch) : ObservabilityBatch := {|
  ob_app_messages_received := ob_app_messages_received o;
  ob_app_messages_ignored := sat_add usize_max (ob_app_messages_ignored o) 1;
  ob_app_messages_rejected := ob_app_messages_rejected o;
  ob_gossip_messages_accepted := ob_gossip_messages_accepted o;
  ob_gossip_messages_ignored := ob_gossip_messages_ignored o;
  ob_gossip_messages_rejected := ob_gossip_messages_rejected o;
  ob_peer_connectivity_dirty := ob_peer_connectivity_dirty o;
  ob_dht_snapshot_dirty := ob_dht_snapshot_dirty o; ob_pulses := ob_pulses o |}.

Definition app_rejected (o : ObservabilityBatch) : ObservabilityBatch := {|
  ob_app_messages_received := ob_app_messages_received o;
  ob_app_messages_ignored := ob_app_messages_ignored o;
  ob_app_messages_rejected := sat_add usize_max (ob_app_messages_rejected o) 1;
  ob_gossip_messages_accepted := ob_gossip_messages_accepted o;
  ob_gossip_messages_ignored := ob_gossip_messages_ignored o;
  ob_gossip_messages_rejected := ob_gossip_messages_rejected o;
  ob_peer_connectivity_dirty := ob_peer_connectivity_dirty o;
  ob_dht_snapshot_dirty := ob_dht_snapshot_dirty o; ob_pulses := ob_pulses o |}.

Definition gossip_accepted (o : ObservabilityBatch) (dirty : bool) : ObservabilityBatch := {|
  ob_app_messages_received := ob_app_messages_received o;
  ob_app_messages_ignored := ob_app_messages_ignored o;
  ob_app_messages_rejected := ob_app_messages_rejected o;
  ob_gossip_messages_accepted := sat_add usize_max (ob_gossip_messages_accepted o) 1;
  ob_gossip_messages_ignored := ob_gossip_messages_ignored o;
  ob_gossip_messages_rejected := ob_gossip_messages_rejected o;
  ob_peer_connectivity_dirty := ob_peer_connectivity_dirty o || dirty;
  ob_dht_snapshot_dirty := ob_dht_snapshot_dirty o; ob_pulses := ob_pulses o |}.

Definition gossip_ignored (o : ObservabilityBatch) : ObservabilityBatch := {|
  ob_app_messages_received := ob_app_messages_received o;
  ob_app_messages_ignored := ob_app_messages_ignored o;
  ob_app_messages_rejected := ob_app_messages_rejected o;
  ob_gossip_messages_accepted := ob_gossip_messages_accepted o;
  ob_gossip_messages_ignored := sat_add usize_max (ob_gossip_messages_ignored o) 1;
  ob_gossip_messages_rejected := ob_gossip_messages_rejected o;
  ob_peer_connectivity_dirty := ob_peer_connectivity_dirty o;
  ob_dht_snapshot_dirty := ob_dht_snapshot_dirty o; ob_pulses := ob_pulses o |}.

Definition gossip_rejected (o : ObservabilityBatch) : ObservabilityBatch := {|
  ob_app_messages_received := ob_app_messages_received o;
  ob_app_messages_ignored := ob_app_messages_ignored o;
  ob_app_messages_rejected := ob_app_messages_rejected o;
  ob_gossip_messages_accepted := ob_gossip_messages_accepted o;
  ob_gossip_messages_ignored := ob_gossip_messages_ignored o;
  ob_gossip_messages_rejected := sat_add usize_max (ob_gossip_messages_rejected o) 1;
  ob_peer_connectivity_dirty := ob_peer_connectivity_dirty o;
  ob_dht_snapshot_dirty := ob_dht_snapshot_dirty o; ob_pulses := ob_pulses o |}.

Definition set_flags (o : ObservabilityBatch) (dht peers : bool) : ObservabilityBatch := {|
  ob_app_messages_received := ob_app_messages_received o;
  ob_app_messages_ignored := ob_app_messages_ignored o;
  ob_app_messages_rejected := ob_app_messages_rejected o;
  ob_gossip_messages_accepted := ob_gossip_messages_accepted o;
  ob_gossip_messages_ignored := ob_gossip_messages_ignored o;
  ob_gossip_messages_rejected := ob_gossip_messages_rejected o;
  ob_peer_connectivity_dirty := peers; ob_dht_snapshot_dirty := dht; ob_pulses := ob_pulses o |}.

Definition dht_dirty (o : ObservabilityBatch) : ObservabilityBatch :=
  set_flags o true (ob_peer_connectivity_dirty o).
Definition peer_connectivity_dirty (o : ObservabilityBatch) : ObservabilityBatch :=
  set_flags o (ob_dht_snapshot_dirty o) true.

(** The queue of pending pulses keeps the most recent [MAX_PENDING_PULSES]. *)
Definition enqueue_pulse (pulses : list string) (line : string) : list string :=
  (if decide (MAX_PENDING_PULSES <= len pulses) then tail pulses else pulses) ++ [line].

Definition pulse (o : ObservabilityBatch) (line : string) : ObservabilityBatch := {|
  ob_app_messages_received := ob_app_messages_received o;
  ob_app_messages_ignored := ob_app_messages_ignored o;
  ob_app_messages_rejected := ob_app_messages_rejected o;
  ob_gossip_messages_accepted := ob_gossip_messages_accepted o;
  ob_gossip_messages_ignored := ob_gossip_messages_ignored o;
  ob_gossip_messages_rejected := ob_gossip_messages_rejected o;
  ob_peer_connectivity_dirty := ob_peer_connectivity_dirty o;
  ob_dht_snapshot_dirty := ob_dht_snapshot_dirty o;
  ob_pulses := enqueue_pulse (ob_pulses o) line |}.

Definition batch_is_empty (o : ObservabilityBatch) : bool :=
  bool_decide (ob_app_messages_received o = 0) && bool_decide (ob_app_messages_ignored o = 0) &&
  bool_decide (ob_app_messages_rejected o = 0) && bool_decide (ob_gossip_messages_accepted o = 0) &&
  bool_decide (ob_gossip_messages_ignored o = 0) && bool_decide (ob_gossip_messages_rejected o = 0) &&
  negb (ob_peer_connectivity_dirty o) && negb (ob_dht_snapshot_dirty o) &&
  bool_decide (ob_pulses o = []).

(** [push_pulse]: newest first; the loop pops from the back down to 24. *)
Definition MAX_SNAPSHOT_PULSES : Z := 24.

Definition pop_back_step (buf : list string) : option (list string) :=
  if decide (MAX_SNAPSHOT_PULSES < len buf) then Some (take (length buf - 1) buf) else None.

Definition push_pulse (buf : list string) (line : string) : list string :=
  loop pop_back_step (S (length buf)) (line :: buf).

(** * Facts *)
Lemma push_pulse_spec buf line : push_pulse buf line = take 24 (line :: buf).
Proof.
  unfold push_pulse. change (S (length buf)) with (length (line :: buf)). generalize (line :: buf).
  intros l. assert (forall n k, (length k <= n)%nat -> loop pop_back_step n k = take 24 k) as H; [|by apply H].
  induction n as [|n IH]; intros k Hk; cbn; [destruct k; [done|cbn in Hk; lia]|].
  unfold pop_back_step. case_decide as Hd.
  - rewrite IH by (rewrite length_take; lia). rewrite take_take. f_equal. unfold len, MAX_SNAPSHOT_PULSES in Hd. lia.
  - rewrite take_ge; [done|]. unfold len, MAX_SNAPSHOT_PULSES in Hd. lia.
Qed.

Lemma enqueue_pulse_bounded pulses line :
  len pulses <= MAX_PENDING_PULSES -> len (enqueue_pulse pulses line) <= MAX_PENDING_PULSES.
Proof.
  intros Hl. unfold enqueue_pulse. rewrite len_app. case_decide as Hd.
  - destruct pulses; unfold len, MAX_PENDING_PULSES in *; cbn in *; lia.
  - unfold len, MAX_PENDING_PULSES in *; cbn; lia.
Qed.
