(* ===== verification/Relay.v ===== *)
(** Circuit relay policy (crates/connectivity/relay/address.rs, schedule.rs,
    config.rs, policy.rs) and the mediator policy projected on it
    (crates/connectivity/mediator.rs).  The wall clock is an argument: the
    seconds elapsed since the Unix epoch, [None] when the clock is before it. *)

From S2P Require Import Prelude Bytes Text Common.
From Stdlib Require Import Ascii.

#[local] Open Scope Z_scope.

(** * Relay addresses (address.rs) *)
Section address.
Context {P : PeerIdLib} {M : MultiaddrLib}.

Definition is_circuit (protocol : Protocol) : bool :=
  match protocol with P2pCircuit => true | _ => false end.

Definition is_p2p_circuit_addr (addr : Multiaddr) : bool := existsb is_circuit (addr_iter addr).

Definition has_p2p_peer_id (addr : Multiaddr) : bool :=
  existsb (fun protocol => match protocol with P2p _ => true | _ => false end) (addr_iter addr).

Definition relay_reservation_addr (relay_addr : Multiaddr) : option Multiaddr :=
  if negb (has_p2p_peer_id relay_addr) || is_p2p_circuit_addr relay_addr then None
  else Some (addr_with relay_addr P2pCircuit).

(** The loop of [relay_peer_id] over the components. *)
Fixpoint first_relay_peer (protocols : list Protocol) : option PeerId :=
  match protocols with
  | [] => None
  | P2p peer :: _ => Some peer
  | P2pCircuit :: _ => None
  | _ :: rest => first_relay_peer rest
  end.

Definition relay_peer_id (addr : Multiaddr) : option PeerId := first_relay_peer (addr_iter addr).

(** One iteration of the scan of [relay_dial_addr_for_peer], on
    [(seen_circuit, target_after_circuit)]. *)
Definition scan_route (st : bool * option PeerId) (protocol : Protocol) : bool * option PeerId :=
  match protocol with
  | P2pCircuit => (true, st.2)
  | P2p peer => if st.1 then (st.1, Some peer) else st
  | _ => st
  end.

Definition relay_dial_addr_for_peer (addr : Multiaddr) (target : PeerId) : option Multiaddr :=
  if negb (is_p2p_circuit_addr addr) then None
  else
    match (foldl scan_route (false, None) (addr_iter addr)).2 with
    | Some peer => if decide (peer = target) then Some addr else None
    | None => Some (addr_with addr (P2p target))
    end.
End address.

(** * Texts: [str::split(char)], [str::contains] and [u16::from_str] *)
Fixpoint split_chars (sep : ascii) (l : list ascii) : list (list ascii) :=
  match l with
  | [] => [[]]
  | c :: l' =>
      if decide (c = sep) then [] :: split_chars sep l'
      else match split_chars sep l' with
           | piece :: rest => (c :: piece) :: rest
           | [] => [[c]]
           end
  end.

Definition str_split (sep : ascii) (s : string) : list string := text <$> split_chars sep (chars s).

Fixpoint chars_contain (needle l : list ascii) : bool :=
  bool_decide (take (length needle) l = needle) ||
  match l with [] => false | _ :: l' => chars_contain needle l' end.

Definition str_contains (s needle : string) : bool := chars_contain (chars needle) (chars s).

(** The digits of a decimal number, most significant first; [None] on a
    character that is no digit or a value above [max]. *)
Fixpoint parse_digits (max acc : Z) (l : list ascii) : option Z :=
  match l with
  | [] => Some acc
  | c :: l' =>
      if is_ascii_digit c then
        let acc' := acc * 10 + (code c - 48) in
        if decide (acc' <= max) then parse_digits max acc' l' else None
      else None
  end.

(** [u16::from_str] and the like: an optional plus sign, then one digit at least. *)
Definition parse_unsigned (max : Z) (s : string) : option Z :=
  match chars s with
  | [] => None
  | c :: l =>
      if decide (c = "+"%char) then
        match l with [] => None | _ => parse_digits max 0 l end
      else parse_digits max 0 (c :: l)
  end.

(** * The weekly schedule (schedule.rs) *)
Record RelayWindow := { days : list string; start : string; end_ : string }.
Record RelaySchedule := { sched_enabled : bool; windows : list RelayWindow }.

Definition RelaySchedule_default : RelaySchedule := {| sched_enabled := false; windows := [] |}.

Definition parse_hhmm (value : string) : option Z :=
  match str_split ":" value with
  | h :: m :: rest =>
      match parse_unsigned u16_max h, parse_unsigned u16_max m with
      | Some hour, Some minute =>
          if bool_decide (rest ≠ []) || bool_decide (24 <= hour) || bool_decide (60 <= minute) then None
          else Some (hour * 60 + minute)
      | _, _ => None
      end
  | _ => None
  end.

Definition one_of (s : string) (names : list string) : bool := existsb (String.eqb s) names.

Definition day_matches (day : Z) (raw : string) : bool :=
  let name := to_ascii_lowercase (trim raw) in
  if one_of name ["all"; "*"] then true
  else if one_of name ["sun"; "sunday"] then bool_decide (day = 0)
  else if one_of name ["mon"; "monday"] then bool_decide (day = 1)
  else if one_of name ["tue"; "tues"; "tuesday"] then bool_decide (day = 2)
  else if one_of name ["wed"; "wednesday"] then bool_decide (day = 3)
  else if one_of name ["thu"; "thur"; "thurs"; "thursday"] then bool_decide (day = 4)
  else if one_of name ["fri"; "friday"] then bool_decide (day = 5)
  else if one_of name ["sat"; "saturday"] then bool_decide (day = 6)
  else false.

Definition matches_day (w : RelayWindow) (day : Z) : bool := existsb (day_matches day) (days w).

Definition is_valid_day (raw : string) : bool :=
  one_of (to_ascii_lowercase (trim raw))
    ["all"; "*"; "sun"; "sunday"; "mon"; "monday"; "tue"; "tues"; "tuesday"; "wed"; "wednesday";
     "thu"; "thur"; "thurs"; "thursday"; "fri"; "friday"; "sat"; "saturday"].

Definition window_matches (w : RelayWindow) (day previous_day minute_of_day : Z) : bool :=
  match parse_hhmm (start w), parse_hhmm (end_ w) with
  | Some s, Some e =>
      if decide (s = e) then matches_day w day
      else if decide (s < e) then
        matches_day w day && bool_decide (s <= minute_of_day) && bool_decide (minute_of_day < e)
      else
        (matches_day w day && bool_decide (s <= minute_of_day)) ||
        (matches_day w previous_day && bool_decide (minute_of_day < e))
  | _, _ => false
  end.

Definition RelayWindow_validate (w : RelayWindow) : result unit NetError :=
  let? _ := reject_if (bool_decide (days w = []))
    (config_error "relay.schedule.windows entries must include at least one day") in
  let? _ := try_for_each (fun day => reject_if (negb (is_valid_day day))
    (config_error ("relay.schedule.windows contains invalid day `" +:+ day +:+ "`"))) (days w) in
  let? _ := reject_if (bool_decide (parse_hhmm (start w) = None))
    (config_error ("relay.schedule.windows contains invalid start time `" +:+ start w +:+ "`")) in
  reject_if (bool_decide (parse_hhmm (end_ w) = None))
    (config_error ("relay.schedule.windows contains invalid end time `" +:+ end_ w +:+ "`")).

Definition RelaySchedule_validate (s : RelaySchedule) : result unit NetError :=
  try_for_each RelayWindow_validate (windows s).

Definition is_open_at_utc (s : RelaySchedule) (day minute_of_day : Z) : bool :=
  if negb (sched_enabled s) then true
  else if bool_decide (windows s = []) || bool_decide (6 < day) || bool_decide (1440 <= minute_of_day)
  then false
  else
    let previous_day := if decide (day = 0) then 6 else day - 1 in
    existsb (fun w => window_matches w day previous_day minute_of_day) (windows s).

Definition is_open_now_utc (clock : option Z) (s : RelaySchedule) : bool :=
  if negb (sched_enabled s) then true
  else
    match clock with
    | None => false
    | Some secs =>
        let days_since_epoch := secs / 86400 in
        let minute_of_day := (secs mod 86400) / 60 in
        let day := (days_since_epoch + 4) mod 7 in
        is_open_at_utc s day minute_of_day
    end.

(** * The relay service (config.rs, state.rs, policy.rs) *)
Inductive RelayServiceHealth : Type :=
| HealthDisabled | HealthEnabled | ClosedBySchedule | AtCapacity | RateLimited | HealthError.

Definition health_as_str (h : RelayServiceHealth) : string :=
  match h with
  | HealthDisabled => "disabled"
  | HealthEnabled => "enabled"
  | ClosedBySchedule => "closed_by_schedule"
  | AtCapacity => "at_capacity"
  | RateLimited => "rate_limited"
  | HealthError => "error"
  end.

Definition classify_relay_denial (status_debug : string) : RelayServiceHealth :=
  let lower := to_ascii_lowercase status_debug in
  if str_contains lower "rate" || str_contains lower "thrott" then RateLimited
  else if str_contains lower "resource" || str_contains lower "limit" || str_contains lower "capacity"
    || str_contains lower "too" || str_contains lower "no reservation"
  then AtCapacity
  else HealthError.

Inductive RelayAccess : Type := AllowAll | AllowList | DenyList.

#[global] Instance RelayAccess_eq_dec : EqDecision RelayAccess.
Proof. solve_decision. Defined.

Record RelayServiceConfig := {
  enabled : bool;
  access : RelayAccess;
  allow_peers : list string;
  deny_peers : list string;
  max_reservations : Z;
  max_reservations_per_peer : Z;
  reservation_duration_secs : Z;
  max_circuits : Z;
  max_circuits_per_peer : Z;
  max_circuit_duration_secs : Z;
  max_circuit_bytes : Z;
  reservation_rate_per_peer_per_min : Z;
  reservation_rate_per_ip_per_min : Z;
  circuit_rate_per_peer_per_min : Z;
  circuit_rate_per_ip_per_min : Z;
  schedule : RelaySchedule;
}.

Definition RelayServiceConfig_default : RelayServiceConfig := {|
  enabled := false;
  access := AllowAll;
  allow_peers := [];
  deny_peers := [];
  max_reservations := 64;
  max_reservations_per_peer := 1;
  reservation_duration_secs := 60 * 60;
  max_circuits := 128;
  max_circuits_per_peer := 4;
  max_circuit_duration_secs := 2 * 60;
  max_circuit_bytes := 100 * 1024 * 1024;
  reservation_rate_per_peer_per_min := 4;
  reservation_rate_per_ip_per_min := 16;
  circuit_rate_per_peer_per_min := 16;
  circuit_rate_per_ip_per_min := 64;
  schedule := RelaySchedule_default;
|}.

Section service.
Context {P : PeerIdLib}.

Definition validate_peer_ids (field : string) (values : list string) : result unit NetError :=
  try_for_each (fun raw =>
    let? _ := map_err (peer_parse raw) (fun err =>
      config_error (field +:+ " contains invalid peer id `" +:+ raw +:+ "`: " +:+ err)) in
    Ok tt) values.

Definition parse_peer_ids (values : list string) : list PeerId := omap (fun raw => ok (peer_parse raw)) values.

Definition contains_peer (values : list string) (peer : PeerId) : bool :=
  existsb (fun raw => bool_decide (ok (peer_parse raw) = Some peer)) values.

Definition RelayServiceConfig_validate (c : RelayServiceConfig) : result unit NetError :=
  let? _ := validate_peer_ids "relay.allow_peers" (allow_peers c) in
  let? _ := validate_peer_ids "relay.deny_peers" (deny_peers c) in
  let? _ := RelaySchedule_validate (schedule c) in
  let? _ := reject_if (bool_decide (max_reservations c = 0))
    (config_error "relay.max_reservations must be at least 1") in
  let? _ := reject_if (bool_decide (max_reservations_per_peer c = 0))
    (config_error "relay.max_reservations_per_peer must be at least 1") in
  let? _ := reject_if (bool_decide (max_reservations c < max_reservations_per_peer c))
    (config_error "relay.max_reservations_per_peer must be <= relay.max_reservations") in
  let? _ := reject_if (bool_decide (max_circuits c = 0))
    (config_error "relay.max_circuits must be at least 1") in
  let? _ := reject_if (bool_decide (max_circuits_per_peer c = 0))
    (config_error "relay.max_circuits_per_peer must be at least 1") in
  let? _ := reject_if (bool_decide (max_circuits c < max_circuits_per_peer c))
    (config_error "relay.max_circuits_per_peer must be <= relay.max_circuits") in
  let? _ := reject_if (bool_decide (reservation_duration_secs c = 0))
    (config_error "relay.reservation_duration_secs must be at least 1") in
  let? _ := reject_if (bool_decide (max_circuit_duration_secs c = 0))
    (config_error "relay.max_circuit_duration_secs must be at least 1") in
  reject_if (bool_decide (max_circuit_bytes c = 0))
    (config_error "relay.max_circuit_bytes must be at least 1").

Definition is_active_now (clock : option Z) (c : RelayServiceConfig) : bool :=
  enabled c && is_open_now_utc clock (schedule c).

Definition health_now (clock : option Z) (c : RelayServiceConfig) : RelayServiceHealth :=
  if negb (enabled c) then HealthDisabled
  else if negb (is_open_now_utc clock (schedule c)) then ClosedBySchedule
  else HealthEnabled.

Definition denied_peer_ids (c : RelayServiceConfig) : list PeerId := parse_peer_ids (deny_peers c).
Definition allowed_peer_ids (c : RelayServiceConfig) : list PeerId := parse_peer_ids (allow_peers c).

Definition allows_peer (c : RelayServiceConfig) (peer : PeerId) : bool :=
  if contains_peer (deny_peers c) peer then false
  else match access c with
       | AllowAll | DenyList => true
       | AllowList => contains_peer (allow_peers c) peer
       end.

(** * The mediator (mediator.rs) *)
Record MediatorConfig := {
  md_enabled : bool;
  advertise_for_dcutr : bool;
  allow_reservations : bool;
  allow_circuits : bool;
  require_authenticated_peers : bool;
  max_mediated_peers : Z;
  md_max_reservations : Z;
  md_max_circuits : Z;
}.

Definition MediatorConfig_default : MediatorConfig := {|
  md_enabled := false;
  advertise_for_dcutr := true;
  allow_reservations := true;
  allow_circuits := true;
  require_authenticated_peers := false;
  max_mediated_peers := 64;
  md_max_reservations := 64;
  md_max_circuits := 128;
|}.

Definition mediator_error (reason : string) : NetError := config_error_at "<mediator>" reason.

Definition MediatorConfig_validate (m : MediatorConfig) (relay : RelayServiceConfig) : result unit NetError :=
  if negb (md_enabled m) then Ok tt
  else
    let? _ := reject_if (negb (allow_reservations m))
      (mediator_error "mediator.allow_reservations must be true while mediator.enabled is true") in
    let? _ := reject_if (negb (allow_circuits m))
      (mediator_error "mediator.allow_circuits must be true while mediator.enabled is true") in
    let? _ := reject_if (bool_decide (max_mediated_peers m = 0))
      (mediator_error "mediator.max_mediated_peers must be at least 1") in
    let? _ := reject_if (bool_decide (md_max_reservations m = 0))
      (mediator_error "mediator.max_reservations must be at least 1") in
    let? _ := reject_if (bool_decide (md_max_circuits m = 0))
      (mediator_error "mediator.max_circuits must be at least 1") in
    if require_authenticated_peers m then
      let? _ := reject_if (bool_decide (access relay ≠ AllowList))
        (mediator_error "mediator.require_authenticated_peers requires relay.access = allow_list") in
      reject_if (bool_decide (allow_peers relay = []))
        (mediator_error "mediator.require_authenticated_peers requires relay.allow_peers to contain at least one trusted peer")
    else Ok tt.

Definition mediator_is_active_now (clock : option Z) (m : MediatorConfig) (relay : RelayServiceConfig) : bool :=
  md_enabled m && is_active_now clock relay.

Definition apply_to_relay (m : MediatorConfig) (relay : RelayServiceConfig) : RelayServiceConfig :=
  if negb (md_enabled m) then relay
  else {|
    enabled := true;
    access := access relay;
    allow_peers := allow_peers relay;
    deny_peers := deny_peers relay;
    max_reservations := Z.min (max_reservations relay) (md_max_reservations m);
    max_reservations_per_peer := Z.max (Z.min (max_reservations_per_peer relay) (max_mediated_peers m)) 1;
    reservation_duration_secs := reservation_duration_secs relay;
    max_circuits := Z.min (max_circuits relay) (md_max_circuits m);
    max_circuits_per_peer := Z.max (Z.min (max_circuits_per_peer relay) (max_mediated_peers m)) 1;
    max_circuit_duration_secs := max_circuit_duration_secs relay;
    max_circuit_bytes := max_circuit_bytes relay;
    reservation_rate_per_peer_per_min := reservation_rate_per_peer_per_min relay;
    reservation_rate_per_ip_per_min := reservation_rate_per_ip_per_min relay;
    circuit_rate_per_peer_per_min := circuit_rate_per_peer_per_min relay;
    circuit_rate_per_ip_per_min := circuit_rate_per_ip_per_min relay;
    schedule := schedule relay;
  |}.
End service.

Example hhmm : (parse_hhmm "00:00", parse_hhmm "23:59", parse_hhmm "24:00", parse_hhmm "12:60", parse_hhmm "+7:5", parse_hhmm "1:2:3", parse_hhmm "")
  = (Some 0, Some 1439, None, None, Some 425, None, None).
Proof. reflexivity. Qed.

Example denial_texts :
  classify_relay_denial <$> ["ResourceLimitExceeded"; "RATE"; "No reservation"; "Unexpected"] =
  [AtCapacity; RateLimited; AtCapacity; HealthError].
Proof. reflexivity. Qed.
