(* ===== verification/RelayFacts.v ===== *)
(** Facts about the relay policy: the routes built from relay addresses, the
    weekly schedule as intervals on the circle of the 10080 minutes of a week,
    who may use the relay, and the limits a mediator runs with. *)

From S2P Require Import Prelude Bytes Text Common Relay.

#[local] Open Scope Z_scope.

(** * Routes *)
Section address_facts.
Context {P : PeerIdLib} {M : MultiaddrLib} {ML : MultiaddrLaws M}.

Lemma first_relay_peer_app l k :
  existsb is_circuit l = true \/ is_Some (first_relay_peer l) ->
  first_relay_peer (l ++ k) = first_relay_peer l.
Proof.
  induction l as [|p l IH]; cbn.
  - intros [?|[? ?]]; done.
  - destruct p; cbn; try done; intros H; apply IH; destruct H; auto.
Qed.

Lemma has_peer_first l :
  existsb is_circuit l = false ->
  existsb (fun protocol => match protocol with P2p _ => true | _ => false end) l = true ->
  is_Some (first_relay_peer l).
Proof. induction l as [|p l IH]; cbn; [done|]. destruct p; cbn; auto; done. Qed.

Lemma scan_seen l st : (foldl scan_route st l).1 = st.1 || existsb is_circuit l.
Proof.
  revert st. induction l as [|p l IH]; intros [b t]; cbn; [by rewrite orb_false_r|].
  rewrite IH. destruct p; cbn; try done; destruct b; cbn; auto.
Qed.

(** The scan before the first circuit component finds no target. *)
Lemma scan_no_circuit l : existsb is_circuit l = false -> foldl scan_route (false, None) l = (false, None).
Proof.
  induction l as [|p l IH]; cbn; [done|]. destruct p; cbn; try (intros; auto; fail). done.
Qed.

Lemma scan_route_snoc_peer l t :
  existsb is_circuit l = true -> (foldl scan_route (false, None) (l ++ [P2p t])).2 = Some t.
Proof.
  intros Hc. rewrite foldl_app. cbn. pose proof (scan_seen l (false, None)) as Hs. rewrite Hc in Hs.
  cbn in Hs. by rewrite Hs.
Qed.

Lemma circuit_with a p : is_p2p_circuit_addr (addr_with a p) = is_p2p_circuit_addr a || is_circuit p.
Proof using ML.
  unfold is_p2p_circuit_addr. rewrite addr_iter_with, existsb_app. cbn. by rewrite orb_false_r.
Qed.

Lemma dial_route_with a t :
  is_p2p_circuit_addr a = true -> relay_dial_addr_for_peer (addr_with a (P2p t)) t = Some (addr_with a (P2p t)).
Proof using ML.
  intros Hc. unfold relay_dial_addr_for_peer. rewrite circuit_with, Hc. cbn.
  rewrite addr_iter_with, scan_route_snoc_peer by done. by rewrite decide_True.
Qed.

Lemma dial_route_other a t u :
  relay_dial_addr_for_peer a t = Some a -> u ≠ t -> relay_dial_addr_for_peer a u = None.
Proof using ML.
  unfold relay_dial_addr_for_peer. destruct (is_p2p_circuit_addr a); cbn; [|done].
  destruct (_.2) as [p|] eqn:E; [|].
  - case_decide; [|done]. intros _ Hu. by rewrite decide_False by congruence.
  - intros [= Ha]. pose proof (f_equal (length ∘ addr_iter) Ha) as Hl. cbn in Hl.
    rewrite addr_iter_with, length_app in Hl. cbn in Hl. lia.
Qed.

(** A dial route leads to its target through the relay it was built from.
    Whatever [relay_dial_addr_for_peer] returns for a target is a circuit
    address that extends the given one by at most the target, keeps its relay,
    is returned unchanged when a route for the same target is built from it
    again, and is refused for every other target; and a reservation address
    made from a relay's address names that relay and accepts every target. *)
Theorem relay_route_targets_peer_through_relay (addr : Multiaddr) (target : PeerId) :
  match relay_dial_addr_for_peer addr target with
  | None => is_p2p_circuit_addr addr = false \/
      exists other, other ≠ target /\ relay_dial_addr_for_peer addr other = Some addr
  | Some route =>
      is_p2p_circuit_addr route = true /\ (route = addr \/ route = addr_with addr (P2p target)) /\
      relay_peer_id route = relay_peer_id addr /\
      relay_dial_addr_for_peer route target = Some route /\
      (forall other, other ≠ target -> relay_dial_addr_for_peer route other = None)
  end /\
  (forall reservation, relay_reservation_addr addr = Some reservation ->
     is_Some (relay_peer_id addr) /\ relay_peer_id reservation = relay_peer_id addr /\
     relay_dial_addr_for_peer reservation target = Some (addr_with reservation (P2p target))).
Proof using ML.
  split.
  - destruct (is_p2p_circuit_addr addr) eqn:Hc.
    2: { unfold relay_dial_addr_for_peer. rewrite Hc. by left. }
    destruct (relay_dial_addr_for_peer addr target) as [route|] eqn:E.
    + assert (Hr : (route = addr \/ route = addr_with addr (P2p target)) /\
        relay_dial_addr_for_peer route target = Some route).
      { pose proof E as E'. unfold relay_dial_addr_for_peer in E. rewrite Hc in E. cbn in E.
        repeat case_match; simplify_eq; eauto using dial_route_with. }
      destruct Hr as [Hr Hself]. split_and!; try done.
      * destruct Hr as [->| ->]; [done|]. by rewrite circuit_with, Hc.
      * destruct Hr as [->| ->]; [done|]. unfold relay_peer_id. rewrite addr_iter_with.
        by apply first_relay_peer_app; left.
      * eauto using dial_route_other.
    + right. unfold relay_dial_addr_for_peer in *. rewrite Hc in *. cbn in *.
      destruct (_.2) as [p|]; [|done]. case_decide; [done|]. exists p. by rewrite decide_True.
  - intros r. unfold relay_reservation_addr. destruct (has_p2p_peer_id addr) eqn:Hp; cbn; [|done].
    destruct (is_p2p_circuit_addr addr) eqn:Hc; [done|]. intros [= <-].
    pose proof (has_peer_first _ Hc Hp) as Hf. split_and!; [done| |].
    + unfold relay_peer_id. rewrite addr_iter_with. apply first_relay_peer_app. by right.
    + unfold relay_dial_addr_for_peer. rewrite circuit_with, Hc. cbn.
      by rewrite addr_iter_with, foldl_app, scan_no_circuit.
Qed.
End address_facts.

(** * The schedule on the circle of the week *)
Definition week_minutes : Z := 10080.

(** Minutes of the week are counted from Sunday 00:00 UTC.  A window opens on
    each of its days at its start and stays open until the next time the clock
    shows its end; a window whose start is its end covers its calendar days. *)
Definition window_covers (w : RelayWindow) (x : Z) : Prop :=
  exists d s e, 0 <= d <= 6 /\ matches_day w d = true /\
    parse_hhmm (start w) = Some s /\ parse_hhmm (end_ w) = Some e /\
    if decide (s = e) then (x - d * 1440) mod week_minutes < 1440
    else (x - (d * 1440 + s)) mod week_minutes < (e - s) mod 1440.

Lemma parse_digits_range max acc l z : 0 <= acc <= max -> parse_digits max acc l = Some z -> 0 <= z <= max.
Proof.
  revert acc. induction l as [|c l IH]; intros acc Hacc; cbn; [by intros [= <-]|].
  destruct (is_ascii_digit c) eqn:Hd; [|done]. case_decide; [|done]. apply IH.
  unfold is_ascii_digit in Hd. apply bool_decide_eq_true in Hd. lia.
Qed.

Lemma parse_unsigned_range max s z : 0 <= max -> parse_unsigned max s = Some z -> 0 <= z <= max.
Proof.
  intros Hm. unfold parse_unsigned. repeat case_match; try done; apply parse_digits_range; lia.
Qed.

Lemma parse_hhmm_range v m : parse_hhmm v = Some m -> 0 <= m < 1440.
Proof.
  unfold parse_hhmm. destruct (str_split _ v) as [|h [|mi rest]]; try done.
  destruct (parse_unsigned _ h) as [hour|] eqn:Eh; [|done].
  destruct (parse_unsigned _ mi) as [minute|] eqn:Em; [|done].
  apply parse_unsigned_range in Eh, Em; [|ulia..].
  destruct (_ || _) eqn:Eg; [done|]. guards_in Eg. destruct Eg as [[_ Hh] Hmi]. intros [= <-]. lia.
Qed.

Lemma window_matches_covers w day minute :
  0 <= day <= 6 -> 0 <= minute < 1440 ->
  window_matches w day (if decide (day = 0) then 6 else day - 1) minute = true <->
  window_covers w (day * 1440 + minute).
Proof.
  intros Hd Hm. unfold window_matches, window_covers, week_minutes. set (prev := if decide _ then _ else _).
  assert (Hprev : 0 <= prev <= 6 /\ (prev = day - 1 \/ prev = day + 6)) by (subst prev; case_decide; mlia).
  clearbody prev.
  destruct (parse_hhmm (start w)) as [s|] eqn:Es; [|by split; [|intros (?&?&?&?&?&?&?&?)]].
  destruct (parse_hhmm (end_ w)) as [e|] eqn:Ee; [|by split; [|intros (?&?&?&?&?&?&?&?)]].
  apply parse_hhmm_range in Es, Ee. split.
  - destruct (decide (s = e)); [|destruct (decide (s < e))]; intros Ho; guards_in Ho.
    + exists day, s, e. rewrite decide_True by done. split_and!; try done; mlia.
    + destruct Ho as [[? ?] ?]. exists day, s, e. rewrite decide_False by done. split_and!; try done; mlia.
    + rewrite orb_true_iff in Ho. guards_in Ho. destruct Ho as [[? ?]|[? ?]].
      * exists day, s, e. rewrite decide_False by done. split_and!; try done; mlia.
      * exists prev, s, e. rewrite decide_False by done. split_and!; try done; mlia.
  - intros (d & s' & e' & Hdr & Hday & [= <-] & [= <-] & Hcov).
    destruct (decide (s = e)); [|destruct (decide (s < e))].
    + assert (d = day) as -> by mlia. done.
    + assert (d = day) as -> by mlia. guards. split_and!; try done; mlia.
    + rewrite orb_true_iff. guards.
      assert (d = day /\ s <= minute \/ d = prev /\ minute < e) as [[-> ?]|[-> ?]] by mlia; auto.
Qed.

(** The minute of the week at a Unix time: the epoch fell on a Thursday. *)
Definition minute_of_week (secs : Z) : Z := (secs / 60 + 4 * 1440) mod week_minutes.

Lemma open_now_covers s secs :
  0 <= secs -> sched_enabled s = true ->
  is_open_now_utc (Some secs) s = true <-> exists w, w ∈ windows s /\ window_covers w (minute_of_week secs).
Proof.
  intros Hs He. unfold is_open_now_utc, is_open_at_utc. rewrite He. cbn [negb].
  set (day := (secs / 86400 + 4) mod 7). set (minute := secs mod 86400 / 60).
  assert (Hx : minute_of_week secs = day * 1440 + minute).
  { unfold minute_of_week, week_minutes, day, minute. mlia. }
  assert (Hd : 0 <= day <= 6) by (unfold day; mlia).
  assert (Hm : 0 <= minute < 1440) by (unfold minute; mlia).
  clearbody day minute. rewrite Hx. clear Hx.
  rewrite (bool_decide_eq_false_2 (6 < day)), (bool_decide_eq_false_2 (1440 <= minute)) by mlia.
  rewrite !orb_false_r. case_bool_decide as Hw; cbn.
  - rewrite Hw. split; [done|]. intros (w & Hin & _). by apply elem_of_nil in Hin.
  - rewrite existsb_exists. setoid_rewrite <- list_elem_of_In.
    by setoid_rewrite (window_matches_covers _ day minute Hd Hm).
Qed.

(** At every Unix time the relay schedule is open exactly when it is
    disabled or the minute of the week lies in one of its windows: a window
    runs, on each day it lists, from its start to the next time the clock shows
    its end, across midnight and across the end of the week alike (and for the
    whole calendar day when its start is its end).  Before the epoch an enabled
    schedule is closed. *)
Theorem schedule_open_iff_in_window (s : RelaySchedule) (clock : option Z) :
  (forall secs, clock = Some secs -> 0 <= secs) ->
  is_open_now_utc clock s = true <->
  sched_enabled s = false \/
  exists secs w, clock = Some secs /\ w ∈ windows s /\ window_covers w (minute_of_week secs).
Proof.
  intros Hc. destruct (sched_enabled s) eqn:He.
  - destruct clock as [secs|].
    + rewrite open_now_covers by auto. split; [intros (w & ? & ?); eauto 6|].
      intros [?|(? & w & [= <-] & ? & ?)]; [done|eauto].
    + unfold is_open_now_utc. rewrite He. cbn. split; [done|]. intros [?|(? & ? & ? & _)]; done.
  - unfold is_open_now_utc. rewrite He. split; auto.
Qed.

(** A valid day name stands for a day. *)
Lemma valid_day_matches raw : is_valid_day raw = true -> exists d, 0 <= d <= 6 /\ day_matches d raw = true.
Proof.
  unfold is_valid_day, day_matches, one_of. set (name := to_ascii_lowercase (trim raw)). clearbody name.
  intros (day & Hin & Heq)%existsb_exists. apply String.eqb_eq in Heq. subst day.
  repeat (destruct Hin as [<-|Hin]; [solve
    [ by exists 0 | by exists 1 | by exists 2 | by exists 3 | by exists 4 | by exists 5 | by exists 6 ]|]).
  destruct Hin.
Qed.

Lemma validated_window_covers w :
  RelayWindow_validate w = Ok tt -> exists x, 0 <= x < week_minutes /\ window_covers w x.
Proof.
  unfold RelayWindow_validate. guards. intros (Hd & Hdays & Hs & He).
  destruct (days w) as [|raw l] eqn:El; [done|]. apply Forall_cons in Hdays as [Hraw _]. guards_in Hraw.
  destruct (valid_day_matches raw Hraw) as (d & Hd' & Hm).
  destruct (parse_hhmm (start w)) as [s|] eqn:Es; [|done].
  destruct (parse_hhmm (end_ w)) as [e|] eqn:Ee; [|done].
  pose proof (parse_hhmm_range _ _ Es). pose proof (parse_hhmm_range _ _ Ee).
  exists (d * 1440 + s). split; [unfold week_minutes; mlia|]. exists d, s, e. split_and!; try done; try mlia.
  - unfold matches_day. rewrite El. cbn. by rewrite Hm.
  - unfold week_minutes. case_decide; mlia.
Qed.

(** A schedule that passes validation and lists a window opens: whatever
    the time, within the following seven days there is a moment at which the
    relay is open. *)
Theorem validated_schedule_opens_every_week (s : RelaySchedule) (now : Z) :
  RelaySchedule_validate s = Ok tt -> windows s ≠ [] -> 0 <= now ->
  exists secs, now <= secs < now + 7 * 86400 /\ is_open_now_utc (Some secs) s = true.
Proof.
  unfold RelaySchedule_validate. guards. intros Hv Hw Hnow.
  destruct (sched_enabled s) eqn:He.
  2: { exists now. split; [mlia|]. unfold is_open_now_utc. by rewrite He. }
  destruct (windows s) as [|w l] eqn:El; [done|]. apply Forall_cons in Hv as [Hv _].
  destruct (validated_window_covers w Hv) as (x & Hx & Hc).
  set (wait := (x - minute_of_week now) mod week_minutes).
  assert (Hwait : 0 <= wait < week_minutes) by (unfold wait, week_minutes; mlia).
  exists (now + wait * 60). split; [unfold week_minutes in *; mlia|].
  apply open_now_covers; [mlia|done|]. exists w. split; [rewrite El; by left|].
  replace (minute_of_week (now + wait * 60)) with x; [done|].
  unfold wait, minute_of_week, week_minutes in *. mlia.
Qed.

(** * Access and the mediator *)
Section access_facts.
Context {P : PeerIdLib}.
#[local] Arguments validate_peer_ids : simpl never.
#[local] Arguments RelaySchedule_validate : simpl never.

Lemma contains_peer_spec values p : contains_peer values p = true <-> p ∈ parse_peer_ids values.
Proof.
  unfold contains_peer, parse_peer_ids. rewrite existsb_exists, list_elem_of_omap.
  setoid_rewrite <- list_elem_of_In. by setoid_rewrite bool_decide_eq_true.
Qed.

Lemma allows_peer_spec c p :
  allows_peer c p = true <->
  (p ∉ denied_peer_ids c) /\ (access c = AllowList -> p ∈ allowed_peer_ids c).
Proof.
  unfold allows_peer, denied_peer_ids, allowed_peer_ids. rewrite <- !contains_peer_spec.
  destruct (contains_peer (deny_peers c) p), (access c); cbn; naive_solver.
Qed.

Lemma validate_peer_ids_parse field values :
  validate_peer_ids field values = Ok tt -> length (parse_peer_ids values) = length values.
Proof.
  unfold validate_peer_ids, parse_peer_ids. guards. induction 1 as [|raw l Hraw _ IH]; [done|].
  cbn. destruct (peer_parse raw); [|done]. cbn. by rewrite IH.
Qed.

(** A mediator that requires authenticated peers serves only its trusted
    ones: once the relay and mediator configurations pass validation, the
    relay the mediator runs admits exactly the peers of the allow list that
    are not denied, and the allow list names a peer. *)
Theorem authenticated_mediator_serves_trusted_peers_only (m : MediatorConfig) (relay : RelayServiceConfig) :
  RelayServiceConfig_validate relay = Ok tt -> MediatorConfig_validate m relay = Ok tt ->
  md_enabled m = true -> require_authenticated_peers m = true ->
  allowed_peer_ids relay ≠ [] /\
  forall p, allows_peer (apply_to_relay m relay) p = true <->
    p ∈ allowed_peer_ids relay /\ p ∉ denied_peer_ids relay.
Proof.
  intros Hr Hm He Ha. unfold MediatorConfig_validate in Hm. rewrite He, Ha in Hm. cbn [negb] in Hm.
  guards_in Hm. destruct Hm as (_ & _ & _ & _ & _ & Hacc & Hne). apply dec_stable in Hacc.
  unfold RelayServiceConfig_validate in Hr. guards_in Hr. destruct Hr as (Hallow & _). split.
  - intros Hnil. apply validate_peer_ids_parse in Hallow. unfold allowed_peer_ids in Hnil.
    rewrite Hnil in Hallow. by destruct (allow_peers relay).
  - intros p. rewrite allows_peer_spec. unfold apply_to_relay. rewrite He. cbn.
    unfold denied_peer_ids, allowed_peer_ids. cbn. tauto.
Qed.

(** A mediator never widens the relay's limits, but the limits it runs
    with need not pass the relay's own validation: of a validated pair they do
    exactly when no per-peer limit, capped by the number of mediated peers,
    exceeds the mediator's total. *)
Theorem mediated_relay_limits (m : MediatorConfig) (relay : RelayServiceConfig) :
  RelayServiceConfig_validate relay = Ok tt -> MediatorConfig_validate m relay = Ok tt ->
  md_enabled m = true ->
  0 <= max_reservations relay -> 0 <= max_reservations_per_peer relay -> 0 <= max_circuits relay ->
  0 <= max_circuits_per_peer relay -> 0 <= max_mediated_peers m -> 0 <= md_max_reservations m ->
  0 <= md_max_circuits m ->
  let run := apply_to_relay m relay in
  max_reservations run <= max_reservations relay /\ max_circuits run <= max_circuits relay /\
  max_reservations_per_peer run <= max_reservations_per_peer relay /\
  max_circuits_per_peer run <= max_circuits_per_peer relay /\
  (RelayServiceConfig_validate run = Ok tt <->
   Z.min (max_reservations_per_peer relay) (max_mediated_peers m) <= md_max_reservations m /\
   Z.min (max_circuits_per_peer relay) (max_mediated_peers m) <= md_max_circuits m).
Proof.
  intros Hr Hm He ???????. unfold MediatorConfig_validate in Hm. rewrite He in Hm. cbn [negb] in Hm.
  guards_in Hm. destruct Hm as (_ & _ & ? & ? & ? & _).
  unfold RelayServiceConfig_validate in *. guards_in Hr. destruct_and! Hr.
  unfold apply_to_relay. rewrite He. cbn. guards. split_and!; try lia. split.
  - intros Hv. destruct_and! Hv. lia.
  - intros [? ?]. split_and!; try done; lia.
Qed.
End access_facts.
