(* ===== verification/RelayLimiter.v ===== *)
(** The token buckets of the relay server
    (external/libp2p-relay/src/behaviour/rate_limiter.rs) and the libp2p relay
    configuration derived from the node's (crates/connectivity/relay/config.rs
    [to_libp2p_config], external/libp2p-relay/src/behaviour.rs [Config]).
    An [Instant] or [Duration] is a number of nanoseconds. *)

From S2P Require Import Prelude Text Bytes Common Relay.

#[local] Open Scope Z_scope.

(** * The token bucket *)
Section limiter.
Context {Id : Type} `{Countable Id}.

Record GenericRateLimiter := {
  rl_limit : Z;
  rl_interval : Z;
  rl_refill_schedule : list (Z * Id);
  rl_buckets : gmap Id Z;
}.

(** [Duration::as_micros] and [Instant::duration_since], which saturates at 0. *)
Definition as_micros (d : Z) : Z := d / 1000.
Definition duration_since (now earlier : Z) : Z := Z.max 0 (now - earlier).

(** [GenericRateLimiter::new]: the limit is a [NonZeroU32]; a zero interval panics. *)
Definition rl_new (limit interval : Z) : run GenericRateLimiter :=
  if decide (interval = 0) then Panic
  else Ret {| rl_limit := limit; rl_interval := interval; rl_refill_schedule := []; rl_buckets := ∅ |}.

(** [checked_div], then [try_into::<u32>], then [unwrap_or(u32::MAX)]. *)
Definition new_tokens (elapsed interval : Z) : Z :=
  if decide (as_micros interval = 0) then u32_max
  else
    let i := as_micros elapsed / as_micros interval in
    if decide (i <= u32_max) then i else u32_max.

(** One iteration of the loop of [refill]. *)
Definition refill_step (now : Z) (r : run GenericRateLimiter) : option (run GenericRateLimiter) :=
  match r with
  | Panic => None
  | Ret l =>
      match rl_refill_schedule l with
      | (last_refill, id) :: rest =>
          if decide (rl_interval l <= duration_since now last_refill) then
            Some (
              let! balance := expect (rl_buckets l !! id) in
              let new_balance := sat_add u32_max balance (new_tokens (duration_since now last_refill) (rl_interval l)) in
              if decide (new_balance < rl_limit l) then
                Ret {| rl_limit := rl_limit l; rl_interval := rl_interval l;
                       rl_refill_schedule := rest ++ [(now, id)];
                       rl_buckets := <[id := new_balance]> (rl_buckets l) |}
              else
                Ret {| rl_limit := rl_limit l; rl_interval := rl_interval l;
                       rl_refill_schedule := rest;
                       rl_buckets := delete id (rl_buckets l) |})
          else None
      | [] => None
      end
  end.

(** Each iteration handles an entry that was due and leaves none of its id
    due, so the schedule's length bounds the iterations. *)
Definition refill (l : GenericRateLimiter) (now : Z) : run GenericRateLimiter :=
  loop (refill_step now) (length (rl_refill_schedule l)) (Ret l).

(** The [match] of [try_next], on the refilled limiter. *)
Definition take_token (l : GenericRateLimiter) (id : Id) (now : Z) : bool * GenericRateLimiter :=
  match rl_buckets l !! id with
  | Some balance =>
      if decide (1 <= balance) then
        (true, {| rl_limit := rl_limit l; rl_interval := rl_interval l;
                  rl_refill_schedule := rl_refill_schedule l;
                  rl_buckets := <[id := balance - 1]> (rl_buckets l) |})
      else (false, l)
  | None =>
      (true, {| rl_limit := rl_limit l; rl_interval := rl_interval l;
                rl_refill_schedule := rl_refill_schedule l ++ [(now, id)];
                rl_buckets := <[id := rl_limit l - 1]> (rl_buckets l) |})
  end.

Definition try_next (l : GenericRateLimiter) (id : Id) (now : Z) : run (bool * GenericRateLimiter) :=
  let! l := refill l now in
  Ret (take_token l id now).

(** The calls of a run, with the answer to each. *)
Fixpoint try_all (l : GenericRateLimiter) (calls : list (Id * Z)) : run (list bool * GenericRateLimiter) :=
  match calls with
  | [] => Ret ([], l)
  | (id, now) :: calls' =>
      let! (b, l1) := try_next l id now in
      let! (bs, l2) := try_all l1 calls' in
      Ret (b :: bs, l2)
  end.
End limiter.
Arguments GenericRateLimiter Id {_ _}.

(** * The limiters of the relay *)
Section relay_config.
Context {P : PeerIdLib} {M : MultiaddrLib}.

Inductive RateLimiter : Type :=
| PerPeer (limiter : GenericRateLimiter PeerId)
| PerIp (limiter : GenericRateLimiter IpAddr).

Definition multiaddr_to_ip (addr : Multiaddr) : option IpAddr :=
  head (omap (fun p => match p with Ip4 a => Some (V4 a) | Ip6 a => Some (V6 a) | _ => None end)
    (addr_iter addr)).

Definition new_per_peer (limit interval : Z) : run RateLimiter :=
  let! l := rl_new limit interval in Ret (PerPeer l).

Definition new_per_ip (limit interval : Z) : run RateLimiter :=
  let! l := rl_new limit interval in Ret (PerIp l).

Definition limiter_try_next (r : RateLimiter) (peer : PeerId) (addr : Multiaddr) (now : Z) : run (bool * RateLimiter) :=
  match r with
  | PerPeer l => let! (b, l) := try_next l peer now in Ret (b, PerPeer l)
  | PerIp l =>
      match multiaddr_to_ip addr with
      | Some ip => let! (b, l) := try_next l ip now in Ret (b, PerIp l)
      | None => Ret (true, r)
      end
  end.

(** [libp2p_relay::Config]. *)
Record RelayConfig := {
  rc_max_reservations : Z;
  rc_max_reservations_per_peer : Z;
  rc_reservation_duration : Z;
  rc_reservation_rate_limiters : list RateLimiter;
  rc_max_circuits : Z;
  rc_max_circuits_per_peer : Z;
  rc_max_circuit_duration : Z;
  rc_max_circuit_bytes : Z;
  rc_circuit_src_rate_limiters : list RateLimiter;
}.

Definition from_secs (s : Z) : Z := s * 1000000000.

Definition push_reservation_limiter (r : RateLimiter) (cfg : RelayConfig) : RelayConfig := {|
  rc_max_reservations := rc_max_reservations cfg;
  rc_max_reservations_per_peer := rc_max_reservations_per_peer cfg;
  rc_reservation_duration := rc_reservation_duration cfg;
  rc_reservation_rate_limiters := rc_reservation_rate_limiters cfg ++ [r];
  rc_max_circuits := rc_max_circuits cfg;
  rc_max_circuits_per_peer := rc_max_circuits_per_peer cfg;
  rc_max_circuit_duration := rc_max_circuit_duration cfg;
  rc_max_circuit_bytes := rc_max_circuit_bytes cfg;
  rc_circuit_src_rate_limiters := rc_circuit_src_rate_limiters cfg |}.

Definition push_circuit_limiter (r : RateLimiter) (cfg : RelayConfig) : RelayConfig := {|
  rc_max_reservations := rc_max_reservations cfg;
  rc_max_reservations_per_peer := rc_max_reservations_per_peer cfg;
  rc_reservation_duration := rc_reservation_duration cfg;
  rc_reservation_rate_limiters := rc_reservation_rate_limiters cfg;
  rc_max_circuits := rc_max_circuits cfg;
  rc_max_circuits_per_peer := rc_max_circuits_per_peer cfg;
  rc_max_circuit_duration := rc_max_circuit_duration cfg;
  rc_max_circuit_bytes := rc_max_circuit_bytes cfg;
  rc_circuit_src_rate_limiters := rc_circuit_src_rate_limiters cfg ++ [r] |}.

(** [if let Some(limit) = NonZeroU32::new(rate) { cfg = push(limit, interval) }]. *)
Definition with_rate (rate : Z) (make : Z -> Z -> run RateLimiter) (interval : Z)
    (push : RateLimiter -> RelayConfig -> RelayConfig) (cfg : RelayConfig) : run RelayConfig :=
  if decide (rate = 0) then Ret cfg
  else let! r := make rate interval in Ret (push r cfg).

Definition to_libp2p_config (c : RelayServiceConfig) : run RelayConfig :=
  let cfg := {|
    rc_max_reservations := max_reservations c;
    rc_max_reservations_per_peer := max_reservations_per_peer c;
    rc_reservation_duration := from_secs (reservation_duration_secs c);
    rc_reservation_rate_limiters := [];
    rc_max_circuits := max_circuits c;
    rc_max_circuits_per_peer := max_circuits_per_peer c;
    rc_max_circuit_duration := from_secs (Z.min (max_circuit_duration_secs c) u32_max);
    rc_max_circuit_bytes := max_circuit_bytes c;
    rc_circuit_src_rate_limiters := [] |} in
  let minute := from_secs 60 in
  let! cfg := with_rate (reservation_rate_per_peer_per_min c) new_per_peer minute push_reservation_limiter cfg in
  let! cfg := with_rate (reservation_rate_per_ip_per_min c) new_per_ip minute push_reservation_limiter cfg in
  let! cfg := with_rate (circuit_rate_per_peer_per_min c) new_per_peer minute push_circuit_limiter cfg in
  with_rate (circuit_rate_per_ip_per_min c) new_per_ip minute push_circuit_limiter cfg.
End relay_config.

(** * Facts

    Facts about the relay's token buckets: they never panic, a fresh id may
    spend its whole limit at once, and over any period an id is admitted at
    most its limit plus one call per elapsed interval. *)

Section limiter_facts.
Context {Id : Type} `{Countable Id}.
Implicit Types (l : GenericRateLimiter Id) (id : Id).

(** The buckets and the schedule name the same ids, once each; the schedule is
    sorted by its times, none after [now]; a bucket is kept only below the limit. *)
Record rl_wf (now : Z) l : Prop := {
  wf_limit : 1 <= rl_limit l <= u32_max;
  wf_interval : exists k, 0 < k /\ rl_interval l = 1000 * k;
  wf_ids : NoDup (rl_refill_schedule l).*2;
  wf_dom : forall id, is_Some (rl_buckets l !! id) <-> id ∈ (rl_refill_schedule l).*2;
  wf_balance : map_Forall (fun _ b => 0 <= b < rl_limit l) (rl_buckets l);
  wf_sorted : StronglySorted Z.le (rl_refill_schedule l).*1;
  wf_past : Forall (fun t => t <= now) (rl_refill_schedule l).*1;
}.

Lemma rl_wf_later now now' l : now <= now' -> rl_wf now l -> rl_wf now' l.
Proof. intros Hn []. split; try done. eapply Forall_impl; [done|]. cbn. lia. Qed.

Lemma sorted_snoc (ts : list Z) t :
  StronglySorted Z.le ts -> Forall (fun x => x <= t) ts -> StronglySorted Z.le (ts ++ [t]).
Proof.
  induction ts as [|x ts IH]; cbn; intros Hs Ht.
  - constructor; constructor.
  - apply StronglySorted_cons in Hs as [Hx Hs]. apply Forall_cons in Ht as [Hxt Ht].
    apply StronglySorted_cons. split; [|auto]. apply Forall_app. by repeat constructor.
Qed.

(** With an interval of whole microseconds the refill adds the elapsed
    intervals, short of the overflow guards. *)
Lemma new_tokens_le d k : 0 <= d -> 0 < k -> 0 <= new_tokens d (1000 * k) <= d / (1000 * k).
Proof.
  intros Hd Hk. unfold new_tokens, as_micros.
  replace (1000 * k / 1000) with k by mlia. rewrite decide_False by lia.
  rewrite Z.div_div by lia. assert (0 <= d / (1000 * k)) by (apply Z.div_pos; lia).
  case_decide; ulia.
Qed.

Definition due (now interval : Z) (e : Z * Id) : bool := bool_decide (interval <= duration_since now e.1).

Definition due_count (now : Z) (r : run (GenericRateLimiter Id)) : nat :=
  match r with Panic => 0 | Ret l => length (filter (fun e => due now (rl_interval l) e) (rl_refill_schedule l)) end.

(** What one iteration of [refill] does, in a well-formed state. *)
Lemma refill_step_spec now l r :
  rl_wf now l -> refill_step now (Ret l) = Some r ->
  exists last id rest b, rl_refill_schedule l = (last, id) :: rest /\ rl_buckets l !! id = Some b /\
    rl_interval l <= now - last /\
    let nb := sat_add u32_max b (new_tokens (now - last) (rl_interval l)) in
    r = Ret (if decide (nb < rl_limit l)
      then {| rl_limit := rl_limit l; rl_interval := rl_interval l;
              rl_refill_schedule := rest ++ [(now, id)]; rl_buckets := <[id := nb]> (rl_buckets l) |}
      else {| rl_limit := rl_limit l; rl_interval := rl_interval l;
              rl_refill_schedule := rest; rl_buckets := delete id (rl_buckets l) |}).
Proof.
  intros Hwf. cbn [refill_step]. destruct (rl_refill_schedule l) as [|[last id] rest] eqn:Es; [done|].
  pose proof (wf_past _ _ Hwf) as Hp. rewrite Es in Hp. apply Forall_cons in Hp as [Hp _]. cbn in Hp.
  unfold duration_since. rewrite Z.max_r by lia. case_decide as Hd; [|done]. intros [= <-].
  assert (is_Some (rl_buckets l !! id)) as [b Hb] by (apply (wf_dom _ _ Hwf); rewrite Es; by left).
  exists last, id, rest, b. split_and!; try done. rewrite Hb. cbn. by case_decide.
Qed.

Lemma refill_step_wf now l r :
  rl_wf now l -> refill_step now (Ret l) = Some r -> exists l', r = Ret l' /\ rl_wf now l'.
Proof.
  intros Hwf (last & id & rest & b & Es & Hb & Hd & ->)%refill_step_spec; [|done]. cbv zeta.
  destruct Hwf as [Hl [k [Hk Hi]] Hnd Hdom Hbal Hs Hp]. rewrite Es in *. cbn in *.
  apply NoDup_cons in Hnd as [Hid Hnd]. apply StronglySorted_cons in Hs as [Hlast Hs].
  apply Forall_cons in Hp as [Hp0 Hp]. pose proof (Hbal _ _ Hb) as Hb0. cbn in Hb0.
  pose proof (new_tokens_le (now - last) k ltac:(lia) Hk) as Ht. rewrite <- Hi in Ht.
  case_decide as Hc; (eexists; split; [done|]).
  - split; cbn; eauto; rewrite ?fmap_app; cbn.
    + apply NoDup_app. split_and!; [done| |repeat constructor; set_solver].
      intros x Hx ->%list_elem_of_singleton. done.
    + intros id'. rewrite elem_of_app, list_elem_of_singleton, lookup_insert_is_Some', Hdom, elem_of_cons. naive_solver.
    + apply map_Forall_insert_2; [ulia|done].
    + by apply sorted_snoc.
    + apply Forall_app. split; [done|]. repeat constructor. lia.
  - split; cbn; eauto.
    + intros id'. rewrite lookup_delete_is_Some, Hdom, elem_of_cons. split; [naive_solver|].
      intros Hin. split; [by intros ->|by right].
    + by apply map_Forall_delete.
Qed.

Lemma refill_step_due now l r :
  rl_wf now l -> refill_step now (Ret l) = Some r -> (due_count now r < due_count now (Ret l))%nat.
Proof.
  intros Hwf (last & id & rest & b & Es & Hb & Hd & ->)%refill_step_spec; [|done].
  destruct (wf_interval _ _ Hwf) as (k & Hk & Hi).
  unfold due_count. rewrite Es.
  assert (Hhead : due now (rl_interval l) (last, id) = true).
  { unfold due, duration_since. cbn. apply bool_decide_eq_true. lia. }
  rewrite filter_cons_True by by rewrite Hhead.
  case_decide; cbn [rl_refill_schedule rl_interval length]; [|lia].
  rewrite filter_app, length_app, filter_cons_False; [cbn; lia|].
  unfold due, duration_since. cbn. intros Hbad%Is_true_true. apply bool_decide_eq_true in Hbad. lia.
Qed.

(** [refill] never panics, and leaves no bucket that is due. *)
Lemma refill_wf now l :
  rl_wf now l -> exists l', refill l now = Ret l' /\ rl_wf now l' /\
    Forall (fun t => now - t < rl_interval l') (rl_refill_schedule l').*1.
Proof.
  intros Hwf. unfold refill.
  destruct (loop_inv_exits (refill_step now) (fun r => exists l', r = Ret l' /\ rl_wf now l')
    (due_count now) (length (rl_refill_schedule l)) (Ret l)) as [(l' & -> & Hwf') Hexit].
  - intros r r' (l1 & -> & Hwf1) Hr. split; [by eapply refill_step_wf|by apply refill_step_due].
  - eauto.
  - unfold due_count. apply length_filter.
  - exists l'. split_and!; [done..|]. cbn in Hexit. pose proof (wf_past _ _ Hwf') as Hp.
    pose proof (wf_sorted _ _ Hwf') as Hs.
    destruct (rl_refill_schedule l') as [|[t id] rest]; [constructor|]. cbn in *.
    case_decide as Hd; [done|]. apply Forall_cons in Hp as [Hp0 Hp]. apply StronglySorted_cons in Hs as [Hs _].
    unfold duration_since in Hd. constructor; [lia|]. eapply Forall_impl; [done|]. cbn. lia.
Qed.

(** An invariant of the iterations of [refill] holds after it. *)
Lemma refill_ind (Q : GenericRateLimiter Id -> Prop) now l l' :
  (forall a b, rl_wf now a -> Q a -> refill_step now (Ret a) = Some (Ret b) -> Q b) ->
  rl_wf now l -> Q l -> refill l now = Ret l' -> Q l'.
Proof.
  intros HQ Hwf Hl Hr.
  assert (exists a, loop (refill_step now) (length (rl_refill_schedule l)) (Ret l) = Ret a /\ rl_wf now a /\ Q a)
    as (a & Ha & _ & Hq).
  { apply (loop_inv (refill_step now) (fun r => exists a, r = Ret a /\ rl_wf now a /\ Q a)); [|eauto].
    intros r r' (a & -> & Hwa & Hqa) Hs. destruct (refill_step_wf _ _ _ Hwa Hs) as (b & -> & Hwb). eauto 6. }
  unfold refill in Hr. congruence.
Qed.

(** * The admission bound

    [credit_le l id now until c]: from state [l] at time [now], [id] can be
    admitted at most [c] times up to [until]. *)
Definition credit_le l id (now until c : Z) : Prop :=
  (rl_buckets l !! id = None -> rl_limit l + (until - now) / rl_interval l <= c) /\
  (forall b last, rl_buckets l !! id = Some b -> (last, id) ∈ rl_refill_schedule l ->
     b + (until - last) / rl_interval l <= c).

Lemma div_split a b k : 0 < k -> a / k + b / k <= (a + b) / k.
Proof.
  intros Hk. apply Z.div_le_lower_bound; [done|].
  pose proof (Z.mul_div_le a k Hk). pose proof (Z.mul_div_le b k Hk). lia.
Qed.

Lemma refill_step_credit now until l l' id c :
  rl_wf now l -> now <= until -> credit_le l id now until c ->
  refill_step now (Ret l) = Some (Ret l') -> credit_le l' id now until c.
Proof.
  intros Hwf Hu [Hn Hs] (last & id0 & rest & b & Es & Hb & Hd & Hr)%refill_step_spec; [|done].
  injection Hr as ->. destruct (wf_interval _ _ Hwf) as (k & Hk & Hi).
  pose proof (new_tokens_le (now - last) k ltac:(lia) Hk) as Ht. rewrite <- Hi in Ht.
  pose proof (div_split (now - last) (until - now) (rl_interval l) ltac:(lia)) as Hsplit.
  replace (now - last + (until - now)) with (until - last) in Hsplit by lia.
  pose proof (wf_ids _ _ Hwf) as Hnd. rewrite Es in Hs, Hnd. cbn in Hnd. apply NoDup_cons in Hnd as [Hid Hnd].
  assert (Hrest : forall t, (t, id0) ∈ rest -> False).
  { intros t Hin. apply Hid. apply list_elem_of_fmap. by exists (t, id0). }
  destruct (decide (id = id0)) as [->|Hne].
  - pose proof (Hs b last Hb ltac:(by left)). case_decide as Hc; (split; cbn).
    + by rewrite lookup_insert_eq.
    + intros b' t. rewrite lookup_insert_eq. intros [= <-]. rewrite elem_of_app, list_elem_of_singleton.
      intros [?%Hrest|[= ->]]; [done|]. ulia.
    + intros _. ulia.
    + by rewrite lookup_delete_eq.
  - case_decide; (split; cbn; [rewrite ?lookup_insert_ne, ?lookup_delete_ne by done; auto|]);
      intros b' t; rewrite ?lookup_insert_ne, ?lookup_delete_ne by done; intros Hb' Hin; apply (Hs b' t Hb');
      rewrite ?elem_of_app, ?list_elem_of_singleton in Hin; right; naive_solver.
Qed.

Lemma credit_later l id now now' until c :
  rl_wf now l -> now <= now' -> credit_le l id now until c -> credit_le l id now' until c.
Proof.
  intros Hwf Hn [Hnone Hsome]. split; [|done]. intros Hb. specialize (Hnone Hb).
  destruct (wf_interval _ _ Hwf) as (k & Hk & Hi).
  pose proof (Z.div_le_mono (until - now') (until - now) (rl_interval l) ltac:(lia) ltac:(lia)). lia.
Qed.

(** After a refill every id has at most its limit and the intervals to come. *)
Lemma credit_after_refill l id now until :
  rl_wf now l -> Forall (fun t => now - t < rl_interval l) (rl_refill_schedule l).*1 -> now <= until ->
  credit_le l id now until (rl_limit l + (until - now) / rl_interval l).
Proof.
  intros Hwf Hd Hu. split; [lia|]. intros b last Hb Hin.
  destruct (wf_interval _ _ Hwf) as (k & Hk & Hi). pose proof (wf_balance _ _ Hwf _ _ Hb) as Hb0. cbn in Hb0.
  rewrite Forall_forall in Hd. specialize (Hd last (list_elem_of_fmap_2 fst _ _ Hin)).
  pose proof (Z.div_le_mono (until - last) (until - now + 1 * rl_interval l) (rl_interval l) ltac:(lia) ltac:(lia)) as Hm.
  rewrite Z.div_add in Hm by lia. lia.
Qed.

Definition spent (b : bool) : Z := if b then 1 else 0.

Lemma take_token_wf l id now : rl_wf now l -> rl_wf now (take_token l id now).2.
Proof.
  intros [Hl Hi Hnd Hdom Hbal Hs Hp]. unfold take_token. destruct (rl_buckets l !! id) as [b|] eqn:Hb.
  - pose proof (Hbal _ _ Hb) as Hb0. cbn in Hb0. case_decide; [|done].
    split; cbn; try done; [|apply map_Forall_insert_2; [lia|done]].
    intros id'. rewrite lookup_insert_is_Some', Hdom. split; [|auto]. intros [<-|?]; [|done]. by apply Hdom.
  - split; cbn; try done; rewrite ?fmap_app; cbn.
    + apply NoDup_app. split_and!; [done| |repeat constructor; set_solver].
      intros x Hx ->%list_elem_of_singleton. apply Hdom in Hx. rewrite Hb in Hx. by destruct Hx.
    + intros id'. rewrite elem_of_app, list_elem_of_singleton, lookup_insert_is_Some', Hdom. naive_solver.
    + apply map_Forall_insert_2; [lia|done].
    + by apply sorted_snoc.
    + apply Forall_app. split; [done|]. by repeat constructor.
Qed.

Lemma take_token_credit l id now id' until c :
  rl_wf now l -> now <= until -> credit_le l id' now until c ->
  credit_le (take_token l id now).2 id' now until
    (if decide (id = id') then c - spent (take_token l id now).1 else c).
Proof.
  intros Hwf Hu [Hn Hs]. unfold take_token. destruct (rl_buckets l !! id) as [b|] eqn:Hb.
  - destruct (decide (1 <= b)); cbn [fst snd]; (case_decide as Heq; [subst id'|]).
    + split; cbn; [by rewrite lookup_insert_eq|]. intros b' t. rewrite lookup_insert_eq. intros [= <-] Hin.
      specialize (Hs b t Hb Hin). lia.
    + split; cbn; rewrite lookup_insert_ne by done; auto.
    + split; [congruence|]. intros b' t Hb' Hin. specialize (Hs b' t Hb' Hin). cbn. lia.
    + split; auto.
  - case_decide as Heq; [subst id'|]; cbn [fst snd].
    + specialize (Hn Hb). split; cbn; [by rewrite lookup_insert_eq|]. intros b' t. rewrite lookup_insert_eq.
      intros [= <-]. rewrite elem_of_app, list_elem_of_singleton. intros [Hin|[= ->]]; [|lia].
      apply (list_elem_of_fmap_2 snd) in Hin. cbn in Hin. apply (wf_dom _ _ Hwf) in Hin. rewrite Hb in Hin. by destruct Hin.
    + split; cbn; rewrite lookup_insert_ne by done; auto.
      intros b' t Hb'. rewrite elem_of_app, list_elem_of_singleton. intros [?|[= -> ->]]; [eauto|done].
Qed.

Lemma try_next_spec now0 now l id :
  rl_wf now0 l -> now0 <= now ->
  exists l1, refill l now = Ret l1 /\ try_next l id now = Ret (take_token l1 id now) /\ rl_wf now l1 /\
    rl_wf now (take_token l1 id now).2 /\ Forall (fun t => now - t < rl_interval l1) (rl_refill_schedule l1).*1 /\
    rl_limit l1 = rl_limit l /\ rl_interval l1 = rl_interval l.
Proof.
  intros Hwf Hn. apply (rl_wf_later _ now) in Hwf; [|done].
  destruct (refill_wf now l Hwf) as (l1 & Hr & Hwf1 & Hd). exists l1. split_and!; try done.
  - unfold try_next. by rewrite Hr.
  - by apply take_token_wf.
  - refine (refill_ind (fun a => rl_limit a = rl_limit l) now l l1 _ Hwf eq_refl Hr).
    intros a b Ha <- (? & ? & ? & ? & ? & ? & ? & Hb)%refill_step_spec; [|done]. injection Hb as ->. by case_decide.
  - refine (refill_ind (fun a => rl_interval a = rl_interval l) now l l1 _ Hwf eq_refl Hr).
    intros a b Ha <- (? & ? & ? & ? & ? & ? & ? & Hb)%refill_step_spec; [|done]. injection Hb as ->. by case_decide.
Qed.

(** The calls that were admitted for [id]. *)
Definition admitted id (calls : list (Id * Z)) (answers : list bool) : Z :=
  len (filter (fun x => x.1.1 = id /\ x.2 = true) (zip calls answers)).

Lemma admitted_cons id call calls b bs :
  admitted id (call :: calls) (b :: bs) = (if decide (call.1 = id) then spent b else 0) + admitted id calls bs.
Proof.
  unfold admitted, len. cbn [zip zip_with]. destruct (decide (call.1 = id)) as [Hid|Hid].
  - destruct b; [rewrite filter_cons_True by done; cbn [length spent]; lia|].
    rewrite filter_cons_False; [cbn [spent]; lia|]. by intros [_ ?].
  - rewrite filter_cons_False; [lia|]. by intros [? _].
Qed.

(** A run from a state in which [id] has credit [c] admits it at most [c] times. *)
Lemma try_all_credit calls l now0 id until c :
  rl_wf now0 l -> StronglySorted Z.le (now0 :: calls.*2) -> Forall (fun t => t <= until) calls.*2 ->
  now0 <= until -> credit_le l id now0 until c ->
  exists bs l', try_all l calls = Ret (bs, l') /\ length bs = length calls /\ admitted id calls bs <= c.
Proof.
  revert l now0 c. induction calls as [|[i now] calls IH]; intros l now0 c Hwf Hs Hu Hn Hc.
  - exists [], l. split_and!; try done. cbn. destruct Hc as [Hnone Hsome].
    destruct (rl_buckets l !! id) as [b|] eqn:Hb.
    + assert (is_Some (rl_buckets l !! id)) as Hin%(wf_dom _ _ Hwf) by eauto.
      apply list_elem_of_fmap in Hin as ([t i] & -> & Hin). cbn in *.
      pose proof (Hsome b t eq_refl Hin). pose proof (wf_balance _ _ Hwf _ _ Hb) as Hb0. cbn in Hb0.
      destruct (wf_interval _ _ Hwf) as (k & Hk & Hi).
      pose proof (wf_past _ _ Hwf) as Hp. rewrite Forall_forall in Hp.
      specialize (Hp t (list_elem_of_fmap_2 fst _ _ Hin)). cbn in Hp.
      assert (0 <= (until - t) / rl_interval l) by (apply Z.div_pos; lia). unfold admitted, len. cbn. lia.
    + specialize (Hnone eq_refl). pose proof (wf_limit _ _ Hwf).
      destruct (wf_interval _ _ Hwf) as (k & Hk & Hi).
      assert (0 <= (until - now0) / rl_interval l) by (apply Z.div_pos; lia). unfold admitted, len. cbn. lia.
  - cbn in Hs, Hu. apply StronglySorted_cons in Hs as [Hle Hs]. apply Forall_cons in Hle as [Hle _].
    apply Forall_cons in Hu as [Hun Hu].
    destruct (try_next_spec now0 now l i Hwf Hle) as (l1 & Hr & Ht & Hwf1 & Hwf2 & _ & _ & _).
    pose proof (rl_wf_later _ _ _ Hle Hwf) as Hwfn.
    assert (Hc1 : credit_le l1 id now until c).
    { refine (refill_ind (fun a => credit_le a id now until c) now l l1 _ Hwfn _ Hr).
      - intros a b Ha Hca Hab. by eapply refill_step_credit.
      - exact (credit_later l id now0 now until c Hwf Hle Hc). }
    pose proof (take_token_credit l1 i now id until c Hwf1 Hun Hc1) as Hc2.
    destruct (IH _ now _ Hwf2 Hs Hu Hun Hc2) as (bs & l' & Hall & Hlen & Hadm).
    exists ((take_token l1 i now).1 :: bs), l'. split_and!.
    + cbn. rewrite Ht. cbn. destruct (take_token l1 i now) as [b l2]. cbn in *. by rewrite Hall.
    + cbn. by rewrite Hlen.
    + rewrite admitted_cons. cbn [fst]. repeat case_decide; lia.
Qed.

Lemma rl_new_wf limit k now l :
  1 <= limit <= u32_max -> 0 < k -> rl_new (Id := Id) limit (1000 * k) = Ret l ->
  rl_wf now l /\ rl_limit l = limit /\ rl_interval l = 1000 * k.
Proof.
  intros Hl Hk. unfold rl_new. case_decide; [lia|]. intros [= <-].
  split; [|done]. split; cbn; eauto; try by constructor.
  - intros id. rewrite lookup_empty. split; [by intros []|]. by intros ?%elem_of_nil.
Qed.

(** Any period: the refill of its first call leaves no more than the limit. *)
Lemma try_all_window calls l now0 id from until :
  rl_wf now0 l -> StronglySorted Z.le (now0 :: calls.*2) ->
  Forall (fun c => from <= c.2 <= until) calls -> from <= until ->
  exists bs l', try_all l calls = Ret (bs, l') /\ length bs = length calls /\
    admitted id calls bs <= rl_limit l + (until - from) / rl_interval l.
Proof.
  intros Hwf Hs Hw Hfu. destruct (wf_interval _ _ Hwf) as (k & Hk & Hi). pose proof (wf_limit _ _ Hwf).
  destruct calls as [|[i now] calls].
  { exists [], l. split_and!; try done. assert (0 <= (until - from) / rl_interval l) by (apply Z.div_pos; lia).
    unfold admitted, len. cbn. lia. }
  cbn in Hs. apply StronglySorted_cons in Hs as [Hle Hs]. apply Forall_cons in Hle as [Hle _].
  apply Forall_cons in Hw as [Hnow Hw]. cbn in Hnow.
  destruct (try_next_spec now0 now l i Hwf Hle) as (l1 & _ & Ht & Hwf1 & Hwf2 & Hd & Hlim & Hint).
  pose proof (credit_after_refill l1 id now until Hwf1 Hd ltac:(lia)) as Hc.
  pose proof (take_token_credit l1 i now id until _ Hwf1 ltac:(lia) Hc) as Hc2.
  assert (Hu : Forall (fun t => t <= until) calls.*2).
  { apply Forall_fmap. eapply Forall_impl; [exact Hw|]. cbn. lia. }
  destruct (try_all_credit calls _ now id until _ Hwf2 Hs Hu (proj2 Hnow) Hc2) as (bs & l' & Hall & Hlen & Hadm).
  exists ((take_token l1 i now).1 :: bs), l'. split_and!.
  - cbn. rewrite Ht. cbn. destruct (take_token l1 i now) as [b l2]. cbn in *. by rewrite Hall.
  - cbn. by rewrite Hlen.
  - rewrite admitted_cons. cbn [fst]. rewrite Hlim, Hint in Hadm.
    pose proof (Z.div_le_mono (until - now) (until - from) (rl_interval l) ltac:(lia) ltac:(lia)).
    repeat case_decide; lia.
Qed.

(** The run over a prefix of the calls, then over the rest. *)
Lemma try_all_app calls1 calls2 l :
  try_all l (calls1 ++ calls2) =
  let! (bs1, l1) := try_all l calls1 in
  let! (bs2, l2) := try_all l1 calls2 in
  Ret (bs1 ++ bs2, l2).
Proof.
  revert l. induction calls1 as [|[i now] calls1 IH]; intros l; cbn.
  - by destruct (try_all l calls2) as [[]|].
  - destruct (try_next l i now) as [[b l1]|]; cbn; [|done]. rewrite IH.
    destruct (try_all l1 calls1) as [[bs1 l2]|]; cbn; [|done]. by destruct (try_all l2 calls2) as [[]|].
Qed.

Lemma last_cons (t : Z) ts d : List.last (t :: ts) d = List.last ts t.
Proof. revert t d. induction ts as [|a ts IH]; intros t d; [done|]. by rewrite (IH a t), <- (IH a d). Qed.

Lemma sorted_app (ts us : list Z) d :
  StronglySorted Z.le (d :: ts ++ us) ->
  StronglySorted Z.le (d :: ts) /\ StronglySorted Z.le (List.last ts d :: us).
Proof.
  revert d. induction ts as [|t ts IH]; intros d Hs; [split; [by repeat constructor|done]|].
  cbn in Hs. apply StronglySorted_cons in Hs as [Hd Hs]. rewrite last_cons. destruct (IH t Hs) as [H1 H2].
  split; [|done]. apply StronglySorted_cons. split; [|done].
  apply Forall_cons in Hd as [? [? _]%Forall_app]. by constructor.
Qed.

(** A run never panics, and its final state is well formed. *)
Lemma try_all_wf calls l now0 :
  rl_wf now0 l -> StronglySorted Z.le (now0 :: calls.*2) ->
  exists bs l', try_all l calls = Ret (bs, l') /\ length bs = length calls /\
    rl_wf (List.last calls.*2 now0) l' /\ rl_limit l' = rl_limit l /\ rl_interval l' = rl_interval l.
Proof.
  revert l now0. induction calls as [|[i now] calls IH]; intros l now0 Hwf Hs; [by exists [], l|].
  cbn in Hs. apply StronglySorted_cons in Hs as [Hle Hs]. apply Forall_cons in Hle as [Hle _].
  destruct (try_next_spec now0 now l i Hwf Hle) as (l1 & _ & Ht & _ & Hwf2 & _ & Hlim & Hint).
  destruct (IH _ now Hwf2 Hs) as (bs & l' & Hall & Hlen & Hwf' & Hl' & Hi').
  exists ((take_token l1 i now).1 :: bs), l'. split_and!.
  - cbn. rewrite Ht. cbn. destruct (take_token l1 i now) as [b l2]. cbn in *. by rewrite Hall.
  - cbn. by rewrite Hlen.
  - cbn [fmap list_fmap snd]. by rewrite last_cons.
  - rewrite Hl', <- Hlim. unfold take_token. by repeat case_match.
  - rewrite Hi', <- Hint. unfold take_token. by repeat case_match.
Qed.

(** The balance of an id, all of its limit while it has no bucket. *)
Definition balance l id : Z := default (rl_limit l) (rl_buckets l !! id).

Lemma refill_balance now l l1 id : rl_wf now l -> refill l now = Ret l1 -> balance l id <= balance l1 id.
Proof.
  intros Hwf Hr. refine (proj2 (refill_ind (fun a => rl_limit a = rl_limit l /\ balance l id <= balance a id)
    now l l1 _ Hwf _ Hr)); [|done].
  intros a b Ha [Hlim Hle] (last & i & rest & x & Es & Hx & Hd & Hb)%refill_step_spec; [|done].
  injection Hb as ->. destruct (wf_interval _ _ Ha) as (k & Hk & Hi).
  pose proof (new_tokens_le (now - last) k ltac:(lia) Hk) as Ht. rewrite <- Hi in Ht.
  pose proof (wf_balance _ _ Ha _ _ Hx) as Hx0. pose proof (wf_limit _ _ Ha). cbn in Hx0.
  unfold balance in *. case_decide; (split; [done|]); cbn; destruct (decide (i = id)) as [->|Hne];
    rewrite ?lookup_insert_eq, ?lookup_delete_eq, ?lookup_insert_ne, ?lookup_delete_ne by done; try done;
    rewrite Hx in Hle; cbn in *; ulia.
Qed.

Definition calls_of id (calls : list (Id * Z)) : Z := len (filter (fun c => c.1 = id) calls).

(** As long as an id has called less often than it has tokens, it is admitted. *)
Lemma try_all_admits calls l now0 bs l' i id now :
  rl_wf now0 l -> StronglySorted Z.le (now0 :: calls.*2) -> try_all l calls = Ret (bs, l') ->
  calls !! i = Some (id, now) -> calls_of id (take i calls) < balance l id -> bs !! i = Some true.
Proof.
  revert l now0 bs i. induction calls as [|[j t] calls IH]; intros l now0 bs i Hwf Hs Ht Hi Hlt; [done|].
  cbn in Hs. apply StronglySorted_cons in Hs as [Hle Hs]. apply Forall_cons in Hle as [Hle _].
  destruct (try_next_spec now0 t l j Hwf Hle) as (l1 & Hr & Hn & Hwf1 & Hwf2 & _ & Hlim & _).
  pose proof (refill_balance t l l1 id (rl_wf_later _ _ _ Hle Hwf) Hr) as Hb.
  cbn in Ht. rewrite Hn in Ht. cbn in Ht. destruct (take_token l1 j t) as [b l2] eqn:Etok.
  destruct (try_all l2 calls) as [[bs2 l3]|] eqn:Eall; [|done]. cbn in Ht. injection Ht as <- <-.
  unfold take_token in Etok. destruct i as [|i]; cbn in Hi |- *.
  - injection Hi as -> ->. unfold calls_of, len in Hlt. cbn in Hlt. unfold balance in *.
    repeat case_match; simplify_eq/=; auto; lia.
  - apply (IH l2 t bs2 i Hwf2 Hs Eall Hi).
    assert (balance l1 id <= balance l2 id + (if decide (j = id) then 1 else 0)) as Hb2.
    { clear Hlt Hb. unfold balance. destruct (rl_buckets l1 !! j) as [x|] eqn:Hx; [destruct (decide (1 <= x))|];
        injection Etok as <- <-; cbn; case_decide as Hj; try (subst j; rewrite Hx);
        rewrite ?lookup_insert_eq, ?lookup_insert_ne by done; cbn; lia. }
    unfold calls_of, len in *. cbn [take] in Hlt. case_decide as Hj.
    + rewrite filter_cons_True in Hlt by done. cbn [length] in Hlt. lia.
    + rewrite filter_cons_False in Hlt by done. lia.
Qed.

(** The relay's token bucket, whatever the calls (in the order of a clock
    that does not go back): it never panics; it admits an id that has made
    fewer calls than the limit so far; and over any period from [from] to
    [until], whatever came before, it admits an id at most [limit] times plus
    once per interval elapsed. *)
Theorem rate_limiter_admission (limit k first from until : Z) (calls1 calls2 : list (Id * Z)) (id : Id) :
  1 <= limit <= u32_max -> 0 < k -> StronglySorted Z.le (first :: (calls1 ++ calls2).*2) ->
  Forall (fun c => from <= c.2 <= until) calls2 -> from <= until ->
  exists l bs1 bs2 l',
    rl_new limit (1000 * k) = Ret l /\ try_all l (calls1 ++ calls2) = Ret (bs1 ++ bs2, l') /\
    length bs1 = length calls1 /\ length bs2 = length calls2 /\
    admitted id calls2 bs2 <= limit + (until - from) / (1000 * k) /\
    (forall i now, (calls1 ++ calls2) !! i = Some (id, now) ->
       calls_of id (take i (calls1 ++ calls2)) < limit -> (bs1 ++ bs2) !! i = Some true).
Proof.
  intros Hl Hk Hs Hw Hfu. destruct (rl_new limit (1000 * k)) as [l|] eqn:En.
  2: { unfold rl_new in En. case_decide; [lia|done]. }
  destruct (rl_new_wf limit k first l Hl Hk En) as (Hwf & Hlim & Hint).
  pose proof Hs as Hs0. rewrite fmap_app in Hs. apply sorted_app in Hs as [Hs1 Hs2].
  destruct (try_all_wf calls1 l first Hwf Hs1) as (bs1 & l1 & H1 & Hlen1 & Hwf1 & Hlim1 & Hint1).
  destruct (try_all_window calls2 l1 _ id from until Hwf1 Hs2 Hw Hfu) as (bs2 & l2 & H2 & Hlen2 & Hadm).
  assert (Hall : try_all l (calls1 ++ calls2) = Ret (bs1 ++ bs2, l2)).
  { rewrite try_all_app, H1. cbn. by rewrite H2. }
  exists l, bs1, bs2, l2. split_and!; try done; [congruence|]. intros i now Hi Hlt.
  apply (try_all_admits _ l first _ l2 i id now Hwf Hs0 Hall Hi). unfold balance, rl_new in *.
  case_decide; [done|]. injection En as <-. cbn. by rewrite lookup_empty.
Qed.
End limiter_facts.

(** * The rates of the relay configuration *)
Section relay_rates.
Context {P : PeerIdLib} {M : MultiaddrLib}.

Lemma with_rate_ret rate make interval push cfg :
  (forall r, exists l, make r interval = Ret l) -> exists cfg', with_rate rate make interval push cfg = Ret cfg'.
Proof.
  intros Hm. unfold with_rate. case_decide; [eauto|]. destruct (Hm rate) as [l ->]. cbn. eauto.
Qed.

Lemma limiters_ret r : (exists l, new_per_peer r (from_secs 60) = Ret l) /\ (exists l, new_per_ip r (from_secs 60) = Ret l).
Proof. split; (eexists; unfold new_per_peer, new_per_ip, rl_new; rewrite decide_False by done; done). Qed.

Lemma with_rate_circuit rate make interval cfg cfg' :
  with_rate rate make interval push_circuit_limiter cfg = Ret cfg' ->
  rc_reservation_rate_limiters cfg' = rc_reservation_rate_limiters cfg.
Proof. unfold with_rate. case_decide; [by intros [= <-]|]. destruct (make _ _); cbn; [by intros [= <-]|done]. Qed.

Lemma with_rate_reservation rate make interval cfg cfg' :
  with_rate rate make interval push_reservation_limiter cfg = Ret cfg' ->
  exists more, rc_reservation_rate_limiters cfg' = rc_reservation_rate_limiters cfg ++ more.
Proof.
  unfold with_rate. case_decide; [intros [= <-]; exists []; by rewrite app_nil_r|].
  destruct (make _ _); cbn; [|done]. intros [= <-]. eauto.
Qed.

(** The libp2p configuration always exists, and its first reservation limiter
    is the per-peer bucket of the configured rate, refilled once a minute. *)
Lemma libp2p_config_first_limiter c :
  reservation_rate_per_peer_per_min c ≠ 0 ->
  exists cfg l rest, to_libp2p_config c = Ret cfg /\ rc_reservation_rate_limiters cfg = PerPeer l :: rest /\
    rl_new (reservation_rate_per_peer_per_min c) (1000 * 60000000) = Ret l.
Proof.
  intros Hr. unfold to_libp2p_config. set (minute := from_secs 60).
  unfold with_rate at 1. rewrite decide_False by done.
  unfold new_per_peer at 1, rl_new at 1. rewrite decide_False by done. cbn [run_bind].
  match goal with |- context [push_reservation_limiter (PerPeer ?x) ?c0] => set (l := x); set (cfg0 := c0) end.
  destruct (with_rate_ret (reservation_rate_per_ip_per_min c) new_per_ip minute push_reservation_limiter
    (push_reservation_limiter (PerPeer l) cfg0)) as [cfg1 E1]; [intros; apply limiters_ret|].
  rewrite E1. cbn [run_bind].
  destruct (with_rate_ret (circuit_rate_per_peer_per_min c) new_per_peer minute push_circuit_limiter cfg1)
    as [cfg2 E2]; [intros; apply limiters_ret|]. rewrite E2. cbn [run_bind].
  destruct (with_rate_ret (circuit_rate_per_ip_per_min c) new_per_ip minute push_circuit_limiter cfg2)
    as [cfg3 E3]; [intros; apply limiters_ret|].
  apply with_rate_circuit in E2. destruct (with_rate_reservation _ _ _ _ _ E1) as [more Em].
  exists cfg3, l, more. split_and!; [done| |].
  - apply with_rate_circuit in E3. rewrite E3, E2, Em. done.
  - unfold rl_new. by rewrite decide_False.
Qed.

(** The configured rate of reservations per peer and minute is the size of
    a burst, not a rate: a relay configured for [rate] reservations per minute
    admits a peer at most [rate + minutes] times over any number of minutes. *)
Theorem reservation_rate_per_minute_is_a_burst (c : RelayServiceConfig) (peer : PeerId)
    (calls : list (PeerId * Z)) (from minutes : Z) :
  1 <= reservation_rate_per_peer_per_min c <= u32_max -> 0 <= minutes ->
  StronglySorted Z.le (from :: calls.*2) ->
  Forall (fun call => from <= call.2 <= from + minutes * from_secs 60) calls ->
  exists cfg l rest bs l',
    to_libp2p_config c = Ret cfg /\ rc_reservation_rate_limiters cfg = PerPeer l :: rest /\
    try_all l calls = Ret (bs, l') /\
    admitted peer calls bs <= reservation_rate_per_peer_per_min c + minutes.
Proof.
  intros Hr Hm Hs Hw. destruct (libp2p_config_first_limiter c ltac:(lia)) as (cfg & l & rest & Hc & Hl & Hn).
  destruct (rl_new_wf _ 60000000 from l Hr ltac:(lia) Hn) as (Hwf & Hlim & Hint).
  destruct (try_all_window calls l from peer from (from + minutes * from_secs 60) Hwf Hs Hw)
    as (bs & l' & Hall & _ & Hadm); [unfold from_secs; lia|].
  exists cfg, l, rest, bs, l'. split_and!; try done. rewrite Hlim, Hint in Hadm. unfold from_secs in Hadm.
  replace (from + minutes * (60 * 1000000000) - from) with (minutes * (1000 * 60000000)) in Hadm by lia.
  rewrite Z.div_mul in Hadm by lia. done.
Qed.
End relay_rates.
