(* ===== verification/RelayMetering.v ===== *)
(** Relay metering: the live counters of a circuit
    (external/libp2p-relay/src/metering.rs) and the meter that identifies and
    aggregates them (crates/connectivity/relay/metering.rs).

    The counters of a circuit are shared: the data path of the relay writes
    them through one [Arc<CircuitUsage>], the meter reads them through another.
    They live in a store of counters, and an [Arc] is a reference into it. *)

From S2P Require Import Prelude Text Bytes Common.

#[local] Open Scope Z_scope.

(** * Live counters *)
Record CircuitBytes := { src_to_dst : Z; dst_to_src : Z }.

#[global] Instance CircuitBytes_eq_dec : EqDecision CircuitBytes.
Proof. solve_decision. Defined.

Definition CircuitBytes_default : CircuitBytes := {| src_to_dst := 0; dst_to_src := 0 |}.

Definition circuit_total (b : CircuitBytes) : Z := sat_add u64_max (src_to_dst b) (dst_to_src b).

(** A reference to a [CircuitUsage], and the store of the counters. *)
Notation UsageRef := Z (only parsing).
Notation Counters := (gmap Z CircuitBytes) (only parsing).

Definition usage_snapshot (h : Counters) (u : UsageRef) : CircuitBytes := default CircuitBytes_default (h !! u).

(** [Arc::new(CircuitUsage::default())] at an unused reference. *)
Definition usage_new (h : Counters) (u : UsageRef) : Counters := <[u := CircuitBytes_default]> h.

Definition record_src_to_dst (h : Counters) (u : UsageRef) (bytes : Z) : Counters :=
  let b := usage_snapshot h u in
  <[u := {| src_to_dst := sat_add u64_max (src_to_dst b) bytes; dst_to_src := dst_to_src b |}]> h.

Definition record_dst_to_src (h : Counters) (u : UsageRef) (bytes : Z) : Counters :=
  let b := usage_snapshot h u in
  <[u := {| src_to_dst := src_to_dst b; dst_to_src := sat_add u64_max (dst_to_src b) bytes |}]> h.

(** * Why a circuit ended *)
Inductive ErrorKind : Type :=
| TimedOut | ConnectionAborted | ConnectionReset | BrokenPipe | UnexpectedEof | OtherKind.

(** [std::io::Error]: its kind and its [Display] text. *)
Record IoError := { io_kind : ErrorKind; io_text : string }.

Definition MAX_CIRCUIT_BYTES_REACHED : string := "Max circuit bytes reached.".

Inductive RelayCircuitCloseReason : Type :=
| Completed
| ByteLimit
| DurationLimit
| PeerDisconnected
| TransportError (detail : string).

Definition from_error (error : option IoError) : RelayCircuitCloseReason :=
  match error with
  | None => Completed
  | Some e =>
      if decide (io_text e = MAX_CIRCUIT_BYTES_REACHED) then ByteLimit
      else match io_kind e with
           | TimedOut => DurationLimit
           | ConnectionAborted | ConnectionReset | BrokenPipe | UnexpectedEof => PeerDisconnected
           | OtherKind => TransportError (io_text e)
           end
  end.

(** * The meter *)
Definition RECENT_CLOSED_CIRCUITS : Z := 256.

Record RelayCircuitUsage := {
  circuit_id : Z;
  src_peer_id : string;
  dst_peer_id : string;
  started_at_ms : Z;
  ended_at_ms : option Z;
  bytes_src_to_dst : Z;
  bytes_dst_to_src : Z;
  close_reason : option RelayCircuitCloseReason;
}.

Definition total_transit_bytes (r : RelayCircuitUsage) : Z :=
  sat_add u64_max (bytes_src_to_dst r) (bytes_dst_to_src r).

Definition duration_ms (r : RelayCircuitUsage) : option Z :=
  (fun ended => sat_sub ended (started_at_ms r)) <$> ended_at_ms r.

Definition with_bytes (r : RelayCircuitUsage) (bytes : CircuitBytes) : RelayCircuitUsage := {|
  circuit_id := circuit_id r;
  src_peer_id := src_peer_id r;
  dst_peer_id := dst_peer_id r;
  started_at_ms := started_at_ms r;
  ended_at_ms := ended_at_ms r;
  bytes_src_to_dst := src_to_dst bytes;
  bytes_dst_to_src := dst_to_src bytes;
  close_reason := close_reason r |}.

Record ActiveCircuit := {
  ac_record : RelayCircuitUsage;
  ac_usage : UsageRef;
  ac_reported : CircuitBytes;
}.

Record RelayMeter := {
  active : gmap Z ActiveCircuit;
  closed_src_to_dst : Z;
  closed_dst_to_src : Z;
  closed_circuits : Z;
  recent_closed : list RelayCircuitUsage;
}.

Definition RelayMeter_default : RelayMeter :=
  {| active := ∅; closed_src_to_dst := 0; closed_dst_to_src := 0; closed_circuits := 0; recent_closed := [] |}.

Definition with_active (m : RelayMeter) (a : gmap Z ActiveCircuit) : RelayMeter := {|
  active := a; closed_src_to_dst := closed_src_to_dst m; closed_dst_to_src := closed_dst_to_src m;
  closed_circuits := closed_circuits m; recent_closed := recent_closed m |}.

(** [slice::sort_by_key] on the circuit id. *)
Definition circuit_le (a b : RelayCircuitUsage) : Prop := circuit_id a <= circuit_id b.
#[global] Instance circuit_le_dec : RelDecision circuit_le.
Proof. intros a b. unfold circuit_le. apply _. Defined.

Definition sort_by_circuit (l : list RelayCircuitUsage) : list RelayCircuitUsage := merge_sort circuit_le l.

Section meter.
Context {P : PeerIdLib}.

Definition open (m : RelayMeter) (h : Counters) (id : Z) (src dst : PeerId) (usage : UsageRef) (now_ms : Z)
    : RelayCircuitUsage * RelayMeter :=
  let record := with_bytes {|
    circuit_id := id;
    src_peer_id := peer_to_string src;
    dst_peer_id := peer_to_string dst;
    started_at_ms := now_ms;
    ended_at_ms := None;
    bytes_src_to_dst := 0;
    bytes_dst_to_src := 0;
    close_reason := None |} (usage_snapshot h usage) in
  (record, with_active m
     (<[id := {| ac_record := record; ac_usage := usage; ac_reported := usage_snapshot h usage |}]> (active m))).

Definition close (m : RelayMeter) (id : Z) (src dst : PeerId) (bytes : CircuitBytes) (error : option IoError)
    (now_ms : Z) : RelayCircuitUsage * RelayMeter :=
  let record := {|
    circuit_id := id;
    src_peer_id := peer_to_string src;
    dst_peer_id := peer_to_string dst;
    started_at_ms := from_option (fun a => started_at_ms (ac_record a)) now_ms (active m !! id);
    ended_at_ms := Some now_ms;
    bytes_src_to_dst := src_to_dst bytes;
    bytes_dst_to_src := dst_to_src bytes;
    close_reason := Some (from_error error) |} in
  let kept :=
    if decide (len (recent_closed m) = RECENT_CLOSED_CIRCUITS) then tail (recent_closed m)
    else recent_closed m in
  (record, {|
     active := delete id (active m);
     closed_src_to_dst := sat_add u64_max (closed_src_to_dst m) (src_to_dst bytes);
     closed_dst_to_src := sat_add u64_max (closed_dst_to_src m) (dst_to_src bytes);
     closed_circuits := sat_add u64_max (closed_circuits m) 1;
     recent_closed := kept ++ [record] |}).

(** The body of the loop of [take_changed] over [values_mut]. *)
Definition changed_usage (h : Counters) (a : ActiveCircuit) : option RelayCircuitUsage :=
  let now := usage_snapshot h (ac_usage a) in
  if decide (now = ac_reported a) then None else Some (with_bytes (ac_record a) now).

Definition mark_reported (h : Counters) (a : ActiveCircuit) : ActiveCircuit :=
  {| ac_record := ac_record a; ac_usage := ac_usage a; ac_reported := usage_snapshot h (ac_usage a) |}.

Definition take_changed (m : RelayMeter) (h : Counters) : list RelayCircuitUsage * RelayMeter :=
  (sort_by_circuit (omap (changed_usage h) (map_to_list (active m)).*2),
   with_active m (mark_reported h <$> active m)).

(** The loop of [totals], in any order of the map's values. *)
Definition add_live (h : Counters) (totals : CircuitBytes) (a : ActiveCircuit) : CircuitBytes :=
  let live := usage_snapshot h (ac_usage a) in
  {| src_to_dst := sat_add u64_max (src_to_dst totals) (src_to_dst live);
     dst_to_src := sat_add u64_max (dst_to_src totals) (dst_to_src live) |}.

Definition totals (m : RelayMeter) (h : Counters) : CircuitBytes :=
  foldl (add_live h) {| src_to_dst := closed_src_to_dst m; dst_to_src := closed_dst_to_src m |}
    (map_to_list (active m)).*2.

Definition active_circuits (m : RelayMeter) (h : Counters) : list RelayCircuitUsage :=
  sort_by_circuit ((fun a => with_bytes (ac_record a) (usage_snapshot h (ac_usage a))) <$> (map_to_list (active m)).*2).
End meter.

(** * Facts

    Facts about the relay meter: its totals are exactly the bytes forwarded on
    the circuits it meters, and its progress reports tell every change once. *)

(** * The meter beside a running data path

    [mt_forwarded] is a ghost: the exact number of bytes forwarded, per
    direction, on circuits while they were metered. *)
Section metering.
Context {P : PeerIdLib}.

Record metered := {
  mt_counters : Counters;
  mt_meter : RelayMeter;
  mt_forwarded : CircuitBytes;
}.

Definition metered_init : metered :=
  {| mt_counters := ∅; mt_meter := RelayMeter_default; mt_forwarded := CircuitBytes_default |}.

(** The data path forwards [n] bytes in one direction of a circuit. *)
Definition record_bytes (to_dst : bool) : Counters -> UsageRef -> Z -> Counters :=
  if to_dst then record_src_to_dst else record_dst_to_src.

Definition add_forwarded (to_dst : bool) (f : CircuitBytes) (n : Z) : CircuitBytes :=
  if to_dst then {| src_to_dst := src_to_dst f + n; dst_to_src := dst_to_src f |}
  else {| src_to_dst := src_to_dst f; dst_to_src := dst_to_src f + n |}.

(** A circuit is accepted with counters of its own; the data path forwards
    bytes on metered circuits, and may still do so on circuits that were closed
    or never metered; a circuit closes with the counters' last values; a close
    may be reported again, with no bytes; progress is reported at any time. *)
Inductive metered_step : metered -> metered -> Prop :=
| step_accept s id src dst u now :
    active (mt_meter s) !! id = None -> mt_counters s !! u = None ->
    metered_step s {|
      mt_counters := usage_new (mt_counters s) u;
      mt_meter := (open (mt_meter s) (usage_new (mt_counters s) u) id src dst u now).2;
      mt_forwarded := mt_forwarded s |}
| step_forward s id a to_dst n :
    active (mt_meter s) !! id = Some a -> 0 <= n ->
    metered_step s {|
      mt_counters := record_bytes to_dst (mt_counters s) (ac_usage a) n;
      mt_meter := mt_meter s;
      mt_forwarded := add_forwarded to_dst (mt_forwarded s) n |}
| step_unmetered s u to_dst n :
    is_Some (mt_counters s !! u) -> map_Forall (fun _ a => ac_usage a ≠ u) (active (mt_meter s)) -> 0 <= n ->
    metered_step s {|
      mt_counters := record_bytes to_dst (mt_counters s) u n;
      mt_meter := mt_meter s;
      mt_forwarded := mt_forwarded s |}
| step_close s id a src dst error now :
    active (mt_meter s) !! id = Some a ->
    metered_step s {|
      mt_counters := mt_counters s;
      mt_meter := (close (mt_meter s) id src dst (usage_snapshot (mt_counters s) (ac_usage a)) error now).2;
      mt_forwarded := mt_forwarded s |}
| step_close_again s id src dst error now :
    active (mt_meter s) !! id = None ->
    metered_step s {|
      mt_counters := mt_counters s;
      mt_meter := (close (mt_meter s) id src dst CircuitBytes_default error now).2;
      mt_forwarded := mt_forwarded s |}
| step_report s :
    metered_step s {|
      mt_counters := mt_counters s;
      mt_meter := (take_changed (mt_meter s) (mt_counters s)).2;
      mt_forwarded := mt_forwarded s |}.

(** * Sums of saturating counters *)
Lemma fold_sat {A} (f : A -> Z) z (l : list A) :
  Forall (fun a => 0 <= f a) l ->
  foldl (fun t a => sat_add u64_max t (f a)) (Z.min u64_max z) l = Z.min u64_max (z + foldr (fun a t => f a + t) 0 l).
Proof.
  revert z. induction l as [|a l IH]; intros z Hl; cbn; [f_equal; lia|].
  apply Forall_cons in Hl as [Ha Hl].
  replace (sat_add u64_max (Z.min u64_max z) (f a)) with (Z.min u64_max (z + f a)) by ulia.
  rewrite IH by done. f_equal. lia.
Qed.

Lemma foldr_msum {V} (f : V -> Z) (m : gmap Z V) :
  foldr (fun a t => f a + t) 0 (map_to_list m).*2 = msum (fun _ => f) m.
Proof.
  unfold msum. rewrite map_fold_foldr. induction (map_to_list m) as [|[k v] l IH]; cbn; [done|]. by rewrite IH.
Qed.

(** A direction of the counters. *)
Definition dir (to_dst : bool) (b : CircuitBytes) : Z := if to_dst then src_to_dst b else dst_to_src b.

Definition closed (to_dst : bool) (m : RelayMeter) : Z := if to_dst then closed_src_to_dst m else closed_dst_to_src m.

Lemma totals_dir d m h :
  dir d (totals m h) =
  foldl (fun t a => sat_add u64_max t (dir d (usage_snapshot h (ac_usage a)))) (closed d m) (map_to_list (active m)).*2.
Proof.
  unfold totals. set (l := (map_to_list (active m)).*2). clearbody l.
  change (closed d m) with (dir d {| src_to_dst := closed_src_to_dst m; dst_to_src := closed_dst_to_src m |}).
  generalize ({| src_to_dst := closed_src_to_dst m; dst_to_src := closed_dst_to_src m |}).
  induction l as [|a l IH]; intros b; cbn; [done|]. rewrite IH. f_equal. by destruct d.
Qed.

Lemma snapshot_record d t h u u' n :
  dir d (usage_snapshot (record_bytes t h u n) u') =
  if decide (u' = u /\ d = t) then sat_add u64_max (dir d (usage_snapshot h u)) n
  else dir d (usage_snapshot h u').
Proof.
  unfold record_bytes, record_src_to_dst, record_dst_to_src, usage_snapshot.
  destruct (decide (u' = u)) as [->|Hne].
  - destruct t, d; cbv beta iota zeta; rewrite lookup_insert_eq; cbn; case_decide; naive_solver.
  - rewrite decide_False by naive_solver. destruct t; cbv beta iota zeta; by rewrite lookup_insert_ne.
Qed.

Lemma record_lookup t h u n u' : is_Some (h !! u) -> is_Some (record_bytes t h u n !! u') <-> is_Some (h !! u').
Proof.
  intros Hu. unfold record_bytes, record_src_to_dst, record_dst_to_src.
  destruct t; rewrite lookup_insert_is_Some'; naive_solver.
Qed.

(** The invariant of one direction: [g] holds the exact bytes of each metered
    circuit, [c] those of the closed ones. *)
Record metered_inv_at (d : bool) (s : metered) (g : gmap Z Z) (c : Z) : Prop := {
  mi_dom : forall id, is_Some (g !! id) <-> is_Some (active (mt_meter s) !! id);
  mi_cell : forall id a, active (mt_meter s) !! id = Some a -> is_Some (mt_counters s !! ac_usage a);
  mi_inj : forall id id' a a', active (mt_meter s) !! id = Some a -> active (mt_meter s) !! id' = Some a' ->
    ac_usage a = ac_usage a' -> id = id';
  mi_live : forall id a e, active (mt_meter s) !! id = Some a -> g !! id = Some e ->
    0 <= e /\ dir d (usage_snapshot (mt_counters s) (ac_usage a)) = Z.min u64_max e;
  mi_closed : 0 <= c /\ closed d (mt_meter s) = Z.min u64_max c;
  mi_forwarded : dir d (mt_forwarded s) = c + msum (fun _ e => e) g;
}.

Definition metered_inv (d : bool) (s : metered) : Prop := exists g c, metered_inv_at d s g c.

Lemma init_inv d : metered_inv d metered_init.
Proof.
  exists ∅, 0. split; cbn; try done.
  - intros id. by rewrite !lookup_empty.
  - destruct d; cbn; ulia.
  - rewrite msum_empty. by destruct d.
Qed.

Lemma accept_inv d s id src dst u now :
  active (mt_meter s) !! id = None -> mt_counters s !! u = None -> metered_inv d s ->
  metered_inv d {| mt_counters := usage_new (mt_counters s) u;
    mt_meter := (open (mt_meter s) (usage_new (mt_counters s) u) id src dst u now).2; mt_forwarded := mt_forwarded s |}.
Proof.
  intros Hid Hu (g & c & [Hdom Hcell Hinj Hlive Hcl Hf]).
  assert (Hg : g !! id = None).
  { destruct (g !! id) eqn:E; [|done]. assert (is_Some (g !! id)) as [? ?]%Hdom by eauto. congruence. }
  assert (Hfresh : forall i a, active (mt_meter s) !! i = Some a -> ac_usage a ≠ u).
  { intros i a Hi Heq. apply Hcell in Hi. rewrite Heq, Hu in Hi. by destruct Hi. }
  exists (<[id := 0]> g), c. split; cbn; unfold usage_new.
  - intros i. rewrite !lookup_insert_is_Some'. by rewrite Hdom.
  - intros i a [[<- <-]|[? Hi]]%lookup_insert_Some; cbn; rewrite lookup_insert_is_Some'; eauto.
  - intros i i' a a' [[<- <-]|[? Hi]]%lookup_insert_Some [[<- <-]|[? Hi']]%lookup_insert_Some; cbn; try done.
    + intros Heq. by destruct (Hfresh _ _ Hi' (eq_sym Heq)).
    + intros Heq. by destruct (Hfresh _ _ Hi Heq).
    + by eapply Hinj.
  - intros i a e [[<- <-]|[Hne Hi]]%lookup_insert_Some; cbn.
    + rewrite lookup_insert_eq. intros [= <-]. split; [done|]. unfold usage_snapshot. rewrite lookup_insert_eq.
      cbn. destruct d; cbn; ulia.
    + rewrite lookup_insert_ne by done. intros He. unfold usage_snapshot.
      rewrite lookup_insert_ne by (intros Heq; by destruct (Hfresh _ _ Hi (eq_sym Heq))). by eapply Hlive.
  - done.
  - rewrite msum_insert by done. lia.
Qed.

Lemma unmetered_inv d s u t n :
  is_Some (mt_counters s !! u) -> map_Forall (fun _ a => ac_usage a ≠ u) (active (mt_meter s)) ->
  metered_inv d s ->
  metered_inv d {| mt_counters := record_bytes t (mt_counters s) u n; mt_meter := mt_meter s; mt_forwarded := mt_forwarded s |}.
Proof.
  intros Hu Hfree (g & c & [Hdom Hcell Hinj Hlive Hcl Hf]). exists g, c. split; cbn; try done.
  - intros i a Hi. apply record_lookup; eauto.
  - intros i a e Hi He. rewrite snapshot_record, decide_False; [eauto|].
    intros [Heq _]. by apply (Hfree _ _ Hi).
Qed.

Lemma forward_inv d s id a t n :
  active (mt_meter s) !! id = Some a -> 0 <= n -> metered_inv d s ->
  metered_inv d {| mt_counters := record_bytes t (mt_counters s) (ac_usage a) n; mt_meter := mt_meter s;
    mt_forwarded := add_forwarded t (mt_forwarded s) n |}.
Proof.
  intros Ha Hn (g & c & [Hdom Hcell Hinj Hlive Hcl Hf]).
  assert (is_Some (g !! id)) as [e He] by (apply Hdom; eauto).
  destruct (Hlive _ _ _ Ha He) as [He0 Hea].
  exists (<[id := if decide (d = t) then e + n else e]> g), c. split; cbn; try done.
  - intros i. rewrite lookup_insert_is_Some', Hdom. naive_solver.
  - intros i a' Hi. apply record_lookup; eauto.
  - intros i a' e' Hi. rewrite snapshot_record. destruct (decide (id = i)) as [<-|Hne].
    + rewrite lookup_insert_eq. rewrite Ha in Hi. injection Hi as <-. intros [= <-].
      destruct (decide (d = t)) as [->|Hd]; [rewrite decide_True by done; ulia|].
      by rewrite decide_False by tauto.
    + rewrite lookup_insert_ne by done. intros He'. rewrite decide_False; [eauto|].
      intros [Heq _]. apply Hne. by eapply Hinj.
  - rewrite (msum_overwrite _ _ _ _ _ He). unfold add_forwarded, dir in *.
    destruct d, t; case_decide; try congruence; cbn; lia.
Qed.

Lemma close_inv d s id a src dst error now :
  active (mt_meter s) !! id = Some a -> metered_inv d s ->
  metered_inv d {| mt_counters := mt_counters s;
    mt_meter := (close (mt_meter s) id src dst (usage_snapshot (mt_counters s) (ac_usage a)) error now).2;
    mt_forwarded := mt_forwarded s |}.
Proof.
  intros Ha (g & c & [Hdom Hcell Hinj Hlive Hcl Hf]).
  assert (is_Some (g !! id)) as [e He] by (apply Hdom; eauto).
  destruct (Hlive _ _ _ Ha He) as [He0 Hea].
  exists (delete id g), (c + e). split; cbn.
  - intros i. rewrite !lookup_delete_is_Some. by rewrite Hdom.
  - intros i a' [_ Hi]%lookup_delete_Some. eauto.
  - intros i i' a' a'' [_ Hi]%lookup_delete_Some [_ Hi']%lookup_delete_Some. by eapply Hinj.
  - intros i a' e' [_ Hi]%lookup_delete_Some [_ He']%lookup_delete_Some. eauto.
  - unfold closed, dir in *. destruct d; cbn; rewrite Hea; ulia.
  - rewrite (msum_delete _ _ _ _ He). lia.
Qed.

Lemma close_again_inv d s id src dst error now :
  active (mt_meter s) !! id = None -> metered_inv d s ->
  metered_inv d {| mt_counters := mt_counters s;
    mt_meter := (close (mt_meter s) id src dst CircuitBytes_default error now).2; mt_forwarded := mt_forwarded s |}.
Proof.
  intros Ha (g & c & [Hdom Hcell Hinj Hlive Hcl Hf]). exists g, c.
  split; cbn; rewrite ?(delete_id _ _ Ha); try done.
  unfold closed in *. destruct d; cbn; ulia.
Qed.

Lemma report_inv d s :
  metered_inv d s ->
  metered_inv d {| mt_counters := mt_counters s; mt_meter := (take_changed (mt_meter s) (mt_counters s)).2;
    mt_forwarded := mt_forwarded s |}.
Proof.
  intros (g & c & [Hdom Hcell Hinj Hlive Hcl Hf]). exists g, c. split; cbn; try done.
  - intros i. rewrite lookup_fmap, fmap_is_Some. apply Hdom.
  - intros i a (a0 & <- & Hi)%lookup_fmap_Some. exact (Hcell i a0 Hi).
  - intros i i' a a' (a0 & <- & Hi)%lookup_fmap_Some (a1 & <- & Hi')%lookup_fmap_Some. exact (Hinj i i' a0 a1 Hi Hi').
  - intros i a e (a0 & <- & Hi)%lookup_fmap_Some. exact (Hlive i a0 e Hi).
Qed.

Lemma metered_step_inv d s s' : metered_step s s' -> metered_inv d s -> metered_inv d s'.
Proof.
  destruct 1; eauto using accept_inv, forward_inv, unmetered_inv, close_inv, close_again_inv, report_inv.
Qed.

(** Saturating each live counter does not change the saturated total. *)
Lemma live_sum (f : ActiveCircuit -> Z) (m : gmap Z ActiveCircuit) (g : gmap Z Z) c :
  0 <= c -> (forall id, is_Some (g !! id) <-> is_Some (m !! id)) ->
  (forall id a e, m !! id = Some a -> g !! id = Some e -> 0 <= e /\ f a = Z.min u64_max e) ->
  Z.min u64_max (c + msum (fun _ => f) m) = Z.min u64_max (c + msum (fun _ e => e) g).
Proof.
  intros Hc Hdom Hf.
  assert (Hpos : map_Forall (fun _ e => 0 <= e) g).
  { intros i e He. assert (is_Some (m !! i)) as [a Ha] by (apply Hdom; eauto). by destruct (Hf _ _ _ Ha He). }
  rewrite (msum_related (fun _ => f) (fun _ e => Z.min u64_max e) m g) by
    (try (intros; by eapply Hf); intros; symmetry; apply Hdom).
  destruct (decide (map_Forall (fun _ e => e <= u64_max) g)) as [Hle|Hgt].
  - do 2 f_equal. apply msum_ext. intros i e He. specialize (Hle i e He). cbn in Hle. lia.
  - apply map_not_Forall in Hgt as (i & e & He & Hgt); [|apply _].
    pose proof (msum_elem (fun _ e => e) g i e Hpos He).
    assert (Hpos' : map_Forall (fun (_ : Z) e => 0 <= Z.min u64_max e) g) by (intros j x Hx; specialize (Hpos j x Hx); ulia).
    pose proof (msum_elem (fun _ e => Z.min u64_max e) g i e Hpos' He). cbn in *. lia.
Qed.

(** The totals of a state that satisfies the invariant. *)
Lemma inv_totals d s : metered_inv d s ->
  dir d (totals (mt_meter s) (mt_counters s)) = Z.min u64_max (dir d (mt_forwarded s)).
Proof.
  intros (g & c & [Hdom Hcell Hinj Hlive [Hc Hcl] Hf]). rewrite totals_dir, Hcl.
  set (f := fun a => dir d (usage_snapshot (mt_counters s) (ac_usage a))).
  assert (Hpos : map_Forall (fun _ a => 0 <= f a) (active (mt_meter s))).
  { intros i a Hi. assert (is_Some (g !! i)) as [e He] by (apply Hdom; eauto).
    destruct (Hlive _ _ _ Hi He) as [? Heq]. unfold f. rewrite Heq. ulia. }
  rewrite (fold_sat f).
  2: { apply Forall_forall. intros a ([i a'] & -> & Hin)%list_elem_of_fmap. apply elem_of_map_to_list in Hin. eauto. }
  rewrite foldr_msum, Hf. apply live_sum; [done..|]. intros i a e Hi He. by apply Hlive with i.
Qed.

(** C13: The relay's aggregate is exact: at every moment, the totals of the
    meter are the bytes forwarded on metered circuits, in each direction, each
    byte once, whether its circuit is still open or was closed, whatever was
    forwarded on other circuits, reported in between or closed again
    (saturating at [u64::MAX] only). *)
Theorem relay_meter_totals_exact (s : metered) :
  rtc metered_step metered_init s ->
  src_to_dst (totals (mt_meter s) (mt_counters s)) = Z.min u64_max (src_to_dst (mt_forwarded s)) /\
  dst_to_src (totals (mt_meter s) (mt_counters s)) = Z.min u64_max (dst_to_src (mt_forwarded s)).
Proof.
  intros Hs. assert (Hi : forall d, metered_inv d s).
  { intros d. revert s Hs. apply rtc_ind_r; [apply init_inv|]. eauto using metered_step_inv. }
  exact (conj (inv_totals true s (Hi true)) (inv_totals false s (Hi false))).
Qed.
End metering.
