(* ===== verification/RelayBehaviour.v ===== *)
(** The Circuit Relay v2 server behaviour (external/libp2p-relay/src/behaviour.rs)
    and the reservation part of its connection handler
    (external/libp2p-relay/src/behaviour/handler.rs): reservations, circuits and
    their admission.

    What leaves the behaviour is appended to its queue of actions; the handler
    of a connection answers with events.  The advertisement status and the
    streams themselves are not modelled. *)

From S2P Require Import Prelude Text Bytes Common Relay RelayLimiter RelayMetering.

#[local] Open Scope Z_scope.

Notation ConnectionId := Z (only parsing).

Inductive StatusCode : Type :=
| StatusOK | ReservationRefused | ResourceLimitExceeded | PermissionDenied | ConnectionFailed
| NoReservation | MalformedMessage | UnexpectedMessage.

#[global] Instance StatusCode_eq_dec : EqDecision StatusCode.
Proof. solve_decision. Defined.

(** The derived [Debug] text. *)
Definition status_debug (s : StatusCode) : string :=
  match s with
  | StatusOK => "OK"
  | ReservationRefused => "ReservationRefused"
  | ResourceLimitExceeded => "ResourceLimitExceeded"
  | PermissionDenied => "PermissionDenied"
  | ConnectionFailed => "ConnectionFailed"
  | NoReservation => "NoReservation"
  | MalformedMessage => "MalformedMessage"
  | UnexpectedMessage => "UnexpectedMessage"
  end.

Inductive Reservation : Type := ReservationActive | ReservationNone.

#[global] Instance Reservation_eq_dec : EqDecision Reservation.
Proof. solve_decision. Defined.

Definition is_active (r : Reservation) : bool := bool_decide (r = ReservationActive).

Section behaviour.
Context {P : PeerIdLib} {M : MultiaddrLib}.

(** * Circuits *)
Inductive CircuitStatus : Type := Accepting | Accepted (usage : UsageRef).

Record Circuit := {
  c_src_peer_id : PeerId;
  c_src_connection_id : ConnectionId;
  c_dst_peer_id : PeerId;
  c_dst_connection_id : ConnectionId;
  c_status : CircuitStatus;
}.

Record CircuitsTracker := { next_id : Z; circuits : gmap Z Circuit }.

Definition tracker_default : CircuitsTracker := {| next_id := 0; circuits := ∅ |}.

Definition tracker_len (t : CircuitsTracker) : Z := Z.of_nat (size (circuits t)).

(** A [CircuitId] is a [u64] and is advanced by one. *)
Definition tracker_insert (t : CircuitsTracker) (c : Circuit) : Z * CircuitsTracker :=
  (next_id t, {| next_id := (next_id t + 1) mod 2 ^ 64; circuits := <[next_id t := c]> (circuits t) |}).

Definition tracker_accepted (t : CircuitsTracker) (id : Z) (usage : UsageRef) : CircuitsTracker :=
  match circuits t !! id with
  | Some c => {| next_id := next_id t; circuits := <[id := {|
      c_src_peer_id := c_src_peer_id c; c_src_connection_id := c_src_connection_id c;
      c_dst_peer_id := c_dst_peer_id c; c_dst_connection_id := c_dst_connection_id c;
      c_status := Accepted usage |}]> (circuits t) |}
  | None => t
  end.

Definition tracker_remove (t : CircuitsTracker) (id : Z) : option Circuit * CircuitsTracker :=
  (circuits t !! id, {| next_id := next_id t; circuits := delete id (circuits t) |}).

Definition on_connection (peer : PeerId) (conn : ConnectionId) (c : Circuit) : Prop :=
  c_src_peer_id c = peer /\ c_src_connection_id c = conn \/
  c_dst_peer_id c = peer /\ c_dst_connection_id c = conn.

#[global] Instance on_connection_dec peer conn c : Decision (on_connection peer conn c).
Proof. unfold on_connection. apply _. Defined.

(** [retain] visits the circuits in the order of the map. *)
Definition remove_by_connection (t : CircuitsTracker) (peer : PeerId) (conn : ConnectionId)
    : list (Z * Circuit) * CircuitsTracker :=
  (filter (fun e => on_connection peer conn e.2) (map_to_list (circuits t)),
   {| next_id := next_id t; circuits := filter (fun e => ~ on_connection peer conn e.2) (circuits t) |}).

Definition num_circuits_of_peer (t : CircuitsTracker) (peer : PeerId) : Z :=
  Z.of_nat (size (filter (fun e => c_src_peer_id e.2 = peer \/ c_dst_peer_id e.2 = peer) (circuits t))).

(** * Events and actions *)
Inductive RelayEvent : Type :=
| EvReservationReqAccepted (src : PeerId) (renewed : bool)
| EvReservationReqDenied (src : PeerId) (status : StatusCode)
| EvReservationClosed (src : PeerId)
| EvReservationTimedOut (src : PeerId)
| EvCircuitReqDenied (src dst : PeerId) (status : StatusCode)
| EvCircuitReqAccepted (src dst : PeerId) (id : Z) (usage : UsageRef)
| EvCircuitClosed (src dst : PeerId) (id : Z) (bytes : CircuitBytes) (error : option IoError)
| EvOther (debug : string).

Inductive HandlerIn : Type :=
| InAcceptReservationReq (addrs : list Multiaddr)
| InDenyReservationReq (status : StatusCode)
| InNegotiateOutboundConnect (id : Z) (src : PeerId) (src_connection : ConnectionId)
| InDenyCircuitReq (id : option Z) (dst : PeerId) (status : StatusCode)
| InAcceptAndDriveCircuit (id : Z) (dst : PeerId).

Inductive ToSwarm : Type :=
| GenerateEvent (event : RelayEvent)
| NotifyHandler (peer : PeerId) (connection : ConnectionId) (event : HandlerIn).

(** The events of a connection's handler. *)
Inductive HandlerEvent : Type :=
| HReservationReqReceived (remote : Multiaddr) (relayed renewed : bool)
| HReservationReqAccepted (renewed : bool)
| HReservationReqAcceptFailed (debug : string)
| HReservationReqDenied (status : StatusCode)
| HReservationReqDenyFailed (debug : string)
| HReservationTimedOut
| HCircuitReqReceived (dst : PeerId) (remote : Multiaddr) (relayed : bool)
| HCircuitReqDenied (id : option Z) (dst : PeerId) (status : StatusCode)
| HCircuitReqDenyFailed (id : option Z) (dst : PeerId) (debug : string)
| HOutboundConnectNegotiated (id : Z) (src : PeerId) (src_connection : ConnectionId)
| HOutboundConnectNegotiationFailed (id : Z) (src : PeerId) (src_connection : ConnectionId) (dst : PeerId)
    (status : StatusCode) (debug : string)
| HCircuitReqAccepted (dst : PeerId) (id : Z) (usage : UsageRef)
| HCircuitReqAcceptFailed (dst : PeerId) (id : Z) (debug : string)
| HCircuitClosed (dst : PeerId) (id : Z) (error : option IoError).

Record Behaviour := {
  b_config : RelayConfig;
  b_local_peer_id : PeerId;
  b_connections : gmap PeerId (gmap ConnectionId Reservation);
  b_circuits : CircuitsTracker;
  b_queued_actions : list ToSwarm;
  b_external_addresses : list Multiaddr;
}.

Definition Behaviour_new (local : PeerId) (cfg : RelayConfig) (external : list Multiaddr) : Behaviour := {|
  b_config := cfg; b_local_peer_id := local; b_connections := ∅; b_circuits := tracker_default;
  b_queued_actions := []; b_external_addresses := external |}.

Definition with_connections (b : Behaviour) (c : gmap PeerId (gmap ConnectionId Reservation)) : Behaviour := {|
  b_config := b_config b; b_local_peer_id := b_local_peer_id b; b_connections := c; b_circuits := b_circuits b;
  b_queued_actions := b_queued_actions b; b_external_addresses := b_external_addresses b |}.
Definition with_circuits (b : Behaviour) (t : CircuitsTracker) : Behaviour := {|
  b_config := b_config b; b_local_peer_id := b_local_peer_id b; b_connections := b_connections b; b_circuits := t;
  b_queued_actions := b_queued_actions b; b_external_addresses := b_external_addresses b |}.
Definition with_config (b : Behaviour) (c : RelayConfig) : Behaviour := {|
  b_config := c; b_local_peer_id := b_local_peer_id b; b_connections := b_connections b;
  b_circuits := b_circuits b; b_queued_actions := b_queued_actions b; b_external_addresses := b_external_addresses b |}.
Definition queue (b : Behaviour) (l : list ToSwarm) : Behaviour := {|
  b_config := b_config b; b_local_peer_id := b_local_peer_id b; b_connections := b_connections b;
  b_circuits := b_circuits b; b_queued_actions := b_queued_actions b ++ l;
  b_external_addresses := b_external_addresses b |}.
Definition generate (b : Behaviour) (e : RelayEvent) : Behaviour := queue b [GenerateEvent e].

(** * Connections *)
Definition on_connection_established (b : Behaviour) (peer : PeerId) (conn : ConnectionId) : Behaviour :=
  with_connections b (<[peer := <[conn := ReservationNone]> (default ∅ (b_connections b !! peer))]> (b_connections b)).

(** Drop a connection of a peer, and the peer with its last connection. *)
Definition drop_connection (cs : gmap PeerId (gmap ConnectionId Reservation)) (peer : PeerId) (conn : ConnectionId)
    : gmap PeerId (gmap ConnectionId Reservation) :=
  match cs !! peer with
  | Some m => let m' := delete conn m in if decide (m' = ∅) then delete peer cs else <[peer := m']> cs
  | None => cs
  end.

(** [ErrorKind::ConnectionAborted.into()]. *)
Definition connection_aborted : IoError := {| io_kind := ConnectionAborted; io_text := "connection aborted" |}.

Definition closed_event (h : Counters) (e : Z * Circuit) : option ToSwarm :=
  match c_status e.2 with
  | Accepting => None
  | Accepted usage => Some (GenerateEvent (EvCircuitClosed (c_src_peer_id e.2) (c_dst_peer_id e.2) e.1
      (usage_snapshot h usage) (Some connection_aborted)))
  end.

Definition on_connection_closed (h : Counters) (b : Behaviour) (peer : PeerId) (conn : ConnectionId) : Behaviour :=
  let tracked := match b_connections b !! peer with Some m => bool_decide (is_Some (m !! conn)) | None => false end in
  let b := with_connections (if tracked then generate b (EvReservationClosed peer) else b)
    (drop_connection (b_connections b) peer conn) in
  let '(removed, t) := remove_by_connection (b_circuits b) peer conn in
  queue (with_circuits b t) (omap (closed_event h) removed).

(** * Admission *)

(** [iter_mut().all(..)]: the first limiter that refuses ends the iteration. *)
Fixpoint limiters_all (ls : list RateLimiter) (peer : PeerId) (addr : Multiaddr) (now : Z)
    : run (bool * list RateLimiter) :=
  match ls with
  | [] => Ret (true, [])
  | l :: ls' =>
      let! (ok, l) := limiter_try_next l peer addr now in
      if ok then let! (ok', ls') := limiters_all ls' peer addr now in Ret (ok', l :: ls')
      else Ret (false, l :: ls')
  end.

Definition active_count (m : gmap ConnectionId Reservation) : Z :=
  Z.of_nat (size (filter (fun e => is_active e.2 = true) m)).

Definition reservations_of (b : Behaviour) (peer : PeerId) : Z := from_option active_count 0 (b_connections b !! peer).
Definition reservations (b : Behaviour) : Z := msum (fun _ => active_count) (b_connections b).

Definition set_reservation_limiters (cfg : RelayConfig) (ls : list RateLimiter) : RelayConfig := {|
  rc_max_reservations := rc_max_reservations cfg; rc_max_reservations_per_peer := rc_max_reservations_per_peer cfg;
  rc_reservation_duration := rc_reservation_duration cfg; rc_reservation_rate_limiters := ls;
  rc_max_circuits := rc_max_circuits cfg; rc_max_circuits_per_peer := rc_max_circuits_per_peer cfg;
  rc_max_circuit_duration := rc_max_circuit_duration cfg; rc_max_circuit_bytes := rc_max_circuit_bytes cfg;
  rc_circuit_src_rate_limiters := rc_circuit_src_rate_limiters cfg |}.
Definition set_circuit_limiters (cfg : RelayConfig) (ls : list RateLimiter) : RelayConfig := {|
  rc_max_reservations := rc_max_reservations cfg; rc_max_reservations_per_peer := rc_max_reservations_per_peer cfg;
  rc_reservation_duration := rc_reservation_duration cfg;
  rc_reservation_rate_limiters := rc_reservation_rate_limiters cfg;
  rc_max_circuits := rc_max_circuits cfg; rc_max_circuits_per_peer := rc_max_circuits_per_peer cfg;
  rc_max_circuit_duration := rc_max_circuit_duration cfg; rc_max_circuit_bytes := rc_max_circuit_bytes cfg;
  rc_circuit_src_rate_limiters := ls |}.

(** The external addresses sent with an accepted reservation. *)
Definition reservation_addrs (b : Behaviour) : list Multiaddr :=
  omap (fun a => match last (addr_iter a) with
                 | None => None
                 | Some (P2p _) => Some a
                 | Some _ => Some (addr_with a (P2p (b_local_peer_id b)))
                 end) (b_external_addresses b).

Definition on_reservation_request (b : Behaviour) (peer : PeerId) (conn : ConnectionId) (remote : Multiaddr)
    (relayed renewed : bool) (now : Z) : run Behaviour :=
  if relayed then Panic
  else
    let deny b := queue b [NotifyHandler peer conn (InDenyReservationReq ResourceLimitExceeded)] in
    if (negb renewed && bool_decide (rc_max_reservations_per_peer (b_config b) < reservations_of b peer))
      || bool_decide (rc_max_reservations (b_config b) <= reservations b)
    then Ret (deny b)
    else
      let! (ok, ls) := limiters_all (rc_reservation_rate_limiters (b_config b)) peer remote now in
      let b := with_config b (set_reservation_limiters (b_config b) ls) in
      if ok then
        let b := with_connections b
          (<[peer := <[conn := ReservationActive]> (default ∅ (b_connections b !! peer))]> (b_connections b)) in
        Ret (queue b [NotifyHandler peer conn (InAcceptReservationReq (reservation_addrs b))])
      else Ret (deny b).

(** A connection of [dst] with an active reservation, the first in the order of the map. *)
Definition reserved_connection (b : Behaviour) (dst : PeerId) : option ConnectionId :=
  match b_connections b !! dst with
  | Some m => fst <$> head (filter (fun e => is_active e.2 = true) (map_to_list m))
  | None => None
  end.

Definition on_circuit_request (b : Behaviour) (peer : PeerId) (conn : ConnectionId) (dst : PeerId)
    (remote : Multiaddr) (relayed : bool) (now : Z) : run Behaviour :=
  if relayed then Panic
  else
    let deny b := queue b [NotifyHandler peer conn (InDenyCircuitReq None dst ResourceLimitExceeded)] in
    if bool_decide (rc_max_circuits_per_peer (b_config b) < num_circuits_of_peer (b_circuits b) peer)
      || bool_decide (rc_max_circuits (b_config b) <= tracker_len (b_circuits b))
    then Ret (deny b)
    else
      let! (ok, ls) := limiters_all (rc_circuit_src_rate_limiters (b_config b)) peer remote now in
      let b := with_config b (set_circuit_limiters (b_config b) ls) in
      if ok then
        Ret match reserved_connection b dst with
        | Some dst_conn =>
            let '(id, t) := tracker_insert (b_circuits b) {|
              c_src_peer_id := peer; c_src_connection_id := conn; c_dst_peer_id := dst;
              c_dst_connection_id := dst_conn; c_status := Accepting |} in
            queue (with_circuits b t) [NotifyHandler peer dst_conn (InNegotiateOutboundConnect id peer conn)]
        | None => queue b [NotifyHandler peer conn (InDenyCircuitReq None dst NoReservation)]
        end
      else Ret (deny b).

(** * Handler events *)
Definition remove_circuit (b : Behaviour) (id : Z) : Behaviour := with_circuits b (tracker_remove (b_circuits b) id).2.
Definition remove_circuit_opt (b : Behaviour) (id : option Z) : Behaviour := from_option (remove_circuit b) b id.

Definition on_connection_handler_event (h : Counters) (now : Z) (b : Behaviour) (source : PeerId)
    (conn : ConnectionId) (e : HandlerEvent) : run Behaviour :=
  match e with
  | HReservationReqReceived remote relayed renewed => on_reservation_request b source conn remote relayed renewed now
  | HReservationReqAccepted renewed =>
      let! m := expect (b_connections b !! source) in
      Ret (generate (with_connections b (<[source := <[conn := ReservationActive]> m]> (b_connections b)))
        (EvReservationReqAccepted source renewed))
  | HReservationReqAcceptFailed d => Ret (generate b (EvOther d))
  | HReservationReqDenied status => Ret (generate b (EvReservationReqDenied source status))
  | HReservationReqDenyFailed d => Ret (generate b (EvOther d))
  | HReservationTimedOut =>
      let! _ := expect (b_connections b !! source) in
      Ret (generate (with_connections b (drop_connection (b_connections b) source conn)) (EvReservationTimedOut source))
  | HCircuitReqReceived dst remote relayed => on_circuit_request b source conn dst remote relayed now
  | HCircuitReqDenied id dst status => Ret (generate (remove_circuit_opt b id) (EvCircuitReqDenied source dst status))
  | HCircuitReqDenyFailed id _ d => Ret (generate (remove_circuit_opt b id) (EvOther d))
  | HOutboundConnectNegotiated id src src_conn =>
      Ret (queue b [NotifyHandler src src_conn (InAcceptAndDriveCircuit id source)])
  | HOutboundConnectNegotiationFailed id src src_conn dst status d =>
      Ret (queue b [NotifyHandler src src_conn (InDenyCircuitReq (Some id) dst status); GenerateEvent (EvOther d)])
  | HCircuitReqAccepted dst id usage =>
      Ret (generate (with_circuits b (tracker_accepted (b_circuits b) id usage)) (EvCircuitReqAccepted source dst id usage))
  | HCircuitReqAcceptFailed _ id d => Ret (generate (remove_circuit b id) (EvOther d))
  | HCircuitClosed dst id error =>
      let bytes := match c_status <$> circuits (b_circuits b) !! id with
                   | Some (Accepted usage) => usage_snapshot h usage
                   | _ => CircuitBytes_default
                   end in
      Ret (generate (remove_circuit b id) (EvCircuitClosed source dst id bytes error))
  end.

(** * The reservation part of a connection's handler *)
Inductive ReservationRequestFuture : Type := FutAccepting | FutDenying (status : StatusCode).

Record Handler := {
  h_request_future : option ReservationRequestFuture;
  h_active_reservation : option Z;  (** when its timer fires *)
}.

Definition on_behaviour_event (hd : Handler) (e : HandlerIn) : Handler :=
  match e with
  | InAcceptReservationReq _ =>
      {| h_request_future := Some FutAccepting; h_active_reservation := h_active_reservation hd |}
  | InDenyReservationReq status =>
      {| h_request_future := Some (FutDenying status); h_active_reservation := h_active_reservation hd |}
  | _ => hd
  end.

(** The end of [poll]: the timer of the active reservation, then the request
    future.  [progress] is what the future does when it is polled: still
    pending, done, or failed. *)
Definition poll_reservation (duration now : Z) (hd : Handler) (progress : option (result unit string))
    : option HandlerEvent * Handler :=
  if from_option (fun deadline => bool_decide (deadline <= now)) false (h_active_reservation hd) then
    (Some HReservationTimedOut, {| h_request_future := h_request_future hd; h_active_reservation := None |})
  else
    match h_request_future hd, progress with
    | Some FutAccepting, Some (Ok _) =>
        (Some (HReservationReqAccepted (bool_decide (is_Some (h_active_reservation hd)))),
         {| h_request_future := None; h_active_reservation := Some (now + duration) |})
    | Some FutAccepting, Some (Err d) =>
        (Some (HReservationReqAcceptFailed d),
         {| h_request_future := None; h_active_reservation := h_active_reservation hd |})
    | Some (FutDenying status), Some (Ok _) =>
        (Some (HReservationReqDenied status),
         {| h_request_future := None; h_active_reservation := h_active_reservation hd |})
    | Some (FutDenying _), Some (Err d) =>
        (Some (HReservationReqDenyFailed d),
         {| h_request_future := None; h_active_reservation := h_active_reservation hd |})
    | _, _ => (None, hd)
    end.
End behaviour.

(** * Facts

    Facts about the relay server: the limits its admission enforces, and the
    states in which its bookkeeping departs from what it reports. *)

Create HintDb relay_ok.

Section behaviour_facts.
Context {P : PeerIdLib} {M : MultiaddrLib}.

(** One input of the behaviour: a connection comes or goes, or a handler reports. *)
Inductive behaviour_step : Behaviour -> Behaviour -> Prop :=
| step_established b peer conn : behaviour_step b (on_connection_established b peer conn)
| step_closed h b peer conn : behaviour_step b (on_connection_closed h b peer conn)
| step_handler h now b b' source conn e :
    on_connection_handler_event h now b source conn e = Ret b' -> behaviour_step b b'.

(** Circuits a peer opened. *)
Definition circuits_from (t : CircuitsTracker) (peer : PeerId) : Z :=
  Z.of_nat (size (filter (fun e => c_src_peer_id e.2 = peer) (circuits t))).

Record circuits_ok (cfg : RelayConfig) (b : Behaviour) : Prop := {
  co_max : rc_max_circuits (b_config b) = rc_max_circuits cfg;
  co_max_per_peer : rc_max_circuits_per_peer (b_config b) = rc_max_circuits_per_peer cfg;
  co_total : tracker_len (b_circuits b) <= rc_max_circuits cfg;
  co_peer : forall p, circuits_from (b_circuits b) p <= rc_max_circuits_per_peer cfg + 1;
}.

Lemma size_filter_mono {K V} `{Countable K} (Q R : K * V -> Prop)
    `{forall x, Decision (Q x)} `{forall x, Decision (R x)} (m : gmap K V) :
  (forall k v, Q (k, v) -> R (k, v)) -> (size (filter Q m) <= size (filter R m))%nat.
Proof. intros HQR. apply map_subseteq_size, map_filter_subseteq_ext. intros; eauto. Qed.

Lemma size_filter_submap {K V} `{Countable K} (Q : K * V -> Prop) `{forall x, Decision (Q x)} (m n : gmap K V) :
  m ⊆ n -> (size (filter Q m) <= size (filter Q n))%nat.
Proof. intros Hmn. by apply map_subseteq_size, map_filter_subseteq_mono. Qed.

(** A tracker with fewer circuits, or with one that changed its status only. *)
Lemma circuits_submap_ok cfg b t :
  circuits_ok cfg b -> circuits t ⊆ circuits (b_circuits b) -> circuits_ok cfg (with_circuits b t).
Proof.
  intros [Hm Hp Ht Hpp] Hsub. split; cbn; try done.
  - unfold tracker_len in *. pose proof (map_subseteq_size _ _ Hsub). lia.
  - intros p. specialize (Hpp p). unfold circuits_from in *.
    pose proof (size_filter_submap (fun e => c_src_peer_id e.2 = p) _ _ Hsub). lia.
Qed.

Lemma queue_ok cfg b l : circuits_ok cfg b -> circuits_ok cfg (queue b l).
Proof. by intros []. Qed.

Lemma connections_ok cfg b c : circuits_ok cfg b -> circuits_ok cfg (with_connections b c).
Proof. by intros []. Qed.

Lemma remove_circuit_ok cfg b id : circuits_ok cfg b -> circuits_ok cfg (remove_circuit b id).
Proof. intros Hb. apply circuits_submap_ok; [done|]. apply delete_subseteq. Qed.

Lemma accepted_ok cfg b id u :
  circuits_ok cfg b -> circuits_ok cfg (with_circuits b (tracker_accepted (b_circuits b) id u)).
Proof.
  intros [Hm Hp Ht Hpp]. unfold tracker_accepted. destruct (circuits _ !! id) as [c|] eqn:E; [|by split].
  split; cbn; try done.
  - unfold tracker_len in *. cbn. by rewrite (map_size_insert_Some id) by eauto.
  - intros p. specialize (Hpp p). unfold circuits_from in *. cbn.
    destruct (decide (c_src_peer_id c = p)) as [Hs|Hs].
    + rewrite map_filter_insert_True by done. rewrite map_size_insert_Some; [done|].
      exists c. by apply map_lookup_filter_Some.
    + rewrite map_filter_insert_False by done.
      pose proof (size_filter_submap (fun e => c_src_peer_id e.2 = p) _ _ (delete_subseteq (circuits (b_circuits b)) id)). lia.
Qed.

Lemma circuit_request_ok cfg b b' peer conn dst remote relayed now :
  circuits_ok cfg b -> on_circuit_request b peer conn dst remote relayed now = Ret b' -> circuits_ok cfg b'.
Proof.
  intros Hb. unfold on_circuit_request. destruct relayed; [done|]. destruct (_ || _) eqn:Eg.
  { intros [= <-]. by apply queue_ok. }
  guards_in Eg. destruct Eg as [Hpeer Htot].
  destruct (limiters_all _ _ _ _) as [[ok ls]|]; cbn [run_bind]; [|done].
  assert (Hc : circuits_ok cfg (with_config b (set_circuit_limiters (b_config b) ls))) by by destruct Hb.
  destruct ok; [|intros [= <-]; by apply queue_ok]. intros [= <-].
  destruct (reserved_connection _ _) as [dc|]; [|by apply queue_ok]. cbn zeta.
  apply queue_ok. destruct Hb as [Hm Hp Ht Hpp]. split; cbn; try done.
  - unfold tracker_len in *. cbn. pose proof (map_size_insert (next_id (b_circuits b)) {|
      c_src_peer_id := peer; c_src_connection_id := conn; c_dst_peer_id := dst;
      c_dst_connection_id := dc; c_status := Accepting |} (circuits (b_circuits b))) as Hs.
    rewrite Hs. case_match; cbn; lia.
  - intros p. specialize (Hpp p). unfold circuits_from, num_circuits_of_peer in *. cbn. rewrite map_filter_insert.
    cbn. case_decide as Hsp.
    + subst p. rewrite map_size_insert.
      pose proof (size_filter_mono (fun e => c_src_peer_id e.2 = peer)
        (fun e => c_src_peer_id e.2 = peer \/ c_dst_peer_id e.2 = peer) (circuits (b_circuits b)) ltac:(by left)).
      case_match; cbn; lia.
    + pose proof (size_filter_submap (fun e => c_src_peer_id e.2 = p) _ _
        (delete_subseteq (circuits (b_circuits b)) (next_id (b_circuits b)))). lia.
Qed.

Lemma reservation_request_ok cfg b b' peer conn remote relayed renewed now :
  circuits_ok cfg b -> on_reservation_request b peer conn remote relayed renewed now = Ret b' -> circuits_ok cfg b'.
Proof.
  intros Hb. unfold on_reservation_request. destruct relayed; [done|].
  destruct (_ || _); [intros [= <-]; by apply queue_ok|].
  destruct (limiters_all _ _ _ _) as [[ok ls]|]; cbn [run_bind]; [|done].
  destruct ok; intros [= <-]; by destruct Hb.
Qed.

#[local] Hint Resolve queue_ok connections_ok remove_circuit_ok accepted_ok : relay_ok.

Lemma behaviour_step_ok cfg b b' : behaviour_step b b' -> circuits_ok cfg b -> circuits_ok cfg b'.
Proof.
  destruct 1 as [b peer conn|h b peer conn|h now b b' source conn e He]; intros Hb.
  - by apply connections_ok.
  - unfold on_connection_closed. cbn. apply queue_ok, circuits_submap_ok.
    + apply connections_ok. by case_match; [apply queue_ok|].
    + cbn. case_match; cbn; apply map_filter_subseteq.
  - destruct e; cbn in He; try (injection He as <-; unfold generate, remove_circuit_opt; eauto with relay_ok; fail).
    + by eapply reservation_request_ok.
    + destruct (b_connections b !! source); [|done]. injection He as <-. unfold generate. auto with relay_ok.
    + destruct (b_connections b !! source); [|done]. injection He as <-. unfold generate. auto with relay_ok.
    + by eapply circuit_request_ok.
    + injection He as <-. unfold generate, remove_circuit_opt. destruct id; cbn; auto with relay_ok.
    + injection He as <-. unfold generate, remove_circuit_opt. destruct id; cbn; auto with relay_ok.
Qed.

(** C28: Admission keeps the relay within its limits: whatever connections come
    and go and whatever the handlers report, the relay carries at most
    [max_circuits] circuits, and a peer has opened at most one more than
    [max_circuits_per_peer] of them. *)
Theorem relay_circuits_bounded (cfg : RelayConfig) (local : PeerId) (external : list Multiaddr) (b : Behaviour) :
  0 <= rc_max_circuits cfg -> 0 <= rc_max_circuits_per_peer cfg ->
  rtc behaviour_step (Behaviour_new local cfg external) b ->
  tracker_len (b_circuits b) <= rc_max_circuits cfg /\
  forall peer, circuits_from (b_circuits b) peer <= rc_max_circuits_per_peer cfg + 1.
Proof.
  intros Hm Hp Hb. assert (Hok : circuits_ok cfg b).
  { revert b Hb. apply rtc_ind_r; [|eauto using behaviour_step_ok].
    split; cbn; try done; intros; unfold circuits_from; cbn; rewrite ?map_filter_empty, ?map_size_empty; lia. }
  split; apply Hok.
Qed.

(** The per-peer limit admits one circuit too many: a peer that already
    has [max_circuits_per_peer] circuits, below the relay's total and its rates,
    is given another one to any peer with a reservation. *)
Theorem circuits_per_peer_limit_off_by_one (b : Behaviour) (peer dst : PeerId) (conn dst_conn : Z)
    (remote : Multiaddr) (now : Z) (limiters : list RateLimiter) :
  num_circuits_of_peer (b_circuits b) peer = rc_max_circuits_per_peer (b_config b) ->
  tracker_len (b_circuits b) < rc_max_circuits (b_config b) ->
  circuits (b_circuits b) !! next_id (b_circuits b) = None ->
  limiters_all (rc_circuit_src_rate_limiters (b_config b)) peer remote now = Ret (true, limiters) ->
  reserved_connection b dst = Some dst_conn ->
  exists b', on_circuit_request b peer conn dst remote false now = Ret b' /\
    num_circuits_of_peer (b_circuits b') peer = rc_max_circuits_per_peer (b_config b') + 1.
Proof.
  intros Hn Ht Hfree Hl Hr. unfold on_circuit_request.
  rewrite !bool_decide_eq_false_2 by lia. cbn [orb]. rewrite Hl. cbn [run_bind]. eexists. split; [done|].
  unfold reserved_connection in Hr |- *. cbn in *. rewrite Hr. cbn. rewrite <- Hn. unfold num_circuits_of_peer. cbn.
  rewrite map_filter_insert_True by (cbn; by left). rewrite map_size_insert_None; [lia|].
  apply map_lookup_filter_None. by left.
Qed.

Lemma closed_circuit_reported h b id c u :
  circuits (b_circuits b) !! id = Some c -> c_status c = Accepted u ->
  exists acts, b_queued_actions (on_connection_closed h b (c_dst_peer_id c) (c_dst_connection_id c)) =
      b_queued_actions b ++ acts /\
    GenerateEvent (EvCircuitClosed (c_src_peer_id c) (c_dst_peer_id c) id (usage_snapshot h u) (Some connection_aborted)) ∈ acts /\
    circuits (b_circuits (on_connection_closed h b (c_dst_peer_id c) (c_dst_connection_id c))) !! id = None.
Proof.
  intros Hc Hs. unfold on_connection_closed. cbn.
  set (dst := c_dst_peer_id c). set (conn := c_dst_connection_id c).
  assert (Hon : on_connection dst conn c) by (by right).
  assert (Hev : GenerateEvent (EvCircuitClosed (c_src_peer_id c) dst id (usage_snapshot h u) (Some connection_aborted)) ∈
    omap (closed_event h) (filter (fun e => on_connection dst conn e.2) (map_to_list (circuits (b_circuits b))))).
  { apply list_elem_of_omap. exists (id, c). split; [|unfold closed_event; cbn; by rewrite Hs].
    apply list_elem_of_filter. split; [done|]. by apply elem_of_map_to_list. }
  assert (Hgone : (filter (fun e => ~ on_connection dst conn e.2) (circuits (b_circuits b)) : gmap Z Circuit) !! id = None).
  { apply map_lookup_filter_None. right. intros c' Hc'. simplify_eq. cbn. tauto. }
  match goal with |- context [if ?t then generate _ _ else _] => destruct t end; cbn.
  - exists ([GenerateEvent (EvReservationClosed dst)] ++
      omap (closed_event h) (filter (fun e => on_connection dst conn e.2) (map_to_list (circuits (b_circuits b))))).
    split_and!; [by rewrite <- app_assoc|apply elem_of_app; by right|done].
  - eauto.
Qed.

(** A circuit whose destination goes away is closed twice: when the
    destination's connection closes the relay reports the circuit's bytes, and
    when the source's handler then finds the stream broken it reports the same
    circuit again with no bytes; the meter counts two completed circuits, the
    second one without bytes or duration. *)
Theorem circuit_close_reported_twice (h h' : Counters) (b : Behaviour) (m : RelayMeter) (id now now1 now2 : Z)
    (c : Circuit) (u : Z) (error : option IoError) :
  circuits (b_circuits b) !! id = Some c -> c_status c = Accepted u ->
  let src := c_src_peer_id c in let dst := c_dst_peer_id c in
  let b1 := on_connection_closed h b dst (c_dst_connection_id c) in
  exists acts b2,
    b_queued_actions b1 = b_queued_actions b ++ acts /\
    GenerateEvent (EvCircuitClosed src dst id (usage_snapshot h u) (Some connection_aborted)) ∈ acts /\
    on_connection_handler_event h' now b1 src (c_src_connection_id c) (HCircuitClosed dst id error) = Ret b2 /\
    b_queued_actions b2 = b_queued_actions b1 ++ [GenerateEvent (EvCircuitClosed src dst id CircuitBytes_default error)] /\
    let m1 := (close m id src dst (usage_snapshot h u) (Some connection_aborted) now1).2 in
    let '(again, m2) := close m1 id src dst CircuitBytes_default error now2 in
    circuit_id again = id /\ total_transit_bytes again = 0 /\ duration_ms again = Some 0 /\
    closed_circuits m2 = sat_add u64_max (sat_add u64_max (closed_circuits m) 1) 1.
Proof.
  intros Hc Hs src dst b1. destruct (closed_circuit_reported h b id c u Hc Hs) as (acts & Hq & Hin & Hgone).
  exists acts, (generate (remove_circuit b1 id) (EvCircuitClosed src dst id CircuitBytes_default error)).
  split_and!; [done|done| |done|].
  - unfold on_connection_handler_event.
    by replace (circuits (b_circuits b1) !! id) with (@None Circuit) by (symmetry; exact Hgone).
  - cbn. rewrite lookup_delete_eq. cbn. split_and!; try done. unfold duration_ms. cbn. f_equal. ulia.
Qed.

(** C39: The relay can be made to panic: when the timer of a reservation fires
    while its renewal is being accepted, the handler reports the timeout and
    then the acceptance; the behaviour has dropped the peer, whose only
    connection it was, and its [expect] fails. *)
Theorem renewal_at_expiry_panics (h : Counters) (b : Behaviour) (peer : PeerId) (conn now later duration deadline : Z)
    (hd : Handler) (r : Reservation) :
  b_connections b !! peer = Some {[conn := r]} ->
  h_request_future hd = Some FutAccepting -> h_active_reservation hd = Some deadline -> deadline <= now ->
  exists e1 hd1 b1 e2 hd2,
    poll_reservation duration now hd None = (Some e1, hd1) /\
    on_connection_handler_event h now b peer conn e1 = Ret b1 /\
    poll_reservation duration later hd1 (Some (Ok tt)) = (Some e2, hd2) /\
    on_connection_handler_event h later b1 peer conn e2 = Panic.
Proof.
  intros Hb Hf Ha Hd. unfold poll_reservation at 1. rewrite Ha. cbn. rewrite bool_decide_eq_true_2 by done.
  do 2 eexists. eexists. do 2 eexists. split_and!; [done| | |].
  - cbn. rewrite Hb. done.
  - unfold poll_reservation. cbn. rewrite Hf. done.
  - cbn. unfold drop_connection. rewrite Hb, delete_singleton_eq, decide_True by done.
    by rewrite lookup_delete_eq.
Qed.
End behaviour_facts.
