(* ===== verification/RelayServer.v ===== *)
(** The relay service of the node (crates/node/events/relay_server.rs): what
    the events of the relay behaviour do to the relay state, the snapshot and
    the application, and how the schedule is enforced.

    [ServerState] holds the fields of [RelayState]
    (crates/connectivity/relay/state.rs) these handlers use, the counters in a
    record of their own. *)

From S2P Require Import Prelude Text Bytes Common Observability Relay RelayLimiter RelayMetering RelayBehaviour.

#[local] Open Scope Z_scope.

Record ServerCounts := {
  accepted_reservations : Z;
  accepted_reservations_total : Z;
  sc_active_circuits : Z;
  denied_reservations : Z;
  denied_circuits : Z;
  rate_limited_events : Z;
  at_capacity_events : Z;
  server_errors : Z;
}.

Record ServerState := {
  server_enabled : bool;
  health : RelayServiceHealth;
  counts : ServerCounts;
  relay_bytes_forwarded : Z;
  relay_bytes_src_to_dst : Z;
  relay_bytes_dst_to_src : Z;
  relay_meter : RelayMeter;
}.

#[global] Instance RelayServiceHealth_eq_dec : EqDecision RelayServiceHealth.
Proof. solve_decision. Defined.

Definition set_service (s : ServerState) (e : bool) (h : RelayServiceHealth) : ServerState := {|
  server_enabled := e; health := h; counts := counts s; relay_bytes_forwarded := relay_bytes_forwarded s;
  relay_bytes_src_to_dst := relay_bytes_src_to_dst s; relay_bytes_dst_to_src := relay_bytes_dst_to_src s;
  relay_meter := relay_meter s |}.
Definition set_health (s : ServerState) (h : RelayServiceHealth) : ServerState := set_service s (server_enabled s) h.
Definition set_counts (s : ServerState) (c : ServerCounts) : ServerState := {|
  server_enabled := server_enabled s; health := health s; counts := c;
  relay_bytes_forwarded := relay_bytes_forwarded s; relay_bytes_src_to_dst := relay_bytes_src_to_dst s;
  relay_bytes_dst_to_src := relay_bytes_dst_to_src s; relay_meter := relay_meter s |}.
Definition set_meter (s : ServerState) (m : RelayMeter) : ServerState := {|
  server_enabled := server_enabled s; health := health s; counts := counts s;
  relay_bytes_forwarded := relay_bytes_forwarded s; relay_bytes_src_to_dst := relay_bytes_src_to_dst s;
  relay_bytes_dst_to_src := relay_bytes_dst_to_src s; relay_meter := m |}.

Definition bump (n : Z) : Z := sat_add usize_max n 1.

Definition record_reservation_accepted (s : ServerState) (renewed : bool) : ServerState :=
  if renewed then s
  else
    let c := counts s in
    set_counts s {| accepted_reservations := bump (accepted_reservations c);
      accepted_reservations_total := bump (accepted_reservations_total c);
      sc_active_circuits := sc_active_circuits c; denied_reservations := denied_reservations c;
      denied_circuits := denied_circuits c; rate_limited_events := rate_limited_events c;
      at_capacity_events := at_capacity_events c; server_errors := server_errors c |}.

Definition record_reservation_closed (s : ServerState) : ServerState :=
  let c := counts s in
  set_counts s {| accepted_reservations := sat_sub (accepted_reservations c) 1;
    accepted_reservations_total := accepted_reservations_total c;
    sc_active_circuits := sc_active_circuits c; denied_reservations := denied_reservations c;
    denied_circuits := denied_circuits c; rate_limited_events := rate_limited_events c;
    at_capacity_events := at_capacity_events c; server_errors := server_errors c |}.

Definition set_active (s : ServerState) (n : Z) : ServerState :=
  let c := counts s in
  set_counts s {| accepted_reservations := accepted_reservations c;
    accepted_reservations_total := accepted_reservations_total c;
    sc_active_circuits := n; denied_reservations := denied_reservations c;
    denied_circuits := denied_circuits c; rate_limited_events := rate_limited_events c;
    at_capacity_events := at_capacity_events c; server_errors := server_errors c |}.

Definition count_denied (s : ServerState) (reservation : bool) : ServerState :=
  let c := counts s in
  set_counts s {| accepted_reservations := accepted_reservations c;
    accepted_reservations_total := accepted_reservations_total c; sc_active_circuits := sc_active_circuits c;
    denied_reservations := if reservation then bump (denied_reservations c) else denied_reservations c;
    denied_circuits := if reservation then denied_circuits c else bump (denied_circuits c);
    rate_limited_events := rate_limited_events c;
    at_capacity_events := at_capacity_events c; server_errors := server_errors c |}.

Definition count_error (s : ServerState) : ServerState :=
  let c := counts s in
  set_counts s {| accepted_reservations := accepted_reservations c;
    accepted_reservations_total := accepted_reservations_total c; sc_active_circuits := sc_active_circuits c;
    denied_reservations := denied_reservations c; denied_circuits := denied_circuits c;
    rate_limited_events := rate_limited_events c;
    at_capacity_events := at_capacity_events c; server_errors := bump (server_errors c) |}.

Definition apply_denial_health (s : ServerState) (status_debug : string) : ServerState :=
  let c := counts s in
  match classify_relay_denial status_debug with
  | RateLimited =>
      set_health (set_counts s {| accepted_reservations := accepted_reservations c;
        accepted_reservations_total := accepted_reservations_total c; sc_active_circuits := sc_active_circuits c;
        denied_reservations := denied_reservations c; denied_circuits := denied_circuits c;
        rate_limited_events := bump (rate_limited_events c);
        at_capacity_events := at_capacity_events c; server_errors := server_errors c |}) RateLimited
  | AtCapacity =>
      set_health (set_counts s {| accepted_reservations := accepted_reservations c;
        accepted_reservations_total := accepted_reservations_total c; sc_active_circuits := sc_active_circuits c;
        denied_reservations := denied_reservations c; denied_circuits := denied_circuits c;
        rate_limited_events := rate_limited_events c;
        at_capacity_events := bump (at_capacity_events c); server_errors := server_errors c |}) AtCapacity
  | _ => set_health (count_error s) HealthError
  end.

(** metering.rs [refresh_relay_totals]. *)
Definition refresh_relay_totals (s : ServerState) (h : Counters) : ServerState :=
  let t := totals (relay_meter s) h in {|
  server_enabled := server_enabled s; health := health s; counts := counts s;
  relay_bytes_forwarded := circuit_total t;
  relay_bytes_src_to_dst := src_to_dst t;
  relay_bytes_dst_to_src := dst_to_src t;
  relay_meter := relay_meter s |}.

(** * The snapshot: the fields [apply_relay_state] takes from the service *)
Record RelaySnapshot := {
  sn_relay_server_enabled : bool;
  sn_relay_service_health : RelayServiceHealth;
  sn_counts : ServerCounts;
  sn_relay_denied_requests : Z;
  sn_relay_bytes_forwarded : Z;
  sn_bytes_src_to_dst : Z;
  sn_bytes_dst_to_src : Z;
  sn_completed_circuits : Z;
  sn_active_circuits : list RelayCircuitUsage;
  sn_recent_closed_circuits : list RelayCircuitUsage;
}.

Definition apply_relay_state (s : ServerState) (h : Counters) : RelaySnapshot := {|
  sn_relay_server_enabled := server_enabled s;
  sn_relay_service_health := health s;
  sn_counts := counts s;
  sn_relay_denied_requests := sat_add usize_max (denied_reservations (counts s)) (denied_circuits (counts s));
  sn_relay_bytes_forwarded := relay_bytes_forwarded s;
  sn_bytes_src_to_dst := relay_bytes_src_to_dst s;
  sn_bytes_dst_to_src := relay_bytes_dst_to_src s;
  sn_completed_circuits := closed_circuits (relay_meter s);
  sn_active_circuits := active_circuits (relay_meter s) h;
  sn_recent_closed_circuits := recent_closed (relay_meter s) |}.

(** The relay events the application receives. *)
Inductive NodeEvent : Type :=
| RelayCircuitOpened (id : Z) (src dst : string)
| RelayCircuitProgress (id bytes_src_to_dst bytes_dst_to_src : Z)
| RelayCircuitClosed (id : Z) (src dst : string) (bytes_src_to_dst bytes_dst_to_src duration_ms : Z)
    (reason : RelayCircuitCloseReason).

(** The service, the snapshot with its pulses, and the events sent so far. *)
Record Server := {
  sv_state : ServerState;
  sv_snapshot : RelaySnapshot;
  sv_pulses : list string;
  sv_events : list NodeEvent;
}.

Section server.
Context {P : PeerIdLib} {M : MultiaddrLib}.
(** [{:?}] of the close reason. *)
Context (reason_debug : option RelayCircuitCloseReason -> string).

Definition bool_text (b : bool) : string := if b then "true" else "false".

(** The [match] of [handle_event]: the next state, the events sent and the line
    of the pulse. *)
Definition relay_event (h : Counters) (now_ms : Z) (ev : RelayEvent) (s : ServerState)
    : ServerState * list NodeEvent * string :=
  match ev with
  | EvReservationReqAccepted src renewed =>
      (set_health (record_reservation_accepted s renewed) HealthEnabled, [],
       "relay_server reservation accepted src=" +:+ peer_to_string src +:+ " renewed=" +:+ bool_text renewed)
  | EvReservationReqDenied src status =>
      (apply_denial_health (count_denied s true) (status_debug status), [],
       "relay_server reservation denied src=" +:+ peer_to_string src +:+ " status=" +:+ status_debug status)
  | EvReservationClosed src | EvReservationTimedOut src =>
      (record_reservation_closed s, [], "relay_server reservation closed src=" +:+ peer_to_string src)
  | EvCircuitReqAccepted src dst id usage =>
      let s := set_health (set_active s (bump (sc_active_circuits (counts s)))) HealthEnabled in
      let s := set_meter s (open (relay_meter s) h id src dst usage now_ms).2 in
      (s, [RelayCircuitOpened id (peer_to_string src) (peer_to_string dst)],
       "relay_server circuit accepted id=" +:+ pretty id +:+ " src=" +:+ peer_to_string src
         +:+ " dst=" +:+ peer_to_string dst)
  | EvCircuitReqDenied src dst status =>
      (apply_denial_health (count_denied s false) (status_debug status), [],
       "relay_server circuit denied src=" +:+ peer_to_string src +:+ " dst=" +:+ peer_to_string dst
         +:+ " status=" +:+ status_debug status)
  | EvCircuitClosed src dst id bytes error =>
      let s := set_active s (sat_sub (sc_active_circuits (counts s)) 1) in
      let '(usage, m) := close (relay_meter s) id src dst bytes error now_ms in
      let s := set_meter s m in
      let s := match close_reason usage with
               | Some (TransportError _) => set_health (count_error s) HealthError
               | _ => s
               end in
      (s, [RelayCircuitClosed (circuit_id usage) (src_peer_id usage) (dst_peer_id usage)
             (bytes_src_to_dst usage) (bytes_dst_to_src usage) (default 0 (duration_ms usage))
             (default Completed (close_reason usage))],
       "relay_server circuit closed id=" +:+ pretty (circuit_id usage) +:+ " src=" +:+ peer_to_string src
         +:+ " dst=" +:+ peer_to_string dst +:+ "                  bytes_src_to_dst=" +:+ pretty (bytes_src_to_dst usage)
         +:+ " bytes_dst_to_src=" +:+ pretty (bytes_dst_to_src usage) +:+ " reason=" +:+ reason_debug (close_reason usage))
  | EvOther debug => (s, [], "relay_server event: " +:+ debug)
  end.

Definition handle_event (h : Counters) (now_ms : Z) (ev : RelayEvent) (sv : Server) : Server :=
  let s := set_service (sv_state sv) true
    (if decide (health (sv_state sv) = HealthDisabled) then HealthEnabled else health (sv_state sv)) in
  let '(s, sent, line) := relay_event h now_ms ev s in
  let s := refresh_relay_totals s h in
  {| sv_state := s; sv_snapshot := apply_relay_state s h; sv_pulses := push_pulse (sv_pulses sv) line;
     sv_events := sv_events sv ++ sent |}.

(** Coalesced progress; whether there was any. *)
Definition report_relay_usage (h : Counters) (sv : Server) : bool * Server :=
  let '(changed, m) := take_changed (relay_meter (sv_state sv)) h in
  let s := set_meter (sv_state sv) m in
  if decide (changed = []) then
    (false, {| sv_state := s; sv_snapshot := sv_snapshot sv; sv_pulses := sv_pulses sv; sv_events := sv_events sv |})
  else
    let s := refresh_relay_totals s h in
    (true, {| sv_state := s; sv_snapshot := apply_relay_state s h; sv_pulses := sv_pulses sv;
              sv_events := sv_events sv ++
                ((fun u => RelayCircuitProgress (circuit_id u) (bytes_src_to_dst u) (bytes_dst_to_src u)) <$> changed) |}).

Definition set_snapshot_service (sn : RelaySnapshot) (e : bool) (hl : RelayServiceHealth) : RelaySnapshot := {|
  sn_relay_server_enabled := e; sn_relay_service_health := hl; sn_counts := sn_counts sn;
  sn_relay_denied_requests := sn_relay_denied_requests sn; sn_relay_bytes_forwarded := sn_relay_bytes_forwarded sn;
  sn_bytes_src_to_dst := sn_bytes_src_to_dst sn; sn_bytes_dst_to_src := sn_bytes_dst_to_src sn;
  sn_completed_circuits := sn_completed_circuits sn; sn_active_circuits := sn_active_circuits sn;
  sn_recent_closed_circuits := sn_recent_closed_circuits sn |}.

(** The periodic check of the schedule: the peers it disconnects, and the state. *)
Definition enforce_relay_schedule (cfg : RelayServiceConfig) (clock : option Z) (connected : list PeerId) (sv : Server)
    : list PeerId * Server :=
  let next_health := health_now clock cfg in
  let was_open := bool_decide (health (sv_state sv) = HealthEnabled) in
  let is_open := bool_decide (next_health = HealthEnabled) in
  let s := set_service (sv_state sv) is_open next_health in
  let sn := set_snapshot_service (sv_snapshot sv) is_open next_health in
  if enabled cfg && was_open && negb is_open then
    (connected, {| sv_state := s; sv_snapshot := sn; sv_events := sv_events sv;
       sv_pulses := push_pulse (sv_pulses sv) ("relay_server schedule closed; disconnecting "
         +:+ pretty (len connected) +:+ " connected peers") |})
  else
    ([], {| sv_state := s; sv_snapshot := sn; sv_events := sv_events sv;
       sv_pulses := if enabled cfg && negb was_open && is_open
                    then push_pulse (sv_pulses sv) "relay_server schedule opened" else sv_pulses sv |}).

(** crates/node/events/connection.rs [handle_connection_established], the branch
    that refuses a connection outside the schedule; [None] on the other branch. *)
Definition refuse_by_schedule (cfg : RelayServiceConfig) (clock : option Z) (h : Counters) (peer : PeerId) (sv : Server)
    : option Server :=
  if enabled cfg && negb (is_open_now_utc clock (schedule cfg)) then
    let s := set_health (sv_state sv) ClosedBySchedule in
    Some {| sv_state := s;
      sv_snapshot := set_snapshot_service (apply_relay_state s h) false ClosedBySchedule;
      sv_pulses := push_pulse (sv_pulses sv)
        ("relay_server schedule closed; closing connection from " +:+ peer_to_string peer);
      sv_events := sv_events sv |}
  else None.
End server.

(** * Facts

    Facts about the relay service: when a closing schedule disconnects the
    peers, how denials are classified, and what its reservation count counts. *)

Section server_facts.
Context {P : PeerIdLib} {M : MultiaddrLib}.

(** The peers each of a sequence of schedule checks disconnects. *)
Fixpoint schedule_ticks (cfg : RelayServiceConfig) (ticks : list (option Z * list PeerId)) (sv : Server)
    : list (list PeerId) :=
  match ticks with
  | [] => []
  | (clock, connected) :: ticks' =>
      let '(d, sv') := enforce_relay_schedule cfg clock connected sv in d :: schedule_ticks cfg ticks' sv'
  end.

Lemma tick_closed cfg clock connected sv :
  enabled cfg = true -> is_open_now_utc clock (schedule cfg) = false ->
  (enforce_relay_schedule cfg clock connected sv).1 =
    (if decide (health (sv_state sv) = HealthEnabled) then connected else []) /\
  health (sv_state (enforce_relay_schedule cfg clock connected sv).2) = ClosedBySchedule.
Proof.
  intros He Hc. unfold enforce_relay_schedule, health_now. rewrite He, Hc. cbn.
  case_decide as Hh; [rewrite bool_decide_eq_true_2 by done|rewrite bool_decide_eq_false_2 by done]; done.
Qed.

(** A closing schedule may leave its peers connected: the check that
    follows the closing time disconnects the connected peers, but if a
    connection is refused in between, neither that check nor any later one
    before the schedule opens again disconnects anyone. *)
Theorem refused_connection_cancels_schedule_disconnect (cfg : RelayServiceConfig) (clock : option Z) (h : Counters)
    (connected : list PeerId) (peer : PeerId) (sv : Server) :
  enabled cfg = true -> is_open_now_utc clock (schedule cfg) = false -> health (sv_state sv) = HealthEnabled ->
  (enforce_relay_schedule cfg clock connected sv).1 = connected /\
  exists sv', refuse_by_schedule cfg clock h peer sv = Some sv' /\
    forall ticks, Forall (fun t => is_open_now_utc t.1 (schedule cfg) = false) ticks ->
      Forall (fun d => d = []) (schedule_ticks cfg ticks sv').
Proof.
  intros He Hc Hh. split.
  { destruct (tick_closed cfg clock connected sv He Hc) as [-> _]. by rewrite decide_True. }
  unfold refuse_by_schedule. rewrite He, Hc. cbn. eexists. split; [done|].
  match goal with |- context [schedule_ticks cfg _ ?s] => assert (Hs : health (sv_state s) ≠ HealthEnabled) by done;
    revert Hs; generalize s end.
  intros s Hs ticks Ht. revert s Hs. induction Ht as [|[c con] ticks Htc _ IH]; intros s Hs; cbn; [constructor|].
  destruct (tick_closed cfg c con s He Htc) as [H1 H2].
  destruct (enforce_relay_schedule cfg c con s) as [d s']. cbn in *. rewrite decide_False in H1 by done.
  constructor; [done|]. apply IH. by rewrite H2.
Qed.

(** No denial is ever counted as rate limiting: of the statuses the relay
    denies with, [ResourceLimitExceeded] (its answer to a full relay and to an
    exceeded rate alike) counts as capacity, and every other one, a missing
    reservation of the target included, counts as an error of the service. *)
Theorem denials_never_count_as_rate_limited (s : ServerState) (status : StatusCode) :
  let s' := apply_denial_health s (status_debug status) in
  rate_limited_events (counts s') = rate_limited_events (counts s) /\
  (if decide (status = ResourceLimitExceeded)
   then health s' = AtCapacity /\ at_capacity_events (counts s') = bump (at_capacity_events (counts s)) /\
        server_errors (counts s') = server_errors (counts s)
   else health s' = HealthError /\ server_errors (counts s') = bump (server_errors (counts s)) /\
        at_capacity_events (counts s') = at_capacity_events (counts s)).
Proof. by destruct status. Qed.

Lemma active_count_delete (m : gmap Z Reservation) conn :
  m !! conn = Some ReservationNone -> active_count (delete conn m) = active_count m.
Proof.
  intros Hm. unfold active_count. rewrite <- (insert_delete_id m conn ReservationNone Hm) at 2.
  rewrite map_filter_insert_False by done. by rewrite delete_delete_eq.
Qed.

(** The count of active reservations also counts down for connections that
    hold none: when a connection without a reservation closes, the relay's
    reservations stay the same, yet it reports a closed reservation and the
    node's count drops by one. *)
Theorem plain_connection_close_drops_reservation_count (reason_debug : option RelayCircuitCloseReason -> string)
    (h h' : Counters) (b : Behaviour) (peer : PeerId) (conn now : Z) (m : gmap Z Reservation) (sv : Server) :
  b_connections b !! peer = Some m -> m !! conn = Some ReservationNone ->
  0 < accepted_reservations (counts (sv_state sv)) ->
  let b' := on_connection_closed h b peer conn in
  reservations b' = reservations b /\
  (exists acts, b_queued_actions b' = b_queued_actions b ++ GenerateEvent (EvReservationClosed peer) :: acts) /\
  accepted_reservations (counts (sv_state (handle_event reason_debug h' now (EvReservationClosed peer) sv))) =
    accepted_reservations (counts (sv_state sv)) - 1.
Proof.
  intros Hb Hm Ha b'. subst b'. unfold on_connection_closed. rewrite Hb, bool_decide_eq_true_2 by eauto.
  cbn. split_and!.
  - unfold reservations, drop_connection. cbn. rewrite Hb. pose proof (active_count_delete m conn Hm) as Hd.
    case_decide as Hempty.
    + rewrite (msum_delete _ _ _ _ Hb), <- Hd, Hempty. unfold active_count. rewrite map_filter_empty, map_size_empty. lia.
    + rewrite (msum_overwrite _ _ _ _ _ Hb), Hd. lia.
  - eexists. by rewrite <- app_assoc.
  - ulia.
Qed.
End server_facts.
