(* ===== verification/Addresses.v ===== *)
(** Address classification (crates/connectivity/addr.rs), the filter of the TURN
    server (crates/connectivity/turn/server.rs [ensure_public]), the classes of
    listen addresses (crates/node/events/connection/listen_addr.rs and
    connection.rs) and the external addresses handed to libp2p
    (crates/stack/external_addresses.rs). *)

From S2P Require Import Prelude Text Bytes Common Relay RelayLimiter.

#[local] Open Scope Z_scope.

(** * The predicates of [std::net] the sources use *)
Definition v4_is_unspecified (ip : Ipv4Addr) : bool := bool_decide (ip = Build_Ipv4Addr 0 0 0 0).
Definition v4_is_loopback (ip : Ipv4Addr) : bool := bool_decide (ip4_a ip = 127).
Definition v4_is_private (ip : Ipv4Addr) : bool :=
  bool_decide (ip4_a ip = 10) || bool_decide (ip4_a ip = 172 /\ 16 <= ip4_b ip <= 31)
  || bool_decide (ip4_a ip = 192 /\ ip4_b ip = 168).
Definition v4_is_link_local (ip : Ipv4Addr) : bool := bool_decide (ip4_a ip = 169 /\ ip4_b ip = 254).
Definition v4_is_multicast (ip : Ipv4Addr) : bool := bool_decide (224 <= ip4_a ip <= 239).
Definition v4_is_broadcast (ip : Ipv4Addr) : bool := bool_decide (ip = Build_Ipv4Addr 255 255 255 255).

Definition segment (ip : Ipv6Addr) (i : nat) : Z := default 0 (ip6_segments ip !! i).
Definition v6_is_unspecified (ip : Ipv6Addr) : bool := bool_decide (ip6_segments ip = [0; 0; 0; 0; 0; 0; 0; 0]).
Definition v6_is_loopback (ip : Ipv6Addr) : bool := bool_decide (ip6_segments ip = [0; 0; 0; 0; 0; 0; 0; 1]).
Definition v6_is_multicast (ip : Ipv6Addr) : bool := bool_decide (Z.land (segment ip 0) 65280 = 65280).

(** * addr.rs *)
Definition is_public_ipv4 (ip : Ipv4Addr) : bool :=
  if v4_is_unspecified ip || v4_is_loopback ip || v4_is_private ip || v4_is_link_local ip || v4_is_multicast ip
    || v4_is_broadcast ip then false
  else if bool_decide (ip4_a ip = 100) && bool_decide (64 <= ip4_b ip <= 127) then false
  else if bool_decide ((ip4_a ip, ip4_b ip, ip4_c ip) = (192, 0, 2))
    || bool_decide ((ip4_a ip, ip4_b ip, ip4_c ip) = (198, 51, 100))
    || bool_decide ((ip4_a ip, ip4_b ip, ip4_c ip) = (203, 0, 113)) then false
  else true.

Definition is_public_ipv6 (ip : Ipv6Addr) : bool :=
  let first := segment ip 0 in
  if v6_is_unspecified ip || v6_is_loopback ip || v6_is_multicast ip then false
  else if bool_decide (Z.land first 65024 = 64512) then false
  else if bool_decide (Z.land first 65472 = 65152) then false
  else if bool_decide (first = 8193) && bool_decide (segment ip 1 = 3512) then false
  else true.

Definition is_public_ip (ip : IpAddr) : bool :=
  match ip with V4 ip => is_public_ipv4 ip | V6 ip => is_public_ipv6 ip end.

Section addr.
Context {P : PeerIdLib} {M : MultiaddrLib}.

Definition has_reachable_transport (addr : Multiaddr) : bool :=
  existsb (fun p => match p with Ip4 _ | Ip6 _ | Dns _ | Dns4 _ | Dns6 _ => true | _ => false end) (addr_iter addr).

Definition has_unspecified_ip (addr : Multiaddr) : bool :=
  existsb (fun p => match p with Ip4 ip => v4_is_unspecified ip | Ip6 ip => v6_is_unspecified ip | _ => false end)
    (addr_iter addr).

(** The loop of [is_public_direct_addr]. *)
Fixpoint public_direct (has_routable_endpoint : bool) (protocols : list Protocol) : bool :=
  match protocols with
  | [] => has_routable_endpoint
  | Ip4 ip :: rest => if negb (is_public_ipv4 ip) then false else public_direct true rest
  | Ip6 ip :: rest => if negb (is_public_ipv6 ip) then false else public_direct true rest
  | Dns _ :: rest | Dns4 _ :: rest | Dns6 _ :: rest | Dnsaddr _ :: rest => public_direct true rest
  | _ :: rest => public_direct has_routable_endpoint rest
  end.

Definition is_public_direct_addr (addr : Multiaddr) : bool := public_direct false (addr_iter addr).

Definition is_local_direct_addr (addr : Multiaddr) : bool :=
  existsb (fun p => match p with Ip4 ip => negb (is_public_ipv4 ip) | Ip6 ip => negb (is_public_ipv6 ip) | _ => false end)
    (addr_iter addr).

(** * Listen addresses *)
Inductive ListenAddrClass : Type := PublicDirect | Relayed | LocalOnly.

#[global] Instance ListenAddrClass_eq_dec : EqDecision ListenAddrClass.
Proof. solve_decision. Defined.

Definition advertise_as_external (c : ListenAddrClass) : bool := match c with LocalOnly => false | _ => true end.
Definition is_relayed (c : ListenAddrClass) : bool := match c with Relayed => true | _ => false end.

Definition classify_listen_addr (addr : Multiaddr) : ListenAddrClass :=
  if is_p2p_circuit_addr addr then Relayed
  else if is_public_direct_addr addr then PublicDirect
  else LocalOnly.

(** The components before the first circuit. *)
Fixpoint before_circuit (protocols : list Protocol) : list Protocol :=
  match protocols with
  | [] => []
  | P2pCircuit :: _ => []
  | p :: rest => p :: before_circuit rest
  end.

(** [Multiaddr::empty] extended by [push]: the two predicates read components only. *)
Definition relayed_route_has_public_relay_endpoint (empty addr : Multiaddr) : bool :=
  let relay_route := foldl addr_with empty (before_circuit (addr_iter addr)) in
  has_reachable_transport relay_route && negb (is_local_direct_addr relay_route).

(** * External addresses *)
Definition MAX_EXTERNAL_ADDRESS_CACHE : Z := 32.

Inductive ExternalAddressAction : Type :=
| ExCandidate (a : Multiaddr)
| ExConfirm (a : Multiaddr)
| ExExpire (a : Multiaddr).

Record ExternalAddressCandidates := {
  ea_pending : list ExternalAddressAction;
  candidate_seen : gset Multiaddr;
  candidate_order : list Multiaddr;
  confirmed_seen : gset Multiaddr;
  confirmed_order : list Multiaddr;
}.

Definition ExternalAddressCandidates_new : ExternalAddressCandidates :=
  {| ea_pending := []; candidate_seen := ∅; candidate_order := []; confirmed_seen := ∅; confirmed_order := [] |}.

(** The loop of [remember_bounded]: it stops at the first evicted address. *)
Fixpoint evict_front (seen : gset Multiaddr) (order : list Multiaddr) (max_entries : Z)
    : option Multiaddr * gset Multiaddr * list Multiaddr :=
  if decide (max_entries < Z.of_nat (size seen)) then
    match order with
    | [] => (None, seen, [])
    | evicted :: rest =>
        if decide (evicted ∈ seen) then (Some evicted, seen ∖ {[evicted]}, rest)
        else evict_front seen rest max_entries
    end
  else (None, seen, order).

Definition remember_bounded (seen : gset Multiaddr) (order : list Multiaddr) (address : Multiaddr) (max_entries : Z)
    : option Multiaddr * gset Multiaddr * list Multiaddr :=
  if decide (address ∈ seen) then (None, seen, order)
  else
    let '(evicted, seen, order) := evict_front ({[address]} ∪ seen) (order ++ [address]) max_entries in
    (Some (default address evicted), seen, order).

(** [windows] is [cfg!(target_os = windows)], where TCP addresses cannot be
    used for hole punching. *)
Definition supports_dcutr_port_reuse (windows : bool) (address : Multiaddr) : bool :=
  if windows then negb (existsb (fun p => match p with Tcp _ => true | _ => false end) (addr_iter address)) else true.

Definition add_candidate (windows : bool) (e : ExternalAddressCandidates) (address : Multiaddr) : ExternalAddressCandidates :=
  if negb (supports_dcutr_port_reuse windows address) then e
  else
    let '(r, seen, order) := remember_bounded (candidate_seen e) (candidate_order e) address MAX_EXTERNAL_ADDRESS_CACHE in
    {| ea_pending := if decide (is_Some r) then ea_pending e ++ [ExCandidate address] else ea_pending e;
       candidate_seen := seen; candidate_order := order;
       confirmed_seen := confirmed_seen e; confirmed_order := confirmed_order e |}.

Definition add_confirmed (windows : bool) (e : ExternalAddressCandidates) (address : Multiaddr) : ExternalAddressCandidates :=
  let e := add_candidate windows e address in
  let '(r, seen, order) := remember_bounded (confirmed_seen e) (confirmed_order e) address MAX_EXTERNAL_ADDRESS_CACHE in
  {| ea_pending := match r with
       | Some evicted =>
           (if decide (evicted ≠ address) then ea_pending e ++ [ExExpire evicted] else ea_pending e) ++ [ExConfirm address]
       | None => ea_pending e
       end;
     candidate_seen := candidate_seen e; candidate_order := candidate_order e;
     confirmed_seen := seen; confirmed_order := order |}.

(** [poll]: the next action, if any. *)
Definition external_poll (e : ExternalAddressCandidates) : option ExternalAddressAction * ExternalAddressCandidates :=
  match ea_pending e with
  | [] => (None, e)
  | a :: rest => (Some a, {| ea_pending := rest; candidate_seen := candidate_seen e; candidate_order := candidate_order e;
      confirmed_seen := confirmed_seen e; confirmed_order := confirmed_order e |})
  end.
End addr.

(** * The filter of the TURN server *)
Definition ensure_public (ip : IpAddr) (addr_text : string) : result unit string :=
  if is_public_ip ip then Ok tt else Err ("TURN relay to non-public address " +:+ addr_text +:+ " refused").

(** * Facts

    Facts about addresses: public addresses are exactly those outside the
    listed blocks, private IPv4 addresses pass as IPv4-mapped IPv6 ones, and
    the external addresses libp2p is told of are the remembered ones. *)

(** * Address blocks: a block is a base address and the length of its prefix *)
Definition octet (z : Z) : Prop := 0 <= z <= 255.
Definition valid_v4 (ip : Ipv4Addr) : Prop := octet (ip4_a ip) /\ octet (ip4_b ip) /\ octet (ip4_c ip) /\ octet (ip4_d ip).

Definition v4_value (ip : Ipv4Addr) : Z := ((ip4_a ip * 256 + ip4_b ip) * 256 + ip4_c ip) * 256 + ip4_d ip.

Definition in_block (bits value base prefix : Z) : Prop := value / 2 ^ (bits - prefix) = base / 2 ^ (bits - prefix).

(** 0.0.0.0/32, 127/8, 10/8, 172.16/12, 192.168/16, 169.254/16, 224/4,
    255.255.255.255/32, 100.64/10, 192.0.2/24, 198.51.100/24, 203.0.113/24. *)
Definition non_public_v4 : list (Ipv4Addr * Z) :=
  [(Build_Ipv4Addr 0 0 0 0, 32); (Build_Ipv4Addr 127 0 0 0, 8); (Build_Ipv4Addr 10 0 0 0, 8);
   (Build_Ipv4Addr 172 16 0 0, 12); (Build_Ipv4Addr 192 168 0 0, 16); (Build_Ipv4Addr 169 254 0 0, 16);
   (Build_Ipv4Addr 224 0 0 0, 4); (Build_Ipv4Addr 255 255 255 255, 32); (Build_Ipv4Addr 100 64 0 0, 10);
   (Build_Ipv4Addr 192 0 2 0, 24); (Build_Ipv4Addr 198 51 100 0, 24); (Build_Ipv4Addr 203 0 113 0, 24)].

Lemma no_guard_holds (a b c : bool) :
  (if a then false else if b then false else if c then false else true) = false <-> a = true \/ b = true \/ c = true.
Proof. destruct a, b, c; naive_solver. Qed.

Lemma or_False (A : Prop) : A \/ False <-> A.
Proof. tauto. Qed.

Ltac eval_consts :=
  repeat match goal with
  | |- context [v4_value ?x] => let y := eval vm_compute in (v4_value x) in change (v4_value x) with y
  | |- context [2 ^ ?x] => let y := eval vm_compute in (2 ^ x) in change (2 ^ x) with y
  end.

(** Membership of each block, in terms of the octets. *)
Lemma v4_blocks (ip : Ipv4Addr) :
  valid_v4 ip ->
  Exists (fun b => in_block 32 (v4_value ip) (v4_value b.1) b.2) non_public_v4 <->
  ip = Build_Ipv4Addr 0 0 0 0 \/ ip4_a ip = 127 \/ ip4_a ip = 10 \/ (ip4_a ip = 172 /\ 16 <= ip4_b ip <= 31) \/
  (ip4_a ip = 192 /\ ip4_b ip = 168) \/ (ip4_a ip = 169 /\ ip4_b ip = 254) \/ 224 <= ip4_a ip <= 239 \/
  ip = Build_Ipv4Addr 255 255 255 255 \/ (ip4_a ip = 100 /\ 64 <= ip4_b ip <= 127) \/
  (ip4_a ip, ip4_b ip, ip4_c ip) = (192, 0, 2) \/ (ip4_a ip, ip4_b ip, ip4_c ip) = (198, 51, 100) \/
  (ip4_a ip, ip4_b ip, ip4_c ip) = (203, 0, 113).
Proof.
  destruct ip as [a b c d]. intros (Ha & Hb & Hc & Hd). unfold octet in *. cbn [ip4_a ip4_b ip4_c ip4_d] in *.
  unfold non_public_v4. rewrite !Exists_cons, Exists_nil. unfold in_block. cbn [fst snd].
  set (v := v4_value (Build_Ipv4Addr a b c d)).
  assert (Hv : v = ((a * 256 + b) * 256 + c) * 256 + d) by done. clearbody v. eval_consts.
  assert (Heq : forall a' b' c' d', Build_Ipv4Addr a b c d = Build_Ipv4Addr a' b' c' d' <-> a = a' /\ b = b' /\ c = c' /\ d = d').
  { intros. split; [by intros [= -> -> -> ->]|by intros (-> & -> & -> & ->)]. }
  assert (Htr : forall a' b' c', (a, b, c) = (a', b', c') <-> a = a' /\ b = b' /\ c = c').
  { intros. split; [by intros [= -> -> ->]|by intros (-> & -> & ->)]. }
  rewrite !Heq, !Htr. clear Heq Htr.
  do 11 (apply Morphisms_Prop.or_iff_morphism; [mlia|]). rewrite or_False. mlia.
Qed.

Lemma public_v4_iff (ip : Ipv4Addr) :
  valid_v4 ip ->
  is_public_ipv4 ip = false <-> Exists (fun b => in_block 32 (v4_value ip) (v4_value b.1) b.2) non_public_v4.
Proof.
  intros Hv. rewrite v4_blocks by done. unfold is_public_ipv4. rewrite no_guard_holds.
  unfold v4_is_unspecified, v4_is_loopback, v4_is_private, v4_is_link_local, v4_is_multicast, v4_is_broadcast.
  rewrite !orb_true_iff, !andb_true_iff, !bool_decide_eq_true. tauto.
Qed.

(** * IPv6 *)
Definition valid_v6 (ip : Ipv6Addr) : Prop :=
  length (ip6_segments ip) = 8%nat /\ Forall (fun s => 0 <= s < 65536) (ip6_segments ip).

Definition v6_value (ip : Ipv6Addr) : Z := foldl (fun v s => v * 65536 + s) 0 (ip6_segments ip).

(** ::/128, ::1/128, ff00::/8, fc00::/7, fe80::/10 and 2001:db8::/32. *)
Definition non_public_v6 : list (Ipv6Addr * Z) :=
  [(Build_Ipv6Addr [0; 0; 0; 0; 0; 0; 0; 0], 128); (Build_Ipv6Addr [0; 0; 0; 0; 0; 0; 0; 1], 128);
   (Build_Ipv6Addr [65280; 0; 0; 0; 0; 0; 0; 0], 8); (Build_Ipv6Addr [64512; 0; 0; 0; 0; 0; 0; 0], 7);
   (Build_Ipv6Addr [65152; 0; 0; 0; 0; 0; 0; 0], 10); (Build_Ipv6Addr [8193; 3512; 0; 0; 0; 0; 0; 0], 32)].

(** The masks of the sources select the leading bits of a segment. *)
Lemma segment_masks x :
  0 <= x < 65536 ->
  (Z.land x 65280 = 65280 <-> x / 256 = 255) /\ (Z.land x 65024 = 64512 <-> x / 512 = 126) /\
  (Z.land x 65472 = 65152 <-> x / 64 = 1018).
Proof.
  intros Hx.
  assert (Hm : forall k, 0 <= k -> Z.land x (Z.land (Z.ones 16) (Z.lnot (Z.ones k))) = x / 2 ^ k * 2 ^ k).
  { intros k Hk. rewrite Z.land_assoc, Z.land_ones by lia. rewrite Z.mod_small by (change (2 ^ 16) with 65536; lia).
    rewrite <- Z.ldiff_land, Z.ldiff_ones_r, Z.shiftl_mul_pow2, Z.shiftr_div_pow2 by lia. done. }
  pose proof (Hm 8 ltac:(lia)) as H8. pose proof (Hm 9 ltac:(lia)) as H9. pose proof (Hm 6 ltac:(lia)) as H6.
  change (Z.land (Z.ones 16) (Z.lnot (Z.ones 8))) with 65280 in H8.
  change (Z.land (Z.ones 16) (Z.lnot (Z.ones 9))) with 65024 in H9.
  change (Z.land (Z.ones 16) (Z.lnot (Z.ones 6))) with 65472 in H6.
  rewrite H8, H9, H6. change (2 ^ 8) with 256. change (2 ^ 9) with 512. change (2 ^ 6) with 64. lia.
Qed.

Lemma v6_blocks s0 s1 s2 s3 s4 s5 s6 s7 :
  let ip := Build_Ipv6Addr [s0; s1; s2; s3; s4; s5; s6; s7] in
  valid_v6 ip ->
  Exists (fun b => in_block 128 (v6_value ip) (v6_value b.1) b.2) non_public_v6 <->
  ip6_segments ip = [0; 0; 0; 0; 0; 0; 0; 0] \/ ip6_segments ip = [0; 0; 0; 0; 0; 0; 0; 1] \/
  s0 / 256 = 255 \/ s0 / 512 = 126 \/ s0 / 64 = 1018 \/ (s0 = 8193 /\ s1 = 3512).
Proof.
  intros ip [_ Hs]. cbn in Hs. rewrite !Forall_cons in Hs. destruct_and! Hs.
  set (v := v6_value ip). set (r := ((((s2 * 65536 + s3) * 65536 + s4) * 65536 + s5) * 65536 + s6) * 65536 + s7).
  assert (Hv : v = (s0 * 65536 + s1) * 2 ^ 96 + r) by (subst v r; unfold v6_value; cbn; lia).
  assert (Hr : 0 <= r < 2 ^ 96) by (subst r; cbn; lia).
  assert (Hz : forall l, length l = 8%nat -> Forall (fun s => 0 <= s < 65536) l ->
    ip6_segments ip = l <-> v = foldl (fun v s => v * 65536 + s) 0 l).
  { intros l Hl Hf. subst v. unfold v6_value. split; [by intros ->|]. cbn.
    destruct l as [|t0 [|t1 [|t2 [|t3 [|t4 [|t5 [|t6 [|t7 [|]]]]]]]]]; try done.
    rewrite !Forall_cons in Hf. destruct_and! Hf. cbn. intros Heq. repeat f_equal; lia. }
  rewrite !Hz by (try done; repeat constructor; lia). clear Hz.
  unfold non_public_v6. rewrite !Exists_cons, Exists_nil. unfold in_block. cbn [fst snd].
  repeat match goal with
  | |- context [v6_value ?x] => let y := eval vm_compute in (v6_value x) in change (v6_value x) with y
  | |- context [foldl ?f 0 ?l] => let y := eval vm_compute in (foldl f 0 l) in change (foldl f 0 l) with y
  | |- context [2 ^ ?x] => let y := eval vm_compute in (2 ^ x) in change (2 ^ x) with y
  end.
  clearbody v r. cbn in Hv, Hr.
  do 5 (apply Morphisms_Prop.or_iff_morphism; [mlia|]). rewrite or_False. mlia.
Qed.

Lemma public_v6_iff (ip : Ipv6Addr) :
  valid_v6 ip ->
  is_public_ipv6 ip = false <-> Exists (fun b => in_block 128 (v6_value ip) (v6_value b.1) b.2) non_public_v6.
Proof.
  intros Hv. pose proof Hv as [Hl Hs]. destruct ip as [l]. cbn in Hl.
  destruct l as [|s0 [|s1 [|s2 [|s3 [|s4 [|s5 [|s6 [|s7 [|]]]]]]]]]; try done.
  rewrite v6_blocks by done. cbn in Hs. apply Forall_cons in Hs as [Hs0 _].
  destruct (segment_masks s0 Hs0) as (M1 & M2 & M3). rewrite <- M1, <- M2, <- M3.
  unfold is_public_ipv6, v6_is_unspecified, v6_is_loopback, v6_is_multicast, segment. cbn [ip6_segments lookup list_lookup default].
  match goal with |- (if ?a then false else if ?b then false else if ?c then false else if ?d then false else true) = false <-> _ =>
    transitivity (a = true \/ b = true \/ c = true \/ d = true); [destruct a, b, c, d; naive_solver|] end.
  rewrite !orb_true_iff, !andb_true_iff, !bool_decide_eq_true. tauto.
Qed.

(** an address is public exactly when it lies outside every block the
    sources name: the bit tests of [is_public_ipv4] and [is_public_ipv6] agree
    with prefix membership in the twelve IPv4 blocks and the six IPv6 blocks,
    for every address of either family, and the TURN server relays to exactly
    those addresses. *)
Theorem public_ip_iff_outside_blocks (ip : IpAddr) (text : string) :
  match ip with V4 a => valid_v4 a | V6 a => valid_v6 a end ->
  (is_public_ip ip = true <->
   match ip with
   | V4 a => Forall (fun b => ~ in_block 32 (v4_value a) (v4_value b.1) b.2) non_public_v4
   | V6 a => Forall (fun b => ~ in_block 128 (v6_value a) (v6_value b.1) b.2) non_public_v6
   end) /\
  (ensure_public ip text = Ok tt <-> is_public_ip ip = true).
Proof.
  intros Hv. split.
  - rewrite <- not_false_iff_true. destruct ip as [a|a]; cbn [is_public_ip].
    + rewrite public_v4_iff by done. by rewrite <- Forall_Exists_neg.
    + rewrite public_v6_iff by done. by rewrite <- Forall_Exists_neg.
  - unfold ensure_public. by destruct (is_public_ip ip).
Qed.

(** The IPv4-mapped form of an IPv4 address, ::ffff:a.b.c.d. *)
Definition v4_mapped (ip : Ipv4Addr) : Ipv6Addr :=
  Build_Ipv6Addr [0; 0; 0; 0; 0; 65535; ip4_a ip * 256 + ip4_b ip; ip4_c ip * 256 + ip4_d ip].

(** no IPv4-mapped address is filtered: the mapped form of every IPv4
    address, private, loopback or link-local, passes [is_public_ip] and
    [ensure_public], so a relay request for ::ffff:127.0.0.1 is not refused. *)
Theorem mapped_private_addresses_pass (ip : Ipv4Addr) (text : string) :
  is_public_ip (V6 (v4_mapped ip)) = true /\ ensure_public (V6 (v4_mapped ip)) text = Ok tt.
Proof. done. Qed.

(** * External addresses *)
Section external.
Context {P : PeerIdLib} {M : MultiaddrLib}.

Inductive external_op : Type :=
| AddCandidate (a : Multiaddr)
| AddConfirmed (a : Multiaddr)
| Poll.

(** The cache and the actions it has handed out so far. *)
Definition external_run (windows : bool) (st : ExternalAddressCandidates * list ExternalAddressAction) (op : external_op)
    : ExternalAddressCandidates * list ExternalAddressAction :=
  let '(e, out) := st in
  match op with
  | AddCandidate a => (add_candidate windows e a, out)
  | AddConfirmed a => (add_confirmed windows e a, out)
  | Poll => let '(r, e') := external_poll e in (e', out ++ option_list r)
  end.

(** The set of confirmed addresses a swarm that executes the actions keeps. *)
Definition swarm_confirmed (s : gset Multiaddr) (a : ExternalAddressAction) : gset Multiaddr :=
  match a with ExCandidate _ => s | ExConfirm a => ({[a]} ∪ s) | ExExpire a => s ∖ {[a]} end.

(** The queue orders exactly the addresses of the set, within the bound. *)
Definition ordered (seen : gset Multiaddr) (order : list Multiaddr) : Prop :=
  NoDup order /\ seen = list_to_set order /\ len order <= MAX_EXTERNAL_ADDRESS_CACHE.

Lemma size_ordered (order : list Multiaddr) :
  NoDup order -> Z.of_nat (size (list_to_set order : gset Multiaddr)) = len order.
Proof. intros H. unfold len. by rewrite size_list_to_set. Qed.

Lemma remember_bounded_spec seen order a :
  ordered seen order ->
  let '(r, seen', order') := remember_bounded seen order a MAX_EXTERNAL_ADDRESS_CACHE in
  ordered seen' order' /\
  match r with
  | None => a ∈ seen /\ seen' = seen
  | Some b => a ∉ seen /\ ((b = a /\ seen' = {[a]} ∪ seen) \/ (b ≠ a /\ b ∈ seen /\ seen' = {[a]} ∪ (seen ∖ {[b]})))
  end.
Proof.
  intros (Hnd & -> & Hlen). unfold remember_bounded. destruct (decide (a ∈ (list_to_set order : gset Multiaddr))) as [Ha|Ha].
  { done. }
  assert (Hno : a ∉ order) by (by rewrite elem_of_list_to_set in Ha).
  assert (Hnd' : NoDup (order ++ [a])).
  { apply NoDup_app. split; [done|]. split; [|apply NoDup_singleton]. set_solver. }
  replace ({[a]} ∪ list_to_set order : gset Multiaddr) with (list_to_set (order ++ [a]) : gset Multiaddr) by set_solver.
  destruct order as [|b order]; cbn [app evict_front].
  { rewrite decide_False; [|rewrite (size_ordered [a]) by done; done]. cbn.
    split; [|set_solver]. split; [apply NoDup_singleton|]. done. }
  change (b :: order ++ [a]) with ((b :: order) ++ [a]). rewrite size_ordered by done. rewrite len_app.
  destruct (decide _) as [Hbig|Hsmall]; cycle 1.
  { cbn [default]. split; [|set_solver]. split; [done|]. split; [done|]. rewrite len_app. unfold len in *. cbn in *. lia. }
  rewrite decide_True by set_solver. cbn [default app].
  apply NoDup_cons in Hnd as [Hb Hnd]. apply NoDup_cons in Hnd' as [Hb' Hnd'].
  split; [|split; [done|right; set_solver]]. split; [done|]. split; [set_solver|].
  rewrite len_app in *. unfold len in *. cbn in *. lia.
Qed.

Definition external_inv (st : ExternalAddressCandidates * list ExternalAddressAction) : Prop :=
  let '(e, out) := st in
  ordered (candidate_seen e) (candidate_order e) /\ ordered (confirmed_seen e) (confirmed_order e) /\
  foldl swarm_confirmed ∅ (out ++ ea_pending e) = confirmed_seen e.

Lemma add_candidate_inv w e out a : external_inv (e, out) -> external_inv (add_candidate w e a, out).
Proof.
  intros (H1 & H2 & H3). unfold add_candidate. destruct (negb _); [done|].
  pose proof (remember_bounded_spec _ _ a H1) as Hr. destruct (remember_bounded _ _ _ _) as [[r s] o].
  destruct Hr as [Hr _]. split; [done|]. split; [done|]. cbn. case_decide; [|done].
  by rewrite app_assoc, foldl_app, H3.
Qed.

Lemma add_confirmed_inv w e out a : external_inv (e, out) -> external_inv (add_confirmed w e a, out).
Proof.
  intros (H1 & H2 & H3)%(add_candidate_inv w e out a). unfold add_confirmed.
  pose proof (remember_bounded_spec _ _ a H2) as Hr. destruct (remember_bounded _ _ _ _) as [[r s] o].
  destruct Hr as [Hs Hr]. split; [done|]. split; [done|]. cbn. destruct r as [b|]; [|destruct Hr as [_ ->]; done].
  destruct Hr as [Ha [[-> ->]|(Hb & Hin & ->)]].
  - rewrite decide_False by naive_solver. by rewrite app_assoc, foldl_app, H3.
  - rewrite decide_True by done. rewrite <- (app_assoc (ea_pending _)), (app_assoc out), foldl_app, H3. done.
Qed.

(** C37: whatever addresses are offered and confirmed, in whatever order the
    swarm polls, executing the emitted actions and then the queued ones leaves
    the swarm with exactly the confirmed addresses the cache remembers, and
    the cache remembers at most 32 candidates and 32 confirmed addresses. *)
Theorem swarm_follows_confirmed_addresses (windows : bool) (ops : list external_op) :
  let '(e, out) := foldl (external_run windows) (ExternalAddressCandidates_new, []) ops in
  foldl swarm_confirmed ∅ (out ++ ea_pending e) = confirmed_seen e /\
  Z.of_nat (size (confirmed_seen e)) <= MAX_EXTERNAL_ADDRESS_CACHE /\
  Z.of_nat (size (candidate_seen e)) <= MAX_EXTERNAL_ADDRESS_CACHE /\
  (ea_pending e = [] -> foldl swarm_confirmed ∅ out = confirmed_seen e).
Proof.
  assert (Hinv : forall st, external_inv st -> external_inv (foldl (external_run windows) st ops)).
  { induction ops as [|op ops IH]; intros st Hst; cbn; [done|]. apply IH. destruct st as [e out], op; cbn.
    - by apply add_candidate_inv.
    - by apply add_confirmed_inv.
    - destruct Hst as (H1 & H2 & H3). unfold external_poll. destruct (ea_pending e) as [|x l] eqn:E; cbn.
      + rewrite app_nil_r. by rewrite E.
      + by rewrite <- app_assoc. }
  specialize (Hinv (ExternalAddressCandidates_new, [])). destruct (foldl _ _ ops) as [e out].
  destruct Hinv as (H1 & H2 & H3).
  { split; [|split]; [split; [constructor|done]..|done]. }
  split; [done|]. destruct H1 as (N1 & -> & L1), H2 as (N2 & E2 & L2). split; [|split].
  - rewrite E2, size_ordered by done. done.
  - by rewrite size_ordered.
  - intros E. by rewrite E, app_nil_r in H3.
Qed.
End external.
