(* ===== verification/Connections.v ===== *)
(** Connections: the connection limits and the per-IP cap
    (crates/connectivity/limits.rs), and the relay-assisted direct upgrade
    (crates/connectivity/direct_upgrade.rs, crates/node/events/direct_upgrade.rs). *)

From S2P Require Import Prelude Text Bytes Common Observability.
From Stdlib Require Import Ascii.

#[local] Open Scope Z_scope.

(** * [Display] of the IP addresses of the standard library *)
Definition ipv4_to_string (ip : Ipv4Addr) : string :=
  pretty (ip4_a ip) +:+ "." +:+ pretty (ip4_b ip) +:+ "." +:+ pretty (ip4_c ip) +:+ "." +:+ pretty (ip4_d ip).

(** [{:x}] of a 16-bit segment. *)
Definition hex_char (z : Z) : ascii := default "0"%char (String.get (Z.to_nat z) "0123456789abcdef").

Fixpoint hex_digits (fuel : nat) (z : Z) (acc : string) : string :=
  match fuel with
  | O => acc
  | S n => let acc := String (hex_char (z mod 16)) acc in
           if decide (z < 16) then acc else hex_digits n (z / 16) acc
  end.

Definition segment_text (z : Z) : string := hex_digits 4 z "".

(** The longest run of zero segments, the first of its length: start and length. *)
Fixpoint zero_run (segs : list Z) (i : Z) (current longest : Z * Z) : Z * Z :=
  match segs with
  | [] => longest
  | s :: segs' =>
      if decide (s = 0) then
        let current := (if decide (current.2 = 0) then i else current.1, current.2 + 1) in
        zero_run segs' (i + 1) current (if decide (longest.2 < current.2) then current else longest)
      else zero_run segs' (i + 1) (0, 0) longest
  end.

Fixpoint segments_text (segs : list Z) : string :=
  match segs with
  | [] => ""
  | [s] => segment_text s
  | s :: segs' => segment_text s +:+ ":" +:+ segments_text segs'
  end.

Definition ipv6_to_string (ip : Ipv6Addr) : string :=
  match ip6_segments ip with
  | [0; 0; 0; 0; 0; 65535; ab; cd] =>
      "::ffff:" +:+ ipv4_to_string (Build_Ipv4Addr (ab / 256) (ab mod 256) (cd / 256) (cd mod 256))
  | segs =>
      let '(start, length) := zero_run segs 0 (0, 0) (0, 0) in
      if decide (1 < length) then
        segments_text (take (Z.to_nat start) segs) +:+ "::" +:+ segments_text (drop (Z.to_nat (start + length)) segs)
      else segments_text segs
  end.

(** * Connection limits *)
Record ConnectionLimitsConfig := {
  cl_enabled : bool;
  max_pending_incoming : option Z;
  max_pending_outgoing : option Z;
  max_established_incoming : option Z;
  max_established_outgoing : option Z;
  max_established : option Z;
  max_established_per_peer : option Z;
  max_established_per_ip : option Z;
}.

Definition ConnectionLimitsConfig_default : ConnectionLimitsConfig := {|
  cl_enabled := true; max_pending_incoming := Some 32; max_pending_outgoing := Some 32;
  max_established_incoming := Some 64; max_established_outgoing := Some 64; max_established := Some 128;
  max_established_per_peer := Some 3; max_established_per_ip := Some 8 |}.

Definition ensure_nonzero (field : string) (value : option Z) : result unit NetError :=
  reject_if (bool_decide (value = Some 0)) (config_error (field +:+ " must be null or at least 1")).

(** [if let (Some(part), Some(total)) = .. { if part > total { .. } }]. *)
Definition exceeds (part total : option Z) : bool :=
  match part, total with Some p, Some t => bool_decide (t < p) | _, _ => false end.

Definition ConnectionLimitsConfig_validate (c : ConnectionLimitsConfig) : result unit NetError :=
  if negb (cl_enabled c) then Ok tt
  else
    let? _ := ensure_nonzero "connection_limits.max_pending_incoming" (max_pending_incoming c) in
    let? _ := ensure_nonzero "connection_limits.max_pending_outgoing" (max_pending_outgoing c) in
    let? _ := ensure_nonzero "connection_limits.max_established_incoming" (max_established_incoming c) in
    let? _ := ensure_nonzero "connection_limits.max_established_outgoing" (max_established_outgoing c) in
    let? _ := ensure_nonzero "connection_limits.max_established" (max_established c) in
    let? _ := ensure_nonzero "connection_limits.max_established_per_peer" (max_established_per_peer c) in
    let? _ := ensure_nonzero "connection_limits.max_established_per_ip" (max_established_per_ip c) in
    let? _ := reject_if (exceeds (max_established_per_peer c) (max_established c))
      (config_error "connection_limits.max_established_per_peer must be <= connection_limits.max_established") in
    reject_if (exceeds (max_established_per_ip c) (max_established c))
      (config_error "connection_limits.max_established_per_ip must be <= connection_limits.max_established").

Section caps.
Context {P : PeerIdLib} {M : MultiaddrLib}.

Definition multiaddr_ip_key (addr : Multiaddr) : option string :=
  head (omap (fun p => match p with
                       | Ip4 ip => Some (ipv4_to_string ip)
                       | Ip6 ip => Some (ipv6_to_string ip)
                       | _ => None
                       end) (addr_iter addr)).

Record ConnectionCapState := {
  cap_max_per_ip : option Z;
  cap_max_outgoing : option Z;
  by_connection : gmap Z string;
  outgoing_by_connection : gmap Z PeerId;
  by_ip : gmap string Z;
  cap_disconnects : Z;
}.

Definition ConnectionCapState_new (c : ConnectionLimitsConfig) : ConnectionCapState := {|
  cap_max_per_ip := if cl_enabled c then max_established_per_ip c else None;
  cap_max_outgoing := if cl_enabled c then max_established_outgoing c else None;
  by_connection := ∅; outgoing_by_connection := ∅; by_ip := ∅; cap_disconnects := 0 |}.

Definition record_established (s : ConnectionCapState) (conn : Z) (peer : PeerId) (remote_addr : Multiaddr)
    (outgoing : bool) : bool * ConnectionCapState :=
  let out := if outgoing then <[conn := peer]> (outgoing_by_connection s) else outgoing_by_connection s in
  match multiaddr_ip_key remote_addr with
  | None => (false, {| cap_max_per_ip := cap_max_per_ip s; cap_max_outgoing := cap_max_outgoing s;
      by_connection := by_connection s; outgoing_by_connection := out; by_ip := by_ip s;
      cap_disconnects := cap_disconnects s |})
  | Some ip =>
      let count := sat_add u32_max (default 0 (by_ip s !! ip)) 1 in
      let over := match cap_max_per_ip s with Some limit => bool_decide (limit < count) | None => false end in
      (over, {| cap_max_per_ip := cap_max_per_ip s; cap_max_outgoing := cap_max_outgoing s;
         by_connection := <[conn := ip]> (by_connection s); outgoing_by_connection := out;
         by_ip := <[ip := count]> (by_ip s);
         cap_disconnects := if over then sat_add usize_max (cap_disconnects s) 1 else cap_disconnects s |})
  end.

Definition record_closed (s : ConnectionCapState) (conn : Z) : ConnectionCapState :=
  let out := delete conn (outgoing_by_connection s) in
  match by_connection s !! conn with
  | None => {| cap_max_per_ip := cap_max_per_ip s; cap_max_outgoing := cap_max_outgoing s;
      by_connection := by_connection s; outgoing_by_connection := out; by_ip := by_ip s;
      cap_disconnects := cap_disconnects s |}
  | Some ip => {| cap_max_per_ip := cap_max_per_ip s; cap_max_outgoing := cap_max_outgoing s;
      by_connection := delete conn (by_connection s); outgoing_by_connection := out;
      by_ip := match by_ip s !! ip with
               | Some count => let count := sat_sub count 1 in
                   if decide (count = 0) then delete ip (by_ip s) else <[ip := count]> (by_ip s)
               | None => by_ip s
               end;
      cap_disconnects := cap_disconnects s |}
  end.

Definition count_for_ip (s : ConnectionCapState) (ip : string) : Z := default 0 (by_ip s !! ip).

Definition outgoing_connections_to_release (s : ConnectionCapState) (desired_headroom : Z) : Z :=
  match cap_max_outgoing s with
  | None => 0
  | Some limit =>
      let current := Z.min u32_max (Z.of_nat (size (outgoing_by_connection s))) in
      let available := sat_sub limit current in
      sat_sub desired_headroom available
  end.

(** * Relay-assisted direct upgrade *)
Record DirectUpgradeState := {
  du_relayed : gmap PeerId (list Z);
  du_pending_direct : gmap PeerId Z;
  upgrades_succeeded : Z;
  upgrades_failed : Z;
  paths_migrated : Z;
}.

Definition DirectUpgradeState_default : DirectUpgradeState :=
  {| du_relayed := ∅; du_pending_direct := ∅; upgrades_succeeded := 0; upgrades_failed := 0; paths_migrated := 0 |}.

Definition with_paths (s : DirectUpgradeState) (relayed : gmap PeerId (list Z)) (pending : gmap PeerId Z)
    : DirectUpgradeState := {|
  du_relayed := relayed; du_pending_direct := pending; upgrades_succeeded := upgrades_succeeded s;
  upgrades_failed := upgrades_failed s; paths_migrated := paths_migrated s |}.

Definition relayed_established (s : DirectUpgradeState) (peer : PeerId) (conn : Z) : DirectUpgradeState :=
  let connections := default [] (du_relayed s !! peer) in
  with_paths s (<[peer := if decide (conn ∈ connections) then connections else connections ++ [conn]]> (du_relayed s))
    (du_pending_direct s).

Definition direct_established (s : DirectUpgradeState) (peer : PeerId) (conn : Z) : DirectUpgradeState :=
  with_paths s (du_relayed s) (<[peer := conn]> (du_pending_direct s)).

Definition take_relayed (s : DirectUpgradeState) (peer : PeerId) : list Z * DirectUpgradeState :=
  (default [] (du_relayed s !! peer), with_paths s (delete peer (du_relayed s)) (du_pending_direct s)).

Definition confirm_direct (s : DirectUpgradeState) (peer : PeerId) (conn : Z) : option (list Z) * DirectUpgradeState :=
  if decide (du_pending_direct s !! peer = Some conn) then
    let '(replaced, s') := take_relayed (with_paths s (du_relayed s) (delete peer (du_pending_direct s))) peer in
    (Some replaced, s')
  else (None, s).

Definition connection_closed (s : DirectUpgradeState) (peer : PeerId) (conn : Z) : DirectUpgradeState :=
  let pending := if decide (du_pending_direct s !! peer = Some conn) then delete peer (du_pending_direct s)
                 else du_pending_direct s in
  with_paths s (match du_relayed s !! peer with
                | Some connections =>
                    let connections := filter (fun existing => existing ≠ conn) connections in
                    if decide (connections = []) then delete peer (du_relayed s)
                    else <[peer := connections]> (du_relayed s)
                | None => du_relayed s
                end) pending.

Definition has_relayed (s : DirectUpgradeState) (peer : PeerId) : bool := bool_decide (is_Some (du_relayed s !! peer)).

(** The loop of [is_direct_browser_webrtc]. *)
Fixpoint direct_webrtc (webrtc : bool) (protocols : list Protocol) : bool :=
  match protocols with
  | [] => webrtc
  | P2pCircuit :: _ | WebRTCDirect :: _ => false
  | WebRTC :: rest => direct_webrtc true rest
  | _ :: rest => direct_webrtc webrtc rest
  end.

Definition is_direct_browser_webrtc (addr : Multiaddr) : bool := direct_webrtc false (addr_iter addr).

(** * The handlers (events/direct_upgrade.rs): the state, the pulses, the
    connections they close. *)
Record UpgradeCtx := { ux_state : DirectUpgradeState; ux_pulses : list string; ux_closed : list Z }.

Definition record (c : UpgradeCtx) (s : DirectUpgradeState) (lines : list string) : UpgradeCtx :=
  {| ux_state := s; ux_pulses := foldl push_pulse (ux_pulses c) lines; ux_closed := ux_closed c |}.

Definition count_success (s : DirectUpgradeState) : DirectUpgradeState := {|
  du_relayed := du_relayed s; du_pending_direct := du_pending_direct s;
  upgrades_succeeded := sat_add u64_max (upgrades_succeeded s) 1; upgrades_failed := upgrades_failed s;
  paths_migrated := paths_migrated s |}.
Definition count_failure (s : DirectUpgradeState) : DirectUpgradeState := {|
  du_relayed := du_relayed s; du_pending_direct := du_pending_direct s;
  upgrades_succeeded := upgrades_succeeded s; upgrades_failed := sat_add u64_max (upgrades_failed s) 1;
  paths_migrated := paths_migrated s |}.
Definition count_migrated (s : DirectUpgradeState) : DirectUpgradeState := {|
  du_relayed := du_relayed s; du_pending_direct := du_pending_direct s;
  upgrades_succeeded := upgrades_succeeded s; upgrades_failed := upgrades_failed s;
  paths_migrated := sat_add u64_max (paths_migrated s) 1 |}.

Definition upgrade_on_established (c : UpgradeCtx) (peer : PeerId) (conn : Z) (remote_addr : Multiaddr)
    (relayed outgoing : bool) : UpgradeCtx :=
  let s := ux_state c in
  if relayed then record c (relayed_established s peer conn) ["RELAY_CONNECT peer=" +:+ peer_to_string peer]
  else if is_direct_browser_webrtc remote_addr then
    record c (count_success (direct_established s peer conn)) ["DIRECT_UPGRADE_SUCCESS peer=" +:+ peer_to_string peer]
  else if outgoing then
    record c s ["DIRECT_DIAL peer=" +:+ peer_to_string peer +:+ " addr=" +:+ addr_to_string remote_addr]
  else c.

Definition upgrade_on_identify (c : UpgradeCtx) (peer : PeerId) (conn : Z) : UpgradeCtx :=
  match confirm_direct (ux_state c) peer conn with
  | (None, _) => c
  | (Some replaced, s) =>
      let s := if decide (replaced = []) then s else count_migrated s in
      record {| ux_state := s; ux_pulses := ux_pulses c; ux_closed := ux_closed c ++ replaced |} s
        ["PATH_MIGRATED_TO_DIRECT peer=" +:+ peer_to_string peer +:+ " relayed_closed=" +:+ pretty (len replaced)]
  end.

Definition upgrade_on_closed (c : UpgradeCtx) (peer : PeerId) (conn : Z) : UpgradeCtx :=
  {| ux_state := connection_closed (ux_state c) peer conn; ux_pulses := ux_pulses c; ux_closed := ux_closed c |}.

Inductive SignalingEvent : Type :=
| SignalingStarted (peer : PeerId) (initiator : bool)
| NewWebRTCConnection (peer : PeerId)
| WebRTCConnectionError (peer : PeerId) (error : string) (ice_check : option (string * string)).

Definition upgrade_on_signaling (c : UpgradeCtx) (e : SignalingEvent) : UpgradeCtx :=
  match e with
  | SignalingStarted peer initiator =>
      record c (ux_state c) ["WEBRTC_SIGNALING peer=" +:+ peer_to_string peer
        +:+ " initiator=" +:+ (if initiator then "true" else "false")]
  | NewWebRTCConnection peer =>
      record c (ux_state c) ["ICE_CHECK peer=" +:+ peer_to_string peer +:+ " outcome=connected"]
  | WebRTCConnectionError peer error ice =>
      let s := count_failure (ux_state c) in
      record c s (match ice with
                  | Some (outcome, ice_state) =>
                      ["ICE_CHECK peer=" +:+ peer_to_string peer +:+ " outcome=" +:+ outcome +:+ " ice_state=" +:+ ice_state]
                  | None => []
                  end ++ ["DIRECT_UPGRADE_FAILED peer=" +:+ peer_to_string peer +:+ " error=" +:+ error] ++
                  if has_relayed s peer then ["RELAY_FALLBACK peer=" +:+ peer_to_string peer] else [])
  end.
End caps.

Example ip_texts :
  (ipv6_to_string (Build_Ipv6Addr [8193; 3512; 0; 0; 1; 0; 0; 1]), ipv6_to_string (Build_Ipv6Addr [0; 0; 0; 0; 0; 0; 0; 1]),
   ipv6_to_string (Build_Ipv6Addr [0; 0; 0; 0; 0; 65535; 2570; 255]), ipv6_to_string (Build_Ipv6Addr [1; 0; 2; 3; 4; 5; 6; 0]))
  = ("2001:db8::1:0:0:1", "::1", "::ffff:10.10.0.255", "1:0:2:3:4:5:6:0")%string.
Proof. vm_compute. reflexivity. Qed.

(** * Facts

    Facts about connections: the per-IP cap holds for the connections that are
    kept, and a path is migrated only to a live, confirmed direct connection. *)

(** * Counting the entries of a map *)
Section counting.
Context {K V : Type} `{Countable K} (Q : K * V -> Prop) `{forall x, Decision (Q x)}.

Definition count (m : gmap K V) : Z := Z.of_nat (size (filter Q m)).

Lemma count_insert m k v : m !! k = None -> count (<[k := v]> m) = count m + (if decide (Q (k, v)) then 1 else 0).
Proof.
  intros Hk. unfold count. rewrite map_filter_insert. case_decide.
  - rewrite map_size_insert_None; [lia|]. apply map_lookup_filter_None. by left.
  - rewrite delete_id by done. lia.
Qed.

Lemma count_delete m k v : m !! k = Some v -> count (delete k m) = count m - (if decide (Q (k, v)) then 1 else 0).
Proof.
  intros Hk. rewrite <- (insert_delete_id m k v Hk) at 2. rewrite count_insert by apply lookup_delete_eq. lia.
Qed.

Lemma count_empty : count ∅ = 0.
Proof. unfold count. by rewrite map_filter_empty, map_size_empty. Qed.

Lemma count_nonneg m : 0 <= count m.
Proof. unfold count. lia. Qed.

Lemma count_size m : count m <= Z.of_nat (size m).
Proof. unfold count. pose proof (map_size_filter Q m). lia. Qed.
End counting.

Lemma count_mono {K V} `{Countable K} (Q R : K * V -> Prop) `{forall x, Decision (Q x)} `{forall x, Decision (R x)}
    (m : gmap K V) : (forall k v, m !! k = Some v -> Q (k, v) -> R (k, v)) -> count Q m <= count R m.
Proof.
  intros HQR. unfold count. apply inj_le, map_subseteq_size, map_filter_subseteq_ext. intros; eauto.
Qed.

(** * The per-IP cap *)
Section cap_facts.
Context {P : PeerIdLib} {M : MultiaddrLib}.

(** The caps beside the connections the node keeps: those it did not close for
    exceeding the cap. *)
Record capped := { cp_state : ConnectionCapState; cp_kept : gset Z }.

(** Connection ids are not reused while a connection is open, and there are
    fewer than [u32::MAX] of them. *)
Inductive cap_step : capped -> capped -> Prop :=
| cap_established c conn peer addr outgoing over st :
    by_connection (cp_state c) !! conn = None -> conn ∉ cp_kept c ->
    Z.of_nat (size (by_connection (cp_state c))) < u32_max ->
    record_established (cp_state c) conn peer addr outgoing = (over, st) ->
    cap_step c {| cp_state := st; cp_kept := if over then cp_kept c else {[conn]} ∪ cp_kept c |}
| cap_closed c conn :
    cap_step c {| cp_state := record_closed (cp_state c) conn; cp_kept := cp_kept c ∖ {[conn]} |}.

(** Open connections from an address, and those of them that are kept. *)
Definition open_from (s : ConnectionCapState) (ip : string) : Z := count (fun e : Z * string => e.2 = ip) (by_connection s).
Definition kept_from (c : capped) (ip : string) : Z :=
  count (fun e : Z * string => e.2 = ip /\ e.1 ∈ cp_kept c) (by_connection (cp_state c)).

Record cap_inv (limit : option Z) (c : capped) : Prop := {
  ci_limit : cap_max_per_ip (cp_state c) = limit;
  ci_count : forall ip, count_for_ip (cp_state c) ip = open_from (cp_state c) ip;
  ci_kept : forall ip l, limit = Some l -> kept_from c ip <= l;
}.

Lemma kept_le_open c ip : kept_from c ip <= open_from (cp_state c) ip.
Proof. apply count_mono. tauto. Qed.

Lemma established_inv limit c conn peer addr outgoing over st :
  by_connection (cp_state c) !! conn = None -> conn ∉ cp_kept c ->
  Z.of_nat (size (by_connection (cp_state c))) < u32_max ->
  record_established (cp_state c) conn peer addr outgoing = (over, st) ->
  cap_inv limit c -> cap_inv limit {| cp_state := st; cp_kept := if over then cp_kept c else {[conn]} ∪ cp_kept c |}.
Proof.
  intros Hfree Hkept Hsize He [Hl Hc Hk]. unfold record_established in He.
  destruct (multiaddr_ip_key addr) as [ip|]; [|].
  2: { injection He as <- <-. split; [done|done|]. intros ip l Hli. etrans; [|exact (Hk ip l Hli)].
       apply count_mono. cbn. intros k v Hk' [-> Hin]. split; [done|]. apply elem_of_union in Hin as [->%elem_of_singleton|]; [|done].
       congruence. }
  injection He as Hov <-. rewrite Hov.
  pose proof (count_size (fun e : Z * string => e.2 = ip) (by_connection (cp_state c))) as Hcs.
  pose proof (count_nonneg (fun e : Z * string => e.2 = ip) (by_connection (cp_state c))) as Hcn.
  pose proof (Hc ip) as Hcip. unfold count_for_ip, open_from in *. split; cbn.
  - done.
  - intros ip'. unfold count_for_ip, open_from. cbn. rewrite count_insert by done. cbn.
    destruct (decide (ip = ip')) as [<-|Hne]; [rewrite lookup_insert_eq|rewrite lookup_insert_ne by done]; cbn.
    + rewrite Hcip. ulia.
    + rewrite Hc. lia.
  - intros ip' l Hli. unfold kept_from. cbn.
    rewrite count_insert by done. cbn.
    assert (Hold : forall A : gset Z, (forall k, k ∈ A -> k = conn \/ k ∈ cp_kept c) ->
      count (fun e : Z * string => e.2 = ip' /\ e.1 ∈ A) (by_connection (cp_state c)) <= kept_from c ip').
    { intros A HA. apply count_mono. cbn. intros k v Hkv [-> Hin]. destruct (HA k Hin) as [->|]; [congruence|done]. }
    destruct over.
    + rewrite decide_False by naive_solver. specialize (Hold (cp_kept c) ltac:(auto)). specialize (Hk ip' l Hli). lia.
    + specialize (Hold ({[conn]} ∪ cp_kept c) ltac:(set_solver)). specialize (Hk ip' l Hli).
      case_decide as Hd; [|lia]. destruct Hd as [<- _]. rewrite Hl, Hli in Hov.
      apply bool_decide_eq_false in Hov. rewrite Hcip in Hov. pose proof (kept_le_open c ip). unfold open_from in *. ulia.
Qed.

Lemma closed_inv limit c conn :
  cap_inv limit c -> cap_inv limit {| cp_state := record_closed (cp_state c) conn; cp_kept := cp_kept c ∖ {[conn]} |}.
Proof.
  intros [Hl Hc Hk]. unfold record_closed. destruct (by_connection (cp_state c) !! conn) as [ip|] eqn:E.
  2: { split; [done|done|]. intros ip l Hli. etrans; [|exact (Hk ip l Hli)]. apply count_mono. set_solver. }
  split; cbn.
  - done.
  - intros ip'. unfold count_for_ip, open_from. cbn. rewrite (count_delete _ _ _ _ E). cbn. pose proof (Hc ip) as Hci.
    pose proof (count_delete (fun e : Z * string => e.2 = ip) _ _ _ E) as Hpos. cbn in Hpos. rewrite decide_True in Hpos by done.
    pose proof (count_nonneg (fun e : Z * string => e.2 = ip) (delete conn (by_connection (cp_state c)))).
    unfold count_for_ip, open_from in *.
    destruct (by_ip (cp_state c) !! ip) as [n|] eqn:En; cbn in Hci; [|lia].
    specialize (Hc ip'). destruct (decide (ip = ip')) as [<-|Hne].
    + case_decide; [rewrite lookup_delete_eq|rewrite lookup_insert_eq]; cbn; ulia.
    + case_decide; [rewrite lookup_delete_ne by done|rewrite lookup_insert_ne by done]; lia.
  - intros ip' l Hli. etrans; [|exact (Hk ip' l Hli)]. unfold kept_from. cbn. rewrite (count_delete _ _ _ _ E).
    assert (Hm : count (fun e : Z * string => e.2 = ip' /\ e.1 ∈ cp_kept c ∖ {[conn]}) (by_connection (cp_state c)) <= kept_from c ip')
      by (apply count_mono; set_solver).
    unfold kept_from in Hm. case_decide; lia.
Qed.

(** C16: The per-IP cap holds. Whatever connections are established and closed,
    the counter of an address is the number of its open connections, and if the
    node closes every connection it is told exceeds the cap, it keeps at most
    [max_established_per_ip] connections from any address. *)
Theorem per_ip_cap_enforced (cfg : ConnectionLimitsConfig) (c : capped) :
  cl_enabled cfg = true ->
  rtc cap_step {| cp_state := ConnectionCapState_new cfg; cp_kept := ∅ |} c ->
  (forall limit, max_established_per_ip cfg = Some limit -> 0 <= limit) ->
  forall ip, count_for_ip (cp_state c) ip = open_from (cp_state c) ip /\
    (forall limit, max_established_per_ip cfg = Some limit -> kept_from c ip <= limit).
Proof.
  intros He Hr Hpos. assert (Hi : cap_inv (max_established_per_ip cfg) c).
  { revert c Hr. apply rtc_ind_r.
    - split; unfold ConnectionCapState_new, count_for_ip, open_from, kept_from; cbn; rewrite ?He; done.
    - intros x y _ Hxy Hx. destruct Hxy; [by eapply established_inv|by apply closed_inv]. }
  intros ip. split; [apply Hi|]. intros l Hl. by apply (ci_kept _ _ Hi).
Qed.
End cap_facts.

(** * Direct upgrade *)
Section upgrade_facts.
Context {P : PeerIdLib} {M : MultiaddrLib}.

(** The handlers beside the open connections, each with its peer and whether
    it is relayed. *)
Record upgrading := { up_ctx : UpgradeCtx; up_open : gmap Z (PeerId * bool) }.

Definition upgrading_init : upgrading :=
  {| up_ctx := {| ux_state := DirectUpgradeState_default; ux_pulses := []; ux_closed := [] |}; up_open := ∅ |}.

(** The events of the swarm: connection ids are never reused, a closed
    connection was open, and Identify arrives over an open one. *)
Inductive upgrade_step : upgrading -> upgrading -> Prop :=
| up_established s peer conn addr relayed outgoing :
    up_open s !! conn = None -> conn ∉ ux_closed (up_ctx s) ->
    upgrade_step s {| up_ctx := upgrade_on_established (up_ctx s) peer conn addr relayed outgoing;
                      up_open := <[conn := (peer, relayed)]> (up_open s) |}
| up_closed s peer conn relayed :
    up_open s !! conn = Some (peer, relayed) ->
    upgrade_step s {| up_ctx := upgrade_on_closed (up_ctx s) peer conn; up_open := delete conn (up_open s) |}
| up_identify s peer conn relayed :
    up_open s !! conn = Some (peer, relayed) ->
    upgrade_step s {| up_ctx := upgrade_on_identify (up_ctx s) peer conn; up_open := up_open s |}
| up_signaling s e :
    upgrade_step s {| up_ctx := upgrade_on_signaling (up_ctx s) e; up_open := up_open s |}.

(** What the state says of the connections, with those told to close. *)
Record upgrade_inv (s : DirectUpgradeState) (closed : list Z) (opened : gmap Z (PeerId * bool)) : Prop := {
  ui_relayed : forall p l c, du_relayed s !! p = Some l -> c ∈ l -> opened !! c = Some (p, true) /\ c ∉ closed;
  ui_nodup : forall p l, du_relayed s !! p = Some l -> NoDup l;
  ui_complete : forall p c, opened !! c = Some (p, true) -> c ∈ closed \/ c ∈ default [] (du_relayed s !! p);
  ui_pending : forall p c, du_pending_direct s !! p = Some c -> opened !! c = Some (p, false);
  ui_closed : NoDup closed;
}.

Lemma established_relayed_inv s closed opened p conn :
  opened !! conn = None -> conn ∉ closed -> upgrade_inv s closed opened ->
  upgrade_inv (relayed_established s p conn) closed (<[conn := (p, true)]> opened).
Proof.
  intros Hfree Hcl [Hr Hn Hc Hp Hd]. unfold relayed_established.
  assert (Hnew : conn ∉ default [] (du_relayed s !! p)).
  { destruct (du_relayed s !! p) as [l|] eqn:E; cbn; [|apply not_elem_of_nil]. intros Hin.
    destruct (Hr _ _ _ E Hin). congruence. }
  rewrite decide_False by done. split; cbn; [..|done].
  - intros q l c [[<- <-]|[Hne Hq]]%lookup_insert_Some Hin.
    + apply elem_of_app in Hin as [Hin| ->%list_elem_of_singleton]; [|by rewrite lookup_insert_eq].
      destruct (du_relayed s !! p) as [l|] eqn:E; cbn in *; [|by apply elem_of_nil in Hin].
      destruct (Hr _ _ _ E Hin) as [Ho Hno]. split; [|done]. by rewrite lookup_insert_ne by congruence.
    + destruct (Hr _ _ _ Hq Hin) as [Ho Hno]. split; [|done]. by rewrite lookup_insert_ne by congruence.
  - intros q l [[<- <-]|[Hne Hq]]%lookup_insert_Some; [|by eapply Hn]. apply NoDup_app. split_and!.
    + destruct (du_relayed s !! p) as [l|] eqn:E; [by eapply Hn|constructor].
    + intros x Hx ->%list_elem_of_singleton. done.
    + apply NoDup_singleton.
  - intros q c [[<- [= <-]]|[Hne Ho]]%lookup_insert_Some.
    + right. rewrite lookup_insert_eq. cbn. apply elem_of_app. right. by apply list_elem_of_singleton.
    + destruct (Hc _ _ Ho) as [|Hin]; [by left|]. right. destruct (decide (p = q)) as [<-|].
      * rewrite lookup_insert_eq. cbn. apply elem_of_app. by left.
      * by rewrite lookup_insert_ne.
  - intros q c Hq. rewrite lookup_insert_ne; [by apply Hp|]. apply Hp in Hq. congruence.
Qed.

Lemma established_direct_inv s closed opened p conn (pending : bool) :
  opened !! conn = None -> upgrade_inv s closed opened ->
  upgrade_inv (if pending then direct_established s p conn else s) closed (<[conn := (p, false)]> opened).
Proof.
  intros Hfree [Hr Hn Hc Hp Hd].
  assert (Hold : forall c v, opened !! c = Some v -> <[conn := (p, false)]> opened !! c = Some v).
  { intros c v Hv. by rewrite lookup_insert_ne by congruence. }
  assert (Hrel : forall q l c, du_relayed s !! q = Some l -> c ∈ l ->
    <[conn := (p, false)]> opened !! c = Some (q, true) /\ c ∉ closed).
  { intros q l c Hq Hin. destruct (Hr _ _ _ Hq Hin). auto. }
  assert (Hcom : forall q c, <[conn := (p, false)]> opened !! c = Some (q, true) ->
    c ∈ closed \/ c ∈ default [] (du_relayed s !! q)).
  { intros q c [[_ ?]|[_ Ho]]%lookup_insert_Some; [congruence|auto]. }
  destruct pending; split; cbn; auto.
  intros q c [[<- <-]|[_ Hq]]%lookup_insert_Some; [by rewrite lookup_insert_eq|auto].
Qed.

Lemma upgrade_closed_inv s closed opened p conn r :
  opened !! conn = Some (p, r) -> upgrade_inv s closed opened ->
  upgrade_inv (connection_closed s p conn) closed (delete conn opened).
Proof.
  intros Ho [Hr Hn Hc Hp Hd].
  set (rel := match du_relayed s !! p with
    | Some l => let l := filter (fun existing => existing ≠ conn) l in
        if decide (l = []) then delete p (du_relayed s) else <[p := l]> (du_relayed s)
    | None => du_relayed s end).
  assert (Hlook : forall q, default [] (rel !! q) =
    if decide (q = p) then filter (fun x => x ≠ conn) (default [] (du_relayed s !! p)) else default [] (du_relayed s !! q)).
  { intros q. unfold rel. destruct (du_relayed s !! p) as [l|] eqn:E; cbn.
    - repeat case_decide; simplify_eq; rewrite ?lookup_delete_eq, ?lookup_insert_eq, ?lookup_delete_ne, ?lookup_insert_ne by done; done.
    - case_decide; [subst q; by rewrite E|done]. }
  assert (Hin : forall q l, rel !! q = Some l -> exists l0, du_relayed s !! q = Some l0 /\ (forall c, c ∈ l -> c ∈ l0 /\ c ≠ conn) /\ (NoDup l0 -> NoDup l)).
  { intros q l Hq. pose proof (Hlook q) as Hl. rewrite Hq in Hl. cbn in Hl. unfold rel in Hq.
    destruct (du_relayed s !! p) as [l0|] eqn:E; cbn in *.
    - destruct (decide (q = p)) as [->|Hne].
      + exists l0. split_and!; [done| |]; subst l; [|intros; by apply NoDup_filter].
        intros c [? ?]%list_elem_of_filter. done.
      + assert (du_relayed s !! q = Some l) as Hq'.
        { case_decide; [by rewrite lookup_delete_ne in Hq|by rewrite lookup_insert_ne in Hq]. }
        exists l. split_and!; try done. intros c Hcl. split; [done|]. intros ->.
        destruct (Hr _ _ _ Hq' Hcl) as [Ho' _]. congruence.
    - exists l. split_and!; try done. intros c Hcl. split; [done|]. intros ->.
      destruct (Hr _ _ _ Hq Hcl) as [Ho' _]. congruence. }
  unfold connection_closed. fold rel. split; cbn; [| | | |done].
  - intros q l c Hq Hcl. destruct (Hin _ _ Hq) as (l0 & H0 & H1 & _). destruct (H1 _ Hcl) as [H2 H3].
    destruct (Hr _ _ _ H0 H2). split; [|done]. by rewrite lookup_delete_ne.
  - intros q l Hq. destruct (Hin _ _ Hq) as (l0 & H0 & _ & H1). by apply H1, (Hn q).
  - intros q c [Hne Hoc]%lookup_delete_Some. rewrite Hlook. destruct (Hc _ _ Hoc) as [|Hcl]; [by left|]. right.
    case_decide; [|done]. subst q. by apply list_elem_of_filter.
  - intros q c Hq. assert (Hq0 : du_pending_direct s !! q = Some c).
    { revert Hq. case_decide; [|done]. by intros [_ ?]%lookup_delete_Some. }
    rewrite lookup_delete_ne; [by apply Hp|]. intros ->. pose proof (Hp _ _ Hq0) as Hoc.
    assert (q = p) as -> by congruence. rewrite decide_True, lookup_delete_eq in Hq by done. done.
Qed.

Lemma confirm_inv s closed opened p conn replaced s' :
  upgrade_inv s closed opened -> confirm_direct s p conn = (Some replaced, s') ->
  opened !! conn = Some (p, false) /\ Forall (fun x => opened !! x = Some (p, true)) replaced /\
  upgrade_inv s' (closed ++ replaced) opened /\ du_relayed s' !! p = None.
Proof.
  intros [Hr Hn Hc Hp Hd]. unfold confirm_direct. case_decide as Hpend; [|done]. cbn. intros [= <- <-].
  assert (Hrep : forall x, x ∈ default [] (du_relayed s !! p) -> opened !! x = Some (p, true) /\ x ∉ closed).
  { intros x Hx. destruct (du_relayed s !! p) as [l|] eqn:E; cbn in Hx; [by eapply Hr|by apply elem_of_nil in Hx]. }
  split_and!; [by apply Hp| | |cbn; apply lookup_delete_eq].
  - apply Forall_forall. intros x Hx. by apply Hrep.
  - split; cbn.
    + intros q l c [Hne Hq]%lookup_delete_Some Hin. destruct (Hr _ _ _ Hq Hin) as [Ho Hno]. split; [done|].
      rewrite not_elem_of_app. split; [done|]. intros Hx%Hrep. destruct Hx. congruence.
    + intros q l [_ Hq]%lookup_delete_Some. by apply (Hn q).
    + intros q c Ho. rewrite elem_of_app. destruct (Hc _ _ Ho) as [|Hin]; [by left; left|].
      destruct (decide (q = p)) as [->|Hne]; [by left; right|]. right. by rewrite lookup_delete_ne.
    + intros q c [_ Hq]%lookup_delete_Some. by apply Hp.
    + apply NoDup_app. split_and!; [done| |].
      * intros x Hx Hx'%Hrep. by destruct Hx'.
      * destruct (du_relayed s !! p) as [l|] eqn:E; cbn; [by apply (Hn p)|constructor].
Qed.

Lemma upgrade_inv_paths s s' closed opened :
  du_relayed s' = du_relayed s -> du_pending_direct s' = du_pending_direct s ->
  upgrade_inv s closed opened -> upgrade_inv s' closed opened.
Proof. intros Hr Hp [H1 H2 H3 H4 H5]. by split; rewrite ?Hr, ?Hp. Qed.

Definition upgrading_ok (s : upgrading) : Prop := upgrade_inv (ux_state (up_ctx s)) (ux_closed (up_ctx s)) (up_open s).

Lemma upgrade_step_ok s s' : upgrade_step s s' -> upgrading_ok s -> upgrading_ok s'.
Proof.
  unfold upgrading_ok. destruct 1 as [s p conn addr relayed outgoing Hf Hc|s p conn r Ho|s p conn r Ho|s e];
    intros Hi; cbn.
  - unfold upgrade_on_established. destruct relayed; [by apply established_relayed_inv|].
    destruct (is_direct_browser_webrtc addr); cbn.
    + apply (upgrade_inv_paths (direct_established (ux_state (up_ctx s)) p conn)); [done..|].
      by apply (established_direct_inv _ _ _ p conn true).
    + destruct outgoing; by apply (established_direct_inv _ _ _ p conn false).
  - by eapply upgrade_closed_inv.
  - unfold upgrade_on_identify. destruct (confirm_direct _ _ _) as [[replaced|] s1] eqn:E; [|done]. cbn.
    destruct (confirm_inv _ _ _ _ _ _ _ Hi E) as (_ & _ & Hi' & _).
    apply (upgrade_inv_paths s1); [by case_decide|by case_decide|done].
  - destruct e; cbn; [done|done|]. by apply (upgrade_inv_paths (ux_state (up_ctx s))).
Qed.

(** A path moves to a direct connection only when that is safe. In any run
    of the swarm's events no connection is told to close twice, and when
    Identify over a connection makes the node close relayed connections, that
    connection is an open direct one of the same peer, the closed ones are open
    relayed connections of that peer, and none of the peer's relayed
    connections is left. *)
Theorem migration_only_to_confirmed_direct_path (s : upgrading) (peer : PeerId) (conn : Z) (relayed : bool) :
  rtc upgrade_step upgrading_init s -> up_open s !! conn = Some (peer, relayed) ->
  NoDup (ux_closed (up_ctx s)) /\
  exists replaced,
    ux_closed (upgrade_on_identify (up_ctx s) peer conn) = ux_closed (up_ctx s) ++ replaced /\
    (replaced ≠ [] -> relayed = false /\ Forall (fun x => up_open s !! x = Some (peer, true)) replaced /\
       forall x, up_open s !! x = Some (peer, true) -> x ∈ ux_closed (up_ctx s) ++ replaced).
Proof.
  intros Hr Ho. assert (Hi : upgrading_ok s).
  { revert s Hr Ho. intros s Hr _. revert s Hr. apply rtc_ind_r; [|eauto using upgrade_step_ok].
    split; cbn; try (intros *; rewrite lookup_empty; done). constructor. }
  split; [apply (ui_closed _ _ _ Hi)|]. unfold upgrade_on_identify.
  destruct (confirm_direct _ _ _) as [[replaced|] s1] eqn:E.
  - exists replaced. split; [done|]. intros _.
    destruct (confirm_inv _ _ _ _ _ _ _ Hi E) as (Hd & Hrep & Hi' & Hgone). split_and!; [congruence|done|].
    intros x Hx. destruct (ui_complete _ _ _ Hi' _ _ Hx) as [|Hin]; [done|]. rewrite Hgone in Hin. by apply elem_of_nil in Hin.
  - exists []. split; [by rewrite app_nil_r|]. done.
Qed.
End upgrade_facts.
