(* ===== verification/Storage.v ===== *)
(** Node storage and the identity key: the interface of storage backends
    (crates/platform/traits.rs), the in-memory backend
    (crates/platform/memory.rs), the journal of the browser backend
    (crates/platform/wasm.rs) and the creation of the node's identity key
    (crates/connectivity/identity.rs). *)

From S2P Require Import Prelude Text Bytes Common.
From Stdlib Require Import Strings.Byte Ascii.

#[local] Open Scope Z_scope.

(** * The interface *)
Class NodeStorage (S : Type) := {
  storage_read : S -> string -> result (option (list byte)) NetError;
  storage_read_secret : S -> string -> result (option (list byte)) NetError;
  storage_write_secret : S -> string -> list byte -> result unit NetError * S;
  storage_write_secret_if_absent : S -> string -> list byte -> result bool NetError * S;
  storage_write_public : S -> string -> list byte -> result unit NetError * S;
  storage_delete : S -> string -> result unit NetError * S;
}.

(** What a backend promises: its contents are a map from keys to values,
    creation is atomic, and the operations of a working backend succeed. *)
Class StorageLaws (S : Type) `{NodeStorage S} := {
  storage_ok : S -> Prop;
  storage_view : S -> gmap string (list byte);
  law_read s k : storage_ok s -> storage_read s k = Ok (storage_view s !! k);
  law_read_secret s k : storage_ok s -> storage_read_secret s k = Ok (storage_view s !! k);
  law_if_absent s k v : storage_ok s ->
    let '(r, s') := storage_write_secret_if_absent s k v in
    storage_ok s' /\
    match storage_view s !! k with
    | Some _ => r = Ok false /\ storage_view s' = storage_view s
    | None => r = Ok true /\ storage_view s' = <[k := v]> (storage_view s)
    end;
  law_write_public s k v : storage_ok s ->
    let '(r, s') := storage_write_public s k v in
    r = Ok tt /\ storage_ok s' /\ storage_view s' = <[k := v]> (storage_view s);
  law_delete s k : storage_ok s ->
    let '(r, s') := storage_delete s k in
    r = Ok tt /\ storage_ok s' /\ storage_view s' = delete k (storage_view s);
}.

(** * [MemoryNodeStorage]: a map behind a mutex, which a panicking holder poisons *)
Record MemoryNodeStorage := { mem_entries : gmap string (list byte); mem_poisoned : bool }.

Definition storage_error (key : string) : NetError := Config key "node storage mutex poisoned".

Definition mem_read (s : MemoryNodeStorage) (key : string) : result (option (list byte)) NetError :=
  if mem_poisoned s then Err (storage_error key) else Ok (mem_entries s !! key).

Definition mem_write_public (s : MemoryNodeStorage) (key : string) (value : list byte)
    : result unit NetError * MemoryNodeStorage :=
  if mem_poisoned s then (Err (storage_error key), s)
  else (Ok tt, {| mem_entries := <[key := value]> (mem_entries s); mem_poisoned := false |}).

Definition mem_write_secret_if_absent (s : MemoryNodeStorage) (key : string) (value : list byte)
    : result bool NetError * MemoryNodeStorage :=
  if mem_poisoned s then (Err (storage_error key), s)
  else if decide (is_Some (mem_entries s !! key)) then (Ok false, s)
  else (Ok true, {| mem_entries := <[key := value]> (mem_entries s); mem_poisoned := false |}).

Definition mem_delete (s : MemoryNodeStorage) (key : string) : result unit NetError * MemoryNodeStorage :=
  if mem_poisoned s then (Err (storage_error key), s)
  else (Ok tt, {| mem_entries := delete key (mem_entries s); mem_poisoned := false |}).

(** [read_secret] is the default method of the trait. *)
#[global] Instance memory_storage : NodeStorage MemoryNodeStorage := {|
  storage_read := mem_read; storage_read_secret := mem_read; storage_write_secret := mem_write_public;
  storage_write_secret_if_absent := mem_write_secret_if_absent; storage_write_public := mem_write_public;
  storage_delete := mem_delete |}.

#[global] Program Instance memory_storage_laws : StorageLaws MemoryNodeStorage :=
  {| storage_ok s := mem_poisoned s = false; storage_view := mem_entries |}.
Next Obligation. intros s k Hs. cbn. unfold mem_read. by rewrite Hs. Qed.
Next Obligation. intros s k Hs. cbn. unfold mem_read. by rewrite Hs. Qed.
Next Obligation.
  intros s k v Hs. cbn. unfold mem_write_secret_if_absent. rewrite Hs.
  destruct (mem_entries s !! k); cbn; [by rewrite decide_True by eauto|].
  by rewrite decide_False by (intros [? ?]; done).
Qed.
Next Obligation. intros s k v Hs. cbn. unfold mem_write_public. by rewrite Hs. Qed.
Next Obligation. intros s k Hs. cbn. unfold mem_delete. by rewrite Hs. Qed.

(** * [BrowserNodeStorage]: values in memory, a journal in IndexedDB

    [bs_persisted] is the journal in the database; a flush reads the revision,
    then the values, writes the journal, and marks the revision flushed. *)
Record BrowserNodeStorage := {
  bs_values : gmap string (list byte);
  bs_revision : Z;
  bs_flushed_revision : Z;
  bs_persisted : gmap string (list byte);
}.

(** [BrowserNodeStorage::open] over a loaded journal. *)
Definition bs_open (journal : gmap string (list byte)) : BrowserNodeStorage :=
  {| bs_values := journal; bs_revision := 0; bs_flushed_revision := 0; bs_persisted := journal |}.

Definition is_dirty (s : BrowserNodeStorage) : bool := negb (bool_decide (bs_revision s = bs_flushed_revision s)).

(** [AtomicU64::fetch_add] wraps around. *)
Definition bs_touch (s : BrowserNodeStorage) (values : gmap string (list byte)) : BrowserNodeStorage :=
  {| bs_values := values; bs_revision := (bs_revision s + 1) mod (u64_max + 1);
     bs_flushed_revision := bs_flushed_revision s; bs_persisted := bs_persisted s |}.

Definition bs_write_public (s : BrowserNodeStorage) (key : string) (value : list byte)
    : result unit NetError * BrowserNodeStorage :=
  (Ok tt, bs_touch s (<[key := value]> (bs_values s))).

Definition bs_write_secret_if_absent (s : BrowserNodeStorage) (key : string) (value : list byte)
    : result bool NetError * BrowserNodeStorage :=
  if decide (is_Some (bs_values s !! key)) then (Ok false, s)
  else (Ok true, bs_touch s (<[key := value]> (bs_values s))).

Definition bs_delete (s : BrowserNodeStorage) (key : string) : result unit NetError * BrowserNodeStorage :=
  (Ok tt, if decide (is_Some (bs_values s !! key)) then bs_touch s (delete key (bs_values s)) else s).

#[global] Instance browser_storage : NodeStorage BrowserNodeStorage := {|
  storage_read s k := Ok (bs_values s !! k); storage_read_secret s k := Ok (bs_values s !! k);
  storage_write_secret := bs_write_public; storage_write_secret_if_absent := bs_write_secret_if_absent;
  storage_write_public := bs_write_public; storage_delete := bs_delete |}.

#[global] Program Instance browser_storage_laws : StorageLaws BrowserNodeStorage :=
  {| storage_ok _ := True; storage_view := bs_values |}.
Next Obligation. done. Qed.
Next Obligation. done. Qed.
Next Obligation.
  intros s k v _. cbn. unfold bs_write_secret_if_absent.
  destruct (bs_values s !! k); cbn; [by rewrite decide_True by eauto|].
  by rewrite decide_False by (intros [? ?]; done).
Qed.
Next Obligation. done. Qed.
Next Obligation.
  intros s k _. cbn. unfold bs_delete. destruct (decide _) as [H|H]; cbn; [done|].
  split; [done|]. split; [done|]. rewrite delete_id; [done|]. by apply eq_None_not_Some.
Qed.

(** The three moments of [flush], which run under its guard: the revision and
    the snapshot are taken, the journal is written, the revision is marked. *)
Definition flush_begin (s : BrowserNodeStorage) : option (Z * gmap string (list byte)) :=
  if is_dirty s then Some (bs_revision s, bs_values s) else None.
Definition flush_write (s : BrowserNodeStorage) (snapshot : gmap string (list byte)) : BrowserNodeStorage :=
  {| bs_values := bs_values s; bs_revision := bs_revision s; bs_flushed_revision := bs_flushed_revision s;
     bs_persisted := snapshot |}.
Definition flush_mark (s : BrowserNodeStorage) (revision : Z) : BrowserNodeStorage :=
  {| bs_values := bs_values s; bs_revision := bs_revision s;
     bs_flushed_revision := Z.max (bs_flushed_revision s) revision; bs_persisted := bs_persisted s |}.

(** * The identity key *)

(** [String::from_utf8] accepts exactly the well-formed sequences. *)
Definition cont (z : Z) : bool := bool_decide (128 <= z <= 191).
Fixpoint utf8_valid (l : list Z) : bool :=
  match l with
  | [] => true
  | a :: l1 =>
      if decide (a <= 127) then utf8_valid l1
      else match l1 with
      | b :: l2 =>
          if decide (194 <= a <= 223) then cont b && utf8_valid l2
          else match l2 with
          | c :: l3 =>
              if decide (a = 224) then bool_decide (160 <= b <= 191) && cont c && utf8_valid l3
              else if decide (a = 237) then bool_decide (128 <= b <= 159) && cont c && utf8_valid l3
              else if decide (225 <= a <= 239) then cont b && cont c && utf8_valid l3
              else match l3 with
              | d :: l4 =>
                  if decide (a = 240) then bool_decide (144 <= b <= 191) && cont c && cont d && utf8_valid l4
                  else if decide (241 <= a <= 243) then cont b && cont c && cont d && utf8_valid l4
                  else if decide (a = 244) then bool_decide (128 <= b <= 143) && cont c && cont d && utf8_valid l4
                  else false
              | [] => false
              end
          | [] => false
          end
      | [] => false
      end
  end.

Definition string_of_bytes (bs : list byte) : string :=
  text ((fun b => ascii_of_nat (Z.to_nat (byte_to_Z b))) <$> bs).
Definition str_as_bytes (s : string) : list byte := (fun c => byte_of_Z (code c)) <$> chars s.

(** [libp2p::identity::Keypair]: its protobuf encoding. *)
Class KeypairLib := {
  Keypair : Type;
  keypair_to_protobuf : Keypair -> result (list byte) string;
  keypair_from_protobuf : list byte -> result Keypair string;
}.

Class KeypairLaws (K : KeypairLib) : Prop := {
  keypair_roundtrip k bs : keypair_to_protobuf k = Ok bs -> keypair_from_protobuf bs = Ok k;
}.

Section identity.
Context {K : KeypairLib} {H : HexLib}.
(** [Display] of [Utf8Error]. *)
Context (utf8_error : list byte -> string).

Definition decode_utf8 (path : string) (raw : list byte) : result string NetError :=
  if utf8_valid (byte_to_Z <$> raw) then Ok (string_of_bytes raw)
  else Err (Identity path ("identity key is not valid UTF-8: " +:+ utf8_error raw)).

Definition decode_identity_key (path encoded : string) : result Keypair NetError :=
  let? bytes := map_err (hex_decode encoded) (fun err => Identity path ("identity key is not valid hex: " +:+ err)) in
  map_err (keypair_from_protobuf bytes)
    (fun err => Identity path ("identity key protobuf decode failed: " +:+ err)).

(** What is persisted for a key. *)
Definition encode_identity_key (path : string) (k : Keypair) : result (list byte) NetError :=
  let? bytes := map_err (keypair_to_protobuf k)
    (fun err => Identity path ("identity key protobuf encode failed: " +:+ err)) in
  Ok (str_as_bytes (hex_encode bytes)).

Definition read_back (key : string) (raw : list byte) : result Keypair NetError :=
  let? encoded := decode_utf8 key raw in decode_identity_key key (trim encoded).

Section backend.
Context {S : Type} `{NodeStorage S}.

Definition persist_identity_key_if_absent (path : string) (s : S) (k : Keypair) : result bool NetError * S :=
  match encode_identity_key path k with
  | Err e => (Err e, s)
  | Ok bytes => storage_write_secret_if_absent s path bytes
  end.

(** [generated] is the key [generate_ed25519] returns. *)
Definition load_or_create_identity_key_with_storage (key : string) (generated : Keypair) (s : S)
    : result Keypair NetError * S :=
  match storage_read_secret s key with
  | Err e => (Err e, s)
  | Ok (Some raw) => (read_back key raw, s)
  | Ok None =>
      match persist_identity_key_if_absent key s generated with
      | (Err e, s) => (Err e, s)
      | (Ok true, s) => (Ok generated, s)
      | (Ok false, s) =>
          (match storage_read_secret s key with
           | Err e => Err e
           | Ok None => Err (Identity key "identity creation raced but the winning key is unavailable")
           | Ok (Some raw) => read_back key raw
           end, s)
      end
  end.

(** The same function cut at its storage accesses, for interleaving. *)
Inductive Loader : Type :=
| Starting
| Creating
| Reloading
| Loaded (r : result Keypair NetError).

Definition loader_step (key : string) (generated : Keypair) (l : Loader) (s : S) : Loader * S :=
  match l with
  | Starting =>
      (match storage_read_secret s key with
       | Err e => Loaded (Err e)
       | Ok (Some raw) => Loaded (read_back key raw)
       | Ok None => Creating
       end, s)
  | Creating =>
      match persist_identity_key_if_absent key s generated with
      | (Err e, s) => (Loaded (Err e), s)
      | (Ok true, s) => (Loaded (Ok generated), s)
      | (Ok false, s) => (Reloading, s)
      end
  | Reloading =>
      (match storage_read_secret s key with
       | Err e => Loaded (Err e)
       | Ok None => Loaded (Err (Identity key "identity creation raced but the winning key is unavailable"))
       | Ok (Some raw) => Loaded (read_back key raw)
       end, s)
  | Loaded r => (Loaded r, s)
  end.
End backend.
End identity.

(** * Facts

    Facts about node storage: racing creators of the identity key agree on one
    key over every backend that keeps the storage interface, and the browser's
    journal is clean only when it is durable. *)

(** * ASCII texts as bytes *)
Lemma code_range c : 0 <= code c < 256.
Proof. unfold code. pose proof (nat_ascii_bounded c). lia. Qed.

Lemma string_of_str_bytes s : string_of_bytes (str_as_bytes s) = s.
Proof.
  unfold string_of_bytes, str_as_bytes. rewrite <- list_fmap_compose. rewrite <- (text_chars s) at 2. f_equal.
  rewrite <- (list_fmap_id (chars s)) at 2. apply list_fmap_ext. intros i c _. cbn.
  rewrite byte_to_of_Z, Z.mod_small by apply code_range. unfold code. by rewrite Nat2Z.id, ascii_nat_embedding.
Qed.

Lemma ascii_utf8_valid l : Forall (fun z => z <= 127) l -> utf8_valid l = true.
Proof. induction 1 as [|z l Hz Hl IH]; cbn; [done|]. by rewrite decide_True. Qed.

Lemma hexdigit_range c : is_ascii_hexdigit c = true -> 48 <= code c <= 102.
Proof. unfold is_ascii_hexdigit, is_ascii_digit. rewrite !orb_true_iff, !bool_decide_eq_true. lia. Qed.

Lemma trim_start_digits seqs l :
  Forall (fun p => exists x, head p = Some x /\ (x < 48 \/ 102 < x)) seqs ->
  Forall (fun c => is_ascii_hexdigit c = true) l -> trim_start_with seqs l = l.
Proof.
  intros Hs Hl. destruct Hl as [|c l Hc%hexdigit_range Hl]; [done|]. apply trim_start_id.
  eapply Forall_impl; [exact Hs|]. intros p (x & Hx & Hr). destruct p; [done|]. cbn in *. split; [|done].
  intros [= ->]. simplify_eq. lia.
Qed.

Lemma trim_digits s : Forall (fun c => is_ascii_hexdigit c = true) (chars s) -> trim s = s.
Proof.
  intros Hs. unfold trim, trim_chars.
  rewrite (trim_start_digits white_space); [|by repeat first [apply Forall_nil_2|apply Forall_cons_2; [eexists; split; [done|lia]|]]|done].
  rewrite trim_start_digits; [by rewrite reverse_involutive, text_chars| |by rewrite Forall_reverse].
  by repeat first [apply Forall_nil_2|apply Forall_cons_2; [eexists; split; [done|lia]|]].
Qed.

Section identity_facts.
Context {K : KeypairLib} {KL : KeypairLaws K} {H : HexLib} {HL : HexLaws H} {HD : HexDigits H}.
Context (utf8_error : list byte -> string).

(** A persisted key reads back. *)
Lemma read_back_encoded path k raw :
  encode_identity_key path k = Ok raw -> read_back utf8_error path raw = Ok k.
Proof.
  unfold encode_identity_key. destruct (keypair_to_protobuf k) as [bs|] eqn:E; cbn; [|done]. intros [= <-].
  pose proof (hex_digits bs) as Hd. unfold read_back, decode_utf8. rewrite ascii_utf8_valid.
  - cbn. rewrite string_of_str_bytes, trim_digits by done. unfold decode_identity_key. rewrite hex_decode_encode. cbn.
    by rewrite (keypair_roundtrip _ _ E).
  - unfold str_as_bytes. rewrite <- list_fmap_compose. apply Forall_fmap. eapply Forall_impl; [exact Hd|].
    intros c Hc%hexdigit_range. cbn. rewrite byte_to_of_Z, Z.mod_small by apply code_range. lia.
Qed.

Section backend_facts.
Context {S : Type} `{NodeStorage S} {SL : StorageLaws S}.

(** The steps are the function: three of them reach its result. *)
Lemma loader_runs_function key k s :
  let '(l1, s1) := loader_step utf8_error key k Starting s in
  let '(l2, s2) := loader_step utf8_error key k l1 s1 in
  let '(l3, s3) := loader_step utf8_error key k l2 s2 in
  let '(r, s') := load_or_create_identity_key_with_storage utf8_error key k s in
  l3 = Loaded r /\ s3 = s'.
Proof.
  unfold load_or_create_identity_key_with_storage. cbn.
  destruct (storage_read_secret s key) as [[raw|]|e]; cbn; [done| |done].
  destruct (persist_identity_key_if_absent key s k) as [[[]|e] s1]; cbn; [done| |done].
  by destruct (storage_read_secret s1 key) as [[raw|]|e].
Qed.

(** Processes that load or create the same key over one storage, each with the
    key it would generate. *)
Record creators := { cr_storage : S; cr_loaders : list (Keypair * Loader) }.

Inductive creators_step (key : string) : creators -> creators -> Prop :=
| creator_step c i k l l' s' :
    cr_loaders c !! i = Some (k, l) ->
    loader_step utf8_error key k l (cr_storage c) = (l', s') ->
    creators_step key c {| cr_storage := s'; cr_loaders := <[i := (k, l')]> (cr_loaders c) |}.

(** What a process knows of the storage. *)
Definition loader_ok (key : string) (stored : option (list byte)) (e : Keypair * Loader) : Prop :=
  is_ok (encode_identity_key key e.1) = true /\
  match e.2 with
  | Starting | Creating => True
  | Reloading => is_Some stored
  | Loaded r => exists raw, stored = Some raw /\ r = read_back utf8_error key raw
  end.

Definition creators_ok (key : string) (c : creators) : Prop :=
  storage_ok (cr_storage c) /\
  Forall (loader_ok key (storage_view (cr_storage c) !! key)) (cr_loaders c).

(** Once stored, the key stays. *)
Definition keeps (before after : option (list byte)) : Prop := is_Some before -> after = before.

Lemma loader_ok_keeps key before after e : keeps before after -> loader_ok key before e -> loader_ok key after e.
Proof.
  intros Hk [He Hl]. split; [done|]. destruct e as [k [| | |r]]; cbn in *; try done.
  - rewrite Hk; done.
  - destruct Hl as (raw & -> & ->). exists raw. rewrite Hk by eauto. done.
Qed.

Lemma loader_step_ok key k l s l' s' :
  loader_step utf8_error key k l s = (l', s') -> storage_ok s -> loader_ok key (storage_view s !! key) (k, l) ->
  storage_ok s' /\ keeps (storage_view s !! key) (storage_view s' !! key) /\
  loader_ok key (storage_view s' !! key) (k, l').
Proof.
  intros Hstep Hs [He Hl]. destruct l as [| | |r]; cbn in *.
  - rewrite law_read_secret in Hstep by done. injection Hstep as <- <-. split; [done|]. split; [done|]. split; [done|].
    destruct (storage_view s !! key) as [raw|] eqn:E; cbn; eauto.
  - unfold persist_identity_key_if_absent in Hstep. destruct (encode_identity_key key k) as [bytes|e] eqn:Ee; [|done].
    pose proof (law_if_absent s key bytes Hs) as Hw. destruct (storage_write_secret_if_absent s key bytes) as [r s1].
    destruct Hw as [Hs1 Hw]. destruct (storage_view s !! key) as [raw|] eqn:E; destruct Hw as [-> Hv].
    + injection Hstep as <- <-. split; [done|]. rewrite Hv, E. split; [done|]. split; cbn; [by rewrite Ee|eauto].
    + injection Hstep as <- <-. split; [done|]. rewrite Hv, lookup_insert_eq. split; [by intros []|].
      split; cbn; [by rewrite Ee|]. exists bytes. split; [done|]. symmetry. by apply (read_back_encoded key).
  - rewrite law_read_secret in Hstep by done. destruct Hl as [raw E]. rewrite E in Hstep. injection Hstep as <- <-.
    split; [done|]. rewrite E. split; [done|]. split; [done|]. cbn. eauto.
  - injection Hstep as <- <-. split; [done|]. split; [done|]. by split.
Qed.

Lemma creators_step_ok key c c' : creators_step key c c' -> creators_ok key c -> creators_ok key c'.
Proof.
  intros [c0 i k l l' s' Hi Hstep] [Hs Hf]. pose proof (Forall_lookup_1 _ _ _ _ Hf Hi) as Hl.
  destruct (loader_step_ok _ _ _ _ _ _ Hstep Hs Hl) as (Hs' & Hk & Hl'). split; [done|]. cbn.
  apply Forall_insert; [|done]. eapply Forall_impl; [exact Hf|]. intros e. by apply loader_ok_keeps.
Qed.

(** C14: Racing creators of the identity key converge. However any number of
    processes that load or create the identity key interleave their storage
    accesses, over any backend that keeps the storage interface, all that
    finish return the same result, which is the key the storage holds; and when
    no key was stored before, none of them fails. *)
Theorem identity_race_converges (key : string) (s : S) (generated : list Keypair) (c : creators) :
  storage_ok s ->
  Forall (fun k => is_ok (encode_identity_key key k) = true) generated ->
  rtc (creators_step key) {| cr_storage := s; cr_loaders := (fun k => (k, Starting)) <$> generated |} c ->
  forall i j k k' r r',
    cr_loaders c !! i = Some (k, Loaded r) -> cr_loaders c !! j = Some (k', Loaded r') ->
    r = r' /\ (exists raw, storage_view (cr_storage c) !! key = Some raw /\ r = read_back utf8_error key raw) /\
    (storage_view s !! key = None -> exists winner, winner ∈ generated /\ r = Ok winner).
Proof.
  intros Hs Hg Hr.
  set (P := fun c : creators => creators_ok key c /\ Forall (fun e => e.1 ∈ generated) (cr_loaders c) /\
    (storage_view s !! key = None -> forall raw, storage_view (cr_storage c) !! key = Some raw ->
       exists k, k ∈ generated /\ encode_identity_key key k = Ok raw)).
  assert (Hinv : P c).
  { revert c Hr. apply rtc_ind_r.
    - split_and!; cbn.
      + split; [done|]. cbn. apply Forall_fmap. eapply Forall_impl; [exact Hg|]. intros k Hk. by split.
      + apply Forall_fmap, Forall_forall. done.
      + intros E raw. by rewrite E.
    - intros x y _ Hxy (Hok & Hin & Hst). split_and!; [by eapply creators_step_ok| |].
      + destruct Hxy as [x i k l l' s' Hi _]. cbn. apply Forall_insert; [done|]. cbn.
        exact (Forall_lookup_1 _ _ _ _ Hin Hi).
      + intros E raw Hraw. destruct Hxy as [x i k l l' s' Hi Hstep]. cbn in Hraw. specialize (Hst E).
        destruct Hok as [Hsx Hf]. pose proof (Forall_lookup_1 _ _ _ _ Hf Hi) as Hl.
        destruct (loader_step_ok _ _ _ _ _ _ Hstep Hsx Hl) as (_ & Hk & _).
        destruct (storage_view (cr_storage x) !! key) as [raw0|] eqn:E0.
        { rewrite Hk in Hraw by eauto. by apply Hst. }
        destruct l as [| | |r]; cbn in Hstep; try (injection Hstep as <- <-; congruence).
        unfold persist_identity_key_if_absent in Hstep.
        destruct (encode_identity_key key k) as [bytes|e] eqn:Ee; [|by destruct Hl as [Hl _]; cbn in Hl; rewrite Ee in Hl].
        pose proof (law_if_absent (cr_storage x) key bytes Hsx) as Hw.
        destruct (storage_write_secret_if_absent _ _ _) as [rw s1]. rewrite E0 in Hw. destruct Hw as (_ & -> & Hv).
        injection Hstep as <- <-. rewrite Hv, lookup_insert_eq in Hraw. injection Hraw as <-. exists k. split; [|done].
        exact (Forall_lookup_1 _ _ _ _ Hin Hi). }
  destruct Hinv as ([Hsc Hf] & Hin & Hst). intros i j k k' r r' Hi Hj.
  destruct (Forall_lookup_1 _ _ _ _ Hf Hi) as [_ (raw & Hraw & Hr1)].
  destruct (Forall_lookup_1 _ _ _ _ Hf Hj) as [_ (raw' & Hraw' & Hr2)]. cbn in *. rewrite Hraw in Hraw'. injection Hraw' as <-.
  split; [congruence|]. split; [eauto|]. intros E. rewrite Hr1. destruct (Hst E raw Hraw) as (w & Hw & Hew).
  exists w. split; [done|]. by apply (read_back_encoded key).
Qed.
End backend_facts.
End identity_facts.

(** * The browser's journal *)

(** A flush in progress: the revision and the snapshot it took, and whether the
    journal is written. *)
Record browser := { br_storage : BrowserNodeStorage; br_flush : option (Z * gmap string (list byte) * bool) }.

(** Writes, deletes and creations happen at any moment; one flush runs at a
    time; fewer than 2^64 writes happen. *)
Inductive browser_step : browser -> browser -> Prop :=
| browser_write b key value :
    bs_revision (br_storage b) < u64_max ->
    browser_step b {| br_storage := (bs_write_public (br_storage b) key value).2; br_flush := br_flush b |}
| browser_create b key value :
    bs_revision (br_storage b) < u64_max ->
    browser_step b {| br_storage := (bs_write_secret_if_absent (br_storage b) key value).2; br_flush := br_flush b |}
| browser_delete b key :
    bs_revision (br_storage b) < u64_max ->
    browser_step b {| br_storage := (bs_delete (br_storage b) key).2; br_flush := br_flush b |}
| browser_flush_begin b revision snapshot :
    br_flush b = None -> flush_begin (br_storage b) = Some (revision, snapshot) ->
    browser_step b {| br_storage := br_storage b; br_flush := Some (revision, snapshot, false) |}
| browser_flush_write b revision snapshot :
    br_flush b = Some (revision, snapshot, false) ->
    browser_step b {| br_storage := flush_write (br_storage b) snapshot; br_flush := Some (revision, snapshot, true) |}
| browser_flush_mark b revision snapshot :
    br_flush b = Some (revision, snapshot, true) ->
    browser_step b {| br_storage := flush_mark (br_storage b) revision; br_flush := None |}
| browser_flush_failed b f :
    br_flush b = Some f -> browser_step b {| br_storage := br_storage b; br_flush := None |}.

Record journal_inv (b : browser) : Prop := {
  ji_revision : 0 <= bs_flushed_revision (br_storage b) <= bs_revision (br_storage b) /\
    bs_revision (br_storage b) <= u64_max;
  ji_clean : bs_revision (br_storage b) = bs_flushed_revision (br_storage b) ->
    bs_persisted (br_storage b) = bs_values (br_storage b);
  ji_flush : forall revision snapshot written, br_flush b = Some (revision, snapshot, written) ->
    bs_flushed_revision (br_storage b) < revision <= bs_revision (br_storage b) /\
    (revision = bs_revision (br_storage b) -> snapshot = bs_values (br_storage b)) /\
    (written = true -> bs_persisted (br_storage b) = snapshot);
}.

Lemma touch_inv s f values :
  bs_revision s < u64_max -> journal_inv {| br_storage := s; br_flush := f |} ->
  journal_inv {| br_storage := bs_touch s values; br_flush := f |}.
Proof.
  intros Hr [H1 H2 H3]. cbn in *. assert (Hm : (bs_revision s + 1) mod (u64_max + 1) = bs_revision s + 1).
  { apply Z.mod_small. lia. }
  split; cbn; rewrite ?Hm; [lia|lia|]. intros r snap w Hf. destruct (H3 r snap w Hf) as (A & B & C).
  split; [lia|]. split; [lia|done].
Qed.

Lemma browser_step_inv b b' : browser_step b b' -> journal_inv b -> journal_inv b'.
Proof.
  intros Hs Hi. destruct Hs as [b key value Hr|b key value Hr|b key Hr|b r snap Hn Hb|b r snap Hf|b r snap Hf|b f Hf];
    destruct b as [s fl]; cbn in *.
  - by apply touch_inv.
  - unfold bs_write_secret_if_absent. case_decide; [done|]. by apply touch_inv.
  - unfold bs_delete. cbn. case_decide; [|done]. by apply touch_inv.
  - destruct Hi as [H1 H2 H3]. unfold flush_begin, is_dirty in Hb. cbn in *. split; cbn; [done..|].
    intros r' snap' w [= <- <- <-]. case_bool_decide as Hd; [done|]. cbn in Hb. injection Hb as <- <-. split; [lia|done].
  - destruct Hi as [H1 H2 H3]. cbn in *. destruct (H3 _ _ _ Hf) as (A & B & C). split; cbn; [done| |].
    + intros Heq. lia.
    + intros r' snap' w [= <- <- <-]. done.
  - destruct Hi as [H1 H2 H3]. cbn in *. destruct (H3 _ _ _ Hf) as (A & B & C). specialize (C eq_refl).
    split; cbn; [lia| |done]. intros Heq. rewrite C. apply B. lia.
  - destruct Hi as [H1 H2 H3]. cbn in *. split; cbn; [done|done|done].
Qed.

(** C24: The browser's storage is clean only when it is durable. However writes,
    creations and deletions interleave with flushes that complete or fail, a
    storage that reports itself clean has its exact contents in the database,
    so reopening the journal gives the same storage. *)
Theorem clean_journal_is_durable (journal : gmap string (list byte)) (b : browser) :
  rtc browser_step {| br_storage := bs_open journal; br_flush := None |} b ->
  is_dirty (br_storage b) = false ->
  bs_persisted (br_storage b) = bs_values (br_storage b) /\
  forall key, storage_read (bs_open (bs_persisted (br_storage b))) key = storage_read (br_storage b) key.
Proof.
  intros Hr Hc. assert (Hi : journal_inv b).
  { revert b Hr Hc. intros b Hr _. revert b Hr. apply rtc_ind_r; [|eauto using browser_step_inv].
    split; cbn; done. }
  assert (He : bs_persisted (br_storage b) = bs_values (br_storage b)).
  { apply Hi. unfold is_dirty in Hc. apply negb_false_iff, bool_decide_eq_true in Hc. done. }
  split; [done|]. intros key. cbn. by rewrite He.
Qed.
