(* ===== verification/Namespace.v ===== *)
(** Application discovery namespaces (crates/connectivity/namespace.rs): how a
    tag becomes a namespace that does not show it, and the compatibility
    protocol of crates/connectivity/discovery.rs
    ([application_protocol_version]) that proves an equal set of namespaces. *)

From S2P Require Import Prelude Text Bytes BTree Common Relay Storage.
From Stdlib Require Import Strings.Byte Ascii.

#[local] Open Scope Z_scope.

Definition DISCOVERY_NAMESPACE_PREFIX : string := "p2p-net".
Definition DISCOVERY_NAMESPACE_HASH_CONTEXT : string := "p2p-net.discovery.namespace.v1".
Definition DEFAULT_DISCOVERY_TAG : string := "__default_application_mesh__".
Definition MAX_DISCOVERY_APP_ID_LEN : Z := 64.
Definition MAX_DISCOVERY_TAG_LEN : Z := 256.
Definition MAX_DISCOVERY_TAGS : Z := 64.

Inductive DiscoveryNamespacePrivacy : Type := Hashed | ReadableUnsafe.

#[global] Instance DiscoveryNamespacePrivacy_eq_dec : EqDecision DiscoveryNamespacePrivacy.
Proof. solve_decision. Defined.

Definition privacy_as_str (p : DiscoveryNamespacePrivacy) : string :=
  match p with Hashed => "hashed" | ReadableUnsafe => "readable_unsafe" end.

Record DiscoveryNamespaceConfig := {
  ns_app_id : string;
  ns_tags : list string;
  ns_privacy : DiscoveryNamespacePrivacy;
  ns_allow_readable_tags : bool;
}.

Definition DiscoveryNamespaceConfig_default : DiscoveryNamespaceConfig :=
  {| ns_app_id := "p2p-net"; ns_tags := []; ns_privacy := Hashed; ns_allow_readable_tags := false |}.

Record DiscoveryNamespace := {
  dn_network_id : Z;
  dn_app_id : string;
  dn_namespace : string;
  dn_tag_fingerprint_hex : string;
  dn_privacy : DiscoveryNamespacePrivacy;
}.

(** * Segments *)
Definition is_continuation (c : ascii) : bool := bool_decide (128 <= code c <= 191).

(** What one byte of the text adds to [out]: an ASCII character is its own, and
    a longer character is one dash, written at its first byte. *)
Definition segment_char (c : ascii) : list ascii :=
  if is_ascii_alphanumeric c then [to_ascii_lowercase_char c]
  else if bool_decide (c = "-"%char \/ c = "_"%char \/ c = "."%char) then [c]
  else if is_continuation c then []
  else ["-"%char].

(** [str::replace] of two dashes by one, left to right. *)
Fixpoint replace_dashes (l : list ascii) : list ascii :=
  match l with
  | [] => []
  | c :: rest =>
      match rest with
      | d :: rest' => if decide (c = "-"%char /\ d = "-"%char) then "-"%char :: replace_dashes rest'
                      else c :: replace_dashes rest
      | [] => [c]
      end
  end.

Fixpoint contains_dashes (l : list ascii) : bool :=
  match l with
  | [] => false
  | c :: rest => bool_decide (c = "-"%char /\ head rest = Some "-"%char) || contains_dashes rest
  end.

Definition collapse_step (l : list ascii) : option (list ascii) :=
  if contains_dashes l then Some (replace_dashes l) else None.

(** The [while] loop. *)
Definition collapse_dashes (l : list ascii) : list ascii := loop collapse_step (length l) l.

Fixpoint drop_dashes (l : list ascii) : list ascii :=
  match l with
  | c :: rest => if decide (c = "-"%char) then drop_dashes rest else l
  | [] => []
  end.

(** [trim_matches('-')]. *)
Definition trim_dashes (l : list ascii) : list ascii := reverse (drop_dashes (reverse (drop_dashes l))).

Definition normalize_namespace_segment (value : string) : result string NetError :=
  let trimmed := trim value in
  if decide (trimmed = "") then Err (config_error "namespace segment must not be empty")
  else
    let out := trim_dashes (collapse_dashes (mjoin (segment_char <$> chars trimmed))) in
    if decide (out = []) then Err (config_error "namespace segment must contain at least one alphanumeric character")
    else Ok (text out).

(** * Validation *)
Definition validate_length (max : Z) (value field : string) : result unit NetError :=
  let trimmed := trim value in
  let? _ := reject_if (bool_decide (trimmed = "")) (config_error (field +:+ " must not be empty")) in
  reject_if (bool_decide (max < str_len trimmed)) (config_error (field +:+ " must be at most " +:+ pretty max +:+ " bytes")).

Definition validate_app_id (value field : string) : result unit NetError := validate_length MAX_DISCOVERY_APP_ID_LEN value field.
Definition validate_tag (value field : string) : result unit NetError := validate_length MAX_DISCOVERY_TAG_LEN value field.

Fixpoint validate_tags (idx : Z) (tags : list string) : result unit NetError :=
  match tags with
  | [] => Ok tt
  | tag :: rest =>
      let? _ := validate_tag tag ("discovery.namespace.tags[" +:+ pretty idx +:+ "]") in validate_tags (idx + 1) rest
  end.

Definition DiscoveryNamespaceConfig_validate (c : DiscoveryNamespaceConfig) : result unit NetError :=
  let? _ := validate_app_id (ns_app_id c) "discovery.namespace.app_id" in
  let? _ := reject_if (bool_decide (MAX_DISCOVERY_TAGS < len (ns_tags c)))
    (config_error ("discovery.namespace.tags supports at most " +:+ pretty MAX_DISCOVERY_TAGS +:+ " entries")) in
  let? _ := reject_if (bool_decide (ns_privacy c = ReadableUnsafe) && negb (ns_allow_readable_tags c))
    (config_error "discovery.namespace.privacy=readable_unsafe requires allow_readable_tags=true") in
  validate_tags 0 (ns_tags c).

Definition ns_is_enabled (c : DiscoveryNamespaceConfig) : bool := negb (bool_decide (ns_tags c = [])).

Section hashing.
Context {H : HexLib} {B : Blake3Lib}.

(** * Derivation *)
Definition tag_material (network_id : Z) (app_id tag : string) : list byte :=
  str_as_bytes DISCOVERY_NAMESPACE_HASH_CONTEXT ++ be_bytes 4 network_id ++ [x00] ++ str_as_bytes app_id ++ [x00]
  ++ str_as_bytes tag.

Definition discovery_tag_hash_hex (network_id : Z) (app_id tag : string) : string :=
  blake3_hex (tag_material network_id app_id tag).

Definition build_discovery_namespace (network_id : Z) (app_id tag : string) (privacy : DiscoveryNamespacePrivacy)
    (allow_readable_tags : bool) : result DiscoveryNamespace NetError :=
  let? _ := validate_app_id app_id "app_id" in
  let? _ := validate_tag tag "tag" in
  let? _ := reject_if (bool_decide (privacy = ReadableUnsafe) && negb allow_readable_tags)
    (config_error "readable discovery namespaces require allow_readable_tags=true") in
  let? app_id := normalize_namespace_segment app_id in
  let fingerprint := discovery_tag_hash_hex network_id app_id tag in
  let? tag_segment := match privacy with
                      | Hashed => Ok fingerprint
                      | ReadableUnsafe => normalize_namespace_segment tag
                      end in
  Ok {| dn_network_id := network_id; dn_app_id := app_id;
        dn_namespace := DISCOVERY_NAMESPACE_PREFIX +:+ "/" +:+ pretty network_id +:+ "/" +:+ app_id +:+ "/" +:+ tag_segment;
        dn_tag_fingerprint_hex := fingerprint; dn_privacy := privacy |}.

Definition default_discovery_namespace (network_id : Z) (app_id : string) : result DiscoveryNamespace NetError :=
  build_discovery_namespace network_id app_id DEFAULT_DISCOVERY_TAG Hashed false.

(** The loop of [derived_namespaces]: a namespace already derived is skipped. *)
Fixpoint derive_tags (network_id : Z) (c : DiscoveryNamespaceConfig) (tags : list string) (acc : list DiscoveryNamespace)
    : result (list DiscoveryNamespace) NetError :=
  match tags with
  | [] => Ok acc
  | tag :: rest =>
      let? namespace := build_discovery_namespace network_id (ns_app_id c) tag (ns_privacy c) (ns_allow_readable_tags c) in
      derive_tags network_id c rest
        (if existsb (fun known => String.eqb (dn_namespace known) (dn_namespace namespace)) acc then acc
         else acc ++ [namespace])
  end.

Definition derived_namespaces (c : DiscoveryNamespaceConfig) (network_id : Z) : result (list DiscoveryNamespace) NetError :=
  let? _ := DiscoveryNamespaceConfig_validate c in derive_tags network_id c (ns_tags c) [].

(** * Namespaces of the node and the compatibility protocol (discovery.rs)

    [operator] is [rendezvous.namespace], and [RendezvousConfig::default()] has
    the namespace p2p-net. *)
Definition DEFAULT_RENDEZVOUS_NAMESPACE : string := "p2p-net".

Definition rendezvous_namespaces (c : DiscoveryNamespaceConfig) (operator : string) (network_id : Z)
    : result (list string) NetError :=
  if ns_is_enabled c then
    let? items := derived_namespaces c network_id in Ok (dn_namespace <$> items)
  else if decide (operator = DEFAULT_RENDEZVOUS_NAMESPACE) then
    let? item := default_discovery_namespace network_id (ns_app_id c) in Ok [dn_namespace item]
  else Ok [operator].

Definition APPLICATION_COMPATIBILITY_CONTEXT : string := "p2p-net.application.compatibility.v1".

(** [sort_unstable] and [dedup]: the set in ascending order. *)
Definition canonical (namespaces : list string) : list string := bt_iter (list_to_set namespaces : gset string).

Definition compatibility_material (network_id : Z) (namespaces : list string) : list byte :=
  str_as_bytes APPLICATION_COMPATIBILITY_CONTEXT ++ be_bytes 4 network_id
  ++ mjoin ((fun ns => x00 :: str_as_bytes ns) <$> canonical namespaces).

Definition application_protocol (network_id : Z) (namespaces : list string) : string :=
  "/p2p-net/net-" +:+ pretty network_id +:+ "/app-" +:+ blake3_hex (compatibility_material network_id namespaces) +:+ "/1.0.0".

Definition application_protocol_version (c : DiscoveryNamespaceConfig) (operator : string) (network_id : Z)
    : result string NetError :=
  let? namespaces := rendezvous_namespaces c operator network_id in Ok (application_protocol network_id namespaces).
End hashing.

Example segments :
  (normalize_namespace_segment " My  App!! ", normalize_namespace_segment "a--b__c.D", is_ok (normalize_namespace_segment "---"))
  = (Ok "my-app", Ok "a-b__c.d", false)%string.
Proof. vm_compute. reflexivity. Qed.

(** * Facts

    Facts about discovery namespaces: segments are canonical, namespaces
    separate networks, applications and tags, and equal compatibility
    protocols prove equal sets of namespaces. *)

(** * Collapsing dashes *)
(** Two elements at a time. *)
Lemma list_ind2 {A} (Q : list A -> Prop) :
  Q [] -> (forall x, Q [x]) -> (forall x y l, Q l -> Q (y :: l) -> Q (x :: y :: l)) -> forall l, Q l.
Proof.
  intros H0 H1 H2 l. enough (Q l /\ forall x, Q (x :: l)) by tauto. induction l as [|y l [IH1 IH2]]; [auto|].
  split; [auto|]. intros x. apply H2; auto.
Qed.

Lemma replace_dashes_length l :
  (length (replace_dashes l) <= length l)%nat /\
  (contains_dashes l = true -> (length (replace_dashes l) < length l)%nat).
Proof.
  induction l as [|c|c d l [IH1 _] [IH2 IH3]] using list_ind2.
  - done.
  - cbn. split; [lia|]. rewrite bool_decide_eq_false_2 by naive_solver. done.
  - change (replace_dashes (c :: d :: l)) with
      (if decide (c = "-"%char /\ d = "-"%char) then "-"%char :: replace_dashes l else c :: replace_dashes (d :: l)).
    change (contains_dashes (c :: d :: l)) with
      (bool_decide (c = "-"%char /\ Some d = Some "-"%char) || contains_dashes (d :: l)).
    case_decide as Hd.
    + cbn [length]. lia.
    + rewrite bool_decide_eq_false_2 by naive_solver. cbn [length orb] in *. split; [lia|]. intros Hc.
      specialize (IH3 Hc). lia.
Qed.

(** The loop ends, without two dashes in a row. *)
Lemma collapse_dashes_exits l : contains_dashes (collapse_dashes l) = false.
Proof.
  assert (H : collapse_step (collapse_dashes l) = None).
  { apply (loop_exits collapse_step length); [|done]. intros s s' Hs. unfold collapse_step in Hs.
    destruct (contains_dashes s) eqn:E; [|done]. injection Hs as <-. by apply replace_dashes_length. }
  unfold collapse_step in H. by destruct (contains_dashes (collapse_dashes l)).
Qed.

Definition segment_ok (c : ascii) : bool :=
  bool_decide (48 <= code c <= 57) || bool_decide (97 <= code c <= 122)
  || bool_decide (c = "-"%char \/ c = "_"%char \/ c = "."%char).

Lemma replace_dashes_Forall (Q : ascii -> Prop) l : Forall Q l -> Forall Q (replace_dashes l).
Proof.
  induction l as [|c|c d l IH1 IH2] using list_ind2; [done|done|]. intros [Hc Hdl]%Forall_cons.
  cbn [replace_dashes]. case_decide as Hd.
  - destruct Hd as [-> ->]. constructor; [done|]. apply IH1. by apply Forall_cons in Hdl as [_ ?].
  - constructor; [done|]. by apply IH2.
Qed.

Lemma collapse_dashes_Forall (Q : ascii -> Prop) l : Forall Q l -> Forall Q (collapse_dashes l).
Proof.
  apply loop_inv. intros s s' Hs Hst. unfold collapse_step in Hst. destruct (contains_dashes s); [|done].
  injection Hst as <-. by apply replace_dashes_Forall.
Qed.

(** [drop_dashes] takes a prefix of dashes away. *)
Lemma drop_dashes_spec l : exists n, l = replicate n "-"%char ++ drop_dashes l /\ head (drop_dashes l) ≠ Some "-"%char.
Proof.
  induction l as [|c l (n & Hn & Hh)]; [by exists 0%nat|]. cbn. case_decide as Hc.
  - subst c. exists (S n). split; [cbn; by rewrite <- Hn|done].
  - exists 0%nat. split; [done|]. cbn. by intros [= ->].
Qed.

Lemma drop_dashes_id l : head l ≠ Some "-"%char -> drop_dashes l = l.
Proof. destruct l as [|c l]; cbn; [done|]. intros H. rewrite decide_False; [done|]. by intros ->. Qed.

(** Being without a double dash is inherited by every part. *)
Lemma contains_dashes_app l1 l2 : contains_dashes (l1 ++ l2) = false -> contains_dashes l1 = false /\ contains_dashes l2 = false.
Proof.
  induction l1 as [|c l1 IH]; cbn; [done|]. intros [H1 H2]%orb_false_iff. destruct (IH H2) as [-> ->]. split; [|done].
  rewrite orb_false_r. apply bool_decide_eq_false in H1. apply bool_decide_eq_false. destruct l1; cbn in *; naive_solver.
Qed.

Lemma trim_dashes_spec l :
  exists n m, l = replicate n "-"%char ++ trim_dashes l ++ replicate m "-"%char /\
    head (trim_dashes l) ≠ Some "-"%char /\ last (trim_dashes l) ≠ Some "-"%char.
Proof.
  unfold trim_dashes. destruct (drop_dashes_spec l) as (n & Hn & Hh).
  destruct (drop_dashes_spec (reverse (drop_dashes l))) as (m & Hm & Hl).
  set (k := drop_dashes (reverse (drop_dashes l))) in *. exists n, m.
  assert (Hk : drop_dashes l = reverse k ++ replicate m "-"%char).
  { rewrite <- (reverse_involutive (drop_dashes l)), Hm, reverse_app. f_equal.
    apply reverse_replicate. }
  split; [by rewrite Hn, Hk at 1|]. split.
  - destruct (reverse k) as [|c r] eqn:E; [done|]. rewrite Hk in Hh. exact Hh.
  - rewrite last_reverse. exact Hl.
Qed.

Lemma trim_dashes_id l : head l ≠ Some "-"%char -> last l ≠ Some "-"%char -> trim_dashes l = l.
Proof.
  intros Hh Hl. unfold trim_dashes. rewrite (drop_dashes_id l) by done.
  rewrite drop_dashes_id by by rewrite head_reverse. apply reverse_involutive.
Qed.

(** * Segments are canonical *)
Lemma segment_ok_char c : segment_ok c = true -> segment_char c = [c] /\ not_space c /\ c ≠ "000"%char.
Proof.
  destruct c as [[] [] [] [] [] [] [] []]; intros H; vm_compute in H; try discriminate H;
    (split; [vm_compute; reflexivity|]; split; [|discriminate]; split; repeat constructor; intros H'; vm_compute in H'; discriminate H').
Qed.

Lemma segment_char_ok c : Forall (fun d => segment_ok d = true) (segment_char c).
Proof.
  apply Forall_forall. intros d Hd. apply list_elem_of_In in Hd.
  assert (H : forallb segment_ok (segment_char c) = true)
    by (destruct c as [[] [] [] [] [] [] [] []]; vm_compute; reflexivity).
  rewrite forallb_forall in H. by apply H.
Qed.

Lemma mjoin_segments l : Forall (fun d => segment_ok d = true) (mjoin (segment_char <$> l)).
Proof.
  induction l as [|c l IH]; [constructor|]. change (mjoin (segment_char <$> c :: l)) with (segment_char c ++ mjoin (segment_char <$> l)). apply Forall_app.
  split; [apply segment_char_ok|exact IH].
Qed.

Lemma mjoin_segments_id l : Forall (fun d => segment_ok d = true) l -> mjoin (segment_char <$> l) = l.
Proof.
  induction 1 as [|c l Hc _ IH]; [done|]. change (mjoin (segment_char <$> c :: l)) with (segment_char c ++ mjoin (segment_char <$> l)).
  destruct (segment_ok_char c Hc) as [-> _]. by rewrite IH.
Qed.

(** What a normalized segment is. *)
Definition canonical_segment (s : string) : Prop :=
  s ≠ "" /\ Forall (fun d => segment_ok d = true) (chars s) /\ contains_dashes (chars s) = false /\
  head (chars s) ≠ Some "-"%char /\ last (chars s) ≠ Some "-"%char.

Lemma normalize_segment_canonical value s : normalize_namespace_segment value = Ok s -> canonical_segment s.
Proof.
  unfold normalize_namespace_segment. case_decide; [done|].
  set (joined := mjoin _). destruct (trim_dashes_spec (collapse_dashes joined)) as (n & m & Hs & Hh & Hl).
  pose proof (collapse_dashes_exits joined) as Hc.
  pose proof (collapse_dashes_Forall _ _ (mjoin_segments (chars (trim value)))) as Hok. fold joined in Hok.
  set (out := trim_dashes (collapse_dashes joined)) in *. rewrite Hs in Hc, Hok.
  apply contains_dashes_app in Hc as [_ Hc]. apply contains_dashes_app in Hc as [Hc _].
  rewrite !Forall_app in Hok. case_decide as Ho; [done|]. intros [= <-]. unfold canonical_segment. rewrite chars_text.
  split_and!; try tauto. destruct out; [done|discriminate].
Qed.

Lemma canonical_segment_fixed s : canonical_segment s -> normalize_namespace_segment s = Ok s.
Proof.
  intros (Hne & Hok & Hc & Hh & Hl). unfold normalize_namespace_segment.
  rewrite trim_id by (done || by eapply Forall_impl; [exact Hok|]; intros c Hcc; apply segment_ok_char).
  rewrite decide_False by done. rewrite mjoin_segments_id by done.
  unfold collapse_dashes. rewrite loop_stop by (unfold collapse_step; by rewrite Hc).
  rewrite trim_dashes_id by done. rewrite decide_False; [by rewrite text_chars|].
  destruct s; [done|]. discriminate.
Qed.

(** The dash-collapsing loop of [normalize_namespace_segment] always
    reaches its exit condition, within as many rounds as the text has bytes; and
    a segment is accepted exactly when the result is canonical: lower-case
    letters, digits, dash, underscore and dot, no two dashes in a row, none at
    the ends; normalizing it again changes nothing. *)
Theorem namespace_segment_loop_terminates value l :
  (collapse_step (loop collapse_step (length l) l) = None /\
   forall fuel, (length l <= fuel)%nat -> loop collapse_step fuel l = collapse_dashes l) /\
  (forall s, normalize_namespace_segment value = Ok s -> canonical_segment s /\ normalize_namespace_segment s = Ok s).
Proof.
  assert (Hdec : forall s s', collapse_step s = Some s' -> (length s' < length s)%nat).
  { intros s s' Hs. unfold collapse_step in Hs. destruct (contains_dashes s) eqn:E; [|done]. injection Hs as <-.
    by apply replace_dashes_length. }
  split; [split|].
  - by apply (loop_exits collapse_step length).
  - intros fuel Hf. by apply (loop_fuel collapse_step length).
  - intros s Hs. apply normalize_segment_canonical in Hs. split; [done|]. by apply canonical_segment_fixed.
Qed.

(** * Texts as bytes *)
Lemma string_app_assoc (a b c : string) : a +:+ (b +:+ c) = (a +:+ b) +:+ c.
Proof. induction a as [|x a IH]; [done|]. change (String x (a +:+ (b +:+ c)) = String x ((a +:+ b) +:+ c)). by rewrite IH. Qed.

Lemma string_app_nil_r (a : string) : a +:+ "" = a.
Proof. induction a as [|x a IH]; [done|]. change (String x (a +:+ "") = String x a). by rewrite IH. Qed.

Lemma str_as_bytes_inj a b : str_as_bytes a = str_as_bytes b -> a = b.
Proof. intros E. rewrite <- (string_of_str_bytes a), <- (string_of_str_bytes b). by rewrite E. Qed.

(** A text without NUL. *)
Definition nul_free (s : string) : Prop := "000"%char ∉ chars s.

Lemma nul_free_bytes s : nul_free s -> x00 ∉ str_as_bytes s.
Proof.
  intros Hs. unfold str_as_bytes. rewrite list_elem_of_fmap. intros (c & Hb & Hc). apply Hs.
  apply (f_equal byte_to_Z) in Hb. rewrite byte_to_of_Z, Z.mod_small in Hb by apply code_range.
  change (byte_to_Z x00) with 0 in Hb. unfold code in Hb.
  assert (c = "000"%char) as ->; [|done]. rewrite <- (ascii_nat_embedding c). by replace (nat_of_ascii c) with 0%nat by lia.
Qed.

Lemma nul_free_app a b : nul_free a -> nul_free b -> nul_free (a +:+ b).
Proof. unfold nul_free. rewrite chars_app. set_solver. Qed.

(** Two lists agree up to their first separators. *)
Lemma separator_split {A} (sep : A) (a b c d : list A) :
  sep ∉ a -> sep ∉ b -> a ++ sep :: c = b ++ sep :: d -> a = b /\ c = d.
Proof.
  revert b. induction a as [|x a IH]; intros [|y b] Ha Hb; cbn.
  - by intros [= ->].
  - intros [= <- _]. set_solver.
  - intros [= -> _]. set_solver.
  - intros [= -> E]. destruct (IH b) as [-> ->]; [set_solver..|done|done].
Qed.

(** A list of texts is determined by its NUL-prefixed concatenation. *)
Lemma nul_prefixed_inj (l k : list string) :
  Forall nul_free l -> Forall nul_free k ->
  mjoin ((fun ns => x00 :: str_as_bytes ns) <$> l) = mjoin ((fun ns => x00 :: str_as_bytes ns) <$> k) -> l = k.
Proof.
  assert (Hcons : forall x (m : list string), mjoin ((fun ns => x00 :: str_as_bytes ns) <$> x :: m)
    = x00 :: str_as_bytes x ++ mjoin ((fun ns => x00 :: str_as_bytes ns) <$> m)) by done.
  revert k. induction l as [|x l IH]; intros [|y k] Hl Hk; rewrite ?Hcons; [done|done|done|].
  apply Forall_cons in Hl as [Hx%nul_free_bytes Hl]. apply Forall_cons in Hk as [Hy%nul_free_bytes Hk]. intros [= E].
  assert (str_as_bytes x = str_as_bytes y /\
    mjoin ((fun ns => x00 :: str_as_bytes ns) <$> l) = mjoin ((fun ns => x00 :: str_as_bytes ns) <$> k)) as [Hs Hm].
  { destruct l as [|u l], k as [|v k]; rewrite ?Hcons in E |- *.
    - by rewrite !app_nil_r in E.
    - rewrite app_nil_r in E. exfalso. apply Hx. rewrite E. set_solver.
    - rewrite app_nil_r in E. exfalso. apply Hy. rewrite <- E. set_solver.
    - apply separator_split in E as [-> ->]; done. }
  rewrite (str_as_bytes_inj _ _ Hs). f_equal. by apply IH.
Qed.

(** * Namespaces *)
Section hashing_facts.
Context {H : HexLib} {B : Blake3Lib} {HL : HexLaws H} {HD : HexDigits H} {BL : Blake3Laws B}.

(** No collision between two inputs of the hash. *)
Definition no_collision (a b : list byte) : Prop := blake3_hash a = blake3_hash b -> a = b.

Lemma suffix_hash_inj (p q : string) a b s :
  p +:+ blake3_hex a +:+ s = q +:+ blake3_hex b +:+ s -> p = q /\ blake3_hex a = blake3_hex b.
Proof using HL BL.
  intros E. apply (f_equal chars) in E. rewrite !chars_app in E. apply app_inj_2 in E as [Hp Hh].
  - apply app_inj_2 in Hh as [Hh _]; [|done]. split; [rewrite <- (text_chars p), <- (text_chars q)|
      rewrite <- (text_chars (blake3_hex a)), <- (text_chars (blake3_hex b))]; congruence.
  - rewrite !length_app, !length_chars. pose proof (blake3_hex_len a). pose proof (blake3_hex_len b). lia.
Qed.

Lemma build_Ok n app tag privacy allow dn :
  build_discovery_namespace n app tag privacy allow = Ok dn ->
  exists id seg, normalize_namespace_segment app = Ok id /\ dn_network_id dn = n /\ dn_app_id dn = id /\
    dn_privacy dn = privacy /\ dn_tag_fingerprint_hex dn = discovery_tag_hash_hex n id tag /\
    dn_namespace dn = DISCOVERY_NAMESPACE_PREFIX +:+ "/" +:+ pretty n +:+ "/" +:+ id +:+ "/" +:+ seg /\
    (privacy = Hashed -> seg = discovery_tag_hash_hex n id tag) /\
    (privacy = ReadableUnsafe -> allow = true /\ normalize_namespace_segment tag = Ok seg).
Proof.
  unfold build_discovery_namespace.
  destruct (validate_app_id app "app_id"); cbn [result_bind]; [|done].
  destruct (validate_tag tag "tag"); cbn [result_bind]; [|done].
  unfold reject_if. destruct (bool_decide (privacy = ReadableUnsafe) && negb allow) eqn:Hp; cbn [result_bind]; [done|].
  destruct (normalize_namespace_segment app) as [id|]; cbn [result_bind]; [|done].
  destruct privacy.
  - cbn [result_bind]. intros [= <-]. exists id, (discovery_tag_hash_hex n id tag). split_and!; try done.
  - destruct (normalize_namespace_segment tag) as [seg|]; cbn [result_bind]; [|done]. intros [= <-].
    exists id, seg. split_and!; try done. intros _. split; [|done]. by destruct allow.
Qed.

Lemma segment_nul_free s : canonical_segment s -> nul_free s.
Proof.
  intros (_ & Hok & _) Hin. rewrite Forall_forall in Hok. apply Hok in Hin.
  by destruct (segment_ok_char _ Hin) as (_ & _ & ?).
Qed.

Lemma hash_nul_free bs : nul_free (blake3_hex bs).
Proof using HD.
  intros Hin. pose proof (hex_digits (blake3_hash bs)) as Hd. rewrite Forall_forall in Hd. apply Hd in Hin. done.
Qed.

Lemma pretty_nul_free n : 0 <= n -> nul_free (pretty n).
Proof. intros Hn Hin. pose proof (pretty_Z_digits n Hn) as Hd. rewrite Forall_forall in Hd. apply Hd in Hin. done. Qed.

Lemma namespace_nul_free n app tag privacy allow dn :
  0 <= n -> build_discovery_namespace n app tag privacy allow = Ok dn -> nul_free (dn_namespace dn).
Proof using HD.
  clear HL BL. intros Hn (id & seg & Hid%normalize_segment_canonical & _ & _ & _ & _ & -> & Hh & Hr)%build_Ok.
  repeat apply nul_free_app; try (unfold nul_free; set_solver); [by apply pretty_nul_free|by apply segment_nul_free|].
  destruct privacy; [rewrite Hh by done; apply hash_nul_free|].
  destruct Hr as [_ Hr%normalize_segment_canonical]; [done|]. by apply segment_nul_free.
Qed.

Lemma hashed_namespace_shape n id tag :
  DISCOVERY_NAMESPACE_PREFIX +:+ "/" +:+ pretty n +:+ "/" +:+ id +:+ "/" +:+ discovery_tag_hash_hex n id tag
  = (DISCOVERY_NAMESPACE_PREFIX +:+ "/" +:+ pretty n +:+ "/" +:+ id +:+ "/") +:+ blake3_hex (tag_material n id tag) +:+ "".
Proof. unfold discovery_tag_hash_hex. by rewrite string_app_nil_r, <- !string_app_assoc. Qed.

(** Hashed namespaces separate the networks, the applications and the tags. *)
Theorem hashed_namespaces_separate n1 n2 app1 app2 tag1 tag2 a1 a2 d1 d2 id1 id2 :
  0 <= n1 < 2 ^ 32 -> 0 <= n2 < 2 ^ 32 ->
  build_discovery_namespace n1 app1 tag1 Hashed a1 = Ok d1 -> build_discovery_namespace n2 app2 tag2 Hashed a2 = Ok d2 ->
  normalize_namespace_segment app1 = Ok id1 -> normalize_namespace_segment app2 = Ok id2 ->
  no_collision (tag_material n1 id1 tag1) (tag_material n2 id2 tag2) ->
  (dn_namespace d1 = dn_namespace d2 <-> n1 = n2 /\ id1 = id2 /\ tag1 = tag2).
Proof using HL BL.
  intros Hn1 Hn2 (i1 & s1 & H1 & _ & _ & _ & _ & E1 & Hs1 & _)%build_Ok
    (i2 & s2 & H2 & _ & _ & _ & _ & E2 & Hs2 & _)%build_Ok Hid1 Hid2 Hc.
  rewrite Hid1 in H1. rewrite Hid2 in H2. simplify_eq. rewrite E1, E2, Hs1, Hs2 by done.
  split; [|by intros (-> & -> & ->)]. rewrite !hashed_namespace_shape.
  intros [_ Hh%blake3_hex_inj%Hc]%suffix_hash_inj. unfold tag_material in Hh.
  apply app_inv_head in Hh. apply app_inj_1 in Hh as [Hn Hh]; [|by rewrite !length_be_bytes].
  apply be_bytes_inj in Hn; [|done..]. cbn in Hh. injection Hh as Hh.
  apply normalize_segment_canonical, segment_nul_free, nul_free_bytes in Hid1, Hid2.
  apply separator_split in Hh as [Hid Ht]; [|done..].
  split_and!; [done|by apply str_as_bytes_inj|by apply str_as_bytes_inj].
Qed.

(** * The compatibility protocol *)
Lemma derive_tags_nul_free n c tags acc l :
  0 <= n -> derive_tags n c tags acc = Ok l -> Forall (fun d => nul_free (dn_namespace d)) acc ->
  Forall (fun d => nul_free (dn_namespace d)) l.
Proof using HD.
  clear HL BL. intros Hn. revert acc. induction tags as [|tag tags IH]; intros acc; cbn; [by intros [= <-]|].
  destruct (build_discovery_namespace _ _ _ _ _) as [d|] eqn:E; cbn [result_bind]; [|done].
  apply namespace_nul_free in E; [|done]. intros Hd Hacc. apply IH in Hd; [done|].
  destruct (existsb _ acc); [done|]. apply Forall_app. by repeat constructor.
Qed.

Lemma rendezvous_namespaces_nul_free c operator n l :
  0 <= n -> nul_free operator -> rendezvous_namespaces c operator n = Ok l -> Forall nul_free l.
Proof using HD.
  clear HL BL. intros Hn Ho. unfold rendezvous_namespaces. destruct (ns_is_enabled c).
  - unfold derived_namespaces. destruct (DiscoveryNamespaceConfig_validate c); cbn [result_bind]; [|done].
    destruct (derive_tags _ _ _ _) as [items|] eqn:E; cbn [result_bind]; [|done]. intros [= <-].
    apply Forall_fmap. eapply derive_tags_nul_free; [done|done|constructor].
  - case_decide; [|intros [= <-]; by repeat constructor].
    unfold default_discovery_namespace. destruct (build_discovery_namespace _ _ _ _ _) as [d|] eqn:E; cbn [result_bind]; [|done].
    intros [= <-]. repeat constructor. by eapply namespace_nul_free.
Qed.

Lemma canonical_inj l k : canonical l = canonical k <-> forall ns, ns ∈ l <-> ns ∈ k.
Proof.
  split.
  - intros E ns. unfold canonical in E. rewrite <- !(elem_of_list_to_set (C := gset string)), <- !elem_of_bt_iter. by rewrite E.
  - intros E. unfold canonical. f_equal. apply leibniz_equiv. intros ns. by rewrite !elem_of_list_to_set.
Qed.

Lemma canonical_Forall (Q : string -> Prop) l : Forall Q l -> Forall Q (canonical l).
Proof.
  rewrite !Forall_forall. intros Hl ns. unfold canonical. rewrite elem_of_bt_iter, elem_of_list_to_set. apply Hl.
Qed.

(** Two nodes advertise the same compatibility protocol exactly when they are in
    the same network and have the same set of application namespaces, whatever
    the order and the repetitions of the configured tags. *)
Theorem equal_protocol_iff_equal_namespaces c1 c2 o1 o2 n1 n2 l1 l2 p1 p2 :
  0 <= n1 < 2 ^ 32 -> 0 <= n2 < 2 ^ 32 -> nul_free o1 -> nul_free o2 ->
  rendezvous_namespaces c1 o1 n1 = Ok l1 -> rendezvous_namespaces c2 o2 n2 = Ok l2 ->
  application_protocol_version c1 o1 n1 = Ok p1 -> application_protocol_version c2 o2 n2 = Ok p2 ->
  no_collision (compatibility_material n1 l1) (compatibility_material n2 l2) ->
  (p1 = p2 <-> n1 = n2 /\ forall ns, ns ∈ l1 <-> ns ∈ l2).
Proof using HL HD BL.
  intros Hn1 Hn2 Ho1 Ho2 Hl1 Hl2. unfold application_protocol_version. rewrite Hl1, Hl2. cbn [result_bind].
  intros [= <-] [= <-] Hc. rewrite <- canonical_inj. split.
  - unfold application_protocol. rewrite !string_app_assoc. intros E.
    assert (blake3_hex (compatibility_material n1 l1) = blake3_hex (compatibility_material n2 l2)) as Hh%blake3_hex_inj%Hc.
    { rewrite <- !(string_app_assoc _ (blake3_hex _)) in E. by apply suffix_hash_inj in E as [_ ?]. }
    unfold compatibility_material in Hh. apply app_inv_head in Hh.
    apply app_inj_1 in Hh as [Hn Hh]; [|by rewrite !length_be_bytes]. apply be_bytes_inj in Hn; [|done..]. split; [done|].
    apply rendezvous_namespaces_nul_free in Hl1; [|lia|done]. apply rendezvous_namespaces_nul_free in Hl2; [|lia|done].
    apply nul_prefixed_inj; [by apply canonical_Forall..|done].
  - intros [-> E]. unfold application_protocol, compatibility_material. by rewrite E.
Qed.
End hashing_facts.
