(* ===== verification/RelayClient.v ===== *)
(** The client side of relaying: requested reservations and their re-requests
    (crates/connectivity/relay/requested.rs, reservation_retry.rs), the relayed
    listen addresses (crates/connectivity/relay/state.rs,
    crates/node/events/connection.rs [confirm_relayed_listen_addr]) and the
    handlers of crates/node/events/relay_client.rs.

    A [ListenerId] is a number, an [Instant] a number of nanoseconds. *)

From S2P Require Import Prelude Text Bytes BTree Common Observability Relay RelayLimiter Addresses.

#[local] Open Scope Z_scope.

Section relay_client.
Context {P : PeerIdLib} {M : MultiaddrLib}.

(** * Re-requests *)
Definition BASE_DELAY : Z := from_secs 5.
Definition MAX_DELAY : Z := from_secs 120.

Record ReservationRetries := {
  rr_listeners : gmap Z Multiaddr;
  rr_closes : gmap Multiaddr Z;
  rr_due : list (Z * Multiaddr);
}.

Definition ReservationRetries_default : ReservationRetries :=
  {| rr_listeners := ∅; rr_closes := ∅; rr_due := [] |}.

Definition track (r : ReservationRetries) (listener : Z) (addr : Multiaddr) : ReservationRetries :=
  {| rr_listeners := <[listener := addr]> (rr_listeners r); rr_closes := rr_closes r; rr_due := rr_due r |}.

Definition retry_delay (closes : Z) : Z := Z.min (BASE_DELAY * Z.shiftl 1 (Z.min closes 5)) MAX_DELAY.

Definition closed (r : ReservationRetries) (listener now : Z) : option (Multiaddr * Z) * ReservationRetries :=
  match rr_listeners r !! listener with
  | None => (None, r)
  | Some addr =>
      let closes := default 0 (rr_closes r !! addr) in
      let delay := retry_delay closes in
      (Some (addr, delay),
       {| rr_listeners := delete listener (rr_listeners r);
          rr_closes := <[addr := sat_add u32_max closes 1]> (rr_closes r);
          rr_due := rr_due r ++ [(now + delay, addr)] |})
  end.

Definition accepted (r : ReservationRetries) (relay : PeerId) : ReservationRetries :=
  {| rr_listeners := rr_listeners r;
     rr_closes := filter (fun e => relay_peer_id e.1 ≠ Some relay) (rr_closes r);
     rr_due := rr_due r |}.

(** [partition] keeps the order of the entries on both sides. *)
Definition take_due (r : ReservationRetries) (now : Z) : list Multiaddr * ReservationRetries :=
  (snd <$> filter (fun e => e.1 <= now) (rr_due r),
   {| rr_listeners := rr_listeners r; rr_closes := rr_closes r;
      rr_due := filter (fun e => ~ e.1 <= now) (rr_due r) |}).

(** * The client fields of [RelayState] *)
Record RelayClient := {
  reservation_attempted : bool;
  relay_client_reservations : gset PeerId;
  relay_client_attempted_peers : gset PeerId;
  relay_client_reservation_attempts : Z;
  relay_client_reservation_failures : Z;
  pending_relay_listen_addrs : gmap PeerId (gset string);
  relayed_listen_addrs : gset string;
  private_relayed_listen_addrs : gset string;
  requested_relay_listen_addrs : gmap PeerId (gset Multiaddr);
  reservation_retries : ReservationRetries;
}.

Definition upd_reservation_attempted (g : bool -> bool) (s : RelayClient) : RelayClient := {|
  reservation_attempted := g (reservation_attempted s); relay_client_reservations := relay_client_reservations s;
  relay_client_attempted_peers := relay_client_attempted_peers s;
  relay_client_reservation_attempts := relay_client_reservation_attempts s;
  relay_client_reservation_failures := relay_client_reservation_failures s;
  pending_relay_listen_addrs := pending_relay_listen_addrs s; relayed_listen_addrs := relayed_listen_addrs s;
  private_relayed_listen_addrs := private_relayed_listen_addrs s;
  requested_relay_listen_addrs := requested_relay_listen_addrs s; reservation_retries := reservation_retries s |}.
Definition upd_relay_client_reservations (g : gset PeerId -> gset PeerId) (s : RelayClient) : RelayClient := {|
  reservation_attempted := reservation_attempted s; relay_client_reservations := g (relay_client_reservations s);
  relay_client_attempted_peers := relay_client_attempted_peers s;
  relay_client_reservation_attempts := relay_client_reservation_attempts s;
  relay_client_reservation_failures := relay_client_reservation_failures s;
  pending_relay_listen_addrs := pending_relay_listen_addrs s; relayed_listen_addrs := relayed_listen_addrs s;
  private_relayed_listen_addrs := private_relayed_listen_addrs s;
  requested_relay_listen_addrs := requested_relay_listen_addrs s; reservation_retries := reservation_retries s |}.
Definition upd_relay_client_attempted_peers (g : gset PeerId -> gset PeerId) (s : RelayClient) : RelayClient := {|
  reservation_attempted := reservation_attempted s; relay_client_reservations := relay_client_reservations s;
  relay_client_attempted_peers := g (relay_client_attempted_peers s);
  relay_client_reservation_attempts := relay_client_reservation_attempts s;
  relay_client_reservation_failures := relay_client_reservation_failures s;
  pending_relay_listen_addrs := pending_relay_listen_addrs s; relayed_listen_addrs := relayed_listen_addrs s;
  private_relayed_listen_addrs := private_relayed_listen_addrs s;
  requested_relay_listen_addrs := requested_relay_listen_addrs s; reservation_retries := reservation_retries s |}.
Definition upd_relay_client_reservation_attempts (g : Z -> Z) (s : RelayClient) : RelayClient := {|
  reservation_attempted := reservation_attempted s; relay_client_reservations := relay_client_reservations s;
  relay_client_attempted_peers := relay_client_attempted_peers s;
  relay_client_reservation_attempts := g (relay_client_reservation_attempts s);
  relay_client_reservation_failures := relay_client_reservation_failures s;
  pending_relay_listen_addrs := pending_relay_listen_addrs s; relayed_listen_addrs := relayed_listen_addrs s;
  private_relayed_listen_addrs := private_relayed_listen_addrs s;
  requested_relay_listen_addrs := requested_relay_listen_addrs s; reservation_retries := reservation_retries s |}.
Definition upd_relay_client_reservation_failures (g : Z -> Z) (s : RelayClient) : RelayClient := {|
  reservation_attempted := reservation_attempted s; relay_client_reservations := relay_client_reservations s;
  relay_client_attempted_peers := relay_client_attempted_peers s;
  relay_client_reservation_attempts := relay_client_reservation_attempts s;
  relay_client_reservation_failures := g (relay_client_reservation_failures s);
  pending_relay_listen_addrs := pending_relay_listen_addrs s; relayed_listen_addrs := relayed_listen_addrs s;
  private_relayed_listen_addrs := private_relayed_listen_addrs s;
  requested_relay_listen_addrs := requested_relay_listen_addrs s; reservation_retries := reservation_retries s |}.
Definition upd_pending_relay_listen_addrs (g : gmap PeerId (gset string) -> gmap PeerId (gset string)) (s : RelayClient) : RelayClient := {|
  reservation_attempted := reservation_attempted s; relay_client_reservations := relay_client_reservations s;
  relay_client_attempted_peers := relay_client_attempted_peers s;
  relay_client_reservation_attempts := relay_client_reservation_attempts s;
  relay_client_reservation_failures := relay_client_reservation_failures s;
  pending_relay_listen_addrs := g (pending_relay_listen_addrs s); relayed_listen_addrs := relayed_listen_addrs s;
  private_relayed_listen_addrs := private_relayed_listen_addrs s;
  requested_relay_listen_addrs := requested_relay_listen_addrs s; reservation_retries := reservation_retries s |}.
Definition upd_relayed_listen_addrs (g : gset string -> gset string) (s : RelayClient) : RelayClient := {|
  reservation_attempted := reservation_attempted s; relay_client_reservations := relay_client_reservations s;
  relay_client_attempted_peers := relay_client_attempted_peers s;
  relay_client_reservation_attempts := relay_client_reservation_attempts s;
  relay_client_reservation_failures := relay_client_reservation_failures s;
  pending_relay_listen_addrs := pending_relay_listen_addrs s; relayed_listen_addrs := g (relayed_listen_addrs s);
  private_relayed_listen_addrs := private_relayed_listen_addrs s;
  requested_relay_listen_addrs := requested_relay_listen_addrs s; reservation_retries := reservation_retries s |}.
Definition upd_private_relayed_listen_addrs (g : gset string -> gset string) (s : RelayClient) : RelayClient := {|
  reservation_attempted := reservation_attempted s; relay_client_reservations := relay_client_reservations s;
  relay_client_attempted_peers := relay_client_attempted_peers s;
  relay_client_reservation_attempts := relay_client_reservation_attempts s;
  relay_client_reservation_failures := relay_client_reservation_failures s;
  pending_relay_listen_addrs := pending_relay_listen_addrs s; relayed_listen_addrs := relayed_listen_addrs s;
  private_relayed_listen_addrs := g (private_relayed_listen_addrs s);
  requested_relay_listen_addrs := requested_relay_listen_addrs s; reservation_retries := reservation_retries s |}.
Definition upd_requested_relay_listen_addrs (g : gmap PeerId (gset Multiaddr) -> gmap PeerId (gset Multiaddr)) (s : RelayClient) : RelayClient := {|
  reservation_attempted := reservation_attempted s; relay_client_reservations := relay_client_reservations s;
  relay_client_attempted_peers := relay_client_attempted_peers s;
  relay_client_reservation_attempts := relay_client_reservation_attempts s;
  relay_client_reservation_failures := relay_client_reservation_failures s;
  pending_relay_listen_addrs := pending_relay_listen_addrs s; relayed_listen_addrs := relayed_listen_addrs s;
  private_relayed_listen_addrs := private_relayed_listen_addrs s;
  requested_relay_listen_addrs := g (requested_relay_listen_addrs s);
  reservation_retries := reservation_retries s |}.
Definition upd_reservation_retries (g : ReservationRetries -> ReservationRetries) (s : RelayClient) : RelayClient := {|
  reservation_attempted := reservation_attempted s; relay_client_reservations := relay_client_reservations s;
  relay_client_attempted_peers := relay_client_attempted_peers s;
  relay_client_reservation_attempts := relay_client_reservation_attempts s;
  relay_client_reservation_failures := relay_client_reservation_failures s;
  pending_relay_listen_addrs := pending_relay_listen_addrs s; relayed_listen_addrs := relayed_listen_addrs s;
  private_relayed_listen_addrs := private_relayed_listen_addrs s;
  requested_relay_listen_addrs := requested_relay_listen_addrs s;
  reservation_retries := g (reservation_retries s) |}.

Definition RelayClient_default : RelayClient := {|
  reservation_attempted := false; relay_client_reservations := ∅; relay_client_attempted_peers := ∅;
  relay_client_reservation_attempts := 0; relay_client_reservation_failures := 0;
  pending_relay_listen_addrs := ∅; relayed_listen_addrs := ∅; private_relayed_listen_addrs := ∅;
  requested_relay_listen_addrs := ∅; reservation_retries := ReservationRetries_default |}.

Definition note_requested_reservation (s : RelayClient) (addr : Multiaddr) : RelayClient :=
  match relay_peer_id addr with
  | Some relay =>
      upd_requested_relay_listen_addrs (fun m => <[relay := {[addr]} ∪ default ∅ (m !! relay)]> m) s
  | None => s
  end.

Definition requested_routes (s : RelayClient) (relay local : PeerId) : list Multiaddr :=
  (fun addr => addr_with addr (P2p local)) <$> bt_iter (default ∅ (requested_relay_listen_addrs s !! relay)).

(** * The snapshot: the fields the client side writes *)
Record ClientSnapshot := {
  sn_public_addr : option string;
  sn_client_reservations : Z;
  sn_client_reservation_attempts : Z;
  sn_client_reservation_failures : Z;
  sn_relayed_listen_addresses : list string;
  sn_private_relayed_listen_addresses : list string;
}.

Definition apply_client_state (sn : ClientSnapshot) (s : RelayClient) : ClientSnapshot :=
  let relayed := bt_iter (relayed_listen_addrs s) in {|
  sn_public_addr := match sn_public_addr sn with Some a => Some a | None => head relayed end;
  sn_client_reservations := Z.of_nat (size (relay_client_reservations s));
  sn_client_reservation_attempts := relay_client_reservation_attempts s;
  sn_client_reservation_failures := relay_client_reservation_failures s;
  sn_relayed_listen_addresses := relayed;
  sn_private_relayed_listen_addresses := bt_iter (private_relayed_listen_addrs s) |}.

(** * The handlers *)
Record ClientCtx := {
  cx_client : RelayClient;
  cx_external : ExternalAddressCandidates;
  cx_snapshot : ClientSnapshot;
  cx_pulses : list string;
}.

(** The environment of the handlers: [cfg!(windows)], [Multiaddr::empty()] and
    the local peer id. *)
Record ClientEnv := { env_windows : bool; env_empty : Multiaddr; env_local : PeerId }.

(** The external candidates and the relay state, both updated by one address. *)
Definition confirm_relayed_listen_addr (env : ClientEnv) (st : ExternalAddressCandidates * RelayClient)
    (address : Multiaddr) : ExternalAddressCandidates * RelayClient :=
  let '(external, s) := st in
  if relayed_route_has_public_relay_endpoint (env_empty env) address then
    (add_confirmed (env_windows env) external address,
     upd_relayed_listen_addrs (fun a => {[addr_to_string address]} ∪ a) s)
  else (external, upd_private_relayed_listen_addrs (fun a => {[addr_to_string address]} ∪ a) s).

Inductive ClientEvent : Type :=
| ClientReservationReqAccepted (relay_peer : PeerId) (renewal : bool)
| OutboundCircuitEstablished (relay_peer : PeerId)
| InboundCircuitEstablished (src_peer : PeerId).

Definition client_bool_text (b : bool) : string := if b then "true" else "false".

Definition client_reservation_accepted (env : ClientEnv) (external : ExternalAddressCandidates) (s : RelayClient)
    (relay : PeerId) : ExternalAddressCandidates * RelayClient :=
  let s := upd_reservation_attempted (fun _ => true) s in
  let s := upd_relay_client_reservations (fun r => {[relay]} ∪ r) s in
  let s := upd_reservation_retries (fun r => accepted r relay) s in
  let '(external, s) :=
    foldl (confirm_relayed_listen_addr env) (external, s) (requested_routes s relay (env_local env)) in
  match pending_relay_listen_addrs s !! relay with
  | Some addresses =>
      let s := upd_pending_relay_listen_addrs (delete relay) s in
      foldl (confirm_relayed_listen_addr env) (external, s) (omap (fun a => ok (addr_parse a)) (bt_iter addresses))
  | None => (external, s)
  end.

Definition client_handle_event (env : ClientEnv) (ev : ClientEvent) (c : ClientCtx) : ClientCtx :=
  let '(external, s, line) :=
    match ev with
    | ClientReservationReqAccepted relay renewal =>
        (client_reservation_accepted env (cx_external c) (cx_client c) relay,
         "relay_client reservation accepted relay=" +:+ peer_to_string relay +:+ " renewal=" +:+ client_bool_text renewal)
    | OutboundCircuitEstablished relay =>
        (cx_external c, cx_client c,
         "relay_client outbound relayed circuit established relay=" +:+ peer_to_string relay)
    | InboundCircuitEstablished src =>
        (cx_external c, cx_client c,
         "relay_client inbound relayed circuit established src=" +:+ peer_to_string src)
    end in
  {| cx_client := s; cx_external := external; cx_snapshot := apply_client_state (cx_snapshot c) s;
     cx_pulses := push_pulse (cx_pulses c) line |}.

Definition handle_listener_closed (listener now : Z) (error : option string) (c : ClientCtx) : ClientCtx :=
  match closed (reservation_retries (cx_client c)) listener now with
  | (None, _) => c
  | (Some (addr, delay), retries) =>
      let s := upd_reservation_retries (fun _ => retries) (cx_client c) in
      let s := if decide (is_Some error)
               then upd_relay_client_reservation_failures (fun n => sat_add usize_max n 1) s else s in
      let reason := default "relay connection closed" error in
      {| cx_client := s; cx_external := cx_external c; cx_snapshot := apply_client_state (cx_snapshot c) s;
         cx_pulses := push_pulse (cx_pulses c)
           ("relay_client reservation closed via " +:+ addr_to_string addr +:+ " reason=" +:+ reason
            +:+ " retry_in=" +:+ pretty (delay / 1000000000) +:+ "s") |}
  end.

(** [listen_on] answers each request with a listener or an error: [answers i]
    is the answer to the [i]-th call. *)
Fixpoint re_request (answers : nat -> result Z string) (due : list Multiaddr) (s : RelayClient)
    : list string * RelayClient :=
  match due with
  | [] => ([], s)
  | addr :: due =>
      let '(line, s) :=
        match answers 0%nat with
        | Ok listener =>
            ("relay_client reservation re-requested via " +:+ addr_to_string addr,
             upd_relay_client_reservation_attempts (fun n => sat_add usize_max n 1)
               (upd_reservation_retries (fun r => track r listener addr) s))
        | Err err =>
            ("relay_client reservation re-request failed via " +:+ addr_to_string addr +:+ ": " +:+ err,
             upd_relay_client_reservation_failures (fun n => sat_add usize_max n 1) s)
        end in
      let '(lines, s) := re_request (fun i => answers (S i)) due s in
      (line :: lines, s)
  end.

Definition retry_due_reservations (now : Z) (answers : nat -> result Z string) (s : RelayClient)
    : list string * RelayClient :=
  let '(due, retries) := take_due (reservation_retries s) now in
  re_request answers due (upd_reservation_retries (fun _ => retries) s).
End relay_client.

(** * Facts

    Facts about the client side of relaying: no requested reservation is
    forgotten, and what the relay state says of lost reservations. *)

Section retries.
Context {P : PeerIdLib} {M : MultiaddrLib}.

(** The client state beside what happened: the reservations requested so far,
    those whose re-request failed, the closes of each address since its relay
    last accepted one, and the clock. *)
Record requesting := {
  rq_client : RelayClient;
  rq_requested : list Multiaddr;
  rq_dropped : list Multiaddr;
  rq_closes : Multiaddr -> Z;
  rq_now : Z;
}.

Definition requesting_init (now : Z) : requesting :=
  {| rq_client := RelayClient_default; rq_requested := []; rq_dropped := []; rq_closes := fun _ => 0; rq_now := now |}.

Local Abbreviation retries s := (reservation_retries (rq_client s)).

(** The addresses of a failed [listen_on], and the listeners of the others. *)
Fixpoint failed (answers : nat -> result Z string) (due : list Multiaddr) : list Multiaddr :=
  match due with
  | [] => []
  | addr :: due => match answers 0%nat with Ok _ => [] | Err _ => [addr] end ++ failed (fun i => answers (S i)) due
  end.

Fixpoint opened (answers : nat -> result Z string) (due : list Multiaddr) : list Z :=
  match due with
  | [] => []
  | _ :: due => match answers 0%nat with Ok l => [l] | Err _ => [] end ++ opened (fun i => answers (S i)) due
  end.

(** Listener ids are never reused, and the clock does not run backwards. *)
Inductive client_step (env : ClientEnv) : requesting -> requesting -> Prop :=
| cs_request s listener addr :
    rr_listeners (retries s) !! listener = None ->
    client_step env s {|
      rq_client := upd_reservation_retries (fun r => track r listener addr)
        (note_requested_reservation (rq_client s) addr);
      rq_requested := addr :: rq_requested s; rq_dropped := rq_dropped s; rq_closes := rq_closes s; rq_now := rq_now s |}
| cs_closed s c listener error now :
    rq_now s <= now -> cx_client c = rq_client s ->
    client_step env s {|
      rq_client := cx_client (handle_listener_closed listener now error c);
      rq_requested := rq_requested s; rq_dropped := rq_dropped s;
      rq_closes := match rr_listeners (retries s) !! listener with
                   | Some addr => fun a => if decide (a = addr) then rq_closes s a + 1 else rq_closes s a
                   | None => rq_closes s
                   end;
      rq_now := now |}
| cs_event s c ev :
    cx_client c = rq_client s ->
    client_step env s {|
      rq_client := cx_client (client_handle_event env ev c);
      rq_requested := rq_requested s; rq_dropped := rq_dropped s;
      rq_closes := match ev with
                   | ClientReservationReqAccepted relay _ =>
                       fun a => if decide (relay_peer_id a = Some relay) then 0 else rq_closes s a
                   | _ => rq_closes s
                   end;
      rq_now := rq_now s |}
| cs_tick s answers now :
    rq_now s <= now ->
    NoDup (opened answers (take_due (retries s) now).1) ->
    Forall (fun l => rr_listeners (retries s) !! l = None) (opened answers (take_due (retries s) now).1) ->
    client_step env s {|
      rq_client := (retry_due_reservations now answers (rq_client s)).2;
      rq_requested := rq_requested s;
      rq_dropped := failed answers (take_due (retries s) now).1 ++ rq_dropped s;
      rq_closes := rq_closes s; rq_now := now |}.

Definition listening (r : ReservationRetries) : list Multiaddr := (map_to_list (rr_listeners r)).*2.

Record retry_inv (s : requesting) : Prop := {
  ri_all : rq_requested s ≡ₚ listening (retries s) ++ (rr_due (retries s)).*2 ++ rq_dropped s;
  ri_due : Forall (fun e => e.1 <= rq_now s + MAX_DELAY) (rr_due (retries s));
  ri_closes : forall a, default 0 (rr_closes (retries s) !! a) = Z.min u32_max (rq_closes s a) /\ 0 <= rq_closes s a;
}.

Lemma retry_delay_bounds n : 0 <= n -> BASE_DELAY <= retry_delay n <= MAX_DELAY.
Proof.
  intros Hn. unfold retry_delay, BASE_DELAY, MAX_DELAY, from_secs. rewrite Z.shiftl_1_l.
  assert (2 ^ 0 <= 2 ^ Z.min n 5) by (apply Z.pow_le_mono_r; lia). lia.
Qed.

Lemma listening_insert r l a :
  rr_listeners r !! l = None -> listening (track r l a) ≡ₚ a :: listening r.
Proof. intros Hl. unfold listening, track. cbn. by rewrite map_to_list_insert. Qed.

Lemma listening_delete m l a :
  m !! l = Some a -> (map_to_list m).*2 ≡ₚ a :: (map_to_list (delete l m : gmap Z Multiaddr)).*2.
Proof.
  intros Hl. rewrite <- (insert_delete_id m l a Hl) at 1. by rewrite map_to_list_insert by apply lookup_delete_eq.
Qed.

(** The handlers of the client events only touch the close counters. *)
Lemma confirm_retries env l st :
  reservation_retries (foldl (confirm_relayed_listen_addr env) st l).2 = reservation_retries st.2.
Proof.
  revert st. induction l as [|a l IH]; intros [e s]; cbn; [done|]. rewrite IH.
  by destruct (relayed_route_has_public_relay_endpoint _ _).
Qed.

Lemma client_event_retries env ev c :
  reservation_retries (cx_client (client_handle_event env ev c)) =
  match ev with
  | ClientReservationReqAccepted relay _ => accepted (reservation_retries (cx_client c)) relay
  | _ => reservation_retries (cx_client c)
  end.
Proof.
  destruct ev as [relay renewal|relay|src]; cbn; [|done..]. unfold client_reservation_accepted.
  match goal with |- context [foldl (confirm_relayed_listen_addr env) (?e, ?s) ?l] =>
    pose proof (confirm_retries env l (e, s)) as H; destruct (foldl _ (e, s) l) as [ext s1] end.
  cbn in H. destruct (pending_relay_listen_addrs s1 !! relay) as [addrs|]; cbn; [|done].
  match goal with |- context [foldl (confirm_relayed_listen_addr env) (?e, ?s) ?l] =>
    pose proof (confirm_retries env l (e, s)) as H'; destruct (foldl _ (e, s) l) as [ext2 s2] end.
  cbn in *. congruence.
Qed.

Lemma re_request_spec answers due s :
  NoDup (opened answers due) ->
  Forall (fun l => rr_listeners (reservation_retries s) !! l = None) (opened answers due) ->
  let r := reservation_retries (re_request answers due s).2 in
  listening r ++ failed answers due ≡ₚ due ++ listening (reservation_retries s) /\
  rr_due r = rr_due (reservation_retries s) /\ rr_closes r = rr_closes (reservation_retries s).
Proof.
  revert answers s. induction due as [|a due IH]; intros answers s Hnd Hf; cbn.
  { by rewrite app_nil_r. }
  cbn in Hnd, Hf. destruct (answers 0%nat) as [l|err] eqn:E; cbn in Hnd, Hf.
  - apply NoDup_cons in Hnd as [Hl Hnd]. apply Forall_cons in Hf as [Hfl Hf].
    match goal with |- context [re_request ?f due ?s'] => specialize (IH f s'); destruct (re_request f due s') as [lines s2] end.
    cbn in *. destruct IH as (H1 & H2 & H3); [done| |].
    { apply Forall_forall. intros l' Hl'. rewrite lookup_insert_ne; [|intros ->; done].
      rewrite Forall_forall in Hf. auto. }
    split; [|done]. rewrite H1, listening_insert by done. by rewrite Permutation_middle.
  - match goal with |- context [re_request ?f due ?s'] => specialize (IH f s'); destruct (re_request f due s') as [lines s2] end.
    cbn in *. destruct IH as (H1 & H2 & H3); [done|done|]. split; [|done].
    by rewrite <- H1, Permutation_middle.
Qed.

Lemma request_inv s listener addr c' :
  rr_listeners (retries s) !! listener = None -> retry_inv s ->
  reservation_retries c' = track (retries s) listener addr ->
  retry_inv {| rq_client := c'; rq_requested := addr :: rq_requested s; rq_dropped := rq_dropped s;
               rq_closes := rq_closes s; rq_now := rq_now s |}.
Proof.
  intros Hl [H1 H2 H3] Hc. split; cbn; rewrite ?Hc; [|done..].
  rewrite listening_insert, H1 by done. done.
Qed.

Lemma listener_closed_inv s c listener error now :
  rq_now s <= now -> cx_client c = rq_client s -> retry_inv s ->
  retry_inv {| rq_client := cx_client (handle_listener_closed listener now error c);
    rq_requested := rq_requested s; rq_dropped := rq_dropped s;
    rq_closes := match rr_listeners (retries s) !! listener with
                 | Some addr => fun a => if decide (a = addr) then rq_closes s a + 1 else rq_closes s a
                 | None => rq_closes s
                 end; rq_now := now |}.
Proof.
  intros Hn Hc [H1 H2 H3]. unfold handle_listener_closed, closed. rewrite Hc.
  assert (Hd : Forall (fun e => e.1 <= now + MAX_DELAY) (rr_due (retries s))).
  { eapply Forall_impl; [exact H2|]. cbn. lia. }
  destruct (rr_listeners (retries s) !! listener) as [addr|] eqn:El; [|split; cbn; by rewrite ?Hc].
  pose proof (H3 addr) as [Hcl Hpos].
  split; cbn; case_decide; cbn.
  - rewrite H1. unfold listening. cbn. rewrite (listening_delete _ _ _ El), fmap_app. cbn. solve_Permutation.
  - rewrite H1. unfold listening. cbn. rewrite (listening_delete _ _ _ El), fmap_app. cbn. solve_Permutation.
  - apply Forall_app. split; [done|]. apply Forall_singleton. cbn. rewrite Hcl.
    pose proof (retry_delay_bounds (Z.min u32_max (rq_closes s addr))) as Hb. ulia.
  - apply Forall_app. split; [done|]. apply Forall_singleton. cbn. rewrite Hcl.
    pose proof (retry_delay_bounds (Z.min u32_max (rq_closes s addr))) as Hb. ulia.
  - intros a. destruct (H3 a). case_decide as Ha; [subst; rewrite lookup_insert_eq; cbn; ulia|].
    by rewrite lookup_insert_ne by done.
  - intros a. destruct (H3 a). case_decide as Ha; [subst; rewrite lookup_insert_eq; cbn; ulia|].
    by rewrite lookup_insert_ne by done.
Qed.

Lemma event_inv env s c ev :
  cx_client c = rq_client s -> retry_inv s ->
  retry_inv {| rq_client := cx_client (client_handle_event env ev c);
    rq_requested := rq_requested s; rq_dropped := rq_dropped s;
    rq_closes := match ev with
                 | ClientReservationReqAccepted relay _ =>
                     fun a => if decide (relay_peer_id a = Some relay) then 0 else rq_closes s a
                 | _ => rq_closes s
                 end; rq_now := rq_now s |}.
Proof.
  intros Hc [H1 H2 H3]. split; cbn [rq_client rq_requested rq_dropped rq_closes rq_now];
    rewrite client_event_retries, Hc; destruct ev as [relay ?| |]; try done.
  intros a. destruct (H3 a) as [Ha Hp]. cbn. case_decide as Hr.
  - rewrite map_lookup_filter_None_2; [done|]. right. intros v _. cbn. tauto.
  - split; [|done]. rewrite <- Ha. f_equal. apply option_eq. intros v. rewrite map_lookup_filter_Some. cbn. tauto.
Qed.

Lemma tick_inv s answers now :
  rq_now s <= now ->
  NoDup (opened answers (take_due (retries s) now).1) ->
  Forall (fun l => rr_listeners (retries s) !! l = None) (opened answers (take_due (retries s) now).1) ->
  retry_inv s ->
  retry_inv {| rq_client := (retry_due_reservations now answers (rq_client s)).2;
    rq_requested := rq_requested s;
    rq_dropped := failed answers (take_due (retries s) now).1 ++ rq_dropped s;
    rq_closes := rq_closes s; rq_now := now |}.
Proof.
  intros Hn Hnd Hf [H1 H2 H3]. unfold retry_due_reservations. cbn [take_due fst snd] in *.
  set (r' := {| rr_listeners := _; rr_closes := _; rr_due := _ |}).
  destruct (re_request_spec answers (snd <$> filter (fun e => e.1 <= now) (rr_due (retries s)))
    (upd_reservation_retries (fun _ => r') (rq_client s)) Hnd Hf) as (R1 & R2 & R3).
  split; cbn [rq_client rq_requested rq_dropped rq_closes rq_now] in *; rewrite ?R2, ?R3.
  - rewrite H1, (filter_split_fmap snd (fun e => e.1 <= now) (rr_due (retries s))).
    cbn in R1. unfold r', listening in *. cbn in *.
    rewrite (Permutation_app_comm (snd <$> filter (fun e : Z * Multiaddr => ~ e.1 <= now) (rr_due (retries s))) _).
    rewrite <- !app_assoc. rewrite app_assoc, (app_assoc (map_to_list _).*2).
    rewrite (Permutation_app_comm (map_to_list (rr_listeners (retries s))).*2).
    rewrite <- R1. rewrite <- !app_assoc. solve_Permutation.
  - cbn. apply Forall_forall. intros e [_ He]%list_elem_of_filter. rewrite Forall_forall in H2. specialize (H2 _ He). lia.
  - exact H3.
Qed.

Lemma client_step_inv env s s' : client_step env s s' -> retry_inv s -> retry_inv s'.
Proof.
  intros Hs Hi. destruct Hs.
  - apply request_inv with listener; [done|done|]. unfold note_requested_reservation.
    by destruct (relay_peer_id addr).
  - by apply listener_closed_inv.
  - by apply event_inv.
  - by apply tick_inv.
Qed.

(** The delay after [n] closes in a row. *)
Lemma retry_delay_doubles n : 0 <= n -> retry_delay (Z.min u32_max n) = Z.min (from_secs 120) (from_secs 5 * 2 ^ n).
Proof.
  intros Hn. unfold retry_delay, BASE_DELAY, MAX_DELAY, from_secs. rewrite Z.shiftl_1_l.
  destruct (decide (n <= 5)).
  - replace (Z.min (Z.min u32_max n) 5) with n by ulia. lia.
  - replace (Z.min (Z.min u32_max n) 5) with 5 by ulia. assert (2 ^ 5 <= 2 ^ n) by (apply Z.pow_le_mono_r; lia). lia.
Qed.

(** C15: No requested reservation is forgotten. In any run of requests, closed
    listeners, relay events and retry ticks, the reservations requested are
    exactly those with an open listener, those queued for a re-request and those
    whose re-request [listen_on] refused; every queued one is re-requested by a
    tick at most 120 seconds later; and a listener that closes is retried
    after 5 seconds doubled for every close since the relay last accepted a
    reservation, and at most 120 seconds. *)
Theorem no_reservation_forgotten (env : ClientEnv) (start : Z) (s : requesting) :
  rtc (client_step env) (requesting_init start) s ->
  let r := reservation_retries (rq_client s) in
  rq_requested s ≡ₚ listening r ++ (rr_due r).*2 ++ rq_dropped s /\
  (take_due r (rq_now s + from_secs 120)).1 = (rr_due r).*2 /\
  (forall listener addr now, rr_listeners r !! listener = Some addr ->
     (closed r listener now).1 = Some (addr, Z.min (from_secs 120) (from_secs 5 * 2 ^ rq_closes s addr))).
Proof.
  intros Hr. assert (Hi : retry_inv s).
  { revert s Hr. apply rtc_ind_r; [|eauto using client_step_inv]. split; cbn; [|constructor|].
    - unfold listening. cbn. by rewrite map_to_list_empty.
    - intros a. by rewrite lookup_empty. }
  destruct Hi as [H1 H2 H3]. split; [done|]. split.
  - cbn. f_equal. by apply filter_id.
  - intros l a now Hl. unfold closed. rewrite Hl. cbn. destruct (H3 a) as [-> Hp]. by rewrite retry_delay_doubles.
Qed.

(** A relay that once accepted a reservation counts as serving one for good:
    no handler of the client removes it, whatever listeners close. *)
Lemma reservations_only_grow env s s' :
  client_step env s s' ->
  relay_client_reservations (rq_client s) ⊆ relay_client_reservations (rq_client s').
Proof.
  assert (Hconf : forall l st, relay_client_reservations (foldl (confirm_relayed_listen_addr env) st l).2
                              = relay_client_reservations st.2).
  { induction l as [|a l IH]; intros [e c]; cbn; [done|]. rewrite IH.
    by destruct (relayed_route_has_public_relay_endpoint _ _). }
  assert (Hre : forall due answers c, relay_client_reservations (re_request answers due c).2 = relay_client_reservations c).
  { induction due as [|a due IH]; intros answers c; cbn; [done|].
    destruct (answers 0%nat); cbn; match goal with |- context [re_request ?f due ?c'] =>
      specialize (IH f c'); destruct (re_request f due c') end; done. }
  intros Hs. destruct Hs as [s l a _|s c l e now _ Hc|s c ev Hc|s answers now _ _ _]; cbn.
  - unfold note_requested_reservation. by destruct (relay_peer_id a).
  - unfold handle_listener_closed. destruct (closed _ _ _) as [[[a d]|] r]; cbn; [|by rewrite Hc].
    case_decide; cbn; by rewrite Hc.
  - rewrite <- Hc. destruct ev as [relay renewal| |]; cbn; [|done..]. unfold client_reservation_accepted.
    match goal with |- context [foldl (confirm_relayed_listen_addr env) (?e, ?s) ?l] =>
      pose proof (Hconf l (e, s)) as H; destruct (foldl _ (e, s) l) as [ext s1] end. cbn in H.
    destruct (pending_relay_listen_addrs s1 !! relay) as [addrs|]; cbn; [|set_solver].
    match goal with |- context [foldl (confirm_relayed_listen_addr env) (?e, ?s) ?l] =>
      pose proof (Hconf l (e, s)) as H'; destruct (foldl _ (e, s) l) as [ext2 s2] end. cbn in *. set_solver.
  - unfold retry_due_reservations. cbn. by rewrite Hre.
Qed.
End retries.
