(* ===== verification/PeerCache.v ===== *)
(** The peer cache (crates/connectivity/peer_cache: model.rs, addr_policy.rs,
    store.rs): which addresses may be remembered, for how long, the batch of
    pending writes and the file they are merged into.

    [PeerCachePolicy] holds the [peer_cache_*] and [peer_identity_*] fields of
    [DiscoveryConfig] (crates/connectivity/discovery.rs).  Times are seconds. *)

From S2P Require Import Prelude Bytes Text Common AppMessage Relay Addresses Storage.

#[local] Open Scope Z_scope.

(** * The model *)
Definition CACHE_VERSION : Z := 3.

Record CachedPeerIdentity := { id_peer : string; id_last_seen : Z }.

Inductive CachedDialAddrKind : Type := KindPublicDirect | RelayReservation | LocalSession.

#[global] Instance CachedDialAddrKind_eq_dec : EqDecision CachedDialAddrKind.
Proof. solve_decision. Defined.

Record CachedPeerAddr := {
  ca_peer : string;
  ca_addr : string;
  ca_last_seen : Z;
  ca_failures : Z;
  ca_kind : CachedDialAddrKind;
  ca_expires : option Z;
}.

Record PeerCacheFile := {
  pf_version : Z;
  pf_identities : list CachedPeerIdentity;
  pf_dialable_addrs : list CachedPeerAddr;
  pf_entries : list CachedPeerAddr;
  pf_addrs : list string;
}.

(** [PeerCacheFile::default()]: the derived one, whose version is 0. *)
Definition PeerCacheFile_default : PeerCacheFile :=
  {| pf_version := 0; pf_identities := []; pf_dialable_addrs := []; pf_entries := []; pf_addrs := [] |}.

Record PeerCachePolicy := {
  peer_cache_path : string;
  peer_cache_max_entries : Z;
  peer_cache_max_age_secs : Z;
  peer_identity_max_age_secs : Z;
  peer_cache_public_addr_max_age_secs : Z;
  peer_cache_relay_addr_max_age_secs : Z;
  peer_cache_persist_local_addrs : bool;
  peer_cache_local_addr_max_age_secs : Z;
  peer_cache_max_failures : Z;
}.

Section cache.
Context {P : PeerIdLib} {M : MultiaddrLib}.

(** * Address policy *)
Definition last_peer_step (out : option PeerId) (protocol : Protocol) : option PeerId :=
  match protocol with P2p peer => Some peer | _ => out end.

Definition extract_last_p2p_peer_id (addr : Multiaddr) : option PeerId := foldl last_peer_step None (addr_iter addr).

Definition contains_any_p2p (addr : Multiaddr) : bool :=
  existsb (fun p => match p with P2p _ => true | _ => false end) (addr_iter addr).

Definition contains_dnsaddr (addr : Multiaddr) : bool :=
  existsb (fun p => match p with Dnsaddr _ => true | _ => false end) (addr_iter addr).

Definition is_local_ipv4 (ip : Ipv4Addr) : bool := v4_is_loopback ip || v4_is_private ip || v4_is_link_local ip.

(** [is_unique_local] and [is_unicast_link_local] of the standard library. *)
Definition is_local_ipv6 (ip : Ipv6Addr) : bool :=
  v6_is_loopback ip || bool_decide (Z.land (segment ip 0) 65024 = 64512) || bool_decide (Z.land (segment ip 0) 65472 = 65152).

Definition contains_local_ip (addr : Multiaddr) : bool :=
  existsb (fun p => match p with Ip4 ip => is_local_ipv4 ip | Ip6 ip => is_local_ipv6 ip | _ => false end) (addr_iter addr).

Definition is_cacheable_peer_addr (addr : Multiaddr) (expected_peer : option PeerId) : bool :=
  match extract_last_p2p_peer_id addr with
  | None => false
  | Some peer =>
      if match expected_peer with Some expected => negb (bool_decide (expected = peer)) | None => false end then false
      else if has_unspecified_ip addr || contains_dnsaddr addr then false
      else has_reachable_transport addr
  end.

Definition classify_dialable_addr (addr : Multiaddr) : option CachedDialAddrKind :=
  if negb (has_reachable_transport addr) || has_unspecified_ip addr || contains_dnsaddr addr then None
  else if is_p2p_circuit_addr addr then Some RelayReservation
  else if contains_local_ip addr then Some LocalSession
  else Some KindPublicDirect.

Definition is_persistable_dialable_addr_kind (cfg : PeerCachePolicy) (kind : CachedDialAddrKind) : bool :=
  match kind with
  | KindPublicDirect | RelayReservation => true
  | LocalSession => peer_cache_persist_local_addrs cfg
  end.

Definition is_persistable_dialable_peer_addr (cfg : PeerCachePolicy) (addr : Multiaddr) : bool :=
  if negb (is_cacheable_peer_addr addr None) then false
  else match classify_dialable_addr addr with
       | Some kind => is_persistable_dialable_addr_kind cfg kind
       | None => false
       end.

Definition normalize_peer_addr (peer : PeerId) (addr : Multiaddr) : option Multiaddr :=
  if is_cacheable_peer_addr addr (Some peer) then Some addr
  else if contains_any_p2p addr || negb (has_reachable_transport addr) || has_unspecified_ip addr then None
  else Some (addr_with addr (P2p peer)).

Definition set_kind (entry : CachedPeerAddr) (kind : CachedDialAddrKind) : CachedPeerAddr := {|
  ca_peer := ca_peer entry; ca_addr := ca_addr entry; ca_last_seen := ca_last_seen entry;
  ca_failures := ca_failures entry; ca_kind := kind; ca_expires := ca_expires entry |}.

Definition normalize_entry_kind (entry : CachedPeerAddr) : option CachedPeerAddr :=
  match addr_parse (ca_addr entry) with
  | Err _ => None
  | Ok addr => match classify_dialable_addr addr with
               | None => None
               | Some kind => Some (set_kind entry kind)
               end
  end.

Definition min_nonzero (kind_max : option Z) (global_max : Z) : option Z :=
  match kind_max with
  | None => if decide (global_max = 0) then None else Some global_max
  | Some kind => if decide (global_max = 0) then Some kind else Some (Z.min kind global_max)
  end.

Definition effective_dialable_max_age_secs (cfg : PeerCachePolicy) (kind : CachedDialAddrKind) : option Z :=
  min_nonzero
    (match kind with
     | KindPublicDirect => Some (peer_cache_public_addr_max_age_secs cfg)
     | RelayReservation => Some (peer_cache_relay_addr_max_age_secs cfg)
     | LocalSession => if decide (peer_cache_local_addr_max_age_secs cfg = 0) then None
                       else Some (peer_cache_local_addr_max_age_secs cfg)
     end) (peer_cache_max_age_secs cfg).

Definition inferred_expiry_secs (cfg : PeerCachePolicy) (kind : CachedDialAddrKind) (now : Z) : option Z :=
  (fun ttl => sat_add u64_max now ttl) <$> effective_dialable_max_age_secs cfg kind.

Definition is_valid_cache_entry (cfg : PeerCachePolicy) (entry : CachedPeerAddr) (now : Z) : bool :=
  match peer_parse (ca_peer entry), addr_parse (ca_addr entry) with
  | Ok peer, Ok addr =>
      if negb (is_cacheable_peer_addr addr (Some peer)) then false
      else match classify_dialable_addr addr with
      | None => false
      | Some kind =>
          if negb (is_persistable_dialable_addr_kind cfg kind) then false
          else if match ca_expires entry with Some expires => bool_decide (expires <= now) | None => false end then false
          else if match effective_dialable_max_age_secs cfg kind with
                  | Some max_age => bool_decide (0 < ca_last_seen entry) && bool_decide (max_age < sat_sub now (ca_last_seen entry))
                  | None => false
                  end then false
          else if bool_decide (0 < peer_cache_max_failures cfg) && bool_decide (peer_cache_max_failures cfg <= ca_failures entry)
               then false
          else true
      end
  | _, _ => false
  end.

(** * The batch of pending writes *)
Definition MAX_PENDING_CACHE_MUTATIONS : Z := 4096.

Inductive PeerCacheMutation : Type :=
| Seen (peer : PeerId) (addr : Multiaddr) (expires : option Z)
| Failure (peer : PeerId).

Record PeerCacheWriteBatch := {
  wb_pending : list PeerCacheMutation;
  wb_pending_seen : gset (PeerId * Multiaddr * option Z);
}.

Definition PeerCacheWriteBatch_default : PeerCacheWriteBatch := {| wb_pending := []; wb_pending_seen := ∅ |}.

Definition wb_push (b : PeerCacheWriteBatch) (mutation : PeerCacheMutation) : PeerCacheWriteBatch :=
  if decide (MAX_PENDING_CACHE_MUTATIONS <= len (wb_pending b)) then
    match wb_pending b with
    | Seen peer addr expires :: rest =>
        {| wb_pending := rest ++ [mutation]; wb_pending_seen := wb_pending_seen b ∖ {[(peer, addr, expires)]} |}
    | _ :: rest => {| wb_pending := rest ++ [mutation]; wb_pending_seen := wb_pending_seen b |}
    | [] => {| wb_pending := [mutation]; wb_pending_seen := wb_pending_seen b |}
    end
  else {| wb_pending := wb_pending b ++ [mutation]; wb_pending_seen := wb_pending_seen b |}.

Definition record_seen_with_expiry (b : PeerCacheWriteBatch) (peer : PeerId) (addr : Multiaddr) (expires : option Z)
    : PeerCacheWriteBatch :=
  if decide ((peer, addr, expires) ∈ wb_pending_seen b) then b
  else wb_push {| wb_pending := wb_pending b; wb_pending_seen := {[(peer, addr, expires)]} ∪ wb_pending_seen b |}
         (Seen peer addr expires).

Definition record_seen (b : PeerCacheWriteBatch) (peer : PeerId) (addr : Multiaddr) : PeerCacheWriteBatch :=
  record_seen_with_expiry b peer addr None.

Definition cache_record_failure (b : PeerCacheWriteBatch) (peer : PeerId) : PeerCacheWriteBatch := wb_push b (Failure peer).

(** * Reading the file *)
Definition older_format_entries (file : PeerCacheFile) : list CachedPeerAddr :=
  omap (fun addr =>
    match addr_parse addr with
    | Err _ => None
    | Ok parsed =>
        match extract_last_p2p_peer_id parsed with
        | None => None
        | Some peer => Some {| ca_peer := peer_to_string peer; ca_addr := addr; ca_last_seen := 0; ca_failures := 0;
            ca_kind := KindPublicDirect; ca_expires := None |}
        end
    end) (pf_addrs file).

(** The [filter_map] with its [seen] set. *)
Fixpoint dedup_entries (seen : gset (string * string)) (entries : list CachedPeerAddr) : list CachedPeerAddr :=
  match entries with
  | [] => []
  | entry :: rest =>
      match normalize_entry_kind entry with
      | None => dedup_entries seen rest
      | Some entry =>
          if decide ((ca_peer entry, ca_addr entry) ∈ seen) then dedup_entries seen rest
          else entry :: dedup_entries ({[(ca_peer entry, ca_addr entry)]} ∪ seen) rest
      end
  end.

Definition valid_dialable_entries_from_file (cfg : PeerCachePolicy) (file : PeerCacheFile) (now : Z) : list CachedPeerAddr :=
  if decide (pf_version file < CACHE_VERSION) then []
  else
    let entries := pf_dialable_addrs file ++ pf_entries file ++ older_format_entries file in
    take (Z.to_nat (peer_cache_max_entries cfg))
      (filter (fun e => is_valid_cache_entry cfg e now = true) (dedup_entries ∅ entries)).

Definition is_valid_identity_entry (cfg : PeerCachePolicy) (identity : CachedPeerIdentity) (now : Z) : bool :=
  if negb (is_ok (peer_parse (id_peer identity))) then false
  else if bool_decide (0 < id_last_seen identity)
       && bool_decide (peer_identity_max_age_secs cfg < sat_sub now (id_last_seen identity)) then false
  else true.

Fixpoint dedup_identities (seen : gset string) (l : list CachedPeerIdentity) : list CachedPeerIdentity :=
  match l with
  | [] => []
  | identity :: rest =>
      if decide (id_peer identity ∈ seen) then dedup_identities seen rest
      else identity :: dedup_identities ({[id_peer identity]} ∪ seen) rest
  end.

Definition valid_identities_from_file (cfg : PeerCachePolicy) (file : PeerCacheFile) (now : Z) : list CachedPeerIdentity :=
  if decide (pf_version file < CACHE_VERSION) then []
  else
    let identities := pf_identities file ++
      ((fun e => {| id_peer := ca_peer e; id_last_seen := ca_last_seen e |}) <$> valid_dialable_entries_from_file cfg file now) in
    take (Z.to_nat (peer_cache_max_entries cfg))
      (dedup_identities ∅ (filter (fun i => is_valid_identity_entry cfg i now = true) identities)).

(** * Applying mutations *)
Definition upsert_identity (identities : list CachedPeerIdentity) (peer : PeerId) (now : Z) : list CachedPeerIdentity :=
  {| id_peer := peer_to_string peer; id_last_seen := now |}
    :: filter (fun i => id_peer i ≠ peer_to_string peer) identities.

Definition add_entry_failure (peer : string) (entry : CachedPeerAddr) : CachedPeerAddr :=
  if decide (ca_peer entry = peer) then {|
    ca_peer := ca_peer entry; ca_addr := ca_addr entry; ca_last_seen := ca_last_seen entry;
    ca_failures := sat_add u32_max (ca_failures entry) 1; ca_kind := ca_kind entry; ca_expires := ca_expires entry |}
  else entry.

Definition upsert_entry (cfg : PeerCachePolicy) (now : Z) (entries : list CachedPeerAddr) (peer : PeerId)
    (cache_addr : Multiaddr) (kind : CachedDialAddrKind) (expires : option Z) : list CachedPeerAddr :=
  let addr_s := addr_to_string cache_addr in
  let peer_s := peer_to_string peer in
  {| ca_peer := peer_s; ca_addr := addr_s; ca_last_seen := now; ca_failures := 0; ca_kind := kind;
     ca_expires := match expires with Some e => Some e | None => inferred_expiry_secs cfg kind now end |}
    :: filter (fun e => ca_addr e ≠ addr_s /\ ca_peer e ≠ peer_s) entries.

Definition apply_mutation (cfg : PeerCachePolicy) (now : Z) (st : list CachedPeerIdentity * list CachedPeerAddr)
    (mutation : PeerCacheMutation) : list CachedPeerIdentity * list CachedPeerAddr :=
  let '(identities, entries) := st in
  match mutation with
  | Seen peer addr expires =>
      let identities := upsert_identity identities peer now in
      match normalize_peer_addr peer addr with
      | None => (identities, entries)
      | Some cache_addr =>
          match classify_dialable_addr cache_addr with
          | None => (identities, entries)
          | Some kind =>
              if negb (is_persistable_dialable_addr_kind cfg kind) then (identities, entries)
              else (identities, upsert_entry cfg now entries peer cache_addr kind expires)
          end
      end
  | Failure peer =>
      let entries := add_entry_failure (peer_to_string peer) <$> entries in
      (identities, filter (fun e => peer_cache_max_failures cfg = 0 \/ ca_failures e < peer_cache_max_failures cfg) entries)
  end.

Section store.
Context {S : Type} `{NodeStorage S} {J : SerdeJson PeerCacheFile}.

(** [String::from_utf8] and [serde_json::from_str]: a document that is not
    UTF-8 is no JSON either. *)
Definition read_cache_file_with_storage (cfg : PeerCachePolicy) (s : S) : option PeerCacheFile :=
  match storage_read s (peer_cache_path cfg) with
  | Ok (Some raw) => ok (json_from_slice raw)
  | _ => None
  end.

Definition write_entries_with_storage (path : string) (identities : list CachedPeerIdentity)
    (entries : list CachedPeerAddr) (s : S) : S :=
  let payload := {| pf_version := CACHE_VERSION; pf_identities := identities; pf_dialable_addrs := entries;
                    pf_entries := entries; pf_addrs := [] |} in
  match json_to_vec payload with
  | Ok text => (storage_write_public s path text).2
  | Err _ => s
  end.

Definition apply_mutations (cfg : PeerCachePolicy) (mutations : list PeerCacheMutation) (now : Z) (file : PeerCacheFile)
    : list CachedPeerIdentity * list CachedPeerAddr :=
  let '(identities, entries) := foldl (apply_mutation cfg now)
    (valid_identities_from_file cfg file now, valid_dialable_entries_from_file cfg file now) mutations in
  (take (Z.to_nat (peer_cache_max_entries cfg)) identities, take (Z.to_nat (peer_cache_max_entries cfg)) entries).

Definition apply_mutations_with_storage (cfg : PeerCachePolicy) (mutations : list PeerCacheMutation) (now : Z) (s : S) : S :=
  let file := default PeerCacheFile_default (read_cache_file_with_storage cfg s) in
  let '(identities, entries) := apply_mutations cfg mutations now file in
  write_entries_with_storage (peer_cache_path cfg) identities entries s.

Definition wb_flush (b : PeerCacheWriteBatch) (cfg : PeerCachePolicy) (now : Z) (s : S) : PeerCacheWriteBatch * S :=
  match wb_pending b with
  | [] => (b, s)
  | mutations => (PeerCacheWriteBatch_default, apply_mutations_with_storage cfg mutations now s)
  end.

Definition load_entries_with_storage (cfg : PeerCachePolicy) (now : Z) (s : S) : list CachedPeerAddr :=
  match read_cache_file_with_storage cfg s with
  | None => []
  | Some file => valid_dialable_entries_from_file cfg file now
  end.

Definition load_identities_with_storage (cfg : PeerCachePolicy) (now : Z) (s : S) : list CachedPeerIdentity :=
  match read_cache_file_with_storage cfg s with
  | None => []
  | Some file => valid_identities_from_file cfg file now
  end.

Definition load_last_addrs_with_storage (cfg : PeerCachePolicy) (now limit : Z) (s : S) : list Multiaddr :=
  take (Z.to_nat limit) (omap (fun e => ok (addr_parse (ca_addr e))) (load_entries_with_storage cfg now s)).
End store.
End cache.
