(* ===== verification/PeerCacheFacts.v ===== *)
(** Facts about the peer cache: the batch deduplicates exactly its pending
    sightings, the file keeps one identity-bound address per peer, a peer seen
    last is the first one dialled after a restart while its address is fresh,
    and a reconnection in the same batch as its failures is lost. *)

From S2P Require Import Prelude Bytes Text Common AppMessage Relay Addresses Storage PeerCache.

#[local] Open Scope Z_scope.

Section cache_facts.
Context {P : PeerIdLib} {PL : PeerIdLaws P} {M : MultiaddrLib} {ML : MultiaddrLaws M}.

(** * The batch *)
Definition seen_key (m : PeerCacheMutation) : option (PeerId * Multiaddr * option Z) :=
  match m with Seen p a e => Some (p, a, e) | Failure _ => None end.

Record batch_inv (b : PeerCacheWriteBatch) : Prop := {
  bi_seen : wb_pending_seen b = list_to_set (omap seen_key (wb_pending b));
  bi_nodup : NoDup (omap seen_key (wb_pending b));
  bi_bound : len (wb_pending b) <= MAX_PENDING_CACHE_MUTATIONS;
}.

Inductive batch_op : Type := OpSeen (p : PeerId) (a : Multiaddr) (e : option Z) | OpFailure (p : PeerId).

Definition batch_run (b : PeerCacheWriteBatch) (op : batch_op) : PeerCacheWriteBatch :=
  match op with OpSeen p a e => record_seen_with_expiry b p a e | OpFailure p => cache_record_failure b p end.

(** Pushing a mutation whose key is already in the set, and no longer pending. *)
Lemma wb_push_inv pending seen m :
  seen = list_to_set (omap seen_key (pending ++ [m])) -> NoDup (omap seen_key (pending ++ [m])) ->
  len pending <= MAX_PENDING_CACHE_MUTATIONS ->
  batch_inv (wb_push {| wb_pending := pending; wb_pending_seen := seen |} m).
Proof.
  intros -> Hnd Hb. unfold wb_push. cbn [wb_pending wb_pending_seen]. case_decide as Hfull.
  - destruct pending as [|m0 rest]; [unfold len, MAX_PENDING_CACHE_MUTATIONS in *; cbn in *; lia|].
    assert (Hlen : len (rest ++ [m]) <= MAX_PENDING_CACHE_MUTATIONS).
    { rewrite len_app. unfold len in *. cbn in *. lia. }
    destruct m0 as [p a e|p]; cbn [app omap list_omap seen_key] in Hnd |- *; [|by split].
    apply NoDup_cons in Hnd as [Hin Hnd]. split; cbn [wb_pending wb_pending_seen]; [|done..].
    rewrite list_to_set_cons. set_solver.
  - split; cbn; [done|done|]. rewrite len_app. unfold len in *. cbn in *. lia.
Qed.

(** The pending batch holds at most 4096 mutations and no sighting twice, and its
    set is exactly the pending sightings. *)
Lemma batch_run_inv ops b : batch_inv b -> batch_inv (foldl batch_run b ops).
Proof.
  revert b. induction ops as [|op ops IH]; intros b Hb; [done|]. cbn. apply IH.
  destruct Hb as [H1 H2 H3], b as [pending seen]. cbn in *. destruct op as [p a e|p]; cbn.
  - unfold record_seen_with_expiry. case_decide as Hin; [by split|]. cbn in *. rewrite H1 in *.
    rewrite elem_of_list_to_set in Hin. apply wb_push_inv; [|rewrite omap_app; cbn|done].
    + rewrite omap_app. cbn. set_solver.
    + apply NoDup_app. split; [done|]. split; [|apply NoDup_singleton]. set_solver.
  - unfold cache_record_failure. apply wb_push_inv; [|rewrite omap_app; cbn|done].
    + rewrite omap_app. cbn. by rewrite app_nil_r.
    + by rewrite app_nil_r.
Qed.

(** * Addresses *)
Lemma last_peer_with addr peer : extract_last_p2p_peer_id (addr_with addr (P2p peer)) = Some peer.
Proof. unfold extract_last_p2p_peer_id. by rewrite addr_iter_with, foldl_app. Qed.

Lemma existsb_with (f : Protocol -> bool) addr p :
  existsb f (addr_iter (addr_with addr p)) = existsb f (addr_iter addr) || f p.
Proof. rewrite addr_iter_with, existsb_app. cbn. by rewrite orb_false_r. Qed.

(** A normalized address is bound to its peer and dialable. *)
Lemma normalize_cacheable peer addr na kind :
  normalize_peer_addr peer addr = Some na -> classify_dialable_addr na = Some kind ->
  is_cacheable_peer_addr na (Some peer) = true.
Proof.
  unfold normalize_peer_addr. destruct (is_cacheable_peer_addr addr (Some peer)) eqn:E; [by intros [= <-]|].
  destruct (_ || _) eqn:Eo; [done|]. intros [= <-] Hc. unfold is_cacheable_peer_addr. rewrite last_peer_with.
  rewrite bool_decide_eq_true_2 by done. cbn. unfold classify_dialable_addr in Hc.
  destruct (negb (has_reachable_transport _) || has_unspecified_ip _ || contains_dnsaddr _) eqn:Ec; [done|].
  apply orb_false_iff in Ec as [[H1%negb_false_iff H2]%orb_false_iff H3]. by rewrite H2, H3.
Qed.

(** * Entries of the file *)

(** An entry names a peer and an address of that peer, of its kind, that may be kept. *)
Definition bound_entry (cfg : PeerCachePolicy) (e : CachedPeerAddr) : Prop :=
  exists peer addr kind,
    ca_peer e = peer_to_string peer /\ ca_addr e = addr_to_string addr /\
    is_cacheable_peer_addr addr (Some peer) = true /\ classify_dialable_addr addr = Some kind /\
    ca_kind e = kind /\ is_persistable_dialable_addr_kind cfg kind = true.

Record entries_ok (cfg : PeerCachePolicy) (es : list CachedPeerAddr) : Prop := {
  eo_bound : Forall (bound_entry cfg) es;
  eo_peers : NoDup (ca_peer <$> es);
  eo_addrs : NoDup (ca_addr <$> es);
  eo_failures : 0 < peer_cache_max_failures cfg -> Forall (fun e => ca_failures e < peer_cache_max_failures cfg) es;
}.

Lemma entries_ok_sublist cfg es es' : es' `sublist_of` es -> entries_ok cfg es -> entries_ok cfg es'.
Proof.
  intros Hs [H1 H2 H3 H4]. split.
  - by eapply sublist_Forall.
  - eapply sublist_NoDup; [exact H2|by apply sublist_fmap].
  - eapply sublist_NoDup; [exact H3|by apply sublist_fmap].
  - intros Hp. eapply sublist_Forall; [done|auto].
Qed.

Lemma filter_sublist_of {A} (Q : A -> Prop) `{forall x, Decision (Q x)} (l : list A) : filter Q l `sublist_of` l.
Proof. induction l as [|x l IH]; [constructor|]. rewrite filter_cons. case_decide; by constructor. Qed.

Lemma bound_entry_normalizes cfg e : bound_entry cfg e -> normalize_entry_kind e = Some e.
Proof.
  intros (p & a & k & Hp & Ha & _ & Hk & Hkk & _). unfold normalize_entry_kind. rewrite Ha, addr_parse_to_string, Hk.
  subst k. by destruct e.
Qed.

(** Reading back what was written drops only the second copy. *)
Lemma dedup_known seen l rest :
  Forall (fun e => exists e', normalize_entry_kind e = Some e' /\ (ca_peer e', ca_addr e') ∈ seen) l ->
  dedup_entries seen (l ++ rest) = dedup_entries seen rest.
Proof.
  induction 1 as [|e l (e' & He & Hin) Hl IH]; cbn [app dedup_entries]; [done|]. rewrite He, decide_True by done. done.
Qed.

Lemma dedup_fresh cfg seen l rest :
  Forall (bound_entry cfg) l -> NoDup (ca_peer <$> l) ->
  Forall (fun e => (ca_peer e, ca_addr e) ∉ seen) l ->
  dedup_entries seen (l ++ rest) =
  l ++ dedup_entries (list_to_set ((fun e => (ca_peer e, ca_addr e)) <$> l) ∪ seen) rest.
Proof.
  revert seen. induction l as [|e l IH]; intros seen Hb Hnd Hf; cbn [app dedup_entries].
  { cbn. by rewrite union_empty_l_L. }
  apply Forall_cons in Hb as [He Hb]. cbn in Hnd. apply NoDup_cons in Hnd as [Hne Hnd]. apply Forall_cons in Hf as [Hfe Hf].
  rewrite (bound_entry_normalizes _ _ He), decide_False by done. f_equal. rewrite IH; [|done|done|].
  - f_equal. cbn. f_equal. set_solver.
  - apply Forall_forall. intros e' He'. rewrite Forall_forall in Hf. specialize (Hf e' He').
    rewrite elem_of_union, elem_of_singleton. intros [[= Hp _]|?]; [|done].
    apply Hne. rewrite <- Hp. by apply list_elem_of_fmap_2.
Qed.

Definition written (identities : list CachedPeerIdentity) (es : list CachedPeerAddr) : PeerCacheFile :=
  {| pf_version := CACHE_VERSION; pf_identities := identities; pf_dialable_addrs := es; pf_entries := es; pf_addrs := [] |}.

(** A written file reads back as its entries that are still valid. *)
Lemma written_reads_back cfg ids es now :
  entries_ok cfg es ->
  valid_dialable_entries_from_file cfg (written ids es) now =
  take (Z.to_nat (peer_cache_max_entries cfg)) (filter (fun e => is_valid_cache_entry cfg e now = true) es).
Proof.
  intros [H1 H2 H3 H4]. unfold valid_dialable_entries_from_file. cbn [pf_version written].
  rewrite decide_False by (unfold CACHE_VERSION; lia). cbn [pf_dialable_addrs pf_entries written older_format_entries pf_addrs omap].
  do 2 f_equal. cbn. rewrite app_nil_r. rewrite (dedup_fresh cfg); [|done|done|by apply Forall_forall; intros ? _; apply not_elem_of_empty].
  rewrite <- (app_nil_r es) at 3. rewrite dedup_known; [cbn; by rewrite app_nil_r|].
  apply Forall_forall. intros e He. exists e. split.
  - rewrite Forall_forall in H1. by eapply bound_entry_normalizes, H1.
  - apply elem_of_union_l, elem_of_list_to_set. by apply (list_elem_of_fmap_2 (fun e => (ca_peer e, ca_addr e))).
Qed.

Lemma upsert_ok cfg now es peer addr na kind expires :
  entries_ok cfg es -> normalize_peer_addr peer addr = Some na -> classify_dialable_addr na = Some kind ->
  is_persistable_dialable_addr_kind cfg kind = true ->
  entries_ok cfg (upsert_entry cfg now es peer na kind expires).
Proof.
  intros Hes Hn Hc Hp. unfold upsert_entry.
  set (es' := filter _ es). assert (Hes' : entries_ok cfg es') by (eapply entries_ok_sublist; [apply filter_sublist_of|done]).
  assert (Hnot : forall e, e ∈ es' -> ca_addr e ≠ addr_to_string na /\ ca_peer e ≠ peer_to_string peer).
  { intros e [Hq _]%list_elem_of_filter. exact Hq. }
  destruct Hes' as [H1 H2 H3 H4]. split.
  - constructor; [|done]. exists peer, na, kind. cbn. split_and!; try done. by eapply normalize_cacheable.
  - cbn. apply NoDup_cons. split; [|done]. intros (e & He & Hin)%list_elem_of_fmap. by destruct (Hnot e Hin).
  - cbn. apply NoDup_cons. split; [|done]. intros (e & He & Hin)%list_elem_of_fmap. by destruct (Hnot e Hin).
  - intros Hpos. constructor; [cbn; lia|auto].
Qed.

Lemma add_failure_fields peer e :
  ca_peer (add_entry_failure peer e) = ca_peer e /\ ca_addr (add_entry_failure peer e) = ca_addr e /\
  ca_kind (add_entry_failure peer e) = ca_kind e.
Proof. unfold add_entry_failure. by case_decide. Qed.

Lemma apply_mutation_ok cfg now st m :
  entries_ok cfg st.2 -> entries_ok cfg (apply_mutation cfg now st m).2.
Proof.
  destruct st as [ids es]. intros Hes. cbn in Hes. destruct m as [p a e|p]; cbn.
  - destruct (normalize_peer_addr p a) as [na|] eqn:En; [|done].
    destruct (classify_dialable_addr na) as [kind|] eqn:Ec; [|done].
    destruct (is_persistable_dialable_addr_kind cfg kind) eqn:Ep; cbn; [|done]. by eapply upsert_ok.
  - set (es1 := add_entry_failure _ <$> es).
    assert (Hp : ca_peer <$> es1 = ca_peer <$> es).
    { unfold es1. rewrite <- list_fmap_compose. apply list_fmap_ext. intros. apply add_failure_fields. }
    assert (Ha : ca_addr <$> es1 = ca_addr <$> es).
    { unfold es1. rewrite <- list_fmap_compose. apply list_fmap_ext. intros. apply add_failure_fields. }
    pose proof (filter_sublist_of (fun e => peer_cache_max_failures cfg = 0 \/ ca_failures e < peer_cache_max_failures cfg) es1) as Hs.
    destruct Hes as [H1 H2 H3 H4]. split.
    + eapply sublist_Forall; [exact Hs|]. unfold es1. apply Forall_fmap. eapply Forall_impl; [exact H1|].
      intros e (pp & aa & kk & B1 & B2 & B3). exists pp, aa, kk. cbn.
      destruct (add_failure_fields (peer_to_string p) e) as (-> & -> & ->). done.
    + eapply sublist_NoDup; [|apply sublist_fmap, Hs]. by rewrite Hp.
    + eapply sublist_NoDup; [|apply sublist_fmap, Hs]. by rewrite Ha.
    + intros Hpos. apply Forall_forall. intros e [[Hq|Hq] _]%list_elem_of_filter; lia.
Qed.

Lemma mutations_ok cfg now ms st :
  entries_ok cfg st.2 -> entries_ok cfg (foldl (apply_mutation cfg now) st ms).2.
Proof.
  revert st. induction ms as [|m ms IH]; intros st Hst; [done|]. cbn. apply IH. by apply apply_mutation_ok.
Qed.

Lemma load_bound cfg file now :
  Forall (fun e => is_valid_cache_entry cfg e now = true) (valid_dialable_entries_from_file cfg file now).
Proof.
  unfold valid_dialable_entries_from_file. case_decide; [constructor|]. apply Forall_take.
  apply Forall_forall. by intros e [? _]%list_elem_of_filter.
Qed.

Section stored.
Context {S : Type} `{NodeStorage S} {SL : StorageLaws S} {J : SerdeJson PeerCacheFile} {JL : SerdeJsonLaws PeerCacheFile J}.
(** [serde_json] writes every cache file: it has no maps and no custom writers. *)
Context (Hjson : forall f : PeerCacheFile, is_ok (json_to_vec f) = true).

(** After a write the storage holds the written file. *)
Lemma write_then_read cfg ids es (s : S) :
  storage_ok s ->
  let s' := write_entries_with_storage (peer_cache_path cfg) ids es s in
  storage_ok s' /\ read_cache_file_with_storage cfg s' = Some (written ids es).
Proof using Hjson JL.
  intros Hs. unfold write_entries_with_storage. fold (written ids es).
  specialize (Hjson (written ids es)). destruct (json_to_vec (written ids es)) as [raw|] eqn:E; [|done].
  pose proof (law_write_public s (peer_cache_path cfg) raw Hs) as Hw.
  destruct (storage_write_public s (peer_cache_path cfg) raw) as [r s']. destruct Hw as (_ & Hs' & Hv). cbn. split; [done|].
  unfold read_cache_file_with_storage. rewrite law_read by done. rewrite Hv, lookup_insert_eq.
  by rewrite (json_roundtrip _ _ E).
Qed.

(** What the storage may hold: no readable cache, or one this code wrote. *)
Definition cache_ok (cfg : PeerCachePolicy) (s : S) : Prop :=
  storage_ok s /\
  (read_cache_file_with_storage cfg s = None \/
   exists ids es, read_cache_file_with_storage cfg s = Some (written ids es) /\ entries_ok cfg es).

Lemma loaded_entries_ok cfg now (s : S) : cache_ok cfg s -> entries_ok cfg (load_entries_with_storage cfg now s).
Proof.
  intros [_ [E|(ids & es & E & Hes)]]; unfold load_entries_with_storage; rewrite E.
  - repeat split; try constructor.
  - rewrite written_reads_back by done. eapply entries_ok_sublist; [|done].
    etrans; [apply sublist_take|apply filter_sublist_of].
Qed.

Lemma apply_mutations_entries_ok cfg ms now (s : S) :
  cache_ok cfg s ->
  entries_ok cfg (apply_mutations cfg ms now (default PeerCacheFile_default (read_cache_file_with_storage cfg s))).2.
Proof.
  intros Hc. unfold apply_mutations.
  match goal with |- context [foldl _ ?st ms] => pose proof (mutations_ok cfg now ms st) as Hm; destruct (foldl _ st ms) as [ids es] end.
  cbn in *. eapply entries_ok_sublist; [apply sublist_take|]. apply Hm.
  pose proof (loaded_entries_ok cfg now s Hc) as Hl. unfold load_entries_with_storage in Hl.
  destruct (read_cache_file_with_storage cfg s); cbn; [done|]. repeat split; constructor.
Qed.

Lemma flush_ok cfg b now (s : S) : cache_ok cfg s -> cache_ok cfg (wb_flush b cfg now s).2.
Proof using Hjson JL PL ML SL.
  intros Hc. unfold wb_flush. destruct (wb_pending b) as [|m ms]; [done|]. cbn.
  unfold apply_mutations_with_storage. pose proof (apply_mutations_entries_ok cfg (m :: ms) now s Hc) as He.
  destruct (apply_mutations cfg (m :: ms) now _) as [ids es]. cbn in He.
  destruct (write_then_read cfg ids es s (proj1 Hc)) as [Hs' Hr]. split; [done|]. right. eauto.
Qed.

(** Whatever batches are flushed to a storage that held no cache, and
    whenever it is loaded, the cache yields at most [peer_cache_max_entries]
    addresses, one per peer and none twice, each an address of that peer's
    identity that is dialable, of a kind the policy lets persist, not expired
    and not failed too often; and the queue of every batch holds no sighting
    twice and at most 4096 mutations. *)
Theorem peer_cache_one_bound_address_per_peer (cfg : PeerCachePolicy) (s0 : S) (flushes : list (list batch_op * Z)) (t : Z) :
  storage_ok s0 -> read_cache_file_with_storage cfg s0 = None -> 0 <= peer_cache_max_entries cfg ->
  let s := foldl (fun s f => (wb_flush (foldl batch_run PeerCacheWriteBatch_default f.1) cfg f.2 s).2) s0 flushes in
  let es := load_entries_with_storage cfg t s in
  len es <= peer_cache_max_entries cfg /\ NoDup (ca_peer <$> es) /\ NoDup (ca_addr <$> es) /\
  Forall (fun e => bound_entry cfg e /\ is_valid_cache_entry cfg e t = true) es /\
  Forall (fun f => batch_inv (foldl batch_run PeerCacheWriteBatch_default f.1)) flushes.
Proof using Hjson JL PL ML SL.
  intros Hs H0 Hmax s es. assert (Hc : cache_ok cfg s).
  { subst s es. assert (Hc0 : cache_ok cfg s0) by (split; [done|by left]). clear Hs H0. revert s0 Hc0.
    induction flushes as [|f fs IH]; intros s0 Hc0; [done|]. cbn. by apply IH, flush_ok. }
  pose proof (loaded_entries_ok cfg t s Hc) as [H1 H2 H3 H4]. split_and!; [|done|done| |].
  - subst es. unfold load_entries_with_storage. destruct (read_cache_file_with_storage cfg s) as [file|]; [|cbn; unfold len; cbn; lia].
    unfold valid_dialable_entries_from_file. case_decide; unfold len; [cbn; lia|]. rewrite length_take. lia.
  - apply Forall_and. split; [done|]. subst es. unfold load_entries_with_storage.
    destruct (read_cache_file_with_storage cfg s) as [file|]; [apply load_bound|constructor].
  - apply Forall_forall. intros f _. apply batch_run_inv. split; [done|constructor|done].
Qed.

(** The age an address may reach, and the moment it expires. *)
Definition fresh_until (cfg : PeerCachePolicy) (kind : CachedDialAddrKind) (now t : Z) : Prop :=
  match effective_dialable_max_age_secs cfg kind with Some ttl => t < sat_add u64_max now ttl | None => True end.

Lemma fresh_entry_valid cfg now t peer addr na kind :
  normalize_peer_addr peer addr = Some na -> classify_dialable_addr na = Some kind ->
  is_persistable_dialable_addr_kind cfg kind = true -> now <= t -> fresh_until cfg kind now t ->
  is_valid_cache_entry cfg {| ca_peer := peer_to_string peer; ca_addr := addr_to_string na; ca_last_seen := now;
    ca_failures := 0; ca_kind := kind; ca_expires := inferred_expiry_secs cfg kind now |} t = true.
Proof using PL ML.
  intros Hn Hc Hp Ht Hf. unfold is_valid_cache_entry. cbn [ca_peer ca_addr ca_expires ca_last_seen ca_failures].
  rewrite peer_parse_to_string, addr_parse_to_string, (normalize_cacheable _ _ _ _ Hn Hc), Hc, Hp.
  unfold fresh_until, inferred_expiry_secs in *. cbn [negb].
  destruct (effective_dialable_max_age_secs cfg kind) as [ttl|] eqn:E; cbn [fmap option_fmap option_map].
  - rewrite bool_decide_eq_false_2 by lia. unfold sat_add, sat_sub in *.
    rewrite (bool_decide_eq_false_2 (ttl < Z.max 0 (t - now))).
    + rewrite andb_false_r. case_bool_decide; case_bool_decide; try done. lia.
    + enough (0 <= ttl) by lia. unfold effective_dialable_max_age_secs, min_nonzero in E.
      assert (now + ttl > t) by lia. lia.
  - case_bool_decide; case_bool_decide; try done. lia.
Qed.

(** A peer seen last is dialled first after a restart. After a flush whose
    last mutation saw a peer at an address the policy lets persist, loading the
    cache at any later time before the address expires yields that address,
    completed with the peer's identity, at the head of the addresses to dial. *)
Theorem seen_peer_is_dialled_first (cfg : PeerCachePolicy) (s : S) (b : PeerCacheWriteBatch) (ms : list PeerCacheMutation)
    (peer : PeerId) (addr na : Multiaddr) (kind : CachedDialAddrKind) (now t limit : Z) :
  cache_ok cfg s -> wb_pending b = ms ++ [Seen peer addr None] ->
  normalize_peer_addr peer addr = Some na -> classify_dialable_addr na = Some kind ->
  is_persistable_dialable_addr_kind cfg kind = true ->
  0 < peer_cache_max_entries cfg -> 0 < limit -> now <= t -> fresh_until cfg kind now t ->
  head (load_last_addrs_with_storage cfg t limit (wb_flush b cfg now s).2) = Some na.
Proof using Hjson JL PL ML SL.
  intros Hc Hb Hn Hk Hp Hmax Hlim Ht Hf. unfold wb_flush. rewrite Hb.
  assert (exists m l, ms ++ [Seen peer addr None] = m :: l) as (m & l & El) by (destruct ms; cbn; eauto).
  rewrite El. cbn [snd]. rewrite <- El. unfold apply_mutations_with_storage.
  pose proof (apply_mutations_entries_ok cfg (ms ++ [Seen peer addr None]) now s Hc) as He.
  set (file := default PeerCacheFile_default _) in *.
  assert (Hhead : exists rest, (apply_mutations cfg (ms ++ [Seen peer addr None]) now file).2 =
    {| ca_peer := peer_to_string peer; ca_addr := addr_to_string na; ca_last_seen := now;
       ca_failures := 0; ca_kind := kind; ca_expires := inferred_expiry_secs cfg kind now |} :: rest).
  { unfold apply_mutations. rewrite foldl_app. destruct (foldl _ _ ms) as [ids es]. cbn. rewrite Hn, Hk, Hp. cbn.
    replace (Z.to_nat (peer_cache_max_entries cfg)) with (Datatypes.S (Z.to_nat (peer_cache_max_entries cfg) - 1)) by lia.
    cbn. eauto. }
  destruct Hhead as [rest Hhead]. destruct (apply_mutations _ _ _ _) as [ids es]. cbn in He, Hhead. subst es.
  match goal with |- context [write_entries_with_storage _ ids ?es s] => destruct (write_then_read cfg ids es s (proj1 Hc)) as [_ Hr] end.
  unfold load_last_addrs_with_storage, load_entries_with_storage. rewrite Hr, written_reads_back by done.
  rewrite filter_cons_True by by eapply fresh_entry_valid.
  replace (Z.to_nat (peer_cache_max_entries cfg)) with (Datatypes.S (Z.to_nat (peer_cache_max_entries cfg) - 1)) by lia.
  replace (Z.to_nat limit) with (Datatypes.S (Z.to_nat limit - 1)) by lia. cbn. by rewrite addr_parse_to_string.
Qed.
End stored.

(** * A reconnection in the batch of its failures *)
Definition failed_times (peer : PeerId) (k : Z) (es : list CachedPeerAddr) : Prop :=
  Forall (fun e => ca_peer e = peer_to_string peer -> k <= ca_failures e) es.

Lemma failure_counts cfg now peer k st :
  0 <= k < u32_max -> failed_times peer k st.2 ->
  failed_times peer (k + 1) (apply_mutation cfg now st (Failure peer)).2 /\
  (0 < peer_cache_max_failures cfg ->
     Forall (fun e => ca_failures e < peer_cache_max_failures cfg) (apply_mutation cfg now st (Failure peer)).2).
Proof.
  destruct st as [ids es]. intros Hk Hf. cbn in *. split.
  - apply Forall_forall. intros e [_ He]%list_elem_of_filter. apply list_elem_of_fmap in He as (e0 & -> & He0).
    unfold failed_times in Hf. rewrite Forall_forall in Hf. specialize (Hf e0 He0). unfold add_entry_failure. case_decide as Hp; cbn.
    + intros _. specialize (Hf Hp). ulia.
    + done.
  - intros Hpos. apply Forall_forall. intros e [[Hq|Hq] _]%list_elem_of_filter; lia.
Qed.

Lemma failures_count cfg now peer n st :
  Z.of_nat n <= u32_max -> failed_times peer 0 st.2 ->
  failed_times peer (Z.of_nat n) (foldl (apply_mutation cfg now) st (replicate n (Failure peer))).2.
Proof.
  intros Hn Hf. assert (H : forall n k st, 0 <= k -> k + Z.of_nat n <= u32_max -> failed_times peer k st.2 ->
    failed_times peer (k + Z.of_nat n) (foldl (apply_mutation cfg now) st (replicate n (Failure peer))).2).
  { clear. induction n as [|n IH]; intros k st Hk Hn Hf; [by rewrite Z.add_0_r|].
    rewrite replicate_S. cbn [foldl]. replace (k + Z.of_nat (S n)) with (k + 1 + Z.of_nat n) by lia.
    apply IH; [lia|lia|]. apply failure_counts; [lia|done]. }
  by apply (H n 0 st).
Qed.

Lemma batch_of_failures peer n b :
  len (wb_pending b) + Z.of_nat n <= MAX_PENDING_CACHE_MUTATIONS ->
  foldl batch_run b (replicate n (OpFailure peer)) =
  {| wb_pending := wb_pending b ++ replicate n (Failure peer); wb_pending_seen := wb_pending_seen b |}.
Proof.
  revert b. induction n as [|n IH]; intros b Hb; cbn [replicate foldl].
  { rewrite app_nil_r. by destruct b. }
  assert (Hp : batch_run b (OpFailure peer) =
    {| wb_pending := wb_pending b ++ [Failure peer]; wb_pending_seen := wb_pending_seen b |}).
  { unfold batch_run, cache_record_failure, wb_push. by rewrite decide_False by lia. }
  rewrite Hp, IH; cbn; [by rewrite <- app_assoc|]. rewrite len_app. unfold len in *. cbn. lia.
Qed.

(** A reconnection is lost when it falls into the batch of its failures: a
    peer that is seen, fails [peer_cache_max_failures] times and is seen again
    before the batch is flushed leaves no entry in the cache, although its last
    mutation was a sighting that resets the failures. *)
Theorem reconnection_in_batch_forgotten (cfg : PeerCachePolicy) (peer : PeerId) (addr : Multiaddr) (n : nat) (now : Z)
    (file : PeerCacheFile) :
  peer_cache_max_failures cfg = Z.of_nat n -> (0 < n)%nat -> Z.of_nat n + 1 <= MAX_PENDING_CACHE_MUTATIONS ->
  Forall (fun e => 0 <= ca_failures e) (valid_dialable_entries_from_file cfg file now) ->
  let ops := OpSeen peer addr None :: replicate n (OpFailure peer) ++ [OpSeen peer addr None] in
  let b := foldl batch_run PeerCacheWriteBatch_default ops in
  wb_pending b = Seen peer addr None :: replicate n (Failure peer) /\
  Forall (fun e => ca_peer e ≠ peer_to_string peer) (apply_mutations cfg (wb_pending b) now file).2.
Proof.
  intros Hn Hpos Hb Hfile ops b.
  assert (Hpend : wb_pending b = Seen peer addr None :: replicate n (Failure peer)).
  { subst b ops. cbn [foldl batch_run]. rewrite foldl_app.
    replace (record_seen_with_expiry PeerCacheWriteBatch_default peer addr None)
      with {| wb_pending := [Seen peer addr None]; wb_pending_seen := {[(peer, addr, None)]} ∪ ∅ |}.
    2:{ unfold record_seen_with_expiry. rewrite decide_False by set_solver. unfold wb_push.
        by rewrite decide_False by (cbn; unfold len, MAX_PENDING_CACHE_MUTATIONS; cbn; lia). }
    rewrite batch_of_failures by (unfold len; cbn; lia).
    cbn. unfold record_seen_with_expiry. by rewrite decide_True by set_solver. }
  split; [done|]. rewrite Hpend. unfold apply_mutations. cbn [foldl].
  set (st0 := apply_mutation cfg now _ (Seen peer addr None)).
  assert (H0 : failed_times peer 0 st0.2).
  { assert (Hz : Forall (fun e => 0 <= ca_failures e) st0.2); [|eapply Forall_impl; [exact Hz|]; by cbn].
    subst st0. cbn. destruct (normalize_peer_addr peer addr); [|done]. destruct (classify_dialable_addr _); [|done].
    destruct (negb _); [done|]. cbn. constructor; [cbn; lia|]. eapply sublist_Forall; [apply filter_sublist_of|done]. }
  destruct n as [|n]; [lia|]. rewrite replicate_S_end, foldl_app.
  assert (Hu : Z.of_nat (S n) <= u32_max) by (unfold MAX_PENDING_CACHE_MUTATIONS, u32_max in *; lia).
  pose proof (failures_count cfg now peer n st0 ltac:(lia) H0) as H1.
  set (st1 := foldl _ st0 _) in *. cbn [foldl].
  destruct (failure_counts cfg now peer (Z.of_nat n) st1 ltac:(lia) H1) as [H2 H3].
  destruct (apply_mutation cfg now st1 (Failure peer)) as [ids es]. cbn in *. apply Forall_take.
  apply Forall_forall. intros e He Hp. rewrite Forall_forall in H3. unfold failed_times in H2. rewrite Forall_forall in H2.
  specialize (H2 e He Hp). specialize (H3 ltac:(lia) e He). lia.
Qed.
End cache_facts.
