(* ===== verification/PeerBook.v ===== *)
(** The peer book (crates/connectivity/peer_book.rs): the unified in-memory
    index of known peers, its auxiliary indexes and its eviction. *)

From S2P Require Import Prelude Text Bytes BTree Common AppMessage.

#[local] Open Scope Z_scope.

Definition MAX_ADDRS_PER_PEER : Z := 64.
Definition DEFAULT_MAX_PEER_BOOK_RECORDS : Z := 2048.

Section peer_book.
Context `{PL : PeerIdLib} `{ML : !MultiaddrLib}.

Record PeerRecord := {
  pr_peer_id : PeerId;
  pr_addresses : gset string;
  pr_sources : gset PeerSource;
  pr_namespaces : gset string;
  pr_connected : bool;
  pr_supports_relay : option bool;
  pr_supports_rendezvous : option bool;
  pr_supports_dcutr : option bool;
  pr_relay_preferred : bool;
  pr_last_seen_unix_secs : option Z;
  pr_failures : Z;
}.

Definition PeerRecord_new (peer_id : PeerId) : PeerRecord := {|
  pr_peer_id := peer_id; pr_addresses := ∅; pr_sources := ∅; pr_namespaces := ∅;
  pr_connected := false; pr_supports_relay := None; pr_supports_rendezvous := None;
  pr_supports_dcutr := None; pr_relay_preferred := false; pr_last_seen_unix_secs := None;
  pr_failures := 0;
|}.

(** Field updates. *)
Definition add_source (s : PeerSource) (r : PeerRecord) : PeerRecord := {|
  pr_peer_id := pr_peer_id r; pr_addresses := pr_addresses r; pr_sources := pr_sources r ∪ {[s]};
  pr_namespaces := pr_namespaces r; pr_connected := pr_connected r;
  pr_supports_relay := pr_supports_relay r; pr_supports_rendezvous := pr_supports_rendezvous r;
  pr_supports_dcutr := pr_supports_dcutr r; pr_relay_preferred := pr_relay_preferred r;
  pr_last_seen_unix_secs := pr_last_seen_unix_secs r; pr_failures := pr_failures r |}.

Definition set_addresses (a : gset string) (r : PeerRecord) : PeerRecord := {|
  pr_peer_id := pr_peer_id r; pr_addresses := a; pr_sources := pr_sources r;
  pr_namespaces := pr_namespaces r; pr_connected := pr_connected r;
  pr_supports_relay := pr_supports_relay r; pr_supports_rendezvous := pr_supports_rendezvous r;
  pr_supports_dcutr := pr_supports_dcutr r; pr_relay_preferred := pr_relay_preferred r;
  pr_last_seen_unix_secs := pr_last_seen_unix_secs r; pr_failures := pr_failures r |}.

Definition add_namespace (n : string) (r : PeerRecord) : PeerRecord := {|
  pr_peer_id := pr_peer_id r; pr_addresses := pr_addresses r; pr_sources := pr_sources r;
  pr_namespaces := pr_namespaces r ∪ {[n]}; pr_connected := pr_connected r;
  pr_supports_relay := pr_supports_relay r; pr_supports_rendezvous := pr_supports_rendezvous r;
  pr_supports_dcutr := pr_supports_dcutr r; pr_relay_preferred := pr_relay_preferred r;
  pr_last_seen_unix_secs := pr_last_seen_unix_secs r; pr_failures := pr_failures r |}.

Definition set_connected (c : bool) (r : PeerRecord) : PeerRecord := {|
  pr_peer_id := pr_peer_id r; pr_addresses := pr_addresses r; pr_sources := pr_sources r;
  pr_namespaces := pr_namespaces r; pr_connected := c;
  pr_supports_relay := pr_supports_relay r; pr_supports_rendezvous := pr_supports_rendezvous r;
  pr_supports_dcutr := pr_supports_dcutr r; pr_relay_preferred := pr_relay_preferred r;
  pr_last_seen_unix_secs := pr_last_seen_unix_secs r; pr_failures := pr_failures r |}.

(** [if supports.is_some() { record.supports = supports }] for each capability. *)
Definition merge_capabilities (relay rendezvous dcutr : option bool) (r : PeerRecord) : PeerRecord := {|
  pr_peer_id := pr_peer_id r; pr_addresses := pr_addresses r; pr_sources := pr_sources r;
  pr_namespaces := pr_namespaces r; pr_connected := pr_connected r;
  pr_supports_relay := match relay with Some _ => relay | None => pr_supports_relay r end;
  pr_supports_rendezvous := match rendezvous with Some _ => rendezvous | None => pr_supports_rendezvous r end;
  pr_supports_dcutr := match dcutr with Some _ => dcutr | None => pr_supports_dcutr r end;
  pr_relay_preferred := pr_relay_preferred r;
  pr_last_seen_unix_secs := pr_last_seen_unix_secs r; pr_failures := pr_failures r |}.

Definition set_relay_preferred (p : bool) (r : PeerRecord) : PeerRecord := {|
  pr_peer_id := pr_peer_id r; pr_addresses := pr_addresses r; pr_sources := pr_sources r;
  pr_namespaces := pr_namespaces r; pr_connected := pr_connected r;
  pr_supports_relay := pr_supports_relay r; pr_supports_rendezvous := pr_supports_rendezvous r;
  pr_supports_dcutr := pr_supports_dcutr r; pr_relay_preferred := p;
  pr_last_seen_unix_secs := pr_last_seen_unix_secs r; pr_failures := pr_failures r |}.

Definition add_failure (r : PeerRecord) : PeerRecord := {|
  pr_peer_id := pr_peer_id r; pr_addresses := pr_addresses r; pr_sources := pr_sources r;
  pr_namespaces := pr_namespaces r; pr_connected := pr_connected r;
  pr_supports_relay := pr_supports_relay r; pr_supports_rendezvous := pr_supports_rendezvous r;
  pr_supports_dcutr := pr_supports_dcutr r; pr_relay_preferred := pr_relay_preferred r;
  pr_last_seen_unix_secs := pr_last_seen_unix_secs r;
  pr_failures := sat_add u32_max (pr_failures r) 1 |}.

Definition mark_seen (now : Z) (r : PeerRecord) : PeerRecord := {|
  pr_peer_id := pr_peer_id r; pr_addresses := pr_addresses r; pr_sources := pr_sources r;
  pr_namespaces := pr_namespaces r; pr_connected := pr_connected r;
  pr_supports_relay := pr_supports_relay r; pr_supports_rendezvous := pr_supports_rendezvous r;
  pr_supports_dcutr := pr_supports_dcutr r; pr_relay_preferred := pr_relay_preferred r;
  pr_last_seen_unix_secs := Some now; pr_failures := pr_failures r |}.

Definition to_peer_info (r : PeerRecord) : PeerInfo := {|
  pi_peer_id := peer_to_string (pr_peer_id r);
  pi_connected := pr_connected r;
  pi_addresses := bt_iter (pr_addresses r);
  pi_sources := bt_iter (pr_sources r);
  pi_supports_relay := pr_supports_relay r;
  pi_supports_rendezvous := pr_supports_rendezvous r;
  pi_supports_dcutr := pr_supports_dcutr r;
  pi_last_seen_unix_secs := pr_last_seen_unix_secs r;
  pi_namespace := if decide (size (pr_namespaces r) = 1%nat) then bt_first (pr_namespaces r) else None;
|}.

Definition prune_addrs_step (a : gset string) : option (gset string) :=
  if decide (MAX_ADDRS_PER_PEER < Z.of_nat (size a)) then
    match bt_first a with
    | None => None
    | Some oldest_sorted => Some (a ∖ {[oldest_sorted]})
    end
  else None.

Definition prune_peer_addrs (r : PeerRecord) : PeerRecord :=
  set_addresses (loop prune_addrs_step (size (pr_addresses r)) (pr_addresses r)) r.

Definition add_addr (addr : Multiaddr) (r : PeerRecord) : PeerRecord :=
  prune_peer_addrs (set_addresses (pr_addresses r ∪ {[addr_to_string addr]}) r).

(** * The book *)
Record PeerBook := {
  pb_peers : gmap PeerId PeerRecord;
  pb_disconnected_namespace_peers : gset PeerId;
  pb_disconnected_eviction_order : gset (Z * PeerId);
  pb_connected_count : Z;
  pb_max_records : Z;
}.

Definition with_max_records (max : Z) : PeerBook := {|
  pb_peers := ∅; pb_disconnected_namespace_peers := ∅; pb_disconnected_eviction_order := ∅;
  pb_connected_count := 0; pb_max_records := Z.max max 1 |}.

Definition PeerBook_default : PeerBook := with_max_records DEFAULT_MAX_PEER_BOOK_RECORDS.

Definition pb_len (b : PeerBook) : Z := Z.of_nat (size (pb_peers b)).

Definition sync_indexes (b : PeerBook) (peer_id : PeerId) (was_connected : bool) : PeerBook :=
  match pb_peers b !! peer_id with
  | None => b
  | Some r => {|
      pb_peers := pb_peers b;
      pb_disconnected_namespace_peers :=
        if negb (pr_connected r) && negb (bool_decide (pr_namespaces r = ∅))
        then pb_disconnected_namespace_peers b ∪ {[peer_id]}
        else pb_disconnected_namespace_peers b ∖ {[peer_id]};
      pb_disconnected_eviction_order :=
        match pr_connected r, pr_last_seen_unix_secs r with
        | false, Some last_seen => pb_disconnected_eviction_order b ∪ {[(last_seen, peer_id)]}
        | _, _ => pb_disconnected_eviction_order b
        end;
      pb_connected_count :=
        if Bool.eqb was_connected (pr_connected r) then pb_connected_count b
        else if pr_connected r then sat_add usize_max (pb_connected_count b) 1
        else sat_sub (pb_connected_count b) 1;
      pb_max_records := pb_max_records b |}
  end.

Definition bound_step (b : PeerBook) : option PeerBook :=
  if decide (pb_max_records b < Z.of_nat (size (pb_peers b))) then
    match bt_first (pb_disconnected_eviction_order b) with
    | None => None
    | Some victim => Some {|
        pb_peers := delete victim.2 (pb_peers b);
        pb_disconnected_namespace_peers := pb_disconnected_namespace_peers b ∖ {[victim.2]};
        pb_disconnected_eviction_order := pb_disconnected_eviction_order b ∖ {[victim]};
        pb_connected_count := pb_connected_count b;
        pb_max_records := pb_max_records b |}
    end
  else None.

Definition enforce_record_bound (b : PeerBook) : PeerBook :=
  loop bound_step (size (pb_disconnected_eviction_order b)) b.

Definition mutate_peer (b : PeerBook) (peer_id : PeerId) (mutate : PeerRecord -> PeerRecord) (now : Z)
  : PeerBook :=
  let previous := pb_peers b !! peer_id in
  let order :=
    match previous with
    | Some r =>
        match pr_connected r, pr_last_seen_unix_secs r with
        | false, Some last_seen => pb_disconnected_eviction_order b ∖ {[(last_seen, peer_id)]}
        | _, _ => pb_disconnected_eviction_order b
        end
    | None => pb_disconnected_eviction_order b
    end in
  let record := mark_seen now (mutate (default (PeerRecord_new peer_id) previous)) in
  let b := {| pb_peers := <[peer_id := record]> (pb_peers b);
              pb_disconnected_namespace_peers := pb_disconnected_namespace_peers b;
              pb_disconnected_eviction_order := order;
              pb_connected_count := pb_connected_count b;
              pb_max_records := pb_max_records b |} in
  enforce_record_bound (sync_indexes b peer_id (match previous with Some r => pr_connected r | None => false end)).

Definition record_peer (b : PeerBook) (peer_id : PeerId) (source : PeerSource) (now : Z) : PeerBook :=
  mutate_peer b peer_id (add_source source) now.

Definition record_addr (b : PeerBook) (peer_id : PeerId) (addr : Multiaddr) (source : PeerSource) (now : Z)
  : PeerBook :=
  mutate_peer b peer_id (fun r => add_addr addr (add_source source r)) now.

Definition record_namespace (b : PeerBook) (peer_id : PeerId) (namespace : string) (source : PeerSource)
    (now : Z) : PeerBook :=
  mutate_peer b peer_id (fun r => add_namespace namespace (add_source source r)) now.

Definition record_connected (b : PeerBook) (peer_id : PeerId) (addr : option Multiaddr) (now : Z) : PeerBook :=
  mutate_peer b peer_id
    (fun r => let r := add_source Connected (set_connected true r) in
              match addr with Some a => add_addr a r | None => r end) now.

Definition record_capabilities (b : PeerBook) (peer_id : PeerId) (relay rendezvous dcutr : option bool)
    (now : Z) : PeerBook :=
  mutate_peer b peer_id (merge_capabilities relay rendezvous dcutr) now.

Definition record_relay_preferred (b : PeerBook) (peer_id : PeerId) (preferred : bool) (now : Z) : PeerBook :=
  mutate_peer b peer_id (set_relay_preferred preferred) now.

Definition record_disconnected (b : PeerBook) (peer_id : PeerId) (now : Z) : PeerBook :=
  mutate_peer b peer_id (set_connected false) now.

Definition record_disconnected_if_known (b : PeerBook) (peer_id : PeerId) (now : Z) : PeerBook :=
  match pb_peers b !! peer_id with
  | None => b
  | Some _ => mutate_peer b peer_id (set_connected false) now
  end.

Definition record_failure (b : PeerBook) (peer_id : PeerId) (now : Z) : PeerBook :=
  mutate_peer b peer_id add_failure now.

Definition record (b : PeerBook) (peer_id : PeerId) : option PeerRecord := pb_peers b !! peer_id.

Definition reconnect_candidates (b : PeerBook) : list PeerId := bt_iter (pb_disconnected_namespace_peers b).

Definition has_application_namespace (b : PeerBook) (peer_id : PeerId) (namespaces : list string) : bool :=
  match record b peer_id with
  | None => false
  | Some r => existsb (fun n => existsb (fun c => bool_decide (c = n)) namespaces) (bt_iter (pr_namespaces r))
  end.

Definition info_leb (a b : PeerInfo) : Prop := ord_leb (pi_peer_id a) (pi_peer_id b) = true.
#[global] Instance info_leb_dec : RelDecision info_leb.
Proof. intros a b. unfold info_leb. apply _. Defined.

(** [peers]: every record, sorted by the text of the peer id. *)
Definition peers (b : PeerBook) : list PeerInfo :=
  merge_sort info_leb ((fun kr => to_peer_info kr.2) <$> map_to_list (pb_peers b)).

Definition connected_count (b : PeerBook) : Z := pb_connected_count b.

Definition discovered_count (b : PeerBook) : Z := sat_sub (pb_len b) (pb_connected_count b).
End peer_book.

(** * Facts

    Facts about the peer book: its auxiliary indexes always describe its
    records, its memory bound, the eviction policy, and what each update does. *)

Section book_facts.
Context `{PL : PeerIdLib} `{ML : !MultiaddrLib}.

Implicit Types (b : PeerBook) (r : PeerRecord) (p q : PeerId).

(** * The invariant *)
Record book_idx (b : PeerBook) : Prop := {
  bi_key p r : pb_peers b !! p = Some r -> pr_peer_id r = p;
  bi_seen p r : pb_peers b !! p = Some r -> is_Some (pr_last_seen_unix_secs r);
  bi_addrs p r : pb_peers b !! p = Some r -> Z.of_nat (size (pr_addresses r)) <= MAX_ADDRS_PER_PEER;
  bi_order t p : (t, p) ∈ pb_disconnected_eviction_order b <->
    exists r, pb_peers b !! p = Some r /\ pr_connected r = false /\ pr_last_seen_unix_secs r = Some t;
  bi_ns p : p ∈ pb_disconnected_namespace_peers b <->
    exists r, pb_peers b !! p = Some r /\ pr_connected r = false /\ pr_namespaces r ≠ ∅;
  bi_count : pb_connected_count b = msum (fun _ r => Z.b2z (pr_connected r)) (pb_peers b);
  bi_max : 1 <= pb_max_records b;
}.

(** Over its limit the book holds connected peers only. *)
Definition book_bounded (b : PeerBook) : Prop :=
  pb_len b <= pb_max_records b \/ forall p r, pb_peers b !! p = Some r -> pr_connected r = true.

(** What the closures passed to [mutate_peer] keep. *)
Definition good_mutate (f : PeerRecord -> PeerRecord) : Prop :=
  forall r, pr_peer_id (f r) = pr_peer_id r /\
    (Z.of_nat (size (pr_addresses r)) <= MAX_ADDRS_PER_PEER ->
     Z.of_nat (size (pr_addresses (f r))) <= MAX_ADDRS_PER_PEER).

Lemma with_max_records_idx max : book_idx (with_max_records max).
Proof.
  split; cbn; try done; try set_solver; lia.
Qed.

(** * Address pruning *)
Lemma prune_addrs_dec a a' : prune_addrs_step a = Some a' -> (size a' < size a)%nat.
Proof.
  unfold prune_addrs_step. case_decide; [|done]. destruct (bt_first a) as [x|] eqn:E; [|done].
  intros [= <-]. apply size_remove_elem. by apply bt_first_Some in E as [? _].
Qed.

Lemma prune_peer_addrs_bound r : Z.of_nat (size (pr_addresses (prune_peer_addrs r))) <= MAX_ADDRS_PER_PEER.
Proof.
  unfold prune_peer_addrs. cbn [set_addresses pr_addresses]. set (a := loop _ _ _).
  assert (prune_addrs_step a = None) as Hstop by (apply (loop_exits _ size); [apply prune_addrs_dec|done]).
  unfold prune_addrs_step in Hstop. case_decide as Hs; [|lia].
  destruct (bt_first a) eqn:E; [done|]. apply bt_first_None in E. rewrite E in *. by rewrite size_empty in Hs.
Qed.

Lemma good_id_addrs f :
  (forall r, pr_peer_id (f r) = pr_peer_id r /\ pr_addresses (f r) = pr_addresses r) -> good_mutate f.
Proof. intros Hf r. destruct (Hf r) as [-> ->]. done. Qed.

Lemma good_add_addr addr g : good_mutate g -> good_mutate (fun r => add_addr addr (g r)).
Proof. intros Hg r. split; [apply Hg|]. intros _. apply prune_peer_addrs_bound. Qed.

Lemma good_connected addr :
  good_mutate (fun r => let r := add_source Connected (set_connected true r) in
                        match addr with Some a => add_addr a r | None => r end).
Proof.
  destruct addr as [a|]; [apply (good_add_addr a (fun r => add_source Connected (set_connected true r)))|];
    by apply good_id_addrs.
Qed.

(** * One update before the bound is enforced *)
Definition updated_record b p f now : PeerRecord :=
  mark_seen now (f (default (PeerRecord_new p) (pb_peers b !! p))).

Definition was_connected b p : bool :=
  match pb_peers b !! p with Some r => pr_connected r | None => false end.

Definition synced b p f now : PeerBook :=
  let r := updated_record b p f now in {|
  pb_peers := <[p := r]> (pb_peers b);
  pb_disconnected_namespace_peers :=
    if negb (pr_connected r) && negb (bool_decide (pr_namespaces r = ∅))
    then pb_disconnected_namespace_peers b ∪ {[p]} else pb_disconnected_namespace_peers b ∖ {[p]};
  pb_disconnected_eviction_order :=
    let o := match pb_peers b !! p with
             | Some r0 => match pr_connected r0, pr_last_seen_unix_secs r0 with
                          | false, Some t => pb_disconnected_eviction_order b ∖ {[(t, p)]}
                          | _, _ => pb_disconnected_eviction_order b
                          end
             | None => pb_disconnected_eviction_order b
             end in
    if pr_connected r then o else o ∪ {[(now, p)]};
  pb_connected_count :=
    if Bool.eqb (was_connected b p) (pr_connected r) then pb_connected_count b
    else if pr_connected r then sat_add usize_max (pb_connected_count b) 1
    else sat_sub (pb_connected_count b) 1;
  pb_max_records := pb_max_records b |}.

Lemma mutate_peer_eq b p f now : mutate_peer b p f now = enforce_record_bound (synced b p f now).
Proof.
  unfold mutate_peer. f_equal. unfold sync_indexes. cbn [pb_peers]. rewrite lookup_insert_eq.
  unfold synced, updated_record, was_connected. cbn. by destruct (pr_connected (f _)).
Qed.

Lemma connected_count_le b :
  book_idx b -> 0 <= pb_connected_count b <= pb_len b.
Proof.
  intros Hb. rewrite (bi_count b Hb). unfold pb_len. clear Hb.
  induction (pb_peers b) as [|p r m Hp IH] using map_ind; [by rewrite msum_empty, map_size_empty|].
  rewrite msum_insert, map_size_insert_None by done. destruct (pr_connected r); cbn; lia.
Qed.

Lemma synced_count b p f now :
  book_idx b -> pb_len b < usize_max ->
  pb_connected_count (synced b p f now) =
  msum (fun _ r => Z.b2z (pr_connected r)) (<[p := updated_record b p f now]> (pb_peers b)).
Proof.
  intros Hb Hlen. pose proof (connected_count_le b Hb) as Hle. cbn [synced pb_connected_count].
  set (r := updated_record b p f now). unfold was_connected.
  destruct (pb_peers b !! p) as [r0|] eqn:E.
  - rewrite (msum_overwrite _ _ p r0) by done. rewrite <- (bi_count b Hb).
    assert (Z.b2z (pr_connected r0) <= pb_connected_count b) as Hr0.
    { rewrite (bi_count b Hb). apply (msum_elem (fun _ r => Z.b2z (pr_connected r)) (pb_peers b) p r0); [|done].
      intros q rq _. destruct (pr_connected rq); cbn; lia. }
    destruct (pr_connected r0), (pr_connected r); cbn in *; ulia.
  - rewrite msum_insert by done. rewrite <- (bi_count b Hb). destruct (pr_connected r); cbn; ulia.
Qed.

(** After the removal of its old entry, the order holds nothing of the peer. *)
Lemma synced_order b p f now t q :
  book_idx b ->
  (t, q) ∈ pb_disconnected_eviction_order (synced b p f now) <->
  if decide (q = p) then pr_connected (updated_record b p f now) = false /\ t = now
  else (t, q) ∈ pb_disconnected_eviction_order b.
Proof.
  intros Hb. cbn [synced pb_disconnected_eviction_order].
  set (o := match pb_peers b !! p with Some _ => _ | None => _ end). set (r := updated_record b p f now).
  assert (forall t, (t, p) ∉ o) as Hno.
  { intros t' Hin. subst o. destruct (pb_peers b !! p) as [r0|] eqn:E.
    - destruct (pr_connected r0) eqn:Ec; [apply (bi_order b Hb) in Hin as (? & ? & ? & ?); congruence|].
      destruct (pr_last_seen_unix_secs r0) as [t0|] eqn:Es.
      + apply elem_of_difference in Hin as [Hin Hne]. apply (bi_order b Hb) in Hin as (? & ? & ? & ?).
        apply Hne, elem_of_singleton. congruence.
      + apply (bi_order b Hb) in Hin as (? & ? & ? & ?). congruence.
    - apply (bi_order b Hb) in Hin as (? & ? & ?). congruence. }
  assert (forall t q, q ≠ p -> (t, q) ∈ o <-> (t, q) ∈ pb_disconnected_eviction_order b) as Hother.
  { intros t' q' Hne. subst o. repeat case_match; try done. rewrite elem_of_difference, elem_of_singleton.
    naive_solver. }
  case_decide as Hq.
  - subst q. destruct (pr_connected r); [set_solver|]. rewrite elem_of_union, elem_of_singleton. naive_solver.
  - destruct (pr_connected r); [by apply Hother|]. rewrite elem_of_union, elem_of_singleton, Hother by done.
    naive_solver.
Qed.

Lemma synced_idx b p f now :
  book_idx b -> good_mutate f -> pb_len b < usize_max -> book_idx (synced b p f now).
Proof.
  intros Hb Hf Hlen. pose proof (synced_order b p f now) as Horder.
  assert (pr_peer_id (updated_record b p f now) = p /\
    Z.of_nat (size (pr_addresses (updated_record b p f now))) <= MAX_ADDRS_PER_PEER) as [Hid Hadd].
  { unfold updated_record. cbn. destruct (Hf (default (PeerRecord_new p) (pb_peers b !! p))) as [-> Ha].
    destruct (pb_peers b !! p) as [r0|] eqn:E; cbn in *.
    - split; [by apply (bi_key b Hb)|]. apply Ha. by eapply (bi_addrs b Hb).
    - split; [done|]. apply Ha. rewrite size_empty. done. }
  split.
  - intros q r. cbn [synced pb_peers]. rewrite lookup_insert_Some. intros [[<- <-]|[_ Hq]]; [done|].
    by apply (bi_key b Hb).
  - intros q r. cbn [synced pb_peers]. rewrite lookup_insert_Some. intros [[<- <-]|[_ Hq]]; [by eexists|].
    by apply (bi_seen b Hb) in Hq.
  - intros q r. cbn [synced pb_peers]. rewrite lookup_insert_Some. intros [[<- <-]|[_ Hq]]; [done|].
    by eapply (bi_addrs b Hb).
  - intros t q. rewrite Horder by done. cbn [synced pb_peers]. case_decide as Hq.
    + subst q. rewrite lookup_insert_eq. split; [intros [? ->]; by eexists|].
      intros (r & [= <-] & ? & [= <-]). done.
    + rewrite lookup_insert_ne by done. apply (bi_order b Hb).
  - intros q. cbn [synced pb_peers pb_disconnected_namespace_peers].
    set (r := updated_record b p f now) in *. destruct (decide (q = p)) as [->|Hq].
    + rewrite lookup_insert_eq. case_bool_decide as Hns; destruct (pr_connected r) eqn:Ec; cbn;
        (split; [set_solver|intros (? & [= <-] & ? & ?); first [congruence|set_solver]]).
    + rewrite lookup_insert_ne by done. destruct (_ && _); rewrite <- (bi_ns b Hb); set_solver.
  - by apply synced_count.
  - apply (bi_max b Hb).
Qed.

(** * Eviction *)

(** [b] results from [b0] by evicting disconnected records, oldest first, and
    no further than the limit. *)
Record evicted_from (b0 b : PeerBook) : Prop := {
  ef_idx : book_idx b;
  ef_sub : pb_peers b ⊆ pb_peers b0;
  ef_max : pb_max_records b = pb_max_records b0;
  ef_stop : b = b0 \/ pb_max_records b <= pb_len b;
  ef_victim p r t : pb_peers b0 !! p = Some r -> pb_peers b !! p = None ->
    pr_last_seen_unix_secs r = Some t ->
    pr_connected r = false /\
    forall q rq tq, pb_peers b !! q = Some rq -> pr_connected rq = false ->
      pr_last_seen_unix_secs rq = Some tq -> ord_leb (t, p) (tq, q) = true;
}.

Lemma bound_step_Some b b' :
  bound_step b = Some b' ->
  exists t v, bt_first (pb_disconnected_eviction_order b) = Some (t, v) /\
    pb_max_records b < Z.of_nat (size (pb_peers b)) /\
    b' = {| pb_peers := delete v (pb_peers b);
            pb_disconnected_namespace_peers := pb_disconnected_namespace_peers b ∖ {[v]};
            pb_disconnected_eviction_order := pb_disconnected_eviction_order b ∖ {[(t, v)]};
            pb_connected_count := pb_connected_count b; pb_max_records := pb_max_records b |}.
Proof.
  unfold bound_step. case_decide; [|done]. destruct (bt_first _) as [[t v]|]; [|done].
  intros [= <-]. by exists t, v.
Qed.

Lemma bound_step_idx b b' : book_idx b -> bound_step b = Some b' -> book_idx b'.
Proof.
  intros Hb (t & v & Hf & Hs & ->)%bound_step_Some. apply bt_first_Some in Hf as [Hin _].
  apply (bi_order b Hb) in Hin as (r & Hr & Hc & Ht).
  split; cbn [pb_peers pb_disconnected_namespace_peers pb_disconnected_eviction_order pb_connected_count pb_max_records].
  - intros p rp [_ Hp]%lookup_delete_Some. by apply (bi_key b Hb).
  - intros p rp [_ Hp]%lookup_delete_Some. by apply (bi_seen b Hb) in Hp.
  - intros p rp [_ Hp]%lookup_delete_Some. by eapply (bi_addrs b Hb).
  - intros t' p. rewrite elem_of_difference, elem_of_singleton, (bi_order b Hb).
    setoid_rewrite lookup_delete_Some. split.
    + intros [(rp & Hp & ? & ?) Hne]. exists rp. split_and!; try done. intros <-. simplify_eq.
    + intros (rp & [Hne Hp] & ? & ?). split; [eauto|]. intros [= -> ->]. done.
  - intros p. rewrite elem_of_difference, elem_of_singleton, (bi_ns b Hb).
    setoid_rewrite lookup_delete_Some. naive_solver.
  - rewrite (msum_delete _ _ v r Hr), Hc. cbn. rewrite (bi_count b Hb). lia.
  - apply (bi_max b Hb).
Qed.

Lemma bound_step_evicted b0 b b' : evicted_from b0 b -> bound_step b = Some b' -> evicted_from b0 b'.
Proof.
  intros He Hs. pose proof (bound_step_idx b b' (ef_idx _ _ He) Hs) as Hidx.
  apply bound_step_Some in Hs as (t & v & Hf & Hlt & ->). apply bt_first_Some in Hf as [Hin Hmin].
  apply (bi_order b (ef_idx _ _ He)) in Hin as (r & Hr & Hc & Ht).
  split; [done| | | |]; cbn [pb_peers pb_max_records].
  - etrans; [apply delete_subseteq|apply (ef_sub _ _ He)].
  - apply (ef_max _ _ He).
  - right. unfold pb_len. cbn [pb_peers]. rewrite map_size_delete_Some by eauto. lia.
  - intros p rp tp Hp0 Hpn Htp. destruct (decide (p = v)) as [->|Hne].
    + assert (rp = r) as -> by (pose proof (lookup_weaken _ _ _ _ Hr (ef_sub _ _ He)); congruence).
      split; [done|]. intros q rq tq [_ Hq]%lookup_delete_Some Hqc Htq. replace tp with t by congruence.
      apply Hmin. apply (bi_order b (ef_idx _ _ He)). eauto.
    + rewrite lookup_delete_ne in Hpn by done.
      destruct (ef_victim _ _ He p rp tp Hp0 Hpn Htp) as [Hpc Hold]. split; [done|].
      intros q rq tq [_ Hq]%lookup_delete_Some. by apply Hold.
Qed.

Lemma enforce_evicted b : book_idx b -> evicted_from b (enforce_record_bound b).
Proof.
  intros Hb. unfold enforce_record_bound. apply loop_inv; [apply bound_step_evicted|].
  split; [done|done|done|by left|]. intros p r t Hp Hn. congruence.
Qed.

Lemma bound_step_dec b b' :
  bound_step b = Some b' ->
  (size (pb_disconnected_eviction_order b') < size (pb_disconnected_eviction_order b))%nat.
Proof.
  intros (t & v & Hf & _ & ->)%bound_step_Some. cbn. apply size_remove_elem. by apply bt_first_Some in Hf as [? _].
Qed.

Lemma record_bound_enforced b : book_idx b -> book_bounded (enforce_record_bound b).
Proof.
  intros Hb. pose proof (ef_idx _ _ (enforce_evicted b Hb)) as Hidx.
  assert (bound_step (enforce_record_bound b) = None) as Hstop
    by (apply (loop_exits _ (fun b => size (pb_disconnected_eviction_order b))); [apply bound_step_dec|done]).
  unfold bound_step in Hstop. unfold book_bounded, pb_len. case_decide; [|left; lia]. right.
  destruct (bt_first _) eqn:E; [done|]. apply bt_first_None in E. intros p r Hp.
  destruct (pr_connected r) eqn:Hc; [done|]. destruct (bi_seen _ Hidx p r Hp) as [t Ht].
  assert ((t, p) ∈ pb_disconnected_eviction_order (enforce_record_bound b)) as Hin
    by (apply (bi_order _ Hidx); eauto). rewrite E in Hin. set_solver.
Qed.

(** * One update *)
Lemma mutate_peer_spec b p f now :
  book_idx b -> good_mutate f -> pb_len b < usize_max ->
  let b' := mutate_peer b p f now in
  book_idx b' /\ book_bounded b' /\ evicted_from (synced b p f now) b'.
Proof.
  intros Hb Hf Hlen. pose proof (synced_idx b p f now Hb Hf Hlen) as Hs. cbn. rewrite mutate_peer_eq.
  pose proof (enforce_evicted _ Hs) as He. split_and!; [apply (ef_idx _ _ He)|by apply record_bound_enforced|done].
Qed.

Lemma synced_lookup b p f now q :
  pb_peers (synced b p f now) !! q = if decide (q = p) then Some (updated_record b p f now) else pb_peers b !! q.
Proof.
  cbn. destruct (decide (q = p)) as [->|]; [apply lookup_insert_eq|by apply lookup_insert_ne].
Qed.

(** The operations of the runtime on the book; a map never holds [usize::MAX]
    entries. *)
Inductive book_step : PeerBook -> PeerBook -> Prop :=
| bs_peer b p s now : pb_len b < usize_max -> book_step b (record_peer b p s now)
| bs_addr b p a s now : pb_len b < usize_max -> book_step b (record_addr b p a s now)
| bs_namespace b p n s now : pb_len b < usize_max -> book_step b (record_namespace b p n s now)
| bs_connected b p a now : pb_len b < usize_max -> book_step b (record_connected b p a now)
| bs_capabilities b p x y z now : pb_len b < usize_max -> book_step b (record_capabilities b p x y z now)
| bs_relay b p v now : pb_len b < usize_max -> book_step b (record_relay_preferred b p v now)
| bs_disconnected b p now : pb_len b < usize_max -> book_step b (record_disconnected b p now)
| bs_disconnected_known b p now : pb_len b < usize_max -> book_step b (record_disconnected_if_known b p now)
| bs_failure b p now : pb_len b < usize_max -> book_step b (record_failure b p now).

Lemma book_step_mutates b b' :
  book_step b b' -> b' = b \/
  exists p f now, good_mutate f /\ pb_len b < usize_max /\ b' = mutate_peer b p f now.
Proof.
  destruct 1; try (right; eexists _, _, _; split_and!; [|done|reflexivity]; try by apply good_id_addrs).
  - by apply good_add_addr, good_id_addrs.
  - apply good_connected.
  - unfold record_disconnected_if_known. destruct (pb_peers b !! p); [|by left].
    right. eexists _, _, _. split_and!; [|done|reflexivity]. by apply good_id_addrs.
Qed.

(** C23: The indexes of the peer book always describe its records.  After any
    sequence of operations the eviction order holds exactly the (last seen,
    peer) pairs of the disconnected records, the reconnect index exactly the
    disconnected peers with a namespace, the connected counter is the number of
    connected records, no record has more than 64 addresses, and the book
    exceeds its limit only when every record in it is connected. *)
Theorem peer_book_indexes_exact max b :
  rtc book_step (with_max_records max) b ->
  book_idx b /\ book_bounded b /\ pb_max_records b = Z.max max 1 /\
  pb_len b <= Z.max (pb_max_records b) (pb_connected_count b).
Proof.
  intros Hb. assert (book_idx b /\ book_bounded b /\ pb_max_records b = Z.max max 1) as (Hi & Hbd & Hm).
  { revert b Hb. apply rtc_ind_r.
    - split_and!; [apply with_max_records_idx| |done]. left. unfold pb_len. cbn. rewrite map_size_empty. lia.
    - intros x y _ Hxy (Hi & Hbd & Hm). apply book_step_mutates in Hxy as [->|(p & f & now & Hf & Hlen & ->)]; [done|].
      destruct (mutate_peer_spec x p f now Hi Hf Hlen) as (? & ? & He). split_and!; [done..|].
      by rewrite (ef_max _ _ He). }
  split_and!; [done..|]. destruct Hbd as [|Hall]; [lia|].
  enough (pb_connected_count b = pb_len b) by lia. rewrite (bi_count b Hi). unfold pb_len.
  clear -Hall. induction (pb_peers b) as [|p r m Hp IH] using map_ind; [by rewrite msum_empty, map_size_empty|].
  rewrite msum_insert, map_size_insert_None by done. rewrite (Hall p r) by apply lookup_insert_eq.
  rewrite IH; [cbn; lia|]. intros q rq Hq. apply (Hall q). rewrite lookup_insert_ne; [done|congruence].
Qed.

(** An update of one peer never changes the record of another: it leaves
    it as it is or evicts it, and it evicts only disconnected peers, only when
    the book is over its limit, no further than that limit, and only peers
    whose (last seen, peer) key is below that of every disconnected peer kept. *)
Theorem peer_book_evicts_oldest_disconnected b p f now q r t :
  book_idx b -> good_mutate f -> pb_len b < usize_max ->
  q ≠ p -> pb_peers b !! q = Some r -> pr_last_seen_unix_secs r = Some t ->
  let b' := mutate_peer b p f now in
  (pb_peers b' !! q = Some r \/ pb_peers b' !! q = None) /\
  (pb_peers b' !! q = None ->
     pr_connected r = false /\ pb_max_records b <= pb_len b' /\
     forall q' r' t', pb_peers b' !! q' = Some r' -> pr_connected r' = false ->
       pr_last_seen_unix_secs r' = Some t' -> ord_leb (t, q) (t', q') = true).
Proof.
  intros Hb Hf Hlen Hne Hq Ht. cbv zeta. destruct (mutate_peer_spec b p f now Hb Hf Hlen) as (_ & _ & He).
  assert (pb_peers (synced b p f now) !! q = Some r) as Hsq by (rewrite synced_lookup, decide_False; done).
  split.
  - destruct (pb_peers (mutate_peer b p f now) !! q) as [r'|] eqn:E; [|by right]. left.
    pose proof (lookup_weaken _ _ _ _ E (ef_sub _ _ He)). congruence.
  - intros Hn. destruct (ef_victim _ _ He q r t Hsq Hn Ht) as [Hc Hold]. split_and!; [done| |done].
    destruct (ef_stop _ _ He) as [Heq|Hstop]; [rewrite Heq in Hn; congruence|].
    rewrite (ef_max _ _ He) in Hstop. exact Hstop.
Qed.

(** The updated record itself is stored unless it was evicted at once, and
    then it is disconnected. *)
Lemma mutate_peer_self b p f now :
  book_idx b -> good_mutate f -> pb_len b < usize_max ->
  pb_peers (mutate_peer b p f now) !! p = Some (updated_record b p f now) \/
  (pb_peers (mutate_peer b p f now) !! p = None /\ pr_connected (updated_record b p f now) = false).
Proof.
  intros Hb Hf Hlen. destruct (mutate_peer_spec b p f now Hb Hf Hlen) as (_ & _ & He).
  assert (pb_peers (synced b p f now) !! p = Some (updated_record b p f now)) as Hs
    by (rewrite synced_lookup, decide_True; done).
  destruct (pb_peers (mutate_peer b p f now) !! p) as [r'|] eqn:E.
  - left. pose proof (lookup_weaken _ _ _ _ E (ef_sub _ _ He)). congruence.
  - right. split; [done|]. by destruct (ef_victim _ _ He p _ now Hs E eq_refl).
Qed.
End book_facts.
