(* ===== verification/ConnectionStrategy.v ===== *)
(** Connection planning (crates/connectivity/connection_strategy.rs), the DCUtR
    policy (crates/connectivity/dcutr.rs) and dialling (crates/node/dial.rs):
    which addresses of a peer are tried, in which order, what is left to try
    when one fails, and when a discovered peer is dialled automatically. *)

From S2P Require Import Prelude Text Bytes BTree BoundedSet Common AppMessage Relay PeerBook.
From Stdlib Require Import Ascii.

#[local] Open Scope Z_scope.

(** * [DcutrPolicy] *)
Record DcutrPolicy := {
  dp_enabled : bool;
  attempt_after_relay_connection : bool;
  keep_relay_fallback : bool;
  retry_interval_secs : Z;
  max_attempts_per_peer : Z;
}.

Definition DcutrPolicy_default : DcutrPolicy := {|
  dp_enabled := true; attempt_after_relay_connection := true; keep_relay_fallback := true;
  retry_interval_secs := 60; max_attempts_per_peer := 3 |}.

Definition DcutrPolicy_validate (p : DcutrPolicy) : result unit NetError :=
  if negb (dp_enabled p) then Ok tt
  else
    let? _ := reject_if (bool_decide (retry_interval_secs p = 0))
      (config_error "dcutr.retry_interval_secs must be at least 1 when DCUtR is enabled") in
    let? _ := reject_if (bool_decide (max_attempts_per_peer p = 0))
      (config_error "dcutr.max_attempts_per_peer must be at least 1 when DCUtR is enabled") in
    reject_if (attempt_after_relay_connection p && negb (keep_relay_fallback p))
      (config_error "dcutr.keep_relay_fallback must be true when attempting upgrades after relayed connections").

(** * [TransportCapabilities] *)
Record TransportCapabilities := {
  tc_tcp : bool;
  tc_quic : bool;
  tc_webrtc_direct : bool;
  tc_secure_websocket : bool;
  tc_webtransport : bool;
  tc_circuit_relay : bool;
  tc_browser_webrtc : bool;
  tc_relay_assisted_upgrade : bool;
}.

#[global] Instance TransportCapabilities_eq_dec : EqDecision TransportCapabilities.
Proof. solve_decision. Defined.

Definition native : TransportCapabilities := {|
  tc_tcp := true; tc_quic := true; tc_webrtc_direct := true; tc_secure_websocket := true; tc_webtransport := false;
  tc_circuit_relay := true; tc_browser_webrtc := false; tc_relay_assisted_upgrade := true |}.

Definition browser_capabilities : TransportCapabilities := {|
  tc_tcp := false; tc_quic := false; tc_webrtc_direct := true; tc_secure_websocket := true; tc_webtransport := true;
  tc_circuit_relay := true; tc_browser_webrtc := true; tc_relay_assisted_upgrade := true |}.

(** [str::split(pat).next()]: the text before the first occurrence. *)
Fixpoint before_chars (needle l : list ascii) : list ascii :=
  match l with
  | [] => []
  | c :: l' => if decide (take (length needle) l = needle) then [] else c :: before_chars needle l'
  end.

Definition str_before (s needle : string) : string := text (before_chars (chars needle) (chars s)).

Definition str_ends_with (s suffix : string) : bool :=
  bool_decide (drop (length (chars s) - length (chars suffix)) (chars s) = chars suffix).

Section strategy.
Context {P : PeerIdLib} {M : MultiaddrLib}.

Definition allows (c : TransportCapabilities) (addr : Multiaddr) : bool :=
  let raw := addr_to_string addr in
  let transport := str_before raw "/p2p-circuit" in
  if str_contains raw "/p2p-circuit" && negb (tc_circuit_relay c) then false
  else if str_contains transport "/webrtc-direct" then tc_webrtc_direct c
  else if str_contains transport "/webtransport" then tc_webtransport c
  else if str_ends_with transport "/webrtc" || str_contains transport "/webrtc/" then tc_browser_webrtc c
  else if str_contains transport "/wss" || str_contains transport "/tls/ws" then tc_secure_websocket c
  else if str_contains transport "/quic" then tc_quic c
  else if str_contains transport "/tcp/" then tc_tcp c
  else bool_decide (c = native).

(** * Plans *)
Inductive ConnectionAttemptKind : Type := DirectQuic | Direct | Relayed_attempt.

#[global] Instance ConnectionAttemptKind_eq_dec : EqDecision ConnectionAttemptKind.
Proof. solve_decision. Defined.

Definition attempt_kind_as_str (k : ConnectionAttemptKind) : string :=
  match k with DirectQuic => "direct_quic" | Direct => "direct" | Relayed_attempt => "relay" end.

Record ConnectionAttempt := { at_addr : Multiaddr; at_kind : ConnectionAttemptKind }.

#[global] Instance ConnectionAttempt_eq_dec : EqDecision ConnectionAttempt.
Proof. solve_decision. Defined.

Record ConnectionPlan := {
  target_peer : option PeerId;
  attempts : list ConnectionAttempt;
  plan_relay_preferred : bool;
  attempt_dcutr_after_relay : bool;
  plan_keep_relay_fallback : bool;
}.

Definition classify_addr (addr : Multiaddr) : ConnectionAttemptKind :=
  if is_p2p_circuit_addr addr then Relayed_attempt
  else if existsb (fun p => match p with Quic | QuicV1 => true | _ => false end) (addr_iter addr) then DirectQuic
  else Direct.

Definition extract_peer_step (peer : option PeerId) (protocol : Protocol) : option PeerId :=
  match protocol with P2p id => Some id | _ => peer end.
Definition extract_p2p_peer_id (addr : Multiaddr) : option PeerId := foldl extract_peer_step None (addr_iter addr).

Definition push_candidate (st : list Multiaddr * gset string) (addr : Multiaddr) : list Multiaddr * gset string :=
  let '(candidates, seen) := st in
  if decide (addr_to_string addr ∈ seen) then st
  else (candidates ++ [addr], {[addr_to_string addr]} ∪ seen).

(** The three buckets of [ordered_attempts], filled in one pass. *)
Definition bucket_step (b : list ConnectionAttempt * list ConnectionAttempt * list ConnectionAttempt) (addr : Multiaddr) :=
  let '(direct_quic, direct, relay) := b in
  let attempt := {| at_addr := addr; at_kind := classify_addr addr |} in
  match classify_addr addr with
  | DirectQuic => (direct_quic ++ [attempt], direct, relay)
  | Direct => (direct_quic, direct ++ [attempt], relay)
  | Relayed_attempt => (direct_quic, direct, relay ++ [attempt])
  end.

Definition ordered_attempts (candidates : list Multiaddr) (relay_preferred : bool) : list ConnectionAttempt :=
  let '(direct_quic, direct, relay) := foldl bucket_step ([], [], []) candidates in
  if relay_preferred then relay ++ direct_quic ++ direct else direct_quic ++ direct ++ relay.

(** The addresses of the record that parse, in the order of the set. *)
Definition book_addresses (book : PeerBook) (peer : PeerId) : list Multiaddr :=
  match record book peer with
  | Some r => omap (fun a => ok (addr_parse a)) (bt_iter (pr_addresses r))
  | None => []
  end.

Definition prefers_relay (book : PeerBook) (peer : PeerId) : bool :=
  match record book peer with Some r => pr_relay_preferred r | None => false end.

Definition build_peer_book_connection_plan_with_capabilities (peer : PeerId) (book : PeerBook) (policy : DcutrPolicy)
    (capabilities : TransportCapabilities) : ConnectionPlan :=
  let relay_preferred := prefers_relay book peer in
  let candidates := (foldl push_candidate ([], ∅) (book_addresses book peer)).1 in
  let candidates := filter (fun a => allows capabilities a = true) candidates in
  {| target_peer := Some peer; attempts := ordered_attempts candidates relay_preferred;
     plan_relay_preferred := relay_preferred;
     attempt_dcutr_after_relay := dp_enabled policy && attempt_after_relay_connection policy;
     plan_keep_relay_fallback := keep_relay_fallback policy |}.

Definition build_connection_plan_with_capabilities (requested : Multiaddr) (book : PeerBook) (policy : DcutrPolicy)
    (capabilities : TransportCapabilities) : ConnectionPlan :=
  let target := extract_p2p_peer_id requested in
  let relay_preferred := match target with Some peer => prefers_relay book peer | None => false end in
  let st := push_candidate ([], ∅) requested in
  let candidates := (foldl push_candidate st (match target with Some peer => book_addresses book peer | None => [] end)).1 in
  let candidates := filter (fun a => allows capabilities a = true) candidates in
  {| target_peer := target; attempts := ordered_attempts candidates relay_preferred;
     plan_relay_preferred := relay_preferred;
     attempt_dcutr_after_relay := dp_enabled policy && attempt_after_relay_connection policy;
     plan_keep_relay_fallback := keep_relay_fallback policy |}.

(** * Pending plans *)
Abbreviation PendingConnectionPlans := (gmap PeerId (list ConnectionAttempt)).

(** What follows the first attempt that equals [attempted]. *)
Fixpoint after_attempt (attempted : ConnectionAttempt) (l : list ConnectionAttempt) : list ConnectionAttempt :=
  match l with
  | [] => []
  | a :: l' => if decide (a = attempted) then l' else after_attempt attempted l'
  end.

Definition track_remaining (pending : PendingConnectionPlans) (plan : ConnectionPlan) (attempted : ConnectionAttempt)
    : PendingConnectionPlans :=
  match target_peer plan with
  | None => pending
  | Some peer => <[peer := after_attempt attempted (attempts plan)]> pending
  end.

Definition next_after_failure (pending : PendingConnectionPlans) (peer : PeerId)
    : option ConnectionAttempt * PendingConnectionPlans :=
  match pending !! peer with
  | None => (None, pending)
  | Some [] => (None, delete peer pending)
  | Some [next] => (Some next, delete peer pending)
  | Some (next :: rest) => (Some next, <[peer := rest]> pending)
  end.

Definition complete_plan (pending : PendingConnectionPlans) (peer : PeerId) : PendingConnectionPlans := delete peer pending.
Definition is_pending (pending : PendingConnectionPlans) (peer : PeerId) : bool := bool_decide (is_Some (pending !! peer)).
Definition pending_count (pending : PendingConnectionPlans) : Z := Z.of_nat (size pending).

(** * Dialling (node/dial.rs)

    [dial] is [Swarm::dial]: it accepts an address or refuses it at once. *)
Section dialling.
Context (dial : Multiaddr -> result unit string).

Definition dial_connection_attempt (attempt : ConnectionAttempt) : result unit string :=
  map_err (dial (at_addr attempt)) (fun err =>
    attempt_kind_as_str (at_kind attempt) +:+ " " +:+ addr_to_string (at_addr attempt) +:+ " failed immediately: " +:+ err).

(** The loop: the errors so far, and the attempt that was accepted. *)
Fixpoint dial_attempts_loop (l : list ConnectionAttempt) (errors : list string) : result ConnectionAttempt (list string) :=
  match l with
  | [] => Err errors
  | attempt :: rest =>
      match dial_connection_attempt attempt with
      | Ok _ => Ok attempt
      | Err err => dial_attempts_loop rest (errors ++ [err])
      end
  end.

(** [describe] of a plan; [{:?}] of an optional peer id is a parameter. *)
Definition join (sep : string) (l : list string) : string :=
  match l with [] => "" | x :: l' => foldl (fun acc y => acc +:+ sep +:+ y) x l' end.
Definition flag_text (b : bool) : string := if b then "true" else "false".

Definition describe_plan (debug_peer : option PeerId -> string) (plan : ConnectionPlan) : string :=
  "target_peer=" +:+ debug_peer (target_peer plan) +:+ " attempts=" +:+ pretty (len (attempts plan))
  +:+ " relay_preferred=" +:+ flag_text (plan_relay_preferred plan)
  +:+ " dcutr_after_relay=" +:+ flag_text (attempt_dcutr_after_relay plan)
  +:+ " keep_relay_fallback=" +:+ flag_text (plan_keep_relay_fallback plan)
  +:+ " order=[" +:+ join "," ((fun a => attempt_kind_as_str (at_kind a)) <$> attempts plan) +:+ "]".

Definition dial_connection_plan (debug_peer : option PeerId -> string) (pending : PendingConnectionPlans)
    (plan : ConnectionPlan) : result unit NetError * PendingConnectionPlans :=
  match dial_attempts_loop (attempts plan) [] with
  | Ok attempt => (Ok tt, track_remaining pending plan attempt)
  | Err errors =>
      (Err (Dial (match target_peer plan with Some p => peer_to_string p | None => "<unknown>" end)
         (if decide (errors = []) then "connection plan had no dial attempts: " +:+ describe_plan debug_peer plan
          else join "; " errors)), pending)
  end.

(** The loop of [handle_outgoing_connection_error] over the fallbacks: whether a
    dial started, and what is left.  Each iteration takes one attempt away. *)
Fixpoint fallback_dials (fuel : nat) (pending : PendingConnectionPlans) (peer : PeerId) (tried : list ConnectionAttempt)
    : bool * list ConnectionAttempt * PendingConnectionPlans :=
  match fuel with
  | O => (false, tried, pending)
  | S n =>
      match next_after_failure pending peer with
      | (None, pending) => (false, tried, pending)
      | (Some attempt, pending) =>
          if is_ok (dial (at_addr attempt)) then (true, tried ++ [attempt], pending)
          else fallback_dials n pending peer (tried ++ [attempt])
      end
  end.

Definition dial_fallback (pending : PendingConnectionPlans) (peer : PeerId)
    : bool * list ConnectionAttempt * PendingConnectionPlans :=
  fallback_dials (S (length (default [] (pending !! peer)))) pending peer [].

(** * Automatic dialling *)
Inductive AutoDialOutcome : Type :=
| AutoDisabled
| LocalPeer
| AlreadyConnected
| AlreadyPending
| AwaitingAddress
| AddressResolutionStarted (plan : string)
| DialStarted (plan : string)
| DialFailed (reason : string).

Definition should_pulse (o : AutoDialOutcome) : bool :=
  match o with AwaitingAddress | AddressResolutionStarted _ | DialStarted _ | DialFailed _ => true | _ => false end.

(** [connected] are the peers of the swarm, [net_error_text] is [Display] of the error. *)
Definition auto_dial_peer_from_book (debug_peer : option PeerId -> string) (net_error_text : NetError -> string)
    (capabilities : TransportCapabilities) (peer local_peer : PeerId) (enabled : bool) (connected : gset PeerId)
    (book : PeerBook) (pending : PendingConnectionPlans) (policy : DcutrPolicy)
    : AutoDialOutcome * PendingConnectionPlans :=
  if negb enabled then (AutoDisabled, pending)
  else if decide (peer = local_peer) then (LocalPeer, pending)
  else if decide (peer ∈ connected) then (AlreadyConnected, pending)
  else if is_pending pending peer then (AlreadyPending, pending)
  else
    let plan := build_peer_book_connection_plan_with_capabilities peer book policy capabilities in
    if decide (attempts plan = []) then (AwaitingAddress, pending)
    else match dial_connection_plan debug_peer pending plan with
         | (Ok _, pending) => (DialStarted (describe_plan debug_peer plan), pending)
         | (Err err, pending) => (DialFailed (net_error_text err), pending)
         end.

(** [dial_peer] is [Swarm::dial] of a bare peer id. *)
Definition auto_dial_dht_provider (debug_peer : option PeerId -> string) (net_error_text : NetError -> string)
    (dial_peer : PeerId -> bool) (capabilities : TransportCapabilities) (peer local_peer : PeerId) (enabled : bool)
    (connected : gset PeerId) (book : PeerBook) (pending : PendingConnectionPlans) (policy : DcutrPolicy)
    : AutoDialOutcome * PendingConnectionPlans :=
  match auto_dial_peer_from_book debug_peer net_error_text capabilities peer local_peer enabled connected book pending policy with
  | (AwaitingAddress, pending) =>
      if decide (capabilities = browser_capabilities) then (AwaitingAddress, pending)
      else if dial_peer peer then (AddressResolutionStarted "source=kademlia address_resolution=behaviour", pending)
      else (AwaitingAddress, pending)
  | r => r
  end.
End dialling.

Definition describe_outcome (o : AutoDialOutcome) (peer : PeerId) : string :=
  match o with
  | AutoDisabled => "auto-connect disabled peer=" +:+ peer_to_string peer
  | LocalPeer => "auto-connect skipped local peer=" +:+ peer_to_string peer
  | AlreadyConnected => "auto-connect skipped connected peer=" +:+ peer_to_string peer
  | AlreadyPending => "auto-connect skipped pending peer=" +:+ peer_to_string peer
  | AwaitingAddress =>
      "auto-connect awaiting dialable address peer=" +:+ peer_to_string peer
        +:+ "; peer is known/discovered but not yet dialable"
  | AddressResolutionStarted plan => "auto-connect address resolution started peer=" +:+ peer_to_string peer +:+ " " +:+ plan
  | DialStarted plan => "auto-connect dial started peer=" +:+ peer_to_string peer +:+ " " +:+ plan
  | DialFailed reason => "auto-connect dial failed peer=" +:+ peer_to_string peer +:+ " reason=" +:+ reason
  end.

(** What a handler that dials sees of the swarm and the configuration: the
    answers of [Swarm::dial] to an address and to a bare peer id, the connected
    peers, and the texts of [Debug] and [Display]. *)
Record DialEnv := {
  de_dial : Multiaddr -> result unit string;
  de_dial_peer : PeerId -> bool;
  de_connected : gset PeerId;
  de_local : PeerId;
  de_policy : DcutrPolicy;
  de_capabilities : TransportCapabilities;
  de_debug_peer : option PeerId -> string;
  de_error_text : NetError -> string;
}.

Definition env_auto_dial (env : DialEnv) (enabled : bool) (book : PeerBook) (pending : PendingConnectionPlans) (peer : PeerId)
    : AutoDialOutcome * PendingConnectionPlans :=
  auto_dial_peer_from_book (de_dial env) (de_debug_peer env) (de_error_text env) (de_capabilities env) peer (de_local env)
    enabled (de_connected env) book pending (de_policy env).

Definition env_auto_dial_dht (env : DialEnv) (enabled : bool) (book : PeerBook) (pending : PendingConnectionPlans) (peer : PeerId)
    : AutoDialOutcome * PendingConnectionPlans :=
  auto_dial_dht_provider (de_dial env) (de_debug_peer env) (de_error_text env) (de_dial_peer env) (de_capabilities env) peer
    (de_local env) enabled (de_connected env) book pending (de_policy env).

(** * [AutoDialStats] *)
Definition MAX_AUTO_DIAL_AWAITING_PEERS : Z := 2048.

Record AutoDialStats := {
  dial_attempts : Z;
  dial_failures : Z;
  awaiting_address : BoundedSet PeerId;
  suppressed : BoundedSet PeerId;
}.

Definition upd_dial_attempts (g : Z -> Z) (s : AutoDialStats) : AutoDialStats := {|
  dial_attempts := g (dial_attempts s); dial_failures := dial_failures s; awaiting_address := awaiting_address s;
  suppressed := suppressed s |}.
Definition upd_dial_failures (g : Z -> Z) (s : AutoDialStats) : AutoDialStats := {|
  dial_attempts := dial_attempts s; dial_failures := g (dial_failures s); awaiting_address := awaiting_address s;
  suppressed := suppressed s |}.
Definition upd_awaiting_address (g : BoundedSet PeerId -> BoundedSet PeerId) (s : AutoDialStats) : AutoDialStats := {|
  dial_attempts := dial_attempts s; dial_failures := dial_failures s; awaiting_address := g (awaiting_address s);
  suppressed := suppressed s |}.
Definition upd_suppressed (g : BoundedSet PeerId -> BoundedSet PeerId) (s : AutoDialStats) : AutoDialStats := {|
  dial_attempts := dial_attempts s; dial_failures := dial_failures s; awaiting_address := awaiting_address s;
  suppressed := g (suppressed s) |}.

Definition AutoDialStats_default : AutoDialStats :=
  {| dial_attempts := 0; dial_failures := 0; awaiting_address := BoundedSet_empty; suppressed := BoundedSet_empty |}.

Definition remove_awaiting (s : AutoDialStats) (peer : PeerId) : AutoDialStats :=
  upd_awaiting_address (fun b => (remove_peer_from_bounded_set peer b).2) s.

Definition mark_awaiting_address (s : AutoDialStats) (peer : PeerId) : AutoDialStats :=
  upd_awaiting_address (fun b => (bounded_insert MAX_AUTO_DIAL_AWAITING_PEERS peer b).2) s.

Definition suppress_peer (s : AutoDialStats) (peer : PeerId) : AutoDialStats :=
  upd_suppressed (fun b => (bounded_insert MAX_AUTO_DIAL_AWAITING_PEERS peer b).2) s.

Definition allow_peer (s : AutoDialStats) (peer : PeerId) : AutoDialStats :=
  upd_suppressed (fun b => (remove_peer_from_bounded_set peer b).2) s.

Definition is_suppressed (s : AutoDialStats) (peer : PeerId) : bool := bool_decide (peer ∈ bset (suppressed s)).

Definition record_async_failure (s : AutoDialStats) (peer : PeerId) : AutoDialStats :=
  remove_awaiting (upd_dial_failures (fun n => sat_add usize_max n 1) s) peer.

Definition record_outcome (s : AutoDialStats) (peer : PeerId) (o : AutoDialOutcome) : AutoDialStats :=
  match o with
  | DialStarted _ => remove_awaiting (upd_dial_attempts (fun n => sat_add usize_max n 1) s) peer
  | DialFailed _ =>
      remove_awaiting (upd_dial_failures (fun n => sat_add usize_max n 1)
        (upd_dial_attempts (fun n => sat_add usize_max n 1) s)) peer
  | AwaitingAddress => mark_awaiting_address s peer
  | AddressResolutionStarted _ => mark_awaiting_address (upd_dial_attempts (fun n => sat_add usize_max n 1) s) peer
  | AlreadyConnected => remove_awaiting s peer
  | _ => s
  end.
End strategy.

(** * Facts

    Facts about connection planning: a plan tries every usable address of a
    peer exactly once in the order of preference, and failures walk through the
    whole plan. *)

Section plans.
Context {P : PeerIdLib} {M : MultiaddrLib} {ML : MultiaddrLaws M}.

(** * The order of a plan *)
Definition rank (relay_preferred : bool) (k : ConnectionAttemptKind) : Z :=
  match k with
  | DirectQuic => 1
  | Direct => 2
  | Relayed_attempt => if relay_preferred then 0 else 3
  end.

Definition attempt_of (addr : Multiaddr) : ConnectionAttempt := {| at_addr := addr; at_kind := classify_addr addr |}.

Definition of_kind (k : ConnectionAttemptKind) (cs : list Multiaddr) : list ConnectionAttempt :=
  attempt_of <$> filter (fun a => classify_addr a = k) cs.

(** The one pass over the candidates fills the buckets in their order. *)
Lemma buckets cs q d r :
  foldl bucket_step (q, d, r) cs = (q ++ of_kind DirectQuic cs, d ++ of_kind Direct cs, r ++ of_kind Relayed_attempt cs).
Proof.
  revert q d r. induction cs as [|a cs IH]; intros q d r; cbn [foldl]; [unfold of_kind; cbn; by rewrite !app_nil_r|].
  assert (Ha : attempt_of a = {| at_addr := a; at_kind := classify_addr a |}) by done.
  unfold bucket_step at 2. unfold of_kind. rewrite !filter_cons. rewrite <- Ha.
  destruct (classify_addr a); rewrite IH; repeat case_decide; try done; cbn; by rewrite <- app_assoc.
Qed.

Lemma ordered_attempts_kinds cs pref :
  ordered_attempts cs pref =
  if pref then of_kind Relayed_attempt cs ++ of_kind DirectQuic cs ++ of_kind Direct cs
  else of_kind DirectQuic cs ++ of_kind Direct cs ++ of_kind Relayed_attempt cs.
Proof. unfold ordered_attempts. by rewrite buckets. Qed.

Lemma of_kind_kind k cs : Forall (fun a => at_kind a = k) (of_kind k cs).
Proof. apply Forall_fmap, Forall_forall. by intros a [? _]%list_elem_of_filter. Qed.

Lemma kinds_permutation cs : of_kind DirectQuic cs ++ of_kind Direct cs ++ of_kind Relayed_attempt cs ≡ₚ attempt_of <$> cs.
Proof.
  induction cs as [|a cs IH]; [done|]. unfold of_kind in *. rewrite !filter_cons, fmap_cons, <- IH.
  destruct (classify_addr a) eqn:E; repeat case_decide; try done; rewrite fmap_cons; solve_Permutation.
Qed.

Lemma ordered_permutation cs pref : ordered_attempts cs pref ≡ₚ attempt_of <$> cs.
Proof.
  rewrite ordered_attempts_kinds. destruct pref; rewrite <- kinds_permutation; [|done].
  rewrite (Permutation_app_comm (of_kind Relayed_attempt cs)). by rewrite <- app_assoc.
Qed.

Lemma StronglySorted_const {A} (f : A -> Z) k (l : list A) :
  Forall (fun a => f a = k) l -> StronglySorted (fun a b => f a <= f b) l.
Proof.
  induction 1 as [|a l Ha Hl IH]; constructor; [done|]. eapply Forall_impl; [exact Hl|]. cbn. lia.
Qed.

Lemma StronglySorted_app_le {A} (f : A -> Z) k (l1 l2 : list A) :
  StronglySorted (fun a b => f a <= f b) l1 -> StronglySorted (fun a b => f a <= f b) l2 ->
  Forall (fun a => f a <= k) l1 -> Forall (fun a => k <= f a) l2 ->
  StronglySorted (fun a b => f a <= f b) (l1 ++ l2).
Proof.
  intros H1 H2 Hk1 Hk2. induction H1 as [|a l H1 IH Ha]; cbn; [done|]. apply Forall_cons in Hk1 as [Hka Hk1].
  constructor; [by apply IH|]. apply Forall_app. split; [done|]. eapply Forall_impl; [exact Hk2|]. cbn. lia.
Qed.

Lemma ordered_sorted cs pref :
  StronglySorted (fun a b => rank pref (at_kind a) <= rank pref (at_kind b)) (ordered_attempts cs pref).
Proof.
  set (f := fun a => rank pref (at_kind a)).
  assert (Hc : forall k, Forall (fun a => f a = rank pref k) (of_kind k cs)).
  { intros k. eapply Forall_impl; [apply of_kind_kind|]. intros a Ha. unfold f. by rewrite Ha. }
  assert (Hs : forall k, StronglySorted (fun a b => f a <= f b) (of_kind k cs)) by (intros k; eapply StronglySorted_const, Hc).
  assert (Hle : forall k z, rank pref k <= z -> Forall (fun a => f a <= z) (of_kind k cs)).
  { intros k z Hz. eapply Forall_impl; [apply Hc|]. cbn. lia. }
  assert (Hge : forall k z, z <= rank pref k -> Forall (fun a => z <= f a) (of_kind k cs)).
  { intros k z Hz. eapply Forall_impl; [apply Hc|]. cbn. lia. }
  change (StronglySorted (fun a b => f a <= f b) (ordered_attempts cs pref)). rewrite ordered_attempts_kinds. destruct pref.
  - apply (StronglySorted_app_le f 0); [done| | |].
    + apply (StronglySorted_app_le f 1); [done|done|by apply Hle|by apply Hge].
    + by apply Hle.
    + apply Forall_app. split; by apply Hge.
  - apply (StronglySorted_app_le f 1); [done| | |].
    + apply (StronglySorted_app_le f 2); [done|done|by apply Hle|by apply Hge].
    + by apply Hle.
    + apply Forall_app. split; by apply Hge.
Qed.

(** * The candidates of a plan *)
Definition candidates_ok (st : list Multiaddr * gset string) : Prop :=
  NoDup (addr_to_string <$> st.1) /\ st.2 = list_to_set (addr_to_string <$> st.1).

Lemma push_candidate_ok st a :
  candidates_ok st -> candidates_ok (push_candidate st a) /\
  (forall x, addr_to_string x ∈ addr_to_string <$> (push_candidate st a).1 <->
     addr_to_string x ∈ addr_to_string <$> st.1 \/ addr_to_string x = addr_to_string a).
Proof.
  destruct st as [cs seen]. intros [Hnd Hs]. cbn in *. rewrite Hs. unfold push_candidate.
  case_decide as Hin; rewrite elem_of_list_to_set in Hin; cbn.
  - split; [by split|]. intros x. split; [by left|]. intros [?|Heq]; [done|]. by rewrite Heq.
  - rewrite fmap_app. split; [split; cbn|].
    + rewrite fmap_app. apply NoDup_app. split; [done|]. split; [set_solver|apply NoDup_singleton].
    + rewrite fmap_app. set_solver.
    + intros x. rewrite elem_of_app. set_solver.
Qed.

Lemma push_candidates_ok l st :
  candidates_ok st -> candidates_ok (foldl push_candidate st l) /\
  (forall x, addr_to_string x ∈ addr_to_string <$> (foldl push_candidate st l).1 <->
     addr_to_string x ∈ addr_to_string <$> st.1 \/ addr_to_string x ∈ addr_to_string <$> l).
Proof.
  revert st. induction l as [|a l IH]; intros st Hst; cbn; [set_solver|].
  destruct (push_candidate_ok st a Hst) as [H1 H2]. destruct (IH _ H1) as [H3 H4]. split; [done|].
  intros x. rewrite H4, H2. set_solver.
Qed.

Lemma addr_to_string_inj a b : addr_to_string a = addr_to_string b -> a = b.
Proof. intros H. enough (Ok (E := string) a = Ok b) by congruence. by rewrite <- !addr_parse_to_string, H. Qed.

Lemma elem_of_texts a (l : list Multiaddr) : addr_to_string a ∈ addr_to_string <$> l <-> a ∈ l.
Proof.
  split; [|apply list_elem_of_fmap_2]. intros (b & Hb & Hin)%list_elem_of_fmap. by apply addr_to_string_inj in Hb as ->.
Qed.

(** The addresses a plan may use: those the peer book knows for the peer. *)
Lemma book_address_elem book peer a :
  a ∈ book_addresses book peer <-> exists r text, record book peer = Some r /\ text ∈ pr_addresses r /\ addr_parse text = Ok a.
Proof.
  unfold book_addresses. destruct (record book peer) as [r|].
  - rewrite list_elem_of_omap. split.
    + intros (t & Ht & Ha). exists r, t. rewrite elem_of_bt_iter in Ht. destruct (addr_parse t) eqn:E; cbn in Ha; [|done].
      by simplify_eq.
    + intros (r' & t & [= <-] & Ht & Ha). exists t. rewrite elem_of_bt_iter, Ha. done.
  - split; [by intros ?%elem_of_nil|]. by intros (? & ? & ? & _).
Qed.

(** A plan tries every usable address once, in the order of preference.
    The attempts of a plan built from the peer book are exactly the addresses
    recorded for the peer that parse and whose transport the platform can dial,
    none of them twice and each with its kind, direct QUIC before other direct
    addresses before relayed ones, and relayed ones first when the peer
    prefers a relay. *)
Theorem plan_tries_each_address_once_in_order (peer : PeerId) (book : PeerBook) (policy : DcutrPolicy)
    (capabilities : TransportCapabilities) :
  let plan := build_peer_book_connection_plan_with_capabilities peer book policy capabilities in
  NoDup (at_addr <$> attempts plan) /\
  (forall a, a ∈ at_addr <$> attempts plan <->
     allows capabilities a = true /\
     exists r text, record book peer = Some r /\ text ∈ pr_addresses r /\ addr_parse text = Ok a) /\
  Forall (fun x => at_kind x = classify_addr (at_addr x)) (attempts plan) /\
  StronglySorted (fun x y => rank (prefers_relay book peer) (at_kind x) <= rank (prefers_relay book peer) (at_kind y))
    (attempts plan).
Proof.
  intros plan. subst plan. cbn [attempts build_peer_book_connection_plan_with_capabilities].
  set (cs := (foldl push_candidate ([], ∅) (book_addresses book peer)).1).
  destruct (push_candidates_ok (book_addresses book peer) ([], ∅)) as [[Hnd _] Hel]; [by split; [constructor|]|].
  fold cs in Hnd, Hel. set (fs := filter (fun a => allows capabilities a = true) cs).
  assert (Hperm : at_addr <$> ordered_attempts fs (prefers_relay book peer) ≡ₚ fs).
  { rewrite ordered_permutation, <- list_fmap_compose. by rewrite list_fmap_id. }
  split_and!.
  - rewrite Hperm. apply NoDup_filter. by apply NoDup_fmap_1 in Hnd.
  - intros a. rewrite Hperm. unfold fs. rewrite list_elem_of_filter, <- book_address_elem, <- (elem_of_texts a cs), Hel.
    rewrite !elem_of_texts. cbn [fst]. rewrite elem_of_nil. tauto.
  - rewrite ordered_permutation. by apply Forall_fmap, Forall_forall.
  - apply ordered_sorted.
Qed.

(** * Walking through a plan *)
Section walking.
Local Abbreviation PendingConnectionPlans := (gmap PeerId (list ConnectionAttempt)).
Context (dial : Multiaddr -> result unit string) (debug_peer : option PeerId -> string).

Definition accepted_dial (a : ConnectionAttempt) : Prop := is_ok (dial (at_addr a)) = true.

#[global] Instance accepted_dial_dec a : Decision (accepted_dial a).
Proof. unfold accepted_dial. apply _. Defined.

Lemma dial_loop_first l errors :
  match dial_attempts_loop dial l errors with
  | Ok a => exists pre rest, l = pre ++ a :: rest /\ Forall (fun x => ~ accepted_dial x) pre /\ accepted_dial a
  | Err _ => Forall (fun x => ~ accepted_dial x) l
  end.
Proof.
  revert errors. induction l as [|a l IH]; intros errors; cbn; [constructor|].
  unfold dial_connection_attempt. destruct (dial (at_addr a)) as [[]|e] eqn:E; cbn.
  - exists [], l. split; [done|]. split; [constructor|]. unfold accepted_dial. by rewrite E.
  - specialize (IH (errors ++ [attempt_kind_as_str (at_kind a) +:+ " " +:+ addr_to_string (at_addr a) +:+ " failed immediately: " +:+ e])).
    assert (Hna : ~ accepted_dial a) by (unfold accepted_dial; by rewrite E).
    destruct (dial_attempts_loop dial l _); [|by constructor].
    destruct IH as (pre & rest & -> & Hp & Ha). exists (a :: pre), rest. split; [done|]. split; [by constructor|done].
Qed.

Lemma after_attempt_middle a pre rest : a ∉ pre -> after_attempt a (pre ++ a :: rest) = rest.
Proof.
  induction pre as [|x pre IH]; cbn; intros Hn; [by rewrite decide_True|].
  rewrite decide_False by set_solver. apply IH. set_solver.
Qed.

(** What is left to try for a peer. *)
Definition remaining (pending : PendingConnectionPlans) (peer : PeerId) : list ConnectionAttempt := default [] (pending !! peer).

Lemma fallback_spec fuel pending peer tried :
  (length (remaining pending peer) < fuel)%nat ->
  let '(started, tried', pending') := fallback_dials dial fuel pending peer tried in
  match filter accepted_dial (remaining pending peer) with
  | [] => started = false /\ pending' !! peer = None
  | a :: more => started = true /\ last tried' = Some a /\ filter accepted_dial (remaining pending' peer) = more
  end.
Proof.
  unfold remaining. revert pending tried. induction fuel as [|n IH]; intros pending tried Hn; [lia|].
  cbn [fallback_dials]. unfold next_after_failure.
  destruct (pending !! peer) as [[|a [|b rest]]|] eqn:E; cbn [from_option id length] in Hn |- *.
  - by rewrite lookup_delete_eq.
  - rewrite filter_cons. destruct (decide (accepted_dial a)) as [Ha|Ha]; unfold accepted_dial in Ha.
    + rewrite Ha. rewrite lookup_delete_eq. split; [done|]. by rewrite last_snoc.
    + apply not_true_is_false in Ha as ->. specialize (IH (delete peer pending) (tried ++ [a])).
      rewrite lookup_delete_eq in IH. apply IH. cbn. lia.
  - rewrite filter_cons. destruct (decide (accepted_dial a)) as [Ha|Ha]; unfold accepted_dial in Ha.
    + rewrite Ha. rewrite lookup_insert_eq. cbn [from_option id]. split; [done|]. by rewrite last_snoc.
    + apply not_true_is_false in Ha as ->.
      specialize (IH (<[peer := b :: rest]> pending) (tried ++ [a])). rewrite lookup_insert_eq in IH. cbn [from_option id] in IH.
      apply IH. cbn. lia.
  - by rewrite E.
Qed.

(** The dials that [n] failures in a row start. *)
Fixpoint failures_start (n : nat) (pending : PendingConnectionPlans) (peer : PeerId)
    : list ConnectionAttempt * PendingConnectionPlans :=
  match n with
  | O => ([], pending)
  | S n =>
      let '(started, tried, pending) := dial_fallback dial pending peer in
      let '(more, pending) := failures_start n pending peer in
      ((if started then option_list (last tried) else []) ++ more, pending)
  end.

Lemma failures_spec n pending peer :
  let '(starts, pending') := failures_start n pending peer in
  starts = take n (filter accepted_dial (remaining pending peer)) /\
  ((length (filter accepted_dial (remaining pending peer)) < n)%nat -> pending' !! peer = None) /\
  ((n <= length (filter accepted_dial (remaining pending peer)))%nat ->
     filter accepted_dial (remaining pending' peer) = drop n (filter accepted_dial (remaining pending peer))).
Proof.
  revert pending. induction n as [|n IH]; intros pending; cbn [failures_start].
  { split; [done|]. split; [lia|]. done. }
  unfold dial_fallback. pose proof (fallback_spec (S (length (remaining pending peer))) pending peer [] ltac:(lia)) as Hf.
  unfold remaining at 1 in Hf. destruct (fallback_dials dial _ pending peer []) as [[started tried] p1].
  specialize (IH p1). destruct (failures_start n p1 peer) as [more p2] eqn:Ef. destruct IH as (I1 & I2 & I3).
  destruct (filter accepted_dial (remaining pending peer)) as [|a l].
  - destruct Hf as [-> Hp1]. unfold remaining in I1, I2, I3. rewrite Hp1 in I1, I2, I3. cbn in *. rewrite I1.
    split; [by destruct n|]. split; [|lia]. intros _. destruct n as [|n]; [|apply I2; lia].
    cbn in Ef. by simplify_eq.
  - destruct Hf as (-> & Hl & Hr). rewrite Hl, I1, Hr. cbn. split; [done|].
    rewrite Hr in I2, I3. split; [intros; apply I2; lia|intros; apply I3; lia].
Qed.

(** C38: Failures walk through the whole plan. When the first dial of a plan is
    accepted, each of [n] reported failures starts the next attempt of the plan
    the swarm accepts: together the dials started are the first [n + 1]
    attempts of the plan it accepts, in the order of the plan, and once they
    are used up nothing is pending for the peer. *)
Theorem failures_walk_the_plan (pending pending1 : PendingConnectionPlans) (plan : ConnectionPlan) (peer : PeerId) (n : nat) :
  target_peer plan = Some peer -> NoDup (attempts plan) ->
  dial_connection_plan dial debug_peer pending plan = (Ok tt, pending1) ->
  let '(starts, pending2) := failures_start n pending1 peer in
  exists first, first :: starts = take (S n) (filter accepted_dial (attempts plan)) /\
    dial_attempts_loop dial (attempts plan) [] = Ok first /\
    ((length (filter accepted_dial (attempts plan)) <= n)%nat -> is_pending pending2 peer = false).
Proof.
  intros Ht Hnd Hd. unfold dial_connection_plan in Hd. pose proof (dial_loop_first (attempts plan) []) as Hl.
  destruct (dial_attempts_loop dial (attempts plan) []) as [first|errs] eqn:E; [|done].
  destruct Hl as (pre & rest & Hat & Hpre & Hf). injection Hd as <-. unfold track_remaining. rewrite Ht, Hat.
  rewrite Hat in Hnd. apply NoDup_app in Hnd as (_ & Hdis & _).
  rewrite after_attempt_middle by (intros Hin; apply (Hdis _ Hin); by left).
  pose proof (failures_spec n (<[peer := rest]> pending) peer) as Hs. unfold remaining in Hs. rewrite lookup_insert_eq in Hs.
  cbn [from_option id] in Hs. destruct (failures_start n _ peer) as [starts p2]. destruct Hs as (-> & Hnone & _).
  assert (Hfil : filter accepted_dial (pre ++ first :: rest) = first :: filter accepted_dial rest).
  { rewrite filter_app, filter_cons_True by done. replace (filter accepted_dial pre) with (@nil ConnectionAttempt); [done|].
    symmetry. clear -Hpre. induction Hpre as [|x l Hx Hl IH]; [done|]. by rewrite filter_cons_False. }
  exists first. rewrite Hfil. split; [done|]. split; [done|]. cbn. intros Hn. unfold is_pending.
  apply bool_decide_eq_false. rewrite Hnone by lia. by intros [].
Qed.
End walking.
End plans.
