(* ===== verification/Dns.v ===== *)
(** DNS resolution of addresses (crates/connectivity/dns.rs, dns/doh.rs) over the
    JSON HTTP client (crates/common/http.rs).  The network, the operating system's
    resolver, [url::Url] and the JSON decoder are parameters; an operation that
    talks to the network passes the state [W] of the world on. *)

From S2P Require Import Prelude Text Bytes Common Relay ConnectionStrategy.
From Stdlib Require Import Ascii Strings.Byte.
From stdpp Require Import pretty.

#[local] Open Scope Z_scope.

(** * Text *)

(** [str::strip_prefix] and [str::starts_with]. *)
Definition str_strip_prefix (prefix s : string) : option string :=
  if decide (take (length (chars prefix)) (chars s) = chars prefix)
  then Some (text (drop (length (chars prefix)) (chars s))) else None.
Definition str_starts_with (prefix s : string) : bool := bool_decide (is_Some (str_strip_prefix prefix s)).

(** [str::trim_end_matches(c)] *)
Fixpoint drop_while_char (c : ascii) (l : list ascii) : list ascii :=
  match l with x :: l' => if decide (x = c) then drop_while_char c l' else l | [] => [] end.
Definition trim_end_char (c : ascii) (s : string) : string := text (reverse (drop_while_char c (reverse (chars s)))).

(** [Chars::next]: the bytes of the next character, as many as its first byte says. *)
Definition char_width (first : ascii) : nat :=
  if decide (code first < 192) then 1%nat
  else if decide (code first < 224) then 2%nat
  else if decide (code first < 240) then 3%nat else 4%nat.

Definition next_char (l : list ascii) : option (list ascii * list ascii) :=
  match l with [] => None | c :: _ => Some (take (char_width c) l, drop (char_width c) l) end.

Definition is_whitespace (c : list ascii) : bool := bool_decide ((code <$> c) ∈ white_space).

(** * The JSON client *)
Definition MAX_JSON_RESPONSE_BYTES : Z := 65536.

Inductive HttpMethod : Type := Get | Post.
Definition http_method_as_str (m : HttpMethod) : string := match m with Get => "GET" | Post => "POST" end.

(** [rq_body] is the text of the JSON value. *)
Record JsonRequest := {
  rq_method : HttpMethod; rq_url : string; rq_headers : list (string * string);
  rq_body : option string; rq_timeout : Z }.

Definition JsonRequest_get (url : string) (timeout : Z) : JsonRequest := {|
  rq_method := Get; rq_url := url; rq_headers := []; rq_body := None; rq_timeout := timeout |}.
Definition JsonRequest_post (url body : string) (timeout : Z) : JsonRequest := {|
  rq_method := Post; rq_url := url; rq_headers := []; rq_body := Some body; rq_timeout := timeout |}.
Definition rq_header (name value : string) (r : JsonRequest) : JsonRequest := {|
  rq_method := rq_method r; rq_url := rq_url r; rq_headers := rq_headers r ++ [(name, value)];
  rq_body := rq_body r; rq_timeout := rq_timeout r |}.
Definition has_header (name : string) (r : JsonRequest) : bool :=
  existsb (fun h => bool_decide (to_ascii_lowercase h.1 = to_ascii_lowercase name)) (rq_headers r).

(** The headers of the request that is sent: the caller's, and [accept] when the caller sets none. *)
Definition sent_headers (r : JsonRequest) : list (string * string) :=
  (if has_header "accept" r then [] else [("accept", "application/json")]) ++ rq_headers r.

(** What [reqwest] returns once the response's head has arrived. *)
Record HttpResponse := {
  rs_status : Z; rs_status_text : string; rs_content_length : option Z; rs_bytes : result (list byte) string }.

(** A program that talks to the network.  [None]: the fuel is used up. *)
Definition io (W A : Type) : Type := W -> option (result A string * W).
Definition io_ret {W A} (a : A) : io W A := fun w => Some (Ok a, w).
Definition io_lift {W A} (r : result A string) : io W A := fun w => Some (r, w).
Definition io_fail {W A} (e : string) : io W A := fun w => Some (Err e, w).
Definition io_bind {W A B} (m : io W A) (k : A -> io W B) : io W B := fun w =>
  match m w with
  | Some (Ok a, w') => k a w'
  | Some (Err e, w') => Some (Err e, w')
  | None => None
  end.
Definition io_map_err {W A} (m : io W A) (f : string -> string) : io W A := fun w =>
  match m w with Some (r, w') => Some (map_err r f, w') | None => None end.

Notation "'let*' x := e 'in' k" := (io_bind e (fun x => k))
  (at level 10, x pattern, e at level 200, k at level 200) : p2p_scope.

(** The network: a request with its headers; [None] when the timeout ends it. *)
Class Network (W : Type) := {
  transmit : JsonRequest -> list (string * string) -> W -> option (result HttpResponse string) * W;
  lookup_host : string -> W -> result (list IpAddr) string * W }.

(** [url::Url] *)
Class UrlLib := {
  Url : Type;
  url_parse : string -> result Url string;
  url_scheme : Url -> string;
  url_host_str : Url -> option string;
  url_append_pair : string -> string -> Url -> Url;
  url_as_str : Url -> string }.

Section http.
Context {W : Type} {N : Network W}.

Definition response_body (r : JsonRequest) (response : HttpResponse) : result (list byte) string :=
  if negb (bool_decide (200 <= rs_status response <= 299))
  then Err (rq_url r +:+ " failed with HTTP " +:+ rs_status_text response)
  else if match rs_content_length response with Some n => bool_decide (MAX_JSON_RESPONSE_BYTES < n) | None => false end
  then Err ("response from " +:+ rq_url r +:+ " exceeded " +:+ pretty MAX_JSON_RESPONSE_BYTES +:+ " bytes")
  else rs_bytes response.

Definition send_request (r : JsonRequest) (w : W) : option (result (list byte) string) * W :=
  match transmit r (sent_headers r) w with
  | (Some (Ok response), w') => (Some (response_body r response), w')
  | (Some (Err e), w') => (Some (Err e), w')
  | (None, w') => (None, w')
  end.

Definition fetch_json {T} (from_slice : list byte -> result T string) (r : JsonRequest) : io W T := fun w =>
  match send_request r w with
  | (None, w') => Some (Err ("request to " +:+ rq_url r +:+ " timed out"), w')
  | (Some (Err e), w') => Some (Err e, w')
  | (Some (Ok body), w') =>
      Some (if decide (MAX_JSON_RESPONSE_BYTES < len body)
            then Err ("response from " +:+ rq_url r +:+ " exceeded " +:+ pretty MAX_JSON_RESPONSE_BYTES +:+ " bytes")
            else map_err (from_slice body) (fun err => "invalid JSON from " +:+ rq_url r +:+ ": " +:+ err), w')
  end.
End http.

(** * TXT records *)
Definition DNSADDR_PREFIX : string := "dnsaddr=".
Definition DNSADDR_QUERY_PREFIX : string := "_dnsaddr.".
Definition MAX_DNSADDR_RECURSION : Z := 8.
Definition MAX_DNSADDR_RECORDS_PER_LOOKUP : Z := 32.
Definition MAX_DNSADDR_TOTAL_RECORDS : Z := 128.
Definition MAX_DNSADDR_TXT_BYTES : Z := 4096.
Definition DNS_TXT_RECORD_TYPE : Z := 16.
Definition DEFAULT_DNSADDR_DOH_ENDPOINT : string := "https://cloudflare-dns.com/dns-query".
Definition DEFAULT_DNSADDR_TIMEOUT_SECS : Z := 5.
Definition MAX_DNSADDR_TIMEOUT_SECS : Z := 60.

Definition quote : ascii := Ascii.ascii_of_nat 34.
Definition backslash : ascii := Ascii.ascii_of_nat 92.

Definition txt_too_long : string := "TXT record exceeded " +:+ pretty MAX_DNSADDR_TXT_BYTES +:+ " bytes".

(** One turn of the [while let Some(ch) = chars.next()] loop: what is left, what was
    pushed, and whether the scan is inside a quoted string. *)
Definition txt_turn (ch rest out : list ascii) (in_quote : bool) : result (list ascii * list ascii * bool) string :=
  if decide (ch = [quote]) then Ok (rest, out, negb in_quote)
  else if bool_decide (ch = [backslash]) && in_quote then
    match next_char rest with
    | None => Err "TXT record has trailing escape"
    | Some (next, rest') => Ok (rest', out ++ next, in_quote)
    end
  else if in_quote then Ok (rest, out ++ ch, in_quote)
  else if is_whitespace ch then Ok (rest, out, in_quote)
  else Err ("unexpected unquoted TXT character `" +:+ text ch +:+ "`").

Fixpoint txt_loop (fuel : nat) (l out : list ascii) (in_quote : bool) : result string string :=
  match fuel, next_char l with
  | _, None => if in_quote then Err "TXT record has unterminated quote" else Ok (text out)
  | O, Some _ => Err "the scan did not end"
  | S fuel', Some (ch, rest) =>
      let? (l', out', in_quote') := txt_turn ch rest out in_quote in
      if decide (MAX_DNSADDR_TXT_BYTES < len out') then Err txt_too_long else txt_loop fuel' l' out' in_quote'
  end.

Definition decode_dnsaddr_txt_value (data : string) : result string string :=
  let trimmed := trim data in
  if decide (MAX_DNSADDR_TXT_BYTES < str_len trimmed) then Err txt_too_long
  else if negb (bool_decide (quote ∈ chars trimmed)) then Ok trimmed
  else txt_loop (length (chars trimmed)) (chars trimmed) [] false.

Record DnsJsonAnswer := { record_type : Z; answer_data : string }.
Record DnsJsonResponse := { dns_answer : option (list DnsJsonAnswer) }.

Fixpoint dns_answers (query_name : string) (out : list string) (answers : list DnsJsonAnswer) : result (list string) string :=
  match answers with
  | [] => Ok out
  | a :: answers' =>
      if negb (bool_decide (record_type a = DNS_TXT_RECORD_TYPE)) then dns_answers query_name out answers'
      else if decide (MAX_DNSADDR_TXT_BYTES < str_len (answer_data a))
      then Err ("TXT record exceeded " +:+ pretty MAX_DNSADDR_TXT_BYTES +:+ " bytes for " +:+ query_name)
      else let? value := decode_dnsaddr_txt_value (answer_data a) in
        dns_answers query_name (if str_starts_with DNSADDR_PREFIX value then out ++ [value] else out) answers'
  end.

Definition dns_json_answers (query_name : string) (body : DnsJsonResponse) : result (list string) string :=
  dns_answers query_name [] (default [] (dns_answer body)).

(** * Configuration *)
Record DnsaddrConfig := { dn_enabled : bool; doh_endpoint : string; dn_timeout_secs : Z }.

Definition DnsaddrConfig_default : DnsaddrConfig := {|
  dn_enabled := true; doh_endpoint := DEFAULT_DNSADDR_DOH_ENDPOINT; dn_timeout_secs := DEFAULT_DNSADDR_TIMEOUT_SECS |}.

Definition DnsaddrConfig_validate {U : UrlLib} (c : DnsaddrConfig) : result unit NetError :=
  if negb (dn_enabled c) then Ok tt
  else if decide (dn_timeout_secs c = 0 \/ MAX_DNSADDR_TIMEOUT_SECS < dn_timeout_secs c)
  then Err (config_error ("dnsaddr.timeout_secs must be between 1 and " +:+ pretty MAX_DNSADDR_TIMEOUT_SECS))
  else
    let endpoint := trim (doh_endpoint c) in
    if decide (endpoint = "") then Err (config_error "dnsaddr.doh_endpoint must not be empty when dnsaddr is enabled")
    else
      let? url := map_err (url_parse endpoint) (fun err =>
        config_error ("dnsaddr.doh_endpoint must be a valid HTTPS URL: " +:+ err)) in
      if negb (bool_decide (url_scheme url = "https"))
      then Err (config_error "dnsaddr.doh_endpoint must use https:// to avoid plaintext DNS queries")
      else if negb (bool_decide (is_Some (url_host_str url)))
      then Err (config_error "dnsaddr.doh_endpoint must include a host")
      else Ok tt.

(** * Resolution *)
Inductive DnsFamily : Type := AnyFamily | FamilyV4 | FamilyV6.
Definition family_allows (f : DnsFamily) (ip : IpAddr) : bool :=
  match f, ip with
  | AnyFamily, _ => true | FamilyV4, V4 _ => true | FamilyV6, V6 _ => true | _, _ => false
  end.

Section resolve.
Context {P : PeerIdLib} {M : MultiaddrLib} {U : UrlLib} {W : Type} {N : Network W}.
Context (empty : Multiaddr) (from_slice : list byte -> result DnsJsonResponse string).

Definition is_dns (p : Protocol) : bool := match p with Dns _ | Dns4 _ | Dns6 _ => true | _ => false end.
Definition is_dnsaddr (p : Protocol) : bool := match p with Dnsaddr _ => true | _ => false end.
Definition has_resolvable_dns (addr : Multiaddr) : bool := existsb is_dns (addr_iter addr).
Definition has_dnsaddr (addr : Multiaddr) : bool := existsb is_dnsaddr (addr_iter addr).
Definition has_any_dns (addr : Multiaddr) : bool := has_resolvable_dns addr || has_dnsaddr addr.

Fixpoint first_dns_component (idx : nat) (protocols : list Protocol) : option (nat * string * DnsFamily) :=
  match protocols with
  | [] => None
  | Dns host :: _ => Some (idx, host, AnyFamily)
  | Dns4 host :: _ => Some (idx, host, FamilyV4)
  | Dns6 host :: _ => Some (idx, host, FamilyV6)
  | _ :: l => first_dns_component (S idx) l
  end.

Definition split_step (st : option string * list Protocol) (p : Protocol) : option string * list Protocol :=
  match st.1 with
  | None => (match p with Dnsaddr name => Some name | _ => None end, st.2)
  | Some _ => (st.1, st.2 ++ [p])
  end.
Definition split_first_dnsaddr (addr : Multiaddr) : option (string * list Protocol) :=
  let '(domain, suffix) := foldl split_step (None, []) (addr_iter addr) in
  match domain with Some d => Some (d, suffix) | None => None end.

Definition dnsaddr_query_name (domain : string) : string :=
  DNSADDR_QUERY_PREFIX +:+ trim_end_char "." domain +:+ ".".

(** [slice::ends_with] *)
Definition multiaddr_ends_with (suffix : list Protocol) (addr : Multiaddr) : bool :=
  let protocols := addr_iter addr in
  bool_decide ((length suffix <= length protocols)%nat /\ drop (length protocols - length suffix) protocols = suffix).

Definition push_new (out : list Multiaddr) (addr : Multiaddr) : list Multiaddr :=
  if decide (addr ∈ out) then out else out ++ [addr].
Definition dedup_multiaddrs (addrs : list Multiaddr) : list Multiaddr := foldl push_new [] addrs.

Definition filter_dialable (addrs : list Multiaddr) : list Multiaddr := filter (fun a => allows native a = true) addrs.

(** The address with the component at [idx] replaced by [ip], built up from [Multiaddr::empty]. *)
Definition with_ip (protocols : list Protocol) (idx : nat) (ip : IpAddr) : Multiaddr :=
  foldl addr_with empty (<[idx := match ip with V4 i => Ip4 i | V6 i => Ip6 i end]> protocols).

Definition resolve_ordinary_dns_multiaddr (addr : Multiaddr) : io W (list Multiaddr) :=
  if negb (has_resolvable_dns addr) then io_ret [addr]
  else match first_dns_component 0 (addr_iter addr) with
  | None => io_ret [addr]
  | Some (idx, host, family) =>
      let* ips := (fun w => Some (lookup_host host w)) in
      let out := with_ip (addr_iter addr) idx <$> filter (fun ip => family_allows family ip = true) ips in
      if decide (out = []) then io_fail ("no matching A/AAAA records for " +:+ host)
      else io_ret (dedup_multiaddrs out)
  end.

(** The look-up of the TXT records of a name (dns/doh.rs). *)
Definition lookup_dnsaddr_txt (c : DnsaddrConfig) (query_name : string) : io W (list string) :=
  let* url := io_lift (url_parse (trim (doh_endpoint c))) in
  let url := url_append_pair "type" "TXT" (url_append_pair "name" (trim_end_char "." query_name) url) in
  let request := rq_header "accept" "application/dns-json" (JsonRequest_get (url_as_str url) (dn_timeout_secs c)) in
  let* body := io_map_err (fetch_json from_slice request) (fun err => "TXT lookup for " +:+ query_name +:+ " failed: " +:+ err) in
  io_lift (dns_json_answers query_name body).

(** The loop over the records of one name; [nested] resolves a candidate that is a [/dnsaddr] again. *)
Fixpoint resolve_records (nested : Multiaddr -> Z -> io W (list Multiaddr)) (total_records : Z) (suffix : list Protocol)
    (out : list Multiaddr) (records : list string) : io W (list Multiaddr) :=
  match records with
  | [] => io_ret out
  | record :: records' =>
      let* raw_addr := io_lift (ok_or (str_strip_prefix DNSADDR_PREFIX record)
        ("invalid dnsaddr TXT record `" +:+ record +:+ "`")) in
      if decide (MAX_DNSADDR_TXT_BYTES < str_len raw_addr)
      then io_fail ("dnsaddr TXT value exceeded " +:+ pretty MAX_DNSADDR_TXT_BYTES +:+ " bytes")
      else
        let* candidate := io_lift (map_err (addr_parse raw_addr) (fun err =>
          "invalid dnsaddr multiaddr `" +:+ raw_addr +:+ "`: " +:+ err)) in
        let* resolved :=
          (if has_dnsaddr candidate then nested candidate (total_records + len out + 1)
           else if has_resolvable_dns candidate then resolve_ordinary_dns_multiaddr candidate
           else io_ret [candidate]) in
        let out' := out ++ (if decide (suffix = []) then resolved
                            else filter (fun a => multiaddr_ends_with suffix a = true) resolved) in
        if decide (MAX_DNSADDR_TOTAL_RECORDS < total_records + len out')
        then io_fail ("dnsaddr resolved address count exceeded " +:+ pretty MAX_DNSADDR_TOTAL_RECORDS)
        else resolve_records nested total_records suffix out' records'
  end.

Fixpoint resolve_dnsaddr (fuel : nat) (c : DnsaddrConfig) (addr : Multiaddr) (depth total_records : Z)
    : io W (list Multiaddr) :=
  match fuel with
  | O => fun _ => None
  | S fuel' =>
      if decide (MAX_DNSADDR_RECURSION < depth)
      then io_fail ("dnsaddr recursion exceeded " +:+ pretty MAX_DNSADDR_RECURSION +:+ " levels")
      else if decide (MAX_DNSADDR_TOTAL_RECORDS < total_records)
      then io_fail ("dnsaddr total records exceeded " +:+ pretty MAX_DNSADDR_TOTAL_RECORDS)
      else
        let* (domain, suffix) := io_lift (ok_or (split_first_dnsaddr addr)
          ("missing /dnsaddr component in " +:+ addr_to_string addr)) in
        let query_name := dnsaddr_query_name domain in
        let* records := lookup_dnsaddr_txt c query_name in
        if decide (records = []) then io_fail ("no dnsaddr TXT records found for " +:+ query_name)
        else if decide (MAX_DNSADDR_RECORDS_PER_LOOKUP < len records)
        then io_fail ("dnsaddr TXT record count " +:+ pretty (len records) +:+ " exceeded "
          +:+ pretty MAX_DNSADDR_RECORDS_PER_LOOKUP +:+ " for " +:+ query_name)
        else
          let* out := resolve_records (fun candidate total => resolve_dnsaddr fuel' c candidate (depth + 1) total)
            total_records suffix [] records in
          io_ret (dedup_multiaddrs out)
  end.

(** One level for each depth from 0 to [MAX_DNSADDR_RECURSION], and the one that refuses. *)
Definition dnsaddr_levels : nat := 10.

Definition resolve_multiaddr (c : DnsaddrConfig) (addr : Multiaddr) : io W (list Multiaddr) :=
  if has_dnsaddr addr then
    if negb (dn_enabled c) then io_fail "/dnsaddr resolution is disabled by config"
    else resolve_dnsaddr dnsaddr_levels c addr 0 0
  else resolve_ordinary_dns_multiaddr addr.

Fixpoint resolve_all (c : DnsaddrConfig) (out addrs : list Multiaddr) : W -> option (result (list Multiaddr) (Multiaddr * string) * W) :=
  fun w => match addrs with
  | [] => Some (Ok out, w)
  | addr :: addrs' =>
      match resolve_multiaddr c addr w with
      | Some (Ok resolved, w') => resolve_all c (out ++ resolved) addrs' w'
      | Some (Err reason, w') => Some (Err (addr, reason), w')
      | None => None
      end
  end.

Definition resolve_configured_multiaddrs (field : string) (addrs : list Multiaddr) (c : DnsaddrConfig) (w : W)
    : option (result (list Multiaddr) NetError * W) :=
  match resolve_all c [] addrs w with
  | Some (Ok out, w') => Some (Ok (filter_dialable (dedup_multiaddrs out)), w')
  | Some (Err (addr, reason), w') =>
      Some (Err (Config "<config>" (field +:+ " DNS resolution failed for `" +:+ addr_to_string addr +:+ "`: " +:+ reason)), w')
  | None => None
  end.

Fixpoint resolve_best_effort (c : DnsaddrConfig) (out addrs : list Multiaddr) (w : W) : option (list Multiaddr * W) :=
  match addrs with
  | [] => Some (out, w)
  | addr :: addrs' =>
      match resolve_multiaddr c addr w with
      | Some (Ok resolved, w') => resolve_best_effort c (out ++ resolved) addrs' w'
      | Some (Err _, w') => resolve_best_effort c out addrs' w'
      | None => None
      end
  end.

Definition resolve_cached_multiaddrs (addrs : list Multiaddr) (c : DnsaddrConfig) (w : W) : option (list Multiaddr * W) :=
  match resolve_best_effort c [] addrs w with
  | Some (out, w') => Some (filter_dialable (dedup_multiaddrs out), w')
  | None => None
  end.

Definition resolve_dial_multiaddrs (addr : Multiaddr) (c : DnsaddrConfig) (w : W) : option (result (list Multiaddr) NetError * W) :=
  match resolve_multiaddr c addr w with
  | Some (r, w') =>
      Some (match r with
            | Ok l => Ok (filter_dialable l)
            | Err reason => Err (Dial (addr_to_string addr) ("DNS resolution failed: " +:+ reason))
            end, w')
  | None => None
  end.
End resolve.
(** * The limits of a resolution *)

Section dedup.
Context {P : PeerIdLib} {M : MultiaddrLib}.

Lemma push_new_spec out a x : x ∈ push_new out a <-> x ∈ out \/ x = a.
Proof. unfold push_new. case_decide; set_solver. Qed.

Lemma dedup_from out l :
  NoDup out -> NoDup (foldl push_new out l) /\ (length (foldl push_new out l) <= length out + length l)%nat /\
  (forall x, x ∈ foldl push_new out l <-> x ∈ out \/ x ∈ l).
Proof.
  revert out. induction l as [|a l IH]; intros out Hout; cbn [foldl].
  - split_and!; [done|cbn; lia|set_solver].
  - assert (Hn : NoDup (push_new out a)).
    { unfold push_new. case_decide; [done|]. apply NoDup_app. split_and!; [done|set_solver|by apply NoDup_singleton]. }
    destruct (IH _ Hn) as (H1 & H2 & H3). split_and!; [done| |].
    + assert (length (push_new out a) <= S (length out))%nat by (unfold push_new; case_decide; rewrite ?length_app; cbn; lia).
      cbn [length]. lia.
    + intros x. rewrite H3, push_new_spec. set_solver.
Qed.

Lemma dedup_spec l : NoDup (dedup_multiaddrs l) /\ len (dedup_multiaddrs l) <= len l /\ (forall x, x ∈ dedup_multiaddrs l <-> x ∈ l).
Proof.
  destruct (dedup_from [] l (NoDup_nil_2)) as (H1 & H2 & H3). unfold dedup_multiaddrs, len. cbn in H2.
  split; [done|]. split; [lia|]. intros x. rewrite H3. split; [intros [[]%not_elem_of_nil|]; done|by right].
Qed.

Lemma Forall_dedup (Q : Multiaddr -> Prop) l : Forall Q l -> Forall Q (dedup_multiaddrs l).
Proof. rewrite !Forall_forall. intros H x Hx. apply H. destruct (dedup_spec l) as (_ & _ & Hd). by apply Hd. Qed.
End dedup.

(** What a program costs and returns: it ends, spends at most [n], and a result satisfies [Q]. *)
Section cost.
Context {W : Type} (cost : W -> Z).

Definition costs {A} (m : io W A) (n : Z) (Q : A -> Prop) : Prop :=
  forall w, exists r w', m w = Some (r, w') /\ cost w' <= cost w + n /\ (forall a, r = Ok a -> Q a).

Lemma costs_bind {A B} (m : io W A) (k : A -> io W B) n n' Q Q' :
  costs m n Q -> 0 <= n' -> (forall a, Q a -> costs (k a) n' Q') -> costs (io_bind m k) (n + n') Q'.
Proof.
  intros Hm Hn Hk w. destruct (Hm w) as (r & w1 & E & Hc & Hr). unfold io_bind. rewrite E. destruct r as [a|e].
  - destruct (Hk a (Hr a eq_refl) w1) as (r & w2 & E2 & Hc2 & Hr2). exists r, w2. split_and!; [done|lia|done].
  - exists (Err e), w1. split_and!; [done|lia|done].
Qed.

Lemma costs_ret {A} (a : A) n (Q : A -> Prop) : 0 <= n -> Q a -> costs (io_ret a) n Q.
Proof. intros Hn HQ w. exists (Ok a), w. split_and!; [done|lia|]. by intros ? [= <-]. Qed.

Lemma costs_fail {A} e n (Q : A -> Prop) : 0 <= n -> costs (io_fail e) n Q.
Proof. intros Hn w. exists (Err e), w. split_and!; [done|lia|done]. Qed.

Lemma costs_lift {A} (r : result A string) n (Q : A -> Prop) : 0 <= n -> (forall a, r = Ok a -> Q a) -> costs (io_lift r) n Q.
Proof. intros Hn HQ w. exists r, w. split_and!; [done|lia|done]. Qed.

Lemma costs_map_err {A} (m : io W A) f n Q : costs m n Q -> costs (io_map_err m f) n Q.
Proof.
  intros Hm w. destruct (Hm w) as (r & w1 & E & Hc & Hr). unfold io_map_err. rewrite E. exists (map_err r f), w1.
  split_and!; [done..|]. intros a Ha. apply Hr. by destruct r.
Qed.
End cost.

Section bounds.
Context {P : PeerIdLib} {M : MultiaddrLib} {ML : MultiaddrLaws M} {U : UrlLib} {W : Type} {N : Network W}.
Context (empty : Multiaddr) (empty_iter : addr_iter empty = []).
Context (from_slice : list byte -> result DnsJsonResponse string).
Context (cost : W -> Z).
Hypothesis transmit_cost : forall r hs w, cost (transmit r hs w).2 <= cost w + 1.
Hypothesis lookup_cost : forall host w, cost (lookup_host host w).2 <= cost w.

Lemma costs_fetch {T} (from : list byte -> result T string) r : costs cost (fetch_json from r) 1 (fun _ => True).
Proof.
  intros w. unfold fetch_json, send_request. pose proof (transmit_cost r (sent_headers r) w) as H.
  destruct (transmit r (sent_headers r) w) as [[[resp|e]|] w'] eqn:E; cbn in H.
  - destruct (response_body r resp); eexists _, w'; (split_and!; [done|done|done]).
  - eexists _, w'. by split_and!.
  - eexists _, w'. by split_and!.
Qed.

Lemma costs_lookup c q : costs cost (lookup_dnsaddr_txt from_slice c q) 1 (fun _ => True).
Proof.
  unfold lookup_dnsaddr_txt. change 1 with (0 + 1). apply costs_bind with (Q := fun _ => True); [apply costs_lift; [lia|done]|lia|]. intros url _.
  change 1 with (1 + 0). apply costs_bind with (Q := fun _ => True); [apply costs_map_err, costs_fetch|lia|]. intros body _. apply costs_lift; [lia|done].
Qed.

Lemma iter_build l a : addr_iter (foldl addr_with a l) = addr_iter a ++ l.
Proof.
  revert a. induction l as [|p l IH]; intros a; cbn [foldl]; [by rewrite app_nil_r|].
  rewrite IH, addr_iter_with. by rewrite <- app_assoc.
Qed.

Definition resolved (a : Multiaddr) : Prop := has_dnsaddr a = false.

Lemma no_dnsaddr_forall a : resolved a <-> Forall (fun p => is_dnsaddr p = false) (addr_iter a).
Proof.
  unfold resolved, has_dnsaddr. rewrite <- not_true_iff_false, existsb_exists, Forall_forall. split.
  - intros H p Hp. apply not_true_iff_false. intros Hd. apply H. exists p. by rewrite <- list_elem_of_In.
  - intros H (p & Hp & Hd). rewrite <- list_elem_of_In in Hp. by rewrite H in Hd.
Qed.

Lemma costs_ordinary a : resolved a -> costs cost (resolve_ordinary_dns_multiaddr empty a) 0 (Forall resolved).
Proof.
  intros Ha. unfold resolve_ordinary_dns_multiaddr. destruct (negb _); [by apply costs_ret; [lia|constructor]|].
  destruct (first_dns_component _ _) as [[[idx host] family]|]; [|by apply costs_ret; [lia|constructor]].
  change 0 with (0 + 0). apply costs_bind with (Q := fun _ => True); [|lia|].
  - intros w. pose proof (lookup_cost host w). destruct (lookup_host host w) as [r w']. exists r, w'. cbn in *. split_and!; [done|lia|done].
  - intros ips _. case_decide; [apply costs_fail; lia|]. apply costs_ret; [lia|]. apply Forall_dedup.
    apply Forall_fmap, Forall_true. intros ip. unfold compose. apply no_dnsaddr_forall. unfold with_ip. rewrite iter_build, empty_iter. cbn [app].
    apply Forall_insert; [by apply no_dnsaddr_forall|]. by destruct ip.
Qed.

Lemma costs_records nested n total suffix records : 0 <= n ->
  (forall a t, costs cost (nested a t) n (Forall resolved)) ->
  forall out, total + len out <= MAX_DNSADDR_TOTAL_RECORDS -> Forall resolved out -> Forall (fun a => multiaddr_ends_with suffix a = true) out ->
  costs cost (resolve_records empty nested total suffix out records) (n * len records)
    (fun l => total + len l <= MAX_DNSADDR_TOTAL_RECORDS /\ Forall resolved l /\ Forall (fun a => multiaddr_ends_with suffix a = true) l).
Proof.
  intros Hn Hnested. induction records as [|record records IH]; intros out Hlen Hout Hend; cbn [resolve_records].
  { apply costs_ret; [unfold len; cbn; lia|done]. }
  replace (n * len (record :: records)) with (0 + (n * len (record :: records))) by lia.
  assert (Hpos : 0 <= n * len (record :: records)) by (unfold len; lia).
  assert (Hpos' : 0 <= n * len records) by (unfold len; lia).
  assert (Hsum : n * len (record :: records) = n + n * len records) by (unfold len; cbn [length]; lia).
  apply costs_bind with (Q := fun _ => True); [apply costs_lift; [lia|done]|done|]. intros raw _.
  case_decide; [apply costs_fail; lia|].
  replace (n * len (record :: records)) with (0 + (n * len (record :: records))) by lia.
  apply costs_bind with (Q := fun _ => True); [apply costs_lift; [lia|done]|done|]. intros candidate _.
  rewrite Hsum. apply costs_bind with (Q := Forall resolved); [|done|].
  - destruct (has_dnsaddr candidate) eqn:Ed; [apply Hnested|].
    replace n with (0 + n) by lia. destruct (has_resolvable_dns candidate).
    + intros w. destruct (costs_ordinary candidate Ed w) as (r & w' & E & Hc & Hr). exists r, w'. split_and!; [done|lia|done].
    + apply costs_ret; [lia|by constructor].
  - intros l Hl. case_decide as Hd; [apply costs_fail; lia|]. apply IH; [lia| |].
    + apply Forall_app. split; [done|]. case_decide; [done|]. apply Forall_forall; intros a Ha%list_elem_of_filter; rewrite Forall_forall in Hl; by apply Hl; apply Ha.
    + apply Forall_app. split; [done|]. case_decide as Hs.
      * rewrite Hs. apply Forall_true. intros a. unfold multiaddr_ends_with. apply bool_decide_eq_true. cbn [length]. split; [lia|].
        rewrite Nat.sub_0_r. apply drop_all.
      * apply Forall_forall. intros a Ha%list_elem_of_filter. by apply Ha.
Qed.

(** The look-ups of a resolution with [n] levels left: one, and those of its records. *)
Fixpoint lookups (n : nat) : Z := match n with O => 0 | S n' => 1 + lookups n' * MAX_DNSADDR_RECORDS_PER_LOOKUP end.

Lemma lookups_nonneg n : 0 <= lookups n.
Proof. induction n; cbn [lookups]; unfold MAX_DNSADDR_RECORDS_PER_LOOKUP in *; lia. Qed.

Definition answer_ok (addr : Multiaddr) (total : Z) (l : list Multiaddr) : Prop :=
  total + len l <= MAX_DNSADDR_TOTAL_RECORDS /\ NoDup l /\ Forall resolved l /\
  forall domain suffix, split_first_dnsaddr addr = Some (domain, suffix) -> Forall (fun a => multiaddr_ends_with suffix a = true) l.

Lemma costs_dnsaddr c n : forall fuel addr total, (n < fuel)%nat -> (n <= 9)%nat ->
  costs cost (resolve_dnsaddr empty from_slice fuel c addr (9 - Z.of_nat n) total) (lookups n) (answer_ok addr total).
Proof.
  induction n as [|n IH]; intros fuel addr total Hf Hn; (destruct fuel as [|fuel]; [lia|]); cbn [resolve_dnsaddr].
  { rewrite decide_True by (unfold MAX_DNSADDR_RECURSION; lia). apply costs_fail; done. }
  rewrite decide_False by (unfold MAX_DNSADDR_RECURSION; lia). pose proof (lookups_nonneg n) as Hl0.
  assert (Hl : 0 <= lookups n * MAX_DNSADDR_RECORDS_PER_LOOKUP) by (unfold MAX_DNSADDR_RECORDS_PER_LOOKUP; lia).
  cbn [lookups]. case_decide as Ht; [apply costs_fail; lia|].
  replace (1 + _) with (0 + (1 + lookups n * MAX_DNSADDR_RECORDS_PER_LOOKUP)) by lia.
  apply costs_bind with (Q := fun ds => split_first_dnsaddr addr = Some ds); [|lia|].
  { apply costs_lift; [lia|]. intros a. by destruct (split_first_dnsaddr addr); cbn; [intros [= ->]|]. }
  intros [domain suffix] Hsplit. apply costs_bind with (Q := fun _ => True); [apply costs_lookup|lia|]. intros records _.
  case_decide; [apply costs_fail; lia|]. case_decide as Hr; [apply costs_fail; lia|].
  replace (lookups n * _) with (lookups n * MAX_DNSADDR_RECORDS_PER_LOOKUP + 0) by lia.
  apply costs_bind with (Q := fun l => total + len l <= MAX_DNSADDR_TOTAL_RECORDS /\ Forall resolved l /\
    Forall (fun a => multiaddr_ends_with suffix a = true) l); [|lia|].
  - assert (Hsub : costs cost (resolve_records empty (fun candidate t => resolve_dnsaddr empty from_slice fuel c candidate (9 - Z.of_nat (S n) + 1) t)
        total suffix [] records) (lookups n * len records) (fun l => total + len l <= MAX_DNSADDR_TOTAL_RECORDS /\ Forall resolved l /\
        Forall (fun a => multiaddr_ends_with suffix a = true) l)).
    { apply costs_records; [done| |unfold len; cbn; lia|constructor|constructor]. intros a t w.
      replace (9 - Z.of_nat (S n) + 1) with (9 - Z.of_nat n) by lia.
      destruct (IH fuel a t ltac:(lia) ltac:(lia) w) as (r & w' & E & Hc & Hq). exists r, w'. split_and!; [done|done|].
      intros l El. by destruct (Hq l El) as (_ & _ & ? & _). }
    intros w. destruct (Hsub w) as (r & w' & E & Hc & Hq). exists r, w'. split_and!; [done| |done]. unfold MAX_DNSADDR_RECORDS_PER_LOOKUP in *. nia.
  - intros l (H1 & H2 & H3). destruct (dedup_spec l) as (D1 & D2 & D3). apply costs_ret; [lia|].
    split_and!; [lia|done|by apply Forall_dedup|]. rewrite Hsplit. intros ? ? [= <- <-]. by apply Forall_dedup.
Qed.

(** C32: A [/dnsaddr] resolution ends, whatever the network answers: within nine levels of
    records it asks for at most [(32^9 - 1) / 31] TXT look-ups, and what it returns is at
    most 128 different addresses, none of them a [/dnsaddr] again, each of which ends with
    the components that follow the [/dnsaddr] in the address (its [/p2p] peer). *)
Theorem dnsaddr_resolution_bounded c addr w :
  has_dnsaddr addr = true ->
  exists r w', resolve_multiaddr empty from_slice c addr w = Some (r, w') /\
    cost w' <= cost w + (32 ^ 9 - 1) / 31 /\
    forall l, r = Ok l -> len l <= MAX_DNSADDR_TOTAL_RECORDS /\ NoDup l /\ Forall (fun a => has_dnsaddr a = false) l /\
      forall domain suffix, split_first_dnsaddr addr = Some (domain, suffix) -> Forall (fun a => multiaddr_ends_with suffix a = true) l.
Proof.
  intros Hd. unfold resolve_multiaddr. rewrite Hd. destruct (negb (dn_enabled c)).
  - exists (Err "/dnsaddr resolution is disabled by config"), w. split_and!; [done| |done].
    change ((32 ^ 9 - 1) / 31) with 1134979744801. lia.
  - destruct (costs_dnsaddr c 9 dnsaddr_levels addr 0 ltac:(unfold dnsaddr_levels; lia) ltac:(lia) w) as (r & w' & E & Hc & Hq).
    exists r, w'. split_and!; [done|by change ((32 ^ 9 - 1) / 31) with (lookups 9)|]. intros l ->. by destruct (Hq l eq_refl) as (? & ? & ? & ?).
Qed.
End bounds.

Lemma strip_prefix_app prefix s : str_strip_prefix prefix (prefix +:+ s) = Some s.
Proof.
  unfold str_strip_prefix. rewrite chars_app, take_app_length, decide_True by done. by rewrite drop_app_length, text_chars.
Qed.

(** * What the limits leave open *)
Section multiply.
Context {P : PeerIdLib} {M : MultiaddrLib} {ML : MultiaddrLaws M} {U : UrlLib} {N : Network Z}.
Context (empty : Multiaddr) (from_slice : list byte -> result DnsJsonResponse string) (c : DnsaddrConfig).
Context (q : PeerId) (name : nat -> string) (link : nat -> Multiaddr) (leaf : Multiaddr).
Hypothesis enabled : dn_enabled c = true.
Hypothesis link_iter : forall i, addr_iter (link i) = [Dnsaddr (name i); P2p q].
Hypothesis link_short : forall i, str_len (addr_to_string (link i)) <= MAX_DNSADDR_TXT_BYTES.
Hypothesis leaf_plain : has_any_dns leaf = false.
Hypothesis leaf_other : multiaddr_ends_with [P2p q] leaf = false.
Hypothesis leaf_short : str_len (addr_to_string leaf) <= MAX_DNSADDR_TXT_BYTES.
Hypothesis inner_answers : forall i w, (i < 8)%nat ->
  lookup_dnsaddr_txt from_slice c (dnsaddr_query_name (name i)) w =
    Some (Ok (replicate 32 (DNSADDR_PREFIX +:+ addr_to_string (link (S i)))), w + 1).
Hypothesis last_answer : forall w,
  lookup_dnsaddr_txt from_slice c (dnsaddr_query_name (name 8)) w = Some (Ok [DNSADDR_PREFIX +:+ addr_to_string leaf], w + 1).

Lemma filtered_records nested t a n k w :
  has_dnsaddr a = true -> str_len (addr_to_string a) <= MAX_DNSADDR_TXT_BYTES -> t <= MAX_DNSADDR_TOTAL_RECORDS ->
  (forall w, nested a (t + 1) w = Some (Ok [], w + n)) ->
  resolve_records empty nested t [P2p q] [] (replicate k (DNSADDR_PREFIX +:+ addr_to_string a)) w = Some (Ok [], w + n * Z.of_nat k).
Proof.
  intros Ha Hlen Ht Hn. revert w. induction k as [|k IH]; intros w; cbn [replicate resolve_records].
  { unfold io_ret. do 2 f_equal. lia. }
  rewrite strip_prefix_app. unfold io_bind at 1. cbn [ok_or io_lift]. rewrite decide_False by lia.
  unfold io_bind at 1. rewrite addr_parse_to_string. cbn [map_err io_lift]. rewrite Ha. unfold io_bind. cbn [len length app].
  change (t + len []) with (t + 0). rewrite Z.add_0_r, Hn. rewrite (decide_False (P := [P2p q] = [])) by done. cbn [app].
  replace (filter _ []) with (@nil Multiaddr) by done. rewrite decide_False by (unfold len; cbn; lia). rewrite IH. do 2 f_equal. lia.
Qed.

Lemma link_split i : split_first_dnsaddr (link i) = Some (name i, [P2p q]).
Proof. unfold split_first_dnsaddr. by rewrite link_iter. Qed.

Lemma link_dnsaddr i : has_dnsaddr (link i) = true.
Proof. unfold has_dnsaddr. by rewrite link_iter. Qed.

Lemma level_lookups n : forall i fuel w, (i + n = 8)%nat -> (n < fuel)%nat ->
  resolve_dnsaddr empty from_slice fuel c (link i) (Z.of_nat i) (Z.of_nat i) w = Some (Ok [], w + lookups (S n)).
Proof.
  induction n as [|n IH]; intros i fuel w Hi Hf; (destruct fuel as [|fuel]; [lia|]); cbn [resolve_dnsaddr];
    rewrite decide_False by (unfold MAX_DNSADDR_RECURSION; lia); rewrite decide_False by (unfold MAX_DNSADDR_TOTAL_RECORDS; lia);
    unfold io_bind at 1; rewrite link_split; cbn [ok_or io_lift]; unfold io_bind at 1.
  - replace i with 8%nat by lia. rewrite last_answer. rewrite decide_False by done. rewrite decide_False by done. unfold io_bind. cbn [resolve_records].
    rewrite strip_prefix_app. unfold io_bind. cbn [ok_or io_lift]. rewrite decide_False by lia.
    rewrite addr_parse_to_string. cbn [map_err io_lift]. apply orb_false_iff in leaf_plain as [-> ->].
    unfold io_ret. rewrite (decide_False (P := [P2p q] = [])) by done. rewrite filter_cons_False by by rewrite leaf_other. cbn. done.
  - rewrite inner_answers by lia. rewrite decide_False by done. rewrite decide_False by done.
    unfold io_bind. rewrite (filtered_records _ _ _ (lookups (S n))); [|apply link_dnsaddr|apply link_short|unfold MAX_DNSADDR_TOTAL_RECORDS; lia|].
    + unfold io_ret. cbn [dedup_multiaddrs foldl]. cbn [lookups]. unfold MAX_DNSADDR_RECORDS_PER_LOOKUP. do 2 f_equal. lia.
    + intros w'. replace (Z.of_nat i + 1) with (Z.of_nat (S i)) by lia. apply IH; lia.
Qed.

(** The number of look-ups is not limited by the count limits: against a zone whose
    names answer with thirty-two links each and whose addresses never end with the
    requested peer, every answer is filtered away, so that neither the limit of 128
    records nor the depth stops the resolution, and it makes all of the
    [(32^9 - 1) / 31] requests that the bound allows, to return no address. *)
Theorem dnsaddr_bound_is_reached w :
  resolve_multiaddr empty from_slice c (link 0) w = Some (Ok [], w + (32 ^ 9 - 1) / 31).
Proof.
  unfold resolve_multiaddr. rewrite link_dnsaddr, enabled. cbn [negb].
  rewrite (level_lookups 8 0) by (unfold dnsaddr_levels; lia). by change ((32 ^ 9 - 1) / 31) with (lookups 9).
Qed.
End multiply.

(** * Quoted TXT values *)

(** A character of UTF-8 text: as many bytes as its first byte says. *)
Definition utf8_char (ch : list ascii) : Prop := exists c l, ch = c :: l /\ length ch = char_width c.

(** Zone-file text of a value: one string in quotes, with quotes and backslashes escaped. *)
Definition escape_char (ch : list ascii) : list ascii :=
  if decide (ch = [quote] \/ ch = [backslash]) then backslash :: ch else ch.
Definition quote_txt (value : list (list ascii)) : list ascii := [quote] ++ mjoin (escape_char <$> value) ++ [quote].

Lemma next_char_app ch l : utf8_char ch -> next_char (ch ++ l) = Some (ch, l).
Proof.
  intros (c & r & -> & Hlen). unfold next_char. cbn [app]. rewrite app_comm_cons, <- Hlen. by rewrite take_app_length, drop_app_length.
Qed.

Lemma utf8_ascii c : code c < 192 -> utf8_char [c].
Proof. intros H. exists c, []. split; [done|]. unfold char_width. by rewrite decide_True. Qed.

Lemma txt_loop_step fuel ch rest out q : utf8_char ch ->
  txt_loop (S fuel) (ch ++ rest) out q =
  let? (l', out', q') := txt_turn ch rest out q in
  if decide (MAX_DNSADDR_TXT_BYTES < len out') then Err txt_too_long else txt_loop fuel l' out' q'.
Proof. intros H. cbn [txt_loop]. by rewrite next_char_app. Qed.

Lemma txt_loop_escaped ch rest out fuel : utf8_char ch -> len (out ++ ch) <= MAX_DNSADDR_TXT_BYTES ->
  txt_loop (S fuel) (escape_char ch ++ rest) out true = txt_loop fuel rest (out ++ ch) true.
Proof.
  intros Hch Hlen. unfold escape_char. case_decide as Hesc.
  - replace ((backslash :: ch) ++ rest) with ([backslash] ++ ch ++ rest) by done. rewrite txt_loop_step by by apply utf8_ascii.
    unfold txt_turn. rewrite decide_False by done. rewrite bool_decide_eq_true_2 by done. cbn [andb]. rewrite next_char_app by done. cbn [result_bind].
    by rewrite decide_False by lia.
  - rewrite txt_loop_step by done. unfold txt_turn. rewrite decide_False by tauto. rewrite bool_decide_eq_false_2 by tauto. cbn [andb result_bind].
    by rewrite decide_False by lia.
Qed.

Lemma txt_loop_value value rest out fuel : Forall utf8_char value -> len (out ++ mjoin value) <= MAX_DNSADDR_TXT_BYTES ->
  txt_loop (length value + fuel) (mjoin (escape_char <$> value) ++ rest) out true = txt_loop fuel rest (out ++ mjoin value) true.
Proof.
  revert out. induction value as [|ch value IH]; intros out Hv Hlen; cbn [fmap list_fmap mjoin list_join length Nat.add app].
  { by rewrite app_nil_r. }
  inversion Hv; subst. rewrite <- app_assoc. cbn [mjoin list_join] in Hlen. rewrite app_assoc in Hlen.
  rewrite txt_loop_escaped; [|done|unfold len in *; rewrite !length_app in *; lia]. rewrite IH by done. by rewrite app_assoc.
Qed.

(** Character strings of one TXT record, in quotes and separated by spaces. *)
Definition zone_text (values : list (list (list ascii))) : list ascii :=
  match values with
  | [] => []
  | v :: vs => quote_txt v ++ mjoin ((fun v => " "%char :: quote_txt v) <$> vs)
  end.

Lemma trim_ends c l d : not_space c -> not_space d -> trim_chars (c :: l ++ [d]) = c :: l ++ [d].
Proof.
  intros [Hc _] [_ Hd]. unfold trim_chars. rewrite trim_start_id by done. rewrite reverse_cons, reverse_app. cbn [reverse rev_append app].
  rewrite trim_start_id by done. rewrite reverse_cons, reverse_app, reverse_involutive. done.
Qed.

Lemma quote_not_space : not_space quote.
Proof. split; (apply (Forall_forall _ _); intros p Hp; vm_compute in Hp; set_unfold in Hp; repeat destruct Hp as [->|Hp]; done). Qed.

Lemma join_cons {A} (l : list A) (ls : list (list A)) : mjoin (l :: ls) = l ++ mjoin ls.
Proof. done. Qed.

Lemma length_escaped value : Forall utf8_char value -> (length value <= length (mjoin (escape_char <$> value)))%nat.
Proof.
  induction 1 as [|ch value (c & l & -> & _) _ IH]; [done|]. rewrite fmap_cons, join_cons, length_app.
  unfold escape_char at 1. case_decide; cbn [length]; lia.
Qed.

Lemma txt_loop_quoted v rest out fuel : Forall utf8_char v -> len (out ++ mjoin v) <= MAX_DNSADDR_TXT_BYTES ->
  (length (quote_txt v ++ rest) <= fuel)%nat ->
  exists fuel', (length rest <= fuel')%nat /\ txt_loop fuel (quote_txt v ++ rest) out false = txt_loop fuel' rest (out ++ mjoin v) false.
Proof.
  intros Hv Hlen Hfuel. pose proof (length_escaped v Hv) as He. unfold quote_txt in *. rewrite !length_app in Hfuel. cbn [length] in Hfuel.
  destruct fuel as [|fuel]; [lia|]. exists (fuel - (length v + 1))%nat. split; [lia|].
  assert (Hout : len out <= MAX_DNSADDR_TXT_BYTES) by (unfold len in *; rewrite length_app in Hlen; lia).
  rewrite <- !app_assoc. rewrite txt_loop_step by by apply utf8_ascii. unfold txt_turn at 1. rewrite decide_True by done. cbn [result_bind negb].
  rewrite decide_False by lia. replace fuel with (length v + S (fuel - (length v + 1)))%nat at 1 by lia.
  rewrite txt_loop_value by done. rewrite txt_loop_step by by apply utf8_ascii. unfold txt_turn. rewrite decide_True by done. cbn [result_bind negb].
  by rewrite decide_False by lia.
Qed.

Lemma txt_loop_rest vs out fuel : Forall (Forall utf8_char) vs -> len (out ++ mjoin (mjoin <$> vs)) <= MAX_DNSADDR_TXT_BYTES ->
  (length (mjoin ((fun v => " "%char :: quote_txt v) <$> vs)) <= fuel)%nat ->
  txt_loop fuel (mjoin ((fun v => " "%char :: quote_txt v) <$> vs)) out false = Ok (text (out ++ mjoin (mjoin <$> vs))).
Proof.
  intros Hvs. revert out fuel. induction Hvs as [|v vs Hv Hvs IH]; intros out fuel Hlen Hfuel.
  { cbn. rewrite app_nil_r. by destruct fuel. }
  rewrite !fmap_cons, !join_cons in *.
  cbn [app length] in *. destruct fuel as [|fuel]; [lia|].
  assert (Hout : len (out ++ mjoin v) <= MAX_DNSADDR_TXT_BYTES) by (unfold len in *; rewrite !length_app in *; lia).
  assert (Hout' : len out <= MAX_DNSADDR_TXT_BYTES) by (unfold len in *; rewrite length_app in Hout; lia).
  change (" "%char :: quote_txt v ++ ?x) with ([" "%char] ++ quote_txt v ++ x). rewrite txt_loop_step by by apply utf8_ascii.
  unfold txt_turn. rewrite decide_False by done. cbn [andb bool_decide]. rewrite andb_false_r.
  replace (is_whitespace [" "%char]) with true by (vm_compute; done). cbn [result_bind]. rewrite decide_False by lia.
  destruct (txt_loop_quoted v (mjoin ((fun v => " "%char :: quote_txt v) <$> vs)) out fuel Hv Hout) as (fuel' & Hf' & E).
  { lia. }
  rewrite E. rewrite IH; [by rewrite <- app_assoc| |done]. by rewrite <- app_assoc.
Qed.

Lemma zone_text_ends v vs : exists l, zone_text (v :: vs) = quote :: l ++ [quote].
Proof.
  cbn [zone_text]. unfold quote_txt at 1. induction vs as [|w vs IH] using rev_ind.
  - exists (mjoin (escape_char <$> v)). cbn. by rewrite app_nil_r.
  - rewrite fmap_app, join_app. cbn [fmap list_fmap mjoin list_join]. unfold quote_txt at 2. rewrite app_nil_r.
    eexists (mjoin (escape_char <$> v) ++ [quote] ++ mjoin ((fun v => " "%char :: quote_txt v) <$> vs) ++ " "%char :: [quote] ++ mjoin (escape_char <$> w)).
    cbn [app]. rewrite <- !app_assoc. cbn [app]. rewrite <- !app_assoc. cbn [app]. done.
Qed.

Lemma join_escaped_longer v : (length (mjoin v) <= length (mjoin (escape_char <$> v)))%nat.
Proof.
  induction v as [|ch v IH]; [done|]. rewrite fmap_cons, !join_cons, !length_app. unfold escape_char at 1. case_decide; cbn [length]; lia.
Qed.

Lemma zone_text_longer v vs : len (mjoin v ++ mjoin (mjoin <$> vs)) <= len (zone_text (v :: vs)).
Proof.
  unfold len. cbn [zone_text]. unfold quote_txt at 1. rewrite !length_app. pose proof (join_escaped_longer v).
  assert (length (mjoin (mjoin <$> vs)) <= length (mjoin ((fun v => " "%char :: quote_txt v) <$> vs)))%nat; [|lia].
  induction vs as [|w vs IH]; [done|]. rewrite !fmap_cons, !join_cons, !length_app. pose proof (join_escaped_longer w).
  unfold quote_txt at 1. cbn [length app]. rewrite length_app. lia.
Qed.

(** TXT values survive the trip: a record whose character strings are written the way
    DNS-over-HTTPS servers print them (each in quotes, quotes and backslashes escaped,
    separated by a space) decodes to the concatenation of the strings, for every
    UTF-8 content that fits the limit. *)
Theorem txt_record_round_trip v vs :
  Forall utf8_char v -> Forall (Forall utf8_char) vs -> len (zone_text (v :: vs)) <= MAX_DNSADDR_TXT_BYTES ->
  decode_dnsaddr_txt_value (text (zone_text (v :: vs))) = Ok (text (mjoin (mjoin <$> (v :: vs)))).
Proof.
  intros Hv Hvs Hlen. destruct (zone_text_ends v vs) as (l & El).
  assert (Htrim : trim (text (zone_text (v :: vs))) = text (zone_text (v :: vs))).
  { unfold trim. by rewrite chars_text, El, trim_ends by apply quote_not_space. }
  unfold decode_dnsaddr_txt_value. rewrite Htrim, chars_text. unfold str_len. rewrite <- length_chars, chars_text. rewrite decide_False by (unfold len in Hlen; lia).
  rewrite bool_decide_eq_true_2 by (rewrite El; left). cbn [negb].
  assert (Hsum : len (mjoin v ++ mjoin (mjoin <$> vs)) <= len (zone_text (v :: vs))) by by apply zone_text_longer.
  cbn [zone_text] in *. destruct (txt_loop_quoted v (mjoin ((fun v => " "%char :: quote_txt v) <$> vs)) []
    (length (quote_txt v ++ mjoin ((fun v => " "%char :: quote_txt v) <$> vs))) Hv) as (fuel' & Hf' & ->); [|done|].
  { unfold len in *. rewrite !length_app in *. cbn [length]. lia. }
  rewrite fmap_cons, join_cons. cbn [app]. rewrite txt_loop_rest; [done|done|lia|done].
Qed.
