(* ===== verification/RelayDiscovery.v ===== *)
(** Relay selection and public fallback (crates/connectivity/relay_discovery.rs,
    public_fallback.rs, webrtc.rs): which relays a node asks for reservations at
    startup, and when the bundled public peers are used. *)

From S2P Require Import Prelude Text Bytes Common AppMessage Relay Addresses.

#[local] Open Scope Z_scope.

(** * Policy *)
Record RelayDiscoveryPolicy := {
  rdp_enabled : bool;
  use_configured_relays : bool;
  use_cached_relays : bool;
  use_rendezvous_relays : bool;
  use_dht_relays : bool;
  min_reservations : Z;
  max_reservations_policy : Z;
  prefer_configured_relays : bool;
  replace_failed_relays : bool;
}.

Definition RelayDiscoveryPolicy_default : RelayDiscoveryPolicy := {|
  rdp_enabled := true; use_configured_relays := true; use_cached_relays := true; use_rendezvous_relays := true;
  use_dht_relays := true; min_reservations := 3; max_reservations_policy := 8; prefer_configured_relays := true;
  replace_failed_relays := true |}.

Definition RelayDiscoveryPolicy_validate (p : RelayDiscoveryPolicy) : result unit NetError :=
  if negb (rdp_enabled p) then Ok tt
  else
    let? _ := reject_if (bool_decide (max_reservations_policy p = 0))
      (config_error "discovery.relay_discovery.max_reservations must be at least 1") in
    let? _ := reject_if (bool_decide (max_reservations_policy p < min_reservations p))
      (config_error "discovery.relay_discovery.min_reservations must be <= max_reservations") in
    reject_if (negb (use_configured_relays p) && negb (use_cached_relays p) && negb (use_rendezvous_relays p)
               && negb (use_dht_relays p))
      (config_error "discovery.relay_discovery must enable at least one relay source").

Inductive RelayCandidateSource : Type := Configured | Cached | RendezvousRelay | PublicFallback.

#[export] Instance RelayCandidateSource_eq_dec : EqDecision RelayCandidateSource.
Proof. solve_decision. Defined.

Definition candidate_source_as_str (s : RelayCandidateSource) : string :=
  match s with
  | Configured => "configured" | Cached => "cached" | RendezvousRelay => "rendezvous" | PublicFallback => "public_fallback"
  end.

(** * Public fallback *)
Inductive PublicFallbackMode : Type := Disabled | FallbackOnly | Always.

#[export] Instance PublicFallbackMode_eq_dec : EqDecision PublicFallbackMode.
Proof. solve_decision. Defined.

Definition fallback_mode_as_str (m : PublicFallbackMode) : string :=
  match m with Disabled => "disabled" | FallbackOnly => "fallback_only" | Always => "always" end.

Definition mode_is_enabled (m : PublicFallbackMode) : bool := match m with Disabled => false | _ => true end.

Definition DEFAULT_PUBLIC_BOOTSTRAP_SEED_PEERS : list string := [
  "/dnsaddr/bootstrap.libp2p.io/p2p/QmNnooDu7bfjPFoTZYxMNLWUQJyrVwtbZg5gBMjTezGAJN";
  "/dnsaddr/bootstrap.libp2p.io/p2p/QmQCU2EcMqAqQPR2i9bChDtGNJchTbq5TbXJJ16u19uLTa";
  "/dnsaddr/bootstrap.libp2p.io/p2p/QmbLHAnMoJPWSCR5Zhtx6BHJX9KiKNN6tpvbUcqanj75Nb";
  "/dnsaddr/bootstrap.libp2p.io/p2p/QmcZf59bWwK5XFi76CZX8cbJ4BhTzzA3gU1ZjYZcYW3dwt"]%string.

Record PublicBootstrapConfig := {
  pb_mode : PublicFallbackMode;
  pb_bootstrap_seed_peers : list string;
  pb_rendezvous_peers : list string;
  pb_relay_peers : list string;
  auto_connect_discovered_peers : bool;
}.

Definition PublicBootstrapConfig_default : PublicBootstrapConfig := {|
  pb_mode := FallbackOnly; pb_bootstrap_seed_peers := DEFAULT_PUBLIC_BOOTSTRAP_SEED_PEERS; pb_rendezvous_peers := [];
  pb_relay_peers := []; auto_connect_discovered_peers := true |}.

Definition private_infrastructure_only : PublicBootstrapConfig := {|
  pb_mode := Disabled; pb_bootstrap_seed_peers := []; pb_rendezvous_peers := []; pb_relay_peers := [];
  auto_connect_discovered_peers := false |}.

Definition PublicBootstrapConfig_validate (c : PublicBootstrapConfig) : result unit NetError :=
  reject_if (mode_is_enabled (pb_mode c) && bool_decide (pb_bootstrap_seed_peers c = [])
             && bool_decide (pb_rendezvous_peers c = []) && bool_decide (pb_relay_peers c = []))
    (config_error ("discovery.public_bootstrap mode is enabled but no public bootstrap, rendezvous, or relay peers are " +:+
                   "configured")).

Record PublicFallbackDecision := { fd_mode : PublicFallbackMode; fd_used : bool; fd_reason : string }.

(** The three decisions differ in the list and in the reason. *)
Definition decision (c : PublicBootstrapConfig) (peers : list string) (owned : Z) (fallback_reason : string)
    : PublicFallbackDecision :=
  let use_public := match pb_mode c with
                    | Disabled => false
                    | FallbackOnly => bool_decide (owned = 0)
                    | Always => true
                    end && negb (bool_decide (peers = [])) in
  {| fd_mode := pb_mode c; fd_used := use_public;
     fd_reason := if use_public then (if decide (pb_mode c = Always) then "always" else fallback_reason) else "not_used" |}.

Definition bootstrap_decision (c : PublicBootstrapConfig) (owned_startup_candidates : Z) : PublicFallbackDecision :=
  decision c (pb_bootstrap_seed_peers c) owned_startup_candidates "no_operator_or_cached_startup_candidates".

Definition rendezvous_decision (c : PublicBootstrapConfig) (owned_rendezvous_candidates : Z) : PublicFallbackDecision :=
  decision c (pb_rendezvous_peers c) owned_rendezvous_candidates "no_operator_or_cached_rendezvous_candidates".

Definition relay_decision (c : PublicBootstrapConfig) (owned_selected_relays : Z) : PublicFallbackDecision :=
  decision c (pb_relay_peers c) owned_selected_relays "no_operator_cached_or_rendezvous_relay_candidates".

Section relay_discovery.
Context {P : PeerIdLib} {M : MultiaddrLib}.

(** * Addresses *)
Definition is_webrtc_direct_addr (addr : Multiaddr) : bool :=
  existsb (fun p => match p with WebRTCDirect | P2pWebRtcDirect => true | _ => false end) (addr_iter addr).

Fixpoint certhash_after (saw_webrtc_direct : bool) (protocols : list Protocol) : bool :=
  match protocols with
  | [] => false
  | WebRTCDirect :: rest | P2pWebRtcDirect :: rest => certhash_after true rest
  | Certhash _ :: rest => if saw_webrtc_direct then true else certhash_after saw_webrtc_direct rest
  | _ :: rest => certhash_after saw_webrtc_direct rest
  end.

Definition has_webrtc_direct_certhash (addr : Multiaddr) : bool := certhash_after false (addr_iter addr).

Definition supported_relay_addr_score (addr : Multiaddr) : option Z :=
  if existsb (fun p => match p with WebTransport => true | _ => false end) (addr_iter addr) then None
  else if existsb (fun p => match p with Quic | QuicV1 => true | _ => false end) (addr_iter addr) then Some 0
  else if is_webrtc_direct_addr addr then Some 1
  else if existsb (fun p => match p with Tcp _ => true | _ => false end) (addr_iter addr) then Some 2
  else None.

Record RelayCandidateAddr := { rc_peer : PeerId; rc_addr : Multiaddr; rc_source : RelayCandidateSource }.

Definition relay_candidate_addr (addr : Multiaddr) (source : RelayCandidateSource) : option RelayCandidateAddr :=
  if is_p2p_circuit_addr addr || negb (has_reachable_transport addr) || has_unspecified_ip addr then None
  else match relay_peer_id addr with
       | Some peer => Some {| rc_peer := peer; rc_addr := addr; rc_source := source |}
       | None => None
       end.

Definition valid_relay_candidates (addrs : list Multiaddr) : list RelayCandidateAddr :=
  omap (fun addr => relay_candidate_addr addr Configured) addrs.

(** * Selection *)
Record RelaySelectionPlan := {
  sp_enabled : bool;
  selected_addrs : list Multiaddr;
  configured_candidates : Z;
  cached_candidates : Z;
  rendezvous_candidates : Z;
  public_candidates : Z;
  ignored_candidates : Z;
  sp_min_reservations : Z;
  sp_max_reservations : Z;
  sp_errors : list string;
}.

Definition selected_strings (plan : RelaySelectionPlan) : list string := addr_to_string <$> selected_addrs plan.

Definition total_candidates (plan : RelaySelectionPlan) : Z :=
  sat_add usize_max (sat_add usize_max (sat_add usize_max (configured_candidates plan) (cached_candidates plan))
    (rendezvous_candidates plan)) (public_candidates plan).

(** The counters of one pass. *)
Record Tally := { ty_configured : Z; ty_cached : Z; ty_rendezvous : Z; ty_public : Z; ty_ignored : Z }.

Definition tally_ignored (n : Z) (t : Tally) : Tally := {|
  ty_configured := ty_configured t; ty_cached := ty_cached t; ty_rendezvous := ty_rendezvous t; ty_public := ty_public t;
  ty_ignored := sat_add usize_max (ty_ignored t) n |}.

Definition tally_source (source : RelayCandidateSource) (t : Tally) : Tally :=
  let one s n := if decide (s = source) then sat_add usize_max n 1 else n in {|
  ty_configured := one Configured (ty_configured t); ty_cached := one Cached (ty_cached t);
  ty_rendezvous := one RendezvousRelay (ty_rendezvous t); ty_public := one PublicFallback (ty_public t);
  ty_ignored := ty_ignored t |}.

Local Abbreviation Sx := (gset string * list RelayCandidateAddr * Tally)%type.

Definition select_addr (source : RelayCandidateSource) (x : Sx) (addr : Multiaddr) : Sx :=
  let '(seen, ordered, t) := x in
  match relay_candidate_addr addr source with
  | None => (seen, ordered, tally_ignored 1 t)
  | Some candidate =>
      let id := peer_to_string (rc_peer candidate) in
      if decide (id ∈ seen) then (seen, ordered, tally_ignored 1 t)
      else ({[id]} ∪ seen, ordered ++ [candidate], tally_source source t)
  end.

Definition select_source (x : Sx) (s : RelayCandidateSource * list Multiaddr * bool) : Sx :=
  let '(source, addrs, enabled) := s in
  if enabled then foldl (select_addr source) x addrs
  else let '(seen, ordered, t) := x in (seen, ordered, tally_ignored (len addrs) t).

Definition relay_sources (policy : RelayDiscoveryPolicy) (configured cached rendezvous public : list Multiaddr)
    : list (RelayCandidateSource * list Multiaddr * bool) :=
  let first := (Configured, configured, use_configured_relays policy) in
  let known := [(Cached, cached, use_cached_relays policy); (RendezvousRelay, rendezvous, use_rendezvous_relays policy)] in
  (if prefer_configured_relays policy then first :: known else known ++ [first]) ++ [(PublicFallback, public, true)].

Definition select_startup_relays (policy : RelayDiscoveryPolicy) (configured_relays cached_relays rendezvous_relays
    public_relays : list Multiaddr) : RelaySelectionPlan :=
  if negb (rdp_enabled policy) then
    let selected := take (Z.to_nat (Z.max (max_reservations_policy policy) 1))
                      (rc_addr <$> valid_relay_candidates configured_relays) in {|
    sp_enabled := false; selected_addrs := selected; configured_candidates := len selected; cached_candidates := 0;
    rendezvous_candidates := 0; public_candidates := 0;
    ignored_candidates := sat_add usize_max (sat_add usize_max (len cached_relays) (len rendezvous_relays)) (len public_relays);
    sp_min_reservations := min_reservations policy; sp_max_reservations := max_reservations_policy policy; sp_errors := [] |}
  else
    let '(_, ordered, t) := foldl select_source
      (∅, [], {| ty_configured := 0; ty_cached := 0; ty_rendezvous := 0; ty_public := 0; ty_ignored := 0 |})
      (relay_sources policy configured_relays cached_relays rendezvous_relays public_relays) in
    let selected := take (Z.to_nat (max_reservations_policy policy)) (rc_addr <$> ordered) in {|
    sp_enabled := true; selected_addrs := selected; configured_candidates := ty_configured t;
    cached_candidates := ty_cached t; rendezvous_candidates := ty_rendezvous t; public_candidates := ty_public t;
    ignored_candidates := ty_ignored t; sp_min_reservations := min_reservations policy;
    sp_max_reservations := max_reservations_policy policy;
    sp_errors := if decide (len selected < min_reservations policy) then
      ["relay discovery selected " +:+ pretty (len selected) +:+ " candidates but min_reservations="
        +:+ pretty (min_reservations policy) +:+ " is requested"] else [] |}.
End relay_discovery.

(** * Facts

    Facts about relay selection: the one-pass selector against a reference, and
    when public peers are used. *)

Section selection.
Context {P : PeerIdLib} {PL : PeerIdLaws P} {M : MultiaddrLib}.

(** The reference: the candidates of the enabled sources in order, and of each
    peer the first one. *)
Definition source_candidates (s : RelayCandidateSource * list Multiaddr * bool) : list RelayCandidateAddr :=
  let '(source, addrs, enabled) := s in
  if enabled then omap (fun addr => relay_candidate_addr addr source) addrs else [].

Fixpoint first_per_peer (seen : gset PeerId) (l : list RelayCandidateAddr) : list RelayCandidateAddr :=
  match l with
  | [] => []
  | c :: l' => if decide (rc_peer c ∈ seen) then first_per_peer seen l' else c :: first_per_peer ({[rc_peer c]} ∪ seen) l'
  end.

Lemma first_per_peer_app seen l k :
  first_per_peer seen (l ++ k) = first_per_peer seen l ++ first_per_peer (list_to_set (rc_peer <$> l) ∪ seen) k.
Proof.
  revert seen. induction l as [|c l IH]; intros seen; cbn; [f_equal; set_solver|]. case_decide as Hc.
  - rewrite IH. do 2 f_equal. set_solver.
  - rewrite IH. cbn. do 3 f_equal. set_solver.
Qed.

Lemma first_per_peer_spec seen l :
  NoDup (rc_peer <$> first_per_peer seen l) /\
  (forall c, c ∈ first_per_peer seen l -> c ∈ l /\ rc_peer c ∉ seen) /\
  (forall c, c ∈ l -> rc_peer c ∉ seen -> rc_peer c ∈ rc_peer <$> first_per_peer seen l).
Proof.
  revert seen. induction l as [|c l IH]; intros seen; cbn; [split_and!; [constructor|set_solver..]|]. case_decide as Hc.
  - destruct (IH seen) as (H1 & H2 & H3). split_and!; [done|set_solver|].
    intros c' [->|Hin]%elem_of_cons Hn; [done|by apply H3].
  - destruct (IH ({[rc_peer c]} ∪ seen)) as (H1 & H2 & H3). split_and!.
    + cbn. apply NoDup_cons. split; [|done]. intros (c' & He & Hin)%list_elem_of_fmap. apply H2 in Hin as [_ Hn]. set_solver.
    + intros c' [->|Hin]%elem_of_cons; [set_solver|]. apply H2 in Hin. set_solver.
    + intros c' [->|Hin]%elem_of_cons Hn; cbn; [set_solver|].
      destruct (decide (rc_peer c' = rc_peer c)) as [->|Hne]; [set_solver|]. right. apply H3; set_solver.
Qed.

(** * The pass *)
Definition tally_total (t : Tally) : Z := ty_configured t + ty_cached t + ty_rendezvous t + ty_public t.

Definition tally_ok (t : Tally) : Prop :=
  0 <= ty_configured t /\ 0 <= ty_cached t /\ 0 <= ty_rendezvous t /\ 0 <= ty_public t /\ 0 <= ty_ignored t.

(** What the pass holds after the candidates [l], of [n] addresses. *)
Definition pass_inv (l : list RelayCandidateAddr) (n : Z) (x : gset string * list RelayCandidateAddr * Tally) : Prop :=
  let '(seen, ordered, t) := x in
  ordered = first_per_peer ∅ l /\ seen = list_to_set (peer_to_string ∘ rc_peer <$> l) /\
  tally_ok t /\ tally_total t = len ordered /\ tally_total t + ty_ignored t = n.

Lemma peer_to_string_inj (p q : PeerId) : peer_to_string p = peer_to_string q -> p = q.
Proof using PL. intros H. enough (Ok (E := string) p = Ok q) by congruence. by rewrite <- !peer_parse_to_string, H. Qed.

Lemma pass_ignored l n x k : 0 <= k -> n + k <= usize_max -> pass_inv l n x ->
  pass_inv l (n + k) (x.1, tally_ignored k x.2).
Proof.
  destruct x as [[seen ordered] t]. intros Hk Hn (H1 & H2 & H3 & H4 & H5). unfold pass_inv. cbn.
  unfold tally_ok, tally_total in *. cbn. unfold sat_add. split_and!; try done; lia.
Qed.

Lemma tally_source_ok source t :
  tally_ok t -> tally_total t + ty_ignored t + 1 <= usize_max ->
  tally_ok (tally_source source t) /\ tally_total (tally_source source t) = tally_total t + 1.
Proof.
  unfold tally_ok, tally_total, tally_source. intros Ht Hm. destruct source; cbn; repeat (case_decide; try done); unfold sat_add; lia.
Qed.

Lemma select_addr_inv source l n x addr :
  n + 1 <= usize_max -> pass_inv l n x ->
  pass_inv (l ++ option_list (relay_candidate_addr addr source)) (n + 1) (select_addr source x addr).
Proof using PL.
  intros Hn Hi. pose proof (pass_ignored l n x 1 ltac:(lia) Hn Hi) as Hig.
  destruct x as [[seen ordered] t]. destruct Hi as (H1 & H2 & H3 & H4 & H5). unfold select_addr.
  destruct (relay_candidate_addr addr source) as [c|]; [change (option_list (Some c)) with [c]|by rewrite app_nil_r].
  assert (Hseen : peer_to_string (rc_peer c) ∈ seen <-> rc_peer c ∈ (list_to_set (rc_peer <$> l) : gset PeerId)).
  { subst seen. rewrite !elem_of_list_to_set, !list_elem_of_fmap. split.
    - intros (c' & E & Hin). exists c'. split; [|done]. by apply peer_to_string_inj.
    - intros (c' & E & Hin). exists c'. split; [|done]. cbn. by rewrite E. }
  assert (Happ : first_per_peer ∅ (l ++ [c]) = first_per_peer ∅ l ++ first_per_peer (list_to_set (rc_peer <$> l)) [c]).
  { rewrite first_per_peer_app. do 2 f_equal. set_solver. }
  assert (Hs : forall (A : gset string), A = list_to_set (peer_to_string ∘ rc_peer <$> l) ->
    {[peer_to_string (rc_peer c)]} ∪ A = list_to_set (peer_to_string ∘ rc_peer <$> (l ++ [c]))).
  { intros A ->. rewrite fmap_app, list_to_set_app_L. cbn. set_solver. }
  destruct (decide (peer_to_string (rc_peer c) ∈ seen)) as [Hin|Hout].
  - destruct Hig as (_ & _ & G3 & G4 & G5). unfold pass_inv. cbn [first_per_peer] in Happ.
    rewrite decide_True in Happ by (by apply Hseen). rewrite app_nil_r in Happ. rewrite Happ. split_and!; try done.
    rewrite <- (Hs _ H2). set_solver.
  - destruct (tally_source_ok source t H3) as [G1 G2]; [lia|]. unfold pass_inv. cbn [first_per_peer] in Happ.
    rewrite decide_False in Happ by (by rewrite <- Hseen). rewrite Happ. subst ordered. split_and!; try done.
    + by apply Hs.
    + rewrite G2, H4, len_app. done.
    + destruct source; cbn in *; lia.
Qed.

Lemma select_addrs_inv source addrs l n x :
  n + len addrs <= usize_max -> pass_inv l n x ->
  pass_inv (l ++ omap (fun addr => relay_candidate_addr addr source) addrs) (n + len addrs) (foldl (select_addr source) x addrs).
Proof using PL.
  revert l n x. induction addrs as [|a addrs IH]; intros l n x Hn Hi; cbn [foldl].
  { unfold len. cbn [length omap]. rewrite app_nil_r. by replace (n + Z.of_nat 0) with n by lia. }
  assert (len (a :: addrs) = len addrs + 1) as E by (unfold len; cbn [length]; lia). rewrite E in Hn |- *.
  pose proof (IH (l ++ option_list (relay_candidate_addr a source)) (n + 1) (select_addr source x a)) as H.
  replace (n + (len addrs + 1)) with (n + 1 + len addrs) by lia.
  replace (l ++ omap _ (a :: addrs)) with ((l ++ option_list (relay_candidate_addr a source))
    ++ omap (fun addr => relay_candidate_addr addr source) addrs).
  - apply H; [lia|]. apply select_addr_inv; [unfold len in *; lia|done].
  - rewrite <- app_assoc. f_equal. cbn. by destruct (relay_candidate_addr a source).
Qed.

Definition address_count (sources : list (RelayCandidateSource * list Multiaddr * bool)) : Z :=
  foldr (fun s n => len s.1.2 + n) 0 sources.

Lemma address_count_pos sources : 0 <= address_count sources.
Proof. induction sources as [|s sources IH]; [done|]. change (0 <= len s.1.2 + address_count sources). unfold len. lia. Qed.

Lemma select_sources_inv sources l n x :
  n + address_count sources <= usize_max -> pass_inv l n x ->
  pass_inv (l ++ (sources ≫= source_candidates)) (n + address_count sources) (foldl select_source x sources).
Proof using PL.
  revert l n x. induction sources as [|[[source addrs] enabled] sources IH]; intros l n x Hn Hi; cbn [foldl].
  { cbn. by rewrite app_nil_r, Z.add_0_r. }
  change (address_count ((source, addrs, enabled) :: sources)) with (len addrs + address_count sources) in *. rewrite Z.add_assoc in *.
  pose proof (address_count_pos sources) as Hp.
  rewrite bind_cons, app_assoc. apply IH; [done|]. unfold select_source, source_candidates. destruct enabled.
  - apply select_addrs_inv; [lia|done].
  - rewrite app_nil_r. pose proof (pass_ignored l n x (len addrs)) as H. destruct x as [[seen ordered] t].
    apply H; [unfold len; lia|lia|done].
Qed.

(** The startup relays are the first candidate of every known relay, in
    the order of the configured preference, and every address is accounted for.
    The one-pass selector returns the first [max_reservations] of the reference
    list, which holds of each peer id the first usable address among the
    enabled sources; it counts each of those once under its source and every
    other address as ignored, and reports an error exactly when fewer relays
    than [min_reservations] were found. *)
Theorem relay_selection_exact (policy : RelayDiscoveryPolicy) (configured cached rendezvous public : list Multiaddr) :
  rdp_enabled policy = true ->
  len configured + len cached + len rendezvous + len public <= usize_max ->
  let plan := select_startup_relays policy configured cached rendezvous public in
  let ordered := first_per_peer ∅ (relay_sources policy configured cached rendezvous public ≫= source_candidates) in
  selected_addrs plan = take (Z.to_nat (max_reservations_policy policy)) (rc_addr <$> ordered) /\
  total_candidates plan = len ordered /\
  total_candidates plan + ignored_candidates plan = len configured + len cached + len rendezvous + len public /\
  (sp_errors plan = [] <-> min_reservations policy <= len (selected_addrs plan)).
Proof using PL.
  intros He Hn. cbn zeta. set (sources := relay_sources policy configured cached rendezvous public).
  assert (Hsum : address_count sources = len configured + len cached + len rendezvous + len public).
  { subst sources. unfold relay_sources, address_count. destruct (prefer_configured_relays policy); cbn [foldr app fst snd]; lia. }
  pose proof (select_sources_inv sources [] 0
    (∅, [], {| ty_configured := 0; ty_cached := 0; ty_rendezvous := 0; ty_public := 0; ty_ignored := 0 |})) as H.
  rewrite Z.add_0_l, Hsum in H. specialize (H Hn). unfold select_startup_relays. rewrite He. cbn [negb]. fold sources.
  destruct (foldl select_source _ sources) as [[seen ordered] t]. cbn [app] in H.
  destruct H as (H1 & _ & H3 & H4 & H5).
  { unfold pass_inv, tally_ok, tally_total. cbn. split_and!; done. }
  rewrite <- H1. cbn [selected_addrs total_candidates configured_candidates cached_candidates rendezvous_candidates
    public_candidates ignored_candidates sp_errors].
  assert (E : total_candidates {| sp_enabled := true; selected_addrs := take (Z.to_nat (max_reservations_policy policy)) (rc_addr <$> ordered);
    configured_candidates := ty_configured t; cached_candidates := ty_cached t; rendezvous_candidates := ty_rendezvous t;
    public_candidates := ty_public t; ignored_candidates := ty_ignored t; sp_min_reservations := min_reservations policy;
    sp_max_reservations := max_reservations_policy policy; sp_errors := [] |} = tally_total t).
  { unfold total_candidates, tally_total, tally_ok in *. cbn. unfold sat_add. lia. }
  unfold total_candidates in *. cbn in E |- *. split_and!; try done; [lia|lia|].
  case_decide; split; (done || lia).
Qed.

(** With the policy disabled the configured relays are taken as they are: an
    address given twice is selected twice. *)
Lemma disabled_selection_keeps_duplicates (policy : RelayDiscoveryPolicy) (addr : Multiaddr) :
  rdp_enabled policy = false -> 2 <= max_reservations_policy policy -> is_Some (relay_candidate_addr addr Configured) ->
  selected_addrs (select_startup_relays policy [addr; addr] [] [] []) = [addr; addr].
Proof.
  intros He Hm [c Hc]. unfold select_startup_relays. rewrite He. cbn [negb selected_addrs]. unfold valid_relay_candidates.
  cbn. rewrite Hc. assert (Ha : rc_addr c = addr).
  { unfold relay_candidate_addr in Hc. destruct (_ || _); [done|]. destruct (relay_peer_id addr); [|done]. by injection Hc as <-. }
  cbn. rewrite Ha. apply take_ge. cbn. lia.
Qed.
End selection.
