(* ===== verification/StackDiscovery.v ===== *)
(** The discovery glue of the swarm (crates/stack/discovery.rs and
    crates/stack/discovery/identify_state.rs): the startup dial plan, bootstrap
    seeding, relay reservations, and the bounded memory of the addresses that
    Identify reports, which the Kademlia routing table follows.

    The swarm is what its calls leave behind: the list of [SwarmAction]s. *)

From S2P Require Import Prelude Text Bytes BTree Common AppMessage Relay PeerCache PeerBook ConnectionStrategy.

#[local] Open Scope Z_scope.

Section stack.
Context {P : PeerIdLib} {M : MultiaddrLib}.

Inductive SwarmAction : Type :=
| KadAddAddress (peer : PeerId) (addr : Multiaddr)
| KadRemoveAddress (peer : PeerId) (addr : Multiaddr)
| KadBootstrap
| AddPeerAddress (peer : PeerId) (addr : Multiaddr)
| DialAddr (addr : Multiaddr)
| AllowDcutrPeer (peer : PeerId)
| RemoveExternalAddress (addr : Multiaddr).

Definition add_peer_address_to_discovery (peer : PeerId) (addr : Multiaddr) : list SwarmAction :=
  [KadAddAddress peer addr; AddPeerAddress peer addr].

(** * The startup plan *)
Record StartupDiscoveryPlan := {
  dial_addrs : list Multiaddr;
  bootstrap_peer_count : Z;
  bootstrap_seed_count : Z;
  rendezvous_seed_count : Z;
  cached_peer_count : Z;
  public_bootstrap_seed_count : Z;
  public_fallback_used : bool;
}.

Definition push_dial_addr (known : list Multiaddr) (addr : Multiaddr) : list Multiaddr :=
  if decide (is_Some (extract_p2p_peer_id addr) /\ addr ∉ known) then known ++ [addr] else known.

Definition startup_discovery_plan_with_public (bootstrap_peers bootstrap_seed_peers rendezvous_peers cached_peers
    public_bootstrap_seed_peers : list Multiaddr) (public_fallback_used : bool) : StartupDiscoveryPlan := {|
  dial_addrs := foldl push_dial_addr []
    (bootstrap_peers ++ bootstrap_seed_peers ++ rendezvous_peers ++ cached_peers ++ public_bootstrap_seed_peers);
  bootstrap_peer_count := len bootstrap_peers; bootstrap_seed_count := len bootstrap_seed_peers;
  rendezvous_seed_count := len rendezvous_peers; cached_peer_count := len cached_peers;
  public_bootstrap_seed_count := len public_bootstrap_seed_peers; public_fallback_used := public_fallback_used |}.

Definition startup_discovery_plan (bootstrap_peers bootstrap_seed_peers rendezvous_peers cached_peers : list Multiaddr)
    : StartupDiscoveryPlan :=
  startup_discovery_plan_with_public bootstrap_peers bootstrap_seed_peers rendezvous_peers cached_peers [] false.

Definition seed_addr (local_peer : PeerId) (addr : Multiaddr) : list SwarmAction :=
  match extract_p2p_peer_id addr with
  | Some peer =>
      if decide (peer = local_peer) then [] else add_peer_address_to_discovery peer addr ++ [DialAddr addr]
  | None => []
  end.

Definition seed_bootstrap (local_peer : PeerId) (addrs : list Multiaddr) : list SwarmAction :=
  mjoin (seed_addr local_peer <$> addrs) ++ [KadBootstrap].

(** * Relay reservations *)
Record RelayReservationPlan := {
  plan_attempted : Z;
  plan_listen_addrs : list Multiaddr;
  plan_listeners : list (Z * Multiaddr);
  plan_errors : list string;
}.

Definition RelayReservationPlan_default : RelayReservationPlan :=
  {| plan_attempted := 0; plan_listen_addrs := []; plan_listeners := []; plan_errors := [] |}.

Definition plan_error (plan : RelayReservationPlan) (line : string) : RelayReservationPlan := {|
  plan_attempted := plan_attempted plan; plan_listen_addrs := plan_listen_addrs plan;
  plan_listeners := plan_listeners plan; plan_errors := plan_errors plan ++ [line] |}.

(** [listen_on addr] is the answer of the swarm. *)
Definition reserve_relay (local_peer : PeerId) (listen_on : Multiaddr -> result Z string)
    (st : list SwarmAction * RelayReservationPlan) (relay_addr : Multiaddr) : list SwarmAction * RelayReservationPlan :=
  let '(acts, plan) := st in
  let known := match extract_p2p_peer_id relay_addr with
               | Some peer => if decide (peer = local_peer) then None else Some (add_peer_address_to_discovery peer relay_addr)
               | None => Some []
               end in
  match known with
  | None => (acts, plan_error plan ("relay reservation skipped local peer address: " +:+ addr_to_string relay_addr))
  | Some new =>
      let acts := acts ++ new in
      match relay_reservation_addr relay_addr with
      | None => (acts, plan_error plan
          ("relay peer address cannot be converted to reservation address: " +:+ addr_to_string relay_addr))
      | Some listen_addr =>
          match listen_on listen_addr with
          | Ok listener => (acts, {|
              plan_attempted := sat_add usize_max (plan_attempted plan) 1;
              plan_listeners := plan_listeners plan ++ [(listener, listen_addr)];
              plan_listen_addrs := plan_listen_addrs plan ++ [listen_addr]; plan_errors := plan_errors plan |})
          | Err err => (acts, plan_error plan
              ("relay reservation listen_on failed for " +:+ addr_to_string listen_addr +:+ ": " +:+ err))
          end
      end
  end.

Definition reserve_selected_relays (local_peer : PeerId) (listen_on : Multiaddr -> result Z string)
    (relay_addrs : list Multiaddr) : list SwarmAction * RelayReservationPlan :=
  foldl (reserve_relay local_peer listen_on) ([], RelayReservationPlan_default) relay_addrs.

(** * The Identify address memory *)
Definition MAX_IDENTIFY_ADDRS_PER_PEER : Z := 8.
Definition MAX_IDENTIFY_ROUTING_PEERS : Z := 2048.
Definition MAX_OBSERVED_LOCAL_ADDRS : Z := 32.

Record IdentifyAddressState := {
  ia_by_peer : gmap PeerId (list Multiaddr);
  ia_peer_order : list PeerId;
  ia_observed_local_addrs : list Multiaddr;
}.

Definition IdentifyAddressState_default : IdentifyAddressState :=
  {| ia_by_peer := ∅; ia_peer_order := []; ia_observed_local_addrs := [] |}.

Definition record_observed_local_addr (s : IdentifyAddressState) (address : Multiaddr) : bool * IdentifyAddressState :=
  if decide (address ∈ ia_observed_local_addrs s) then (false, s)
  else
    let kept := if decide (MAX_OBSERVED_LOCAL_ADDRS <= len (ia_observed_local_addrs s)) then tail (ia_observed_local_addrs s)
                else ia_observed_local_addrs s in
    (true, {| ia_by_peer := ia_by_peer s; ia_peer_order := ia_peer_order s; ia_observed_local_addrs := kept ++ [address] |}).

(** The first loop of [record]: the oldest addresses of the peer leave. *)
Definition trim_addrs_step (peer : PeerId) (st : list Multiaddr * list SwarmAction)
    : option (list Multiaddr * list SwarmAction) :=
  if decide (MAX_IDENTIFY_ADDRS_PER_PEER < len st.1) then
    match st.1 with
    | [] => None
    | expired :: rest => Some (rest, st.2 ++ [KadRemoveAddress peer expired])
    end
  else None.

(** The second loop: the oldest peers leave with their addresses. *)
Definition trim_peers_step (st : gmap PeerId (list Multiaddr) * list PeerId * list SwarmAction)
    : option (gmap PeerId (list Multiaddr) * list PeerId * list SwarmAction) :=
  let '(by_peer, order, acts) := st in
  if decide (MAX_IDENTIFY_ROUTING_PEERS < Z.of_nat (size by_peer)) then
    match order with
    | [] => None
    | expired :: rest =>
        match by_peer !! expired with
        | None => Some (by_peer, rest, acts)
        | Some addresses => Some (delete expired by_peer, rest, acts ++ (KadRemoveAddress expired <$> addresses))
        end
    end
  else None.

Definition identify_record (s : IdentifyAddressState) (peer : PeerId) (address : Multiaddr)
    : IdentifyAddressState * list SwarmAction :=
  let is_new_peer := negb (bool_decide (is_Some (ia_by_peer s !! peer))) in
  let addresses := default [] (ia_by_peer s !! peer) in
  if decide (address ∈ addresses) then (s, [])
  else
    let '(addresses, acts) := loop (trim_addrs_step peer) (S (length addresses))
      (addresses ++ [address], [KadAddAddress peer address]) in
    let by_peer := <[peer := addresses]> (ia_by_peer s) in
    let order := if is_new_peer then ia_peer_order s ++ [peer] else ia_peer_order s in
    let '(by_peer, order, acts) := loop trim_peers_step (length order) (by_peer, order, acts) in
    ({| ia_by_peer := by_peer; ia_peer_order := order; ia_observed_local_addrs := ia_observed_local_addrs s |}, acts).

(** * [on_identify_event] of a received Identify *)
Definition persistent_source (s : PeerSource) : bool :=
  match s with
  | Manual | SourcePeerCache | DhtProvider | LanDiscovery | Rendezvous | PublicRendezvous => true
  | _ => false
  end.

Record IdentifyCtx := {
  id_actions : list SwarmAction;
  id_cache_writes : PeerCacheWriteBatch;
  id_peer_book : PeerBook;
  id_addresses : IdentifyAddressState;
}.

Definition identify_addr (now : Z) (peer : PeerId) (distribute persist : bool) (c : IdentifyCtx) (addr : Multiaddr)
    : IdentifyCtx :=
  let '(addresses, acts) := identify_record (id_addresses c) peer addr in {|
  id_actions := id_actions c ++ acts ++ if distribute then [AddPeerAddress peer addr] else [];
  id_cache_writes := if persist then record_seen (id_cache_writes c) peer addr else id_cache_writes c;
  id_peer_book := if distribute then record_addr (id_peer_book c) peer addr Connected now else id_peer_book c;
  id_addresses := addresses |}.

Definition on_identify_event (now : Z) (peer : PeerId) (listen_addrs : list Multiaddr) (c : IdentifyCtx) : IdentifyCtx :=
  let known_record := record (id_peer_book c) peer in
  let distribute := bool_decide (is_Some known_record) in
  let persist := match known_record with
                 | Some r => negb (bool_decide (pr_namespaces r = ∅)) || existsb persistent_source (elements (pr_sources r))
                 | None => false
                 end in
  foldl (identify_addr now peer distribute persist) c (take (Z.to_nat MAX_IDENTIFY_ADDRS_PER_PEER) listen_addrs).
End stack.

(** * Facts

    Facts about the discovery glue: the startup plan holds every identity-bound
    address once, and the routing table holds what the Identify memory holds. *)

Section stack_facts.
Context {P : PeerIdLib} {M : MultiaddrLib}.

(** * The startup plan *)
Lemma push_dial_addrs l known :
  NoDup known ->
  let out := foldl push_dial_addr known l in
  NoDup out /\ exists new, out = known ++ new /\ new `sublist_of` l /\
    forall a, a ∈ out <-> a ∈ known \/ (a ∈ l /\ is_Some (extract_p2p_peer_id a)).
Proof.
  revert known. induction l as [|a l IH]; intros known Hk; cbn.
  { split; [done|]. exists []. rewrite app_nil_r. split; [done|]. split; [done|]. set_solver. }
  destruct (decide (is_Some (extract_p2p_peer_id a) /\ a ∉ known)) as [Hd|Hd].
  - assert (push_dial_addr known a = known ++ [a]) as -> by (unfold push_dial_addr; by rewrite decide_True).
    destruct Hd as [Hp Hn]. destruct (IH (known ++ [a])) as (Hnd & new & Ho & Hs & Hin).
    { apply NoDup_app. split; [done|]. split; [set_solver|apply NoDup_singleton]. }
    split; [done|]. exists (a :: new). split; [by rewrite Ho, <- app_assoc|].
    split; [by constructor|]. intros b. rewrite Hin. set_solver.
  - assert (push_dial_addr known a = known) as -> by (unfold push_dial_addr; by rewrite decide_False).
    destruct (IH known Hk) as (Hnd & new & Ho & Hs & Hin). split; [done|]. exists new. split; [done|].
    split; [by constructor|]. intros b. rewrite Hin. destruct (decide (a ∈ known)); [set_solver|].
    assert (~ is_Some (extract_p2p_peer_id a)) by tauto. set_solver.
Qed.

(** The startup plan dials every address of the sources that names a
    peer, each once, in the order configured, seeds, rendezvous, cache, public
    seeds. *)
Theorem startup_plan_exact (bootstrap seeds rendezvous cached public : list Multiaddr) (used : bool) :
  let all := bootstrap ++ seeds ++ rendezvous ++ cached ++ public in
  let plan := startup_discovery_plan_with_public bootstrap seeds rendezvous cached public used in
  NoDup (dial_addrs plan) /\ dial_addrs plan `sublist_of` all /\
  (forall a, a ∈ dial_addrs plan <-> a ∈ all /\ is_Some (extract_p2p_peer_id a)) /\
  bootstrap_peer_count plan + bootstrap_seed_count plan + rendezvous_seed_count plan + cached_peer_count plan
    + public_bootstrap_seed_count plan = len all.
Proof.
  cbn zeta. destruct (push_dial_addrs (bootstrap ++ seeds ++ rendezvous ++ cached ++ public) [])
    as (Hnd & new & Ho & Hs & Hin); [constructor|].
  unfold startup_discovery_plan_with_public. cbn [dial_addrs bootstrap_peer_count bootstrap_seed_count
    rendezvous_seed_count cached_peer_count public_bootstrap_seed_count].
  split; [done|]. split; [by rewrite Ho|]. split; [|rewrite !len_app; lia]. intros a. rewrite Hin. set_solver.
Qed.

(** * The Identify memory *)
(** The last call to Kademlia about an address: [Some true] for [add_address],
    [Some false] for [remove_address].  What Kademlia makes of the calls is its own
    affair. *)
Definition last_call (log : list SwarmAction) (p : PeerId) (a : Multiaddr) : option bool :=
  foldl (fun last act =>
    match act with
    | KadAddAddress q b => if decide ((q, b) = (p, a)) then Some true else last
    | KadRemoveAddress q b => if decide ((q, b) = (p, a)) then Some false else last
    | _ => last
    end) None log.

(** The addresses that were added and not removed since. *)
Definition note_call (standing : gset (PeerId * Multiaddr)) (act : SwarmAction) : gset (PeerId * Multiaddr) :=
  match act with
  | KadAddAddress p a => {[(p, a)]} ∪ standing
  | KadRemoveAddress p a => standing ∖ {[(p, a)]}
  | _ => standing
  end.

Lemma standing_last_call log p a : (p, a) ∈ foldl note_call ∅ log <-> last_call log p a = Some true.
Proof.
  induction log as [|act log IH] using rev_ind; [unfold last_call; cbn; set_solver|].
  unfold last_call in *. rewrite !foldl_app. cbn [foldl].
  destruct act; cbn [note_call]; try done; case_decide as Hd; set_solver.
Qed.

Lemma note_removals table p l : foldl note_call table (KadRemoveAddress p <$> l) = table ∖ list_to_set (pair p <$> l).
Proof.
  revert table. induction l as [|a l IH]; intros table; cbn; [set_solver|]. rewrite IH. set_solver.
Qed.

Record memory_inv (peers : Z) (s : IdentifyAddressState) (table : gset (PeerId * Multiaddr)) : Prop := {
  mi_order : NoDup (ia_peer_order s);
  mi_peers : forall p, p ∈ ia_peer_order s <-> is_Some (ia_by_peer s !! p);
  mi_addrs : forall p l, ia_by_peer s !! p = Some l -> NoDup l /\ len l <= MAX_IDENTIFY_ADDRS_PER_PEER;
  mi_size : Z.of_nat (size (ia_by_peer s)) <= peers;
  mi_table : forall p a, (p, a) ∈ table <-> exists l, ia_by_peer s !! p = Some l /\ a ∈ l;
}.

(** The first loop removes the oldest address when there are nine. *)
Lemma trim_addrs p n l acts :
  len l <= MAX_IDENTIFY_ADDRS_PER_PEER + 1 ->
  loop (trim_addrs_step p) (S n) (l, acts) =
    if decide (len l <= MAX_IDENTIFY_ADDRS_PER_PEER) then (l, acts)
    else (tail l, acts ++ (KadRemoveAddress p <$> take 1 l)).
Proof.
  intros Hl. cbn [loop]. unfold trim_addrs_step at 1. cbn [fst snd]. case_decide as Hd.
  - rewrite decide_False by lia. destruct l as [|a l]; [done|]. apply loop_stop. unfold trim_addrs_step. cbn.
    rewrite decide_False; [done|]. unfold len in *. cbn in *. lia.
  - by rewrite decide_True by lia.
Qed.

(** The second loop removes the oldest peer when there is one too many. *)
Lemma trim_peers by_peer p order acts l :
  by_peer !! p = Some l -> Z.of_nat (size by_peer) <= MAX_IDENTIFY_ROUTING_PEERS + 1 ->
  loop trim_peers_step (length (p :: order)) (by_peer, p :: order, acts) =
    if decide (Z.of_nat (size by_peer) <= MAX_IDENTIFY_ROUTING_PEERS) then (by_peer, p :: order, acts)
    else (delete p by_peer, order, acts ++ (KadRemoveAddress p <$> l)).
Proof.
  intros Hp Hs. cbn [length loop]. unfold trim_peers_step at 1. case_decide as Hd.
  - rewrite Hp. rewrite decide_False by lia. apply loop_stop. unfold trim_peers_step.
    rewrite decide_False; [done|]. rewrite map_size_delete, Hp. unfold MAX_IDENTIFY_ROUTING_PEERS in *. lia.
  - by rewrite decide_True by lia.
Qed.

(** A new address for the peer, the first when the peer is new. *)
Lemma learned_inv s table p a l1 acts1 :
  memory_inv MAX_IDENTIFY_ROUTING_PEERS s table ->
  a ∉ default [] (ia_by_peer s !! p) ->
  loop (trim_addrs_step p) (S (length (default [] (ia_by_peer s !! p))))
    (default [] (ia_by_peer s !! p) ++ [a], [KadAddAddress p a]) = (l1, acts1) ->
  memory_inv (MAX_IDENTIFY_ROUTING_PEERS + 1)
    {| ia_by_peer := <[p := l1]> (ia_by_peer s);
       ia_peer_order := if bool_decide (is_Some (ia_by_peer s !! p)) then ia_peer_order s else ia_peer_order s ++ [p];
       ia_observed_local_addrs := ia_observed_local_addrs s |} (foldl note_call table acts1).
Proof.
  intros [Ho Hp Ha Hs Ht] Hn E. set (l0 := default [] (ia_by_peer s !! p)) in *.
  assert (Hl0 : NoDup l0 /\ len l0 <= MAX_IDENTIFY_ADDRS_PER_PEER).
  { subst l0. destruct (ia_by_peer s !! p) eqn:El; [by eapply Ha|]. split; [constructor|done]. }
  assert (Ht0 : forall b, (p, b) ∈ table <-> b ∈ l0).
  { intros b. rewrite Ht. subst l0. destruct (ia_by_peer s !! p); cbn; [naive_solver|set_solver]. }
  destruct Hl0 as [Hnd Hlen]. rewrite trim_addrs in E by (rewrite len_app; unfold len in *; cbn; lia).
  assert (Hspec : NoDup l1 /\ len l1 <= MAX_IDENTIFY_ADDRS_PER_PEER /\
    (forall b, (p, b) ∈ foldl note_call table acts1 <-> b ∈ l1) /\
    (forall q b, q ≠ p -> (q, b) ∈ foldl note_call table acts1 <-> (q, b) ∈ table)).
  { assert (Hnd1 : NoDup (l0 ++ [a])) by (apply NoDup_app; split; [done|]; split; [set_solver|apply NoDup_singleton]).
    case_decide as Hd; simplify_eq.
    - split; [done|]. split; [done|]. cbn. split; set_solver.
    - destruct l0 as [|x l0]; [done|]. cbn in *. apply NoDup_cons in Hnd1 as [Hx Hnd1].
      split; [done|]. split; [rewrite len_app in *; unfold len in *; cbn in *; lia|]. split; set_solver. }
  destruct Hspec as (H1 & H2 & H3 & H4). split; cbn.
  - case_bool_decide as Hb; [done|]. apply NoDup_app. split; [done|]. split; [|apply NoDup_singleton].
    intros q Hq ->%list_elem_of_singleton. by apply Hb, Hp.
  - intros q. destruct (decide (q = p)) as [->|Hq].
    + rewrite lookup_insert_eq. pose proof (Hp p) as Hpp. split; [eauto|]. intros _. case_bool_decide; [by apply Hpp|set_solver].
    + rewrite lookup_insert_ne by done. pose proof (Hp q) as Hpq. case_bool_decide; [done|].
      rewrite elem_of_app, list_elem_of_singleton. naive_solver.
  - intros q l. destruct (decide (q = p)) as [->|Hq]; [rewrite lookup_insert_eq; by intros [= <-]|].
    rewrite lookup_insert_ne by done. apply Ha.
  - rewrite map_size_insert. destruct (ia_by_peer s !! p); cbn; lia.
  - intros q b. destruct (decide (q = p)) as [->|Hq].
    + rewrite lookup_insert_eq, H3. naive_solver.
    + rewrite lookup_insert_ne, H4, Ht by done. done.
Qed.

(** The eviction of the oldest peer. *)
Lemma evicted_inv s table acts :
  memory_inv (MAX_IDENTIFY_ROUTING_PEERS + 1) s (foldl note_call table acts) ->
  let '(by_peer, order, acts') := loop trim_peers_step (length (ia_peer_order s)) (ia_by_peer s, ia_peer_order s, acts) in
  memory_inv MAX_IDENTIFY_ROUTING_PEERS
    {| ia_by_peer := by_peer; ia_peer_order := order; ia_observed_local_addrs := ia_observed_local_addrs s |}
    (foldl note_call table acts').
Proof.
  intros [Ho Hp Ha Hs Ht]. destruct s as [by_peer order observed]. cbn [ia_by_peer ia_peer_order ia_observed_local_addrs] in *.
  destruct order as [|p order].
  { cbn. split; cbn; try done. destruct (decide (by_peer = ∅)) as [->|Hne]; [by rewrite map_size_empty|].
    apply map_choose in Hne as (q & l & Hq). exfalso. specialize (Hp q). rewrite Hq in Hp. set_solver. }
  destruct (proj1 (Hp p)) as [l Hl]; [left|]. rewrite (trim_peers _ _ _ _ l) by done. case_decide as Hd; [by split|].
  rewrite foldl_app, note_removals. apply NoDup_cons in Ho as [Hpo Ho]. split; cbn.
  - done.
  - intros q. destruct (decide (q = p)) as [->|Hq].
    + rewrite lookup_delete_eq. split; [done|]. by intros [? ?].
    + rewrite lookup_delete_ne by done. rewrite <- (Hp q). set_solver.
  - intros q k. rewrite lookup_delete_Some. intros [_ Hk]. by eapply Ha.
  - rewrite map_size_delete, Hl. unfold MAX_IDENTIFY_ROUTING_PEERS in *. cbn. lia.
  - intros q b. rewrite elem_of_difference, elem_of_list_to_set, list_elem_of_fmap, Ht.
    destruct (decide (q = p)) as [->|Hq].
    + rewrite lookup_delete_eq, Hl. naive_solver.
    + rewrite lookup_delete_ne by done. naive_solver.
Qed.

Lemma identify_record_inv s table p a :
  memory_inv MAX_IDENTIFY_ROUTING_PEERS s table ->
  let '(s', acts) := identify_record s p a in memory_inv MAX_IDENTIFY_ROUTING_PEERS s' (foldl note_call table acts).
Proof.
  intros Hs. unfold identify_record. case_decide as Hd; [done|].
  destruct (loop (trim_addrs_step p) _ _) as [l1 acts1] eqn:E. pose proof (learned_inv _ _ _ _ _ _ Hs Hd E) as H1.
  apply evicted_inv in H1. cbn [ia_by_peer ia_peer_order ia_observed_local_addrs] in H1.
  replace (if negb (bool_decide (is_Some (ia_by_peer s !! p))) then ia_peer_order s ++ [p] else ia_peer_order s)
    with (if bool_decide (is_Some (ia_by_peer s !! p)) then ia_peer_order s else ia_peer_order s ++ [p])
    by by destruct (bool_decide (is_Some (ia_by_peer s !! p))).
  destruct (loop trim_peers_step _ _) as [[by_peer order] acts2]. exact H1.
Qed.

Definition identify_run (st : IdentifyAddressState * list SwarmAction) (e : PeerId * Multiaddr)
    : IdentifyAddressState * list SwarmAction :=
  let '(s, acts) := identify_record st.1 e.1 e.2 in (s, st.2 ++ acts).

(** C40: The calls to Kademlia follow the Identify memory: whatever addresses
    peers report, in whatever order, the last call the memory made about an address
    of a peer is the one that adds it exactly when that address is remembered, so
    that every address the memory has dropped, alone or with its peer, was also
    taken back; and at most eight addresses of each of at most 2048 peers are
    remembered, without a duplicate. *)
Theorem kademlia_calls_follow_identify_memory (reports : list (PeerId * Multiaddr)) :
  let '(s, calls) := foldl identify_run (IdentifyAddressState_default, []) reports in
  (forall p a, last_call calls p a = Some true <-> exists l, ia_by_peer s !! p = Some l /\ a ∈ l) /\
  Z.of_nat (size (ia_by_peer s)) <= MAX_IDENTIFY_ROUTING_PEERS /\
  (forall p l, ia_by_peer s !! p = Some l -> NoDup l /\ len l <= MAX_IDENTIFY_ADDRS_PER_PEER).
Proof.
  assert (H : forall st, memory_inv MAX_IDENTIFY_ROUTING_PEERS st.1 (foldl note_call ∅ st.2) ->
    let '(s, acts) := foldl identify_run st reports in memory_inv MAX_IDENTIFY_ROUTING_PEERS s (foldl note_call ∅ acts)).
  { induction reports as [|[p a] reports IH]; intros [s acts] Hs; cbn [foldl]; [exact Hs|]. apply IH.
    unfold identify_run. cbn [fst snd]. pose proof (identify_record_inv s _ p a Hs) as H1.
    destruct (identify_record s p a) as [s' acts']. cbn. by rewrite foldl_app. }
  specialize (H (IdentifyAddressState_default, [])).
  destruct (foldl identify_run _ reports) as [s acts]. destruct H as [_ _ Ha Hs Ht].
  - split; cbn.
    + apply NoDup_nil_2.
    + intros p. rewrite lookup_empty. split; [set_solver|by intros [? ?]].
    + intros p l. by rewrite lookup_empty.
    + rewrite map_size_empty. done.
    + intros p a. rewrite lookup_empty. set_solver.
  - split; [|split; [exact Hs|exact Ha]]. intros p a. by rewrite <- standing_last_call.
Qed.
End stack_facts.
