(* ===== verification/Rendezvous.v ===== *)
(** Rendezvous (crates/connectivity/rendezvous.rs, [refresh_rendezvous] and the
    event handlers of crates/stack/discovery.rs, crates/node/events/rendezvous.rs):
    registering this node's namespaces with rendezvous peers and discovering the
    peers that registered there. *)

From S2P Require Import Prelude Bytes Text BTree Common AppMessage Observability PeerBook PeerCache ConnectionStrategy StackDiscovery.

#[local] Open Scope Z_scope.

(** * The [libp2p_rendezvous] crate

    A namespace is a text the crate accepts; a cookie is opaque; the limits are
    its public constants. *)
Class RendezvousLib := {
  RzNamespace : Type;
  rz_namespace_new : string -> result RzNamespace string;
  rz_namespace_text : RzNamespace -> string;
  Cookie : Type;
  DEFAULT_TTL : Z;
  MIN_TTL : Z;
  MAX_TTL : Z;
  MAX_REGISTRATION_PEER : Z;
  MAX_REGISTRATIONS_TOTAL : Z;
  COOKIES_CACHE_SIZE : Z;
}.

Class RendezvousLaws (R : RendezvousLib) : Prop := {
  rz_namespace_display s n : rz_namespace_new s = Ok n -> rz_namespace_text n = s;
}.

Definition MAX_DISCOVERED_PEER_HISTORY : Z := 8192.

Section rendezvous.
Context {P : PeerIdLib} {M : MultiaddrLib} {R : RendezvousLib}.

(** * Configuration *)
Record RendezvousConfig := {
  rz_client_enabled : bool;
  rz_server_enabled : bool;
  rz_namespace : string;
  rz_register : bool;
  rz_discover : bool;
  rz_register_ttl_secs : Z;
  rz_discover_limit : Z;
  rz_server_min_ttl_secs : Z;
  rz_server_max_ttl_secs : Z;
  rz_server_max_registrations_per_peer : Z;
  rz_server_max_registrations_total : Z;
  rz_server_max_stored_cookies : Z;
}.

Definition RendezvousConfig_default : RendezvousConfig := {|
  rz_client_enabled := true; rz_server_enabled := false; rz_namespace := "p2p-net"; rz_register := true;
  rz_discover := true; rz_register_ttl_secs := DEFAULT_TTL; rz_discover_limit := 64;
  rz_server_min_ttl_secs := MIN_TTL; rz_server_max_ttl_secs := MAX_TTL;
  rz_server_max_registrations_per_peer := MAX_REGISTRATION_PEER;
  rz_server_max_registrations_total := MAX_REGISTRATIONS_TOTAL; rz_server_max_stored_cookies := COOKIES_CACHE_SIZE |}.

Definition rendezvous_config_namespace (c : RendezvousConfig) : result RzNamespace NetError :=
  map_err (rz_namespace_new (rz_namespace c)) (fun err =>
    config_error ("discovery.rendezvous.namespace `" +:+ rz_namespace c +:+ "` is invalid: " +:+ err)).

Definition RendezvousConfig_validate (c : RendezvousConfig) : result unit NetError :=
  let? _ := reject_if (bool_decide (trim (rz_namespace c) = "")) (config_error "discovery.rendezvous.namespace must not be empty") in
  let? _ := rendezvous_config_namespace c in
  let? _ := reject_if (bool_decide (rz_register_ttl_secs c = 0)) (config_error "discovery.rendezvous.register_ttl_secs must be at least 1") in
  let? _ := reject_if (bool_decide (rz_server_min_ttl_secs c = 0)) (config_error "discovery.rendezvous.server_min_ttl_secs must be at least 1") in
  let? _ := reject_if (bool_decide (rz_server_max_ttl_secs c < rz_server_min_ttl_secs c))
    (config_error "discovery.rendezvous.server_max_ttl_secs must be >= server_min_ttl_secs") in
  let? _ := reject_if (bool_decide (rz_server_max_registrations_per_peer c = 0))
    (config_error "discovery.rendezvous.server_max_registrations_per_peer must be at least 1") in
  let? _ := reject_if (bool_decide (rz_server_max_registrations_total c = 0))
    (config_error "discovery.rendezvous.server_max_registrations_total must be at least 1") in
  let? _ := reject_if (bool_decide (rz_server_max_registrations_total c < rz_server_max_registrations_per_peer c))
    (config_error "discovery.rendezvous.server_max_registrations_per_peer cannot exceed server_max_registrations_total") in
  reject_if (bool_decide (rz_server_max_stored_cookies c = 0))
    (config_error "discovery.rendezvous.server_max_stored_cookies must be at least 1").

Definition discover_limit (c : RendezvousConfig) : option Z :=
  if decide (0 < rz_discover_limit c) then Some (rz_discover_limit c) else None.

(** * State *)
Record RendezvousState := {
  registered_with : gset PeerId;
  register_inflight : gset PeerId;
  discover_inflight : gset PeerId;
  registered_namespaces : gset (PeerId * string);
  register_inflight_namespaces : gset (PeerId * string);
  discover_inflight_namespaces : gset (PeerId * string);
  discovered_peers : gset PeerId;
  cookies : gmap PeerId Cookie;
  cookies_by_namespace : gmap (PeerId * string) Cookie;
  register_attempts : Z;
  register_failures : Z;
  discover_attempts : Z;
  discover_failures : Z;
  server_registrations : Z;
  server_discoveries_served : Z;
  rz_server_errors : Z;
}.

Definition upd_registered_with (g : gset PeerId -> gset PeerId) (s : RendezvousState) : RendezvousState := {|
  registered_with := g (registered_with s); register_inflight := register_inflight s;
  discover_inflight := discover_inflight s; registered_namespaces := registered_namespaces s;
  register_inflight_namespaces := register_inflight_namespaces s;
  discover_inflight_namespaces := discover_inflight_namespaces s; discovered_peers := discovered_peers s;
  cookies := cookies s; cookies_by_namespace := cookies_by_namespace s; register_attempts := register_attempts s;
  register_failures := register_failures s; discover_attempts := discover_attempts s;
  discover_failures := discover_failures s; server_registrations := server_registrations s;
  server_discoveries_served := server_discoveries_served s; rz_server_errors := rz_server_errors s |}.
Definition upd_register_inflight (g : gset PeerId -> gset PeerId) (s : RendezvousState) : RendezvousState := {|
  registered_with := registered_with s; register_inflight := g (register_inflight s);
  discover_inflight := discover_inflight s; registered_namespaces := registered_namespaces s;
  register_inflight_namespaces := register_inflight_namespaces s;
  discover_inflight_namespaces := discover_inflight_namespaces s; discovered_peers := discovered_peers s;
  cookies := cookies s; cookies_by_namespace := cookies_by_namespace s; register_attempts := register_attempts s;
  register_failures := register_failures s; discover_attempts := discover_attempts s;
  discover_failures := discover_failures s; server_registrations := server_registrations s;
  server_discoveries_served := server_discoveries_served s; rz_server_errors := rz_server_errors s |}.
Definition upd_discover_inflight (g : gset PeerId -> gset PeerId) (s : RendezvousState) : RendezvousState := {|
  registered_with := registered_with s; register_inflight := register_inflight s;
  discover_inflight := g (discover_inflight s); registered_namespaces := registered_namespaces s;
  register_inflight_namespaces := register_inflight_namespaces s;
  discover_inflight_namespaces := discover_inflight_namespaces s; discovered_peers := discovered_peers s;
  cookies := cookies s; cookies_by_namespace := cookies_by_namespace s; register_attempts := register_attempts s;
  register_failures := register_failures s; discover_attempts := discover_attempts s;
  discover_failures := discover_failures s; server_registrations := server_registrations s;
  server_discoveries_served := server_discoveries_served s; rz_server_errors := rz_server_errors s |}.
Definition upd_registered_namespaces (g : gset (PeerId * string) -> gset (PeerId * string)) (s : RendezvousState) : RendezvousState := {|
  registered_with := registered_with s; register_inflight := register_inflight s;
  discover_inflight := discover_inflight s; registered_namespaces := g (registered_namespaces s);
  register_inflight_namespaces := register_inflight_namespaces s;
  discover_inflight_namespaces := discover_inflight_namespaces s; discovered_peers := discovered_peers s;
  cookies := cookies s; cookies_by_namespace := cookies_by_namespace s; register_attempts := register_attempts s;
  register_failures := register_failures s; discover_attempts := discover_attempts s;
  discover_failures := discover_failures s; server_registrations := server_registrations s;
  server_discoveries_served := server_discoveries_served s; rz_server_errors := rz_server_errors s |}.
Definition upd_register_inflight_namespaces (g : gset (PeerId * string) -> gset (PeerId * string)) (s : RendezvousState) : RendezvousState := {|
  registered_with := registered_with s; register_inflight := register_inflight s;
  discover_inflight := discover_inflight s; registered_namespaces := registered_namespaces s;
  register_inflight_namespaces := g (register_inflight_namespaces s);
  discover_inflight_namespaces := discover_inflight_namespaces s; discovered_peers := discovered_peers s;
  cookies := cookies s; cookies_by_namespace := cookies_by_namespace s; register_attempts := register_attempts s;
  register_failures := register_failures s; discover_attempts := discover_attempts s;
  discover_failures := discover_failures s; server_registrations := server_registrations s;
  server_discoveries_served := server_discoveries_served s; rz_server_errors := rz_server_errors s |}.
Definition upd_discover_inflight_namespaces (g : gset (PeerId * string) -> gset (PeerId * string)) (s : RendezvousState) : RendezvousState := {|
  registered_with := registered_with s; register_inflight := register_inflight s;
  discover_inflight := discover_inflight s; registered_namespaces := registered_namespaces s;
  register_inflight_namespaces := register_inflight_namespaces s;
  discover_inflight_namespaces := g (discover_inflight_namespaces s); discovered_peers := discovered_peers s;
  cookies := cookies s; cookies_by_namespace := cookies_by_namespace s; register_attempts := register_attempts s;
  register_failures := register_failures s; discover_attempts := discover_attempts s;
  discover_failures := discover_failures s; server_registrations := server_registrations s;
  server_discoveries_served := server_discoveries_served s; rz_server_errors := rz_server_errors s |}.
Definition upd_discovered_peers (g : gset PeerId -> gset PeerId) (s : RendezvousState) : RendezvousState := {|
  registered_with := registered_with s; register_inflight := register_inflight s;
  discover_inflight := discover_inflight s; registered_namespaces := registered_namespaces s;
  register_inflight_namespaces := register_inflight_namespaces s;
  discover_inflight_namespaces := discover_inflight_namespaces s; discovered_peers := g (discovered_peers s);
  cookies := cookies s; cookies_by_namespace := cookies_by_namespace s; register_attempts := register_attempts s;
  register_failures := register_failures s; discover_attempts := discover_attempts s;
  discover_failures := discover_failures s; server_registrations := server_registrations s;
  server_discoveries_served := server_discoveries_served s; rz_server_errors := rz_server_errors s |}.
Definition upd_cookies (g : gmap PeerId Cookie -> gmap PeerId Cookie) (s : RendezvousState) : RendezvousState := {|
  registered_with := registered_with s; register_inflight := register_inflight s;
  discover_inflight := discover_inflight s; registered_namespaces := registered_namespaces s;
  register_inflight_namespaces := register_inflight_namespaces s;
  discover_inflight_namespaces := discover_inflight_namespaces s; discovered_peers := discovered_peers s;
  cookies := g (cookies s); cookies_by_namespace := cookies_by_namespace s;
  register_attempts := register_attempts s; register_failures := register_failures s;
  discover_attempts := discover_attempts s; discover_failures := discover_failures s;
  server_registrations := server_registrations s; server_discoveries_served := server_discoveries_served s;
  rz_server_errors := rz_server_errors s |}.
Definition upd_cookies_by_namespace (g : gmap (PeerId * string) Cookie -> gmap (PeerId * string) Cookie) (s : RendezvousState) : RendezvousState := {|
  registered_with := registered_with s; register_inflight := register_inflight s;
  discover_inflight := discover_inflight s; registered_namespaces := registered_namespaces s;
  register_inflight_namespaces := register_inflight_namespaces s;
  discover_inflight_namespaces := discover_inflight_namespaces s; discovered_peers := discovered_peers s;
  cookies := cookies s; cookies_by_namespace := g (cookies_by_namespace s);
  register_attempts := register_attempts s; register_failures := register_failures s;
  discover_attempts := discover_attempts s; discover_failures := discover_failures s;
  server_registrations := server_registrations s; server_discoveries_served := server_discoveries_served s;
  rz_server_errors := rz_server_errors s |}.
Definition upd_register_attempts (g : Z -> Z) (s : RendezvousState) : RendezvousState := {|
  registered_with := registered_with s; register_inflight := register_inflight s;
  discover_inflight := discover_inflight s; registered_namespaces := registered_namespaces s;
  register_inflight_namespaces := register_inflight_namespaces s;
  discover_inflight_namespaces := discover_inflight_namespaces s; discovered_peers := discovered_peers s;
  cookies := cookies s; cookies_by_namespace := cookies_by_namespace s;
  register_attempts := g (register_attempts s); register_failures := register_failures s;
  discover_attempts := discover_attempts s; discover_failures := discover_failures s;
  server_registrations := server_registrations s; server_discoveries_served := server_discoveries_served s;
  rz_server_errors := rz_server_errors s |}.
Definition upd_register_failures (g : Z -> Z) (s : RendezvousState) : RendezvousState := {|
  registered_with := registered_with s; register_inflight := register_inflight s;
  discover_inflight := discover_inflight s; registered_namespaces := registered_namespaces s;
  register_inflight_namespaces := register_inflight_namespaces s;
  discover_inflight_namespaces := discover_inflight_namespaces s; discovered_peers := discovered_peers s;
  cookies := cookies s; cookies_by_namespace := cookies_by_namespace s; register_attempts := register_attempts s;
  register_failures := g (register_failures s); discover_attempts := discover_attempts s;
  discover_failures := discover_failures s; server_registrations := server_registrations s;
  server_discoveries_served := server_discoveries_served s; rz_server_errors := rz_server_errors s |}.
Definition upd_discover_attempts (g : Z -> Z) (s : RendezvousState) : RendezvousState := {|
  registered_with := registered_with s; register_inflight := register_inflight s;
  discover_inflight := discover_inflight s; registered_namespaces := registered_namespaces s;
  register_inflight_namespaces := register_inflight_namespaces s;
  discover_inflight_namespaces := discover_inflight_namespaces s; discovered_peers := discovered_peers s;
  cookies := cookies s; cookies_by_namespace := cookies_by_namespace s; register_attempts := register_attempts s;
  register_failures := register_failures s; discover_attempts := g (discover_attempts s);
  discover_failures := discover_failures s; server_registrations := server_registrations s;
  server_discoveries_served := server_discoveries_served s; rz_server_errors := rz_server_errors s |}.
Definition upd_discover_failures (g : Z -> Z) (s : RendezvousState) : RendezvousState := {|
  registered_with := registered_with s; register_inflight := register_inflight s;
  discover_inflight := discover_inflight s; registered_namespaces := registered_namespaces s;
  register_inflight_namespaces := register_inflight_namespaces s;
  discover_inflight_namespaces := discover_inflight_namespaces s; discovered_peers := discovered_peers s;
  cookies := cookies s; cookies_by_namespace := cookies_by_namespace s; register_attempts := register_attempts s;
  register_failures := register_failures s; discover_attempts := discover_attempts s;
  discover_failures := g (discover_failures s); server_registrations := server_registrations s;
  server_discoveries_served := server_discoveries_served s; rz_server_errors := rz_server_errors s |}.
Definition upd_server_registrations (g : Z -> Z) (s : RendezvousState) : RendezvousState := {|
  registered_with := registered_with s; register_inflight := register_inflight s;
  discover_inflight := discover_inflight s; registered_namespaces := registered_namespaces s;
  register_inflight_namespaces := register_inflight_namespaces s;
  discover_inflight_namespaces := discover_inflight_namespaces s; discovered_peers := discovered_peers s;
  cookies := cookies s; cookies_by_namespace := cookies_by_namespace s; register_attempts := register_attempts s;
  register_failures := register_failures s; discover_attempts := discover_attempts s;
  discover_failures := discover_failures s; server_registrations := g (server_registrations s);
  server_discoveries_served := server_discoveries_served s; rz_server_errors := rz_server_errors s |}.
Definition upd_server_discoveries_served (g : Z -> Z) (s : RendezvousState) : RendezvousState := {|
  registered_with := registered_with s; register_inflight := register_inflight s;
  discover_inflight := discover_inflight s; registered_namespaces := registered_namespaces s;
  register_inflight_namespaces := register_inflight_namespaces s;
  discover_inflight_namespaces := discover_inflight_namespaces s; discovered_peers := discovered_peers s;
  cookies := cookies s; cookies_by_namespace := cookies_by_namespace s; register_attempts := register_attempts s;
  register_failures := register_failures s; discover_attempts := discover_attempts s;
  discover_failures := discover_failures s; server_registrations := server_registrations s;
  server_discoveries_served := g (server_discoveries_served s); rz_server_errors := rz_server_errors s |}.
Definition upd_rz_server_errors (g : Z -> Z) (s : RendezvousState) : RendezvousState := {|
  registered_with := registered_with s; register_inflight := register_inflight s;
  discover_inflight := discover_inflight s; registered_namespaces := registered_namespaces s;
  register_inflight_namespaces := register_inflight_namespaces s;
  discover_inflight_namespaces := discover_inflight_namespaces s; discovered_peers := discovered_peers s;
  cookies := cookies s; cookies_by_namespace := cookies_by_namespace s; register_attempts := register_attempts s;
  register_failures := register_failures s; discover_attempts := discover_attempts s;
  discover_failures := discover_failures s; server_registrations := server_registrations s;
  server_discoveries_served := server_discoveries_served s; rz_server_errors := g (rz_server_errors s) |}.

Definition RendezvousState_default : RendezvousState := {|
  registered_with := ∅; register_inflight := ∅; discover_inflight := ∅; registered_namespaces := ∅;
  register_inflight_namespaces := ∅; discover_inflight_namespaces := ∅; discovered_peers := ∅; cookies := ∅;
  cookies_by_namespace := ∅; register_attempts := 0; register_failures := 0; discover_attempts := 0;
  discover_failures := 0; server_registrations := 0; server_discoveries_served := 0; rz_server_errors := 0 |}.

Definition bump (n : Z) : Z := sat_add usize_max n 1.

Section orders.
Context `{!HashIter PeerId} `{!HashIter (PeerId * string)}.

Definition record_discovered_peer (s : RendezvousState) (peer : PeerId) : RendezvousState :=
  if decide (peer ∈ discovered_peers s) then s
  else
    let kept := if decide (MAX_DISCOVERED_PEER_HISTORY <= Z.of_nat (size (discovered_peers s))) then
                  match head (hash_iter (discovered_peers s)) with
                  | Some evicted => discovered_peers s ∖ {[evicted]}
                  | None => discovered_peers s
                  end
                else discovered_peers s in
    upd_discovered_peers (fun _ => {[peer]} ∪ kept) s.

Definition mark_register_inflight (s : RendezvousState) (peer : PeerId) (namespace : string) : RendezvousState :=
  upd_register_inflight_namespaces (fun x => {[(peer, namespace)]} ∪ x) (upd_register_inflight (fun x => {[peer]} ∪ x) s).

Definition mark_registered (s : RendezvousState) (peer : PeerId) (namespace : string) : RendezvousState :=
  upd_registered_namespaces (fun x => {[(peer, namespace)]} ∪ x)
    (upd_register_inflight_namespaces (fun x => x ∖ {[(peer, namespace)]})
      (upd_registered_with (fun x => {[peer]} ∪ x) (upd_register_inflight (fun x => x ∖ {[peer]}) s))).

Definition mark_register_failed (s : RendezvousState) (peer : PeerId) (namespace : string) : RendezvousState :=
  upd_register_inflight_namespaces (fun x => x ∖ {[(peer, namespace)]}) (upd_register_inflight (fun x => x ∖ {[peer]}) s).

Definition is_register_inflight (s : RendezvousState) (peer : PeerId) (namespace : string) : bool :=
  bool_decide ((peer, namespace) ∈ register_inflight_namespaces s).

Definition is_registered (s : RendezvousState) (peer : PeerId) (namespace : string) : bool :=
  bool_decide ((peer, namespace) ∈ registered_namespaces s).

Definition mark_discover_inflight (s : RendezvousState) (peer : PeerId) (namespace : string) : RendezvousState :=
  upd_discover_inflight_namespaces (fun x => {[(peer, namespace)]} ∪ x) (upd_discover_inflight (fun x => {[peer]} ∪ x) s).

Definition discover_cookie (s : RendezvousState) (peer : PeerId) (namespace : string) : option Cookie :=
  match cookies_by_namespace s !! (peer, namespace) with Some c => Some c | None => cookies s !! peer end.

Definition complete_discover_for_peer (s : RendezvousState) (peer : PeerId) (cookie : Cookie)
    : option string * RendezvousState :=
  let s := upd_cookies (fun m => <[peer := cookie]> m) (upd_discover_inflight (fun x => x ∖ {[peer]}) s) in
  match find (fun candidate => bool_decide (candidate.1 = peer)) (hash_iter (discover_inflight_namespaces s)) with
  | Some key =>
      (Some key.2, upd_cookies_by_namespace (fun m => <[key := cookie]> m)
                     (upd_discover_inflight_namespaces (fun x => x ∖ {[key]}) s))
  | None => (None, s)
  end.

Definition fail_discover (s : RendezvousState) (peer : PeerId) (namespace : option string) : RendezvousState :=
  let s := upd_discover_inflight (fun x => x ∖ {[peer]}) s in
  match namespace with
  | Some namespace => upd_discover_inflight_namespaces (fun x => x ∖ {[(peer, namespace)]}) s
  | None => upd_discover_inflight_namespaces (filter (fun candidate => candidate.1 ≠ peer)) s
  end.

(** * [refresh_rendezvous]: the requests it sends *)
Record RendezvousActionPlan := { ra_register_attempts : Z; ra_discover_attempts : Z; ra_errors : list string }.

Definition RendezvousActionPlan_default : RendezvousActionPlan :=
  {| ra_register_attempts := 0; ra_discover_attempts := 0; ra_errors := [] |}.

Definition ra_error (plan : RendezvousActionPlan) (line : string) : RendezvousActionPlan := {|
  ra_register_attempts := ra_register_attempts plan; ra_discover_attempts := ra_discover_attempts plan;
  ra_errors := ra_errors plan ++ [line] |}.

Inductive RzRequest : Type :=
| RzRegister (namespace : RzNamespace) (peer : PeerId) (ttl : Z)
| RzDiscover (namespace : RzNamespace) (cookie : option Cookie) (limit : option Z) (peer : PeerId).

Record Refresh := { rf_state : RendezvousState; rf_plan : RendezvousActionPlan; rf_requests : list RzRequest;
                    rf_actions : list SwarmAction }.

Definition refresh_error (f : Refresh) (line : string) : Refresh :=
  {| rf_state := rf_state f; rf_plan := ra_error (rf_plan f) line; rf_requests := rf_requests f; rf_actions := rf_actions f |}.

(** [register namespace peer] is what the client behaviour answers. *)
Definition refresh_register (cfg : RendezvousConfig) (register : RzNamespace -> PeerId -> result unit string) (peer : PeerId)
    (ns : string * RzNamespace) (f : Refresh) : Refresh :=
  let s := rf_state f in
  if rz_register cfg && negb (is_registered s peer ns.1) && negb (is_register_inflight s peer ns.1) then
    let s := upd_register_attempts bump s in
    match register ns.2 peer with
    | Ok _ => {|
        rf_state := mark_register_inflight s peer ns.1;
        rf_plan := {| ra_register_attempts := bump (ra_register_attempts (rf_plan f));
          ra_discover_attempts := ra_discover_attempts (rf_plan f); ra_errors := ra_errors (rf_plan f) |};
        rf_requests := rf_requests f ++ [RzRegister ns.2 peer (rz_register_ttl_secs cfg)]; rf_actions := rf_actions f |}
    | Err err => {|
        rf_state := upd_register_failures bump s;
        rf_plan := ra_error (rf_plan f) ("rendezvous register request failed peer=" +:+ peer_to_string peer
          +:+ " namespace=" +:+ rz_namespace_text ns.2 +:+ ": " +:+ err);
        rf_requests := rf_requests f; rf_actions := rf_actions f |}
    end
  else f.

Definition refresh_discover (cfg : RendezvousConfig) (peer : PeerId) (ns : string * RzNamespace) (f : Refresh) : Refresh :=
  let s := rf_state f in
  if rz_discover cfg && negb (bool_decide (peer ∈ discover_inflight s))
     && negb (bool_decide ((peer, ns.1) ∈ discover_inflight_namespaces s)) then
    let s := upd_discover_attempts bump s in {|
    rf_state := mark_discover_inflight s peer ns.1;
    rf_plan := {| ra_register_attempts := ra_register_attempts (rf_plan f);
      ra_discover_attempts := bump (ra_discover_attempts (rf_plan f)); ra_errors := ra_errors (rf_plan f) |};
    rf_requests := rf_requests f ++ [RzDiscover ns.2 (discover_cookie s peer ns.1) (discover_limit cfg) peer];
    rf_actions := rf_actions f |}
  else f.

Definition refresh_namespace (cfg : RendezvousConfig) (register : RzNamespace -> PeerId -> result unit string) (peer : PeerId)
    (f : Refresh) (ns : string * RzNamespace) : Refresh :=
  refresh_discover cfg peer ns (refresh_register cfg register peer ns f).

(** [client] tells whether the client behaviour is installed. *)
Definition refresh_addr (cfg : RendezvousConfig) (client : bool) (register : RzNamespace -> PeerId -> result unit string)
    (namespaces : list (string * RzNamespace)) (f : Refresh) (addr : Multiaddr) : Refresh :=
  match extract_p2p_peer_id addr with
  | None => refresh_error f ("rendezvous address lacks /p2p/<PeerId>: " +:+ addr_to_string addr)
  | Some peer =>
      let f := {| rf_state := rf_state f; rf_plan := rf_plan f; rf_requests := rf_requests f;
                  rf_actions := rf_actions f ++ add_peer_address_to_discovery peer addr ++ [DialAddr addr] |} in
      if negb client then refresh_error f "rendezvous client behaviour is disabled"
      else foldl (refresh_namespace cfg register peer) f namespaces
  end.

Definition valid_namespace (st : list (string * RzNamespace) * RendezvousActionPlan) (namespace : string)
    : list (string * RzNamespace) * RendezvousActionPlan :=
  match rz_namespace_new namespace with
  | Ok value => (st.1 ++ [(namespace, value)], st.2)
  | Err err => (st.1, ra_error st.2 ("rendezvous namespace `" +:+ namespace +:+ "` is invalid: " +:+ err))
  end.

(** [namespaces] is [discovery_cfg.rendezvous_namespaces(network_id)]. *)
Definition refresh_rendezvous (net_error_text : NetError -> string) (cfg : RendezvousConfig)
    (namespaces : result (list string) NetError) (client : bool) (register : RzNamespace -> PeerId -> result unit string)
    (rendezvous_addrs : list Multiaddr) (s : RendezvousState) : Refresh :=
  let start := {| rf_state := s; rf_plan := RendezvousActionPlan_default; rf_requests := []; rf_actions := [] |} in
  if negb (rz_client_enabled cfg) || bool_decide (rendezvous_addrs = []) then start
  else match namespaces with
       | Err err => refresh_error start (net_error_text err)
       | Ok names =>
           let '(valid, plan) := foldl valid_namespace ([], RendezvousActionPlan_default) names in
           let start := {| rf_state := s; rf_plan := plan; rf_requests := []; rf_actions := [] |} in
           if decide (valid = []) then start
           else foldl (refresh_addr cfg client register valid) start rendezvous_addrs
       end.

(** * Client events *)
Record Registration := { rg_peer : PeerId; rg_addresses : list Multiaddr; rg_namespace : RzNamespace; rg_ttl : Z }.

Definition peer_record_addrs (r : Registration) : list Multiaddr :=
  (fun addr => if existsb (fun p => match p with P2p _ => true | _ => false end) (addr_iter addr) then addr
               else addr_with addr (P2p (rg_peer r))) <$> rg_addresses r.

(** Error codes and optional namespaces carry their [Debug] text. *)
Inductive RzClientEvent : Type :=
| RzRegistered (rendezvous_node : PeerId) (ttl : Z) (namespace : RzNamespace)
| RzRegisterFailed (rendezvous_node : PeerId) (namespace : RzNamespace) (error : string)
| RzDiscovered (rendezvous_node : PeerId) (registrations : list Registration) (cookie : Cookie)
| RzDiscoverFailed (rendezvous_node : PeerId) (namespace : option RzNamespace) (namespace_debug error : string)
| RzExpired (peer : PeerId).

Record RzSwarm := { rs_actions : list SwarmAction; rs_cache_writes : PeerCacheWriteBatch }.

Definition learn_addr (peer : PeerId) (st : RzSwarm * Z) (addr : Multiaddr) : RzSwarm * Z :=
  ({| rs_actions := rs_actions st.1 ++ add_peer_address_to_discovery peer addr;
      rs_cache_writes := record_seen (rs_cache_writes st.1) peer addr |}, bump st.2).

Definition learn_registration (st : RzSwarm * Z * RendezvousState) (r : Registration) : RzSwarm * Z * RendezvousState :=
  (foldl (learn_addr (rg_peer r)) st.1 (peer_record_addrs r), record_discovered_peer st.2 (rg_peer r)).

Definition on_rendezvous_client_event (ev : RzClientEvent) (sw : RzSwarm) (s : RendezvousState)
    : string * RzSwarm * RendezvousState :=
  match ev with
  | RzRegistered node ttl namespace =>
      ("rendezvous_client registered node=" +:+ peer_to_string node +:+ " namespace=" +:+ rz_namespace_text namespace
         +:+ " ttl=" +:+ pretty ttl, sw, mark_registered s node (rz_namespace_text namespace))
  | RzRegisterFailed node namespace error =>
      ("rendezvous_client register failed node=" +:+ peer_to_string node +:+ " namespace=" +:+ rz_namespace_text namespace
         +:+ " error=" +:+ error, sw,
       upd_register_failures bump (mark_register_failed s node (rz_namespace_text namespace)))
  | RzDiscovered node registrations cookie =>
      let '(completed, s) := complete_discover_for_peer s node cookie in
      let '(sw, learned, s) := foldl learn_registration (sw, 0, s) registrations in
      (match completed with
       | Some namespace =>
           "rendezvous_client discovered " +:+ pretty (len registrations) +:+ " registrations from " +:+ peer_to_string node
             +:+ " namespace=" +:+ namespace +:+ "; learned " +:+ pretty learned +:+ " addrs"
       | None =>
           "rendezvous_client discovered " +:+ pretty (len registrations) +:+ " registrations from " +:+ peer_to_string node
             +:+ "; learned " +:+ pretty learned +:+ " addrs"
       end, sw, s)
  | RzDiscoverFailed node namespace namespace_debug error =>
      ("rendezvous_client discover failed node=" +:+ peer_to_string node +:+ " namespace=" +:+ namespace_debug
         +:+ " error=" +:+ error, sw,
       upd_discover_failures bump (fail_discover s node (rz_namespace_text <$> namespace)))
  | RzExpired peer =>
      ("rendezvous_client discovered registration expired peer=" +:+ peer_to_string peer, sw,
       upd_discovered_peers (fun x => x ∖ {[peer]}) s)
  end.

(** * Server events *)
Inductive RzServerEvent : Type :=
| DiscoverServed (enquirer : PeerId) (registrations : list Registration)
| DiscoverNotServed (enquirer : PeerId) (error : string)
| PeerRegistered (peer : PeerId) (registration : Registration)
| PeerNotRegistered (peer : PeerId) (namespace : RzNamespace) (error : string)
| PeerUnregistered (peer : PeerId) (namespace : RzNamespace)
| RegistrationExpired (registration : Registration).

Definition on_rendezvous_server_event (ev : RzServerEvent) (s : RendezvousState) : string * RendezvousState :=
  match ev with
  | DiscoverServed enquirer registrations =>
      ("rendezvous_server discover served enquirer=" +:+ peer_to_string enquirer +:+ " registrations="
         +:+ pretty (len registrations), upd_server_discoveries_served bump s)
  | DiscoverNotServed enquirer error =>
      ("rendezvous_server discover not served enquirer=" +:+ peer_to_string enquirer +:+ " error=" +:+ error,
       upd_rz_server_errors bump s)
  | PeerRegistered peer registration =>
      ("rendezvous_server peer registered peer=" +:+ peer_to_string peer +:+ " namespace="
         +:+ rz_namespace_text (rg_namespace registration) +:+ " ttl=" +:+ pretty (rg_ttl registration),
       upd_server_registrations bump s)
  | PeerNotRegistered peer namespace error =>
      ("rendezvous_server peer not registered peer=" +:+ peer_to_string peer +:+ " namespace=" +:+ rz_namespace_text namespace
         +:+ " error=" +:+ error, upd_rz_server_errors bump s)
  | PeerUnregistered peer namespace =>
      ("rendezvous_server peer unregistered peer=" +:+ peer_to_string peer +:+ " namespace=" +:+ rz_namespace_text namespace,
       upd_server_registrations (fun n => sat_sub n 1) s)
  | RegistrationExpired registration =>
      ("rendezvous_server registration expired peer=" +:+ peer_to_string (rg_peer registration) +:+ " namespace="
         +:+ rz_namespace_text (rg_namespace registration), upd_server_registrations (fun n => sat_sub n 1) s)
  end.

(** * The node's handlers (crates/node/events/rendezvous.rs) *)
Record RendezvousSnapshot := {
  sn_registered_with : Z; sn_discovered_peers : Z; sn_register_attempts : Z; sn_register_failures : Z;
  sn_discover_attempts : Z; sn_discover_failures : Z; sn_server_registrations : Z;
  sn_server_discoveries_served : Z; sn_server_errors : Z;
}.

Definition sync_rendezvous_snapshot (s : RendezvousState) : RendezvousSnapshot := {|
  sn_registered_with := Z.of_nat (size (registered_with s)); sn_discovered_peers := Z.of_nat (size (discovered_peers s));
  sn_register_attempts := register_attempts s; sn_register_failures := register_failures s;
  sn_discover_attempts := discover_attempts s; sn_discover_failures := discover_failures s;
  sn_server_registrations := server_registrations s; sn_server_discoveries_served := server_discoveries_served s;
  sn_server_errors := rz_server_errors s |}.

Local Abbreviation Pending := (gmap PeerId (list ConnectionAttempt)).

Record RzCtx := {
  zx_state : RendezvousState;
  zx_swarm : RzSwarm;
  zx_book : PeerBook;
  zx_pending : Pending;
  zx_stats : AutoDialStats;
  zx_snapshot : RendezvousSnapshot;
  zx_pulses : list string;
}.

Definition discovered_peer_source (book : PeerBook) (rendezvous_node : PeerId) : PeerSource :=
  if match record book rendezvous_node with
     | Some r => bool_decide (PublicRendezvous ∈ pr_sources r)
     | None => false
     end
  then PublicRendezvous else Rendezvous.

Definition record_registration (now : Z) (source : PeerSource) (st : PeerBook * list SwarmAction * list PeerId) (r : Registration)
    : PeerBook * list SwarmAction * list PeerId :=
  let '(book, acts, peers) := st in
  let peer := rg_peer r in
  let book := record_namespace book peer (rz_namespace_text (rg_namespace r)) source now in
  let book := foldl (fun b addr => record_addr b peer addr source now) book (peer_record_addrs r) in
  (book, acts ++ [AllowDcutrPeer peer], if decide (peer ∈ peers) then peers else peers ++ [peer]).

Definition record_rendezvous_discovery (now : Z) (ev : RzClientEvent) (book : PeerBook)
    : PeerBook * list SwarmAction * list PeerId :=
  match ev with
  | RzDiscovered node registrations _ =>
      foldl (record_registration now (discovered_peer_source book node)) (book, [], []) registrations
  | _ => (book, [], [])
  end.

Definition auto_dial_candidate (env : DialEnv) (enabled : bool) (book : PeerBook) (st : Pending * AutoDialStats * list string)
    (peer : PeerId) : Pending * AutoDialStats * list string :=
  let '(pending, stats, pulses) := st in
  let '(outcome, pending) := env_auto_dial env enabled book pending peer in
  (pending, record_outcome stats peer outcome,
   if should_pulse outcome then pulses ++ ["rendezvous " +:+ describe_outcome outcome peer] else pulses).

Definition rz_handle_client_event (env : DialEnv) (auto_connect : bool) (now : Z) (ev : RzClientEvent) (c : RzCtx) : RzCtx :=
  let '(book, acts, candidates) := record_rendezvous_discovery now ev (zx_book c) in
  let sw := {| rs_actions := rs_actions (zx_swarm c) ++ acts; rs_cache_writes := rs_cache_writes (zx_swarm c) |} in
  let '(line, sw, s) := on_rendezvous_client_event ev sw (zx_state c) in
  let '(pending, stats, pulses) :=
    foldl (auto_dial_candidate env auto_connect book) (zx_pending c, zx_stats c, []) candidates in {|
  zx_state := s; zx_swarm := sw; zx_book := book; zx_pending := pending; zx_stats := stats;
  zx_snapshot := sync_rendezvous_snapshot s; zx_pulses := foldl push_pulse (zx_pulses c) (line :: pulses) |}.

Definition rz_handle_server_event (ev : RzServerEvent) (c : RzCtx) : RzCtx :=
  let '(line, s) := on_rendezvous_server_event ev (zx_state c) in {|
  zx_state := s; zx_swarm := zx_swarm c; zx_book := zx_book c; zx_pending := zx_pending c; zx_stats := zx_stats c;
  zx_snapshot := sync_rendezvous_snapshot s; zx_pulses := push_pulse (zx_pulses c) line |}.
End orders.
End rendezvous.
