(* ===== verification/RendezvousFacts.v ===== *)
(** Facts about rendezvous: a refresh registers every namespace with every
    rendezvous peer exactly once; only the first namespace is ever discovered,
    and a registration is never renewed. *)

From S2P Require Import Prelude Bytes Text BTree Common AppMessage Observability PeerBook PeerCache ConnectionStrategy StackDiscovery.
From S2P Require Import Rendezvous.

#[local] Open Scope Z_scope.

Section rendezvous_facts.
Context {P : PeerIdLib} {M : MultiaddrLib} {R : RendezvousLib}.

(** * Namespaces the crate accepts *)
Definition names_ok (valid : list (string * RzNamespace)) : Prop := Forall (fun ns => rz_namespace_text ns.2 = ns.1) valid.

(** * Registration *)
(** The registrations among requests. *)
Definition reg_keys (requests : list RzRequest) : list (PeerId * string) :=
  omap (fun r => match r with RzRegister n p _ => Some (p, rz_namespace_text n) | _ => None end) requests.

Lemma reg_keys_app a b : reg_keys (a ++ b) = reg_keys a ++ reg_keys b.
Proof. apply omap_app. Qed.

(** What a part of a refresh did about the pairs [keys]: it requested the ones
    that were neither registered nor in flight, each once. *)
Definition registers (keys : list (PeerId * string)) (f f' : Refresh) : Prop :=
  exists new, rf_requests f' = rf_requests f ++ new /\ NoDup (reg_keys new) /\
    registered_namespaces (rf_state f') = registered_namespaces (rf_state f) /\
    register_inflight_namespaces (rf_state f') = (register_inflight_namespaces (rf_state f)) ∪ (list_to_set (reg_keys new)) /\
    forall k, k ∈ reg_keys new <->
      (k ∈ keys) /\ (k ∉ registered_namespaces (rf_state f)) /\ (k ∉ register_inflight_namespaces (rf_state f)).

Lemma registers_nil f f' :
  rf_requests f' = rf_requests f -> rf_state f' = rf_state f -> registers [] f f'.
Proof. intros Hr Hs. exists []. rewrite Hr, Hs, app_nil_r. split_and!; try done; [apply NoDup_nil_2|set_solver..]. Qed.

Lemma registers_app k1 k2 f f1 f2 : registers k1 f f1 -> registers k2 f1 f2 -> registers (k1 ++ k2) f f2.
Proof.
  intros (n1 & Hr1 & Hn1 & Hg1 & Hi1 & Hk1) (n2 & Hr2 & Hn2 & Hg2 & Hi2 & Hk2).
  exists (n1 ++ n2). rewrite Hr2, Hr1, <- app_assoc, reg_keys_app. rewrite Hg2, Hg1, Hi2, Hi1. split; [done|]. split.
  { apply NoDup_app. split; [done|]. split; [|done]. intros k H1 H2. apply Hk2 in H2. set_solver. }
  split; [done|]. split; [set_solver|]. intros k. rewrite elem_of_app, Hk1, Hk2, Hg1, Hi1, elem_of_union, elem_of_list_to_set.
  rewrite Hk1. rewrite elem_of_app. destruct (decide (k ∈ k1)); naive_solver.
Qed.

(** The pairs a refresh is about. *)
Definition pairs (valid : list (string * RzNamespace)) (addrs : list Multiaddr) : list (PeerId * string) :=
  mjoin ((fun addr => match extract_p2p_peer_id addr with
                      | Some peer => (fun ns => (peer, ns.1)) <$> valid
                      | None => []
                      end) <$> addrs).

Lemma elem_of_pairs valid addrs p k :
  (p, k) ∈ pairs valid addrs <-> (exists addr, addr ∈ addrs /\ extract_p2p_peer_id addr = Some p) /\ k ∈ valid.*1.
Proof.
  unfold pairs. rewrite list_elem_of_join. split.
  - intros (l & Hl & Hin). apply list_elem_of_fmap in Hin as (addr & -> & Haddr).
    destruct (extract_p2p_peer_id addr) as [q|] eqn:E; [|set_solver]. apply list_elem_of_fmap in Hl as ([s n] & [= -> ->] & Hs).
    split; [eauto|]. apply list_elem_of_fmap. by exists (s, n).
  - intros ((addr & Ha & E) & Hk). eexists. split; [|apply list_elem_of_fmap; by exists addr]. rewrite E.
    apply list_elem_of_fmap in Hk as ([s n] & -> & Hs). apply list_elem_of_fmap. by exists (s, n).
Qed.

Lemma pairs_nil addrs : pairs [] addrs = [].
Proof.
  induction addrs as [|a addrs IH]; [done|].
  change (pairs [] (a :: addrs)) with
    ((match extract_p2p_peer_id a with
      | Some peer => (fun ns : string * RzNamespace => (peer, ns.1)) <$> []
      | None => []
      end) ++ pairs [] addrs).
  rewrite IH. by destruct (extract_p2p_peer_id a).
Qed.

Section one_refresh.
Context (cfg : RendezvousConfig) (register : RzNamespace -> PeerId -> result unit string).
Context (Hreg : rz_register cfg = true) (Hok : forall n p, register n p = Ok tt).

Lemma refresh_namespace_registers peer ns f :
  rz_namespace_text ns.2 = ns.1 -> registers [(peer, ns.1)] f (refresh_namespace cfg register peer f ns).
Proof using Hreg Hok.
  intros Ht. unfold refresh_namespace, refresh_register. rewrite Hreg, Hok. cbn [andb].
  unfold is_registered, is_register_inflight. set (g := if _ && _ then _ else f).
  assert (Hg : registers [(peer, ns.1)] f g).
  { subst g. case_bool_decide as H1; [|case_bool_decide as H2]; cbn [negb andb].
    1,2: exists []; rewrite app_nil_r; split_and!; try done; [apply NoDup_nil_2|set_solver..].
    exists [RzRegister ns.2 peer (rz_register_ttl_secs cfg)]. cbn. rewrite Ht.
    split_and!; try done; [apply NoDup_singleton|set_solver..]. }
  assert (Hd : registers [] g (refresh_discover cfg peer ns g)).
  { unfold refresh_discover. destruct (rz_discover cfg && _ && _); [|by apply registers_nil].
    eexists [_]. split_and!; cbn; try done; [apply NoDup_nil_2|set_solver..]. }
  exact (registers_app _ _ _ _ _ Hg Hd).
Qed.

Lemma refresh_namespaces_register peer valid f :
  names_ok valid -> registers ((fun ns => (peer, ns.1)) <$> valid) f (foldl (refresh_namespace cfg register peer) f valid).
Proof using Hreg Hok.
  revert f. induction valid as [|ns valid IH]; intros f Hv; cbn; [by apply registers_nil|].
  apply Forall_cons in Hv as [Hn Hv].
  exact (registers_app [_] _ _ _ _ (refresh_namespace_registers peer ns f Hn) (IH _ Hv)).
Qed.

Lemma refresh_addrs_register valid addrs f :
  names_ok valid -> registers (pairs valid addrs) f (foldl (refresh_addr cfg true register valid) f addrs).
Proof using Hreg Hok.
  intros Hv. revert f. induction addrs as [|addr addrs IH]; intros f; cbn; [by apply registers_nil|].
  refine (registers_app _ _ _ _ _ _ (IH _)). unfold refresh_addr.
  destruct (extract_p2p_peer_id addr) as [peer|]; [|by apply registers_nil]. cbn [negb].
  set (f1 := {| rf_state := rf_state f |}).
  refine (registers_app [] _ f f1 _ _ (refresh_namespaces_register peer valid f1 Hv)). by apply registers_nil.
Qed.
End one_refresh.

Context {RL : RendezvousLaws R}.

Lemma valid_namespaces_ok names st : names_ok st.1 -> names_ok (foldl valid_namespace st names).1.
Proof using RL.
  revert st. induction names as [|x names IH]; intros st Hst; cbn; [done|]. apply IH. unfold valid_namespace.
  destruct (rz_namespace_new x) as [n|] eqn:E; cbn; [|done]. apply Forall_app. split; [done|].
  repeat constructor. cbn. by apply rz_namespace_display.
Qed.

(** A refresh registers every namespace with every rendezvous peer.  When
    the client accepts the requests, the registrations a refresh sends are
    exactly the pairs of a configured rendezvous peer and a valid namespace that
    are neither registered nor in flight, each once, and those are in flight
    afterwards: every pair is then registered or in flight. *)
Theorem refresh_registers_every_namespace (text : NetError -> string) (cfg : RendezvousConfig) (names : list string)
    (register : RzNamespace -> PeerId -> result unit string) (addrs : list Multiaddr) (s : RendezvousState)
    (valid : list (string * RzNamespace)) (plan : RendezvousActionPlan) :
  rz_client_enabled cfg = true -> rz_register cfg = true -> (forall n p, register n p = Ok tt) ->
  foldl valid_namespace ([], RendezvousActionPlan_default) names = (valid, plan) ->
  let f := refresh_rendezvous text cfg (Ok names) true register addrs s in
  NoDup (reg_keys (rf_requests f)) /\
  (forall p k, (p, k) ∈ reg_keys (rf_requests f) <->
     (exists addr, addr ∈ addrs /\ extract_p2p_peer_id addr = Some p) /\ k ∈ valid.*1 /\
     is_registered s p k = false /\ is_register_inflight s p k = false) /\
  (forall addr p k, addr ∈ addrs -> extract_p2p_peer_id addr = Some p -> k ∈ valid.*1 ->
     is_registered (rf_state f) p k = true \/ is_register_inflight (rf_state f) p k = true).
Proof using RL.
  intros Hc Hr Hok Hv. assert (Hnames : names_ok valid).
  { change valid with (valid, plan).1. rewrite <- Hv. apply valid_namespaces_ok. constructor. }
  intros f.
  assert (Hf : registers (pairs valid addrs) {| rf_state := s; rf_plan := plan; rf_requests := []; rf_actions := [] |} f).
  { subst f. unfold refresh_rendezvous. rewrite Hc. cbn [negb orb]. case_bool_decide as Ha.
    - subst addrs. by apply registers_nil.
    - rewrite Hv. case_decide as He; [|by apply refresh_addrs_register].
      subst valid. rewrite pairs_nil. by apply registers_nil. }
  destruct Hf as (new & Hreq & Hnd & Hg & Hi & Hk). cbn in Hreq, Hg, Hi, Hk. rewrite Hreq. clearbody f.
  unfold is_registered, is_register_inflight. split; [done|]. split.
  - intros p k. rewrite Hk, elem_of_pairs. rewrite !bool_decide_eq_false. tauto.
  - intros addr p k Ha Hp Hin. rewrite !bool_decide_eq_true, Hg, Hi, elem_of_union, elem_of_list_to_set, Hk, elem_of_pairs.
    destruct (decide ((p, k) ∈ registered_namespaces s)); [by left|].
    destruct (decide ((p, k) ∈ register_inflight_namespaces s)); [right; by left|]. right. right. eauto 6.
Qed.

(** * Discovery *)
Section discovery.
Context `{HP : !HashIter PeerId} `{HK : !HashIter (PeerId * string)}.
Context (cfg : RendezvousConfig) (names : list string).

(** A node that refreshes and handles client events, with all it sent.  The
    client reports the failure of a discovery with a namespace it was asked for. *)
Record rz_run := { rn_state : RendezvousState; rn_sent : list RzRequest }.

Definition answers_request (sent : list RzRequest) (ev : RzClientEvent) : Prop :=
  match ev with
  | RzDiscoverFailed node (Some n) _ _ => exists cookie limit, RzDiscover n cookie limit node ∈ sent
  | _ => True
  end.

Inductive rz_step : rz_run -> rz_run -> Prop :=
| rz_refresh text client register addrs s f :
    f = refresh_rendezvous text cfg (Ok names) client register addrs (rn_state s) ->
    rz_step s {| rn_state := rf_state f; rn_sent := rn_sent s ++ rf_requests f |}
| rz_event ev sw line sw' st s :
    answers_request (rn_sent s) ev -> on_rendezvous_client_event ev sw (rn_state s) = (line, sw', st) ->
    rz_step s {| rn_state := st; rn_sent := rn_sent s |}.

Definition first_only (n : RzNamespace) (r : RzRequest) : Prop :=
  match r with RzDiscover n' _ _ _ => n' = n | RzRegister _ _ _ => True end.

(** Only the first namespace is in flight, and its peer is marked. *)
Definition one_inflight (s1 : string) (s : RendezvousState) : Prop :=
  forall p k, (p, k) ∈ discover_inflight_namespaces s -> k = s1 /\ p ∈ discover_inflight s.

Definition discovers_first (s1 : string) (n1 : RzNamespace) (f : Refresh) : Prop :=
  one_inflight s1 (rf_state f) /\ Forall (first_only n1) (rf_requests f).

Lemma refresh_register_keeps register peer ns s1 n1 f :
  discovers_first s1 n1 f -> discovers_first s1 n1 (refresh_register cfg register peer ns f) /\
    discover_inflight (rf_state (refresh_register cfg register peer ns f)) = discover_inflight (rf_state f).
Proof.
  intros [Hi Hf]. unfold refresh_register. destruct (rz_register cfg && _ && _); [|done].
  destruct (register ns.2 peer); (split; [split|]); try done. cbn. apply Forall_app. by repeat constructor.
Qed.

(** Nothing more is sent to a peer that a discovery is in flight to. *)
Lemma refresh_discover_blocked peer ns f :
  rz_discover cfg = false \/ peer ∈ discover_inflight (rf_state f) -> refresh_discover cfg peer ns f = f.
Proof.
  intros Hb. unfold refresh_discover. destruct Hb as [->|Hb]; [done|]. rewrite (bool_decide_eq_true_2 _ Hb).
  by rewrite andb_false_r.
Qed.

Lemma refresh_rest_blocked register peer rest s1 n1 f :
  rz_discover cfg = false \/ peer ∈ discover_inflight (rf_state f) -> discovers_first s1 n1 f ->
  discovers_first s1 n1 (foldl (refresh_namespace cfg register peer) f rest).
Proof.
  revert f. induction rest as [|ns rest IH]; intros f Hb Hf; cbn; [done|].
  destruct (refresh_register_keeps register peer ns s1 n1 f Hf) as [Hf1 Hi].
  unfold refresh_namespace at 2. rewrite refresh_discover_blocked by by rewrite Hi. apply IH; [by rewrite Hi|done].
Qed.

Lemma refresh_first peer s1 n1 f :
  discovers_first s1 n1 f ->
  discovers_first s1 n1 (refresh_discover cfg peer (s1, n1) f) /\
  (rz_discover cfg = false \/ peer ∈ discover_inflight (rf_state (refresh_discover cfg peer (s1, n1) f))).
Proof.
  intros Hdf. destruct (decide (rz_discover cfg = false \/ peer ∈ discover_inflight (rf_state f))) as [Hb|Hb].
  { by rewrite refresh_discover_blocked. }
  assert (Hd : rz_discover cfg = true) by (destruct (rz_discover cfg); [done|]; exfalso; apply Hb; by left).
  assert (Hp : peer ∉ discover_inflight (rf_state f)) by (intros ?; apply Hb; by right). destruct Hdf as [Hi Hf]. unfold refresh_discover.
  rewrite Hd, (bool_decide_eq_false_2 _ Hp). cbn [andb negb fst snd]. rewrite bool_decide_eq_false_2 by (intros Hin; by destruct (Hi _ _ Hin)).
  cbn. split; [split|].
  - intros q k. cbn. rewrite elem_of_union, elem_of_singleton. intros [[= -> ->]|Hin]; [set_solver|].
    apply Hi in Hin. set_solver.
  - apply Forall_app. by repeat constructor.
  - right. set_solver.
Qed.

Lemma refresh_addrs_first client register s1 n1 rest addrs f :
  discovers_first s1 n1 f -> discovers_first s1 n1 (foldl (refresh_addr cfg client register ((s1, n1) :: rest)) f addrs).
Proof.
  revert f. induction addrs as [|addr addrs IH]; intros f Hf; cbn [foldl]; [done|]. apply IH. unfold refresh_addr.
  destruct (extract_p2p_peer_id addr) as [peer|]; [|done]. destruct client; cbn [negb foldl]; [|done].
  set (g := {| rf_state := rf_state f |}). assert (Hg : discovers_first s1 n1 g) by done.
  destruct (refresh_register_keeps register peer (s1, n1) s1 n1 g Hg) as [Hg1 _].
  destruct (refresh_first peer s1 n1 _ Hg1) as [Hg2 Hb]. by apply refresh_rest_blocked.
Qed.

Lemma client_event_one_inflight ev sw line sw' st s s1 n1 :
  rz_namespace_text n1 = s1 -> Forall (first_only n1) (rn_sent s) -> answers_request (rn_sent s) ev ->
  one_inflight s1 (rn_state s) -> on_rendezvous_client_event ev sw (rn_state s) = (line, sw', st) -> one_inflight s1 st.
Proof.
  intros Hn Hsent Ha Hi. destruct ev as [node ttl ns|node ns err|node regs cookie|node ns dbg err|peer]; cbn.
  - intros [= _ _ <-]. exact Hi.
  - intros [= _ _ <-]. exact Hi.
  - assert (Hl : forall l x, let '(sw, learned, t) := foldl learn_registration x l in
        discover_inflight t = discover_inflight x.2 /\ discover_inflight_namespaces t = discover_inflight_namespaces x.2).
    { induction l as [|r l IH]; intros [[? ?] t]; cbn; [done|]. specialize (IH (learn_registration (r0, z, t) r)).
      destruct (foldl learn_registration _ l) as [[? ?] t']. destruct IH as [-> ->]. cbn. unfold record_discovered_peer.
      by case_decide. }
    destruct (complete_discover_for_peer (rn_state s) node cookie) as [completed t] eqn:E.
    specialize (Hl regs (sw, 0, t)). destruct (foldl learn_registration _ regs) as [[sw1 learned] t']. intros [= _ _ <-].
    cbn in Hl. destruct Hl as [H1 H2]. intros p k. rewrite H1, H2. clear H1 H2.
    unfold complete_discover_for_peer in E. cbn in E.
    destruct (find _ (hash_iter (discover_inflight_namespaces (rn_state s)))) as [key|] eqn:Ef.
    + apply find_some in Ef as [Hkin Hk%bool_decide_eq_true]. apply list_elem_of_In in Hkin.
      rewrite hash_iter_elements, elem_of_elements in Hkin. destruct key as [kp kk]. cbn in Hk. subst kp.
      destruct (Hi _ _ Hkin) as [-> _]. injection E as _ <-. cbn. rewrite elem_of_difference, elem_of_singleton.
      intros [Hin Hne]. destruct (Hi _ _ Hin) as [-> Hp]. split; [done|]. set_solver.
    + injection E as _ <-. cbn. intros Hin. destruct (Hi _ _ Hin) as [-> Hp]. split; [done|].
      apply elem_of_difference. split; [done|]. rewrite elem_of_singleton. intros ->.
      assert (Hin' : In (node, s1) (hash_iter (discover_inflight_namespaces (rn_state s)))).
      { apply list_elem_of_In. by rewrite hash_iter_elements, elem_of_elements. }
      pose proof (find_none _ _ Ef _ Hin') as Hc. cbn in Hc. by rewrite bool_decide_eq_true_2 in Hc.
  - intros [= _ _ <-]. intros p k. destruct ns as [n|]; cbn.
    + destruct Ha as (c & l & Hin). rewrite Forall_forall in Hsent. apply Hsent in Hin. cbn in Hin. subst n. rewrite Hn.
      rewrite elem_of_difference. intros [Hin Hne]. destruct (Hi _ _ Hin) as [-> Hp]. set_solver.
    + rewrite elem_of_filter. cbn. intros [Hne Hin]. destruct (Hi _ _ Hin) as [-> Hp]. set_solver.
  - intros [= _ _ <-]. exact Hi.
Qed.

(** A client event only adds a registration. *)
Lemma client_event_registered ev sw s line sw' st p k :
  on_rendezvous_client_event ev sw s = (line, sw', st) ->
  (p, k) ∈ registered_namespaces s -> (p, k) ∈ registered_namespaces st.
Proof.
  destruct ev as [node ttl ns|node ns err|node regs cookie|node ns dbg err|peer]; cbn.
  - intros [= _ _ <-]. cbn. set_solver.
  - by intros [= _ _ <-].
  - assert (Hl : forall l x, registered_namespaces (foldl learn_registration x l).2 = registered_namespaces x.2).
    { induction l as [|r l IH]; intros x; cbn; [done|]. rewrite IH. cbn. unfold record_discovered_peer. by case_decide. }
    destruct (complete_discover_for_peer s node cookie) as [completed t] eqn:E.
    assert (Ht : registered_namespaces t = registered_namespaces s).
    { unfold complete_discover_for_peer in E. destruct (find _ _); by injection E as _ <-. }
    specialize (Hl regs (sw, 0, t)). destruct (foldl learn_registration _ regs) as [[sw1 learned] t'].
    intros [= _ _ <-]. cbn in Hl. by rewrite Hl, Ht.
  - intros [= _ _ <-]. by destruct ns.
  - by intros [= _ _ <-].
Qed.

(** Registrations are kept, and a registered pair is not requested again. *)
Lemma refresh_namespace_registered register peer ns p k f :
  (p, k) ∈ registered_namespaces (rf_state f) -> rz_namespace_text ns.2 = ns.1 -> (p, k) ∉ reg_keys (rf_requests f) ->
  (p, k) ∈ registered_namespaces (rf_state (refresh_namespace cfg register peer f ns)) /\
  (p, k) ∉ reg_keys (rf_requests (refresh_namespace cfg register peer f ns)).
Proof.
  intros Hr Ht Hn. unfold refresh_namespace. set (g := refresh_register cfg register peer ns f).
  assert (Hg : (p, k) ∈ registered_namespaces (rf_state g) /\ (p, k) ∉ reg_keys (rf_requests g)).
  { subst g. unfold refresh_register. destruct (rz_register cfg && _ && _) eqn:E; [|done].
    destruct (register ns.2 peer); cbn; [|done]. split; [done|]. rewrite reg_keys_app. cbn. rewrite Ht.
    rewrite elem_of_app, list_elem_of_singleton. intros [?|[= -> ->]]; [done|].
    unfold is_registered in E. rewrite (bool_decide_eq_true_2 _ Hr) in E. by rewrite andb_false_r in E. }
  unfold refresh_discover. destruct (rz_discover cfg && _ && _); [|done]. cbn. rewrite reg_keys_app. cbn. by rewrite app_nil_r.
Qed.

(** Only the first namespace is discovered.  However the node refreshes
    its rendezvous peers and whatever they answer, every discovery it ever sends
    asks for its first namespace: peers that registered under another one of its
    namespaces are not found through rendezvous. *)
Theorem only_first_namespace_discovered (s1 : string) (n1 : RzNamespace) (rest : list (string * RzNamespace))
    (plan : RendezvousActionPlan) (r : rz_run) :
  foldl valid_namespace ([], RendezvousActionPlan_default) names = ((s1, n1) :: rest, plan) ->
  rtc rz_step {| rn_state := RendezvousState_default; rn_sent := [] |} r ->
  Forall (first_only n1) (rn_sent r) /\
  (forall p k, (p, k) ∈ discover_inflight_namespaces (rn_state r) -> k = s1).
Proof using RL.
  intros Hv Hrun. assert (Hn1 : rz_namespace_text n1 = s1).
  { pose proof (valid_namespaces_ok names ([], RendezvousActionPlan_default) ltac:(constructor)) as H.
    rewrite Hv in H. by apply Forall_cons in H as [? _]. }
  enough (one_inflight s1 (rn_state r) /\ Forall (first_only n1) (rn_sent r)) as [H1 H2].
  { split; [done|]. intros p k Hin. by apply H1 in Hin as [? _]. }
  refine (rtc_ind_r (fun r => one_inflight s1 (rn_state r) /\ Forall (first_only n1) (rn_sent r)) _ _ _ r Hrun).
  - split; [intros p k; cbn; set_solver|constructor].
  - intros a b _ Hstep [Hi Hs]. destruct Hstep as [text client register addrs s f Hf|ev sw line sw' st s Ha He]; cbn.
    + assert (Hd : discovers_first s1 n1 f).
      { subst f. unfold refresh_rendezvous. destruct (negb _ || _); [split; [done|constructor]|]. rewrite Hv.
        case_decide; [done|]. apply refresh_addrs_first. split; [done|constructor]. }
      destruct Hd as [H1 H2]. split; [done|]. by apply Forall_app.
    + split; [|done]. by eapply client_event_one_inflight.
Qed.

Lemma refresh_namespaces_registered register peer valid p k f :
  names_ok valid -> (p, k) ∈ registered_namespaces (rf_state f) /\ (p, k) ∉ reg_keys (rf_requests f) ->
  (p, k) ∈ registered_namespaces (rf_state (foldl (refresh_namespace cfg register peer) f valid)) /\
  (p, k) ∉ reg_keys (rf_requests (foldl (refresh_namespace cfg register peer) f valid)).
Proof.
  revert f. induction valid as [|ns valid IH]; intros f Hv [Hr Hn]; [done|]. apply Forall_cons in Hv as [Ht Hv].
  apply IH; [done|]. by apply refresh_namespace_registered.
Qed.

Lemma refresh_registered text client register addrs s p k :
  (p, k) ∈ registered_namespaces s ->
  let f := refresh_rendezvous text cfg (Ok names) client register addrs s in
  (p, k) ∈ registered_namespaces (rf_state f) /\ (p, k) ∉ reg_keys (rf_requests f).
Proof using RL.
  intros Hr. cbn zeta. unfold refresh_rendezvous. destruct (negb _ || _); [split; [done|cbn; set_solver]|].
  pose proof (valid_namespaces_ok names ([], RendezvousActionPlan_default) ltac:(constructor)) as Hv.
  destruct (foldl valid_namespace _ names) as [valid plan]. cbn [fst] in Hv. case_decide; [split; [done|cbn; set_solver]|].
  set (f0 := {| rf_state := s |}).
  assert (Hf0 : (p, k) ∈ registered_namespaces (rf_state f0) /\ (p, k) ∉ reg_keys (rf_requests f0)) by (split; [done|cbn; set_solver]).
  clearbody f0. revert f0 Hf0. induction addrs as [|addr addrs IH]; intros f0 Hf0; cbn [foldl]; [done|]. apply IH.
  unfold refresh_addr. destruct (extract_p2p_peer_id addr) as [peer|]; [|exact Hf0]. destruct client; cbn [negb]; [|exact Hf0].
  apply refresh_namespaces_registered; [done|exact Hf0].
Qed.

(** A registration is never renewed: once a rendezvous peer has
    confirmed a namespace, the node sends it no further registration for that
    namespace, although the peer forgets it when its time to live is over. *)
Theorem registration_never_renewed (r r' : rz_run) (p : PeerId) (k : string) :
  is_registered (rn_state r) p k = true -> rtc rz_step r r' ->
  is_registered (rn_state r') p k = true /\
  exists new, rn_sent r' = rn_sent r ++ new /\ (p, k) ∉ reg_keys new.
Proof using RL.
  unfold is_registered. rewrite !bool_decide_eq_true. intros Hr Hrun.
  refine (rtc_ind_r (fun r' => (p, k) ∈ registered_namespaces (rn_state r') /\
    exists new, rn_sent r' = rn_sent r ++ new /\ (p, k) ∉ reg_keys new) _ _ _ r' Hrun).
  - split; [done|]. exists []. rewrite app_nil_r. split; [done|]. cbn. set_solver.
  - intros a b _ Hstep (Hb & new & Hs & Hn). destruct Hstep as [text client register addrs s f ->|ev sw line sw' st s _ He]; cbn.
    + destruct (refresh_registered text client register addrs (rn_state s) p k Hb) as [H1 H2]. split; [done|].
      exists (new ++ rf_requests (refresh_rendezvous text cfg (Ok names) client register addrs (rn_state s))).
      rewrite Hs, <- app_assoc. split; [done|]. rewrite reg_keys_app. set_solver.
    + split; [|eauto]. by eapply client_event_registered.
Qed.
End discovery.
End rendezvous_facts.
