(* ===== verification/Dht.v ===== *)
(** Kademlia discovery (crates/connectivity/dht.rs, dht/keys.rs, dht/state.rs,
    dht/address_records.rs and crates/node/runtime/dht_schedule.rs): provider
    records for the application namespaces, the bookkeeping of the queries, the
    automatic connection to providers, and signed address records. *)

From S2P Require Import Prelude Bytes Text BTree BoundedSet Common AppMessage Relay RelayLimiter Addresses Storage PeerBook PeerCache.
From S2P Require Import ConnectionStrategy StackDiscovery.
From Stdlib Require Import Strings.Byte Ascii.

#[local] Open Scope Z_scope.

Definition MAX_TRACKED_PROVIDER_PEERS : Z := 2048.
Definition PROVIDER_ADDR_LOOKUP_COOLDOWN_SECS : Z := 30.
Definition AUTO_CONNECT_RETRY_COOLDOWN_SECS : Z := 5.
Definition AUTO_CONNECT_RETRY_WINDOW_SECS : Z := 300.
Definition MAX_AUTO_CONNECT_ATTEMPTS_PER_WINDOW : Z := 8.

(** * Configuration *)
Record DhtDiscoveryConfig := {
  dht_enabled : bool;
  dht_announce : bool;
  dht_discover : bool;
  discover_with_rendezvous_peers : bool;
  refresh_interval_secs : Z;
  periodic_bootstrap_interval_secs : option Z;
  query_parallelism : Z;
  provider_key_replicas : Z;
  max_namespaces_per_refresh : Z;
}.

Definition DhtDiscoveryConfig_default : DhtDiscoveryConfig := {|
  dht_enabled := true; dht_announce := true; dht_discover := true; discover_with_rendezvous_peers := true;
  refresh_interval_secs := 300; periodic_bootstrap_interval_secs := Some 300; query_parallelism := 3;
  provider_key_replicas := 3; max_namespaces_per_refresh := 16 |}.

Definition DhtDiscoveryConfig_validate (c : DhtDiscoveryConfig) : result unit NetError :=
  let? _ := reject_if (dht_enabled c && negb (dht_announce c) && negb (dht_discover c))
    (config_error "discovery.dht must enable announce, discover, or be disabled") in
  let? _ := reject_if (bool_decide (max_namespaces_per_refresh c = 0))
    (config_error "discovery.dht.max_namespaces_per_refresh must be at least 1") in
  let? _ := reject_if (bool_decide (query_parallelism c = 0)) (config_error "discovery.dht.query_parallelism must be at least 1") in
  let? _ := reject_if (negb (bool_decide (1 <= provider_key_replicas c <= 3)))
    (config_error "discovery.dht.provider_key_replicas must be between 1 and 3") in
  let? _ := reject_if (bool_decide (periodic_bootstrap_interval_secs c = Some 0))
    (config_error "discovery.dht.periodic_bootstrap_interval_secs must be null or at least 1") in
  reject_if (bool_decide (refresh_interval_secs c = 0)) (config_error "discovery.dht.refresh_interval_secs must be at least 1").

Definition should_discover (c : DhtDiscoveryConfig) (rendezvous_peer_count : Z) : bool :=
  dht_enabled c && dht_discover c && (discover_with_rendezvous_peers c || bool_decide (rendezvous_peer_count = 0)).

(** * Keys *)
(** The [sha2] crate. *)
Class Sha256Lib := { sha256 : list byte -> list byte }.
Class Sha256Laws (S : Sha256Lib) : Prop := { sha256_length bs : len (sha256 bs) = 32 }.

Definition RecordKey : Type := list byte.

Definition DHT_PROVIDER_ANCHOR_PREFIX_BYTES : Z := 2.
Definition DHT_PROVIDER_ANCHOR_MAX_ATTEMPTS : Z := 1048576.
Definition DHT_PROVIDER_ANCHOR_CONTEXT : string := "p2p-net.dht.provider.anchor.v1".
Definition DHT_PEER_ADDRESS_RECORD_CONTEXT : string := "p2p-net.dht.peer-address.v1".
Definition MULTIHASH_SHA2_256_CODE : byte := x12.
Definition SHA2_256_DIGEST_BYTES : byte := x20.

(** [str::rsplit_once]: what follows the last occurrence. *)
Fixpoint list_prefix (p l : list ascii) : option (list ascii) :=
  match p, l with
  | [], _ => Some l
  | x :: p', c :: l' => if decide (c = x) then list_prefix p' l' else None
  | _ :: _, [] => None
  end.

Fixpoint after_last (sep l : list ascii) : option (list ascii) :=
  match l with
  | [] => None
  | _ :: l' => match after_last sep l' with Some r => Some r | None => list_prefix sep l end
  end.

Section dht.
Context {P : PeerIdLib} {M : MultiaddrLib} {S2 : Sha256Lib}.

Definition provider_multihash_key (material : list byte) : RecordKey :=
  [MULTIHASH_SHA2_256_CODE; SHA2_256_DIGEST_BYTES] ++ sha256 material.

Definition dht_record_key (namespace : string) : RecordKey := provider_multihash_key (str_as_bytes namespace).

Definition dht_peer_address_record_key (namespace : string) (peer : PeerId) : RecordKey :=
  provider_multihash_key (str_as_bytes DHT_PEER_ADDRESS_RECORD_CONTEXT ++ [x00] ++ str_as_bytes namespace ++ [x00] ++ peer_to_bytes peer).

Definition dht_record_replica_key (namespace : string) (replica : Z) : RecordKey :=
  if decide (replica = 0) then dht_record_key namespace
  else provider_multihash_key (str_as_bytes (namespace +:+ "/provider-replica/" +:+ pretty replica)).

Definition dht_record_replica_tracking_key (namespace : string) (replica : Z) : string :=
  if decide (replica = 0) then namespace else namespace +:+ ":provider-replica:" +:+ pretty replica.

Definition anchor_candidate (namespace : string) (anchor : PeerId) (replica counter : Z) : RecordKey :=
  [MULTIHASH_SHA2_256_CODE; SHA2_256_DIGEST_BYTES] ++
  sha256 (str_as_bytes DHT_PROVIDER_ANCHOR_CONTEXT ++ [x00] ++ str_as_bytes namespace ++ [byte_of_Z replica]
    ++ peer_to_bytes anchor ++ be_bytes 4 counter).

Definition anchor_prefix (bs : list byte) : list byte := take (Z.to_nat DHT_PROVIDER_ANCHOR_PREFIX_BYTES) bs.

(** The search of [anchored_provider_key] from a counter on. *)
Fixpoint anchor_search (namespace : string) (anchor : PeerId) (replica : Z) (attempts : nat) (counter : Z) : option RecordKey :=
  match attempts with
  | O => None
  | S n =>
      let candidate := anchor_candidate namespace anchor replica counter in
      if decide (anchor_prefix (sha256 candidate) = anchor_prefix (sha256 (peer_to_bytes anchor))) then Some candidate
      else anchor_search namespace anchor replica n (counter + 1)
  end.

Definition anchored_provider_key (namespace : string) (anchor : PeerId) (replica : Z) : RecordKey :=
  match anchor_search namespace anchor replica (Z.to_nat DHT_PROVIDER_ANCHOR_MAX_ATTEMPTS) 0 with
  | Some candidate => candidate
  | None => dht_record_replica_key namespace replica
  end.

(** What the functions below read of [DiscoveryConfig]. *)
Record DhtEnv := {
  dhtx_config : DhtDiscoveryConfig;
  dhtx_public_enabled : bool;
  dhtx_public_seeds : list string;
  dhtx_namespaces : result (list string) NetError;
}.

Definition seed_anchor (addr : string) : option PeerId :=
  match after_last (chars "/p2p/") (chars addr) with
  | Some peer => ok (peer_parse (text peer))
  | None => None
  end.

Definition public_anchors (env : DhtEnv) : list PeerId :=
  if dhtx_public_enabled env
  then take (Z.to_nat (provider_key_replicas (dhtx_config env))) (omap seed_anchor (dhtx_public_seeds env))
  else [].

(** [enumerate]. *)
Definition indexed {A} (l : list A) : list (Z * A) := zip (seqZ 0 (Z.of_nat (length l))) l.

(** [u8::try_from(replica).expect(..)] panics above 255. *)
Fixpoint replica_keys (namespace : string) (replicas : list Z) : run (list (string * RecordKey)) :=
  match replicas with
  | [] => Ret []
  | replica :: rest =>
      if decide (replica <= 255) then
        let! keys := replica_keys namespace rest in
        Ret ((dht_record_replica_tracking_key namespace replica, dht_record_replica_key namespace replica) :: keys)
      else Panic
  end.

Definition dht_provider_keys (namespace : string) (env : DhtEnv) : run (list (string * RecordKey)) :=
  match public_anchors env with
  | [] => replica_keys namespace (seqZ 0 (provider_key_replicas (dhtx_config env)))
  | anchors =>
      Ret ((fun e => (namespace +:+ ":provider-anchor:" +:+ pretty e.1, anchored_provider_key namespace e.2 (e.1 mod 256)))
             <$> indexed anchors)
  end.

(** * State *)
Record AutoConnectRetryState := { ac_attempts : Z; ac_window_started : Z; ac_last_attempt : Z }.

Definition AutoConnectRetryState_default : AutoConnectRetryState :=
  {| ac_attempts := 0; ac_window_started := 0; ac_last_attempt := 0 |}.

Record DhtProviderState := {
  announce_attempts : Z;
  announce_failures : Z;
  namespaces_announced : gset string;
  provider_queries : Z;
  provider_query_failures : Z;
  provider_records_found : Z;
  provider_queries_finished : Z;
  discovered_provider_peers : gmap PeerId (gset string);
  auto_connect_attempted : BoundedSet PeerId;
  auto_connect_waiting : BoundedSet PeerId;
  auto_connect_retry : gmap PeerId AutoConnectRetryState;
  auto_connect_retry_order : list PeerId;
  discovered_provider_order : list PeerId;
  provider_announce_started : gmap string Z;
  provider_query_started : gmap string Z;
  provider_addr_lookup_started : gmap PeerId Z;
  provider_keys_by_namespace : gmap string (list (string * RecordKey));
  start_providing_queries : gmap Z string;
  start_providing_query_keys : gmap Z string;
  get_provider_queries : gmap Z string;
  get_provider_query_keys : gmap Z string;
  provider_addr_lookup_queries : gmap Z PeerId;
  address_record_put_queries : gmap Z (string * string);
  address_record_get_queries : gmap Z (PeerId * string);
  address_record_last_fingerprint : gmap string string;
  address_record_published : gmap string Z;
  address_record_lookup_started : gmap (PeerId * string) Z;
}.

Definition upd_announce_attempts (g : Z -> Z) (s : DhtProviderState) : DhtProviderState := {|
  announce_attempts := g (announce_attempts s); announce_failures := announce_failures s;
  namespaces_announced := namespaces_announced s; provider_queries := provider_queries s;
  provider_query_failures := provider_query_failures s; provider_records_found := provider_records_found s;
  provider_queries_finished := provider_queries_finished s;
  discovered_provider_peers := discovered_provider_peers s; auto_connect_attempted := auto_connect_attempted s;
  auto_connect_waiting := auto_connect_waiting s; auto_connect_retry := auto_connect_retry s;
  auto_connect_retry_order := auto_connect_retry_order s;
  discovered_provider_order := discovered_provider_order s;
  provider_announce_started := provider_announce_started s; provider_query_started := provider_query_started s;
  provider_addr_lookup_started := provider_addr_lookup_started s;
  provider_keys_by_namespace := provider_keys_by_namespace s;
  start_providing_queries := start_providing_queries s;
  start_providing_query_keys := start_providing_query_keys s; get_provider_queries := get_provider_queries s;
  get_provider_query_keys := get_provider_query_keys s;
  provider_addr_lookup_queries := provider_addr_lookup_queries s;
  address_record_put_queries := address_record_put_queries s;
  address_record_get_queries := address_record_get_queries s;
  address_record_last_fingerprint := address_record_last_fingerprint s;
  address_record_published := address_record_published s;
  address_record_lookup_started := address_record_lookup_started s |}.
Definition upd_announce_failures (g : Z -> Z) (s : DhtProviderState) : DhtProviderState := {|
  announce_attempts := announce_attempts s; announce_failures := g (announce_failures s);
  namespaces_announced := namespaces_announced s; provider_queries := provider_queries s;
  provider_query_failures := provider_query_failures s; provider_records_found := provider_records_found s;
  provider_queries_finished := provider_queries_finished s;
  discovered_provider_peers := discovered_provider_peers s; auto_connect_attempted := auto_connect_attempted s;
  auto_connect_waiting := auto_connect_waiting s; auto_connect_retry := auto_connect_retry s;
  auto_connect_retry_order := auto_connect_retry_order s;
  discovered_provider_order := discovered_provider_order s;
  provider_announce_started := provider_announce_started s; provider_query_started := provider_query_started s;
  provider_addr_lookup_started := provider_addr_lookup_started s;
  provider_keys_by_namespace := provider_keys_by_namespace s;
  start_providing_queries := start_providing_queries s;
  start_providing_query_keys := start_providing_query_keys s; get_provider_queries := get_provider_queries s;
  get_provider_query_keys := get_provider_query_keys s;
  provider_addr_lookup_queries := provider_addr_lookup_queries s;
  address_record_put_queries := address_record_put_queries s;
  address_record_get_queries := address_record_get_queries s;
  address_record_last_fingerprint := address_record_last_fingerprint s;
  address_record_published := address_record_published s;
  address_record_lookup_started := address_record_lookup_started s |}.
Definition upd_namespaces_announced (g : gset string -> gset string) (s : DhtProviderState) : DhtProviderState := {|
  announce_attempts := announce_attempts s; announce_failures := announce_failures s;
  namespaces_announced := g (namespaces_announced s); provider_queries := provider_queries s;
  provider_query_failures := provider_query_failures s; provider_records_found := provider_records_found s;
  provider_queries_finished := provider_queries_finished s;
  discovered_provider_peers := discovered_provider_peers s; auto_connect_attempted := auto_connect_attempted s;
  auto_connect_waiting := auto_connect_waiting s; auto_connect_retry := auto_connect_retry s;
  auto_connect_retry_order := auto_connect_retry_order s;
  discovered_provider_order := discovered_provider_order s;
  provider_announce_started := provider_announce_started s; provider_query_started := provider_query_started s;
  provider_addr_lookup_started := provider_addr_lookup_started s;
  provider_keys_by_namespace := provider_keys_by_namespace s;
  start_providing_queries := start_providing_queries s;
  start_providing_query_keys := start_providing_query_keys s; get_provider_queries := get_provider_queries s;
  get_provider_query_keys := get_provider_query_keys s;
  provider_addr_lookup_queries := provider_addr_lookup_queries s;
  address_record_put_queries := address_record_put_queries s;
  address_record_get_queries := address_record_get_queries s;
  address_record_last_fingerprint := address_record_last_fingerprint s;
  address_record_published := address_record_published s;
  address_record_lookup_started := address_record_lookup_started s |}.
Definition upd_provider_queries (g : Z -> Z) (s : DhtProviderState) : DhtProviderState := {|
  announce_attempts := announce_attempts s; announce_failures := announce_failures s;
  namespaces_announced := namespaces_announced s; provider_queries := g (provider_queries s);
  provider_query_failures := provider_query_failures s; provider_records_found := provider_records_found s;
  provider_queries_finished := provider_queries_finished s;
  discovered_provider_peers := discovered_provider_peers s; auto_connect_attempted := auto_connect_attempted s;
  auto_connect_waiting := auto_connect_waiting s; auto_connect_retry := auto_connect_retry s;
  auto_connect_retry_order := auto_connect_retry_order s;
  discovered_provider_order := discovered_provider_order s;
  provider_announce_started := provider_announce_started s; provider_query_started := provider_query_started s;
  provider_addr_lookup_started := provider_addr_lookup_started s;
  provider_keys_by_namespace := provider_keys_by_namespace s;
  start_providing_queries := start_providing_queries s;
  start_providing_query_keys := start_providing_query_keys s; get_provider_queries := get_provider_queries s;
  get_provider_query_keys := get_provider_query_keys s;
  provider_addr_lookup_queries := provider_addr_lookup_queries s;
  address_record_put_queries := address_record_put_queries s;
  address_record_get_queries := address_record_get_queries s;
  address_record_last_fingerprint := address_record_last_fingerprint s;
  address_record_published := address_record_published s;
  address_record_lookup_started := address_record_lookup_started s |}.
Definition upd_provider_query_failures (g : Z -> Z) (s : DhtProviderState) : DhtProviderState := {|
  announce_attempts := announce_attempts s; announce_failures := announce_failures s;
  namespaces_announced := namespaces_announced s; provider_queries := provider_queries s;
  provider_query_failures := g (provider_query_failures s); provider_records_found := provider_records_found s;
  provider_queries_finished := provider_queries_finished s;
  discovered_provider_peers := discovered_provider_peers s; auto_connect_attempted := auto_connect_attempted s;
  auto_connect_waiting := auto_connect_waiting s; auto_connect_retry := auto_connect_retry s;
  auto_connect_retry_order := auto_connect_retry_order s;
  discovered_provider_order := discovered_provider_order s;
  provider_announce_started := provider_announce_started s; provider_query_started := provider_query_started s;
  provider_addr_lookup_started := provider_addr_lookup_started s;
  provider_keys_by_namespace := provider_keys_by_namespace s;
  start_providing_queries := start_providing_queries s;
  start_providing_query_keys := start_providing_query_keys s; get_provider_queries := get_provider_queries s;
  get_provider_query_keys := get_provider_query_keys s;
  provider_addr_lookup_queries := provider_addr_lookup_queries s;
  address_record_put_queries := address_record_put_queries s;
  address_record_get_queries := address_record_get_queries s;
  address_record_last_fingerprint := address_record_last_fingerprint s;
  address_record_published := address_record_published s;
  address_record_lookup_started := address_record_lookup_started s |}.
Definition upd_provider_records_found (g : Z -> Z) (s : DhtProviderState) : DhtProviderState := {|
  announce_attempts := announce_attempts s; announce_failures := announce_failures s;
  namespaces_announced := namespaces_announced s; provider_queries := provider_queries s;
  provider_query_failures := provider_query_failures s; provider_records_found := g (provider_records_found s);
  provider_queries_finished := provider_queries_finished s;
  discovered_provider_peers := discovered_provider_peers s; auto_connect_attempted := auto_connect_attempted s;
  auto_connect_waiting := auto_connect_waiting s; auto_connect_retry := auto_connect_retry s;
  auto_connect_retry_order := auto_connect_retry_order s;
  discovered_provider_order := discovered_provider_order s;
  provider_announce_started := provider_announce_started s; provider_query_started := provider_query_started s;
  provider_addr_lookup_started := provider_addr_lookup_started s;
  provider_keys_by_namespace := provider_keys_by_namespace s;
  start_providing_queries := start_providing_queries s;
  start_providing_query_keys := start_providing_query_keys s; get_provider_queries := get_provider_queries s;
  get_provider_query_keys := get_provider_query_keys s;
  provider_addr_lookup_queries := provider_addr_lookup_queries s;
  address_record_put_queries := address_record_put_queries s;
  address_record_get_queries := address_record_get_queries s;
  address_record_last_fingerprint := address_record_last_fingerprint s;
  address_record_published := address_record_published s;
  address_record_lookup_started := address_record_lookup_started s |}.
Definition upd_provider_queries_finished (g : Z -> Z) (s : DhtProviderState) : DhtProviderState := {|
  announce_attempts := announce_attempts s; announce_failures := announce_failures s;
  namespaces_announced := namespaces_announced s; provider_queries := provider_queries s;
  provider_query_failures := provider_query_failures s; provider_records_found := provider_records_found s;
  provider_queries_finished := g (provider_queries_finished s);
  discovered_provider_peers := discovered_provider_peers s; auto_connect_attempted := auto_connect_attempted s;
  auto_connect_waiting := auto_connect_waiting s; auto_connect_retry := auto_connect_retry s;
  auto_connect_retry_order := auto_connect_retry_order s;
  discovered_provider_order := discovered_provider_order s;
  provider_announce_started := provider_announce_started s; provider_query_started := provider_query_started s;
  provider_addr_lookup_started := provider_addr_lookup_started s;
  provider_keys_by_namespace := provider_keys_by_namespace s;
  start_providing_queries := start_providing_queries s;
  start_providing_query_keys := start_providing_query_keys s; get_provider_queries := get_provider_queries s;
  get_provider_query_keys := get_provider_query_keys s;
  provider_addr_lookup_queries := provider_addr_lookup_queries s;
  address_record_put_queries := address_record_put_queries s;
  address_record_get_queries := address_record_get_queries s;
  address_record_last_fingerprint := address_record_last_fingerprint s;
  address_record_published := address_record_published s;
  address_record_lookup_started := address_record_lookup_started s |}.
Definition upd_discovered_provider_peers (g : gmap PeerId (gset string) -> gmap PeerId (gset string)) (s : DhtProviderState) : DhtProviderState := {|
  announce_attempts := announce_attempts s; announce_failures := announce_failures s;
  namespaces_announced := namespaces_announced s; provider_queries := provider_queries s;
  provider_query_failures := provider_query_failures s; provider_records_found := provider_records_found s;
  provider_queries_finished := provider_queries_finished s;
  discovered_provider_peers := g (discovered_provider_peers s);
  auto_connect_attempted := auto_connect_attempted s; auto_connect_waiting := auto_connect_waiting s;
  auto_connect_retry := auto_connect_retry s; auto_connect_retry_order := auto_connect_retry_order s;
  discovered_provider_order := discovered_provider_order s;
  provider_announce_started := provider_announce_started s; provider_query_started := provider_query_started s;
  provider_addr_lookup_started := provider_addr_lookup_started s;
  provider_keys_by_namespace := provider_keys_by_namespace s;
  start_providing_queries := start_providing_queries s;
  start_providing_query_keys := start_providing_query_keys s; get_provider_queries := get_provider_queries s;
  get_provider_query_keys := get_provider_query_keys s;
  provider_addr_lookup_queries := provider_addr_lookup_queries s;
  address_record_put_queries := address_record_put_queries s;
  address_record_get_queries := address_record_get_queries s;
  address_record_last_fingerprint := address_record_last_fingerprint s;
  address_record_published := address_record_published s;
  address_record_lookup_started := address_record_lookup_started s |}.
Definition upd_auto_connect_attempted (g : BoundedSet PeerId -> BoundedSet PeerId) (s : DhtProviderState) : DhtProviderState := {|
  announce_attempts := announce_attempts s; announce_failures := announce_failures s;
  namespaces_announced := namespaces_announced s; provider_queries := provider_queries s;
  provider_query_failures := provider_query_failures s; provider_records_found := provider_records_found s;
  provider_queries_finished := provider_queries_finished s;
  discovered_provider_peers := discovered_provider_peers s;
  auto_connect_attempted := g (auto_connect_attempted s); auto_connect_waiting := auto_connect_waiting s;
  auto_connect_retry := auto_connect_retry s; auto_connect_retry_order := auto_connect_retry_order s;
  discovered_provider_order := discovered_provider_order s;
  provider_announce_started := provider_announce_started s; provider_query_started := provider_query_started s;
  provider_addr_lookup_started := provider_addr_lookup_started s;
  provider_keys_by_namespace := provider_keys_by_namespace s;
  start_providing_queries := start_providing_queries s;
  start_providing_query_keys := start_providing_query_keys s; get_provider_queries := get_provider_queries s;
  get_provider_query_keys := get_provider_query_keys s;
  provider_addr_lookup_queries := provider_addr_lookup_queries s;
  address_record_put_queries := address_record_put_queries s;
  address_record_get_queries := address_record_get_queries s;
  address_record_last_fingerprint := address_record_last_fingerprint s;
  address_record_published := address_record_published s;
  address_record_lookup_started := address_record_lookup_started s |}.
Definition upd_auto_connect_waiting (g : BoundedSet PeerId -> BoundedSet PeerId) (s : DhtProviderState) : DhtProviderState := {|
  announce_attempts := announce_attempts s; announce_failures := announce_failures s;
  namespaces_announced := namespaces_announced s; provider_queries := provider_queries s;
  provider_query_failures := provider_query_failures s; provider_records_found := provider_records_found s;
  provider_queries_finished := provider_queries_finished s;
  discovered_provider_peers := discovered_provider_peers s; auto_connect_attempted := auto_connect_attempted s;
  auto_connect_waiting := g (auto_connect_waiting s); auto_connect_retry := auto_connect_retry s;
  auto_connect_retry_order := auto_connect_retry_order s;
  discovered_provider_order := discovered_provider_order s;
  provider_announce_started := provider_announce_started s; provider_query_started := provider_query_started s;
  provider_addr_lookup_started := provider_addr_lookup_started s;
  provider_keys_by_namespace := provider_keys_by_namespace s;
  start_providing_queries := start_providing_queries s;
  start_providing_query_keys := start_providing_query_keys s; get_provider_queries := get_provider_queries s;
  get_provider_query_keys := get_provider_query_keys s;
  provider_addr_lookup_queries := provider_addr_lookup_queries s;
  address_record_put_queries := address_record_put_queries s;
  address_record_get_queries := address_record_get_queries s;
  address_record_last_fingerprint := address_record_last_fingerprint s;
  address_record_published := address_record_published s;
  address_record_lookup_started := address_record_lookup_started s |}.
Definition upd_auto_connect_retry (g : gmap PeerId AutoConnectRetryState -> gmap PeerId AutoConnectRetryState) (s : DhtProviderState) : DhtProviderState := {|
  announce_attempts := announce_attempts s; announce_failures := announce_failures s;
  namespaces_announced := namespaces_announced s; provider_queries := provider_queries s;
  provider_query_failures := provider_query_failures s; provider_records_found := provider_records_found s;
  provider_queries_finished := provider_queries_finished s;
  discovered_provider_peers := discovered_provider_peers s; auto_connect_attempted := auto_connect_attempted s;
  auto_connect_waiting := auto_connect_waiting s; auto_connect_retry := g (auto_connect_retry s);
  auto_connect_retry_order := auto_connect_retry_order s;
  discovered_provider_order := discovered_provider_order s;
  provider_announce_started := provider_announce_started s; provider_query_started := provider_query_started s;
  provider_addr_lookup_started := provider_addr_lookup_started s;
  provider_keys_by_namespace := provider_keys_by_namespace s;
  start_providing_queries := start_providing_queries s;
  start_providing_query_keys := start_providing_query_keys s; get_provider_queries := get_provider_queries s;
  get_provider_query_keys := get_provider_query_keys s;
  provider_addr_lookup_queries := provider_addr_lookup_queries s;
  address_record_put_queries := address_record_put_queries s;
  address_record_get_queries := address_record_get_queries s;
  address_record_last_fingerprint := address_record_last_fingerprint s;
  address_record_published := address_record_published s;
  address_record_lookup_started := address_record_lookup_started s |}.
Definition upd_auto_connect_retry_order (g : list PeerId -> list PeerId) (s : DhtProviderState) : DhtProviderState := {|
  announce_attempts := announce_attempts s; announce_failures := announce_failures s;
  namespaces_announced := namespaces_announced s; provider_queries := provider_queries s;
  provider_query_failures := provider_query_failures s; provider_records_found := provider_records_found s;
  provider_queries_finished := provider_queries_finished s;
  discovered_provider_peers := discovered_provider_peers s; auto_connect_attempted := auto_connect_attempted s;
  auto_connect_waiting := auto_connect_waiting s; auto_connect_retry := auto_connect_retry s;
  auto_connect_retry_order := g (auto_connect_retry_order s);
  discovered_provider_order := discovered_provider_order s;
  provider_announce_started := provider_announce_started s; provider_query_started := provider_query_started s;
  provider_addr_lookup_started := provider_addr_lookup_started s;
  provider_keys_by_namespace := provider_keys_by_namespace s;
  start_providing_queries := start_providing_queries s;
  start_providing_query_keys := start_providing_query_keys s; get_provider_queries := get_provider_queries s;
  get_provider_query_keys := get_provider_query_keys s;
  provider_addr_lookup_queries := provider_addr_lookup_queries s;
  address_record_put_queries := address_record_put_queries s;
  address_record_get_queries := address_record_get_queries s;
  address_record_last_fingerprint := address_record_last_fingerprint s;
  address_record_published := address_record_published s;
  address_record_lookup_started := address_record_lookup_started s |}.
Definition upd_discovered_provider_order (g : list PeerId -> list PeerId) (s : DhtProviderState) : DhtProviderState := {|
  announce_attempts := announce_attempts s; announce_failures := announce_failures s;
  namespaces_announced := namespaces_announced s; provider_queries := provider_queries s;
  provider_query_failures := provider_query_failures s; provider_records_found := provider_records_found s;
  provider_queries_finished := provider_queries_finished s;
  discovered_provider_peers := discovered_provider_peers s; auto_connect_attempted := auto_connect_attempted s;
  auto_connect_waiting := auto_connect_waiting s; auto_connect_retry := auto_connect_retry s;
  auto_connect_retry_order := auto_connect_retry_order s;
  discovered_provider_order := g (discovered_provider_order s);
  provider_announce_started := provider_announce_started s; provider_query_started := provider_query_started s;
  provider_addr_lookup_started := provider_addr_lookup_started s;
  provider_keys_by_namespace := provider_keys_by_namespace s;
  start_providing_queries := start_providing_queries s;
  start_providing_query_keys := start_providing_query_keys s; get_provider_queries := get_provider_queries s;
  get_provider_query_keys := get_provider_query_keys s;
  provider_addr_lookup_queries := provider_addr_lookup_queries s;
  address_record_put_queries := address_record_put_queries s;
  address_record_get_queries := address_record_get_queries s;
  address_record_last_fingerprint := address_record_last_fingerprint s;
  address_record_published := address_record_published s;
  address_record_lookup_started := address_record_lookup_started s |}.
Definition upd_provider_announce_started (g : gmap string Z -> gmap string Z) (s : DhtProviderState) : DhtProviderState := {|
  announce_attempts := announce_attempts s; announce_failures := announce_failures s;
  namespaces_announced := namespaces_announced s; provider_queries := provider_queries s;
  provider_query_failures := provider_query_failures s; provider_records_found := provider_records_found s;
  provider_queries_finished := provider_queries_finished s;
  discovered_provider_peers := discovered_provider_peers s; auto_connect_attempted := auto_connect_attempted s;
  auto_connect_waiting := auto_connect_waiting s; auto_connect_retry := auto_connect_retry s;
  auto_connect_retry_order := auto_connect_retry_order s;
  discovered_provider_order := discovered_provider_order s;
  provider_announce_started := g (provider_announce_started s);
  provider_query_started := provider_query_started s;
  provider_addr_lookup_started := provider_addr_lookup_started s;
  provider_keys_by_namespace := provider_keys_by_namespace s;
  start_providing_queries := start_providing_queries s;
  start_providing_query_keys := start_providing_query_keys s; get_provider_queries := get_provider_queries s;
  get_provider_query_keys := get_provider_query_keys s;
  provider_addr_lookup_queries := provider_addr_lookup_queries s;
  address_record_put_queries := address_record_put_queries s;
  address_record_get_queries := address_record_get_queries s;
  address_record_last_fingerprint := address_record_last_fingerprint s;
  address_record_published := address_record_published s;
  address_record_lookup_started := address_record_lookup_started s |}.
Definition upd_provider_query_started (g : gmap string Z -> gmap string Z) (s : DhtProviderState) : DhtProviderState := {|
  announce_attempts := announce_attempts s; announce_failures := announce_failures s;
  namespaces_announced := namespaces_announced s; provider_queries := provider_queries s;
  provider_query_failures := provider_query_failures s; provider_records_found := provider_records_found s;
  provider_queries_finished := provider_queries_finished s;
  discovered_provider_peers := discovered_provider_peers s; auto_connect_attempted := auto_connect_attempted s;
  auto_connect_waiting := auto_connect_waiting s; auto_connect_retry := auto_connect_retry s;
  auto_connect_retry_order := auto_connect_retry_order s;
  discovered_provider_order := discovered_provider_order s;
  provider_announce_started := provider_announce_started s;
  provider_query_started := g (provider_query_started s);
  provider_addr_lookup_started := provider_addr_lookup_started s;
  provider_keys_by_namespace := provider_keys_by_namespace s;
  start_providing_queries := start_providing_queries s;
  start_providing_query_keys := start_providing_query_keys s; get_provider_queries := get_provider_queries s;
  get_provider_query_keys := get_provider_query_keys s;
  provider_addr_lookup_queries := provider_addr_lookup_queries s;
  address_record_put_queries := address_record_put_queries s;
  address_record_get_queries := address_record_get_queries s;
  address_record_last_fingerprint := address_record_last_fingerprint s;
  address_record_published := address_record_published s;
  address_record_lookup_started := address_record_lookup_started s |}.
Definition upd_provider_addr_lookup_started (g : gmap PeerId Z -> gmap PeerId Z) (s : DhtProviderState) : DhtProviderState := {|
  announce_attempts := announce_attempts s; announce_failures := announce_failures s;
  namespaces_announced := namespaces_announced s; provider_queries := provider_queries s;
  provider_query_failures := provider_query_failures s; provider_records_found := provider_records_found s;
  provider_queries_finished := provider_queries_finished s;
  discovered_provider_peers := discovered_provider_peers s; auto_connect_attempted := auto_connect_attempted s;
  auto_connect_waiting := auto_connect_waiting s; auto_connect_retry := auto_connect_retry s;
  auto_connect_retry_order := auto_connect_retry_order s;
  discovered_provider_order := discovered_provider_order s;
  provider_announce_started := provider_announce_started s; provider_query_started := provider_query_started s;
  provider_addr_lookup_started := g (provider_addr_lookup_started s);
  provider_keys_by_namespace := provider_keys_by_namespace s;
  start_providing_queries := start_providing_queries s;
  start_providing_query_keys := start_providing_query_keys s; get_provider_queries := get_provider_queries s;
  get_provider_query_keys := get_provider_query_keys s;
  provider_addr_lookup_queries := provider_addr_lookup_queries s;
  address_record_put_queries := address_record_put_queries s;
  address_record_get_queries := address_record_get_queries s;
  address_record_last_fingerprint := address_record_last_fingerprint s;
  address_record_published := address_record_published s;
  address_record_lookup_started := address_record_lookup_started s |}.
Definition upd_provider_keys_by_namespace (g : gmap string (list (string * RecordKey)) -> gmap string (list (string * RecordKey))) (s : DhtProviderState) : DhtProviderState := {|
  announce_attempts := announce_attempts s; announce_failures := announce_failures s;
  namespaces_announced := namespaces_announced s; provider_queries := provider_queries s;
  provider_query_failures := provider_query_failures s; provider_records_found := provider_records_found s;
  provider_queries_finished := provider_queries_finished s;
  discovered_provider_peers := discovered_provider_peers s; auto_connect_attempted := auto_connect_attempted s;
  auto_connect_waiting := auto_connect_waiting s; auto_connect_retry := auto_connect_retry s;
  auto_connect_retry_order := auto_connect_retry_order s;
  discovered_provider_order := discovered_provider_order s;
  provider_announce_started := provider_announce_started s; provider_query_started := provider_query_started s;
  provider_addr_lookup_started := provider_addr_lookup_started s;
  provider_keys_by_namespace := g (provider_keys_by_namespace s);
  start_providing_queries := start_providing_queries s;
  start_providing_query_keys := start_providing_query_keys s; get_provider_queries := get_provider_queries s;
  get_provider_query_keys := get_provider_query_keys s;
  provider_addr_lookup_queries := provider_addr_lookup_queries s;
  address_record_put_queries := address_record_put_queries s;
  address_record_get_queries := address_record_get_queries s;
  address_record_last_fingerprint := address_record_last_fingerprint s;
  address_record_published := address_record_published s;
  address_record_lookup_started := address_record_lookup_started s |}.
Definition upd_start_providing_queries (g : gmap Z string -> gmap Z string) (s : DhtProviderState) : DhtProviderState := {|
  announce_attempts := announce_attempts s; announce_failures := announce_failures s;
  namespaces_announced := namespaces_announced s; provider_queries := provider_queries s;
  provider_query_failures := provider_query_failures s; provider_records_found := provider_records_found s;
  provider_queries_finished := provider_queries_finished s;
  discovered_provider_peers := discovered_provider_peers s; auto_connect_attempted := auto_connect_attempted s;
  auto_connect_waiting := auto_connect_waiting s; auto_connect_retry := auto_connect_retry s;
  auto_connect_retry_order := auto_connect_retry_order s;
  discovered_provider_order := discovered_provider_order s;
  provider_announce_started := provider_announce_started s; provider_query_started := provider_query_started s;
  provider_addr_lookup_started := provider_addr_lookup_started s;
  provider_keys_by_namespace := provider_keys_by_namespace s;
  start_providing_queries := g (start_providing_queries s);
  start_providing_query_keys := start_providing_query_keys s; get_provider_queries := get_provider_queries s;
  get_provider_query_keys := get_provider_query_keys s;
  provider_addr_lookup_queries := provider_addr_lookup_queries s;
  address_record_put_queries := address_record_put_queries s;
  address_record_get_queries := address_record_get_queries s;
  address_record_last_fingerprint := address_record_last_fingerprint s;
  address_record_published := address_record_published s;
  address_record_lookup_started := address_record_lookup_started s |}.
Definition upd_start_providing_query_keys (g : gmap Z string -> gmap Z string) (s : DhtProviderState) : DhtProviderState := {|
  announce_attempts := announce_attempts s; announce_failures := announce_failures s;
  namespaces_announced := namespaces_announced s; provider_queries := provider_queries s;
  provider_query_failures := provider_query_failures s; provider_records_found := provider_records_found s;
  provider_queries_finished := provider_queries_finished s;
  discovered_provider_peers := discovered_provider_peers s; auto_connect_attempted := auto_connect_attempted s;
  auto_connect_waiting := auto_connect_waiting s; auto_connect_retry := auto_connect_retry s;
  auto_connect_retry_order := auto_connect_retry_order s;
  discovered_provider_order := discovered_provider_order s;
  provider_announce_started := provider_announce_started s; provider_query_started := provider_query_started s;
  provider_addr_lookup_started := provider_addr_lookup_started s;
  provider_keys_by_namespace := provider_keys_by_namespace s;
  start_providing_queries := start_providing_queries s;
  start_providing_query_keys := g (start_providing_query_keys s); get_provider_queries := get_provider_queries s;
  get_provider_query_keys := get_provider_query_keys s;
  provider_addr_lookup_queries := provider_addr_lookup_queries s;
  address_record_put_queries := address_record_put_queries s;
  address_record_get_queries := address_record_get_queries s;
  address_record_last_fingerprint := address_record_last_fingerprint s;
  address_record_published := address_record_published s;
  address_record_lookup_started := address_record_lookup_started s |}.
Definition upd_get_provider_queries (g : gmap Z string -> gmap Z string) (s : DhtProviderState) : DhtProviderState := {|
  announce_attempts := announce_attempts s; announce_failures := announce_failures s;
  namespaces_announced := namespaces_announced s; provider_queries := provider_queries s;
  provider_query_failures := provider_query_failures s; provider_records_found := provider_records_found s;
  provider_queries_finished := provider_queries_finished s;
  discovered_provider_peers := discovered_provider_peers s; auto_connect_attempted := auto_connect_attempted s;
  auto_connect_waiting := auto_connect_waiting s; auto_connect_retry := auto_connect_retry s;
  auto_connect_retry_order := auto_connect_retry_order s;
  discovered_provider_order := discovered_provider_order s;
  provider_announce_started := provider_announce_started s; provider_query_started := provider_query_started s;
  provider_addr_lookup_started := provider_addr_lookup_started s;
  provider_keys_by_namespace := provider_keys_by_namespace s;
  start_providing_queries := start_providing_queries s;
  start_providing_query_keys := start_providing_query_keys s; get_provider_queries := g (get_provider_queries s);
  get_provider_query_keys := get_provider_query_keys s;
  provider_addr_lookup_queries := provider_addr_lookup_queries s;
  address_record_put_queries := address_record_put_queries s;
  address_record_get_queries := address_record_get_queries s;
  address_record_last_fingerprint := address_record_last_fingerprint s;
  address_record_published := address_record_published s;
  address_record_lookup_started := address_record_lookup_started s |}.
Definition upd_get_provider_query_keys (g : gmap Z string -> gmap Z string) (s : DhtProviderState) : DhtProviderState := {|
  announce_attempts := announce_attempts s; announce_failures := announce_failures s;
  namespaces_announced := namespaces_announced s; provider_queries := provider_queries s;
  provider_query_failures := provider_query_failures s; provider_records_found := provider_records_found s;
  provider_queries_finished := provider_queries_finished s;
  discovered_provider_peers := discovered_provider_peers s; auto_connect_attempted := auto_connect_attempted s;
  auto_connect_waiting := auto_connect_waiting s; auto_connect_retry := auto_connect_retry s;
  auto_connect_retry_order := auto_connect_retry_order s;
  discovered_provider_order := discovered_provider_order s;
  provider_announce_started := provider_announce_started s; provider_query_started := provider_query_started s;
  provider_addr_lookup_started := provider_addr_lookup_started s;
  provider_keys_by_namespace := provider_keys_by_namespace s;
  start_providing_queries := start_providing_queries s;
  start_providing_query_keys := start_providing_query_keys s; get_provider_queries := get_provider_queries s;
  get_provider_query_keys := g (get_provider_query_keys s);
  provider_addr_lookup_queries := provider_addr_lookup_queries s;
  address_record_put_queries := address_record_put_queries s;
  address_record_get_queries := address_record_get_queries s;
  address_record_last_fingerprint := address_record_last_fingerprint s;
  address_record_published := address_record_published s;
  address_record_lookup_started := address_record_lookup_started s |}.
Definition upd_provider_addr_lookup_queries (g : gmap Z PeerId -> gmap Z PeerId) (s : DhtProviderState) : DhtProviderState := {|
  announce_attempts := announce_attempts s; announce_failures := announce_failures s;
  namespaces_announced := namespaces_announced s; provider_queries := provider_queries s;
  provider_query_failures := provider_query_failures s; provider_records_found := provider_records_found s;
  provider_queries_finished := provider_queries_finished s;
  discovered_provider_peers := discovered_provider_peers s; auto_connect_attempted := auto_connect_attempted s;
  auto_connect_waiting := auto_connect_waiting s; auto_connect_retry := auto_connect_retry s;
  auto_connect_retry_order := auto_connect_retry_order s;
  discovered_provider_order := discovered_provider_order s;
  provider_announce_started := provider_announce_started s; provider_query_started := provider_query_started s;
  provider_addr_lookup_started := provider_addr_lookup_started s;
  provider_keys_by_namespace := provider_keys_by_namespace s;
  start_providing_queries := start_providing_queries s;
  start_providing_query_keys := start_providing_query_keys s; get_provider_queries := get_provider_queries s;
  get_provider_query_keys := get_provider_query_keys s;
  provider_addr_lookup_queries := g (provider_addr_lookup_queries s);
  address_record_put_queries := address_record_put_queries s;
  address_record_get_queries := address_record_get_queries s;
  address_record_last_fingerprint := address_record_last_fingerprint s;
  address_record_published := address_record_published s;
  address_record_lookup_started := address_record_lookup_started s |}.
Definition upd_address_record_put_queries (g : gmap Z (string * string) -> gmap Z (string * string)) (s : DhtProviderState) : DhtProviderState := {|
  announce_attempts := announce_attempts s; announce_failures := announce_failures s;
  namespaces_announced := namespaces_announced s; provider_queries := provider_queries s;
  provider_query_failures := provider_query_failures s; provider_records_found := provider_records_found s;
  provider_queries_finished := provider_queries_finished s;
  discovered_provider_peers := discovered_provider_peers s; auto_connect_attempted := auto_connect_attempted s;
  auto_connect_waiting := auto_connect_waiting s; auto_connect_retry := auto_connect_retry s;
  auto_connect_retry_order := auto_connect_retry_order s;
  discovered_provider_order := discovered_provider_order s;
  provider_announce_started := provider_announce_started s; provider_query_started := provider_query_started s;
  provider_addr_lookup_started := provider_addr_lookup_started s;
  provider_keys_by_namespace := provider_keys_by_namespace s;
  start_providing_queries := start_providing_queries s;
  start_providing_query_keys := start_providing_query_keys s; get_provider_queries := get_provider_queries s;
  get_provider_query_keys := get_provider_query_keys s;
  provider_addr_lookup_queries := provider_addr_lookup_queries s;
  address_record_put_queries := g (address_record_put_queries s);
  address_record_get_queries := address_record_get_queries s;
  address_record_last_fingerprint := address_record_last_fingerprint s;
  address_record_published := address_record_published s;
  address_record_lookup_started := address_record_lookup_started s |}.
Definition upd_address_record_get_queries (g : gmap Z (PeerId * string) -> gmap Z (PeerId * string)) (s : DhtProviderState) : DhtProviderState := {|
  announce_attempts := announce_attempts s; announce_failures := announce_failures s;
  namespaces_announced := namespaces_announced s; provider_queries := provider_queries s;
  provider_query_failures := provider_query_failures s; provider_records_found := provider_records_found s;
  provider_queries_finished := provider_queries_finished s;
  discovered_provider_peers := discovered_provider_peers s; auto_connect_attempted := auto_connect_attempted s;
  auto_connect_waiting := auto_connect_waiting s; auto_connect_retry := auto_connect_retry s;
  auto_connect_retry_order := auto_connect_retry_order s;
  discovered_provider_order := discovered_provider_order s;
  provider_announce_started := provider_announce_started s; provider_query_started := provider_query_started s;
  provider_addr_lookup_started := provider_addr_lookup_started s;
  provider_keys_by_namespace := provider_keys_by_namespace s;
  start_providing_queries := start_providing_queries s;
  start_providing_query_keys := start_providing_query_keys s; get_provider_queries := get_provider_queries s;
  get_provider_query_keys := get_provider_query_keys s;
  provider_addr_lookup_queries := provider_addr_lookup_queries s;
  address_record_put_queries := address_record_put_queries s;
  address_record_get_queries := g (address_record_get_queries s);
  address_record_last_fingerprint := address_record_last_fingerprint s;
  address_record_published := address_record_published s;
  address_record_lookup_started := address_record_lookup_started s |}.
Definition upd_address_record_last_fingerprint (g : gmap string string -> gmap string string) (s : DhtProviderState) : DhtProviderState := {|
  announce_attempts := announce_attempts s; announce_failures := announce_failures s;
  namespaces_announced := namespaces_announced s; provider_queries := provider_queries s;
  provider_query_failures := provider_query_failures s; provider_records_found := provider_records_found s;
  provider_queries_finished := provider_queries_finished s;
  discovered_provider_peers := discovered_provider_peers s; auto_connect_attempted := auto_connect_attempted s;
  auto_connect_waiting := auto_connect_waiting s; auto_connect_retry := auto_connect_retry s;
  auto_connect_retry_order := auto_connect_retry_order s;
  discovered_provider_order := discovered_provider_order s;
  provider_announce_started := provider_announce_started s; provider_query_started := provider_query_started s;
  provider_addr_lookup_started := provider_addr_lookup_started s;
  provider_keys_by_namespace := provider_keys_by_namespace s;
  start_providing_queries := start_providing_queries s;
  start_providing_query_keys := start_providing_query_keys s; get_provider_queries := get_provider_queries s;
  get_provider_query_keys := get_provider_query_keys s;
  provider_addr_lookup_queries := provider_addr_lookup_queries s;
  address_record_put_queries := address_record_put_queries s;
  address_record_get_queries := address_record_get_queries s;
  address_record_last_fingerprint := g (address_record_last_fingerprint s);
  address_record_published := address_record_published s;
  address_record_lookup_started := address_record_lookup_started s |}.
Definition upd_address_record_published (g : gmap string Z -> gmap string Z) (s : DhtProviderState) : DhtProviderState := {|
  announce_attempts := announce_attempts s; announce_failures := announce_failures s;
  namespaces_announced := namespaces_announced s; provider_queries := provider_queries s;
  provider_query_failures := provider_query_failures s; provider_records_found := provider_records_found s;
  provider_queries_finished := provider_queries_finished s;
  discovered_provider_peers := discovered_provider_peers s; auto_connect_attempted := auto_connect_attempted s;
  auto_connect_waiting := auto_connect_waiting s; auto_connect_retry := auto_connect_retry s;
  auto_connect_retry_order := auto_connect_retry_order s;
  discovered_provider_order := discovered_provider_order s;
  provider_announce_started := provider_announce_started s; provider_query_started := provider_query_started s;
  provider_addr_lookup_started := provider_addr_lookup_started s;
  provider_keys_by_namespace := provider_keys_by_namespace s;
  start_providing_queries := start_providing_queries s;
  start_providing_query_keys := start_providing_query_keys s; get_provider_queries := get_provider_queries s;
  get_provider_query_keys := get_provider_query_keys s;
  provider_addr_lookup_queries := provider_addr_lookup_queries s;
  address_record_put_queries := address_record_put_queries s;
  address_record_get_queries := address_record_get_queries s;
  address_record_last_fingerprint := address_record_last_fingerprint s;
  address_record_published := g (address_record_published s);
  address_record_lookup_started := address_record_lookup_started s |}.
Definition upd_address_record_lookup_started (g : gmap (PeerId * string) Z -> gmap (PeerId * string) Z) (s : DhtProviderState) : DhtProviderState := {|
  announce_attempts := announce_attempts s; announce_failures := announce_failures s;
  namespaces_announced := namespaces_announced s; provider_queries := provider_queries s;
  provider_query_failures := provider_query_failures s; provider_records_found := provider_records_found s;
  provider_queries_finished := provider_queries_finished s;
  discovered_provider_peers := discovered_provider_peers s; auto_connect_attempted := auto_connect_attempted s;
  auto_connect_waiting := auto_connect_waiting s; auto_connect_retry := auto_connect_retry s;
  auto_connect_retry_order := auto_connect_retry_order s;
  discovered_provider_order := discovered_provider_order s;
  provider_announce_started := provider_announce_started s; provider_query_started := provider_query_started s;
  provider_addr_lookup_started := provider_addr_lookup_started s;
  provider_keys_by_namespace := provider_keys_by_namespace s;
  start_providing_queries := start_providing_queries s;
  start_providing_query_keys := start_providing_query_keys s; get_provider_queries := get_provider_queries s;
  get_provider_query_keys := get_provider_query_keys s;
  provider_addr_lookup_queries := provider_addr_lookup_queries s;
  address_record_put_queries := address_record_put_queries s;
  address_record_get_queries := address_record_get_queries s;
  address_record_last_fingerprint := address_record_last_fingerprint s;
  address_record_published := address_record_published s;
  address_record_lookup_started := g (address_record_lookup_started s) |}.

Definition DhtProviderState_default : DhtProviderState := {|
  announce_attempts := 0; announce_failures := 0; namespaces_announced := ∅; provider_queries := 0;
  provider_query_failures := 0; provider_records_found := 0; provider_queries_finished := 0;
  discovered_provider_peers := ∅; auto_connect_attempted := BoundedSet_empty; auto_connect_waiting := BoundedSet_empty;
  auto_connect_retry := ∅; auto_connect_retry_order := []; discovered_provider_order := [];
  provider_announce_started := ∅; provider_query_started := ∅; provider_addr_lookup_started := ∅;
  provider_keys_by_namespace := ∅; start_providing_queries := ∅; start_providing_query_keys := ∅;
  get_provider_queries := ∅; get_provider_query_keys := ∅; provider_addr_lookup_queries := ∅;
  address_record_put_queries := ∅; address_record_get_queries := ∅; address_record_last_fingerprint := ∅;
  address_record_published := ∅; address_record_lookup_started := ∅ |}.

Definition count1 (n : Z) : Z := sat_add usize_max n 1.

Definition provider_keys (env : DhtEnv) (s : DhtProviderState) (namespace : string)
    : run (list (string * RecordKey) * DhtProviderState) :=
  match provider_keys_by_namespace s !! namespace with
  | Some keys => Ret (keys, s)
  | None =>
      let! keys := dht_provider_keys namespace env in
      Ret (keys, upd_provider_keys_by_namespace (<[namespace := keys]>) s)
  end.

Definition track_start_providing_for_key (s : DhtProviderState) (id : Z) (namespace query_key : string) : DhtProviderState :=
  upd_start_providing_query_keys (<[id := query_key]>) (upd_start_providing_queries (<[id := namespace]>) s).

Definition track_get_providers_for_key (s : DhtProviderState) (id : Z) (namespace query_key : string) : DhtProviderState :=
  upd_get_provider_query_keys (<[id := query_key]>) (upd_get_provider_queries (<[id := namespace]>) s).

Definition provider_peer_count (s : DhtProviderState) : Z := Z.of_nat (size (discovered_provider_peers s)).

(** The loop of [prune_provider_tracking]. *)
Definition prune_tracking_step (s : DhtProviderState) : option DhtProviderState :=
  if decide (MAX_TRACKED_PROVIDER_PEERS < Z.of_nat (size (discovered_provider_peers s))) then
    match discovered_provider_order s with
    | [] => None
    | evicted :: rest =>
        let s1 := upd_discovered_provider_order (fun _ => rest) s in
        Some (if decide (is_Some (discovered_provider_peers s !! evicted)) then
          upd_address_record_get_queries (filter (fun e => e.2.1 ≠ evicted))
          (upd_address_record_lookup_started (filter (fun e => e.1.1 ≠ evicted))
          (upd_provider_addr_lookup_queries (filter (fun e => e.2 ≠ evicted))
          (upd_provider_addr_lookup_started (delete evicted)
          (upd_auto_connect_waiting (fun b => (remove_peer_from_bounded_set evicted b).2)
          (upd_auto_connect_attempted (fun b => (remove_peer_from_bounded_set evicted b).2)
          (upd_discovered_provider_peers (delete evicted) s1))))))
        else s1)
    end
  else None.

Definition prune_provider_tracking (s : DhtProviderState) : DhtProviderState :=
  loop prune_tracking_step (length (discovered_provider_order s)) s.

Definition record_provider_peer (s : DhtProviderState) (peer : PeerId) (namespace : string) : bool * DhtProviderState :=
  let known := discovered_provider_peers s !! peer in
  let inserted := negb (bool_decide (namespace ∈ default ∅ known)) in
  let s := upd_discovered_provider_peers (<[peer := {[namespace]} ∪ default ∅ known]>) s in
  (inserted, if decide (is_Some known) then s
             else prune_provider_tracking (upd_discovered_provider_order (fun o => o ++ [peer]) s)).

(** The loop that bounds the retry history. *)
Definition prune_retry_step (s : DhtProviderState) : option DhtProviderState :=
  if decide (MAX_TRACKED_PROVIDER_PEERS < Z.of_nat (size (auto_connect_retry s))) then
    match auto_connect_retry_order s with
    | [] => None
    | evicted :: rest => Some (upd_auto_connect_retry (delete evicted) (upd_auto_connect_retry_order (fun _ => rest) s))
    end
  else None.

Definition prune_retry (s : DhtProviderState) : DhtProviderState :=
  loop prune_retry_step (length (auto_connect_retry_order s)) s.

Definition next_retry (now : Z) (retry : AutoConnectRetryState) : AutoConnectRetryState :=
  let retry := if decide (ac_window_started retry = 0 \/ AUTO_CONNECT_RETRY_WINDOW_SECS <= sat_sub now (ac_window_started retry))
               then {| ac_attempts := 0; ac_window_started := now; ac_last_attempt := ac_last_attempt retry |} else retry in
  {| ac_attempts := sat_add u32_max (ac_attempts retry) 1; ac_window_started := ac_window_started retry; ac_last_attempt := now |}.

Definition mark_auto_connect_attempted (now : Z) (s : DhtProviderState) (peer : PeerId) : bool * DhtProviderState :=
  let s := upd_auto_connect_waiting (fun b => (remove_peer_from_bounded_set peer b).2) s in
  if decide (peer ∈ bset (auto_connect_attempted s)) then (false, s)
  else
    let known := auto_connect_retry s !! peer in
    let s := if decide (is_Some known) then s else upd_auto_connect_retry_order (fun o => o ++ [peer]) s in
    let s := upd_auto_connect_retry (<[peer := next_retry now (default AutoConnectRetryState_default known)]>) s in
    let s := prune_retry s in
    (true, upd_auto_connect_attempted (fun b => (bounded_insert MAX_TRACKED_PROVIDER_PEERS peer b).2) s).

Definition mark_auto_connect_waiting_for_addrs (s : DhtProviderState) (peer : PeerId) : bool * DhtProviderState :=
  if decide (peer ∈ bset (auto_connect_attempted s)) then (false, s)
  else let '(inserted, b) := bounded_insert MAX_TRACKED_PROVIDER_PEERS peer (auto_connect_waiting s) in
       (inserted, upd_auto_connect_waiting (fun _ => b) s).

Definition mark_auto_connect_failed (s : DhtProviderState) (peer : PeerId) : bool * DhtProviderState :=
  let s := upd_auto_connect_waiting (fun b => (remove_peer_from_bounded_set peer b).2) s in
  let '(removed, b) := remove_peer_from_bounded_set peer (auto_connect_attempted s) in
  (removed, upd_auto_connect_attempted (fun _ => b) s).

Definition mark_auto_connect_disconnected (s : DhtProviderState) (peer : PeerId) : DhtProviderState :=
  (mark_auto_connect_failed s peer).2.

Definition auto_connect_retry_allowed (now : Z) (s : DhtProviderState) (peer : PeerId) : bool * DhtProviderState :=
  if decide (peer ∈ bset (auto_connect_attempted s)) then (false, s)
  else match auto_connect_retry s !! peer with
       | None => (true, s)
       | Some retry =>
           if decide (AUTO_CONNECT_RETRY_WINDOW_SECS <= sat_sub now (ac_window_started retry)) then
             (true, upd_auto_connect_retry
                      (<[peer := {| ac_attempts := 0; ac_window_started := now; ac_last_attempt := 0 |}]>) s)
           else (bool_decide (ac_attempts retry < MAX_AUTO_CONNECT_ATTEMPTS_PER_WINDOW) &&
                 bool_decide (AUTO_CONNECT_RETRY_COOLDOWN_SECS <= sat_sub now (ac_last_attempt retry)), s)
       end.

Definition should_auto_connect_provider_result (now : Z) (s : DhtProviderState) (peer : PeerId) : bool * DhtProviderState :=
  if decide (peer ∈ bset (auto_connect_waiting s)) then (false, s) else auto_connect_retry_allowed now s peer.

Definition should_auto_connect_after_addr_update (now : Z) (s : DhtProviderState) (peer : PeerId) : bool * DhtProviderState :=
  auto_connect_retry_allowed now s peer.

(** [values().any(..)]. *)
Definition any_value {A} (f : A -> bool) (m : gmap Z A) : bool := existsb (fun e => f e.2) (map_to_list m).

Definition should_publish_address_record (now : Z) (s : DhtProviderState) (namespace fingerprint : string) (interval : Z) : bool :=
  if any_value (fun e => String.eqb e.1 namespace) (address_record_put_queries s) then false
  else if negb (bool_decide (address_record_last_fingerprint s !! namespace = Some fingerprint)) then true
  else match address_record_published s !! namespace with
       | Some last => bool_decide (Z.max interval 1 <= sat_sub now last)
       | None => true
       end.

Definition track_put_address_record (s : DhtProviderState) (id : Z) (namespace fingerprint : string) : DhtProviderState :=
  upd_address_record_put_queries (<[id := (namespace, fingerprint)]>) s.

Definition complete_put_address_record (now : Z) (s : DhtProviderState) (id : Z) (success : bool) : option string * DhtProviderState :=
  match address_record_put_queries s !! id with
  | None => (None, s)
  | Some (namespace, fingerprint) =>
      let s := upd_address_record_put_queries (delete id) s in
      (Some namespace,
       if success then upd_address_record_published (<[namespace := now]>)
                         (upd_address_record_last_fingerprint (<[namespace := fingerprint]>) s)
       else s)
  end.

Definition should_lookup_address_record (now : Z) (s : DhtProviderState) (peer : PeerId) (namespace : string) : bool :=
  if any_value (fun e => bool_decide (e.1 = peer) && String.eqb e.2 namespace) (address_record_get_queries s) then false
  else match address_record_lookup_started s !! (peer, namespace) with
       | Some last => bool_decide (AUTO_CONNECT_RETRY_COOLDOWN_SECS <= sat_sub now last)
       | None => true
       end.

Definition track_get_address_record (now : Z) (s : DhtProviderState) (id : Z) (peer : PeerId) (namespace : string) : DhtProviderState :=
  upd_address_record_get_queries (<[id := (peer, namespace)]>) (upd_address_record_lookup_started (<[(peer, namespace) := now]>) s).

Definition address_record_lookup (s : DhtProviderState) (id : Z) : option (PeerId * string) := address_record_get_queries s !! id.

Definition complete_get_address_record (s : DhtProviderState) (id : Z) : DhtProviderState :=
  upd_address_record_get_queries (delete id) s.

Definition complete_start_providing (s : DhtProviderState) (id : Z) : option string * DhtProviderState :=
  (start_providing_queries s !! id, upd_start_providing_queries (delete id) (upd_start_providing_query_keys (delete id) s)).

Definition provider_namespace (s : DhtProviderState) (id : Z) : option string := get_provider_queries s !! id.

Definition provider_query_key_inflight (s : DhtProviderState) (query_key : string) : bool :=
  any_value (fun active => String.eqb active query_key) (get_provider_query_keys s).

Definition provider_announce_key_inflight (s : DhtProviderState) (query_key : string) : bool :=
  any_value (fun active => String.eqb active query_key) (start_providing_query_keys s).

Definition due (now interval : Z) (started : option Z) : bool :=
  match started with Some last => bool_decide (interval <= sat_sub now last) | None => true end.

Definition should_announce_key (s : DhtProviderState) (query_key namespace : string) (now interval : Z) : bool :=
  if provider_announce_key_inflight s query_key then false
  else if negb (bool_decide (namespace ∈ namespaces_announced s)) then true
  else due now interval (provider_announce_started s !! query_key).

Definition should_query_key (s : DhtProviderState) (query_key : string) (now interval : Z) : bool :=
  if provider_query_key_inflight s query_key then false else due now interval (provider_query_started s !! query_key).

Definition complete_get_providers (s : DhtProviderState) (id : Z) : option string * DhtProviderState :=
  (get_provider_queries s !! id, upd_get_provider_queries (delete id) (upd_get_provider_query_keys (delete id) s)).

Definition start_provider_addr_lookup (s : DhtProviderState) (id : Z) (peer : PeerId) (now : Z) : DhtProviderState :=
  upd_provider_addr_lookup_started (<[peer := now]>) (upd_provider_addr_lookup_queries (<[id := peer]>) s).

Definition provider_addr_lookup_peer (s : DhtProviderState) (id : Z) : option PeerId := provider_addr_lookup_queries s !! id.

Definition complete_provider_addr_lookup (s : DhtProviderState) (id : Z) : option PeerId * DhtProviderState :=
  (provider_addr_lookup_queries s !! id, upd_provider_addr_lookup_queries (delete id) s).

Definition should_lookup_provider_addrs (s : DhtProviderState) (peer : PeerId) (now : Z) : bool :=
  if any_value (fun inflight => bool_decide (inflight = peer)) (provider_addr_lookup_queries s) then false
  else due now PROVIDER_ADDR_LOOKUP_COOLDOWN_SECS (provider_addr_lookup_started s !! peer).

(** * The Kademlia behaviour: the queries started so far.  Ids are not reused. *)
Inductive KadQuery : Type :=
| StartProvidingQuery (key : RecordKey)
| GetProvidersQuery (key : RecordKey)
| GetClosestPeersQuery (target : list byte)
| PutRecordQuery (key : RecordKey) (value : list byte)
| GetRecordQuery (key : RecordKey).

Record Kad := { kad_next : Z; kad_queries : list (Z * KadQuery) }.

Definition kad_start (k : Kad) (q : KadQuery) : Z * Kad :=
  (kad_next k, {| kad_next := kad_next k + 1; kad_queries := kad_queries k ++ [(kad_next k, q)] |}).

Definition start_provider_addr_lookup_if_due (now : Z) (peer : PeerId) (st : DhtProviderState * Kad) : bool * (DhtProviderState * Kad) :=
  let '(s, kad) := st in
  if negb (should_lookup_provider_addrs s peer now) then (false, st)
  else let '(id, kad) := kad_start kad (GetClosestPeersQuery (peer_to_bytes peer)) in
       (true, (start_provider_addr_lookup s id peer now, kad)).

(** * Announcing and looking up namespaces *)
Record DhtNamespacePlan := {
  np_enabled : bool; np_namespace_count : Z; np_announce_attempts : Z; np_provider_queries : Z; np_errors : list string }.

Definition upd_np_announce (p : DhtNamespacePlan) : DhtNamespacePlan := {|
  np_enabled := np_enabled p; np_namespace_count := np_namespace_count p; np_announce_attempts := count1 (np_announce_attempts p);
  np_provider_queries := np_provider_queries p; np_errors := np_errors p |}.
Definition upd_np_query (p : DhtNamespacePlan) : DhtNamespacePlan := {|
  np_enabled := np_enabled p; np_namespace_count := np_namespace_count p; np_announce_attempts := np_announce_attempts p;
  np_provider_queries := count1 (np_provider_queries p); np_errors := np_errors p |}.
Definition upd_np_error (line : string) (p : DhtNamespacePlan) : DhtNamespacePlan := {|
  np_enabled := np_enabled p; np_namespace_count := np_namespace_count p; np_announce_attempts := np_announce_attempts p;
  np_provider_queries := np_provider_queries p; np_errors := np_errors p ++ [line] |}.

Local Abbreviation Dx := (DhtProviderState * Kad * DhtNamespacePlan)%type.

(** [refused key] is the error of [start_providing], when it fails. *)
Definition announce_key (env : DhtEnv) (refused : RecordKey -> option string) (now interval : Z) (namespace : string)
    (replica : Z) (k : string * RecordKey) (x : Dx) : Dx :=
  let '(s, kad, plan) := x in
  if dht_announce (dhtx_config env) && should_announce_key s k.1 namespace now interval then
    let s := upd_announce_attempts count1 s in
    match refused k.2 with
    | None =>
        let '(id, kad) := kad_start kad (StartProvidingQuery k.2) in
        (upd_provider_announce_started (<[k.1 := now]>) (track_start_providing_for_key s id namespace k.1), kad, upd_np_announce plan)
    | Some err =>
        (upd_announce_failures count1 s, kad,
         upd_np_error ("dht provider announce failed namespace=" +:+ namespace +:+ " replica=" +:+ pretty replica +:+ ": " +:+ err) plan)
    end
  else x.

Definition query_key (env : DhtEnv) (rendezvous_peer_count now interval : Z) (namespace : string) (k : string * RecordKey) (x : Dx) : Dx :=
  let '(s, kad, plan) := x in
  if should_discover (dhtx_config env) rendezvous_peer_count && should_query_key s k.1 now interval then
    let '(id, kad) := kad_start kad (GetProvidersQuery k.2) in
    (upd_provider_queries count1 (upd_provider_query_started (<[k.1 := now]>) (track_get_providers_for_key s id namespace k.1)),
     kad, upd_np_query plan)
  else x.

Fixpoint refresh_namespaces (env : DhtEnv) (refused : RecordKey -> option string) (rendezvous_peer_count now announce_interval
    query_interval : Z) (namespaces : list string) (x : Dx) : run Dx :=
  match namespaces with
  | [] => Ret x
  | namespace :: rest =>
      let '(s, kad, plan) := x in
      let! ks := provider_keys env s namespace in
      let '(keys, s) := ks in
      let x := foldl (fun x e => query_key env rendezvous_peer_count now query_interval namespace e.2
                                   (announce_key env refused now announce_interval namespace e.1 e.2 x))
                 (s, kad, plan) (indexed keys) in
      refresh_namespaces env refused rendezvous_peer_count now announce_interval query_interval rest x
  end.

Definition start_dht_namespace_discovery_with_interval (env : DhtEnv) (error_text : NetError -> string)
    (refused : RecordKey -> option string) (local : PeerId) (connected : gset PeerId) (now rendezvous_peer_count interval : Z)
    (s : DhtProviderState) (kad : Kad) : run Dx :=
  let cfg := dhtx_config env in
  let plan := {| np_enabled := dht_enabled cfg; np_namespace_count := 0; np_announce_attempts := 0; np_provider_queries := 0; np_errors := [] |} in
  if negb (dht_enabled cfg) then Ret (s, kad, plan)
  else match dhtx_namespaces env with
       | Err err => Ret (s, kad, upd_np_error (error_text err) plan)
       | Ok namespaces =>
           let plan := {| np_enabled := true; np_namespace_count := len namespaces; np_announce_attempts := 0;
                          np_provider_queries := 0; np_errors := [] |} in
           let remote_provider_connected :=
             existsb (fun e => negb (bool_decide (e.1 = local)) && bool_decide (e.1 ∈ connected)) (map_to_list (discovered_provider_peers s)) in
           let query_interval := Z.max (if remote_provider_connected then refresh_interval_secs cfg else interval) 1 in
           refresh_namespaces env refused rendezvous_peer_count now (Z.max interval 1) query_interval
             (take (Z.to_nat (max_namespaces_per_refresh cfg)) namespaces) (s, kad, plan)
       end.

Definition start_dht_namespace_discovery (env : DhtEnv) (error_text : NetError -> string) (refused : RecordKey -> option string)
    (local : PeerId) (connected : gset PeerId) (now rendezvous_peer_count : Z) (s : DhtProviderState) (kad : Kad) : run Dx :=
  start_dht_namespace_discovery_with_interval env error_text refused local connected now rendezvous_peer_count
    (refresh_interval_secs (dhtx_config env)) s kad.

Definition start_dht_namespace_discovery_immediate (env : DhtEnv) (error_text : NetError -> string) (refused : RecordKey -> option string)
    (local : PeerId) (connected : gset PeerId) (now rendezvous_peer_count : Z) (s : DhtProviderState) (kad : Kad) : run Dx :=
  start_dht_namespace_discovery_with_interval env error_text refused local connected now rendezvous_peer_count 1
    (upd_provider_query_started (fun _ => ∅) (upd_provider_announce_started (fun _ => ∅) s)) kad.
End dht.

(** * The refresh schedule (crates/node/runtime/dht_schedule.rs); instants in nanoseconds *)
Definition DHT_STARTUP_BACKOFF_SECS : list Z := [5; 15; 30; 60].
Definition DHT_EVENT_REFRESH_MIN_GAP_SECS : Z := 5.

Record DhtRefreshSchedule := {
  startup_index : Z;
  steady_interval : Z;
  last_refresh : Z;
  next_due : Z;
  event_refresh_pending : bool;
}.

Definition DhtRefreshSchedule_new (now steady_interval_secs : Z) : DhtRefreshSchedule := {|
  startup_index := 0; steady_interval := from_secs (Z.max steady_interval_secs 1); last_refresh := now;
  next_due := now + from_secs 5; event_refresh_pending := false |}.

(** [DHT_STARTUP_BACKOFF_SECS[index]], within the array. *)
Definition startup_delay (index : Z) : option Z := DHT_STARTUP_BACKOFF_SECS !! Z.to_nat index.

Definition current_interval_secs (d : DhtRefreshSchedule) : Z :=
  if event_refresh_pending d then DHT_EVENT_REFRESH_MIN_GAP_SECS
  else match startup_delay (startup_index d) with
       | Some secs => secs
       | None => Z.max (steady_interval d / 1000000000) 1
       end.

Definition record_refresh (now : Z) (d : DhtRefreshSchedule) : DhtRefreshSchedule :=
  let index := if decide (startup_index d < 4) then startup_index d + 1 else startup_index d in {|
  startup_index := index; steady_interval := steady_interval d; last_refresh := now;
  next_due := now + match startup_delay index with Some secs => from_secs secs | None => steady_interval d end;
  event_refresh_pending := false |}.

Definition request_event_refresh (now : Z) (d : DhtRefreshSchedule) : bool * DhtRefreshSchedule :=
  let requested := Z.max now (last_refresh d + from_secs DHT_EVENT_REFRESH_MIN_GAP_SECS) in
  if decide (requested < next_due d) then
    (true, {| startup_index := startup_index d; steady_interval := steady_interval d; last_refresh := last_refresh d;
              next_due := requested; event_refresh_pending := true |})
  else (false, d).
