(* ===== verification/DhtEvents.v ===== *)
(** Signed address records (crates/connectivity/dht/address_records.rs), the
    Kademlia event handler of the connectivity layer ([on_kademlia_event] of
    crates/connectivity/dht.rs) and the node's Kademlia handler
    (crates/node/events/kademlia.rs): provider records become dial candidates,
    and dials are started within the retry policy. *)

From S2P Require Import Prelude Bytes Text BTree BoundedSet Common AppMessage Observability Relay RelayLimiter Addresses.
From S2P Require Import Connections Storage RelayClient PeerBook PeerCache ConnectionStrategy StackDiscovery Dht.

#[local] Open Scope Z_scope.

(** * Signed peer records of [libp2p::core]

    A key pair signs the list of addresses of its own peer id; reading a record
    back checks the signature. *)
Class PeerRecordLib {P : PeerIdLib} {M : MultiaddrLib} {K : KeypairLib} := {
  public_peer : Keypair -> PeerId;
  SignedEnvelope : Type;
  peer_record_sign : Keypair -> list Multiaddr -> result SignedEnvelope string;
  envelope_encode : SignedEnvelope -> list byte;
  envelope_decode : list byte -> result SignedEnvelope string;
  peer_record_read : SignedEnvelope -> result (PeerId * list Multiaddr) string;
}.

(** Encoding round-trips, and reading a signed record gives what was signed. *)
Class PeerRecordLaws {P : PeerIdLib} {M : MultiaddrLib} {K : KeypairLib} (R : PeerRecordLib) : Prop := {
  envelope_decode_encode e : envelope_decode (envelope_encode e) = Ok e;
  peer_record_read_sign k addrs e : peer_record_sign k addrs = Ok e -> peer_record_read e = Ok (public_peer k, addrs);
}.

Definition MAX_DHT_PEER_ADDRESS_RECORD_BYTES : Z := 32 * 1024.
Definition MAX_DHT_PEER_ADDRESS_COUNT : Z := 16.
Definition APPLICATION_DIAL_REQUIRED_HEADROOM : Z := 1.

Record DhtAddressPublishPlan := { ap_attempted_records : Z; ap_addresses : Z; ap_errors : list string }.

Section dht_events.
Context {P : PeerIdLib} {M : MultiaddrLib} {K : KeypairLib} {S2 : Sha256Lib} {R : PeerRecordLib} {HX : HexLib} {B3 : Blake3Lib}.

(** * Address records *)
Definition last_peer (found : option PeerId) (protocol : Protocol) : option PeerId :=
  match protocol with P2p peer => Some peer | _ => found end.

Definition normalize_public_address_for_peer (addr : Multiaddr) (peer : PeerId) : option Multiaddr :=
  if is_p2p_circuit_addr addr then
    if negb (is_public_direct_addr addr) then None else relay_dial_addr_for_peer addr peer
  else if negb (is_public_direct_addr addr) then None
  else match foldl last_peer None (addr_iter addr) with
       | Some found => if decide (found = peer) then Some addr else None
       | None => Some (addr_with addr (P2p peer))
       end.

(** [if !addresses.contains(&addr) { addresses.push(addr) }] *)
Definition push_unique (addresses : list Multiaddr) (addr : Multiaddr) : list Multiaddr :=
  if decide (addr ∈ addresses) then addresses else addresses ++ [addr].

Definition push_normalized (peer : PeerId) (addresses : list Multiaddr) (addr : Multiaddr) : list Multiaddr :=
  match normalize_public_address_for_peer addr peer with
  | Some addr => push_unique addresses addr
  | None => addresses
  end.

(** [addrs] is [external_addresses().chain(listeners())]. *)
Fixpoint collect_loop (local_peer : PeerId) (addrs addresses : list Multiaddr) : list Multiaddr :=
  match addrs with
  | [] => addresses
  | addr :: rest =>
      let addresses := push_normalized local_peer addresses addr in
      if decide (MAX_DHT_PEER_ADDRESS_COUNT <= len addresses) then addresses else collect_loop local_peer rest addresses
  end.

Definition collect_public_peer_addresses (local_peer : PeerId) (addrs : list Multiaddr) : list Multiaddr :=
  collect_loop local_peer addrs [].

Fixpoint unique_loop (local_peer : PeerId) (addrs : list Multiaddr) (unique : gset string) : gset string :=
  match addrs with
  | [] => unique
  | addr :: rest =>
      let unique := match normalize_public_address_for_peer addr local_peer with
                    | Some addr => {[addr_to_string addr]} ∪ unique
                    | None => unique
                    end in
      if decide (MAX_DHT_PEER_ADDRESS_COUNT <= Z.of_nat (size unique)) then unique else unique_loop local_peer rest unique
  end.

Definition published_addresses (local_peer : PeerId) (addrs : list Multiaddr) : list Multiaddr :=
  omap (fun addr => ok (addr_parse addr)) (bt_iter (unique_loop local_peer addrs ∅)).

Definition ap_error (plan : DhtAddressPublishPlan) (line : string) : DhtAddressPublishPlan := {|
  ap_attempted_records := ap_attempted_records plan; ap_addresses := ap_addresses plan; ap_errors := ap_errors plan ++ [line] |}.

Local Abbreviation Px := (DhtProviderState * Kad * DhtAddressPublishPlan)%type.

(** [refused key] is the error of [put_record], when it fails. *)
Definition publish_namespace (env : DhtEnv) (refused : RecordKey -> option string) (now : Z) (local_peer : PeerId)
    (encoded : list byte) (x : Px) (namespace : string) : Px :=
  let '(s, kad, plan) := x in
  let key := dht_peer_address_record_key namespace local_peer in
  let fingerprint := blake3_hex encoded in
  if negb (should_publish_address_record now s namespace fingerprint (refresh_interval_secs (dhtx_config env))) then x
  else match refused key with
       | None =>
           let '(id, kad) := kad_start kad (PutRecordQuery key encoded) in
           (track_put_address_record s id namespace fingerprint, kad,
            {| ap_attempted_records := count1 (ap_attempted_records plan); ap_addresses := ap_addresses plan;
               ap_errors := ap_errors plan |})
       | Some err =>
           (s, kad, ap_error plan ("dht peer address record publish failed namespace=" +:+ namespace +:+ ": " +:+ err))
       end.

Definition publish_local_peer_address_records_with_addresses (env : DhtEnv) (error_text : NetError -> string)
    (refused : RecordKey -> option string) (now : Z) (local_key : Keypair) (addresses : list Multiaddr)
    (s : DhtProviderState) (kad : Kad) : Px :=
  let local_peer := public_peer local_key in
  let addresses := published_addresses local_peer addresses in
  let plan := {| ap_attempted_records := 0; ap_addresses := len addresses; ap_errors := [] |} in
  if bool_decide (addresses = []) || negb (dht_enabled (dhtx_config env)) || negb (dht_announce (dhtx_config env))
  then (s, kad, plan)
  else match peer_record_sign local_key addresses with
       | Err err => (s, kad, ap_error plan ("failed to sign local peer address record: " +:+ err))
       | Ok envelope =>
           let encoded := envelope_encode envelope in
           if decide (MAX_DHT_PEER_ADDRESS_RECORD_BYTES < len encoded) then
             (s, kad, ap_error plan ("signed local peer address record exceeds "
               +:+ pretty MAX_DHT_PEER_ADDRESS_RECORD_BYTES +:+ " byte bound"))
           else match dhtx_namespaces env with
                | Err err => (s, kad, ap_error plan (error_text err))
                | Ok namespaces =>
                    foldl (publish_namespace env refused now local_peer encoded) (s, kad, plan)
                      (take (Z.to_nat (max_namespaces_per_refresh (dhtx_config env))) namespaces)
                end
       end.

Definition publish_local_peer_address_records (env : DhtEnv) (error_text : NetError -> string)
    (refused : RecordKey -> option string) (now : Z) (local_key : Keypair) (swarm_addrs : list Multiaddr)
    (s : DhtProviderState) (kad : Kad) : Px :=
  publish_local_peer_address_records_with_addresses env error_text refused now local_key
    (collect_public_peer_addresses (public_peer local_key) swarm_addrs) s kad.

Definition start_peer_address_record_lookup (now : Z) (peer : PeerId) (namespace : string) (st : DhtProviderState * Kad)
    : bool * (DhtProviderState * Kad) :=
  let '(s, kad) := st in
  if negb (should_lookup_address_record now s peer namespace) then (false, st)
  else let '(id, kad) := kad_start kad (GetRecordQuery (dht_peer_address_record_key namespace peer)) in
       (true, (track_get_address_record now s id peer namespace, kad)).

Definition decode_peer_address_record (bytes : list byte) (expected_peer : PeerId) : result (list Multiaddr) string :=
  if decide (MAX_DHT_PEER_ADDRESS_RECORD_BYTES < len bytes) then Err "peer address record exceeds size bound"
  else match envelope_decode bytes with
  | Err err => Err ("invalid signed peer address envelope: " +:+ err)
  | Ok envelope =>
      match peer_record_read envelope with
      | Err err => Err ("invalid signed peer address record: " +:+ err)
      | Ok (peer, addrs) =>
          if negb (bool_decide (peer = expected_peer)) then
            Err ("signed peer address record identity mismatch expected=" +:+ peer_to_string expected_peer
                   +:+ " got=" +:+ peer_to_string peer)
          else
            let addresses := foldl (push_normalized expected_peer) [] (take (Z.to_nat MAX_DHT_PEER_ADDRESS_COUNT) addrs) in
            if decide (addresses = []) then Err "signed peer address record contains no dialable public address"
            else Ok addresses
      end
  end.

(** * Kademlia events

    Errors carry their [Debug] text. *)
Record KadPeerInfo := { ki_peer : PeerId; ki_addrs : list Multiaddr }.

Inductive QueryResult : Type :=
| StartProviding (r : result unit string)
| FoundProviders (providers : list PeerId)
| FinishedWithNoAdditionalProviders
| GetProvidersFailed (err : string)
| GetClosestPeers (peers : list KadPeerInfo)
| GetClosestPeersTimeout (peers : list KadPeerInfo) (err : string)
| PutRecord (r : result unit string)
| FoundRecord (value : list byte)
| FinishedWithNoAdditionalRecord
| GetRecordFailed (err : string)
| OtherQueryResult.

Inductive KadEvent : Type :=
| OutboundQueryProgressed (id : Z) (r : QueryResult) (last : bool)
| RoutingUpdated (peer : PeerId) (addresses : list Multiaddr)
| RoutablePeer (peer : PeerId) (address : Multiaddr)
| PendingRoutablePeer (peer : PeerId) (address : Multiaddr)
| InboundRequest
| ModeChanged
| UnroutablePeer.

Definition add_peer_addr_to_kademlia (peer : PeerId) (addr : Multiaddr) : SwarmAction :=
  if has_p2p_peer_id addr then KadAddAddress peer addr else KadAddAddress peer (addr_with addr (P2p peer)).

Definition unknown_namespace (namespace : option string) : string := default "<unknown>" namespace.

Definition learn_provider (namespace : string) (st : DhtProviderState * Z) (provider : PeerId) : DhtProviderState * Z :=
  let '(inserted, s) := record_provider_peer st.1 provider namespace in
  (s, if inserted then count1 st.2 else st.2).

Definition on_query_result (now : Z) (id : Z) (r : QueryResult) (last : bool) (s : DhtProviderState)
    : option string * DhtProviderState :=
  match r with
  | StartProviding (Ok _) =>
      let '(found, s) := complete_start_providing s id in
      let namespace := unknown_namespace found in
      (Some ("dht provider announce confirmed namespace=" +:+ namespace),
       upd_namespaces_announced (fun x => {[namespace]} ∪ x) s)
  | StartProviding (Err err) =>
      let '(found, s) := complete_start_providing s id in
      (Some ("dht provider announce failed namespace=" +:+ unknown_namespace found +:+ " error=" +:+ err),
       upd_announce_failures count1 s)
  | FoundProviders providers =>
      let namespace := unknown_namespace (provider_namespace s id) in
      let '(s, learned) := foldl (learn_provider namespace) (s, 0) providers in
      let s := upd_provider_records_found (fun n => sat_add usize_max n learned) s in
      let s := if last then upd_provider_queries_finished count1 (complete_get_providers s id).2 else s in
      (Some ("dht provider lookup found namespace=" +:+ namespace +:+ " providers=" +:+ pretty learned), s)
  | FinishedWithNoAdditionalProviders =>
      let '(found, s) := complete_get_providers s id in
      let s := upd_provider_queries_finished count1 s in
      (Some ("dht provider lookup finished namespace=" +:+ unknown_namespace found +:+ " discovered_peers="
               +:+ pretty (provider_peer_count s)), s)
  | GetProvidersFailed err =>
      let '(found, s) := complete_get_providers s id in
      (Some ("dht provider lookup failed namespace=" +:+ unknown_namespace found +:+ " error=" +:+ err),
       upd_provider_query_failures count1 s)
  | GetClosestPeers peers =>
      let '(found, s) := complete_provider_addr_lookup s id in
      (match found with
       | Some peer =>
           let count := match find (fun info => bool_decide (ki_peer info = peer)) peers with
                        | Some info => len (ki_addrs info)
                        | None => 0
                        end in
           Some ("dht provider address lookup finished peer=" +:+ peer_to_string peer +:+ " target_addrs=" +:+ pretty count
                   +:+ " closest_peers=" +:+ pretty (len peers))
       | None => None
       end, s)
  | GetClosestPeersTimeout peers err =>
      let '(found, s) := complete_provider_addr_lookup s id in
      ((fun peer => "dht provider address lookup failed peer=" +:+ peer_to_string peer +:+ " error=" +:+ err) <$> found, s)
  | PutRecord (Ok _) =>
      let '(found, s) := complete_put_address_record now s id true in
      ((fun namespace => "dht peer address record published namespace=" +:+ namespace) <$> found, s)
  | PutRecord (Err err) =>
      let '(found, s) := complete_put_address_record now s id false in
      ((fun namespace => "dht peer address record publish failed namespace=" +:+ namespace +:+ " error=" +:+ err) <$> found, s)
  | _ => (None, s)
  end.

Definition on_kademlia_event (now : Z) (ev : KadEvent) (s : DhtProviderState)
    : option string * DhtProviderState * list SwarmAction :=
  match ev with
  | OutboundQueryProgressed id r last => (on_query_result now id r last s, [])
  | RoutablePeer peer address | PendingRoutablePeer peer address => (None, s, [add_peer_addr_to_kademlia peer address])
  | _ => (None, s, [])
  end.

(** * The node's handler *)
Record KadCtx := {
  kx_dht : DhtProviderState;
  kx_kad : Kad;
  kx_actions : list SwarmAction;
  kx_released : list PeerId;
  kx_book : PeerBook;
  kx_cache_writes : PeerCacheWriteBatch;
  kx_unverified : gmap PeerId Z;
  kx_pending : gmap PeerId (list ConnectionAttempt);
  kx_stats : AutoDialStats;
  kx_observability : ObservabilityBatch;
}.

Definition upd_kx_dht (g : DhtProviderState -> DhtProviderState) (s : KadCtx) : KadCtx := {|
  kx_dht := g (kx_dht s); kx_kad := kx_kad s; kx_actions := kx_actions s; kx_released := kx_released s;
  kx_book := kx_book s; kx_cache_writes := kx_cache_writes s; kx_unverified := kx_unverified s;
  kx_pending := kx_pending s; kx_stats := kx_stats s; kx_observability := kx_observability s |}.
Definition upd_kx_kad (g : Kad -> Kad) (s : KadCtx) : KadCtx := {|
  kx_dht := kx_dht s; kx_kad := g (kx_kad s); kx_actions := kx_actions s; kx_released := kx_released s;
  kx_book := kx_book s; kx_cache_writes := kx_cache_writes s; kx_unverified := kx_unverified s;
  kx_pending := kx_pending s; kx_stats := kx_stats s; kx_observability := kx_observability s |}.
Definition upd_kx_actions (g : list SwarmAction -> list SwarmAction) (s : KadCtx) : KadCtx := {|
  kx_dht := kx_dht s; kx_kad := kx_kad s; kx_actions := g (kx_actions s); kx_released := kx_released s;
  kx_book := kx_book s; kx_cache_writes := kx_cache_writes s; kx_unverified := kx_unverified s;
  kx_pending := kx_pending s; kx_stats := kx_stats s; kx_observability := kx_observability s |}.
Definition upd_kx_released (g : list PeerId -> list PeerId) (s : KadCtx) : KadCtx := {|
  kx_dht := kx_dht s; kx_kad := kx_kad s; kx_actions := kx_actions s; kx_released := g (kx_released s);
  kx_book := kx_book s; kx_cache_writes := kx_cache_writes s; kx_unverified := kx_unverified s;
  kx_pending := kx_pending s; kx_stats := kx_stats s; kx_observability := kx_observability s |}.
Definition upd_kx_book (g : PeerBook -> PeerBook) (s : KadCtx) : KadCtx := {|
  kx_dht := kx_dht s; kx_kad := kx_kad s; kx_actions := kx_actions s; kx_released := kx_released s;
  kx_book := g (kx_book s); kx_cache_writes := kx_cache_writes s; kx_unverified := kx_unverified s;
  kx_pending := kx_pending s; kx_stats := kx_stats s; kx_observability := kx_observability s |}.
Definition upd_kx_cache_writes (g : PeerCacheWriteBatch -> PeerCacheWriteBatch) (s : KadCtx) : KadCtx := {|
  kx_dht := kx_dht s; kx_kad := kx_kad s; kx_actions := kx_actions s; kx_released := kx_released s;
  kx_book := kx_book s; kx_cache_writes := g (kx_cache_writes s); kx_unverified := kx_unverified s;
  kx_pending := kx_pending s; kx_stats := kx_stats s; kx_observability := kx_observability s |}.
Definition upd_kx_unverified (g : gmap PeerId Z -> gmap PeerId Z) (s : KadCtx) : KadCtx := {|
  kx_dht := kx_dht s; kx_kad := kx_kad s; kx_actions := kx_actions s; kx_released := kx_released s;
  kx_book := kx_book s; kx_cache_writes := kx_cache_writes s; kx_unverified := g (kx_unverified s);
  kx_pending := kx_pending s; kx_stats := kx_stats s; kx_observability := kx_observability s |}.
Definition upd_kx_pending (g : gmap PeerId (list ConnectionAttempt) -> gmap PeerId (list ConnectionAttempt)) (s : KadCtx) : KadCtx := {|
  kx_dht := kx_dht s; kx_kad := kx_kad s; kx_actions := kx_actions s; kx_released := kx_released s;
  kx_book := kx_book s; kx_cache_writes := kx_cache_writes s; kx_unverified := kx_unverified s;
  kx_pending := g (kx_pending s); kx_stats := kx_stats s; kx_observability := kx_observability s |}.
Definition upd_kx_stats (g : AutoDialStats -> AutoDialStats) (s : KadCtx) : KadCtx := {|
  kx_dht := kx_dht s; kx_kad := kx_kad s; kx_actions := kx_actions s; kx_released := kx_released s;
  kx_book := kx_book s; kx_cache_writes := kx_cache_writes s; kx_unverified := kx_unverified s;
  kx_pending := kx_pending s; kx_stats := g (kx_stats s); kx_observability := kx_observability s |}.
Definition upd_kx_observability (g : ObservabilityBatch -> ObservabilityBatch) (s : KadCtx) : KadCtx := {|
  kx_dht := kx_dht s; kx_kad := kx_kad s; kx_actions := kx_actions s; kx_released := kx_released s;
  kx_book := kx_book s; kx_cache_writes := kx_cache_writes s; kx_unverified := kx_unverified s;
  kx_pending := kx_pending s; kx_stats := kx_stats s; kx_observability := g (kx_observability s) |}.

(** What the handler reads: the swarm and configuration as a dialling handler
    sees them, the unix clock, the connection caps and the relay client. *)
Record KadEnv := {
  ke_dial : DialEnv;
  ke_now : Z;
  ke_auto_connect : bool;
  ke_caps : ConnectionCapState;
  ke_relay : RelayClient;
}.

Record AutoDialCandidate := { cd_peer : PeerId; cd_address_updated : bool }.

Local Abbreviation Kx := (list AutoDialCandidate * KadCtx)%type.

Definition swarm_acts (acts : list SwarmAction) (c : KadCtx) : KadCtx := upd_kx_actions (fun a => a ++ acts) c.

(** Both lookups thread the DHT state and the Kademlia behaviour. *)
Definition kad_run (f : DhtProviderState * Kad -> bool * (DhtProviderState * Kad)) (c : KadCtx) : KadCtx :=
  let '(_, (s, kad)) := f (kx_dht c, kx_kad c) in upd_kx_kad (fun _ => kad) (upd_kx_dht (fun _ => s) c).

Definition is_connected (env : KadEnv) (peer : PeerId) : bool := bool_decide (peer ∈ de_connected (ke_dial env)).
Definition is_local (env : KadEnv) (peer : PeerId) : bool := bool_decide (peer = de_local (ke_dial env)).

Definition record_found_provider (env : KadEnv) (namespace : string) (st : Kx) (provider : PeerId) : Kx :=
  let '(learned, c) := st in
  let now := ke_now env in
  let c := upd_kx_book (fun b => record_namespace b provider namespace DhtProvider now) c in
  let c := swarm_acts [AllowDcutrPeer provider] c in
  let c := if is_local env provider then c else kad_run (start_peer_address_record_lookup now provider namespace) c in
  let c := if is_connected env provider then
             upd_kx_unverified (delete provider) (upd_kx_book (fun b => record_connected b provider None now) c)
           else c in
  let has_known_addr := match PeerBook.record (kx_book c) provider with
                        | Some r => negb (bool_decide (pr_addresses r = ∅))
                        | None => false
                        end in
  let c := if negb (is_local env provider) && negb (is_connected env provider) && negb has_known_addr
           then kad_run (start_provider_addr_lookup_if_due now provider) c else c in
  (learned ++ [{| cd_peer := provider; cd_address_updated := false |}], c).

Definition record_dht_provider_peers (env : KadEnv) (ev : KadEvent) (c : KadCtx) : Kx :=
  match ev with
  | OutboundQueryProgressed id (FoundProviders providers) _ =>
      match provider_namespace (kx_dht c) id with
      | Some namespace => foldl (record_found_provider env namespace) ([], c) providers
      | None => ([], c)
      end
  | _ => ([], c)
  end.

Definition record_known_addr (env : KadEnv) (peer : PeerId) (st : bool * KadCtx) (addr : Multiaddr) : bool * KadCtx :=
  let '(relay_preferred, c) := st in
  let c := swarm_acts (add_peer_address_to_discovery peer addr) c in
  (relay_preferred || is_p2p_circuit_addr addr,
   upd_kx_cache_writes (fun w => record_seen w peer addr)
     (upd_kx_book (fun b => record_addr b peer addr DhtProvider (ke_now env)) c)).

Definition record_known_provider_addrs (env : KadEnv) (peer : PeerId) (addrs : list Multiaddr) (c : KadCtx) : Kx :=
  let is_dht_provider := match PeerBook.record (kx_book c) peer with
                         | Some r => bool_decide (DhtProvider ∈ pr_sources r)
                         | None => false
                         end in
  if negb is_dht_provider then ([], c)
  else
    let '(relay_preferred, c) := foldl (record_known_addr env peer) (false, swarm_acts [AllowDcutrPeer peer] c) addrs in
    let c := if relay_preferred then upd_kx_book (fun b => record_relay_preferred b peer true (ke_now env)) c else c in
    ([{| cd_peer := peer; cd_address_updated := true |}], c).

Definition closest_peers (r : QueryResult) : option (list KadPeerInfo) :=
  match r with
  | GetClosestPeers peers => Some peers
  | GetClosestPeersTimeout peers _ => Some peers
  | _ => None
  end.

Definition record_provider_addr_lookup_result (env : KadEnv) (id : Z) (r : QueryResult) (c : KadCtx) : Kx :=
  match provider_addr_lookup_peer (kx_dht c) id, closest_peers r with
  | Some target_peer, Some peers =>
      let c := swarm_acts (info ← peers; addr ← ki_addrs info; add_peer_address_to_discovery (ki_peer info) addr) c in
      let target_addrs := (filter (fun info => ki_peer info = target_peer) peers) ≫= ki_addrs in
      if decide (target_addrs = []) then ([], c) else record_known_provider_addrs env target_peer target_addrs c
  | _, _ => ([], c)
  end.

Definition record_kademlia_provider_addrs (env : KadEnv) (ev : KadEvent) (c : KadCtx) : Kx :=
  match ev with
  | OutboundQueryProgressed id r _ => record_provider_addr_lookup_result env id r c
  | RoutingUpdated peer addresses => record_known_provider_addrs env peer addresses c
  | RoutablePeer peer address | PendingRoutablePeer peer address => record_known_provider_addrs env peer [address] c
  | _ => ([], c)
  end.

Definition record_dht_peer_address_records (env : KadEnv) (ev : KadEvent) (c : KadCtx) : list AutoDialCandidate * list string * KadCtx :=
  match ev with
  | OutboundQueryProgressed id r last =>
      match address_record_lookup (kx_dht c) id with
      | None => ([], [], c)
      | Some (expected_peer, namespace) =>
          let complete := upd_kx_dht (fun s => complete_get_address_record s id) in
          match r with
          | FoundRecord value =>
              let c := if last then complete c else c in
              match decode_peer_address_record value expected_peer with
              | Ok addrs =>
                  let c := upd_kx_book (fun b => record_namespace b expected_peer namespace DhtProvider (ke_now env)) c in
                  let '(candidates, c) := record_known_provider_addrs env expected_peer addrs c in
                  (candidates, ["dht signed peer address record accepted peer=" +:+ peer_to_string expected_peer], c)
              | Err err =>
                  ([], ["dht signed peer address record rejected peer=" +:+ peer_to_string expected_peer +:+ " error=" +:+ err], c)
              end
          | FinishedWithNoAdditionalRecord => ([], [], complete c)
          | GetRecordFailed err =>
              ([], ["dht signed peer address lookup failed peer=" +:+ peer_to_string expected_peer +:+ " error=" +:+ err],
               complete c)
          | _ => ([], [], c)
          end
      end
  | _ => ([], [], c)
  end.

(** * Making room for an application dial *)
Context `{!HashIter Z}.

Definition outgoing_peers (caps : ConnectionCapState) : list PeerId :=
  omap (fun conn => outgoing_by_connection caps !! conn) (hash_iter (dom (outgoing_by_connection caps))).

(** [.filter(|peer| seen.insert( *peer))] *)
Fixpoint first_seen (seen : gset PeerId) (l : list PeerId) : list PeerId :=
  match l with
  | [] => []
  | p :: l' => if decide (p ∈ seen) then first_seen seen l' else p :: first_seen ({[p]} ∪ seen) l'
  end.

Definition releasable (env : KadEnv) (book : PeerBook) (target peer : PeerId) : Prop :=
  (peer ≠ target) /\ PeerBook.record book peer = None /\ (peer ∉ relay_client_reservations (ke_relay env)) /\
  (peer ∉ relay_client_attempted_peers (ke_relay env)).

#[export] Instance releasable_dec env book target peer : Decision (releasable env book target peer).
Proof. unfold releasable. solve_decision. Defined.

Definition release_outbound_dht_infrastructure_for_app_dial (env : KadEnv) (target : PeerId) (c : KadCtx) : Z * KadCtx :=
  let to_release := outgoing_connections_to_release (ke_caps env) APPLICATION_DIAL_REQUIRED_HEADROOM in
  if decide (to_release = 0) then (0, c)
  else
    let victims := take (Z.to_nat to_release)
      (first_seen ∅ (filter (releasable env (kx_book c) target) (outgoing_peers (ke_caps env)))) in
    (len victims, upd_kx_released (fun l => l ++ victims) c).

Definition settle_outcome (now : Z) (peer : PeerId) (o : AutoDialOutcome) (s : DhtProviderState) : DhtProviderState :=
  match o with
  | DialStarted _ | AddressResolutionStarted _ => (mark_auto_connect_attempted now s peer).2
  | DialFailed _ => (mark_auto_connect_failed (mark_auto_connect_attempted now s peer).2 peer).2
  | AwaitingAddress => (mark_auto_connect_waiting_for_addrs s peer).2
  | _ => s
  end.

Definition auto_dial_provider (env : KadEnv) (st : list string * KadCtx) (candidate : AutoDialCandidate) : list string * KadCtx :=
  let '(pulses, c) := st in
  let peer := cd_peer candidate in
  if is_suppressed (kx_stats c) peer then st
  else
    let '(should_attempt, s) := if cd_address_updated candidate
      then should_auto_connect_after_addr_update (ke_now env) (kx_dht c) peer
      else should_auto_connect_provider_result (ke_now env) (kx_dht c) peer in
    let c := upd_kx_dht (fun _ => s) c in
    if negb should_attempt then (pulses, c)
    else
      let '(released, c) := if is_local env peer then (0, c) else release_outbound_dht_infrastructure_for_app_dial env peer c in
      let pulses := if decide (0 < released) then
        pulses ++ ["dht provider auto-connect released " +:+ pretty released
          +:+ " unrelated outbound DHT peer(s) because the outbound cap blocked application dial target=" +:+ peer_to_string peer]
        else pulses in
      let '(outcome, pending) := env_auto_dial_dht (ke_dial env) (ke_auto_connect env) (kx_book c) (kx_pending c) peer in
      let c := upd_kx_pending (fun _ => pending) c in
      let c := upd_kx_stats (fun stats => record_outcome stats peer outcome) c in
      let c := upd_kx_dht (settle_outcome (ke_now env) peer outcome) c in
      (if should_pulse outcome then pulses ++ ["dht provider " +:+ describe_outcome outcome peer] else pulses, c).

Definition maybe_auto_dial_dht_providers (env : KadEnv) (peers : list AutoDialCandidate) (c : KadCtx) : list string * KadCtx :=
  foldl (auto_dial_provider env) ([], c) peers.

Definition ignored_event (ev : KadEvent) : bool :=
  match ev with InboundRequest | ModeChanged | UnroutablePeer => true | _ => false end.

Definition kad_handle_event (env : KadEnv) (ev : KadEvent) (c : KadCtx) : KadCtx :=
  if ignored_event ev then c
  else
    let '(providers, c) := record_dht_provider_peers env ev c in
    let '(addrs, c) := record_kademlia_provider_addrs env ev c in
    let '(records, record_pulses, c) := record_dht_peer_address_records env ev c in
    let candidates := providers ++ addrs ++ records in
    let '(auto_dial_pulses, c) := maybe_auto_dial_dht_providers env candidates c in
    let '(line, s, acts) := on_kademlia_event (ke_now env) ev (kx_dht c) in
    let c := swarm_acts acts (upd_kx_dht (fun _ => s) c) in
    let c := match line with
             | Some line => upd_kx_observability (fun o => pulse (dht_dirty o) line) c
             | None => c
             end in
    let c := if decide (candidates = []) then c else upd_kx_observability peer_connectivity_dirty c in
    upd_kx_observability (fun o => foldl pulse o (record_pulses ++ auto_dial_pulses)) c.
End dht_events.
