(* ===== verification/DhtFacts.v ===== *)
(** Facts about Kademlia discovery: signed address records, the rate of
    automatic dials, the peers disconnected to make room for a dial, the refresh
    schedule, and the refresh of the namespaces. *)

From S2P Require Import Prelude Bytes Text BTree BoundedSet Common AppMessage Observability Relay RelayFacts RelayLimiter Addresses.
From S2P Require Import Connections Storage RelayClient PeerBook PeerCache ConnectionStrategy StackDiscovery Dht DhtEvents.

#[local] Open Scope Z_scope.

(** * Address records *)
Section records.
Context {P : PeerIdLib} {M : MultiaddrLib}.

(** A public address whose last peer component is [peer]: dialling it reaches
    that peer or fails. *)
Definition public_route_to (peer : PeerId) (addr : Multiaddr) : Prop :=
  is_public_direct_addr addr = true /\ extract_last_p2p_peer_id addr = Some peer.

Lemma scan_last l found t b t0 :
  (b = false -> t0 = None) -> (t0 ≠ None -> found = t0) ->
  (foldl scan_route (b, t0) l).2 = Some t -> foldl last_peer_step found l = Some t.
Proof.
  revert found b t0. induction l as [|p l IH]; intros found b t0 Hb Hf; cbn.
  { intros ->. by apply Hf. }
  destruct p; cbn; try (apply IH; auto; fail).
  - destruct b; cbn; apply IH; auto; try done. rewrite (Hb eq_refl). done.
  - apply IH; auto. done.
Qed.

Lemma public_direct_snoc b l t : public_direct b (l ++ [P2p t]) = public_direct b l.
Proof. revert b. induction l as [|p l IH]; intros b; cbn; [done|]. destruct p; cbn; rewrite ?IH; done. Qed.

Context {ML : MultiaddrLaws M}.

Lemma last_p2p_with a t : extract_last_p2p_peer_id (addr_with a (P2p t)) = Some t.
Proof using ML. unfold extract_last_p2p_peer_id. by rewrite addr_iter_with, foldl_app. Qed.

Lemma public_with a t : is_public_direct_addr (addr_with a (P2p t)) = is_public_direct_addr a.
Proof using ML. unfold is_public_direct_addr. by rewrite addr_iter_with, public_direct_snoc. Qed.

Lemma normalize_route addr peer a :
  normalize_public_address_for_peer addr peer = Some a -> public_route_to peer a.
Proof using ML.
  unfold normalize_public_address_for_peer, relay_dial_addr_for_peer, public_route_to.
  destruct (is_p2p_circuit_addr addr), (is_public_direct_addr addr) eqn:Hp; cbn; try done.
  - destruct (_.2) as [q|] eqn:E; [case_decide; [|done]; subst q|]; intros [= <-].
    + split; [done|]. by apply (scan_last _ _ _ false None).
    + by rewrite public_with, last_p2p_with.
  - change (foldl last_peer None) with (foldl last_peer_step None). fold (extract_last_p2p_peer_id addr).
    destruct (extract_last_p2p_peer_id addr) as [q|] eqn:E; [case_decide; [|done]; subst q|]; intros [= <-].
    + done.
    + by rewrite public_with, last_p2p_with.
Qed.

(** An address this normalisation returned is returned as it is. *)
Lemma normalize_idem addr peer a :
  normalize_public_address_for_peer addr peer = Some a -> normalize_public_address_for_peer a peer = Some a.
Proof using ML.
  intros H. pose proof (normalize_route _ _ _ H) as [Hp Hl]. revert H.
  unfold normalize_public_address_for_peer at 1. destruct (is_p2p_circuit_addr addr) eqn:Hc.
  - destruct (is_public_direct_addr addr); cbn; [|done]. intros H.
    assert (is_p2p_circuit_addr a = true /\ relay_dial_addr_for_peer a peer = Some a) as [Hca Hr].
    { revert H. unfold relay_dial_addr_for_peer at 1. rewrite Hc. cbn. destruct (_.2) as [q|] eqn:E.
      - case_decide; [|done]. intros [= <-]. split; [done|]. unfold relay_dial_addr_for_peer. rewrite Hc, E. cbn.
        by rewrite decide_True.
      - intros [= <-]. by rewrite circuit_with, Hc, dial_route_with. }
    unfold normalize_public_address_for_peer. by rewrite Hca, Hp.
  - destruct (is_public_direct_addr addr); cbn; [|done]. intros H.
    assert (is_p2p_circuit_addr a = false) as Hca.
    { destruct (foldl last_peer None _) as [q|]; [case_decide; [|done]|]; injection H as <-; [done|].
      by rewrite circuit_with, Hc. }
    unfold normalize_public_address_for_peer. rewrite Hca, Hp. cbn.
    change (foldl last_peer None) with (foldl last_peer_step None). fold (extract_last_p2p_peer_id a).
    rewrite Hl. by rewrite decide_True.
Qed.

Lemma push_normalized_spec peer l acc :
  NoDup acc -> Forall (public_route_to peer) acc ->
  let out := foldl (push_normalized peer) acc l in
  NoDup out /\ Forall (public_route_to peer) out /\ (length out <= length acc + length l)%nat.
Proof using ML.
  revert acc. induction l as [|a l IH]; intros acc Hn Hf; cbn; [split_and!; auto; lia|].
  enough (NoDup (push_normalized peer acc a) /\ Forall (public_route_to peer) (push_normalized peer acc a) /\
          (length (push_normalized peer acc a) <= S (length acc))%nat) as (H1 & H2 & H3).
  { destruct (IH _ H1 H2) as (? & ? & ?). split_and!; auto; lia. }
  unfold push_normalized, push_unique. destruct (normalize_public_address_for_peer a peer) as [b|] eqn:E; [|auto].
  case_decide; [auto|]. split_and!.
  - apply NoDup_app. split_and!; auto; [set_solver|]. apply NoDup_singleton.
  - apply Forall_app. split; [done|]. constructor; [by eapply normalize_route|done].
  - rewrite length_app. cbn. lia.
Qed.

Lemma push_normalized_id peer l acc :
  NoDup (acc ++ l) -> Forall (fun a => normalize_public_address_for_peer a peer = Some a) l ->
  foldl (push_normalized peer) acc l = acc ++ l.
Proof.
  revert acc. induction l as [|a l IH]; intros acc Hn Hf; cbn; [by rewrite app_nil_r|].
  apply Forall_cons in Hf as [Ha Hf]. unfold push_normalized at 2. rewrite Ha. unfold push_unique.
  rewrite decide_False.
  - rewrite (cons_middle a acc l), app_assoc in Hn |- *. by apply IH.
  - apply NoDup_app in Hn as (_ & Hd & _). intros Hin. apply (Hd a Hin). set_solver.
Qed.

Context {K : KeypairLib} {R : PeerRecordLib}.

(** A signed address record is believed only about its signer, and only
    for addresses that lead to it.  Whatever [decode_peer_address_record]
    accepts for an expected peer comes from a record of at most 32 KiB that was
    read back as signed by that very peer, and yields between one and sixteen
    distinct addresses, each of them public and ending in that peer's identity,
    so no address learnt this way can point a dial at anyone else. *)
Theorem accepted_record_addresses (bytes : list byte) (peer : PeerId) (addrs : list Multiaddr) :
  decode_peer_address_record bytes peer = Ok addrs ->
  len bytes <= 32768 /\
  (exists envelope signed, envelope_decode bytes = Ok envelope /\ peer_record_read envelope = Ok (peer, signed)) /\
  1 <= len addrs <= 16 /\ NoDup addrs /\ Forall (public_route_to peer) addrs.
Proof using ML.
  unfold decode_peer_address_record, MAX_DHT_PEER_ADDRESS_RECORD_BYTES. case_decide as Hlen; [done|].
  destruct (envelope_decode bytes) as [e|] eqn:Ee; [|done].
  destruct (peer_record_read e) as [[p signed]|] eqn:Er; [|done].
  case_bool_decide as Hp; cbn; [|done]. subst p. case_decide as Hn; [done|]. intros [= <-].
  destruct (push_normalized_spec peer (take (Z.to_nat MAX_DHT_PEER_ADDRESS_COUNT) signed) []) as (H1 & H2 & H3);
    [constructor|done|].
  split_and!; try done; [lia|by eauto| |].
  - destruct (foldl _ _ _); [done|]. unfold len. cbn. lia.
  - rewrite length_take in H3. unfold len, MAX_DHT_PEER_ADDRESS_COUNT in *. cbn in H3. lia.
Qed.

(** * What a node publishes *)
Lemma unique_loop_spec peer l acc s :
  s ∈ unique_loop peer l acc ->
  s ∈ acc \/ exists addr a, normalize_public_address_for_peer addr peer = Some a /\ s = addr_to_string a.
Proof.
  revert acc. induction l as [|addr l IH]; intros acc; cbn; [auto|]. case_decide as Hc.
  - destruct (normalize_public_address_for_peer addr peer) as [a|] eqn:E; set_solver.
  - intros [H|H]%IH; [|auto].
    destruct (normalize_public_address_for_peer addr peer) as [a|] eqn:E; [|auto]. set_solver.
Qed.

Lemma unique_loop_size peer l acc :
  (size acc < 16)%nat -> (size (unique_loop peer l acc) <= 16)%nat.
Proof.
  revert acc. induction l as [|addr l IH]; intros acc Hs; cbn; [lia|].
  set (acc' := match normalize_public_address_for_peer addr peer with Some a => {[addr_to_string a]} ∪ acc | None => acc end).
  assert (size acc' <= S (size acc))%nat as Ha.
  { subst acc'. destruct (normalize_public_address_for_peer addr peer) as [a|]; [|lia].
    destruct (decide (addr_to_string a ∈ acc)); [rewrite subseteq_union_1_L by set_solver; lia|].
    rewrite size_union, size_singleton by set_solver. lia. }
  case_decide as Hc; [lia|]. apply IH. unfold MAX_DHT_PEER_ADDRESS_COUNT in Hc. lia.
Qed.

Lemma published_normal peer addrs :
  Forall (fun a => normalize_public_address_for_peer a peer = Some a) (published_addresses peer addrs).
Proof using ML.
  apply Forall_forall. intros a. unfold published_addresses. rewrite list_elem_of_omap. intros (s & Hs & Ha).
  apply elem_of_bt_iter, unique_loop_spec in Hs as [Hs|(addr & b & Hn & ->)]; [set_solver|].
  rewrite addr_parse_to_string in Ha. cbn in Ha. injection Ha as ->. by eapply normalize_idem.
Qed.

Lemma NoDup_omap_inj {A B} (f : A -> option B) l :
  (forall x y b, x ∈ l -> y ∈ l -> f x = Some b -> f y = Some b -> x = y) -> NoDup l -> NoDup (omap f l).
Proof.
  intros Hf. induction 1 as [|x l Hx Hn IH]; cbn; [constructor|].
  assert (NoDup (omap f l)) as Hl by (apply IH; intros; eapply Hf; [right|right| |]; eauto).
  destruct (f x) as [b|] eqn:E; [|done]. apply NoDup_cons. split; [|done].
  rewrite list_elem_of_omap. intros (y & Hy & Ey). assert (x = y) by (eapply Hf; [left|right; exact Hy| |]; eauto). by subst.
Qed.

Lemma length_omap_le {A B} (f : A -> option B) l : (length (omap f l) <= length l)%nat.
Proof. induction l as [|x l IH]; cbn; [done|]. destruct (f x); cbn; lia. Qed.

Lemma published_distinct peer addrs : NoDup (published_addresses peer addrs) /\ (length (published_addresses peer addrs) <= 16)%nat.
Proof using ML.
  unfold published_addresses. split.
  - apply NoDup_omap_inj; [|rewrite bt_iter_Permutation; apply NoDup_elements].
    intros x y b Hx Hy. rewrite elem_of_bt_iter in Hx, Hy.
    apply unique_loop_spec in Hx as [Hx|(? & a & _ & ->)]; [set_solver|].
    apply unique_loop_spec in Hy as [Hy|(? & a' & _ & ->)]; [set_solver|].
    rewrite !addr_parse_to_string. cbn. congruence.
  - etransitivity; [apply length_omap_le|]. rewrite bt_iter_Permutation. change (length (elements ?x)) with (size x).
    apply unique_loop_size. rewrite size_empty. lia.
Qed.

(** A node's own address record is accepted by every other node as it was
    published.  When the record that the publishing code signs for its
    normalised addresses fits the size bound, [decode_peer_address_record]
    reads the encoding back, for the publisher's peer id, as exactly those
    addresses in the published order; for any other expected peer it refuses it. *)
Theorem published_record_round_trips {RL : PeerRecordLaws R} (key : Keypair) (swarm_addrs : list Multiaddr) (e : SignedEnvelope) :
  let addrs := published_addresses (public_peer key) swarm_addrs in
  addrs ≠ [] -> peer_record_sign key addrs = Ok e -> len (envelope_encode e) <= MAX_DHT_PEER_ADDRESS_RECORD_BYTES ->
  decode_peer_address_record (envelope_encode e) (public_peer key) = Ok addrs /\
  forall other, other ≠ public_peer key -> exists reason, decode_peer_address_record (envelope_encode e) other = Err reason.
Proof using ML.
  cbn zeta. intros Hne Hs Hl. unfold decode_peer_address_record.
  rewrite decide_False by lia. rewrite envelope_decode_encode, (peer_record_read_sign _ _ _ Hs). split.
  - rewrite bool_decide_true by done. cbn.
    destruct (published_distinct (public_peer key) swarm_addrs) as [Hd Hlen].
    rewrite take_ge by (unfold MAX_DHT_PEER_ADDRESS_COUNT; cbn; lia).
    rewrite (push_normalized_id _ _ [] Hd (published_normal _ _)). cbn. by rewrite decide_False.
  - intros other Ho. rewrite decide_False by lia. rewrite bool_decide_false by (intros E; by apply Ho). cbn [negb]. eexists. reflexivity.
Qed.
End records.

(** * The rate of automatic dials *)
Section rate.
Context {P : PeerIdLib} {M : MultiaddrLib} {S2 : Sha256Lib}.

(** What happens to the retry history of the peers: a candidate goes through
    the retry check and the outcome of its dial is settled, as in
    [maybe_auto_dial_dht_providers] and in the periodic maintenance; a
    connection attempt fails or a connection closes; a provider is recorded. *)
Inductive DhtOp : Type :=
| OpCandidate (peer : PeerId) (address_updated : bool) (outcome : AutoDialOutcome)
| OpFailed (peer : PeerId)
| OpProvider (peer : PeerId) (namespace : string).

Definition op_peer (op : DhtOp) : PeerId :=
  match op with OpCandidate p _ _ | OpFailed p | OpProvider p _ => p end.

Definition dials (o : AutoDialOutcome) : bool :=
  match o with DialStarted _ | AddressResolutionStarted _ | DialFailed _ => true | _ => false end.

(** The state after, and the peer that was dialled. *)
Definition dht_op (now : Z) (s : DhtProviderState) (op : DhtOp) : DhtProviderState * option PeerId :=
  match op with
  | OpCandidate peer updated outcome =>
      let '(allowed, s) := if updated then should_auto_connect_after_addr_update now s peer
                           else should_auto_connect_provider_result now s peer in
      if allowed then (settle_outcome now peer outcome s, if dials outcome then Some peer else None) else (s, None)
  | OpFailed peer => ((mark_auto_connect_failed s peer).2, None)
  | OpProvider peer namespace => ((record_provider_peer s peer namespace).2, None)
  end.

Fixpoint dht_ops (s : DhtProviderState) (ops : list (Z * DhtOp)) : DhtProviderState * list PeerId :=
  match ops with
  | [] => (s, [])
  | (now, op) :: ops =>
      let '(s, dialled) := dht_op now s op in
      let '(s, rest) := dht_ops s ops in
      (s, option_list dialled ++ rest)
  end.

Definition dial_count (peer : PeerId) (dialled : list PeerId) : Z := len (filter (fun p => p = peer) dialled).

(** [history start now n s]: the [n] dials of the peer since [start] fit in the
    windows that have begun. *)
Definition history (peer : PeerId) (start now n : Z) (s : DhtProviderState) : Prop :=
  match auto_connect_retry s !! peer with
  | None => n = 0
  | Some r => 0 < ac_window_started r <= now /\ 0 <= ac_attempts r <= 8 /\
              exists k, 0 <= k /\ n <= 8 * k + ac_attempts r /\ start + 300 * k <= ac_window_started r
  end.

Lemma history_bound peer start now n s : start <= now -> history peer start now n s -> n <= 8 * (1 + (now - start) / 300).
Proof.
  intros Hs. unfold history. destruct (auto_connect_retry s !! peer) as [r|].
  - intros (Hw & Ha & k & Hk & Hn & Hk'). assert (k <= (now - start) / 300) by (apply Z.div_le_lower_bound; lia). lia.
  - intros ->. assert (0 <= (now - start) / 300) by (apply Z.div_pos; lia). lia.
Qed.

Lemma history_later peer start now now' n s : now <= now' -> history peer start now n s -> history peer start now' n s.
Proof.
  intros Hl. unfold history. destruct (auto_connect_retry s !! peer) as [r|]; [|done].
  intros (Hw & Ha & Hk). split_and!; [lia|lia|lia|lia|done].
Qed.

(** The retry table is pruned only beyond 2048 entries. *)
Lemma prune_retry_small s : (size (auto_connect_retry s) <= 2048)%nat -> prune_retry s = s.
Proof.
  intros Hs. unfold prune_retry. destruct (length _) as [|n]; [done|]. cbn [loop].
  unfold prune_retry_step. rewrite decide_False; [done|]. unfold MAX_TRACKED_PROVIDER_PEERS. lia.
Qed.

Lemma prune_tracking_retry s : auto_connect_retry (prune_provider_tracking s) = auto_connect_retry s.
Proof.
  apply (loop_inv _ (fun s' => auto_connect_retry s' = auto_connect_retry s)); [|done].
  intros s1 s2 IH. unfold prune_tracking_step. case_decide; [|done]. destruct (discovered_provider_order s1); [done|].
  intros [= <-]. by case_decide.
Qed.

Context (peers : gset PeerId) (few : (size peers <= 2048)%nat).

Definition known_only (s : DhtProviderState) : Prop := dom (auto_connect_retry s) ⊆ peers.

Lemma small_retry (m : gmap PeerId AutoConnectRetryState) : dom m ⊆ peers -> (size m <= 2048)%nat.
Proof using few. intros Hm. rewrite <- size_dom. etransitivity; [by apply subseteq_size|done]. Qed.

Lemma mark_retry now s p :
  known_only s -> p ∈ peers ->
  auto_connect_retry (mark_auto_connect_attempted now s p).2 =
    if decide (p ∈ bset (auto_connect_attempted s)) then auto_connect_retry s
    else <[p := next_retry now (default AutoConnectRetryState_default (auto_connect_retry s !! p))]> (auto_connect_retry s).
Proof using few.
  intros Hk Hp. unfold mark_auto_connect_attempted. cbn [auto_connect_attempted upd_auto_connect_waiting].
  case_decide as Ha; [done|]. rewrite prune_retry_small; cbn.
  - by case_decide.
  - destruct (decide _); cbn; (apply small_retry; rewrite dom_insert; unfold known_only in Hk; set_solver).
Qed.

Lemma allowed_retry now s p allowed s' :
  auto_connect_retry_allowed now s p = (allowed, s') ->
  auto_connect_attempted s' = auto_connect_attempted s /\
  (allowed = true -> p ∉ bset (auto_connect_attempted s)) /\
  (auto_connect_retry s' = auto_connect_retry s \/
   exists r, auto_connect_retry s !! p = Some r /\ 300 <= sat_sub now (ac_window_started r) /\
     auto_connect_retry s' = <[p := {| ac_attempts := 0; ac_window_started := now; ac_last_attempt := 0 |}]> (auto_connect_retry s)) /\
  (allowed = true -> forall r, auto_connect_retry s' !! p = Some r -> ac_attempts r < 8 /\ sat_sub now (ac_window_started r) < 300).
Proof.
  unfold auto_connect_retry_allowed. case_decide as Ha; [intros [= <- <-]; split_and!; auto; done|].
  destruct (auto_connect_retry s !! p) as [r|] eqn:E.
  - case_decide as Hw; intros [= <- <-]; split_and!; auto.
    + right. by exists r.
    + intros _ r'. cbn. rewrite lookup_insert_eq. intros [= <-]. cbn. unfold sat_sub. lia.
    + intros Hb r'. rewrite E. intros [= <-]. apply andb_prop in Hb as [Hb _]. rewrite bool_decide_eq_true in Hb.
      unfold AUTO_CONNECT_RETRY_WINDOW_SECS, MAX_AUTO_CONNECT_ATTEMPTS_PER_WINDOW in *. lia.
  - intros [= <- <-]. split_and!; auto. intros _ r'. by rewrite E.
Qed.

Lemma history_ext p start now n s s' :
  auto_connect_retry s' !! p = auto_connect_retry s !! p -> history p start now n s -> history p start now n s'.
Proof. unfold history. by intros ->. Qed.

Lemma check_history start now n s p q allowed s' :
  0 < now -> auto_connect_retry_allowed now s q = (allowed, s') ->
  history p start now n s -> history p start now n s'.
Proof.
  intros Hnow Hc. apply allowed_retry in Hc as (_ & _ & [E|(r & Hr & Hw & E)] & _); [apply history_ext; by rewrite E|].
  destruct (decide (p = q)) as [->|]; [|apply history_ext; by rewrite E, lookup_insert_ne].
  unfold history. rewrite E, lookup_insert_eq, Hr. cbn. intros (H1 & H2 & k & Hk & Hn & Hs).
  unfold sat_sub in Hw. split_and!; try lia. exists (k + 1). lia.
Qed.

Lemma next_retry_same now r :
  0 < ac_window_started r -> sat_sub now (ac_window_started r) < 300 -> 0 <= ac_attempts r < 8 ->
  next_retry now r = {| ac_attempts := ac_attempts r + 1; ac_window_started := ac_window_started r; ac_last_attempt := now |}.
Proof.
  intros H1 H2 H3. unfold next_retry. rewrite decide_False by (unfold AUTO_CONNECT_RETRY_WINDOW_SECS; lia).
  f_equal. unfold sat_add, u32_max. lia.
Qed.

(** One dial of an allowed peer, settled. *)
Lemma dial_history start now n s p :
  0 < now -> start <= now -> known_only s -> p ∈ peers -> p ∉ bset (auto_connect_attempted s) ->
  (forall r, auto_connect_retry s !! p = Some r -> ac_attempts r < 8 /\ sat_sub now (ac_window_started r) < 300) ->
  history p start now n s -> history p start now (n + 1) (mark_auto_connect_attempted now s p).2.
Proof using few.
  intros Hnow Hst Hk Hp Ha Hr. unfold history. rewrite mark_retry by done. rewrite decide_False by done.
  rewrite lookup_insert_eq. destruct (auto_connect_retry s !! p) as [r|]; cbn [from_option id].
  - destruct (Hr r eq_refl) as [H1 H2]. intros (Hw & Hat & k & Hk0 & Hn & Hs).
    rewrite next_retry_same by (lia || done). cbn. split_and!; try lia. exists k. lia.
  - intros ->. unfold next_retry, sat_add, u32_max. cbn. rewrite decide_True by auto. cbn. split_and!; try lia. exists 0. lia.
Qed.

Lemma settle_retry now p o s :
  auto_connect_retry (settle_outcome now p o s) =
    if dials o then auto_connect_retry (mark_auto_connect_attempted now s p).2 else auto_connect_retry s.
Proof.
  destruct o; cbn; try done.
  - unfold mark_auto_connect_waiting_for_addrs. case_decide; [done|]. by destruct (bounded_insert _ _ _).
  - unfold mark_auto_connect_failed. by destruct (remove_peer_from_bounded_set _ (auto_connect_attempted _)).
Qed.

Lemma dom_check now s q allowed s' :
  auto_connect_retry_allowed now s q = (allowed, s') -> known_only s -> known_only s'.
Proof.
  intros Hc. apply allowed_retry in Hc as (_ & _ & [E|(r & Hr & Hw & E)] & _); unfold known_only; rewrite E; [done|].
  apply elem_of_dom_2 in Hr. rewrite dom_insert. set_solver.
Qed.

Definition dialled_now (p : PeerId) (dialled : option PeerId) : Z := if decide (dialled = Some p) then 1 else 0.

Lemma dialled_now_None p n : n + dialled_now p None = n.
Proof. unfold dialled_now. rewrite decide_False by done. lia. Qed.

Lemma candidate_history start now n s p q outcome allowed s' :
  0 < now -> start <= now -> q ∈ peers -> known_only s -> history p start now n s ->
  auto_connect_retry_allowed now s q = (allowed, s') ->
  let s2 := if allowed then settle_outcome now q outcome s' else s' in
  known_only s2 /\
  history p start now (n + dialled_now p (if allowed then if dials outcome then Some q else None else None)) s2.
Proof using few.
  intros Hnow Hst Hq Hk Hh Hc. cbn zeta.
  pose proof (check_history _ _ _ _ _ _ _ _ Hnow Hc Hh) as Hh'. pose proof (dom_check _ _ _ _ _ Hc Hk) as Hk'.
  apply allowed_retry in Hc as (Ea & Hal & _ & Hr).
  destruct allowed; [|unfold dialled_now; rewrite decide_False by done; by rewrite Z.add_0_r].
  assert (auto_connect_retry (settle_outcome now q outcome s') =
    if dials outcome then auto_connect_retry (mark_auto_connect_attempted now s' q).2 else auto_connect_retry s') as Es
    by apply settle_retry.
  destruct (dials outcome); unfold dialled_now, known_only; rewrite Es.
  - rewrite mark_retry, decide_False by (done || rewrite Ea; auto). split; [rewrite dom_insert; unfold known_only in Hk'; set_solver|].
    case_decide as Hpq.
    + injection Hpq as ->. eapply history_ext; [rewrite Es; reflexivity|]. apply dial_history; auto. rewrite Ea. auto.
    + rewrite Z.add_0_r. eapply history_ext; [|exact Hh']. rewrite Es, mark_retry, decide_False by (done || rewrite Ea; auto).
      rewrite lookup_insert_ne; [done|congruence].
  - split; [done|]. rewrite decide_False by done. rewrite Z.add_0_r. eapply history_ext; [|exact Hh']. by rewrite Es.
Qed.

Lemma op_history start now n s p op s' dialled :
  0 < now -> start <= now -> op_peer op ∈ peers -> known_only s -> history p start now n s ->
  dht_op now s op = (s', dialled) -> known_only s' /\ history p start now (n + dialled_now p dialled) s'.
Proof using few.
  intros Hnow Hst Hq Hk Hh. destruct op as [q updated outcome|q|q namespace]; cbn [dht_op].
  - assert (exists allowed s1, (if updated then should_auto_connect_after_addr_update now s q
              else should_auto_connect_provider_result now s q) = (allowed, s1) /\
            ((allowed = false /\ s1 = s) \/ auto_connect_retry_allowed now s q = (allowed, s1))) as (allowed & s1 & -> & Hc).
    { unfold should_auto_connect_after_addr_update, should_auto_connect_provider_result.
      destruct updated; [|case_decide]; try (eexists _, _; split; [reflexivity|]; by auto);
        destruct (auto_connect_retry_allowed now s q) as [a s1]; eauto. }
    destruct Hc as [[-> ->]|Hc].
    + intros [= <- <-]. by rewrite dialled_now_None.
    + pose proof (candidate_history _ _ _ _ _ _ outcome _ _ Hnow Hst Hq Hk Hh Hc) as H. destruct allowed; by intros [= <- <-].
  - intros [= <- <-]. rewrite dialled_now_None. unfold mark_auto_connect_failed.
    destruct (remove_peer_from_bounded_set _ _). split; [exact Hk|]. by apply (history_ext _ _ _ _ s).
  - intros [<- <-]%pair_eq. rewrite dialled_now_None.
    assert (auto_connect_retry (record_provider_peer s q namespace).2 = auto_connect_retry s) as E.
    { unfold record_provider_peer. cbn [snd]. case_decide; [done|]. by rewrite prune_tracking_retry. }
    unfold known_only. rewrite E. split; [done|]. eapply history_ext; [|exact Hh]. by rewrite E.
Qed.

Lemma dial_count_cons p dialled rest : dial_count p (option_list dialled ++ rest) = dialled_now p dialled + dial_count p rest.
Proof.
  unfold dial_count, dialled_now, len. destruct dialled as [q|]; [|rewrite decide_False by done; cbn; lia].
  change (option_list (Some q) ++ rest) with (q :: rest). rewrite filter_cons. repeat case_decide; cbn; simplify_eq; lia.
Qed.

Lemma last_cons_irrel {A} (a : A) l x y : List.last (a :: l) x = List.last (a :: l) y.
Proof. revert a. induction l as [|b l IH]; intros a; [done|]. apply (IH b). Qed.

Lemma List_last_in {A} (a : A) l x : List.In (List.last (a :: l) x) (a :: l).
Proof. revert a. induction l as [|b l IH]; intros a; [by left|]. right. apply (IH b). Qed.

Lemma ops_history start p ops s s' dialled n t :
  0 < start <= t -> known_only s -> history p start t n s ->
  StronglySorted Z.le (t :: ops.*1) -> Forall (fun e => op_peer e.2 ∈ peers) ops ->
  dht_ops s ops = (s', dialled) ->
  history p start (List.last ops.*1 t) (n + dial_count p dialled) s'.
Proof using few.
  revert s s' dialled n t. induction ops as [|[now op] ops IH]; intros s s' dialled n t Ht Hk Hh Hs Hf; cbn.
  { intros [= <- <-]. cbn. unfold dial_count. cbn. by rewrite Z.add_0_r. }
  apply Forall_cons in Hf as [Hp Hf]. cbn in Hs. apply StronglySorted_inv in Hs as [Hs Hall].
  apply Forall_cons in Hall as [Hle _].
  destruct (dht_op now s op) as [s1 d] eqn:E1. destruct (dht_ops s1 ops) as [s2 rest] eqn:E2. intros [= <- <-].
  rewrite dial_count_cons, Z.add_assoc.
  apply (history_later _ _ _ now) in Hh; [|done].
  destruct (op_history start now n s p op s1 d) as [Hk1 Hh1]; try done; [lia|lia|].
  replace (match ops.*1 with [] => now | _ :: _ => List.last ops.*1 t end) with (List.last ops.*1 now)
    by (destruct (ops.*1) as [|a l]; [done|]; by rewrite (last_cons_irrel a l now t)).
  eapply IH; eauto. lia.
Qed.

(** A discovered peer cannot make this node dial it faster than the retry
    policy allows.  Over any sequence of provider results, address updates,
    dial outcomes, failures and disconnections, in which the clock does not go
    back and at most 2048 peers take part, the node dials a given peer at most
    eight times in each started period of 300 seconds, even when every
    connection to it fails or closes at once. *)
Theorem auto_dial_rate (start : Z) (ops : list (Z * DhtOp)) (p : PeerId) :
  0 < start -> StronglySorted Z.le (start :: ops.*1) -> Forall (fun e => op_peer e.2 ∈ peers) ops ->
  dial_count p (dht_ops DhtProviderState_default ops).2 <= 8 * (1 + (List.last ops.*1 start - start) / 300).
Proof using few.
  intros Hs Hsort Hf. destruct (dht_ops DhtProviderState_default ops) as [s' dialled] eqn:E.
  cbn [snd]. apply (history_bound p _ _ _ s').
  - clear -Hsort. apply StronglySorted_inv in Hsort as [_ Hall]. destruct (ops.*1) as [|a l] eqn:El; [done|].
    rewrite Forall_forall in Hall. apply Hall. rewrite list_elem_of_In. apply List_last_in.
  - rewrite <- (Z.add_0_l (dial_count p dialled)). eapply ops_history; eauto; [lia|by unfold known_only|done].
Qed.
End rate.

(** * Making room for a dial *)
Section release.
Context {P : PeerIdLib} {M : MultiaddrLib} {K : KeypairLib} {S2 : Sha256Lib} {R : PeerRecordLib} `{!HashIter Z}.

Lemma first_seen_spec l seen :
  NoDup (first_seen seen l) /\ (forall p, p ∈ first_seen seen l <-> p ∈ l /\ p ∉ seen).
Proof.
  revert seen. induction l as [|q l IH]; intros seen; cbn; [split; [constructor|set_solver]|].
  case_decide as Hq.
  - destruct (IH seen) as [Hn He]. split; [done|]. intros p. rewrite He. set_solver.
  - destruct (IH ({[q]} ∪ seen)) as [Hn He]. split.
    + apply NoDup_cons. split; [|done]. rewrite He. set_solver.
    + intros p. rewrite elem_of_cons, He. destruct (decide (p = q)); set_solver.
Qed.

Lemma outgoing_peers_spec caps p : p ∈ outgoing_peers caps <-> exists conn, outgoing_by_connection caps !! conn = Some p.
Proof.
  unfold outgoing_peers. rewrite list_elem_of_omap. split; [intros (c & _ & H); eauto|].
  intros [c Hc]. exists c. split; [|done]. rewrite hash_iter_elements, elem_of_elements. by apply elem_of_dom_2 in Hc.
Qed.

(** Making room for an application dial costs only idle routing peers,
    and only as many as are needed.  The peers that
    [release_outbound_dht_infrastructure_for_app_dial] disconnects are distinct
    peers with an outgoing connection, none of them the dial target, a peer the
    peer book knows, or a relay in use or being asked for a reservation; nothing
    is disconnected while the outgoing cap leaves room, and when it does not,
    the number released is exactly what is missing, or all there are. *)
Theorem release_spares_known_peers (env : KadEnv) (target : PeerId) (c : KadCtx) :
  let '(n, c') := release_outbound_dht_infrastructure_for_app_dial env target c in
  let needed := outgoing_connections_to_release (ke_caps env) APPLICATION_DIAL_REQUIRED_HEADROOM in
  exists victims idle,
    kx_released c' = kx_released c ++ victims /\ n = len victims /\ NoDup victims /\
    (forall p, p ∈ victims -> releasable env (kx_book c) target p /\
       exists conn, outgoing_by_connection (ke_caps env) !! conn = Some p) /\
    NoDup idle /\
    (forall p, p ∈ idle <-> releasable env (kx_book c) target p /\
       exists conn, outgoing_by_connection (ke_caps env) !! conn = Some p) /\
    n = Z.min needed (len idle).
Proof.
  unfold release_outbound_dht_infrastructure_for_app_dial.
  set (needed := outgoing_connections_to_release _ _).
  set (idle := first_seen ∅ (filter (releasable env (kx_book c) target) (outgoing_peers (ke_caps env)))).
  destruct (first_seen_spec (filter (releasable env (kx_book c) target) (outgoing_peers (ke_caps env))) ∅) as [Hn He].
  fold idle in Hn, He.
  assert (forall p, p ∈ idle <-> releasable env (kx_book c) target p /\
    exists conn, outgoing_by_connection (ke_caps env) !! conn = Some p) as Hidle.
  { intros p. rewrite He, list_elem_of_filter, outgoing_peers_spec. set_solver. }
  assert (0 <= needed) as Hpos.
  { subst needed. unfold outgoing_connections_to_release. destruct (cap_max_outgoing _); [|lia]. unfold sat_sub. lia. }
  case_decide as Hz.
  - exists [], idle. rewrite app_nil_r. split_and!; try done; [constructor|set_solver|].
    unfold len. lia.
  - exists (take (Z.to_nat needed) idle), idle. split_and!; try done.
    + by eapply sublist_NoDup, sublist_take.
    + intros p Hp. apply Hidle. apply elem_of_take in Hp as (i & Hi & _). by eapply list_elem_of_lookup_2.
    + unfold len. rewrite length_take. lia.
Qed.
End release.

(** * The refresh schedule *)
Inductive schedule_step : DhtRefreshSchedule -> DhtRefreshSchedule -> Prop :=
| StepRefresh d now : next_due d <= now -> schedule_step d (record_refresh now d)
| StepRequest d now : last_refresh d <= now -> schedule_step d (request_event_refresh now d).2.

Definition schedule_ok (steady : Z) (d : DhtRefreshSchedule) : Prop :=
  steady_interval d = from_secs (Z.max steady 1) /\ 0 <= startup_index d <= 4 /\
  last_refresh d + Z.min (from_secs 5) (steady_interval d) <= next_due d <=
  last_refresh d + Z.max (from_secs 60) (steady_interval d).

Lemma startup_delay_range i : match startup_delay i with Some secs => 5 <= secs <= 60 | None => True end.
Proof.
  unfold startup_delay. destruct (DHT_STARTUP_BACKOFF_SECS !! Z.to_nat i) as [x|] eqn:E; [|done].
  apply list_elem_of_lookup_2 in E. unfold DHT_STARTUP_BACKOFF_SECS in E. set_unfold. lia.
Qed.

Lemma schedule_step_ok steady d d' : schedule_ok steady d -> schedule_step d d' -> schedule_ok steady d'.
Proof.
  intros H Hst. destruct Hst as [d0 now Hd|d0 now Hd]; destruct H as (Hs & Hi & Hlo & Hhi); unfold schedule_ok.
  - unfold record_refresh. cbn. pose proof (startup_delay_range (if decide (startup_index d0 < 4) then startup_index d0 + 1 else startup_index d0)) as Hr.
    split_and!; [done| | | |]; try (case_decide; lia);
      destruct (startup_delay _); unfold from_secs in *; lia.
  - unfold request_event_refresh. case_decide as Hc; cbn; [|done]. unfold DHT_EVENT_REFRESH_MIN_GAP_SECS in *.
    split_and!; try done; unfold from_secs in *; lia.
Qed.

(** The discovery refresh neither storms nor starves.  Whatever sequence of
    due refreshes and requests for an early one the node goes through, the next
    refresh stays due no sooner than 5 seconds after the last one (or the
    configured interval when that is shorter) and no later than 60 seconds after
    it (or the configured interval when that is longer); a request made
    before the due time never postpones it, and after at most four refreshes the
    schedule follows the configured interval. *)
Theorem refresh_schedule_bounds (steady now0 : Z) (d : DhtRefreshSchedule) :
  rtc schedule_step (DhtRefreshSchedule_new now0 steady) d ->
  last_refresh d + from_secs (Z.min 5 (Z.max steady 1)) <= next_due d <= last_refresh d + from_secs (Z.max 60 steady) /\
  (forall now, next_due (request_event_refresh now d).2 <= next_due d) /\
  (forall t1 t2 t3 t4, next_due (record_refresh t4 (record_refresh t3 (record_refresh t2 (record_refresh t1 d)))) =
     t4 + from_secs (Z.max steady 1)).
Proof.
  intros Hr. assert (schedule_ok steady d) as (Hs & Hi & Hlo & Hhi).
  { remember (DhtRefreshSchedule_new now0 steady) as d0 eqn:E0.
    assert (schedule_ok steady d0) as H0 by (subst d0; unfold schedule_ok; cbn; unfold from_secs; split_and!; try done; lia).
    clear E0. induction Hr as [|x y z Hxy _ IH]; [done|]. apply IH. by eapply schedule_step_ok. }
  split_and!.
  - rewrite Hs in Hlo. unfold from_secs in *. lia.
  - rewrite Hs in Hhi. unfold from_secs in *. lia.
  - intros now. unfold request_event_refresh. case_decide; cbn; lia.
  - intros t1 t2 t3 t4. unfold record_refresh. cbn [startup_index next_due steady_interval]. rewrite Hs.
    assert (startup_index d = 0 \/ startup_index d = 1 \/ startup_index d = 2 \/ startup_index d = 3 \/ startup_index d = 4)
      as Hcases by lia.
    destruct Hcases as [E|[E|[E|[E|E]]]]; rewrite E; reflexivity.
Qed.

(** * Refreshing the namespaces *)
Section refresh.
Context {P : PeerIdLib} {M : MultiaddrLib} {S2 : Sha256Lib}.

Lemma replica_keys_ok namespace l :
  Forall (fun r => r <= 255) l -> exists keys, replica_keys namespace l = Ret keys /\ length keys = length l.
Proof.
  induction 1 as [|r l Hr _ (keys & E & Hl)]; cbn; [by exists []|]. rewrite decide_True by done. rewrite E. cbn. eexists. split; [done|].
  cbn. by rewrite Hl.
Qed.

Lemma validated_replicas c : DhtDiscoveryConfig_validate c = Ok tt -> 1 <= provider_key_replicas c <= 3.
Proof.
  unfold DhtDiscoveryConfig_validate, reject_if. repeat case_bool_decide; cbn; try done; repeat case_match; done.
Qed.

Lemma dht_provider_keys_ok namespace env :
  DhtDiscoveryConfig_validate (dhtx_config env) = Ok tt ->
  exists keys, dht_provider_keys namespace env = Ret keys /\ 1 <= len keys <= provider_key_replicas (dhtx_config env).
Proof.
  intros Hv%validated_replicas. unfold dht_provider_keys. destruct (public_anchors env) as [|a l] eqn:E.
  - destruct (replica_keys_ok namespace (seqZ 0 (provider_key_replicas (dhtx_config env)))) as (keys & -> & Hl).
    { apply Forall_forall. intros x Hx%elem_of_seqZ. lia. }
    eexists. split; [done|]. unfold len. rewrite Hl, length_seqZ. lia.
  - eexists. split; [done|]. unfold len, indexed. rewrite length_fmap, length_zip_with, length_seqZ.
    assert (length (public_anchors env) <= Z.to_nat (provider_key_replicas (dhtx_config env)))%nat as Hle.
    { unfold public_anchors. destruct (dhtx_public_enabled env); cbn; [rewrite length_take|]; lia. }
    rewrite E in Hle. cbn [length] in *. lia.
Qed.

(** The cached keys are the derived ones, and no key has two queries of a kind
    in flight. *)
Definition cache_ok (env : DhtEnv) (s : DhtProviderState) : Prop :=
  forall namespace keys, provider_keys_by_namespace s !! namespace = Some keys -> dht_provider_keys namespace env = Ret keys.

Definition one_per_key (next : Z) (m : gmap Z string) : Prop :=
  (forall id key, m !! id = Some key -> id < next) /\ (forall i j key, m !! i = Some key -> m !! j = Some key -> i = j).

Definition inflight_ok (s : DhtProviderState) (kad : Kad) : Prop :=
  one_per_key (kad_next kad) (get_provider_query_keys s) /\ one_per_key (kad_next kad) (start_providing_query_keys s).

Lemma any_value_false {A} (f : A -> bool) (m : gmap Z A) id x : any_value f m = false -> m !! id = Some x -> f x = false.
Proof.
  unfold any_value. intros H Hm. destruct (f x) eqn:E; [|done].
  enough (existsb (fun e => f e.2) (map_to_list m) = true) by congruence. apply existsb_exists. exists (id, x).
  split; [|done]. apply list_elem_of_In. by apply elem_of_map_to_list.
Qed.

Lemma one_per_key_next next m : one_per_key next m -> one_per_key (next + 1) m.
Proof. intros [H1 H2]. split; [|done]. intros id key Hk. pose proof (H1 _ _ Hk). lia. Qed.

Lemma one_per_key_insert next m key :
  one_per_key next m -> any_value (fun active => String.eqb active key) m = false -> one_per_key (next + 1) (<[next := key]> m).
Proof.
  intros [H1 H2] Hf. assert (forall i, m !! i ≠ Some key) as Hn.
  { intros i Hi. pose proof (any_value_false _ _ _ _ Hf Hi) as E. cbn in E. by rewrite String.eqb_refl in E. }
  split.
  - intros id k. rewrite lookup_insert_Some. intros [[<- _]|[_ Hk]]; [lia|]. pose proof (H1 _ _ Hk). lia.
  - intros i j k. rewrite !lookup_insert_Some. intros [[? ?]|[Hi Hk]] [[? ?]|[Hj Hk']]; subst; try done; [| |by eapply H2];
      exfalso; by eapply Hn.
Qed.

Definition plan_le (p : DhtNamespacePlan) (n : Z) : Prop :=
  0 <= np_announce_attempts p <= n /\ 0 <= np_provider_queries p <= n.

Lemma count1_le a n : 0 <= a <= n -> 0 <= count1 a <= n + 1.
Proof. intros. unfold count1, sat_add, usize_max, u64_max. lia. Qed.

Lemma announce_key_ok env refused now interval namespace replica k s kad plan n :
  cache_ok env s -> inflight_ok s kad -> plan_le plan n ->
  let '(s', kad', plan') := announce_key env refused now interval namespace replica k (s, kad, plan) in
  cache_ok env s' /\ inflight_ok s' kad' /\ np_provider_queries plan' = np_provider_queries plan /\
  0 <= np_announce_attempts plan' <= n + 1.
Proof.
  intros Hc [Hg Hp] [Ha Hq]. unfold announce_key.
  destruct (_ && _) eqn:E; [|split_and!; try done; lia].
  apply andb_prop in E as [_ E]. unfold should_announce_key in E.
  destruct (provider_announce_key_inflight s k.1) eqn:Ei; [done|]. clear E.
  destruct (refused k.2); cbn; split_and!; try done; try lia.
  - split; cbn; [by apply one_per_key_next|]. by apply one_per_key_insert.
  - by apply count1_le in Ha as [? ?].
  - by apply count1_le in Ha as [? ?].
Qed.

Lemma query_key_ok env count now interval namespace k s kad plan n m :
  cache_ok env s -> inflight_ok s kad -> 0 <= np_announce_attempts plan <= m -> 0 <= np_provider_queries plan <= n ->
  let '(s', kad', plan') := query_key env count now interval namespace k (s, kad, plan) in
  cache_ok env s' /\ inflight_ok s' kad' /\ 0 <= np_announce_attempts plan' <= m /\ 0 <= np_provider_queries plan' <= n + 1.
Proof.
  intros Hc [Hg Hp] Ha Hq. unfold query_key.
  destruct (_ && _) eqn:E; [|split_and!; try done; lia].
  apply andb_prop in E as [_ E]. unfold should_query_key in E.
  destruct (provider_query_key_inflight s k.1) eqn:Ei; [done|]. cbn. apply count1_le in Hq. split_and!; try done; try lia.
  split; cbn; [|by apply one_per_key_next]. by apply one_per_key_insert.
Qed.

Lemma refresh_keys_ok env refused count now ai qi namespace keys s kad plan n :
  cache_ok env s -> inflight_ok s kad -> plan_le plan n ->
  let '(s', kad', plan') := foldl (fun x e => query_key env count now qi namespace e.2
                               (announce_key env refused now ai namespace e.1 e.2 x)) (s, kad, plan) keys in
  cache_ok env s' /\ inflight_ok s' kad' /\ plan_le plan' (n + len keys).
Proof.
  revert s kad plan n. induction keys as [|[i k] keys IH]; intros s kad plan n Hc Hi Hp.
  { cbn. unfold plan_le, len in *. cbn. split_and!; try done; lia. }
  cbn [foldl fst snd]. pose proof (announce_key_ok env refused now ai namespace i k s kad plan n Hc Hi Hp) as H1.
  destruct (announce_key _ _ _ _ _ _ _ _) as [[s1 kad1] plan1]. destruct H1 as (Hc1 & Hi1 & Eq1 & Ha1).
  pose proof (query_key_ok env count now qi namespace k s1 kad1 plan1 n (n + 1) Hc1 Hi1 Ha1) as H2.
  destruct (query_key _ _ _ _ _ _ _) as [[s2 kad2] plan2]. destruct H2 as (Hc2 & Hi2 & Ha2 & Hq2); [rewrite Eq1; by apply Hp|].
  specialize (IH s2 kad2 plan2 (n + 1) Hc2 Hi2 (conj Ha2 Hq2)). destruct (foldl _ _ _) as [[s3 kad3] plan3].
  destruct IH as (? & ? & Hp3). split_and!; try done. unfold plan_le, len in *. cbn [length]. lia.
Qed.

Lemma refresh_namespaces_ok env refused count now ai qi namespaces s kad plan n :
  DhtDiscoveryConfig_validate (dhtx_config env) = Ok tt ->
  cache_ok env s -> inflight_ok s kad -> plan_le plan n ->
  exists s' kad' plan', refresh_namespaces env refused count now ai qi namespaces (s, kad, plan) = Ret (s', kad', plan') /\
    cache_ok env s' /\ inflight_ok s' kad' /\ plan_le plan' (n + provider_key_replicas (dhtx_config env) * len namespaces).
Proof.
  intros Hv. revert s kad plan n. induction namespaces as [|namespace rest IH]; intros s kad plan n Hc Hi Hp; cbn [refresh_namespaces].
  { exists s, kad, plan. split_and!; try done. unfold len. cbn [length]. by rewrite Z.mul_0_r, Z.add_0_r. }
  assert (exists keys s1, provider_keys env s namespace = Ret (keys, s1) /\ len keys <= provider_key_replicas (dhtx_config env) /\
    cache_ok env s1 /\ inflight_ok s1 kad) as (keys & s1 & -> & Hl & Hc1 & Hi1).
  { destruct (dht_provider_keys_ok namespace env Hv) as (keys & E & Hle). unfold provider_keys.
    destruct (provider_keys_by_namespace s !! namespace) as [keys'|] eqn:Ec.
    - pose proof (Hc _ _ Ec) as E'. rewrite E in E'. injection E' as <-. exists keys, s. split_and!; (done || lia).
    - rewrite E. cbn. eexists _, _. split_and!; [done|lia| |done]. intros ns ks. cbn. rewrite lookup_insert_Some.
      intros [[<- <-]|[_ H]]; [done|by apply Hc]. }
  cbn. pose proof (refresh_keys_ok env refused count now ai qi namespace (indexed keys) s1 kad plan n Hc1 Hi1 Hp) as H.
  destruct (foldl _ _ _) as [[s2 kad2] plan2]. destruct H as (Hc2 & Hi2 & Hp2).
  destruct (IH s2 kad2 plan2 _ Hc2 Hi2 Hp2) as (s3 & kad3 & plan3 & E & Hc3 & Hi3 & Hp3).
  exists s3, kad3, plan3. split_and!; try done.
  assert (len (indexed keys) = len keys) as Hk.
  { unfold indexed, len. rewrite length_zip_with, length_seqZ. lia. }
  rewrite Hk in Hp3. unfold plan_le, len in *. cbn [length]. nia.
Qed.

(** A discovery refresh of a validated configuration returns, and asks the
    network for each key at most once at a time.  It never hits the panic in
    the key derivation, keeps the cached keys those of the configuration, keeps
    at most one lookup and at most one announcement per key in flight however
    often it runs, and starts at most [provider_key_replicas] of each (one to
    three) for each of at most [max_namespaces_per_refresh] namespaces. *)
Theorem refresh_returns_within_bounds (env : DhtEnv) (error_text : NetError -> string) (refused : RecordKey -> option string)
    (local : PeerId) (connected : gset PeerId) (now rendezvous_peer_count interval : Z) (s : DhtProviderState) (kad : Kad) :
  DhtDiscoveryConfig_validate (dhtx_config env) = Ok tt -> 0 <= max_namespaces_per_refresh (dhtx_config env) ->
  cache_ok env s -> inflight_ok s kad ->
  exists s' kad' plan,
    start_dht_namespace_discovery_with_interval env error_text refused local connected now rendezvous_peer_count interval s kad
      = Ret (s', kad', plan) /\
    cache_ok env s' /\ inflight_ok s' kad' /\
    plan_le plan (provider_key_replicas (dhtx_config env) * max_namespaces_per_refresh (dhtx_config env)).
Proof.
  intros Hv Hm Hc Hi. pose proof (validated_replicas _ Hv) as Hr. unfold start_dht_namespace_discovery_with_interval.
  destruct (dht_enabled (dhtx_config env)); cbn [negb].
  2: { eexists _, _, _. split; [done|]. split; [done|]. split; [done|]. unfold plan_le. cbn. nia. }
  destruct (dhtx_namespaces env) as [namespaces|err].
  2: { eexists _, _, _. split; [done|]. split; [done|]. split; [done|]. unfold plan_le. cbn. nia. }
  set (plan := {| np_enabled := true |}).
  destruct (refresh_namespaces_ok env refused rendezvous_peer_count now (Z.max interval 1)
    (Z.max (if existsb (fun e => negb (bool_decide (e.1 = local)) && bool_decide (e.1 ∈ connected))
              (map_to_list (discovered_provider_peers s)) then refresh_interval_secs (dhtx_config env) else interval) 1)
    (take (Z.to_nat (max_namespaces_per_refresh (dhtx_config env))) namespaces) s kad plan 0 Hv Hc Hi)
    as (s' & kad' & plan' & E & Hc' & Hi' & Hp').
  { by subst plan. }
  exists s', kad', plan'. split; [exact E|]. split; [done|]. split; [done|].
  rewrite Z.add_0_l in Hp'. unfold len in Hp'. rewrite length_take in Hp'.
  assert (provider_key_replicas (dhtx_config env) *
          Z.of_nat (Z.to_nat (max_namespaces_per_refresh (dhtx_config env)) `min` length namespaces)
          <= provider_key_replicas (dhtx_config env) * max_namespaces_per_refresh (dhtx_config env))
    by (apply Z.mul_le_mono_nonneg_l; lia).
  unfold plan_le in *. lia.
Qed.
End refresh.
