(* ===== verification/Dcutr.v ===== *)
(** The gate in front of libp2p's hole punching (crates/stack/dcutr.rs): which
    relayed connections may be upgraded, how often, and which addresses are
    offered as candidates.  The libp2p behaviour behind the gate is seen through
    the handler a connection gets: its own, or a dummy that does nothing. *)

From S2P Require Import Prelude Text Bytes Common RelayLimiter Addresses.

#[local] Open Scope Z_scope.

Definition MAX_PUBLIC_QUIC_CANDIDATES : Z := 8.
Definition MAX_ALLOWED_DCUTR_PEERS : Z := 1024.

Section dcutr.
Context {P : PeerIdLib} {M : MultiaddrLib}.

Record DcutrBehaviour := {
  public_quic_candidates : gset Multiaddr;
  retry_interval : Z;
  dcb_max_attempts_per_peer : Z;
  allowed_peers : gset PeerId;
  allowed_peer_order : list PeerId;
  attempts_by_peer : gmap PeerId Z;
  last_attempt_by_peer : gmap PeerId Z;
}.

Definition upd_public_quic_candidates (g : gset Multiaddr -> gset Multiaddr) (s : DcutrBehaviour) : DcutrBehaviour := {|
  public_quic_candidates := g (public_quic_candidates s); retry_interval := retry_interval s;
  dcb_max_attempts_per_peer := dcb_max_attempts_per_peer s; allowed_peers := allowed_peers s;
  allowed_peer_order := allowed_peer_order s; attempts_by_peer := attempts_by_peer s;
  last_attempt_by_peer := last_attempt_by_peer s |}.
Definition upd_retry_interval (g : Z -> Z) (s : DcutrBehaviour) : DcutrBehaviour := {|
  public_quic_candidates := public_quic_candidates s; retry_interval := g (retry_interval s);
  dcb_max_attempts_per_peer := dcb_max_attempts_per_peer s; allowed_peers := allowed_peers s;
  allowed_peer_order := allowed_peer_order s; attempts_by_peer := attempts_by_peer s;
  last_attempt_by_peer := last_attempt_by_peer s |}.
Definition upd_dcb_max_attempts_per_peer (g : Z -> Z) (s : DcutrBehaviour) : DcutrBehaviour := {|
  public_quic_candidates := public_quic_candidates s; retry_interval := retry_interval s;
  dcb_max_attempts_per_peer := g (dcb_max_attempts_per_peer s); allowed_peers := allowed_peers s;
  allowed_peer_order := allowed_peer_order s; attempts_by_peer := attempts_by_peer s;
  last_attempt_by_peer := last_attempt_by_peer s |}.
Definition upd_allowed_peers (g : gset PeerId -> gset PeerId) (s : DcutrBehaviour) : DcutrBehaviour := {|
  public_quic_candidates := public_quic_candidates s; retry_interval := retry_interval s;
  dcb_max_attempts_per_peer := dcb_max_attempts_per_peer s; allowed_peers := g (allowed_peers s);
  allowed_peer_order := allowed_peer_order s; attempts_by_peer := attempts_by_peer s;
  last_attempt_by_peer := last_attempt_by_peer s |}.
Definition upd_allowed_peer_order (g : list PeerId -> list PeerId) (s : DcutrBehaviour) : DcutrBehaviour := {|
  public_quic_candidates := public_quic_candidates s; retry_interval := retry_interval s;
  dcb_max_attempts_per_peer := dcb_max_attempts_per_peer s; allowed_peers := allowed_peers s;
  allowed_peer_order := g (allowed_peer_order s); attempts_by_peer := attempts_by_peer s;
  last_attempt_by_peer := last_attempt_by_peer s |}.
Definition upd_attempts_by_peer (g : gmap PeerId Z -> gmap PeerId Z) (s : DcutrBehaviour) : DcutrBehaviour := {|
  public_quic_candidates := public_quic_candidates s; retry_interval := retry_interval s;
  dcb_max_attempts_per_peer := dcb_max_attempts_per_peer s; allowed_peers := allowed_peers s;
  allowed_peer_order := allowed_peer_order s; attempts_by_peer := g (attempts_by_peer s);
  last_attempt_by_peer := last_attempt_by_peer s |}.
Definition upd_last_attempt_by_peer (g : gmap PeerId Z -> gmap PeerId Z) (s : DcutrBehaviour) : DcutrBehaviour := {|
  public_quic_candidates := public_quic_candidates s; retry_interval := retry_interval s;
  dcb_max_attempts_per_peer := dcb_max_attempts_per_peer s; allowed_peers := allowed_peers s;
  allowed_peer_order := allowed_peer_order s; attempts_by_peer := attempts_by_peer s;
  last_attempt_by_peer := g (last_attempt_by_peer s) |}.

Definition DcutrBehaviour_new (retry_interval_secs max_attempts_per_peer : Z) : DcutrBehaviour := {|
  public_quic_candidates := ∅; retry_interval := from_secs (Z.max retry_interval_secs 1);
  dcb_max_attempts_per_peer := Z.max max_attempts_per_peer 1; allowed_peers := ∅; allowed_peer_order := [];
  attempts_by_peer := ∅; last_attempt_by_peer := ∅ |}.

(** One iteration of the eviction loop of [allow_peer]. *)
Definition allow_step (b : DcutrBehaviour) : option DcutrBehaviour :=
  if decide (MAX_ALLOWED_DCUTR_PEERS < Z.of_nat (size (allowed_peers b))) then
    match allowed_peer_order b with
    | [] => None
    | evicted :: rest =>
        let b := upd_allowed_peer_order (fun _ => rest) b in
        Some (if decide (evicted ∈ allowed_peers b) then
                upd_last_attempt_by_peer (delete evicted) (upd_attempts_by_peer (delete evicted)
                  (upd_allowed_peers (fun s => s ∖ {[evicted]}) b))
              else b)
    end
  else None.

Definition allow_peer (b : DcutrBehaviour) (peer : PeerId) : DcutrBehaviour :=
  if decide (peer ∈ allowed_peers b) then b
  else
    let b := upd_allowed_peer_order (fun l => l ++ [peer]) (upd_allowed_peers (fun s => {[peer]} ∪ s) b) in
    loop allow_step (length (allowed_peer_order b)) b.

(** The scan of [is_quic_candidate]: [None] is an early [return false]. *)
Definition quic_scan (st : option (bool * bool)) (p : Protocol) : option (bool * bool) :=
  match st with
  | None => None
  | Some (has_udp, has_quic) =>
      match p with
      | Udp _ => Some (true, has_quic)
      | QuicV1 => Some (has_udp, true)
      | Tcp _ | Ws | Wss | P2pCircuit => None
      | Ip4 ip => if v4_is_loopback ip || v4_is_link_local ip || v4_is_unspecified ip then None else st
      | Ip6 ip => if v6_is_loopback ip || v6_is_unspecified ip then None else st
      | _ => st
      end
  end.

Definition is_quic_candidate (addr : Multiaddr) : bool :=
  match foldl quic_scan (Some (false, false)) (addr_iter addr) with
  | Some (has_udp, has_quic) => has_udp && has_quic
  | None => false
  end.

Definition accept_candidate (b : DcutrBehaviour) (addr : Multiaddr) : bool * DcutrBehaviour :=
  if negb (is_quic_candidate addr) then (false, b)
  else if negb (is_public_direct_addr addr) || bool_decide (addr ∈ public_quic_candidates b) then (true, b)
  else if decide (MAX_PUBLIC_QUIC_CANDIDATES <= Z.of_nat (size (public_quic_candidates b))) then (false, b)
  else (true, upd_public_quic_candidates (fun s => {[addr]} ∪ s) b).

Definition allow_relayed_upgrade (now : Z) (b : DcutrBehaviour) (peer : PeerId) (require_allowlist : bool)
    : bool * DcutrBehaviour :=
  if require_allowlist && bool_decide (peer ∉ allowed_peers b) then (false, b)
  else
    let b := if decide (peer ∈ allowed_peers b) then b else allow_peer b peer in
    let attempts := default 0 (attempts_by_peer b !! peer) in
    let b := upd_attempts_by_peer (<[peer := attempts]>) b in
    if decide (dcb_max_attempts_per_peer b <= attempts) then (false, b)
    else if match last_attempt_by_peer b !! peer with
            | Some last => bool_decide (duration_since now last < retry_interval b)
            | None => false
            end then (false, b)
    else (true, upd_last_attempt_by_peer (<[peer := now]>)
                  (upd_attempts_by_peer (<[peer := sat_add u32_max attempts 1]>) b)).

(** * The [NetworkBehaviour] methods *)
Inductive DcutrHandler : Type := InnerHandler | DummyHandler.

#[export] Instance DcutrHandler_eq_dec : EqDecision DcutrHandler.
Proof. solve_decision. Defined.

Definition through_circuit (addr : Multiaddr) : bool := existsb (fun p => bool_decide (p = P2pCircuit)) (addr_iter addr).

Definition handle_established_inbound_connection (now : Z) (b : DcutrBehaviour) (peer : PeerId) (local_addr : Multiaddr)
    : DcutrHandler * DcutrBehaviour :=
  if through_circuit local_addr then
    let '(allowed, b) := allow_relayed_upgrade now b peer true in (if allowed then InnerHandler else DummyHandler, b)
  else (InnerHandler, b).

Definition handle_established_outbound_connection (now : Z) (b : DcutrBehaviour) (peer : PeerId) (addr : Multiaddr)
    : DcutrHandler * DcutrBehaviour :=
  if through_circuit addr then
    let '(allowed, b) := allow_relayed_upgrade now b peer true in (if allowed then InnerHandler else DummyHandler, b)
  else (InnerHandler, b).

(** [on_swarm_event] of a new external address candidate: whether the inner
    behaviour sees it. *)
Definition on_new_external_addr_candidate (b : DcutrBehaviour) (addr : Multiaddr) : bool * DcutrBehaviour :=
  accept_candidate b addr.
End dcutr.

(** * Facts

    Facts about the hole-punching gate: its allow list is bounded and owns the
    attempt counters, upgrades are paced, and a connection that opens before its
    peer is allowed is never upgraded. *)

Section facts.
Context {P : PeerIdLib} {M : MultiaddrLib}.

(** * The allow list *)
Definition allow_ok (b : DcutrBehaviour) : Prop :=
  NoDup (allowed_peer_order b) /\ allowed_peers b = list_to_set (allowed_peer_order b) /\
  dom (attempts_by_peer b) ⊆ allowed_peers b /\ dom (last_attempt_by_peer b) ⊆ allowed_peers b.

Lemma allow_step_ok b b' : allow_step b = Some b' -> allow_ok b -> allow_ok b'.
Proof.
  unfold allow_step, allow_ok. case_decide; [|done]. destruct (allowed_peer_order b) as [|e rest] eqn:Eo; [done|].
  intros [= <-] (Hnd & Hs & Ha & Hl). apply NoDup_cons in Hnd as [He Hnd].
  rewrite decide_True by (cbn; rewrite Hs; set_solver). cbn.
  assert (E : allowed_peers b ∖ {[e]} = list_to_set rest) by (rewrite Hs; set_solver).
  split_and!; [done|done|rewrite dom_delete_L; set_solver..].
Qed.

Lemma allow_step_measure b b' : allow_step b = Some b' -> length (allowed_peer_order b) = S (length (allowed_peer_order b')).
Proof.
  unfold allow_step. case_decide; [|done]. destruct (allowed_peer_order b) as [|e rest]; [done|].
  intros [= <-]. by case_decide.
Qed.

(** What eviction keeps of the counters: those of the peers still allowed. *)
Definition keeps (b b' : DcutrBehaviour) : Prop :=
  retry_interval b' = retry_interval b /\ dcb_max_attempts_per_peer b' = dcb_max_attempts_per_peer b /\
  public_quic_candidates b' = public_quic_candidates b /\
  forall p, p ∈ allowed_peers b' -> p ∈ allowed_peers b /\
    attempts_by_peer b' !! p = attempts_by_peer b !! p /\ last_attempt_by_peer b' !! p = last_attempt_by_peer b !! p.

Lemma keeps_step b0 b b' : keeps b0 b -> allow_step b = Some b' -> keeps b0 b'.
Proof.
  unfold allow_step. intros (H1 & H2 & H3 & H4). case_decide; [|done].
  destruct (allowed_peer_order b) as [|e rest]; [done|]. intros [= <-]. unfold keeps. case_decide as He; cbn in *; [|done].
  split_and!; [done..|]. intros p [Hp Hne]%elem_of_difference. destruct (H4 p Hp) as (G1 & G2 & G3).
  assert (e ≠ p) by set_solver. by rewrite !lookup_delete_ne.
Qed.

(** The list after an insertion, before the eviction. *)
Local Abbreviation added b peer :=
  (upd_allowed_peer_order (fun l => l ++ [peer]) (upd_allowed_peers (fun s => {[peer]} ∪ s) b)).

Lemma added_ok b peer : peer ∉ allowed_peers b -> allow_ok b -> allow_ok (added b peer).
Proof.
  intros Hp (Hnd & Hs & Ha & Hl). unfold allow_ok. cbn. split_and!; [|rewrite Hs, list_to_set_app_L; set_solver|set_solver..].
  apply NoDup_app. split; [done|]. split; [|apply NoDup_singleton]. rewrite Hs in Hp. set_solver.
Qed.

Lemma allow_peer_spec b peer :
  allow_ok b ->
  let b' := allow_peer b peer in
  allow_ok b' /\ (Z.of_nat (size (allowed_peers b)) <= MAX_ALLOWED_DCUTR_PEERS ->
                  Z.of_nat (size (allowed_peers b')) <= MAX_ALLOWED_DCUTR_PEERS) /\
  keeps (upd_allowed_peers (fun s => {[peer]} ∪ s) b) b'.
Proof.
  intros Hok. cbn zeta. unfold allow_peer. case_decide as Hp.
  { split_and!; [done|done|]. unfold keeps. cbn. split_and!; [done..|]. intros q Hq. split_and!; [set_solver|done..]. }
  set (b1 := added b peer). assert (Hok1 : allow_ok b1) by (by apply added_ok).
  set (fuel := length (allowed_peer_order b1)).
  pose proof (loop_exits allow_step (fun b => length (allowed_peer_order b))) as Hx.
  specialize (Hx ltac:(intros ? ? H; apply allow_step_measure in H; cbn; lia) fuel b1 (Nat.le_refl _)).
  assert (Hok' : allow_ok (loop allow_step fuel b1)).
  { apply (loop_inv allow_step allow_ok); [|done]. intros. by eapply allow_step_ok. }
  split_and!; [exact Hok'| |].
  - intros _. change (Z.of_nat (size (allowed_peers (loop allow_step fuel b1))) <= MAX_ALLOWED_DCUTR_PEERS).
    destruct Hok' as (_ & Hs & _). generalize dependent (loop allow_step fuel b1). intros b2 Hx Hs. unfold allow_step in Hx.
    case_decide as Hd; [|lia]. exfalso. destruct (allowed_peer_order b2); [|done].
    rewrite Hs in Hd. cbn in Hd. rewrite size_empty in Hd. unfold MAX_ALLOWED_DCUTR_PEERS in Hd. lia.
  - apply (loop_inv allow_step (keeps _)); [intros; by eapply keeps_step|].
    unfold keeps. subst b1. cbn. split_and!; [done..|]. intros q Hq. done.
Qed.

(** * Runs of the gate

    [gr_grants] holds, for every peer, the times of the upgrades it was granted
    since it last entered the allow list, newest first. *)
Record gate_run := { gr_gate : DcutrBehaviour; gr_now : Z; gr_grants : gmap PeerId (list Z) }.

Definition granted (h : DcutrHandler) (addr : Multiaddr) (now : Z) (peer : PeerId) (g : gmap PeerId (list Z)) : gmap PeerId (list Z) :=
  if bool_decide (h = InnerHandler) && through_circuit addr then <[peer := now :: default [] (g !! peer)]> g else g.

Inductive gate_step : gate_run -> gate_run -> Prop :=
| GateAllow r peer : let b := allow_peer (gr_gate r) peer in
    gate_step r {| gr_gate := b; gr_now := gr_now r; gr_grants := filter (fun e => e.1 ∈ allowed_peers b) (gr_grants r) |}
| GateInbound r now peer addr h b : gr_now r <= now ->
    handle_established_inbound_connection now (gr_gate r) peer addr = (h, b) ->
    gate_step r {| gr_gate := b; gr_now := now; gr_grants := granted h addr now peer (gr_grants r) |}
| GateOutbound r now peer addr h b : gr_now r <= now ->
    handle_established_outbound_connection now (gr_gate r) peer addr = (h, b) ->
    gate_step r {| gr_gate := b; gr_now := now; gr_grants := granted h addr now peer (gr_grants r) |}
| GateCandidate r addr :
    gate_step r {| gr_gate := (on_new_external_addr_candidate (gr_gate r) addr).2; gr_now := gr_now r; gr_grants := gr_grants r |}.

Definition gate_start (secs attempts now : Z) : gate_run :=
  {| gr_gate := DcutrBehaviour_new secs attempts; gr_now := now; gr_grants := ∅ |}.

(** Times at least [d] apart, newest first. *)
Fixpoint spaced (d : Z) (l : list Z) : Prop :=
  match l with
  | t :: (t' :: _) as l' => t' + d <= t /\ spaced d l'
  | _ => True
  end.

Local Abbreviation times r p := (default [] (gr_grants r !! p)).

Definition gate_inv (secs attempts : Z) (r : gate_run) : Prop :=
  let b := gr_gate r in
  allow_ok b /\ Z.of_nat (size (allowed_peers b)) <= MAX_ALLOWED_DCUTR_PEERS /\
  (size (public_quic_candidates b) <= 8)%nat /\
  retry_interval b = from_secs (Z.max secs 1) /\ dcb_max_attempts_per_peer b = Z.max attempts 1 /\
  dom (gr_grants r) ⊆ allowed_peers b /\
  forall p, default 0 (attempts_by_peer b !! p) = len (times r p) /\ last_attempt_by_peer b !! p = head (times r p) /\
    len (times r p) <= Z.max attempts 1 /\ spaced (from_secs (Z.max secs 1)) (times r p).

Lemma gate_inv_allow secs attempts r peer :
  gate_inv secs attempts r ->
  let b := allow_peer (gr_gate r) peer in
  gate_inv secs attempts {| gr_gate := b; gr_now := gr_now r; gr_grants := filter (fun e => e.1 ∈ allowed_peers b) (gr_grants r) |}.
Proof.
  intros (Hok & Hs & Hq & Hr & Hm & Hd & Hp). cbn zeta.
  destruct (allow_peer_spec (gr_gate r) peer Hok) as (Hok' & Hs' & K1 & K2 & K3 & K4). cbn in K1, K2, K3, K4.
  unfold gate_inv. cbn [gr_gate gr_grants]. rewrite K1, K2, K3.
  split_and!; [done|by apply Hs'|done|done|done| |].
  - intros p [l [_ Hl]%map_lookup_filter_Some]%elem_of_dom. done.
  - intros p. destruct (decide (p ∈ allowed_peers (allow_peer (gr_gate r) peer))) as [Hin|Hout].
    + destruct (K4 p Hin) as (_ & -> & ->). rewrite map_lookup_filter.
      destruct (gr_grants r !! p) as [l|] eqn:E; specialize (Hp p); rewrite E in Hp; cbn in *; [|done].
      by rewrite option_guard_True.
    + destruct Hok' as (_ & _ & Ha & Hl).
      assert (Eg : filter (fun e => e.1 ∈ allowed_peers (allow_peer (gr_gate r) peer)) (gr_grants r) !! p = None).
      { apply map_lookup_filter_None_2. right. intros. done. }
      assert (E1 : attempts_by_peer (allow_peer (gr_gate r) peer) !! p = None) by (apply not_elem_of_dom; set_solver).
      assert (E2 : last_attempt_by_peer (allow_peer (gr_gate r) peer) !! p = None) by (apply not_elem_of_dom; set_solver).
      rewrite Eg, E1, E2. cbn. split_and!; [done|done|unfold len; cbn; lia|done].
Qed.

(** An upgrade request of a peer, by what the grants since its admission say. *)
Lemma gate_inv_upgrade secs attempts r now peer addr ok b :
  is_u32 attempts -> gate_inv secs attempts r -> gr_now r <= now -> through_circuit addr = true ->
  allow_relayed_upgrade now (gr_gate r) peer true = (ok, b) ->
  gate_inv secs attempts {| gr_gate := b; gr_now := now;
    gr_grants := granted (if ok then InnerHandler else DummyHandler) addr now peer (gr_grants r) |}.
Proof.
  intros Ha Hinv Hnow Hc. unfold allow_relayed_upgrade. destruct Hinv as (Hok & Hs & Hq & Hr & Hm & Hd & Hp).
  cbn [andb]. case_bool_decide as Hin. { intros [= <- <-]. unfold gate_inv, granted. by cbn. }
  destruct (decide (peer ∈ allowed_peers (gr_gate r))) as [_|Hn]; [|by destruct Hn]. destruct (Hp peer) as (H1 & H2 & H3 & H4). rewrite H1.
  set (b1 := upd_attempts_by_peer _ _).
  assert (I1 : gate_inv secs attempts {| gr_gate := b1; gr_now := now; gr_grants := gr_grants r |}).
  { unfold gate_inv. cbn. destruct Hok as (O1 & O2 & O3 & O4). split_and!; try done.
    - split_and!; cbn; [done|done|rewrite dom_insert_L; set_solver|done].
    - intros p. destruct (decide (p = peer)) as [->|Hne]; [by rewrite lookup_insert_eq|].
      rewrite lookup_insert_ne by done. apply Hp. }
  case_decide as Hfull. { intros [= <- <-]. unfold granted. cbn. exact I1. }
  destruct (match last_attempt_by_peer b1 !! peer with Some _ => _ | None => _ end) eqn:Ecool.
  { intros [= <- <-]. unfold granted. cbn. exact I1. }
  intros [= <- <-]. unfold granted. rewrite bool_decide_eq_true_2, Hc by done. cbn [andb].
  destruct I1 as (O & I2 & I3 & I4 & I5 & I6 & I7). cbn in I2, I3, I4, I5, I6, I7. subst b1. cbn in Hfull, Ecool.
  rewrite H2 in Ecool. rewrite Hm in Hfull. unfold gate_inv. cbn. destruct O as (O1 & O2 & O3 & O4). cbn in O1, O2, O3, O4.
  split_and!; try done.
  - split_and!; cbn; [done|done|rewrite !dom_insert_L; set_solver|rewrite dom_insert_L; set_solver].
  - rewrite dom_insert_L. set_solver.
  - intros p. destruct (decide (p = peer)) as [->|Hne].
    + rewrite !lookup_insert_eq. cbn [default head from_option id].
      assert (E : len (now :: times r peer) = len (times r peer) + 1) by (unfold len; cbn [length]; lia).
      unfold is_u32, sat_add, u32_max in *. rewrite E. split_and!; [lia|done|lia|].
      destruct (times r peer) as [|t l]; [done|]. cbn in Ecool |- *. split; [|done].
      rewrite bool_decide_eq_false in Ecool. unfold duration_since in Ecool. rewrite Hr in Ecool.
      unfold from_secs in *. lia.
    + rewrite !lookup_insert_ne by done. apply Hp.
Qed.

Lemma gate_inv_run secs attempts now r :
  is_u32 attempts -> rtc gate_step (gate_start secs attempts now) r -> gate_inv secs attempts r.
Proof.
  intros Ha Hrun. refine (rtc_ind_r (gate_inv secs attempts) _ _ _ r Hrun).
  - unfold gate_inv, allow_ok. cbn. rewrite !size_empty, !dom_empty_L. unfold MAX_ALLOWED_DCUTR_PEERS.
    split_and!; try done; [constructor|lia|]. intros p. rewrite !lookup_empty. cbn. split_and!; [done|done|unfold len; cbn; lia|done].
  - clear r Hrun. intros r r' _ Hstep IH. destruct Hstep as [r peer b|r now' peer addr h b Hn He|r now' peer addr h b Hn He|r addr].
    + by apply gate_inv_allow.
    + unfold handle_established_inbound_connection in He. destruct (through_circuit addr) eqn:Ec.
      * destruct (allow_relayed_upgrade _ _ _ _) as [ok b'] eqn:Eu. injection He as <- <-. by eapply gate_inv_upgrade.
      * injection He as <- <-. unfold granted. rewrite Ec, andb_false_r. exact IH.
    + unfold handle_established_outbound_connection in He. destruct (through_circuit addr) eqn:Ec.
      * destruct (allow_relayed_upgrade _ _ _ _) as [ok b'] eqn:Eu. injection He as <- <-. by eapply gate_inv_upgrade.
      * injection He as <- <-. unfold granted. rewrite Ec, andb_false_r. exact IH.
    + unfold on_new_external_addr_candidate, accept_candidate. destruct (negb _); [exact IH|]. destruct (_ || _); [exact IH|].
      case_decide as Hd; [exact IH|]. destruct IH as (O & I2 & I3 & I4 & I5 & I6 & I7). unfold gate_inv. cbn in *.
      split_and!; try done. unfold MAX_PUBLIC_QUIC_CANDIDATES in Hd. rewrite size_union_alt, size_singleton.
      pose proof (subseteq_size (public_quic_candidates (gr_gate r) ∖ {[addr]}) (public_quic_candidates (gr_gate r)) ltac:(set_solver)). lia.
Qed.

(** Hole punching is bounded and paced.  In every run of the gate, at most
    1024 peers are allowed and at most eight public candidates are passed on;
    since a peer was last allowed it was granted at most [max_attempts_per_peer]
    upgrades of a relayed connection, any two of them [retry_interval_secs]
    apart; and the next relayed connection is granted one exactly when the peer
    is allowed, has an attempt left and its last one is that long ago. *)
Theorem hole_punching_paced (secs attempts now : Z) (r : gate_run) :
  is_u32 attempts -> rtc gate_step (gate_start secs attempts now) r ->
  Z.of_nat (size (allowed_peers (gr_gate r))) <= MAX_ALLOWED_DCUTR_PEERS /\
  Z.of_nat (size (public_quic_candidates (gr_gate r))) <= MAX_PUBLIC_QUIC_CANDIDATES /\
  forall p, let grants := default [] (gr_grants r !! p) in
    len grants <= Z.max attempts 1 /\ spaced (from_secs (Z.max secs 1)) grants /\
    forall t addr, gr_now r <= t -> through_circuit addr = true ->
      (handle_established_inbound_connection t (gr_gate r) p addr).1 = InnerHandler <->
      p ∈ allowed_peers (gr_gate r) /\ len grants < Z.max attempts 1 /\
      match head grants with Some last => last + from_secs (Z.max secs 1) <= t | None => True end.
Proof.
  intros Ha Hrun. destruct (gate_inv_run _ _ _ _ Ha Hrun) as (_ & Hs & Hq & Hr & Hm & _ & Hp). split; [done|].
  split; [unfold MAX_PUBLIC_QUIC_CANDIDATES; lia|]. intros p. cbn zeta. destruct (Hp p) as (H1 & H2 & H3 & H4).
  split; [done|]. split; [done|]. intros t addr Ht Hc.
  unfold handle_established_inbound_connection, allow_relayed_upgrade. rewrite Hc. cbn [andb].
  case_bool_decide as Hin; [by cbn; split; [|intros [? _]]|]. destruct (decide (p ∈ allowed_peers (gr_gate r))) as [_|Hn]; [|by destruct Hn]. cbn. rewrite H1, H2, Hm, Hr.
  case_decide as Hf; [by cbn; split; [|intros (_ & ? & _); lia]|].
  destruct (head (times r p)) as [last|]; cbn; [|split; [intros _; split_and!; [done|lia|done]|done]].
  unfold from_secs in *. case_bool_decide as Hd; unfold duration_since in Hd; cbn.
  - split; [discriminate|]. intros (_ & _ & Hl). lia.
  - split; [|done]. intros _. split_and!; [done|lia|lia].
Qed.

(** A relayed connection that opens before its peer is allowed gets the dummy
    handler, whatever happens to the peer later. *)
Lemma stranger_gets_dummy now b peer addr :
  through_circuit addr = true -> (peer ∉ allowed_peers b) -> handle_established_inbound_connection now b peer addr = (DummyHandler, b).
Proof.
  intros Hc Hp. unfold handle_established_inbound_connection, allow_relayed_upgrade. rewrite Hc. cbn. by rewrite bool_decide_eq_true_2.
Qed.
End facts.
