(* ===== verification/ConnectionEvents.v ===== *)
(** Connection events (crates/node/events/connection.rs, connection/errors.rs,
    connection/identify.rs, connection/listen_addr.rs, crates/node/events/dcutr.rs)
    and the periodic connection maintenance (crates/node/runtime_maintenance.rs):
    admission of connections, the bounded pool of relayed peers that have not
    proved they run the same application, the DCUtR budget, fallback dials and
    automatic reconnection. *)

From S2P Require Import Prelude Bytes Text BTree BoundedSet Common AppMessage Metrics Observability Relay RelayLimiter RelayMetering.
From S2P Require Import RelayServer Addresses Connections Storage RelayClient PeerBook PeerCache ConnectionStrategy RelayDiscovery.
From S2P Require Import StackDiscovery Rendezvous Dht DhtEvents.

#[local] Open Scope Z_scope.

Definition MAX_UNVERIFIED_RELAYED_PEERS : Z := 8.
Definition MAX_TRACKED_DCUTR_PEERS : Z := 1024.
Definition MAX_PUBLIC_DHT_RELAY_ATTEMPTS : Z := 8.
Definition MAX_SNAPSHOT_ADDRS : Z := 16.
Definition UNVERIFIED_RELAY_TIMEOUT : Z := from_secs 15.

Section connection_events.
Context {P : PeerIdLib} {M : MultiaddrLib} {RZ : RendezvousLib} {S2 : Sha256Lib} `{!HashIter PeerId}.

(** * The relay state of the node (crates/connectivity/relay/state.rs), by part *)
Record DcutrState := {
  dcutr_enabled : bool;
  dcutr_attempts : Z;
  dcutr_successes : Z;
  dcutr_failures : Z;
  dcutr_relay_fallbacks : Z;
  dcutr_upgrade_eligible_connections : Z;
  dcutr_retry_suppressed : Z;
  dcutr_attempts_by_peer : gmap PeerId Z;
  dcutr_last_attempt_by_peer : gmap PeerId Z;
}.

Definition upd_dcutr_enabled (g : bool -> bool) (s : DcutrState) : DcutrState := {|
  dcutr_enabled := g (dcutr_enabled s); dcutr_attempts := dcutr_attempts s; dcutr_successes := dcutr_successes s;
  dcutr_failures := dcutr_failures s; dcutr_relay_fallbacks := dcutr_relay_fallbacks s;
  dcutr_upgrade_eligible_connections := dcutr_upgrade_eligible_connections s;
  dcutr_retry_suppressed := dcutr_retry_suppressed s; dcutr_attempts_by_peer := dcutr_attempts_by_peer s;
  dcutr_last_attempt_by_peer := dcutr_last_attempt_by_peer s |}.
Definition upd_dcutr_attempts (g : Z -> Z) (s : DcutrState) : DcutrState := {|
  dcutr_enabled := dcutr_enabled s; dcutr_attempts := g (dcutr_attempts s); dcutr_successes := dcutr_successes s;
  dcutr_failures := dcutr_failures s; dcutr_relay_fallbacks := dcutr_relay_fallbacks s;
  dcutr_upgrade_eligible_connections := dcutr_upgrade_eligible_connections s;
  dcutr_retry_suppressed := dcutr_retry_suppressed s; dcutr_attempts_by_peer := dcutr_attempts_by_peer s;
  dcutr_last_attempt_by_peer := dcutr_last_attempt_by_peer s |}.
Definition upd_dcutr_successes (g : Z -> Z) (s : DcutrState) : DcutrState := {|
  dcutr_enabled := dcutr_enabled s; dcutr_attempts := dcutr_attempts s; dcutr_successes := g (dcutr_successes s);
  dcutr_failures := dcutr_failures s; dcutr_relay_fallbacks := dcutr_relay_fallbacks s;
  dcutr_upgrade_eligible_connections := dcutr_upgrade_eligible_connections s;
  dcutr_retry_suppressed := dcutr_retry_suppressed s; dcutr_attempts_by_peer := dcutr_attempts_by_peer s;
  dcutr_last_attempt_by_peer := dcutr_last_attempt_by_peer s |}.
Definition upd_dcutr_failures (g : Z -> Z) (s : DcutrState) : DcutrState := {|
  dcutr_enabled := dcutr_enabled s; dcutr_attempts := dcutr_attempts s; dcutr_successes := dcutr_successes s;
  dcutr_failures := g (dcutr_failures s); dcutr_relay_fallbacks := dcutr_relay_fallbacks s;
  dcutr_upgrade_eligible_connections := dcutr_upgrade_eligible_connections s;
  dcutr_retry_suppressed := dcutr_retry_suppressed s; dcutr_attempts_by_peer := dcutr_attempts_by_peer s;
  dcutr_last_attempt_by_peer := dcutr_last_attempt_by_peer s |}.
Definition upd_dcutr_relay_fallbacks (g : Z -> Z) (s : DcutrState) : DcutrState := {|
  dcutr_enabled := dcutr_enabled s; dcutr_attempts := dcutr_attempts s; dcutr_successes := dcutr_successes s;
  dcutr_failures := dcutr_failures s; dcutr_relay_fallbacks := g (dcutr_relay_fallbacks s);
  dcutr_upgrade_eligible_connections := dcutr_upgrade_eligible_connections s;
  dcutr_retry_suppressed := dcutr_retry_suppressed s; dcutr_attempts_by_peer := dcutr_attempts_by_peer s;
  dcutr_last_attempt_by_peer := dcutr_last_attempt_by_peer s |}.
Definition upd_dcutr_upgrade_eligible_connections (g : Z -> Z) (s : DcutrState) : DcutrState := {|
  dcutr_enabled := dcutr_enabled s; dcutr_attempts := dcutr_attempts s; dcutr_successes := dcutr_successes s;
  dcutr_failures := dcutr_failures s; dcutr_relay_fallbacks := dcutr_relay_fallbacks s;
  dcutr_upgrade_eligible_connections := g (dcutr_upgrade_eligible_connections s);
  dcutr_retry_suppressed := dcutr_retry_suppressed s; dcutr_attempts_by_peer := dcutr_attempts_by_peer s;
  dcutr_last_attempt_by_peer := dcutr_last_attempt_by_peer s |}.
Definition upd_dcutr_retry_suppressed (g : Z -> Z) (s : DcutrState) : DcutrState := {|
  dcutr_enabled := dcutr_enabled s; dcutr_attempts := dcutr_attempts s; dcutr_successes := dcutr_successes s;
  dcutr_failures := dcutr_failures s; dcutr_relay_fallbacks := dcutr_relay_fallbacks s;
  dcutr_upgrade_eligible_connections := dcutr_upgrade_eligible_connections s;
  dcutr_retry_suppressed := g (dcutr_retry_suppressed s); dcutr_attempts_by_peer := dcutr_attempts_by_peer s;
  dcutr_last_attempt_by_peer := dcutr_last_attempt_by_peer s |}.
Definition upd_dcutr_attempts_by_peer (g : gmap PeerId Z -> gmap PeerId Z) (s : DcutrState) : DcutrState := {|
  dcutr_enabled := dcutr_enabled s; dcutr_attempts := dcutr_attempts s; dcutr_successes := dcutr_successes s;
  dcutr_failures := dcutr_failures s; dcutr_relay_fallbacks := dcutr_relay_fallbacks s;
  dcutr_upgrade_eligible_connections := dcutr_upgrade_eligible_connections s;
  dcutr_retry_suppressed := dcutr_retry_suppressed s; dcutr_attempts_by_peer := g (dcutr_attempts_by_peer s);
  dcutr_last_attempt_by_peer := dcutr_last_attempt_by_peer s |}.
Definition upd_dcutr_last_attempt_by_peer (g : gmap PeerId Z -> gmap PeerId Z) (s : DcutrState) : DcutrState := {|
  dcutr_enabled := dcutr_enabled s; dcutr_attempts := dcutr_attempts s; dcutr_successes := dcutr_successes s;
  dcutr_failures := dcutr_failures s; dcutr_relay_fallbacks := dcutr_relay_fallbacks s;
  dcutr_upgrade_eligible_connections := dcutr_upgrade_eligible_connections s;
  dcutr_retry_suppressed := dcutr_retry_suppressed s; dcutr_attempts_by_peer := dcutr_attempts_by_peer s;
  dcutr_last_attempt_by_peer := g (dcutr_last_attempt_by_peer s) |}.

Record RelayDiscoveryCounters := {
  relay_discovery_selected_relays : gset string;
  relay_discovery_candidate_count : Z;
  relay_discovery_configured_candidates : Z;
  relay_discovery_cached_candidates : Z;
  relay_discovery_rendezvous_candidates : Z;
  relay_discovery_public_candidates : Z;
  relay_discovery_ignored_candidates : Z;
  relay_discovery_failures : Z;
  relay_discovery_replacements : Z;
}.

Definition upd_relay_discovery_selected_relays (g : gset string -> gset string) (s : RelayDiscoveryCounters) : RelayDiscoveryCounters := {|
  relay_discovery_selected_relays := g (relay_discovery_selected_relays s);
  relay_discovery_candidate_count := relay_discovery_candidate_count s;
  relay_discovery_configured_candidates := relay_discovery_configured_candidates s;
  relay_discovery_cached_candidates := relay_discovery_cached_candidates s;
  relay_discovery_rendezvous_candidates := relay_discovery_rendezvous_candidates s;
  relay_discovery_public_candidates := relay_discovery_public_candidates s;
  relay_discovery_ignored_candidates := relay_discovery_ignored_candidates s;
  relay_discovery_failures := relay_discovery_failures s;
  relay_discovery_replacements := relay_discovery_replacements s |}.
Definition upd_relay_discovery_candidate_count (g : Z -> Z) (s : RelayDiscoveryCounters) : RelayDiscoveryCounters := {|
  relay_discovery_selected_relays := relay_discovery_selected_relays s;
  relay_discovery_candidate_count := g (relay_discovery_candidate_count s);
  relay_discovery_configured_candidates := relay_discovery_configured_candidates s;
  relay_discovery_cached_candidates := relay_discovery_cached_candidates s;
  relay_discovery_rendezvous_candidates := relay_discovery_rendezvous_candidates s;
  relay_discovery_public_candidates := relay_discovery_public_candidates s;
  relay_discovery_ignored_candidates := relay_discovery_ignored_candidates s;
  relay_discovery_failures := relay_discovery_failures s;
  relay_discovery_replacements := relay_discovery_replacements s |}.
Definition upd_relay_discovery_configured_candidates (g : Z -> Z) (s : RelayDiscoveryCounters) : RelayDiscoveryCounters := {|
  relay_discovery_selected_relays := relay_discovery_selected_relays s;
  relay_discovery_candidate_count := relay_discovery_candidate_count s;
  relay_discovery_configured_candidates := g (relay_discovery_configured_candidates s);
  relay_discovery_cached_candidates := relay_discovery_cached_candidates s;
  relay_discovery_rendezvous_candidates := relay_discovery_rendezvous_candidates s;
  relay_discovery_public_candidates := relay_discovery_public_candidates s;
  relay_discovery_ignored_candidates := relay_discovery_ignored_candidates s;
  relay_discovery_failures := relay_discovery_failures s;
  relay_discovery_replacements := relay_discovery_replacements s |}.
Definition upd_relay_discovery_cached_candidates (g : Z -> Z) (s : RelayDiscoveryCounters) : RelayDiscoveryCounters := {|
  relay_discovery_selected_relays := relay_discovery_selected_relays s;
  relay_discovery_candidate_count := relay_discovery_candidate_count s;
  relay_discovery_configured_candidates := relay_discovery_configured_candidates s;
  relay_discovery_cached_candidates := g (relay_discovery_cached_candidates s);
  relay_discovery_rendezvous_candidates := relay_discovery_rendezvous_candidates s;
  relay_discovery_public_candidates := relay_discovery_public_candidates s;
  relay_discovery_ignored_candidates := relay_discovery_ignored_candidates s;
  relay_discovery_failures := relay_discovery_failures s;
  relay_discovery_replacements := relay_discovery_replacements s |}.
Definition upd_relay_discovery_rendezvous_candidates (g : Z -> Z) (s : RelayDiscoveryCounters) : RelayDiscoveryCounters := {|
  relay_discovery_selected_relays := relay_discovery_selected_relays s;
  relay_discovery_candidate_count := relay_discovery_candidate_count s;
  relay_discovery_configured_candidates := relay_discovery_configured_candidates s;
  relay_discovery_cached_candidates := relay_discovery_cached_candidates s;
  relay_discovery_rendezvous_candidates := g (relay_discovery_rendezvous_candidates s);
  relay_discovery_public_candidates := relay_discovery_public_candidates s;
  relay_discovery_ignored_candidates := relay_discovery_ignored_candidates s;
  relay_discovery_failures := relay_discovery_failures s;
  relay_discovery_replacements := relay_discovery_replacements s |}.
Definition upd_relay_discovery_public_candidates (g : Z -> Z) (s : RelayDiscoveryCounters) : RelayDiscoveryCounters := {|
  relay_discovery_selected_relays := relay_discovery_selected_relays s;
  relay_discovery_candidate_count := relay_discovery_candidate_count s;
  relay_discovery_configured_candidates := relay_discovery_configured_candidates s;
  relay_discovery_cached_candidates := relay_discovery_cached_candidates s;
  relay_discovery_rendezvous_candidates := relay_discovery_rendezvous_candidates s;
  relay_discovery_public_candidates := g (relay_discovery_public_candidates s);
  relay_discovery_ignored_candidates := relay_discovery_ignored_candidates s;
  relay_discovery_failures := relay_discovery_failures s;
  relay_discovery_replacements := relay_discovery_replacements s |}.
Definition upd_relay_discovery_ignored_candidates (g : Z -> Z) (s : RelayDiscoveryCounters) : RelayDiscoveryCounters := {|
  relay_discovery_selected_relays := relay_discovery_selected_relays s;
  relay_discovery_candidate_count := relay_discovery_candidate_count s;
  relay_discovery_configured_candidates := relay_discovery_configured_candidates s;
  relay_discovery_cached_candidates := relay_discovery_cached_candidates s;
  relay_discovery_rendezvous_candidates := relay_discovery_rendezvous_candidates s;
  relay_discovery_public_candidates := relay_discovery_public_candidates s;
  relay_discovery_ignored_candidates := g (relay_discovery_ignored_candidates s);
  relay_discovery_failures := relay_discovery_failures s;
  relay_discovery_replacements := relay_discovery_replacements s |}.
Definition upd_relay_discovery_failures (g : Z -> Z) (s : RelayDiscoveryCounters) : RelayDiscoveryCounters := {|
  relay_discovery_selected_relays := relay_discovery_selected_relays s;
  relay_discovery_candidate_count := relay_discovery_candidate_count s;
  relay_discovery_configured_candidates := relay_discovery_configured_candidates s;
  relay_discovery_cached_candidates := relay_discovery_cached_candidates s;
  relay_discovery_rendezvous_candidates := relay_discovery_rendezvous_candidates s;
  relay_discovery_public_candidates := relay_discovery_public_candidates s;
  relay_discovery_ignored_candidates := relay_discovery_ignored_candidates s;
  relay_discovery_failures := g (relay_discovery_failures s);
  relay_discovery_replacements := relay_discovery_replacements s |}.
Definition upd_relay_discovery_replacements (g : Z -> Z) (s : RelayDiscoveryCounters) : RelayDiscoveryCounters := {|
  relay_discovery_selected_relays := relay_discovery_selected_relays s;
  relay_discovery_candidate_count := relay_discovery_candidate_count s;
  relay_discovery_configured_candidates := relay_discovery_configured_candidates s;
  relay_discovery_cached_candidates := relay_discovery_cached_candidates s;
  relay_discovery_rendezvous_candidates := relay_discovery_rendezvous_candidates s;
  relay_discovery_public_candidates := relay_discovery_public_candidates s;
  relay_discovery_ignored_candidates := relay_discovery_ignored_candidates s;
  relay_discovery_failures := relay_discovery_failures s;
  relay_discovery_replacements := g (relay_discovery_replacements s) |}.

Inductive NatStatus : Type := NatPublic | NatPrivate | NatUnknown.

Record NodeRelay := {
  nr_behind_nat : bool;
  nr_server : ServerState;
  nr_client : RelayClient;
  nr_dcutr : DcutrState;
  nr_discovery : RelayDiscoveryCounters;
  nr_unverified : gmap PeerId Z;
}.

Definition upd_nr_behind_nat (g : bool -> bool) (s : NodeRelay) : NodeRelay := {|
  nr_behind_nat := g (nr_behind_nat s); nr_server := nr_server s; nr_client := nr_client s;
  nr_dcutr := nr_dcutr s; nr_discovery := nr_discovery s; nr_unverified := nr_unverified s |}.
Definition upd_nr_server (g : ServerState -> ServerState) (s : NodeRelay) : NodeRelay := {|
  nr_behind_nat := nr_behind_nat s; nr_server := g (nr_server s); nr_client := nr_client s;
  nr_dcutr := nr_dcutr s; nr_discovery := nr_discovery s; nr_unverified := nr_unverified s |}.
Definition upd_nr_client (g : RelayClient -> RelayClient) (s : NodeRelay) : NodeRelay := {|
  nr_behind_nat := nr_behind_nat s; nr_server := nr_server s; nr_client := g (nr_client s);
  nr_dcutr := nr_dcutr s; nr_discovery := nr_discovery s; nr_unverified := nr_unverified s |}.
Definition upd_nr_dcutr (g : DcutrState -> DcutrState) (s : NodeRelay) : NodeRelay := {|
  nr_behind_nat := nr_behind_nat s; nr_server := nr_server s; nr_client := nr_client s;
  nr_dcutr := g (nr_dcutr s); nr_discovery := nr_discovery s; nr_unverified := nr_unverified s |}.
Definition upd_nr_discovery (g : RelayDiscoveryCounters -> RelayDiscoveryCounters) (s : NodeRelay) : NodeRelay := {|
  nr_behind_nat := nr_behind_nat s; nr_server := nr_server s; nr_client := nr_client s; nr_dcutr := nr_dcutr s;
  nr_discovery := g (nr_discovery s); nr_unverified := nr_unverified s |}.
Definition upd_nr_unverified (g : gmap PeerId Z -> gmap PeerId Z) (s : NodeRelay) : NodeRelay := {|
  nr_behind_nat := nr_behind_nat s; nr_server := nr_server s; nr_client := nr_client s; nr_dcutr := nr_dcutr s;
  nr_discovery := nr_discovery s; nr_unverified := g (nr_unverified s) |}.

(** [track_dcutr_peer]: the oldest-independent bound of the retry maps. *)
Definition track_step (d : DcutrState) : option DcutrState :=
  if decide (MAX_TRACKED_DCUTR_PEERS <= Z.of_nat (size (dcutr_attempts_by_peer d))) then
    match head (hash_iter (dom (dcutr_attempts_by_peer d))) with
    | Some evicted =>
        Some (upd_dcutr_last_attempt_by_peer (delete evicted) (upd_dcutr_attempts_by_peer (delete evicted) d))
    | None => None
    end
  else None.

Definition track_dcutr_peer (peer : PeerId) (d : DcutrState) : DcutrState :=
  if decide (is_Some (dcutr_attempts_by_peer d !! peer)) then d
  else loop track_step (size (dcutr_attempts_by_peer d)) d.

(** * The snapshot: the fields these handlers write *)
Record Connectivity := {
  cv_known_peers : Z;
  cv_discovered_peers : Z;
  cv_dial_attempts : Z;
  cv_dial_failures : Z;
  cv_awaiting_address : Z;
  cv_pending : Z;
  cv_all : Z;
  cv_application : Z;
  cv_infrastructure : Z;
  cv_relay : Z;
  cv_dht_routing : Z;
}.

Record NodeSnapshot := {
  ns_connectivity : Connectivity;
  ns_limit_events : Z;
  ns_cap_disconnects : Z;
  ns_last_dial_error : option string;
  ns_server : RelaySnapshot;
  ns_client : ClientSnapshot;
  ns_dcutr : DcutrState;
  ns_discovery : RelayDiscoveryCounters;
  ns_public_direct_listen_addresses : list string;
  ns_local_listen_addresses : list string;
  ns_rendezvous : Z * Z * Z * Z;
  ns_nat_status : string;
  ns_pulses : list string;
}.

Definition upd_ns_connectivity (g : Connectivity -> Connectivity) (s : NodeSnapshot) : NodeSnapshot := {|
  ns_connectivity := g (ns_connectivity s); ns_limit_events := ns_limit_events s;
  ns_cap_disconnects := ns_cap_disconnects s; ns_last_dial_error := ns_last_dial_error s;
  ns_server := ns_server s; ns_client := ns_client s; ns_dcutr := ns_dcutr s; ns_discovery := ns_discovery s;
  ns_public_direct_listen_addresses := ns_public_direct_listen_addresses s;
  ns_local_listen_addresses := ns_local_listen_addresses s; ns_rendezvous := ns_rendezvous s;
  ns_nat_status := ns_nat_status s; ns_pulses := ns_pulses s |}.
Definition upd_ns_limit_events (g : Z -> Z) (s : NodeSnapshot) : NodeSnapshot := {|
  ns_connectivity := ns_connectivity s; ns_limit_events := g (ns_limit_events s);
  ns_cap_disconnects := ns_cap_disconnects s; ns_last_dial_error := ns_last_dial_error s;
  ns_server := ns_server s; ns_client := ns_client s; ns_dcutr := ns_dcutr s; ns_discovery := ns_discovery s;
  ns_public_direct_listen_addresses := ns_public_direct_listen_addresses s;
  ns_local_listen_addresses := ns_local_listen_addresses s; ns_rendezvous := ns_rendezvous s;
  ns_nat_status := ns_nat_status s; ns_pulses := ns_pulses s |}.
Definition upd_ns_cap_disconnects (g : Z -> Z) (s : NodeSnapshot) : NodeSnapshot := {|
  ns_connectivity := ns_connectivity s; ns_limit_events := ns_limit_events s;
  ns_cap_disconnects := g (ns_cap_disconnects s); ns_last_dial_error := ns_last_dial_error s;
  ns_server := ns_server s; ns_client := ns_client s; ns_dcutr := ns_dcutr s; ns_discovery := ns_discovery s;
  ns_public_direct_listen_addresses := ns_public_direct_listen_addresses s;
  ns_local_listen_addresses := ns_local_listen_addresses s; ns_rendezvous := ns_rendezvous s;
  ns_nat_status := ns_nat_status s; ns_pulses := ns_pulses s |}.
Definition upd_ns_last_dial_error (g : option string -> option string) (s : NodeSnapshot) : NodeSnapshot := {|
  ns_connectivity := ns_connectivity s; ns_limit_events := ns_limit_events s;
  ns_cap_disconnects := ns_cap_disconnects s; ns_last_dial_error := g (ns_last_dial_error s);
  ns_server := ns_server s; ns_client := ns_client s; ns_dcutr := ns_dcutr s; ns_discovery := ns_discovery s;
  ns_public_direct_listen_addresses := ns_public_direct_listen_addresses s;
  ns_local_listen_addresses := ns_local_listen_addresses s; ns_rendezvous := ns_rendezvous s;
  ns_nat_status := ns_nat_status s; ns_pulses := ns_pulses s |}.
Definition upd_ns_server (g : RelaySnapshot -> RelaySnapshot) (s : NodeSnapshot) : NodeSnapshot := {|
  ns_connectivity := ns_connectivity s; ns_limit_events := ns_limit_events s;
  ns_cap_disconnects := ns_cap_disconnects s; ns_last_dial_error := ns_last_dial_error s;
  ns_server := g (ns_server s); ns_client := ns_client s; ns_dcutr := ns_dcutr s; ns_discovery := ns_discovery s;
  ns_public_direct_listen_addresses := ns_public_direct_listen_addresses s;
  ns_local_listen_addresses := ns_local_listen_addresses s; ns_rendezvous := ns_rendezvous s;
  ns_nat_status := ns_nat_status s; ns_pulses := ns_pulses s |}.
Definition upd_ns_client (g : ClientSnapshot -> ClientSnapshot) (s : NodeSnapshot) : NodeSnapshot := {|
  ns_connectivity := ns_connectivity s; ns_limit_events := ns_limit_events s;
  ns_cap_disconnects := ns_cap_disconnects s; ns_last_dial_error := ns_last_dial_error s;
  ns_server := ns_server s; ns_client := g (ns_client s); ns_dcutr := ns_dcutr s; ns_discovery := ns_discovery s;
  ns_public_direct_listen_addresses := ns_public_direct_listen_addresses s;
  ns_local_listen_addresses := ns_local_listen_addresses s; ns_rendezvous := ns_rendezvous s;
  ns_nat_status := ns_nat_status s; ns_pulses := ns_pulses s |}.
Definition upd_ns_dcutr (g : DcutrState -> DcutrState) (s : NodeSnapshot) : NodeSnapshot := {|
  ns_connectivity := ns_connectivity s; ns_limit_events := ns_limit_events s;
  ns_cap_disconnects := ns_cap_disconnects s; ns_last_dial_error := ns_last_dial_error s;
  ns_server := ns_server s; ns_client := ns_client s; ns_dcutr := g (ns_dcutr s); ns_discovery := ns_discovery s;
  ns_public_direct_listen_addresses := ns_public_direct_listen_addresses s;
  ns_local_listen_addresses := ns_local_listen_addresses s; ns_rendezvous := ns_rendezvous s;
  ns_nat_status := ns_nat_status s; ns_pulses := ns_pulses s |}.
Definition upd_ns_discovery (g : RelayDiscoveryCounters -> RelayDiscoveryCounters) (s : NodeSnapshot) : NodeSnapshot := {|
  ns_connectivity := ns_connectivity s; ns_limit_events := ns_limit_events s;
  ns_cap_disconnects := ns_cap_disconnects s; ns_last_dial_error := ns_last_dial_error s;
  ns_server := ns_server s; ns_client := ns_client s; ns_dcutr := ns_dcutr s; ns_discovery := g (ns_discovery s);
  ns_public_direct_listen_addresses := ns_public_direct_listen_addresses s;
  ns_local_listen_addresses := ns_local_listen_addresses s; ns_rendezvous := ns_rendezvous s;
  ns_nat_status := ns_nat_status s; ns_pulses := ns_pulses s |}.
Definition upd_ns_public_direct_listen_addresses (g : list string -> list string) (s : NodeSnapshot) : NodeSnapshot := {|
  ns_connectivity := ns_connectivity s; ns_limit_events := ns_limit_events s;
  ns_cap_disconnects := ns_cap_disconnects s; ns_last_dial_error := ns_last_dial_error s;
  ns_server := ns_server s; ns_client := ns_client s; ns_dcutr := ns_dcutr s; ns_discovery := ns_discovery s;
  ns_public_direct_listen_addresses := g (ns_public_direct_listen_addresses s);
  ns_local_listen_addresses := ns_local_listen_addresses s; ns_rendezvous := ns_rendezvous s;
  ns_nat_status := ns_nat_status s; ns_pulses := ns_pulses s |}.
Definition upd_ns_local_listen_addresses (g : list string -> list string) (s : NodeSnapshot) : NodeSnapshot := {|
  ns_connectivity := ns_connectivity s; ns_limit_events := ns_limit_events s;
  ns_cap_disconnects := ns_cap_disconnects s; ns_last_dial_error := ns_last_dial_error s;
  ns_server := ns_server s; ns_client := ns_client s; ns_dcutr := ns_dcutr s; ns_discovery := ns_discovery s;
  ns_public_direct_listen_addresses := ns_public_direct_listen_addresses s;
  ns_local_listen_addresses := g (ns_local_listen_addresses s); ns_rendezvous := ns_rendezvous s;
  ns_nat_status := ns_nat_status s; ns_pulses := ns_pulses s |}.
Definition upd_ns_rendezvous (g : Z * Z * Z * Z -> Z * Z * Z * Z) (s : NodeSnapshot) : NodeSnapshot := {|
  ns_connectivity := ns_connectivity s; ns_limit_events := ns_limit_events s;
  ns_cap_disconnects := ns_cap_disconnects s; ns_last_dial_error := ns_last_dial_error s;
  ns_server := ns_server s; ns_client := ns_client s; ns_dcutr := ns_dcutr s; ns_discovery := ns_discovery s;
  ns_public_direct_listen_addresses := ns_public_direct_listen_addresses s;
  ns_local_listen_addresses := ns_local_listen_addresses s; ns_rendezvous := g (ns_rendezvous s);
  ns_nat_status := ns_nat_status s; ns_pulses := ns_pulses s |}.
Definition upd_ns_nat_status (g : string -> string) (s : NodeSnapshot) : NodeSnapshot := {|
  ns_connectivity := ns_connectivity s; ns_limit_events := ns_limit_events s;
  ns_cap_disconnects := ns_cap_disconnects s; ns_last_dial_error := ns_last_dial_error s;
  ns_server := ns_server s; ns_client := ns_client s; ns_dcutr := ns_dcutr s; ns_discovery := ns_discovery s;
  ns_public_direct_listen_addresses := ns_public_direct_listen_addresses s;
  ns_local_listen_addresses := ns_local_listen_addresses s; ns_rendezvous := ns_rendezvous s;
  ns_nat_status := g (ns_nat_status s); ns_pulses := ns_pulses s |}.
Definition upd_ns_pulses (g : list string -> list string) (s : NodeSnapshot) : NodeSnapshot := {|
  ns_connectivity := ns_connectivity s; ns_limit_events := ns_limit_events s;
  ns_cap_disconnects := ns_cap_disconnects s; ns_last_dial_error := ns_last_dial_error s;
  ns_server := ns_server s; ns_client := ns_client s; ns_dcutr := ns_dcutr s; ns_discovery := ns_discovery s;
  ns_public_direct_listen_addresses := ns_public_direct_listen_addresses s;
  ns_local_listen_addresses := ns_local_listen_addresses s; ns_rendezvous := ns_rendezvous s;
  ns_nat_status := ns_nat_status s; ns_pulses := g (ns_pulses s) |}.

Definition pulse_line (line : string) (s : NodeSnapshot) : NodeSnapshot := upd_ns_pulses (fun l => push_pulse l line) s.

Record ConnCtx := {
  cn_caps : ConnectionCapState;
  cn_relay : NodeRelay;
  cn_book : PeerBook;
  cn_cache_writes : PeerCacheWriteBatch;
  cn_pending : gmap PeerId (list ConnectionAttempt);
  cn_stats : AutoDialStats;
  cn_dht : DhtProviderState;
  cn_metrics : NodeMetrics;
  cn_external : ExternalAddressCandidates;
  cn_identify : IdentifyAddressState;
  cn_rendezvous : RendezvousState;
  cn_requests : list RzRequest;
  cn_closed : list Z;
  cn_disconnected : list PeerId;
  cn_actions : list SwarmAction;
  cn_snapshot : NodeSnapshot;
}.

Definition upd_cn_caps (g : ConnectionCapState -> ConnectionCapState) (s : ConnCtx) : ConnCtx := {|
  cn_caps := g (cn_caps s); cn_relay := cn_relay s; cn_book := cn_book s; cn_cache_writes := cn_cache_writes s;
  cn_pending := cn_pending s; cn_stats := cn_stats s; cn_dht := cn_dht s; cn_metrics := cn_metrics s;
  cn_external := cn_external s; cn_identify := cn_identify s; cn_rendezvous := cn_rendezvous s;
  cn_requests := cn_requests s; cn_closed := cn_closed s; cn_disconnected := cn_disconnected s;
  cn_actions := cn_actions s; cn_snapshot := cn_snapshot s |}.
Definition upd_cn_relay (g : NodeRelay -> NodeRelay) (s : ConnCtx) : ConnCtx := {|
  cn_caps := cn_caps s; cn_relay := g (cn_relay s); cn_book := cn_book s; cn_cache_writes := cn_cache_writes s;
  cn_pending := cn_pending s; cn_stats := cn_stats s; cn_dht := cn_dht s; cn_metrics := cn_metrics s;
  cn_external := cn_external s; cn_identify := cn_identify s; cn_rendezvous := cn_rendezvous s;
  cn_requests := cn_requests s; cn_closed := cn_closed s; cn_disconnected := cn_disconnected s;
  cn_actions := cn_actions s; cn_snapshot := cn_snapshot s |}.
Definition upd_cn_book (g : PeerBook -> PeerBook) (s : ConnCtx) : ConnCtx := {|
  cn_caps := cn_caps s; cn_relay := cn_relay s; cn_book := g (cn_book s); cn_cache_writes := cn_cache_writes s;
  cn_pending := cn_pending s; cn_stats := cn_stats s; cn_dht := cn_dht s; cn_metrics := cn_metrics s;
  cn_external := cn_external s; cn_identify := cn_identify s; cn_rendezvous := cn_rendezvous s;
  cn_requests := cn_requests s; cn_closed := cn_closed s; cn_disconnected := cn_disconnected s;
  cn_actions := cn_actions s; cn_snapshot := cn_snapshot s |}.
Definition upd_cn_cache_writes (g : PeerCacheWriteBatch -> PeerCacheWriteBatch) (s : ConnCtx) : ConnCtx := {|
  cn_caps := cn_caps s; cn_relay := cn_relay s; cn_book := cn_book s; cn_cache_writes := g (cn_cache_writes s);
  cn_pending := cn_pending s; cn_stats := cn_stats s; cn_dht := cn_dht s; cn_metrics := cn_metrics s;
  cn_external := cn_external s; cn_identify := cn_identify s; cn_rendezvous := cn_rendezvous s;
  cn_requests := cn_requests s; cn_closed := cn_closed s; cn_disconnected := cn_disconnected s;
  cn_actions := cn_actions s; cn_snapshot := cn_snapshot s |}.
Definition upd_cn_pending (g : gmap PeerId (list ConnectionAttempt) -> gmap PeerId (list ConnectionAttempt)) (s : ConnCtx) : ConnCtx := {|
  cn_caps := cn_caps s; cn_relay := cn_relay s; cn_book := cn_book s; cn_cache_writes := cn_cache_writes s;
  cn_pending := g (cn_pending s); cn_stats := cn_stats s; cn_dht := cn_dht s; cn_metrics := cn_metrics s;
  cn_external := cn_external s; cn_identify := cn_identify s; cn_rendezvous := cn_rendezvous s;
  cn_requests := cn_requests s; cn_closed := cn_closed s; cn_disconnected := cn_disconnected s;
  cn_actions := cn_actions s; cn_snapshot := cn_snapshot s |}.
Definition upd_cn_stats (g : AutoDialStats -> AutoDialStats) (s : ConnCtx) : ConnCtx := {|
  cn_caps := cn_caps s; cn_relay := cn_relay s; cn_book := cn_book s; cn_cache_writes := cn_cache_writes s;
  cn_pending := cn_pending s; cn_stats := g (cn_stats s); cn_dht := cn_dht s; cn_metrics := cn_metrics s;
  cn_external := cn_external s; cn_identify := cn_identify s; cn_rendezvous := cn_rendezvous s;
  cn_requests := cn_requests s; cn_closed := cn_closed s; cn_disconnected := cn_disconnected s;
  cn_actions := cn_actions s; cn_snapshot := cn_snapshot s |}.
Definition upd_cn_dht (g : DhtProviderState -> DhtProviderState) (s : ConnCtx) : ConnCtx := {|
  cn_caps := cn_caps s; cn_relay := cn_relay s; cn_book := cn_book s; cn_cache_writes := cn_cache_writes s;
  cn_pending := cn_pending s; cn_stats := cn_stats s; cn_dht := g (cn_dht s); cn_metrics := cn_metrics s;
  cn_external := cn_external s; cn_identify := cn_identify s; cn_rendezvous := cn_rendezvous s;
  cn_requests := cn_requests s; cn_closed := cn_closed s; cn_disconnected := cn_disconnected s;
  cn_actions := cn_actions s; cn_snapshot := cn_snapshot s |}.
Definition upd_cn_metrics (g : NodeMetrics -> NodeMetrics) (s : ConnCtx) : ConnCtx := {|
  cn_caps := cn_caps s; cn_relay := cn_relay s; cn_book := cn_book s; cn_cache_writes := cn_cache_writes s;
  cn_pending := cn_pending s; cn_stats := cn_stats s; cn_dht := cn_dht s; cn_metrics := g (cn_metrics s);
  cn_external := cn_external s; cn_identify := cn_identify s; cn_rendezvous := cn_rendezvous s;
  cn_requests := cn_requests s; cn_closed := cn_closed s; cn_disconnected := cn_disconnected s;
  cn_actions := cn_actions s; cn_snapshot := cn_snapshot s |}.
Definition upd_cn_external (g : ExternalAddressCandidates -> ExternalAddressCandidates) (s : ConnCtx) : ConnCtx := {|
  cn_caps := cn_caps s; cn_relay := cn_relay s; cn_book := cn_book s; cn_cache_writes := cn_cache_writes s;
  cn_pending := cn_pending s; cn_stats := cn_stats s; cn_dht := cn_dht s; cn_metrics := cn_metrics s;
  cn_external := g (cn_external s); cn_identify := cn_identify s; cn_rendezvous := cn_rendezvous s;
  cn_requests := cn_requests s; cn_closed := cn_closed s; cn_disconnected := cn_disconnected s;
  cn_actions := cn_actions s; cn_snapshot := cn_snapshot s |}.
Definition upd_cn_identify (g : IdentifyAddressState -> IdentifyAddressState) (s : ConnCtx) : ConnCtx := {|
  cn_caps := cn_caps s; cn_relay := cn_relay s; cn_book := cn_book s; cn_cache_writes := cn_cache_writes s;
  cn_pending := cn_pending s; cn_stats := cn_stats s; cn_dht := cn_dht s; cn_metrics := cn_metrics s;
  cn_external := cn_external s; cn_identify := g (cn_identify s); cn_rendezvous := cn_rendezvous s;
  cn_requests := cn_requests s; cn_closed := cn_closed s; cn_disconnected := cn_disconnected s;
  cn_actions := cn_actions s; cn_snapshot := cn_snapshot s |}.
Definition upd_cn_rendezvous (g : RendezvousState -> RendezvousState) (s : ConnCtx) : ConnCtx := {|
  cn_caps := cn_caps s; cn_relay := cn_relay s; cn_book := cn_book s; cn_cache_writes := cn_cache_writes s;
  cn_pending := cn_pending s; cn_stats := cn_stats s; cn_dht := cn_dht s; cn_metrics := cn_metrics s;
  cn_external := cn_external s; cn_identify := cn_identify s; cn_rendezvous := g (cn_rendezvous s);
  cn_requests := cn_requests s; cn_closed := cn_closed s; cn_disconnected := cn_disconnected s;
  cn_actions := cn_actions s; cn_snapshot := cn_snapshot s |}.
Definition upd_cn_requests (g : list RzRequest -> list RzRequest) (s : ConnCtx) : ConnCtx := {|
  cn_caps := cn_caps s; cn_relay := cn_relay s; cn_book := cn_book s; cn_cache_writes := cn_cache_writes s;
  cn_pending := cn_pending s; cn_stats := cn_stats s; cn_dht := cn_dht s; cn_metrics := cn_metrics s;
  cn_external := cn_external s; cn_identify := cn_identify s; cn_rendezvous := cn_rendezvous s;
  cn_requests := g (cn_requests s); cn_closed := cn_closed s; cn_disconnected := cn_disconnected s;
  cn_actions := cn_actions s; cn_snapshot := cn_snapshot s |}.
Definition upd_cn_closed (g : list Z -> list Z) (s : ConnCtx) : ConnCtx := {|
  cn_caps := cn_caps s; cn_relay := cn_relay s; cn_book := cn_book s; cn_cache_writes := cn_cache_writes s;
  cn_pending := cn_pending s; cn_stats := cn_stats s; cn_dht := cn_dht s; cn_metrics := cn_metrics s;
  cn_external := cn_external s; cn_identify := cn_identify s; cn_rendezvous := cn_rendezvous s;
  cn_requests := cn_requests s; cn_closed := g (cn_closed s); cn_disconnected := cn_disconnected s;
  cn_actions := cn_actions s; cn_snapshot := cn_snapshot s |}.
Definition upd_cn_disconnected (g : list PeerId -> list PeerId) (s : ConnCtx) : ConnCtx := {|
  cn_caps := cn_caps s; cn_relay := cn_relay s; cn_book := cn_book s; cn_cache_writes := cn_cache_writes s;
  cn_pending := cn_pending s; cn_stats := cn_stats s; cn_dht := cn_dht s; cn_metrics := cn_metrics s;
  cn_external := cn_external s; cn_identify := cn_identify s; cn_rendezvous := cn_rendezvous s;
  cn_requests := cn_requests s; cn_closed := cn_closed s; cn_disconnected := g (cn_disconnected s);
  cn_actions := cn_actions s; cn_snapshot := cn_snapshot s |}.
Definition upd_cn_actions (g : list SwarmAction -> list SwarmAction) (s : ConnCtx) : ConnCtx := {|
  cn_caps := cn_caps s; cn_relay := cn_relay s; cn_book := cn_book s; cn_cache_writes := cn_cache_writes s;
  cn_pending := cn_pending s; cn_stats := cn_stats s; cn_dht := cn_dht s; cn_metrics := cn_metrics s;
  cn_external := cn_external s; cn_identify := cn_identify s; cn_rendezvous := cn_rendezvous s;
  cn_requests := cn_requests s; cn_closed := cn_closed s; cn_disconnected := cn_disconnected s;
  cn_actions := g (cn_actions s); cn_snapshot := cn_snapshot s |}.
Definition upd_cn_snapshot (g : NodeSnapshot -> NodeSnapshot) (s : ConnCtx) : ConnCtx := {|
  cn_caps := cn_caps s; cn_relay := cn_relay s; cn_book := cn_book s; cn_cache_writes := cn_cache_writes s;
  cn_pending := cn_pending s; cn_stats := cn_stats s; cn_dht := cn_dht s; cn_metrics := cn_metrics s;
  cn_external := cn_external s; cn_identify := cn_identify s; cn_rendezvous := cn_rendezvous s;
  cn_requests := cn_requests s; cn_closed := cn_closed s; cn_disconnected := cn_disconnected s;
  cn_actions := cn_actions s; cn_snapshot := g (cn_snapshot s) |}.

(** What the handlers read: [now] on the monotonic clock in nanoseconds,
    [unix] in seconds, the wall clock of the schedule, the counters of the
    relay meter, the peers the swarm is connected to. *)
Record ConnEnv := {
  ce_dial : DialEnv;
  ce_now : Z;
  ce_unix : Z;
  ce_clock : option Z;
  ce_counters : Counters;
  ce_relay_cfg : RelayServiceConfig;
  ce_namespaces : list string;
  ce_protocol_version : string;
  ce_client : ClientEnv;
  ce_policy : RelayDiscoveryPolicy;
  ce_public_enabled : bool;
  ce_listen_on : Multiaddr -> result Z string;
  ce_rendezvous : RendezvousConfig;
  ce_rendezvous_names : result (list string) NetError;
  ce_rendezvous_peers : list Multiaddr;
  ce_rendezvous_client : bool;
  ce_rendezvous_register : RzNamespace -> PeerId -> result unit string;
}.

Definition set_relay (f : NodeRelay -> NodeRelay) (c : ConnCtx) : ConnCtx := upd_cn_relay f c.
Definition set_snapshot (f : NodeSnapshot -> NodeSnapshot) (c : ConnCtx) : ConnCtx := upd_cn_snapshot f c.

Definition apply_node_relay_state (env : ConnEnv) (r : NodeRelay) (s : NodeSnapshot) : NodeSnapshot :=
  upd_ns_server (fun _ => apply_relay_state (nr_server r) (ce_counters env))
  (upd_ns_client (fun sn => apply_client_state sn (nr_client r))
  (upd_ns_dcutr (fun _ => nr_dcutr r) (upd_ns_discovery (fun _ => nr_discovery r) s))).

Definition apply_relay (env : ConnEnv) (c : ConnCtx) : ConnCtx := set_snapshot (apply_node_relay_state env (cn_relay c)) c.

(** [is_relay_infrastructure_peer] *)
Definition is_relay_infrastructure_peer (c : ConnCtx) (peer : PeerId) : bool :=
  bool_decide (peer ∈ relay_client_reservations (nr_client (cn_relay c))) ||
  bool_decide (peer ∈ relay_client_attempted_peers (nr_client (cn_relay c))) ||
  match PeerBook.record (cn_book c) peer with
  | Some r => pr_relay_preferred r || bool_decide (pr_supports_relay r = Some true)
              || bool_decide (RelayDiscovery ∈ pr_sources r) || bool_decide (PublicRelayDiscovery ∈ pr_sources r)
  | None => false
  end.

Definition sync_swarm_connection_snapshot (env : ConnEnv) (c : ConnCtx) : ConnCtx :=
  let swarm_peers := elements (de_connected (ce_dial env)) in
  let application := filter (fun p => has_application_namespace (cn_book c) p (ce_namespaces env) = true) swarm_peers in
  let relays := filter (fun p => (p ∉ application) /\ is_relay_infrastructure_peer c p = true) swarm_peers in
  let infrastructure := sat_sub (len swarm_peers) (len application) in
  set_snapshot (upd_ns_connectivity (fun _ => {|
    cv_known_peers := pb_len (cn_book c); cv_discovered_peers := discovered_count (cn_book c);
    cv_dial_attempts := dial_attempts (cn_stats c); cv_dial_failures := dial_failures (cn_stats c);
    cv_awaiting_address := Z.of_nat (size (bset (awaiting_address (cn_stats c))));
    cv_pending := pending_count (cn_pending c);
    cv_all := len swarm_peers; cv_application := len application; cv_infrastructure := infrastructure;
    cv_relay := len relays; cv_dht_routing := sat_sub infrastructure (len relays) |})) c.

(** * Established connections *)
Definition should_track_peer_in_peer_book (book : PeerBook) (peer : PeerId) : bool :=
  match PeerBook.record book peer with
  | Some r => existsb persistent_source (elements (pr_sources r)) || negb (bool_decide (pr_namespaces r = ∅))
  | None => false
  end.

(** [min_by_key] on the time of connection: some entry of least time. *)
Definition oldest_unverified (m : gmap PeerId Z) : option PeerId :=
  fst <$> foldl (fun best e => match best with
                               | Some b => if decide (b.2 <= e.2) then best else Some e
                               | None => Some e
                               end) None
            (omap (fun p => (fun t => (p, t)) <$> m !! p) (hash_iter (dom m))).

Definition admit_unverified (now : Z) (peer : PeerId) (m : gmap PeerId Z) : option PeerId * gmap PeerId Z :=
  let full := negb (bool_decide (is_Some (m !! peer))) && bool_decide (MAX_UNVERIFIED_RELAYED_PEERS <= Z.of_nat (size m)) in
  let evicted := if full then oldest_unverified m else None in
  let m := match evicted with Some oldest => delete oldest m | None => m end in
  (evicted, <[peer := now]> m).

Record EstablishedConnection := {
  ec_peer : PeerId;
  ec_connection : Z;
  ec_remote_addr : Multiaddr;
  ec_relayed : bool;
  ec_outgoing : bool;
  ec_debug : string;
  ec_connection_debug : string;
}.

Definition dcutr_suppressed_pulse (peer : PeerId) (max_attempts : Z) (cooldown_remaining : option Z) (remote_addr : Multiaddr)
    : string :=
  match cooldown_remaining with
  | Some remaining =>
      "dcutr retry suppressed for " +:+ peer_to_string peer +:+ "; retry cooldown remaining="
        +:+ pretty (sat_add u64_max (remaining / 1000000000) 1) +:+ "s; relay fallback retained via " +:+ addr_to_string remote_addr
  | None =>
      "dcutr retry suppressed for " +:+ peer_to_string peer +:+ "; max_attempts_per_peer=" +:+ pretty max_attempts
        +:+ " reached; relay fallback retained via " +:+ addr_to_string remote_addr
  end.

Definition incr (n : Z) : Z := sat_add usize_max n 1.

(** The attempt budget: the new state, the attempt number if one is allowed,
    and what is left of the cooldown. *)
Definition dcutr_budget (policy : DcutrPolicy) (now : Z) (peer : PeerId) (d : DcutrState) : DcutrState * option Z * option Z :=
  let retry_interval := from_secs (Z.max (retry_interval_secs policy) 1) in
  let d := track_dcutr_peer peer d in
  let attempts := default 0 (dcutr_attempts_by_peer d !! peer) in
  let d := upd_dcutr_attempts_by_peer (<[peer := attempts]>) d in
  let cooldown := match dcutr_last_attempt_by_peer d !! peer with
                  | Some last => let since := duration_since now last in
                                 if decide (since <= retry_interval) then Some (retry_interval - since) else None
                  | None => None
                  end in
  if bool_decide (max_attempts_per_peer policy <= attempts) || bool_decide (is_Some cooldown) then (d, None, cooldown)
  else
    let attempts := sat_add u32_max attempts 1 in
    (upd_dcutr_last_attempt_by_peer (<[peer := now]>) (upd_dcutr_attempts_by_peer (<[peer := attempts]>) d), Some attempts, cooldown).

Definition on_relayed_application (env : ConnEnv) (x : EstablishedConnection) (c : ConnCtx) : ConnCtx :=
  let policy := de_policy (ce_dial env) in
  let c := if keep_relay_fallback policy then set_relay (upd_nr_dcutr (upd_dcutr_relay_fallbacks incr)) c else c in
  let c :=
    if dp_enabled policy && attempt_after_relay_connection policy then
      let '(d, budget, cooldown) := dcutr_budget policy (ce_now env) (ec_peer x) (nr_dcutr (cn_relay c)) in
      match budget with
      | Some attempt =>
          set_snapshot (pulse_line ("dcutr upgrade eligible for " +:+ peer_to_string (ec_peer x) +:+ " via relay fallback "
              +:+ addr_to_string (ec_remote_addr x) +:+ "; attempt_budget=" +:+ pretty attempt +:+ "/"
              +:+ pretty (max_attempts_per_peer policy)))
            (set_relay (upd_nr_dcutr (fun _ => upd_dcutr_attempts incr (upd_dcutr_upgrade_eligible_connections incr d))) c)
      | None =>
          set_snapshot (pulse_line (dcutr_suppressed_pulse (ec_peer x) (max_attempts_per_peer policy) cooldown (ec_remote_addr x)))
            (set_relay (upd_nr_dcutr (fun _ => upd_dcutr_retry_suppressed incr d)) c)
      end
    else set_snapshot (pulse_line ("relay_fallback connection established via " +:+ addr_to_string (ec_remote_addr x))) c in
  apply_relay env c.

Definition refuse_closed_schedule (env : ConnEnv) (x : EstablishedConnection) (c : ConnCtx) : ConnCtx :=
  let c := upd_cn_closed (fun l => l ++ [ec_connection x]) c in
  let c := set_relay (upd_nr_server (fun s => set_health s ClosedBySchedule)) c in
  let c := apply_relay env (sync_swarm_connection_snapshot env c) in
  let c := set_snapshot (upd_ns_server (fun s => {|
    sn_relay_server_enabled := false; sn_relay_service_health := sn_relay_service_health s; sn_counts := sn_counts s;
    sn_relay_denied_requests := sn_relay_denied_requests s; sn_relay_bytes_forwarded := sn_relay_bytes_forwarded s;
    sn_bytes_src_to_dst := sn_bytes_src_to_dst s; sn_bytes_dst_to_src := sn_bytes_dst_to_src s;
    sn_completed_circuits := sn_completed_circuits s; sn_active_circuits := sn_active_circuits s;
    sn_recent_closed_circuits := sn_recent_closed_circuits s |})) c in
  set_snapshot (pulse_line ("relay_server schedule closed; closing connection from " +:+ peer_to_string (ec_peer x))) c.

Definition refuse_over_cap (env : ConnEnv) (x : EstablishedConnection) (c : ConnCtx) : ConnCtx :=
  let c := upd_cn_closed (fun l => l ++ [ec_connection x]) c in
  let c := upd_cn_metrics (fun m => record_choked_peers m (cap_disconnects (cn_caps c))) c in
  let c := sync_swarm_connection_snapshot env c in
  let c := set_snapshot (upd_ns_cap_disconnects (fun _ => cap_disconnects (cn_caps c))) (set_snapshot (upd_ns_limit_events incr) c) in
  set_snapshot (pulse_line ("connection cap exceeded; closing connection " +:+ ec_connection_debug x +:+ " from "
    +:+ addr_to_string (ec_remote_addr x))) c.

Definition handle_connection_established (env : ConnEnv) (x : EstablishedConnection) (c : ConnCtx) : ConnCtx :=
  let peer := ec_peer x in
  if enabled (ce_relay_cfg env) && negb (is_open_now_utc (ce_clock env) (schedule (ce_relay_cfg env)))
  then refuse_closed_schedule env x c
  else
    let '(over, caps) := record_established (cn_caps c) (ec_connection x) peer (ec_remote_addr x) (ec_outgoing x) in
    let c := upd_cn_caps (fun _ => caps) c in
    if over then refuse_over_cap env x c
    else
      let track := should_track_peer_in_peer_book (cn_book c) peer in
      let '(evicted, unverified) :=
        if ec_relayed x && negb track then admit_unverified (ce_now env) peer (nr_unverified (cn_relay c))
        else (None, delete peer (nr_unverified (cn_relay c))) in
      let c := set_relay (upd_nr_unverified (fun _ => unverified)) c in
      let c := upd_cn_disconnected (fun l => l ++ option_list evicted) c in
      let c := if track then
        upd_cn_book (fun b => record_connected b peer (Some (ec_remote_addr x)) (ce_unix env))
        (upd_cn_metrics (fun m => record_storage_write m (str_len (addr_to_string (ec_remote_addr x))))
        (upd_cn_cache_writes (fun w => record_seen w peer (ec_remote_addr x)) c)) else c in
      let c := upd_cn_metrics (fun m => record_connection_handshake m (if track then Some peer else None)) c in
      let c := upd_cn_stats (fun s => remove_awaiting s peer) (upd_cn_pending (fun p => complete_plan p peer) c) in
      let c := sync_swarm_connection_snapshot env c in
      let c := set_snapshot (upd_ns_cap_disconnects (fun _ => cap_disconnects (cn_caps c))) c in
      let c := upd_cn_metrics (fun m => record_choked_peers m (cap_disconnects (cn_caps c))) c in
      let c := set_snapshot (pulse_line ("connection endpoint peer=" +:+ peer_to_string peer +:+ " relayed="
        +:+ flag_text (ec_relayed x) +:+ " " +:+ ec_debug x)) c in
      let c := match evicted with
               | Some e => set_snapshot (pulse_line ("rotated unverified relayed peer=" +:+ peer_to_string e
                   +:+ " for new verification candidate=" +:+ peer_to_string peer +:+ "; slots="
                   +:+ pretty MAX_UNVERIFIED_RELAYED_PEERS)) c
               | None => c
               end in
      if negb (ec_relayed x) then c
      else if negb track then
        set_snapshot (pulse_line ("relayed connection pending application verification peer=" +:+ peer_to_string peer
          +:+ "; DCUtR deferred")) (apply_relay env c)
      else on_relayed_application env x c.

(** * Closed connections and errors *)
Definition handle_connection_closed (env : ConnEnv) (peer : PeerId) (connection : Z) (c : ConnCtx) : ConnCtx :=
  let c := upd_cn_caps (fun s => record_closed s connection) c in
  let c :=
    if bool_decide (peer ∈ de_connected (ce_dial env)) then c
    else
      let c := if match PeerBook.record (cn_book c) peer with
                  | Some r => negb (bool_decide (pr_namespaces r = ∅))
                  | None => false
                  end then upd_cn_dht (fun s => mark_auto_connect_disconnected s peer) c else c in
      set_relay (upd_nr_unverified (delete peer)) (upd_cn_book (fun b => record_disconnected_if_known b peer (ce_unix env)) c) in
  let c := sync_swarm_connection_snapshot env c in
  set_snapshot (upd_ns_cap_disconnects (fun _ => cap_disconnects (cn_caps c))) c.

Definition handle_incoming_connection_error (peer_debug error_debug : string) (c : ConnCtx) : ConnCtx :=
  set_snapshot (pulse_line ("incoming connection error peer=" +:+ peer_debug +:+ " error=" +:+ error_debug))
    (set_snapshot (upd_ns_limit_events incr) c).

(** The loop over the fallback attempts of the plan: the attempts left, the
    lines, and whether a dial was started. *)
Fixpoint fallback_loop (dial : Multiaddr -> result unit string) (peer : PeerId) (fuel : nat)
    (pending : gmap PeerId (list ConnectionAttempt)) (lines : list string)
    : gmap PeerId (list ConnectionAttempt) * list string * bool :=
  match fuel with
  | O => (pending, lines, false)
  | Datatypes.S n =>
      match next_after_failure pending peer with
      | (None, pending) => (pending, lines, false)
      | (Some attempt, pending) =>
          match dial (at_addr attempt) with
          | Ok _ => (pending, lines ++ ["connection planner fallback dial peer=" +:+ peer_to_string peer +:+ " kind="
                       +:+ attempt_kind_as_str (at_kind attempt) +:+ " addr=" +:+ addr_to_string (at_addr attempt)], true)
          | Err err =>
              fallback_loop dial peer n pending (lines ++ ["connection planner fallback failed immediately peer="
                +:+ peer_to_string peer +:+ " kind=" +:+ attempt_kind_as_str (at_kind attempt) +:+ " addr="
                +:+ addr_to_string (at_addr attempt) +:+ " error=" +:+ err])
          end
      end
  end.

Definition fallback_fuel (pending : gmap PeerId (list ConnectionAttempt)) (peer : PeerId) : nat :=
  Datatypes.S (length (default [] (pending !! peer))).

(** The state changes for a failure that names its peer: the lines and the
    application error. *)
Definition outgoing_failure (env : ConnEnv) (peer : PeerId) (error_debug : string) (c : ConnCtx)
    : list string * option string * ConnCtx :=
  let dial_error := if should_track_peer_in_peer_book (cn_book c) peer
                    then Some ("peer=" +:+ peer_to_string peer +:+ " error=" +:+ error_debug) else None in
  let c := if decide (is_Some (PeerBook.record (cn_book c) peer)) then
             upd_cn_book (fun b => record_failure b peer (ce_unix env))
               (upd_cn_cache_writes (fun w => cache_record_failure w peer) c)
           else c in
  let '(pending, lines, started) :=
    fallback_loop (de_dial (ce_dial env)) peer (fallback_fuel (cn_pending c) peer) (cn_pending c) [] in
  let c := upd_cn_pending (fun _ => pending) c in
  if started then (lines, dial_error, c)
  else
    let '(failed, dht) := mark_auto_connect_failed (cn_dht c) peer in
    let c := upd_cn_dht (fun _ => dht) c in
    if failed then
      (lines ++ ["dht provider auto-connect retry scheduled peer=" +:+ peer_to_string peer +:+ " on next provider result"],
       dial_error, upd_cn_stats (fun s => record_async_failure s peer) c)
    else (lines, dial_error, c).

Definition handle_outgoing_connection_error (env : ConnEnv) (peer : option PeerId) (peer_debug error_debug : string) (c : ConnCtx)
    : ConnCtx :=
  let '(lines, dial_error, c) := match peer with
                                 | Some p => outgoing_failure env p error_debug c
                                 | None => ([], None, c)
                                 end in
  let c := if decide (is_Some dial_error) then set_snapshot (upd_ns_last_dial_error (fun _ => dial_error)) c else c in
  let c := sync_swarm_connection_snapshot env (set_snapshot (upd_ns_limit_events incr) c) in
  foldl (fun c line => set_snapshot (pulse_line line) c)
    (set_snapshot (pulse_line ("outgoing connection error peer=" +:+ peer_debug +:+ " error=" +:+ error_debug)) c) lines.

Definition handle_listener_error (env : ConnEnv) (error_debug : string) (c : ConnCtx) : ConnCtx :=
  let count_error s := set_health (set_counts s (let n := counts s in {|
    accepted_reservations := accepted_reservations n; accepted_reservations_total := accepted_reservations_total n;
    sc_active_circuits := sc_active_circuits n; denied_reservations := denied_reservations n;
    denied_circuits := denied_circuits n; rate_limited_events := rate_limited_events n;
    at_capacity_events := at_capacity_events n; server_errors := incr (server_errors n) |})) HealthError in
  set_snapshot (pulse_line ("listener error: " +:+ error_debug)) (apply_relay env (set_relay (upd_nr_server count_error) c)).

(** * DCUtR events *)
Definition dcutr_handle_event (env : ConnEnv) (succeeded : bool) (debug : string) (c : ConnCtx) : ConnCtx :=
  let policy := de_policy (ce_dial env) in
  let c := set_relay (upd_nr_dcutr (upd_dcutr_enabled (fun _ => dp_enabled policy))) c in
  if negb (dp_enabled policy) then
    set_snapshot (pulse_line ("dcutr event ignored while disabled " +:+ debug)) (apply_relay env c)
  else
    let c := set_relay (upd_nr_dcutr (fun d =>
      if succeeded then upd_dcutr_successes incr d
      else let d := upd_dcutr_failures incr d in
           if keep_relay_fallback policy then upd_dcutr_relay_fallbacks incr d else d)) c in
    set_snapshot (pulse_line ("dcutr event " +:+ debug +:+ "; keep_relay_fallback=" +:+ flag_text (keep_relay_fallback policy)
      +:+ " retry_interval_secs=" +:+ pretty (retry_interval_secs policy) +:+ " max_attempts_per_peer="
      +:+ pretty (max_attempts_per_peer policy))) (apply_relay env c).

(** * Maintenance *)
Definition reconnect_candidate (env : ConnEnv) (st : list string * ConnCtx) (peer : PeerId) : list string * ConnCtx :=
  let '(pulses, c) := st in
  let '(allowed, dht) := should_auto_connect_provider_result (ce_unix env) (cn_dht c) peer in
  let c := upd_cn_dht (fun _ => dht) c in
  if negb allowed then (pulses, c)
  else
    let '(outcome, pending) := env_auto_dial (ce_dial env) true (cn_book c) (cn_pending c) peer in
    let c := upd_cn_pending (fun _ => pending) c in
    let c := upd_cn_stats (fun s => record_outcome s peer outcome) c in
    let c := upd_cn_dht (settle_outcome (ce_unix env) peer outcome) c in
    (if should_pulse outcome then pulses ++ ["application peer reconnect " +:+ describe_outcome outcome peer] else pulses, c).

Definition maintenance_candidates (c : ConnCtx) : list PeerId :=
  take 8 (filter (fun p => is_suppressed (cn_stats c) p = false) (reconnect_candidates (cn_book c))).

Definition maintain_application_connections (env : ConnEnv) (auto_connect : bool) (c : ConnCtx) : list string * ConnCtx :=
  if negb auto_connect then ([], c) else foldl (reconnect_candidate env) ([], c) (maintenance_candidates c).

Definition expired_unverified (now : Z) (m : gmap PeerId Z) : gset PeerId :=
  dom (filter (fun e => UNVERIFIED_RELAY_TIMEOUT <= duration_since now e.2) m).

Definition close_expired_unverified_relayed (env : ConnEnv) (c : ConnCtx) : option string * ConnCtx :=
  let expired := hash_iter (expired_unverified (ce_now env) (nr_unverified (cn_relay c))) in
  if decide (expired = []) then (None, c)
  else
    let c := foldl (fun c peer => upd_cn_disconnected (fun l => l ++ [peer]) (set_relay (upd_nr_unverified (delete peer)) c))
               c expired in
    (Some ("closed " +:+ pretty (len expired) +:+ " unverified relayed peer(s) after 15s verification timeout"), c).

(** * Listen addresses *)
Definition push_unique_recent (values : list string) (value : string) : list string :=
  take (Z.to_nat MAX_SNAPSHOT_ADDRS) (value :: filter (fun existing => existing ≠ value) values).

Definition set_addresses (f : list string -> list string) (public : list string -> option string -> option string)
    (sn : ClientSnapshot) : ClientSnapshot :=
  let relayed := f (sn_relayed_listen_addresses sn) in {|
  sn_public_addr := public relayed (sn_public_addr sn); sn_client_reservations := sn_client_reservations sn;
  sn_client_reservation_attempts := sn_client_reservation_attempts sn;
  sn_client_reservation_failures := sn_client_reservation_failures sn; sn_relayed_listen_addresses := relayed;
  sn_private_relayed_listen_addresses := sn_private_relayed_listen_addresses sn |}.

Definition record_listen_addr_snapshot (addr : Multiaddr) (class : ListenAddrClass) (s : NodeSnapshot) : NodeSnapshot :=
  let text := addr_to_string addr in
  match class with
  | PublicDirect =>
      upd_ns_client (set_addresses id (fun _ _ => Some text))
        (upd_ns_public_direct_listen_addresses (fun l => push_unique_recent l text) s)
  | Relayed => upd_ns_client (set_addresses (fun l => push_unique_recent l text) (fun _ _ => Some text)) s
  | LocalOnly =>
      if is_local_direct_addr addr then upd_ns_local_listen_addresses (fun l => push_unique_recent l text) s else s
  end.

Definition remove_listen_addr_snapshot (addr : Multiaddr) (class : ListenAddrClass) (s : NodeSnapshot) : NodeSnapshot :=
  let text := addr_to_string addr in
  let retain := filter (fun v => v ≠ text) in
  let s := match class with
           | PublicDirect => upd_ns_public_direct_listen_addresses retain s
           | Relayed => upd_ns_client (set_addresses retain (fun _ p => p)) s
           | LocalOnly => upd_ns_local_listen_addresses retain s
           end in
  upd_ns_client (set_addresses id (fun relayed _ =>
    match head relayed with Some a => Some a | None => head (ns_public_direct_listen_addresses s) end)) s.

Definition autonat_status_label (debug : string) : string :=
  if str_contains debug "NoAddresses" then "unknown_no_public_direct_addr_yet"
  else if str_contains debug "NoServer" then "unknown_waiting_for_autonat_server"
  else debug.

Definition windows (env : ConnEnv) : bool := env_windows (ce_client env).
Definition public_relay_route (env : ConnEnv) (addr : Multiaddr) : bool :=
  relayed_route_has_public_relay_endpoint (env_empty (ce_client env)) addr.

Definition confirm_relayed (env : ConnEnv) (address : Multiaddr) (c : ConnCtx) : ConnCtx :=
  let '(external, client) := confirm_relayed_listen_addr (ce_client env) (cn_external c, nr_client (cn_relay c)) address in
  upd_cn_external (fun _ => external) (set_relay (upd_nr_client (fun _ => client)) c).

Definition await_reservation (relay : PeerId) (address : Multiaddr) (c : ConnCtx) : ConnCtx :=
  set_relay (upd_nr_client (upd_pending_relay_listen_addrs (fun m =>
    <[relay := {[addr_to_string address]} ∪ default ∅ (m !! relay)]> m))) c.

(** The relayed part: the state, and whether the address is confirmed by a
    reservation or waits for one. *)
Definition new_relayed_addr (env : ConnEnv) (address : Multiaddr) (c : ConnCtx) : ConnCtx * bool * bool :=
  match relay_peer_id address with
  | Some relay =>
      if decide (relay ∈ relay_client_reservations (nr_client (cn_relay c)))
      then (confirm_relayed env address c, public_relay_route env address, false)
      else (await_reservation relay address c, false, true)
  | None => (c, false, false)
  end.

Definition refresh_rendezvous_now (env : ConnEnv) (c : ConnCtx) : RendezvousActionPlan * ConnCtx :=
  let f := refresh_rendezvous (de_error_text (ce_dial env)) (ce_rendezvous env) (ce_rendezvous_names env) (ce_rendezvous_client env)
             (ce_rendezvous_register env) (ce_rendezvous_peers env) (cn_rendezvous c) in
  (rf_plan f, upd_cn_requests (fun l => l ++ rf_requests f) (upd_cn_actions (fun l => l ++ rf_actions f)
                (upd_cn_rendezvous (fun _ => rf_state f) c))).

Definition listen_addr_line (class : ListenAddrClass) (confirmed pending : bool) (address : Multiaddr) : string :=
  let text := addr_to_string address in
  match class with
  | PublicDirect => "public direct listen addr confirmed " +:+ text
  | Relayed => if confirmed then "relay_client relayed listen addr confirmed " +:+ text
               else if pending then "relay_client relayed listen addr pending reservation " +:+ text
               else "relay_client relayed listen addr ignored non-public relay route " +:+ text
  | LocalOnly => "local/private listen addr " +:+ text +:+ "; not advertised as public reachability"
  end.

Definition rendezvous_lines (plan : RendezvousActionPlan) : list string :=
  ((fun err => "rendezvous startup error: " +:+ err) <$> ra_errors plan) ++
  (if decide (0 < ra_register_attempts plan \/ 0 < ra_discover_attempts plan) then
     ["rendezvous refresh register_attempts=" +:+ pretty (ra_register_attempts plan) +:+ " discover_attempts="
        +:+ pretty (ra_discover_attempts plan)] else []).

Definition handle_new_listen_addr (env : ConnEnv) (address : Multiaddr) (c : ConnCtx) : ConnCtx :=
  let class := classify_listen_addr address in
  let c := match class with
           | PublicDirect => upd_cn_external (fun e => add_confirmed (windows env) e address) c
           | LocalOnly => upd_cn_external (fun e => add_candidate (windows env) e address) c
           | Relayed => c
           end in
  let '(c, confirmed, pending) := if is_relayed class then new_relayed_addr env address c else (c, false, false) in
  let '(plan, c) := refresh_rendezvous_now env c in
  let c := if negb (is_relayed class) || confirmed then set_snapshot (record_listen_addr_snapshot address class) c else c in
  let c := apply_relay env c in
  let r := cn_rendezvous c in
  let c := set_snapshot (upd_ns_rendezvous (fun _ =>
             (register_attempts r, register_failures r, discover_attempts r, discover_failures r))) c in
  foldl (fun c line => set_snapshot (pulse_line line) c) c
    (rendezvous_lines plan ++ [listen_addr_line class confirmed pending address]).

Definition forget_relayed (address : Multiaddr) (s : RelayClient) : RelayClient :=
  let text := addr_to_string address in
  upd_pending_relay_listen_addrs (fun m => filter (fun e => e.2 ≠ ∅) ((fun pending => pending ∖ {[text]}) <$> m))
    (upd_private_relayed_listen_addrs (fun x => x ∖ {[text]}) (upd_relayed_listen_addrs (fun x => x ∖ {[text]}) s)).

Definition handle_expired_listen_addr (address : Multiaddr) (c : ConnCtx) : ConnCtx :=
  let class := classify_listen_addr address in
  let c := if advertise_as_external class then upd_cn_actions (fun l => l ++ [RemoveExternalAddress address]) c else c in
  let c := if is_relayed class then set_relay (upd_nr_client (forget_relayed address)) c else c in
  let c := set_snapshot (remove_listen_addr_snapshot address class) c in
  if is_relayed class then set_snapshot (pulse_line ("relay_client relayed listen addr expired " +:+ addr_to_string address)) c else c.

Definition update_nat_state (status_changed : option NatStatus) (r : NodeRelay) : NodeRelay :=
  match status_changed with
  | Some new => upd_nr_behind_nat (fun _ => match new with NatPublic => false | _ => true end) r
  | None => r
  end.

(** An AutoNAT event: the new status when it changed, and the [Debug] text. *)
Definition handle_autonat_event (status_changed : option NatStatus) (debug : string) (c : ConnCtx) : ConnCtx :=
  let c := set_relay (update_nat_state status_changed) c in
  let fallback := bool_decide (0 < relay_client_reservation_attempts (nr_client (cn_relay c)))
                  || negb (bool_decide (relay_discovery_selected_relays (nr_discovery (cn_relay c)) = ∅)) in
  let c := set_snapshot (upd_ns_nat_status (fun _ => autonat_status_label debug)) c in
  if str_contains debug "NoAddresses" && fallback
  then set_snapshot (pulse_line "autonat has no public direct address yet; continuing with relay fallback") c else c.

(** * Identify *)
Record IdentifyInfo := {
  ii_protocol_version : string;
  ii_protocols : list string;
  ii_listen_addrs : list Multiaddr;
  ii_observed_addr : Multiaddr;
}.

Definition RELAY_HOP_PROTOCOL : string := "/libp2p/circuit/relay/0.2.0/hop".

(** [min_by_key] returns the first of the least score. *)
Definition better_relay (best : option (Z * RelayCandidateAddr)) (x : Z * RelayCandidateAddr) : option (Z * RelayCandidateAddr) :=
  match best with
  | Some b => if decide (b.1 <= x.1) then best else Some x
  | None => Some x
  end.

Definition relay_candidate_of (peer : PeerId) (addr : Multiaddr) : option (Z * RelayCandidateAddr) :=
  if is_local_direct_addr addr then None
  else
    let addr := if has_p2p_peer_id addr then addr else addr_with addr (P2p peer) in
    candidate ← relay_candidate_addr addr PublicFallback;
    (fun score => (score, candidate)) <$> supported_relay_addr_score (rc_addr candidate).

Definition wants_dht_relay (env : ConnEnv) (peer : PeerId) (c : ConnCtx) : bool :=
  let client := nr_client (cn_relay c) in
  negb (bool_decide (peer = de_local (ce_dial env))) && rdp_enabled (ce_policy env) && use_dht_relays (ce_policy env)
  && ce_public_enabled env
  && bool_decide (Z.of_nat (size (relay_client_reservations client)) < min_reservations (ce_policy env))
  && bool_decide (Z.of_nat (size (relay_client_attempted_peers client)) < MAX_PUBLIC_DHT_RELAY_ATTEMPTS)
  && negb (bool_decide (peer ∈ relay_client_attempted_peers client)).

Definition maybe_reserve_dht_relay (env : ConnEnv) (peer : PeerId) (info : IdentifyInfo) (c : ConnCtx) : option string * ConnCtx :=
  if negb (wants_dht_relay env peer c) then (None, c)
  else match foldl better_relay None (omap (relay_candidate_of peer) (ii_listen_addrs info)) with
  | None => (None, c)
  | Some (_, candidate) =>
      match relay_reservation_addr (rc_addr candidate) with
      | None => (None, c)
      | Some reservation_addr =>
          let c := upd_cn_actions (fun l => l ++ add_peer_address_to_discovery peer (rc_addr candidate)) c in
          let c := set_relay (upd_nr_client (upd_relay_client_attempted_peers (fun x => {[peer]} ∪ x))) c in
          let c := set_relay (upd_nr_discovery (fun d =>
            upd_relay_discovery_selected_relays (fun x => {[addr_to_string (rc_addr candidate)]} ∪ x)
            (upd_relay_discovery_public_candidates incr (upd_relay_discovery_candidate_count incr d)))) c in
          match ce_listen_on env reservation_addr with
          | Ok listener =>
              (Some ("relay_discovery dht reservation requested relay=" +:+ peer_to_string peer +:+ " addr="
                 +:+ addr_to_string reservation_addr),
               set_relay (upd_nr_client (fun s => upd_relay_client_reservation_attempts incr
                 (upd_reservation_retries (fun r => RelayClient.track r listener reservation_addr)
                   (note_requested_reservation s reservation_addr)))) c)
          | Err err =>
              (Some ("relay_discovery dht reservation failed relay=" +:+ peer_to_string peer +:+ " addr="
                 +:+ addr_to_string reservation_addr +:+ " error=" +:+ err),
               set_relay (upd_nr_discovery (upd_relay_discovery_failures incr))
                 (set_relay (upd_nr_client (upd_relay_client_reservation_failures incr)) c))
          end
      end
  end.

Definition should_advertise_observed_addr (env : ConnEnv) (addr : Multiaddr) (class : ListenAddrClass) (c : ConnCtx) : bool :=
  match class with
  | PublicDirect => true
  | Relayed =>
      public_relay_route env addr &&
      match relay_peer_id addr with
      | Some relay => bool_decide (relay ∈ relay_client_reservations (nr_client (cn_relay c)))
      | None => false
      end
  | LocalOnly => false
  end.

Definition verify_application (env : ConnEnv) (peer : PeerId) (c : ConnCtx) : ConnCtx :=
  let book := foldl (fun b ns => record_namespace b peer ns Connected (ce_unix env)) (cn_book c) (ce_namespaces env) in
  let c := upd_cn_book (fun _ => record_connected book peer None (ce_unix env)) c in
  let c := set_relay (upd_nr_unverified (delete peer)) c in
  upd_cn_actions (fun l => l ++ [AllowDcutrPeer peer]) c.

Definition identify_lines (compatible was_pending changed : bool) (peer : PeerId) (addr : Multiaddr) (class : ListenAddrClass)
    (relay_pulse : option string) : list string :=
  option_list relay_pulse ++
  (if compatible then
     [if was_pending then "application compatibility verified peer=" +:+ peer_to_string peer
                            +:+ " on relayed connection; exact namespace match"
      else "application compatibility verified peer=" +:+ peer_to_string peer +:+ "; exact namespace match"] else []) ++
  (if changed then
     match class with
     | PublicDirect => ["identify observed public direct addr " +:+ addr_to_string addr]
     | Relayed => ["identify observed relayed addr " +:+ addr_to_string addr]
     | LocalOnly => []
     end else []).

Definition handle_identify_observed_addr (env : ConnEnv) (peer : PeerId) (info : IdentifyInfo) (c : ConnCtx) : ConnCtx :=
  let compatible := String.eqb (ii_protocol_version info) (ce_protocol_version env) in
  let was_pending := bool_decide (is_Some (nr_unverified (cn_relay c) !! peer)) in
  let c := if compatible then verify_application env peer c else c in
  let supports_relay_hop := existsb (String.eqb RELAY_HOP_PROTOCOL) (ii_protocols info) in
  let supports_rendezvous := existsb (String.prefix "/rendezvous/") (ii_protocols info) in
  let supports_dcutr := existsb (String.prefix "/libp2p/dcutr") (ii_protocols info) in
  let '(relay_pulse, c) := if supports_relay_hop then maybe_reserve_dht_relay env peer info c else (None, c) in
  let c := if bool_decide (is_Some (PeerBook.record (cn_book c) peer)) || bool_decide (is_Some relay_pulse) then
             upd_cn_book (fun b => record_capabilities b peer (Some supports_relay_hop) (Some supports_rendezvous)
               (Some supports_dcutr) (ce_unix env)) c else c in
  let observed := ii_observed_addr info in
  let class := classify_listen_addr observed in
  let '(changed, addresses) := record_observed_local_addr (cn_identify c) observed in
  let c := upd_cn_identify (fun _ => addresses) c in
  let c := if should_advertise_observed_addr env observed class c && (changed || is_relayed class)
           then upd_cn_external (fun e => add_confirmed (windows env) e observed) c else c in
  if negb changed && negb (bool_decide (is_Some relay_pulse)) && negb compatible then c
  else
    let c := if changed then set_snapshot (record_listen_addr_snapshot observed class) c else c in
    let c := apply_relay env c in
    let c := if compatible then sync_swarm_connection_snapshot env c else c in
    foldl (fun c line => set_snapshot (pulse_line line) c) c
      (identify_lines compatible was_pending changed peer observed class relay_pulse).
End connection_events.
