(* ===== verification/ConnectionEventsFacts.v ===== *)
(** Facts about the connection handlers: the pool of unverified relayed peers,
    what becomes of expired addresses and of failed dials, and reconnection. *)

From S2P Require Import Prelude Bytes Text BTree BoundedSet Common AppMessage Metrics Observability Relay RelayLimiter RelayMetering.
From S2P Require Import RelayServer Addresses Connections Storage RelayClient PeerBook PeerCache ConnectionStrategy RelayDiscovery.
From S2P Require Import StackDiscovery Rendezvous Dht DhtEvents ConnectionEvents.

#[local] Open Scope Z_scope.

Section facts.
Context {P : PeerIdLib} {M : MultiaddrLib} {RZ : RendezvousLib} {S2 : Sha256Lib} {HI : HashIter PeerId}.

(** * The pool of unverified relayed peers *)
Local Abbreviation pool c := (nr_unverified (cn_relay c)).

Lemma pool_snapshot f (c : ConnCtx) : cn_relay (set_snapshot f c) = cn_relay c.
Proof. done. Qed.

Lemma pool_lines lines (c : ConnCtx) : cn_relay (foldl (fun c line => set_snapshot (pulse_line line) c) c lines) = cn_relay c.
Proof. revert c. induction lines as [|l lines IH]; intros c; cbn; [done|]. by rewrite IH. Qed.

Lemma oldest_in m p : oldest_unverified m = Some p -> is_Some (m !! p).
Proof.
  unfold oldest_unverified. set (l := omap _ _).
  assert (Hl : forall e, e ∈ l -> m !! e.1 = Some e.2).
  { intros e. subst l. rewrite list_elem_of_omap. intros (q & _ & Hq). destruct (m !! q) as [t|] eqn:E; [|done].
    by injection Hq as <-. }
  set (f := fun best e => _).
  assert (Hf : forall k best, (forall e, e ∈ k -> e ∈ l) -> (forall b, best = Some b -> b ∈ l) ->
    forall b, foldl f best k = Some b -> b ∈ l).
  { induction k as [|e k IH]; intros best Hk Hb; cbn; [done|]. apply IH; [set_solver|].
    intros b. subst f. cbn. destruct best as [b0|]; [case_decide|]; set_solver. }
  destruct (foldl f None l) as [b|] eqn:E; [|done]. intros [= <-]. apply Hf in E; [|done|done]. rewrite (Hl _ E). by eexists.
Qed.

Lemma oldest_some m : m ≠ ∅ -> is_Some (oldest_unverified m).
Proof.
  intros Hm. unfold oldest_unverified. rewrite fmap_is_Some. set (f := fun best e => _).
  assert (Hf : forall k b, is_Some (foldl f (Some b) k)).
  { induction k as [|e k IH]; intros b; cbn; [by eexists|]. subst f. cbn. case_decide; apply IH. }
  apply map_choose in Hm as (p & t & Hp).
  assert (Hin : (p, t) ∈ omap (fun p => (fun t => (p, t)) <$> m !! p) (hash_iter (dom m))).
  { rewrite list_elem_of_omap. exists p. rewrite Hp. split; [|done]. rewrite hash_iter_elements, elem_of_elements.
    by apply elem_of_dom_2 in Hp. }
  destruct (omap _ _) as [|e k]; [by apply not_elem_of_nil in Hin|]. cbn. apply Hf.
Qed.

Lemma map_size_insert_le (m : gmap PeerId Z) p t : (size (<[p := t]> m) <= S (size m))%nat.
Proof. rewrite map_size_insert. destruct (m !! p); cbn; lia. Qed.

Lemma admit_bound now p m : (size m <= 8)%nat -> (size (admit_unverified now p m).2 <= 8)%nat.
Proof.
  intros Hm. unfold admit_unverified. cbn [snd]. destruct (decide (is_Some (m !! p))) as [[t Hp]|Hp].
  - rewrite bool_decide_eq_true_2 by eauto. cbn. rewrite map_size_insert_Some; eauto.
  - rewrite bool_decide_eq_false_2 by done. cbn. case_bool_decide as Hf.
    + destruct (oldest_some m) as [o Ho]. { intros ->. rewrite map_size_empty in Hf. unfold MAX_UNVERIFIED_RELAYED_PEERS in Hf. lia. }
      rewrite Ho. destruct (oldest_in _ _ Ho) as [t Ht].
      etrans; [apply map_size_insert_le|]. rewrite map_size_delete_Some by eauto. lia.
    + etrans; [apply map_size_insert_le|]. unfold MAX_UNVERIFIED_RELAYED_PEERS in Hf. lia.
Qed.

Lemma pool_established env x c : (size (pool c) <= 8)%nat -> (size (pool (handle_connection_established env x c)) <= 8)%nat.
Proof.
  intros Hc. unfold handle_connection_established. destruct (_ && _); [exact Hc|].
  destruct (record_established _ _ _ _ _) as [over caps]. destruct over; [exact Hc|].
  set (track := should_track_peer_in_peer_book _ _).
  destruct (if ec_relayed x && negb track then _ else _) as [evicted unverified] eqn:E.
  assert (size unverified <= 8)%nat as Hu.
  { destruct (ec_relayed x && negb track); injection E as _ <-.
    - by apply admit_bound.
    - cbn [upd_cn_caps cn_relay]. rewrite map_size_delete. destruct (pool c !! ec_peer x); cbn; lia. }
  clear E. unfold on_relayed_application, dcutr_budget.
  destruct track, evicted, (ec_relayed x); cbn [negb andb]; try exact Hu;
    (destruct (keep_relay_fallback _), (dp_enabled _ && _); [destruct (_ || _)| |destruct (_ || _)|]; exact Hu).
Qed.

(** The node's handling of one event, or one maintenance tick. *)
Inductive conn_step : ConnCtx -> ConnCtx -> Prop :=
| StepEstablished env x c : conn_step c (handle_connection_established env x c)
| StepClosed env peer conn c : conn_step c (handle_connection_closed env peer conn c)
| StepIncomingError peer err c : conn_step c (handle_incoming_connection_error peer err c)
| StepOutgoingError env peer dbg err c : conn_step c (handle_outgoing_connection_error env peer dbg err c)
| StepNewListenAddr env addr c : conn_step c (handle_new_listen_addr env addr c)
| StepExpiredListenAddr addr c : conn_step c (handle_expired_listen_addr addr c)
| StepListenerError env err c : conn_step c (handle_listener_error env err c)
| StepAutonat status dbg c : conn_step c (handle_autonat_event status dbg c)
| StepIdentify env peer info c : conn_step c (handle_identify_observed_addr env peer info c)
| StepDcutr env ok dbg c : conn_step c (dcutr_handle_event env ok dbg c)
| StepMaintain env auto c : conn_step c (maintain_application_connections env auto c).2
| StepCloseExpired env c : conn_step c (close_expired_unverified_relayed env c).2.

Lemma pool_closed env peer conn c : pool (handle_connection_closed env peer conn c) ⊆ pool c.
Proof.
  unfold handle_connection_closed. cbn [upd_cn_caps].
  destruct (bool_decide _); [done|]. destruct (match PeerBook.record _ _ with Some _ => _ | None => _ end); apply delete_subseteq.
Qed.

Lemma pool_outgoing_error env peer dbg err c : pool (handle_outgoing_connection_error env peer dbg err c) = pool c.
Proof.
  unfold handle_outgoing_connection_error.
  assert (H : forall p, cn_relay (outgoing_failure env p err c).2 = cn_relay c).
  { intros p. unfold outgoing_failure. destruct (fallback_loop _ _ _ _ _) as [[pending lines] started].
    destruct started; [by case_decide|]. destruct (mark_auto_connect_failed _ _) as [[] dht]; by case_decide. }
  destruct peer as [p|].
  - specialize (H p). destruct (outgoing_failure env p err c) as [[lines e] c']. cbn [snd] in H.
    rewrite pool_lines. rewrite <- H. by case_decide.
  - by rewrite pool_lines.
Qed.

Lemma pool_new_listen_addr env addr c : pool (handle_new_listen_addr env addr c) = pool c.
Proof.
  unfold handle_new_listen_addr.
  set (c1 := match classify_listen_addr addr with PublicDirect => _ | LocalOnly => _ | Relayed => c end).
  assert (H1 : pool c1 = pool c) by (subst c1; by destruct (classify_listen_addr addr)).
  destruct (if is_relayed _ then _ else _) as [[c2 confirmed] pending] eqn:E.
  assert (H2 : pool c2 = pool c).
  { rewrite <- H1. destruct (is_relayed _); [|by injection E as <- _ _]. unfold new_relayed_addr in E.
    destruct (relay_peer_id addr); [|by injection E as <- _ _]. case_decide; injection E as <- _ _; [|done].
    unfold confirm_relayed. by destruct (confirm_relayed_listen_addr _ _ _). }
  unfold refresh_rendezvous_now. rewrite pool_lines. rewrite <- H2. by destruct (_ || _).
Qed.

Lemma pool_identify env peer info c : pool (handle_identify_observed_addr env peer info c) ⊆ pool c.
Proof.
  unfold handle_identify_observed_addr.
  set (c1 := if String.eqb _ _ then verify_application env peer c else c).
  assert (H1 : pool c1 ⊆ pool c) by (subst c1; destruct (String.eqb _ _); [apply delete_subseteq|done]).
  destruct (if existsb (String.eqb _) _ then _ else _) as [line c2] eqn:E.
  assert (H2 : pool c2 = pool c1).
  { destruct (existsb _ _); [|by injection E as _ <-]. unfold maybe_reserve_dht_relay in E.
    destruct (negb _); [by injection E as _ <-|]. destruct (foldl better_relay _ _) as [[score cand]|]; [|by injection E as _ <-].
    destruct (relay_reservation_addr _); [|by injection E as _ <-]. destruct (ce_listen_on _ _); by injection E as _ <-. }
  rewrite <- H2 in H1. clearbody c1. clear E H2 c1. set (c3 := if _ || _ then _ else c2).
  assert (H3 : pool c3 = pool c2) by (subst c3; by destruct (_ || _)). rewrite <- H3 in H1. clearbody c3. clear H3 c2.
  destruct (record_observed_local_addr _ _) as [changed addresses].
  destruct (should_advertise_observed_addr _ _ _ _ && _), (negb changed && _ && _); try done;
    rewrite pool_lines; destruct changed, (String.eqb _ _); exact H1.
Qed.

Lemma reconnect_relay env st p : cn_relay (reconnect_candidate env st p).2 = cn_relay st.2.
Proof.
  destruct st as [pulses c]. unfold reconnect_candidate. destruct (should_auto_connect_provider_result _ _ _) as [[] dht]; [|done].
  cbn [negb]. by destruct (env_auto_dial _ _ _ _ _) as [outcome pending].
Qed.

Lemma maintain_relay env auto c : cn_relay (maintain_application_connections env auto c).2 = cn_relay c.
Proof.
  unfold maintain_application_connections. destruct auto; [|done]. cbn [negb].
  generalize (maintenance_candidates c). intros l. change (cn_relay c) with (cn_relay (([], c) : list string * ConnCtx).2).
  generalize (([], c) : list string * ConnCtx). induction l as [|p l IH]; intros st; cbn; [done|]. by rewrite IH, reconnect_relay.
Qed.

Lemma close_all_pool (l : list PeerId) (c : ConnCtx) :
  let c' := foldl (fun c peer => upd_cn_disconnected (fun l => l ++ [peer]) (set_relay (upd_nr_unverified (delete peer)) c)) c l in
  (forall p t, pool c' !! p = Some t <-> (p ∉ l) /\ pool c !! p = Some t) /\ cn_disconnected c' = cn_disconnected c ++ l.
Proof.
  revert c. induction l as [|q l IH]; intros c; cbn.
  { rewrite app_nil_r. split; [|done]. set_solver. }
  destruct (IH (upd_cn_disconnected (fun l => l ++ [q]) (set_relay (upd_nr_unverified (delete q)) c))) as [H1 H2]. split.
  - intros p t. rewrite H1. cbn. rewrite lookup_delete_Some. set_solver.
  - rewrite H2. cbn. by rewrite <- app_assoc.
Qed.

Lemma close_expired_pool env c :
  let c' := (close_expired_unverified_relayed env c).2 in
  (forall p t, pool c' !! p = Some t <-> pool c !! p = Some t /\ duration_since (ce_now env) t < UNVERIFIED_RELAY_TIMEOUT) /\
  (exists closed, cn_disconnected c' = cn_disconnected c ++ closed /\
     forall p, p ∈ closed <-> exists t, pool c !! p = Some t /\ UNVERIFIED_RELAY_TIMEOUT <= duration_since (ce_now env) t).
Proof.
  cbn zeta. unfold close_expired_unverified_relayed. set (expired := hash_iter _).
  assert (He : forall p, p ∈ expired <-> exists t, pool c !! p = Some t /\ UNVERIFIED_RELAY_TIMEOUT <= duration_since (ce_now env) t).
  { intros p. subst expired. rewrite hash_iter_elements, elem_of_elements. unfold expired_unverified. rewrite elem_of_dom.
    split.
    - intros [t Ht]. apply map_lookup_filter_Some in Ht as [H1 H2]. by exists t.
    - intros (t & H1 & H2). exists t. by apply map_lookup_filter_Some. }
  case_decide as Hn; cbn [snd].
  - split; [|exists []; rewrite app_nil_r; split; [done|]; intros p; rewrite <- He, Hn; done].
    intros p t. split; [|by intros [? _]]. intros Hp. split; [done|].
    destruct (Z.lt_ge_cases (duration_since (ce_now env) t) UNVERIFIED_RELAY_TIMEOUT) as [H|H]; [done|].
    enough (p ∈ expired) by (rewrite Hn in *; set_solver). apply He. eauto.
  - destruct (close_all_pool expired c) as [H1 H2]. split; [|by exists expired].
    intros p t. rewrite H1, He. split.
    + intros [Hne Hp]. split; [done|]. destruct (Z.lt_ge_cases (duration_since (ce_now env) t) UNVERIFIED_RELAY_TIMEOUT); [done|].
      exfalso. apply Hne. eauto.
    + intros [Hp Hlt]. split; [|done]. intros (t' & Hp' & Hge). rewrite Hp in Hp'. injection Hp' as <-. lia.
Qed.

(** The pool of relayed peers that have not proved they run the same
    application is bounded in size and in time.  Whatever sequence of connection, error, Identify, address and
    maintenance events the node handles, at most eight relayed peers wait for
    verification; and each maintenance tick disconnects exactly those that have
    waited 15 seconds, keeping the others. *)
Theorem unverified_relayed_peers_bounded (c0 c : ConnCtx) :
  pool c0 = ∅ -> rtc conn_step c0 c ->
  Z.of_nat (size (pool c)) <= MAX_UNVERIFIED_RELAYED_PEERS /\
  forall env, let c' := (close_expired_unverified_relayed env c).2 in
    (forall p t, pool c' !! p = Some t <-> pool c !! p = Some t /\ duration_since (ce_now env) t < UNVERIFIED_RELAY_TIMEOUT) /\
    (exists closed, cn_disconnected c' = cn_disconnected c ++ closed /\
       forall p, p ∈ closed <-> exists t, pool c !! p = Some t /\ UNVERIFIED_RELAY_TIMEOUT <= duration_since (ce_now env) t).
Proof.
  intros H0 Hrun. split; [|intros env; apply close_expired_pool].
  enough (size (pool c) <= 8)%nat by (unfold MAX_UNVERIFIED_RELAYED_PEERS; lia).
  assert (Hsub : forall m m' : gmap PeerId Z, m' ⊆ m -> (size m <= 8)%nat -> (size m' <= 8)%nat).
  { intros m m' Hs Hm. pose proof (map_subseteq_size _ _ Hs). lia. }
  refine (rtc_ind_r (fun c => (size (pool c) <= 8)%nat) _ _ _ c Hrun).
  { rewrite H0, map_size_empty. lia. }
  intros x y _ Hstep IH. destruct Hstep; try exact IH.
  - by apply pool_established.
  - eapply Hsub; [apply pool_closed|done].
  - by rewrite pool_outgoing_error.
  - by rewrite pool_new_listen_addr.
  - unfold handle_expired_listen_addr. by destruct (advertise_as_external _), (is_relayed _).
  - unfold handle_autonat_event. destruct status; cbn; by destruct (_ && _).
  - eapply Hsub; [apply pool_identify|done].
  - unfold dcutr_handle_event. by destruct (dp_enabled _).
  - by rewrite maintain_relay.
  - eapply Hsub; [|exact IH]. apply map_subseteq_spec. intros p t Hp. by apply close_expired_pool in Hp as [? _].
Qed.

(** * Expired addresses *)
Lemma add_candidate_keeps w e a :
  confirmed_seen (add_candidate w e a) = confirmed_seen e /\
  forall x, ExConfirm x ∈ ea_pending (add_candidate w e a) -> ExConfirm x ∈ ea_pending e.
Proof.
  unfold add_candidate. destruct (negb _); [done|]. destruct (remember_bounded _ _ _ _) as [[r seen] order]. cbn.
  split; [done|]. intros x. case_decide; set_solver.
Qed.

Lemma add_confirmed_known w e a :
  a ∈ confirmed_seen e ->
  a ∈ confirmed_seen (add_confirmed w e a) /\ forall x, ExConfirm x ∈ ea_pending (add_confirmed w e a) -> ExConfirm x ∈ ea_pending e.
Proof.
  intros Ha. unfold add_confirmed. destruct (add_candidate_keeps w e a) as [E Hp].
  destruct (remember_bounded (confirmed_seen (add_candidate w e a)) _ _ _) as [[r seen] order] eqn:Er.
  unfold remember_bounded in Er. rewrite E, decide_True in Er by done. injection Er as <- <- <-. cbn. split; [done|exact Hp].
Qed.

Lemma lines_external lines (c : ConnCtx) : cn_external (foldl (fun c line => set_snapshot (pulse_line line) c) c lines) = cn_external c.
Proof. revert c. induction lines as [|l lines IH]; intros c; cbn; [done|]. by rewrite IH. Qed.

(** An advertised address that goes away and comes back is not advertised
    again.  When a listen address that the node has confirmed expires, the
    handler removes it from the swarm, but the cache of confirmed addresses
    keeps it; when the same address is listened on again, directly or through
    its relay, no new confirmation is queued, so the swarm stays without it. *)
Theorem expired_address_never_readvertised (env : ConnEnv) (a : Multiaddr) (c : ConnCtx) :
  advertise_as_external (classify_listen_addr a) = true -> a ∈ confirmed_seen (cn_external c) ->
  let c1 := handle_expired_listen_addr a c in
  let c2 := handle_new_listen_addr env a c1 in
  cn_actions c1 = cn_actions c ++ [RemoveExternalAddress a] /\ cn_external c1 = cn_external c /\
  a ∈ confirmed_seen (cn_external c2) /\
  (forall x, ExConfirm x ∈ ea_pending (cn_external c2) -> ExConfirm x ∈ ea_pending (cn_external c)).
Proof.
  intros Hadv Ha. cbn zeta.
  assert (H1 : cn_actions (handle_expired_listen_addr a c) = cn_actions c ++ [RemoveExternalAddress a] /\
               cn_external (handle_expired_listen_addr a c) = cn_external c).
  { unfold handle_expired_listen_addr. rewrite Hadv. by destruct (is_relayed _). }
  destruct H1 as [H1 H2]. split; [done|]. split; [done|]. rewrite <- H2 in Ha |- *. clear H1 H2.
  generalize dependent (handle_expired_listen_addr a c). clear c. intros c Ha.
  unfold handle_new_listen_addr, refresh_rendezvous_now.
  destruct (classify_listen_addr a) eqn:Ec; cbn [is_relayed negb]; [| |done].
  - rewrite lines_external. cbn. by apply add_confirmed_known.
  - destruct (new_relayed_addr env a c) as [[c2 confirmed] pending] eqn:En. rewrite lines_external.
    assert (Hc2 : a ∈ confirmed_seen (cn_external c2) /\
      forall x, ExConfirm x ∈ ea_pending (cn_external c2) -> ExConfirm x ∈ ea_pending (cn_external c)).
    { unfold new_relayed_addr in En. destruct (relay_peer_id a) as [relay|]; [|by injection En as <- _ _].
      case_decide; injection En as <- _ _; [|done]. unfold confirm_relayed, confirm_relayed_listen_addr.
      destruct (relayed_route_has_public_relay_endpoint _ _); cbn; [by apply add_confirmed_known|done]. }
    destruct confirmed; exact Hc2.
Qed.

(** * Failed dials *)

(** A dial that fails without naming its peer leaves the peer undialable.
    The swarm reports no peer id for the failure of a dial whose address does
    not end in one, which is how Identify and the peer book store addresses;
    the handler then neither tries the next address of the plan nor drops the
    plan nor releases the peer for a later retry, and while the plan is pending
    every automatic dial of the peer is refused as already pending. *)
Theorem unattributed_failure_strands_peer (env later : ConnEnv) (p : PeerId) (dbg err : string) (c : ConnCtx) :
  is_Some (cn_pending c !! p) -> p ≠ de_local (ce_dial later) -> p ∉ de_connected (ce_dial later) ->
  let c' := handle_outgoing_connection_error env None dbg err c in
  cn_pending c' = cn_pending c /\ cn_dht c' = cn_dht c /\ cn_stats c' = cn_stats c /\
  env_auto_dial (ce_dial later) true (cn_book c') (cn_pending c') p = (AlreadyPending, cn_pending c') /\
  env_auto_dial_dht (ce_dial later) true (cn_book c') (cn_pending c') p = (AlreadyPending, cn_pending c').
Proof.
  intros Hp Hl Hc. cbn zeta. unfold handle_outgoing_connection_error. cbn [foldl].
  assert (E : env_auto_dial (ce_dial later) true (cn_book c) (cn_pending c) p = (AlreadyPending, cn_pending c)).
  { unfold env_auto_dial, auto_dial_peer_from_book. cbn [negb]. rewrite !decide_False by done.
    unfold is_pending. by rewrite bool_decide_eq_true_2. }
  split; [done|]. split; [done|]. split; [done|]. split; [exact E|].
  unfold env_auto_dial_dht, auto_dial_dht_provider. unfold env_auto_dial in E.
  match goal with |- context [auto_dial_peer_from_book ?a ?b ?x ?d ?e ?f ?g ?h ?i ?j ?k] =>
    change (auto_dial_peer_from_book a b x d e f g h i j k) with (env_auto_dial (ce_dial later) true (cn_book c) (cn_pending c) p) end.
  unfold env_auto_dial. by rewrite E.
Qed.

(** * Reconnection *)
Definition tick (env : ConnEnv) (c : ConnCtx) : ConnCtx := (maintain_application_connections env true c).2.

(** Eight peers without an address block all reconnection.  While the
    first eight disconnected application peers, in the order of their ids, are
    waiting for an address, the periodic maintenance changes nothing and dials
    nobody, however often it runs and whatever addresses are known of the peers
    that come after them. *)
Theorem waiting_peers_block_reconnection (envs : list ConnEnv) (c : ConnCtx) :
  Forall (fun p => p ∈ bset (auto_connect_waiting (cn_dht c))) (maintenance_candidates c) ->
  foldl (fun c env => tick env c) c envs = c /\
  Forall (fun env => maintain_application_connections env true c = ([], c)) envs.
Proof.
  intros Hw.
  assert (H : forall env, maintain_application_connections env true c = ([], c)).
  { intros env. unfold maintain_application_connections. cbn [negb]. induction Hw as [|p l Hp _ IH]; [done|]. cbn [foldl].
    assert (E : reconnect_candidate env ([], c) p = ([], c)).
    { unfold reconnect_candidate, should_auto_connect_provider_result. rewrite decide_True by done. cbn. by destruct c. }
    by rewrite E. }
  split.
  - induction envs as [|env envs IH]; cbn; [done|]. unfold tick at 2. by rewrite H.
  - apply Forall_forall. intros env _. apply H.
Qed.
End facts.
