(* ===== verification/Lan.v ===== *)
(** Discovery on the local network (crates/connectivity/lan.rs) and the arms of the
    event loop that use it (crates/node/runtime/driver_native.rs): UDP beacons that
    carry a peer id and its listeners, what a receiver accepts of them, and what the
    node does with an announcement.  The sockets are parameters: an operation that
    sends or receives passes the state [W] of the network on. *)

From S2P Require Import Prelude Bytes Text BTree BoundedSet Common AppMessage Metrics Observability Relay RelayLimiter RelayMetering.
From S2P Require Import RelayServer Addresses Connections Storage RelayClient PeerBook PeerCache ConnectionStrategy RelayDiscovery.
From S2P Require Import StackDiscovery Rendezvous Dht DhtEvents ConnectionEvents.
From Stdlib Require Import Strings.Byte.
From stdpp Require Import pretty.

#[local] Open Scope Z_scope.

Definition LAN_DISCOVERY_MULTICAST_V4 : Ipv4Addr := Build_Ipv4Addr 239 255 42 99.
Definition MAX_LAN_BEACON_BYTES : Z := 8192.
Definition MAX_LAN_ADVERTISED_ADDRS : Z := 16.
Definition LAN_BEACON_VERSION : Z := 1.
Definition ANDROID_EMULATOR_HOST_V4 : Ipv4Addr := Build_Ipv4Addr 10 0 2 2.

Record SocketAddr := { sa_ip : IpAddr; sa_port : Z }.
#[global] Instance SocketAddr_eq_dec : EqDecision SocketAddr.
Proof. solve_decision. Defined.

(** [Ipv6Addr::is_unique_local] and [is_unicast_link_local] *)
Definition v6_is_unique_local (ip : Ipv6Addr) : bool := bool_decide (Z.land (segment ip 0) 65024 = 64512).
Definition v6_is_unicast_link_local (ip : Ipv6Addr) : bool := bool_decide (Z.land (segment ip 0) 65472 = 65152).

Definition is_local_source (ip : IpAddr) : bool :=
  match ip with
  | V4 ip => v4_is_loopback ip || v4_is_private ip || v4_is_link_local ip
  | V6 ip => v6_is_loopback ip || v6_is_unique_local ip || v6_is_unicast_link_local ip
  end.

Definition is_official_android_emulator_guest (ip : Ipv4Addr) : bool :=
  bool_decide (ip4_a ip = 10 /\ ip4_b ip = 0 /\ ip4_c ip = 2) && negb (bool_decide (ip = ANDROID_EMULATOR_HOST_V4)).

(** [local_ip] is the address of a probe socket connected towards the emulator's host
    alias; off Android there is none. *)
Definition android_emulator_host_target (local_ip : option IpAddr) (port : Z) : option SocketAddr :=
  match local_ip with
  | Some (V4 ip) =>
      if is_official_android_emulator_guest ip then Some {| sa_ip := V4 ANDROID_EMULATOR_HOST_V4; sa_port := port |} else None
  | _ => None
  end.

Record LanDiscoveryConfig := { lan_enabled : bool; lan_port : Z; announce_interval_secs : Z }.

Definition LanDiscoveryConfig_default : LanDiscoveryConfig := {|
  lan_enabled := true; lan_port := 44777; announce_interval_secs := 2 |}.

Definition LanDiscoveryConfig_validate (c : LanDiscoveryConfig) : result unit NetError :=
  if lan_enabled c && bool_decide (lan_port c = 0) then Err (config_error "discovery.lan.port must be at least 1")
  else if lan_enabled c && bool_decide (announce_interval_secs c = 0)
  then Err (config_error "discovery.lan.announce_interval_secs must be at least 1")
  else Ok tt.

Record LanBeacon := {
  lb_version : Z; lb_network_id : Z; lb_application_protocol : string; lb_peer_id : string;
  lb_addresses : list string; lb_reply_requested : bool }.

(** The UDP socket: a datagram to a target, and the next datagram with its source. *)
Class UdpSocket (W : Type) := {
  udp_send : list byte -> SocketAddr -> W -> result unit string * W;
  udp_recv : W -> result (list byte * SocketAddr) string * W }.

Record LanDiscoverySocket := {
  multicast_target : SocketAddr; broadcast_target : SocketAddr; emulator_host_target : option SocketAddr }.

(** [bound] is what creating, configuring and binding the socket returns. *)
Definition LanDiscoverySocket_bind (bound : result unit string) (probe_ip : option IpAddr) (c : LanDiscoveryConfig)
    : result LanDiscoverySocket string :=
  let? _ := bound in
  Ok {| multicast_target := {| sa_ip := V4 LAN_DISCOVERY_MULTICAST_V4; sa_port := lan_port c |};
        broadcast_target := {| sa_ip := V4 (Build_Ipv4Addr 255 255 255 255); sa_port := lan_port c |};
        emulator_host_target := android_emulator_host_target probe_ip (lan_port c) |}.

Section lan.
Context {P : PeerIdLib} {M : MultiaddrLib} {J : SerdeJson LanBeacon}.
Context (empty : Multiaddr).

Record LanPeerAnnouncement := { la_peer_id : PeerId; la_addresses : list Multiaddr }.
Record LanDiscoveryReceive := { announcement : option LanPeerAnnouncement; reply_to : option SocketAddr }.

Definition is_circuit (p : Protocol) : bool := match p with P2pCircuit => true | _ => false end.

Definition is_lan_advertisable_addr (addr : Multiaddr) : bool :=
  negb (existsb is_circuit (addr_iter addr)) &&
  existsb (fun p => match p with Tcp _ | Udp _ | QuicV1 | Ws => true | _ => false end) (addr_iter addr).

Definition collect_advertised_addresses (addresses : list Multiaddr) : list string :=
  addr_to_string <$> take (Z.to_nat MAX_LAN_ADVERTISED_ADDRS) (filter (fun a => is_lan_advertisable_addr a = true) addresses).

Definition encode_beacon (network_id : Z) (application_protocol : string) (peer_id : PeerId) (addresses : list string)
    (reply_requested : bool) : result (list byte) string :=
  let? payload := json_to_vec {|
    lb_version := LAN_BEACON_VERSION; lb_network_id := network_id; lb_application_protocol := application_protocol;
    lb_peer_id := peer_to_string peer_id; lb_addresses := addresses; lb_reply_requested := reply_requested |} in
  if decide (MAX_LAN_BEACON_BYTES < len payload) then Err "LAN discovery beacon exceeds size bound" else Ok payload.

(** The loop of [normalize_received_addr]: what was pushed, whether the last address
    component is local, and the last peer component; [None] is the early return. *)
Fixpoint normalize_loop (source_ip : IpAddr) (out : Multiaddr) (has_local_ip : bool) (peer_component : option PeerId)
    (protocols : list Protocol) : option (Multiaddr * bool * option PeerId) :=
  match protocols with
  | [] => Some (out, has_local_ip, peer_component)
  | p :: rest =>
      match p with
      | Ip4 ip =>
          if v4_is_unspecified ip then
            match source_ip with
            | V4 source => normalize_loop source_ip (addr_with out (Ip4 source)) (is_local_source (V4 source)) peer_component rest
            | V6 _ => None
            end
          else normalize_loop source_ip (addr_with out (Ip4 ip)) (is_local_source (V4 ip)) peer_component rest
      | Ip6 ip =>
          if v6_is_unspecified ip then None
          else normalize_loop source_ip (addr_with out (Ip6 ip)) (is_local_source (V6 ip)) peer_component rest
      | P2p found => normalize_loop source_ip out has_local_ip (Some found) rest
      | other => normalize_loop source_ip (addr_with out other) has_local_ip peer_component rest
      end
  end.

Definition normalize_received_addr (addr : Multiaddr) (source_ip : IpAddr) (peer : PeerId) : option Multiaddr :=
  if existsb is_circuit (addr_iter addr) then None
  else match normalize_loop source_ip empty false None (addr_iter addr) with
  | None => None
  | Some (out, has_local_ip, peer_component) =>
      if negb has_local_ip || match peer_component with Some found => negb (bool_decide (found = peer)) | None => false end
      then None else Some (addr_with out (P2p peer))
  end.

Definition receive_address (source_ip : IpAddr) (peer : PeerId) (addresses : list Multiaddr) (encoded : string) : list Multiaddr :=
  match addr_parse encoded with
  | Err _ => addresses
  | Ok addr =>
      match normalize_received_addr addr source_ip peer with
      | Some addr => if decide (addr ∈ addresses) then addresses else addresses ++ [addr]
      | None => addresses
      end
  end.

Definition decode_beacon (payload : list byte) (source : SocketAddr) (local_peer : PeerId) (network_id : Z)
    (application_protocol : string) : option LanDiscoveryReceive :=
  if negb (is_local_source (sa_ip source)) then None
  else match json_from_slice payload with
  | Err _ => None
  | Ok beacon =>
      if negb (bool_decide (lb_version beacon = LAN_BEACON_VERSION)) || negb (bool_decide (lb_network_id beacon = network_id))
         || negb (bool_decide (lb_application_protocol beacon = application_protocol)) then None
      else match peer_parse (lb_peer_id beacon) with
      | Err _ => None
      | Ok peer_id =>
          if decide (peer_id = local_peer) then None
          else
            let reply := if lb_reply_requested beacon then Some source else None in
            let addresses := if lb_reply_requested beacon then []
              else foldl (receive_address (sa_ip source) peer_id) [] (take (Z.to_nat MAX_LAN_ADVERTISED_ADDRS) (lb_addresses beacon)) in
            let found := if decide (addresses = []) then None else Some {| la_peer_id := peer_id; la_addresses := addresses |} in
            match found, reply with
            | None, None => None
            | _, _ => Some {| announcement := found; reply_to := reply |}
            end
      end
  end.

(** * The socket's operations *)
Section socket.
Context {W : Type} {U : UdpSocket W}.

Definition first_some {A} (a b : option A) : option A := match a with Some _ => a | None => b end.
Definition err_of {A E} (r : result A E) : option E := match r with Ok _ => None | Err e => Some e end.

Definition announce (s : LanDiscoverySocket) (network_id : Z) (application_protocol : string) (peer_id : PeerId)
    (addresses : list Multiaddr) (w : W) : result unit string * W :=
  let addresses := collect_advertised_addresses addresses in
  match encode_beacon network_id application_protocol peer_id addresses false with
  | Err e => (Err e, w)
  | Ok payload =>
      let '(multicast, w) := udp_send payload (multicast_target s) w in
      let '(broadcast, w) := udp_send payload (broadcast_target s) w in
      let any_success := is_ok multicast || is_ok broadcast in
      let first_error := first_some (err_of multicast) (err_of broadcast) in
      let finish any_success first_error w :=
        (if any_success : bool then Ok tt else Err (default "LAN discovery announcement failed" first_error), w) in
      match emulator_host_target s with
      | None => finish any_success first_error w
      | Some target =>
          match encode_beacon network_id application_protocol peer_id addresses true with
          | Err e => (Err e, w)
          | Ok probe =>
              let '(sent, w) := udp_send probe target w in
              match sent with
              | Ok _ => finish true first_error w
              | Err e => finish any_success (first_some first_error (Some e)) w
              end
          end
      end
  end.

Definition respond (target : SocketAddr) (network_id : Z) (application_protocol : string)
    (peer_id : PeerId) (addresses : list Multiaddr) (w : W) : result unit string * W :=
  if negb (is_local_source (sa_ip target)) then (Err "LAN discovery reply target is not local", w)
  else
    let addresses := collect_advertised_addresses addresses in
    if decide (addresses = []) then (Ok tt, w)
    else match encode_beacon network_id application_protocol peer_id addresses false with
    | Err e => (Err e, w)
    | Ok payload => udp_send payload target w
    end.

(** A longer datagram is cut at the end of the buffer. *)
Definition lan_recv (local_peer : PeerId) (network_id : Z) (application_protocol : string) (w : W)
    : result (option LanDiscoveryReceive) string * W :=
  match udp_recv w with
  | (Err e, w) => (Err e, w)
  | (Ok (datagram, source), w) =>
      (Ok (decode_beacon (take (Z.to_nat MAX_LAN_BEACON_BYTES) datagram) source local_peer network_id application_protocol), w)
  end.
End socket.
End lan.

(** * The arms of the event loop *)
Section handlers.
Context {P : PeerIdLib} {M : MultiaddrLib} {J : SerdeJson LanBeacon} {RZ : RendezvousLib} {S2 : Sha256Lib} `{!HashIter PeerId}.

Definition MAX_LAN_DISCOVERED_PEERS : Z := 2048.

Definition lan_record_addr (now : Z) (peer : PeerId) (c : ConnCtx) (addr : Multiaddr) : ConnCtx :=
  let c := upd_cn_actions (fun l => l ++ add_peer_address_to_discovery peer addr) c in
  let c := upd_cn_book (fun b => record_addr b peer addr LanDiscovery now) c in
  upd_cn_cache_writes (fun w => record_seen w peer addr) c.

(** The pulses go to the observability batch [o]. *)
Definition handle_lan_announcement (env : ConnEnv) (auto_connect : bool) (a : LanPeerAnnouncement)
    (o : ObservabilityBatch) (c : ConnCtx) : ObservabilityBatch * ConnCtx :=
  let peer := la_peer_id a in
  if bool_decide (peer = de_local (ce_dial env)) ||
     (bool_decide (PeerBook.record (cn_book c) peer = None) && bool_decide (MAX_LAN_DISCOVERED_PEERS <= pb_len (cn_book c)))
  then (o, c)
  else
    let c := upd_cn_actions (fun l => l ++ [AllowDcutrPeer peer]) c in
    let c := foldl (fun c namespace => upd_cn_book (fun b => record_namespace b peer namespace LanDiscovery (ce_now env)) c)
               c (ce_namespaces env) in
    let c := foldl (lan_record_addr (ce_now env) peer) c (la_addresses a) in
    if is_suppressed (cn_stats c) peer then (o, c)
    else
      let '(outcome, pending) := env_auto_dial (ce_dial env) auto_connect (cn_book c) (cn_pending c) peer in
      let c := upd_cn_pending (fun _ => pending) c in
      let c := upd_cn_stats (fun s => record_outcome s peer outcome) c in
      let o := peer_connectivity_dirty o in
      (if should_pulse outcome then pulse o ("lan discovery " +:+ describe_outcome outcome peer) else o, c).

Context {W : Type} {U : UdpSocket W}.

(** A tick of the announcement timer. *)
Definition lan_tick (s : LanDiscoverySocket) (network_id : Z) (application_protocol : string)
    (local_peer : PeerId) (listeners : list Multiaddr) (o : ObservabilityBatch) (w : W) : ObservabilityBatch * W :=
  match announce s network_id application_protocol local_peer listeners w with
  | (Ok _, w) => (o, w)
  | (Err e, w) => (pulse o ("lan discovery announce error=" +:+ e), w)
  end.

(** A datagram: the reply it asks for, then the announcement it carries. *)
Definition lan_received (socket_text : SocketAddr -> string) (empty : Multiaddr) (env : ConnEnv) (auto_connect : bool)
    (network_id : Z) (listeners : list Multiaddr) (o : ObservabilityBatch) (c : ConnCtx) (w : W) : ObservabilityBatch * ConnCtx * W :=
  let local_peer := de_local (ce_dial env) in
  let protocol := ce_protocol_version env in
  match lan_recv empty local_peer network_id protocol w with
  | (Err e, w) => (pulse o ("lan discovery receive error=" +:+ e), c, w)
  | (Ok None, w) => (o, c, w)
  | (Ok (Some received), w) =>
      let '(o, w) := match reply_to received with
        | None => (o, w)
        | Some target =>
            match respond target network_id protocol local_peer listeners w with
            | (Ok _, w) => (o, w)
            | (Err e, w) => (pulse o ("lan discovery unicast reply error target=" +:+ socket_text target +:+ " error=" +:+ e), w)
            end
        end in
      match announcement received with
      | None => (o, c, w)
      | Some a => let '(o, c) := handle_lan_announcement env auto_connect a o c in (o, c, w)
      end
  end.
End handlers.

(** * What a beacon can say *)
Section beacons.
Context {P : PeerIdLib} {PL : PeerIdLaws P} {M : MultiaddrLib} {ML : MultiaddrLaws M} {J : SerdeJson LanBeacon}.
Context (empty : Multiaddr) (empty_iter : addr_iter empty = []).

(** A component a normalised address may have before its peer. *)
Definition lan_component (p : Protocol) : bool :=
  match p with
  | P2p _ | P2pCircuit => false
  | Ip4 ip => negb (v4_is_unspecified ip)
  | Ip6 ip => negb (v6_is_unspecified ip)
  | _ => true
  end.

Definition ip_step (acc : option IpAddr) (p : Protocol) : option IpAddr :=
  match p with Ip4 ip => Some (V4 ip) | Ip6 ip => Some (V6 ip) | _ => acc end.
Definition last_ip (l : list Protocol) : option IpAddr := foldl ip_step None l.

(** An address on the local network that names [peer]: it ends with the peer, goes through
    no relay, and its last IP address is a local one. *)
Definition lan_address (peer : PeerId) (a : Multiaddr) : Prop :=
  exists path ip, addr_iter a = path ++ [P2p peer] /\ Forall (fun p => lan_component p = true) path /\
    last_ip path = Some ip /\ is_local_source ip = true.

Definition local_flag (l : list Protocol) : bool := match last_ip l with Some ip => is_local_source ip | None => false end.

Lemma local_specified ip : is_local_source (V4 ip) = true -> v4_is_unspecified ip = false.
Proof.
  intros H. unfold v4_is_unspecified. apply bool_decide_eq_false. intros ->. vm_compute in H. discriminate H.
Qed.

Lemma last_ip_snoc l p : last_ip (l ++ [p]) = ip_step (last_ip l) p.
Proof. unfold last_ip. by rewrite foldl_app. Qed.

Lemma normalize_loop_spec source_ip ps : is_local_source source_ip = true -> Forall (fun p => is_circuit p = false) ps ->
  forall out flag pc out' flag' pc', Forall (fun p => lan_component p = true) (addr_iter out) -> flag = local_flag (addr_iter out) ->
  normalize_loop source_ip out flag pc ps = Some (out', flag', pc') ->
  Forall (fun p => lan_component p = true) (addr_iter out') /\ flag' = local_flag (addr_iter out').
Proof.
  intros Hsrc Hc. induction Hc as [|p ps Hp Hps IH]; intros out flag pc out' flag' pc' Hout Hflag E; cbn [normalize_loop] in E.
  { by injection E as <- <- <-. }
  assert (Hstep : forall q flag1 pc1, lan_component q = true -> flag1 = local_flag (addr_iter (addr_with out q)) ->
      normalize_loop source_ip (addr_with out q) flag1 pc1 ps = Some (out', flag', pc') ->
      Forall (fun p => lan_component p = true) (addr_iter out') /\ flag' = local_flag (addr_iter out')).
  { intros q flag1 pc1 Hq Hf E1. eapply IH; [|exact Hf|exact E1]. rewrite addr_iter_with. apply Forall_app. by split; [|constructor]. }
  assert (Hsame : forall q, ip_step (last_ip (addr_iter out)) q = last_ip (addr_iter out) -> flag = local_flag (addr_iter (addr_with out q))).
  { intros q Hq. subst flag. unfold local_flag. by rewrite addr_iter_with, last_ip_snoc, Hq. }
  assert (Hnew : forall q ip, ip_step (last_ip (addr_iter out)) q = Some ip -> is_local_source ip = local_flag (addr_iter (addr_with out q))).
  { intros q ip Hq. unfold local_flag. by rewrite addr_iter_with, last_ip_snoc, Hq. }
  destruct p; try done; try (refine (Hstep _ _ _ _ _ E); [done|by apply Hsame]); try (eapply IH; [done|exact Hflag|exact E]).
  - destruct (v4_is_unspecified ip) eqn:Eu.
    + destruct source_ip as [source|]; [|done]. refine (Hstep _ _ _ _ _ E); [|by apply Hnew]. cbn. by rewrite local_specified.
    + refine (Hstep _ _ _ _ _ E); [|by apply Hnew]. cbn. by rewrite Eu.
  - destruct (v6_is_unspecified ip) eqn:Eu; [done|]. refine (Hstep _ _ _ _ _ E); [|by apply Hnew]. cbn. by rewrite Eu.
Qed.

Lemma existsb_false {A} (f : A -> bool) l : existsb f l = false -> Forall (fun x => f x = false) l.
Proof. induction l; cbn; [constructor|]. intros [? ?]%orb_false_iff. constructor; auto. Qed.

Lemma normalized_is_local addr source_ip peer a : is_local_source source_ip = true ->
  normalize_received_addr empty addr source_ip peer = Some a -> lan_address peer a.
Proof.
  intros Hsrc. unfold normalize_received_addr. destruct (existsb _ _) eqn:Ec; [done|]. apply existsb_false in Ec.
  destruct (normalize_loop _ _ _ _ _) as [[[out flag] pc]|] eqn:E; [|done].
  destruct (normalize_loop_spec source_ip (addr_iter addr) Hsrc Ec empty false None out flag pc) as [H1 H2]; [by rewrite empty_iter|by rewrite empty_iter|done|].
  destruct flag; cbn [negb orb]; [|done]. destruct (match pc with Some _ => _ | None => _ end); [done|]. intros [= <-].
  unfold local_flag in H2. destruct (last_ip (addr_iter out)) as [ip|] eqn:Eip; [|done]. exists (addr_iter out), ip.
  by rewrite addr_iter_with.
Qed.

Lemma received_addresses source_ip peer l : is_local_source source_ip = true ->
  forall out, NoDup out -> Forall (lan_address peer) out ->
  let r := foldl (receive_address empty source_ip peer) out l in
  NoDup r /\ Forall (lan_address peer) r /\ (length r <= length out + length l)%nat /\ forall x, x ∈ out -> x ∈ r.
Proof.
  intros Hsrc. induction l as [|e l IH]; intros out Hnd Hout; cbn [foldl].
  { split_and!; [done|done|cbn; lia|done]. }
  assert (H : NoDup (receive_address empty source_ip peer out e) /\ Forall (lan_address peer) (receive_address empty source_ip peer out e) /\
    (length (receive_address empty source_ip peer out e) <= S (length out))%nat /\ forall x, x ∈ out -> x ∈ receive_address empty source_ip peer out e).
  { unfold receive_address. destruct (addr_parse e) as [addr|]; [|by split_and!; [..|lia|]].
    destruct (normalize_received_addr empty addr source_ip peer) as [a|] eqn:E; [|by split_and!; [..|lia|]].
    case_decide as Hin; [by split_and!; [..|lia|]|]. split_and!.
    - apply NoDup_app. split_and!; [done|set_solver|by apply NoDup_singleton].
    - apply Forall_app. split; [done|]. constructor; [by eapply normalized_is_local|done].
    - rewrite length_app. cbn. lia.
    - set_solver. }
  destruct H as (H1 & H2 & H3 & H4). destruct (IH _ H1 H2) as (I1 & I2 & I3 & I4).
  split_and!; [done|done|cbn [length]; lia|auto].
Qed.

(** The shape of what a decoded beacon gives. *)
Definition beacon_ok (source : SocketAddr) (local_peer : PeerId) (r : LanDiscoveryReceive) : Prop :=
  is_local_source (sa_ip source) = true /\
  (forall s, reply_to r = Some s -> s = source /\ announcement r = None) /\
  (forall a, announcement r = Some a -> la_peer_id a ≠ local_peer /\ 0 < len (la_addresses a) <= MAX_LAN_ADVERTISED_ADDRS /\
     NoDup (la_addresses a) /\ Forall (lan_address (la_peer_id a)) (la_addresses a)).

Lemma decoded_ok payload source local_peer network_id protocol r :
  decode_beacon empty payload source local_peer network_id protocol = Some r -> beacon_ok source local_peer r.
Proof.
  unfold decode_beacon. destruct (is_local_source (sa_ip source)) eqn:Hsrc; cbn [negb]; [|done].
  destruct (json_from_slice payload) as [beacon|]; [|done]. destruct (_ || _); [done|].
  destruct (peer_parse (lb_peer_id beacon)) as [peer|]; [|done]. case_decide as Hne; [done|].
  destruct (lb_reply_requested beacon).
  - rewrite decide_True by done. intros [= <-]. split_and!; [done|by intros s [= <-]|done].
  - set (addrs := foldl _ _ _). destruct (received_addresses (sa_ip source) peer (take (Z.to_nat MAX_LAN_ADVERTISED_ADDRS) (lb_addresses beacon))
      Hsrc [] (NoDup_nil_2) (Forall_nil_2 _)) as (H1 & H2 & H3 & _). fold addrs in H1, H2, H3.
    case_decide as He; [done|]. intros [= <-]. split_and!; [done|done|]. intros a [= <-]. cbn [la_peer_id la_addresses].
    split_and!; [done| | |done|done].
    + unfold len. destruct addrs; [done|cbn; lia].
    + rewrite length_take in H3. unfold len, MAX_LAN_ADVERTISED_ADDRS in *. cbn [length] in H3. lia.
Qed.

(** C30: What a received beacon can make the node believe.  A beacon is accepted
    only from a local source, of the node's own version, network and application
    protocol, and never in the node's own name, be it a probe or an announcement;
    a probe is answered at its source and announces nothing; an announcement is
    answered nowhere, is about the peer that the beacon names and carries one to
    sixteen different addresses, each of which names that peer at its end, uses no
    relay and no unspecified address, and has a local address as its last IP
    component. *)
Theorem accepted_beacon_is_local payload source local_peer network_id protocol r :
  decode_beacon empty payload source local_peer network_id protocol = Some r ->
  is_local_source (sa_ip source) = true /\
  exists beacon peer, json_from_slice payload = Ok beacon /\ lb_version beacon = LAN_BEACON_VERSION /\
    lb_network_id beacon = network_id /\ lb_application_protocol beacon = protocol /\
    peer_parse (lb_peer_id beacon) = Ok peer /\ peer ≠ local_peer /\
    (if lb_reply_requested beacon then reply_to r = Some source /\ announcement r = None
     else reply_to r = None /\ exists a, announcement r = Some a /\ la_peer_id a = peer /\
       0 < len (la_addresses a) <= MAX_LAN_ADVERTISED_ADDRS /\ NoDup (la_addresses a) /\ Forall (lan_address peer) (la_addresses a)).
Proof.
  intros E. destruct (decoded_ok _ _ _ _ _ _ E) as (H1 & _ & H3). split; [done|].
  unfold decode_beacon in E. rewrite H1 in E. cbn [negb] in E. destruct (json_from_slice payload) as [beacon|]; [|done].
  destruct (_ || _) eqn:Eg; [done|]. apply orb_false_iff in Eg as [[?%negb_false_iff ?%negb_false_iff]%orb_false_iff ?%negb_false_iff].
  destruct (peer_parse (lb_peer_id beacon)) as [peer|] eqn:Ep; [|done]. case_decide as Hne; [done|].
  exists beacon, peer. split_and!; [done|by eapply bool_decide_eq_true..|done|done|].
  destruct (lb_reply_requested beacon); [rewrite decide_True in E by done; by injection E as <-|].
  case_decide; [done|]. injection E as <-. split; [done|]. eexists. split; [done|]. split; [done|]. by destruct (H3 _ eq_refl) as (_ & ? & ? & ?).
Qed.

Context {JL : SerdeJsonLaws LanBeacon J}.

Lemma encoded_beacon network_id protocol peer addresses reply payload :
  encode_beacon network_id protocol peer addresses reply = Ok payload ->
  len payload <= MAX_LAN_BEACON_BYTES /\ json_from_slice payload = Ok {|
    lb_version := LAN_BEACON_VERSION; lb_network_id := network_id; lb_application_protocol := protocol;
    lb_peer_id := peer_to_string peer; lb_addresses := addresses; lb_reply_requested := reply |}.
Proof.
  unfold encode_beacon. destruct (json_to_vec _) as [raw|] eqn:E; cbn [result_bind]; [|done]. case_decide; [done|]. intros [= <-].
  split; [lia|by apply json_roundtrip].
Qed.

Lemma decode_encoded network_id protocol peer local_peer addresses reply payload source :
  encode_beacon network_id protocol peer addresses reply = Ok payload -> is_local_source (sa_ip source) = true -> peer ≠ local_peer ->
  let found := foldl (receive_address empty (sa_ip source) peer) [] (take (Z.to_nat MAX_LAN_ADVERTISED_ADDRS) addresses) in
  decode_beacon empty payload source local_peer network_id protocol =
    if reply then Some {| announcement := None; reply_to := Some source |}
    else if decide (found = []) then None
    else Some {| announcement := Some {| la_peer_id := peer; la_addresses := found |}; reply_to := None |}.
Proof.
  intros (_ & E)%encoded_beacon Hsrc Hne found. unfold decode_beacon. rewrite Hsrc, E. cbn [negb].
  rewrite !bool_decide_eq_true_2 by done. cbn [negb orb lb_peer_id lb_reply_requested lb_addresses]. rewrite peer_parse_to_string.
  rewrite decide_False by done. destruct reply; [by rewrite decide_True|]. fold found. by case_decide.
Qed.

Lemma received_member source_ip peer x a l : normalize_received_addr empty x source_ip peer = Some a -> x ∈ l ->
  is_local_source source_ip = true -> forall out, NoDup out -> Forall (lan_address peer) out ->
  a ∈ foldl (receive_address empty source_ip peer) out (addr_to_string <$> l).
Proof.
  intros Hx Hin Hsrc. induction l as [|y l IH]; [set_solver|]. intros out Hnd Hout. cbn [fmap list_fmap foldl].
  destruct (received_addresses source_ip peer [addr_to_string y] Hsrc out Hnd Hout) as (H1 & H2 & _ & H4). cbn [foldl] in H1, H2, H4.
  apply elem_of_cons in Hin as [->|Hin]; [|by apply IH].
  destruct (received_addresses source_ip peer (addr_to_string <$> l) Hsrc _ H1 H2) as (_ & _ & _ & H). apply H.
  unfold receive_address. rewrite addr_parse_to_string, Hx. case_decide; set_solver.
Qed.

(** A component behind the host of a listener. *)
Definition transport (p : Protocol) : bool := match p with Ip4 _ | Ip6 _ | P2p _ | P2pCircuit => false | _ => true end.

(** Where a listener on [host] is reached by a node that hears of it from
    [source_ip]: on all interfaces of IPv4, at that source; at a local address,
    there. *)
Definition reached_at (source_ip : IpAddr) (host : Protocol) : option Protocol :=
  match host with
  | Ip4 ip =>
      if v4_is_unspecified ip then match source_ip with V4 source => Some (Ip4 source) | V6 _ => None end
      else if is_local_source (V4 ip) then Some host else None
  | Ip6 ip => if is_local_source (V6 ip) then Some host else None
  | _ => None
  end.

Lemma normalize_transports source_ip rest : Forall (fun p => transport p = true) rest -> forall out flag pc,
  exists out', normalize_loop source_ip out flag pc rest = Some (out', flag, pc) /\ addr_iter out' = addr_iter out ++ rest.
Proof.
  induction 1 as [|p rest Hp _ IH]; intros out flag pc; [exists out; by rewrite app_nil_r|].
  destruct (IH (addr_with out p) flag pc) as (out' & E & Ei). exists out'. rewrite addr_iter_with, <- app_assoc in Ei. split; [|done].
  destruct p; cbn [transport] in Hp; discriminate Hp || exact E.
Qed.

Lemma transport_no_circuit rest : Forall (fun p => transport p = true) rest -> existsb is_circuit rest = false.
Proof. induction 1 as [|p rest Hp _ IH]; [done|]. cbn [existsb]. rewrite IH. by destruct p. Qed.

Lemma local_v6_specified ip : is_local_source (V6 ip) = true -> v6_is_unspecified ip = false.
Proof. destruct ip as [segments]. intros H. unfold v6_is_unspecified. apply bool_decide_eq_false. cbn [ip6_segments]. intros ->. vm_compute in H. discriminate H. Qed.

Lemma normalized_listener listener source_ip peer host rest host' : is_local_source source_ip = true ->
  addr_iter listener = host :: rest -> Forall (fun p => transport p = true) rest -> reached_at source_ip host = Some host' ->
  exists a, normalize_received_addr empty listener source_ip peer = Some a /\ addr_iter a = host' :: rest ++ [P2p peer].
Proof.
  intros Hsrc Hiter Hrest Hreach. unfold normalize_received_addr. rewrite Hiter. cbn [existsb]. rewrite (transport_no_circuit rest Hrest).
  assert (is_circuit host = false) as -> by by destruct host. cbn [orb].
  assert (Hstep : normalize_loop source_ip empty false None (host :: rest) = normalize_loop source_ip (addr_with empty host') true None rest).
  { destruct host; cbn [reached_at] in Hreach; try discriminate Hreach; cbn [normalize_loop].
    - destruct (v4_is_unspecified ip); [destruct source_ip; [|done]; injection Hreach as <-; by rewrite Hsrc|].
      destruct (is_local_source (V4 ip)); [by injection Hreach as <-|done].
    - destruct (is_local_source (V6 ip)) eqn:El; [|done]. injection Hreach as <-. by rewrite (local_v6_specified ip El). }
  rewrite Hstep. destruct (normalize_transports source_ip rest Hrest (addr_with empty host') true None) as (out & -> & Ei). cbn [negb orb].
  eexists. split; [done|]. by rewrite addr_iter_with, Ei, addr_iter_with, empty_iter.
Qed.

(** A listener on all interfaces of IPv6 is advertised but dropped by whoever
    receives the beacon. *)
Theorem v6_wildcard_is_dropped listener ip rest source_ip peer :
  addr_iter listener = Ip6 ip :: rest -> v6_is_unspecified ip = true -> normalize_received_addr empty listener source_ip peer = None.
Proof. intros Hiter Hu. unfold normalize_received_addr. rewrite Hiter. cbn [normalize_loop]. rewrite Hu. by case_match. Qed.

(** C31: A listener is found.  When a node announces itself whose first sixteen
    advertisable listeners include one on all interfaces of IPv4 or at a local
    address of either family, whatever its transport (TCP, UDP with QUIC or WebRTC,
    WebSocket), a node with the same network and protocol that receives the beacon
    from a local source (an IPv4 one, for a listener on all interfaces) gets an
    announcement of the sender, and among its addresses one that it can dial: the
    listener's address with the source in the place of the wildcard and the sender's
    peer id at the end.  (A listener on all interfaces of IPv6 is dropped:
    [v6_wildcard_is_dropped].) *)
Theorem announced_listener_is_found {W} {U : UdpSocket W} network_id protocol peer local_peer listeners listener host rest host' payload source (w w' : W) :
  encode_beacon network_id protocol peer (collect_advertised_addresses listeners) false = Ok payload ->
  listener ∈ take (Z.to_nat MAX_LAN_ADVERTISED_ADDRS) (filter (fun a => is_lan_advertisable_addr a = true) listeners) ->
  addr_iter listener = host :: rest -> Forall (fun p => transport p = true) rest ->
  udp_recv w = (Ok (payload, source), w') -> is_local_source (sa_ip source) = true -> reached_at (sa_ip source) host = Some host' ->
  peer ≠ local_peer ->
  exists a, lan_recv empty local_peer network_id protocol w = (Ok (Some {| announcement := Some a; reply_to := None |}), w') /\
    la_peer_id a = peer /\ exists x, x ∈ la_addresses a /\ addr_iter x = host' :: rest ++ [P2p peer].
Proof.
  intros Henc Hin Hiter Hrest Hrecv Hlocal Hreach Hne. destruct (encoded_beacon _ _ _ _ _ _ Henc) as [Hlen _].
  unfold lan_recv. rewrite Hrecv. rewrite take_ge by (unfold len, MAX_LAN_BEACON_BYTES in *; lia).
  rewrite (decode_encoded _ _ _ _ _ _ _ _ Henc) by done.
  destruct (normalized_listener listener (sa_ip source) peer host rest host' Hlocal Hiter Hrest Hreach) as (x & Hx & Ei).
  set (found := foldl _ _ _).
  assert (Ha : x ∈ found).
  { unfold found, collect_advertised_addresses. rewrite <- fmap_take, take_take, Nat.min_id.
    apply (received_member (sa_ip source) peer listener); [done|done|done|constructor|constructor]. }
  rewrite decide_False by (intros E; rewrite E in Ha; set_solver).
  exists {| la_peer_id := peer; la_addresses := found |}. split_and!; [done|done|]. by exists x.
Qed.

(** One probe, one reply.  A probe makes its receiver answer at the probe's source and
    nothing else; the answer, and every periodic announcement, asks for no answer, so
    that beacons cannot set off a storm of replies. *)
Theorem probe_is_answered_once network_id protocol peer local_peer addresses reply payload source r :
  encode_beacon network_id protocol peer addresses reply = Ok payload ->
  is_local_source (sa_ip source) = true -> peer ≠ local_peer ->
  decode_beacon empty payload source local_peer network_id protocol = Some r ->
  reply_to r = (if reply then Some source else None) /\ (reply = true -> announcement r = None).
Proof.
  intros Henc Hsrc Hne. rewrite (decode_encoded _ _ _ _ _ _ _ _ Henc Hsrc Hne). destruct reply; [by intros [= <-]|].
  case_decide; [done|]. by intros [= <-].
Qed.
End beacons.

Section confined.
Context {P : PeerIdLib} {PL : PeerIdLaws P} {M : MultiaddrLib} {ML : MultiaddrLaws M} {J : SerdeJson LanBeacon}.
Context {RZ : RendezvousLib} {S2 : Sha256Lib} `{!HashIter PeerId}.
Context (empty : Multiaddr) (empty_iter : addr_iter empty = []).
Context {W : Type} {U : UdpSocket W}.

(** What the swarm may be told because of a beacon of [peer]. *)
Definition lan_action (peer : PeerId) (x : SwarmAction) : Prop :=
  x = AllowDcutrPeer peer \/ exists a, lan_address peer a /\ (x = KadAddAddress peer a \/ x = AddPeerAddress peer a).

Lemma namespaces_frame env peer l c :
  let c' := foldl (fun c namespace => upd_cn_book (fun b => record_namespace b peer namespace LanDiscovery (ce_now env)) c) c l in
  cn_actions c' = cn_actions c /\ cn_pending c' = cn_pending c /\ cn_stats c' = cn_stats c.
Proof. cbn. revert c. induction l as [|n l IH]; intros c; [done|]. cbn [foldl]. destruct (IH (upd_cn_book (fun b => record_namespace b peer n LanDiscovery (ce_now env)) c)) as (-> & -> & ->). done. Qed.

Lemma addresses_frame now peer l c :
  let c' := foldl (lan_record_addr now peer) c l in
  cn_actions c' = cn_actions c ++ mjoin (add_peer_address_to_discovery peer <$> l) /\ cn_pending c' = cn_pending c /\ cn_stats c' = cn_stats c.
Proof.
  cbn. revert c. induction l as [|a l IH]; intros c; [by rewrite app_nil_r|]. cbn [foldl].
  destruct (IH (lan_record_addr now peer c a)) as (H1 & H2 & H3). rewrite H1, H2, H3.
  unfold lan_record_addr. cbn [cn_actions upd_cn_actions upd_cn_book upd_cn_cache_writes]. by rewrite <- app_assoc.
Qed.

Lemma auto_dial_pending env enabled book pending peer q : q ≠ peer ->
  (env_auto_dial env enabled book pending peer).2 !! q = pending !! q.
Proof.
  intros Hq. unfold env_auto_dial, auto_dial_peer_from_book. repeat case_match; try done; simplify_eq; cbn [snd]; try done.
  all: match goal with H : dial_connection_plan _ _ _ _ = (_, _) |- _ => unfold dial_connection_plan in H; case_match; simplify_eq; try done end.
  all: unfold track_remaining; cbn [target_peer build_peer_book_connection_plan_with_capabilities]; by rewrite lookup_insert_ne.
Qed.

Lemma registrations_local peer l : Forall (lan_address peer) l -> Forall (lan_action peer) (mjoin (add_peer_address_to_discovery peer <$> l)).
Proof.
  induction 1 as [|a l Ha _ IH]; [constructor|]. cbn. apply Forall_cons; split; [|apply Forall_cons; split; [|done]]; right; exists a; auto.
Qed.

Lemma announcement_confined env auto_connect a o c o' c' : Forall (lan_address (la_peer_id a)) (la_addresses a) ->
  handle_lan_announcement env auto_connect a o c = (o', c') ->
  c' = c \/
  exists peer acts, peer ≠ de_local (ce_dial env) /\ cn_actions c' = cn_actions c ++ acts /\ Forall (lan_action peer) acts /\
    (forall q, q ≠ peer -> cn_pending c' !! q = cn_pending c !! q) /\
    (is_suppressed (cn_stats c) peer = true -> cn_pending c' = cn_pending c) /\
    (PeerBook.record (cn_book c) peer = None -> pb_len (cn_book c) < MAX_LAN_DISCOVERED_PEERS).
Proof.
  intros Hall. unfold handle_lan_announcement. set (peer := la_peer_id a) in *. destruct (_ || _) eqn:Eg; [intros [= <- <-]; by left|].
  apply orb_false_iff in Eg as [Hne%bool_decide_eq_false Hfull].
  set (c1 := upd_cn_actions _ c). set (c2 := foldl _ c1 _). set (c3 := foldl _ c2 _).
  destruct (namespaces_frame env peer (ce_namespaces env) c1) as (A1 & B1 & D1). fold c2 in A1, B1, D1.
  destruct (addresses_frame (ce_now env) peer (la_addresses a) c2) as (A2 & B2 & D2). fold c3 in A2, B2, D2.
  assert (Hacts : cn_actions c3 = cn_actions c ++ [AllowDcutrPeer peer] ++ mjoin (add_peer_address_to_discovery peer <$> la_addresses a)).
  { rewrite A2, A1. cbn. by rewrite <- app_assoc. }
  assert (Hstats : cn_stats c3 = cn_stats c) by (rewrite D2, D1; done).
  assert (Hpend : cn_pending c3 = cn_pending c) by (rewrite B2, B1; done).
  assert (Hrec : PeerBook.record (cn_book c) peer = None -> pb_len (cn_book c) < MAX_LAN_DISCOVERED_PEERS).
  { intros Hn. apply andb_false_iff in Hfull as [H|H]; apply bool_decide_eq_false in H; [done|lia]. }
  assert (Hforall : Forall (lan_action peer) ([AllowDcutrPeer peer] ++ mjoin (add_peer_address_to_discovery peer <$> la_addresses a))).
  { apply Forall_cons. split; [by left|by apply registrations_local]. }
  rewrite Hstats. destruct (is_suppressed (cn_stats c) peer) eqn:Es.
  - intros [= <- <-]. right. exists peer, ([AllowDcutrPeer peer] ++ mjoin (add_peer_address_to_discovery peer <$> la_addresses a)).
    split_and!; try done. by rewrite Hpend.
  - destruct (env_auto_dial _ _ _ _ _) as [outcome pending] eqn:Ed. intros [= <- <-]. right.
    exists peer, ([AllowDcutrPeer peer] ++ mjoin (add_peer_address_to_discovery peer <$> la_addresses a)). split_and!; try done.
    + intros q Hq. cbn [cn_pending upd_cn_pending upd_cn_stats]. rewrite <- Hpend. pose proof (auto_dial_pending (ce_dial env) auto_connect (cn_book c3) (cn_pending c3) peer q Hq) as H.
      by rewrite Ed in H.
    + by rewrite Es.
Qed.

(** Beacons stay on the local network.  Whatever datagram arrives, what the node tells the
    swarm because of it concerns one peer other than itself: an allowance for direct
    upgrades, and local addresses that name that peer; no other peer's pending
    connection changes, a peer the user has disconnected is not dialled, and when the
    peer book is full a beacon of an unknown peer changes nothing. *)
Theorem beacon_effects_confined text env auto_connect network_id listeners o c (w : W) o' c' w' :
  lan_received text empty env auto_connect network_id listeners o c w = (o', c', w') ->
  c' = c \/
  exists peer acts, peer ≠ de_local (ce_dial env) /\ cn_actions c' = cn_actions c ++ acts /\ Forall (lan_action peer) acts /\
    (forall q, q ≠ peer -> cn_pending c' !! q = cn_pending c !! q) /\
    (is_suppressed (cn_stats c) peer = true -> cn_pending c' = cn_pending c) /\
    (PeerBook.record (cn_book c) peer = None -> pb_len (cn_book c) < MAX_LAN_DISCOVERED_PEERS).
Proof.
  unfold lan_received. destruct (lan_recv _ _ _ _ _) as [[[r|]|e] w1] eqn:Er; [|by intros [= <- <- <-]; left..].
  destruct (match reply_to r with Some _ => _ | None => _ end) as [o1 w2]. destruct (announcement r) as [a|] eqn:Ea; [|by intros [= <- <- <-]; left].
  destruct (handle_lan_announcement _ _ _ _ _) as [o2 c2] eqn:Eh. intros [= <- <- <-].
  assert (Hok : exists source, beacon_ok source (de_local (ce_dial env)) r).
  { unfold lan_recv in Er. destruct (udp_recv w) as [[[datagram source]|] w3]; [|done]. injection Er as Er <-. exists source. by eapply decoded_ok. }
  destruct Hok as (source & _ & _ & Ha). destruct (Ha a Ea) as (_ & _ & _ & Hall). eapply announcement_confined; done.
Qed.
End confined.
