(* ===== verification/Turn.v ===== *)
(** ICE servers and TURN (crates/connectivity/ice.rs, turn/, crates/node/turn.rs,
    crates/node/events/turn.rs) and the browser's ICE plan (crates/node/config/webrtc.rs):
    the URLs a browser may be given, the credentials a broker hands out and a client
    keeps, and how the two become the ICE configuration of a peer connection.  HTTP,
    the environment of secrets, HMAC minting and the TURN server itself are
    parameters. *)

From S2P Require Import Prelude Text Bytes BTree Common Relay RelayLimiter Addresses ConnectionStrategy Dns Observability.
From Stdlib Require Import Ascii Strings.Byte.
From stdpp Require Import pretty.

#[local] Open Scope Z_scope.

(** * ICE servers (ice.rs) *)

(** [str::split_once] of a character *)
Fixpoint split_once_chars (c : ascii) (l : list ascii) : option (list ascii * list ascii) :=
  match l with
  | [] => None
  | x :: l' => if decide (x = c) then Some ([], l') else prod_map (cons x) id <$> split_once_chars c l'
  end.
Definition split_once (c : ascii) (s : string) : option (string * string) :=
  prod_map text text <$> split_once_chars c (chars s).

Definition MAX_ICE_URL_LEN : Z := 512.

Record IceServer := { ice_urls : list string; ice_username : option string; ice_credential : option string }.
#[global] Instance IceServer_eq_dec : EqDecision IceServer.
Proof. solve_decision. Defined.

Inductive IceTransportPolicy : Type := PolicyAll | PolicyRelay.
#[global] Instance IceTransportPolicy_eq_dec : EqDecision IceTransportPolicy.
Proof. solve_decision. Defined.

Inductive IceScheme : Type := Stun | Stuns | Turn | Turns.
#[global] Instance IceScheme_eq_dec : EqDecision IceScheme.
Proof. solve_decision. Defined.

Definition IceScheme_parse (raw : string) : option IceScheme :=
  let name := to_ascii_lowercase raw in
  if decide (name = "stun") then Some Stun
  else if decide (name = "stuns") then Some Stuns
  else if decide (name = "turn") then Some Turn
  else if decide (name = "turns") then Some Turns
  else None.

Definition scheme_is_turn (s : IceScheme) : bool := match s with Turn | Turns => true | _ => false end.

Record IceUrl := { iu_scheme : IceScheme; iu_host : string; iu_port : option Z }.

Definition parse_port (raw : string) : result Z string :=
  match parse_unsigned u16_max raw with
  | Some port => if decide (port = 0) then Err "has an invalid port" else Ok port
  | None => Err "has an invalid port"
  end.

Definition split_authority (authority : string) : result (string * option string) string :=
  match str_strip_prefix "[" authority with
  | Some bracketed =>
      let? (host, tail) := ok_or (split_once "]" bracketed) "has an unclosed IPv6 host" in
      if decide (tail = "") then Ok (host, None)
      else let? port := ok_or (str_strip_prefix ":" tail) "has an invalid port" in Ok (host, Some port)
  | None =>
      match split_once ":" authority with
      | Some (host, port) => Ok (host, Some port)
      | None => Ok (authority, None)
      end
  end.

Definition split_host_port (authority : string) : result (string * option Z) string :=
  let? (host, port) := split_authority authority in
  match port with
  | None => Ok (host, None)
  | Some raw => let? p := parse_port raw in Ok (host, Some p)
  end.

Definition host_char (c : ascii) : bool :=
  is_ascii_alphanumeric c || bool_decide (c = "."%char) || bool_decide (c = "-"%char) || bool_decide (c = ":"%char).

Definition IceUrl_parse (url : string) : result IceUrl string :=
  if decide (MAX_ICE_URL_LEN < str_len url) then Err "is too long"
  else
    let? (scheme, rest) := ok_or (split_once ":" url) "is missing a scheme" in
    let? scheme := ok_or (IceScheme_parse scheme) "must use stun:, stuns:, turn: or turns:" in
    let '(authority, query) := default (rest, "") (split_once "?" rest) in
    if negb (bool_decide (query = "")) && negb (bool_decide (query = "transport=udp" \/ query = "transport=tcp"))
    then Err "has an unsupported query (only transport=udp|tcp)"
    else if negb (bool_decide (query = "")) && negb (scheme_is_turn scheme) then Err "transport= is only valid on TURN urls"
    else
      let? (host, port) := split_host_port authority in
      if bool_decide (host = "") || negb (forallb host_char (chars host)) then Err "has an invalid host"
      else Ok {| iu_scheme := scheme; iu_host := to_ascii_lowercase host; iu_port := port |}.

Definition IceServer_stun (url : string) : IceServer := {| ice_urls := [url]; ice_username := None; ice_credential := None |}.

Definition with_urls (urls : list string) (s : IceServer) : IceServer := {|
  ice_urls := urls; ice_username := ice_username s; ice_credential := ice_credential s |}.

Definition has_credentials (s : IceServer) : bool :=
  bool_decide (is_Some (ice_username s)) && bool_decide (is_Some (ice_credential s)).

Definition validate_url (field : string) (s : IceServer) (url : string) : result unit NetError :=
  let? parsed := map_err (IceUrl_parse url) (fun reason => config_error (field +:+ ": `" +:+ url +:+ "` " +:+ reason)) in
  if scheme_is_turn (iu_scheme parsed) && negb (has_credentials s)
  then Err (config_error (field +:+ ": TURN url `" +:+ url +:+ "` needs username and credential"))
  else Ok tt.

Definition IceServer_validate (field : string) (s : IceServer) : result unit NetError :=
  if decide (ice_urls s = []) then Err (config_error (field +:+ ": urls must not be empty"))
  else try_for_each (validate_url field s) (ice_urls s).

Definition parsed_urls (s : IceServer) : list IceUrl := omap (fun url => ok (IceUrl_parse url)) (ice_urls s).
Definition server_is_turn (s : IceServer) : bool := existsb (fun u => scheme_is_turn (iu_scheme u)) (parsed_urls s).
Definition server_hosts (s : IceServer) : list string := iu_host <$> parsed_urls s.

Definition url_is_turn (url : string) : bool := match IceUrl_parse url with Ok u => scheme_is_turn (iu_scheme u) | Err _ => false end.
Definition url_is_stun (url : string) : bool := match IceUrl_parse url with Ok u => negb (scheme_is_turn (iu_scheme u)) | Err _ => false end.
Definition url_not_port (port : Z) (url : string) : bool :=
  match IceUrl_parse url with Ok u => negb (bool_decide (iu_port u = Some port)) | Err _ => true end.

Definition unless_empty (s : IceServer) : option IceServer := if decide (ice_urls s = []) then None else Some s.

Definition without_port (port : Z) (s : IceServer) : option IceServer :=
  unless_empty (with_urls (filter (fun u => url_not_port port u = true) (ice_urls s)) s).
Definition turn_only (s : IceServer) : option IceServer :=
  unless_empty (with_urls (filter (fun u => url_is_turn u = true) (ice_urls s)) s).
Definition stun_only (s : IceServer) : option IceServer :=
  unless_empty {| ice_urls := filter (fun u => url_is_stun u = true) (ice_urls s); ice_username := None; ice_credential := None |}.

(** * Secrets (turn/secret.rs) *)
Inductive SecretRef : Type := SecretEnvVar (name : string) | SecretFile (path : string) | SecretValue (value : string).

Class SecretEnv := { read_env : string -> result string string; read_file : string -> result string string }.

Definition SecretRef_validate (field : string) (s : SecretRef) : result unit NetError :=
  let raw := match s with SecretEnvVar raw | SecretFile raw | SecretValue raw => raw end in
  if decide (trim raw = "") then Err (config_error (field +:+ " must not be empty")) else Ok tt.

Definition SecretRef_resolve {SE : SecretEnv} (s : SecretRef) : result string string :=
  let? secret := match s with
    | SecretValue value => Ok value | SecretEnvVar name => read_env name | SecretFile path => read_file path end in
  let secret := trim secret in
  if decide (secret = "") then Err "secret is empty" else Ok secret.

(** * Credentials (turn/credentials.rs) *)
Definition MAX_ICE_SERVERS_PER_SOURCE : Z := 8.
Definition DEFAULT_CREDENTIAL_TTL_SECS : Z := 3600.
Definition MIN_CREDENTIAL_TTL_SECS : Z := 60.
Definition MAX_CREDENTIAL_TTL_SECS : Z := 172800.

Record TurnCredentials := { tc_ice_servers : list IceServer; tc_ttl : option Z }.

Definition ttl_secs (c : TurnCredentials) : Z :=
  Z.min (Z.max (default DEFAULT_CREDENTIAL_TTL_SECS (tc_ttl c)) MIN_CREDENTIAL_TTL_SECS) MAX_CREDENTIAL_TTL_SECS.

Definition usable (s : IceServer) : bool := is_ok (IceServer_validate "iceServers" s).

(** The number of entries dropped, and what is left. *)
Definition sanitize (c : TurnCredentials) : Z * TurnCredentials :=
  let kept := take (Z.to_nat MAX_ICE_SERVERS_PER_SOURCE) (filter (fun s => usable s = true) (tc_ice_servers c)) in
  (len (tc_ice_servers c) - len kept, {| tc_ice_servers := kept; tc_ttl := Some (ttl_secs c) |}).

Definition has_turn (c : TurnCredentials) : bool := existsb server_is_turn (tc_ice_servers c).

(** * Providers (turn/provider.rs, provider/) *)
Definition CLOUDFLARE_TURN_HOST : string := "turn.cloudflare.com".
Definition BROWSER_BLOCKED_PORT : Z := 53.

Record HttpProviderConfig := { hp_url : string; hp_bearer_token : option SecretRef; hp_timeout_secs : Z }.
Record CloudflareProviderConfig := { cf_key_id : string; cf_api_token : SecretRef; cf_api_base : string; cf_timeout_secs : Z }.
Record SharedSecretProviderConfig := { ss_urls : list string; ss_secret : SecretRef }.

Inductive TurnProviderConfig : Type :=
| HttpProvider (c : HttpProviderConfig)
| CloudflareProvider (c : CloudflareProviderConfig)
| SharedSecretProvider (c : SharedSecretProviderConfig).

Definition provider_name (p : TurnProviderConfig) : string :=
  match p with HttpProvider _ => "http" | CloudflareProvider _ => "cloudflare" | SharedSecretProvider _ => "shared_secret" end.

Definition validate_endpoint_url {U : UrlLib} (field raw : string) : result unit NetError :=
  let? url := map_err (url_parse raw) (fun err => config_error (field +:+ " `" +:+ raw +:+ "` is not a URL: " +:+ err)) in
  let local_dev := bool_decide (url_scheme url = "http") &&
    bool_decide (url_host_str url = Some "localhost" \/ url_host_str url = Some "127.0.0.1" \/ url_host_str url = Some "[::1]") in
  if negb (bool_decide (url_scheme url = "https")) && negb local_dev
  then Err (config_error (field +:+ " must use https (http is allowed only for localhost)")) else Ok tt.

Definition validate_timeout (field : string) (timeout_secs : Z) : result unit NetError :=
  if decide (1 <= timeout_secs <= 30) then Ok tt else Err (config_error (field +:+ ".timeout_secs must be between 1 and 30")).

Definition http_validate {U : UrlLib} (field : string) (c : HttpProviderConfig) : result unit NetError :=
  let? _ := validate_endpoint_url (field +:+ ".url") (hp_url c) in
  let? _ := match hp_bearer_token c with Some token => SecretRef_validate (field +:+ ".bearer_token") token | None => Ok tt end in
  validate_timeout field (hp_timeout_secs c).

Definition cloudflare_validate {U : UrlLib} (field : string) (c : CloudflareProviderConfig) : result unit NetError :=
  if bool_decide (cf_key_id c = "") || negb (forallb (fun x => is_ascii_alphanumeric x || bool_decide (x = "-"%char)) (chars (cf_key_id c)))
  then Err (config_error (field +:+ ".key_id must be the Cloudflare TURN key ID (letters, digits, '-')"))
  else
    let? _ := SecretRef_validate (field +:+ ".api_token") (cf_api_token c) in
    let? _ := validate_endpoint_url (field +:+ ".api_base") (cf_api_base c) in
    validate_timeout field (cf_timeout_secs c).

Definition shared_ice_server (c : SharedSecretProviderConfig) (username credential : string) : IceServer := {|
  ice_urls := ss_urls c; ice_username := Some username; ice_credential := Some credential |}.

Definition shared_validate (field : string) (c : SharedSecretProviderConfig) : result unit NetError :=
  let? _ := SecretRef_validate (field +:+ ".secret") (ss_secret c) in
  let template := shared_ice_server c "u" "c" in
  let? _ := IceServer_validate (field +:+ ".urls") template in
  if negb (server_is_turn template) then Err (config_error (field +:+ ".urls must include at least one turn: or turns: URL")) else Ok tt.

Definition provider_validate {U : UrlLib} (field : string) (p : TurnProviderConfig) : result unit NetError :=
  match p with
  | HttpProvider c => http_validate field c
  | CloudflareProvider c => cloudflare_validate field c
  | SharedSecretProvider c => shared_validate field c
  end.

Definition provider_trusted_hosts (p : TurnProviderConfig) : list string :=
  match p with
  | HttpProvider _ => []
  | CloudflareProvider _ => [CLOUDFLARE_TURN_HOST]
  | SharedSecretProvider c => server_hosts (shared_ice_server c "" "")
  end.

(** [mint] is [turn::auth::generate_long_term_credentials], a secret and a lifetime in
    seconds to a user name and a password; [from_slice] decodes the JSON contract. *)
Section issue.
Context {SE : SecretEnv} {W : Type} {N : Network W}.
Context (mint : string -> Z -> result (string * string) string) (from_slice : list byte -> result TurnCredentials string).

Definition http_issue (c : HttpProviderConfig) : io W TurnCredentials :=
  let request := JsonRequest_get (hp_url c) (hp_timeout_secs c) in
  let* request := match hp_bearer_token c with
    | Some token => let* secret := io_lift (SecretRef_resolve token) in io_ret (rq_header "authorization" ("Bearer " +:+ secret) request)
    | None => io_ret request
    end in
  fetch_json from_slice request.

Definition cloudflare_endpoint (c : CloudflareProviderConfig) : string :=
  trim_end_char "/" (cf_api_base c) +:+ "/v1/turn/keys/" +:+ cf_key_id c +:+ "/credentials/generate-ice-servers".

Definition cloudflare_issue (c : CloudflareProviderConfig) (ttl_secs : Z) : io W TurnCredentials :=
  let ttl := Z.min ttl_secs MAX_CREDENTIAL_TTL_SECS in
  let body := String quote ("ttl" +:+ String quote (":" +:+ pretty ttl)) in
  let* token := io_lift (SecretRef_resolve (cf_api_token c)) in
  let request := rq_header "authorization" ("Bearer " +:+ token)
    (JsonRequest_post (cloudflare_endpoint c) ("{" +:+ body +:+ "}") (cf_timeout_secs c)) in
  let* credentials := fetch_json from_slice request in
  io_ret {| tc_ice_servers := omap (without_port BROWSER_BLOCKED_PORT) (tc_ice_servers credentials);
            tc_ttl := Some (default ttl (tc_ttl credentials)) |}.

Definition shared_issue (c : SharedSecretProviderConfig) (ttl_secs : Z) : result TurnCredentials string :=
  let? secret := SecretRef_resolve (ss_secret c) in
  let? (username, credential) := map_err (mint secret ttl_secs) (fun err => "cannot mint TURN credentials: " +:+ err) in
  Ok {| tc_ice_servers := [shared_ice_server c username credential]; tc_ttl := Some ttl_secs |}.

Definition provider_issue (p : TurnProviderConfig) (ttl_secs : Z) : io W TurnCredentials :=
  let* credentials := match p with
    | HttpProvider c => http_issue c
    | CloudflareProvider c => cloudflare_issue c ttl_secs
    | SharedSecretProvider c => io_lift (shared_issue c ttl_secs)
    end in
  let credentials := (sanitize credentials).2 in
  if decide (tc_ice_servers credentials = [])
  then io_fail (provider_name p +:+ " provider returned no usable ICE servers") else io_ret credentials.
End issue.

(** * Background refresh (turn/refresh.rs)

    [rf_slot] is the shared slot a detached fetch writes its result to. *)
Definition FIRST_RETRY : Z := from_secs 30.
Definition MAX_RETRY : Z := from_secs 600.

Record ProviderRefresher := {
  rf_provider : TurnProviderConfig;
  rf_ttl_secs : Z;
  rf_slot : option (result TurnCredentials string);
  rf_in_flight : bool;
  rf_next_due : Z;
  rf_failures : Z;
}.

Definition upd_rf_slot (g : option (result TurnCredentials string) -> option (result TurnCredentials string)) (s : ProviderRefresher) : ProviderRefresher := {|
  rf_provider := rf_provider s; rf_ttl_secs := rf_ttl_secs s; rf_slot := g (rf_slot s);
  rf_in_flight := rf_in_flight s; rf_next_due := rf_next_due s; rf_failures := rf_failures s |}.
Definition upd_rf_in_flight (g : bool -> bool) (s : ProviderRefresher) : ProviderRefresher := {|
  rf_provider := rf_provider s; rf_ttl_secs := rf_ttl_secs s; rf_slot := rf_slot s;
  rf_in_flight := g (rf_in_flight s); rf_next_due := rf_next_due s; rf_failures := rf_failures s |}.
Definition upd_rf_next_due (g : Z -> Z) (s : ProviderRefresher) : ProviderRefresher := {|
  rf_provider := rf_provider s; rf_ttl_secs := rf_ttl_secs s; rf_slot := rf_slot s;
  rf_in_flight := rf_in_flight s; rf_next_due := g (rf_next_due s); rf_failures := rf_failures s |}.
Definition upd_rf_failures (g : Z -> Z) (s : ProviderRefresher) : ProviderRefresher := {|
  rf_provider := rf_provider s; rf_ttl_secs := rf_ttl_secs s; rf_slot := rf_slot s;
  rf_in_flight := rf_in_flight s; rf_next_due := rf_next_due s; rf_failures := g (rf_failures s) |}.

Definition ProviderRefresher_new (provider : TurnProviderConfig) (ttl_secs now : Z) : ProviderRefresher := {|
  rf_provider := provider; rf_ttl_secs := ttl_secs; rf_slot := None; rf_in_flight := false; rf_next_due := now; rf_failures := 0 |}.

(** Whether a fetch was spawned. *)
Definition start_if_due (now : Z) (r : ProviderRefresher) : bool * ProviderRefresher :=
  if rf_in_flight r || bool_decide (now < rf_next_due r) then (false, r) else (true, upd_rf_in_flight (fun _ => true) r).

(** The spawned task stores what [provider.issue] returned. *)
Definition fetch_finished (res : result TurnCredentials string) (r : ProviderRefresher) : ProviderRefresher :=
  upd_rf_slot (fun _ => Some res) r.

Definition delay_after (res : result TurnCredentials string) (r : ProviderRefresher) : Z * ProviderRefresher :=
  match res with
  | Ok credentials => (from_secs (ttl_secs credentials) * 3 / 4, upd_rf_failures (fun _ => 0) r)
  | Err _ =>
      (Z.min (FIRST_RETRY * 2 ^ Z.min (rf_failures r) 5) MAX_RETRY, upd_rf_failures (fun n => sat_add u32_max n 1) r)
  end.

Definition take_result (now : Z) (r : ProviderRefresher) : option (result TurnCredentials string) * ProviderRefresher :=
  match rf_slot r with
  | None => (None, r)
  | Some res =>
      let r := upd_rf_in_flight (fun _ => false) (upd_rf_slot (fun _ => None) r) in
      let '(delay, r) := delay_after res r in
      (Some res, upd_rf_next_due (fun _ => now + delay) r)
  end.

(** * Client configuration (turn/config/client.rs) *)
Definition MAX_ICE_SERVERS : Z := 8.

Inductive TurnSource : Type := Libp2p | SelfHosted | Cloudflare | Http.
#[global] Instance TurnSource_eq_dec : EqDecision TurnSource.
Proof. solve_decision. Defined.
Definition source_code (s : TurnSource) : Z := match s with Libp2p => 0 | SelfHosted => 1 | Cloudflare => 2 | Http => 3 end.
Definition source_of_code (n : Z) : TurnSource :=
  if decide (n = 0) then Libp2p else if decide (n = 1) then SelfHosted else if decide (n = 2) then Cloudflare else Http.
#[global] Instance TurnSource_countable : Countable TurnSource.
Proof. apply (inj_countable' source_code source_of_code). by intros []. Defined.

Definition AUTO_ORDER : list TurnSource := [SelfHosted; Libp2p; Http; Cloudflare].
Definition source_as_str (s : TurnSource) : string :=
  match s with Libp2p => "libp2p" | SelfHosted => "self_hosted" | Cloudflare => "cloudflare" | Http => "http" end.

Inductive DiscoveryTrust : Type := SameHost | AnyBroker.

Record TurnClientConfig := {
  tk_enabled : bool; tk_auto_discover : bool; tk_providers : option (list TurnSource); tk_servers : list IceServer;
  tk_cloudflare : option HttpProviderConfig; tk_http : option HttpProviderConfig; tk_discovery_trust : DiscoveryTrust;
  tk_trusted_hosts : list string; tk_max_servers : Z; tk_credential_ttl_secs : Z }.

Definition TurnClientConfig_default : TurnClientConfig := {|
  tk_enabled := true; tk_auto_discover := true; tk_providers := None; tk_servers := []; tk_cloudflare := None; tk_http := None;
  tk_discovery_trust := SameHost; tk_trusted_hosts := []; tk_max_servers := 4;
  tk_credential_ttl_secs := DEFAULT_CREDENTIAL_TTL_SECS |}.

Definition client_endpoint (c : TurnClientConfig) (s : TurnSource) : option HttpProviderConfig :=
  match s with Cloudflare => tk_cloudflare c | Http => tk_http c | Libp2p | SelfHosted => None end.

Definition is_configured (c : TurnClientConfig) (s : TurnSource) : bool :=
  match s with
  | Libp2p => tk_auto_discover c
  | SelfHosted => negb (bool_decide (tk_servers c = []))
  | Cloudflare | Http => match client_endpoint c s with Some _ => true | None => false end
  end.

Definition sources (c : TurnClientConfig) : list TurnSource :=
  if negb (tk_enabled c) then []
  else match tk_providers c with
  | Some explicit => explicit
  | None => filter (fun s => is_configured c s = true) AUTO_ORDER
  end.

Definition has_explicit_sources (c : TurnClientConfig) : bool :=
  bool_decide (is_Some (tk_providers c)) || existsb (is_configured c) [SelfHosted; Cloudflare; Http].

Definition discovery (c : TurnClientConfig) : option DiscoveryTrust :=
  if decide (Libp2p ∈ sources c) then Some (tk_discovery_trust c) else None.

(** [sort] and [dedup] leave the set of hosts, which is all that is read of it. *)
Definition accepted_provider_hosts (c : TurnClientConfig) : gset string :=
  list_to_set (((fun host => to_ascii_lowercase (trim host)) <$> tk_trusted_hosts c) ++ [CLOUDFLARE_TURN_HOST]).

Definition config_key (s : TurnSource) : string :=
  match s with Libp2p => "auto_discover" | SelfHosted => "servers" | Cloudflare => "cloudflare" | Http => "http" end.

Definition missing_hint (s : TurnSource) : string :=
  match s with
  | Libp2p => " (turn.client.auto_discover is false)"
  | SelfHosted => " (turn.client.servers is empty)"
  | Cloudflare => " (set turn.client.cloudflare.url to a credential endpoint such as providers/turn/cloudflare)"
  | Http => " (set turn.client.http.url)"
  end.

Definition validate_ttl (field : string) (ttl : Z) : result unit NetError :=
  if decide (MIN_CREDENTIAL_TTL_SECS <= ttl <= MAX_CREDENTIAL_TTL_SECS) then Ok tt
  else Err (config_error (field +:+ " must be between " +:+ pretty MIN_CREDENTIAL_TTL_SECS +:+ " and " +:+ pretty MAX_CREDENTIAL_TTL_SECS)).

Definition validate_browser_endpoint {U : UrlLib} (s : TurnSource) (endpoint : HttpProviderConfig) : result unit NetError :=
  let field := "turn.client." +:+ config_key s in
  if bool_decide (is_Some (hp_bearer_token endpoint))
  then Err (config_error (field +:+ ".bearer_token would be shipped to every browser; protect the endpoint with "
    +:+ "ALLOWED_ORIGINS and rate limits, or put the provider on a broker node (turn.broker.provider)"))
  else http_validate field endpoint.

Definition validate_explicit_sources (c : TurnClientConfig) (explicit : list TurnSource) : result unit NetError :=
  if decide (explicit = [])
  then Err (config_error "turn.client.providers must not be empty; set turn.client.enabled to false to use no TURN")
  else if negb (bool_decide (Z.of_nat (size (list_to_set explicit : gset TurnSource)) = len explicit))
  then Err (config_error "turn.client.providers lists a source twice")
  else
    let? _ := try_for_each (fun s => if is_configured c s then Ok tt
      else Err (config_error ("turn.client.providers lists `" +:+ source_as_str s +:+ "`, which is not configured" +:+ missing_hint s))) explicit in
    try_for_each (fun s => if is_configured c s && negb (bool_decide (s ∈ explicit))
      then Err (config_error ("turn.client." +:+ config_key s +:+ " is configured but `" +:+ source_as_str s +:+ "` is missing from turn.client.providers"))
      else Ok tt) [SelfHosted; Cloudflare; Http].

Definition validate_static_server (index : Z) (s : IceServer) : result unit NetError :=
  let field := "turn.client.servers[" +:+ pretty index +:+ "]" in
  let? _ := IceServer_validate field s in
  if negb (server_is_turn s)
  then Err (config_error (field +:+ " has no turn:/turns: url; STUN servers belong in browser_webrtc.stun.servers")) else Ok tt.

(** [for (index, x) in l.iter().enumerate()] with an early return *)
Fixpoint try_enumerate {A E} (f : Z -> A -> result unit E) (index : Z) (l : list A) : result unit E :=
  match l with [] => Ok tt | x :: l' => let? _ := f index x in try_enumerate f (index + 1) l' end.

Definition TurnClientConfig_validate {U : UrlLib} (c : TurnClientConfig) : result unit NetError :=
  if negb (tk_enabled c) && has_explicit_sources c
  then Err (config_error "turn.client.enabled is false but TURN sources are configured; remove them or enable the client")
  else
    let? _ := try_enumerate validate_static_server 0 (tk_servers c) in
    let? _ := try_for_each (fun s => match client_endpoint c s with
      | Some endpoint => validate_browser_endpoint s endpoint | None => Ok tt end) [Cloudflare; Http] in
    let? _ := match tk_providers c with Some explicit => validate_explicit_sources c explicit | None => Ok tt end in
    if negb (bool_decide (1 <= tk_max_servers c <= MAX_ICE_SERVERS))
    then Err (config_error ("turn.client.max_servers must be between 1 and " +:+ pretty MAX_ICE_SERVERS))
    else if existsb (fun host => bool_decide (trim host = "")) (tk_trusted_hosts c)
    then Err (config_error "turn.client.trusted_hosts must not contain empty hosts")
    else validate_ttl "turn.client.credential_ttl_secs" (tk_credential_ttl_secs c).

(** * Server and broker configuration (turn/config.rs) *)
Record TurnServerConfig := {
  sv_enabled : bool; sv_bind_ip : string; sv_listen_port : Z; sv_public_ip : option string; sv_public_host : option string;
  sv_realm : string; sv_shared_secret : option SecretRef; sv_relay_port_min : Z; sv_relay_port_max : Z;
  sv_allow_private_peers : bool }.

Definition TurnServerConfig_default : TurnServerConfig := {|
  sv_enabled := false; sv_bind_ip := "0.0.0.0"; sv_listen_port := 3478; sv_public_ip := None; sv_public_host := None;
  sv_realm := "p2p-net"; sv_shared_secret := None; sv_relay_port_min := 49160; sv_relay_port_max := 49359;
  sv_allow_private_peers := false |}.

(** [IpAddr::from_str] and [Display] *)
Class IpText := { ip_parse : string -> option IpAddr; ip_text : IpAddr -> string }.

Definition validate_ip {I : IpText} (field raw : string) : result IpAddr NetError :=
  ok_or (ip_parse raw) (config_error (field +:+ " `" +:+ raw +:+ "` is not an IP address")).

Definition TurnServerConfig_validate {I : IpText} (c : TurnServerConfig) : result unit NetError :=
  if negb (sv_enabled c) then Ok tt
  else
    let? _ := validate_ip "turn.server.bind_ip" (sv_bind_ip c) in
    let? _ := match sv_public_ip c with Some ip => let? _ := validate_ip "turn.server.public_ip" ip in Ok tt | None => Ok tt end in
    let? _ := match sv_public_host c with
      | Some host =>
          if negb (bool_decide (host = "")) && forallb (fun x => is_ascii_alphanumeric x || bool_decide (x = "."%char) || bool_decide (x = "-"%char)) (chars host)
          then Ok tt else Err (config_error "turn.server.public_host must be a DNS name")
      | None => Ok tt
      end in
    if decide (sv_listen_port c = 0) then Err (config_error "turn.server.listen_port must not be 0")
    else if decide (trim (sv_realm c) = "") then Err (config_error "turn.server.realm must not be empty")
    else
      let? _ := match sv_shared_secret c with Some secret => SecretRef_validate "turn.server.shared_secret" secret | None => Ok tt end in
      if bool_decide (sv_relay_port_min c < 1024) || bool_decide (sv_relay_port_max c < sv_relay_port_min c)
      then Err (config_error "turn.server relay ports need 1024 <= relay_port_min <= relay_port_max")
      else if decide (sv_relay_port_min c <= sv_listen_port c <= sv_relay_port_max c)
      then Err (config_error "turn.server.listen_port must be outside the relay port range") else Ok tt.

Definition allocation_capacity (c : TurnServerConfig) : Z := sat_sub (sv_relay_port_max c) (sv_relay_port_min c) + 1.

Record TurnBrokerConfig := {
  bk_enabled : bool; bk_provider : option TurnProviderConfig; bk_credential_ttl_secs : Z; bk_max_requests_per_peer_per_minute : Z }.

Definition TurnBrokerConfig_default : TurnBrokerConfig := {|
  bk_enabled := false; bk_provider := None; bk_credential_ttl_secs := DEFAULT_CREDENTIAL_TTL_SECS; bk_max_requests_per_peer_per_minute := 6 |}.

Definition TurnBrokerConfig_validate {U : UrlLib} (server_enabled : bool) (c : TurnBrokerConfig) : result unit NetError :=
  if negb (bk_enabled c) then Ok tt
  else
    let? _ := match bk_provider c with
      | Some provider => provider_validate "turn.broker.provider" provider
      | None => if server_enabled then Ok tt
                else Err (config_error "turn.broker.enabled needs turn.broker.provider or turn.server.enabled")
      end in
    if negb (bool_decide (1 <= bk_max_requests_per_peer_per_minute c <= 600))
    then Err (config_error "turn.broker.max_requests_per_peer_per_minute must be between 1 and 600")
    else validate_ttl "turn.broker.credential_ttl_secs" (bk_credential_ttl_secs c).

Record TurnConfig := { turn_client : TurnClientConfig; turn_server : TurnServerConfig; turn_broker : TurnBrokerConfig }.
Definition TurnConfig_default : TurnConfig := {|
  turn_client := TurnClientConfig_default; turn_server := TurnServerConfig_default; turn_broker := TurnBrokerConfig_default |}.

Definition TurnConfig_validate {U : UrlLib} {I : IpText} (c : TurnConfig) : result unit NetError :=
  let? _ := TurnClientConfig_validate (turn_client c) in
  let? _ := TurnServerConfig_validate (turn_server c) in
  TurnBrokerConfig_validate (sv_enabled (turn_server c)) (turn_broker c).

(** * The browser's ICE plan (crates/node/config/webrtc.rs) *)
Definition MAX_STUN_SERVERS : Z := 4.

Record StunConfig := { st_enabled : bool; st_servers : list string }.
Record BrowserWebRtcConfig := {
  wr_enabled : bool; wr_ice_transport_policy : option IceTransportPolicy; wr_direct_connections : option bool;
  wr_stun : StunConfig; wr_ice_servers : list IceServer }.

Definition BrowserWebRtcConfig_default : BrowserWebRtcConfig := {|
  wr_enabled := true; wr_ice_transport_policy := None; wr_direct_connections := None;
  wr_stun := {| st_enabled := true; st_servers := [] |}; wr_ice_servers := [] |}.

Record BrowserIcePlan := { plan_policy : IceTransportPolicy; plan_stun_enabled : bool; plan_stun_servers : list IceServer }.

Definition effective_policy (c : BrowserWebRtcConfig) : IceTransportPolicy :=
  if bool_decide (wr_ice_transport_policy c = Some PolicyRelay) || bool_decide (wr_direct_connections c = Some false)
  then PolicyRelay else PolicyAll.

Definition stun_servers (c : BrowserWebRtcConfig) : list IceServer :=
  (IceServer_stun <$> st_servers (wr_stun c)) ++ omap stun_only (wr_ice_servers c).

Definition with_legacy_turn (c : BrowserWebRtcConfig) (k : TurnClientConfig) : TurnClientConfig := {|
  tk_enabled := tk_enabled k; tk_auto_discover := tk_auto_discover k; tk_providers := tk_providers k;
  tk_servers := tk_servers k ++ omap turn_only (wr_ice_servers c);
  tk_cloudflare := tk_cloudflare k; tk_http := tk_http k; tk_discovery_trust := tk_discovery_trust k;
  tk_trusted_hosts := tk_trusted_hosts k; tk_max_servers := tk_max_servers k; tk_credential_ttl_secs := tk_credential_ttl_secs k |}.

Definition ice_plan (c : BrowserWebRtcConfig) : BrowserIcePlan := {|
  plan_policy := effective_policy c; plan_stun_enabled := st_enabled (wr_stun c); plan_stun_servers := stun_servers c |}.

Definition has_settings (c : BrowserWebRtcConfig) : bool :=
  bool_decide (is_Some (wr_ice_transport_policy c)) || bool_decide (is_Some (wr_direct_connections c))
  || negb (bool_decide (st_servers (wr_stun c) = [])) || negb (bool_decide (wr_ice_servers c = [])).

Definition validate_stun_server (index : Z) (url : string) : result unit NetError :=
  let field := "browser_webrtc.stun.servers[" +:+ pretty index +:+ "]" in
  let server := IceServer_stun url in
  let? _ := IceServer_validate field server in
  if server_is_turn server then Err (config_error (field +:+ ": TURN servers belong in turn.client.servers")) else Ok tt.

Definition validate_servers (c : BrowserWebRtcConfig) : result unit NetError :=
  let? _ := try_enumerate validate_stun_server 0 (st_servers (wr_stun c)) in
  let? _ := try_enumerate (fun index => IceServer_validate ("browser_webrtc.ice_servers[" +:+ pretty index +:+ "]")) 0 (wr_ice_servers c) in
  let stun_count := len (stun_servers c) in
  if negb (st_enabled (wr_stun c)) && bool_decide (0 < stun_count)
  then Err (config_error "browser_webrtc.stun.enabled is false but STUN servers are listed")
  else if decide (MAX_STUN_SERVERS < stun_count)
  then Err (config_error ("browser_webrtc lists more than " +:+ pretty MAX_STUN_SERVERS +:+ " STUN servers")) else Ok tt.

Definition BrowserWebRtcConfig_validate (c : BrowserWebRtcConfig) : result unit NetError :=
  if negb (wr_enabled c) && has_settings c
  then Err (config_error "browser_webrtc.enabled is false, so its ICE, STUN and ice_servers settings would be ignored; remove them")
  else match wr_ice_transport_policy c, wr_direct_connections c with
  | Some PolicyRelay, Some true => Err (config_error "browser_webrtc.ice_transport_policy is `relay` but direct_connections is true; relay-only ICE never connects directly")
  | Some PolicyAll, Some false => Err (config_error "browser_webrtc.direct_connections is false but ice_transport_policy is `all`; use `relay` (or leave it unset)")
  | _, _ => validate_servers c
  end.

(** Push a server unless one with the same URLs is there. *)
Definition push_server (out : list IceServer) (s : IceServer) : list IceServer :=
  if existsb (fun e => bool_decide (ice_urls e = ice_urls s)) out then out else out ++ [s].

Definition compose_servers (plan : BrowserIcePlan) (turn_servers : list IceServer) : list IceServer :=
  let direct := bool_decide (plan_policy plan = PolicyAll) in
  let keep_stun := direct && plan_stun_enabled plan in
  let stun := if keep_stun then plan_stun_servers plan else [] in
  let turn := if keep_stun then turn_servers else omap turn_only turn_servers in
  foldl push_server [] (stun ++ turn).

(** * The client's server set (turn/client.rs) *)
Definition REQUEST_COOLDOWN : Z := from_secs 60.
Definition MAX_HOSTS_PER_PEER : Z := 8.
Definition MAX_TRACKED_PEERS : Z := 256.

Record LearnedServers := { ln_servers : list IceServer; ln_refresh_at : Z; ln_expires_at : Z }.

Definition LearnedServers_new (c : TurnCredentials) (now : Z) : LearnedServers :=
  let ttl := from_secs (ttl_secs c) in
  {| ln_servers := tc_ice_servers c; ln_refresh_at := now + ttl * 3 / 4; ln_expires_at := now + ttl |}.

Record BrokerOffer := { of_accepted : Z; of_rejected : Z }.

Section client.
Context {P : PeerIdLib} {M : MultiaddrLib} {I : IpText}.

Record TurnClientState := {
  ts_sources : list TurnSource;
  ts_static_servers : list IceServer;
  ts_discovery : option DiscoveryTrust;
  ts_accepted_hosts : gset string;
  ts_max_servers : Z;
  ts_ttl_secs : Z;
  ts_endpoints : gmap TurnSource LearnedServers;
  ts_brokers : gmap PeerId LearnedServers;
  ts_peer_hosts : gmap PeerId (list string);
  ts_requested_at : gmap PeerId Z;
  ts_unsupported : gset PeerId;
}.

Definition upd_ts_endpoints (g : gmap TurnSource LearnedServers -> gmap TurnSource LearnedServers) (s : TurnClientState) : TurnClientState := {|
  ts_sources := ts_sources s; ts_static_servers := ts_static_servers s; ts_discovery := ts_discovery s;
  ts_accepted_hosts := ts_accepted_hosts s; ts_max_servers := ts_max_servers s; ts_ttl_secs := ts_ttl_secs s;
  ts_endpoints := g (ts_endpoints s); ts_brokers := ts_brokers s; ts_peer_hosts := ts_peer_hosts s;
  ts_requested_at := ts_requested_at s; ts_unsupported := ts_unsupported s |}.
Definition upd_ts_brokers (g : gmap PeerId LearnedServers -> gmap PeerId LearnedServers) (s : TurnClientState) : TurnClientState := {|
  ts_sources := ts_sources s; ts_static_servers := ts_static_servers s; ts_discovery := ts_discovery s;
  ts_accepted_hosts := ts_accepted_hosts s; ts_max_servers := ts_max_servers s; ts_ttl_secs := ts_ttl_secs s;
  ts_endpoints := ts_endpoints s; ts_brokers := g (ts_brokers s); ts_peer_hosts := ts_peer_hosts s;
  ts_requested_at := ts_requested_at s; ts_unsupported := ts_unsupported s |}.
Definition upd_ts_peer_hosts (g : gmap PeerId (list string) -> gmap PeerId (list string)) (s : TurnClientState) : TurnClientState := {|
  ts_sources := ts_sources s; ts_static_servers := ts_static_servers s; ts_discovery := ts_discovery s;
  ts_accepted_hosts := ts_accepted_hosts s; ts_max_servers := ts_max_servers s; ts_ttl_secs := ts_ttl_secs s;
  ts_endpoints := ts_endpoints s; ts_brokers := ts_brokers s; ts_peer_hosts := g (ts_peer_hosts s);
  ts_requested_at := ts_requested_at s; ts_unsupported := ts_unsupported s |}.
Definition upd_ts_requested_at (g : gmap PeerId Z -> gmap PeerId Z) (s : TurnClientState) : TurnClientState := {|
  ts_sources := ts_sources s; ts_static_servers := ts_static_servers s; ts_discovery := ts_discovery s;
  ts_accepted_hosts := ts_accepted_hosts s; ts_max_servers := ts_max_servers s; ts_ttl_secs := ts_ttl_secs s;
  ts_endpoints := ts_endpoints s; ts_brokers := ts_brokers s; ts_peer_hosts := ts_peer_hosts s;
  ts_requested_at := g (ts_requested_at s); ts_unsupported := ts_unsupported s |}.
Definition upd_ts_unsupported (g : gset PeerId -> gset PeerId) (s : TurnClientState) : TurnClientState := {|
  ts_sources := ts_sources s; ts_static_servers := ts_static_servers s; ts_discovery := ts_discovery s;
  ts_accepted_hosts := ts_accepted_hosts s; ts_max_servers := ts_max_servers s; ts_ttl_secs := ts_ttl_secs s;
  ts_endpoints := ts_endpoints s; ts_brokers := ts_brokers s; ts_peer_hosts := ts_peer_hosts s;
  ts_requested_at := ts_requested_at s; ts_unsupported := g (ts_unsupported s) |}.

Definition TurnClientState_new (c : TurnClientConfig) : TurnClientState := {|
  ts_sources := sources c;
  ts_static_servers := if decide (SelfHosted ∈ sources c) then tk_servers c else [];
  ts_discovery := discovery c; ts_accepted_hosts := accepted_provider_hosts c; ts_max_servers := tk_max_servers c;
  ts_ttl_secs := tk_credential_ttl_secs c; ts_endpoints := ∅; ts_brokers := ∅; ts_peer_hosts := ∅; ts_requested_at := ∅;
  ts_unsupported := ∅ |}.

Fixpoint find_host (protocols : list Protocol) : option string :=
  match protocols with
  | [] => None
  | Ip4 ip :: _ => Some (ip_text (V4 ip))
  | Ip6 ip :: _ => Some (ip_text (V6 ip))
  | Dns name :: _ | Dns4 name :: _ | Dns6 name :: _ => Some (to_ascii_lowercase name)
  | _ :: rest => find_host rest
  end.
Definition multiaddr_host (addr : Multiaddr) : option string := find_host (addr_iter addr).

Definition is_relayed_remote (remote : Multiaddr) : bool := existsb (fun p => match p with P2pCircuit => true | _ => false end) (addr_iter remote).

Definition note_connection (peer : PeerId) (remote : Multiaddr) (s : TurnClientState) : TurnClientState :=
  if is_relayed_remote remote then s
  else match multiaddr_host remote with
  | None => s
  | Some host =>
      if bool_decide (ts_peer_hosts s !! peer = None) && bool_decide (MAX_TRACKED_PEERS <= Z.of_nat (size (ts_peer_hosts s))) then s
      else
        let hosts := default [] (ts_peer_hosts s !! peer) in
        let hosts := if negb (bool_decide (host ∈ hosts)) && bool_decide (len hosts < MAX_HOSTS_PER_PEER) then hosts ++ [host] else hosts in
        upd_ts_peer_hosts (<[peer := hosts]>) s
  end.

Definition forget_peer (peer : PeerId) (s : TurnClientState) : TurnClientState :=
  upd_ts_requested_at (delete peer) (upd_ts_peer_hosts (delete peer) s).

Definition should_request (peer : PeerId) (now : Z) (s : TurnClientState) : bool * TurnClientState :=
  if match ts_discovery s with None => true | Some _ => false end || bool_decide (peer ∈ ts_unsupported s) then (false, s)
  else
    let recently_asked := match ts_requested_at s !! peer with
      | Some at_ => bool_decide (duration_since now at_ < REQUEST_COOLDOWN) | None => false end in
    let still_fresh := match ts_brokers s !! peer with Some l => bool_decide (now < ln_refresh_at l) | None => false end in
    if recently_asked || still_fresh then (false, s) else (true, upd_ts_requested_at (<[peer := now]>) s).

Definition client_mark_unsupported (peer : PeerId) (s : TurnClientState) : TurnClientState :=
  upd_ts_requested_at (delete peer) (upd_ts_unsupported (fun u => {[peer]} ∪ u) s).

(** [BTreeMap::iter]: the keys in ascending order *)
Definition brokers_due (now : Z) (s : TurnClientState) : list PeerId :=
  filter (fun peer => match ts_brokers s !! peer with
    | Some l => bool_decide (ln_refresh_at l <= now) && bool_decide (is_Some (ts_peer_hosts s !! peer))
    | None => false end = true) (bt_iter (dom (ts_brokers s))).

Definition host_allowed (s : TurnClientState) (peer : PeerId) (server : IceServer) : bool :=
  match ts_discovery s with
  | None => false
  | Some AnyBroker => true
  | Some SameHost =>
      forallb (fun host => bool_decide (host ∈ ts_accepted_hosts s) ||
        match ts_peer_hosts s !! peer with Some hosts => bool_decide (host ∈ hosts) | None => false end) (server_hosts server)
  end.

Definition accept_from_broker (peer : PeerId) (c : TurnCredentials) (now : Z) (s : TurnClientState) : BrokerOffer * TurnClientState :=
  let '(dropped, c) := sanitize c in
  let offered := len (tc_ice_servers c) in
  let kept := filter (fun server => host_allowed s peer server = true) (tc_ice_servers c) in
  let c := {| tc_ice_servers := kept; tc_ttl := tc_ttl c |} in
  let accepted := len kept in
  ({| of_accepted := accepted; of_rejected := dropped + offered - accepted |},
   if decide (0 < accepted) then upd_ts_brokers (<[peer := LearnedServers_new c now]>) s else s).

Definition accept_from_endpoint (source : TurnSource) (c : TurnCredentials) (now : Z) (s : TurnClientState) : TurnClientState :=
  upd_ts_endpoints (<[source := LearnedServers_new c now]>) s.

Definition client_prune (now : Z) (s : TurnClientState) : bool * TurnClientState :=
  let before := Z.of_nat (size (ts_brokers s)) + Z.of_nat (size (ts_endpoints s)) in
  let s := upd_ts_endpoints (filter (fun e => now < ln_expires_at e.2)) (upd_ts_brokers (filter (fun e => now < ln_expires_at e.2)) s) in
  (negb (bool_decide (before = Z.of_nat (size (ts_brokers s)) + Z.of_nat (size (ts_endpoints s)))), s).

Definition servers_from (s : TurnClientState) (source : TurnSource) : list IceServer :=
  match source with
  | SelfHosted => ts_static_servers s
  | Libp2p => peer ← bt_iter (dom (ts_brokers s)); match ts_brokers s !! peer with Some l => ln_servers l | None => [] end
  | Cloudflare | Http => match ts_endpoints s !! source with Some l => ln_servers l | None => [] end
  end.

Fixpoint effective_loop (max_servers : Z) (out servers : list IceServer) : list IceServer :=
  match servers with
  | [] => out
  | s :: rest => if decide (len out = max_servers) then out else effective_loop max_servers (push_server out s) rest
  end.
Definition effective (s : TurnClientState) : list IceServer :=
  effective_loop (ts_max_servers s) [] (source ← ts_sources s; servers_from s source).

(** * The broker (turn/broker.rs) *)
Definition TURN_CREDENTIALS_PROTOCOL : string := "/p2p-net/turn-credentials/1.0.0".
Definition RATE_WINDOW : Z := from_secs 60.
Definition MAX_RATE_LIMITED_PEERS : Z := 4096.

Inductive CredentialResponse : Type := Granted (c : TurnCredentials) | Unavailable | RateLimited.

Record TurnBrokerStatus := {
  bs_sources : list string;
  bs_ready_sources : Z;
  bs_granted : Z;
  bs_rate_limited : Z;
  bs_unavailable : Z;
  bs_source_errors : Z;
  bs_last_error : option string;
}.

Definition upd_bs_sources (g : list string -> list string) (s : TurnBrokerStatus) : TurnBrokerStatus := {|
  bs_sources := g (bs_sources s); bs_ready_sources := bs_ready_sources s; bs_granted := bs_granted s;
  bs_rate_limited := bs_rate_limited s; bs_unavailable := bs_unavailable s;
  bs_source_errors := bs_source_errors s; bs_last_error := bs_last_error s |}.
Definition upd_bs_ready_sources (g : Z -> Z) (s : TurnBrokerStatus) : TurnBrokerStatus := {|
  bs_sources := bs_sources s; bs_ready_sources := g (bs_ready_sources s); bs_granted := bs_granted s;
  bs_rate_limited := bs_rate_limited s; bs_unavailable := bs_unavailable s;
  bs_source_errors := bs_source_errors s; bs_last_error := bs_last_error s |}.
Definition upd_bs_granted (g : Z -> Z) (s : TurnBrokerStatus) : TurnBrokerStatus := {|
  bs_sources := bs_sources s; bs_ready_sources := bs_ready_sources s; bs_granted := g (bs_granted s);
  bs_rate_limited := bs_rate_limited s; bs_unavailable := bs_unavailable s;
  bs_source_errors := bs_source_errors s; bs_last_error := bs_last_error s |}.
Definition upd_bs_rate_limited (g : Z -> Z) (s : TurnBrokerStatus) : TurnBrokerStatus := {|
  bs_sources := bs_sources s; bs_ready_sources := bs_ready_sources s; bs_granted := bs_granted s;
  bs_rate_limited := g (bs_rate_limited s); bs_unavailable := bs_unavailable s;
  bs_source_errors := bs_source_errors s; bs_last_error := bs_last_error s |}.
Definition upd_bs_unavailable (g : Z -> Z) (s : TurnBrokerStatus) : TurnBrokerStatus := {|
  bs_sources := bs_sources s; bs_ready_sources := bs_ready_sources s; bs_granted := bs_granted s;
  bs_rate_limited := bs_rate_limited s; bs_unavailable := g (bs_unavailable s);
  bs_source_errors := bs_source_errors s; bs_last_error := bs_last_error s |}.
Definition upd_bs_source_errors (g : Z -> Z) (s : TurnBrokerStatus) : TurnBrokerStatus := {|
  bs_sources := bs_sources s; bs_ready_sources := bs_ready_sources s; bs_granted := bs_granted s;
  bs_rate_limited := bs_rate_limited s; bs_unavailable := bs_unavailable s;
  bs_source_errors := g (bs_source_errors s); bs_last_error := bs_last_error s |}.
Definition upd_bs_last_error (g : option string -> option string) (s : TurnBrokerStatus) : TurnBrokerStatus := {|
  bs_sources := bs_sources s; bs_ready_sources := bs_ready_sources s; bs_granted := bs_granted s;
  bs_rate_limited := bs_rate_limited s; bs_unavailable := bs_unavailable s;
  bs_source_errors := bs_source_errors s; bs_last_error := g (bs_last_error s) |}.

Definition TurnBrokerStatus_default : TurnBrokerStatus := {|
  bs_sources := []; bs_ready_sources := 0; bs_granted := 0; bs_rate_limited := 0; bs_unavailable := 0; bs_source_errors := 0;
  bs_last_error := None |}.

Record BrokerSource := { br_refresher : ProviderRefresher; br_cached : option LearnedServers }.

Record TurnBrokerState := {
  tb_sources : list BrokerSource;
  tb_ttl_secs : Z;
  tb_max_per_window : Z;
  tb_windows : gmap PeerId (Z * Z);
  tb_status : TurnBrokerStatus;
}.

Definition upd_tb_sources (g : list BrokerSource -> list BrokerSource) (s : TurnBrokerState) : TurnBrokerState := {|
  tb_sources := g (tb_sources s); tb_ttl_secs := tb_ttl_secs s; tb_max_per_window := tb_max_per_window s;
  tb_windows := tb_windows s; tb_status := tb_status s |}.
Definition upd_tb_windows (g : gmap PeerId (Z * Z) -> gmap PeerId (Z * Z)) (s : TurnBrokerState) : TurnBrokerState := {|
  tb_sources := tb_sources s; tb_ttl_secs := tb_ttl_secs s; tb_max_per_window := tb_max_per_window s;
  tb_windows := g (tb_windows s); tb_status := tb_status s |}.
Definition upd_tb_status (g : TurnBrokerStatus -> TurnBrokerStatus) (s : TurnBrokerState) : TurnBrokerState := {|
  tb_sources := tb_sources s; tb_ttl_secs := tb_ttl_secs s; tb_max_per_window := tb_max_per_window s;
  tb_windows := tb_windows s; tb_status := g (tb_status s) |}.

Definition add_broker_source (provider : TurnProviderConfig) (now : Z) (b : TurnBrokerState) : TurnBrokerState :=
  let b := upd_tb_status (upd_bs_sources (fun l => l ++ [provider_name provider])) b in
  upd_tb_sources (fun l => l ++ [{| br_refresher := ProviderRefresher_new provider (tb_ttl_secs b) now; br_cached := None |}]) b.

Definition TurnBrokerState_new (c : TurnBrokerConfig) (now : Z) : TurnBrokerState :=
  let b := {| tb_sources := []; tb_ttl_secs := bk_credential_ttl_secs c; tb_max_per_window := bk_max_requests_per_peer_per_minute c;
              tb_windows := ∅; tb_status := TurnBrokerStatus_default |} in
  match bk_provider c with Some provider => add_broker_source provider now b | None => b end.

(** One source of [maintain]: its pulse lines, the status, the source. *)
Definition maintain_source (now : Z) (st : TurnBrokerStatus) (src : BrokerSource) : list string * TurnBrokerStatus * BrokerSource :=
  let '(res, refresher) := take_result now (br_refresher src) in
  let name := provider_name (rf_provider refresher) in
  let '(pulses, st, cached) := match res with
    | None => ([], st, br_cached src)
    | Some (Ok c) =>
        (["TURN_BROKER_REFRESHED source=" +:+ name +:+ " servers=" +:+ pretty (len (tc_ice_servers c)) +:+ " ttl=" +:+ pretty (ttl_secs c)],
         st, Some (LearnedServers_new c now))
    | Some (Err error) =>
        (["TURN_BROKER_SOURCE_FAILED source=" +:+ name +:+ " error=" +:+ error],
         upd_bs_last_error (fun _ => Some error) (upd_bs_source_errors (fun n => sat_add usize_max n 1) st), br_cached src)
    end in
  let '(_, refresher) := start_if_due now refresher in
  let cached := match cached with Some l => if decide (ln_expires_at l <= now) then None else cached | None => None end in
  (pulses, st, {| br_refresher := refresher; br_cached := cached |}).

Fixpoint maintain_sources (now : Z) (st : TurnBrokerStatus) (l : list BrokerSource) : list string * TurnBrokerStatus * list BrokerSource :=
  match l with
  | [] => ([], st, [])
  | src :: l' =>
      let '(pulses, st, src) := maintain_source now st src in
      let '(pulses', st, l') := maintain_sources now st l' in
      (pulses ++ pulses', st, src :: l')
  end.

Definition is_ready (src : BrokerSource) : bool := match br_cached src with Some _ => true | None => false end.

Definition broker_maintain (now : Z) (b : TurnBrokerState) : list string * TurnBrokerState :=
  let '(pulses, st, l) := maintain_sources now (tb_status b) (tb_sources b) in
  let st := upd_bs_ready_sources (fun _ => len (filter (fun s => is_ready s = true) l)) st in
  (pulses, upd_tb_status (fun _ => st) (upd_tb_sources (fun _ => l) b)).

Definition admit_request (peer : PeerId) (now : Z) (b : TurnBrokerState) : bool * TurnBrokerState :=
  let windows := if decide (MAX_RATE_LIMITED_PEERS <= Z.of_nat (size (tb_windows b)))
    then filter (fun e => duration_since now e.2.1 < RATE_WINDOW) (tb_windows b) else tb_windows b in
  let window := default (now, 0) (windows !! peer) in
  let window := if decide (RATE_WINDOW <= duration_since now window.1) then (now, 0) else window in
  if decide (tb_max_per_window b <= window.2) then (false, upd_tb_windows (fun _ => <[peer := window]> windows) b)
  else (true, upd_tb_windows (fun _ => <[peer := (window.1, window.2 + 1)]> windows) b).

Definition min_remaining (now : Z) (live : list LearnedServers) : option Z :=
  match (fun l => duration_since (ln_expires_at l) now / 1000000000) <$> live with
  | [] => None
  | x :: rest => Some (foldl Z.min x rest)
  end.

Definition broker_answer (peer : PeerId) (now : Z) (b : TurnBrokerState) : CredentialResponse * TurnBrokerState :=
  let '(admitted, b) := admit_request peer now b in
  if negb admitted then (RateLimited, upd_tb_status (upd_bs_rate_limited (fun n => sat_add usize_max n 1)) b)
  else
    let live := filter (fun l => now < ln_expires_at l) (omap br_cached (tb_sources b)) in
    match min_remaining now live with
    | None => (Unavailable, upd_tb_status (upd_bs_unavailable (fun n => sat_add usize_max n 1)) b)
    | Some remaining =>
        (Granted {| tc_ice_servers := l ← live; ln_servers l; tc_ttl := Some remaining |},
         upd_tb_status (upd_bs_granted (fun n => sat_add usize_max n 1)) b)
    end.
End client.

(** * Status (turn/status.rs) *)
Inductive TurnServerState : Type := ServerDisabled | WaitingForPublicIp | ServerRunning | ServerFailed.
Definition server_state_as_str (s : TurnServerState) : string :=
  match s with
  | ServerDisabled => "disabled" | WaitingForPublicIp => "waiting_for_public_ip" | ServerRunning => "running" | ServerFailed => "failed"
  end.

Record TurnSnapshot := {
  tn_ice_servers : Z;
  tn_turn_servers : Z;
  tn_ice_transport_policy : string;
  tn_stun_enabled : bool;
  tn_client_sources : list string;
  tn_discovery : string;
  tn_client_endpoints_active : Z;
  tn_client_endpoint_errors : Z;
  tn_broker_peers : Z;
  tn_credential_requests_sent : Z;
  tn_credential_servers_accepted : Z;
  tn_credential_servers_rejected : Z;
  tn_server_state : TurnServerState;
  tn_server_listen : option string;
  tn_server_urls : list string;
  tn_server_allocations : Z;
  tn_server_allocation_capacity : Z;
  tn_server_error : option string;
  tn_broker_enabled : bool;
  tn_broker : TurnBrokerStatus;
}.

Definition upd_tn_ice_servers (g : Z -> Z) (s : TurnSnapshot) : TurnSnapshot := {|
  tn_ice_servers := g (tn_ice_servers s); tn_turn_servers := tn_turn_servers s;
  tn_ice_transport_policy := tn_ice_transport_policy s; tn_stun_enabled := tn_stun_enabled s;
  tn_client_sources := tn_client_sources s; tn_discovery := tn_discovery s;
  tn_client_endpoints_active := tn_client_endpoints_active s;
  tn_client_endpoint_errors := tn_client_endpoint_errors s; tn_broker_peers := tn_broker_peers s;
  tn_credential_requests_sent := tn_credential_requests_sent s;
  tn_credential_servers_accepted := tn_credential_servers_accepted s;
  tn_credential_servers_rejected := tn_credential_servers_rejected s; tn_server_state := tn_server_state s;
  tn_server_listen := tn_server_listen s; tn_server_urls := tn_server_urls s;
  tn_server_allocations := tn_server_allocations s;
  tn_server_allocation_capacity := tn_server_allocation_capacity s; tn_server_error := tn_server_error s;
  tn_broker_enabled := tn_broker_enabled s; tn_broker := tn_broker s |}.
Definition upd_tn_turn_servers (g : Z -> Z) (s : TurnSnapshot) : TurnSnapshot := {|
  tn_ice_servers := tn_ice_servers s; tn_turn_servers := g (tn_turn_servers s);
  tn_ice_transport_policy := tn_ice_transport_policy s; tn_stun_enabled := tn_stun_enabled s;
  tn_client_sources := tn_client_sources s; tn_discovery := tn_discovery s;
  tn_client_endpoints_active := tn_client_endpoints_active s;
  tn_client_endpoint_errors := tn_client_endpoint_errors s; tn_broker_peers := tn_broker_peers s;
  tn_credential_requests_sent := tn_credential_requests_sent s;
  tn_credential_servers_accepted := tn_credential_servers_accepted s;
  tn_credential_servers_rejected := tn_credential_servers_rejected s; tn_server_state := tn_server_state s;
  tn_server_listen := tn_server_listen s; tn_server_urls := tn_server_urls s;
  tn_server_allocations := tn_server_allocations s;
  tn_server_allocation_capacity := tn_server_allocation_capacity s; tn_server_error := tn_server_error s;
  tn_broker_enabled := tn_broker_enabled s; tn_broker := tn_broker s |}.
Definition upd_tn_client_endpoints_active (g : Z -> Z) (s : TurnSnapshot) : TurnSnapshot := {|
  tn_ice_servers := tn_ice_servers s; tn_turn_servers := tn_turn_servers s;
  tn_ice_transport_policy := tn_ice_transport_policy s; tn_stun_enabled := tn_stun_enabled s;
  tn_client_sources := tn_client_sources s; tn_discovery := tn_discovery s;
  tn_client_endpoints_active := g (tn_client_endpoints_active s);
  tn_client_endpoint_errors := tn_client_endpoint_errors s; tn_broker_peers := tn_broker_peers s;
  tn_credential_requests_sent := tn_credential_requests_sent s;
  tn_credential_servers_accepted := tn_credential_servers_accepted s;
  tn_credential_servers_rejected := tn_credential_servers_rejected s; tn_server_state := tn_server_state s;
  tn_server_listen := tn_server_listen s; tn_server_urls := tn_server_urls s;
  tn_server_allocations := tn_server_allocations s;
  tn_server_allocation_capacity := tn_server_allocation_capacity s; tn_server_error := tn_server_error s;
  tn_broker_enabled := tn_broker_enabled s; tn_broker := tn_broker s |}.
Definition upd_tn_client_endpoint_errors (g : Z -> Z) (s : TurnSnapshot) : TurnSnapshot := {|
  tn_ice_servers := tn_ice_servers s; tn_turn_servers := tn_turn_servers s;
  tn_ice_transport_policy := tn_ice_transport_policy s; tn_stun_enabled := tn_stun_enabled s;
  tn_client_sources := tn_client_sources s; tn_discovery := tn_discovery s;
  tn_client_endpoints_active := tn_client_endpoints_active s;
  tn_client_endpoint_errors := g (tn_client_endpoint_errors s); tn_broker_peers := tn_broker_peers s;
  tn_credential_requests_sent := tn_credential_requests_sent s;
  tn_credential_servers_accepted := tn_credential_servers_accepted s;
  tn_credential_servers_rejected := tn_credential_servers_rejected s; tn_server_state := tn_server_state s;
  tn_server_listen := tn_server_listen s; tn_server_urls := tn_server_urls s;
  tn_server_allocations := tn_server_allocations s;
  tn_server_allocation_capacity := tn_server_allocation_capacity s; tn_server_error := tn_server_error s;
  tn_broker_enabled := tn_broker_enabled s; tn_broker := tn_broker s |}.
Definition upd_tn_broker_peers (g : Z -> Z) (s : TurnSnapshot) : TurnSnapshot := {|
  tn_ice_servers := tn_ice_servers s; tn_turn_servers := tn_turn_servers s;
  tn_ice_transport_policy := tn_ice_transport_policy s; tn_stun_enabled := tn_stun_enabled s;
  tn_client_sources := tn_client_sources s; tn_discovery := tn_discovery s;
  tn_client_endpoints_active := tn_client_endpoints_active s;
  tn_client_endpoint_errors := tn_client_endpoint_errors s; tn_broker_peers := g (tn_broker_peers s);
  tn_credential_requests_sent := tn_credential_requests_sent s;
  tn_credential_servers_accepted := tn_credential_servers_accepted s;
  tn_credential_servers_rejected := tn_credential_servers_rejected s; tn_server_state := tn_server_state s;
  tn_server_listen := tn_server_listen s; tn_server_urls := tn_server_urls s;
  tn_server_allocations := tn_server_allocations s;
  tn_server_allocation_capacity := tn_server_allocation_capacity s; tn_server_error := tn_server_error s;
  tn_broker_enabled := tn_broker_enabled s; tn_broker := tn_broker s |}.
Definition upd_tn_credential_requests_sent (g : Z -> Z) (s : TurnSnapshot) : TurnSnapshot := {|
  tn_ice_servers := tn_ice_servers s; tn_turn_servers := tn_turn_servers s;
  tn_ice_transport_policy := tn_ice_transport_policy s; tn_stun_enabled := tn_stun_enabled s;
  tn_client_sources := tn_client_sources s; tn_discovery := tn_discovery s;
  tn_client_endpoints_active := tn_client_endpoints_active s;
  tn_client_endpoint_errors := tn_client_endpoint_errors s; tn_broker_peers := tn_broker_peers s;
  tn_credential_requests_sent := g (tn_credential_requests_sent s);
  tn_credential_servers_accepted := tn_credential_servers_accepted s;
  tn_credential_servers_rejected := tn_credential_servers_rejected s; tn_server_state := tn_server_state s;
  tn_server_listen := tn_server_listen s; tn_server_urls := tn_server_urls s;
  tn_server_allocations := tn_server_allocations s;
  tn_server_allocation_capacity := tn_server_allocation_capacity s; tn_server_error := tn_server_error s;
  tn_broker_enabled := tn_broker_enabled s; tn_broker := tn_broker s |}.
Definition upd_tn_credential_servers_accepted (g : Z -> Z) (s : TurnSnapshot) : TurnSnapshot := {|
  tn_ice_servers := tn_ice_servers s; tn_turn_servers := tn_turn_servers s;
  tn_ice_transport_policy := tn_ice_transport_policy s; tn_stun_enabled := tn_stun_enabled s;
  tn_client_sources := tn_client_sources s; tn_discovery := tn_discovery s;
  tn_client_endpoints_active := tn_client_endpoints_active s;
  tn_client_endpoint_errors := tn_client_endpoint_errors s; tn_broker_peers := tn_broker_peers s;
  tn_credential_requests_sent := tn_credential_requests_sent s;
  tn_credential_servers_accepted := g (tn_credential_servers_accepted s);
  tn_credential_servers_rejected := tn_credential_servers_rejected s; tn_server_state := tn_server_state s;
  tn_server_listen := tn_server_listen s; tn_server_urls := tn_server_urls s;
  tn_server_allocations := tn_server_allocations s;
  tn_server_allocation_capacity := tn_server_allocation_capacity s; tn_server_error := tn_server_error s;
  tn_broker_enabled := tn_broker_enabled s; tn_broker := tn_broker s |}.
Definition upd_tn_credential_servers_rejected (g : Z -> Z) (s : TurnSnapshot) : TurnSnapshot := {|
  tn_ice_servers := tn_ice_servers s; tn_turn_servers := tn_turn_servers s;
  tn_ice_transport_policy := tn_ice_transport_policy s; tn_stun_enabled := tn_stun_enabled s;
  tn_client_sources := tn_client_sources s; tn_discovery := tn_discovery s;
  tn_client_endpoints_active := tn_client_endpoints_active s;
  tn_client_endpoint_errors := tn_client_endpoint_errors s; tn_broker_peers := tn_broker_peers s;
  tn_credential_requests_sent := tn_credential_requests_sent s;
  tn_credential_servers_accepted := tn_credential_servers_accepted s;
  tn_credential_servers_rejected := g (tn_credential_servers_rejected s); tn_server_state := tn_server_state s;
  tn_server_listen := tn_server_listen s; tn_server_urls := tn_server_urls s;
  tn_server_allocations := tn_server_allocations s;
  tn_server_allocation_capacity := tn_server_allocation_capacity s; tn_server_error := tn_server_error s;
  tn_broker_enabled := tn_broker_enabled s; tn_broker := tn_broker s |}.
Definition upd_tn_server_state (g : TurnServerState -> TurnServerState) (s : TurnSnapshot) : TurnSnapshot := {|
  tn_ice_servers := tn_ice_servers s; tn_turn_servers := tn_turn_servers s;
  tn_ice_transport_policy := tn_ice_transport_policy s; tn_stun_enabled := tn_stun_enabled s;
  tn_client_sources := tn_client_sources s; tn_discovery := tn_discovery s;
  tn_client_endpoints_active := tn_client_endpoints_active s;
  tn_client_endpoint_errors := tn_client_endpoint_errors s; tn_broker_peers := tn_broker_peers s;
  tn_credential_requests_sent := tn_credential_requests_sent s;
  tn_credential_servers_accepted := tn_credential_servers_accepted s;
  tn_credential_servers_rejected := tn_credential_servers_rejected s; tn_server_state := g (tn_server_state s);
  tn_server_listen := tn_server_listen s; tn_server_urls := tn_server_urls s;
  tn_server_allocations := tn_server_allocations s;
  tn_server_allocation_capacity := tn_server_allocation_capacity s; tn_server_error := tn_server_error s;
  tn_broker_enabled := tn_broker_enabled s; tn_broker := tn_broker s |}.
Definition upd_tn_server_listen (g : option string -> option string) (s : TurnSnapshot) : TurnSnapshot := {|
  tn_ice_servers := tn_ice_servers s; tn_turn_servers := tn_turn_servers s;
  tn_ice_transport_policy := tn_ice_transport_policy s; tn_stun_enabled := tn_stun_enabled s;
  tn_client_sources := tn_client_sources s; tn_discovery := tn_discovery s;
  tn_client_endpoints_active := tn_client_endpoints_active s;
  tn_client_endpoint_errors := tn_client_endpoint_errors s; tn_broker_peers := tn_broker_peers s;
  tn_credential_requests_sent := tn_credential_requests_sent s;
  tn_credential_servers_accepted := tn_credential_servers_accepted s;
  tn_credential_servers_rejected := tn_credential_servers_rejected s; tn_server_state := tn_server_state s;
  tn_server_listen := g (tn_server_listen s); tn_server_urls := tn_server_urls s;
  tn_server_allocations := tn_server_allocations s;
  tn_server_allocation_capacity := tn_server_allocation_capacity s; tn_server_error := tn_server_error s;
  tn_broker_enabled := tn_broker_enabled s; tn_broker := tn_broker s |}.
Definition upd_tn_server_urls (g : list string -> list string) (s : TurnSnapshot) : TurnSnapshot := {|
  tn_ice_servers := tn_ice_servers s; tn_turn_servers := tn_turn_servers s;
  tn_ice_transport_policy := tn_ice_transport_policy s; tn_stun_enabled := tn_stun_enabled s;
  tn_client_sources := tn_client_sources s; tn_discovery := tn_discovery s;
  tn_client_endpoints_active := tn_client_endpoints_active s;
  tn_client_endpoint_errors := tn_client_endpoint_errors s; tn_broker_peers := tn_broker_peers s;
  tn_credential_requests_sent := tn_credential_requests_sent s;
  tn_credential_servers_accepted := tn_credential_servers_accepted s;
  tn_credential_servers_rejected := tn_credential_servers_rejected s; tn_server_state := tn_server_state s;
  tn_server_listen := tn_server_listen s; tn_server_urls := g (tn_server_urls s);
  tn_server_allocations := tn_server_allocations s;
  tn_server_allocation_capacity := tn_server_allocation_capacity s; tn_server_error := tn_server_error s;
  tn_broker_enabled := tn_broker_enabled s; tn_broker := tn_broker s |}.
Definition upd_tn_server_allocations (g : Z -> Z) (s : TurnSnapshot) : TurnSnapshot := {|
  tn_ice_servers := tn_ice_servers s; tn_turn_servers := tn_turn_servers s;
  tn_ice_transport_policy := tn_ice_transport_policy s; tn_stun_enabled := tn_stun_enabled s;
  tn_client_sources := tn_client_sources s; tn_discovery := tn_discovery s;
  tn_client_endpoints_active := tn_client_endpoints_active s;
  tn_client_endpoint_errors := tn_client_endpoint_errors s; tn_broker_peers := tn_broker_peers s;
  tn_credential_requests_sent := tn_credential_requests_sent s;
  tn_credential_servers_accepted := tn_credential_servers_accepted s;
  tn_credential_servers_rejected := tn_credential_servers_rejected s; tn_server_state := tn_server_state s;
  tn_server_listen := tn_server_listen s; tn_server_urls := tn_server_urls s;
  tn_server_allocations := g (tn_server_allocations s);
  tn_server_allocation_capacity := tn_server_allocation_capacity s; tn_server_error := tn_server_error s;
  tn_broker_enabled := tn_broker_enabled s; tn_broker := tn_broker s |}.
Definition upd_tn_server_error (g : option string -> option string) (s : TurnSnapshot) : TurnSnapshot := {|
  tn_ice_servers := tn_ice_servers s; tn_turn_servers := tn_turn_servers s;
  tn_ice_transport_policy := tn_ice_transport_policy s; tn_stun_enabled := tn_stun_enabled s;
  tn_client_sources := tn_client_sources s; tn_discovery := tn_discovery s;
  tn_client_endpoints_active := tn_client_endpoints_active s;
  tn_client_endpoint_errors := tn_client_endpoint_errors s; tn_broker_peers := tn_broker_peers s;
  tn_credential_requests_sent := tn_credential_requests_sent s;
  tn_credential_servers_accepted := tn_credential_servers_accepted s;
  tn_credential_servers_rejected := tn_credential_servers_rejected s; tn_server_state := tn_server_state s;
  tn_server_listen := tn_server_listen s; tn_server_urls := tn_server_urls s;
  tn_server_allocations := tn_server_allocations s;
  tn_server_allocation_capacity := tn_server_allocation_capacity s; tn_server_error := g (tn_server_error s);
  tn_broker_enabled := tn_broker_enabled s; tn_broker := tn_broker s |}.
Definition upd_tn_broker (g : TurnBrokerStatus -> TurnBrokerStatus) (s : TurnSnapshot) : TurnSnapshot := {|
  tn_ice_servers := tn_ice_servers s; tn_turn_servers := tn_turn_servers s;
  tn_ice_transport_policy := tn_ice_transport_policy s; tn_stun_enabled := tn_stun_enabled s;
  tn_client_sources := tn_client_sources s; tn_discovery := tn_discovery s;
  tn_client_endpoints_active := tn_client_endpoints_active s;
  tn_client_endpoint_errors := tn_client_endpoint_errors s; tn_broker_peers := tn_broker_peers s;
  tn_credential_requests_sent := tn_credential_requests_sent s;
  tn_credential_servers_accepted := tn_credential_servers_accepted s;
  tn_credential_servers_rejected := tn_credential_servers_rejected s; tn_server_state := tn_server_state s;
  tn_server_listen := tn_server_listen s; tn_server_urls := tn_server_urls s;
  tn_server_allocations := tn_server_allocations s;
  tn_server_allocation_capacity := tn_server_allocation_capacity s; tn_server_error := tn_server_error s;
  tn_broker_enabled := tn_broker_enabled s; tn_broker := g (tn_broker s) |}.

(** * The built-in server (turn/server.rs) *)
Record RunningTurnServer := { rt_listen : string; rt_credentials : SharedSecretProviderConfig }.

Definition advertised_host {I : IpText} (c : TurnServerConfig) (relay_ip : IpAddr) : string :=
  match sv_public_host c, relay_ip with
  | Some host, _ => host
  | None, V6 _ => "[" +:+ ip_text relay_ip +:+ "]"
  | None, V4 _ => ip_text relay_ip
  end.

(** [random_secret] is the secret drawn for the run; [bind] gives the text and the port of
    the bound socket's address, [serve] starts the library's server. *)
Definition RunningTurnServer_start {I : IpText} {SE : SecretEnv} (random_secret : string)
    (bind : IpAddr -> Z -> result (string * Z) string) (serve : string -> result unit string)
    (c : TurnServerConfig) (relay_ip : IpAddr) : result RunningTurnServer string :=
  let? secret := match sv_shared_secret c with Some secret => SecretRef_resolve secret | None => Ok random_secret end in
  let? bind_ip := ok_or (ip_parse (sv_bind_ip c)) ("invalid turn.server.bind_ip " +:+ sv_bind_ip c) in
  let? (listen, port) := map_err (bind bind_ip (sv_listen_port c)) (fun err =>
    "cannot bind TURN UDP " +:+ ip_text bind_ip +:+ ":" +:+ pretty (sv_listen_port c) +:+ ": " +:+ err) in
  let? _ := map_err (serve secret) (fun err => "cannot start TURN server: " +:+ err) in
  let host := advertised_host c relay_ip in
  Ok {| rt_listen := listen; rt_credentials := {|
    ss_urls := ["stun:" +:+ host +:+ ":" +:+ pretty port; "turn:" +:+ host +:+ ":" +:+ pretty port +:+ "?transport=udp"];
    ss_secret := SecretValue secret |} |}.

(** [PublicPeersOnly::send_to] over the filter of the address classes; [send] is the inner
    connection's. *)
Definition relay_send_to {A} (allow_private_peers : bool) (send : A) (refused : string -> A) (target : IpAddr) (target_text : string) : A :=
  if allow_private_peers then send
  else match ensure_public target target_text with Ok _ => send | Err e => refused e end.

(** * The runtime (crates/node/turn.rs) *)
Section runtime.
Context {P : PeerIdLib} {M : MultiaddrLib} {I : IpText}.

Record TurnClient := {
  cl_state : TurnClientState;
  cl_endpoints : list (TurnSource * ProviderRefresher);
  cl_published : list IceServer;
  cl_network_enabled : bool;
}.

Definition upd_cl_state (g : TurnClientState -> TurnClientState) (s : TurnClient) : TurnClient := {|
  cl_state := g (cl_state s); cl_endpoints := cl_endpoints s; cl_published := cl_published s;
  cl_network_enabled := cl_network_enabled s |}.
Definition upd_cl_endpoints (g : list (TurnSource * ProviderRefresher) -> list (TurnSource * ProviderRefresher)) (s : TurnClient) : TurnClient := {|
  cl_state := cl_state s; cl_endpoints := g (cl_endpoints s); cl_published := cl_published s;
  cl_network_enabled := cl_network_enabled s |}.
Definition upd_cl_published (g : list IceServer -> list IceServer) (s : TurnClient) : TurnClient := {|
  cl_state := cl_state s; cl_endpoints := cl_endpoints s; cl_published := g (cl_published s);
  cl_network_enabled := cl_network_enabled s |}.

Record TurnRuntime := {
  tr_client_cfg : TurnClientConfig;
  tr_plan : BrowserIcePlan;
  tr_network_client_enabled : bool;
  tr_client : option TurnClient;
  tr_broker : option TurnBrokerState;
  tr_server_cfg : option TurnServerConfig;
  tr_running : option RunningTurnServer;
  tr_snapshot : TurnSnapshot;
}.

Definition upd_tr_client (g : option TurnClient -> option TurnClient) (s : TurnRuntime) : TurnRuntime := {|
  tr_client_cfg := tr_client_cfg s; tr_plan := tr_plan s;
  tr_network_client_enabled := tr_network_client_enabled s; tr_client := g (tr_client s);
  tr_broker := tr_broker s; tr_server_cfg := tr_server_cfg s; tr_running := tr_running s;
  tr_snapshot := tr_snapshot s |}.
Definition upd_tr_broker (g : option TurnBrokerState -> option TurnBrokerState) (s : TurnRuntime) : TurnRuntime := {|
  tr_client_cfg := tr_client_cfg s; tr_plan := tr_plan s;
  tr_network_client_enabled := tr_network_client_enabled s; tr_client := tr_client s;
  tr_broker := g (tr_broker s); tr_server_cfg := tr_server_cfg s; tr_running := tr_running s;
  tr_snapshot := tr_snapshot s |}.
Definition upd_tr_running (g : option RunningTurnServer -> option RunningTurnServer) (s : TurnRuntime) : TurnRuntime := {|
  tr_client_cfg := tr_client_cfg s; tr_plan := tr_plan s;
  tr_network_client_enabled := tr_network_client_enabled s; tr_client := tr_client s; tr_broker := tr_broker s;
  tr_server_cfg := tr_server_cfg s; tr_running := g (tr_running s); tr_snapshot := tr_snapshot s |}.
Definition upd_tr_snapshot (g : TurnSnapshot -> TurnSnapshot) (s : TurnRuntime) : TurnRuntime := {|
  tr_client_cfg := tr_client_cfg s; tr_plan := tr_plan s;
  tr_network_client_enabled := tr_network_client_enabled s; tr_client := tr_client s; tr_broker := tr_broker s;
  tr_server_cfg := tr_server_cfg s; tr_running := tr_running s; tr_snapshot := g (tr_snapshot s) |}.

Definition policy_name (p : IceTransportPolicy) : string := match p with PolicyAll => "all" | PolicyRelay => "relay" end.
Definition trust_name (t : DiscoveryTrust) : string := match t with SameHost => "same_host" | AnyBroker => "any" end.

Definition refresh_snapshot (r : TurnRuntime) : TurnRuntime :=
  let r := match tr_client r with
    | Some client => upd_tr_snapshot (fun s =>
        upd_tn_broker_peers (fun _ => Z.of_nat (size (ts_brokers (cl_state client))))
          (upd_tn_client_endpoints_active (fun _ => Z.of_nat (size (ts_endpoints (cl_state client)))) s)) r
    | None => r
    end in
  match tr_broker r with Some broker => upd_tr_snapshot (upd_tn_broker (fun _ => tb_status broker)) r | None => r end.

Definition publish_ice_servers (r : TurnRuntime) : TurnRuntime :=
  let r := match tr_client r with
    | Some client =>
        let composed := compose_servers (tr_plan r) (effective (cl_state client)) in
        upd_tr_client (fun _ => Some (upd_cl_published (fun _ => composed) client))
          (upd_tr_snapshot (fun s => upd_tn_turn_servers (fun _ => len (filter (fun x => server_is_turn x = true) composed))
            (upd_tn_ice_servers (fun _ => len composed) s)) r)
    | None => r
    end in
  refresh_snapshot r.

Definition empty_snapshot : TurnSnapshot := {|
  tn_ice_servers := 0; tn_turn_servers := 0; tn_ice_transport_policy := ""; tn_stun_enabled := false; tn_client_sources := [];
  tn_discovery := ""; tn_client_endpoints_active := 0; tn_client_endpoint_errors := 0; tn_broker_peers := 0;
  tn_credential_requests_sent := 0; tn_credential_servers_accepted := 0; tn_credential_servers_rejected := 0;
  tn_server_state := ServerDisabled; tn_server_listen := None; tn_server_urls := []; tn_server_allocations := 0;
  tn_server_allocation_capacity := 0; tn_server_error := None; tn_broker_enabled := false; tn_broker := TurnBrokerStatus_default |}.

Definition TurnRuntime_new (turn : TurnConfig) (webrtc : BrowserWebRtcConfig) (server_enabled broker_enabled network_client_enabled : bool)
    (now : Z) : TurnRuntime :=
  let client_cfg := with_legacy_turn webrtc (turn_client turn) in
  let plan := ice_plan webrtc in
  let broker := if broker_enabled then Some (TurnBrokerState_new (turn_broker turn) now) else None in
  let snapshot := {|
    tn_ice_servers := 0; tn_turn_servers := 0; tn_ice_transport_policy := policy_name (plan_policy plan);
    tn_stun_enabled := plan_stun_enabled plan && bool_decide (plan_policy plan = PolicyAll);
    tn_client_sources := source_as_str <$> sources client_cfg;
    tn_discovery := match discovery client_cfg with None => "off" | Some trust => trust_name trust end;
    tn_client_endpoints_active := 0; tn_client_endpoint_errors := 0; tn_broker_peers := 0; tn_credential_requests_sent := 0;
    tn_credential_servers_accepted := 0; tn_credential_servers_rejected := 0;
    tn_server_state := if server_enabled then WaitingForPublicIp else ServerDisabled;
    tn_server_listen := None; tn_server_urls := []; tn_server_allocations := 0;
    tn_server_allocation_capacity := allocation_capacity (turn_server turn); tn_server_error := None;
    tn_broker_enabled := broker_enabled; tn_broker := TurnBrokerStatus_default |} in
  refresh_snapshot {|
    tr_client_cfg := client_cfg; tr_plan := plan; tr_network_client_enabled := network_client_enabled; tr_client := None;
    tr_broker := broker; tr_server_cfg := if server_enabled then Some (turn_server turn) else None; tr_running := None;
    tr_snapshot := snapshot |}.

Definition attach_browser_ice_servers (now : Z) (r : TurnRuntime) : TurnRuntime :=
  let cfg := tr_client_cfg r in
  let endpoints := omap (fun source => match client_endpoint cfg source with
    | Some endpoint => Some (source, ProviderRefresher_new (HttpProvider endpoint) (tk_credential_ttl_secs cfg) now)
    | None => None end) (sources cfg) in
  publish_ice_servers (upd_tr_client (fun _ => Some {|
    cl_state := TurnClientState_new cfg; cl_endpoints := endpoints; cl_published := [];
    cl_network_enabled := tr_network_client_enabled r |}) r).

Definition with_client (f : TurnClientState -> TurnClientState) (r : TurnRuntime) : TurnRuntime :=
  match tr_client r with Some client => upd_tr_client (fun _ => Some (upd_cl_state f client)) r | None => r end.

Definition turn_on_connection (peer : PeerId) (remote : Multiaddr) : TurnRuntime -> TurnRuntime := with_client (note_connection peer remote).
Definition turn_on_disconnected (peer : PeerId) : TurnRuntime -> TurnRuntime := with_client (forget_peer peer).
Definition turn_mark_unsupported (peer : PeerId) : TurnRuntime -> TurnRuntime := with_client (client_mark_unsupported peer).

(** The lifetime to request from [peer], when it is to be asked. *)
Definition request_for (peer : PeerId) (now : Z) (r : TurnRuntime) : option Z * TurnRuntime :=
  match tr_client r with
  | Some client =>
      if cl_network_enabled client then
        let '(ask, state) := should_request peer now (cl_state client) in
        let r := upd_tr_client (fun _ => Some (upd_cl_state (fun _ => state) client)) r in
        if ask then (Some (ts_ttl_secs state), upd_tr_snapshot (upd_tn_credential_requests_sent (fun n => n + 1)) r) else (None, r)
      else (None, r)
  | None => (None, r)
  end.

Definition on_response (peer : PeerId) (response : CredentialResponse) (now : Z) (r : TurnRuntime) : option string * TurnRuntime :=
  match tr_client r with
  | None => (None, r)
  | Some client =>
      let '(line, r) := match response with
        | Granted credentials =>
            let '(offer, state) := accept_from_broker peer credentials now (cl_state client) in
            let r := upd_tr_client (fun _ => Some (upd_cl_state (fun _ => state) client)) r in
            let r := upd_tr_snapshot (fun s => upd_tn_credential_servers_rejected (fun n => n + of_rejected offer)
              (upd_tn_credential_servers_accepted (fun n => n + of_accepted offer) s)) r in
            ("TURN_CREDENTIALS_RECEIVED peer=" +:+ peer_to_string peer +:+ " accepted=" +:+ pretty (of_accepted offer)
               +:+ " rejected=" +:+ pretty (of_rejected offer), r)
        | Unavailable => ("TURN_CREDENTIALS_UNAVAILABLE peer=" +:+ peer_to_string peer, r)
        | RateLimited => ("TURN_CREDENTIALS_RATE_LIMITED peer=" +:+ peer_to_string peer, r)
        end in
      (Some line, publish_ice_servers r)
  end.

Definition turn_answer (peer : PeerId) (now : Z) (r : TurnRuntime) : CredentialResponse * TurnRuntime :=
  let '(response, r) := match tr_broker r with
    | Some broker =>
        let '(_, broker) := broker_maintain now broker in
        let '(response, broker) := broker_answer peer now broker in
        (response, upd_tr_broker (fun _ => Some broker) r)
    | None => (Unavailable, r)
    end in
  (response, refresh_snapshot r).

(** One endpoint of [maintain_client_endpoints]: pulse lines, errors counted, the client's state. *)
Fixpoint maintain_client_endpoints (now : Z) (state : TurnClientState) (errors : Z) (l : list (TurnSource * ProviderRefresher))
    : list string * Z * TurnClientState * list (TurnSource * ProviderRefresher) :=
  match l with
  | [] => ([], errors, state, [])
  | (source, refresher) :: l' =>
      let '(res, refresher) := take_result now refresher in
      let '(_, refresher) := start_if_due now refresher in
      let '(lines, errors, state) := match res with
        | Some (Ok c) => (["TURN_PROVIDER_REFRESHED source=" +:+ source_as_str source +:+ " servers=" +:+ pretty (len (tc_ice_servers c))],
            errors, accept_from_endpoint source c now state)
        | Some (Err error) => (["TURN_PROVIDER_FAILED source=" +:+ source_as_str source +:+ " error=" +:+ error], errors + 1, state)
        | None => ([], errors, state)
        end in
      let '(lines', errors, state, l') := maintain_client_endpoints now state errors l' in
      (lines ++ lines', errors, state, (source, refresher) :: l')
  end.

(** Brokers to ask again, and pulse lines. *)
Definition turn_maintain (now : Z) (r : TurnRuntime) : list PeerId * list string * TurnRuntime :=
  let '(pulses, r) := match tr_broker r with
    | Some broker => let '(lines, broker) := broker_maintain now broker in (lines, upd_tr_broker (fun _ => Some broker) r)
    | None => ([], r)
    end in
  let '(due, pulses, r) := match tr_client r with
    | Some client =>
        let '(lines, errors, state, endpoints) := maintain_client_endpoints now (cl_state client)
          (tn_client_endpoint_errors (tr_snapshot r)) (cl_endpoints client) in
        let '(_, state) := client_prune now state in
        let due := if cl_network_enabled client then brokers_due now state else [] in
        let client := upd_cl_endpoints (fun _ => endpoints) (upd_cl_state (fun _ => state) client) in
        (due, pulses ++ lines, upd_tr_client (fun _ => Some client) (upd_tr_snapshot (upd_tn_client_endpoint_errors (fun _ => errors)) r))
    | None => ([], pulses, r)
    end in
  (due, pulses, publish_ice_servers r).

Definition configured_relay_ip (r : TurnRuntime) : option IpAddr :=
  match tr_server_cfg r with Some c => sv_public_ip c ≫= ip_parse | None => None end.

(** [started] is what [RunningTurnServer::start] returned for the configuration. *)
Definition start_server (started : TurnServerConfig -> result RunningTurnServer string) (relay_ip : IpAddr) (now : Z) (r : TurnRuntime)
    : option string * TurnRuntime :=
  match tr_running r, tr_server_cfg r with
  | Some _, _ => (None, r)
  | None, None => (None, r)
  | None, Some c =>
      match started c with
      | Ok server =>
          let r := upd_tr_snapshot (fun s => upd_tn_server_error (fun _ => None) (upd_tn_server_urls (fun _ => ss_urls (rt_credentials server))
            (upd_tn_server_listen (fun _ => Some (rt_listen server)) (upd_tn_server_state (fun _ => ServerRunning) s)))) r in
          let r := match tr_broker r with
            | Some broker =>
                let '(_, broker) := broker_maintain now (add_broker_source (SharedSecretProvider (rt_credentials server)) now broker) in
                upd_tr_broker (fun _ => Some broker) r
            | None => r
            end in
          let r := refresh_snapshot (upd_tr_running (fun _ => Some server) r) in
          (Some ("TURN_SERVER_STARTED listen=" +:+ rt_listen server +:+ " relay_ip=" +:+ ip_text relay_ip), r)
      | Err error =>
          (Some ("TURN_SERVER_FAILED error=" +:+ error),
           upd_tr_snapshot (fun s => upd_tn_server_error (fun _ => Some error) (upd_tn_server_state (fun _ => ServerFailed) s)) r)
      end
  end.

Definition no_public_ip : string := "no public IP found; set turn.server.public_ip".
Definition public_ip_unavailable (r : TurnRuntime) : option string * TurnRuntime :=
  match tr_server_cfg r, tr_running r with
  | None, _ | _, Some _ => (None, r)
  | Some _, None =>
      (Some ("TURN_SERVER_FAILED error=" +:+ no_public_ip),
       upd_tr_snapshot (fun s => upd_tn_server_error (fun _ => Some no_public_ip) (upd_tn_server_state (fun _ => ServerFailed) s)) r)
  end.

(** [allocations] is what the library counts. *)
Definition refresh_server_stats (allocations : Z) (r : TurnRuntime) : TurnRuntime :=
  match tr_running r with Some _ => upd_tr_snapshot (upd_tn_server_allocations (fun _ => allocations)) r | None => r end.
Definition turn_shutdown (r : TurnRuntime) : TurnRuntime := upd_tr_running (fun _ => None) r.

(** * Events (crates/node/events/turn.rs)

    [enabled]: the swarm has the credential behaviour.  What is sent: requests with
    their lifetime, and answers. *)
Inductive TurnSend : Type := SendRequest (peer : PeerId) (ttl_secs : Z) | SendResponse (peer : PeerId) (response : CredentialResponse).

Inductive TurnEvent : Type :=
| CredentialsRequested (peer : PeerId)
| CredentialsAnswered (peer : PeerId) (response : CredentialResponse)
| RequestUnsupported (peer : PeerId)
| RequestFailed (peer : PeerId) (error : string)
| InboundDone.

Definition request_credentials (enabled : bool) (peer : PeerId) (now : Z) (r : TurnRuntime) : list TurnSend * TurnRuntime :=
  if negb enabled then ([], r)
  else let '(request, r) := request_for peer now r in
    (match request with Some ttl => [SendRequest peer ttl] | None => [] end, r).

Definition turn_on_identify (enabled : bool) (peer : PeerId) (protocols : list string) (now : Z) (r : TurnRuntime) : list TurnSend * TurnRuntime :=
  if decide (TURN_CREDENTIALS_PROTOCOL ∈ protocols) then request_credentials enabled peer now r else ([], r).

Definition turn_handle_event (enabled : bool) (ev : TurnEvent) (now : Z) (o : ObservabilityBatch) (r : TurnRuntime)
    : list TurnSend * ObservabilityBatch * TurnRuntime :=
  let '(sends, line, r) := match ev with
    | CredentialsRequested peer =>
        let '(response, r) := turn_answer peer now r in
        (if enabled then [SendResponse peer response] else [],
         match response with Granted _ => Some ("TURN_CREDENTIALS_GRANTED peer=" +:+ peer_to_string peer) | _ => None end, r)
    | CredentialsAnswered peer response => let '(line, r) := on_response peer response now r in ([], line, r)
    | RequestUnsupported peer => ([], None, turn_mark_unsupported peer r)
    | RequestFailed peer error =>
        ([], Some ("TURN_CREDENTIALS_REQUEST_FAILED peer=" +:+ peer_to_string peer +:+ " error=" +:+ error), r)
    | InboundDone => ([], None, r)
    end in
  (sends, match line with Some line => pulse o line | None => o end, r).
End runtime.

(** * The ICE configuration of a browser *)

(** Pushing the servers that are not there yet keeps the URL lists different. *)
Lemma push_server_spec out s :
  NoDup (ice_urls <$> out) ->
  NoDup (ice_urls <$> push_server out s) /\ (forall x, x ∈ push_server out s -> x ∈ out \/ x = s) /\
  len (push_server out s) <= len out + 1 /\ (forall x, x ∈ out -> x ∈ push_server out s) /\
  (exists x, x ∈ push_server out s /\ ice_urls x = ice_urls s).
Proof.
  intros Hnd. unfold push_server. destruct (existsb _ _) eqn:E.
  - apply existsb_exists in E as (x & Hx & Hu%bool_decide_eq_true). split_and!; [done|auto|lia|auto|].
    exists x. by rewrite list_elem_of_In.
  - split_and!.
    + rewrite fmap_app. apply NoDup_app. split_and!; [done| |by apply NoDup_singleton].
      intros u (x & -> & Hx)%list_elem_of_fmap Hin. cbn in Hin. apply list_elem_of_singleton in Hin.
      apply not_true_iff_false in E. apply E, existsb_exists. exists x. rewrite <- list_elem_of_In. split; [done|]. by apply bool_decide_eq_true.
    + intros x. rewrite elem_of_app, list_elem_of_singleton. done.
    + unfold len. rewrite length_app. cbn. lia.
    + set_solver.
    + exists s. set_solver.
Qed.

Lemma push_servers_forall (Q : IceServer -> Prop) l : forall out, Forall Q out -> Forall Q l -> Forall Q (foldl push_server out l).
Proof.
  induction l as [|s l IH]; intros out Hout Hl; [done|]. inversion Hl; subst. cbn [foldl]. apply IH; [|done].
  unfold push_server. destruct (existsb _ _); [done|]. apply Forall_app. by split; [|constructor].
Qed.

(** A relay-only browser contacts no STUN server.  When the configuration asks for
    relayed connections only, by either of its two fields, or switches STUN off, every URL
    of the ICE configuration that is composed for a peer connection is a TURN URL,
    whatever the TURN sources offer. *)
Theorem relay_only_contacts_no_stun c turn_servers :
  wr_ice_transport_policy c = Some PolicyRelay \/ wr_direct_connections c = Some false \/ st_enabled (wr_stun c) = false ->
  Forall (fun s => Forall (fun url => url_is_turn url = true) (ice_urls s)) (compose_servers (ice_plan c) turn_servers).
Proof.
  intros H. unfold compose_servers. replace (bool_decide (plan_policy (ice_plan c) = PolicyAll) && plan_stun_enabled (ice_plan c)) with false.
  - apply push_servers_forall; [constructor|]. cbn [app]. apply Forall_forall. intros s (t & _ & Ht)%list_elem_of_omap.
    unfold turn_only, unless_empty in Ht. case_decide; [done|]. injection Ht as <-. cbn [with_urls ice_urls]. apply Forall_forall.
    intros u Hu%list_elem_of_filter. apply Hu.
  - symmetry. cbn. unfold effective_policy. destruct H as [->|[->| ->]].
    + by rewrite (bool_decide_eq_true_2 (Some PolicyRelay = Some PolicyRelay)).
    + rewrite (bool_decide_eq_true_2 (Some false = Some false)) by done. by rewrite orb_true_r.
    + by rewrite andb_false_r.
Qed.

(** * Lifetimes *)
Lemma ttl_secs_range c : MIN_CREDENTIAL_TTL_SECS <= ttl_secs c <= MAX_CREDENTIAL_TTL_SECS.
Proof. unfold ttl_secs, MIN_CREDENTIAL_TTL_SECS, MAX_CREDENTIAL_TTL_SECS. lia. Qed.

(** Credentials are renewed in time.  When a fetch succeeds, the next one is due when a
    quarter of the credentials' life is left, at least fifteen seconds before they expire;
    when it fails, the next one is due after thirty seconds to ten minutes, and the pause
    never shrinks from one failure to the next. *)
Theorem refresh_before_expiry now r res r' :
  take_result now r = (Some res, r') -> 0 <= rf_failures r ->
  match res with
  | Ok c => rf_next_due r' = ln_refresh_at (LearnedServers_new c now) /\
      rf_next_due r' + from_secs 15 <= ln_expires_at (LearnedServers_new c now) /\ rf_failures r' = 0
  | Err _ => now + FIRST_RETRY <= rf_next_due r' <= now + MAX_RETRY /\
      (forall now' e r'', take_result now' (fetch_finished (Err e) r') = (Some (Err e), r'') -> rf_next_due r' - now <= rf_next_due r'' - now')
  end.
Proof.
  unfold take_result. destruct (rf_slot r) as [x|]; [|done]. destruct x as [c|e]; cbn [delay_after]; intros [= <- <-] Hf.
  - cbn. pose proof (ttl_secs_range c) as Ht. unfold from_secs, MIN_CREDENTIAL_TTL_SECS in *. split_and!; [done| |done].
    assert (ttl_secs c * 1000000000 * 3 / 4 = ttl_secs c * 750000000) as ->; [|lia].
    replace (ttl_secs c * 1000000000 * 3) with (ttl_secs c * 750000000 * 4) by lia. by rewrite Z.div_mul.
  - cbn. set (n := Z.min (rf_failures r) 5). assert (0 <= n <= 5) by lia. unfold FIRST_RETRY, MAX_RETRY, from_secs.
    assert (Hpow : 1 <= 2 ^ n) by (pose proof (Z.pow_pos_nonneg 2 n ltac:(lia) ltac:(lia)); lia). split; [lia|].
    intros now' e' r'' [= <-]. cbn. set (m := Z.min (sat_add u32_max (rf_failures r) 1) 5).
    assert (n <= m) by (unfold n, m, sat_add, u32_max; lia).
    assert (2 ^ n <= 2 ^ m) by (apply Z.pow_le_mono_r; lia). lia.
Qed.

(** * Validated configurations *)
Lemma size_to_set_le {A} `{Countable A} (l : list A) : (size (list_to_set l : gset A) <= length l)%nat.
Proof. induction l as [|x l IH]; cbn; [by rewrite size_empty|]. rewrite size_union_alt. pose proof (subseteq_size (list_to_set l ∖ {[x]} : gset A) (list_to_set l)). rewrite size_singleton. set_solver by lia. Qed.

Lemma NoDup_of_size {A} `{Countable A} (l : list A) : size (list_to_set l : gset A) = length l -> NoDup l.
Proof.
  induction l as [|x l IH]; intros Hs; [constructor|]. cbn in Hs. destruct (decide (x ∈ l)) as [Hin|Hin].
  - replace ({[x]} ∪ list_to_set l : gset A) with (list_to_set l : gset A) in Hs by set_solver. pose proof (size_to_set_le l). lia.
  - constructor; [done|]. apply IH. rewrite size_union in Hs by set_solver. rewrite size_singleton in Hs. lia.
Qed.

Lemma try_for_each_ok {A E} (f : A -> result unit E) l : try_for_each f l = Ok tt -> Forall (fun x => f x = Ok tt) l.
Proof.
  induction l as [|x l IH]; cbn; [constructor|]. destruct (f x) as [[]|] eqn:Ex; cbn; [|done]. intros H. constructor; auto.
Qed.

Lemma try_enumerate_ok {A E} (f : Z -> A -> result unit E) l : forall i, try_enumerate f i l = Ok tt -> Forall (fun x => exists j, f j x = Ok tt) l.
Proof.
  induction l as [|x l IH]; cbn; intros i; [constructor|]. destruct (f i x) as [[]|] eqn:Ex; cbn; [|done]. intros H. constructor; eauto.
Qed.

Lemma validated_server field s : IceServer_validate field s = Ok tt ->
  forall url u, url ∈ ice_urls s -> IceUrl_parse url = Ok u -> scheme_is_turn (iu_scheme u) = true -> has_credentials s = true.
Proof.
  unfold IceServer_validate. case_decide; [done|]. intros Hall%try_for_each_ok url u Hu Hp Ht. rewrite Forall_forall in Hall.
  specialize (Hall url Hu). unfold validate_url in Hall. rewrite Hp in Hall. cbn [map_err result_bind] in Hall. rewrite Ht in Hall.
  by destruct (has_credentials s).
Qed.

Lemma turn_server_credentials field s : IceServer_validate field s = Ok tt -> server_is_turn s = true -> has_credentials s = true.
Proof.
  intros Hv. unfold server_is_turn. intros (u & Hin & Ht)%existsb_exists. rewrite <- list_elem_of_In in Hin.
  unfold parsed_urls in Hin. apply list_elem_of_omap in Hin as (url & Hurl & Hok). destruct (IceUrl_parse url) eqn:Ep; [|done].
  injection Hok as ->. by eapply validated_server.
Qed.

Lemma explicit_sources c explicit : validate_explicit_sources c explicit = Ok tt ->
  NoDup explicit /\ (forall s, s ∈ explicit -> is_configured c s = true) /\
  (forall s, s ≠ Libp2p -> is_configured c s = true -> s ∈ explicit).
Proof.
  unfold validate_explicit_sources. case_decide; [done|]. destruct (bool_decide _) eqn:En; cbn [negb]; [|done]. apply bool_decide_eq_true in En.
  destruct (try_for_each _ explicit) as [[]|] eqn:E1; cbn [result_bind]; [|done]. intros E2.
  apply try_for_each_ok in E1, E2. rewrite Forall_forall in E1. rewrite Forall_forall in E2. split_and!.
  - apply NoDup_of_size. unfold len in En. lia.
  - intros s Hs. specialize (E1 s Hs). by destruct (is_configured c s).
  - intros s Hs Hc. assert (Hin : s ∈ [SelfHosted; Cloudflare; Http]) by (destruct s; [done|set_solver..]). specialize (E2 s Hin). cbn in E2.
    rewrite Hc in E2. cbn [andb] in E2. destruct (decide (s ∈ explicit)); [done|]. by rewrite bool_decide_eq_false_2 in E2.
Qed.

(** What a valid TURN client configuration promises: its sources are listed once each and
    all of them are configured; every source the configuration sets up besides discovery
    is listed, so that none is dropped silently; the static servers are TURN servers with
    credentials, and no endpoint that browsers fetch carries a secret. *)
Theorem validated_sources_exact {U : UrlLib} c :
  TurnClientConfig_validate c = Ok tt ->
  NoDup (sources c) /\ (forall s, s ∈ sources c -> is_configured c s = true) /\
  (forall s, s ≠ Libp2p -> is_configured c s = true -> s ∈ sources c) /\
  1 <= tk_max_servers c <= MAX_ICE_SERVERS /\
  Forall (fun s => server_is_turn s = true /\ has_credentials s = true) (tk_servers c) /\
  (forall s e, client_endpoint c s = Some e -> hp_bearer_token e = None).
Proof.
  unfold TurnClientConfig_validate. destruct (negb (tk_enabled c) && has_explicit_sources c) eqn:Een; [done|].
  destruct (try_enumerate _ _ _) as [[]|] eqn:Est; cbn [result_bind]; [|done].
  destruct (try_for_each _ [Cloudflare; Http]) as [[]|] eqn:Eep; cbn [result_bind]; [|done].
  destruct (match tk_providers c with Some _ => _ | None => _ end) as [[]|] eqn:Eex; cbn [result_bind]; [|done].
  destruct (bool_decide (1 <= _ <= _)) eqn:Emax; cbn [negb]; [|done]. destruct (existsb _ _); [done|]. intros _.
  apply bool_decide_eq_true in Emax. assert (Hen : forall s, s ≠ Libp2p -> is_configured c s = true -> tk_enabled c = true).
  { intros s Hs Hc. destruct (tk_enabled c); [done|]. cbn [negb andb] in Een. unfold has_explicit_sources in Een. apply orb_false_iff in Een as [_ Een].
    cbn [existsb] in Een. destruct s; [done|rewrite Hc in Een; rewrite ?orb_true_r in Een; done..]. }
  assert (Hsrc : NoDup (sources c) /\ (forall s, s ∈ sources c -> is_configured c s = true) /\
    (forall s, s ≠ Libp2p -> is_configured c s = true -> s ∈ sources c)).
  { unfold sources. destruct (tk_enabled c) eqn:Ee; cbn [negb].
    - destruct (tk_providers c) as [explicit|].
      + by apply explicit_sources.
      + split_and!.
        * apply NoDup_filter. repeat constructor; set_solver.
        * intros s [Hs _]%list_elem_of_filter. done.
        * intros s Hs Hc. apply list_elem_of_filter. split; [done|]. destruct s; [done|unfold AUTO_ORDER; set_solver..].
    - split_and!; [constructor|set_solver|]. intros s Hs Hc. by specialize (Hen s Hs Hc). }
  destruct Hsrc as (H1 & H2 & H3). split_and!; try done; try lia.
  - eapply Forall_impl; [by eapply try_enumerate_ok|]. cbn. intros s (j & Hv). unfold validate_static_server in Hv.
    destruct (IceServer_validate _ s) as [[]|] eqn:Ev; cbn [result_bind] in Hv; [|done]. destruct (server_is_turn s) eqn:Et; [|done].
    split; [done|]. by eapply turn_server_credentials.
  - intros s e He. apply try_for_each_ok in Eep. rewrite Forall_forall in Eep.
    assert (Hin : s ∈ [Cloudflare; Http]) by (destruct s; [done|done|set_solver..]). specialize (Eep s Hin). rewrite He in Eep.
    unfold validate_browser_endpoint in Eep. destruct (hp_bearer_token e); [|done]. by rewrite bool_decide_eq_true_2 in Eep.
Qed.

(** * Which servers a client takes *)
Lemma sanitized c : let kept := tc_ice_servers (sanitize c).2 in
  Forall (fun s => usable s = true) kept /\ len kept <= MAX_ICE_SERVERS_PER_SOURCE.
Proof.
  cbn. split.
  - apply Forall_take, Forall_forall. intros s Hs%list_elem_of_filter. apply Hs.
  - unfold len, MAX_ICE_SERVERS_PER_SOURCE. rewrite length_take. lia.
Qed.

Lemma sanitized_sub c : tc_ice_servers (sanitize c).2 ⊆ tc_ice_servers c.
Proof. intros s Hs. cbn in Hs. apply elem_of_take in Hs as (i & Hs%list_elem_of_lookup_2 & _). by apply list_elem_of_filter in Hs as [_ ?]. Qed.

Section trust.
Context {P : PeerIdLib} {M : MultiaddrLib} {I : IpText}.

(** What a client has seen of its peers, the latest first. *)
Inductive Seen := Connected (peer : PeerId) (remote : Multiaddr) | Offered (peer : PeerId) (c : TurnCredentials).

(** The operations of the client, with the connections and offers seen so far. *)
Inductive client_step : list Seen * TurnClientState -> list Seen * TurnClientState -> Prop :=
| cs_connected t s peer remote : client_step (t, s) (Connected peer remote :: t, note_connection peer remote s)
| cs_forgotten t s peer : client_step (t, s) (t, forget_peer peer s)
| cs_requested t s peer now : client_step (t, s) (t, (should_request peer now s).2)
| cs_unsupported t s peer : client_step (t, s) (t, client_mark_unsupported peer s)
| cs_offered t s peer c now : client_step (t, s) (Offered peer c :: t, (accept_from_broker peer c now s).2)
| cs_endpoint t s source c now : client_step (t, s) (t, accept_from_endpoint source c now s)
| cs_pruned t s now : client_step (t, s) (t, (client_prune now s).2).

(** A direct connection to [peer] used [host]. *)
Definition connected_at (t : list Seen) (peer : PeerId) (host : string) : Prop :=
  exists remote, Connected peer remote ∈ t /\ is_relayed_remote remote = false /\ multiaddr_host remote = Some host.

(** Why a server was taken: [peer] offered it, it is usable, and under the
    [same_host] policy each of its hosts was trusted or known for that peer when it
    made the offer. *)
Definition vouched (cfg : TurnClientConfig) (t : list Seen) (peer : PeerId) (s : IceServer) : Prop :=
  exists later c earlier, t = later ++ Offered peer c :: earlier /\ s ∈ tc_ice_servers c /\ usable s = true /\
  match discovery cfg with
  | None => False
  | Some AnyBroker => True
  | Some SameHost => forall host, host ∈ server_hosts s -> host ∈ accepted_provider_hosts cfg \/ connected_at earlier peer host
  end.

Record client_inv (cfg : TurnClientConfig) (t : list Seen) (s : TurnClientState) : Prop := {
  ci_sources : ts_sources s = sources cfg;
  ci_static : ts_static_servers s = if decide (SelfHosted ∈ sources cfg) then tk_servers cfg else [];
  ci_discovery : ts_discovery s = discovery cfg;
  ci_accepted : ts_accepted_hosts s = accepted_provider_hosts cfg;
  ci_max : ts_max_servers s = tk_max_servers cfg;
  ci_hosts : map_Forall (fun p hosts => len hosts <= MAX_HOSTS_PER_PEER /\ Forall (connected_at t p) hosts) (ts_peer_hosts s);
  ci_tracked : Z.of_nat (size (ts_peer_hosts s)) <= MAX_TRACKED_PEERS;
  ci_brokers : map_Forall (fun p l => len (ln_servers l) <= MAX_ICE_SERVERS_PER_SOURCE /\ Forall (vouched cfg t p) (ln_servers l)) (ts_brokers s);
}.

Lemma connected_at_more x t peer host : connected_at t peer host -> connected_at (x :: t) peer host.
Proof. intros (r & ? & ? & ?). exists r. split_and!; [by right|done..]. Qed.

Lemma vouched_more cfg x t peer s : vouched cfg t peer s -> vouched cfg (x :: t) peer s.
Proof. intros (later & c & earlier & -> & H). by exists (x :: later), c, earlier. Qed.

Lemma inv_more cfg x t s : client_inv cfg t s -> client_inv cfg (x :: t) s.
Proof.
  intros [? ? ? ? ? Hh ? Hb]. split; try done.
  - intros p hosts E. destruct (Hh p hosts E) as [? Hf]. split; [done|]. eapply Forall_impl; [exact Hf|]. intros h. by apply connected_at_more.
  - intros p l E. destruct (Hb p l E) as [? Hf]. split; [done|]. eapply Forall_impl; [exact Hf|]. intros y. by apply vouched_more.
Qed.

Lemma inv_note cfg t s peer remote : client_inv cfg t s -> client_inv cfg (Connected peer remote :: t) (note_connection peer remote s).
Proof.
  intros Hinv. pose proof (inv_more cfg (Connected peer remote) t s Hinv) as Hm.
  unfold note_connection. destruct (is_relayed_remote remote) eqn:Er; [done|]. destruct (multiaddr_host remote) as [host|] eqn:Eh; [|done].
  destruct (_ && _) eqn:Efull; [done|]. destruct Hm as [? ? ? ? ? Hh Ht Hb]. split; cbn; try done.
  - apply map_Forall_insert_2; [|done].
    assert (Hold : len (default [] (ts_peer_hosts s !! peer)) <= MAX_HOSTS_PER_PEER /\
      Forall (connected_at (Connected peer remote :: t) peer) (default [] (ts_peer_hosts s !! peer))).
    { destruct (ts_peer_hosts s !! peer) as [hosts|] eqn:E; [by apply Hh|]. by split. }
    destruct Hold as [Hlen Hall]. destruct (negb (bool_decide (host ∈ _)) && _) eqn:Eg; [|by split]. apply andb_true_iff in Eg as [_ Hlt%bool_decide_eq_true].
    unfold len in *. rewrite length_app. cbn [length]. split; [lia|]. apply Forall_app. split; [done|]. constructor; [|done].
    exists remote. split_and!; [left|done|done].
  - destruct (ts_peer_hosts s !! peer) as [hosts|] eqn:E; [by rewrite map_size_insert, E|]. rewrite map_size_insert, E.
    apply andb_false_iff in Efull as [Hf%bool_decide_eq_false|Hf%bool_decide_eq_false]; [done|]. lia.
Qed.

Lemma allowed_hosts cfg t s peer server : client_inv cfg t s -> host_allowed s peer server = true ->
  match discovery cfg with
  | None => False
  | Some AnyBroker => True
  | Some SameHost => forall host, host ∈ server_hosts server -> host ∈ accepted_provider_hosts cfg \/ connected_at t peer host
  end.
Proof.
  intros Hinv. unfold host_allowed. rewrite (ci_discovery _ _ _ Hinv), (ci_accepted _ _ _ Hinv).
  destruct (discovery cfg) as [[]|]; [|done..]. intros H host Hin. rewrite forallb_forall in H. specialize (H host).
  rewrite <- list_elem_of_In in H. apply H in Hin as [Ha%bool_decide_eq_true|Hp]%orb_true_iff; [by left|right].
  destruct (ts_peer_hosts s !! peer) as [hosts|] eqn:E; [|done]. apply bool_decide_eq_true in Hp.
  destruct (ci_hosts _ _ _ Hinv peer hosts E) as [_ Hf]. rewrite Forall_forall in Hf. by apply Hf.
Qed.

Lemma inv_offer cfg t s peer c now : client_inv cfg t s -> client_inv cfg (Offered peer c :: t) (accept_from_broker peer c now s).2.
Proof.
  intros Hinv. unfold accept_from_broker. pose proof (sanitized c) as Hs. pose proof (sanitized_sub c) as Hsub.
  destruct (sanitize c) as [dropped c'] eqn:Ec. cbn [snd] in Hs, Hsub.
  destruct Hs as [Hu Hl]. set (kept := filter _ _). cbn [snd]. case_decide; [|by apply inv_more].
  assert (Hk : len kept <= MAX_ICE_SERVERS_PER_SOURCE /\ Forall (vouched cfg (Offered peer c :: t) peer) kept).
  { split.
    - pose proof (length_filter (fun server => host_allowed s peer server = true) (tc_ice_servers c')). unfold len, kept in *. lia.
    - apply Forall_forall. intros x [Hx Hin]%list_elem_of_filter. rewrite Forall_forall in Hu. exists [], c, t.
      split_and!; [done|by apply Hsub|by apply Hu|by eapply allowed_hosts]. }
  apply (inv_more cfg (Offered peer c)) in Hinv. destruct Hinv as [? ? ? ? ? ? ? Hb]. split; cbn; try done. by apply map_Forall_insert_2.
Qed.

Lemma inv_step cfg t s t' s' : client_step (t, s) (t', s') -> client_inv cfg t s -> client_inv cfg t' s'.
Proof.
  intros Hstep Hinv. inversion Hstep; subst; clear Hstep.
  - by apply inv_note.
  - destruct Hinv as [? ? ? ? ? Hh Ht Hb]. split; cbn; try done; [by apply map_Forall_delete|].
    rewrite map_size_delete. destruct (_ !! _); cbn; lia.
  - unfold should_request. destruct Hinv. destruct (_ || _); [by split|]. destruct (_ || _); by split.
  - by destruct Hinv.
  - by apply inv_offer.
  - by destruct Hinv.
  - destruct Hinv as [? ? ? ? ? Hh Ht Hb]. split; cbn; try done. intros p l [E _]%map_lookup_filter_Some. by apply Hb.
Qed.

Lemma inv_reachable cfg t s : rtc client_step ([], TurnClientState_new cfg) (t, s) -> client_inv cfg t s.
Proof.
  intros H. assert (Hall : forall x y, rtc client_step x y -> client_inv cfg x.1 x.2 -> client_inv cfg y.1 y.2).
  { induction 1 as [|[t1 s1] [t2 s2] y Hs _ IH]; [done|]. intros Hinv. apply IH. by eapply inv_step. }
  apply (Hall _ _ H). cbn. split; cbn; try done; try apply map_Forall_empty.
Qed.

Lemma effective_loop_spec max servers : 0 <= max -> forall out, len out <= max -> NoDup (ice_urls <$> out) ->
  let r := effective_loop max out servers in
  len r <= max /\ NoDup (ice_urls <$> r) /\ forall x, x ∈ r -> x ∈ out \/ x ∈ servers.
Proof.
  intros Hm. induction servers as [|s rest IH]; intros out Hlen Hnd; cbn; [by split_and!; [..|auto]|].
  case_decide; [by split_and!; [..|auto]|]. destruct (push_server_spec out s Hnd) as (H1 & H2 & H3 & _).
  destruct (IH (push_server out s)) as (I1 & I2 & I3); [lia|done|]. split_and!; [done|done|].
  intros x [[?| ->]%H2|?]%I3; [by left|right; left|right; by right].
Qed.

(** C29: Only trusted TURN servers are used.  In every state a client can reach,
    the list it hands to the browser has at most [max_servers] entries with
    different URLs; each comes from a source the configuration lists.  One that
    comes from the brokers is held for a peer that offered it, its URLs parse and
    TURN ones have credentials, and under the [same_host] policy each of its hosts
    is one the configuration trusts or one at which the node had, before that
    offer, seen a direct connection to that very peer; without a policy for brokers
    there is none. *)
Theorem client_uses_trusted_servers cfg t s :
  rtc client_step ([], TurnClientState_new cfg) (t, s) -> 0 <= tk_max_servers cfg ->
  len (effective s) <= tk_max_servers cfg /\ NoDup (ice_urls <$> effective s) /\
  forall server, server ∈ effective s -> exists source, source ∈ sources cfg /\ server ∈ servers_from s source /\
    (source = Libp2p -> exists peer learned later c earlier,
      ts_brokers s !! peer = Some learned /\ server ∈ ln_servers learned /\
      t = later ++ Offered peer c :: earlier /\ server ∈ tc_ice_servers c /\ usable server = true /\
      match discovery cfg with
      | None => False
      | Some AnyBroker => True
      | Some SameHost => forall host, host ∈ server_hosts server -> host ∈ accepted_provider_hosts cfg \/ connected_at earlier peer host
      end).
Proof.
  intros Hinv%inv_reachable Hmax. unfold effective. rewrite (ci_max _ _ _ Hinv), (ci_sources _ _ _ Hinv).
  destruct (effective_loop_spec (tk_max_servers cfg) (source ← sources cfg; servers_from s source) Hmax [] Hmax (NoDup_nil_2)) as (H1 & H2 & H3).
  split_and!; [done|done|]. intros server [[]%not_elem_of_nil|Hin]%H3. apply list_elem_of_bind in Hin as (source & Hin & Hsrc).
  exists source. split_and!; [done|done|]. intros ->. cbn [servers_from] in Hin. apply list_elem_of_bind in Hin as (peer & Hin & _).
  destruct (ts_brokers s !! peer) as [l|] eqn:E; [|by apply not_elem_of_nil in Hin].
  destruct (ci_brokers _ _ _ Hinv peer l E) as [_ Hf]. rewrite Forall_forall in Hf.
  destruct (Hf server Hin) as (later & c & earlier & H). by exists peer, l, later, c, earlier.
Qed.

(** * What a broker grants *)
Lemma foldl_min_spec x l : foldl Z.min x l <= x /\ (forall y, y ∈ l -> foldl Z.min x l <= y) /\ (foldl Z.min x l = x \/ foldl Z.min x l ∈ l).
Proof.
  revert x. induction l as [|y l IH]; intros x; cbn [foldl]; [by split_and!; [lia|set_solver|left]|].
  destruct (IH (Z.min x y)) as (H1 & H2 & H3). split_and!; [lia| |].
  - intros z [->|Hz]%elem_of_cons; [lia|by apply H2].
  - destruct H3 as [H3|H3]; [|right; by right]. destruct (Z.min_spec x y) as [[_ E]|[_ E]]; rewrite E in *; [by left|right; rewrite H3; left].
Qed.

Lemma min_remaining_spec now live r : min_remaining now live = Some r ->
  (forall l, l ∈ live -> r <= duration_since (ln_expires_at l) now / 1000000000) /\
  exists l, l ∈ live /\ r = duration_since (ln_expires_at l) now / 1000000000.
Proof.
  unfold min_remaining. destruct live as [|l0 live]; [done|]. cbn [fmap list_fmap]. intros [= <-].
  set (f := fun l => duration_since (ln_expires_at l) now / 1000000000). fold (f l0).
  destruct (foldl_min_spec (f l0) (f <$> live)) as (H1 & H2 & H3). split.
  - intros l [->|Hl]%elem_of_cons; [done|]. apply (H2 (f l)). apply list_elem_of_fmap. by exists l.
  - destruct H3 as [E|(l & E & Hl)%list_elem_of_fmap]; [exists l0|exists l]; (split; [set_solver|done]).
Qed.

(** The credentials a broker still has at [now]. *)
Definition live_sources (now : Z) (b : TurnBrokerState) : list LearnedServers :=
  filter (fun l => now < ln_expires_at l) (omap br_cached (tb_sources b)).

Lemma granted_spec peer now b c b' : broker_answer peer now b = (Granted c, b') ->
  exists r, min_remaining now (live_sources now b) = Some r /\ c = {| tc_ice_servers := l ← live_sources now b; ln_servers l; tc_ttl := Some r |}.
Proof.
  unfold broker_answer. destruct (admit_request peer now b) as [adm b1] eqn:Ea.
  assert (Hs : tb_sources b1 = tb_sources b) by (unfold admit_request in Ea; repeat case_decide; by injection Ea as _ <-).
  destruct adm; cbn [negb]; [|done]. unfold live_sources. rewrite Hs. destruct (min_remaining _ _) as [r|]; [|done]. intros [= <- <-]. by exists r.
Qed.

(** When a client forgets granted credentials.  The lifetime in a grant is the shortest that
    is left of the broker's sources, but the client raises it to a minute: it drops the
    servers of a grant before the broker's credentials for them expire exactly when each of
    them lives for at least one more minute.  Otherwise it keeps offering the browser servers
    whose credentials have expired. *)
Theorem granted_credentials_outlive_their_source peer client_peer now b c b' s offer s' l :
  broker_answer peer now b = (Granted c, b') -> accept_from_broker client_peer c now s = (offer, s') -> 0 < of_accepted offer ->
  ts_brokers s' !! client_peer = Some l ->
  (forall live, live ∈ live_sources now b -> ln_expires_at l <= ln_expires_at live) <->
  (forall live, live ∈ live_sources now b -> now + from_secs MIN_CREDENTIAL_TTL_SECS <= ln_expires_at live).
Proof.
  intros (r & Hr & ->)%granted_spec. unfold accept_from_broker. cbn [sanitize]. intros [= <- <-] Hacc. cbn [of_accepted] in Hacc.
  rewrite decide_True by done. cbn [upd_ts_brokers ts_brokers]. rewrite lookup_insert_eq. intros [= <-]. cbn [LearnedServers_new ln_expires_at].
  unfold ttl_secs. cbn [tc_ttl default]. destruct (min_remaining_spec _ _ _ Hr) as [Hle (l0 & Hl0 & Hr0)].
  assert (Hpos : forall x, x ∈ live_sources now b -> now < ln_expires_at x) by (intros x Hx%list_elem_of_filter; apply Hx).
  unfold from_secs, MIN_CREDENTIAL_TTL_SECS, MAX_CREDENTIAL_TTL_SECS. split; intros H x Hx.
  - pose proof (H x Hx). pose proof (H l0 Hl0). pose proof (Hpos x Hx). pose proof (Hpos l0 Hl0).
    unfold duration_since in Hr0. Z.to_euclidean_division_equations. lia.
  - pose proof (Hle x Hx) as H1. pose proof (H l0 Hl0) as H2. pose proof (Hpos x Hx). unfold duration_since in *. clear Hle Hpos H Hr.
    rewrite Z.max_r in H1, Hr0 by lia. assert (60 <= r) by (rewrite Hr0; apply Z.div_le_lower_bound; lia).
    pose proof (Z.mul_div_le (ln_expires_at x - now) 1000000000 ltac:(lia)). unfold id. lia.
Qed.

(** * The rate limit *)

(** The times at which requests of [p] were admitted. *)
Fixpoint admissions (p : PeerId) (b : TurnBrokerState) (requests : list (PeerId * Z)) : list Z :=
  match requests with
  | [] => []
  | (q, now) :: rest =>
      let '(admitted, b') := admit_request q now b in
      (if admitted && bool_decide (q = p) then [now] else []) ++ admissions p b' rest
  end.

Definition count_in (lo hi : Z) (l : list Z) : Z := len (filter (fun x => lo <= x < hi) l).

Definition count_if (f : Z -> bool) (l : list Z) : Z := len (filter (fun x => f x = true) l).

Lemma count_if_cons f x l : count_if f (x :: l) = (if f x then 1 else 0) + count_if f l.
Proof. unfold count_if, len. rewrite filter_cons. destruct (f x); [rewrite decide_True by done; cbn [length]; lia|rewrite decide_False by done; lia]. Qed.

Lemma count_if_snoc f l x : count_if f (l ++ [x]) = count_if f l + (if f x then 1 else 0).
Proof. induction l as [|y l IH]; cbn [app]; rewrite ?count_if_cons, ?IH; [|lia]. unfold count_if, len. cbn. lia. Qed.

Lemma count_if_le f g l : (forall x, x ∈ l -> f x = true -> g x = true) -> count_if f l <= count_if g l.
Proof.
  induction l as [|x l IH]; intros H; [done|]. rewrite !count_if_cons. assert (count_if f l <= count_if g l) by (apply IH; set_solver).
  pose proof (H x ltac:(left)). destruct (f x), (g x); naive_solver lia.
Qed.

Lemma count_if_split f g h l : (forall x, x ∈ l -> f x = true -> g x = true \/ h x = true) -> count_if f l <= count_if g l + count_if h l.
Proof.
  induction l as [|x l IH]; intros H; [done|]. rewrite !count_if_cons. assert (count_if f l <= count_if g l + count_if h l) by (apply IH; set_solver).
  pose proof (H x ltac:(left)). destruct (f x), (g x), (h x); naive_solver lia.
Qed.

Lemma count_if_nonneg f l : 0 <= count_if f l.
Proof. unfold count_if, len. lia. Qed.

Lemma count_if_window t l : count_if (fun x => bool_decide (t <= x < t + RATE_WINDOW)) l = count_in t (t + RATE_WINDOW) l.
Proof.
  unfold count_if, count_in. do 2 f_equal. apply list_filter_iff. intros x. by rewrite bool_decide_eq_true.
Qed.

(** The admissions of one peer so far, against its current window [w] with [k] of them. *)
Record rate_inv (max : Z) (hist : list Z) (last w k : Z) (entry : option (Z * Z)) : Prop := {
  ra_count : count_if (fun x => bool_decide (w <= x)) hist = k;
  ra_max : k <= max;
  ra_later : count_if (fun x => bool_decide (w < x)) hist <= Z.max 0 (k - 1);
  ra_before : count_if (fun x => bool_decide (w - RATE_WINDOW < x < w)) hist <= max - 1;
  ra_any : forall t, count_if (fun x => bool_decide (t <= x < t + RATE_WINDOW)) hist <= 2 * max - 1;
  ra_last : Forall (fun x => x <= last /\ x < w + RATE_WINDOW) hist;
  ra_start : w <= last;
  ra_entry : (entry = Some (w, k) /\ 1 <= k) \/ (entry = None /\ w + RATE_WINDOW <= last);
}.

Lemma rate_window_pos : 0 < RATE_WINDOW.
Proof. done. Qed.

Lemma rate_later max hist last now w k entry : rate_inv max hist last w k entry -> last <= now -> rate_inv max hist now w k entry.
Proof.
  intros [? ? ? ? ? Hl ? He] Hle. split; try done; [|lia|]; [|by destruct He as [?|[? ?]]; [left|right; split; [|lia]]].
  eapply Forall_impl; [exact Hl|]. cbn. intros x [? ?]. split; [lia|done].
Qed.

(** A new window: the old one is over. *)
Lemma rate_fresh max hist now w k entry : 1 <= max -> rate_inv max hist now w k entry -> w + RATE_WINDOW <= now ->
  rate_inv max (hist ++ [now]) now now 1 (Some (now, 1)).
Proof.
  intros Hmax [Hc Hm Hl Hb Ha Hf Hs He] Hw. pose proof rate_window_pos as Hpos. rewrite Forall_forall in Hf.
  assert (Hold : forall g, (forall x, x ∈ hist -> g x = true -> bool_decide (w < x) = true) -> count_if g hist <= max - 1).
  { intros g Hg. pose proof (count_if_le g _ hist Hg). lia. }
  assert (Hnone : forall g, (forall x, x ∈ hist -> g x = true -> False) -> count_if g hist = 0).
  { intros g Hg. pose proof (count_if_nonneg g hist). pose proof (count_if_le g (fun _ => false) hist) as Hz.
    assert (E : count_if (fun _ => false) hist = 0) by (clear; induction hist; [done|]; rewrite count_if_cons; lia).
    rewrite E in Hz. assert (count_if g hist <= 0); [|lia]. apply Hz. intros x Hx Hgx. by destruct (Hg x Hx Hgx). }
  split; try done.
  - rewrite count_if_snoc, Hnone; [rewrite bool_decide_eq_true_2 by lia; lia|]. intros x Hx Hd%bool_decide_eq_true. apply Hf in Hx. lia.
  - rewrite count_if_snoc, Hnone; [rewrite bool_decide_eq_false_2 by lia; lia|]. intros x Hx Hd%bool_decide_eq_true. apply Hf in Hx. lia.
  - rewrite count_if_snoc, bool_decide_eq_false_2 by lia. rewrite Z.add_0_r. apply Hold. intros x Hx Hd%bool_decide_eq_true. apply bool_decide_eq_true. lia.
  - intros t. rewrite count_if_snoc. destruct (bool_decide (t <= now < t + RATE_WINDOW)) eqn:Et; [|pose proof (Ha t); lia].
    apply bool_decide_eq_true in Et. assert (count_if (fun x => bool_decide (t <= x < t + RATE_WINDOW)) hist <= max - 1); [|lia].
    apply Hold. intros x Hx Hd%bool_decide_eq_true. apply bool_decide_eq_true. lia.
  - apply Forall_app. split; [|constructor; [lia|done]]. apply Forall_forall. intros x Hx. apply Hf in Hx. lia.
  - left. split; [done|lia].
Qed.

(** One more admission in the window. *)
Lemma rate_more max hist now w k : rate_inv max hist now w k (Some (w, k)) -> k < max -> now < w + RATE_WINDOW ->
  rate_inv max (hist ++ [now]) now w (k + 1) (Some (w, k + 1)).
Proof.
  intros [Hc Hm Hl Hb Ha Hf Hs He] Hk Hw. pose proof rate_window_pos as Hpos.
  assert (Hk1 : 1 <= k) by (destruct He as [[_ ?]|[? _]]; done).
  split; try done.
  - rewrite count_if_snoc, Hc, bool_decide_eq_true_2 by lia. done.
  - lia.
  - rewrite count_if_snoc. destruct (bool_decide (w < now)); lia.
  - rewrite count_if_snoc, bool_decide_eq_false_2 by lia. lia.
  - intros t. rewrite count_if_snoc. destruct (bool_decide (t <= now < t + RATE_WINDOW)) eqn:Et; [|pose proof (Ha t); lia].
    apply bool_decide_eq_true in Et.
    pose proof (count_if_split (fun x => bool_decide (t <= x < t + RATE_WINDOW)) (fun x => bool_decide (w <= x))
      (fun x => bool_decide (w - RATE_WINDOW < x < w)) hist) as Hsplit.
    assert (count_if (fun x => bool_decide (t <= x < t + RATE_WINDOW)) hist <= k + (max - 1)); [|lia].
    etrans; [apply Hsplit|rewrite Hc; lia]. intros x Hx Hd%bool_decide_eq_true. rewrite !bool_decide_eq_true. lia.
  - apply Forall_app. split; [done|]. by constructor; [lia|].
  - left. split; [done|lia].
Qed.

Lemma rate_step p q now b hist last w k : 1 <= tb_max_per_window b -> last <= now ->
  rate_inv (tb_max_per_window b) hist last w k (tb_windows b !! p) ->
  let '(admitted, b') := admit_request q now b in
  tb_max_per_window b' = tb_max_per_window b /\
  exists w' k', rate_inv (tb_max_per_window b) (hist ++ (if admitted && bool_decide (q = p) then [now] else [])) now w' k' (tb_windows b' !! p).
Proof.
  intros Hmax Hle Hinv%(rate_later _ _ _ now _ _ _). 2: done. unfold admit_request.
  set (windows := if decide (MAX_RATE_LIMITED_PEERS <= _) then _ else _).
  assert (Hw : rate_inv (tb_max_per_window b) hist now w k (windows !! p)).
  { unfold windows. case_decide; [|done]. destruct Hinv as [? ? ? ? ? ? Hs He]. split; try done.
    destruct He as [[E Hk]|[E Ht]]; [|right; split; [|done]; by apply map_lookup_filter_None; left].
    destruct (decide (duration_since now w < RATE_WINDOW)) as [Hlt|Hge].
    - left. split; [|done]. by apply map_lookup_filter_Some.
    - right. split; [|unfold duration_since in Hge; pose proof rate_window_pos; lia]. apply map_lookup_filter_None. right. intros x E'.
      rewrite E in E'. by injection E' as <-. }
  clearbody windows. destruct (decide (q = p)) as [->|Hq].
  2:{ assert (Hsame : forall b1 v, (b1 : TurnBrokerState) = b1 -> <[q := v]> windows !! p = windows !! p) by (intros; by rewrite lookup_insert_ne).
    repeat case_decide; (split; [done|]); exists w, k; cbn; rewrite ?andb_false_r, ?(bool_decide_eq_false_2 (q = p)), ?app_nil_r by done;
      rewrite ?andb_false_r, ?app_nil_r; by rewrite (Hsame b). }
  destruct (ra_entry _ _ _ _ _ _ Hw) as [[E Hk]|[E Ht]]; rewrite E in *; cbn [default id fst snd].
  - destruct (decide (RATE_WINDOW <= duration_since now w)) as [Hge|Hlt]; cbn [fst snd].
    + rewrite (decide_False (P := tb_max_per_window b <= 0)) by lia. split; [done|]. exists now, 1.
      rewrite bool_decide_eq_true_2 by done. cbn. rewrite lookup_insert_eq. eapply rate_fresh; [done|exact Hw|]. unfold duration_since in Hge.
      pose proof rate_window_pos. lia.
    + case_decide; (split; [done|]).
      * exists w, k. cbn. rewrite app_nil_r, lookup_insert_eq. done.
      * exists w, (k + 1). rewrite bool_decide_eq_true_2 by done. cbn. rewrite lookup_insert_eq. apply rate_more; [done|lia|].
        unfold duration_since in Hlt. lia.
  - assert (Hnow : duration_since now now = 0) by (unfold duration_since; lia). rewrite (decide_False (P := RATE_WINDOW <= _)) by (cbn; rewrite Hnow; pose proof rate_window_pos; lia).
    cbn. rewrite decide_False by lia. split; [done|]. exists now, 1. rewrite bool_decide_eq_true_2 by done. cbn. rewrite lookup_insert_eq.
    eapply rate_fresh; [done|exact Hw|done].
Qed.

(** Requests in the order they arrive. *)
Fixpoint in_order (last : Z) (requests : list (PeerId * Z)) : Prop :=
  match requests with [] => True | (_, now) :: rest => last <= now /\ in_order now rest end.

Lemma admissions_bounded p requests : forall b hist last w k, 1 <= tb_max_per_window b -> in_order last requests ->
  rate_inv (tb_max_per_window b) hist last w k (tb_windows b !! p) ->
  forall t, count_if (fun x => bool_decide (t <= x < t + RATE_WINDOW)) (hist ++ admissions p b requests) <= 2 * tb_max_per_window b - 1.
Proof.
  induction requests as [|[q now] rest IH]; intros b hist last w k Hmax Hord Hinv t; cbn [admissions].
  { rewrite app_nil_r. by apply (ra_any _ _ _ _ _ _ Hinv). }
  destruct Hord as [Hle Hord]. pose proof (rate_step p q now b hist last w k Hmax Hle Hinv) as Hs. destruct (admit_request q now b) as [adm b'].
  destruct Hs as (Em & w' & k' & Hinv'). rewrite app_assoc, <- Em. eapply IH; [by rewrite Em|exact Hord|rewrite Em; exact Hinv'].
Qed.

(** C33: The rate limit of the broker.  However requests arrive, the credentials granted to one
    peer within any sixty seconds number at most twice its allowance less one: the window
    starts anew with the first request after it ends, so the allowance itself
    ([max_requests_per_peer_per_minute]) is not a bound for every minute. *)
Theorem broker_rate_limit c start requests p t :
  1 <= bk_max_requests_per_peer_per_minute c -> in_order start requests ->
  let b := TurnBrokerState_new c start in
  count_in t (t + RATE_WINDOW) (admissions p b requests) <= 2 * bk_max_requests_per_peer_per_minute c - 1.
Proof.
  intros Hmax Hord b. assert (Hm : tb_max_per_window b = bk_max_requests_per_peer_per_minute c) by (unfold b, TurnBrokerState_new; by destruct (bk_provider c)).
  assert (Hw : tb_windows b = ∅) by (unfold b, TurnBrokerState_new; by destruct (bk_provider c)).
  pose proof (admissions_bounded p requests b [] start (start - RATE_WINDOW) 0) as H. rewrite Hm in H. rewrite <- count_if_window. apply H; [done|done|].
  pose proof rate_window_pos. rewrite Hw, lookup_empty. assert (Hnil : forall f, count_if f [] = 0) by done.
  split; rewrite ?Hnil; try lia; [intros; rewrite Hnil; lia|apply Forall_nil_2|right; split; [done|lia]].
Qed.
End trust.
