(* ===== verification/NodeConfig.v ===== *)
(** The node's configuration (crates/node/config.rs, config/, config_validation.rs,
    connectivity/discovery.rs), its profiles and the resolution of capabilities
    (profile.rs, environment.rs, capabilities.rs), and the public-IP probe
    (public_ip.rs). *)

From S2P Require Import Prelude Text Bytes BTree Common Pulse Relay Addresses Connections Namespace PeerCache ConnectionStrategy.
From S2P Require Import RelayDiscovery Rendezvous Dht Dns Lan Turn.
From Stdlib Require Import Ascii Strings.Byte.
From stdpp Require Import pretty.

#[local] Open Scope Z_scope.

(** * The public-IP probe's configuration *)
Definition DEFAULT_PUBLIC_IP_ENDPOINTS : list string :=
  ["https://api.ipify.org"; "https://checkip.amazonaws.com"; "https://ifconfig.me/ip"]%string.

Record PublicIpProbeConfig := { pp_enabled : bool; pp_endpoints : list string; pp_timeout_secs : Z; pp_advertise_listen_addresses : bool }.

Definition PublicIpProbeConfig_default : PublicIpProbeConfig := {|
  pp_enabled := true; pp_endpoints := DEFAULT_PUBLIC_IP_ENDPOINTS; pp_timeout_secs := 2; pp_advertise_listen_addresses := true |}.

Definition PublicIpProbeConfig_validate (c : PublicIpProbeConfig) : result unit NetError :=
  if negb (pp_enabled c) then Ok tt
  else
    let? _ := reject_if (bool_decide (pp_endpoints c = []))
      (config_error "public_ip_probe.enabled is true but public_ip_probe.endpoints is empty") in
    let? _ := reject_if (bool_decide (pp_timeout_secs c = 0) || bool_decide (30 < pp_timeout_secs c))
      (config_error "public_ip_probe.timeout_secs must be between 1 and 30 when enabled") in
    try_for_each (fun endpoint => reject_if (negb (str_starts_with "https://" endpoint))
      (config_error ("public_ip_probe endpoint must use https: `" +:+ endpoint +:+ "`"))) (pp_endpoints c).

(** * Listeners (config/listeners.rs) *)
Record ListenerConfig := { ls_tcp : bool; ls_quic : bool; ls_websocket : bool; ls_webrtc_direct : bool }.
Definition ListenerConfig_default : ListenerConfig := {| ls_tcp := true; ls_quic := true; ls_websocket := true; ls_webrtc_direct := true |}.

Definition default_listen_addresses : list string :=
  ["/ip4/0.0.0.0/udp/4001/quic-v1"; "/ip4/0.0.0.0/udp/4003/webrtc-direct"; "/ip4/0.0.0.0/tcp/4001"; "/ip4/0.0.0.0/tcp/4002/ws"]%string.

(** * Discovery (discovery.rs) *)
Record DiscoveryConfig := {
  dc_peer_cache : PeerCachePolicy;
  dc_bootstrap_seed_peers : list string;
  dc_rendezvous_peers : list string;
  dc_namespace : DiscoveryNamespaceConfig;
  dc_lan : LanDiscoveryConfig;
  dc_public_bootstrap : PublicBootstrapConfig;
  dc_dht : DhtDiscoveryConfig;
  dc_relay_discovery : RelayDiscoveryPolicy;
  dc_rendezvous : RendezvousConfig;
}.

Definition upd_dc_lan (g : LanDiscoveryConfig -> LanDiscoveryConfig) (s : DiscoveryConfig) : DiscoveryConfig := {|
  dc_peer_cache := dc_peer_cache s; dc_bootstrap_seed_peers := dc_bootstrap_seed_peers s;
  dc_rendezvous_peers := dc_rendezvous_peers s; dc_namespace := dc_namespace s; dc_lan := g (dc_lan s);
  dc_public_bootstrap := dc_public_bootstrap s; dc_dht := dc_dht s; dc_relay_discovery := dc_relay_discovery s;
  dc_rendezvous := dc_rendezvous s |}.
Definition upd_dc_rendezvous (g : RendezvousConfig -> RendezvousConfig) (s : DiscoveryConfig) : DiscoveryConfig := {|
  dc_peer_cache := dc_peer_cache s; dc_bootstrap_seed_peers := dc_bootstrap_seed_peers s;
  dc_rendezvous_peers := dc_rendezvous_peers s; dc_namespace := dc_namespace s; dc_lan := dc_lan s;
  dc_public_bootstrap := dc_public_bootstrap s; dc_dht := dc_dht s; dc_relay_discovery := dc_relay_discovery s;
  dc_rendezvous := g (dc_rendezvous s) |}.

Section discovery.
Context {P : PeerIdLib} {M : MultiaddrLib} {RZ : RendezvousLib} {H : HexLib} {B : Blake3Lib}.

Definition DiscoveryConfig_validate (c : DiscoveryConfig) : result unit NetError :=
  let? _ := reject_if (bool_decide (trim (peer_cache_path (dc_peer_cache c)) = "")) (config_error "discovery.peer_cache_path must not be empty") in
  let? _ := reject_if (bool_decide (peer_cache_max_entries (dc_peer_cache c) = 0))
    (config_error "discovery.peer_cache_max_entries must be at least 1") in
  let? _ := reject_if (bool_decide (peer_identity_max_age_secs (dc_peer_cache c) = 0))
    (config_error "discovery.peer_identity_max_age_secs must be at least 1") in
  let? _ := reject_if (bool_decide (peer_cache_public_addr_max_age_secs (dc_peer_cache c) = 0))
    (config_error "discovery.peer_cache_public_addr_max_age_secs must be at least 1") in
  let? _ := reject_if (bool_decide (peer_cache_relay_addr_max_age_secs (dc_peer_cache c) = 0))
    (config_error "discovery.peer_cache_relay_addr_max_age_secs must be at least 1") in
  let? _ := DiscoveryNamespaceConfig_validate (dc_namespace c) in
  let? _ := LanDiscoveryConfig_validate (dc_lan c) in
  let? _ := PublicBootstrapConfig_validate (dc_public_bootstrap c) in
  let? _ := DhtDiscoveryConfig_validate (dc_dht c) in
  let? _ := RelayDiscoveryPolicy_validate (dc_relay_discovery c) in
  let? _ := RendezvousConfig_validate (dc_rendezvous c) in
  let? namespaces := rendezvous_namespaces (dc_namespace c) (rz_namespace (dc_rendezvous c)) 0 in
  try_for_each (fun ns => let? _ := map_err (rz_namespace_new ns) (fun err =>
    config_error ("derived discovery namespace is invalid for rendezvous: " +:+ err)) in Ok tt) namespaces.
End discovery.

(** * The environment (environment.rs) *)
Inductive PlatformKind : Type := Windows | Linux | Macos | Android | Ios | Wasm | UnknownPlatform.
Definition platform_as_str (p : PlatformKind) : string :=
  match p with
  | Windows => "windows" | Linux => "linux" | Macos => "macos" | Android => "android" | Ios => "ios" | Wasm => "wasm"
  | UnknownPlatform => "unknown"
  end.
Definition is_mobile (p : PlatformKind) : bool := match p with Android | Ios => true | _ => false end.
Definition is_wasm (p : PlatformKind) : bool := match p with Wasm => true | _ => false end.

Inductive NetworkReachability : Type := ReachPublic | ReachPrivateNat | ReachCgnatLikely | ReachUnknown.
Definition reachability_as_str (r : NetworkReachability) : string :=
  match r with ReachPublic => "public" | ReachPrivateNat => "private_nat" | ReachCgnatLikely => "cgnat_likely" | ReachUnknown => "unknown" end.
Definition is_public_reach (r : NetworkReachability) : bool := match r with ReachPublic => true | _ => false end.

Inductive NatKind : Type := NatKindPublic | NatKindPrivate | NatKindCgnatLikely | NatKindSymmetric | NatKindRestricted | NatKindUnknown.
Definition nat_as_str (n : NatKind) : string :=
  match n with
  | NatKindPublic => "public" | NatKindPrivate => "private" | NatKindCgnatLikely => "cgnat_likely" | NatKindSymmetric => "symmetric"
  | NatKindRestricted => "restricted" | NatKindUnknown => "unknown"
  end.
Definition implies_cgnat_or_blocked (n : NatKind) : bool :=
  match n with NatKindCgnatLikely | NatKindSymmetric | NatKindRestricted => true | _ => false end.

Record EnvironmentConfig := {
  ev_platform_hint : option PlatformKind; ev_reachability_hint : option NetworkReachability; ev_nat_hint : option NatKind;
  ev_can_listen_tcp : option bool; ev_can_listen_quic : option bool; ev_can_accept_inbound : option bool;
  ev_likely_cgnat : option bool; ev_battery_sensitive : option bool; ev_background_restricted : option bool }.

Definition EnvironmentConfig_default : EnvironmentConfig := {|
  ev_platform_hint := None; ev_reachability_hint := None; ev_nat_hint := None; ev_can_listen_tcp := None; ev_can_listen_quic := None;
  ev_can_accept_inbound := None; ev_likely_cgnat := None; ev_battery_sensitive := None; ev_background_restricted := None |}.

Record EnvironmentReport := {
  er_platform : PlatformKind; er_reachability : NetworkReachability; er_nat_status : NatKind; er_can_listen_tcp : bool;
  er_can_listen_quic : bool; er_can_accept_inbound : bool; er_likely_cgnat : bool; er_battery_sensitive : bool;
  er_background_restricted : bool; er_observed_external_addresses : list string; er_listen_failures : Z }.

Definition reachability_from_hints (nat : NatKind) (likely_cgnat background_restricted : bool) : NetworkReachability :=
  if likely_cgnat then ReachCgnatLikely
  else match nat with
  | NatKindPublic => ReachPublic
  | NatKindPrivate => ReachPrivateNat
  | NatKindCgnatLikely | NatKindSymmetric | NatKindRestricted => ReachCgnatLikely
  | NatKindUnknown => if background_restricted then ReachPrivateNat else ReachUnknown
  end.

(** * The configuration and its profiles (config.rs, profile.rs) *)
Inductive NodeProfile : Type := AutoProfile | FullProfile | LiteProfile | RelayProfile | MediatorProfile | RendezvousProfile | BootstrapProfile | TurnProfile | MobileLiteProfile.
#[global] Instance NodeProfile_eq_dec : EqDecision NodeProfile.
Proof. solve_decision. Defined.

Definition ALL_PROFILES : list NodeProfile :=
  [AutoProfile; FullProfile; LiteProfile; RelayProfile; MediatorProfile; RendezvousProfile; BootstrapProfile; TurnProfile; MobileLiteProfile].
Definition profile_as_str (p : NodeProfile) : string :=
  match p with
  | AutoProfile => "auto" | FullProfile => "full" | LiteProfile => "lite" | RelayProfile => "relay" | MediatorProfile => "mediator"
  | RendezvousProfile => "rendezvous" | BootstrapProfile => "bootstrap" | TurnProfile => "turn" | MobileLiteProfile => "mobile_lite"
  end.
Definition profile_from_str (name : string) : result NodeProfile string :=
  match list_find (fun p => profile_as_str p = name) ALL_PROFILES with
  | Some (_, p) => Ok p
  | None => Err ("unknown profile `" +:+ name +:+ "`; choose one of: " +:+ ConnectionStrategy.join ", " (profile_as_str <$> ALL_PROFILES))
  end.

Record NodeConfig := {
  nc_profile : NodeProfile;
  nc_environment : EnvironmentConfig;
  nc_network_id : Z;
  nc_heartbeat_interval_secs : Z;
  nc_gossipsub_heartbeat_interval_secs : Z;
  nc_ping_interval_secs : Z;
  nc_startup_peer_cache_probe : Z;
  nc_identity_key_path : string;
  nc_webrtc_certificate_path : string;
  nc_listen_addresses : list string;
  nc_external_addresses : list string;
  nc_browser_webrtc : BrowserWebRtcConfig;
  nc_turn : TurnConfig;
  nc_listeners : ListenerConfig;
  nc_bootstrap_peers : list string;
  nc_discovery : DiscoveryConfig;
  nc_public_ip_probe : PublicIpProbeConfig;
  nc_dnsaddr : DnsaddrConfig;
  nc_relay_peers : list string;
  nc_reserve_configured_relays : bool;
  nc_connection_limits : ConnectionLimitsConfig;
  nc_message_security : MessageSecurityConfig;
  nc_dcutr : DcutrPolicy;
  nc_mediator : MediatorConfig;
  nc_relay : RelayServiceConfig;
}.

Definition upd_nc_listen_addresses (g : list string -> list string) (s : NodeConfig) : NodeConfig := {|
  nc_profile := nc_profile s; nc_environment := nc_environment s; nc_network_id := nc_network_id s;
  nc_heartbeat_interval_secs := nc_heartbeat_interval_secs s;
  nc_gossipsub_heartbeat_interval_secs := nc_gossipsub_heartbeat_interval_secs s;
  nc_ping_interval_secs := nc_ping_interval_secs s; nc_startup_peer_cache_probe := nc_startup_peer_cache_probe s;
  nc_identity_key_path := nc_identity_key_path s; nc_webrtc_certificate_path := nc_webrtc_certificate_path s;
  nc_listen_addresses := g (nc_listen_addresses s); nc_external_addresses := nc_external_addresses s;
  nc_browser_webrtc := nc_browser_webrtc s; nc_turn := nc_turn s; nc_listeners := nc_listeners s;
  nc_bootstrap_peers := nc_bootstrap_peers s; nc_discovery := nc_discovery s;
  nc_public_ip_probe := nc_public_ip_probe s; nc_dnsaddr := nc_dnsaddr s; nc_relay_peers := nc_relay_peers s;
  nc_reserve_configured_relays := nc_reserve_configured_relays s; nc_connection_limits := nc_connection_limits s;
  nc_message_security := nc_message_security s; nc_dcutr := nc_dcutr s; nc_mediator := nc_mediator s;
  nc_relay := nc_relay s |}.
Definition upd_nc_turn (g : TurnConfig -> TurnConfig) (s : NodeConfig) : NodeConfig := {|
  nc_profile := nc_profile s; nc_environment := nc_environment s; nc_network_id := nc_network_id s;
  nc_heartbeat_interval_secs := nc_heartbeat_interval_secs s;
  nc_gossipsub_heartbeat_interval_secs := nc_gossipsub_heartbeat_interval_secs s;
  nc_ping_interval_secs := nc_ping_interval_secs s; nc_startup_peer_cache_probe := nc_startup_peer_cache_probe s;
  nc_identity_key_path := nc_identity_key_path s; nc_webrtc_certificate_path := nc_webrtc_certificate_path s;
  nc_listen_addresses := nc_listen_addresses s; nc_external_addresses := nc_external_addresses s;
  nc_browser_webrtc := nc_browser_webrtc s; nc_turn := g (nc_turn s); nc_listeners := nc_listeners s;
  nc_bootstrap_peers := nc_bootstrap_peers s; nc_discovery := nc_discovery s;
  nc_public_ip_probe := nc_public_ip_probe s; nc_dnsaddr := nc_dnsaddr s; nc_relay_peers := nc_relay_peers s;
  nc_reserve_configured_relays := nc_reserve_configured_relays s; nc_connection_limits := nc_connection_limits s;
  nc_message_security := nc_message_security s; nc_dcutr := nc_dcutr s; nc_mediator := nc_mediator s;
  nc_relay := nc_relay s |}.
Definition upd_nc_listeners (g : ListenerConfig -> ListenerConfig) (s : NodeConfig) : NodeConfig := {|
  nc_profile := nc_profile s; nc_environment := nc_environment s; nc_network_id := nc_network_id s;
  nc_heartbeat_interval_secs := nc_heartbeat_interval_secs s;
  nc_gossipsub_heartbeat_interval_secs := nc_gossipsub_heartbeat_interval_secs s;
  nc_ping_interval_secs := nc_ping_interval_secs s; nc_startup_peer_cache_probe := nc_startup_peer_cache_probe s;
  nc_identity_key_path := nc_identity_key_path s; nc_webrtc_certificate_path := nc_webrtc_certificate_path s;
  nc_listen_addresses := nc_listen_addresses s; nc_external_addresses := nc_external_addresses s;
  nc_browser_webrtc := nc_browser_webrtc s; nc_turn := nc_turn s; nc_listeners := g (nc_listeners s);
  nc_bootstrap_peers := nc_bootstrap_peers s; nc_discovery := nc_discovery s;
  nc_public_ip_probe := nc_public_ip_probe s; nc_dnsaddr := nc_dnsaddr s; nc_relay_peers := nc_relay_peers s;
  nc_reserve_configured_relays := nc_reserve_configured_relays s; nc_connection_limits := nc_connection_limits s;
  nc_message_security := nc_message_security s; nc_dcutr := nc_dcutr s; nc_mediator := nc_mediator s;
  nc_relay := nc_relay s |}.
Definition upd_nc_discovery (g : DiscoveryConfig -> DiscoveryConfig) (s : NodeConfig) : NodeConfig := {|
  nc_profile := nc_profile s; nc_environment := nc_environment s; nc_network_id := nc_network_id s;
  nc_heartbeat_interval_secs := nc_heartbeat_interval_secs s;
  nc_gossipsub_heartbeat_interval_secs := nc_gossipsub_heartbeat_interval_secs s;
  nc_ping_interval_secs := nc_ping_interval_secs s; nc_startup_peer_cache_probe := nc_startup_peer_cache_probe s;
  nc_identity_key_path := nc_identity_key_path s; nc_webrtc_certificate_path := nc_webrtc_certificate_path s;
  nc_listen_addresses := nc_listen_addresses s; nc_external_addresses := nc_external_addresses s;
  nc_browser_webrtc := nc_browser_webrtc s; nc_turn := nc_turn s; nc_listeners := nc_listeners s;
  nc_bootstrap_peers := nc_bootstrap_peers s; nc_discovery := g (nc_discovery s);
  nc_public_ip_probe := nc_public_ip_probe s; nc_dnsaddr := nc_dnsaddr s; nc_relay_peers := nc_relay_peers s;
  nc_reserve_configured_relays := nc_reserve_configured_relays s; nc_connection_limits := nc_connection_limits s;
  nc_message_security := nc_message_security s; nc_dcutr := nc_dcutr s; nc_mediator := nc_mediator s;
  nc_relay := nc_relay s |}.
Definition upd_nc_public_ip_probe (g : PublicIpProbeConfig -> PublicIpProbeConfig) (s : NodeConfig) : NodeConfig := {|
  nc_profile := nc_profile s; nc_environment := nc_environment s; nc_network_id := nc_network_id s;
  nc_heartbeat_interval_secs := nc_heartbeat_interval_secs s;
  nc_gossipsub_heartbeat_interval_secs := nc_gossipsub_heartbeat_interval_secs s;
  nc_ping_interval_secs := nc_ping_interval_secs s; nc_startup_peer_cache_probe := nc_startup_peer_cache_probe s;
  nc_identity_key_path := nc_identity_key_path s; nc_webrtc_certificate_path := nc_webrtc_certificate_path s;
  nc_listen_addresses := nc_listen_addresses s; nc_external_addresses := nc_external_addresses s;
  nc_browser_webrtc := nc_browser_webrtc s; nc_turn := nc_turn s; nc_listeners := nc_listeners s;
  nc_bootstrap_peers := nc_bootstrap_peers s; nc_discovery := nc_discovery s;
  nc_public_ip_probe := g (nc_public_ip_probe s); nc_dnsaddr := nc_dnsaddr s; nc_relay_peers := nc_relay_peers s;
  nc_reserve_configured_relays := nc_reserve_configured_relays s; nc_connection_limits := nc_connection_limits s;
  nc_message_security := nc_message_security s; nc_dcutr := nc_dcutr s; nc_mediator := nc_mediator s;
  nc_relay := nc_relay s |}.
Definition upd_nc_reserve_configured_relays (g : bool -> bool) (s : NodeConfig) : NodeConfig := {|
  nc_profile := nc_profile s; nc_environment := nc_environment s; nc_network_id := nc_network_id s;
  nc_heartbeat_interval_secs := nc_heartbeat_interval_secs s;
  nc_gossipsub_heartbeat_interval_secs := nc_gossipsub_heartbeat_interval_secs s;
  nc_ping_interval_secs := nc_ping_interval_secs s; nc_startup_peer_cache_probe := nc_startup_peer_cache_probe s;
  nc_identity_key_path := nc_identity_key_path s; nc_webrtc_certificate_path := nc_webrtc_certificate_path s;
  nc_listen_addresses := nc_listen_addresses s; nc_external_addresses := nc_external_addresses s;
  nc_browser_webrtc := nc_browser_webrtc s; nc_turn := nc_turn s; nc_listeners := nc_listeners s;
  nc_bootstrap_peers := nc_bootstrap_peers s; nc_discovery := nc_discovery s;
  nc_public_ip_probe := nc_public_ip_probe s; nc_dnsaddr := nc_dnsaddr s; nc_relay_peers := nc_relay_peers s;
  nc_reserve_configured_relays := g (nc_reserve_configured_relays s);
  nc_connection_limits := nc_connection_limits s; nc_message_security := nc_message_security s;
  nc_dcutr := nc_dcutr s; nc_mediator := nc_mediator s; nc_relay := nc_relay s |}.
Definition upd_nc_dcutr (g : DcutrPolicy -> DcutrPolicy) (s : NodeConfig) : NodeConfig := {|
  nc_profile := nc_profile s; nc_environment := nc_environment s; nc_network_id := nc_network_id s;
  nc_heartbeat_interval_secs := nc_heartbeat_interval_secs s;
  nc_gossipsub_heartbeat_interval_secs := nc_gossipsub_heartbeat_interval_secs s;
  nc_ping_interval_secs := nc_ping_interval_secs s; nc_startup_peer_cache_probe := nc_startup_peer_cache_probe s;
  nc_identity_key_path := nc_identity_key_path s; nc_webrtc_certificate_path := nc_webrtc_certificate_path s;
  nc_listen_addresses := nc_listen_addresses s; nc_external_addresses := nc_external_addresses s;
  nc_browser_webrtc := nc_browser_webrtc s; nc_turn := nc_turn s; nc_listeners := nc_listeners s;
  nc_bootstrap_peers := nc_bootstrap_peers s; nc_discovery := nc_discovery s;
  nc_public_ip_probe := nc_public_ip_probe s; nc_dnsaddr := nc_dnsaddr s; nc_relay_peers := nc_relay_peers s;
  nc_reserve_configured_relays := nc_reserve_configured_relays s; nc_connection_limits := nc_connection_limits s;
  nc_message_security := nc_message_security s; nc_dcutr := g (nc_dcutr s); nc_mediator := nc_mediator s;
  nc_relay := nc_relay s |}.
Definition upd_nc_mediator (g : MediatorConfig -> MediatorConfig) (s : NodeConfig) : NodeConfig := {|
  nc_profile := nc_profile s; nc_environment := nc_environment s; nc_network_id := nc_network_id s;
  nc_heartbeat_interval_secs := nc_heartbeat_interval_secs s;
  nc_gossipsub_heartbeat_interval_secs := nc_gossipsub_heartbeat_interval_secs s;
  nc_ping_interval_secs := nc_ping_interval_secs s; nc_startup_peer_cache_probe := nc_startup_peer_cache_probe s;
  nc_identity_key_path := nc_identity_key_path s; nc_webrtc_certificate_path := nc_webrtc_certificate_path s;
  nc_listen_addresses := nc_listen_addresses s; nc_external_addresses := nc_external_addresses s;
  nc_browser_webrtc := nc_browser_webrtc s; nc_turn := nc_turn s; nc_listeners := nc_listeners s;
  nc_bootstrap_peers := nc_bootstrap_peers s; nc_discovery := nc_discovery s;
  nc_public_ip_probe := nc_public_ip_probe s; nc_dnsaddr := nc_dnsaddr s; nc_relay_peers := nc_relay_peers s;
  nc_reserve_configured_relays := nc_reserve_configured_relays s; nc_connection_limits := nc_connection_limits s;
  nc_message_security := nc_message_security s; nc_dcutr := nc_dcutr s; nc_mediator := g (nc_mediator s);
  nc_relay := nc_relay s |}.
Definition upd_nc_relay (g : RelayServiceConfig -> RelayServiceConfig) (s : NodeConfig) : NodeConfig := {|
  nc_profile := nc_profile s; nc_environment := nc_environment s; nc_network_id := nc_network_id s;
  nc_heartbeat_interval_secs := nc_heartbeat_interval_secs s;
  nc_gossipsub_heartbeat_interval_secs := nc_gossipsub_heartbeat_interval_secs s;
  nc_ping_interval_secs := nc_ping_interval_secs s; nc_startup_peer_cache_probe := nc_startup_peer_cache_probe s;
  nc_identity_key_path := nc_identity_key_path s; nc_webrtc_certificate_path := nc_webrtc_certificate_path s;
  nc_listen_addresses := nc_listen_addresses s; nc_external_addresses := nc_external_addresses s;
  nc_browser_webrtc := nc_browser_webrtc s; nc_turn := nc_turn s; nc_listeners := nc_listeners s;
  nc_bootstrap_peers := nc_bootstrap_peers s; nc_discovery := nc_discovery s;
  nc_public_ip_probe := nc_public_ip_probe s; nc_dnsaddr := nc_dnsaddr s; nc_relay_peers := nc_relay_peers s;
  nc_reserve_configured_relays := nc_reserve_configured_relays s; nc_connection_limits := nc_connection_limits s;
  nc_message_security := nc_message_security s; nc_dcutr := nc_dcutr s; nc_mediator := nc_mediator s;
  nc_relay := g (nc_relay s) |}.

Definition DiscoveryConfig_default {RZ : RendezvousLib} : DiscoveryConfig := {|
  dc_peer_cache := {| peer_cache_path := ".p2p-net-peer-cache.json"; peer_cache_max_entries := 64; peer_cache_max_age_secs := 30 * 24 * 60 * 60;
    peer_identity_max_age_secs := 30 * 24 * 60 * 60; peer_cache_public_addr_max_age_secs := 10 * 60;
    peer_cache_relay_addr_max_age_secs := 2 * 60 * 60; peer_cache_persist_local_addrs := false; peer_cache_local_addr_max_age_secs := 0;
    peer_cache_max_failures := 3 |};
  dc_bootstrap_seed_peers := []; dc_rendezvous_peers := []; dc_namespace := DiscoveryNamespaceConfig_default; dc_lan := LanDiscoveryConfig_default;
  dc_public_bootstrap := PublicBootstrapConfig_default; dc_dht := DhtDiscoveryConfig_default; dc_relay_discovery := RelayDiscoveryPolicy_default;
  dc_rendezvous := RendezvousConfig_default |}.

Definition NodeConfig_default {RZ : RendezvousLib} : NodeConfig := {|
  nc_profile := AutoProfile; nc_environment := EnvironmentConfig_default; nc_network_id := 1; nc_heartbeat_interval_secs := 30;
  nc_gossipsub_heartbeat_interval_secs := 5; nc_ping_interval_secs := 15; nc_startup_peer_cache_probe := 5;
  nc_identity_key_path := ".p2p-net-identity-key"; nc_webrtc_certificate_path := ".p2p-net-webrtc-cert.pem";
  nc_listen_addresses := default_listen_addresses; nc_external_addresses := []; nc_browser_webrtc := BrowserWebRtcConfig_default;
  nc_turn := TurnConfig_default; nc_listeners := ListenerConfig_default; nc_bootstrap_peers := []; nc_discovery := DiscoveryConfig_default;
  nc_public_ip_probe := PublicIpProbeConfig_default; nc_dnsaddr := DnsaddrConfig_default; nc_relay_peers := [];
  nc_reserve_configured_relays := true; nc_connection_limits := ConnectionLimitsConfig_default;
  nc_message_security := MessageSecurityConfig_default; nc_dcutr := DcutrPolicy_default; nc_mediator := MediatorConfig_default;
  nc_relay := RelayServiceConfig_default |}.

(** The switches that profiles and the resolution set. *)
Definition set_relay_enabled (b : bool) (r : RelayServiceConfig) : RelayServiceConfig := {|
  enabled := b; access := access r; allow_peers := allow_peers r; deny_peers := deny_peers r; max_reservations := max_reservations r;
  max_reservations_per_peer := max_reservations_per_peer r; reservation_duration_secs := reservation_duration_secs r;
  max_circuits := max_circuits r; max_circuits_per_peer := max_circuits_per_peer r; max_circuit_duration_secs := max_circuit_duration_secs r;
  max_circuit_bytes := max_circuit_bytes r; reservation_rate_per_peer_per_min := reservation_rate_per_peer_per_min r;
  reservation_rate_per_ip_per_min := reservation_rate_per_ip_per_min r; circuit_rate_per_peer_per_min := circuit_rate_per_peer_per_min r;
  circuit_rate_per_ip_per_min := circuit_rate_per_ip_per_min r; schedule := schedule r |}.
Definition set_mediator_enabled (b : bool) (m : MediatorConfig) : MediatorConfig := {|
  md_enabled := b; advertise_for_dcutr := advertise_for_dcutr m; allow_reservations := allow_reservations m; allow_circuits := allow_circuits m;
  require_authenticated_peers := require_authenticated_peers m; max_mediated_peers := max_mediated_peers m;
  md_max_reservations := md_max_reservations m; md_max_circuits := md_max_circuits m |}.
Definition set_rendezvous (client server : bool) (r : RendezvousConfig) : RendezvousConfig := {|
  rz_client_enabled := client; rz_server_enabled := server; rz_namespace := rz_namespace r; rz_register := rz_register r;
  rz_discover := rz_discover r; rz_register_ttl_secs := rz_register_ttl_secs r; rz_discover_limit := rz_discover_limit r;
  rz_server_min_ttl_secs := rz_server_min_ttl_secs r; rz_server_max_ttl_secs := rz_server_max_ttl_secs r;
  rz_server_max_registrations_per_peer := rz_server_max_registrations_per_peer r;
  rz_server_max_registrations_total := rz_server_max_registrations_total r; rz_server_max_stored_cookies := rz_server_max_stored_cookies r |}.
Definition set_dcutr_enabled (b : bool) (d : DcutrPolicy) : DcutrPolicy := {|
  dp_enabled := b; attempt_after_relay_connection := attempt_after_relay_connection d; keep_relay_fallback := keep_relay_fallback d;
  retry_interval_secs := retry_interval_secs d; max_attempts_per_peer := max_attempts_per_peer d |}.
Definition set_lan_enabled (b : bool) (l : LanDiscoveryConfig) : LanDiscoveryConfig := {|
  lan_enabled := b; lan_port := lan_port l; announce_interval_secs := announce_interval_secs l |}.
Definition set_probe_enabled (b : bool) (p : PublicIpProbeConfig) : PublicIpProbeConfig := {|
  pp_enabled := b; pp_endpoints := pp_endpoints p; pp_timeout_secs := pp_timeout_secs p;
  pp_advertise_listen_addresses := pp_advertise_listen_addresses p |}.
Definition set_turn_service (server broker : bool) (t : TurnConfig) : TurnConfig := {|
  turn_client := turn_client t;
  turn_server := {| sv_enabled := server; sv_bind_ip := sv_bind_ip (turn_server t); sv_listen_port := sv_listen_port (turn_server t);
    sv_public_ip := sv_public_ip (turn_server t); sv_public_host := sv_public_host (turn_server t); sv_realm := sv_realm (turn_server t);
    sv_shared_secret := sv_shared_secret (turn_server t); sv_relay_port_min := sv_relay_port_min (turn_server t);
    sv_relay_port_max := sv_relay_port_max (turn_server t); sv_allow_private_peers := sv_allow_private_peers (turn_server t) |};
  turn_broker := {| bk_enabled := broker; bk_provider := bk_provider (turn_broker t);
    bk_credential_ttl_secs := bk_credential_ttl_secs (turn_broker t);
    bk_max_requests_per_peer_per_minute := bk_max_requests_per_peer_per_minute (turn_broker t) |} |}.

Definition rendezvous_client (c : NodeConfig) : bool := rz_client_enabled (dc_rendezvous (nc_discovery c)).
Definition rendezvous_server (c : NodeConfig) : bool := rz_server_enabled (dc_rendezvous (nc_discovery c)).

(** [NodeProfile::apply_to] *)
Definition apply_profile (p : NodeProfile) (c : NodeConfig) : NodeConfig :=
  match p with
  | AutoProfile | FullProfile | BootstrapProfile => c
  | LiteProfile | MobileLiteProfile =>
      upd_nc_discovery (upd_dc_rendezvous (set_rendezvous (rendezvous_client c) false)) (upd_nc_relay (set_relay_enabled false) c)
  | RelayProfile => upd_nc_relay (set_relay_enabled true) c
  | MediatorProfile => upd_nc_relay (set_relay_enabled true) (upd_nc_mediator (set_mediator_enabled true) c)
  | RendezvousProfile => upd_nc_discovery (upd_dc_rendezvous (set_rendezvous true true)) c
  | TurnProfile => upd_nc_turn (set_turn_service true true) c
  end.

Definition with_profile_defaults_applied (c : NodeConfig) : NodeConfig := apply_profile (nc_profile c) c.

Section node_config.
Context {P : PeerIdLib} {M : MultiaddrLib}.

Fixpoint listener_allows_loop (l : ListenerConfig) (is_tcp : bool) (protocols : list Protocol) : bool :=
  match protocols with
  | [] => negb is_tcp || ls_tcp l
  | Tcp _ :: rest => listener_allows_loop l true rest
  | Quic :: _ | QuicV1 :: _ => ls_quic l
  | Ws :: _ | Wss :: _ => ls_websocket l
  | WebRTCDirect :: _ | P2pWebRtcDirect :: _ => ls_webrtc_direct l
  | _ :: rest => listener_allows_loop l is_tcp rest
  end.
Definition listener_allows (l : ListenerConfig) (addr : Multiaddr) : bool := listener_allows_loop l false (addr_iter addr).

Definition parse_addr (field raw : string) : result Multiaddr NetError :=
  map_err (addr_parse raw) (fun err => config_error (field +:+ " contains invalid multiaddr `" +:+ raw +:+ "`: " +:+ err)).
Definition parse_multiaddrs (field : string) (values : list string) : result (list Multiaddr) NetError := try_collect (parse_addr field) values.

Definition parsed_listen_addresses (c : NodeConfig) : result (list Multiaddr) NetError := parse_multiaddrs "listen_addresses" (nc_listen_addresses c).
Definition enabled_listen_addresses (c : NodeConfig) : result (list Multiaddr) NetError :=
  let? addrs := parsed_listen_addresses c in Ok (filter (fun a => listener_allows (nc_listeners c) a = true) addrs).
Definition parsed_external_addresses (c : NodeConfig) : result (list Multiaddr) NetError :=
  parse_multiaddrs "external_addresses" (nc_external_addresses c).
Definition parsed_bootstrap_peers (c : NodeConfig) : result (list Multiaddr) NetError := parse_multiaddrs "bootstrap_peers" (nc_bootstrap_peers c).
Definition parsed_relay_peers (c : NodeConfig) : result (list Multiaddr) NetError := parse_multiaddrs "relay_peers" (nc_relay_peers c).
Definition parsed_bootstrap_seed_peers (c : NodeConfig) : result (list Multiaddr) NetError :=
  parse_multiaddrs "discovery.bootstrap_seed_peers" (dc_bootstrap_seed_peers (nc_discovery c)).
Definition parsed_rendezvous_peers (c : NodeConfig) : result (list Multiaddr) NetError :=
  parse_multiaddrs "discovery.rendezvous_peers" (dc_rendezvous_peers (nc_discovery c)).
Definition parsed_public_bootstrap_seed_peers (c : NodeConfig) : result (list Multiaddr) NetError :=
  parse_multiaddrs "discovery.public_bootstrap.bootstrap_seed_peers" (pb_bootstrap_seed_peers (dc_public_bootstrap (nc_discovery c))).
Definition parsed_public_rendezvous_peers (c : NodeConfig) : result (list Multiaddr) NetError :=
  parse_multiaddrs "discovery.public_bootstrap.rendezvous_peers" (pb_rendezvous_peers (dc_public_bootstrap (nc_discovery c))).
Definition parsed_public_relay_peers (c : NodeConfig) : result (list Multiaddr) NetError :=
  parse_multiaddrs "discovery.public_bootstrap.relay_peers" (pb_relay_peers (dc_public_bootstrap (nc_discovery c))).

(** * Validation (config_validation.rs) *)
Definition validate_listen_addrs (field : string) (values : list string) : result unit NetError :=
  try_for_each (fun raw =>
    let? addr := parse_addr field raw in
    reject_if (has_any_dns addr) (config_error (field
      +:+ " entries must use concrete /ip4 or /ip6 listen addresses; DNS multiaddrs are only supported for dialing: `" +:+ raw +:+ "`"))) values.

(** [raw.split_once("/p2p/")], then the text up to the next slash *)
Fixpoint after_chars (needle l : list ascii) : option (list ascii) :=
  if decide (take (length needle) l = needle) then Some (drop (length needle) l)
  else match l with [] => None | _ :: l' => after_chars needle l' end.
Definition p2p_text (raw : string) : option string :=
  (fun tail => str_before (text tail) "/") <$> after_chars (chars "/p2p/") (chars raw).

Definition validate_peer_addrs (field : string) (require_p2p : bool) (values : list string) : result unit NetError :=
  try_for_each (fun raw =>
    let? _ := parse_addr field raw in
    match p2p_text raw with
    | Some peer_id =>
        let? _ := map_err (peer_parse peer_id) (fun err =>
          config_error (field +:+ " contains invalid peer id `" +:+ peer_id +:+ "` in `" +:+ raw +:+ "`: " +:+ err)) in Ok tt
    | None => reject_if require_p2p (config_error (field +:+ " entries must include /p2p/<PeerId>; bad entry `" +:+ raw +:+ "`"))
    end) values.

Definition validate_dnsaddr_use (field : string) (d : DnsaddrConfig) (values : list string) : result unit NetError :=
  if dn_enabled d then Ok tt
  else try_for_each (fun raw =>
    let? addr := parse_addr field raw in
    reject_if (has_dnsaddr addr) (config_error (field +:+ " contains /dnsaddr entry `" +:+ raw +:+ "` but dnsaddr.enabled is false"))) values.

Definition validate_dial_list (c : NodeConfig) (field : string) (values : list string) : result unit NetError :=
  let? _ := validate_peer_addrs field true values in validate_dnsaddr_use field (nc_dnsaddr c) values.

Context {U : UrlLib} {I : IpText} {RZ : RendezvousLib} {H : HexLib} {B : Blake3Lib}.

Definition validate_webrtc_and_turn (c : NodeConfig) : result unit NetError :=
  let webrtc := nc_browser_webrtc c in
  let? _ := BrowserWebRtcConfig_validate webrtc in
  let turn := nc_turn (with_profile_defaults_applied c) in
  let turn := {| turn_client := with_legacy_turn webrtc (turn_client turn); turn_server := turn_server turn; turn_broker := turn_broker turn |} in
  let? _ := TurnConfig_validate turn in
  let? _ := reject_if (sv_enabled (turn_server turn) && bool_decide (sv_public_ip (turn_server turn) = None) && negb (pp_enabled (nc_public_ip_probe c)))
    (config_error "turn.server needs turn.server.public_ip when public_ip_probe is disabled") in
  let? _ := reject_if (negb (wr_enabled webrtc) && has_explicit_sources (turn_client turn))
    (config_error "turn.client sources only feed browser WebRTC, but browser_webrtc.enabled is false") in
  reject_if (bool_decide (MAX_ICE_SERVERS < len (stun_servers webrtc) + tk_max_servers (turn_client turn)))
    (config_error ("browser_webrtc STUN servers plus turn.client.max_servers must not exceed " +:+ pretty MAX_ICE_SERVERS +:+ " ICE servers")).

Definition validate_node_config (c : NodeConfig) : result unit NetError :=
  let? _ := reject_if (bool_decide (nc_heartbeat_interval_secs c = 0)) (config_error "heartbeat_interval_secs must be at least 1") in
  let? _ := reject_if (bool_decide (nc_gossipsub_heartbeat_interval_secs c = 0))
    (config_error "gossipsub_heartbeat_interval_secs must be at least 1") in
  let? _ := reject_if (bool_decide (nc_ping_interval_secs c = 0)) (config_error "ping_interval_secs must be at least 1") in
  let? _ := reject_if (bool_decide (trim (nc_identity_key_path c) = "")) (config_error "identity_key_path must not be empty") in
  let? _ := reject_if (bool_decide (trim (nc_webrtc_certificate_path c) = "")) (config_error "webrtc_certificate_path must not be empty") in
  let? _ := DnsaddrConfig_validate (nc_dnsaddr c) in
  let? _ := PublicIpProbeConfig_validate (nc_public_ip_probe c) in
  let? _ := validate_webrtc_and_turn c in
  let? _ := validate_listen_addrs "listen_addresses" (nc_listen_addresses c) in
  let? _ := parsed_external_addresses c in
  let d := nc_discovery c in
  let? _ := validate_dial_list c "bootstrap_peers" (nc_bootstrap_peers c) in
  let? _ := validate_dial_list c "discovery.bootstrap_seed_peers" (dc_bootstrap_seed_peers d) in
  let? _ := validate_dial_list c "discovery.public_bootstrap.bootstrap_seed_peers" (pb_bootstrap_seed_peers (dc_public_bootstrap d)) in
  let? _ := validate_dial_list c "discovery.public_bootstrap.rendezvous_peers" (pb_rendezvous_peers (dc_public_bootstrap d)) in
  let? _ := validate_dial_list c "discovery.public_bootstrap.relay_peers" (pb_relay_peers (dc_public_bootstrap d)) in
  let? _ := validate_dial_list c "discovery.rendezvous_peers" (dc_rendezvous_peers d) in
  let? _ := validate_dial_list c "relay_peers" (nc_relay_peers c) in
  let? _ := DiscoveryConfig_validate d in
  let? _ := ConnectionLimitsConfig_validate (nc_connection_limits c) in
  let? _ := MessageSecurityConfig_validate (nc_message_security c) in
  let? _ := DcutrPolicy_validate (nc_dcutr c) in
  let? _ := RelayServiceConfig_validate (nc_relay c) in
  MediatorConfig_validate (nc_mediator c) (nc_relay c).

(** * Detection of the environment *)
Definition hint {A} (f : EnvironmentConfig -> option A) (c : NodeConfig) (runtime : option EnvironmentConfig) (d : A) : A :=
  default d (match f (nc_environment c) with Some x => Some x | None => runtime ≫= f end).

(** [current] is [PlatformKind::current], what the program was built for. *)
Definition detect_with_optional_runtime (current : PlatformKind) (c : NodeConfig) (runtime : option EnvironmentConfig) : EnvironmentReport :=
  let platform := hint ev_platform_hint c runtime current in
  let addrs := match enabled_listen_addresses c with Ok l => addr_to_string <$> l | Err _ => [] end in
  let can_listen_tcp := hint ev_can_listen_tcp c runtime (existsb (fun a => str_contains a "/tcp/") addrs) in
  let can_listen_quic := hint ev_can_listen_quic c runtime (existsb (fun a => str_contains a "/udp/" && str_contains a "/quic") addrs) in
  let nat_status := hint ev_nat_hint c runtime NatKindUnknown in
  let reachability_hint := hint (fun e => Some <$> ev_reachability_hint e) c runtime None in
  let inferred_cgnat := implies_cgnat_or_blocked nat_status ||
    match reachability_hint with Some ReachCgnatLikely => true | _ => false end in
  let likely_cgnat := hint ev_likely_cgnat c runtime inferred_cgnat in
  let battery_sensitive := hint ev_battery_sensitive c runtime (is_mobile platform) in
  let background_restricted := hint ev_background_restricted c runtime (is_mobile platform || is_wasm platform) in
  let reachability := default (reachability_from_hints nat_status likely_cgnat background_restricted) reachability_hint in
  let can_accept_inbound := hint ev_can_accept_inbound c runtime
    (is_public_reach reachability && (can_listen_tcp || can_listen_quic) && negb background_restricted) in
  {| er_platform := platform; er_reachability := reachability; er_nat_status := nat_status; er_can_listen_tcp := can_listen_tcp;
     er_can_listen_quic := can_listen_quic; er_can_accept_inbound := can_accept_inbound; er_likely_cgnat := likely_cgnat;
     er_battery_sensitive := battery_sensitive; er_background_restricted := background_restricted;
     er_observed_external_addresses := []; er_listen_failures := 0 |}.
End node_config.

Definition apply_nat_observation (nat : NatKind) (e : EnvironmentReport) : EnvironmentReport :=
  let reachability := match nat with
    | NatKindPublic => ReachPublic | NatKindPrivate => ReachPrivateNat
    | NatKindCgnatLikely | NatKindSymmetric | NatKindRestricted => ReachCgnatLikely
    | NatKindUnknown => er_reachability e end in
  {| er_platform := er_platform e; er_reachability := reachability; er_nat_status := nat; er_can_listen_tcp := er_can_listen_tcp e;
     er_can_listen_quic := er_can_listen_quic e;
     er_can_accept_inbound := is_public_reach reachability && (er_can_listen_tcp e || er_can_listen_quic e) && negb (er_background_restricted e);
     er_likely_cgnat := implies_cgnat_or_blocked nat; er_battery_sensitive := er_battery_sensitive e;
     er_background_restricted := er_background_restricted e; er_observed_external_addresses := er_observed_external_addresses e;
     er_listen_failures := er_listen_failures e |}.

Definition add_observed_external_address (addr : string) (e : EnvironmentReport) : EnvironmentReport :=
  {| er_platform := er_platform e; er_reachability := er_reachability e; er_nat_status := er_nat_status e; er_can_listen_tcp := er_can_listen_tcp e;
     er_can_listen_quic := er_can_listen_quic e; er_can_accept_inbound := er_can_accept_inbound e; er_likely_cgnat := er_likely_cgnat e;
     er_battery_sensitive := er_battery_sensitive e; er_background_restricted := er_background_restricted e;
     er_observed_external_addresses := if decide (addr ∈ er_observed_external_addresses e) then er_observed_external_addresses e
       else er_observed_external_addresses e ++ [addr];
     er_listen_failures := er_listen_failures e |}.

Definition record_listen_failure (e : EnvironmentReport) : EnvironmentReport :=
  let failures := sat_add usize_max (er_listen_failures e) 1 in
  {| er_platform := er_platform e;
     er_reachability := if bool_decide (0 < failures) && negb (er_can_accept_inbound e) then ReachPrivateNat else er_reachability e;
     er_nat_status := er_nat_status e; er_can_listen_tcp := er_can_listen_tcp e; er_can_listen_quic := er_can_listen_quic e;
     er_can_accept_inbound := er_can_accept_inbound e; er_likely_cgnat := er_likely_cgnat e; er_battery_sensitive := er_battery_sensitive e;
     er_background_restricted := er_background_restricted e; er_observed_external_addresses := er_observed_external_addresses e;
     er_listen_failures := failures |}.

(** * Roles and capabilities (profile.rs, capabilities.rs) *)
Inductive NodeRole : Type :=
  FullRole | LiteRole | RelayRole | MediatorRole | RendezvousRole | BootstrapRole | TurnRole | MobileLiteRole | WasmLiteRole.

Definition role_as_str (r : NodeRole) : string :=
  match r with
  | FullRole => "full" | LiteRole => "lite" | RelayRole => "relay" | MediatorRole => "mediator" | RendezvousRole => "rendezvous"
  | BootstrapRole => "bootstrap" | TurnRole => "turn" | MobileLiteRole => "mobile_lite" | WasmLiteRole => "wasm_lite"
  end.

Definition is_lite (r : NodeRole) : bool := match r with LiteRole | MobileLiteRole | WasmLiteRole => true | _ => false end.
Definition is_wasm_role (r : NodeRole) : bool := match r with WasmLiteRole => true | _ => false end.
Definition no_public_listeners (r : NodeRole) : bool := match r with MobileLiteRole | WasmLiteRole => true | _ => false end.
Definition is_infrastructure (r : NodeRole) : bool :=
  match r with RelayRole | MediatorRole | RendezvousRole | BootstrapRole | TurnRole => true | _ => false end.

Record BehaviourSet := {
  b_gossipsub : bool; b_kademlia_client : bool; b_kademlia_server : bool; b_autonat : bool; b_dcutr : bool; b_relay_client : bool;
  b_relay_server : bool; b_rendezvous_client : bool; b_rendezvous_server : bool; b_identify : bool; b_ping : bool }.

Definition with_infrastructure_defaults (infrastructure : bool) (b : BehaviourSet) : BehaviourSet :=
  if infrastructure then {|
    b_gossipsub := b_gossipsub b; b_kademlia_client := b_kademlia_client b; b_kademlia_server := true; b_autonat := b_autonat b;
    b_dcutr := b_dcutr b; b_relay_client := b_relay_client b; b_relay_server := b_relay_server b;
    b_rendezvous_client := b_rendezvous_client b; b_rendezvous_server := b_rendezvous_server b; b_identify := true; b_ping := true |}
  else b.

Definition for_role (role : NodeRole) (c : NodeConfig) : BehaviourSet :=
  with_infrastructure_defaults (is_infrastructure role) {|
    b_gossipsub := true; b_kademlia_client := true; b_kademlia_server := negb (is_lite role);
    b_autonat := negb (is_wasm_role role); b_dcutr := negb (is_wasm_role role); b_relay_client := true;
    b_relay_server := match role with RelayRole | MediatorRole => true | _ => false end || enabled (nc_relay c) || md_enabled (nc_mediator c);
    b_rendezvous_client := rendezvous_client c || is_lite role;
    b_rendezvous_server := match role with RendezvousRole => true | _ => false end || rendezvous_server c;
    b_identify := true; b_ping := true |}.

Definition narrow_dcutr (b : BehaviourSet) (dcutr : bool) : BehaviourSet := {|
  b_gossipsub := b_gossipsub b; b_kademlia_client := b_kademlia_client b; b_kademlia_server := b_kademlia_server b;
  b_autonat := b_autonat b; b_dcutr := b_dcutr b && (dcutr && b_relay_client b); b_relay_client := b_relay_client b;
  b_relay_server := b_relay_server b; b_rendezvous_client := b_rendezvous_client b; b_rendezvous_server := b_rendezvous_server b;
  b_identify := b_identify b; b_ping := b_ping b |}.

Record ResolvedNodeConfig := {
  rs_profile : NodeProfile; rs_role : NodeRole; rs_behaviours : BehaviourSet; rs_reserve_configured_relays : bool;
  rs_should_reserve_configured_relays : bool; rs_should_reserve_selected_relays : bool; rs_should_seed_relay_peers : bool;
  rs_should_seed_selected_relays : bool; rs_should_listen : bool; rs_listen_addresses : list string; rs_relay_peers : list string;
  rs_relay_discovery_enabled : bool; rs_relay_discovery_min_reservations : Z; rs_relay_discovery_max_reservations : Z;
  rs_dcutr_enabled : bool; rs_dcutr_attempt_after_relay_connection : bool; rs_dcutr_keep_relay_fallback : bool;
  rs_dcutr_retry_interval_secs : Z; rs_dcutr_max_attempts_per_peer : Z; rs_relay_server_enabled : bool; rs_mediator_enabled : bool;
  rs_mediator_advertise_for_dcutr : bool; rs_rendezvous_client_enabled : bool; rs_rendezvous_server_enabled : bool;
  rs_turn_server_enabled : bool; rs_turn_broker_enabled : bool; rs_turn_network_client_enabled : bool;
  rs_transport_capabilities : TransportCapabilities }.

Definition without_browser_webrtc (wasm : bool) (t : TransportCapabilities) : TransportCapabilities := {|
  tc_tcp := tc_tcp t; tc_quic := tc_quic t; tc_webrtc_direct := tc_webrtc_direct t; tc_secure_websocket := tc_secure_websocket t;
  tc_webtransport := tc_webtransport t; tc_circuit_relay := tc_circuit_relay t; tc_browser_webrtc := false;
  tc_relay_assisted_upgrade := tc_relay_assisted_upgrade t && negb wasm |}.

Definition has_relay_candidates (p : PublicBootstrapConfig) : bool := mode_is_enabled (pb_mode p) && negb (bool_decide (pb_relay_peers p = [])).

Section capabilities.
Context {P : PeerIdLib} {M : MultiaddrLib}.

Definition listens (c : NodeConfig) : bool :=
  match enabled_listen_addresses c with Ok l => negb (bool_decide (l = [])) | Err _ => false end.

Definition from_effective_config (profile : NodeProfile) (role : NodeRole) (e : NodeConfig) : ResolvedNodeConfig :=
  let b := narrow_dcutr (for_role role e) (dp_enabled (nc_dcutr e)) in
  let d := nc_discovery e in
  let has_relay_peers := negb (bool_decide (nc_relay_peers e = [])) in
  let has_public_relay_candidates := has_relay_candidates (dc_public_bootstrap d) in
  let has_public_dht_relay_discovery := mode_is_enabled (pb_mode (dc_public_bootstrap d)) && use_dht_relays (dc_relay_discovery d) in
  let transport := if is_wasm_role role then browser_capabilities else native in
  let transport := if wr_enabled (nc_browser_webrtc e) then transport else without_browser_webrtc (is_wasm_role role) transport in
  let turn := nc_turn e in
  let source := is_lite role || has_relay_peers || has_public_relay_candidates || has_public_dht_relay_discovery in
  let reserve := nc_reserve_configured_relays e in
  {| rs_profile := profile; rs_role := role; rs_behaviours := b; rs_reserve_configured_relays := reserve;
     rs_should_reserve_configured_relays := reserve && has_relay_peers && b_relay_client b;
     rs_should_reserve_selected_relays := reserve && source && b_relay_client b;
     rs_should_seed_relay_peers := negb reserve && has_relay_peers && b_relay_client b;
     rs_should_seed_selected_relays := negb reserve && source && b_relay_client b;
     rs_should_listen := negb (no_public_listeners role) && listens e;
     rs_listen_addresses := nc_listen_addresses e; rs_relay_peers := nc_relay_peers e;
     rs_relay_discovery_enabled := rdp_enabled (dc_relay_discovery d) && b_relay_client b && source;
     rs_relay_discovery_min_reservations := min_reservations (dc_relay_discovery d);
     rs_relay_discovery_max_reservations := max_reservations_policy (dc_relay_discovery d);
     rs_dcutr_enabled := b_dcutr b; rs_dcutr_attempt_after_relay_connection := attempt_after_relay_connection (nc_dcutr e);
     rs_dcutr_keep_relay_fallback := keep_relay_fallback (nc_dcutr e); rs_dcutr_retry_interval_secs := retry_interval_secs (nc_dcutr e);
     rs_dcutr_max_attempts_per_peer := max_attempts_per_peer (nc_dcutr e); rs_relay_server_enabled := b_relay_server b;
     rs_mediator_enabled := md_enabled (nc_mediator e); rs_mediator_advertise_for_dcutr := advertise_for_dcutr (nc_mediator e);
     rs_rendezvous_client_enabled := b_rendezvous_client b; rs_rendezvous_server_enabled := b_rendezvous_server b;
     rs_turn_server_enabled := sv_enabled (turn_server turn) && negb (no_public_listeners role);
     rs_turn_broker_enabled := bk_enabled (turn_broker turn) && negb (no_public_listeners role);
     rs_turn_network_client_enabled := tc_browser_webrtc transport && bool_decide (is_Some (discovery (turn_client turn)));
     rs_transport_capabilities := transport |}.

Definition effective_config_for_resolution (raw : NodeConfig) : NodeConfig :=
  let e := apply_profile (nc_profile raw) raw in upd_nc_relay (apply_to_relay (nc_mediator e)) e.

Definition explicit_config_role (c : NodeConfig) : option NodeRole :=
  if md_enabled (nc_mediator c) then Some MediatorRole
  else if enabled (nc_relay c) then Some RelayRole
  else if rendezvous_server c then Some RendezvousRole
  else if sv_enabled (turn_server (nc_turn c)) then Some TurnRole
  else None.

Definition auto_role (e : EnvironmentReport) : NodeRole :=
  if is_wasm (er_platform e) then WasmLiteRole
  else if is_mobile (er_platform e) || er_background_restricted e then MobileLiteRole
  else if er_can_accept_inbound e || is_public_reach (er_reachability e) then FullRole
  else if er_likely_cgnat e || match er_reachability e with ReachPrivateNat | ReachCgnatLikely => true | _ => false end then LiteRole
  else FullRole.

Definition resolve_role_for_environment (c : NodeConfig) (e : EnvironmentReport) : NodeRole :=
  if bool_decide (nc_profile c = AutoProfile) && is_wasm (er_platform e) then WasmLiteRole
  else match nc_profile c with
  | AutoProfile => default (auto_role e) (explicit_config_role c)
  | FullProfile => FullRole | LiteProfile => LiteRole | RelayProfile => RelayRole | MediatorProfile => MediatorRole
  | RendezvousProfile => RendezvousRole | BootstrapProfile => BootstrapRole | TurnProfile => TurnRole | MobileLiteProfile => MobileLiteRole
  end.

Definition resolver_error (reason : string) : NetError := config_error_at "<capability-resolver>" reason.

Definition validate_resolved_config (raw : NodeConfig) (e : EnvironmentReport) (r : ResolvedNodeConfig) : result unit NetError :=
  let role := rs_role r in
  let b := rs_behaviours r in
  let? _ := reject_if (is_lite role && b_relay_server b)
    (resolver_error "lite and mobile_lite profiles cannot enable relay server capability") in
  let? _ := reject_if (is_lite role && b_rendezvous_server b)
    (resolver_error "lite and mobile_lite profiles cannot enable rendezvous server capability") in
  let? _ := reject_if (b_dcutr b && negb (b_relay_client b))
    (resolver_error "DCUtR requires relay client capability for relayed fallback") in
  let? _ := reject_if (rs_dcutr_enabled r && negb (rs_dcutr_keep_relay_fallback r))
    (resolver_error "DCUtR policy must keep relay fallback enabled for production-safe lite connectivity") in
  let? _ := reject_if (rs_dcutr_enabled r && bool_decide (rs_dcutr_max_attempts_per_peer r = 0))
    (resolver_error "DCUtR max attempts per peer must be at least 1 when enabled") in
  let? _ := reject_if (rs_relay_discovery_enabled r && negb (b_relay_client b))
    (resolver_error "relay discovery requires relay client capability") in
  let? _ := reject_if (rs_mediator_enabled r && negb (b_relay_server b))
    (resolver_error "mediator capability requires relay server capability") in
  let? _ := reject_if (rs_mediator_enabled r && negb (rs_mediator_advertise_for_dcutr r))
    (resolver_error "mediator.advertise_for_dcutr must be true for mediator role") in
  let? _ := reject_if (b_relay_server b && er_background_restricted e)
    (resolver_error "relay server capability is not allowed in a background-restricted environment") in
  let? no_listener := if b_relay_server b then let? l := enabled_listen_addresses raw in Ok (bool_decide (l = [])) else Ok false in
  let? _ := reject_if no_listener (resolver_error "relay server capability requires at least one enabled listen address") in
  let? _ := reject_if (b_relay_server b && negb (er_can_listen_tcp e) && negb (er_can_listen_quic e))
    (resolver_error "relay server capability requires TCP or QUIC listen support") in
  let? _ := reject_if (sv_enabled (turn_server (nc_turn (with_profile_defaults_applied raw))) && (is_lite role || er_background_restricted e))
    (resolver_error "turn.server needs a full, always-on node; lite, mobile and browser roles cannot run it") in
  reject_if (no_public_listeners role && rs_should_listen r)
    (resolver_error "mobile_lite/wasm_lite resolved policy must not require public listen sockets").

Definition resolve_node_config (raw : NodeConfig) (e : EnvironmentReport) : result ResolvedNodeConfig NetError :=
  let effective := effective_config_for_resolution raw in
  let? _ := RelayDiscoveryPolicy_validate (dc_relay_discovery (nc_discovery effective)) in
  let? _ := DcutrPolicy_validate (nc_dcutr effective) in
  let? _ := MediatorConfig_validate (nc_mediator effective) (nc_relay effective) in
  let role := resolve_role_for_environment effective e in
  let resolved := from_effective_config (nc_profile raw) role effective in
  let? _ := validate_resolved_config raw e resolved in
  Ok resolved.

(** What is switched off for a browser. *)
Definition browser_settings (c : NodeConfig) : NodeConfig :=
  let c := upd_nc_listeners (fun _ => {| ls_tcp := false; ls_quic := false; ls_websocket := false; ls_webrtc_direct := false |}) c in
  let c := upd_nc_discovery (upd_dc_lan (set_lan_enabled false)) c in
  let c := upd_nc_public_ip_probe (set_probe_enabled false) c in
  let c := upd_nc_relay (set_relay_enabled false) c in
  let c := upd_nc_mediator (set_mediator_enabled false) c in
  let c := upd_nc_dcutr (set_dcutr_enabled false) c in
  upd_nc_discovery (upd_dc_rendezvous (set_rendezvous (rendezvous_client c) false)) c.

Definition apply_resolved_capabilities (raw : NodeConfig) (r : ResolvedNodeConfig) : NodeConfig :=
  let c := effective_config_for_resolution raw in
  let b := rs_behaviours r in
  let c := upd_nc_relay (set_relay_enabled (b_relay_server b)) c in
  let c := upd_nc_dcutr (set_dcutr_enabled (rs_dcutr_enabled r)) c in
  let c := upd_nc_discovery (upd_dc_rendezvous (set_rendezvous (b_rendezvous_client b) (b_rendezvous_server b))) c in
  let c := upd_nc_reserve_configured_relays (fun _ => rs_reserve_configured_relays r) c in
  let c := if rs_should_listen r then c else upd_nc_listen_addresses (fun _ => []) c in
  let c := if is_wasm_role (rs_role r) then browser_settings c else c in
  upd_nc_turn (set_turn_service (rs_turn_server_enabled r) (rs_turn_broker_enabled r)) c.

(** * The public-IP probe (public_ip.rs) *)
Context {I : IpText} (empty : Multiaddr).

(** The loop of [rewrite_listen_ip]: what was pushed and the three flags. *)
Fixpoint rewrite_loop (public_ip : IpAddr) (out : Multiaddr) (replaced_ip webrtc_direct certhash : bool) (protocols : list Protocol)
    : option (Multiaddr * bool * bool * bool) :=
  match protocols with
  | [] => Some (out, replaced_ip, webrtc_direct, certhash)
  | p :: rest =>
      match p, public_ip with
      | Tcp 0, _ | Udp 0, _ => None
      | WebRTCDirect, _ => rewrite_loop public_ip (addr_with out WebRTCDirect) replaced_ip true certhash rest
      | Certhash h, _ => rewrite_loop public_ip (addr_with out (Certhash h)) replaced_ip webrtc_direct true rest
      | Ip4 listen_ip, V4 ip =>
          if v4_is_loopback listen_ip then None else rewrite_loop public_ip (addr_with out (Ip4 ip)) true webrtc_direct certhash rest
      | Ip6 listen_ip, V6 ip =>
          if v6_is_loopback listen_ip then None else rewrite_loop public_ip (addr_with out (Ip6 ip)) true webrtc_direct certhash rest
      | Ip4 _, V6 _ | Ip6 _, V4 _ => None
      | Dns _, _ | Dns4 _, _ | Dns6 _, _ => None
      | other, _ => rewrite_loop public_ip (addr_with out other) replaced_ip webrtc_direct certhash rest
      end
  end.

Definition rewrite_listen_ip (addr : Multiaddr) (public_ip : IpAddr) : option Multiaddr :=
  match rewrite_loop public_ip empty false false false (addr_iter addr) with
  | Some (out, replaced_ip, webrtc_direct, certhash) => if replaced_ip && (certhash || negb webrtc_direct) then Some out else None
  | None => None
  end.

Definition synthesize_step (ip : IpAddr) (addresses : list Multiaddr) (raw : string) : list Multiaddr :=
  match addr_parse raw with
  | Err _ => addresses
  | Ok addr =>
      match rewrite_listen_ip addr ip with
      | None => addresses
      | Some external =>
          if is_public_direct_addr external && negb (bool_decide (external ∈ addresses)) then addresses ++ [external] else addresses
      end
  end.
Definition synthesize_external_addresses (ip : IpAddr) (listen_addresses : list string) : list Multiaddr :=
  foldl (synthesize_step ip) [] listen_addresses.

Record PublicIpProbeResult := {
  pr_status : string; pr_public_ip : option string; pr_external_addresses : list Multiaddr; pr_errors : list string }.

Definition pulse_line (r : PublicIpProbeResult) : option string :=
  if decide (pr_status r = "disabled") then None
  else
    let public_ip := default "unknown" (pr_public_ip r) in
    if decide (pr_status r = "public_ip_found")
    then Some ("public_ip_probe status=public_ip_found ip=" +:+ public_ip +:+ " external_addrs=" +:+ pretty (len (pr_external_addresses r)))
    else Some ("public_ip_probe status=" +:+ pr_status r +:+ " ip=" +:+ public_ip +:+ " errors=" +:+ pretty (len (pr_errors r))).

(** [get] is the text an endpoint answers with, or the error of the request. *)
Definition fetch_public_ip {W} (get : string -> W -> result string string * W) (endpoint : string) (w : W) : result IpAddr string * W :=
  let '(res, w) := get endpoint w in
  (let? body := res in ok_or (ip_parse (trim body)) ("invalid public IP response `" +:+ trim body +:+ "`: invalid IP address syntax"), w).

Fixpoint probe_loop {W} (get : string -> W -> result string string * W) (c : PublicIpProbeConfig) (listen_addresses : list string)
    (errors endpoints : list string) (w : W) : PublicIpProbeResult * W :=
  match endpoints with
  | [] => ({| pr_status := "failed"; pr_public_ip := None; pr_external_addresses := []; pr_errors := errors |}, w)
  | endpoint :: rest =>
      match fetch_public_ip get endpoint w with
      | (Ok ip, w) =>
          let external := if pp_advertise_listen_addresses c then synthesize_external_addresses ip listen_addresses else [] in
          ({| pr_status := if decide (external = []) then "public_ip_found_no_advertisable_listen_addrs" else "public_ip_found";
              pr_public_ip := Some (ip_text ip); pr_external_addresses := external; pr_errors := errors |}, w)
      | (Err err, w) => probe_loop get c listen_addresses (errors ++ [endpoint +:+ ": " +:+ err]) rest w
      end
  end.

(** [client_built]: whether the HTTP client could be built. *)
Definition probe_public_addresses {W} (client_built : bool) (get : string -> W -> result string string * W) (c : PublicIpProbeConfig)
    (listen_addresses : list string) (w : W) : PublicIpProbeResult * W :=
  let stopped status := ({| pr_status := status; pr_public_ip := None; pr_external_addresses := []; pr_errors := [] |}, w) in
  if negb (pp_enabled c) then stopped "disabled"%string
  else if negb client_built then stopped "client_build_failed"%string
  else probe_loop get c listen_addresses [] (pp_endpoints c) w.
End capabilities.

(** * Observations of the environment *)

(** Inbound connections are claimed only for a reachable node that can listen. *)
Definition inbound_sound (e : EnvironmentReport) : Prop :=
  er_can_accept_inbound e = true ->
  er_reachability e = ReachPublic /\ er_can_listen_tcp e || er_can_listen_quic e = true /\ er_background_restricted e = false.

Inductive environment_step : EnvironmentReport -> EnvironmentReport -> Prop :=
| es_nat e n : environment_step e (apply_nat_observation n e)
| es_address e a : environment_step e (add_observed_external_address a e)
| es_failure e : environment_step e (record_listen_failure e).

(** Whatever is observed, a report that claims inbound connections describes a publicly
    reachable node that can listen and is not restricted to the background: an observation
    of the NAT replaces the claim of the configuration, and neither listen failures nor
    observed addresses turn it into a false one. *)
Theorem inbound_claims_stay_sound e e' : rtc environment_step e e' -> inbound_sound e -> inbound_sound e'.
Proof.
  induction 1 as [|x y z Hs _ IH]; [done|]. intros Hx. apply IH. destruct Hs as [e n|e a|e]; unfold inbound_sound in *; cbn.
  - intros [[Hp Hl]%andb_true_iff Hb%negb_true_iff]%andb_true_iff. split_and!; [|done|done]. by destruct n, (er_reachability e).
  - done.
  - intros Hi. rewrite Hi. rewrite andb_false_r. by apply Hx.
Qed.

(** A profile is found by the name it is shown with. *)
Lemma profile_names p : profile_from_str (profile_as_str p) = Ok p.
Proof. by destruct p. Qed.

(** * The resolution is stable *)
Section stable.
Context {P : PeerIdLib} {M : MultiaddrLib}.

Lemma reject_if_ok b (e : NetError) u : reject_if b e = Ok u -> b = false.
Proof. by destruct b. Qed.

(** What the resolver's checks guarantee. *)
Record resolved_ok (raw : NodeConfig) (r : ResolvedNodeConfig) : Prop := {
  ro_relay : is_lite (rs_role r) = true -> b_relay_server (rs_behaviours r) = false;
  ro_rendezvous : is_lite (rs_role r) = true -> b_rendezvous_server (rs_behaviours r) = false;
  ro_listener : b_relay_server (rs_behaviours r) = true -> listens raw = true;
  ro_turn : is_lite (rs_role r) = true -> sv_enabled (turn_server (nc_turn (with_profile_defaults_applied raw))) = false;
}.

Ltac next_check H :=
  match type of H with (let? _ := reject_if ?b ?e in _) = _ =>
    let E := fresh "E" in destruct (reject_if b e) as [[]|] eqn:E; cbn [result_bind] in H; [|discriminate H]; apply reject_if_ok in E end.

Lemma validated_ok raw env r : validate_resolved_config raw env r = Ok tt -> resolved_ok raw r.
Proof.
  unfold validate_resolved_config. intros H. do 9 next_check H.
  destruct (if b_relay_server (rs_behaviours r) then _ else _) as [no_listener|] eqn:El; cbn [result_bind] in H; [|discriminate H].
  do 3 next_check H. split; intros Hl; rewrite ?Hl in *; try done.
  - unfold listens. destruct (enabled_listen_addresses raw) as [l|]; cbn [result_bind] in El; [|done]. injection El as ->. by subst.
  - apply andb_false_iff in E10 as [?|[??]%orb_false_iff]; done.
Qed.

Lemma apply_to_relay_enabled m r : enabled (apply_to_relay m r) = md_enabled m || enabled r.
Proof. unfold apply_to_relay. by destruct (md_enabled m). Qed.
Lemma apply_to_relay_access m r : access (apply_to_relay m r) = access r.
Proof. unfold apply_to_relay. by destruct (md_enabled m). Qed.
Lemma apply_to_relay_allow m r : allow_peers (apply_to_relay m r) = allow_peers r.
Proof. unfold apply_to_relay. by destruct (md_enabled m). Qed.

(** The configuration that the applied capabilities resolve to, field by field. *)
Ltac by_cases raw r := unfold apply_resolved_capabilities, effective_config_for_resolution, with_profile_defaults_applied, rendezvous_client, rendezvous_server, browser_settings;
  destruct (nc_profile raw) eqn:?, (rs_should_listen r) eqn:?, (is_wasm_role (rs_role r)) eqn:?; cbn; rewrite ?apply_to_relay_enabled; cbn;
  repeat match goal with H : nc_profile raw = _ |- _ => rewrite ?H; cbn end.

Record same_settings (e e' : NodeConfig) : Prop := {
  sm_profile : nc_profile e' = nc_profile e;
  sm_relay_peers : nc_relay_peers e' = nc_relay_peers e;
  sm_webrtc : nc_browser_webrtc e' = nc_browser_webrtc e;
  sm_client : turn_client (nc_turn e') = turn_client (nc_turn e);
  sm_public : dc_public_bootstrap (nc_discovery e') = dc_public_bootstrap (nc_discovery e);
  sm_discovery : dc_relay_discovery (nc_discovery e') = dc_relay_discovery (nc_discovery e);
  sm_dcutr : nc_dcutr e' = set_dcutr_enabled (dp_enabled (nc_dcutr e')) (nc_dcutr e);
  sm_mediator : nc_mediator e' = set_mediator_enabled (md_enabled (nc_mediator e')) (nc_mediator e);
}.

Lemma same_applied raw r : let e := effective_config_for_resolution raw in
  same_settings e (effective_config_for_resolution (apply_resolved_capabilities raw r)).
Proof. cbn. split; by_cases raw r; try done; by destruct (nc_mediator raw), (nc_dcutr raw). Qed.


(** The switches of [e] agree with what [r] resolved. *)
Record switched (e : NodeConfig) (r : ResolvedNodeConfig) : Prop := {
  sw_mediator : md_enabled (nc_mediator e) = rs_mediator_enabled r;
  sw_relay : enabled (nc_relay e) = rs_relay_server_enabled r;
  sw_client : rendezvous_client e = rs_rendezvous_client_enabled r;
  sw_server : rendezvous_server e = rs_rendezvous_server_enabled r;
  sw_dcutr : dp_enabled (nc_dcutr e) = rs_dcutr_enabled r;
  sw_turn : sv_enabled (turn_server (nc_turn e)) = rs_turn_server_enabled r;
  sw_broker : bk_enabled (turn_broker (nc_turn e)) = rs_turn_broker_enabled r;
  sw_reserve : nc_reserve_configured_relays e = rs_reserve_configured_relays r;
}.


(** Which roles a profile resolves to. *)
Lemma role_cases e env :
  match nc_profile e with
  | AutoProfile => resolve_role_for_environment e env = WasmLiteRole \/
      match explicit_config_role e with
      | Some r => resolve_role_for_environment e env = r
      | None => resolve_role_for_environment e env = FullRole \/ resolve_role_for_environment e env = LiteRole \/
          resolve_role_for_environment e env = MobileLiteRole
      end
  | FullProfile => resolve_role_for_environment e env = FullRole
  | LiteProfile => resolve_role_for_environment e env = LiteRole
  | RelayProfile => resolve_role_for_environment e env = RelayRole
  | MediatorProfile => resolve_role_for_environment e env = MediatorRole
  | RendezvousProfile => resolve_role_for_environment e env = RendezvousRole
  | BootstrapProfile => resolve_role_for_environment e env = BootstrapRole
  | TurnProfile => resolve_role_for_environment e env = TurnRole
  | MobileLiteProfile => resolve_role_for_environment e env = MobileLiteRole
  end.
Proof.
  unfold resolve_role_for_environment. destruct (nc_profile e); try done.
  destruct (is_wasm (er_platform env)) eqn:Ew; [by left|]. right. destruct (explicit_config_role e); [done|]. cbn.
  unfold auto_role. rewrite Ew. repeat case_match; auto. by rewrite andb_false_r in *.
Qed.

Lemma resolved_spec raw env r : resolve_node_config raw env = Ok r ->
  let e := effective_config_for_resolution raw in
  r = from_effective_config (nc_profile raw) (resolve_role_for_environment e env) e /\ resolved_ok raw r /\
  RelayDiscoveryPolicy_validate (dc_relay_discovery (nc_discovery e)) = Ok tt /\ DcutrPolicy_validate (nc_dcutr e) = Ok tt /\
  MediatorConfig_validate (nc_mediator e) (nc_relay e) = Ok tt /\ validate_resolved_config raw env r = Ok tt.
Proof.
  unfold resolve_node_config. cbn zeta. destruct (RelayDiscoveryPolicy_validate _) as [[]|]; cbn [result_bind]; [|done].
  destruct (DcutrPolicy_validate _) as [[]|]; cbn [result_bind]; [|done].
  destruct (MediatorConfig_validate _ _) as [[]|]; cbn [result_bind]; [|done].
  destruct (validate_resolved_config _ _ _) as [[]|] eqn:Ev; cbn [result_bind]; [|done]. intros [= Er]. rewrite Er in Ev.
  split_and!; try done. by eapply validated_ok.
Qed.

Lemma effective_profile raw : nc_profile (effective_config_for_resolution raw) = nc_profile raw.
Proof. unfold effective_config_for_resolution. by destruct (nc_profile raw) eqn:E. Qed.

(** What a profile makes of a switch [b] of the configuration. *)
Definition profile_mediator (p : NodeProfile) (b : bool) : bool := match p with MediatorProfile => true | _ => b end.
Definition profile_relay (p : NodeProfile) (b : bool) : bool :=
  match p with RelayProfile | MediatorProfile => true | LiteProfile | MobileLiteProfile => false | _ => b end.
Definition profile_client (p : NodeProfile) (b : bool) : bool := match p with RendezvousProfile => true | _ => b end.
Definition profile_server (p : NodeProfile) (b : bool) : bool :=
  match p with RendezvousProfile => true | LiteProfile | MobileLiteProfile => false | _ => b end.
Definition profile_turn (p : NodeProfile) (b : bool) : bool := match p with TurnProfile => true | _ => b end.

Record switches (md en rc rs dp sv bk : bool) (p : NodeProfile) (e : NodeConfig) : Prop := {
  s_mediator : md_enabled (nc_mediator e) = profile_mediator p md;
  s_relay : enabled (nc_relay e) = profile_mediator p md || profile_relay p en;
  s_client : rendezvous_client e = profile_client p rc;
  s_server : rendezvous_server e = profile_server p rs;
  s_dcutr : dp_enabled (nc_dcutr e) = dp;
  s_turn : sv_enabled (turn_server (nc_turn e)) = profile_turn p sv;
  s_broker : bk_enabled (turn_broker (nc_turn e)) = profile_turn p bk;
}.

Lemma effective_switches raw :
  switches (md_enabled (nc_mediator raw)) (enabled (nc_relay raw)) (rendezvous_client raw) (rendezvous_server raw) (dp_enabled (nc_dcutr raw))
    (sv_enabled (turn_server (nc_turn raw))) (bk_enabled (turn_broker (nc_turn raw))) (nc_profile raw) (effective_config_for_resolution raw).
Proof.
  unfold effective_config_for_resolution. destruct (nc_profile raw) eqn:?; split; cbn; rewrite ?apply_to_relay_enabled; cbn; try done; by rewrite ?orb_true_r.
Qed.

Lemma applied_raw raw r : let c := apply_resolved_capabilities raw r in let w := is_wasm_role (rs_role r) in
  nc_profile c = nc_profile raw /\
  md_enabled (nc_mediator c) = (if w then false else profile_mediator (nc_profile raw) (md_enabled (nc_mediator raw))) /\
  enabled (nc_relay c) = (if w then false else b_relay_server (rs_behaviours r)) /\
  rendezvous_client c = b_rendezvous_client (rs_behaviours r) /\
  rendezvous_server c = (if w then false else b_rendezvous_server (rs_behaviours r)) /\
  dp_enabled (nc_dcutr c) = (if w then false else rs_dcutr_enabled r) /\
  sv_enabled (turn_server (nc_turn c)) = rs_turn_server_enabled r /\ bk_enabled (turn_broker (nc_turn c)) = rs_turn_broker_enabled r /\
  nc_reserve_configured_relays c = rs_reserve_configured_relays r.
Proof. cbn zeta. split_and!; by_cases raw r; done. Qed.

Lemma applied_switches raw r : let w := is_wasm_role (rs_role r) in
  switches (if w then false else profile_mediator (nc_profile raw) (md_enabled (nc_mediator raw)))
    (if w then false else b_relay_server (rs_behaviours r)) (b_rendezvous_client (rs_behaviours r))
    (if w then false else b_rendezvous_server (rs_behaviours r)) (if w then false else rs_dcutr_enabled r)
    (rs_turn_server_enabled r) (rs_turn_broker_enabled r) (nc_profile raw)
    (effective_config_for_resolution (apply_resolved_capabilities raw r)).
Proof.
  cbn zeta. pose proof (effective_switches (apply_resolved_capabilities raw r)) as H.
  destruct (applied_raw raw r) as (E1 & E2 & E3 & E4 & E5 & E6 & E7 & E8 & _). cbn zeta in *. by rewrite E1, E2, E3, E4, E5, E6, E7, E8 in H.
Qed.

Lemma relay_server_of role e : b_relay_server (for_role role e) =
  match role with RelayRole | MediatorRole => true | _ => false end || enabled (nc_relay e) || md_enabled (nc_mediator e).
Proof. by destruct role. Qed.
Lemma rendezvous_server_of role e : b_rendezvous_server (for_role role e) = match role with RendezvousRole => true | _ => false end || rendezvous_server e.
Proof. by destruct role. Qed.
Lemma rendezvous_client_of role e : b_rendezvous_client (for_role role e) = rendezvous_client e || is_lite role.
Proof. by destruct role. Qed.
Lemma dcutr_of role e : b_dcutr (for_role role e) && (dp_enabled (nc_dcutr e) && b_relay_client (for_role role e)) = negb (is_wasm_role role) && dp_enabled (nc_dcutr e).
Proof. destruct role; cbn; by rewrite ?andb_true_r. Qed.

Lemma effective_reserve raw : nc_reserve_configured_relays (effective_config_for_resolution raw) = nc_reserve_configured_relays raw.
Proof. unfold effective_config_for_resolution. by destruct (nc_profile raw). Qed.

Lemma turn_wanted raw : sv_enabled (turn_server (nc_turn (with_profile_defaults_applied raw))) = sv_enabled (turn_server (nc_turn (effective_config_for_resolution raw))).
Proof. done. Qed.

Lemma switched_applied raw env r : resolve_node_config raw env = Ok r ->
  switched (effective_config_for_resolution (apply_resolved_capabilities raw r)) r.
Proof.
  intros (Er & [Hr Hz _ Ht] & _)%resolved_spec. pose proof (role_cases (effective_config_for_resolution raw) env) as Hrole.
  rewrite effective_profile in Hrole. set (role := resolve_role_for_environment (effective_config_for_resolution raw) env) in *.
  destruct (effective_switches raw) as [A1 A2 A3 A4 A5 A6 A7]. destruct (applied_switches raw r) as [B1 B2 B3 B4 B5 B6 B7].
  assert (B8 : nc_reserve_configured_relays (effective_config_for_resolution (apply_resolved_capabilities raw r)) = rs_reserve_configured_relays r).
  { destruct (applied_raw raw r) as (_ & _ & _ & _ & _ & _ & _ & _ & <-). apply effective_reserve. }
  unfold explicit_config_role in Hrole. rewrite turn_wanted in Ht.
  set (e := effective_config_for_resolution raw) in *.
  assert (C0 : rs_role r = role) by by rewrite Er.
  assert (C1 : rs_mediator_enabled r = md_enabled (nc_mediator e)) by by rewrite Er.
  assert (C2 : b_relay_server (rs_behaviours r) = rs_relay_server_enabled r) by by rewrite Er.
  assert (C3 : b_rendezvous_client (rs_behaviours r) = rs_rendezvous_client_enabled r) by by rewrite Er.
  assert (C4 : b_rendezvous_server (rs_behaviours r) = rs_rendezvous_server_enabled r) by by rewrite Er.
  assert (C5 : rs_dcutr_enabled r = negb (is_wasm_role role) && dp_enabled (nc_dcutr e)) by by rewrite Er, <- dcutr_of.
  assert (C6 : rs_turn_server_enabled r = sv_enabled (turn_server (nc_turn e)) && negb (no_public_listeners role)) by by rewrite Er.
  assert (C7 : rs_turn_broker_enabled r = bk_enabled (turn_broker (nc_turn e)) && negb (no_public_listeners role)) by by rewrite Er.
  assert (D2 : rs_relay_server_enabled r = match role with RelayRole | MediatorRole => true | _ => false end || enabled (nc_relay e) || md_enabled (nc_mediator e)) by by rewrite Er, <- relay_server_of.
  assert (D3 : rs_rendezvous_client_enabled r = rendezvous_client e || is_lite role) by by rewrite Er, <- rendezvous_client_of.
  assert (D4 : rs_rendezvous_server_enabled r = match role with RendezvousRole => true | _ => false end || rendezvous_server e) by by rewrite Er, <- rendezvous_server_of.
  rewrite C0, C2, D2 in Hr. rewrite C0, C4, D4 in Hz. rewrite C0 in Ht. rewrite C0 in B1. rewrite C0, C2, D2 in B2. rewrite C3, D3 in B3.
  rewrite C0, C4, D4 in B4. rewrite C0, C5 in B5. rewrite C6 in B6. rewrite C7 in B7. clear C0 C2 C3 C4 Er.
  rewrite A1, A2 in Hr. rewrite A4 in Hz. rewrite A6 in Ht. rewrite A1, A2, A4, A6 in Hrole.
  split; [rewrite B1, C1, A1|rewrite B2, D2, A1, A2|rewrite B3, D3, A3|rewrite B4, D4, A4|rewrite B5, C5, A5|rewrite B6, C6, A6|rewrite B7, C7, A7|exact B8].
  all: clear - Hr Hz Ht Hrole; revert Hr Hz Ht Hrole; generalize role (md_enabled (nc_mediator raw)) (enabled (nc_relay raw)) (rendezvous_client raw)
    (rendezvous_server raw) (dp_enabled (nc_dcutr raw)) (sv_enabled (turn_server (nc_turn raw))) (bk_enabled (turn_broker (nc_turn raw))).
  all: clear; destruct (nc_profile raw); intros role md en rc rs dp sv bk Hr Hz Ht Hrole; cbn in *.
  all: destruct md, en, rs, sv; cbn in Hrole; repeat match type of Hrole with _ \/ _ => destruct Hrole as [Hrole|Hrole] end; subst role; cbn in *.
  all: try discriminate (Hr eq_refl); try discriminate (Hz eq_refl); try discriminate (Ht eq_refl).
  all: try reflexivity.
  all: repeat match goal with b : bool |- _ => destruct b end; reflexivity.
Qed.

Definition with_listen_addresses (l : list string) (r : ResolvedNodeConfig) : ResolvedNodeConfig := {|
  rs_profile := rs_profile r; rs_role := rs_role r; rs_behaviours := rs_behaviours r; rs_reserve_configured_relays := rs_reserve_configured_relays r;
  rs_should_reserve_configured_relays := rs_should_reserve_configured_relays r;
  rs_should_reserve_selected_relays := rs_should_reserve_selected_relays r; rs_should_seed_relay_peers := rs_should_seed_relay_peers r;
  rs_should_seed_selected_relays := rs_should_seed_selected_relays r; rs_should_listen := rs_should_listen r; rs_listen_addresses := l;
  rs_relay_peers := rs_relay_peers r; rs_relay_discovery_enabled := rs_relay_discovery_enabled r;
  rs_relay_discovery_min_reservations := rs_relay_discovery_min_reservations r;
  rs_relay_discovery_max_reservations := rs_relay_discovery_max_reservations r; rs_dcutr_enabled := rs_dcutr_enabled r;
  rs_dcutr_attempt_after_relay_connection := rs_dcutr_attempt_after_relay_connection r;
  rs_dcutr_keep_relay_fallback := rs_dcutr_keep_relay_fallback r; rs_dcutr_retry_interval_secs := rs_dcutr_retry_interval_secs r;
  rs_dcutr_max_attempts_per_peer := rs_dcutr_max_attempts_per_peer r; rs_relay_server_enabled := rs_relay_server_enabled r;
  rs_mediator_enabled := rs_mediator_enabled r; rs_mediator_advertise_for_dcutr := rs_mediator_advertise_for_dcutr r;
  rs_rendezvous_client_enabled := rs_rendezvous_client_enabled r; rs_rendezvous_server_enabled := rs_rendezvous_server_enabled r;
  rs_turn_server_enabled := rs_turn_server_enabled r; rs_turn_broker_enabled := rs_turn_broker_enabled r;
  rs_turn_network_client_enabled := rs_turn_network_client_enabled r; rs_transport_capabilities := rs_transport_capabilities r |}.

Lemma auto_role_cases env : is_wasm (er_platform env) = false -> auto_role env = FullRole \/ auto_role env = LiteRole \/ auto_role env = MobileLiteRole.
Proof. unfold auto_role. intros ->. repeat case_match; auto. Qed.

Lemma role_again raw env r e' : let e := effective_config_for_resolution raw in let role := resolve_role_for_environment e env in
  r = from_effective_config (nc_profile raw) role e -> same_settings e e' -> switched e' r -> resolve_role_for_environment e' env = role.
Proof.
  cbn zeta. set (e := effective_config_for_resolution raw). intros Er Hs [S1 S2 _ S4 _ S6 _ _].
  remember (resolve_role_for_environment e env) as role eqn:Hrole. rewrite Er in S1, S2, S4, S6. unfold from_effective_config in *.
  cbn [rs_mediator_enabled rs_relay_server_enabled rs_rendezvous_server_enabled rs_turn_server_enabled narrow_dcutr b_relay_server b_rendezvous_server] in *.
  rewrite relay_server_of in S2. rewrite rendezvous_server_of in S4.
  unfold resolve_role_for_environment, explicit_config_role in *. rewrite (sm_profile _ _ Hs), S1, S2, S4, S6. clear Er Hs S1 S2 S4 S6.
  destruct (nc_profile e); try by subst role. destruct (is_wasm (er_platform env)) eqn:Ew; rewrite ?andb_true_r, ?andb_false_r in *; [by subst role|].
  pose proof (auto_role_cases env Ew) as Ha.
  destruct (md_enabled (nc_mediator e)), (enabled (nc_relay e)), (rendezvous_server e), (sv_enabled (turn_server (nc_turn e))); cbn in *; subst role; try done.
  by destruct Ha as [->|[->| ->]].
Qed.

Lemma behaviours_again role e e' r : rs_role r = role -> rs_behaviours r = narrow_dcutr (for_role role e) (dp_enabled (nc_dcutr e)) ->
  rs_relay_server_enabled r = b_relay_server (rs_behaviours r) -> rs_rendezvous_server_enabled r = b_rendezvous_server (rs_behaviours r) ->
  rs_rendezvous_client_enabled r = b_rendezvous_client (rs_behaviours r) -> rs_dcutr_enabled r = b_dcutr (rs_behaviours r) ->
  rs_mediator_enabled r = md_enabled (nc_mediator e) -> switched e' r ->
  narrow_dcutr (for_role role e') (dp_enabled (nc_dcutr e')) = rs_behaviours r.
Proof.
  intros Hrole Hb H1 H2 H3 H4 H5 [S1 S2 S3 S4 S5 _ _ _]. rewrite Hb in *.
  unfold for_role. rewrite S1, S2, S3, S4, S5, H1, H2, H3, H4, H5. clear. unfold for_role.
  generalize (md_enabled (nc_mediator e)) (enabled (nc_relay e)) (rendezvous_client e) (rendezvous_server e) (dp_enabled (nc_dcutr e)).
  intros [] [] [] [] []; by destruct role.
Qed.

Lemma applied_listen raw r : let c := apply_resolved_capabilities raw r in
  nc_listen_addresses c = (if rs_should_listen r then nc_listen_addresses raw else []) /\
  (is_wasm_role (rs_role r) = false -> nc_listeners c = nc_listeners raw) /\
  nc_listen_addresses (effective_config_for_resolution c) = nc_listen_addresses c /\
  nc_listeners (effective_config_for_resolution c) = nc_listeners c.
Proof. cbn zeta. split_and!; by_cases raw r; done. Qed.

Lemma listens_eq c c' : nc_listen_addresses c' = nc_listen_addresses c -> nc_listeners c' = nc_listeners c -> listens c' = listens c.
Proof. unfold listens, enabled_listen_addresses, parsed_listen_addresses. by intros -> ->. Qed.

Lemma listens_none c : nc_listen_addresses c = [] -> listens c = false.
Proof. unfold listens, enabled_listen_addresses, parsed_listen_addresses. by intros ->. Qed.

Lemma effective_listens raw : listens (effective_config_for_resolution raw) = listens raw.
Proof. apply listens_eq; unfold effective_config_for_resolution; by destruct (nc_profile raw). Qed.

Lemma wasm_lite role : is_wasm_role role = true -> no_public_listeners role = true /\ is_lite role = true.
Proof. by destruct role. Qed.

Lemma listens_again raw r : let c := apply_resolved_capabilities raw r in
  rs_should_listen r = negb (no_public_listeners (rs_role r)) && listens raw ->
  negb (no_public_listeners (rs_role r)) && listens (effective_config_for_resolution c) = rs_should_listen r /\
  (rs_should_listen r = true -> listens c = true).
Proof.
  cbn zeta. intros H. rewrite effective_listens. destruct (applied_listen raw r) as (H1 & H2 & _). cbn zeta in *.
  destruct (rs_should_listen r) eqn:E.
  - symmetry in H. apply andb_true_iff in H as [Hn Hl]. rewrite Hn. assert (listens (apply_resolved_capabilities raw r) = true) as ->; [|done].
    rewrite <- Hl. apply listens_eq; [done|]. apply H2. destruct (is_wasm_role (rs_role r)) eqn:Ew; [|done]. apply wasm_lite in Ew as [Ew _]. by rewrite Ew in Hn.
  - rewrite listens_none by done. by rewrite andb_false_r.
Qed.

Lemma applied_access raw r : let e := effective_config_for_resolution raw in
  let e' := effective_config_for_resolution (apply_resolved_capabilities raw r) in
  access (nc_relay e') = access (nc_relay e) /\ allow_peers (nc_relay e') = allow_peers (nc_relay e).
Proof.
  cbn zeta. split; by_cases raw r; repeat (rewrite ?apply_to_relay_access, ?apply_to_relay_allow; cbn); done.
Qed.

Lemma mediator_again m r r' : access r' = access r -> allow_peers r' = allow_peers r -> MediatorConfig_validate m r' = MediatorConfig_validate m r.
Proof. unfold MediatorConfig_validate. by intros -> ->. Qed.

Lemma dcutr_again d b : DcutrPolicy_validate d = Ok tt -> (b = true -> dp_enabled d = true) -> DcutrPolicy_validate (set_dcutr_enabled b d) = Ok tt.
Proof. unfold DcutrPolicy_validate. destruct b; cbn; [|done]. intros H E. by rewrite (E eq_refl) in H. Qed.

Lemma set_mediator_same m : set_mediator_enabled (md_enabled m) m = m.
Proof. by destruct m. Qed.

(** The checks see of the configuration only its listeners and its TURN server. *)
Lemma checks_again raw raw' env r l : validate_resolved_config raw env r = Ok tt ->
  (b_relay_server (rs_behaviours r) = true -> listens raw' = true) ->
  (sv_enabled (turn_server (nc_turn (with_profile_defaults_applied raw'))) = true -> sv_enabled (turn_server (nc_turn (with_profile_defaults_applied raw))) = true) ->
  validate_resolved_config raw' env (with_listen_addresses l r) = Ok tt.
Proof.
  unfold validate_resolved_config. intros H Hl Ht. cbn [rs_role rs_behaviours rs_dcutr_enabled rs_dcutr_keep_relay_fallback rs_dcutr_max_attempts_per_peer
    rs_relay_discovery_enabled rs_mediator_enabled rs_mediator_advertise_for_dcutr rs_should_listen with_listen_addresses].
  do 9 (match type of H with (let? _ := ?x in _) = _ => destruct x as [[]|]; cbn [result_bind] in *; [|discriminate H] end).
  destruct (if b_relay_server (rs_behaviours r) then _ else Ok false) as [nl|] eqn:El; cbn [result_bind] in H; [|discriminate H].
  destruct (reject_if nl _) as [[]|] eqn:En; cbn [result_bind] in H; [|discriminate H].
  replace (if b_relay_server (rs_behaviours r) then let? l0 := enabled_listen_addresses raw' in Ok (bool_decide (l0 = [])) else Ok false) with (Ok (E := NetError) false).
  2: { destruct (b_relay_server (rs_behaviours r)); [|done]. specialize (Hl eq_refl). unfold listens in Hl. destruct (enabled_listen_addresses raw') as [l'|]; [|done].
       cbn. apply negb_true_iff in Hl. by rewrite Hl. }
  cbn [result_bind reject_if]. match type of H with (let? _ := ?x in _) = _ => destruct x as [[]|]; cbn [result_bind] in *; [|discriminate H] end.
  match type of H with (let? _ := reject_if ?b ?e in _) = _ => destruct (reject_if b e) as [[]|] eqn:Et; cbn [result_bind] in H; [|discriminate H] end.
  apply reject_if_ok in Et. destruct (sv_enabled (turn_server (nc_turn (with_profile_defaults_applied raw')))) eqn:Es; [|done].
  rewrite (Ht eq_refl) in Et. cbn [andb] in *. by rewrite Et.
Qed.

Lemma profile_keeps_listen p raw : nc_listen_addresses (apply_profile p raw) = nc_listen_addresses raw.
Proof. by destruct p. Qed.

Lemma and_again a b : a && b && b = a && b.
Proof. by destruct a, b. Qed.

Lemma capabilities_again raw env r : resolve_node_config raw env = Ok r ->
  let c := apply_resolved_capabilities raw r in let e' := effective_config_for_resolution c in
  from_effective_config (nc_profile c) (resolve_role_for_environment e' env) e' =
    with_listen_addresses (if rs_should_listen r then rs_listen_addresses r else []) r.
Proof.
  intros Hres. pose proof (switched_applied _ _ _ Hres) as Hsw. pose proof (same_applied raw r) as Hsame. cbn zeta in Hsame.
  destruct (resolved_spec _ _ _ Hres) as (Er & _). cbn zeta in *.
  set (c := apply_resolved_capabilities raw r) in *. set (e := effective_config_for_resolution raw) in *. set (e' := effective_config_for_resolution c) in *.
  assert (Hrole : resolve_role_for_environment e' env = resolve_role_for_environment e env) by by eapply role_again.
  destruct (applied_listen raw r) as (Hlisten & _ & Hle & _). cbn zeta in *. fold c in Hlisten, Hle. fold e' in Hle.
  destruct (listens_again raw r) as [Hl1 _]; [rewrite <- (effective_listens raw), Er; done|]. fold c in Hl1. fold e' in Hl1.
  assert (Hprofile : nc_profile c = nc_profile raw) by apply (applied_raw raw r).
  assert (Hbeh : narrow_dcutr (for_role (rs_role r) e') (dp_enabled (nc_dcutr e')) = rs_behaviours r)
    by (apply (behaviours_again _ e); rewrite ?Er; try done; by rewrite <- Er).
  rewrite Hrole, Hprofile. assert (Hr0 : rs_role r = resolve_role_for_environment e env) by by rewrite Er. rewrite <- Hr0.
  unfold from_effective_config. rewrite Hbeh. destruct Hsame as [M1 M2 M3 M4 M5 M6 M7 M8]. destruct Hsw as [S1 S2 S3 S4 S5 S6 S7 S8].
  assert (Hmed : nc_mediator e' = nc_mediator e) by (rewrite M8, S1, Er; apply set_mediator_same).
  rewrite M2, M3, M4, M5, M6, Hl1, Hle, Hlisten, Hmed, S6, S7, S8.
  rewrite (f_equal attempt_after_relay_connection M7), (f_equal keep_relay_fallback M7), (f_equal retry_interval_secs M7), (f_equal max_attempts_per_peer M7).
  cbn [attempt_after_relay_connection keep_relay_fallback retry_interval_secs max_attempts_per_peer set_dcutr_enabled].
  rewrite Er. unfold with_listen_addresses, from_effective_config. cbn. f_equal; [by rewrite profile_keeps_listen|apply and_again..].
Qed.

Lemma turn_again raw env r : resolve_node_config raw env = Ok r ->
  sv_enabled (turn_server (nc_turn (with_profile_defaults_applied (apply_resolved_capabilities raw r)))) = true ->
  sv_enabled (turn_server (nc_turn (with_profile_defaults_applied raw))) = true.
Proof.
  intros Hres. rewrite !turn_wanted, (sw_turn _ _ (switched_applied _ _ _ Hres)). destruct (resolved_spec _ _ _ Hres) as (-> & _).
  cbn [rs_turn_server_enabled from_effective_config]. by intros [? _]%andb_true_iff.
Qed.

Lemma relay_server_listens raw r : resolved_ok raw r -> rs_should_listen r = negb (no_public_listeners (rs_role r)) && listens raw ->
  b_relay_server (rs_behaviours r) = true -> rs_should_listen r = true.
Proof.
  intros Hok Hs Hb. rewrite Hs, (ro_listener _ _ Hok Hb), andb_true_r. destruct (no_public_listeners (rs_role r)) eqn:En; [|done].
  rewrite (ro_relay _ _ Hok) in Hb; [done|]. by destruct (rs_role r).
Qed.

(** C36: The capabilities the resolver decides on are the ones the node runs with.  When a
    configuration resolves, the runtime configuration made from it resolves again, in the same
    environment, to the same role, behaviours and policies; only the listen addresses are gone
    when the role does not listen.  So nothing that the resolver forbids comes back through the
    profile, the mediator's defaults or the switches of the original configuration. *)
Theorem resolution_is_stable raw env r :
  resolve_node_config raw env = Ok r ->
  resolve_node_config (apply_resolved_capabilities raw r) env =
    Ok (with_listen_addresses (if rs_should_listen r then rs_listen_addresses r else []) r).
Proof.
  intros Hres. pose proof (switched_applied _ _ _ Hres) as Hsw. pose proof (same_applied raw r) as Hsame. cbn zeta in Hsame.
  destruct (resolved_spec _ _ _ Hres) as (Er & Hok & Hd & Hc & Hm & Hv). cbn zeta in *.
  assert (Hs : rs_should_listen r = negb (no_public_listeners (rs_role r)) && listens raw) by (rewrite <- (effective_listens raw), Er; done).
  unfold resolve_node_config. rewrite (sm_discovery _ _ Hsame), Hd, (sm_dcutr _ _ Hsame). cbn [result_bind].
  rewrite dcutr_again; [|done|].
  2: { rewrite (sw_dcutr _ _ Hsw), Er. cbn. by intros [_ [? _]%andb_true_iff]%andb_true_iff. }
  cbn [result_bind]. rewrite (sm_mediator _ _ Hsame), (sw_mediator _ _ Hsw).
  replace (rs_mediator_enabled r) with (md_enabled (nc_mediator (effective_config_for_resolution raw))) by by rewrite Er. rewrite set_mediator_same.
  rewrite (mediator_again _ (nc_relay (effective_config_for_resolution raw))) by apply (applied_access raw r). rewrite Hm. cbn [result_bind].
  rewrite (capabilities_again _ _ _ Hres). cbn zeta. rewrite (checks_again raw); [done|done| |by eapply turn_again].
  intros Hb. apply (listens_again raw r Hs). by apply (relay_server_listens raw).
Qed.
End stable.

(** * The size of the ICE configuration *)
Section ice_size.
Context {P : PeerIdLib} {M : MultiaddrLib} {U : UrlLib} {I : IpText} {RZ : RendezvousLib} {H : HexLib} {B : Blake3Lib}.

Lemma push_servers_len l : forall out, len (foldl push_server out l) <= len out + len l.
Proof.
  induction l as [|s l IH]; intros out; cbn [foldl]; [unfold len; cbn; lia|]. pose proof (IH (push_server out s)) as H1.
  unfold push_server in *. destruct (existsb _ out); unfold len in *; rewrite ?length_app in *; cbn [length] in *; lia.
Qed.

Lemma omap_len {A C} (f : A -> option C) l : len (omap f l) <= len l.
Proof. induction l as [|x l IH]; [done|]. unfold len in *. cbn. destruct (f x); cbn; lia. Qed.

Lemma compose_len c l : len (compose_servers (ice_plan c) l) <= len (stun_servers c) + len l.
Proof.
  unfold compose_servers. set (k := _ && _). pose proof (omap_len turn_only l) as Ho.
  etransitivity; [apply push_servers_len|]. unfold len in *. rewrite length_app. destruct k; cbn [length plan_stun_servers ice_plan]; lia.
Qed.

Lemma effective_len cfg t s : rtc client_step ([], TurnClientState_new cfg) (t, s) -> 0 <= tk_max_servers cfg -> len (effective s) <= tk_max_servers cfg.
Proof.
  intros Hinv%inv_reachable Hmax. unfold effective. rewrite (ci_max _ _ _ Hinv).
  by apply (effective_loop_spec (tk_max_servers cfg) _ Hmax [] Hmax (NoDup_nil_2)).
Qed.

Lemma validated_webrtc c : validate_node_config c = Ok tt -> validate_webrtc_and_turn c = Ok tt.
Proof.
  unfold validate_node_config. intros E.
  do 7 (match type of E with (let? _ := ?x in _) = _ => destruct x as [[]|]; cbn [result_bind] in E; [|discriminate E] end).
  by destruct (validate_webrtc_and_turn c) as [[]|].
Qed.

(** A valid configuration cannot give the browser too many ICE servers.  For every
    configuration that validates and every state its TURN client can reach, whatever
    brokers and endpoints offered, the list that is composed for a peer connection (the
    STUN servers of the configuration and the client's servers) has at most
    [MAX_ICE_SERVERS] entries. *)
Theorem composed_servers_bounded c t s :
  validate_node_config c = Ok tt ->
  rtc client_step ([], TurnClientState_new (with_legacy_turn (nc_browser_webrtc c) (turn_client (nc_turn (with_profile_defaults_applied c))))) (t, s) ->
  len (compose_servers (ice_plan (nc_browser_webrtc c)) (effective s)) <= MAX_ICE_SERVERS.
Proof.
  intros E%validated_webrtc Hrun. unfold validate_webrtc_and_turn in E. cbn zeta in E.
  destruct (BrowserWebRtcConfig_validate _) as [[]|]; cbn [result_bind] in E; [|discriminate E].
  destruct (TurnConfig_validate _) as [[]|] eqn:Et; cbn [result_bind] in E; [|discriminate E].
  do 2 (destruct (reject_if _ _) as [[]|]; cbn [result_bind] in E; [|discriminate E]).
  cbn [turn_client] in *. set (cfg := with_legacy_turn _ _) in *.
  assert (Hmax : 1 <= tk_max_servers cfg).
  { unfold TurnConfig_validate in Et. cbn [turn_client] in Et. destruct (TurnClientConfig_validate cfg) as [[]|] eqn:Ev; [|discriminate Et].
    unfold TurnClientConfig_validate in Ev. clear - Ev. destruct (_ && _); [done|].
    do 3 (match type of Ev with (let? _ := ?x in _) = _ => destruct x as [[]|]; cbn [result_bind] in Ev; [|discriminate Ev] end).
    destruct (bool_decide (1 <= tk_max_servers cfg <= MAX_ICE_SERVERS)) eqn:Eb; [|done]. apply bool_decide_eq_true in Eb. lia. }
  unfold reject_if in E. destruct (bool_decide _) eqn:Eb; [discriminate E|]. apply bool_decide_eq_false in Eb.
  pose proof (compose_len (nc_browser_webrtc c) (effective s)). pose proof (effective_len _ _ _ Hrun ltac:(lia)). lia.
Qed.
End ice_size.

(** * Synthesized external addresses *)
Section synthesized.
Context {P : PeerIdLib} {M : MultiaddrLib} {ML : MultiaddrLaws M}.
Context (empty : Multiaddr) (empty_iter : addr_iter empty = []).

(** A component that an address advertised for [ip] may have. *)
Definition advertisable (ip : IpAddr) (p : Protocol) : Prop :=
  match p with
  | Tcp port | Udp port => port ≠ 0
  | Ip4 x => ip = V4 x
  | Ip6 x => ip = V6 x
  | Dns _ | Dns4 _ | Dns6 _ => False
  | _ => True
  end.

Definition is_webrtc_direct (p : Protocol) : bool := match p with WebRTCDirect => true | _ => false end.
Definition is_certhash (p : Protocol) : bool := match p with Certhash _ => true | _ => false end.

Lemma rewrite_loop_spec ip l : forall out f w h out' f' w' h',
  rewrite_loop ip out f w h l = Some (out', f', w', h') ->
  Forall (advertisable ip) (addr_iter out) -> w = existsb is_webrtc_direct (addr_iter out) -> h = existsb is_certhash (addr_iter out) ->
  Forall (advertisable ip) (addr_iter out') /\ w' = existsb is_webrtc_direct (addr_iter out') /\ h' = existsb is_certhash (addr_iter out').
Proof.
  induction l as [|p l IH]; intros out f w h out' f' w' h' E Hall Hw Hh; cbn [rewrite_loop] in E; [by injection E as <- <- <- <-|].
  assert (Hnext : forall q, advertisable ip q -> Forall (advertisable ip) (addr_iter (addr_with out q)))
    by (intros q Hq; rewrite addr_iter_with; apply Forall_app; by split; [|constructor]).
  assert (Hex : forall f q, existsb f (addr_iter (addr_with out q)) = existsb f (addr_iter out) || f q)
    by (intros g q; rewrite addr_iter_with, existsb_app; cbn; by rewrite orb_false_r).
  repeat case_match; simplify_eq; try done.
  all: eapply IH; [exact E|apply Hnext; done|rewrite Hex; by rewrite ?orb_false_r, ?orb_true_r..].
Qed.

Lemma rewritten_spec ip addr out : rewrite_listen_ip empty addr ip = Some out ->
  Forall (advertisable ip) (addr_iter out) /\ (existsb is_webrtc_direct (addr_iter out) = true -> existsb is_certhash (addr_iter out) = true).
Proof.
  unfold rewrite_listen_ip. destruct (rewrite_loop _ _ _ _ _ _) as [[[[o f] w] h]|] eqn:E; [|done].
  destruct (f && (h || negb w)) eqn:Eb; [|done]. intros [= <-].
  destruct (rewrite_loop_spec _ _ _ _ _ _ _ _ _ _ E) as (H1 & -> & ->); rewrite ?empty_iter; [constructor|done|done|]. split; [done|].
  intros Hw. rewrite Hw in Eb. by destruct (existsb is_certhash (addr_iter o)); [|rewrite andb_false_r in Eb].
Qed.

Definition advertised_ok (ip : IpAddr) (a : Multiaddr) : Prop :=
  is_public_direct_addr a = true /\ Forall (advertisable ip) (addr_iter a) /\
  (existsb is_webrtc_direct (addr_iter a) = true -> existsb is_certhash (addr_iter a) = true).

Lemma synthesize_loop ip l : forall out, NoDup out -> Forall (advertised_ok ip) out ->
  let r := foldl (synthesize_step empty ip) out l in NoDup r /\ Forall (advertised_ok ip) r /\ out ⊆ r.
Proof.
  induction l as [|raw l IH]; intros out Hnd Hall; [done|]. cbn [foldl].
  assert (Hs : NoDup (synthesize_step empty ip out raw) /\ Forall (advertised_ok ip) (synthesize_step empty ip out raw) /\ out ⊆ synthesize_step empty ip out raw).
  { unfold synthesize_step. destruct (addr_parse raw) as [addr|]; [|done]. destruct (rewrite_listen_ip empty addr ip) as [x|] eqn:Ex; [|done].
    destruct (is_public_direct_addr x && _) eqn:Eb; [|done]. apply andb_true_iff in Eb as [Hp Hnew%negb_true_iff%bool_decide_eq_false].
    split_and!; [apply NoDup_app; split_and!; [done|set_solver|apply NoDup_singleton]| |set_solver].
    apply Forall_app. split; [done|]. constructor; [|constructor]. destruct (rewritten_spec _ _ _ Ex). done. }
  destruct Hs as (H1 & H2 & H3). destruct (IH _ H1 H2) as (I1 & I2 & I3). split_and!; [done|done|set_solver].
Qed.

Lemma synthesize_member ip raw addr x l : addr_parse raw = Ok addr -> rewrite_listen_ip empty addr ip = Some x -> is_public_direct_addr x = true ->
  raw ∈ l -> forall out, NoDup out -> Forall (advertised_ok ip) out -> x ∈ foldl (synthesize_step empty ip) out l.
Proof.
  intros Hp Hx Hd Hin. induction l as [|y l IH]; [set_solver|]. intros out Hnd Hall. cbn [foldl].
  destruct (synthesize_loop ip [y] out Hnd Hall) as (H1 & H2 & _). cbn [foldl] in H1, H2.
  apply elem_of_cons in Hin as [->|Hin]; [|by apply IH].
  apply (synthesize_loop ip l _ H1 H2). unfold synthesize_step. rewrite Hp, Hx, Hd. cbn [andb]. case_bool_decide; cbn; set_solver.
Qed.

(** What is advertised after the public-IP probe.  The synthesized addresses are pairwise
    different and public; every IP component is the probed address, no host name and no
    port zero is among them, and a WebRTC-direct address carries its certificate hash.  And
    none is lost: a TCP listener on all interfaces is advertised under the probed IPv4
    address whenever that address is public. *)
Theorem synthesized_addresses_dialable ip listen :
  let out := synthesize_external_addresses empty ip listen in
  NoDup out /\ Forall (advertised_ok ip) out /\
  forall raw addr x port, raw ∈ listen -> addr_parse raw = Ok addr -> addr_iter addr = [Ip4 (Build_Ipv4Addr 0 0 0 0); Tcp port] -> port ≠ 0 ->
    ip = V4 x -> is_public_ipv4 x = true -> exists a, a ∈ out /\ addr_iter a = [Ip4 x; Tcp port].
Proof.
  cbn zeta. unfold synthesize_external_addresses. destruct (synthesize_loop ip listen [] (NoDup_nil_2) (Forall_nil_2 _)) as (H1 & H2 & _).
  split_and!; [done|done|]. intros raw addr x port Hin Hp Hi Hport -> Hx. exists (addr_with (addr_with empty (Ip4 x)) (Tcp port)).
  assert (Hit : addr_iter (addr_with (addr_with empty (Ip4 x)) (Tcp port)) = [Ip4 x; Tcp port]) by by rewrite !addr_iter_with, empty_iter.
  split; [|done]. apply (synthesize_member _ raw addr); [done| | |done|constructor|constructor].
  - unfold rewrite_listen_ip. rewrite Hi. cbn [rewrite_loop]. change (v4_is_loopback (Build_Ipv4Addr 0 0 0 0)) with false. cbn. by destruct port.
  - unfold is_public_direct_addr. rewrite Hit. cbn. by rewrite Hx.
Qed.
End synthesized.
