(* ===== verification/DtlsWire.v ===== *)
(** The wire formats of the vendored DTLS stack (external/dtls/src): the
    enumerations with their discriminants, the extensions, the ten handshake
    messages, the record layer, and the two directions of each codec.

    A [Read] is a byte list; a reading function returns the value and the bytes
    left, an error, or a panic (indexing a slice out of range).  A [Write] is a
    [Vec<u8>], to which writing does not fail, so a marshalling function is the
    bytes it appends.  [write_u16] truncates, which is also what [as u16] and
    the wrapping arithmetic of a release build do. *)

From S2P Require Import Prelude Text Bytes.
From S2P Require Storage.

#[local] Open Scope Z_scope.

Module Dtls.

(** * Errors and readers *)

Inductive Error :=
| ErrConnClosed | ErrDeadlineExceeded | ErrBufferTooSmall | ErrContextUnsupported
| ErrDtlspacketInvalidLength | ErrHandshakeInProgress | ErrInvalidContentType | ErrInvalidMac
| ErrInvalidPacketLength | ErrReservedExportKeyingMaterial | ErrCertificateVerifyNoCertificate
| ErrCipherSuiteNoIntersection | ErrCipherSuiteUnset | ErrClientCertificateNotVerified
| ErrClientCertificateRequired | ErrClientNoMatchingSrtpProfile | ErrClientRequiredButNoServerEms
| ErrCompressionMethodUnset | ErrCookieMismatch | ErrCookieTooLong | ErrIdentityNoPsk
| ErrInvalidCertificate | ErrInvalidCipherSpec | ErrInvalidCipherSuite | ErrInvalidClientKeyExchange
| ErrInvalidCompressionMethod | ErrInvalidEcdsasignature | ErrInvalidEllipticCurveType
| ErrInvalidExtensionType | ErrInvalidHashAlgorithm | ErrInvalidNamedCurve | ErrInvalidPrivateKey
| ErrNamedCurveAndPrivateKeyMismatch | ErrInvalidSniFormat | ErrInvalidSignatureAlgorithm
| ErrKeySignatureMismatch | ErrNilNextConn | ErrNoAvailableCipherSuites | ErrNoAvailableSignatureSchemes
| ErrNoCertificates | ErrNoConfigProvided | ErrNoSupportedEllipticCurves | ErrUnsupportedProtocolVersion
| ErrPskAndCertificate | ErrPskAndIdentityMustBeSetForClient | ErrRequestedButNoSrtpExtension
| ErrServerMustHaveCertificate | ErrServerNoMatchingSrtpProfile | ErrServerRequiredButNoClientEms
| ErrVerifyDataMismatch | ErrHandshakeMessageUnset | ErrInvalidFlight
| ErrKeySignatureGenerateUnimplemented | ErrKeySignatureVerifyUnimplemented | ErrLengthMismatch
| ErrNotEnoughRoomForNonce | ErrNotImplemented | ErrSequenceNumberOverflow
| ErrUnableToMarshalFragmented | ErrInvalidFsmTransition | ErrApplicationDataEpochZero
| ErrUnhandledContextType | ErrContextCanceled | ErrEmptyFragment | ErrAlertFatalOrClose
| ErrFragmentBufferOverflow (new_size max_size : Z)
| Io (* [std::io::Error]: an unexpected end of input *)
| Util (message : string)
| Utf8
| Other (message : string).

#[global] Instance Error_eq_dec : EqDecision Error.
Proof. solve_decision. Defined.

(** A computation that may fail with an [Error] or panic. *)
Definition Act (A : Type) : Type := run (result A Error).

Definition act_bind {A B} (m : Act A) (k : A -> Act B) : Act B :=
  match m with Ret (Ok a) => k a | Ret (Err e) => Ret (Err e) | Panic => Panic end.

Definition act {A} (a : A) : Act A := Ret (Ok a).
Definition fail {A} (e : Error) : Act A := Ret (Err e).

Definition Rd (A : Type) : Type := list byte -> Act (A * list byte).

Definition rd_ret {A} (a : A) : Rd A := fun r => act (a, r).
Definition rd_fail {A} (e : Error) : Rd A := fun _ => fail e.
Definition rd_bind {A B} (m : Rd A) (k : A -> Rd B) : Rd B :=
  fun r => act_bind (m r) (fun '(a, r') => k a r').

Notation "'act!' x := e 'in' k" := (act_bind e (fun x => k))
  (at level 10, x pattern, e at level 200, k at level 200) : p2p_scope.
Notation "'read!' x := e 'in' k" := (rd_bind e (fun x => k))
  (at level 10, x pattern, e at level 200, k at level 200) : p2p_scope.

(** [Read::read_exact], [ReadBytesExt::read_u8/u16/u24/u32], [read_to_end]. *)
Definition read_exact (n : nat) : Rd (list byte) := fun r =>
  if decide (n <= length r)%nat then act (take n r, drop n r) else fail Io.

Definition read_byte : Rd byte := fun r =>
  match r with b :: r' => act (b, r') | [] => fail Io end.

Definition read_uint (n : nat) : Rd Z := read! bs := read_exact n in rd_ret (be_value bs).
Definition rd_u8 : Rd Z := read! b := read_byte in rd_ret (byte_to_Z b).
Definition rd_u16 : Rd Z := read_uint 2.
Definition rd_u24 : Rd Z := read_uint 3.
Definition rd_u32 : Rd Z := read_uint 4.
Definition read_to_end : Rd (list byte) := fun r => act (r, []).

(** [for _ in 0..n { out.push(read()?) }]. *)
Fixpoint read_many {A} (n : nat) (rd : Rd A) : Rd (list A) :=
  match n with
  | O => rd_ret []
  | S n' => read! x := rd in read! xs := read_many n' rd in rd_ret (x :: xs)
  end.

(** [WriteBytesExt::write_u8/u16/u24/u32]: [write_u24] asserts that its
    argument fits. *)
Definition write_u8 (z : Z) : list byte := be_bytes 1 z.
Definition write_u16 (z : Z) : list byte := be_bytes 2 z.
Definition write_u32 (z : Z) : list byte := be_bytes 4 z.
Definition write_u24 (z : Z) : Act (list byte) :=
  if decide (z <= 16777215) then act (be_bytes 3 z) else Panic.

(** [data[i]] and [data[i..]]. *)
Definition index (data : list byte) (i : Z) : Act byte :=
  match data !! Z.to_nat i with Some b => act b | None => Panic end.

(** [((hi as u16) << 8) | lo as u16]. *)
Definition u16_of (hi lo : byte) : Z := Z.lor (Z.shiftl (byte_to_Z hi) 8) (byte_to_Z lo).

(** * Enumerations *)

Inductive ContentType := CtChangeCipherSpec | CtAlert | CtHandshake | CtApplicationData | CtInvalid.

Definition ContentType_code (t : ContentType) : Z :=
  match t with CtChangeCipherSpec => 20 | CtAlert => 21 | CtHandshake => 22 | CtApplicationData => 23 | CtInvalid => 24 end.

Definition ContentType_from (val : Z) : ContentType :=
  match val with
  | 20 => CtChangeCipherSpec | 21 => CtAlert | 22 => CtHandshake | 23 => CtApplicationData
  | _ => CtInvalid
  end.

Inductive AlertLevel := Warning | Fatal | InvalidLevel.

Definition AlertLevel_code (l : AlertLevel) : Z :=
  match l with Warning => 1 | Fatal => 2 | InvalidLevel => 3 end.

Definition AlertLevel_from (val : Z) : AlertLevel :=
  match val with 1 => Warning | 2 => Fatal | _ => InvalidLevel end.

Inductive AlertDescription :=
| CloseNotify | UnexpectedMessage | BadRecordMac | DecryptionFailed | RecordOverflow
| DecompressionFailure | HandshakeFailure | NoCertificate | BadCertificate | UnsupportedCertificate
| CertificateRevoked | CertificateExpired | CertificateUnknown | IllegalParameter | UnknownCa
| AccessDenied | DecodeError | DecryptError | ExportRestriction | AdProtocolVersion
| InsufficientSecurity | InternalError | UserCanceled | NoRenegotiation | UnsupportedExtension
| UnknownPskIdentity | InvalidDescription.

Definition AlertDescription_code (d : AlertDescription) : Z :=
  match d with
  | CloseNotify => 0 | UnexpectedMessage => 10 | BadRecordMac => 20 | DecryptionFailed => 21
  | RecordOverflow => 22 | DecompressionFailure => 30 | HandshakeFailure => 40 | NoCertificate => 41
  | BadCertificate => 42 | UnsupportedCertificate => 43 | CertificateRevoked => 44
  | CertificateExpired => 45 | CertificateUnknown => 46 | IllegalParameter => 47 | UnknownCa => 48
  | AccessDenied => 49 | DecodeError => 50 | DecryptError => 51 | ExportRestriction => 60
  | AdProtocolVersion => 70 | InsufficientSecurity => 71 | InternalError => 80 | UserCanceled => 90
  | NoRenegotiation => 100 | UnsupportedExtension => 110 | UnknownPskIdentity => 115
  | InvalidDescription => 116
  end.

Definition AlertDescription_from (val : Z) : AlertDescription :=
  match val with
  | 0 => CloseNotify | 10 => UnexpectedMessage | 20 => BadRecordMac | 21 => DecryptionFailed
  | 22 => RecordOverflow | 30 => DecompressionFailure | 40 => HandshakeFailure | 41 => NoCertificate
  | 42 => BadCertificate | 43 => UnsupportedCertificate | 44 => CertificateRevoked
  | 45 => CertificateExpired | 46 => CertificateUnknown | 47 => IllegalParameter | 48 => UnknownCa
  | 49 => AccessDenied | 50 => DecodeError | 51 => DecryptError | 60 => ExportRestriction
  | 70 => AdProtocolVersion | 71 => InsufficientSecurity | 80 => InternalError | 90 => UserCanceled
  | 100 => NoRenegotiation | 110 => UnsupportedExtension | 115 => UnknownPskIdentity
  | _ => InvalidDescription
  end.

Inductive HandshakeType :=
| HelloRequest | ClientHello | ServerHello | HelloVerifyRequest | Certificate | ServerKeyExchange
| CertificateRequest | ServerHelloDone | CertificateVerify | ClientKeyExchange | Finished
| InvalidType.

Definition HandshakeType_code (t : HandshakeType) : Z :=
  match t with
  | HelloRequest => 0 | ClientHello => 1 | ServerHello => 2 | HelloVerifyRequest => 3
  | Certificate => 11 | ServerKeyExchange => 12 | CertificateRequest => 13 | ServerHelloDone => 14
  | CertificateVerify => 15 | ClientKeyExchange => 16 | Finished => 20 | InvalidType => 21
  end.

Definition HandshakeType_from (val : Z) : HandshakeType :=
  match val with
  | 0 => HelloRequest | 1 => ClientHello | 2 => ServerHello | 3 => HelloVerifyRequest
  | 11 => Certificate | 12 => ServerKeyExchange | 13 => CertificateRequest | 14 => ServerHelloDone
  | 15 => CertificateVerify | 16 => ClientKeyExchange | 20 => Finished
  | _ => InvalidType
  end.

Inductive CompressionMethodId := CmNull | CmUnsupported.

Definition CompressionMethodId_code (c : CompressionMethodId) : Z :=
  match c with CmNull => 0 | CmUnsupported => 1 end.

Definition CompressionMethodId_from (val : Z) : CompressionMethodId :=
  match val with 0 => CmNull | _ => CmUnsupported end.

Inductive ClientCertificateType := RsaSign | EcdsaSign | CctUnsupported.

Definition ClientCertificateType_code (c : ClientCertificateType) : Z :=
  match c with RsaSign => 1 | EcdsaSign => 64 | CctUnsupported => 65 end.

Definition ClientCertificateType_from (val : Z) : ClientCertificateType :=
  match val with 1 => RsaSign | 64 => EcdsaSign | _ => CctUnsupported end.

Inductive HashAlgorithm := Md2 | Md5 | Sha1 | Sha224 | Sha256 | Sha384 | Sha512 | HaEd25519 | HaUnsupported.

Definition HashAlgorithm_code (h : HashAlgorithm) : Z :=
  match h with
  | Md2 => 0 | Md5 => 1 | Sha1 => 2 | Sha224 => 3 | Sha256 => 4 | Sha384 => 5 | Sha512 => 6
  | HaEd25519 => 8 | HaUnsupported => 9
  end.

Definition HashAlgorithm_from (val : Z) : HashAlgorithm :=
  match val with
  | 0 => Md2 | 1 => Md5 | 2 => Sha1 | 3 => Sha224 | 4 => Sha256 | 5 => Sha384 | 6 => Sha512
  | 8 => HaEd25519
  | _ => HaUnsupported
  end.

Definition HashAlgorithm_insecure (h : HashAlgorithm) : bool :=
  match h with Md2 | Md5 | Sha1 => true | _ => false end.

Definition HashAlgorithm_invalid (h : HashAlgorithm) : bool :=
  match h with Md2 => true | _ => false end.

Inductive SignatureAlgorithm := Rsa | Ecdsa | SaEd25519 | SaUnsupported.

Definition SignatureAlgorithm_code (s : SignatureAlgorithm) : Z :=
  match s with Rsa => 1 | Ecdsa => 3 | SaEd25519 => 7 | SaUnsupported => 8 end.

Definition SignatureAlgorithm_from (val : Z) : SignatureAlgorithm :=
  match val with 1 => Rsa | 3 => Ecdsa | 7 => SaEd25519 | _ => SaUnsupported end.

Record SignatureHashAlgorithm := { sha_hash : HashAlgorithm; sha_signature : SignatureAlgorithm }.

Inductive EllipticCurveType := EctNamedCurve | EctUnsupported.

Definition EllipticCurveType_code (t : EllipticCurveType) : Z :=
  match t with EctNamedCurve => 3 | EctUnsupported => 4 end.

Definition EllipticCurveType_from (val : Z) : EllipticCurveType :=
  match val with 3 => EctNamedCurve | _ => EctUnsupported end.

Inductive NamedCurve := NcUnsupported | P256 | P384 | X25519.

Definition NamedCurve_code (c : NamedCurve) : Z :=
  match c with NcUnsupported => 0 | P256 => 23 | P384 => 24 | X25519 => 29 end.

Definition NamedCurve_from (val : Z) : NamedCurve :=
  match val with 23 => P256 | 24 => P384 | 29 => X25519 | _ => NcUnsupported end.

Inductive SrtpProtectionProfile :=
| Srtp_Aes128_Cm_Hmac_Sha1_80 | Srtp_Aes128_Cm_Hmac_Sha1_32 | Srtp_Aead_Aes_128_Gcm
| Srtp_Aead_Aes_256_Gcm | SrtpUnsupported.

Definition SrtpProtectionProfile_code (p : SrtpProtectionProfile) : Z :=
  match p with
  | Srtp_Aes128_Cm_Hmac_Sha1_80 => 1 | Srtp_Aes128_Cm_Hmac_Sha1_32 => 2
  | Srtp_Aead_Aes_128_Gcm => 7 | Srtp_Aead_Aes_256_Gcm => 8 | SrtpUnsupported => 9
  end.

Definition SrtpProtectionProfile_from (val : Z) : SrtpProtectionProfile :=
  match val with
  | 1 => Srtp_Aes128_Cm_Hmac_Sha1_80 | 2 => Srtp_Aes128_Cm_Hmac_Sha1_32
  | 7 => Srtp_Aead_Aes_128_Gcm | 8 => Srtp_Aead_Aes_256_Gcm
  | _ => SrtpUnsupported
  end.

Inductive CipherSuiteId :=
| Tls_Ecdhe_Ecdsa_With_Aes_128_Ccm | Tls_Ecdhe_Ecdsa_With_Aes_128_Ccm_8
| Tls_Ecdhe_Ecdsa_With_Aes_128_Gcm_Sha256 | Tls_Ecdhe_Rsa_With_Aes_128_Gcm_Sha256
| Tls_Ecdhe_Ecdsa_With_Aes_256_Cbc_Sha | Tls_Ecdhe_Rsa_With_Aes_256_Cbc_Sha
| Tls_Psk_With_Aes_128_Ccm | Tls_Psk_With_Aes_128_Ccm_8 | Tls_Psk_With_Aes_128_Gcm_Sha256
| Tls_Ecdhe_Rsa_With_ChaCha20_Poly1305_Sha256 | Tls_Ecdhe_Ecdsa_With_ChaCha20_Poly1305_Sha256
| CsUnsupported.

Definition CipherSuiteId_code (c : CipherSuiteId) : Z :=
  match c with
  | Tls_Ecdhe_Ecdsa_With_Aes_128_Ccm => 0xc0ac
  | Tls_Ecdhe_Ecdsa_With_Aes_128_Ccm_8 => 0xc0ae
  | Tls_Ecdhe_Ecdsa_With_Aes_128_Gcm_Sha256 => 0xc02b
  | Tls_Ecdhe_Rsa_With_Aes_128_Gcm_Sha256 => 0xc02f
  | Tls_Ecdhe_Ecdsa_With_Aes_256_Cbc_Sha => 0xc00a
  | Tls_Ecdhe_Rsa_With_Aes_256_Cbc_Sha => 0xc014
  | Tls_Psk_With_Aes_128_Ccm => 0xc0a4
  | Tls_Psk_With_Aes_128_Ccm_8 => 0xc0a8
  | Tls_Psk_With_Aes_128_Gcm_Sha256 => 0x00a8
  | Tls_Ecdhe_Rsa_With_ChaCha20_Poly1305_Sha256 => 0xcca8
  | Tls_Ecdhe_Ecdsa_With_ChaCha20_Poly1305_Sha256 => 0xcca9
  | CsUnsupported => 0xccaa
  end.

Definition CipherSuiteId_from (val : Z) : CipherSuiteId :=
  match val with
  | 0xc0ac => Tls_Ecdhe_Ecdsa_With_Aes_128_Ccm
  | 0xc0ae => Tls_Ecdhe_Ecdsa_With_Aes_128_Ccm_8
  | 0xc02b => Tls_Ecdhe_Ecdsa_With_Aes_128_Gcm_Sha256
  | 0xc02f => Tls_Ecdhe_Rsa_With_Aes_128_Gcm_Sha256
  | 0xc00a => Tls_Ecdhe_Ecdsa_With_Aes_256_Cbc_Sha
  | 0xc014 => Tls_Ecdhe_Rsa_With_Aes_256_Cbc_Sha
  | 0xc0a4 => Tls_Psk_With_Aes_128_Ccm
  | 0xc0a8 => Tls_Psk_With_Aes_128_Ccm_8
  | 0x00a8 => Tls_Psk_With_Aes_128_Gcm_Sha256
  | 0xcca8 => Tls_Ecdhe_Rsa_With_ChaCha20_Poly1305_Sha256
  | 0xcca9 => Tls_Ecdhe_Ecdsa_With_ChaCha20_Poly1305_Sha256
  | _ => CsUnsupported
  end.

Inductive ExtensionValue :=
| EvServerName | EvSupportedEllipticCurves | EvSupportedPointFormats | EvSupportedSignatureAlgorithms
| EvUseSrtp | EvUseExtendedMasterSecret | EvRenegotiationInfo | EvUnsupported.

Definition ExtensionValue_code (v : ExtensionValue) : Z :=
  match v with
  | EvServerName => 0 | EvSupportedEllipticCurves => 10 | EvSupportedPointFormats => 11
  | EvSupportedSignatureAlgorithms => 13 | EvUseSrtp => 14 | EvUseExtendedMasterSecret => 23
  | EvRenegotiationInfo => 65281 | EvUnsupported => 65282
  end.

Definition ExtensionValue_from (val : Z) : ExtensionValue :=
  match val with
  | 0 => EvServerName | 10 => EvSupportedEllipticCurves | 11 => EvSupportedPointFormats
  | 13 => EvSupportedSignatureAlgorithms | 14 => EvUseSrtp | 23 => EvUseExtendedMasterSecret
  | 65281 => EvRenegotiationInfo
  | _ => EvUnsupported
  end.

#[global] Instance ContentType_eq_dec : EqDecision ContentType.
Proof. solve_decision. Defined.
#[global] Instance AlertLevel_eq_dec : EqDecision AlertLevel.
Proof. solve_decision. Defined.
#[global] Instance AlertDescription_eq_dec : EqDecision AlertDescription.
Proof. solve_decision. Defined.
#[global] Instance HandshakeType_eq_dec : EqDecision HandshakeType.
Proof. solve_decision. Defined.
#[global] Instance CompressionMethodId_eq_dec : EqDecision CompressionMethodId.
Proof. solve_decision. Defined.
#[global] Instance HashAlgorithm_eq_dec : EqDecision HashAlgorithm.
Proof. solve_decision. Defined.
#[global] Instance SignatureAlgorithm_eq_dec : EqDecision SignatureAlgorithm.
Proof. solve_decision. Defined.
#[global] Instance NamedCurve_eq_dec : EqDecision NamedCurve.
Proof. solve_decision. Defined.
#[global] Instance SrtpProtectionProfile_eq_dec : EqDecision SrtpProtectionProfile.
Proof. solve_decision. Defined.
#[global] Instance CipherSuiteId_eq_dec : EqDecision CipherSuiteId.
Proof. solve_decision. Defined.

(** * Extensions *)

(** A [String] is its UTF-8 bytes. *)
Record ExtensionServerName := { server_name : list byte }.
Record ExtensionSupportedEllipticCurves := { elliptic_curves : list NamedCurve }.
Record ExtensionSupportedPointFormats := { point_formats : list byte }.
Record ExtensionSupportedSignatureAlgorithms := { esa_algorithms : list SignatureHashAlgorithm }.
Record ExtensionUseSrtp := { protection_profiles : list SrtpProtectionProfile }.
Record ExtensionUseExtendedMasterSecret := { supported : bool }.
Record ExtensionRenegotiationInfo := { renegotiated_connection : byte }.

Definition ServerName_size (e : ExtensionServerName) : Z := 2 + 2 + 1 + 2 + len (server_name e).

Definition ServerName_marshal (e : ExtensionServerName) : list byte :=
  write_u16 (2 + 1 + 2 + len (server_name e)) ++ write_u16 (1 + 2 + len (server_name e)) ++
  write_u8 0 ++ write_u16 (len (server_name e)) ++ server_name e.

Definition ServerName_unmarshal : Rd ExtensionServerName :=
  read! _ := rd_u16 in
  read! _ := rd_u16 in
  read! name_type := rd_u8 in
  if decide (name_type <> 0) then rd_fail ErrInvalidSniFormat else
  read! buf_len := rd_u16 in
  read! buf := read_exact (Z.to_nat buf_len) in
  if Storage.utf8_valid (byte_to_Z <$> buf) then rd_ret {| server_name := buf |} else rd_fail Utf8.

Definition EllipticCurves_size (e : ExtensionSupportedEllipticCurves) : Z := 2 + 2 + len (elliptic_curves e) * 2.

Definition EllipticCurves_marshal (e : ExtensionSupportedEllipticCurves) : list byte :=
  write_u16 (2 + 2 * len (elliptic_curves e)) ++ write_u16 (2 * len (elliptic_curves e)) ++
  mjoin ((fun v => write_u16 (NamedCurve_code v)) <$> elliptic_curves e).

Definition EllipticCurves_unmarshal : Rd ExtensionSupportedEllipticCurves :=
  read! _ := rd_u16 in
  read! n := rd_u16 in
  read! curves := read_many (Z.to_nat (n / 2)) (read! v := rd_u16 in rd_ret (NamedCurve_from v)) in
  rd_ret {| elliptic_curves := curves |}.

Definition PointFormats_size (e : ExtensionSupportedPointFormats) : Z := 2 + 1 + len (point_formats e).

Definition PointFormats_marshal (e : ExtensionSupportedPointFormats) : list byte :=
  write_u16 (1 + len (point_formats e)) ++ write_u8 (len (point_formats e)) ++ point_formats e.

Definition PointFormats_unmarshal : Rd ExtensionSupportedPointFormats :=
  read! _ := rd_u16 in
  read! n := rd_u8 in
  read! formats := read_many (Z.to_nat n) read_byte in
  rd_ret {| point_formats := formats |}.

Definition algorithm_marshal (v : SignatureHashAlgorithm) : list byte :=
  write_u8 (HashAlgorithm_code (sha_hash v)) ++ write_u8 (SignatureAlgorithm_code (sha_signature v)).

Definition algorithm_unmarshal : Rd SignatureHashAlgorithm :=
  read! h := rd_u8 in
  read! s := rd_u8 in
  rd_ret {| sha_hash := HashAlgorithm_from h; sha_signature := SignatureAlgorithm_from s |}.

Definition SignatureAlgorithms_size (e : ExtensionSupportedSignatureAlgorithms) : Z := 2 + 2 + len (esa_algorithms e) * 2.

Definition SignatureAlgorithms_marshal (e : ExtensionSupportedSignatureAlgorithms) : list byte :=
  write_u16 (2 + 2 * len (esa_algorithms e)) ++ write_u16 (2 * len (esa_algorithms e)) ++
  mjoin (algorithm_marshal <$> esa_algorithms e).

Definition SignatureAlgorithms_unmarshal : Rd ExtensionSupportedSignatureAlgorithms :=
  read! _ := rd_u16 in
  read! n := rd_u16 in
  read! algorithms := read_many (Z.to_nat (n / 2)) algorithm_unmarshal in
  rd_ret {| esa_algorithms := algorithms |}.

Definition UseSrtp_size (e : ExtensionUseSrtp) : Z := 2 + 2 + len (protection_profiles e) * 2 + 1.

Definition UseSrtp_marshal (e : ExtensionUseSrtp) : list byte :=
  write_u16 (2 + 1 + 2 * len (protection_profiles e)) ++ write_u16 (2 * len (protection_profiles e)) ++
  mjoin ((fun v => write_u16 (SrtpProtectionProfile_code v)) <$> protection_profiles e) ++ write_u8 0.

Definition UseSrtp_unmarshal : Rd ExtensionUseSrtp :=
  read! _ := rd_u16 in
  read! n := rd_u16 in
  read! profiles := read_many (Z.to_nat (n / 2)) (read! v := rd_u16 in rd_ret (SrtpProtectionProfile_from v)) in
  read! _ := rd_u8 in
  rd_ret {| protection_profiles := profiles |}.

Definition ExtendedMasterSecret_size (_ : ExtensionUseExtendedMasterSecret) : Z := 2.
Definition ExtendedMasterSecret_marshal (_ : ExtensionUseExtendedMasterSecret) : list byte := write_u16 0.
Definition ExtendedMasterSecret_unmarshal : Rd ExtensionUseExtendedMasterSecret :=
  read! _ := rd_u16 in rd_ret {| supported := true |}.

Definition RenegotiationInfo_size (_ : ExtensionRenegotiationInfo) : Z := 3.
Definition RenegotiationInfo_marshal (e : ExtensionRenegotiationInfo) : list byte :=
  write_u16 1 ++ [renegotiated_connection e].
Definition RenegotiationInfo_unmarshal : Rd ExtensionRenegotiationInfo :=
  read! l := rd_u16 in
  if decide (l <> 1) then rd_fail ErrInvalidPacketLength else
  read! c := read_byte in
  rd_ret {| renegotiated_connection := c |}.

Inductive Extension :=
| ExtServerName (e : ExtensionServerName)
| ExtSupportedEllipticCurves (e : ExtensionSupportedEllipticCurves)
| ExtSupportedPointFormats (e : ExtensionSupportedPointFormats)
| ExtSupportedSignatureAlgorithms (e : ExtensionSupportedSignatureAlgorithms)
| ExtUseSrtp (e : ExtensionUseSrtp)
| ExtUseExtendedMasterSecret (e : ExtensionUseExtendedMasterSecret)
| ExtRenegotiationInfo (e : ExtensionRenegotiationInfo).

Definition extension_value (e : Extension) : ExtensionValue :=
  match e with
  | ExtServerName _ => EvServerName
  | ExtSupportedEllipticCurves _ => EvSupportedEllipticCurves
  | ExtSupportedPointFormats _ => EvSupportedPointFormats
  | ExtSupportedSignatureAlgorithms _ => EvSupportedSignatureAlgorithms
  | ExtUseSrtp _ => EvUseSrtp
  | ExtUseExtendedMasterSecret _ => EvUseExtendedMasterSecret
  | ExtRenegotiationInfo _ => EvRenegotiationInfo
  end.

Definition Extension_size (e : Extension) : Z :=
  2 + match e with
      | ExtServerName e => ServerName_size e
      | ExtSupportedEllipticCurves e => EllipticCurves_size e
      | ExtSupportedPointFormats e => PointFormats_size e
      | ExtSupportedSignatureAlgorithms e => SignatureAlgorithms_size e
      | ExtUseSrtp e => UseSrtp_size e
      | ExtUseExtendedMasterSecret e => ExtendedMasterSecret_size e
      | ExtRenegotiationInfo e => RenegotiationInfo_size e
      end.

Definition Extension_marshal (e : Extension) : list byte :=
  write_u16 (ExtensionValue_code (extension_value e)) ++
  match e with
  | ExtServerName e => ServerName_marshal e
  | ExtSupportedEllipticCurves e => EllipticCurves_marshal e
  | ExtSupportedPointFormats e => PointFormats_marshal e
  | ExtSupportedSignatureAlgorithms e => SignatureAlgorithms_marshal e
  | ExtUseSrtp e => UseSrtp_marshal e
  | ExtUseExtendedMasterSecret e => ExtendedMasterSecret_marshal e
  | ExtRenegotiationInfo e => RenegotiationInfo_marshal e
  end.

Definition Extension_unmarshal : Rd Extension :=
  read! v := rd_u16 in
  match ExtensionValue_from v with
  | EvServerName => read! e := ServerName_unmarshal in rd_ret (ExtServerName e)
  | EvSupportedEllipticCurves => read! e := EllipticCurves_unmarshal in rd_ret (ExtSupportedEllipticCurves e)
  | EvSupportedPointFormats => read! e := PointFormats_unmarshal in rd_ret (ExtSupportedPointFormats e)
  | EvSupportedSignatureAlgorithms => read! e := SignatureAlgorithms_unmarshal in rd_ret (ExtSupportedSignatureAlgorithms e)
  | EvUseSrtp => read! e := UseSrtp_unmarshal in rd_ret (ExtUseSrtp e)
  | EvUseExtendedMasterSecret => read! e := ExtendedMasterSecret_unmarshal in rd_ret (ExtUseExtendedMasterSecret e)
  | EvRenegotiationInfo => read! e := RenegotiationInfo_unmarshal in rd_ret (ExtRenegotiationInfo e)
  | EvUnsupported => rd_fail ErrInvalidExtensionType
  end.

(** The loop over the extension buffer of the two hello messages: [offset]
    moves by the declared length whether the extension was understood or not.
    Each turn moves it by at least four, so the length of the buffer bounds the
    number of turns ([extension_loop_fuel]). *)
Fixpoint extension_loop (fuel : nat) (buf : list byte) (offset : Z) (extensions : list Extension) : Act (list Extension) :=
  match fuel with
  | O => act extensions
  | S fuel' =>
      if decide (offset < len buf) then
        let! unmarshalled := Extension_unmarshal (drop (Z.to_nat offset) buf) in
        let extensions' :=
          match unmarshalled with
          | Ok (extension, _) => extensions ++ [extension]
          | Err _ => extensions
          end in
        act! hi := index buf (offset + 2) in
        act! lo := index buf (offset + 3) in
        extension_loop fuel' buf (offset + (4 + be_value [hi; lo])) extensions'
      else act extensions
  end.

Definition extensions_marshal (l : list Extension) : list byte := mjoin (Extension_marshal <$> l).

Definition extensions_unmarshal : Rd (list Extension) :=
  read! n := rd_u16 in
  read! buf := read_exact (Z.to_nat n) in
  fun r => act! extensions := extension_loop (length buf) buf 0 [] in act (extensions, r).

(** * Handshake messages *)

Record ProtocolVersion := { major : byte; minor : byte }.

#[global] Instance ProtocolVersion_eq_dec : EqDecision ProtocolVersion.
Proof. solve_decision. Defined.

Definition PROTOCOL_VERSION1_0 : ProtocolVersion := {| major := xfe; minor := xff |}.
Definition PROTOCOL_VERSION1_2 : ProtocolVersion := {| major := xfe; minor := xfd |}.

Definition RANDOM_BYTES_LENGTH : nat := 28.

(** [gmt_unix_time] is a [SystemTime], in nanoseconds since the epoch. *)
Record HandshakeRandom := { gmt_unix_time : Z; random_bytes : list byte }.

Definition HandshakeRandom_size (_ : HandshakeRandom) : Z := 4 + Z.of_nat RANDOM_BYTES_LENGTH.

Definition HandshakeRandom_marshal (r : HandshakeRandom) : list byte :=
  let secs := if decide (0 <= gmt_unix_time r) then gmt_unix_time r / 1000000000 else 0 in
  write_u32 secs ++ random_bytes r.

Definition HandshakeRandom_unmarshal : Rd HandshakeRandom :=
  read! secs := rd_u32 in
  read! bs := read_exact RANDOM_BYTES_LENGTH in
  rd_ret {| gmt_unix_time := secs * 1000000000; random_bytes := bs |}.

Record CompressionMethods := { ids : list CompressionMethodId }.

Definition CompressionMethods_size (c : CompressionMethods) : Z := 1 + len (ids c).

Definition CompressionMethods_marshal (c : CompressionMethods) : list byte :=
  write_u8 (len (ids c)) ++ mjoin ((fun id => write_u8 (CompressionMethodId_code id)) <$> ids c).

Definition CompressionMethods_unmarshal : Rd CompressionMethods :=
  read! n := rd_u8 in
  read! all := read_many (Z.to_nat n) (read! v := rd_u8 in rd_ret (CompressionMethodId_from v)) in
  rd_ret {| ids := filter (fun id => id <> CmUnsupported) all |}.

Definition default_compression_methods : CompressionMethods := {| ids := [CmNull] |}.

Record HandshakeMessageClientHello := {
  ch_version : ProtocolVersion;
  ch_random : HandshakeRandom;
  ch_cookie : list byte;
  ch_cipher_suites : list CipherSuiteId;
  ch_compression_methods : CompressionMethods;
  ch_extensions : list Extension;
}.

Definition extensions_size (l : list Extension) : Z := foldr (fun e z => Extension_size e + z) 0 l.

Definition ClientHello_size (m : HandshakeMessageClientHello) : Z :=
  2 + HandshakeRandom_size (ch_random m) + 1 + (1 + len (ch_cookie m)) + (2 + 2 * len (ch_cipher_suites m)) +
  CompressionMethods_size (ch_compression_methods m) + 2 + extensions_size (ch_extensions m).

Definition ClientHello_marshal (m : HandshakeMessageClientHello) : Act (list byte) :=
  if decide (len (ch_cookie m) > 255) then fail ErrCookieTooLong else
  act ([major (ch_version m)] ++ [minor (ch_version m)] ++ HandshakeRandom_marshal (ch_random m) ++
       write_u8 0 ++
       write_u8 (len (ch_cookie m)) ++ ch_cookie m ++
       write_u16 (2 * len (ch_cipher_suites m)) ++
       mjoin ((fun c => write_u16 (CipherSuiteId_code c)) <$> ch_cipher_suites m) ++
       CompressionMethods_marshal (ch_compression_methods m) ++
       write_u16 (len (extensions_marshal (ch_extensions m))) ++ extensions_marshal (ch_extensions m)).

Definition ClientHello_unmarshal : Rd HandshakeMessageClientHello :=
  read! major := read_byte in
  read! minor := read_byte in
  read! random := HandshakeRandom_unmarshal in
  read! _ := rd_u8 in
  read! cookie_len := rd_u8 in
  read! cookie := read_exact (Z.to_nat cookie_len) in
  read! cipher_suites_len := rd_u16 in
  read! cipher_suites := read_many (Z.to_nat (cipher_suites_len / 2)) (read! v := rd_u16 in rd_ret (CipherSuiteId_from v)) in
  read! compression_methods := CompressionMethods_unmarshal in
  read! extensions := extensions_unmarshal in
  rd_ret {| ch_version := {| major := major; minor := minor |}; ch_random := random; ch_cookie := cookie;
            ch_cipher_suites := cipher_suites; ch_compression_methods := compression_methods;
            ch_extensions := extensions |}.

Record HandshakeMessageServerHello := {
  sh_version : ProtocolVersion;
  sh_random : HandshakeRandom;
  sh_cipher_suite : CipherSuiteId;
  sh_compression_method : CompressionMethodId;
  sh_extensions : list Extension;
}.

Definition ServerHello_size (m : HandshakeMessageServerHello) : Z :=
  2 + HandshakeRandom_size (sh_random m) + 1 + 2 + 1 + 2 + extensions_size (sh_extensions m).

Definition ServerHello_marshal (m : HandshakeMessageServerHello) : list byte :=
  [major (sh_version m)] ++ [minor (sh_version m)] ++ HandshakeRandom_marshal (sh_random m) ++
  write_u8 0 ++
  write_u16 (CipherSuiteId_code (sh_cipher_suite m)) ++
  write_u8 (CompressionMethodId_code (sh_compression_method m)) ++
  write_u16 (len (extensions_marshal (sh_extensions m))) ++ extensions_marshal (sh_extensions m).

Definition ServerHello_unmarshal : Rd HandshakeMessageServerHello :=
  read! major := read_byte in
  read! minor := read_byte in
  read! random := HandshakeRandom_unmarshal in
  read! session_id_len := rd_u8 in
  read! _ := read_exact (Z.to_nat session_id_len) in
  read! cipher_suite := rd_u16 in
  read! compression_method := rd_u8 in
  read! extensions := extensions_unmarshal in
  rd_ret {| sh_version := {| major := major; minor := minor |}; sh_random := random;
            sh_cipher_suite := CipherSuiteId_from cipher_suite;
            sh_compression_method := CompressionMethodId_from compression_method;
            sh_extensions := extensions |}.

Record HandshakeMessageHelloVerifyRequest := { hvr_version : ProtocolVersion; hvr_cookie : list byte }.

Definition HelloVerifyRequest_size (m : HandshakeMessageHelloVerifyRequest) : Z := 1 + 1 + 1 + len (hvr_cookie m).

Definition HelloVerifyRequest_marshal (m : HandshakeMessageHelloVerifyRequest) : Act (list byte) :=
  if decide (len (hvr_cookie m) > 255) then fail ErrCookieTooLong else
  act ([major (hvr_version m)] ++ [minor (hvr_version m)] ++ write_u8 (len (hvr_cookie m)) ++ hvr_cookie m).

Definition HelloVerifyRequest_unmarshal : Rd HandshakeMessageHelloVerifyRequest :=
  read! major := read_byte in
  read! minor := read_byte in
  read! cookie_length := rd_u8 in
  read! cookie := read_to_end in
  if decide (len cookie < cookie_length) then rd_fail ErrBufferTooSmall else
  rd_ret {| hvr_version := {| major := major; minor := minor |}; hvr_cookie := cookie |}.

Record HandshakeMessageCertificate := { certificate : list (list byte) }.

Definition certificate_payload_size (l : list (list byte)) : Z := foldr (fun r z => 3 + len r + z) 0 l.

Definition Certificate_size (m : HandshakeMessageCertificate) : Z := 3 + certificate_payload_size (certificate m).

Fixpoint certificate_bodies (l : list (list byte)) : Act (list byte) :=
  match l with
  | [] => act []
  | r :: l' =>
      act! n := write_u24 (len r mod 4294967296) in
      act! rest := certificate_bodies l' in
      act (n ++ r ++ rest)
  end.

Definition Certificate_marshal (m : HandshakeMessageCertificate) : Act (list byte) :=
  act! n := write_u24 (certificate_payload_size (certificate m) mod 4294967296) in
  act! bodies := certificate_bodies (certificate m) in
  act (n ++ bodies).

(** [while offset < payload_size]: each turn reads three bytes at least, so the
    input's length bounds the number of turns ([certificate_loop_fuel]). *)
Fixpoint certificate_loop (fuel : nat) (payload_size offset : Z) (out : list (list byte)) : Rd (list (list byte)) :=
  match fuel with
  | O => rd_fail Io
  | S fuel' =>
      if decide (offset < payload_size) then
        read! certificate_len := rd_u24 in
        read! buf := read_exact (Z.to_nat certificate_len) in
        certificate_loop fuel' payload_size (offset + 3 + certificate_len) (out ++ [buf])
      else rd_ret out
  end.

Definition Certificate_unmarshal : Rd HandshakeMessageCertificate :=
  read! payload_size := rd_u24 in
  fun r => (read! l := certificate_loop (S (length r)) payload_size 0 [] in rd_ret {| certificate := l |}) r.

Record HandshakeMessageServerKeyExchange := {
  ske_identity_hint : list byte;
  elliptic_curve_type : EllipticCurveType;
  named_curve : NamedCurve;
  ske_public_key : list byte;
  ske_algorithm : SignatureHashAlgorithm;
  ske_signature : list byte;
}.

Definition ServerKeyExchange_size (m : HandshakeMessageServerKeyExchange) : Z :=
  if decide (ske_identity_hint m <> []) then 2 + len (ske_identity_hint m)
  else 1 + 2 + 1 + len (ske_public_key m) + 2 + 2 + len (ske_signature m).

Definition ServerKeyExchange_marshal (m : HandshakeMessageServerKeyExchange) : list byte :=
  if decide (ske_identity_hint m <> []) then write_u16 (len (ske_identity_hint m)) ++ ske_identity_hint m
  else write_u8 (EllipticCurveType_code (elliptic_curve_type m)) ++ write_u16 (NamedCurve_code (named_curve m)) ++
       write_u8 (len (ske_public_key m)) ++ ske_public_key m ++
       write_u8 (HashAlgorithm_code (sha_hash (ske_algorithm m))) ++
       write_u8 (SignatureAlgorithm_code (sha_signature (ske_algorithm m))) ++
       write_u16 (len (ske_signature m)) ++ ske_signature m.

Definition ServerKeyExchange_parse (data : list byte) : Act HandshakeMessageServerKeyExchange :=
  act! d0 := index data 0 in
  act! d1 := index data 1 in
  if decide (len data = u16_of d0 d1 + 2) then
    act {| ske_identity_hint := drop 2 data; elliptic_curve_type := EctUnsupported; named_curve := NcUnsupported;
           ske_public_key := []; ske_algorithm := {| sha_hash := HaUnsupported; sha_signature := SaUnsupported |};
           ske_signature := [] |}
  else if decide (len (drop 1 data) < 2) then fail ErrBufferTooSmall else
  act! d2 := index data 2 in
  if decide (len data < 4) then fail ErrBufferTooSmall else
  act! d3 := index data 3 in
  let offset := 4 + byte_to_Z d3 in
  if decide (len data < offset) then fail ErrBufferTooSmall else
  let public_key := take (Z.to_nat (byte_to_Z d3)) (drop 4 data) in
  if decide (len data <= offset) then fail ErrBufferTooSmall else
  act! hash_algorithm := index data offset in
  if decide (len data <= offset + 1) then fail ErrBufferTooSmall else
  act! signature_algorithm := index data (offset + 1) in
  if decide (len data < offset + 2 + 2) then fail ErrBufferTooSmall else
  act! s0 := index data (offset + 2) in
  act! s1 := index data (offset + 3) in
  let signature_length := u16_of s0 s1 in
  if decide (len data < offset + 4 + signature_length) then fail ErrBufferTooSmall else
  act {| ske_identity_hint := [];
         elliptic_curve_type := EllipticCurveType_from (byte_to_Z d0);
         named_curve := NamedCurve_from (u16_of d1 d2);
         ske_public_key := public_key;
         ske_algorithm := {| sha_hash := HashAlgorithm_from (byte_to_Z hash_algorithm);
                             sha_signature := SignatureAlgorithm_from (byte_to_Z signature_algorithm) |};
         ske_signature := take (Z.to_nat signature_length) (drop (Z.to_nat (offset + 4)) data) |}.

Definition ServerKeyExchange_unmarshal : Rd HandshakeMessageServerKeyExchange :=
  read! data := read_to_end in
  fun r => act! m := ServerKeyExchange_parse data in act (m, r).

Record HandshakeMessageCertificateRequest := {
  certificate_types : list ClientCertificateType;
  cr_algorithms : list SignatureHashAlgorithm;
}.

Definition CertificateRequest_size (m : HandshakeMessageCertificateRequest) : Z :=
  1 + len (certificate_types m) + 2 + len (cr_algorithms m) * 2 + 2.

Definition CertificateRequest_marshal (m : HandshakeMessageCertificateRequest) : list byte :=
  write_u8 (len (certificate_types m)) ++
  mjoin ((fun v => write_u8 (ClientCertificateType_code v)) <$> certificate_types m) ++
  write_u16 (2 * len (cr_algorithms m)) ++ mjoin (algorithm_marshal <$> cr_algorithms m) ++ [x00; x00].

(** [(0..n).step_by(2)] has [ceil(n / 2)] turns. *)
Definition CertificateRequest_unmarshal : Rd HandshakeMessageCertificateRequest :=
  read! n := rd_u8 in
  read! types := read_many (Z.to_nat n) (read! v := rd_u8 in rd_ret (ClientCertificateType_from v)) in
  read! l := rd_u16 in
  read! algorithms := read_many (Z.to_nat (div_ceil l 2)) algorithm_unmarshal in
  rd_ret {| certificate_types := types; cr_algorithms := algorithms |}.

Record HandshakeMessageCertificateVerify := { cv_algorithm : SignatureHashAlgorithm; cv_signature : list byte }.

Definition CertificateVerify_size (m : HandshakeMessageCertificateVerify) : Z := 1 + 1 + 2 + len (cv_signature m).

Definition CertificateVerify_marshal (m : HandshakeMessageCertificateVerify) : list byte :=
  write_u8 (HashAlgorithm_code (sha_hash (cv_algorithm m))) ++
  write_u8 (SignatureAlgorithm_code (sha_signature (cv_algorithm m))) ++
  write_u16 (len (cv_signature m)) ++ cv_signature m.

Definition CertificateVerify_unmarshal : Rd HandshakeMessageCertificateVerify :=
  read! algorithm := algorithm_unmarshal in
  read! n := rd_u16 in
  read! signature := read_exact (Z.to_nat n) in
  rd_ret {| cv_algorithm := algorithm; cv_signature := signature |}.

Record HandshakeMessageClientKeyExchange := { cke_identity_hint : list byte; cke_public_key : list byte }.

Definition ClientKeyExchange_size (m : HandshakeMessageClientKeyExchange) : Z :=
  if decide (cke_public_key m <> []) then 1 + len (cke_public_key m) else 2 + len (cke_identity_hint m).

Definition ClientKeyExchange_marshal (m : HandshakeMessageClientKeyExchange) : Act (list byte) :=
  if decide ((cke_identity_hint m <> [] /\ cke_public_key m <> []) \/ (cke_identity_hint m = [] /\ cke_public_key m = []))
  then fail ErrInvalidClientKeyExchange
  else if decide (cke_public_key m <> []) then act (write_u8 (len (cke_public_key m)) ++ cke_public_key m)
  else act (write_u16 (len (cke_identity_hint m)) ++ cke_identity_hint m).

Definition ClientKeyExchange_parse (data : list byte) : Act HandshakeMessageClientKeyExchange :=
  act! d0 := index data 0 in
  act! d1 := index data 1 in
  if decide (len data = u16_of d0 d1 + 2) then act {| cke_identity_hint := drop 2 data; cke_public_key := [] |}
  else if decide (len data <> byte_to_Z d0 + 1) then fail ErrBufferTooSmall
  else act {| cke_identity_hint := []; cke_public_key := drop 1 data |}.

Definition ClientKeyExchange_unmarshal : Rd HandshakeMessageClientKeyExchange :=
  read! data := read_to_end in
  fun r => act! m := ClientKeyExchange_parse data in act (m, r).

Record HandshakeMessageFinished := { verify_data : list byte }.

Inductive HandshakeMessage :=
| MClientHello (m : HandshakeMessageClientHello)
| MServerHello (m : HandshakeMessageServerHello)
| MHelloVerifyRequest (m : HandshakeMessageHelloVerifyRequest)
| MCertificate (m : HandshakeMessageCertificate)
| MServerKeyExchange (m : HandshakeMessageServerKeyExchange)
| MCertificateRequest (m : HandshakeMessageCertificateRequest)
| MServerHelloDone
| MCertificateVerify (m : HandshakeMessageCertificateVerify)
| MClientKeyExchange (m : HandshakeMessageClientKeyExchange)
| MFinished (m : HandshakeMessageFinished).

Definition message_type (m : HandshakeMessage) : HandshakeType :=
  match m with
  | MClientHello _ => ClientHello
  | MServerHello _ => ServerHello
  | MHelloVerifyRequest _ => HelloVerifyRequest
  | MCertificate _ => Certificate
  | MServerKeyExchange _ => ServerKeyExchange
  | MCertificateRequest _ => CertificateRequest
  | MServerHelloDone => ServerHelloDone
  | MCertificateVerify _ => CertificateVerify
  | MClientKeyExchange _ => ClientKeyExchange
  | MFinished _ => Finished
  end.

Definition HandshakeMessage_size (m : HandshakeMessage) : Z :=
  match m with
  | MClientHello m => ClientHello_size m
  | MServerHello m => ServerHello_size m
  | MHelloVerifyRequest m => HelloVerifyRequest_size m
  | MCertificate m => Certificate_size m
  | MServerKeyExchange m => ServerKeyExchange_size m
  | MCertificateRequest m => CertificateRequest_size m
  | MServerHelloDone => 0
  | MCertificateVerify m => CertificateVerify_size m
  | MClientKeyExchange m => ClientKeyExchange_size m
  | MFinished m => len (verify_data m)
  end.

Definition HandshakeMessage_marshal (m : HandshakeMessage) : Act (list byte) :=
  match m with
  | MClientHello m => ClientHello_marshal m
  | MServerHello m => act (ServerHello_marshal m)
  | MHelloVerifyRequest m => HelloVerifyRequest_marshal m
  | MCertificate m => Certificate_marshal m
  | MServerKeyExchange m => act (ServerKeyExchange_marshal m)
  | MCertificateRequest m => act (CertificateRequest_marshal m)
  | MServerHelloDone => act []
  | MCertificateVerify m => act (CertificateVerify_marshal m)
  | MClientKeyExchange m => ClientKeyExchange_marshal m
  | MFinished m => act (verify_data m)
  end.

(** ** The handshake header *)

Definition HANDSHAKE_HEADER_LENGTH : Z := 12.

Record HandshakeHeader := {
  handshake_type : HandshakeType;
  hh_length : Z;
  message_sequence : Z;
  fragment_offset : Z;
  fragment_length : Z;
}.

Definition HandshakeHeader_size (_ : HandshakeHeader) : Z := 1 + 3 + 2 + 3 + 3.

Definition HandshakeHeader_marshal (h : HandshakeHeader) : Act (list byte) :=
  act! l := write_u24 (hh_length h) in
  act! o := write_u24 (fragment_offset h) in
  act! n := write_u24 (fragment_length h) in
  act (write_u8 (HandshakeType_code (handshake_type h)) ++ l ++ write_u16 (message_sequence h) ++ o ++ n).

Definition HandshakeHeader_unmarshal : Rd HandshakeHeader :=
  read! t := rd_u8 in
  read! l := rd_u24 in
  read! s := rd_u16 in
  read! o := rd_u24 in
  read! n := rd_u24 in
  rd_ret {| handshake_type := HandshakeType_from t; hh_length := l; message_sequence := s;
            fragment_offset := o; fragment_length := n |}.

Record Handshake := { handshake_header : HandshakeHeader; handshake_message : HandshakeMessage }.

Definition Handshake_new (m : HandshakeMessage) : Handshake :=
  {| handshake_header :=
       {| handshake_type := message_type m; hh_length := HandshakeMessage_size m mod 4294967296;
          message_sequence := 0; fragment_offset := 0;
          fragment_length := HandshakeMessage_size m mod 4294967296 |};
     handshake_message := m |}.

Definition Handshake_size (h : Handshake) : Z :=
  HandshakeHeader_size (handshake_header h) + HandshakeMessage_size (handshake_message h).

Definition Handshake_marshal (h : Handshake) : Act (list byte) :=
  act! header := HandshakeHeader_marshal (handshake_header h) in
  act! message := HandshakeMessage_marshal (handshake_message h) in
  act (header ++ message).

Definition message_unmarshal (t : HandshakeType) : Rd HandshakeMessage :=
  match t with
  | ClientHello => read! m := ClientHello_unmarshal in rd_ret (MClientHello m)
  | ServerHello => read! m := ServerHello_unmarshal in rd_ret (MServerHello m)
  | HelloVerifyRequest => read! m := HelloVerifyRequest_unmarshal in rd_ret (MHelloVerifyRequest m)
  | Certificate => read! m := Certificate_unmarshal in rd_ret (MCertificate m)
  | ServerKeyExchange => read! m := ServerKeyExchange_unmarshal in rd_ret (MServerKeyExchange m)
  | CertificateRequest => read! m := CertificateRequest_unmarshal in rd_ret (MCertificateRequest m)
  | ServerHelloDone => rd_ret MServerHelloDone
  | CertificateVerify => read! m := CertificateVerify_unmarshal in rd_ret (MCertificateVerify m)
  | ClientKeyExchange => read! m := ClientKeyExchange_unmarshal in rd_ret (MClientKeyExchange m)
  | Finished => read! data := read_to_end in rd_ret (MFinished {| verify_data := data |})
  | HelloRequest | InvalidType => rd_fail ErrNotImplemented
  end.

Definition Handshake_unmarshal : Rd Handshake :=
  read! header := HandshakeHeader_unmarshal in
  read! message := message_unmarshal (handshake_type header) in
  rd_ret {| handshake_header := header; handshake_message := message |}.

(** * The record layer *)

Record Alert := { alert_level : AlertLevel; alert_description : AlertDescription }.

Definition Alert_size (_ : Alert) : Z := 2.
Definition Alert_marshal (a : Alert) : list byte :=
  write_u8 (AlertLevel_code (alert_level a)) ++ write_u8 (AlertDescription_code (alert_description a)).
Definition Alert_unmarshal : Rd Alert :=
  read! l := rd_u8 in
  read! d := rd_u8 in
  rd_ret {| alert_level := AlertLevel_from l; alert_description := AlertDescription_from d |}.

Definition AlertLevel_display (l : AlertLevel) : string :=
  match l with Warning => "LevelWarning" | Fatal => "LevelFatal" | InvalidLevel => "Invalid alert level" end.

Definition AlertDescription_display (d : AlertDescription) : string :=
  match d with
  | CloseNotify => "CloseNotify" | UnexpectedMessage => "UnexpectedMessage" | BadRecordMac => "BadRecordMac"
  | DecryptionFailed => "DecryptionFailed" | RecordOverflow => "RecordOverflow"
  | DecompressionFailure => "DecompressionFailure" | HandshakeFailure => "HandshakeFailure"
  | NoCertificate => "NoCertificate" | BadCertificate => "BadCertificate"
  | UnsupportedCertificate => "UnsupportedCertificate" | CertificateRevoked => "CertificateRevoked"
  | CertificateExpired => "CertificateExpired" | CertificateUnknown => "CertificateUnknown"
  | IllegalParameter => "IllegalParameter" | UnknownCa => "UnknownCA" | AccessDenied => "AccessDenied"
  | DecodeError => "DecodeError" | DecryptError => "DecryptError" | ExportRestriction => "ExportRestriction"
  | AdProtocolVersion => "ProtocolVersion" | InsufficientSecurity => "InsufficientSecurity"
  | InternalError => "InternalError" | UserCanceled => "UserCanceled" | NoRenegotiation => "NoRenegotiation"
  | UnsupportedExtension => "UnsupportedExtension" | UnknownPskIdentity => "UnknownPskIdentity"
  | InvalidDescription => "Invalid alert description"
  end.

Definition Alert_display (a : Alert) : string :=
  "Alert " +:+ AlertLevel_display (alert_level a) +:+ ": " +:+ AlertDescription_display (alert_description a).

Definition ChangeCipherSpec_marshal : list byte := write_u8 1.
Definition ChangeCipherSpec_unmarshal : Rd unit :=
  read! data := rd_u8 in
  if decide (data <> 1) then rd_fail ErrInvalidCipherSpec else rd_ret tt.

Inductive Content :=
| CChangeCipherSpec
| CAlert (a : Alert)
| CHandshake (h : Handshake)
| CApplicationData (data : list byte).

Definition content_type (c : Content) : ContentType :=
  match c with
  | CChangeCipherSpec => CtChangeCipherSpec
  | CAlert _ => CtAlert
  | CHandshake _ => CtHandshake
  | CApplicationData _ => CtApplicationData
  end.

Definition Content_size (c : Content) : Z :=
  match c with
  | CChangeCipherSpec => 1
  | CAlert a => Alert_size a
  | CHandshake h => Handshake_size h
  | CApplicationData data => len data
  end.

Definition Content_marshal (c : Content) : Act (list byte) :=
  match c with
  | CChangeCipherSpec => act ChangeCipherSpec_marshal
  | CAlert a => act (Alert_marshal a)
  | CHandshake h => Handshake_marshal h
  | CApplicationData data => act data
  end.

Definition RECORD_LAYER_HEADER_SIZE : Z := 13.
Definition MAX_SEQUENCE_NUMBER : Z := 0x0000FFFFFFFFFFFF.

Record RecordLayerHeader := {
  rlh_content_type : ContentType;
  protocol_version : ProtocolVersion;
  epoch : Z;
  sequence_number : Z;
  content_len : Z;
}.

Definition RecordLayerHeader_marshal (h : RecordLayerHeader) : Act (list byte) :=
  if decide (sequence_number h > MAX_SEQUENCE_NUMBER) then fail ErrSequenceNumberOverflow else
  act (write_u8 (ContentType_code (rlh_content_type h)) ++
       [major (protocol_version h)] ++ [minor (protocol_version h)] ++
       write_u16 (epoch h) ++ drop 2 (be_bytes 8 (sequence_number h)) ++ write_u16 (content_len h)).

Definition RecordLayerHeader_unmarshal : Rd RecordLayerHeader :=
  read! t := rd_u8 in
  read! major := read_byte in
  read! minor := read_byte in
  read! epoch := rd_u16 in
  read! be := read_exact 6 in
  let version := {| major := major; minor := minor |} in
  if decide (version <> PROTOCOL_VERSION1_0 /\ version <> PROTOCOL_VERSION1_2)
  then rd_fail ErrUnsupportedProtocolVersion else
  read! content_len := rd_u16 in
  rd_ret {| rlh_content_type := ContentType_from t; protocol_version := version; epoch := epoch;
            sequence_number := be_value (x00 :: x00 :: be); content_len := content_len |}.

Record RecordLayer := { record_layer_header : RecordLayerHeader; content : Content }.

Definition RecordLayer_new (v : ProtocolVersion) (e : Z) (c : Content) : RecordLayer :=
  {| record_layer_header :=
       {| rlh_content_type := content_type c; protocol_version := v; epoch := e; sequence_number := 0;
          content_len := Content_size c mod 65536 |};
     content := c |}.

Definition RecordLayer_marshal (r : RecordLayer) : Act (list byte) :=
  act! header := RecordLayerHeader_marshal (record_layer_header r) in
  act! body := Content_marshal (content r) in
  act (header ++ body).

Definition RecordLayer_unmarshal : Rd RecordLayer :=
  read! header := RecordLayerHeader_unmarshal in
  read! c :=
    match rlh_content_type header with
    | CtAlert => read! a := Alert_unmarshal in rd_ret (CAlert a)
    | CtApplicationData => read! data := read_to_end in rd_ret (CApplicationData data)
    | CtChangeCipherSpec => read! _ := ChangeCipherSpec_unmarshal in rd_ret CChangeCipherSpec
    | CtHandshake => read! h := Handshake_unmarshal in rd_ret (CHandshake h)
    | CtInvalid => rd_fail (Other "Invalid Content Type")
    end in
  rd_ret {| record_layer_header := header; content := c |}.

(** [unpack_datagram]: each turn takes thirteen bytes at least. *)
Fixpoint unpack_loop (fuel : nat) (buf : list byte) (offset : Z) (out : list (list byte)) : result (list (list byte)) Error :=
  match fuel with
  | O => Ok out
  | S fuel' =>
      if decide (len buf = offset) then Ok out
      else if decide (len buf - offset <= RECORD_LAYER_HEADER_SIZE) then Err ErrInvalidPacketLength
      else
        let hi := default x00 (buf !! Z.to_nat (offset + RECORD_LAYER_HEADER_SIZE - 2)) in
        let lo := default x00 (buf !! Z.to_nat (offset + RECORD_LAYER_HEADER_SIZE - 1)) in
        let pkt_len := RECORD_LAYER_HEADER_SIZE + u16_of hi lo in
        if decide (offset + pkt_len > len buf) then Err ErrInvalidPacketLength
        else unpack_loop fuel' buf (offset + pkt_len)
               (out ++ [take (Z.to_nat pkt_len) (drop (Z.to_nat offset) buf)])
  end.

Definition unpack_datagram (buf : list byte) : result (list (list byte)) Error := unpack_loop (S (length buf)) buf 0 [].

(** * Round trips

    [parses rd bs a]: reading [a] consumes exactly the bytes [bs].  The codecs
    are composed with [parses_bind], so each lemma below follows the order of
    the fields. *)

Definition parses {A} (rd : Rd A) (bs : list byte) (a : A) : Prop :=
  forall rest, rd (bs ++ rest) = act (a, rest).

Lemma parses_ret {A} (a : A) : parses (rd_ret a) [] a.
Proof. by intros rest. Qed.

Lemma parses_bind {A B} (m : Rd A) (k : A -> Rd B) bs1 bs2 a b :
  parses m bs1 a -> parses (k a) bs2 b -> parses (rd_bind m k) (bs1 ++ bs2) b.
Proof. intros H1 H2 rest. unfold rd_bind. rewrite <- app_assoc, H1. apply H2. Qed.

Lemma parses_map {A B} (m : Rd A) (k : A -> Rd B) bs a b :
  parses m bs a -> parses (k a) [] b -> parses (rd_bind m k) bs b.
Proof. intros H1 H2. rewrite <- (app_nil_r bs). by eapply parses_bind. Qed.

Lemma parses_exact n bs : length bs = n -> parses (read_exact n) bs bs.
Proof.
  intros <- rest. unfold read_exact. rewrite decide_True by (rewrite length_app; lia).
  by rewrite take_app_length, drop_app_length.
Qed.

Lemma parses_exact_Z bs : parses (read_exact (Z.to_nat (len bs))) bs bs.
Proof. apply parses_exact. unfold len. lia. Qed.

Lemma parses_byte b : parses read_byte [b] b.
Proof. by intros rest. Qed.

Lemma parses_uint n z : 0 <= z < 256 ^ Z.of_nat n -> parses (read_uint n) (be_bytes n z) z.
Proof.
  intros Hz. unfold read_uint. eapply parses_map; [apply parses_exact, length_be_bytes|].
  rewrite be_value_bytes by done. apply parses_ret.
Qed.

Lemma be_bytes_1 z : be_bytes 1 z = [byte_of_Z z].
Proof. done. Qed.

Lemma parses_u8 z : 0 <= z < 256 -> parses rd_u8 (write_u8 z) z.
Proof.
  intros Hz. unfold rd_u8, write_u8. rewrite be_bytes_1.
  eapply parses_map; [apply parses_byte|]. rewrite byte_to_of_Z, Z.mod_small by lia. apply parses_ret.
Qed.

Lemma parses_u16 z : 0 <= z < 65536 -> parses rd_u16 (write_u16 z) z.
Proof. apply (parses_uint 2). Qed.

Lemma parses_u24 z : 0 <= z < 16777216 -> parses rd_u24 (be_bytes 3 z) z.
Proof. apply (parses_uint 3). Qed.

Lemma parses_u32 z : 0 <= z < 4294967296 -> parses rd_u32 (write_u32 z) z.
Proof. apply (parses_uint 4). Qed.

Lemma parses_many {A} (rd : Rd A) (f : A -> list byte) l :
  (forall x, x ∈ l -> parses rd (f x) x) -> parses (read_many (length l) rd) (mjoin (f <$> l)) l.
Proof.
  induction l as [|x l IH]; intros Hl; [apply parses_ret|].
  change (mjoin (f <$> x :: l)) with (f x ++ mjoin (f <$> l)). cbn [length read_many].
  eapply parses_bind; [apply Hl; left|]. eapply parses_map; [apply IH|apply parses_ret].
  intros y Hy. apply Hl. by right.
Qed.

Lemma parses_many_Z {A} (rd : Rd A) (f : A -> list byte) l n :
  (forall x, x ∈ l -> parses rd (f x) x) -> n = len l -> parses (read_many (Z.to_nat n) rd) (mjoin (f <$> l)) l.
Proof. intros Hl ->. unfold len. rewrite Nat2Z.id. by apply parses_many. Qed.

Lemma mjoin_singletons {A} (l : list A) : mjoin ((fun x => [x]) <$> l) = l.
Proof. induction l as [|x l IH]; [done|]. change (x :: mjoin ((fun x => [x]) <$> l) = x :: l). by rewrite IH. Qed.

Lemma len_nil {A} : len (@nil A) = 0.
Proof. done. Qed.

Lemma len_cons {A} (x : A) l : len (x :: l) = 1 + len l.
Proof. unfold len. cbn [length]. lia. Qed.

Lemma len_mjoin {A} (f : A -> list byte) (n : Z) l : (forall x, len (f x) = n) -> len (mjoin (f <$> l)) = n * len l.
Proof.
  intros Hf. induction l as [|x l IH]; [by rewrite Z.mul_0_r|].
  change (mjoin (f <$> x :: l)) with (f x ++ mjoin (f <$> l)). rewrite len_app, IH, Hf, len_cons. ring.
Qed.

Lemma len_be_bytes n z : len (be_bytes n z) = Z.of_nat n.
Proof. unfold len. by rewrite length_be_bytes. Qed.

(** Every discriminant is read back as the value that wrote it. *)

Lemma ContentType_from_code t : ContentType_from (ContentType_code t) = t /\ 0 <= ContentType_code t < 256.
Proof. destruct t; done. Qed.
Lemma AlertLevel_from_code t : AlertLevel_from (AlertLevel_code t) = t /\ 0 <= AlertLevel_code t < 256.
Proof. destruct t; done. Qed.
Lemma AlertDescription_from_code t : AlertDescription_from (AlertDescription_code t) = t /\ 0 <= AlertDescription_code t < 256.
Proof. destruct t; done. Qed.
Lemma HandshakeType_from_code t : HandshakeType_from (HandshakeType_code t) = t /\ 0 <= HandshakeType_code t < 256.
Proof. destruct t; done. Qed.
Lemma CompressionMethodId_from_code t : CompressionMethodId_from (CompressionMethodId_code t) = t /\ 0 <= CompressionMethodId_code t < 256.
Proof. destruct t; done. Qed.
Lemma ClientCertificateType_from_code t : ClientCertificateType_from (ClientCertificateType_code t) = t /\ 0 <= ClientCertificateType_code t < 256.
Proof. destruct t; done. Qed.
Lemma HashAlgorithm_from_code t : HashAlgorithm_from (HashAlgorithm_code t) = t /\ 0 <= HashAlgorithm_code t < 256.
Proof. destruct t; done. Qed.
Lemma SignatureAlgorithm_from_code t : SignatureAlgorithm_from (SignatureAlgorithm_code t) = t /\ 0 <= SignatureAlgorithm_code t < 256.
Proof. destruct t; done. Qed.
Lemma EllipticCurveType_from_code t : EllipticCurveType_from (EllipticCurveType_code t) = t /\ 0 <= EllipticCurveType_code t < 256.
Proof. destruct t; done. Qed.
Lemma NamedCurve_from_code t : NamedCurve_from (NamedCurve_code t) = t /\ 0 <= NamedCurve_code t < 256.
Proof. destruct t; done. Qed.
Lemma SrtpProtectionProfile_from_code t : SrtpProtectionProfile_from (SrtpProtectionProfile_code t) = t /\ 0 <= SrtpProtectionProfile_code t < 65536.
Proof. destruct t; done. Qed.
Lemma CipherSuiteId_from_code t : CipherSuiteId_from (CipherSuiteId_code t) = t /\ 0 <= CipherSuiteId_code t < 65536.
Proof. destruct t; done. Qed.
Lemma ExtensionValue_from_code t : ExtensionValue_from (ExtensionValue_code t) = t /\ 0 <= ExtensionValue_code t < 65536.
Proof. destruct t; done. Qed.

(** Reading a byte or a pair of bytes and converting it. *)
Lemma parses_code8 {A} (from : Z -> A) (code : A -> Z) a :
  from (code a) = a /\ 0 <= code a < 256 -> parses (read! v := rd_u8 in rd_ret (from v)) (write_u8 (code a)) a.
Proof. intros [E ?]. eapply parses_map; [by apply parses_u8|]. rewrite E. apply parses_ret. Qed.

Lemma parses_code16 {A} (from : Z -> A) (code : A -> Z) a :
  from (code a) = a /\ 0 <= code a < 65536 -> parses (read! v := rd_u16 in rd_ret (from v)) (write_u16 (code a)) a.
Proof. intros [E ?]. eapply parses_map; [by apply parses_u16|]. rewrite E. apply parses_ret. Qed.

Lemma algorithm_parses a : parses algorithm_unmarshal (algorithm_marshal a) a.
Proof.
  destruct a as [h s]. unfold algorithm_unmarshal, algorithm_marshal. cbn [sha_hash sha_signature].
  eapply parses_bind; [apply parses_u8, HashAlgorithm_from_code|].
  eapply parses_map; [apply parses_u8, SignatureAlgorithm_from_code|].
  rewrite (proj1 (HashAlgorithm_from_code h)), (proj1 (SignatureAlgorithm_from_code s)). apply parses_ret.
Qed.

Lemma len_algorithm a : len (algorithm_marshal a) = 2.
Proof. destruct a. unfold algorithm_marshal, write_u8. by rewrite len_app, !len_be_bytes. Qed.

(** ** Extensions *)

Definition Extension_wf (e : Extension) : Prop :=
  Extension_size e <= 65535 /\
  match e with
  | ExtServerName e => Storage.utf8_valid (byte_to_Z <$> server_name e) = true
  | ExtSupportedPointFormats e => len (point_formats e) <= 255
  | ExtUseExtendedMasterSecret e => supported e = true
  | _ => True
  end.

Ltac sizes := unfold Extension_size, ServerName_size, EllipticCurves_size, PointFormats_size,
  SignatureAlgorithms_size, UseSrtp_size, ExtendedMasterSecret_size, RenegotiationInfo_size in *.
Ltac projs := cbn [server_name elliptic_curves point_formats esa_algorithms protection_profiles supported] in *.
Ltac lens := unfold write_u8, write_u16, write_u32; rewrite ?len_app, ?len_be_bytes, ?len_cons, ?len_nil.
Ltac nat_len := repeat match goal with |- context [len ?l] => lazymatch goal with H : 0 <= len l |- _ => fail | _ => pose proof (len_nonneg l) end end.

Lemma Extension_length e : len (Extension_marshal e) = Extension_size e.
Proof.
  destruct e as [e|e|e|e|e|e|e]; unfold Extension_marshal; sizes;
    unfold ServerName_marshal, EllipticCurves_marshal, PointFormats_marshal, SignatureAlgorithms_marshal,
      UseSrtp_marshal, ExtendedMasterSecret_marshal, RenegotiationInfo_marshal; lens.
  - lia.
  - rewrite (len_mjoin _ 2) by (intros; apply len_be_bytes). lia.
  - lia.
  - rewrite (len_mjoin _ 2) by apply len_algorithm. lia.
  - rewrite (len_mjoin _ 2) by (intros; apply len_be_bytes). lia.
  - lia.
  - lia.
Qed.

Lemma ServerName_parses e :
  Extension_wf (ExtServerName e) -> parses ServerName_unmarshal (ServerName_marshal e) e.
Proof.
  destruct e as [name]. intros [Hs Hu]. sizes. projs. pose proof (len_nonneg name).
  unfold ServerName_unmarshal, ServerName_marshal. cbn [server_name].
  eapply parses_bind; [apply parses_u16; lia|]. eapply parses_bind; [apply parses_u16; lia|].
  eapply parses_bind; [apply parses_u8; lia|]. rewrite decide_False by lia.
  eapply parses_bind; [apply parses_u16; lia|]. eapply parses_map; [apply parses_exact_Z|].
  rewrite Hu. apply parses_ret.
Qed.

(** The shape of the extensions that are a list of two-byte items. *)
Lemma items_parse {A B} (rd : Rd A) (f : A -> list byte) (mk : list A -> B) (l : list A) (n : Z) :
  (forall x, parses rd (f x) x) -> 0 <= n < 65536 -> 2 * len l < 65536 ->
  parses (read! _ := rd_u16 in read! n := rd_u16 in read! xs := read_many (Z.to_nat (n / 2)) rd in rd_ret (mk xs))
    (write_u16 n ++ write_u16 (2 * len l) ++ mjoin (f <$> l)) (mk l).
Proof.
  intros Hf Hn Hl. pose proof (len_nonneg l).
  eapply parses_bind; [by apply parses_u16|]. eapply parses_bind; [apply parses_u16; lia|].
  eapply parses_map; [|apply parses_ret]. apply parses_many_Z; [by intros|]. rewrite Z.mul_comm. apply Z.div_mul; lia.
Qed.

Lemma UseSrtp_parses e : Extension_wf (ExtUseSrtp e) -> parses UseSrtp_unmarshal (UseSrtp_marshal e) e.
Proof.
  destruct e as [l]. intros [Hs _]. sizes. projs. pose proof (len_nonneg l).
  unfold UseSrtp_unmarshal, UseSrtp_marshal. cbn [protection_profiles].
  eapply parses_bind; [apply parses_u16; lia|]. eapply parses_bind; [apply parses_u16; lia|].
  eapply parses_bind; [|eapply parses_map; [by apply parses_u8|apply parses_ret]].
  apply parses_many_Z; [|rewrite Z.mul_comm; apply Z.div_mul; lia].
  intros x _. apply parses_code16, SrtpProtectionProfile_from_code.
Qed.

Lemma PointFormats_parses e : Extension_wf (ExtSupportedPointFormats e) -> parses PointFormats_unmarshal (PointFormats_marshal e) e.
Proof.
  destruct e as [l]. intros [_ Hl]. cbn in Hl. pose proof (len_nonneg l).
  unfold PointFormats_unmarshal, PointFormats_marshal. cbn [point_formats].
  eapply parses_bind; [apply parses_u16; lia|]. eapply parses_bind; [apply parses_u8; lia|].
  rewrite <- (mjoin_singletons l) at 2. eapply parses_map; [|apply parses_ret].
  apply parses_many_Z; [|done]. intros x _. apply parses_byte.
Qed.

Lemma Extension_parses e : Extension_wf e -> parses Extension_unmarshal (Extension_marshal e) e.
Proof.
  intros Hwf. unfold Extension_unmarshal, Extension_marshal.
  eapply parses_bind; [apply parses_u16, ExtensionValue_from_code|].
  rewrite (proj1 (ExtensionValue_from_code _)).
  destruct e as [e|e|e|e|e|e|e]; cbn [extension_value]; (eapply parses_map; [|apply parses_ret]).
  - by apply ServerName_parses.
  - destruct e as [l], Hwf as [Hs _]. sizes. projs. pose proof (len_nonneg l).
    unfold EllipticCurves_marshal. projs. apply (items_parse _ _ Build_ExtensionSupportedEllipticCurves); [|lia|lia]. intros x. apply parses_code16.
    destruct (NamedCurve_from_code x). split; [done|lia].
  - by apply PointFormats_parses.
  - destruct e as [l], Hwf as [Hs _]. sizes. projs. pose proof (len_nonneg l).
    unfold SignatureAlgorithms_marshal. projs. apply (items_parse _ _ Build_ExtensionSupportedSignatureAlgorithms); [apply algorithm_parses|lia|lia].
  - by apply UseSrtp_parses.
  - destruct e as [b], Hwf as [_ Hb]. cbn in Hb. subst b. eapply parses_map; [by apply (parses_u16 0)|apply parses_ret].
  - destruct e as [b]. eapply parses_bind; [by apply parses_u16|]. rewrite decide_False by lia.
    eapply parses_map; [apply parses_byte|apply parses_ret].
Qed.

(** The length field of an extension, at its third and fourth bytes. *)
Lemma Extension_declared e : Extension_wf e ->
  exists hi lo a b body, Extension_marshal e = a :: b :: hi :: lo :: body /\ be_value [hi; lo] = Extension_size e - 4.
Proof.
  intros [Hs _]. assert (exists body n, Extension_marshal e = write_u16 (ExtensionValue_code (extension_value e)) ++ write_u16 n ++ body
    /\ n = Extension_size e - 4) as (body & n & -> & ->).
  { destruct e as [e|e|e|e|e|e|e]; unfold Extension_marshal; sizes; eexists _, _; split; try reflexivity; lia. }
  assert (4 <= Extension_size e).
  { sizes. destruct e as [e|e|e|e|e|e|e]; try (pose proof (len_nonneg (server_name e))); try (pose proof (len_nonneg (elliptic_curves e)));
      try (pose proof (len_nonneg (point_formats e))); try (pose proof (len_nonneg (esa_algorithms e)));
      try (pose proof (len_nonneg (protection_profiles e))); lia. }
  destruct (write_u16 (ExtensionValue_code (extension_value e))) as [|a [|b [|]]] eqn:E1;
    try (apply (f_equal length) in E1; unfold write_u16 in E1; rewrite length_be_bytes in E1; discriminate).
  destruct (write_u16 (Extension_size e - 4)) as [|hi [|lo [|]]] eqn:E2;
    try (apply (f_equal length) in E2; unfold write_u16 in E2; rewrite length_be_bytes in E2; discriminate).
  exists hi, lo, a, b, body. split; [done|]. rewrite <- E2. apply be_value_bytes. cbn. lia.
Qed.

Lemma extensions_marshal_cons e l : extensions_marshal (e :: l) = Extension_marshal e ++ extensions_marshal l.
Proof. done. Qed.

Lemma index_at pre b post i : len pre = i -> index (pre ++ b :: post) i = act b.
Proof.
  intros <-. unfold index, len. rewrite Nat2Z.id. rewrite lookup_app_r by lia. by rewrite Nat.sub_diag.
Qed.

Lemma index_past pre post i : 0 <= i -> index (pre ++ post) (len pre + i) = index post i.
Proof.
  intros Hi. unfold index, len. rewrite lookup_app_r by lia. replace (Z.to_nat _ - length pre)%nat with (Z.to_nat i) by lia. done.
Qed.

Lemma extension_size_pos e : 4 <= Extension_size e.
Proof.
  destruct e as [[l]|[l]|[l]|[l]|[l]|[]|[]]; sizes; projs; try pose proof (len_nonneg l); lia.
Qed.

Lemma extension_loop_parses l : forall fuel pre out, Forall Extension_wf l -> (length l <= fuel)%nat ->
  extension_loop fuel (pre ++ extensions_marshal l) (len pre) out = act (out ++ l).
Proof.
  induction l as [|e l IH]; intros fuel pre out Hwf Hf.
  - rewrite !app_nil_r. destruct fuel; cbn [extension_loop]; [done|]. by rewrite decide_False by lia.
  - destruct fuel as [|fuel]; [cbn in Hf; lia|]. apply Forall_cons in Hwf as [He Hl].
    rewrite extensions_marshal_cons. cbn [extension_loop].
    rewrite decide_True.
    2: { rewrite !len_app, Extension_length. pose proof (extension_size_pos e). pose proof (len_nonneg (extensions_marshal l)). lia. }
    unfold len at 1. rewrite Nat2Z.id, drop_app_length, (Extension_parses e He (extensions_marshal l)). cbn [run_bind act].
    destruct (Extension_declared e He) as (hi & lo & a & b & body & E & Hn).
    rewrite !index_past by lia. rewrite E. cbn [app]. change (index _ 2) with (act hi). change (index _ 3) with (act lo).
    cbn [act_bind act]. rewrite Hn.
    replace (len pre + (4 + (Extension_size e - 4))) with (len (pre ++ Extension_marshal e)) by (rewrite len_app, Extension_length; lia).
    change (a :: b :: hi :: lo :: body ++ extensions_marshal l) with ((a :: b :: hi :: lo :: body) ++ extensions_marshal l).
    rewrite <- E, app_assoc, IH by (done || (cbn in Hf; lia)). by rewrite <- app_assoc.
Qed.

Lemma extensions_length l : len (extensions_marshal l) = extensions_size l.
Proof.
  induction l as [|e l IH]; [done|]. rewrite extensions_marshal_cons, len_app, Extension_length, IH. done.
Qed.

Lemma extensions_fuel l : (length l <= length (extensions_marshal l))%nat.
Proof.
  induction l as [|e l IH]; [done|]. rewrite extensions_marshal_cons, length_app. cbn [length].
  pose proof (extension_size_pos e). rewrite <- Extension_length in *. unfold len in *. lia.
Qed.

Lemma extensions_parse l : Forall Extension_wf l -> extensions_size l <= 65535 ->
  parses extensions_unmarshal (write_u16 (len (extensions_marshal l)) ++ extensions_marshal l) l.
Proof.
  intros Hwf Hs. unfold extensions_unmarshal. eapply parses_bind.
  - apply parses_u16. rewrite extensions_length. split; [|lia]. rewrite <- extensions_length. apply len_nonneg.
  - intros rest. unfold rd_bind at 1. rewrite (parses_exact_Z (extensions_marshal l) rest). cbn [act_bind act].
    rewrite (extension_loop_parses l (length (extensions_marshal l)) []) by (done || apply extensions_fuel). done.
Qed.

(** ** Messages *)

Definition random_wf (r : HandshakeRandom) : Prop :=
  length (random_bytes r) = RANDOM_BYTES_LENGTH /\
  exists secs, gmt_unix_time r = secs * 1000000000 /\ 0 <= secs < 4294967296.

Lemma random_parses r : random_wf r -> parses HandshakeRandom_unmarshal (HandshakeRandom_marshal r) r.
Proof.
  destruct r as [t bs]. intros [Hl (secs & Ht & Hr)]. cbn in Hl, Ht. subst t.
  unfold HandshakeRandom_unmarshal, HandshakeRandom_marshal. cbn [gmt_unix_time random_bytes].
  rewrite decide_True, Z.div_mul by lia. eapply parses_bind; [by apply parses_u32|].
  eapply parses_map; [by apply parses_exact|apply parses_ret].
Qed.

Lemma random_length r : random_wf r -> len (HandshakeRandom_marshal r) = HandshakeRandom_size r.
Proof.
  intros [Hl _]. unfold HandshakeRandom_marshal, HandshakeRandom_size. lens. unfold len. rewrite Hl. done.
Qed.

Definition compression_wf (c : CompressionMethods) : Prop := len (ids c) <= 255 /\ Forall (fun id => id <> CmUnsupported) (ids c).

Lemma compression_parses c : compression_wf c -> parses CompressionMethods_unmarshal (CompressionMethods_marshal c) c.
Proof.
  destruct c as [l]. intros [Hl Hf]. cbn [ids] in *. pose proof (len_nonneg l).
  unfold CompressionMethods_unmarshal, CompressionMethods_marshal. cbn [ids].
  eapply parses_bind; [apply parses_u8; lia|]. eapply parses_map.
  - apply parses_many_Z; [|done]. intros x _. apply parses_code8, CompressionMethodId_from_code.
  - rewrite filter_id by done. apply parses_ret.
Qed.

Lemma compression_length c : len (CompressionMethods_marshal c) = CompressionMethods_size c.
Proof.
  unfold CompressionMethods_marshal, CompressionMethods_size. lens. rewrite (len_mjoin _ 1) by (intros; apply len_be_bytes). lia.
Qed.

Definition ClientHello_wf (m : HandshakeMessageClientHello) : Prop :=
  random_wf (ch_random m) /\ len (ch_cookie m) <= 255 /\ 2 * len (ch_cipher_suites m) <= 65535 /\
  compression_wf (ch_compression_methods m) /\ Forall Extension_wf (ch_extensions m) /\ extensions_size (ch_extensions m) <= 65535.

(** [encodes marshal m size rd]: the message is written as [size] bytes, and
    reading them to the end gives it back. *)
Definition encodes {A} (written : Act (list byte)) (m : A) (size : Z) (rd : Rd A) : Prop :=
  exists bs, written = act bs /\ len bs = size /\ rd bs = act (m, []).

Lemma parses_encodes {A} (rd : Rd A) bs a size : parses rd bs a -> len bs = size -> encodes (act bs) a size rd.
Proof. intros Hp Hl. exists bs. split_and!; [done..|]. specialize (Hp []). by rewrite app_nil_r in Hp. Qed.

Lemma ClientHello_encodes m : ClientHello_wf m ->
  encodes (ClientHello_marshal m) m (ClientHello_size m) ClientHello_unmarshal.
Proof.
  destruct m as [[ma mi] r ck cs cm exts]. intros (Hr & Hck & Hcs & Hcm & Hex & Hsz).
  cbn [ch_version ch_random ch_cookie ch_cipher_suites ch_compression_methods ch_extensions] in *.
  unfold ClientHello_marshal, ClientHello_size.
  cbn [ch_version ch_random ch_cookie ch_cipher_suites ch_compression_methods ch_extensions major minor].
  rewrite decide_False by lia. pose proof (len_nonneg ck). pose proof (len_nonneg cs). apply parses_encodes.
  - unfold ClientHello_unmarshal. eapply parses_bind; [apply parses_byte|]. eapply parses_bind; [apply parses_byte|].
    eapply parses_bind; [by apply random_parses|]. eapply parses_bind; [by apply (parses_u8 0)|].
    eapply parses_bind; [apply parses_u8; lia|]. eapply parses_bind; [apply parses_exact_Z|].
    eapply parses_bind; [apply parses_u16; lia|]. eapply parses_bind.
    { apply parses_many_Z; [|rewrite Z.mul_comm; apply Z.div_mul; lia]. intros x _. apply parses_code16, CipherSuiteId_from_code. }
    eapply parses_bind; [by apply compression_parses|]. eapply parses_map; [by apply extensions_parse|apply parses_ret].
  - lens. rewrite random_length, compression_length, extensions_length by done.
    rewrite (len_mjoin _ 2) by (intros; apply len_be_bytes). lia.
Qed.

Definition ServerHello_wf (m : HandshakeMessageServerHello) : Prop :=
  random_wf (sh_random m) /\ Forall Extension_wf (sh_extensions m) /\ extensions_size (sh_extensions m) <= 65535.

Lemma ServerHello_encodes m : ServerHello_wf m ->
  encodes (act (ServerHello_marshal m)) m (ServerHello_size m) ServerHello_unmarshal.
Proof.
  destruct m as [[ma mi] r c z exts]. intros (Hr & Hex & Hsz). cbn [sh_random sh_extensions] in *.
  unfold ServerHello_marshal, ServerHello_size.
  cbn [sh_version sh_random sh_cipher_suite sh_compression_method sh_extensions major minor].
  apply parses_encodes.
  - unfold ServerHello_unmarshal. eapply parses_bind; [apply parses_byte|]. eapply parses_bind; [apply parses_byte|].
    eapply parses_bind; [by apply random_parses|]. eapply parses_bind; [by apply (parses_u8 0)|].
    change (write_u16 (CipherSuiteId_code c) ++ ?x) with ([] ++ write_u16 (CipherSuiteId_code c) ++ x).
    eapply parses_bind; [by apply parses_exact|].
    eapply parses_bind; [apply parses_u16, CipherSuiteId_from_code|].
    eapply parses_bind; [apply parses_u8, CompressionMethodId_from_code|].
    eapply parses_map; [by apply extensions_parse|].
    rewrite (proj1 (CipherSuiteId_from_code c)), (proj1 (CompressionMethodId_from_code z)). apply parses_ret.
  - lens. rewrite random_length, extensions_length by done. lia.
Qed.

Lemma HelloVerifyRequest_encodes m : len (hvr_cookie m) <= 255 ->
  encodes (HelloVerifyRequest_marshal m) m (HelloVerifyRequest_size m) HelloVerifyRequest_unmarshal.
Proof.
  destruct m as [[ma mi] ck]. cbn [hvr_cookie]. intros Hck. pose proof (len_nonneg ck).
  unfold HelloVerifyRequest_marshal, HelloVerifyRequest_size. cbn [hvr_version hvr_cookie major minor].
  rewrite decide_False by lia. eexists. split_and!; [done|lens; lia|].
  unfold HelloVerifyRequest_unmarshal, write_u8. rewrite be_bytes_1. cbn [app]. unfold rd_bind. cbn [act_bind act read_byte].
  unfold rd_u8, rd_bind. cbn [act_bind act read_byte rd_ret read_to_end].
  rewrite byte_to_of_Z, Z.mod_small by lia. by rewrite decide_False by lia.
Qed.

(** ** Certificates *)

Definition Certificate_wf (m : HandshakeMessageCertificate) : Prop :=
  certificate_payload_size (certificate m) <= 16777215.

Definition certificate_bytes (l : list (list byte)) : list byte := mjoin ((fun r => be_bytes 3 (len r) ++ r) <$> l).

Lemma certificate_payload_nonneg l : 0 <= certificate_payload_size l.
Proof. induction l as [|r l IH]; [done|]. cbn [certificate_payload_size foldr]. fold (certificate_payload_size l). pose proof (len_nonneg r). lia. Qed.

Lemma certificate_payload_cons r l : certificate_payload_size (r :: l) = 3 + len r + certificate_payload_size l.
Proof. done. Qed.

Lemma certificate_bodies_eq l : certificate_payload_size l <= 16777215 -> certificate_bodies l = act (certificate_bytes l).
Proof.
  induction l as [|r l IH]; [done|]. rewrite certificate_payload_cons. intros Hl.
  pose proof (len_nonneg r). pose proof (certificate_payload_nonneg l).
  cbn [certificate_bodies]. rewrite Z.mod_small by lia. unfold write_u24. rewrite decide_True by lia.
  rewrite IH by lia. cbn [act_bind act]. by rewrite app_assoc.
Qed.

Lemma certificate_bytes_length l : len (certificate_bytes l) = certificate_payload_size l.
Proof.
  induction l as [|r l IH]; [done|].
  change (certificate_bytes (r :: l)) with ((be_bytes 3 (len r) ++ r) ++ certificate_bytes l).
  rewrite !len_app, len_be_bytes, IH. done.
Qed.

Lemma certificate_loop_parses l : forall fuel size offset out,
  (length l < fuel)%nat -> offset + certificate_payload_size l = size -> size <= 16777215 -> 0 <= offset ->
  parses (certificate_loop fuel size offset out) (certificate_bytes l) (out ++ l).
Proof.
  induction l as [|r l IH]; intros fuel size offset out Hf Ho Hs H0; (destruct fuel as [|fuel]; [lia|]); cbn [certificate_loop].
  - cbn in Ho. rewrite decide_False by lia. rewrite app_nil_r. apply parses_ret.
  - rewrite certificate_payload_cons in Ho. pose proof (len_nonneg r). pose proof (certificate_payload_nonneg l).
    change (certificate_bytes (r :: l)) with ((be_bytes 3 (len r) ++ r) ++ certificate_bytes l). rewrite <- app_assoc.
    rewrite decide_True by lia. eapply parses_bind; [apply parses_u24; lia|]. eapply parses_bind; [apply parses_exact_Z|].
    replace (out ++ r :: l) with ((out ++ [r]) ++ l) by by rewrite <- app_assoc.
    apply IH; (cbn in Hf; lia).
Qed.

Lemma certificate_fuel l : (length l <= length (certificate_bytes l))%nat.
Proof.
  induction l as [|r l IH]; [done|].
  change (certificate_bytes (r :: l)) with ((be_bytes 3 (len r) ++ r) ++ certificate_bytes l).
  rewrite !length_app, length_be_bytes. cbn [length]. lia.
Qed.

Lemma Certificate_encodes m : Certificate_wf m ->
  encodes (Certificate_marshal m) m (Certificate_size m) Certificate_unmarshal.
Proof.
  destruct m as [l]. unfold Certificate_wf. cbn [certificate]. intros Hl. pose proof (certificate_payload_nonneg l).
  unfold Certificate_marshal, Certificate_size. cbn [certificate]. rewrite Z.mod_small by lia.
  unfold write_u24. rewrite decide_True by lia. rewrite certificate_bodies_eq by lia. cbn [act_bind act].
  apply parses_encodes; [|lens; rewrite certificate_bytes_length; lia].
  unfold Certificate_unmarshal. eapply parses_bind; [apply parses_u24; lia|]. intros rest.
  assert (parses (certificate_loop (S (length (certificate_bytes l ++ rest))) (certificate_payload_size l) 0 []) (certificate_bytes l) l) as Hp.
  { apply (certificate_loop_parses l _ _ 0 []); [rewrite length_app; pose proof (certificate_fuel l); lia|lia..]. }
  unfold rd_bind. by rewrite Hp.
Qed.

(** ** Key exchanges *)

Lemma u16_of_eq hi lo : u16_of hi lo = 256 * byte_to_Z hi + byte_to_Z lo.
Proof.
  unfold u16_of. pose proof (byte_to_Z_range hi). pose proof (byte_to_Z_range lo).
  rewrite Z.shiftl_mul_pow2, Z.mul_comm by lia.
  assert (Z.land (2 ^ 8 * byte_to_Z hi) (byte_to_Z lo) = 0) as Hz.
  { apply Z.bits_inj_iff'. intros n Hn. rewrite Z.land_spec, Z.bits_0.
    destruct (decide (n < 8)).
    - rewrite Z.mul_comm, Z.mul_pow2_bits_low by lia. done.
    - rewrite (Z.bits_above_log2 (byte_to_Z lo) n), andb_false_r; [done|lia|].
      destruct (decide (byte_to_Z lo = 0)) as [->|]; [cbn; lia|].
      apply Z.log2_lt_pow2; [lia|]. apply Z.lt_le_trans with (2 ^ 8); [lia|]. apply Z.pow_le_mono_r; lia. }
  pose proof (Z.add_lor_land (2 ^ 8 * byte_to_Z hi) (byte_to_Z lo)). lia.
Qed.

Lemma take_len {A} (l k : list A) : take (Z.to_nat (len l)) (l ++ k) = l.
Proof. unfold len. rewrite Nat2Z.id. apply take_app_length. Qed.

Lemma drop_len_add {A} (l k : list A) i : 0 <= i -> drop (Z.to_nat (len l + i)) (l ++ k) = drop (Z.to_nat i) k.
Proof. intros Hi. unfold len. rewrite Z2Nat.inj_add, Nat2Z.id by lia. apply drop_app_add. Qed.

Lemma write_u16_eq z : write_u16 z = [byte_of_Z (z / 256); byte_of_Z z].
Proof. done. Qed.

Lemma write_u8_eq z : write_u8 z = [byte_of_Z z].
Proof. done. Qed.

Lemma u16_of_write z : 0 <= z < 65536 -> u16_of (byte_of_Z (z / 256)) (byte_of_Z z) = z.
Proof. intros Hz. rewrite u16_of_eq, !byte_to_of_Z. Z.to_euclidean_division_equations. lia. Qed.

(** A key exchange whose first two bytes read as the length of what follows is
    taken for the PSK form; [ske_ambiguous] singles out those of the ECDH form,
    which the parser therefore misreads ([ecdh_exchange_read_as_psk]). *)
Definition ske_ambiguous (m : HandshakeMessageServerKeyExchange) : Prop :=
  8 + len (ske_public_key m) + len (ske_signature m) = 256 * EllipticCurveType_code (elliptic_curve_type m) + 2.

Definition ServerKeyExchange_wf (m : HandshakeMessageServerKeyExchange) : Prop :=
  if decide (ske_identity_hint m <> []) then
    len (ske_identity_hint m) <= 65535 /\ elliptic_curve_type m = EctUnsupported /\ named_curve m = NcUnsupported /\
    ske_public_key m = [] /\ ske_algorithm m = {| sha_hash := HaUnsupported; sha_signature := SaUnsupported |} /\
    ske_signature m = []
  else len (ske_public_key m) <= 255 /\ len (ske_signature m) <= 65535 /\ ~ ske_ambiguous m.

Lemma ServerKeyExchange_psk hint : hint <> [] -> len hint <= 65535 ->
  ServerKeyExchange_parse (write_u16 (len hint) ++ hint) =
  act {| ske_identity_hint := hint; elliptic_curve_type := EctUnsupported; named_curve := NcUnsupported;
         ske_public_key := []; ske_algorithm := {| sha_hash := HaUnsupported; sha_signature := SaUnsupported |};
         ske_signature := [] |}.
Proof.
  intros Hne Hl. pose proof (len_nonneg hint). rewrite write_u16_eq. cbn [app]. unfold ServerKeyExchange_parse.
  change (index _ 0) with (act (byte_of_Z (len hint / 256))). change (index _ 1) with (act (byte_of_Z (len hint))).
  cbn [act_bind act]. rewrite u16_of_write by lia. by rewrite decide_True by (rewrite !len_cons; lia).
Qed.

Lemma ServerKeyExchange_ecdh t c pk a sg : len pk <= 255 -> len sg <= 65535 ->
  8 + len pk + len sg <> 256 * EllipticCurveType_code t + 2 ->
  ServerKeyExchange_parse (write_u8 (EllipticCurveType_code t) ++ write_u16 (NamedCurve_code c) ++ write_u8 (len pk) ++ pk ++
    write_u8 (HashAlgorithm_code (sha_hash a)) ++ write_u8 (SignatureAlgorithm_code (sha_signature a)) ++ write_u16 (len sg) ++ sg) =
  act {| ske_identity_hint := []; elliptic_curve_type := t; named_curve := c; ske_public_key := pk; ske_algorithm := a; ske_signature := sg |}.
Proof.
  intros Hpk Hsg Hna. pose proof (len_nonneg pk). pose proof (len_nonneg sg).
  pose proof (EllipticCurveType_from_code t) as [Et ?]. pose proof (NamedCurve_from_code c) as [Ec ?].
  destruct a as [h s]. cbn [sha_hash sha_signature].
  pose proof (HashAlgorithm_from_code h) as [Eh ?]. pose proof (SignatureAlgorithm_from_code s) as [Es ?].
  rewrite !write_u16_eq, !write_u8_eq. cbn [app].
  set (hb := byte_of_Z (HashAlgorithm_code h)). set (sb := byte_of_Z (SignatureAlgorithm_code s)).
  set (s0 := byte_of_Z (len sg / 256)). set (s1 := byte_of_Z (len sg)).
  set (head := byte_of_Z (EllipticCurveType_code t) :: byte_of_Z (NamedCurve_code c / 256) :: byte_of_Z (NamedCurve_code c) :: byte_of_Z (len pk) :: pk).
  change (_ :: _ :: _ :: _ :: pk ++ hb :: sb :: s0 :: s1 :: sg) with (head ++ hb :: sb :: s0 :: s1 :: sg).
  assert (len head = 4 + len pk) as Hh by (unfold head; rewrite !len_cons; lia).
  assert (len (head ++ hb :: sb :: s0 :: s1 :: sg) = 8 + len pk + len sg) as Hd by (rewrite len_app, !len_cons; lia).
  unfold ServerKeyExchange_parse.
  change (index _ 0) with (act (byte_of_Z (EllipticCurveType_code t))).
  change (index _ 1) with (act (byte_of_Z (NamedCurve_code c / 256))).
  change (index _ 2) with (act (byte_of_Z (NamedCurve_code c))).
  change (index _ 3) with (act (byte_of_Z (len pk))).
  cbn [act_bind act]. rewrite Hd.
  assert (byte_to_Z (byte_of_Z (len pk)) = len pk) as Hn by (rewrite byte_to_of_Z, Z.mod_small; lia). rewrite !Hn.
  rewrite decide_False.
  2: { rewrite u16_of_eq, !byte_to_of_Z. rewrite (Z.mod_small (EllipticCurveType_code t)) by lia.
       rewrite (Z.div_small (NamedCurve_code c)) by lia. rewrite Z.mod_0_l by lia. lia. }
  rewrite decide_False by (change (drop 1 (head ++ ?x)) with (drop 1 head ++ x); rewrite len_app; unfold head; cbn [drop]; rewrite !len_cons; lia).
  rewrite decide_False by lia. rewrite decide_False by lia. rewrite decide_False by lia.
  rewrite (index_at head hb) by done. cbn [act_bind act]. rewrite decide_False by lia.
  rewrite <- Hh. rewrite (index_past head _ 1) by lia. change (index _ 1) with (act sb). cbn [act_bind act].
  rewrite decide_False by lia. rewrite (index_past head _ 2), (index_past head _ 3) by lia.
  change (index _ 2) with (act s0). change (index _ 3) with (act s1). cbn [act_bind act].
  unfold s0, s1. rewrite !u16_of_write by lia. rewrite decide_False by lia.
  unfold hb, sb. rewrite !byte_to_of_Z, !Z.mod_small, Et, Eh, Es by lia.
  replace (u16_of _ _) with (NamedCurve_code c) by (symmetry; apply u16_of_write; lia). rewrite Ec.
  do 3 f_equal.
  - apply take_len.
  - rewrite drop_len_add by lia. change (drop (Z.to_nat 4) _) with sg. pose proof (take_len sg []) as Ht. by rewrite app_nil_r in Ht.
Qed.

Lemma ServerKeyExchange_encodes m : ServerKeyExchange_wf m ->
  encodes (act (ServerKeyExchange_marshal m)) m (ServerKeyExchange_size m) ServerKeyExchange_unmarshal.
Proof.
  destruct m as [hint t c pk a sg]. unfold ServerKeyExchange_wf, ServerKeyExchange_marshal, ServerKeyExchange_size, ske_ambiguous.
  cbn [ske_identity_hint elliptic_curve_type named_curve ske_public_key ske_algorithm ske_signature].
  intros Hwf. eexists. split; [done|]. unfold ServerKeyExchange_unmarshal, rd_bind. cbn [read_to_end act_bind act].
  case_decide as Hh.
  - destruct Hwf as (Hl & -> & -> & -> & -> & ->). split; [lens; lia|]. by rewrite ServerKeyExchange_psk.
  - destruct Hwf as (Hpk & Hsg & Hna). assert (hint = []) as -> by (destruct hint; [done|by destruct Hh]).
    split; [lens; lia|]. by rewrite ServerKeyExchange_ecdh.
Qed.

(** An ECDH key exchange that is as long as its first two bytes say, which with
    a named curve is one of 770 bytes, is marshalled without an error and read
    back as an identity hint, without its key and its signature. *)
Theorem ecdh_exchange_read_as_psk t c pk a sg :
  let m := {| ske_identity_hint := []; elliptic_curve_type := t; named_curve := c; ske_public_key := pk; ske_algorithm := a; ske_signature := sg |} in
  ske_ambiguous m ->
  ServerKeyExchange_unmarshal (ServerKeyExchange_marshal m) =
  act ({| ske_identity_hint := drop 2 (ServerKeyExchange_marshal m); elliptic_curve_type := EctUnsupported; named_curve := NcUnsupported;
          ske_public_key := []; ske_algorithm := {| sha_hash := HaUnsupported; sha_signature := SaUnsupported |}; ske_signature := [] |}, []).
Proof.
  unfold ske_ambiguous. cbn [ske_public_key ske_signature elliptic_curve_type]. intros Ha.
  pose proof (EllipticCurveType_from_code t) as [_ ?]. pose proof (NamedCurve_from_code c) as [_ ?].
  unfold ServerKeyExchange_unmarshal, rd_bind. cbn [read_to_end act_bind act].
  set (data := ServerKeyExchange_marshal _). unfold ServerKeyExchange_parse.
  change (index data 0) with (act (byte_of_Z (EllipticCurveType_code t))).
  change (index data 1) with (act (byte_of_Z (NamedCurve_code c / 256))). cbn [act_bind act].
  rewrite decide_True; [done|]. unfold data, ServerKeyExchange_marshal.
  cbn [ske_identity_hint elliptic_curve_type named_curve ske_public_key ske_algorithm ske_signature].
  rewrite decide_False by (intros H'; by apply H'). rewrite !write_u16_eq, !write_u8_eq, u16_of_eq, !byte_to_of_Z.
  rewrite (Z.mod_small (EllipticCurveType_code t)) by lia. rewrite (Z.div_small (NamedCurve_code c)) by lia. rewrite Z.mod_0_l by lia.
  rewrite !len_app, !len_cons, !len_nil. lia.
Qed.

Example ecdh_770_ambiguous : ske_ambiguous {| ske_identity_hint := []; elliptic_curve_type := EctNamedCurve; named_curve := P256;
  ske_public_key := replicate 65 x04; ske_algorithm := {| sha_hash := Sha256; sha_signature := Rsa |}; ske_signature := replicate 697 x00 |}.
Proof. reflexivity. Qed.

Definition ClientKeyExchange_wf (m : HandshakeMessageClientKeyExchange) : Prop :=
  (cke_identity_hint m = [] /\ cke_public_key m <> [] /\ len (cke_public_key m) <= 255) \/
  (cke_public_key m = [] /\ cke_identity_hint m <> [] /\ len (cke_identity_hint m) <= 65535).

Lemma ClientKeyExchange_encodes m : ClientKeyExchange_wf m ->
  encodes (ClientKeyExchange_marshal m) m (ClientKeyExchange_size m) ClientKeyExchange_unmarshal.
Proof.
  destruct m as [hint pk]. unfold ClientKeyExchange_wf, ClientKeyExchange_marshal, ClientKeyExchange_size. cbn [cke_identity_hint cke_public_key].
  intros [(-> & Hne & Hl)|(-> & Hne & Hl)].
  - rewrite (decide_False (P := _ \/ _)) by tauto. rewrite !(decide_True (P := pk <> [])) by done.
    eexists. split; [done|]. split; [lens; lia|].
    unfold ClientKeyExchange_unmarshal, rd_bind. cbn [read_to_end act_bind act].
    rewrite write_u8_eq. destruct pk as [|b pk]; [done|]. pose proof (len_nonneg pk). rewrite len_cons in *.
    unfold ClientKeyExchange_parse. cbn [app].
    change (index _ 0) with (act (byte_of_Z (1 + len pk))). change (index _ 1) with (act b). cbn [act_bind act].
    rewrite u16_of_eq, byte_to_of_Z, Z.mod_small by lia. pose proof (byte_to_Z_range b). rewrite !len_cons.
    rewrite decide_False by lia. by rewrite decide_False by lia.
  - rewrite (decide_False (P := _ \/ _)) by tauto. rewrite !(decide_False (P := [] <> [])) by tauto.
    eexists. split; [done|]. split; [lens; lia|]. pose proof (len_nonneg hint).
    unfold ClientKeyExchange_unmarshal, rd_bind. cbn [read_to_end act_bind act].
    rewrite write_u16_eq. unfold ClientKeyExchange_parse. cbn [app].
    change (index _ 0) with (act (byte_of_Z (len hint / 256))). change (index _ 1) with (act (byte_of_Z (len hint))). cbn [act_bind act].
    rewrite u16_of_write by lia. by rewrite decide_True by (rewrite !len_cons; lia).
Qed.

(** ** The remaining messages *)

Definition CertificateRequest_wf (m : HandshakeMessageCertificateRequest) : Prop :=
  len (certificate_types m) <= 255 /\ 2 * len (cr_algorithms m) <= 65535.

(** The two bytes of the list of distinguished names are written, not read. *)
Lemma CertificateRequest_reads m rest : CertificateRequest_wf m ->
  CertificateRequest_unmarshal (CertificateRequest_marshal m ++ rest) = act (m, [x00; x00] ++ rest).
Proof.
  destruct m as [ts l]. intros [Ht Hl]. cbn [certificate_types cr_algorithms] in *. pose proof (len_nonneg ts). pose proof (len_nonneg l).
  assert (parses CertificateRequest_unmarshal (write_u8 (len ts) ++ mjoin ((fun v => write_u8 (ClientCertificateType_code v)) <$> ts) ++
    write_u16 (2 * len l) ++ mjoin (algorithm_marshal <$> l)) {| certificate_types := ts; cr_algorithms := l |}) as Hp.
  { unfold CertificateRequest_unmarshal. eapply parses_bind; [apply parses_u8; lia|]. eapply parses_bind.
    { apply parses_many_Z; [|done]. intros x _. apply parses_code8, ClientCertificateType_from_code. }
    eapply parses_bind; [apply parses_u16; lia|]. eapply parses_map; [|apply parses_ret].
    apply parses_many_Z; [intros; apply algorithm_parses|]. unfold div_ceil. Z.to_euclidean_division_equations. lia. }
  unfold CertificateRequest_marshal. cbn [certificate_types cr_algorithms]. rewrite <- Hp. by rewrite <- !app_assoc.
Qed.

Lemma CertificateRequest_length m : len (CertificateRequest_marshal m) = CertificateRequest_size m.
Proof.
  unfold CertificateRequest_marshal, CertificateRequest_size. lens.
  rewrite (len_mjoin _ 1) by (intros; apply len_be_bytes). rewrite (len_mjoin _ 2) by apply len_algorithm. lia.
Qed.

Lemma CertificateVerify_encodes m : len (cv_signature m) <= 65535 ->
  encodes (act (CertificateVerify_marshal m)) m (CertificateVerify_size m) CertificateVerify_unmarshal.
Proof.
  destruct m as [a sg]. cbn [cv_signature]. intros Hl. pose proof (len_nonneg sg). apply parses_encodes.
  - unfold CertificateVerify_marshal, CertificateVerify_unmarshal. cbn [cv_algorithm cv_signature].
    rewrite app_assoc. eapply parses_bind; [apply algorithm_parses|]. eapply parses_bind; [apply parses_u16; lia|].
    eapply parses_map; [apply parses_exact_Z|apply parses_ret].
  - unfold CertificateVerify_marshal, CertificateVerify_size. cbn [cv_algorithm cv_signature]. lens. lia.
Qed.

Definition message_wf (m : HandshakeMessage) : Prop :=
  match m with
  | MClientHello m => ClientHello_wf m
  | MServerHello m => ServerHello_wf m
  | MHelloVerifyRequest m => len (hvr_cookie m) <= 255
  | MCertificate m => Certificate_wf m
  | MServerKeyExchange m => ServerKeyExchange_wf m
  | MCertificateRequest m => CertificateRequest_wf m
  | MServerHelloDone => True
  | MCertificateVerify m => len (cv_signature m) <= 65535
  | MClientKeyExchange m => ClientKeyExchange_wf m
  | MFinished _ => True
  end.

(** What a message leaves unread: nothing but the names of a certificate request. *)
Definition message_rest (m : HandshakeMessage) : list byte :=
  match m with MCertificateRequest _ => [x00; x00] | _ => [] end.

Lemma encodes_message {A} written (a : A) size rd (mk : A -> HandshakeMessage) :
  encodes written a size rd ->
  exists bs, written = act bs /\ len bs = size /\ (read! m := rd in rd_ret (mk m)) bs = act (mk a, []).
Proof. intros (bs & ? & ? & Hr). exists bs. split_and!; [done..|]. unfold rd_bind. by rewrite Hr. Qed.

Lemma message_encodes m : message_wf m ->
  exists bs, HandshakeMessage_marshal m = act bs /\ len bs = HandshakeMessage_size m /\
    message_unmarshal (message_type m) bs = act (m, message_rest m).
Proof.
  destruct m as [m|m|m|m|m|m| |m|m|m]; cbn [message_wf HandshakeMessage_marshal HandshakeMessage_size message_type message_rest message_unmarshal]; intros Hwf.
  - by apply (encodes_message _ _ _ _ MClientHello), ClientHello_encodes.
  - by apply (encodes_message _ _ _ _ MServerHello), ServerHello_encodes.
  - by apply (encodes_message _ _ _ _ MHelloVerifyRequest), HelloVerifyRequest_encodes.
  - by apply (encodes_message _ _ _ _ MCertificate), Certificate_encodes.
  - by apply (encodes_message _ _ _ _ MServerKeyExchange), ServerKeyExchange_encodes.
  - eexists. split; [done|]. split; [apply CertificateRequest_length|]. unfold rd_bind.
    pose proof (CertificateRequest_reads m [] Hwf) as H. rewrite app_nil_r in H. by rewrite H.
  - by exists [].
  - by apply (encodes_message _ _ _ _ MCertificateVerify), CertificateVerify_encodes.
  - by apply (encodes_message _ _ _ _ MClientKeyExchange), ClientKeyExchange_encodes.
  - exists (verify_data m). destruct m. done.
Qed.

(** ** Headers *)

Definition header_wf (h : HandshakeHeader) : Prop :=
  0 <= hh_length h <= 16777215 /\ 0 <= message_sequence h <= 65535 /\ 0 <= fragment_offset h <= 16777215 /\
  0 <= fragment_length h <= 16777215.

Definition header_bytes (h : HandshakeHeader) : list byte :=
  write_u8 (HandshakeType_code (handshake_type h)) ++ be_bytes 3 (hh_length h) ++ write_u16 (message_sequence h) ++
  be_bytes 3 (fragment_offset h) ++ be_bytes 3 (fragment_length h).

Lemma header_marshal h : header_wf h -> HandshakeHeader_marshal h = act (header_bytes h).
Proof.
  intros (? & ? & ? & ?). unfold HandshakeHeader_marshal, write_u24. by rewrite !decide_True by lia.
Qed.

Lemma header_length h : len (header_bytes h) = HANDSHAKE_HEADER_LENGTH.
Proof. unfold header_bytes. lens. done. Qed.

Lemma header_parses h : header_wf h -> parses HandshakeHeader_unmarshal (header_bytes h) h.
Proof.
  destruct h as [t l s o n]. intros (? & ? & ? & ?). cbn [hh_length message_sequence fragment_offset fragment_length] in *.
  unfold HandshakeHeader_unmarshal, header_bytes. cbn [handshake_type hh_length message_sequence fragment_offset fragment_length].
  eapply parses_bind; [apply parses_u8, HandshakeType_from_code|]. eapply parses_bind; [apply parses_u24; lia|].
  eapply parses_bind; [apply parses_u16; lia|]. eapply parses_bind; [apply parses_u24; lia|].
  eapply parses_map; [apply parses_u24; lia|]. rewrite (proj1 (HandshakeType_from_code t)). apply parses_ret.
Qed.

Definition record_header_wf (h : RecordLayerHeader) : Prop :=
  (protocol_version h = PROTOCOL_VERSION1_0 \/ protocol_version h = PROTOCOL_VERSION1_2) /\
  0 <= epoch h <= 65535 /\ 0 <= sequence_number h <= MAX_SEQUENCE_NUMBER /\ 0 <= content_len h <= 65535.

Definition record_header_bytes (h : RecordLayerHeader) : list byte :=
  write_u8 (ContentType_code (rlh_content_type h)) ++ [major (protocol_version h)] ++ [minor (protocol_version h)] ++
  write_u16 (epoch h) ++ drop 2 (be_bytes 8 (sequence_number h)) ++ write_u16 (content_len h).

Lemma record_header_marshal h : sequence_number h <= MAX_SEQUENCE_NUMBER ->
  RecordLayerHeader_marshal h = act (record_header_bytes h).
Proof. intros ?. unfold RecordLayerHeader_marshal. by rewrite decide_False by lia. Qed.

Lemma record_header_length h : len (record_header_bytes h) = RECORD_LAYER_HEADER_SIZE.
Proof. unfold record_header_bytes. lens. done. Qed.

Lemma uint48_bytes z : 0 <= z <= MAX_SEQUENCE_NUMBER -> be_value (x00 :: x00 :: drop 2 (be_bytes 8 z)) = z.
Proof.
  intros Hz. unfold MAX_SEQUENCE_NUMBER in Hz.
  assert (be_bytes 8 z = x00 :: x00 :: drop 2 (be_bytes 8 z)) as <-; [|apply be_value_bytes; cbn; lia].
  change (be_bytes 8 z) with (byte_of_Z (z / 256 / 256 / 256 / 256 / 256 / 256 / 256) :: byte_of_Z (z / 256 / 256 / 256 / 256 / 256 / 256) :: drop 2 (be_bytes 8 z)) at 1.
  rewrite !Z.div_div by lia. cbn [Z.mul Pos.mul Pos.add Pos.succ]. by rewrite !Z.div_small by lia.
Qed.

Lemma record_header_parses h : record_header_wf h -> parses RecordLayerHeader_unmarshal (record_header_bytes h) h.
Proof.
  destruct h as [t [ma mi] e s n]. intros (Hv & He & Hs & Hn). cbn [protocol_version epoch sequence_number content_len] in *.
  unfold RecordLayerHeader_unmarshal, record_header_bytes. cbn [rlh_content_type protocol_version epoch sequence_number content_len major minor].
  eapply parses_bind; [apply parses_u8, ContentType_from_code|]. eapply parses_bind; [apply parses_byte|].
  eapply parses_bind; [apply parses_byte|]. eapply parses_bind; [apply parses_u16; lia|].
  eapply parses_bind; [by apply parses_exact|]. cbv zeta. rewrite decide_False by tauto.
  eapply parses_map; [apply parses_u16; lia|]. rewrite uint48_bytes, (proj1 (ContentType_from_code t)) by done. apply parses_ret.
Qed.

(** ** Handshakes and records *)

Definition Handshake_wf (h : Handshake) : Prop :=
  header_wf (handshake_header h) /\ handshake_type (handshake_header h) = message_type (handshake_message h) /\
  message_wf (handshake_message h).

Lemma Handshake_encodes h : Handshake_wf h ->
  exists body, HandshakeMessage_marshal (handshake_message h) = act body /\
    Handshake_marshal h = act (header_bytes (handshake_header h) ++ body) /\
    len (header_bytes (handshake_header h) ++ body) = Handshake_size h /\
    Handshake_unmarshal (header_bytes (handshake_header h) ++ body) = act (h, message_rest (handshake_message h)).
Proof.
  destruct h as [hd m]. intros (Hh & Ht & Hm). cbn [handshake_header handshake_message] in *.
  destruct (message_encodes m Hm) as (body & Eb & Hl & Hr). exists body. split; [done|]. split_and!.
  - unfold Handshake_marshal. cbn [handshake_header handshake_message]. by rewrite header_marshal, Eb by done.
  - rewrite len_app, header_length, Hl. done.
  - unfold Handshake_unmarshal, rd_bind. rewrite header_parses by done. cbn [act_bind act]. rewrite Ht, Hr. done.
Qed.

Definition Content_wf (c : Content) : Prop :=
  match c with CHandshake h => Handshake_wf h | _ => True end.

Definition content_rest (c : Content) : list byte :=
  match c with CHandshake h => message_rest (handshake_message h) | _ => [] end.

Definition Record_wf (r : RecordLayer) : Prop :=
  record_header_wf (record_layer_header r) /\ rlh_content_type (record_layer_header r) = content_type (content r) /\
  Content_wf (content r).

(** C8: A well-formed record is marshalled to thirteen bytes of header and as
    many bytes of content as [Content::size] says, and unmarshalling them gives
    the record back: for alerts, cipher spec changes, application data and each
    of the ten handshake messages with its extensions.  The only bytes left
    unread are the two of the empty list of names of a certificate request.
    Well-formed excludes the ECDH key exchanges that the parser takes for an
    identity hint ([ecdh_exchange_read_as_psk]). *)
Theorem record_roundtrip r : Record_wf r ->
  exists bs, RecordLayer_marshal r = act bs /\ len bs = RECORD_LAYER_HEADER_SIZE + Content_size (content r) /\
    RecordLayer_unmarshal bs = act (r, content_rest (content r)).
Proof.
  destruct r as [hd c]. intros (Hh & Ht & Hc). cbn [record_layer_header content] in *.
  pose proof Hh as (_ & _ & [_ Hs] & _).
  assert (exists body, Content_marshal c = act body /\ len body = Content_size c /\
    forall k, match content_type c with
    | CtAlert => read! a := Alert_unmarshal in rd_ret (CAlert a)
    | CtApplicationData => read! data := read_to_end in rd_ret (CApplicationData data)
    | CtChangeCipherSpec => read! _ := ChangeCipherSpec_unmarshal in rd_ret CChangeCipherSpec
    | CtHandshake => read! h := Handshake_unmarshal in rd_ret (CHandshake h)
    | CtInvalid => rd_fail (Other k)
    end body = act (c, content_rest c)) as (body & Em & Hl & Hu).
  { destruct c as [|[l d]|h|data]; cbn [Content_marshal Content_size content_type content_rest].
    - by exists [x01].
    - exists (Alert_marshal {| alert_level := l; alert_description := d |}). split_and!; [done..|]. intros _.
      destruct l, d; reflexivity.
    - destruct (Handshake_encodes h Hc) as (body & _ & Em & Hl & Hu). eexists. split_and!; [done..|].
      intros _. unfold rd_bind. by rewrite Hu.
    - by exists data. }
  exists (record_header_bytes hd ++ body). split_and!.
  - unfold RecordLayer_marshal. cbn [record_layer_header content]. rewrite record_header_marshal, Em by done. done.
  - by rewrite len_app, record_header_length, Hl.
  - unfold RecordLayer_unmarshal, rd_bind at 1. rewrite record_header_parses by done. cbn [act_bind act]. rewrite Ht.
    unfold rd_bind at 1. by rewrite Hu.
Qed.

(** * Panics *)

Definition total {A} (rd : Rd A) : Prop := forall bs, rd bs <> Panic.

Lemma total_ret {A} (a : A) : total (rd_ret a).
Proof. done. Qed.
Lemma total_fail {A} e : total (@rd_fail A e).
Proof. done. Qed.
Lemma total_bind {A B} (m : Rd A) (k : A -> Rd B) : total m -> (forall a, total (k a)) -> total (rd_bind m k).
Proof. intros Hm Hk bs. unfold rd_bind. specialize (Hm bs). destruct (m bs) as [[[a r]|]|]; cbn; [apply Hk|done..]. Qed.
Lemma total_exact n : total (read_exact n).
Proof. intros bs. unfold read_exact. by case_decide. Qed.
Lemma total_byte : total read_byte.
Proof. by intros [|]. Qed.
Lemma total_end : total read_to_end.
Proof. done. Qed.
Lemma total_many {A} n (rd : Rd A) : total rd -> total (read_many n rd).
Proof. intros H. induction n; cbn [read_many]; [apply total_ret|]. repeat (apply total_bind; [done|intros]). apply total_ret. Qed.

Create HintDb dtls_total.
#[export] Hint Resolve total_ret total_fail total_exact total_byte total_end total_many : dtls_total.

Ltac total_tac :=
  repeat first
    [ progress unfold rd_u8, rd_u16, rd_u24, rd_u32, read_uint
    | apply total_bind; [|intros ?]
    | apply total_many
    | case_decide
    | solve [auto with dtls_total]
    | match goal with |- total (if ?b then _ else _) => destruct b end ].

Lemma Extension_total : total Extension_unmarshal.
Proof.
  unfold Extension_unmarshal. apply total_bind; [total_tac|]. intros v. destruct (ExtensionValue_from v);
    unfold ServerName_unmarshal, EllipticCurves_unmarshal, PointFormats_unmarshal, SignatureAlgorithms_unmarshal, UseSrtp_unmarshal,
      ExtendedMasterSecret_unmarshal, RenegotiationInfo_unmarshal, algorithm_unmarshal; total_tac.
Qed.

Lemma certificate_loop_total fuel : forall size offset out, total (certificate_loop fuel size offset out).
Proof. induction fuel as [|fuel IH]; intros; cbn [certificate_loop]; [apply total_fail|]. total_tac. Qed.

Lemma index_ok data i : 0 <= i < len data -> exists b, index data i = act b.
Proof.
  intros Hi. unfold index. destruct (lookup_lt_is_Some_2 data (Z.to_nat i)) as [b ->]; [unfold len in Hi; lia|]. eauto.
Qed.

Lemma index_short data i : 0 <= i -> len data <= i -> index data i = Panic.
Proof. intros Hi Hl. unfold index. by rewrite lookup_ge_None_2 by (unfold len in Hl; lia). Qed.

(** One indexed byte that is in range. *)
Ltac index_step i :=
  match goal with |- context [index ?d i] =>
    let b := fresh "b" in let E := fresh "E" in
    destruct (index_ok d i) as [b E]; [lia|rewrite E; clear E; cbn [act_bind act]] end.

Lemma ServerKeyExchange_no_panic data : 2 <= len data -> ServerKeyExchange_parse data <> Panic.
Proof.
  intros Hl. unfold ServerKeyExchange_parse. index_step 0. index_step 1. case_decide; [done|]. case_decide as Hd; [done|].
  assert (3 <= len data).
  { destruct data as [|x [|y [|z l]]]; cbn in Hd; unfold len in *; cbn in *; lia. }
  index_step 2. case_decide; [done|]. index_step 3. pose proof (byte_to_Z_range b2).
  case_decide; [done|]. case_decide; [done|]. index_step (4 + byte_to_Z b2). case_decide; [done|].
  index_step (4 + byte_to_Z b2 + 1). case_decide; [done|]. index_step (4 + byte_to_Z b2 + 2). index_step (4 + byte_to_Z b2 + 3).
  by case_decide.
Qed.

Lemma ClientKeyExchange_no_panic data : 2 <= len data -> ClientKeyExchange_parse data <> Panic.
Proof. intros Hl. unfold ClientKeyExchange_parse. index_step 0. index_step 1. case_decide; [done|]. by case_decide. Qed.

Lemma key_exchange_short data : len data < 2 -> ServerKeyExchange_parse data = Panic /\ ClientKeyExchange_parse data = Panic.
Proof.
  intros Hl. unfold ServerKeyExchange_parse, ClientKeyExchange_parse.
  destruct data as [|b [|c data]]; [done|done|]. rewrite !len_cons in Hl. pose proof (len_nonneg data). lia.
Qed.

Definition is_key_exchange (t : HandshakeType) : bool :=
  match t with ServerKeyExchange | ClientKeyExchange => true | _ => false end.
Definition is_hello (t : HandshakeType) : bool :=
  match t with ClientHello | ServerHello => true | _ => false end.

(** Which messages a peer can make the parser panic with.  A key exchange
    of either side panics exactly when its body has fewer than two bytes; apart
    from the hello messages no other type panics on any input. *)
Theorem message_panics t bs : is_hello t = false ->
  (message_unmarshal t bs = Panic <-> is_key_exchange t = true /\ len bs < 2).
Proof.
  intros Ht. destruct (is_key_exchange t) eqn:Ek.
  - assert (message_unmarshal t bs = Panic <-> len bs < 2) as H; [|rewrite H; split; [by split|by intros []]].
    destruct t; try discriminate; cbn [message_unmarshal];
      unfold ServerKeyExchange_unmarshal, ClientKeyExchange_unmarshal, rd_bind; cbn [read_to_end act_bind act].
    + split; [|by intros [-> _]%key_exchange_short].
      intros Hp. destruct (decide (len bs < 2)); [done|]. exfalso. apply (ServerKeyExchange_no_panic bs); [lia|].
      by destruct (ServerKeyExchange_parse bs) as [[|]|].
    + split; [|by intros [_ ->]%key_exchange_short].
      intros Hp. destruct (decide (len bs < 2)); [done|]. exfalso. apply (ClientKeyExchange_no_panic bs); [lia|].
      by destruct (ClientKeyExchange_parse bs) as [[|]|].
  - split; [|by intros []]. intros Hp. exfalso. revert Hp. enough (total (message_unmarshal t)) as H by apply H.
    destruct t; try discriminate; cbn [message_unmarshal];
      unfold HelloVerifyRequest_unmarshal, Certificate_unmarshal, CertificateRequest_unmarshal, CertificateVerify_unmarshal, algorithm_unmarshal; total_tac.
    intros bs'. apply (certificate_loop_total _ _ _ _ bs').
Qed.

(** A hello whose extension block ends in one to three stray bytes panics
    the parser, whatever the well-formed extensions before them. *)
Theorem trailing_bytes_panic l tail : Forall Extension_wf l -> 1 <= len tail < 4 ->
  len (extensions_marshal l ++ tail) <= 65535 ->
  extensions_unmarshal (write_u16 (len (extensions_marshal l ++ tail)) ++ extensions_marshal l ++ tail) = Panic.
Proof.
  intros Hwf Ht Hs. unfold extensions_unmarshal, rd_bind at 1.
  rewrite (parses_u16 (len (extensions_marshal l ++ tail)) ltac:(pose proof (len_nonneg (extensions_marshal l ++ tail)); lia)). cbn [act_bind act].
  unfold rd_bind. pose proof (parses_exact_Z (extensions_marshal l ++ tail) []) as He. rewrite app_nil_r in He. rewrite He. cbn [act_bind act].
  enough (forall fuel pre out, (length l < fuel)%nat -> extension_loop fuel (pre ++ extensions_marshal l ++ tail) (len pre) out = Panic) as H.
  { rewrite (H (length (extensions_marshal l ++ tail)) []); [done|]. rewrite length_app. pose proof (extensions_fuel l). unfold len in Ht. lia. }
  clear He Hs. induction l as [|e l IH]; intros fuel pre out Hf; (destruct fuel as [|fuel]; [lia|]); cbn [extension_loop].
  - cbn [extensions_marshal app fmap list_fmap mjoin list_join]. rewrite decide_True by (rewrite len_app; lia).
    unfold len at 1. rewrite Nat2Z.id, drop_app_length.
    destruct (Extension_unmarshal tail) as [r|] eqn:E; [|by destruct (Extension_total tail)]. cbn [run_bind].
    rewrite !index_past by lia. rewrite (index_short tail 3) by lia. unfold index. by destruct (tail !! Z.to_nat 2).
  - apply Forall_cons in Hwf as [Hwe Hwl]. rewrite extensions_marshal_cons, <- app_assoc. rewrite decide_True.
    2: { rewrite !len_app, Extension_length. pose proof (extension_size_pos e). pose proof (len_nonneg (extensions_marshal l)). lia. }
    unfold len at 1. rewrite Nat2Z.id, drop_app_length, (Extension_parses e Hwe). cbn [run_bind act].
    destruct (Extension_declared e Hwe) as (hi & lo & a & b & body & E & Hn).
    rewrite !index_past by lia. rewrite E. cbn [app]. change (index _ 2) with (act hi). change (index _ 3) with (act lo).
    cbn [act_bind act]. rewrite Hn.
    replace (len pre + (4 + (Extension_size e - 4))) with (len (pre ++ Extension_marshal e)) by (rewrite len_app, Extension_length; lia).
    change (a :: b :: hi :: lo :: body ++ ?x) with ((a :: b :: hi :: lo :: body) ++ x).
    rewrite <- E, (app_assoc pre). apply IH; [done|cbn in Hf; lia].
Qed.

(** * Datagrams *)

(** A record as [unpack_datagram] cuts it: it has the length the last two
    bytes of its header declare.  Only the last record of a datagram must have
    a body, since the test is on the bytes that remain. *)
Definition framed (p : list byte) : Prop :=
  exists hi lo, p !! 11%nat = Some hi /\ p !! 12%nat = Some lo /\ len p = RECORD_LAYER_HEADER_SIZE + u16_of hi lo.

Definition ends_full (pkts : list (list byte)) : Prop :=
  match last pkts with Some p => RECORD_LAYER_HEADER_SIZE < len p | None => True end.

Lemma framed_length p : framed p -> RECORD_LAYER_HEADER_SIZE <= len p.
Proof.
  intros (hi & lo & _ & _ & ->). rewrite u16_of_eq. pose proof (byte_to_Z_range hi). pose proof (byte_to_Z_range lo). lia.
Qed.

Lemma remaining_length p pkts : Forall framed (p :: pkts) -> ends_full (p :: pkts) ->
  RECORD_LAYER_HEADER_SIZE < len (mjoin (p :: pkts)).
Proof.
  intros [Hp Hw]%Forall_cons He. change (mjoin (p :: pkts)) with (p ++ mjoin pkts). rewrite len_app. apply framed_length in Hp.
  destruct pkts as [|q pkts]; [cbn in He |- *; change (len []) with 0; lia|].
  apply Forall_cons in Hw as [Hq _]. apply framed_length in Hq. change (mjoin (q :: pkts)) with (q ++ mjoin pkts). rewrite len_app.
  pose proof (len_nonneg (mjoin pkts)). unfold RECORD_LAYER_HEADER_SIZE in *. lia.
Qed.

Lemma ends_full_tail p pkts : pkts <> [] -> ends_full (p :: pkts) <-> ends_full pkts.
Proof. intros Hne. unfold ends_full. destruct pkts as [|q pkts]; [done|]. by rewrite last_cons_cons. Qed.

(** A byte of the record that starts at [len pre]. *)
Lemma lookup_past (pre suf : list byte) (i : nat) z : z = len pre + Z.of_nat i -> (pre ++ suf) !! Z.to_nat z = suf !! i.
Proof. intros ->. rewrite lookup_app_r by (unfold len; lia). f_equal. unfold len. lia. Qed.

Lemma unpack_loop_complete pkts : forall fuel pre out, Forall framed pkts -> ends_full pkts -> (length pkts < fuel)%nat ->
  unpack_loop fuel (pre ++ mjoin pkts) (len pre) out = Ok (out ++ pkts).
Proof.
  induction pkts as [|p pkts IH]; intros fuel pre out Hw He Hf; (destruct fuel as [|fuel]; [lia|]); cbn [unpack_loop].
  - change (mjoin []) with (@nil byte). rewrite !app_nil_r. by rewrite decide_True.
  - pose proof (remaining_length _ _ Hw He) as Hrem. apply Forall_cons in Hw as [Hp Hw]. pose proof (framed_length _ Hp) as Hlp.
    destruct Hp as (hi & lo & E1 & E2 & Hn). change (mjoin (p :: pkts)) with (p ++ mjoin pkts) in *.
    unfold RECORD_LAYER_HEADER_SIZE in *. pose proof (len_nonneg (mjoin pkts)). rewrite (len_app pre).
    rewrite decide_False by lia. rewrite decide_False by lia.
    rewrite (lookup_past _ _ 11), (lookup_past _ _ 12) by lia.
    rewrite (lookup_app_l_Some _ _ _ _ E1), (lookup_app_l_Some _ _ _ _ E2). change (default x00 (Some hi)) with hi. change (default x00 (Some lo)) with lo. rewrite <- Hn.
    rewrite decide_False by (rewrite len_app; lia).
    replace (take _ (drop _ _)) with p by (unfold len at 2; rewrite Nat2Z.id, drop_app_length, take_len; done).
    replace (len pre + len p) with (len (pre ++ p)) by apply len_app.
    destruct pkts as [|q pkts].
    + destruct fuel; [cbn in Hf; lia|]. change (mjoin []) with (@nil byte). rewrite !app_nil_r. cbn [unpack_loop]. by rewrite decide_True.
    + rewrite app_assoc, IH; [by rewrite <- app_assoc|done|by apply ends_full_tail in He|cbn in *; lia].
Qed.

Lemma unpack_loop_sound fuel : forall pre suf out pkts, (length suf < fuel)%nat ->
  unpack_loop fuel (pre ++ suf) (len pre) out = Ok pkts ->
  exists new, pkts = out ++ new /\ mjoin new = suf /\ Forall framed new /\ ends_full new.
Proof.
  induction fuel as [|fuel IH]; intros pre suf out pkts Hf Hu; [lia|]. cbn [unpack_loop] in Hu. rewrite len_app in Hu.
  case_decide as H1.
  { injection Hu as <-. exists []. rewrite app_nil_r.
    assert (suf = []) as -> by (destruct suf; [done|rewrite len_cons in H1; pose proof (len_nonneg suf); lia]). by split_and!. }
  case_decide as H2; [discriminate|]. unfold RECORD_LAYER_HEADER_SIZE in *.
  destruct (lookup_lt_is_Some_2 suf 11) as [hi Ehi]; [unfold len in *; lia|].
  destruct (lookup_lt_is_Some_2 suf 12) as [lo Elo]; [unfold len in *; lia|].
  rewrite (lookup_past _ _ 11), (lookup_past _ _ 12), Ehi, Elo in Hu by lia. change (default x00 (Some hi)) with hi in Hu. change (default x00 (Some lo)) with lo in Hu. case_decide as H3; [discriminate|].
  assert (0 <= u16_of hi lo) by (rewrite u16_of_eq; pose proof (byte_to_Z_range hi); pose proof (byte_to_Z_range lo); lia).
  set (n := 13 + u16_of hi lo) in *. set (p := take (Z.to_nat n) suf).
  assert (len p = n) as Hp by (unfold p, len in *; rewrite length_take; lia).
  replace (take _ (drop _ (pre ++ suf))) with p in Hu by (unfold len; rewrite Nat2Z.id, drop_app_length; done).
  rewrite <- (take_drop (Z.to_nat n) suf) in Hu. fold p in Hu. rewrite app_assoc in Hu.
  replace (len pre + n) with (len (pre ++ p)) in Hu by (rewrite len_app; lia).
  apply IH in Hu as (new & -> & Hm & Hw & He); [|rewrite length_drop; unfold len in *; lia].
  assert (mjoin (p :: new) = suf) as Hj.
  { change (mjoin (p :: new)) with (p ++ mjoin new). rewrite Hm. apply take_drop. }
  exists (p :: new). split_and!; [by rewrite <- app_assoc|done| |].
  - constructor; [|done]. exists hi, lo. split_and!; [unfold p; rewrite lookup_take_lt; [done|lia]..|done].
  - destruct new as [|q new]; [|by apply ends_full_tail]. cbn. change (mjoin [p]) with (p ++ []) in Hj. rewrite app_nil_r in Hj.
    rewrite Hj. unfold RECORD_LAYER_HEADER_SIZE. lia.
Qed.

Lemma framed_fuel pkts : Forall framed pkts -> (length pkts <= length (mjoin pkts))%nat.
Proof.
  induction 1 as [|p pkts Hp _ IH]; [done|]. change (mjoin (p :: pkts)) with (p ++ mjoin pkts). rewrite length_app. cbn [length].
  apply framed_length in Hp. unfold RECORD_LAYER_HEADER_SIZE, len in Hp. lia.
Qed.

(** C34: [unpack_datagram] is exactly the inverse of concatenation: it succeeds
    with [pkts] if and only if the datagram is the concatenation of [pkts], each
    has the length its header declares and the last is more than a header. *)
Theorem unpack_datagram_spec buf pkts :
  unpack_datagram buf = Ok pkts <-> mjoin pkts = buf /\ Forall framed pkts /\ ends_full pkts.
Proof.
  unfold unpack_datagram. split.
  - intros Hu. apply (unpack_loop_sound _ [] buf []) in Hu as (new & -> & ?); [done|lia].
  - intros (<- & Hw & He). apply (unpack_loop_complete pkts _ [] []); [done..|]. pose proof (framed_fuel _ Hw). lia.
Qed.
End Dtls.
