(* ===== verification/DtlsConn.v ===== *)
(** The record path of a DTLS connection (external/dtls/src/conn/mod.rs), with
    the buffer that reassembles handshake fragments (fragment_buffer/mod.rs) and
    the cache of handshake messages (handshake/handshake_cache.rs).

    Outgoing: [fragment_handshake] cuts a message, [process_packet] and
    [process_handshake_packet] number and encrypt records,
    [compact_raw_packets] packs them into datagrams.  Incoming:
    [handle_incoming_packet] checks epoch and replay, decrypts, reassembles and
    dispatches one record, [handle_packets] is the loop of [read_and_buffer] and
    [handle_queued_packets].

    A cipher suite is the record of the methods of the trait object; the replay
    detector (crate [util]) is the class [ReplayDetector] with its documented
    law; values sent to a channel are listed in the state. *)

From S2P Require Import Prelude Text Bytes DtlsWire.
From S2P Require Import Dht.

#[local] Open Scope Z_scope.

Module DtlsConn.
Import Dtls.

(** * Negotiated cipher suites *)

Record CipherSuite := {
  cs_is_psk : bool;
  cs_is_initialized : bool;
  cs_encrypt : RecordLayerHeader -> list byte -> result (list byte) Error;
  cs_decrypt : list byte -> result (list byte) Error;
}.

(** * Fragment buffer *)

Definition FRAGMENT_BUFFER_MAX_SIZE : Z := 2000000.

Record Fragment := { fr_record_header : RecordLayerHeader; fr_header : HandshakeHeader; fr_data : list byte }.

Record FragmentBuffer := { fb_cache : gmap Z (list Fragment); current_message_sequence_number : Z }.

Definition FragmentBuffer_new : FragmentBuffer := {| fb_cache := ∅; current_message_sequence_number := 0 |}.

Definition fragments_size (l : list Fragment) : Z := foldr (fun f z => len (fr_data f) + z) 0 l.

Definition FragmentBuffer_size (b : FragmentBuffer) : Z := msum (fun _ l => fragments_size l) (fb_cache b).

Definition buffer_fragment (f : Fragment) (cache : gmap Z (list Fragment)) : gmap Z (list Fragment) :=
  let seq := message_sequence (fr_header f) in <[seq := default [] (cache !! seq) ++ [f]]> cache.

(** [while !buf.is_empty()]: each turn takes the twelve bytes of a header. *)
Fixpoint push_loop (fuel : nat) (rh : RecordLayerHeader) (buf : list byte) (cache : gmap Z (list Fragment)) :
  result bool Error * gmap Z (list Fragment) :=
  match fuel with
  | O => (Ok true, cache)
  | S fuel' =>
      match buf with
      | [] => (Ok true, cache)
      | _ :: _ =>
          match HandshakeHeader_unmarshal buf with
          | Ret (Ok (hh, _)) =>
              let finish := Z.min (HANDSHAKE_HEADER_LENGTH + hh_length hh) (len buf) in
              let data := take (Z.to_nat (finish - HANDSHAKE_HEADER_LENGTH)) (drop (Z.to_nat HANDSHAKE_HEADER_LENGTH) buf) in
              push_loop fuel' rh (drop (Z.to_nat finish) buf)
                (buffer_fragment {| fr_record_header := rh; fr_header := hh; fr_data := data |} cache)
          | Ret (Err e) => (Err e, cache)
          | Panic => (Err Io, cache) (* reading a header does not panic *)
          end
      end
  end.

Definition FragmentBuffer_push (b : FragmentBuffer) (buf : list byte) : result bool Error * FragmentBuffer :=
  let current_size := FragmentBuffer_size b in
  if decide (current_size + len buf >= FRAGMENT_BUFFER_MAX_SIZE) then
    (Err (ErrFragmentBufferOverflow (current_size + len buf) FRAGMENT_BUFFER_MAX_SIZE), b)
  else
    match RecordLayerHeader_unmarshal buf with
    | Ret (Ok (rh, _)) =>
        if decide (rlh_content_type rh <> CtHandshake) then (Ok false, b)
        else
          let body := drop (Z.to_nat RECORD_LAYER_HEADER_SIZE) buf in
          let '(r, cache) := push_loop (length body) rh body (fb_cache b) in
          (r, {| fb_cache := cache; current_message_sequence_number := current_message_sequence_number b |})
    | Ret (Err e) => (Err e, b)
    | Panic => (Err Io, b)
    end.

(** [append_message]: the first fragment at the target offset is followed; the
    offset grows with each call, so the fragments bound the depth
    ([append_message_fuel]). *)
Fixpoint append_message (fuel : nat) (target_offset : Z) (frags : list Fragment) (raw_message : list byte) : bool * list byte :=
  match fuel with
  | O => (false, raw_message)
  | S fuel' =>
      match list_find (fun f => fragment_offset (fr_header f) = target_offset) frags with
      | None => (false, raw_message)
      | Some (_, f) =>
          let fragment_end := fragment_offset (fr_header f) + fragment_length (fr_header f) in
          let '(found, raw) :=
            if decide (fragment_end <> hh_length (fr_header f) /\ fragment_length (fr_header f) <> 0)
            then append_message fuel' fragment_end frags raw_message
            else (true, raw_message) in
          if found then (true, fr_data f ++ raw) else (false, raw)
      end
  end.

Definition whole (h : HandshakeHeader) : HandshakeHeader :=
  {| handshake_type := handshake_type h; hh_length := hh_length h; message_sequence := message_sequence h;
     fragment_offset := 0; fragment_length := hh_length h |}.

Definition FragmentBuffer_pop (b : FragmentBuffer) : Act (list byte * Z) * FragmentBuffer :=
  let seq_num := current_message_sequence_number b in
  match fb_cache b !! seq_num with
  | None => (fail ErrEmptyFragment, b)
  | Some frags =>
      match append_message (S (length frags)) 0 frags [] with
      | (false, _) => (fail ErrEmptyFragment, b)
      | (true, raw_message) =>
          match frags with
          | [] => (Panic, b)
          | f0 :: _ =>
              match HandshakeHeader_marshal (whole (fr_header f0)) with
              | Panic => (Panic, b)
              | Ret (Err _) => (fail ErrEmptyFragment, b)
              | Ret (Ok raw_header) =>
                  (act (raw_header ++ raw_message, epoch (fr_record_header f0)),
                   {| fb_cache := delete seq_num (fb_cache b);
                      current_message_sequence_number := (seq_num + 1) mod 65536 |})
              end
          end
      end
  end.

(** * Handshake cache *)

Record HandshakeCacheItem := {
  hc_typ : HandshakeType; hc_is_client : bool; hc_epoch : Z; hc_sequence : Z; hc_data : list byte }.

Record HandshakeCachePullRule := { pr_typ : HandshakeType; pr_epoch : Z; pr_is_client : bool; pr_optional : bool }.

Definition HandshakeCache : Type := list HandshakeCacheItem.

Definition HandshakeCache_push (cache : HandshakeCache) (data : list byte) (ep sequence : Z) (typ : HandshakeType)
  (is_client : bool) : bool * HandshakeCache :=
  if existsb (fun i => bool_decide (hc_sequence i = sequence) && bool_decide (hc_is_client i = is_client)) cache then (false, cache)
  else (true, cache ++ [{| hc_typ := typ; hc_is_client := is_client; hc_epoch := ep; hc_sequence := sequence; hc_data := data |}]).

Definition rule_matches (r : HandshakeCachePullRule) (c : HandshakeCacheItem) : bool :=
  bool_decide (hc_typ c = pr_typ r) && bool_decide (hc_is_client c = pr_is_client r) && bool_decide (hc_epoch c = pr_epoch r).

(** The inner loop of [pull]: the last of the matching items with a greater
    message sequence than those before it. *)
Definition pull_one (cache : HandshakeCache) (r : HandshakeCachePullRule) : option HandshakeCacheItem :=
  foldl (fun item c =>
    if rule_matches r c then
      match item with
      | Some x => if decide (hc_sequence x < hc_sequence c) then Some c else item
      | None => Some c
      end
    else item) None cache.

Definition pull (cache : HandshakeCache) (rules : list HandshakeCachePullRule) : list HandshakeCacheItem :=
  omap (pull_one cache) rules.

Fixpoint pull_items (cache : HandshakeCache) (rules : list HandshakeCachePullRule) (ci : list (HandshakeType * HandshakeCacheItem)) :
  result (list (HandshakeType * HandshakeCacheItem)) Error :=
  match rules with
  | [] => Ok ci
  | r :: rules' =>
      match pull_one cache r with
      | Some c => pull_items cache rules' (ci ++ [(pr_typ r, c)])
      | None => if pr_optional r then pull_items cache rules' ci else Err (Other "Missing mandatory message")
      end
  end.

(** [HashMap] lookup: the last insertion under a key wins. *)
Definition assoc_last {A} (t : HandshakeType) (l : list (HandshakeType * A)) : option A :=
  foldl (fun acc '(k, v) => if decide (k = t) then Some v else acc) None l.

Fixpoint pull_messages (rules : list HandshakeCachePullRule) (ci : list (HandshakeType * HandshakeCacheItem)) (seq : Z)
  (out : list (HandshakeType * HandshakeMessage)) : Act (Z * list (HandshakeType * HandshakeMessage)) :=
  match rules with
  | [] => act (seq, out)
  | r :: rules' =>
      match assoc_last (pr_typ r) ci with
      | None => pull_messages rules' ci seq out
      | Some i =>
          act! (raw_handshake, _) := Handshake_unmarshal (hc_data i) in
          if decide (seq mod 65536 <> message_sequence (handshake_header raw_handshake))
          then fail (Other "There is a gap. Some messages are not arrived.")
          else pull_messages rules' ci (seq + 1) (out ++ [(pr_typ r, handshake_message raw_handshake)])
      end
  end.

Definition full_pull_map (cache : HandshakeCache) (start_seq : Z) (rules : list HandshakeCachePullRule) :
  Act (Z * list (HandshakeType * HandshakeMessage)) :=
  match pull_items cache rules [] with
  | Err e => fail e
  | Ok ci => pull_messages rules ci start_seq []
  end.

Definition pull_and_merge (cache : HandshakeCache) (rules : list HandshakeCachePullRule) : list byte :=
  mjoin (hc_data <$> pull cache rules).

Definition session_rules (ep : Z) : list HandshakeCachePullRule :=
  (fun '(t, c) => {| pr_typ := t; pr_epoch := ep; pr_is_client := c; pr_optional := false |}) <$>
  [(ClientHello, true); (ServerHello, false); (Certificate, false); (ServerKeyExchange, false);
   (CertificateRequest, false); (ServerHelloDone, false); (Certificate, true); (ClientKeyExchange, true)].

Definition session_hash `{Sha256Lib} (cache : HandshakeCache) (ep : Z) (additional : list byte) : list byte :=
  sha256 (pull_and_merge cache (session_rules ep) ++ additional).

(** * Outgoing packets *)

Record Packet := { pk_record : RecordLayer; should_encrypt : bool; reset_local_sequence_number : bool }.

(** [(0..n).step_by(split_len)]: a zero step panics. *)
Fixpoint split_loop (fuel : nat) (bytes : list byte) (split_len : nat) : list (list byte) :=
  match fuel with
  | O => []
  | S fuel' =>
      match bytes with
      | [] => []
      | _ :: _ => take split_len bytes :: split_loop fuel' (drop split_len bytes) split_len
      end
  end.

Definition split_bytes (bytes : list byte) (split_len : Z) : Act (list (list byte)) :=
  if decide (split_len = 0) then Panic else act (split_loop (length bytes) bytes (Z.to_nat split_len)).

Definition fragment_header (h : HandshakeHeader) (offset n : Z) : HandshakeHeader :=
  {| handshake_type := handshake_type h; hh_length := hh_length h; message_sequence := message_sequence h;
     fragment_offset := offset mod 4294967296; fragment_length := n mod 4294967296 |}.

Fixpoint fragment_loop (h : HandshakeHeader) (fragments : list (list byte)) (offset : Z) : Act (list (list byte)) :=
  match fragments with
  | [] => act []
  | c :: rest =>
      act! raw := HandshakeHeader_marshal (fragment_header h offset (len c)) in
      act! out := fragment_loop h rest (offset + len c) in
      act ((raw ++ c) :: out)
  end.

Definition fragment_handshake (maximum_transmission_unit : Z) (h : Handshake) : Act (list (list byte)) :=
  act! content := HandshakeMessage_marshal (handshake_message h) in
  act! pieces := split_bytes content maximum_transmission_unit in
  fragment_loop (handshake_header h) (if decide (pieces = []) then [[]] else pieces) 0.

(** [while lsn.len() <= epoch { lsn.push(0) }], [lsn[epoch] += 1], and the
    number before the increment. *)
Definition next_sequence (lsn : list Z) (ep : Z) : Z * list Z :=
  let lsn := lsn ++ replicate (S (Z.to_nat ep) - length lsn) 0 in
  let seq := default 0 (lsn !! Z.to_nat ep) in
  (seq, <[Z.to_nat ep := seq + 1]> lsn).

Definition with_sequence (h : RecordLayerHeader) (seq : Z) : RecordLayerHeader :=
  {| rlh_content_type := rlh_content_type h; protocol_version := protocol_version h; epoch := epoch h;
     sequence_number := seq; content_len := content_len h |}.

Definition seal (cipher_suite : option CipherSuite) (encrypt : bool) (h : RecordLayerHeader) (raw : list byte) : Act (list byte) :=
  match encrypt, cipher_suite with
  | true, Some cs => Ret (cs_encrypt cs h raw)
  | _, _ => act raw
  end.

Definition process_packet (lsn : list Z) (cipher_suite : option CipherSuite) (p : Packet) : Act (list byte) * list Z :=
  let h := record_layer_header (pk_record p) in
  let '(seq, lsn) := next_sequence lsn (epoch h) in
  if decide (seq > MAX_SEQUENCE_NUMBER) then (fail ErrSequenceNumberOverflow, lsn)
  else
    (act! raw := RecordLayer_marshal {| record_layer_header := with_sequence h seq; content := content (pk_record p) |} in
     seal cipher_suite (should_encrypt p) (with_sequence h seq) raw, lsn).

Fixpoint handshake_records (lsn : list Z) (cipher_suite : option CipherSuite) (p : Packet) (fragments : list (list byte))
  (raw_packets : list (list byte)) : Act (list (list byte)) * list Z :=
  match fragments with
  | [] => (act raw_packets, lsn)
  | fragment :: rest =>
      let h := record_layer_header (pk_record p) in
      let '(seq, lsn) := next_sequence lsn (epoch h) in
      if decide (seq > MAX_SEQUENCE_NUMBER) then (fail ErrSequenceNumberOverflow, lsn)
      else
        let rh := {| rlh_content_type := rlh_content_type h; protocol_version := protocol_version h; epoch := epoch h;
                     sequence_number := seq; content_len := len fragment mod 65536 |} in
        match (act! header := RecordLayerHeader_marshal rh in seal cipher_suite (should_encrypt p) rh (header ++ fragment)) with
        | Ret (Ok raw_packet) => handshake_records lsn cipher_suite p rest (raw_packets ++ [raw_packet])
        | Ret (Err e) => (fail e, lsn)
        | Panic => (Panic, lsn)
        end
  end.

Definition process_handshake_packet (lsn : list Z) (cipher_suite : option CipherSuite) (mtu : Z) (p : Packet) (h : Handshake) :
  Act (list (list byte)) * list Z :=
  match fragment_handshake mtu h with
  | Ret (Ok fragments) => handshake_records lsn cipher_suite p fragments []
  | Ret (Err e) => (fail e, lsn)
  | Panic => (Panic, lsn)
  end.

Fixpoint compact_loop (raw_packets : list (list byte)) (mtu : Z) (current : list byte) (combined : list (list byte)) : list (list byte) :=
  match raw_packets with
  | [] => combined ++ [current]
  | raw_packet :: rest =>
      if decide (current <> [] /\ len current + len raw_packet >= mtu)
      then compact_loop rest mtu raw_packet (combined ++ [current])
      else compact_loop rest mtu (current ++ raw_packet) combined
  end.

Definition compact_raw_packets (raw_packets : list (list byte)) (mtu : Z) : list (list byte) := compact_loop raw_packets mtu [] [].

(** The state the sending task shares: the handshake cache and the sequence
    numbers. *)
Record Sender := { sd_cache : HandshakeCache; sd_lsn : list Z }.

Fixpoint outgoing_loop (mtu : Z) (is_client : bool) (cipher_suite : option CipherSuite) (pkts : list Packet) (s : Sender)
  (raw_packets : list (list byte)) : Act (list (list byte)) * Sender :=
  match pkts with
  | [] => (act raw_packets, s)
  | p :: rest =>
      match content (pk_record p) with
      | CHandshake h =>
          match RecordLayer_marshal (pk_record p) with
          | Ret (Ok handshake_raw) =>
              let cache := snd (HandshakeCache_push (sd_cache s) (drop (Z.to_nat RECORD_LAYER_HEADER_SIZE) handshake_raw)
                (epoch (record_layer_header (pk_record p))) (message_sequence (handshake_header h))
                (handshake_type (handshake_header h)) is_client) in
              match process_handshake_packet (sd_lsn s) cipher_suite mtu p h with
              | (Ret (Ok raws), lsn) => outgoing_loop mtu is_client cipher_suite rest {| sd_cache := cache; sd_lsn := lsn |} (raw_packets ++ raws)
              | (Ret (Err e), lsn) => (fail e, {| sd_cache := cache; sd_lsn := lsn |})
              | (Panic, lsn) => (Panic, {| sd_cache := cache; sd_lsn := lsn |})
              end
          | Ret (Err e) => (fail e, s)
          | Panic => (Panic, s)
          end
      | _ =>
          match process_packet (sd_lsn s) cipher_suite p with
          | (Ret (Ok raw), lsn) => outgoing_loop mtu is_client cipher_suite rest {| sd_cache := sd_cache s; sd_lsn := lsn |} (raw_packets ++ [raw])
          | (Ret (Err e), lsn) => (fail e, {| sd_cache := sd_cache s; sd_lsn := lsn |})
          | (Panic, lsn) => (Panic, {| sd_cache := sd_cache s; sd_lsn := lsn |})
          end
      end
  end.

(** [next_conn.send] of each datagram until one fails. *)
Fixpoint send_all (send : list byte -> result unit Error) (datagrams : list (list byte)) (sent : list (list byte)) :
  result unit Error * list (list byte) :=
  match datagrams with
  | [] => (Ok tt, sent)
  | d :: rest => match send d with Ok _ => send_all send rest (sent ++ [d]) | Err e => (Err e, sent) end
  end.

Definition handle_outgoing_packets (send : list byte -> result unit Error) (mtu : Z) (is_client : bool)
  (cipher_suite : option CipherSuite) (pkts : list Packet) (s : Sender) : Act unit * Sender * list (list byte) :=
  match outgoing_loop mtu is_client cipher_suite pkts s [] with
  | (Ret (Ok raw_packets), s) =>
      if decide (raw_packets = []) then (act tt, s, [])
      else
        let '(r, sent) := send_all send (compact_raw_packets raw_packets mtu) [] in
        (Ret r, s, sent)
  | (Ret (Err e), s) => (fail e, s, [])
  | (Panic, s) => (Panic, s, [])
  end.

(** * Incoming packets *)

Class ReplayDetector := {
  Detector : Type;
  detector_new : Z -> Z -> Detector;              (* [SlidingWindowDetector::new(window, max_seq)] *)
  detector_check : Detector -> Z -> bool * Detector;
  detector_accept : Detector -> Detector;
}.

(** What a replay detector is for: a number that was checked and accepted is
    never passed again, whatever is checked or accepted meanwhile. *)
Class ReplayLaws (R : ReplayDetector) := {
  replay_seen : Detector -> Z -> Prop;
  replay_accepted d s d' : detector_check d s = (true, d') -> replay_seen (detector_accept d') s;
  replay_check_keeps d s s' : replay_seen d s -> replay_seen (snd (detector_check d s')) s;
  replay_accept_keeps d s : replay_seen d s -> replay_seen (detector_accept d) s;
  replay_rejects d s : replay_seen d s -> fst (detector_check d s) = false;
}.

Section incoming.
Context `{R : ReplayDetector}.

Record ConnReaderContext := {
  ctx_is_client : bool;
  replay_protection_window : Z;
  replay_detector : list Detector;
  decrypted : list (list byte);
  encrypted_packets : list (list byte);
  fragment_buffer : FragmentBuffer;
  ctx_cache : HandshakeCache;
  ctx_cipher_suite : option CipherSuite;
  remote_epoch : Z;
}.

Definition upd_replay_detector (g : list Detector -> list Detector) (s : ConnReaderContext) : ConnReaderContext := {|
  ctx_is_client := ctx_is_client s; replay_protection_window := replay_protection_window s;
  replay_detector := g (replay_detector s); decrypted := decrypted s; encrypted_packets := encrypted_packets s;
  fragment_buffer := fragment_buffer s; ctx_cache := ctx_cache s; ctx_cipher_suite := ctx_cipher_suite s;
  remote_epoch := remote_epoch s |}.
Definition upd_decrypted (g : list (list byte) -> list (list byte)) (s : ConnReaderContext) : ConnReaderContext := {|
  ctx_is_client := ctx_is_client s; replay_protection_window := replay_protection_window s;
  replay_detector := replay_detector s; decrypted := g (decrypted s); encrypted_packets := encrypted_packets s;
  fragment_buffer := fragment_buffer s; ctx_cache := ctx_cache s; ctx_cipher_suite := ctx_cipher_suite s;
  remote_epoch := remote_epoch s |}.
Definition upd_encrypted_packets (g : list (list byte) -> list (list byte)) (s : ConnReaderContext) : ConnReaderContext := {|
  ctx_is_client := ctx_is_client s; replay_protection_window := replay_protection_window s;
  replay_detector := replay_detector s; decrypted := decrypted s; encrypted_packets := g (encrypted_packets s);
  fragment_buffer := fragment_buffer s; ctx_cache := ctx_cache s; ctx_cipher_suite := ctx_cipher_suite s;
  remote_epoch := remote_epoch s |}.
Definition upd_fragment_buffer (g : FragmentBuffer -> FragmentBuffer) (s : ConnReaderContext) : ConnReaderContext := {|
  ctx_is_client := ctx_is_client s; replay_protection_window := replay_protection_window s;
  replay_detector := replay_detector s; decrypted := decrypted s; encrypted_packets := encrypted_packets s;
  fragment_buffer := g (fragment_buffer s); ctx_cache := ctx_cache s; ctx_cipher_suite := ctx_cipher_suite s;
  remote_epoch := remote_epoch s |}.
Definition upd_ctx_cache (g : HandshakeCache -> HandshakeCache) (s : ConnReaderContext) : ConnReaderContext := {|
  ctx_is_client := ctx_is_client s; replay_protection_window := replay_protection_window s;
  replay_detector := replay_detector s; decrypted := decrypted s; encrypted_packets := encrypted_packets s;
  fragment_buffer := fragment_buffer s; ctx_cache := g (ctx_cache s); ctx_cipher_suite := ctx_cipher_suite s;
  remote_epoch := remote_epoch s |}.
Definition upd_ctx_cipher_suite (g : option CipherSuite -> option CipherSuite) (s : ConnReaderContext) : ConnReaderContext := {|
  ctx_is_client := ctx_is_client s; replay_protection_window := replay_protection_window s;
  replay_detector := replay_detector s; decrypted := decrypted s; encrypted_packets := encrypted_packets s;
  fragment_buffer := fragment_buffer s; ctx_cache := ctx_cache s; ctx_cipher_suite := g (ctx_cipher_suite s);
  remote_epoch := remote_epoch s |}.
Definition upd_remote_epoch (g : Z -> Z) (s : ConnReaderContext) : ConnReaderContext := {|
  ctx_is_client := ctx_is_client s; replay_protection_window := replay_protection_window s;
  replay_detector := replay_detector s; decrypted := decrypted s; encrypted_packets := encrypted_packets s;
  fragment_buffer := fragment_buffer s; ctx_cache := ctx_cache s; ctx_cipher_suite := ctx_cipher_suite s;
  remote_epoch := g (remote_epoch s) |}.

(** The channel and task ends of the context are the caller's. *)
Definition ConnReaderContext_new (is_client : bool) (window : Z) : ConnReaderContext :=
  {| ctx_is_client := is_client; replay_protection_window := window; replay_detector := []; decrypted := [];
     encrypted_packets := []; fragment_buffer := FragmentBuffer_new; ctx_cache := []; ctx_cipher_suite := None;
     remote_epoch := 0 |}.

Definition Outcome : Type := bool * option Alert * option Error.
Definition silent : Outcome := (false, None, None).

Definition alert_of (l : AlertLevel) (d : AlertDescription) : option Alert := Some {| alert_level := l; alert_description := d |}.

Definition detector_at (ctx : ConnReaderContext) (ep : Z) : Detector :=
  default (detector_new (replay_protection_window ctx) MAX_SEQUENCE_NUMBER) (replay_detector ctx !! Z.to_nat ep).

(** [while ctx.replay_detector.len() <= h.epoch { push(new) }]. *)
Definition grow_detectors (ep : Z) (ctx : ConnReaderContext) : ConnReaderContext :=
  upd_replay_detector (fun l => l ++ replicate (S (Z.to_nat ep) - length l)
    (detector_new (replay_protection_window ctx) MAX_SEQUENCE_NUMBER)) ctx.

Definition set_detector (ep : Z) (d : Detector) (ctx : ConnReaderContext) : ConnReaderContext :=
  upd_replay_detector (fun l => <[Z.to_nat ep := d]> l) ctx.

Definition accept_record (ep : Z) (ctx : ConnReaderContext) : ConnReaderContext :=
  set_detector ep (detector_accept (detector_at ctx ep)) ctx.

Definition enqueue_packet (enqueue : bool) (pkt : list byte) (ctx : ConnReaderContext) : ConnReaderContext :=
  if enqueue then upd_encrypted_packets (fun l => l ++ [pkt]) ctx else ctx.

Definition invalid_cipher_suite (ctx : ConnReaderContext) : bool :=
  match ctx_cipher_suite ctx with None => true | Some cs => negb (cs_is_initialized cs) end.

(** [while let Ok((out, epoch)) = ctx.fragment_buffer.pop()]: a turn removes an
    entry of the buffer. *)
Fixpoint drain_fragments (fuel : nat) (ctx : ConnReaderContext) : run ConnReaderContext :=
  match fuel with
  | O => Ret ctx
  | S fuel' =>
      match FragmentBuffer_pop (fragment_buffer ctx) with
      | (Panic, _) => Panic
      | (Ret (Err _), b) => Ret (upd_fragment_buffer (fun _ => b) ctx)
      | (Ret (Ok (out, ep)), b) =>
          let ctx := upd_fragment_buffer (fun _ => b) ctx in
          match Handshake_unmarshal out with
          | Panic => Panic
          | Ret (Err _) => drain_fragments fuel' ctx
          | Ret (Ok (rh, _)) =>
              drain_fragments fuel'
                (upd_ctx_cache (fun cache => snd (HandshakeCache_push cache out ep (message_sequence (handshake_header rh))
                   (handshake_type (handshake_header rh)) (negb (ctx_is_client ctx)))) ctx)
          end
      end
  end.

(** The record in clear: reassembly, alerts, cipher changes, application data. *)
Definition handle_record (h : RecordLayerHeader) (ep : Z) (pkt : list byte) (enqueue : bool) (ctx : ConnReaderContext) :
  run (Outcome * ConnReaderContext) :=
  let '(pushed, b) := FragmentBuffer_push (fragment_buffer ctx) pkt in
  let ctx := upd_fragment_buffer (fun _ => b) ctx in
  match pushed with
  | Err _ => Ret (silent, ctx)
  | Ok true =>
      let! ctx := drain_fragments (S (size (fb_cache b))) (accept_record (epoch h) ctx) in
      Ret ((true, None, None), ctx)
  | Ok false =>
      match RecordLayer_unmarshal pkt with
      | Panic => Panic
      | Ret (Err err) => Ret ((false, alert_of Fatal DecodeError, Some err), ctx)
      | Ret (Ok (r, _)) =>
          match content r with
          | CAlert a =>
              let a := if decide (alert_description a = CloseNotify)
                       then {| alert_level := Warning; alert_description := CloseNotify |} else a in
              Ret ((false, Some a, Some (Other ("Error of Alert " +:+ Alert_display a))), accept_record (epoch h) ctx)
          | CChangeCipherSpec =>
              if invalid_cipher_suite ctx then Ret (silent, enqueue_packet enqueue pkt ctx)
              else
                let new_remote_epoch := (epoch h + 1) mod 65536 in
                if decide ((ep + 1) mod 65536 = new_remote_epoch)
                then Ret (silent, accept_record (epoch h) (upd_remote_epoch (fun _ => new_remote_epoch) ctx))
                else Ret (silent, ctx)
          | CApplicationData data =>
              if decide (epoch h = 0)
              then Ret ((false, alert_of Fatal UnexpectedMessage, Some ErrApplicationDataEpochZero), ctx)
              else Ret (silent, upd_decrypted (fun l => l ++ [data]) (accept_record (epoch h) ctx))
          | CHandshake _ => Ret ((false, alert_of Fatal UnexpectedMessage, Some ErrUnhandledContextType), ctx)
          end
      end
  end.

Definition handle_incoming_packet (ctx : ConnReaderContext) (pkt : list byte) (enqueue : bool) : run (Outcome * ConnReaderContext) :=
  match RecordLayerHeader_unmarshal pkt with
  | Panic => Panic
  | Ret (Err _) => Ret (silent, ctx)
  | Ret (Ok (h, _)) =>
      let ep := remote_epoch ctx in
      if decide (epoch h > ep) then
        if decide (epoch h > (ep + 1) mod 65536) then Ret (silent, ctx)
        else Ret (silent, enqueue_packet enqueue pkt ctx)
      else
        let ctx := grow_detectors (epoch h) ctx in
        let '(ok, d) := detector_check (detector_at ctx (epoch h)) (sequence_number h) in
        let ctx := set_detector (epoch h) d ctx in
        if negb ok then Ret (silent, ctx)
        else if decide (epoch h <> 0) then
          if invalid_cipher_suite ctx then Ret (silent, enqueue_packet enqueue pkt ctx)
          else
            match ctx_cipher_suite ctx with
            | None => handle_record h ep pkt enqueue ctx
            | Some cs =>
                match cs_decrypt cs pkt with
                | Ok pkt => handle_record h ep pkt enqueue ctx
                | Err _ =>
                    if cs_is_psk cs then Ret ((false, alert_of Fatal UnknownPskIdentity, None), ctx) else Ret (silent, ctx)
                end
            end
        else handle_record h ep pkt enqueue ctx
  end.

Definition alert_packet (local_epoch : Z) (completed : bool) (a : Alert) : Packet :=
  {| pk_record := RecordLayer_new PROTOCOL_VERSION1_2 local_epoch (CAlert a); should_encrypt := completed;
     reset_local_sequence_number := false |}.

(** The loop of [read_and_buffer] ([enqueue] true) and of
    [handle_queued_packets] (false).  [tx_error] is the error of [packet_tx]
    when its receiver is gone. *)
Fixpoint handle_packets (local_epoch : Z) (completed : bool) (tx_error : option string) (enqueue : bool) (pkts : list (list byte))
  (ctx : ConnReaderContext) (sent : list Packet) (has_handshake : bool) : run (result bool Error * ConnReaderContext * list Packet) :=
  match pkts with
  | [] => Ret (Ok has_handshake, ctx, sent)
  | pkt :: rest =>
      let! (hs, alert, err, ctx) := handle_incoming_packet ctx pkt enqueue in
      match alert with
      | Some a =>
          let sent' := match tx_error with Some _ => sent | None => sent ++ [alert_packet local_epoch completed a] end in
          let err' := match err, tx_error with None, Some e => Some (Other e) | _, _ => err end in
          if decide (alert_level a = Fatal \/ alert_description a = CloseNotify) then Ret (Err ErrAlertFatalOrClose, ctx, sent')
          else
            match err' with
            | Some e => Ret (Err e, ctx, sent')
            | None => handle_packets local_epoch completed tx_error enqueue rest ctx sent' (has_handshake || hs)
            end
      | None =>
          match err with
          | Some e => Ret (Err e, ctx, sent)
          | None => handle_packets local_epoch completed tx_error enqueue rest ctx sent (has_handshake || hs)
          end
      end
  end.

(** [read_and_buffer] on a received datagram, up to the hand-over to the
    handshake task when it returns [Ok true]. *)
Definition read_and_buffer (local_epoch : Z) (completed : bool) (tx_error : option string) (datagram : list byte) (ctx : ConnReaderContext) :
  run (result bool Error * ConnReaderContext * list Packet) :=
  match unpack_datagram datagram with
  | Err e => Ret (Err e, ctx, [])
  | Ok pkts => handle_packets local_epoch completed tx_error true pkts ctx [] false
  end.

(** [ctx.encrypted_packets.drain(..)] and [handle_queued_packets]. *)
Definition handle_queued_packets (local_epoch : Z) (completed : bool) (tx_error : option string) (ctx : ConnReaderContext) :
  run (result bool Error * ConnReaderContext * list Packet) :=
  handle_packets local_epoch completed tx_error false (encrypted_packets ctx) (upd_encrypted_packets (fun _ => []) ctx) [] false.

End incoming.

(** * The fragment buffer is bounded by the bytes it holds *)

Lemma fragments_size_cons f l : fragments_size (f :: l) = len (fr_data f) + fragments_size l.
Proof. done. Qed.

Lemma fragments_size_app l k : fragments_size (l ++ k) = fragments_size l + fragments_size k.
Proof. induction l as [|f l IH]; [done|]. rewrite <- app_comm_cons, !fragments_size_cons. lia. Qed.

Lemma fragments_size_nonneg l : 0 <= fragments_size l.
Proof. induction l as [|f l IH]; [done|]. rewrite fragments_size_cons. pose proof (len_nonneg (fr_data f)). lia. Qed.

Definition cache_size (c : gmap Z (list Fragment)) : Z := msum (fun _ l => fragments_size l) c.

Lemma cache_size_nonneg c : 0 <= cache_size c.
Proof. apply msum_nonneg. intros k l _. apply fragments_size_nonneg. Qed.

Lemma buffer_fragment_size f c : cache_size (buffer_fragment f c) = cache_size c + len (fr_data f).
Proof.
  unfold buffer_fragment, cache_size. destruct (c !! message_sequence (fr_header f)) as [l|] eqn:E; cbn [default from_option id].
  - rewrite (msum_overwrite _ _ _ l) by done. rewrite fragments_size_app, fragments_size_cons. change (fragments_size []) with 0. lia.
  - rewrite msum_insert by done. change ([] ++ [f]) with [f]. rewrite fragments_size_cons. change (fragments_size []) with 0. lia.
Qed.

Lemma be_value_u24 a b c : 0 <= be_value [a; b; c] <= 16777215.
Proof. pose proof (be_value_range [a; b; c]) as H. change (256 ^ len [a; b; c]) with 16777216 in H. lia. Qed.

Lemma be_value_pair a b : 0 <= be_value [a; b] <= 65535.
Proof. pose proof (be_value_range [a; b]) as H. change (256 ^ len [a; b]) with 65536 in H. lia. Qed.

Lemma header_reads_twelve buf hh r : HandshakeHeader_unmarshal buf = act (hh, r) ->
  HANDSHAKE_HEADER_LENGTH <= len buf /\ header_wf hh.
Proof.
  intros Hr. assert (12 <= length buf)%nat as Hl.
  { destruct (decide (12 <= length buf)%nat) as [|Hn]; [done|]. exfalso. revert Hr.
    do 12 (destruct buf as [|? buf]; [discriminate|]). cbn in Hn. lia. }
  split; [unfold len, HANDSHAKE_HEADER_LENGTH; lia|].
  do 12 (destruct buf as [|? buf]; [cbn in Hl; lia|]). clear Hl. revert Hr.
  cbv [HandshakeHeader_unmarshal rd_u8 rd_u16 rd_u24 read_uint rd_bind act_bind act read_byte rd_ret read_exact].
  repeat (rewrite decide_True by (cbn [length]; lia); cbn [take drop]).
  intros [= <- _]. unfold header_wf. cbn [hh_length message_sequence fragment_offset fragment_length].
  split_and!; (apply be_value_u24 || apply be_value_pair).
Qed.

Lemma push_loop_size fuel : forall rh buf c r c', push_loop fuel rh buf c = (r, c') -> cache_size c' <= cache_size c + len buf.
Proof.
  induction fuel as [|fuel IH]; intros rh buf c r c'; cbn [push_loop].
  - intros [= _ <-]. pose proof (len_nonneg buf). lia.
  - destruct buf as [|x buf']; [intros [= _ <-]; rewrite len_nil; lia|]. set (buf := x :: buf'). pose proof (len_nonneg buf).
    destruct (HandshakeHeader_unmarshal buf) as [[[hh rest]|e]|] eqn:E; [|intros [= _ <-]; lia..].
    apply header_reads_twelve in E as [Hl (Hh & _)]. unfold HANDSHAKE_HEADER_LENGTH in *.
    intros Hp%IH. rewrite buffer_fragment_size in Hp. cbn [fr_data] in Hp. revert Hp.
    set (n := Z.min (12 + hh_length hh) (len buf)). intros Hp.
    assert (len (take (Z.to_nat (n - 12)) (drop (Z.to_nat 12) buf)) + len (drop (Z.to_nat n) buf) <= len buf); [|lia].
    unfold len in *. rewrite length_take, !length_drop. lia.
Qed.

(** Pushing a packet or popping a message, in any order. *)
Definition buffer_step (b : FragmentBuffer) (op : option (list byte)) : FragmentBuffer :=
  match op with Some buf => snd (FragmentBuffer_push b buf) | None => snd (FragmentBuffer_pop b) end.

Lemma buffer_push_size b buf : FragmentBuffer_size b < FRAGMENT_BUFFER_MAX_SIZE ->
  FragmentBuffer_size (snd (FragmentBuffer_push b buf)) < FRAGMENT_BUFFER_MAX_SIZE.
Proof.
  intros Hb. unfold FragmentBuffer_push. case_decide as Hs; [done|].
  destruct (RecordLayerHeader_unmarshal buf) as [[[rh rest]|]|]; [|done..]. case_decide; [done|].
  destruct (push_loop _ _ _ _) as [r c] eqn:E. cbn [snd]. apply push_loop_size in E.
  unfold FragmentBuffer_size in *. cbn [fb_cache]. fold (cache_size c). fold (cache_size (fb_cache b)) in *.
  assert (len (drop (Z.to_nat RECORD_LAYER_HEADER_SIZE) buf) <= len buf) by (unfold len; rewrite length_drop; lia). lia.
Qed.

Lemma buffer_pop_size b : FragmentBuffer_size (snd (FragmentBuffer_pop b)) <= FragmentBuffer_size b.
Proof.
  unfold FragmentBuffer_pop. destruct (fb_cache b !! _) as [frags|] eqn:E; [|done].
  destruct (append_message _ _ _ _) as [[] raw]; [|done]. destruct frags as [|f frags]; [done|].
  destruct (HandshakeHeader_marshal _) as [[bs|]|]; cbn [snd]; [|done..].
  unfold FragmentBuffer_size. cbn [fb_cache]. rewrite (msum_delete _ _ _ _ E). pose proof (fragments_size_nonneg (f :: frags)). lia.
Qed.

(** Whatever a peer sends and however it is interleaved with the reading of
    messages, the fragment buffer holds fewer than two million bytes. *)
Theorem fragment_buffer_bounded ops : FragmentBuffer_size (foldl buffer_step FragmentBuffer_new ops) < FRAGMENT_BUFFER_MAX_SIZE.
Proof.
  assert (forall b, FragmentBuffer_size b < FRAGMENT_BUFFER_MAX_SIZE -> FragmentBuffer_size (foldl buffer_step b ops) < FRAGMENT_BUFFER_MAX_SIZE) as H.
  { induction ops as [|[buf|] ops IH]; intros b Hb; cbn [foldl buffer_step]; [done|apply IH..].
    - by apply buffer_push_size.
    - pose proof (buffer_pop_size b). lia. }
  apply H. unfold FragmentBuffer_size. cbn [fb_cache FragmentBuffer_new]. by rewrite msum_empty.
Qed.

(** * Reassembly terminates *)

Definition pending (t : Z) (frags : list Fragment) : nat := length (filter (fun f => t <= fragment_offset (fr_header f)) frags).

Lemma pending_mono t t' frags : t <= t' -> (pending t' frags <= pending t frags)%nat.
Proof.
  intros Ht. unfold pending. induction frags as [|g l IH]; [done|]. rewrite !filter_cons. repeat case_decide; cbn [length]; lia.
Qed.

Lemma pending_less frags f t : f ∈ frags -> fragment_offset (fr_header f) = t -> 0 < fragment_length (fr_header f) ->
  (pending (t + fragment_length (fr_header f)) frags < pending t frags)%nat.
Proof.
  intros Hf Ho Hl. unfold pending. induction frags as [|g frags IH]; [by apply not_elem_of_nil in Hf|].
  rewrite !filter_cons. apply elem_of_cons in Hf as [<-|Hf].
  - rewrite (decide_False (P := t + _ <= _)), (decide_True (P := t <= _)) by lia. cbn [length].
    pose proof (pending_mono t (t + fragment_length (fr_header f)) frags ltac:(lia)). unfold pending in *. lia.
  - specialize (IH Hf). repeat case_decide; cbn [length]; lia.
Qed.

Lemma append_message_enough frags : Forall (fun f => 0 <= fragment_length (fr_header f)) frags ->
  forall fuel fuel' t raw, (pending t frags < fuel)%nat -> (pending t frags < fuel')%nat ->
  append_message fuel t frags raw = append_message fuel' t frags raw.
Proof.
  intros Hn. induction fuel as [|fuel IH]; intros [|fuel'] t raw H1 H2; [lia..|]. cbn [append_message].
  destruct (list_find _ frags) as [[i f]|] eqn:E; [|done].
  apply list_find_Some in E as (Hf & Ho & _). apply list_elem_of_lookup_2 in Hf.
  rewrite Forall_forall in Hn. specialize (Hn f Hf). cbv zeta. case_decide as Hd; [|done].
  pose proof (pending_less frags f t Hf Ho ltac:(lia)). by rewrite Ho, (IH fuel') by lia.
Qed.

(** The recursion of [append_message] ends: with fragment lengths read from
    the wire, a depth of one more than the number of fragments is never
    exceeded, so the answer does not depend on the fuel. *)
Theorem append_message_fuel frags fuel raw t : Forall (fun f => 0 <= fragment_length (fr_header f)) frags ->
  (S (length frags) <= fuel)%nat -> append_message fuel t frags raw = append_message (S (length frags)) t frags raw.
Proof.
  intros Hn Hf. apply append_message_enough; [done|..]; unfold pending;
    pose proof (length_filter (fun f => t <= fragment_offset (fr_header f)) frags); lia.
Qed.

(** * Reassembly *)

(** The pieces of a message with the offset each starts at. *)
Fixpoint pieces_at (o : Z) (cs : list (list byte)) : list (Z * list byte) :=
  match cs with [] => [] | c :: cs' => (o, c) :: pieces_at (o + len c) cs' end.

Lemma pieces_at_app cs ds : forall o, pieces_at o (cs ++ ds) = pieces_at o cs ++ pieces_at (o + len (mjoin cs)) ds.
Proof.
  induction cs as [|c cs IH]; intros o; [cbn [app pieces_at]; change (mjoin []) with (@nil byte); by rewrite len_nil, Z.add_0_r|].
  cbn [app pieces_at]. change (mjoin (c :: cs)) with (c ++ mjoin cs). rewrite IH, len_app, Z.add_assoc. done.
Qed.

Lemma pieces_at_bounds cs o p : p ∈ pieces_at o cs -> o <= p.1 /\ p.1 + len p.2 <= o + len (mjoin cs).
Proof.
  revert o. induction cs as [|c cs IH]; intros o; cbn [pieces_at]; [by intros ?%not_elem_of_nil|].
  change (mjoin (c :: cs)) with (c ++ mjoin cs). rewrite len_app. pose proof (len_nonneg c). pose proof (len_nonneg (mjoin cs)).
  intros [->|Hp]%elem_of_cons; [cbn [fst snd]; lia|]. apply IH in Hp. lia.
Qed.

(** With no empty piece, the offset tells the piece. *)
Lemma pieces_at_fun cs : forall o p q, Forall (fun c => c <> []) cs -> p ∈ pieces_at o cs -> q ∈ pieces_at o cs -> p.1 = q.1 -> p = q.
Proof.
  induction cs as [|c cs IH]; intros o p q Hne; cbn [pieces_at]; [by intros ?%not_elem_of_nil|].
  apply Forall_cons in Hne as [Hc Hne]. assert (0 < len c) by (destruct c; [done|rewrite len_cons; pose proof (len_nonneg c); lia]).
  intros [->|Hp]%elem_of_cons [->|Hq]%elem_of_cons; cbn [fst snd].
  - done.
  - apply pieces_at_bounds in Hq. lia.
  - apply pieces_at_bounds in Hp. lia.
  - by apply (IH (o + len c)).
Qed.

(** A buffered fragment that carries one of the pieces of a message of length [L]. *)
Definition carries (L : Z) (cs : list (list byte)) (f : Fragment) : Prop :=
  exists p, p ∈ pieces_at 0 cs /\ fragment_offset (fr_header f) = p.1 /\ fragment_length (fr_header f) = len p.2 /\
    fr_data f = p.2 /\ hh_length (fr_header f) = L.

Lemma find_piece L cs frags o c : Forall (fun c => c <> []) cs \/ cs = [[]] -> Forall (carries L cs) frags -> (o, c) ∈ pieces_at 0 cs ->
  (exists f, f ∈ frags /\ fragment_offset (fr_header f) = o) ->
  exists i f, list_find (fun f => fragment_offset (fr_header f) = o) frags = Some (i, f) /\ fr_data f = c /\
    fragment_offset (fr_header f) = o /\ fragment_length (fr_header f) = len c /\ hh_length (fr_header f) = L.
Proof.
  intros Hcs Hall Hin (f & Hf & Ho).
  destruct (list_find_elem_of (fun f => fragment_offset (fr_header f) = o) frags f Hf Ho) as [[i g] Hg].
  pose proof Hg as (Hg1 & Hg2 & _)%list_find_Some. apply list_elem_of_lookup_2 in Hg1.
  rewrite Forall_forall in Hall. destruct (Hall g Hg1) as (p & Hp & E1 & E2 & E3 & E4).
  assert (p = (o, c)) as ->.
  { destruct Hcs as [Hne| ->].
    - apply (pieces_at_fun cs 0); [done..|]. cbn [fst]. lia.
    - cbn [pieces_at] in Hp, Hin. apply list_elem_of_singleton in Hp as ->. apply list_elem_of_singleton in Hin. done. }
  exists i, g. done.
Qed.

Lemma append_complete L cs frags : Forall (fun c => c <> []) cs \/ cs = [[]] -> L = len (mjoin cs) -> Forall (carries L cs) frags ->
  (forall p, p ∈ pieces_at 0 cs -> exists f, f ∈ frags /\ fragment_offset (fr_header f) = p.1) ->
  forall suf pre fuel, suf <> [] -> cs = pre ++ suf -> (length suf <= fuel)%nat ->
  append_message fuel (len (mjoin pre)) frags [] = (true, mjoin suf).
Proof.
  intros Hcs HL Hall Hcov suf. induction suf as [|c suf IH]; intros pre fuel Hne Hsplit Hf; [done|].
  destruct fuel as [|fuel]; [cbn in Hf; lia|]. cbn [append_message].
  assert ((len (mjoin pre), c) ∈ pieces_at 0 cs) as Hin.
  { rewrite Hsplit, pieces_at_app. apply elem_of_app. right. cbn [pieces_at]. left. }
  destruct (find_piece L cs frags _ _ Hcs Hall Hin (Hcov _ Hin)) as (i & f & -> & Hd & Ho & Hn & Hl).
  rewrite Ho, Hn, Hl, HL, Hd. change (mjoin (c :: suf)) with (c ++ mjoin suf).
  assert (len (mjoin cs) = len (mjoin pre) + len c + len (mjoin suf)) as Htot.
  { rewrite Hsplit, join_app. change (mjoin (c :: suf)) with (c ++ mjoin suf). rewrite !len_app. lia. }
  destruct suf as [|c' suf].
  - change (mjoin []) with (@nil byte) in *. rewrite len_nil in Htot. rewrite decide_False by lia. done.
  - assert (Forall (fun c => c <> []) cs) as Hn1 by (destruct Hcs as [|E]; [done|]; rewrite E in Hsplit; destruct pre as [|? [|? ?]]; discriminate).
    rewrite Hsplit, Forall_app, !Forall_cons in Hn1. destruct Hn1 as (_ & Hc & Hc' & _).
    rewrite decide_True.
    2: { split; [|destruct c; [done|rewrite len_cons; pose proof (len_nonneg c); lia]].
         change (mjoin (c' :: suf)) with (c' ++ mjoin suf) in Htot. rewrite len_app in Htot. pose proof (len_nonneg (mjoin suf)).
         assert (0 < len c') by (destruct c'; [done|rewrite len_cons; pose proof (len_nonneg c'); lia]). lia. }
    specialize (IH (pre ++ [c]) fuel). rewrite join_app in IH. change (mjoin [c]) with (c ++ []) in IH. rewrite app_nil_r, len_app in IH.
    rewrite IH; [done|done|by rewrite <- app_assoc|cbn in *; lia].
Qed.

Lemma drop_exact {A} n (l k : list A) : len l = n -> drop (Z.to_nat n) (l ++ k) = k.
Proof. intros <-. unfold len. rewrite Nat2Z.id. apply drop_app_length. Qed.

(** Pushing a record that carries one fragment. *)
Lemma push_fragment b rh hh data : record_header_wf rh -> rlh_content_type rh = CtHandshake -> header_wf hh -> len data <= hh_length hh ->
  FragmentBuffer_size b + RECORD_LAYER_HEADER_SIZE + HANDSHAKE_HEADER_LENGTH + len data < FRAGMENT_BUFFER_MAX_SIZE ->
  FragmentBuffer_push b (record_header_bytes rh ++ header_bytes hh ++ data) =
  (Ok true, {| fb_cache := buffer_fragment {| fr_record_header := rh; fr_header := hh; fr_data := data |} (fb_cache b);
               current_message_sequence_number := current_message_sequence_number b |}).
Proof.
  intros Hrw Ht Hhw Hd Hs. pose proof (record_header_length rh) as L1. pose proof (header_length hh) as L2.
  unfold FragmentBuffer_push. rewrite decide_False by (rewrite !len_app, L1, L2; lia).
  rewrite record_header_parses by done. cbn [act]. rewrite decide_False by by rewrite Ht; intros [].
  assert (drop (Z.to_nat RECORD_LAYER_HEADER_SIZE) (record_header_bytes rh ++ header_bytes hh ++ data) = header_bytes hh ++ data) as ->.
  { by apply drop_exact. }
  set (body := header_bytes hh ++ data). assert (len body = 12 + len data) as Hb by (unfold body; rewrite len_app, L2; done).
  destruct (length body) as [|n] eqn:En; [unfold len in Hb; lia|]. cbn [push_loop].
  destruct body as [|x body'] eqn:Eb; [discriminate|]. rewrite <- Eb in *. clear Eb. subst body.
  rewrite header_parses by done. cbn [act]. unfold HANDSHAKE_HEADER_LENGTH in *.
  rewrite Hb. replace (Z.min (12 + hh_length hh) (12 + len data)) with (12 + len data) by lia.
  assert (take (Z.to_nat (12 + len data - 12)) (drop (Z.to_nat 12) (header_bytes hh ++ data)) = data) as ->.
  { rewrite (drop_exact 12) by done. replace (_ + _ - _) with (len data) by lia.
    pose proof (take_len data []) as Hk. by rewrite app_nil_r in Hk. }
  assert (drop (Z.to_nat (12 + len data)) (header_bytes hh ++ data) = []) as ->.
  { rewrite <- (app_nil_r (header_bytes hh ++ data)). apply drop_exact. rewrite len_app. lia. }
  by destruct n.
Qed.

(** The records in which the fragments of a message travel. *)
Record Carrier := { ca_header : RecordLayerHeader; ca_piece : Z * list byte }.

Definition carrier_wf (cs : list (list byte)) (c : Carrier) : Prop :=
  record_header_wf (ca_header c) /\ rlh_content_type (ca_header c) = CtHandshake /\ ca_piece c ∈ pieces_at 0 cs.

Definition carrier_fragment (h : HandshakeHeader) (c : Carrier) : Fragment :=
  {| fr_record_header := ca_header c; fr_header := fragment_header h (ca_piece c).1 (len (ca_piece c).2); fr_data := (ca_piece c).2 |}.

Definition carrier_bytes (h : HandshakeHeader) (c : Carrier) : list byte :=
  record_header_bytes (ca_header c) ++ header_bytes (fragment_header h (ca_piece c).1 (len (ca_piece c).2)) ++ (ca_piece c).2.

Definition carriers_size (l : list Carrier) : Z :=
  foldr (fun c z => RECORD_LAYER_HEADER_SIZE + HANDSHAKE_HEADER_LENGTH + len (ca_piece c).2 + z) 0 l.

Lemma carrier_header_wf h cs c : header_wf h -> hh_length h = len (mjoin cs) -> carrier_wf cs c ->
  let fh := fragment_header h (ca_piece c).1 (len (ca_piece c).2) in
  header_wf fh /\ fragment_offset fh = (ca_piece c).1 /\ fragment_length fh = len (ca_piece c).2 /\ len (ca_piece c).2 <= hh_length h.
Proof.
  intros (Hl & Hs & _) HL (_ & _ & Hp). apply pieces_at_bounds in Hp. pose proof (len_nonneg (ca_piece c).2).
  unfold fragment_header, header_wf. cbn [hh_length message_sequence fragment_offset fragment_length]. rewrite !Z.mod_small by lia. lia.
Qed.

Lemma push_carriers h cs : header_wf h -> hh_length h = len (mjoin cs) -> forall l b, Forall (carrier_wf cs) l ->
  FragmentBuffer_size b + carriers_size l < FRAGMENT_BUFFER_MAX_SIZE ->
  foldl (fun b c => snd (FragmentBuffer_push b (carrier_bytes h c))) b l =
  {| fb_cache := foldl (fun m c => buffer_fragment (carrier_fragment h c) m) (fb_cache b) l;
     current_message_sequence_number := current_message_sequence_number b |}.
Proof.
  intros Hh HL l. induction l as [|c l IH]; intros b Hw Hs; [by destruct b|].
  apply Forall_cons in Hw as [Hc Hw]. destruct (carrier_header_wf h cs c Hh HL Hc) as (Hfw & _ & _ & Hle). destruct Hc as (Hr & Ht & _).
  cbn [carriers_size foldr] in Hs. fold (carriers_size l) in Hs. cbn [foldl].
  assert (0 <= carriers_size l).
  { clear. induction l as [|c l IH]; [done|]. cbn [carriers_size foldr]. fold (carriers_size l).
    pose proof (len_nonneg (ca_piece c).2). unfold RECORD_LAYER_HEADER_SIZE, HANDSHAKE_HEADER_LENGTH. lia. }
  unfold carrier_bytes at 2. rewrite push_fragment by (done || lia). cbn [snd]. rewrite IH; [done|done|].
  unfold FragmentBuffer_size. cbn [fb_cache]. fold (cache_size (buffer_fragment (carrier_fragment h c) (fb_cache b))).
  unfold carrier_fragment in *. rewrite buffer_fragment_size. cbn [fr_data]. unfold FragmentBuffer_size in Hs. fold (cache_size (fb_cache b)) in Hs.
  unfold RECORD_LAYER_HEADER_SIZE, HANDSHAKE_HEADER_LENGTH in *. lia.
Qed.

(** A record past the limit is refused and leaves the buffer as it was. *)
Lemma push_refused b buf : FRAGMENT_BUFFER_MAX_SIZE <= FragmentBuffer_size b + len buf ->
  FragmentBuffer_push b buf = (Err (ErrFragmentBufferOverflow (FragmentBuffer_size b + len buf) FRAGMENT_BUFFER_MAX_SIZE), b).
Proof. intros H. unfold FragmentBuffer_push. by rewrite decide_True by lia. Qed.

(** Whatever the limit refuses, what is buffered are some of the records. *)
Lemma push_some_carriers h cs : header_wf h -> hh_length h = len (mjoin cs) -> forall l b, Forall (carrier_wf cs) l ->
  exists kept, Forall (carrier_wf cs) kept /\
  foldl (fun b c => snd (FragmentBuffer_push b (carrier_bytes h c))) b l =
  {| fb_cache := foldl (fun m c => buffer_fragment (carrier_fragment h c) m) (fb_cache b) kept;
     current_message_sequence_number := current_message_sequence_number b |}.
Proof.
  intros Hh HL l. induction l as [|c l IH]; intros b Hw; [exists []; by destruct b|].
  apply Forall_cons in Hw as [Hc Hw]. cbn [foldl].
  destruct (decide (FRAGMENT_BUFFER_MAX_SIZE <= FragmentBuffer_size b + len (carrier_bytes h c))) as [Hd|Hd].
  - rewrite push_refused by done. by apply IH.
  - destruct (carrier_header_wf h cs c Hh HL Hc) as (Hfw & _ & _ & Hle). pose proof Hc as (Hr & Ht & _).
    unfold carrier_bytes in Hd |- *. rewrite !len_app, record_header_length, header_length in Hd.
    rewrite push_fragment by (done || unfold RECORD_LAYER_HEADER_SIZE, HANDSHAKE_HEADER_LENGTH in *; cbn [fragment_header hh_length]; lia). cbn [snd].
    destruct (IH {| fb_cache := buffer_fragment (carrier_fragment h c) (fb_cache b);
                    current_message_sequence_number := current_message_sequence_number b |} Hw) as (kept & Hk & E).
    exists (c :: kept). split; [by constructor|]. exact E.
Qed.

Lemma buffered_carriers h l : forall m, foldl (fun m c => buffer_fragment (carrier_fragment h c) m) m l =
  if decide (l = []) then m else <[message_sequence h := default [] (m !! message_sequence h) ++ (carrier_fragment h <$> l)]> m.
Proof.
  induction l as [|c l IH]; intros m; [done|]. rewrite (decide_False (P := c :: l = [])) by done. cbn [foldl]. rewrite IH.
  unfold buffer_fragment. cbn [carrier_fragment fr_header fragment_header message_sequence]. case_decide as Hl; [by subst l|].
  rewrite lookup_insert_eq, insert_insert_eq. cbn [default from_option id fmap list_fmap]. by rewrite <- app_assoc.
Qed.

(** How a message is cut: into pieces that are not empty, or a single empty one. *)
Lemma split_loop_spec n : (0 < n)%nat -> forall fuel bs, (length bs <= fuel)%nat ->
  mjoin (split_loop fuel bs n) = bs /\ Forall (fun c => c <> []) (split_loop fuel bs n) /\ Forall (fun c => length c <= n)%nat (split_loop fuel bs n).
Proof.
  intros Hn. induction fuel as [|fuel IH]; intros bs Hl; [by destruct bs; [|cbn in Hl; lia]|]. cbn [split_loop].
  destruct bs as [|b bs']; [done|]. set (bs := b :: bs') in *.
  destruct (IH (drop n bs)) as (Hj & Hne & Hle); [rewrite length_drop; cbn in *; lia|]. split_and!.
  - change (mjoin (?x :: ?y)) with (x ++ mjoin y). rewrite Hj. apply take_drop.
  - constructor; [|done]. destruct n; [lia|]. done.
  - constructor; [|done]. rewrite length_take. lia.
Qed.

Definition message_pieces (mtu : Z) (body : list byte) : list (list byte) :=
  let ps := split_loop (length body) body (Z.to_nat mtu) in if decide (ps = []) then [[]] else ps.

Lemma message_pieces_spec mtu body : 0 < mtu ->
  mjoin (message_pieces mtu body) = body /\ (Forall (fun c => c <> []) (message_pieces mtu body) \/ message_pieces mtu body = [[]]) /\
  Forall (fun c => len c <= mtu) (message_pieces mtu body) /\ message_pieces mtu body <> [].
Proof.
  intros Hm. destruct (split_loop_spec (Z.to_nat mtu) ltac:(lia) (length body) body ltac:(done)) as (Hj & Hne & Hle).
  unfold message_pieces. case_decide as Hd.
  - rewrite Hd in Hj. split_and!; [done|by right| |done]. constructor; [rewrite len_nil; lia|constructor].
  - split_and!; [done|by left| |done]. eapply Forall_impl; [exact Hle|]. unfold len. intros. lia.
Qed.

Lemma fragment_loop_eq h cs : forall o, header_wf h -> 0 <= o -> o + len (mjoin cs) <= hh_length h ->
  fragment_loop h cs o = act ((fun p => header_bytes (fragment_header h p.1 (len p.2)) ++ p.2) <$> pieces_at o cs).
Proof.
  induction cs as [|c cs IH]; intros o Hh Ho Hl; [done|]. change (mjoin (c :: cs)) with (c ++ mjoin cs) in Hl. rewrite len_app in Hl.
  pose proof (len_nonneg c). pose proof (len_nonneg (mjoin cs)). cbn [fragment_loop pieces_at].
  rewrite header_marshal.
  2: { destruct Hh as (? & ? & _). unfold fragment_header, header_wf. cbn [hh_length message_sequence fragment_offset fragment_length]. rewrite !Z.mod_small by lia. lia. }
  cbn [act_bind act]. rewrite IH by (done || lia). done.
Qed.

(** Once the fragments of the next message are buffered, [pop] yields it. *)
Lemma pop_carriers hd cs b l : header_wf hd -> (Forall (fun c => c <> []) cs \/ cs = [[]]) -> cs <> [] -> hh_length hd = len (mjoin cs) ->
  Forall (carrier_wf cs) l -> (forall p, p ∈ pieces_at 0 cs -> exists c, c ∈ l /\ ca_piece c = p) ->
  current_message_sequence_number b = message_sequence hd -> fb_cache b !! message_sequence hd = None ->
  exists ep, FragmentBuffer_pop {| fb_cache := foldl (fun m c => buffer_fragment (carrier_fragment hd c) m) (fb_cache b) l;
      current_message_sequence_number := current_message_sequence_number b |} =
    (act (header_bytes (whole hd) ++ mjoin cs, ep),
     {| fb_cache := fb_cache b; current_message_sequence_number := (message_sequence hd + 1) mod 65536 |}).
Proof.
  intros Hh Hcs Hne HLc Hw Hcov Hseq Hfree. rewrite buffered_carriers.
  assert (l <> []) as Hl.
  { destruct cs as [|c cs']; [done|]. destruct (Hcov (0, c)) as (x & Hx & _); [left|]. by intros ->; apply not_elem_of_nil in Hx. }
  rewrite decide_False by done. rewrite Hfree. cbn [default from_option id app].
  unfold FragmentBuffer_pop. cbn [fb_cache current_message_sequence_number]. rewrite Hseq, lookup_insert_eq.
  assert (Forall (carries (hh_length hd) cs) (carrier_fragment hd <$> l)) as Hcar.
  { apply Forall_fmap. eapply Forall_impl; [exact Hw|]. intros c Hc. pose proof (carrier_header_wf hd cs c Hh HLc Hc) as (_ & E1 & E2 & _).
    destruct Hc as (_ & _ & Hp). by exists (ca_piece c). }
  pose proof (append_complete (hh_length hd) cs (carrier_fragment hd <$> l) Hcs HLc Hcar) as Happ.
  assert (append_message (S (length (carrier_fragment hd <$> l))) 0 (carrier_fragment hd <$> l) [] = (true, mjoin cs)) as ->.
  { rewrite <- (append_message_fuel _ (S (length (carrier_fragment hd <$> l)) + length cs)).
    - refine (Happ _ cs [] _ Hne eq_refl _); [|lia].
      intros p Hp. destruct (Hcov p Hp) as (c & Hc & <-). exists (carrier_fragment hd c). split; [by apply list_elem_of_fmap_2|].
      rewrite Forall_forall in Hw. apply (carrier_header_wf hd cs c Hh HLc), Hw, Hc.
    - eapply Forall_impl; [exact Hcar|]. intros f (p & _ & _ & -> & _). apply len_nonneg.
    - lia. }
  destruct l as [|c l]; [done|]. cbn [fmap list_fmap]. cbn [carrier_fragment fr_header].
  change (whole (fragment_header hd _ _)) with (whole hd).
  rewrite header_marshal by (destruct Hh as (? & ? & _); unfold whole, header_wf; cbn; lia).
  cbn [act]. eexists. by rewrite delete_insert_id.
Qed.

(** C7: A handshake message is fragmented to the transmission unit without
    failing, and the receiver gets it back.  The buffer may already hold
    fragments of other messages; the records carrying the fragments arrive in
    any order, repeated, under any epochs and sequence numbers.  As long as each
    fragment arrives at least once before the bytes received and those already
    buffered reach the two million the buffer takes, [pop] returns bytes that
    unmarshal to the message with a header of one fragment, and the buffer keeps
    the other messages and moves on to the next; the repetitions that follow
    ([late]), of which those that reach the limit are refused, do not matter. *)
Theorem handshake_reassembled h mtu : Handshake_wf h -> hh_length (handshake_header h) = HandshakeMessage_size (handshake_message h) -> 0 < mtu ->
  exists body, HandshakeMessage_marshal (handshake_message h) = act body /\
    fragment_handshake mtu h =
      act ((fun p => header_bytes (fragment_header (handshake_header h) p.1 (len p.2)) ++ p.2) <$> pieces_at 0 (message_pieces mtu body)) /\
    forall b l late, Forall (carrier_wf (message_pieces mtu body)) (l ++ late) ->
      (forall p, p ∈ pieces_at 0 (message_pieces mtu body) -> exists c, c ∈ l /\ ca_piece c = p) ->
      current_message_sequence_number b = message_sequence (handshake_header h) ->
      fb_cache b !! message_sequence (handshake_header h) = None ->
      FragmentBuffer_size b + carriers_size l < FRAGMENT_BUFFER_MAX_SIZE ->
      exists out ep, FragmentBuffer_pop (foldl (fun b c => snd (FragmentBuffer_push b (carrier_bytes (handshake_header h) c))) b (l ++ late)) =
        (act (out, ep), {| fb_cache := fb_cache b; current_message_sequence_number := (message_sequence (handshake_header h) + 1) mod 65536 |}) /\
        Handshake_unmarshal out = act ({| handshake_header := whole (handshake_header h); handshake_message := handshake_message h |},
          message_rest (handshake_message h)).
Proof.
  destruct h as [hd m]. intros (Hh & Ht & Hm) HL Hmtu. cbn [handshake_header handshake_message] in *.
  destruct (message_encodes m Hm) as (body & Eb & Hlen & _). exists body. split; [done|].
  destruct (message_pieces_spec mtu body Hmtu) as (Hj & Hcs & _ & Hne). set (cs := message_pieces mtu body) in *.
  assert (hh_length hd = len (mjoin cs)) as HLc by (rewrite Hj; lia). split.
  - unfold fragment_handshake. cbn [handshake_header handshake_message]. rewrite Eb. cbn [act_bind act].
    unfold split_bytes. rewrite decide_False by lia. cbn [act_bind act]. fold (message_pieces mtu body). fold cs.
    apply fragment_loop_eq; [done|lia|lia].
  - intros b l0 late [Hw0 Hlate]%Forall_app Hcov0 Hseq Hfree Hs.
    rewrite foldl_app, (push_carriers hd cs Hh HLc l0 b Hw0 Hs).
    destruct (push_some_carriers hd cs Hh HLc late
      {| fb_cache := foldl (fun m c => buffer_fragment (carrier_fragment hd c) m) (fb_cache b) l0;
         current_message_sequence_number := current_message_sequence_number b |} Hlate) as (kept & Hkept & ->).
    cbn [fb_cache current_message_sequence_number]. rewrite <- foldl_app.
    destruct (pop_carriers hd cs b (l0 ++ kept)) as (ep & ->); [done..|by apply Forall_app| |done|done|].
    { intros p Hp. destruct (Hcov0 p Hp) as (c & Hc & <-). exists c. split; [|done]. apply elem_of_app. by left. }
    eexists _, _. split; [done|].
    assert (header_wf (whole hd)) as Hwh by (destruct Hh as (? & ? & _); unfold whole, header_wf; cbn; lia).
    destruct (Handshake_encodes {| handshake_header := whole hd; handshake_message := m |}) as (body' & E1 & _ & _ & E2).
    { by split_and!. }
    cbn [handshake_header handshake_message] in E1, E2. rewrite Eb in E1. injection E1 as <-. by rewrite Hj.
Qed.

(** The limit is on data only: header-only fragments are free. *)

Definition hollow_header : HandshakeHeader :=
  {| handshake_type := Finished; hh_length := 100; message_sequence := 1; fragment_offset := 0; fragment_length := 0 |}.
Definition hollow_record : RecordLayerHeader :=
  {| rlh_content_type := CtHandshake; protocol_version := PROTOCOL_VERSION1_2; epoch := 0; sequence_number := 0; content_len := 12 |}.
Definition hollow_packet : list byte := record_header_bytes hollow_record ++ header_bytes hollow_header ++ [].

Lemma hollow_push b : FragmentBuffer_size b = 0 ->
  snd (FragmentBuffer_push b hollow_packet) =
  {| fb_cache := buffer_fragment {| fr_record_header := hollow_record; fr_header := hollow_header; fr_data := [] |} (fb_cache b);
     current_message_sequence_number := current_message_sequence_number b |}.
Proof.
  intros Hb. unfold hollow_packet. rewrite push_fragment; [done| |done| | |].
  - split; [by right|]. unfold MAX_SEQUENCE_NUMBER. cbn [hollow_record epoch sequence_number content_len]. lia.
  - unfold header_wf. cbn [hollow_header hh_length message_sequence fragment_offset fragment_length]. lia.
  - change (0 <= 100). lia.
  - rewrite Hb. done.
Qed.

(** The limit of two million bytes does not bound the memory of the buffer:
    [n] records that carry the header of a fragment and no data are all kept,
    and the size the limit is compared with stays zero. *)
Theorem hollow_fragments_unbounded n : (0 < n)%nat ->
  let b := foldl (fun b p => snd (FragmentBuffer_push b p)) FragmentBuffer_new (replicate n hollow_packet) in
  FragmentBuffer_size b = 0 /\ length <$> fb_cache b !! 1 = Some n.
Proof.
  assert (forall n b, FragmentBuffer_size b = 0 ->
    let b' := foldl (fun b p => snd (FragmentBuffer_push b p)) b (replicate n hollow_packet) in
    FragmentBuffer_size b' = 0 /\ length (default [] (fb_cache b' !! 1)) = Nat.add (length (default [] (fb_cache b !! 1))) n /\
    ((0 < n)%nat -> is_Some (fb_cache b' !! 1))) as H.
  { clear n. induction n as [|n IH]; intros b Hb; cbv zeta; cbn [replicate foldl]; [split_and!; [done|lia|lia]|].
    rewrite hollow_push by done. set (b1 := {| fb_cache := _; current_message_sequence_number := _ |}).
    assert (FragmentBuffer_size b1 = 0) as Hb1.
    { unfold FragmentBuffer_size, b1. cbn [fb_cache]. fold (cache_size (buffer_fragment {| fr_record_header := hollow_record; fr_header := hollow_header; fr_data := [] |} (fb_cache b))).
      rewrite buffer_fragment_size. cbn [fr_data]. rewrite len_nil. unfold FragmentBuffer_size in Hb. fold (cache_size (fb_cache b)) in Hb. lia. }
    destruct (IH b1 Hb1) as (E1 & E2 & E3).
    assert (fb_cache b1 !! 1 = Some (default [] (fb_cache b !! 1) ++ [{| fr_record_header := hollow_record; fr_header := hollow_header; fr_data := [] |}])) as Hl
      by apply lookup_insert_eq.
    split_and!; [done| |].
    - rewrite E2, Hl. cbn [default from_option id]. rewrite length_app. cbn [length]. lia.
    - intros _. destruct n; [cbn [replicate foldl]; rewrite Hl; eauto|apply E3; lia]. }
  intros Hn. destruct (H n FragmentBuffer_new) as (E1 & E2 & [l El]%(fun H => H Hn)); [by unfold FragmentBuffer_size; cbn [fb_cache FragmentBuffer_new]; rewrite msum_empty|].
  split; [done|]. rewrite El in E2 |- *. cbn in E2 |- *. by rewrite E2.
Qed.

(** * Datagrams *)

Lemma mjoin_nil_inv (g : list (list byte)) : Forall (fun p => p <> []) g -> mjoin g = [] -> g = [].
Proof. destruct g as [|p g]; [done|]. intros [Hp _]%Forall_cons. change (mjoin (p :: g)) with (p ++ mjoin g). by intros [-> _]%app_nil. Qed.

Lemma compact_groups mtu ps : forall g out, Forall (fun p => p <> []) (g ++ ps) -> g ++ ps <> [] ->
  len (mjoin g) < mtu \/ (length g <= 1)%nat ->
  exists gs, compact_loop ps mtu (mjoin g) out = out ++ (mjoin <$> gs) /\ mjoin gs = g ++ ps /\ Forall (fun g => g <> []) gs /\
    Forall (fun g => len (mjoin g) < mtu \/ (length g <= 1)%nat) gs.
Proof.
  induction ps as [|p ps IH]; intros g out Hw Hne Hg; cbn [compact_loop].
  - exists [g]. cbn [fmap list_fmap]. change (mjoin [g]) with (g ++ []). rewrite !app_nil_r in *. split_and!; [done..| |]; by apply Forall_singleton.
  - pose proof Hw as [Hwg [Hp Hps]%Forall_cons]%Forall_app. case_decide as Hd.
    + destruct (IH [p] (out ++ [mjoin g])) as (gs & E & Hj & Hn & Hb); [by constructor|done|by right|].
      change (mjoin [p]) with (p ++ []) in E. rewrite app_nil_r in E. exists (g :: gs). split_and!.
      * rewrite E, <- app_assoc. done.
      * change (mjoin (g :: gs)) with (g ++ mjoin gs). by rewrite Hj.
      * constructor; [by intros ->; destruct Hd|done].
      * by constructor.
    + destruct (IH (g ++ [p]) out) as (gs & E & Hj & Hn & Hb); [by rewrite <- app_assoc|by rewrite <- app_assoc; destruct g| |].
      * rewrite join_app, len_app. change (mjoin [p]) with (p ++ []). rewrite app_nil_r, length_app. cbn [length].
        destruct (decide (mjoin g = [])) as [->%mjoin_nil_inv|E0]; [right; cbn; lia|done|left].
        destruct (decide (len (mjoin g) + len p >= mtu)); [by destruct Hd|lia].
      * rewrite join_app in E. change (mjoin [p]) with (p ++ []) in E. rewrite app_nil_r in E. rewrite <- app_assoc in Hj. by exists gs.
Qed.

(** Packing records into datagrams loses nothing and keeps their order: the
    datagrams are the records, concatenated in consecutive groups, each datagram
    is shorter than the transmission unit unless it is one record, and the
    receiver's [unpack_datagram] of each gives its records back. *)
Theorem datagrams_unpack ps mtu : ps <> [] -> Forall framed ps -> Forall (fun p => RECORD_LAYER_HEADER_SIZE < len p) ps ->
  exists groups, compact_raw_packets ps mtu = mjoin <$> groups /\ mjoin groups = ps /\
    Forall (fun g => unpack_datagram (mjoin g) = Ok g) groups /\
    Forall (fun g => len (mjoin g) < mtu \/ length g = 1%nat) groups.
Proof.
  intros Hne Hf Hl. assert (Forall (fun p => p <> []) ps) as Hp.
  { eapply Forall_impl; [exact Hl|]. intros p Hlp ->. rewrite len_nil in Hlp. done. }
  destruct (compact_groups mtu ps [] [] Hp Hne) as (gs & E & Hj & Hn & Hb); [right; cbn; lia|].
  exists gs. split_and!; [done..| |].
  - rewrite Forall_forall. intros g Hg. apply unpack_datagram_spec. split; [done|].
    assert (forall p, p ∈ g -> p ∈ ps) as Hsub. { intros p Hpg. change ([] ++ ps) with ps in Hj. rewrite <- Hj. apply list_elem_of_join. eauto. }
    rewrite Forall_forall in Hf, Hl. split; [apply Forall_forall; intros; by apply Hf, Hsub|].
    unfold ends_full. destruct (last g) as [p|] eqn:El; [|done]. apply Hl, Hsub. by apply last_Some_elem_of.
  - rewrite Forall_forall in Hn, Hb |- *. intros g Hg. specialize (Hn g Hg). destruct (Hb g Hg) as [|]; [by left|right].
    destruct g as [|? [|]]; [done|done|cbn in *; lia].
Qed.

(** * The receiving side *)

Section receiving.
Context `{R : ReplayDetector}.

(** What the reassembly of handshake messages leaves alone. *)
Definition same_frame (a b : ConnReaderContext) : Prop :=
  replay_detector a = replay_detector b /\ decrypted a = decrypted b /\ encrypted_packets a = encrypted_packets b /\
  ctx_cipher_suite a = ctx_cipher_suite b /\ remote_epoch a = remote_epoch b /\
  replay_protection_window a = replay_protection_window b.

Lemma drain_frame fuel : forall ctx ctx', drain_fragments fuel ctx = Ret ctx' -> same_frame ctx ctx'.
Proof.
  induction fuel as [|fuel IH]; intros ctx ctx'; cbn [drain_fragments]; [by intros [= <-]|].
  destruct (FragmentBuffer_pop _) as [[[[out ep]|e]|] b]; [|by intros [= <-]|done].
  destruct (Handshake_unmarshal out) as [[[rh r]|]|]; [| |done]; by intros ?%IH.
Qed.

(** The three ways a record in clear can end, for the fields that matter here. *)
Lemma handle_record_cases h ep pkt enqueue ctx o ctx' : handle_record h ep pkt enqueue ctx = Ret (o, ctx') ->
  (replay_detector ctx' = replay_detector ctx \/ replay_detector ctx' = replay_detector (accept_record (epoch h) ctx)) /\
  (decrypted ctx' = decrypted ctx \/
   exists data r rest, epoch h <> 0 /\ RecordLayer_unmarshal pkt = act (r, rest) /\ content r = CApplicationData data /\
     decrypted ctx' = decrypted ctx ++ [data] /\ replay_detector ctx' = replay_detector (accept_record (epoch h) ctx)).
Proof.
  unfold handle_record. destruct (FragmentBuffer_push _ _) as [[[]|e] b].
  - destruct (drain_fragments _ _) as [c|] eqn:E; [|done]. cbn [run_bind]. intros [= _ <-].
    apply drain_frame in E as (E1 & E2 & _). rewrite <- E1, <- E2. split; [by right|by left].
  - destruct (RecordLayer_unmarshal pkt) as [[[r rest]|e]|] eqn:Er; [|by intros [= _ <-]; split; left|done].
    destruct (content r) as [|a|hs|data] eqn:Ec.
    + destruct (invalid_cipher_suite _); [destruct enqueue; intros [= _ <-]; by split; left|].
      case_decide; intros [= _ <-]; split; by (left + right).
    + intros [= _ <-]. split; [by right|by left].
    + intros [= _ <-]. by split; left.
    + case_decide; intros [= _ <-]; [by split; left|]. split; [by right|]. right. by exists data, r, rest.
  - intros [= _ <-]. by split; left.
Qed.

(** C9: Application data reaches the reader only through the cipher: a packet
    that adds to the delivered data has a non-zero epoch, a cipher suite is
    chosen and initialised and decrypts it, and what is added is the payload of
    the application data record in the plaintext. *)
Theorem delivery_decrypted ctx pkt enqueue o ctx' : handle_incoming_packet ctx pkt enqueue = Ret (o, ctx') ->
  decrypted ctx' <> decrypted ctx ->
  exists h rest cs plain data r rest', RecordLayerHeader_unmarshal pkt = act (h, rest) /\ epoch h <> 0 /\ epoch h <= remote_epoch ctx /\
    ctx_cipher_suite ctx = Some cs /\ cs_is_initialized cs = true /\ cs_decrypt cs pkt = Ok plain /\
    RecordLayer_unmarshal plain = act (r, rest') /\ content r = CApplicationData data /\ decrypted ctx' = decrypted ctx ++ [data].
Proof.
  unfold handle_incoming_packet. destruct (RecordLayerHeader_unmarshal pkt) as [[[h rest]|]|]; [|by intros [= _ <-]|done].
  case_decide as He; [case_decide; [by intros [= _ <-]|destruct enqueue; by intros [= _ <-]]|].
  destruct (detector_check _ _) as [[] d]; cbn [negb]; [|by intros [= _ <-]].
  case_decide as H0.
  - destruct (invalid_cipher_suite _) eqn:Ei; [destruct enqueue; by intros [= _ <-]|].
    unfold invalid_cipher_suite in Ei. change (ctx_cipher_suite (set_detector _ _ _)) with (ctx_cipher_suite ctx) in *.
    destruct (ctx_cipher_suite ctx) as [cs|]; [|done]. destruct (cs_decrypt cs pkt) as [plain|e] eqn:Ed.
    + intros [_ [Hd|(data & r & rest' & _ & Er & Ec & Hd & _)]]%handle_record_cases Hne; [done|].
      exists h, rest, cs, plain, data, r, rest'. apply negb_false_iff in Ei. split_and!; (done || lia).
    + destruct (cs_is_psk cs); by intros [= _ <-].
  - by intros [_ [Hd|(? & ? & ? & ? & _)]]%handle_record_cases Hne.
Qed.

(** ** Replay *)

Context `{!ReplayLaws R}.

Definition seen (ctx : ConnReaderContext) (ep s : Z) : Prop :=
  exists d, replay_detector ctx !! Z.to_nat ep = Some d /\ replay_seen d s.

Lemma seen_eq a b ep s : replay_detector a = replay_detector b -> seen a ep s -> seen b ep s.
Proof. unfold seen. by intros ->. Qed.

Lemma seen_grow e ctx ep s : seen ctx ep s -> seen (grow_detectors e ctx) ep s.
Proof. intros (d & Hd & Hs). exists d. split; [|done]. by apply lookup_app_l_Some. Qed.

Lemma seen_set e d ctx ep s : (Z.to_nat e = Z.to_nat ep -> replay_seen d s) -> seen ctx ep s -> seen (set_detector e d ctx) ep s.
Proof.
  intros Hd (d0 & H0 & Hs). unfold seen, set_detector. change (replay_detector (upd_replay_detector ?g ctx)) with (g (replay_detector ctx)).
  destruct (decide (Z.to_nat e = Z.to_nat ep)) as [E|E].
  - exists d. split; [|by apply Hd]. rewrite E. apply list_lookup_insert_eq. by apply lookup_lt_Some in H0.
  - exists d0. split; [|done]. by rewrite list_lookup_insert_ne.
Qed.

Lemma detector_at_seen ctx e ep s : Z.to_nat e = Z.to_nat ep -> seen ctx ep s -> replay_seen (detector_at ctx e) s.
Proof. intros E (d & Hd & Hs). unfold detector_at. rewrite E, Hd. done. Qed.

Lemma seen_accept e ctx ep s : seen ctx ep s -> seen (accept_record e ctx) ep s.
Proof. intros H. apply seen_set; [|done]. intros E. by apply replay_accept_keeps, detector_at_seen with ep. Qed.

Lemma seen_checked e q ctx ep s : seen ctx ep s -> seen (set_detector e (snd (detector_check (detector_at ctx e) q)) ctx) ep s.
Proof. intros H. apply seen_set; [|done]. intros E. by apply replay_check_keeps, detector_at_seen with ep. Qed.

(** The context after the replay check of a record of epoch [epoch h]. *)
Definition checked (h : RecordLayerHeader) (ctx : ConnReaderContext) : ConnReaderContext :=
  let ctx := grow_detectors (epoch h) ctx in
  set_detector (epoch h) (snd (detector_check (detector_at ctx (epoch h)) (sequence_number h))) ctx.

(** Where the detectors end up: untouched, checked, or checked and accepted. *)
Lemma incoming_detectors ctx pkt enqueue o ctx' : handle_incoming_packet ctx pkt enqueue = Ret (o, ctx') ->
  replay_detector ctx' = replay_detector ctx \/
  exists h rest, RecordLayerHeader_unmarshal pkt = act (h, rest) /\
    (replay_detector ctx' = replay_detector (checked h ctx) \/ replay_detector ctx' = replay_detector (accept_record (epoch h) (checked h ctx))).
Proof.
  unfold handle_incoming_packet. destruct (RecordLayerHeader_unmarshal pkt) as [[[h rest]|]|]; [|by intros [= _ <-]; left|done].
  case_decide as He; [case_decide; [intros [= _ <-]; by left|destruct enqueue; intros [= _ <-]; by left]|].
  intros Hr. right. exists h, rest. split; [done|]. revert Hr. unfold checked.
  destruct (detector_check _ _) as [ok d]; cbn [snd]. destruct ok; cbn [negb]; [|intros [= _ <-]; by left].
  case_decide as H0; [|by intros [? _]%handle_record_cases].
  destruct (invalid_cipher_suite _); [destruct enqueue; intros [= _ <-]; by left|].
  change (ctx_cipher_suite (set_detector _ _ _)) with (ctx_cipher_suite ctx).
  destruct (ctx_cipher_suite ctx) as [cs|]; [|by intros [? _]%handle_record_cases].
  destruct (cs_decrypt cs pkt); [by intros [? _]%handle_record_cases|]. destruct (cs_is_psk cs); intros [= _ <-]; by left.
Qed.

Lemma seen_incoming ctx pkt enqueue o ctx' ep s : handle_incoming_packet ctx pkt enqueue = Ret (o, ctx') -> seen ctx ep s -> seen ctx' ep s.
Proof.
  intros H Hs. apply incoming_detectors in H as [E|(h & rest & _ & [E|E])]; symmetry in E; eapply seen_eq; [exact E|done|exact E| |exact E|].
  - by apply seen_checked, seen_grow.
  - by apply seen_accept, seen_checked, seen_grow.
Qed.

Lemma grown_lookup e ctx : exists d, replay_detector (grow_detectors e ctx) !! Z.to_nat e = Some d.
Proof.
  apply lookup_lt_is_Some_2. unfold grow_detectors. change (replay_detector (upd_replay_detector ?g ctx)) with (g (replay_detector ctx)).
  cbv beta. rewrite length_app, length_replicate. lia.
Qed.

(** A record whose number passed the check and was accepted is seen. *)
Lemma accepted_seen h ctx d : detector_check (detector_at (grow_detectors (epoch h) ctx) (epoch h)) (sequence_number h) = (true, d) ->
  seen (accept_record (epoch h) (checked h ctx)) (epoch h) (sequence_number h).
Proof.
  intros Hc. pose proof (replay_accepted _ _ _ Hc) as Hs. destruct (grown_lookup (epoch h) ctx) as [d0 H0]. apply lookup_lt_Some in H0.
  unfold checked. rewrite Hc. cbn [snd]. exists (detector_accept d). split; [|done].
  unfold accept_record, set_detector. set (g := grow_detectors (epoch h) ctx) in *.
  change (replay_detector (upd_replay_detector ?f ?c)) with (f (replay_detector c)). cbv beta.
  change (replay_detector (upd_replay_detector ?f ?c)) with (f (replay_detector c)). cbv beta.
  assert (detector_at (upd_replay_detector (fun l => <[Z.to_nat (epoch h) := d]> l) g) (epoch h) = d) as ->.
  { unfold detector_at. change (replay_detector (upd_replay_detector ?f ?c)) with (f (replay_detector c)). cbv beta. by rewrite list_lookup_insert_eq. }
  apply list_lookup_insert_eq. by rewrite length_insert.
Qed.

Lemma delivered_seen ctx pkt enqueue o ctx' h rest : handle_incoming_packet ctx pkt enqueue = Ret (o, ctx') ->
  RecordLayerHeader_unmarshal pkt = act (h, rest) -> decrypted ctx' <> decrypted ctx -> seen ctx' (epoch h) (sequence_number h).
Proof.
  unfold handle_incoming_packet. intros Hi Hh Hne. rewrite Hh in Hi. cbn [act] in Hi.
  case_decide as He; [case_decide; [by injection Hi as _ <-|destruct enqueue; by injection Hi as _ <-]|].
  pose proof (accepted_seen h ctx) as Hacc. unfold checked in Hacc.
  destruct (detector_check _ _) as [ok d]; cbn [snd] in Hacc. destruct ok; cbn [negb] in Hi; [|by injection Hi as _ <-].
  specialize (Hacc d eq_refl).
  assert (forall plain, handle_record h (remote_epoch ctx) plain enqueue (set_detector (epoch h) d (grow_detectors (epoch h) ctx)) = Ret (o, ctx') ->
    seen ctx' (epoch h) (sequence_number h)) as Hrec.
  { intros plain [_ [Hd|(data & r & rest' & _ & _ & _ & _ & E)]]%handle_record_cases; [done|]. symmetry in E. by eapply seen_eq. }
  change (remote_epoch (grow_detectors _ _)) with (remote_epoch ctx) in Hi.
  case_decide as H0; [|by eapply Hrec].
  destruct (invalid_cipher_suite _); [destruct enqueue; by injection Hi as _ <-|].
  change (ctx_cipher_suite (set_detector _ _ _)) with (ctx_cipher_suite ctx) in Hi.
  destruct (ctx_cipher_suite ctx) as [cs|]; [|by eapply Hrec].
  destruct (cs_decrypt cs pkt); [by eapply Hrec|]. destruct (cs_is_psk cs); by injection Hi as _ <-.
Qed.

Lemma seen_discarded ctx pkt enqueue o ctx' h rest : handle_incoming_packet ctx pkt enqueue = Ret (o, ctx') ->
  RecordLayerHeader_unmarshal pkt = act (h, rest) -> seen ctx (epoch h) (sequence_number h) ->
  o = silent /\ decrypted ctx' = decrypted ctx /\ ctx_cache ctx' = ctx_cache ctx /\ fragment_buffer ctx' = fragment_buffer ctx /\
  remote_epoch ctx' = remote_epoch ctx.
Proof.
  unfold handle_incoming_packet. intros Hi Hh Hs. rewrite Hh in Hi. cbn [act] in Hi.
  case_decide as He; [case_decide; [by injection Hi as <- <-|destruct enqueue; by injection Hi as <- <-]|].
  apply (seen_grow (epoch h)) in Hs. apply detector_at_seen with (e := epoch h) in Hs; [|done]. apply replay_rejects in Hs.
  destruct (detector_check _ _) as [ok d]. cbn [fst] in Hs. subst ok. cbn [negb] in Hi. by injection Hi as <- <-.
Qed.

(** The life of the context: packets, in the order the reader takes them, and
    what the handshake task changes behind the shared references. *)
Inductive reader_step : ConnReaderContext -> ConnReaderContext -> Prop :=
| step_packet ctx pkt enqueue o ctx' : handle_incoming_packet ctx pkt enqueue = Ret (o, ctx') -> reader_step ctx ctx'
| step_drain ctx : reader_step ctx (upd_encrypted_packets (fun _ => []) ctx)
| step_handshake ctx cs ep cache :
    reader_step ctx (upd_ctx_cipher_suite (fun _ => cs) (upd_remote_epoch (fun _ => ep) (upd_ctx_cache (fun _ => cache) ctx))).

Lemma seen_steps ctx ctx' ep s : rtc reader_step ctx ctx' -> seen ctx ep s -> seen ctx' ep s.
Proof.
  induction 1 as [|a b c Hab _ IH]; [done|]. intros Hs. apply IH. destruct Hab as [a pkt enqueue o b Hp|a|a cs e cache]; [|done..].
  by eapply seen_incoming.
Qed.

(** C6: No replay.  After a record has delivered application data, and whatever
    the reader and the handshake task do afterwards, a packet with the same
    epoch and sequence number, be it the record itself or another, is dropped
    in silence: it delivers nothing, adds no handshake message, buffers no
    fragment and moves no epoch. *)
Theorem no_replay ctx pkt enqueue o ctx1 ctx2 pkt' enqueue' o' ctx3 h rest h' rest' :
  handle_incoming_packet ctx pkt enqueue = Ret (o, ctx1) -> RecordLayerHeader_unmarshal pkt = act (h, rest) ->
  decrypted ctx1 <> decrypted ctx -> rtc reader_step ctx1 ctx2 ->
  RecordLayerHeader_unmarshal pkt' = act (h', rest') -> epoch h' = epoch h -> sequence_number h' = sequence_number h ->
  handle_incoming_packet ctx2 pkt' enqueue' = Ret (o', ctx3) ->
  o' = silent /\ decrypted ctx3 = decrypted ctx2 /\ ctx_cache ctx3 = ctx_cache ctx2 /\ fragment_buffer ctx3 = fragment_buffer ctx2 /\
  remote_epoch ctx3 = remote_epoch ctx2.
Proof.
  intros H1 Hh Hne Hst Hh' He Hs H2. eapply seen_discarded; [done..|]. rewrite He, Hs.
  eapply seen_steps; [exact Hst|]. by eapply delivered_seen.
Qed.

End receiving.

(** ** What an unauthenticated peer can do *)

Section hostile.
Context `{R : ReplayDetector}.

Definition short_header : HandshakeHeader :=
  {| handshake_type := ClientKeyExchange; hh_length := 0; message_sequence := 0; fragment_offset := 0; fragment_length := 0 |}.
Definition short_key_exchange : list byte := record_header_bytes hollow_record ++ header_bytes short_header.

(** C35: One record in clear, a client key exchange with an empty body, panics
    the task that reads the connection, on a client and on a server that has
    just started, for every replay detector that passes the first number. *)
Theorem short_key_exchange_panics is_client window : fst (detector_check (detector_new window MAX_SEQUENCE_NUMBER) 0) = true ->
  handle_incoming_packet (ConnReaderContext_new is_client window) short_key_exchange true = Panic.
Proof.
  intros Hc. unfold handle_incoming_packet.
  change (RecordLayerHeader_unmarshal short_key_exchange) with (act (hollow_record, header_bytes short_header)). cbn [act].
  rewrite decide_False by (cbn; lia). change (sequence_number hollow_record) with 0. change (epoch hollow_record) with 0.
  change (detector_at (grow_detectors 0 (ConnReaderContext_new is_client window)) 0) with (detector_new window MAX_SEQUENCE_NUMBER).
  destruct (detector_check _ 0) as [ok d]. cbn [fst] in Hc. subst ok. cbn [negb]. rewrite decide_False by lia.
  vm_compute. reflexivity.
Qed.

(** Packets of the next epoch are kept without a limit: [n] of them, which
    nothing authenticates, leave [n] entries in the queue. *)
Theorem next_epoch_queue_unbounded le completed tx ctx pkt h rest n sent hs :
  RecordLayerHeader_unmarshal pkt = act (h, rest) -> epoch h = remote_epoch ctx + 1 -> 0 <= remote_epoch ctx < 65535 ->
  handle_packets le completed tx true (replicate n pkt) ctx sent hs =
  Ret (Ok hs, upd_encrypted_packets (fun l => l ++ replicate n pkt) ctx, sent).
Proof.
  intros Hh He Hr. revert ctx hs He Hr. induction n as [|n IH]; intros ctx hs He Hr; cbn [replicate handle_packets].
  - unfold upd_encrypted_packets. rewrite app_nil_r. by destruct ctx.
  - unfold handle_incoming_packet. rewrite Hh. cbn [act]. rewrite decide_True by lia. rewrite Z.mod_small by lia. rewrite decide_False by lia.
    cbn [enqueue_packet run_bind silent]. rewrite orb_false_r, IH by done.
    unfold upd_encrypted_packets. cbn [encrypted_packets ctx_is_client replay_protection_window replay_detector decrypted fragment_buffer ctx_cache ctx_cipher_suite remote_epoch].
    by rewrite <- app_assoc.
Qed.

End hostile.

(** * The handshake cache *)

(** One message per direction and sequence number. *)
Definition cache_unique (c : HandshakeCache) : Prop := NoDup ((fun i => (hc_sequence i, hc_is_client i)) <$> c).

Lemma cache_push_unique c data ep s t cl : cache_unique c -> cache_unique (snd (HandshakeCache_push c data ep s t cl)).
Proof.
  intros Hc. unfold HandshakeCache_push. destruct (existsb _ c) eqn:E; [done|]. cbn [snd]. unfold cache_unique. rewrite fmap_app.
  apply NoDup_app. split_and!; [done| |apply NoDup_singleton]. cbn [fmap list_fmap hc_sequence hc_is_client].
  intros [s' cl'] (i & [= -> ->] & Hi)%list_elem_of_fmap [= <- <-]%list_elem_of_singleton. apply not_true_iff_false in E. apply E. apply existsb_exists.
  exists i. split; [by apply list_elem_of_In|]. by rewrite !bool_decide_true.
Qed.

(** [pull_one] is the matching item with the greatest message sequence. *)
Lemma pull_one_latest cache r : match pull_one cache r with
  | Some c => c ∈ cache /\ rule_matches r c = true /\ forall c', c' ∈ cache -> rule_matches r c' = true -> hc_sequence c' <= hc_sequence c
  | None => forall c', c' ∈ cache -> rule_matches r c' = false
  end.
Proof.
  unfold pull_one. induction cache as [|c cache IH] using rev_ind; [by intros ? ?%not_elem_of_nil|].
  rewrite foldl_app. cbn [foldl]. set (acc := foldl _ None cache) in *. clearbody acc.
  destruct (rule_matches r c) eqn:Em.
  - destruct acc as [x|].
    + destruct IH as (Hx & Hm & Hmax). case_decide as Hlt.
      * split_and!; [apply elem_of_app; right; by apply list_elem_of_singleton|done|].
        intros c' [Hc'|Hc'%list_elem_of_singleton]%elem_of_app Hm'; [specialize (Hmax c' Hc' Hm'); lia|subst c'; lia].
      * split_and!; [apply elem_of_app; by left|done|].
        intros c' [Hc'|Hc'%list_elem_of_singleton]%elem_of_app Hm'; [by apply Hmax|subst c'; lia].
    + split_and!; [apply elem_of_app; right; by apply list_elem_of_singleton|done|].
      intros c' [Hc'|Hc'%list_elem_of_singleton]%elem_of_app Hm'; [rewrite IH in Hm' by done; done|by subst c'].
  - destruct acc as [x|].
    + destruct IH as (Hx & Hm & Hmax). split_and!; [apply elem_of_app; by left|done|].
      intros c' [Hc'|Hc'%list_elem_of_singleton]%elem_of_app Hm'; [by apply Hmax|by subst c'; congruence].
    + intros c' [Hc'|Hc'%list_elem_of_singleton]%elem_of_app; [by apply IH|by subst c'].
Qed.

(** * Witnesses *)

(** A replay detector with an unbounded memory. *)
#[global] Instance set_detector_lib : ReplayDetector := {|
  Detector := gset Z * Z;
  detector_new _ _ := (∅, 0);
  detector_check d s := (bool_decide (s ∉ d.1), (d.1, s));
  detector_accept d := ({[ d.2 ]} ∪ d.1, d.2);
|}.

#[global, refine] Instance set_detector_laws : ReplayLaws set_detector_lib := {| replay_seen d s := s ∈ d.1 |}.
Proof.
  - intros d s d' [= _ <-]. set_solver.
  - intros d s s' H. exact H.
  - intros d s H. cbn. set_solver.
  - intros d s H. cbn. rewrite bool_decide_eq_false. set_solver.
Defined.

Definition finished_message : Handshake :=
  Handshake_new (MFinished {| verify_data := [x01; x02; x03] |}).

Definition finished_record : RecordLayer := RecordLayer_new PROTOCOL_VERSION1_2 1 (CHandshake finished_message).

(** A suite that strips nothing: the plaintext is the packet. *)
Definition null_suite : CipherSuite :=
  {| cs_is_psk := false; cs_is_initialized := true; cs_encrypt _ raw := Ok raw; cs_decrypt raw := Ok raw |}.

Definition data_header : RecordLayerHeader :=
  {| rlh_content_type := CtApplicationData; protocol_version := PROTOCOL_VERSION1_2; epoch := 1; sequence_number := 7; content_len := 2 |}.
Definition data_packet : list byte := record_header_bytes data_header ++ [x2a; x2b].
Definition open_ctx : ConnReaderContext :=
  upd_remote_epoch (fun _ => 1) (upd_ctx_cipher_suite (fun _ => Some null_suite) (ConnReaderContext_new false 64)).
Definition after_data : run (Outcome * ConnReaderContext) := handle_incoming_packet open_ctx data_packet true.

Ltac zdec := repeat split; vm_compute; (reflexivity || discriminate).

Lemma finished_wf : Handshake_wf finished_message.
Proof. split_and!; [|done|done]. zdec. Qed.

Lemma record_roundtrip_witness : exists bs, RecordLayer_marshal finished_record = act bs /\
  len bs = RECORD_LAYER_HEADER_SIZE + Content_size (CHandshake finished_message) /\ RecordLayer_unmarshal bs = act (finished_record, []).
Proof.
  apply (record_roundtrip finished_record). split; [|split; [reflexivity|exact finished_wf]].
  split; [right; reflexivity|]. zdec.
Defined.

Lemma message_panics_witness : message_unmarshal ServerKeyExchange [x03] = Panic.
Proof. apply (message_panics ServerKeyExchange [x03]); [reflexivity|split; [reflexivity|zdec]]. Defined.

Lemma trailing_witness : extensions_unmarshal (write_u16 9 ++ Extension_marshal (ExtRenegotiationInfo {| renegotiated_connection := x00 |}) ++ [x00; x17; x00; x00]) <> Panic /\
  extensions_unmarshal (write_u16 8 ++ Extension_marshal (ExtRenegotiationInfo {| renegotiated_connection := x00 |}) ++ [x00; x17; x00]) = Panic.
Proof.
  split; [by vm_compute|].
  apply (trailing_bytes_panic [ExtRenegotiationInfo {| renegotiated_connection := x00 |}] [x00; x17; x00]).
  - constructor; [split; [vm_compute; discriminate|exact I]|constructor].
  - zdec.
  - vm_compute. discriminate.
Defined.

Definition hollow_fragment : Fragment := {| fr_record_header := hollow_record; fr_header := hollow_header; fr_data := [] |}.

Lemma append_message_witness : append_message 9 0 [hollow_fragment] [] = append_message 2 0 [hollow_fragment] [].
Proof. apply (append_message_fuel [hollow_fragment] 9); [constructor; [zdec|constructor]|cbn; lia]. Defined.

Lemma hollow_witness : length <$> fb_cache (foldl (fun b p => snd (FragmentBuffer_push b p)) FragmentBuffer_new (replicate 3 hollow_packet)) !! 1 = Some 3%nat.
Proof. apply (hollow_fragments_unbounded 3). lia. Defined.

(** Three fragments of a five-byte message, out of order and one repeated. *)
Definition five_message : Handshake := Handshake_new (MFinished {| verify_data := [x01; x02; x03; x04; x05] |}).

Definition five_carriers : list Carrier :=
  (fun p => {| ca_header := hollow_record; ca_piece := p |}) <$> [(4, [x05]); (0, [x01; x02]); (4, [x05]); (2, [x03; x04])].

Lemma reassembled_witness : exists out ep b,
  FragmentBuffer_pop (foldl (fun b c => snd (FragmentBuffer_push b (carrier_bytes (handshake_header five_message) c)))
    {| fb_cache := ∅; current_message_sequence_number := 0 |} five_carriers) = (act (out, ep), b) /\
  Handshake_unmarshal out = act (five_message, []).
Proof.
  destruct (handshake_reassembled five_message 2) as (body & Eb & _ & H).
  - split; [|split; [reflexivity|exact I]]. zdec.
  - reflexivity.
  - lia.
  - injection Eb as <-. destruct (H {| fb_cache := ∅; current_message_sequence_number := 0 |} five_carriers []) as (out & ep & E1 & E2).
    + repeat (constructor; [split_and!; [split; [right; reflexivity|zdec]|reflexivity|cbn; set_solver]|]). constructor.
    + intros p Hp. change (p ∈ [(0, [x01; x02]); (2, [x03; x04]); (4, [x05])]) in Hp.
      exists {| ca_header := hollow_record; ca_piece := p |}. split; [|reflexivity].
      rewrite !elem_of_cons in Hp. destruct Hp as [->|[->|[->|[]%not_elem_of_nil]]]; cbn; rewrite !elem_of_cons; tauto.
    + reflexivity.
    + reflexivity.
    + vm_compute. reflexivity.
    + eexists _, _, _. split; [exact E1|exact E2].
Defined.

Lemma datagrams_witness : exists groups, compact_raw_packets [data_packet; data_packet; data_packet] 40 = mjoin <$> groups /\
  mjoin groups = [data_packet; data_packet; data_packet] /\ Forall (fun g => unpack_datagram (mjoin g) = Ok g) groups /\
  Forall (fun g => len (mjoin g) < 40 \/ length g = 1%nat) groups.
Proof.
  assert (framed data_packet) as Hf by (exists x00, x02; by split_and!).
  apply datagrams_unpack; [done|by repeat constructor|repeat constructor; zdec].
Defined.

Definition run_ctx (r : run (Outcome * ConnReaderContext)) : ConnReaderContext :=
  match r with Ret (_, ctx) => ctx | Panic => open_ctx end.

Lemma delivery_witness : exists data, decrypted (run_ctx after_data) = decrypted open_ctx ++ [data].
Proof.
  destruct (delivery_decrypted open_ctx data_packet true silent (run_ctx after_data)) as (h & rest & cs & plain & data & r & rest' & H).
  - reflexivity.
  - intros H. discriminate (f_equal length H).
  - exists data. apply H.
Defined.

Lemma no_replay_witness : decrypted (run_ctx after_data) = [[x2a; x2b]] /\
  decrypted (run_ctx (handle_incoming_packet (run_ctx after_data) data_packet true)) = [[x2a; x2b]].
Proof.
  split; [reflexivity|].
  refine (proj1 (proj2 (no_replay open_ctx data_packet true silent (run_ctx after_data) (run_ctx after_data) data_packet true silent
    (run_ctx (handle_incoming_packet (run_ctx after_data) data_packet true)) data_header [x2a; x2b] data_header [x2a; x2b] _ _ _ _ _ _ _ _))).
  - reflexivity.
  - reflexivity.
  - intros H. discriminate (f_equal length H).
  - apply rtc_refl.
  - reflexivity.
  - reflexivity.
  - reflexivity.
  - reflexivity.
Defined.

Lemma short_key_exchange_witness : handle_incoming_packet (ConnReaderContext_new false 64) short_key_exchange true = Panic.
Proof. apply short_key_exchange_panics. reflexivity. Defined.

Lemma queue_witness : handle_packets 0 false None true (replicate 1000 data_packet) (ConnReaderContext_new true 64) [] false =
  Ret (Ok false, upd_encrypted_packets (fun l => l ++ replicate 1000 data_packet) (ConnReaderContext_new true 64), []).
Proof. apply (next_epoch_queue_unbounded 0 false None _ data_packet data_header [x2a; x2b]); [reflexivity|reflexivity|zdec]. Defined.
End DtlsConn.
