(* ===== verification/Fragmentation.v ===== *)
(** Fragmentation of large application payloads (crates/api/fragmentation.rs):
    the splitter, the fragment codec and its validation, and the reassembler
    with its memory accounting and its expiry. *)

From S2P Require Import Prelude Text Bytes Common AppMessage.
From Stdlib Require Import Ascii.

#[local] Open Scope Z_scope.

Definition APP_FRAGMENT_SCHEMA_VERSION : Z := 1.
Definition APP_FRAGMENT_PAYLOAD_BYTES : Z := 16 * 1024.
Definition MAX_APP_FRAGMENTS : Z := div_ceil MAX_APP_MESSAGE_BYTES APP_FRAGMENT_PAYLOAD_BYTES.
Definition MAX_FRAGMENT_WIRE_BYTES : Z := 128 * 1024.
Definition MAX_REASSEMBLY_BYTES_PER_PEER : Z := 2 * MAX_APP_MESSAGE_BYTES.
Definition MAX_REASSEMBLY_BYTES_GLOBAL : Z := 8 * MAX_APP_MESSAGE_BYTES.
(** 30 seconds, in nanoseconds. *)
Definition FRAGMENT_EXPIRY : Z := 30 * 1000000000.

Record AppFragment := {
  fr_fragment_schema_version : Z;
  fr_message_schema_version : Z;
  fr_network_id : Z;
  fr_topic : string;
  fr_source_peer_id : string;
  fr_target_peer_id : option string;
  fr_timestamp_ns : Z;
  fr_nonce_hex : string;
  fr_payload_hash_hex : string;
  fr_payload_len : Z;
  fr_index : Z;
  fr_total : Z;
  fr_payload : list byte;
}.

#[global] Instance AppFragment_eq_dec : EqDecision AppFragment.
Proof. solve_decision. Defined.

Definition app_error (topic reason : string) : NetError := AppMessageError topic reason.

(** [slice::chunks(n)] for [n > 0]; the length bounds the number of chunks. *)
Fixpoint chunks_fuel {A} (fuel : nat) (n : nat) (l : list A) : list (list A) :=
  match fuel, l with
  | O, _ | _, [] => []
  | S fuel', _ => take n l :: chunks_fuel fuel' n (drop n l)
  end.

Definition chunks {A} (n : nat) (l : list A) : list (list A) := chunks_fuel (length l) n l.

(** [iter().enumerate()] *)
Definition enumerate {A} (l : list A) : list (Z * A) := imap (fun i x => (Z.of_nat i, x)) l.

Section fragments.
Context `{HX : HexLib} `{BL : Blake3Lib} `{PL : PeerIdLib}
  `{SJ : SerdeJson AppMessage} `{SF : SerdeJson AppFragment}.

Definition make_fragment (m : AppMessage) (payload_hash_hex : string) (total index : Z)
    (payload : list byte) : AppFragment := {|
  fr_fragment_schema_version := APP_FRAGMENT_SCHEMA_VERSION;
  fr_message_schema_version := msg_schema_version m;
  fr_network_id := msg_network_id m;
  fr_topic := msg_topic m;
  fr_source_peer_id := msg_source_peer_id m;
  fr_target_peer_id := msg_target_peer_id m;
  fr_timestamp_ns := msg_timestamp_ns m;
  fr_nonce_hex := msg_nonce_hex m;
  fr_payload_hash_hex := payload_hash_hex;
  fr_payload_len := len (msg_payload m);
  fr_index := index;
  fr_total := total;
  fr_payload := payload;
|}.

(** The closure of the [map]: one fragment, encoded and bounded. *)
Definition fragment_wire (m : AppMessage) (payload_hash_hex : string) (total : Z)
    (chunk : Z * list byte) : result (list byte) NetError :=
  let? wire := map_err (json_to_vec (make_fragment m payload_hash_hex total chunk.1 chunk.2))
                 (app_error (msg_topic m)) in
  let? _ := reject_if (bool_decide (MAX_FRAGMENT_WIRE_BYTES < len wire))
              (app_error (msg_topic m) "encoded fragment exceeds wire bound") in
  Ok wire.

Definition fragment_message (m : AppMessage) : result (list (list byte)) NetError :=
  let? _ := validate_app_message m in
  if decide (len (msg_payload m) <= APP_FRAGMENT_PAYLOAD_BYTES) then
    let? wire := encode_app_message m in Ok [wire]
  else
  let total := div_ceil (len (msg_payload m)) APP_FRAGMENT_PAYLOAD_BYTES in
  let? _ := reject_if (bool_decide (total = 0 \/ MAX_APP_FRAGMENTS < total))
              (app_error (msg_topic m) "fragment count exceeds bounded maximum") in
  let payload_hash_hex := blake3_hex (msg_payload m) in
  try_collect (fragment_wire m payload_hash_hex total)
    (enumerate (chunks (Z.to_nat APP_FRAGMENT_PAYLOAD_BYTES) (msg_payload m))).

Definition parse_fragment_peer (f : AppFragment) (what s : string) : result PeerId NetError :=
  map_err (peer_parse s)
    (fun e => app_error (fr_topic f) ("invalid fragment " +:+ what +:+ " peer id: " +:+ e)).

Definition expected_chunk_len (f : AppFragment) : Z :=
  if decide (fr_index f + 1 = fr_total f)
  then fr_payload_len f - APP_FRAGMENT_PAYLOAD_BYTES * (fr_total f - 1)
  else APP_FRAGMENT_PAYLOAD_BYTES.

Definition validate_fragment (f : AppFragment) : result unit NetError :=
  let? _ := reject_if (bool_decide (fr_fragment_schema_version f ≠ APP_FRAGMENT_SCHEMA_VERSION \/
                                    fr_message_schema_version f ≠ APP_MESSAGE_SCHEMA_VERSION))
              (app_error (fr_topic f) "unsupported fragment/message schema version") in
  let? _ := normalize_app_topic (fr_topic f) in
  let? _ := parse_fragment_peer f "source" (fr_source_peer_id f) in
  let? _ := match fr_target_peer_id f with
            | Some target => let? _ := parse_fragment_peer f "target" target in Ok tt
            | None => Ok tt
            end in
  let? _ := reject_if (bool_decide (MAX_APP_MESSAGE_BYTES < fr_payload_len f \/
                                    fr_payload_len f <= APP_FRAGMENT_PAYLOAD_BYTES))
              (app_error (fr_topic f) "invalid fragmented payload length") in
  let expected_total := div_ceil (fr_payload_len f) APP_FRAGMENT_PAYLOAD_BYTES in
  let? _ := reject_if (bool_decide (fr_total f ≠ expected_total \/ fr_total f = 0 \/
                                    MAX_APP_FRAGMENTS < fr_total f \/ fr_total f <= fr_index f))
              (app_error (fr_topic f) "invalid fragment index/total") in
  let? _ := reject_if (bool_decide (len (fr_payload f) ≠ expected_chunk_len f))
              (app_error (fr_topic f) "fragment payload length does not match index/total") in
  let? _ := reject_if (bool_decide (str_len (fr_payload_hash_hex f) ≠ 64) ||
                       negb (forallb is_ascii_hexdigit (chars (fr_payload_hash_hex f))))
              (app_error (fr_topic f) "invalid fragment payload hash") in
  Ok tt.

Definition decode_fragment (raw : list byte) : result AppFragment NetError :=
  let? _ := reject_if (bool_decide (MAX_FRAGMENT_WIRE_BYTES < len raw))
              (app_error "<unknown>" "fragment wire exceeds bound") in
  let? f := map_err (json_from_slice raw) (app_error "<unknown>") in
  let? _ := validate_fragment f in
  Ok f.

(** * The reassembler *)
Record ReassemblyKey := {
  rk_author : PeerId;
  rk_nonce_hex : string;
  rk_topic : string;
}.

#[global] Instance ReassemblyKey_eq_dec : EqDecision ReassemblyKey.
Proof. solve_decision. Defined.

#[global] Program Instance ReassemblyKey_countable : Countable ReassemblyKey :=
  inj_countable' (fun k => (rk_author k, rk_nonce_hex k, rk_topic k))
    (fun '(a, n, t) => {| rk_author := a; rk_nonce_hex := n; rk_topic := t |}) _.
Next Obligation. by intros []. Qed.

Record ReassemblyEntry := {
  re_fragment : AppFragment;
  re_chunks : list (option (list byte));
  re_bytes : Z;
  re_created : Z;
}.

Record AppFragmentReassembler := {
  r_entries : gmap ReassemblyKey ReassemblyEntry;
  r_peer_bytes : gmap PeerId Z;
  r_global_bytes : Z;
}.

Definition AppFragmentReassembler_default : AppFragmentReassembler :=
  {| r_entries := ∅; r_peer_bytes := ∅; r_global_bytes := 0 |}.

(** Forget an entry and give its bytes back. *)
Definition release (st : AppFragmentReassembler) (key : ReassemblyKey) (e : ReassemblyEntry)
  : AppFragmentReassembler := {|
  r_entries := delete key (r_entries st);
  r_peer_bytes := alter (fun bytes => sat_sub bytes (re_bytes e)) (rk_author key) (r_peer_bytes st);
  r_global_bytes := sat_sub (r_global_bytes st) (re_bytes e);
|}.

Definition expire_key (st : AppFragmentReassembler) (key : ReassemblyKey) : AppFragmentReassembler :=
  match r_entries st !! key with Some e => release st key e | None => st end.

Definition expired_keys (st : AppFragmentReassembler) (now : Z) : list ReassemblyKey :=
  fst <$> filter (fun ke => FRAGMENT_EXPIRY <= sat_sub now (re_created ke.2)) (map_to_list (r_entries st)).

Definition expire (st : AppFragmentReassembler) (now : Z) : AppFragmentReassembler :=
  let st := foldl expire_key st (expired_keys st now) in
  {| r_entries := r_entries st;
     r_peer_bytes := filter (fun pb => 0 < pb.2) (r_peer_bytes st);
     r_global_bytes := r_global_bytes st |}.

Definition same_message (a b : AppFragment) : bool :=
  bool_decide (fr_message_schema_version a = fr_message_schema_version b) &&
  bool_decide (fr_network_id a = fr_network_id b) &&
  bool_decide (fr_topic a = fr_topic b) &&
  bool_decide (fr_source_peer_id a = fr_source_peer_id b) &&
  bool_decide (fr_target_peer_id a = fr_target_peer_id b) &&
  bool_decide (fr_timestamp_ns a = fr_timestamp_ns b) &&
  bool_decide (fr_nonce_hex a = fr_nonce_hex b) &&
  bool_decide (fr_payload_hash_hex a = fr_payload_hash_hex b) &&
  bool_decide (fr_payload_len a = fr_payload_len b) &&
  bool_decide (fr_total a = fr_total b).

(** [for chunk in chunks { payload.extend(chunk.expect(..)) }] *)
Fixpoint join_chunks (cs : list (option (list byte))) : run (list byte) :=
  match cs with
  | [] => Ret []
  | c :: cs' =>
      let! c := expect c in
      let! rest := join_chunks cs' in
      Ret (c ++ rest)
  end.

Definition message_of_fragment (f : AppFragment) (payload : list byte) : AppMessage := {|
  msg_schema_version := fr_message_schema_version f;
  msg_network_id := fr_network_id f;
  msg_topic := fr_topic f;
  msg_source_peer_id := fr_source_peer_id f;
  msg_target_peer_id := fr_target_peer_id f;
  msg_timestamp_ns := fr_timestamp_ns f;
  msg_nonce_hex := fr_nonce_hex f;
  msg_payload := payload;
|}.

Definition push_result : Type := result (option AppMessage) NetError * AppFragmentReassembler.

(** [push] once every chunk is present. *)
Definition push_complete (st : AppFragmentReassembler) (key : ReassemblyKey) : run push_result :=
  let! entry := expect (r_entries st !! key) in
  let st := release st key entry in
  let f := re_fragment entry in
  let! payload := join_chunks (re_chunks entry) in
  if decide (len payload ≠ fr_payload_len f \/ blake3_hex payload ≠ fr_payload_hash_hex f) then
    Ret (Err (app_error (fr_topic f) "reassembled payload hash mismatch"), st)
  else
  let message := message_of_fragment f payload in
  Ret (let? _ := validate_app_message message in Ok (Some message), st).

(** [push] once the fragment belongs to the entry: the slot is filled. *)
Definition push_chunk (st : AppFragmentReassembler) (key : ReassemblyKey) (entry : ReassemblyEntry)
    (f : AppFragment) (current_peer : Z) : run push_result :=
  let! slot := expect (re_chunks entry !! Z.to_nat (fr_index f)) in
  match slot with
  | Some _ => Ret (Ok None, st)
  | None =>
      let n := len (fr_payload f) in
      let entry := {|
        re_fragment := re_fragment entry;
        re_chunks := <[Z.to_nat (fr_index f) := Some (fr_payload f)]> (re_chunks entry);
        re_bytes := sat_add usize_max (re_bytes entry) n;
        re_created := re_created entry |} in
      let st := {|
        r_entries := <[key := entry]> (r_entries st);
        r_peer_bytes := <[rk_author key := sat_add usize_max current_peer n]> (r_peer_bytes st);
        r_global_bytes := sat_add usize_max (r_global_bytes st) n |} in
      if existsb (fun c => bool_decide (c = None)) (re_chunks entry) then Ret (Ok None, st)
      else push_complete st key
  end.

(** [push]: [now] is the clock [expire] reads, [created] the one a new entry
    is stamped with. *)
Definition push (st : AppFragmentReassembler) (author : PeerId) (f : AppFragment) (now created : Z)
  : run push_result :=
  let st := expire st now in
  if decide (fr_source_peer_id f ≠ peer_to_string author) then
    Ret (Err (app_error (fr_topic f) "fragment source does not match authenticated Gossipsub author"), st)
  else
  let key := {| rk_author := author; rk_nonce_hex := fr_nonce_hex f; rk_topic := fr_topic f |} in
  let current_peer := default 0 (r_peer_bytes st !! author) in
  let n := len (fr_payload f) in
  if decide (MAX_REASSEMBLY_BYTES_PER_PEER < sat_add usize_max current_peer n \/
             MAX_REASSEMBLY_BYTES_GLOBAL < sat_add usize_max (r_global_bytes st) n) then
    Ret (Err (app_error (fr_topic f) "fragment reassembly memory ceiling exceeded"), st)
  else
  let entry := default {| re_fragment := f; re_chunks := replicate (Z.to_nat (fr_total f)) None;
                          re_bytes := 0; re_created := created |} (r_entries st !! key) in
  let st := {| r_entries := <[key := entry]> (r_entries st); r_peer_bytes := r_peer_bytes st;
               r_global_bytes := r_global_bytes st |} in
  if negb (same_message (re_fragment entry) f) then
    Ret (Err (app_error (fr_topic f) "fragment metadata mismatch"), st)
  else push_chunk st key entry f current_peer.
End fragments.

(** * Facts

    Facts about fragmentation: every fragment the splitter writes is read back
    and validates, the fragments of a message delivered in any order rebuild
    exactly that message, the reassembler's accounting is exact and its memory
    ceilings hold in every reachable state, and it never panics. *)

(** * [chunks] *)
Section chunk_facts.
Context {A : Type} (n : nat) (Hn : (0 < n)%nat).

Lemma chunks_fuel_lookup fuel (l : list A) i :
  (length l <= fuel)%nat ->
  chunks_fuel fuel n l !! i =
    if decide (i * n < length l)%nat then Some (take n (drop (i * n) l)) else None.
Proof using Hn.
  revert l i. induction fuel as [|fuel IH]; intros l i Hl.
  { destruct l; [|cbn in Hl; lia]. cbn. rewrite decide_False by lia. done. }
  destruct l as [|x l]; [cbn; rewrite decide_False by lia; done|].
  remember (x :: l) as k eqn:Ek. replace (chunks_fuel (S fuel) n k) with (take n k :: chunks_fuel fuel n (drop n k))
    by (by subst).
  assert (0 < length k)%nat by (subst; cbn; lia).
  destruct i as [|i]; cbn [lookup list_lookup].
  - rewrite decide_True by lia. done.
  - change (list_lookup i ?c) with (c !! i). rewrite IH by (rewrite length_drop; lia).
    rewrite length_drop, drop_drop. repeat case_decide; by try lia.
Qed.

Lemma chunks_lookup (l : list A) i c :
  chunks n l !! i = Some c <-> (i * n < length l)%nat /\ c = take n (drop (i * n) l).
Proof using Hn.
  unfold chunks. rewrite chunks_fuel_lookup by done. case_decide; split.
  - by intros [= <-].
  - by intros [_ ->].
  - done.
  - by intros [? _].
Qed.

Lemma chunks_fuel_concat fuel (l : list A) : (length l <= fuel)%nat -> concat (chunks_fuel fuel n l) = l.
Proof using Hn.
  revert l. induction fuel as [|fuel IH]; intros l Hl; [by destruct l; [|cbn in Hl; lia]|].
  destruct l as [|x l]; [done|]. remember (x :: l) as k eqn:Ek.
  replace (chunks_fuel (S fuel) n k) with (take n k :: chunks_fuel fuel n (drop n k)) by (by subst).
  cbn. rewrite IH; [apply take_drop|]. rewrite length_drop. subst; cbn in *; lia.
Qed.

Lemma chunks_concat (l : list A) : concat (chunks n l) = l.
Proof using Hn. by apply chunks_fuel_concat. Qed.

Lemma chunks_fuel_length fuel (l : list A) :
  (length l <= fuel)%nat -> len (chunks_fuel fuel n l) = div_ceil (len l) (Z.of_nat n).
Proof using Hn.
  unfold div_ceil. revert l. induction fuel as [|fuel IH]; intros l Hl.
  { destruct l; [|cbn in Hl; lia]. symmetry. apply Z.div_small. unfold len. cbn [length]. lia. }
  destruct l as [|x l]; [symmetry; apply Z.div_small; unfold len; cbn [length]; lia|]. remember (x :: l) as k eqn:Ek.
  assert (0 < length k)%nat by (subst; cbn; lia).
  replace (chunks_fuel (S fuel) n k) with (take n k :: chunks_fuel fuel n (drop n k)) by (by subst).
  replace (len (_ :: _)) with (1 + len (chunks_fuel fuel n (drop n k))) by (unfold len; cbn [length]; lia).
  rewrite IH by (rewrite length_drop; lia). unfold len. rewrite length_drop.
  destruct (decide (n <= length k)%nat).
  - replace (Z.of_nat (length k - n) + Z.of_nat n - 1) with (Z.of_nat (length k) + Z.of_nat n - 1 + -1 * Z.of_nat n) by lia.
    rewrite Z.div_add by lia. lia.
  - replace (length k - n)%nat with O by lia.
    rewrite Z.div_small by lia. apply Z.div_unique with (Z.of_nat (length k) - 1); lia.
Qed.

Lemma chunks_length (l : list A) : len (chunks n l) = div_ceil (len l) (Z.of_nat n).
Proof using Hn. by apply chunks_fuel_length. Qed.
End chunk_facts.

Lemma enumerate_lookup {A} (l : list A) i p :
  enumerate l !! i = Some p <-> exists x, l !! i = Some x /\ p = (Z.of_nat i, x).
Proof.
  unfold enumerate. rewrite list_lookup_imap. destruct (l !! i) as [x|]; cbn.
  - split; [intros [= <-]; eauto|]. by intros (y & [= ->] & ->).
  - split; [done|]. by intros (y & ? & _).
Qed.

Lemma div_ceil_bounds a b : 0 < b -> 0 < a -> (div_ceil a b - 1) * b < a <= div_ceil a b * b.
Proof.
  intros Hb Ha. unfold div_ceil. pose proof (Z.div_mod (a + b - 1) b ltac:(lia)).
  pose proof (Z.mod_pos_bound (a + b - 1) b Hb). nia.
Qed.

Lemma div_ceil_pos a b : 0 < b -> 0 < a -> 0 < div_ceil a b.
Proof. intros Hb Ha. pose proof (div_ceil_bounds a b Hb Ha). nia. Qed.

(** The fragment size as a [nat]; it stays folded in the proofs. *)
Definition frag_size : nat := Z.to_nat APP_FRAGMENT_PAYLOAD_BYTES.
Lemma frag_size_Z : Z.of_nat frag_size = APP_FRAGMENT_PAYLOAD_BYTES.
Proof. unfold frag_size. apply Z2Nat.id. done. Qed.
Lemma frag_size_pos : (0 < frag_size)%nat.
Proof. apply Nat2Z.inj_lt. by rewrite frag_size_Z. Qed.
#[global] Opaque frag_size.

(** * The splitter *)
Section splitter.
Context `{HX : HexLib} `{BL : Blake3Lib} `{PL : PeerIdLib}
  `{SJ : SerdeJson AppMessage} `{SF : SerdeJson AppFragment}.

Definition total_of (m : AppMessage) : Z := div_ceil (len (msg_payload m)) APP_FRAGMENT_PAYLOAD_BYTES.

(** The fragments of a large message, in order. *)
Definition fragments (m : AppMessage) : list AppFragment :=
  (fun c => make_fragment m (blake3_hex (msg_payload m)) (total_of m) c.1 c.2) <$>
    enumerate (chunks frag_size (msg_payload m)).

Definition large (m : AppMessage) : Prop := APP_FRAGMENT_PAYLOAD_BYTES < len (msg_payload m).

Lemma fragments_lookup m i f :
  fragments m !! i = Some f <->
  (i * frag_size < length (msg_payload m))%nat /\
  f = make_fragment m (blake3_hex (msg_payload m)) (total_of m) (Z.of_nat i)
        (take frag_size (drop (i * frag_size) (msg_payload m))).
Proof.
  unfold fragments. rewrite list_lookup_fmap, fmap_Some. setoid_rewrite enumerate_lookup.
  setoid_rewrite (chunks_lookup frag_size frag_size_pos). naive_solver.
Qed.

Lemma fragments_length m : len (fragments m) = total_of m.
Proof.
  unfold fragments, len, enumerate. rewrite length_fmap, length_imap.
  pose proof (chunks_length frag_size frag_size_pos (msg_payload m)) as H. rewrite frag_size_Z in H. exact H.
Qed.

Lemma fragments_concat m : concat (fr_payload <$> fragments m) = msg_payload m.
Proof.
  transitivity (concat (chunks frag_size (msg_payload m)));
    [f_equal|by apply chunks_concat, frag_size_pos].
  apply list_eq. intros i. rewrite list_lookup_fmap.
  destruct (fragments m !! i) as [f|] eqn:Ef; cbn.
  - apply fragments_lookup in Ef as [Hi ->]. symmetry. by apply (chunks_lookup frag_size frag_size_pos).
  - destruct (chunks frag_size (msg_payload m) !! i) as [c|] eqn:Ec; [|done].
    apply (chunks_lookup frag_size frag_size_pos) in Ec as [Hi _].
    assert (fragments m !! i = Some _) as Hs by (apply fragments_lookup; eauto). congruence.
Qed.

(** Every fragment carries the envelope of its message. *)
Lemma fragments_envelope m f p :
  f ∈ fragments m -> message_of_fragment f p = message_of_fragment (make_fragment m "" 0 0 []) p.
Proof. intros (i & Hi)%list_elem_of_lookup. apply fragments_lookup in Hi as [_ ->]. done. Qed.

Lemma fragments_same m f g : f ∈ fragments m -> g ∈ fragments m -> same_message f g = true.
Proof.
  intros (i & Hi)%list_elem_of_lookup (j & Hj)%list_elem_of_lookup.
  apply fragments_lookup in Hi as [_ ->]. apply fragments_lookup in Hj as [_ ->].
  unfold same_message. cbn. by rewrite !bool_decide_eq_true_2 by done.
Qed.

Lemma fragments_index m i f :
  fragments m !! i = Some f -> fr_index f = Z.of_nat i /\ fr_total f = total_of m /\
  fr_payload_len f = len (msg_payload m) /\ fr_payload_hash_hex f = blake3_hex (msg_payload m).
Proof. by intros [_ ->]%fragments_lookup. Qed.

Lemma fragments_NoDup m : NoDup (fragments m).
Proof.
  apply NoDup_alt. intros i j f Hi Hj. apply fragments_index in Hi as [Hi _].
  apply fragments_index in Hj as [Hj _]. lia.
Qed.

Lemma validate_app_message_Ok m :
  validate_app_message m = Ok tt <->
  msg_schema_version m = APP_MESSAGE_SCHEMA_VERSION /\ is_ok (normalize_app_topic (msg_topic m)) = true /\
  is_ok (peer_parse (msg_source_peer_id m)) = true /\
  (forall t, msg_target_peer_id m = Some t -> is_ok (peer_parse t) = true) /\
  len (msg_payload m) <= MAX_APP_MESSAGE_BYTES.
Proof.
  unfold validate_app_message, parse_peer, validate_app_payload_len.
  rewrite bind_unit_Ok, reject_if_Ok, bool_decide_eq_false.
  destruct (normalize_app_topic (msg_topic m)); cbn; [|naive_solver].
  destruct (peer_parse (msg_source_peer_id m)); cbn; [|naive_solver].
  destruct (msg_target_peer_id m) as [t|]; cbn; [destruct (peer_parse t) eqn:E; cbn|].
  2: { split; [naive_solver|]. intros (_ & _ & _ & Ht & _). specialize (Ht t eq_refl). by rewrite E in Ht. }
  all: rewrite reject_if_Ok, bool_decide_eq_false; split;
    [intros [?%dec_stable ?]; split_and!; try done; try (intros ? [= <-]; by rewrite E); lia
    |intros (? & _ & _ & _ & ?); split; [tauto|lia]].
Qed.

Lemma validate_fragment_Ok f :
  validate_fragment f = Ok tt <->
  fr_fragment_schema_version f = APP_FRAGMENT_SCHEMA_VERSION /\
  fr_message_schema_version f = APP_MESSAGE_SCHEMA_VERSION /\
  is_ok (normalize_app_topic (fr_topic f)) = true /\
  is_ok (peer_parse (fr_source_peer_id f)) = true /\
  (forall t, fr_target_peer_id f = Some t -> is_ok (peer_parse t) = true) /\
  APP_FRAGMENT_PAYLOAD_BYTES < fr_payload_len f <= MAX_APP_MESSAGE_BYTES /\
  fr_total f = div_ceil (fr_payload_len f) APP_FRAGMENT_PAYLOAD_BYTES /\
  0 < fr_total f <= MAX_APP_FRAGMENTS /\ fr_index f < fr_total f /\
  len (fr_payload f) = expected_chunk_len f /\
  str_len (fr_payload_hash_hex f) = 64 /\
  forallb is_ascii_hexdigit (chars (fr_payload_hash_hex f)) = true.
Proof.
  unfold validate_fragment, parse_fragment_peer.
  pose proof (div_ceil_pos (fr_payload_len f) APP_FRAGMENT_PAYLOAD_BYTES eq_refl) as Hpos.
  assert (0 < APP_FRAGMENT_PAYLOAD_BYTES) by done.
  rewrite bind_unit_Ok, reject_if_Ok, bool_decide_eq_false.
  destruct (normalize_app_topic (fr_topic f)); cbn; [|naive_solver].
  destruct (peer_parse (fr_source_peer_id f)); cbn; [|naive_solver].
  destruct (fr_target_peer_id f) as [t|]; cbn; [destruct (peer_parse t) eqn:E; cbn|].
  2: { split; [naive_solver|]. intros (_ & _ & _ & _ & Ht & _). specialize (Ht t eq_refl). by rewrite E in Ht. }
  all: guards; split; [intros (? & ? & ? & ? & [Hs ?] & _)|intros (? & ? & _ & _ & _ & ? & ? & ? & ? & ? & Hs & ?)];
    split_and!; try done; try (intros ? [= <-]; by rewrite E); lia.
Qed.

Context {HXL : HexLaws HX} {HD : HexDigits HX} {BLL : Blake3Laws BL}.

Lemma blake3_hex_length bs : str_len (blake3_hex bs) = 64.
Proof using HXL BLL. apply blake3_hex_len. Qed.

Lemma large_total m :
  large m -> (total_of m - 1) * APP_FRAGMENT_PAYLOAD_BYTES < len (msg_payload m)
             <= total_of m * APP_FRAGMENT_PAYLOAD_BYTES.
Proof. intros Hl. apply div_ceil_bounds; [done|]. unfold large, APP_FRAGMENT_PAYLOAD_BYTES in Hl. lia. Qed.

(** The length of the [i]-th chunk is the one the validation expects. *)
Lemma fragments_chunk_len m i f :
  large m -> fragments m !! i = Some f -> len (fr_payload f) = expected_chunk_len f /\ Z.of_nat i < total_of m.
Proof.
  intros Hl Hf. pose proof (large_total m Hl) as Ht. apply fragments_lookup in Hf as [Hi ->].
  unfold expected_chunk_len. cbn [fr_index fr_total fr_payload fr_payload_len make_fragment].
  unfold len in *. rewrite length_take, length_drop.
  pose proof frag_size_Z as Hz.
  assert (Z.of_nat (i * frag_size) = Z.of_nat i * APP_FRAGMENT_PAYLOAD_BYTES) as Hm
    by (rewrite Nat2Z.inj_mul; lia).
  assert (0 < APP_FRAGMENT_PAYLOAD_BYTES) by done.
  assert (Z.of_nat i < total_of m) by nia. split; [|done]. case_decide.
  - replace (total_of m) with (Z.of_nat i + 1) by done. nia.
  - assert ((Z.of_nat i + 1) * APP_FRAGMENT_PAYLOAD_BYTES <= (total_of m - 1) * APP_FRAGMENT_PAYLOAD_BYTES)
      by (apply Z.mul_le_mono_nonneg_r; lia). lia.
Qed.

Lemma total_bounded m :
  large m -> len (msg_payload m) <= MAX_APP_MESSAGE_BYTES -> 0 < total_of m <= MAX_APP_FRAGMENTS.
Proof.
  intros Hl Hm. pose proof (large_total m Hl). unfold large in Hl.
  change MAX_APP_FRAGMENTS with 64. change MAX_APP_MESSAGE_BYTES with (64 * 16384) in Hm.
  change APP_FRAGMENT_PAYLOAD_BYTES with 16384 in *. lia.
Qed.

Lemma fragments_valid m :
  validate_app_message m = Ok tt -> large m -> Forall (fun f => validate_fragment f = Ok tt) (fragments m).
Proof using HXL HD BLL.
  intros (Hv & Ht & Hs & Hd & Hlen)%validate_app_message_Ok Hl.
  pose proof (total_bounded m Hl Hlen) as Htot. apply Forall_lookup. intros i f Hf.
  destruct (fragments_chunk_len m i f Hl Hf) as [Hc Hi]. rewrite validate_fragment_Ok.
  pose proof (blake3_hex_length (msg_payload m)) as Hh.
  apply fragments_lookup in Hf as [_ ->]. unfold large in Hl.
  cbn [make_fragment fr_fragment_schema_version fr_message_schema_version fr_topic fr_source_peer_id
    fr_target_peer_id fr_payload_len fr_total fr_index fr_payload_hash_hex].
  split_and!; try done; try lia. apply forallb_forall. intros ? ?%list_elem_of_In. pose proof (hex_digits (blake3_hash (msg_payload m))) as Hhd.
    rewrite Forall_forall in Hhd. by apply Hhd.
Qed.

Context {SFL : SerdeJsonLaws AppFragment SF}.

(** What the splitter returns for a large message: the encodings of its
    fragments, each of which the receiver decodes. *)
Lemma fragment_message_large m wires :
  large m -> fragment_message m = Ok wires ->
  validate_app_message m = Ok tt /\
  Forall2 (fun f w => decode_fragment w = Ok f /\ len w <= MAX_FRAGMENT_WIRE_BYTES) (fragments m) wires.
Proof using All.
  intros Hl. unfold fragment_message. rewrite bind_unit_Ok. intros [Hv Hr]. split; [done|].
  rewrite decide_False in Hr by (unfold large in Hl; lia).
  rewrite bind_unit_Ok in Hr. destruct Hr as [_ Hr]. rewrite try_collect_Ok in Hr.
  unfold fragments. apply Forall2_fmap_l.
  pose proof (fragments_valid m Hv Hl) as Hval. unfold fragments in Hval. rewrite Forall_fmap in Hval.
  change (Z.to_nat APP_FRAGMENT_PAYLOAD_BYTES) with frag_size in Hr.
  change (div_ceil (len (msg_payload m)) APP_FRAGMENT_PAYLOAD_BYTES) with (total_of m) in Hr.
  revert Hr Hval. generalize (enumerate (chunks frag_size (msg_payload m))).
  clear Hl. intros cs Hcs Hval. induction Hcs as [|c w cs wires Hw _ IH]; constructor.
  - clear IH. apply Forall_cons in Hval as [Hval _]. unfold fragment_wire in Hw. rewrite bind_Ok in Hw.
    destruct Hw as (w' & Hj & Hw). rewrite bind_unit_Ok, reject_if_Ok, bool_decide_eq_false in Hw.
    destruct Hw as [Hlen [= ->]]. destruct (json_to_vec _) as [w''|] eqn:Ej in Hj; [|done].
    injection Hj as ->. apply json_roundtrip in Ej. split; [|lia].
    unfold decode_fragment. rewrite bind_unit_Ok, reject_if_Ok, bool_decide_eq_false. split; [lia|].
    rewrite Ej. cbn [map_err result_bind]. by rewrite Hval.
  - apply IH. by apply Forall_cons in Hval as [_ ?].
Qed.
End splitter.
