(* ===== verification/ReassemblyFacts.v ===== *)
(** The reassembler (crates/api/fragmentation.rs [AppFragmentReassembler]): its
    accounting invariant and memory ceilings, absence of panics, the integrity
    of what it returns, and the round trip of a fragmented message. *)

From S2P Require Import Prelude Bytes Text Common AppMessage Fragmentation.

#[local] Open Scope Z_scope.

Section reassembly.
Context `{HX : HexLib} `{BL : Blake3Lib} `{PL : PeerIdLib}
  `{SJ : SerdeJson AppMessage} `{SF : SerdeJson AppFragment}.

Implicit Types (st : AppFragmentReassembler) (k key : ReassemblyKey) (e : ReassemblyEntry) (f : AppFragment).

(** * The invariant *)

(** The bytes of the chunks an entry holds. *)
Fixpoint chunk_bytes (cs : list (option (list byte))) : Z :=
  match cs with
  | [] => 0
  | Some p :: cs' => len p + chunk_bytes cs'
  | None :: cs' => chunk_bytes cs'
  end.

(** The bytes of an entry, if it belongs to the author. *)
Definition bytes_of (a : PeerId) (k : ReassemblyKey) (e : ReassemblyEntry) : Z :=
  if decide (rk_author k = a) then re_bytes e else 0.

(** A stored entry: validated metadata that matches its key, one slot per
    fragment, and a byte count that is the size of its chunks. *)
Record entry_wf (k : ReassemblyKey) (e : ReassemblyEntry) : Prop := {
  ew_valid : validate_fragment (re_fragment e) = Ok tt;
  ew_source : fr_source_peer_id (re_fragment e) = peer_to_string (rk_author k);
  ew_nonce : fr_nonce_hex (re_fragment e) = rk_nonce_hex k;
  ew_topic : fr_topic (re_fragment e) = rk_topic k;
  ew_slots : Z.of_nat (length (re_chunks e)) = fr_total (re_fragment e);
  ew_bytes : re_bytes e = chunk_bytes (re_chunks e);
}.

Record reasm_wf (st : AppFragmentReassembler) : Prop := {
  rw_entries : map_Forall entry_wf (r_entries st);
  rw_global : r_global_bytes st = msum (fun _ e => re_bytes e) (r_entries st);
  rw_peer a : default 0 (r_peer_bytes st !! a) = msum (bytes_of a) (r_entries st);
  rw_global_max : r_global_bytes st <= MAX_REASSEMBLY_BYTES_GLOBAL;
  rw_peer_max a : default 0 (r_peer_bytes st !! a) <= MAX_REASSEMBLY_BYTES_PER_PEER;
}.

Lemma default_wf : reasm_wf AppFragmentReassembler_default.
Proof. by split. Qed.

Lemma chunk_bytes_nonneg cs : 0 <= chunk_bytes cs.
Proof. induction cs as [|[c|] cs IH]; cbn; ulia. Qed.

Lemma chunk_bytes_fill cs i p :
  cs !! i = Some None -> chunk_bytes (<[i := Some p]> cs) = chunk_bytes cs + len p.
Proof.
  revert i. induction cs as [|c cs IH]; intros i; [done|]. destruct i as [|i]; cbn.
  - intros [= ->]. lia.
  - intros Hi%IH. destruct c; [|exact Hi]. rewrite <- Z.add_assoc. f_equal. exact Hi.
Qed.

Lemma chunk_bytes_replicate n : chunk_bytes (replicate n None) = 0.
Proof. by induction n. Qed.

Lemma entries_nonneg st :
  map_Forall entry_wf (r_entries st) ->
  map_Forall (fun _ e => 0 <= re_bytes e) (r_entries st) /\
  forall a, map_Forall (fun k e => 0 <= bytes_of a k e) (r_entries st).
Proof.
  intros Hwf. assert (map_Forall (fun _ e => 0 <= re_bytes e) (r_entries st)) as H1.
  { intros k e Hk. apply Hwf in Hk. rewrite (ew_bytes _ _ Hk). apply chunk_bytes_nonneg. }
  split; [done|]. intros a k e Hk. apply H1 in Hk. unfold bytes_of. by case_decide.
Qed.

(** * Giving bytes back *)
Lemma release_wf st k e :
  reasm_wf st -> r_entries st !! k = Some e -> reasm_wf (release st k e).
Proof.
  intros Hwf Hk. destruct (entries_nonneg st (rw_entries _ Hwf)) as [Hn Hna].
  pose proof (msum_elem _ _ k e Hn Hk) as Hle. cbn in Hle.
  assert (0 <= re_bytes e) as He by (by apply Hn in Hk).
  assert (forall a, default 0 (alter (fun b => sat_sub b (re_bytes e)) (rk_author k) (r_peer_bytes st) !! a)
    = default 0 (r_peer_bytes st !! a) - bytes_of a k e) as Hpeer.
  { intros a. pose proof (msum_elem _ _ k e (Hna a) Hk) as Hlea. rewrite <- (rw_peer _ Hwf a) in Hlea.
    unfold bytes_of in *. case_decide as Ha.
    - subst a. rewrite lookup_alter_eq. destruct (r_peer_bytes st !! rk_author k); cbn in *; ulia.
    - rewrite lookup_alter_ne by done. lia. }
  split; cbn [release r_entries r_peer_bytes r_global_bytes].
  - apply map_Forall_delete, (rw_entries _ Hwf).
  - rewrite (msum_delete _ _ k e Hk), <- (rw_global _ Hwf). rewrite <- (rw_global _ Hwf) in Hle. ulia.
  - intros a. rewrite Hpeer, (msum_delete _ _ k e Hk). by rewrite <- (rw_peer _ Hwf a).
  - pose proof (rw_global_max _ Hwf). rewrite <- (rw_global _ Hwf) in Hle. ulia.
  - intros a. rewrite Hpeer. pose proof (rw_peer_max _ Hwf a).
    assert (0 <= bytes_of a k e) by (by apply (Hna a)). lia.
Qed.

Lemma release_le st k e a :
  reasm_wf st -> r_entries st !! k = Some e ->
  r_global_bytes (release st k e) <= r_global_bytes st /\
  default 0 (r_peer_bytes (release st k e) !! a) <= default 0 (r_peer_bytes st !! a).
Proof.
  intros Hwf Hk. pose proof (release_wf st k e Hwf Hk) as Hwf'.
  rewrite (rw_global _ Hwf), (rw_global _ Hwf'), (rw_peer _ Hwf a), (rw_peer _ Hwf' a).
  cbn [release r_entries]. rewrite !(msum_delete _ _ k e Hk).
  destruct (entries_nonneg st (rw_entries _ Hwf)) as [Hn Hna].
  pose proof (Hn _ _ Hk). pose proof (Hna a _ _ Hk). cbn in *. lia.
Qed.

Lemma expire_key_wf st k : reasm_wf st -> reasm_wf (expire_key st k).
Proof. intros Hwf. unfold expire_key. destruct (r_entries st !! k) eqn:E; [by apply release_wf|done]. Qed.

Lemma expire_keys_spec ks st a :
  reasm_wf st ->
  let st' := foldl expire_key st ks in
  reasm_wf st' /\ r_global_bytes st' <= r_global_bytes st /\
  default 0 (r_peer_bytes st' !! a) <= default 0 (r_peer_bytes st !! a) /\
  forall k, r_entries st' !! k = if decide (k ∈ ks) then None else r_entries st !! k.
Proof.
  revert st. induction ks as [|k0 ks IH]; intros st Hwf; cbn [foldl]; [done|].
  destruct (IH _ (expire_key_wf st k0 Hwf)) as (Hwf' & Hg & Hp & Hl).
  assert (r_global_bytes (expire_key st k0) <= r_global_bytes st /\
    default 0 (r_peer_bytes (expire_key st k0) !! a) <= default 0 (r_peer_bytes st !! a)) as [Hg0 Hp0].
  { unfold expire_key. destruct (r_entries st !! k0) eqn:E; [by apply release_le|done]. }
  split_and!; [done|lia..|]. intros k. rewrite Hl. unfold expire_key.
  destruct (decide (k ∈ ks)) as [Hin|Hni]; [by rewrite decide_True by (by right)|].
  destruct (decide (k = k0)) as [->|Hne].
  - rewrite decide_True by (by left). destruct (r_entries st !! k0) eqn:E; [|done]. apply lookup_delete_eq.
  - rewrite decide_False by (intros [?|?]%elem_of_cons; done).
    destruct (r_entries st !! k0); [|done]. by apply lookup_delete_ne.
Qed.

Definition is_expired (now : Z) (e : ReassemblyEntry) : Prop := FRAGMENT_EXPIRY <= sat_sub now (re_created e).

Lemma elem_of_expired st now k :
  k ∈ expired_keys st now <-> exists e, r_entries st !! k = Some e /\ is_expired now e.
Proof.
  unfold expired_keys. rewrite list_elem_of_fmap. split.
  - intros ([k' e] & -> & [Hx He]%list_elem_of_filter). exists e. by apply elem_of_map_to_list in He.
  - intros (e & He & Hx). exists (k, e). split; [done|]. apply list_elem_of_filter.
    split; [done|by apply elem_of_map_to_list].
Qed.

Lemma filter_pos_default (m : gmap PeerId Z) a :
  0 <= default 0 (m !! a) -> default 0 (filter (fun pb => 0 < pb.2) m !! a) = default 0 (m !! a).
Proof.
  intros Hpos. destruct (m !! a) as [b|] eqn:E; cbn in *.
  - destruct (decide (0 < b)).
    + by rewrite (map_lookup_filter_Some_2 _ m a b).
    + rewrite map_lookup_filter_None_2; [cbn; lia|]. right. intros x Hx. rewrite E in Hx. by injection Hx as ->.
  - by rewrite map_lookup_filter_None_2 by (by left).
Qed.

(** [expire] drops exactly the expired entries and returns their bytes. *)
Lemma expire_spec st now a :
  reasm_wf st ->
  let st' := expire st now in
  reasm_wf st' /\ r_global_bytes st' <= r_global_bytes st /\
  default 0 (r_peer_bytes st' !! a) <= default 0 (r_peer_bytes st !! a) /\
  forall k e, r_entries st' !! k = Some e <-> r_entries st !! k = Some e /\ ~ is_expired now e.
Proof.
  intros Hwf. destruct (expire_keys_spec (expired_keys st now) st a Hwf) as (Hwf' & Hg & Hp & Hl).
  set (s := foldl expire_key st (expired_keys st now)) in *.
  assert (forall b, default 0 (filter (fun pb => 0 < pb.2) (r_peer_bytes s) !! b)
    = default 0 (r_peer_bytes s !! b)) as Hfilter.
  { intros b. apply filter_pos_default. rewrite (rw_peer _ Hwf' b).
    apply msum_nonneg, entries_nonneg, (rw_entries _ Hwf'). }
  split_and!.
  - destruct Hwf'. split; cbn [expire r_entries r_peer_bytes r_global_bytes]; fold s; try done;
      intros b; rewrite Hfilter; auto.
  - done.
  - cbn [expire r_peer_bytes]. fold s. by rewrite Hfilter.
  - intros k e. change (r_entries (expire st now)) with (r_entries s). rewrite Hl. case_decide as Hin.
    + split; [done|]. intros [He Hx]. destruct Hx. apply elem_of_expired in Hin as (e' & He' & Hx'). congruence.
    + split; [|tauto]. intros He. split; [done|]. intros Hx. apply Hin, elem_of_expired. eauto.
Qed.

(** * One push *)
Lemma same_message_true f g :
  same_message f g = true <->
  (forall p, message_of_fragment f p = message_of_fragment g p) /\
  fr_payload_hash_hex f = fr_payload_hash_hex g /\ fr_payload_len f = fr_payload_len g /\
  fr_total f = fr_total g.
Proof.
  unfold same_message. rewrite !andb_true_iff, !bool_decide_eq_true. split.
  - intros H. destruct_and!. split_and!; try done. intros p. unfold message_of_fragment. by f_equal.
  - intros (Hm & ? & ? & ?). specialize (Hm []). injection Hm. intros. split_and!; done.
Qed.

Definition key_of (author : PeerId) (f : AppFragment) : ReassemblyKey :=
  {| rk_author := author; rk_nonce_hex := fr_nonce_hex f; rk_topic := fr_topic f |}.

Definition new_entry (f : AppFragment) (created : Z) : ReassemblyEntry :=
  {| re_fragment := f; re_chunks := replicate (Z.to_nat (fr_total f)) None; re_bytes := 0; re_created := created |}.

Lemma new_entry_wf author f created :
  validate_fragment f = Ok tt -> fr_source_peer_id f = peer_to_string author ->
  entry_wf (key_of author f) (new_entry f created).
Proof.
  intros Hv Hs. split; cbn; try done.
  - apply validate_fragment_Ok in Hv. destruct_and!. rewrite length_replicate. lia.
  - by rewrite chunk_bytes_replicate.
Qed.

(** Looking an entry up, or making an empty one, keeps the invariant. *)
Definition with_entry (st : AppFragmentReassembler) (k : ReassemblyKey) (e : ReassemblyEntry) :=
  {| r_entries := <[k := e]> (r_entries st); r_peer_bytes := r_peer_bytes st; r_global_bytes := r_global_bytes st |}.

Lemma with_entry_wf st k e :
  reasm_wf st -> entry_wf k e -> (r_entries st !! k = Some e \/ (r_entries st !! k = None /\ re_bytes e = 0)) ->
  reasm_wf (with_entry st k e).
Proof.
  intros Hwf He [Hk|[Hk H0]].
  - unfold with_entry. rewrite insert_id by done. by destruct st.
  - destruct Hwf as [H1 H2 H3 H4 H5]. split; cbn [with_entry r_entries r_peer_bytes r_global_bytes]; try done.
    + by apply map_Forall_insert_2.
    + rewrite msum_insert by done. lia.
    + intros a. rewrite msum_insert, H3 by done. unfold bytes_of. case_decide; lia.
Qed.

(** Filling a slot. *)
Definition fill (e : ReassemblyEntry) (f : AppFragment) : ReassemblyEntry := {|
  re_fragment := re_fragment e;
  re_chunks := <[Z.to_nat (fr_index f) := Some (fr_payload f)]> (re_chunks e);
  re_bytes := sat_add usize_max (re_bytes e) (len (fr_payload f));
  re_created := re_created e |}.

Definition filled (st : AppFragmentReassembler) (k : ReassemblyKey) (e : ReassemblyEntry) (f : AppFragment)
    (current : Z) : AppFragmentReassembler := {|
  r_entries := <[k := fill e f]> (r_entries st);
  r_peer_bytes := <[rk_author k := sat_add usize_max current (len (fr_payload f))]> (r_peer_bytes st);
  r_global_bytes := sat_add usize_max (r_global_bytes st) (len (fr_payload f)) |}.

Lemma filled_wf st k e f :
  reasm_wf st -> r_entries st !! k = Some e ->
  re_chunks e !! Z.to_nat (fr_index f) = Some None ->
  let current := default 0 (r_peer_bytes st !! rk_author k) in
  current + len (fr_payload f) <= MAX_REASSEMBLY_BYTES_PER_PEER ->
  r_global_bytes st + len (fr_payload f) <= MAX_REASSEMBLY_BYTES_GLOBAL ->
  reasm_wf (filled st k e f current) /\
  re_bytes (fill e f) = re_bytes e + len (fr_payload f) /\
  r_global_bytes (filled st k e f current) = r_global_bytes st + len (fr_payload f) /\
  r_peer_bytes (filled st k e f current) = <[rk_author k := current + len (fr_payload f)]> (r_peer_bytes st).
Proof.
  intros Hwf Hk Hslot current Hp Hg. destruct (entries_nonneg st (rw_entries _ Hwf)) as [Hn Hna].
  pose proof (msum_elem _ _ k e Hn Hk) as Hle. cbn in Hle. rewrite <- (rw_global _ Hwf) in Hle.
  pose proof (Hn _ _ Hk) as He0. cbn in He0. pose proof (rw_entries _ Hwf _ _ Hk) as He.
  assert (MAX_REASSEMBLY_BYTES_GLOBAL <= usize_max) by done.
  assert (MAX_REASSEMBLY_BYTES_PER_PEER <= usize_max) by done.
  assert (re_bytes (fill e f) = re_bytes e + len (fr_payload f)) as Hb by (cbn; ulia).
  assert (sat_add usize_max current (len (fr_payload f)) = current + len (fr_payload f)) as Hc by ulia.
  assert (sat_add usize_max (r_global_bytes st) (len (fr_payload f))
    = r_global_bytes st + len (fr_payload f)) as Hgl by ulia.
  split; [|unfold filled; cbn; by rewrite Hc, Hgl].
  unfold filled. rewrite Hc, Hgl. split; cbn [r_entries r_peer_bytes r_global_bytes].
  - apply map_Forall_insert_2; [|apply (rw_entries _ Hwf)]. destruct He. split; try done.
    + cbn. by rewrite length_insert.
    + rewrite Hb. cbn [fill re_chunks]. rewrite chunk_bytes_fill by done. lia.
  - rewrite (msum_overwrite _ _ k e) by done. rewrite Hb, (rw_global _ Hwf). lia.
  - intros a. rewrite (msum_overwrite _ _ k e) by done. rewrite <- (rw_peer _ Hwf a). unfold bytes_of.
    case_decide as Ha; [|rewrite lookup_insert_ne by done; lia]. subst a. rewrite lookup_insert_eq, Hb. cbn. lia.
  - done.
  - intros a. destruct (decide (a = rk_author k)) as [->|Hne].
    + by rewrite lookup_insert_eq.
    + rewrite lookup_insert_ne by done. apply (rw_peer_max _ Hwf).
Qed.

Definition is_missing (c : option (list byte)) : bool := bool_decide (c = None).

Lemma join_chunks_full cs :
  existsb is_missing cs = false -> join_chunks cs = Ret (concat (omap id cs)).
Proof.
  induction cs as [|[c|] cs IH]; cbn; [done| |done]. intros Hcs. by rewrite IH.
Qed.

(** What [push] answers when the last chunk arrives. *)
Definition complete_result (e : ReassemblyEntry) : result (option AppMessage) NetError :=
  let f := re_fragment e in
  let payload := concat (omap id (re_chunks e)) in
  if decide (len payload ≠ fr_payload_len f \/ blake3_hex payload ≠ fr_payload_hash_hex f)
  then Err (app_error (fr_topic f) "reassembled payload hash mismatch")
  else let? _ := validate_app_message (message_of_fragment f payload) in
       Ok (Some (message_of_fragment f payload)).

Lemma push_chunk_eq st k e f current :
  re_chunks e !! Z.to_nat (fr_index f) = Some None ->
  push_chunk st k e f current =
  if existsb is_missing (re_chunks (fill e f)) then Ret (Ok None, filled st k e f current)
  else Ret (complete_result (fill e f), release (filled st k e f current) k (fill e f)).
Proof.
  intros Hslot. unfold push_chunk. rewrite Hslot. cbn [expect run_bind].
  fold (fill e f). change (fun c => bool_decide (c = None)) with is_missing.
  fold (filled st k e f current). destruct (existsb is_missing (re_chunks (fill e f))) eqn:Hm; [done|].
  unfold push_complete. cbn [filled r_entries]. rewrite lookup_insert_eq. cbn [expect run_bind].
  rewrite join_chunks_full by done. cbn [run_bind]. unfold complete_result. by case_decide.
Qed.

Definition entry_for st author f created : ReassemblyEntry :=
  default (new_entry f created) (r_entries st !! key_of author f).

(** The state once the entry of the fragment is found or made. *)
Definition found st author f now created : AppFragmentReassembler :=
  with_entry (expire st now) (key_of author f) (entry_for (expire st now) author f created).

Lemma found_wf st author f now created :
  reasm_wf st -> validate_fragment f = Ok tt -> fr_source_peer_id f = peer_to_string author ->
  entry_wf (key_of author f) (entry_for (expire st now) author f created) /\
  reasm_wf (found st author f now created).
Proof.
  intros Hwf Hv Hs. destruct (expire_spec st now author Hwf) as (Hwf1 & _). unfold found, entry_for.
  destruct (r_entries (expire st now) !! key_of author f) as [e|] eqn:E; cbn.
  - pose proof (rw_entries _ Hwf1 _ _ E). split; [done|]. apply with_entry_wf; [done|done|by left].
  - pose proof (new_entry_wf author f created Hv Hs). split; [done|]. apply with_entry_wf; [done|done|by right].
Qed.

(** The fragment fits under the ceilings after the expiry. *)
Definition fits st author f now : Prop :=
  default 0 (r_peer_bytes (expire st now) !! author) + len (fr_payload f) <= MAX_REASSEMBLY_BYTES_PER_PEER /\
  r_global_bytes (expire st now) + len (fr_payload f) <= MAX_REASSEMBLY_BYTES_GLOBAL.

Lemma fits_iff st author f now :
  fits st author f now <->
  ~ (MAX_REASSEMBLY_BYTES_PER_PEER <
       sat_add usize_max (default 0 (r_peer_bytes (expire st now) !! author)) (len (fr_payload f)) \/
     MAX_REASSEMBLY_BYTES_GLOBAL < sat_add usize_max (r_global_bytes (expire st now)) (len (fr_payload f))).
Proof.
  unfold fits. assert (MAX_REASSEMBLY_BYTES_GLOBAL < usize_max) by done.
  assert (MAX_REASSEMBLY_BYTES_PER_PEER < usize_max) by done. ulia.
Qed.

Lemma push_eq st author f now created :
  fr_source_peer_id f = peer_to_string author -> fits st author f now ->
  push st author f now created =
  if negb (same_message (re_fragment (entry_for (expire st now) author f created)) f)
  then Ret (Err (app_error (fr_topic f) "fragment metadata mismatch"), found st author f now created)
  else push_chunk (found st author f now created) (key_of author f)
         (entry_for (expire st now) author f created) f (default 0 (r_peer_bytes (expire st now) !! author)).
Proof.
  intros Hs Hfits%fits_iff. unfold push. rewrite decide_False by tauto. rewrite decide_False by done. done.
Qed.

(** The outcomes of a push of a validated fragment: refused before or after
    the entry is found, a duplicate, stored, or completed. *)
Lemma push_cases st author f now created :
  reasm_wf st -> validate_fragment f = Ok tt -> 0 <= fr_index f ->
  let k := key_of author f in
  let e := entry_for (expire st now) author f created in
  let current := default 0 (r_peer_bytes (expire st now) !! author) in
  let st2 := found st author f now created in
  (exists err, push st author f now created = Ret (Err err, expire st now)) \/
  (fr_source_peer_id f = peer_to_string author /\ fits st author f now /\
   ((exists err, push st author f now created = Ret (Err err, st2)) \/
    (same_message (re_fragment e) f = true /\
     (push st author f now created = Ret (Ok None, st2) \/
      (re_chunks e !! Z.to_nat (fr_index f) = Some None /\
       push st author f now created =
         if existsb is_missing (re_chunks (fill e f)) then Ret (Ok None, filled st2 k e f current)
         else Ret (complete_result (fill e f), release (filled st2 k e f current) k (fill e f))))))).
Proof.
  intros Hwf Hv Hi k e current st2.
  destruct (decide (fr_source_peer_id f = peer_to_string author)) as [Hsrc|Hsrc]; last first.
  { left. unfold push. rewrite decide_True by done. eauto. }
  destruct (decide (fits st author f now)) as [Hfits|Hfits]; last first.
  { left. unfold push. rewrite decide_False by tauto. rewrite fits_iff in Hfits. apply dec_stable in Hfits.
    rewrite decide_True by done. eauto. }
  right. split_and!; [done|done|]. destruct (found_wf st author f now created Hwf Hv Hsrc) as [He _].
  rewrite push_eq by done. fold k e current st2.
  destruct (same_message (re_fragment e) f) eqn:Hs; cbn [negb]; [|left; eauto]. right. split; [done|].
  assert (is_Some (re_chunks e !! Z.to_nat (fr_index f))) as [slot Hslot].
  { apply lookup_lt_is_Some. pose proof (ew_slots _ _ He) as Hlen. fold e in Hlen.
    apply same_message_true in Hs as (_ & _ & _ & Ht). apply validate_fragment_Ok in Hv. destruct_and!. lia. }
  destruct slot as [p|]; [left; unfold push_chunk; by rewrite Hslot|].
  right. split; [done|]. by apply push_chunk_eq.
Qed.

(** A reassembler fed with decoded fragments of authenticated authors. *)
Inductive push_step : AppFragmentReassembler -> AppFragmentReassembler -> Prop :=
| push_step_push st author f now created r st' :
    validate_fragment f = Ok tt -> 0 <= fr_index f ->
    push st author f now created = Ret (r, st') -> push_step st st'.

Lemma push_wf st author f now created :
  reasm_wf st -> validate_fragment f = Ok tt -> 0 <= fr_index f ->
  exists r st', push st author f now created = Ret (r, st') /\ reasm_wf st' /\
    (forall m, r = Ok (Some m) ->
       validate_app_message m = Ok tt /\ msg_source_peer_id m = peer_to_string author /\
       m = message_of_fragment f (msg_payload m) /\
       len (msg_payload m) = fr_payload_len f /\ blake3_hex (msg_payload m) = fr_payload_hash_hex f /\
       r_entries st' !! key_of author f = None).
Proof.
  intros Hwf Hv Hi. destruct (expire_spec st now author Hwf) as (Hwf1 & _).
  destruct (push_cases st author f now created Hwf Hv Hi)
    as [[err ->]|(Hsrc & [Hp Hg] & Hcases)]; [by eexists _, _|].
  destruct (found_wf st author f now created Hwf Hv Hsrc) as [He Hwf2].
  destruct Hcases as [[err ->]|(Hs & [->|[Hslot ->]])]; [by eexists _, _..|].
  set (k := key_of author f) in *. set (e := entry_for (expire st now) author f created) in *.
  set (st2 := found st author f now created) in *.
  assert (r_entries st2 !! k = Some e) as Hk by apply lookup_insert_eq.
  destruct (filled_wf st2 k e f Hwf2 Hk Hslot Hp Hg) as (Hwf3 & _).
  change (r_peer_bytes st2 !! rk_author k) with (r_peer_bytes (expire st now) !! author) in Hwf3.
  set (st3 := filled st2 k e f _) in *.
  destruct (existsb is_missing (re_chunks (fill e f))) eqn:Hm; [by eexists _, _|].
  assert (r_entries st3 !! k = Some (fill e f)) as Hk3 by apply lookup_insert_eq.
  eexists _, _. split_and!; [done|by apply release_wf|].
  intros m Hr. unfold complete_result in Hr. case_decide as Hd; [done|]. cbn zeta in Hr.
  apply Decidable.not_or in Hd as [Hd1%dec_stable Hd2%dec_stable].
  apply bind_unit_Ok in Hr as [Hval [= <-]]. cbn [fill re_fragment] in *.
  apply same_message_true in Hs as (Hmsg & Hh & Hl & _).
  split_and!; [done|by rewrite Hmsg|by rewrite Hmsg| | |apply lookup_delete_eq];
    cbn [message_of_fragment msg_payload]; [rewrite <- Hl; exact Hd1|rewrite <- Hh; exact Hd2].
Qed.

(** Whatever validated fragments authenticated peers push, in whatever
    order, the reassembler never panics, its global counter is the sum of the
    bytes it holds and stays within 8 MiB, the counter of each peer is the sum
    of the bytes held for that peer and stays within 2 MiB, and every entry's
    count is the size of its chunks. *)
Theorem reassembler_accounting_and_ceilings st author f now created :
  rtc push_step AppFragmentReassembler_default st ->
  validate_fragment f = Ok tt -> 0 <= fr_index f ->
  (exists r st', push st author f now created = Ret (r, st')) /\
  r_global_bytes st = msum (fun _ e => re_bytes e) (r_entries st) /\
  r_global_bytes st <= MAX_REASSEMBLY_BYTES_GLOBAL /\
  (forall a, default 0 (r_peer_bytes st !! a) = msum (bytes_of a) (r_entries st)) /\
  (forall a, default 0 (r_peer_bytes st !! a) <= MAX_REASSEMBLY_BYTES_PER_PEER) /\
  map_Forall (fun _ e => re_bytes e = chunk_bytes (re_chunks e)) (r_entries st).
Proof.
  intros Hst Hv Hi. assert (reasm_wf st) as Hwf.
  { revert st Hst. apply rtc_ind_r; [apply default_wf|]. intros x y _ Hxy Hx.
    destruct Hxy as [st a g n c r st' Hv' Hi' Hp].
    destruct (push_wf st a g n c Hx Hv' Hi') as (r' & st'' & Hp' & Hwf' & _). congruence. }
  destruct (push_wf st author f now created Hwf Hv Hi) as (r & st' & Hp & _).
  destruct Hwf as [H1 H2 H3 H4 H5]. split_and!; [by eexists _, _|done..|].
  intros k e Hk. apply H1 in Hk. by destruct Hk.
Qed.

(** A message the reassembler returns is authentic and intact: it
    validates, names the authenticated author as its source, carries the
    metadata of the fragment that completed it, and its payload has the length
    and the BLAKE3 digest that fragment announced; its entry is gone. *)
Theorem reassembled_message_is_intact st author f now created m st' :
  reasm_wf st -> validate_fragment f = Ok tt -> 0 <= fr_index f ->
  push st author f now created = Ret (Ok (Some m), st') ->
  validate_app_message m = Ok tt /\ msg_source_peer_id m = peer_to_string author /\
  m = message_of_fragment f (msg_payload m) /\
  len (msg_payload m) = fr_payload_len f /\ blake3_hex (msg_payload m) = fr_payload_hash_hex f /\
  r_entries st' !! key_of author f = None.
Proof.
  intros Hwf Hv Hi Hp. destruct (push_wf st author f now created Hwf Hv Hi) as (r & st'' & Hp' & _ & Hm).
  rewrite Hp in Hp'. injection Hp' as <- <-. by apply Hm.
Qed.

(** * Reassembly of one message *)

(** A wire on arrival: decoded, then pushed. *)
Definition receive (st : AppFragmentReassembler) (author : PeerId) (wire : list byte) (now created : Z)
  : run push_result :=
  match decode_fragment wire with
  | Ok f => push st author f now created
  | Err err => Ret (Err err, st)
  end.

Fixpoint receive_all (st : AppFragmentReassembler) (author : PeerId) (inputs : list (list byte * Z * Z))
  : run (list (result (option AppMessage) NetError) * AppFragmentReassembler) :=
  match inputs with
  | [] => Ret ([], st)
  | (wire, now, created) :: rest =>
      let! (r, st) := receive st author wire now created in
      let! (rs, st) := receive_all st author rest in
      Ret (r :: rs, st)
  end.
Lemma make_fragment_message (m : AppMessage) h n i c :
  message_of_fragment (make_fragment m h n i c) (msg_payload m) = m.
Proof. by destruct m. Qed.

Section one_message.
Context (m : AppMessage) (author : PeerId).
Context (Hvalid : validate_app_message m = Ok tt) (Hlarge : large m).
Context (Hsource : msg_source_peer_id m = peer_to_string author).
Context (Hfrags : Forall (fun f => validate_fragment f = Ok tt) (fragments m)).

Definition the_key : ReassemblyKey :=
  {| rk_author := author; rk_nonce_hex := msg_nonce_hex m; rk_topic := msg_topic m |}.

(** The slots once the fragments [pre] have arrived. *)
Definition slot (pre : list AppFragment) (f : AppFragment) : option (list byte) :=
  if decide (f ∈ pre) then Some (fr_payload f) else None.

Fixpoint frag_bytes (pre : list AppFragment) : Z :=
  match pre with [] => 0 | f :: pre' => len (fr_payload f) + frag_bytes pre' end.

Lemma frag_bytes_app l l2 : frag_bytes (l ++ l2) = frag_bytes l + frag_bytes l2.
Proof using Type. induction l as [|f l IH]; cbn; lia. Qed.

Lemma frag_bytes_nonneg l : 0 <= frag_bytes l.
Proof using Type. induction l as [|f l IH]; cbn; ulia. Qed.

Record in_progress (c0 : Z) (pre : list AppFragment) (e : ReassemblyEntry) : Prop := {
  ip_fragment : re_fragment e ∈ fragments m;
  ip_created : re_created e = c0;
  ip_chunks : re_chunks e = slot pre <$> fragments m;
}.

Lemma slot_fill pre i f :
  fragments m !! i = Some f -> <[i := Some (fr_payload f)]> (slot pre <$> fragments m) = slot (f :: pre) <$> fragments m.
Proof using Type.
  intros Hi. apply list_eq. intros j. pose proof (fragments_NoDup m) as Hnd.
  destruct (decide (j = i)) as [->|Hne].
  - rewrite list_lookup_insert_eq by (rewrite length_fmap; by eapply lookup_lt_Some).
    rewrite list_lookup_fmap, Hi. cbn. unfold slot. by rewrite decide_True by (by left).
  - rewrite list_lookup_insert_ne, !list_lookup_fmap by done.
    destruct (fragments m !! j) as [g|] eqn:Hj; cbn; [|done]. f_equal. unfold slot.
    assert (g ≠ f) by (intros ->; apply Hne; by eapply NoDup_lookup).
    destruct (decide (g ∈ pre)); [by rewrite decide_True by (by right)|].
    by rewrite decide_False by (intros [?|?]%elem_of_cons; done).
Qed.

Lemma slot_missing pre :
  existsb is_missing (slot pre <$> fragments m) = false <-> fragments m ⊆ pre.
Proof using Type.
  rewrite <- not_true_iff_false, existsb_exists. split.
  - intros Hn f Hf. apply dec_stable. intros Hni. apply Hn. exists None. split; [|done].
    apply list_elem_of_In, list_elem_of_fmap. exists f. split; [|done]. unfold slot. by rewrite decide_False.
  - intros Hsub (c & Hc & Hmiss). apply list_elem_of_In, list_elem_of_fmap in Hc as (f & -> & Hf).
    unfold slot, is_missing in Hmiss. rewrite decide_True in Hmiss by (by apply Hsub).
    by apply bool_decide_eq_true in Hmiss.
Qed.

Lemma slot_all pre : fragments m ⊆ pre -> omap id (slot pre <$> fragments m) = fr_payload <$> fragments m.
Proof using Type.
  generalize (fragments m). induction l as [|f fs IH]; intros Hsub; [done|].
  rewrite !fmap_cons. unfold slot at 1. rewrite decide_True by (apply Hsub; by left).
  cbn [omap list_omap id]. f_equal. apply IH. intros g Hg. apply Hsub. by right.
Qed.

(** When every fragment is there, the payload is the message's. *)
Lemma in_progress_complete c0 pre e :
  in_progress c0 pre e -> fragments m ⊆ pre -> complete_result e = Ok (Some m).
Proof using Hvalid.
  intros [Hf _ Hc] Hsub. unfold complete_result. rewrite Hc, slot_all, fragments_concat by done.
  assert (message_of_fragment (re_fragment e) (msg_payload m) = m) as ->.
  { rewrite (fragments_envelope m _ _ Hf). apply make_fragment_message. }
  apply list_elem_of_lookup in Hf as [i Hi]. apply fragments_index in Hi as (_ & _ & -> & ->).
  rewrite decide_False by tauto. by rewrite Hvalid.
Qed.

Lemma new_entry_in_progress f c0 : f ∈ fragments m -> in_progress c0 [] (new_entry f c0).
Proof using Type.
  intros Hf. split; [done|done|]. cbn. apply list_elem_of_lookup in Hf as [i Hi].
  apply fragments_index in Hi as (_ & -> & _). rewrite <- fragments_length. unfold len. rewrite Nat2Z.id.
  generalize (fragments m). induction l as [|g fs IH]; cbn; [done|]. unfold slot at 1.
  rewrite decide_False by apply not_elem_of_nil. by f_equal.
Qed.

Lemma fragment_bytes_le pre f :
  NoDup (f :: pre) -> f :: pre ⊆ fragments m -> frag_bytes pre + len (fr_payload f) <= len (msg_payload m).
Proof using Type.
  intros Hnd Hsub. rewrite <- (fragments_concat m).
  assert (forall l : list AppFragment, len (concat (fr_payload <$> l)) = frag_bytes l) as Hlen.
  { induction l as [|g l IH]; [done|]. cbn. by rewrite len_app, IH. }
  rewrite Hlen. destruct (submseteq_Permutation (f :: pre) (fragments m)) as [rest Hp].
  { by apply NoDup_submseteq. }
  assert (forall l l', l ≡ₚ l' -> frag_bytes l = frag_bytes l') as Hperm by (induction 1; cbn; lia).
  rewrite (Hperm _ _ Hp), frag_bytes_app. cbn. pose proof (frag_bytes_nonneg rest). lia.
Qed.

(** The state between two fragments of the message. *)
Record progress (c0 P0 G0 : Z) (pre : list AppFragment) (st : AppFragmentReassembler) : Prop := {
  pg_wf : reasm_wf st;
  pg_peer : default 0 (r_peer_bytes st !! author) <= P0 + frag_bytes pre;
  pg_global : r_global_bytes st <= G0 + frag_bytes pre;
}.

Definition entry_state (c0 now created : Z) (pre : list AppFragment) (st : AppFragmentReassembler) : Prop :=
  (pre = [] /\ created = c0 /\ r_entries (expire st now) !! the_key = None) \/
  (exists e, r_entries st !! the_key = Some e /\ in_progress c0 pre e /\ sat_sub now c0 < FRAGMENT_EXPIRY).

Lemma fragment_fields f :
  f ∈ fragments m ->
  key_of author f = the_key /\ fr_source_peer_id f = peer_to_string author /\
  validate_fragment f = Ok tt /\ exists i, fragments m !! i = Some f /\ fr_index f = Z.of_nat i.
Proof using Hsource Hfrags.
  intros Hf. assert (validate_fragment f = Ok tt) as Hv by (by rewrite Forall_forall in Hfrags; apply Hfrags).
  apply list_elem_of_lookup in Hf as [i Hi]. pose proof (fragments_index m i f Hi) as [Hx _].
  assert (key_of author f = the_key /\ fr_source_peer_id f = peer_to_string author) as []
    by (apply fragments_lookup in Hi as [_ ->]; by rewrite <- Hsource).
  split_and!; eauto.
Qed.

(** The entry the push finds or makes is the one in progress. *)
Lemma entry_state_for c0 P0 G0 pre st f now created :
  progress c0 P0 G0 pre st -> entry_state c0 now created pre st -> f ∈ fragments m ->
  in_progress c0 pre (entry_for (expire st now) author f created).
Proof using Hsource Hfrags.
  intros Hp He Hf. destruct (fragment_fields f Hf) as (Hk & _).
  destruct (expire_spec st now author (pg_wf _ _ _ _ _ Hp)) as (_ & _ & _ & Hl).
  unfold entry_for. rewrite Hk. destruct He as [(-> & -> & ->)|(e & He & Hin & Ht)].
  - by apply new_entry_in_progress.
  - assert (r_entries (expire st now) !! the_key = Some e) as ->; [|done].
    apply Hl. split; [done|]. unfold is_expired. rewrite (ip_created _ _ _ Hin). lia.
Qed.

Context (c0 P0 G0 : Z).
Context (HP : P0 + len (msg_payload m) <= MAX_REASSEMBLY_BYTES_PER_PEER).
Context (HG : G0 + len (msg_payload m) <= MAX_REASSEMBLY_BYTES_GLOBAL).

(** One more fragment: stored, or the message is complete. *)
Lemma push_progress pre st f now created :
  progress c0 P0 G0 pre st -> entry_state c0 now created pre st ->
  NoDup (f :: pre) -> f :: pre ⊆ fragments m ->
  exists st', reasm_wf st' /\
    (fragments m ⊆ f :: pre -> push st author f now created = Ret (Ok (Some m), st')) /\
    (~ fragments m ⊆ f :: pre ->
       push st author f now created = Ret (Ok None, st') /\ progress c0 P0 G0 (f :: pre) st' /\
       exists e, r_entries st' !! the_key = Some e /\ in_progress c0 (f :: pre) e).
Proof using Hvalid Hsource Hfrags HP HG.
  intros Hpg He Hnd Hsub. assert (f ∈ fragments m) as Hf by (apply Hsub; by left).
  pose proof (fragment_bytes_le pre f Hnd Hsub) as Hbytes.
  pose proof (entry_state_for c0 P0 G0 pre st f now created Hpg He Hf) as Hin.
  destruct (fragment_fields f Hf) as (Hk & Hs & Hv & i & Hi & Hidx).
  destruct Hpg as [Hwf Hpeer Hglobal].
  destruct (expire_spec st now author Hwf) as (Hwf1 & Hg1 & Hp1 & _).
  destruct (found_wf st author f now created Hwf Hv Hs) as [_ Hwf2].
  assert (fits st author f now) as Hfits by (split; lia).
  rewrite push_eq by done. rewrite Hk in *. set (e := entry_for (expire st now) author f created) in *.
  set (st2 := found st author f now created) in *.
  assert (r_entries st2 !! the_key = Some e) as Hek
    by (unfold st2, found; rewrite Hk; apply lookup_insert_eq).
  assert (re_chunks e !! Z.to_nat (fr_index f) = Some None) as Hslot.
  { rewrite Hidx, Nat2Z.id, (ip_chunks _ _ _ Hin), list_lookup_fmap, Hi. cbn. unfold slot.
    rewrite decide_False; [done|]. by apply NoDup_cons in Hnd as [? _]. }
  rewrite (fragments_same m (re_fragment e) f) by (done || apply Hin). cbn [negb].
  rewrite push_chunk_eq by done. destruct Hfits as [Hfp Hfg].
  destruct (filled_wf st2 the_key e f Hwf2 Hek Hslot Hfp Hfg) as (Hwf3 & _ & Hg3 & Hp3).
  change (r_peer_bytes st2 !! rk_author the_key) with (r_peer_bytes (expire st now) !! author) in *.
  set (st3 := filled st2 the_key e f _) in *.
  assert (in_progress c0 (f :: pre) (fill e f)) as Hin'.
  { destruct Hin as [Hi1 Hi2 Hi3]. split; [done|done|]. cbn [fill re_chunks].
    rewrite Hi3, Hidx, Nat2Z.id. by apply slot_fill. }
  assert (r_entries st3 !! the_key = Some (fill e f)) as Hek3 by apply lookup_insert_eq.
  pose proof (slot_missing (f :: pre)) as Hmiss. rewrite <- (ip_chunks _ _ _ Hin') in Hmiss.
  destruct (existsb is_missing (re_chunks (fill e f))).
  - exists st3. split_and!; [done|intros H%Hmiss; done|]. intros _. split_and!; [done| |eauto].
    split; [done| |]; cbn [frag_bytes].
    + rewrite Hp3, lookup_insert_eq. cbn [from_option]. unfold id in *. lia.
    + rewrite Hg3. change (r_global_bytes st2) with (r_global_bytes (expire st now)). lia.
  - exists (release st3 the_key (fill e f)). split_and!; [by apply release_wf| |].
    + intros Hall. by rewrite (in_progress_complete c0 (f :: pre)).
    + intros Hn. by destruct Hn; apply Hmiss.
Qed.

Lemma receive_all_progress inputs fs pre st :
  Forall2 (fun i f => decode_fragment i.1.1 = Ok f) inputs fs ->
  progress c0 P0 G0 pre st -> fs ++ pre ≡ₚ fragments m ->
  match inputs with
  | [] => False
  | i :: rest => entry_state c0 i.1.2 i.2 pre st /\ Forall (fun j => sat_sub j.1.2 c0 < FRAGMENT_EXPIRY) rest
  end ->
  exists st', reasm_wf st' /\
    receive_all st author inputs = Ret (replicate (length inputs - 1) (Ok None) ++ [Ok (Some m)], st').
Proof using Hvalid Hsource Hfrags HP HG.
  intros Hdec. revert pre st. induction Hdec as [|[[w now] created] f rest fs Hw Hrest IH];
    intros pre st Hpg Hperm Hin; [done|]. destruct Hin as [He Htimes]. cbn [fst snd] in *.
  assert (NoDup (f :: fs ++ pre)) as Hnd by (change (f :: fs ++ pre) with ((f :: fs) ++ pre);
    rewrite Hperm; apply fragments_NoDup).
  assert (NoDup (f :: pre)) as Hnd'.
  { apply NoDup_cons in Hnd as [Hn Hnd]. apply NoDup_app in Hnd as (_ & _ & Hnd).
    apply NoDup_cons. split; [|done]. intros Hp. apply Hn, elem_of_app. by right. }
  assert (f :: pre ⊆ fragments m) as Hsub.
  { intros g Hg. rewrite <- Hperm. cbn. apply elem_of_cons in Hg as [->|Hg]; [by left|].
    right. apply elem_of_app. by right. }
  destruct (push_progress pre st f now created Hpg He Hnd' Hsub) as (st1 & Hwf1 & Hlast & Hmore).
  cbn [receive_all]. unfold receive. rewrite Hw. destruct Hrest as [|j g rest fs Hj Hrest].
  - cbn in Hperm. rewrite Hlast by (intros h Hh; by rewrite Hperm). by exists st1.
  - apply Forall_cons in Htimes as [Htj Htimes]. destruct Hmore as (-> & Hpg1 & e & Hk & Hin).
    { intros Hall. assert (g ∈ f :: pre) as Hg by (apply Hall; rewrite <- Hperm; right; left).
      apply NoDup_cons in Hnd as [Hnf Hnd]. apply elem_of_cons in Hg as [->|Hg].
      - apply Hnf. by left.
      - cbn in Hnd. apply NoDup_cons in Hnd as [Hng _]. apply Hng, elem_of_app. by right. }
    cbn [run_bind]. destruct (IH (f :: pre) st1 Hpg1) as (st' & Hwf' & ->).
    { rewrite <- Hperm. symmetry. apply (Permutation_middle (g :: fs) pre f). }
    { split; [|done]. right. eauto. }
    exists st'. split; [done|]. cbn [run_bind length Nat.sub]. by rewrite Nat.sub_0_r.
Qed.
End one_message.

Context {HXL : HexLaws HX} {HD : HexDigits HX} {BLL : Blake3Laws BL} {SFL : SerdeJsonLaws AppFragment SF}.

(** C11: A fragmented message arrives intact whatever order the network
    delivers its fragments in.  If the wires [fragment_message] wrote for a
    large message reach the reassembler in any order, all within 30 seconds of
    the first, with no older reassembly of the same key pending and with room
    under the ceilings, every wire but the last answers "incomplete" and the
    last one returns exactly the message; nothing is rejected and nothing
    panics. *)
Theorem fragmentation_roundtrip m author st wires w0 now0 c0 rest :
  fragment_message m = Ok wires -> large m -> msg_source_peer_id m = peer_to_string author ->
  reasm_wf st -> w0 :: rest.*1.*1 ≡ₚ wires ->
  r_entries (expire st now0) !! the_key m author = None ->
  Forall (fun i => sat_sub i.1.2 c0 < FRAGMENT_EXPIRY) rest ->
  default 0 (r_peer_bytes st !! author) + len (msg_payload m) <= MAX_REASSEMBLY_BYTES_PER_PEER ->
  r_global_bytes st + len (msg_payload m) <= MAX_REASSEMBLY_BYTES_GLOBAL ->
  exists st', reasm_wf st' /\
    receive_all st author ((w0, now0, c0) :: rest) =
      Ret (replicate (length wires - 1) (Ok None) ++ [Ok (Some m)], st').
Proof using HXL HD BLL SFL.
  intros Hfm Hl Hs Hwf Hperm Hfresh Htimes HP HG.
  destruct (fragment_message_large m wires Hl Hfm) as [Hv Hdec].
  pose proof (fragments_valid m Hv Hl) as Hfv.
  apply Forall2_flip in Hdec.
  destruct (Permutation_Forall2 (symmetry Hperm) Hdec) as (fs & Hfperm & Hfs).
  assert (length wires = length ((w0, now0, c0) :: rest)) as ->.
  { rewrite <- Hperm. cbn. by rewrite !length_fmap. }
  apply (receive_all_progress m author Hv Hs Hfv c0 (default 0 (r_peer_bytes st !! author))
    (r_global_bytes st) HP HG ((w0, now0, c0) :: rest) fs [] st).
  - change (w0 :: rest.*1.*1) with (((w0, now0, c0) :: rest).*1.*1) in Hfs.
    rewrite !Forall2_fmap_l in Hfs. eapply Forall2_impl; [exact Hfs|]. cbn. tauto.
  - split; [done|cbn; lia..].
  - by rewrite app_nil_r.
  - split; [|done]. by left.
Qed.
End reassembly.
