(* ===== verification/AppSecurity.v ===== *)
(** Freshness and replay protection of application messages
    (crates/protocol/app_security.rs). *)

From S2P Require Import Prelude Bytes Text Common ReplayCache Pulse AppMessage.

#[local] Open Scope Z_scope.

Definition APP_NONCE_BYTES : Z := 32.

Inductive AppMessageSecurityDecision :=
| AppAccept
| AppReject
| AppIgnoreDuplicate.

#[global] Instance AppMessageSecurityDecision_eq_dec : EqDecision AppMessageSecurityDecision.
Proof. solve_decision. Defined.

Section app_security.
Context `{HX : HexLib} `{PL : PeerIdLib}.

Record AppReplayKey := {
  app_key_source : PeerId;
  app_key_timestamp_ns : Z;
  app_key_nonce : list byte;
}.

#[global] Instance AppReplayKey_eq_dec : EqDecision AppReplayKey.
Proof. solve_decision. Defined.

#[global] Program Instance AppReplayKey_countable : Countable AppReplayKey :=
  inj_countable' (fun k => (app_key_source k, app_key_timestamp_ns k, app_key_nonce k))
    (fun '(s, t, n) => {| app_key_source := s; app_key_timestamp_ns := t; app_key_nonce := n |}) _.
Next Obligation. by intros []. Qed.

Definition AppMessageReplayCache : Type := ReplayCache AppReplayKey.

Definition AppMessageReplayCache_new (cfg : MessageSecurityConfig) : AppMessageReplayCache := {|
  capacity := Z.max (app_replay_cache_capacity cfg) 1;
  ttl_ns := sat_mul u64_max (app_replay_cache_ttl_secs cfg) NS_PER_SEC;
  entries := ∅;
  order := [];
|}.

Definition app_prune (c : AppMessageReplayCache) (now_ns : Z) : AppMessageReplayCache :=
  prune c now_ns.

Definition app_check_and_insert (c : AppMessageReplayCache) (key : AppReplayKey) (now_ns : Z)
  : bool * AppMessageReplayCache :=
  let c := app_prune c now_ns in
  if decide (is_Some (entries c !! key)) then (false, c)
  else (true, evict (set_window c (<[key := now_ns]> (entries c)) (order c ++ [key]))).

(** [decode_nonce] of this module: the text length is checked first, then
    [hex::decode_to_slice] fills the 32 bytes. *)
Definition app_decode_nonce (nonce_hex : string) : option (list byte) :=
  if decide (str_len nonce_hex ≠ APP_NONCE_BYTES * 2) then None
  else match hex_decode nonce_hex with
       | Ok nonce => if decide (len nonce = APP_NONCE_BYTES) then Some nonce else None
       | Err _ => None
       end.

Definition validate_app_message_security (source : PeerId) (m : AppMessage) (now_ns : Z)
    (cfg : MessageSecurityConfig) (replay_cache : AppMessageReplayCache)
  : AppMessageSecurityDecision * AppMessageReplayCache :=
  match app_decode_nonce (msg_nonce_hex m) with
  | None => (AppReject, replay_cache)
  | Some nonce =>
  if forallb (fun b => bool_decide (b = x00)) nonce then (AppReject, replay_cache) else
  let max_future_ns := sat_mul u64_max (max_app_message_future_skew_secs cfg) NS_PER_SEC in
  let max_age_ns := sat_mul u64_max (max_app_message_age_secs cfg) NS_PER_SEC in
  if decide (sat_add u64_max now_ns max_future_ns < msg_timestamp_ns m \/
             max_age_ns < sat_sub now_ns (msg_timestamp_ns m))
  then (AppReject, replay_cache)
  else
  let key := {| app_key_source := source; app_key_timestamp_ns := msg_timestamp_ns m;
                app_key_nonce := nonce |} in
  let (is_new, replay_cache) := app_check_and_insert replay_cache key now_ns in
  if negb is_new then (AppIgnoreDuplicate, replay_cache) else (AppAccept, replay_cache)
  end.

Lemma app_check_eq c key now : app_check_and_insert c key now = check_and_insert_key c (Some key) now.
Proof. done. Qed.

(** The replay identity of a message from a source. *)
Definition app_key (source : PeerId) (m : AppMessage) : option AppReplayKey :=
  (fun nonce => {| app_key_source := source; app_key_timestamp_ns := msg_timestamp_ns m;
                   app_key_nonce := nonce |}) <$> app_decode_nonce (msg_nonce_hex m).

Lemma security_cases source m now cfg c d c' :
  validate_app_message_security source m now cfg c = (d, c') ->
  (d = AppReject /\ c' = c) \/
  (exists k b, app_key source m = Some k /\ check_and_insert_key c (Some k) now = (b, c') /\
    d = (if b then AppAccept else AppIgnoreDuplicate) /\
    msg_timestamp_ns m <=
      sat_add u64_max now (sat_mul u64_max (max_app_message_future_skew_secs cfg) NS_PER_SEC) /\
    sat_sub now (msg_timestamp_ns m) <= sat_mul u64_max (max_app_message_age_secs cfg) NS_PER_SEC /\
    exists x, x ∈ app_key_nonce k /\ x ≠ x00).
Proof.
  unfold validate_app_message_security, app_key. destruct (app_decode_nonce _) as [nonce|]; cbn;
    [|intros [= <- <-]; by left].
  destruct (forallb _ nonce) eqn:Hz; [intros [= <- <-]; by left|].
  case_decide as Hfresh; [intros [= <- <-]; by left|].
  rewrite app_check_eq. destruct (check_and_insert_key _ _ _) as [b c''] eqn:Hc.
  intros Hd. right. eexists _, b. apply forallb_false_exists in Hz as (x & Hx & Hne).
  apply bool_decide_eq_false in Hne.
  destruct b; cbn in Hd; injection Hd as <- <-; split_and!; try done; try lia; by exists x.
Qed.

(** A run: the messages validated, in order, with the decisions taken. *)
Record app_event := {
  aev_source : PeerId;
  aev_message : AppMessage;
  aev_now : Z;
  aev_decision : AppMessageSecurityDecision;
}.

Inductive app_trace (cfg : MessageSecurityConfig)
  : AppMessageReplayCache -> list app_event -> AppMessageReplayCache -> Prop :=
| app_trace_nil c : app_trace cfg c [] c
| app_trace_cons c source m now d c1 tr c2 :
    validate_app_message_security source m now cfg c = (d, c1) ->
    app_trace cfg c1 tr c2 ->
    app_trace cfg c ({| aev_source := source; aev_message := m; aev_now := now;
                        aev_decision := d |} :: tr) c2.

Definition app_accepts (tr : list app_event) : nat :=
  length (List.filter (fun e => bool_decide (aev_decision e = AppAccept)) tr).

(** The same run, computed. *)
Fixpoint app_run (cfg : MessageSecurityConfig) (c : AppMessageReplayCache)
    (inputs : list (PeerId * AppMessage * Z)) : list app_event * AppMessageReplayCache :=
  match inputs with
  | [] => ([], c)
  | (source, m, now) :: rest =>
      let (d, c1) := validate_app_message_security source m now cfg c in
      let (tr, c2) := app_run cfg c1 rest in
      ({| aev_source := source; aev_message := m; aev_now := now; aev_decision := d |} :: tr, c2)
  end.

Lemma app_run_trace cfg c inputs : app_trace cfg c (app_run cfg c inputs).1 (app_run cfg c inputs).2.
Proof.
  revert c. induction inputs as [|[[source m] now] rest IH]; intros c; cbn; [constructor|].
  destruct (validate_app_message_security _ _ _ _ _) as [d c1] eqn:E.
  specialize (IH c1). destruct (app_run cfg c1 rest). cbn in *. by econstructor.
Qed.

Lemma app_run_inputs cfg c inputs :
  map (fun e => (aev_source e, aev_message e, aev_now e)) (app_run cfg c inputs).1 = inputs.
Proof.
  revert c. induction inputs as [|[[source m] now] rest IH]; intros c; cbn; [done|].
  destruct (validate_app_message_security _ _ _ _ _) as [d c1].
  specialize (IH c1). destruct (app_run cfg c1 rest). cbn in *. by rewrite IH.
Qed.

Lemma app_trace_calls cfg c tr c' :
  app_trace cfg c tr c' ->
  exists calls, call_trace c calls c' /\ news calls = app_accepts tr /\
    forall P : Z -> Prop, Forall (fun e => P (aev_now e)) tr -> Forall (fun k => P (call_now k)) calls.
Proof.
  induction 1 as [c|c source m now d c1 tr c2 Hv _ (calls & Hcalls & Hnews & Hall)].
  - exists []. split_and!; [constructor|done|by constructor].
  - apply security_cases in Hv as [[-> ->]|(k & b & _ & Hci & -> & _)].
    + exists calls. split_and!; [done|done|].
      intros P HP. apply Forall_cons in HP as [_ HP]. auto.
    + exists ({| call_now := now; call_key := Some k; call_new := b |} :: calls).
      split_and!.
      * by econstructor.
      * unfold news, app_accepts in *. cbn.
        destruct b; [rewrite bool_decide_eq_true_2 by done|rewrite bool_decide_eq_false_2 by done];
          cbn; lia.
      * intros P HP. apply Forall_cons in HP as [? HP]. constructor; auto.
Qed.

Lemma app_trace_app cfg c tr1 tr2 c2 :
  app_trace cfg c (tr1 ++ tr2) c2 <-> exists c1, app_trace cfg c tr1 c1 /\ app_trace cfg c1 tr2 c2.
Proof.
  revert c. induction tr1 as [|e tr1 IH]; intros c; cbn; split.
  - intros. exists c. split; [constructor|done].
  - intros (c1 & H1 & ?). by inversion H1; subst.
  - intros H1. inversion H1 as [|? ? ? ? ? c1 ? ? Hc Htr]; subst. apply IH in Htr as (c' & ? & ?).
    exists c'. split; [by econstructor|done].
  - intros (c1 & H1 & H2). inversion H1; subst. econstructor; [done|]. apply IH. eauto.
Qed.

Lemma app_expired_is_stale cfg t0 t1 ts :
  MessageSecurityConfig_validate cfg = Ok tt -> MessageSecurityConfig_wf cfg ->
  is_u64 t0 -> is_u64 t1 ->
  ts <= sat_add u64_max t0 (sat_mul u64_max (max_app_message_future_skew_secs cfg) NS_PER_SEC) ->
  sat_mul u64_max (app_replay_cache_ttl_secs cfg) NS_PER_SEC < sat_sub t1 t0 ->
  sat_mul u64_max (max_app_message_age_secs cfg) NS_PER_SEC < sat_sub t1 ts.
Proof.
  unfold MessageSecurityConfig_validate. guards. unfold MessageSecurityConfig_wf, NS_PER_SEC.
  intros. destruct_and!. ulia.
Qed.

Lemma app_key_not_accepted_twice cfg tr1 e0 tr2 e1 c :
  MessageSecurityConfig_validate cfg = Ok tt -> MessageSecurityConfig_wf cfg ->
  app_key (aev_source e1) (aev_message e1) = app_key (aev_source e0) (aev_message e0) ->
  app_trace cfg (AppMessageReplayCache_new cfg) (tr1 ++ e0 :: tr2 ++ [e1]) c ->
  aev_decision e0 = AppAccept ->
  is_u64 (aev_now e0) -> is_u64 (aev_now e1) -> Forall (fun e => aev_now e <= aev_now e1) tr2 ->
  Z.of_nat (app_accepts tr2) < app_replay_cache_capacity cfg ->
  aev_decision e1 ≠ AppAccept.
Proof.
  intros Hcfg Hwf Hkey Htr He0 Ht0 Ht1 Htr2 Hacc He1.
  apply app_trace_app in Htr as (c1 & Htr1 & Htr).
  inversion Htr as [|? source m t0 d0 c1' ? ? Hv0 Htr' Hev0]; subst; clear Htr.
  apply app_trace_app in Htr' as (c2 & Htrm & Htr').
  inversion Htr' as [|? source1 m' t1 d1 c2' ? ? Hv1 _ Hev1]; subst; clear Htr'.
  cbn [aev_source aev_message aev_now aev_decision] in *. subst d0 d1.
  apply app_trace_calls in Htr1 as (calls1 & Hcalls1 & _ & _).
  apply app_trace_calls in Htrm as (calls & Hcalls & Hnews & Hnow).
  destruct (call_trace_represents _ _ _ [] Hcalls1 ltac:(cbn; lia) (represents_empty _ _) ltac:(cbn; lia))
    as (w1 & Hw1 & Hcap1 & Httl1 & _). cbn in Hcap1, Httl1.
  apply security_cases in Hv0 as [[? _]|(k & b & Hk & Hci & Hb & Hfut & _)]; [done|].
  apply security_cases in Hv1 as [[? _]|(k' & b' & Hk' & Hci' & Hb' & _ & Hage & _)]; [done|].
  destruct b; [|done]. destruct b'; [|done]. rewrite Hkey, Hk in Hk'. injection Hk' as <-.
  assert (msg_timestamp_ns m' = msg_timestamp_ns m) as Hts.
  { unfold app_key in Hkey, Hk. rewrite Hk in Hkey.
    destruct (app_decode_nonce (msg_nonce_hex m)), (app_decode_nonce (msg_nonce_hex m')); cbn in *; simplify_eq; done. }
  destruct (decide (sat_sub t1 t0 <= ttl_ns c1)) as [Hlive|Hdead]; last first.
  { pose proof (app_expired_is_stale cfg t0 t1 _ Hcfg Hwf Ht0 Ht1 Hfut). rewrite Httl1, Hts in *. lia. }
  enough (true = false) by done.
  eapply (call_trace_not_new_twice c1 k t0 calls t1);
    [lia|exact Hw1| |by apply (Hnow (fun z => z <= t1))|done|lia].
  econstructor; [exact Hci|]. apply call_trace_app. exists c2. split; [done|].
  econstructor; [exact Hci'|constructor].
Qed.

(** The messages a run accepted have distinct replay keys, when its clock does
    not go back and the run is no longer than the window. *)
Lemma app_accepted_keys_NoDup cfg tr c :
  MessageSecurityConfig_validate cfg = Ok tt -> MessageSecurityConfig_wf cfg ->
  app_trace cfg (AppMessageReplayCache_new cfg) tr c ->
  StronglySorted Z.le (aev_now <$> tr) -> Forall (fun e => is_u64 (aev_now e)) tr ->
  len tr <= app_replay_cache_capacity cfg ->
  NoDup ((fun e => app_key (aev_source e) (aev_message e)) <$>
           filter (fun e => aev_decision e = AppAccept) tr).
Proof.
  intros Hcfg Hwf. revert c. induction tr as [|e tr IH] using rev_ind; intros c Htr Hs Hu Hlen; [constructor|].
  rewrite len_app in Hlen. change (len [e]) with 1 in Hlen.
  rewrite fmap_app in Hs. apply Forall_app in Hu as [Hu He]. apply Forall_cons in He as [He _].
  pose proof Htr as Htr0. apply app_trace_app in Htr0 as (c1 & Htr1 & _).
  specialize (IH c1 Htr1 (StronglySorted_app_1_l _ _ _ Hs) Hu ltac:(lia)).
  rewrite filter_app, fmap_app. cbn [filter list_filter]. destruct (decide (aev_decision e = AppAccept)) as [Hd|Hd];
    [|by rewrite app_nil_r].
  apply NoDup_app. split; [done|]. split; [|apply NoDup_singleton].
  intros k Hk ->%list_elem_of_singleton. apply list_elem_of_fmap in Hk as (e0 & Hk & He0).
  apply list_elem_of_filter in He0 as [Hd0 He0]. pose proof He0 as (tr1 & tr2 & ->)%list_elem_of_split.
  rewrite Forall_forall in Hu. rewrite <- app_assoc in Htr. cbn in Htr.
  eapply app_key_not_accepted_twice in Htr; try done.
  - by apply Hu.
  - apply Forall_forall. intros e2 He2. eapply (StronglySorted_app_1_elem_of _ _ [aev_now e]); [exact Hs| |by left].
    apply list_elem_of_fmap. exists e2. split; [done|]. apply elem_of_app. right. by right.
  - rewrite len_app in Hlen. unfold len in Hlen. cbn [length] in Hlen.
    assert (app_accepts tr2 <= length tr2)%nat by (unfold app_accepts; apply List.filter_length_le). lia.
Qed.

(** An application message is accepted at most once.  Under a validated
    configuration, once an author's message with some timestamp and nonce was
    accepted at [t0], any message of that author with the same timestamp and
    nonce (whatever its payload) is refused at any later [t1], provided no
    clock reading in between is past [t1] and fewer than
    [app_replay_cache_capacity] messages were accepted in between. *)
Theorem app_message_never_accepted_twice cfg tr1 source m m' t0 tr2 t1 d c :
  MessageSecurityConfig_validate cfg = Ok tt -> MessageSecurityConfig_wf cfg ->
  msg_timestamp_ns m' = msg_timestamp_ns m -> msg_nonce_hex m' = msg_nonce_hex m ->
  app_trace cfg (AppMessageReplayCache_new cfg)
    (tr1 ++ {| aev_source := source; aev_message := m; aev_now := t0; aev_decision := AppAccept |} ::
     tr2 ++ [{| aev_source := source; aev_message := m'; aev_now := t1; aev_decision := d |}]) c ->
  is_u64 t0 -> is_u64 t1 -> Forall (fun e => aev_now e <= t1) tr2 ->
  Z.of_nat (app_accepts tr2) < app_replay_cache_capacity cfg ->
  d ≠ AppAccept.
Proof.
  intros Hcfg Hwf Hts Hnonce Htr Ht0 Ht1 Htr2 Hacc.
  apply (app_key_not_accepted_twice cfg tr1 _ tr2 _ c Hcfg Hwf) in Htr; try done.
  unfold app_key. cbn. by rewrite Hts, Hnonce.
Qed.
End app_security.
