(* ===== verification/GossipEvents.v ===== *)
(** The gossip event handlers (crates/node/events/gossip.rs and
    crates/node/events/app.rs): whole handlers over the state they change, in
    the order the code changes it.  Gossipsub is seen through the validation
    verdicts reported to it, the application channel through what is sent on
    it. *)

From S2P Require Import Prelude Bytes Text BTree Common ReplayCache Pulse Reputation AppMessage.
From S2P Require Import Observability PeerBook Fragmentation Metrics AppSecurity.

#[local] Open Scope Z_scope.

(** [libp2p_gossipsub::MessageAcceptance]: the verdict on a message. *)
Inductive MessageAcceptance := MA_Accept | MA_Reject | MA_Ignore.

#[global] Instance MessageAcceptance_eq_dec : EqDecision MessageAcceptance.
Proof. solve_decision. Defined.

(** [libp2p_gossipsub::MessageId]: opaque bytes. *)
Definition MessageId : Type := list byte.

(** The clock readings of one handler call: wall clock in nanoseconds and in
    seconds, and the monotonic readings of the reputation store and of the
    reassembler (its expiry and the creation of an entry). *)
Record Clock := {
  unix_ns : Z;
  unix_secs : Z;
  instant : Z;
  expire_instant : Z;
  created_instant : Z;
}.

Section gossip.
Context `{HX : HexLib} `{BL : Blake3Lib} `{PL : PeerIdLib} `{ML : !MultiaddrLib}
  `{SJ : SerdeJson AppMessage} `{SF : SerdeJson AppFragment}.

(** The parts of [SwarmEventContext] the gossip handlers read or change, with
    the reports made to Gossipsub and the messages sent to the application. *)
Record SwarmEventContext := {
  cx_rep : ReputationStore;
  cx_replay_cache : HeartbeatReplayCache;
  cx_app_replay_cache : AppMessageReplayCache;
  cx_reassembler : AppFragmentReassembler;
  cx_peer_book : PeerBook;
  cx_unverified_relayed_peers : gmap PeerId Z;
  cx_metrics : NodeMetrics;
  cx_observability : ObservabilityBatch;
  cx_app_messages : list AppMessage;
  cx_reports : list (MessageId * PeerId * MessageAcceptance);
  cx_message_security : MessageSecurityConfig;
  cx_network_id : Z;
  cx_local_peer : PeerId;
  cx_application_namespaces : list string;
}.

Definition set_rep (x : ReputationStore) (c : SwarmEventContext) : SwarmEventContext := {|
  cx_rep := x; cx_replay_cache := cx_replay_cache c; cx_app_replay_cache := cx_app_replay_cache c;
  cx_reassembler := cx_reassembler c; cx_peer_book := cx_peer_book c;
  cx_unverified_relayed_peers := cx_unverified_relayed_peers c; cx_metrics := cx_metrics c;
  cx_observability := cx_observability c; cx_app_messages := cx_app_messages c;
  cx_reports := cx_reports c; cx_message_security := cx_message_security c;
  cx_network_id := cx_network_id c; cx_local_peer := cx_local_peer c;
  cx_application_namespaces := cx_application_namespaces c |}.

Definition set_replay_cache (x : HeartbeatReplayCache) (c : SwarmEventContext) : SwarmEventContext := {|
  cx_rep := cx_rep c; cx_replay_cache := x; cx_app_replay_cache := cx_app_replay_cache c;
  cx_reassembler := cx_reassembler c; cx_peer_book := cx_peer_book c;
  cx_unverified_relayed_peers := cx_unverified_relayed_peers c; cx_metrics := cx_metrics c;
  cx_observability := cx_observability c; cx_app_messages := cx_app_messages c;
  cx_reports := cx_reports c; cx_message_security := cx_message_security c;
  cx_network_id := cx_network_id c; cx_local_peer := cx_local_peer c;
  cx_application_namespaces := cx_application_namespaces c |}.

Definition set_app_replay_cache (x : AppMessageReplayCache) (c : SwarmEventContext) : SwarmEventContext := {|
  cx_rep := cx_rep c; cx_replay_cache := cx_replay_cache c; cx_app_replay_cache := x;
  cx_reassembler := cx_reassembler c; cx_peer_book := cx_peer_book c;
  cx_unverified_relayed_peers := cx_unverified_relayed_peers c; cx_metrics := cx_metrics c;
  cx_observability := cx_observability c; cx_app_messages := cx_app_messages c;
  cx_reports := cx_reports c; cx_message_security := cx_message_security c;
  cx_network_id := cx_network_id c; cx_local_peer := cx_local_peer c;
  cx_application_namespaces := cx_application_namespaces c |}.

Definition set_reassembler (x : AppFragmentReassembler) (c : SwarmEventContext) : SwarmEventContext := {|
  cx_rep := cx_rep c; cx_replay_cache := cx_replay_cache c;
  cx_app_replay_cache := cx_app_replay_cache c; cx_reassembler := x;
  cx_peer_book := cx_peer_book c; cx_unverified_relayed_peers := cx_unverified_relayed_peers c;
  cx_metrics := cx_metrics c; cx_observability := cx_observability c;
  cx_app_messages := cx_app_messages c; cx_reports := cx_reports c;
  cx_message_security := cx_message_security c; cx_network_id := cx_network_id c;
  cx_local_peer := cx_local_peer c; cx_application_namespaces := cx_application_namespaces c |}.

Definition set_peer_book (x : PeerBook) (c : SwarmEventContext) : SwarmEventContext := {|
  cx_rep := cx_rep c; cx_replay_cache := cx_replay_cache c;
  cx_app_replay_cache := cx_app_replay_cache c; cx_reassembler := cx_reassembler c;
  cx_peer_book := x; cx_unverified_relayed_peers := cx_unverified_relayed_peers c;
  cx_metrics := cx_metrics c; cx_observability := cx_observability c;
  cx_app_messages := cx_app_messages c; cx_reports := cx_reports c;
  cx_message_security := cx_message_security c; cx_network_id := cx_network_id c;
  cx_local_peer := cx_local_peer c; cx_application_namespaces := cx_application_namespaces c |}.

Definition set_unverified (x : gmap PeerId Z) (c : SwarmEventContext) : SwarmEventContext := {|
  cx_rep := cx_rep c; cx_replay_cache := cx_replay_cache c;
  cx_app_replay_cache := cx_app_replay_cache c; cx_reassembler := cx_reassembler c;
  cx_peer_book := cx_peer_book c; cx_unverified_relayed_peers := x; cx_metrics := cx_metrics c;
  cx_observability := cx_observability c; cx_app_messages := cx_app_messages c;
  cx_reports := cx_reports c; cx_message_security := cx_message_security c;
  cx_network_id := cx_network_id c; cx_local_peer := cx_local_peer c;
  cx_application_namespaces := cx_application_namespaces c |}.

Definition set_metrics (x : NodeMetrics) (c : SwarmEventContext) : SwarmEventContext := {|
  cx_rep := cx_rep c; cx_replay_cache := cx_replay_cache c;
  cx_app_replay_cache := cx_app_replay_cache c; cx_reassembler := cx_reassembler c;
  cx_peer_book := cx_peer_book c; cx_unverified_relayed_peers := cx_unverified_relayed_peers c;
  cx_metrics := x; cx_observability := cx_observability c; cx_app_messages := cx_app_messages c;
  cx_reports := cx_reports c; cx_message_security := cx_message_security c;
  cx_network_id := cx_network_id c; cx_local_peer := cx_local_peer c;
  cx_application_namespaces := cx_application_namespaces c |}.

Definition set_observability (x : ObservabilityBatch) (c : SwarmEventContext) : SwarmEventContext := {|
  cx_rep := cx_rep c; cx_replay_cache := cx_replay_cache c;
  cx_app_replay_cache := cx_app_replay_cache c; cx_reassembler := cx_reassembler c;
  cx_peer_book := cx_peer_book c; cx_unverified_relayed_peers := cx_unverified_relayed_peers c;
  cx_metrics := cx_metrics c; cx_observability := x; cx_app_messages := cx_app_messages c;
  cx_reports := cx_reports c; cx_message_security := cx_message_security c;
  cx_network_id := cx_network_id c; cx_local_peer := cx_local_peer c;
  cx_application_namespaces := cx_application_namespaces c |}.

Definition set_app_messages (x : list AppMessage) (c : SwarmEventContext) : SwarmEventContext := {|
  cx_rep := cx_rep c; cx_replay_cache := cx_replay_cache c;
  cx_app_replay_cache := cx_app_replay_cache c; cx_reassembler := cx_reassembler c;
  cx_peer_book := cx_peer_book c; cx_unverified_relayed_peers := cx_unverified_relayed_peers c;
  cx_metrics := cx_metrics c; cx_observability := cx_observability c; cx_app_messages := x;
  cx_reports := cx_reports c; cx_message_security := cx_message_security c;
  cx_network_id := cx_network_id c; cx_local_peer := cx_local_peer c;
  cx_application_namespaces := cx_application_namespaces c |}.

Definition set_reports (x : list (MessageId * PeerId * MessageAcceptance)) (c : SwarmEventContext) : SwarmEventContext := {|
  cx_rep := cx_rep c; cx_replay_cache := cx_replay_cache c;
  cx_app_replay_cache := cx_app_replay_cache c; cx_reassembler := cx_reassembler c;
  cx_peer_book := cx_peer_book c; cx_unverified_relayed_peers := cx_unverified_relayed_peers c;
  cx_metrics := cx_metrics c; cx_observability := cx_observability c;
  cx_app_messages := cx_app_messages c; cx_reports := x;
  cx_message_security := cx_message_security c; cx_network_id := cx_network_id c;
  cx_local_peer := cx_local_peer c; cx_application_namespaces := cx_application_namespaces c |}.

Definition report_message_validation_result (c : SwarmEventContext) (message_id : MessageId)
    (propagation_source : PeerId) (a : MessageAcceptance) : SwarmEventContext :=
  set_reports (cx_reports c ++ [(message_id, propagation_source, a)]) c.

Definition upd_observability (f : ObservabilityBatch -> ObservabilityBatch) (c : SwarmEventContext)
  : SwarmEventContext := set_observability (f (cx_observability c)) c.

Definition receive_bytes (peer : option PeerId) (topic : option string) (bytes : Z) (c : SwarmEventContext)
  : SwarmEventContext :=
  set_metrics (set_bandwidth (cx_metrics c)
    (record_received (bandwidth (cx_metrics c)) peer topic bytes)) c.

(** * Heartbeats (gossip.rs) *)
Definition record_heartbeat_peer (clk : Clock) (peer : PeerId) (c : SwarmEventContext) : SwarmEventContext :=
  let book := foldl (fun b ns => record_namespace b peer ns Connected (unix_secs clk))
                (cx_peer_book c) (cx_application_namespaces c) in
  let book := record_connected book peer None (unix_secs clk) in
  set_unverified (delete peer (cx_unverified_relayed_peers c)) (set_peer_book book c).

Definition reject_heartbeat (clk : Clock) (propagation_source offender : PeerId) (msg_id : MessageId)
    (reason : string) (c : SwarmEventContext) : SwarmEventContext :=
  let c := set_rep (penalize_invalid (cx_rep c) offender (instant clk)) c in
  let c := report_message_validation_result c msg_id propagation_source MA_Reject in
  let c := upd_observability gossip_rejected c in
  upd_observability (fun o => pulse o ("peer " +:+ peer_to_string offender +:+ " " +:+ reason)) c.

Definition handle_heartbeat_message (clk : Clock) (propagation_source : PeerId)
    (authenticated_source : option PeerId) (msg_id : MessageId) (data : list byte)
    (c : SwarmEventContext) : run SwarmEventContext :=
  let c := receive_bytes (Some propagation_source) (Some "heartbeat"%string)
             (accounted_transport_bytes (len data)) c in
  match authenticated_source with
  | None => Ret (reject_heartbeat clk propagation_source propagation_source msg_id
                   "rejected_missing_authenticated_author" c)
  | Some author =>
  let! (validation, cache) := validate_heartbeat_wire author data (unix_ns clk)
                                (cx_message_security c) (cx_replay_cache c) in
  let c := set_replay_cache cache c in
  match decision validation with
  | Accept =>
      let c := set_rep (accept (cx_rep c) author (instant clk)) c in
      let c := report_message_validation_result c msg_id propagation_source MA_Accept in
      let peer_dirty := bool_decide (is_Some (envelope validation)) in
      let c := if peer_dirty then record_heartbeat_peer clk author c else c in
      let c := upd_observability (fun o => gossip_accepted o peer_dirty) c in
      Ret (match envelope validation with
           | Some env => upd_observability (fun o =>
               pulse o ("peer heartbeat " +:+ hb_peer_id env +:+ " " +:+ hb_nonce_hex env)) c
           | None => c
           end)
  | IgnoreDuplicate =>
      let c := set_rep (ignore_duplicate (cx_rep c) author (instant clk)) c in
      let c := report_message_validation_result c msg_id propagation_source MA_Ignore in
      let c := upd_observability gossip_ignored c in
      Ret (upd_observability (fun o =>
             pulse o ("peer " +:+ peer_to_string author +:+ " ignored_duplicate_heartbeat")) c)
  | RejectOversize => Ret (reject_heartbeat clk propagation_source author msg_id "rejected_oversize" c)
  | Reject => Ret (reject_heartbeat clk propagation_source author msg_id "rejected_heartbeat" c)
  end
  end.

Definition handle_unexpected_topic_message (peer : PeerId) (msg_id : MessageId) (c : SwarmEventContext)
  : SwarmEventContext :=
  let c := report_message_validation_result c msg_id peer MA_Ignore in
  let c := upd_observability gossip_ignored c in
  upd_observability (fun o =>
    pulse o ("peer " +:+ peer_to_string peer +:+ " ignored_unexpected_gossip_topic")) c.

(** * Application messages (app.rs) *)
Definition reject_app_message (clk : Clock) (propagation_source : PeerId) (message_id : MessageId)
    (authenticated_source : option PeerId) (accounted_bytes : Z) (reason : string)
    (c : SwarmEventContext) : SwarmEventContext :=
  let c := match authenticated_source with
           | Some author => set_rep (penalize_invalid (cx_rep c) author (instant clk)) c
           | None => c
           end in
  let c := report_message_validation_result c message_id propagation_source MA_Reject in
  let c := receive_bytes (Some propagation_source) None accounted_bytes c in
  let c := upd_observability app_rejected c in
  upd_observability (fun o => pulse o ("peer " +:+ peer_to_string propagation_source +:+
                                       " rejected_app_message " +:+ reason)) c.

Definition process_complete_message (clk : Clock) (propagation_source author : PeerId)
    (message_id : MessageId) (received_topic : TopicHash) (accounted_bytes : Z) (message : AppMessage)
    (c : SwarmEventContext) : SwarmEventContext :=
  if bool_decide (msg_network_id message ≠ cx_network_id c) ||
     negb (is_ok (validate_app_message_authentication message author received_topic))
  then reject_app_message clk propagation_source message_id (Some author) accounted_bytes
         "application authentication/topic mismatch" c
  else
  let (d, cache) := validate_app_message_security author message (unix_ns clk)
                      (cx_message_security c) (cx_app_replay_cache c) in
  let c := set_app_replay_cache cache c in
  match d with
  | AppIgnoreDuplicate =>
      let c := set_rep (ignore_duplicate (cx_rep c) author (instant clk)) c in
      let c := report_message_validation_result c message_id propagation_source MA_Ignore in
      let c := receive_bytes (Some propagation_source) (Some (msg_topic message)) accounted_bytes c in
      let c := upd_observability app_ignored c in
      upd_observability (fun o =>
        pulse o ("peer " +:+ peer_to_string author +:+ " ignored_duplicate_app_message")) c
  | AppReject =>
      reject_app_message clk propagation_source message_id (Some author) accounted_bytes
        "application freshness/replay validation failed" c
  | AppAccept =>
      let c := report_message_validation_result c message_id propagation_source MA_Accept in
      let c := set_rep (accept (cx_rep c) author (instant clk)) c in
      let c := receive_bytes (Some propagation_source) (Some (msg_topic message)) accounted_bytes c in
      if is_for_peer message (cx_local_peer c)
      then upd_observability app_received (set_app_messages (cx_app_messages c ++ [message]) c)
      else upd_observability app_ignored c
  end.

Definition handle_app_message (clk : Clock) (propagation_source : PeerId)
    (authenticated_source : option PeerId) (message_id : MessageId) (received_topic : TopicHash)
    (data : list byte) (c : SwarmEventContext) : run SwarmEventContext :=
  let accounted_bytes := accounted_transport_bytes (len data) in
  match authenticated_source with
  | None => Ret (reject_app_message clk propagation_source message_id None accounted_bytes
                   "missing authenticated Gossipsub author" c)
  | Some author =>
  let reject := reject_app_message clk propagation_source message_id (Some author) accounted_bytes in
  let complete := process_complete_message clk propagation_source author message_id received_topic
                    accounted_bytes in
  match decode_app_message data with
  | Ok message => Ret (complete message c)
  | Err _ =>
  match decode_fragment data with
  | Err _ => Ret (reject "invalid application envelope/fragment"%string c)
  | Ok fragment =>
  match app_ident_topic (fr_network_id fragment) (fr_topic fragment) with
  | Err _ => Ret (reject "invalid fragment topic"%string c)
  | Ok expected_topic =>
  if decide (fr_network_id fragment ≠ cx_network_id c \/
             fr_source_peer_id fragment ≠ peer_to_string author \/
             expected_topic ≠ received_topic)
  then Ret (reject "fragment authentication/topic mismatch"%string c)
  else
  let! (pushed, reassembler) := push (cx_reassembler c) author fragment
                                  (expire_instant clk) (created_instant clk) in
  let c := set_reassembler reassembler c in
  match pushed with
  | Err _ => Ret (reject "fragment reassembly rejected"%string c)
  | Ok reassembled =>
  let c := receive_bytes (Some propagation_source) None accounted_bytes c in
  match reassembled with
  | None => Ret (report_message_validation_result c message_id propagation_source MA_Accept)
  | Some message => Ret (complete message c)
  end end end end end end.

(** A message delivered by Gossipsub, dispatched on its topic as
    [handle_swarm_event] does. *)
Record GossipMessage := {
  gm_propagation_source : PeerId;
  gm_source : option PeerId;
  gm_id : MessageId;
  gm_topic : TopicHash;
  gm_data : list byte;
}.

Definition handle_gossip_message (heartbeat_topic_hash : TopicHash) (app_topic_hashes : list TopicHash)
    (clk : Clock) (m : GossipMessage) (c : SwarmEventContext) : run SwarmEventContext :=
  if decide (gm_topic m = heartbeat_topic_hash) then
    handle_heartbeat_message clk (gm_propagation_source m) (gm_source m) (gm_id m) (gm_data m) c
  else if decide (gm_topic m ∈ app_topic_hashes) then
    handle_app_message clk (gm_propagation_source m) (gm_source m) (gm_id m) (gm_topic m) (gm_data m) c
  else Ret (handle_unexpected_topic_message (gm_propagation_source m) (gm_id m) c).
End gossip.
