(* ===== verification/GossipFacts.v ===== *)
(** The gossip handlers, end to end: they never panic, keep the invariants of
    every component they touch, report exactly one verdict per message, and
    deliver to the application only authenticated, fresh messages, each at most
    once. *)

From S2P Require Import Prelude Bytes Text BTree Common ReplayCache Pulse PulseFacts Reputation.
From S2P Require Import Reputation AppMessage Observability PeerBook.
From S2P Require Import Fragmentation ReassemblyFacts Metrics AppSecurity.
From S2P Require Import GossipEvents.

#[local] Open Scope Z_scope.

(** [serde] reads a [usize] as a number that is not negative. *)
Class SerdeUsize (S : SerdeJson AppFragment) : Prop := {
  json_index_nonneg raw f : json_from_slice raw = Ok f -> 0 <= fr_index f;
}.

Section gossip_facts.
Context `{HX : HexLib} `{BL : Blake3Lib} `{PL : PeerIdLib} `{ML : !MultiaddrLib}
  `{SJ : SerdeJson AppMessage} `{SF : SerdeJson AppFragment} {SU : SerdeUsize SF}.

Implicit Types (c : SwarmEventContext) (clk : Clock).

(** Simplification of field reads through the handlers' updates. *)
Ltac ctx_simpl := cbn [set_rep set_replay_cache set_app_replay_cache set_reassembler set_peer_book
  set_unverified set_metrics set_observability set_app_messages set_reports
  upd_observability receive_bytes report_message_validation_result
  cx_rep cx_replay_cache cx_app_replay_cache cx_reassembler cx_peer_book cx_unverified_relayed_peers
  cx_metrics cx_observability cx_app_messages cx_reports cx_message_security cx_network_id
  cx_local_peer cx_application_namespaces].

(** A bounded replay window. *)
Definition cache_wf {K} `{Countable K} (r : ReplayCache K) : Prop :=
  1 <= capacity r /\ exists w, represents r w /\ Z.of_nat (length w) <= capacity r.

(** The invariants of the components, together. *)
Record ctx_wf (c : SwarmEventContext) : Prop := {
  cw_rep : rep_wf (cx_rep c);
  cw_replay : cache_wf (cx_replay_cache c);
  cw_app_replay : cache_wf (cx_app_replay_cache c);
  cw_reassembler : reasm_wf (cx_reassembler c);
  cw_book : book_idx (cx_peer_book c) /\ book_bounded (cx_peer_book c);
}.

Lemma check_cache_wf {K} `{Countable K} (r : ReplayCache K) key now b r' :
  cache_wf r -> check_and_insert_key r key now = (b, r') -> cache_wf r'.
Proof.
  intros (Hc & w & Hw & Hl) Hci. destruct (check_refines r w key now ltac:(lia) Hw) as (_ & Hr & Hcap & _).
  rewrite Hci in Hr, Hcap. cbn [snd] in *. split; [lia|]. eexists. split; [exact Hr|].
  rewrite Hcap. apply window_check_bounded; lia.
Qed.

(** * Heartbeats *)
Lemma validate_heartbeat_total author data now cfg r :
  cache_wf r ->
  exists v r', validate_heartbeat_wire author data now cfg r = Ret (v, r') /\ cache_wf r'.
Proof.
  intros Hr. assert (exists v r', validate_heartbeat_wire author data now cfg r = Ret (v, r')) as (v & r' & Hv).
  { unfold validate_heartbeat_wire. case_decide; [eauto|].
    destruct (decode_cases data) as [[e ->]|(env & -> & _)]; cbn [run_bind]; [eauto|].
    destruct (verify_heartbeat_with_config _ _ _ _); cbn [negb]; [|eauto].
    destruct (check_and_insert _ _ _ _) as [[] ?]; cbn; eauto. }
  exists v, r'. split; [done|]. apply validate_cases in Hv as [[_ ->]|(env & b & _ & _ & _ & Hci & _)]; [done|].
  by eapply check_cache_wf.
Qed.

Lemma record_namespaces_idx b p nss now :
  book_idx b -> book_bounded b -> pb_len b + Z.of_nat (length nss) < usize_max ->
  let b' := foldl (fun b ns => record_namespace b p ns Connected now) b nss in
  book_idx b' /\ book_bounded b' /\ pb_len b' <= pb_len b + Z.of_nat (length nss).
Proof.
  revert b. induction nss as [|n nss IH]; intros b Hi Hb Hl; cbn [foldl]; [split_and!; cbn; [done..|lia]|].
  assert (good_mutate (fun r => add_namespace n (add_source Connected r))) as Hf by (by apply good_id_addrs).
  cbn [length] in Hl.
  destruct (mutate_peer_spec b p _ now Hi Hf ltac:(lia)) as (Hi1 & Hb1 & He).
  assert (pb_len (record_namespace b p n Connected now) <= pb_len b + 1) as Hl1.
  { unfold record_namespace, pb_len. etrans; [apply inj_le, map_subseteq_size, (ef_sub _ _ He)|].
    cbn [synced pb_peers]. destruct (pb_peers b !! p) eqn:E.
    - rewrite map_size_insert_Some by eauto. lia.
    - rewrite map_size_insert_None by done. lia. }
  destruct (IH _ Hi1 Hb1 ltac:(unfold record_namespace in *; lia)) as (? & ? & ?).
  unfold record_namespace in *. split_and!; [done..|]. cbn [length]. lia.
Qed.

Lemma record_heartbeat_peer_wf clk p c :
  ctx_wf c -> pb_len (cx_peer_book c) + Z.of_nat (length (cx_application_namespaces c)) < usize_max ->
  ctx_wf (record_heartbeat_peer clk p c) /\
  cx_reports (record_heartbeat_peer clk p c) = cx_reports c /\
  cx_app_messages (record_heartbeat_peer clk p c) = cx_app_messages c /\
  cx_app_replay_cache (record_heartbeat_peer clk p c) = cx_app_replay_cache c.
Proof.
  intros [H1 H2 H3 H4 [Hi Hb]] Hl.
  destruct (record_namespaces_idx (cx_peer_book c) p (cx_application_namespaces c) (unix_secs clk) Hi Hb Hl)
    as (Hi1 & Hb1 & Hl1).
  destruct (mutate_peer_spec _ p _ (unix_secs clk) Hi1 (good_connected None) ltac:(lia)) as (Hi2 & Hb2 & _).
  split_and!; [|done..]. by split.
Qed.

(** The map of peers may grow by one record per namespace and call; a real map
    never comes close to [usize::MAX] records. *)
Definition room (c : SwarmEventContext) : Prop :=
  pb_len (cx_peer_book c) + Z.of_nat (length (cx_application_namespaces c)) < usize_max.

(** What a handler call did: kept the invariants and made one report. *)
Definition reported (c c' : SwarmEventContext) (id : MessageId) (src : PeerId) (a : MessageAcceptance) : Prop :=
  ctx_wf c' /\ cx_reports c' = cx_reports c ++ [(id, src, a)].

Lemma reject_heartbeat_wf clk src offender id reason c :
  ctx_wf c -> reported c (reject_heartbeat clk src offender id reason c) id src MA_Reject.
Proof.
  intros [H1 H2 H3 H4 H5]. split; [|done]. split; unfold reject_heartbeat; ctx_simpl; try done.
  by apply update_peer_wf; [apply on_invalid_good|].
Qed.

Lemma reject_app_message_wf clk src id author n reason c :
  ctx_wf c -> reported c (reject_app_message clk src id author n reason c) id src MA_Reject /\
  cx_app_messages (reject_app_message clk src id author n reason c) = cx_app_messages c /\
  cx_app_replay_cache (reject_app_message clk src id author n reason c) = cx_app_replay_cache c.
Proof.
  intros [H1 H2 H3 H4 H5]. unfold reject_app_message.
  destruct author as [a|]; split_and!; try done; split; ctx_simpl; try done.
  split; ctx_simpl; try done. by apply update_peer_wf; [apply on_invalid_good|].
Qed.

Definition cfg_same (c c' : SwarmEventContext) : Prop :=
  cx_message_security c' = cx_message_security c /\ cx_network_id c' = cx_network_id c /\
  cx_local_peer c' = cx_local_peer c /\ cx_application_namespaces c' = cx_application_namespaces c.

(** The application side is untouched. *)
Definition app_same (c c' : SwarmEventContext) : Prop :=
  cx_app_messages c' = cx_app_messages c /\ cx_app_replay_cache c' = cx_app_replay_cache c.

Lemma handle_heartbeat_spec clk src author id data c :
  ctx_wf c -> room c ->
  exists c' a, handle_heartbeat_message clk src author id data c = Ret c' /\
    reported c c' id src a /\ cfg_same c c' /\ app_same c c'.
Proof.
  intros Hc Hroom. unfold handle_heartbeat_message. set (c1 := receive_bytes _ _ _ c).
  assert (ctx_wf c1) as Hc1 by (by destruct Hc).
  destruct author as [author|]; last first.
  { eexists _, MA_Reject. split_and!; [done| |done..]. exact (reject_heartbeat_wf _ _ _ _ _ c1 Hc1). }
  destruct (validate_heartbeat_total author data (unix_ns clk) (cx_message_security c1) (cx_replay_cache c1)
    (cw_replay _ Hc1)) as (v & r & -> & Hr). cbn [run_bind]. set (c2 := set_replay_cache r c1).
  assert (ctx_wf c2) as Hc2 by (by destruct Hc1).
  destruct (decision v).
  - set (c3 := report_message_validation_result _ _ _ _). assert (ctx_wf c3) as Hc3.
    { destruct Hc2. split; try done. by apply update_peer_wf; [apply on_accept_good|]. }
    destruct (record_heartbeat_peer_wf clk author c3 Hc3 Hroom) as (Hc4 & Hr4 & Ha4 & Hp4).
    case_bool_decide as Hen; destruct (envelope v) as [env|]; try (by destruct Hen); try (by exfalso; eauto);
      eexists _, _; (split; [reflexivity|]); (split; [split|by split]).
    + by destruct Hc4.
    + ctx_simpl. rewrite Hr4. done.
    + by destruct Hc3.
    + done.
  - eexists _, MA_Reject. split_and!; [done| |done..]. exact (reject_heartbeat_wf _ _ _ _ _ c2 Hc2).
  - eexists _, _. split_and!; [reflexivity| |done..]. split; [|done]. destruct Hc2. split; try done.
    by apply update_peer_wf; [apply on_duplicate_good|].
  - eexists _, MA_Reject. split_and!; [done| |done..]. exact (reject_heartbeat_wf _ _ _ _ _ c2 Hc2).
Qed.

(** What a complete message went through. *)
Definition security_ran (clk : Clock) (author : PeerId) (m : AppMessage) (received : TopicHash)
    (c c' : SwarmEventContext) : Prop :=
  msg_network_id m = cx_network_id c /\
  validate_app_message_authentication m author received = Ok tt /\
  exists d, validate_app_message_security author m (unix_ns clk) (cx_message_security c) (cx_app_replay_cache c)
      = (d, cx_app_replay_cache c') /\
    cx_app_messages c' =
      if bool_decide (d = AppAccept) && is_for_peer m (cx_local_peer c)
      then cx_app_messages c ++ [m] else cx_app_messages c.

Lemma validate_security_wf author m now cfg r d r' :
  cache_wf r -> validate_app_message_security author m now cfg r = (d, r') -> cache_wf r'.
Proof.
  intros Hr [[_ ->]|(k & b & _ & Hci & _)]%security_cases; [done|]. by eapply check_cache_wf.
Qed.

Lemma process_complete_spec clk src author id received n m c :
  ctx_wf c ->
  let c' := process_complete_message clk src author id received n m c in
  (exists a, reported c c' id src a) /\ cfg_same c c' /\
  (app_same c c' \/ security_ran clk author m received c c').
Proof.
  intros Hc c'. subst c'. unfold process_complete_message. destruct (_ || _) eqn:Hauth.
  { destruct (reject_app_message_wf clk src id (Some author) n "application authentication/topic mismatch" c Hc)
      as (Hr & Ha & Hp). split; [by eexists|]. split; [done|left; by split]. }
  apply orb_false_iff in Hauth as [Hn Hauth]. apply bool_decide_eq_false, dec_stable in Hn.
  apply negb_false_iff in Hauth.
  assert (validate_app_message_authentication m author received = Ok tt) as Hok
    by (by destruct (validate_app_message_authentication m author received) as [[]|]).
  destruct (validate_app_message_security author m (unix_ns clk) (cx_message_security c) (cx_app_replay_cache c))
    as [d r] eqn:Hs. pose proof (validate_security_wf _ _ _ _ _ _ _ (cw_app_replay _ Hc) Hs) as Hr.
  set (c1 := set_app_replay_cache r c). assert (ctx_wf c1) as Hc1 by (by destruct Hc).
  assert (forall c', cx_app_replay_cache c' = r -> cx_app_messages c' =
      (if bool_decide (d = AppAccept) && is_for_peer m (cx_local_peer c)
       then cx_app_messages c ++ [m] else cx_app_messages c) ->
    security_ran clk author m received c c') as Hran.
  { intros c' <- Hm. split_and!; [done|done|]. eauto. }
  destruct d.
  - change (cx_local_peer _) with (cx_local_peer c).
    cbn [bool_decide] in Hran. rewrite bool_decide_eq_true_2 in Hran by done. cbn [andb] in Hran.
    destruct (is_for_peer m (cx_local_peer c)); (split; [eexists; split; [|done]|]);
      [destruct Hc1; split; try done; by apply update_peer_wf; [apply on_accept_good|]
      |split; [done|]; right; by apply Hran
      |destruct Hc1; split; try done; by apply update_peer_wf; [apply on_accept_good|]
      |split; [done|]; right; by apply Hran].
  - destruct (reject_app_message_wf clk src id (Some author) n
      "application freshness/replay validation failed" c1 Hc1) as ([Hw Hrep] & Ha & Hp).
    split; [by eexists|]. split; [done|]. right. apply Hran; [done|].
    rewrite bool_decide_eq_false_2 by done. done.
  - split; [eexists; split; [|done]|].
    + destruct Hc1. split; try done. by apply update_peer_wf; [apply on_duplicate_good|].
    + split; [done|]. right. apply Hran; [done|]. by rewrite bool_decide_eq_false_2.
Qed.

Lemma decode_fragment_Ok raw f :
  decode_fragment raw = Ok f -> validate_fragment f = Ok tt /\ 0 <= fr_index f.
Proof using SU.
  unfold decode_fragment. rewrite bind_unit_Ok, bind_Ok. intros (_ & f' & Hj & Hr).
  rewrite bind_unit_Ok in Hr. destruct Hr as [Hv [= ->]]. split; [done|].
  destruct (json_from_slice raw) eqn:E; cbn in Hj; [|done]. injection Hj as ->. by eapply json_index_nonneg.
Qed.

(** [c2] differs from [c1] only in ways the application never sees. *)
Lemma security_ran_weaken clk author m received c1 c2 c' :
  security_ran clk author m received c2 c' -> cfg_same c1 c2 -> app_same c1 c2 ->
  security_ran clk author m received c1 c'.
Proof.
  intros (Hn & Ha & d & Hs & Hm) (E1 & E2 & E3 & _) (E4 & E5).
  rewrite E1, E5 in Hs. rewrite E3, E4 in Hm. rewrite E2 in Hn. split_and!; [done|done|eauto].
Qed.

Lemma handle_app_spec clk src source id received data c :
  ctx_wf c ->
  exists c' a, handle_app_message clk src source id received data c = Ret c' /\
    reported c c' id src a /\ cfg_same c c' /\
    (app_same c c' \/
     exists author m, source = Some author /\ validate_app_message m = Ok tt /\
       security_ran clk author m received c c').
Proof using SU.
  intros Hc. unfold handle_app_message. cbv zeta. set (n := accounted_transport_bytes (len data)).
  assert (forall author reason, exists c' a,
    Ret (reject_app_message clk src id author n reason c) = Ret c' /\ reported c c' id src a /\ cfg_same c c' /\
    (app_same c c' \/ exists author m, source = Some author /\ validate_app_message m = Ok tt /\
       security_ran clk author m received c c')) as Hrej.
  { intros author reason. destruct (reject_app_message_wf clk src id author n reason c Hc) as (Hr & Ha & Hp).
    eexists _, _. split; [done|]. split; [done|]. split; [by destruct author|]. left. by split. }
  destruct source as [author|]; [|apply Hrej].
  destruct (decode_app_message data) as [m|] eqn:Hdec.
  { destruct (process_complete_spec clk src author id received n m c Hc) as ([a Hr] & Hcfg & Happ).
    eexists _, a. split; [done|]. split; [done|]. split; [done|]. destruct Happ; [by left|right].
    apply decode_app_message_Ok in Hdec as (_ & _ & ?). eauto. }
  destruct (decode_fragment data) as [f|] eqn:Hf; [|apply Hrej]. apply decode_fragment_Ok in Hf as [Hv Hi].
  destruct (app_ident_topic (fr_network_id f) (fr_topic f)) as [topic|] eqn:Ht; [|apply Hrej].
  case_decide as Hmatch; [apply Hrej|].
  destruct (push_wf (cx_reassembler c) author f (expire_instant clk) (created_instant clk)
    (cw_reassembler _ Hc) Hv Hi) as (r & st & -> & Hst & Hmsg). cbn [run_bind].
  set (c1 := set_reassembler st c). assert (ctx_wf c1) as Hc1 by (by destruct Hc).
  destruct r as [[m|]|]; last first.
  { destruct (reject_app_message_wf clk src id (Some author) n "fragment reassembly rejected" c1 Hc1)
      as (Hr & Ha & Hp). eexists _, _. split; [done|]. split; [exact Hr|]. split; [done|]. left. by split. }
  { eexists _, MA_Accept. split; [done|]. split; [split; [by destruct Hc1|done]|]. split; [done|]. left. by split. }
  set (c2 := receive_bytes _ _ _ c1). assert (ctx_wf c2) as Hc2 by (by destruct Hc1).
  destruct (process_complete_spec clk src author id received n m c2 Hc2) as ([a Hr] & Hcfg & Happ).
  eexists _, a. split; [done|]. split; [exact Hr|]. split; [exact Hcfg|].
  destruct Happ as [Happ|Hran]; [left; exact Happ|right]. exists author, m.
  split_and!; [done|by apply Hmsg|]. by eapply security_ran_weaken.
Qed.

(** One dispatched message. *)
Lemma handle_gossip_spec hb topics clk m c :
  ctx_wf c -> room c ->
  exists c' a, handle_gossip_message hb topics clk m c = Ret c' /\
    reported c c' (gm_id m) (gm_propagation_source m) a /\ cfg_same c c' /\
    (app_same c c' \/
     exists author msg, gm_source m = Some author /\ validate_app_message msg = Ok tt /\
       security_ran clk author msg (gm_topic m) c c').
Proof using SU.
  intros Hc Hroom. unfold handle_gossip_message. case_decide; [|case_decide].
  - destruct (handle_heartbeat_spec clk (gm_propagation_source m) (gm_source m) (gm_id m) (gm_data m) c Hc Hroom)
      as (c' & a & ? & ? & ? & ?). exists c', a. split_and!; try done. by left.
  - by apply handle_app_spec.
  - eexists _, MA_Ignore. split; [done|]. split; [|split; [done|by left]]. split; [by destruct Hc|done].
Qed.

(** A run of the gossip side of the event loop. *)
Inductive gossip_trace (hb : TopicHash) (topics : list TopicHash)
  : SwarmEventContext -> list (Clock * GossipMessage) -> SwarmEventContext -> Prop :=
| gossip_nil c : gossip_trace hb topics c [] c
| gossip_cons c clk m c1 evs c2 :
    room c -> handle_gossip_message hb topics clk m c = Ret c1 -> gossip_trace hb topics c1 evs c2 ->
    gossip_trace hb topics c ((clk, m) :: evs) c2.

(** The gossip handlers are total and keep every component sound.  From a
    state where the invariants of the reputation store, both replay caches, the
    reassembler and the peer book hold, a run of heartbeat, application and
    unexpected-topic messages ends in such a state, the next message is handled
    without panicking, and each handled message got exactly one validation
    verdict, under its own id and forwarding peer, in order. *)
Theorem gossip_handlers_total_and_report_once hb topics c0 evs c clk m :
  ctx_wf c0 -> gossip_trace hb topics c0 evs c -> room c ->
  ctx_wf c /\
  (exists verdicts, cx_reports c = cx_reports c0 ++
     zip_with (fun e a => (gm_id e.2, gm_propagation_source e.2, a)) evs verdicts /\
     length verdicts = length evs) /\
  exists c' a, handle_gossip_message hb topics clk m c = Ret c' /\ ctx_wf c' /\
    cx_reports c' = cx_reports c ++ [(gm_id m, gm_propagation_source m, a)].
Proof using SU.
  intros Hc0 Htr Hroom. assert (ctx_wf c /\ exists verdicts, cx_reports c = cx_reports c0 ++
    zip_with (fun e a => (gm_id e.2, gm_propagation_source e.2, a)) evs verdicts /\
    length verdicts = length evs) as [Hc Hrep].
  { clear Hroom. revert Hc0. induction Htr as [c|c clk1 m1 c1 evs c2 Hroom Hh _ IH]; intros Hc0.
    - split; [done|]. exists []. by rewrite app_nil_r.
    - destruct (handle_gossip_spec hb topics clk1 m1 c Hc0 Hroom) as (c' & a & Hh' & [Hw Hr] & _).
      rewrite Hh in Hh'. injection Hh' as <-. destruct (IH Hw) as (Hw2 & vs & Hvs & Hlen).
      split; [done|]. exists (a :: vs). split; [|cbn; lia]. rewrite Hvs, Hr. cbn. by rewrite <- app_assoc. }
  split_and!; [done|done|].
  destruct (handle_gossip_spec hb topics clk m c Hc Hroom) as (c' & a & Hh & [Hw Hr] & _). eauto 6.
Qed.

(** C10: Only authentic messages reach the application.  When a handler call
    delivers a message, the message validates, its claimed source is the author
    Gossipsub authenticated, it belongs to this network and to the topic it was
    received on, it is addressed to this node or broadcast, its nonce is not
    zero and its timestamp is within the configured age and skew. *)
Theorem delivered_message_is_authentic hb topics clk g c c' m :
  ctx_wf c -> room c -> handle_gossip_message hb topics clk g c = Ret c' ->
  cx_app_messages c' = cx_app_messages c ++ [m] ->
  exists author, gm_source g = Some author /\ validate_app_message m = Ok tt /\
    peer_parse (msg_source_peer_id m) = Ok author /\
    msg_network_id m = cx_network_id c /\
    app_ident_topic (cx_network_id c) (msg_topic m) = Ok (gm_topic g) /\
    is_for_peer m (cx_local_peer c) = true /\
    msg_timestamp_ns m <= sat_add u64_max (unix_ns clk)
      (sat_mul u64_max (max_app_message_future_skew_secs (cx_message_security c)) NS_PER_SEC) /\
    sat_sub (unix_ns clk) (msg_timestamp_ns m) <=
      sat_mul u64_max (max_app_message_age_secs (cx_message_security c)) NS_PER_SEC /\
    exists nonce, app_decode_nonce (msg_nonce_hex m) = Some nonce /\ Exists (fun b => b ≠ x00) nonce.
Proof using SU.
  intros Hc Hroom Hh Hm. destruct (handle_gossip_spec hb topics clk g c Hc Hroom) as (c'' & a & Hh' & _ & _ & Happ).
  rewrite Hh in Hh'. injection Hh' as <-. destruct Happ as [[Hsame _]|(author & m' & Hs & Hv & Hn & Hauth & d & Hsec & Hdel)].
  { rewrite Hsame in Hm. apply (f_equal length) in Hm. rewrite length_app in Hm. cbn in Hm. lia. }
  destruct (bool_decide (d = AppAccept) && is_for_peer m' (cx_local_peer c)) eqn:Hd; last first.
  { rewrite Hdel in Hm. apply (f_equal length) in Hm. rewrite length_app in Hm. cbn in Hm. lia. }
  rewrite Hdel in Hm. apply app_inv_head in Hm. injection Hm as ->.
  apply andb_true_iff in Hd as [->%bool_decide_eq_true Hfor].
  apply authentication_Ok in Hauth as [Hp Ht]. rewrite Hn in Ht.
  apply security_cases in Hsec as [[? _]|(k & b & Hk & _ & _ & Hfut & Hage & x & Hx & Hx0)]; [done|].
  exists author. split_and!; try done. unfold app_key in Hk.
  destruct (app_decode_nonce (msg_nonce_hex m)) as [nonce|]; [|done]. injection Hk as <-.
  exists nonce. split; [done|]. apply Exists_exists. eauto.
Qed.

(** The validations a run made, and what came of them. *)
Lemma gossip_trace_app hb topics c0 evs c :
  ctx_wf c0 -> gossip_trace hb topics c0 evs c ->
  exists tr,
    app_trace (cx_message_security c0) (cx_app_replay_cache c0) tr (cx_app_replay_cache c) /\
    (aev_now <$> tr) `sublist_of` ((fun e => unix_ns e.1) <$> evs) /\
    Forall (fun e => peer_parse (msg_source_peer_id (aev_message e)) = Ok (aev_source e)) tr /\
    exists delivered, cx_app_messages c = cx_app_messages c0 ++ delivered /\
      delivered `sublist_of` (aev_message <$> filter (fun e => aev_decision e = AppAccept) tr).
Proof using SU.
  intros Hc0 Htr. induction Htr as [c|c clk m c1 evs c2 Hroom Hh _ IH].
  { exists []. split_and!; [constructor|constructor|done|]. exists []. by rewrite app_nil_r. }
  destruct (handle_gossip_spec hb topics clk m c Hc0 Hroom) as (c' & a & Hh' & [Hw _] & Hcfg & Happ).
  rewrite Hh in Hh'. injection Hh' as <-. destruct (IH Hw) as (tr & Htr & Hsub & Hsrc & del & Hdel & Hdsub).
  destruct Hcfg as (Hsec & _). rewrite Hsec in Htr.
  destruct Happ as [[Hm Hr]|(author & msg & Hs & Hv & Hn & Hauth & d & Hval & Hm)].
  - exists tr. rewrite Hr in Htr. split_and!; [done|by apply sublist_cons|done|].
    exists del. by rewrite Hdel, Hm.
  - exists ({| aev_source := author; aev_message := msg; aev_now := unix_ns clk; aev_decision := d |} :: tr).
    split_and!.
    + by econstructor.
    + by apply sublist_skip.
    + constructor; [|done]. cbn. by apply authentication_Ok in Hauth as [? _].
    + destruct (bool_decide (d = AppAccept) && is_for_peer msg (cx_local_peer c)) eqn:Hd.
      * apply andb_true_iff in Hd as [->%bool_decide_eq_true _]. exists (msg :: del).
        split; [by rewrite Hdel, Hm, <- app_assoc|]. cbn [filter list_filter]. rewrite decide_True by done.
        by apply sublist_skip.
      * exists del. split; [by rewrite Hdel, Hm|]. cbn [filter list_filter].
        cbn [aev_decision]. destruct (decide (d = AppAccept)); [by apply sublist_cons|done].
Qed.

(** The identity of a delivered message: its author, timestamp and nonce. *)
Definition delivery_key (m : AppMessage) : option PeerId * Z * option (list byte) :=
  (ok (peer_parse (msg_source_peer_id m)), msg_timestamp_ns m, app_decode_nonce (msg_nonce_hex m)).

(** C2: The application receives no message twice.  In a run of the gossip
    handlers from a fresh state under a validated configuration, with a clock
    that does not go back and no more messages than the replay window holds, no
    two messages delivered to the application have the same author, timestamp
    and nonce, whatever the network duplicates, reorders, fragments or replays. *)
Theorem application_delivery_at_most_once hb topics c0 evs c :
  ctx_wf c0 -> MessageSecurityConfig_validate (cx_message_security c0) = Ok tt ->
  MessageSecurityConfig_wf (cx_message_security c0) ->
  cx_app_replay_cache c0 = AppMessageReplayCache_new (cx_message_security c0) -> cx_app_messages c0 = [] ->
  gossip_trace hb topics c0 evs c ->
  StronglySorted Z.le ((fun e => unix_ns e.1) <$> evs) -> Forall (fun e => is_u64 (unix_ns e.1)) evs ->
  len evs <= app_replay_cache_capacity (cx_message_security c0) ->
  NoDup (delivery_key <$> cx_app_messages c).
Proof using SU.
  intros Hc0 Hcfg Hwf Hcache Hempty Htr Hsorted Hu Hlen.
  destruct (gossip_trace_app hb topics c0 evs c Hc0 Htr) as (tr & Happ & Hsub & Hsrc & del & Hdel & Hdsub).
  rewrite Hempty in Hdel. cbn in Hdel. rewrite Hdel. rewrite Hcache in Happ.
  assert (NoDup ((fun e => app_key (aev_source e) (aev_message e)) <$>
    filter (fun e => aev_decision e = AppAccept) tr)) as Hnd.
  { apply (app_accepted_keys_NoDup (cx_message_security c0) tr (cx_app_replay_cache c)); try done.
    - by eapply sublist_StronglySorted.
    - apply (sublist_Forall is_u64) in Hsub; [by rewrite Forall_fmap in Hsub|by rewrite Forall_fmap].
    - apply sublist_length in Hsub. rewrite !length_fmap in Hsub. unfold len in *. lia. }
  apply (sublist_NoDup _ (delivery_key <$> (aev_message <$> filter (fun e => aev_decision e = AppAccept) tr)));
    [|by apply sublist_fmap].
  rewrite <- list_fmap_compose. revert Hnd. apply NoDup_fmap_finer.
  intros e1 e2 [_ H1]%list_elem_of_filter [_ H2]%list_elem_of_filter Hk. rewrite Forall_forall in Hsrc.
  apply Hsrc in H1, H2. unfold delivery_key in Hk. cbn in Hk. rewrite H1, H2 in Hk.
  injection Hk as Hs Ht Hn. unfold app_key. by rewrite Hs, Ht, Hn.
Qed.

(** * Two deviations *)

(** An update of one peer keeps the connected records of all the others. *)
Lemma mutate_peer_keeps_connected b p f now q r :
  book_idx b -> good_mutate f -> pb_len b < usize_max -> q ≠ p ->
  pb_peers b !! q = Some r -> pr_connected r = true ->
  pb_peers (mutate_peer b p f now) !! q = Some r.
Proof.
  intros Hb Hf Hl Hne Hq Hc. destruct (bi_seen b Hb q r Hq) as [t Ht].
  destruct (mutate_peer_spec b p f now Hb Hf Hl) as (_ & _ & He).
  assert (pb_peers (synced b p f now) !! q = Some r) as Hs by (rewrite synced_lookup, decide_False; done).
  destruct (pb_peers (mutate_peer b p f now) !! q) as [r'|] eqn:E.
  - pose proof (lookup_weaken _ _ _ _ E (ef_sub _ _ He)). congruence.
  - destruct (ef_victim _ _ He q r t Hs E Ht) as [Hd _]. congruence.
Qed.

Lemma namespaces_keep_connected b p nss now q r :
  book_idx b -> book_bounded b -> pb_len b + Z.of_nat (length nss) < usize_max -> q ≠ p ->
  pb_peers b !! q = Some r -> pr_connected r = true ->
  pb_peers (foldl (fun b ns => record_namespace b p ns Connected now) b nss) !! q = Some r.
Proof.
  revert b. induction nss as [|n nss IH]; intros b Hi Hb Hl Hne Hq Hc; cbn [foldl]; [done|].
  destruct (record_namespaces_idx b p [n] now Hi Hb ltac:(cbn [length] in *; lia)) as (Hi1 & Hb1 & Hl1).
  cbn [foldl length] in *. apply IH; try done; [lia|].
  apply mutate_peer_keeps_connected; try done; lia.
Qed.

Lemma heartbeat_peer_connected clk p c :
  ctx_wf c -> room c ->
  let b' := cx_peer_book (record_heartbeat_peer clk p c) in
  (exists r, pb_peers b' !! p = Some r /\ pr_connected r = true) /\
  (forall q r, q ≠ p -> pb_peers (cx_peer_book c) !! q = Some r -> pr_connected r = true ->
     pb_peers b' !! q = Some r) /\
  pb_len b' <= pb_len (cx_peer_book c) + Z.of_nat (length (cx_application_namespaces c)) + 1.
Proof.
  intros [_ _ _ _ [Hi Hb]] Hl. cbn [record_heartbeat_peer set_unverified set_peer_book cx_peer_book].
  destruct (record_namespaces_idx (cx_peer_book c) p (cx_application_namespaces c) (unix_secs clk) Hi Hb Hl)
    as (Hi1 & Hb1 & Hl1). unfold record_connected. set (b1 := foldl _ _ _) in *.
  unfold room in Hl. split_and!.
  - destruct (mutate_peer_self b1 p _ (unix_secs clk) Hi1 (good_connected None) ltac:(lia)) as [Hs|[_ Hd]];
      [eexists; split; [exact Hs|done]|done].
  - intros q r Hne Hq Hc. apply mutate_peer_keeps_connected; try done; [lia|].
    by apply namespaces_keep_connected.
  - destruct (mutate_peer_spec b1 p _ (unix_secs clk) Hi1 (good_connected None) ltac:(lia)) as (_ & _ & He).
    apply ef_sub, map_subseteq_size in He. cbn [synced pb_peers] in He. unfold pb_len in *.
    destruct (pb_peers b1 !! p) eqn:E; [rewrite map_size_insert_Some in He by eauto|
      rewrite map_size_insert_None in He by done]; lia.
Qed.

Lemma heartbeat_fold_wf clk authors c :
  ctx_wf c ->
  pb_len (cx_peer_book c) + (Z.of_nat (length (cx_application_namespaces c)) + 1) * len authors < usize_max ->
  let c' := foldl (fun c p => record_heartbeat_peer clk p c) c authors in
  ctx_wf c' /\ cx_application_namespaces c' = cx_application_namespaces c /\
  pb_len (cx_peer_book c') <=
    pb_len (cx_peer_book c) + (Z.of_nat (length (cx_application_namespaces c)) + 1) * len authors.
Proof.
  intros Hc. induction authors as [|x authors IH] using rev_ind; intros Hlen.
  { cbn [foldl]. split_and!; [done..|]. change (len (@nil PeerId)) with 0. lia. }
  rewrite len_app in *. change (len [x]) with 1 in *. rewrite foldl_app. cbn [foldl].
  destruct IH as (Hw & Hn & Hl2); [lia|]. set (c1 := foldl _ c authors) in *.
  assert (room c1) as Hroom by (unfold room; rewrite Hn; lia).
  destruct (heartbeat_peer_connected clk x c1 Hw Hroom) as (_ & _ & Hlx).
  split_and!; [by apply record_heartbeat_peer_wf|done|]. rewrite Hn in Hlx. lia.
Qed.

(** Accepted heartbeats fill the peer book past its limit.  Whatever the
    book's record limit is, after heartbeats of pairwise distinct authors were
    recorded every author is held as a connected record, protected from
    eviction, although none of them needs a connection to this node: the book
    has at least as many records as authors. *)
Theorem heartbeat_authors_exceed_record_limit clk authors c :
  ctx_wf c -> NoDup authors ->
  pb_len (cx_peer_book c) + (Z.of_nat (length (cx_application_namespaces c)) + 1) * len authors < usize_max ->
  let c' := foldl (fun c p => record_heartbeat_peer clk p c) c authors in
  (forall p, p ∈ authors -> exists r, pb_peers (cx_peer_book c') !! p = Some r /\ pr_connected r = true) /\
  len authors <= pb_len (cx_peer_book c').
Proof.
  intros Hc Hnd Hlen c'. enough (forall p, p ∈ authors ->
    exists r, pb_peers (cx_peer_book c') !! p = Some r /\ pr_connected r = true) as Hall.
  { split; [done|]. unfold pb_len, len. apply inj_le. rewrite <- size_dom.
    rewrite <- (size_list_to_set (C := gset PeerId) authors Hnd). apply subseteq_size.
    intros p Hp. apply elem_of_list_to_set in Hp. apply elem_of_dom. destruct (Hall p Hp) as (r & ? & _). eauto. }
  subst c'. clear Hnd. revert c Hc Hlen. induction authors as [|a authors IH] using rev_ind; intros c Hc Hlen p Hp.
  { by apply not_elem_of_nil in Hp. }
  rewrite len_app in Hlen. change (len [a]) with 1 in Hlen. rewrite foldl_app. cbn [foldl].
  set (c1 := foldl _ c authors).
  destruct (heartbeat_fold_wf clk authors c Hc ltac:(lia)) as (Hc1 & Hns & Hl1). fold c1 in Hc1, Hns, Hl1.
  assert (room c1) as Hroom.
  { unfold room. rewrite Hns. pose proof (len_nonneg authors). lia. }
  destruct (heartbeat_peer_connected clk a c1 Hc1 Hroom) as (Ha & Hother & _).
  destruct (decide (p = a)) as [->|Hne]; [done|].
  apply elem_of_app in Hp as [Hp|[->|[]%not_elem_of_nil]%elem_of_cons]; [|done].
  destruct (IH c Hc ltac:(nia) p Hp) as (r & Hr & Hrc). exists r. split; [|done]. by apply Hother.
Qed.

Lemma process_complete_bytes clk src author id received n m c :
  total_bytes_received (bandwidth (cx_metrics (process_complete_message clk src author id received n m c)))
  = sat_add u64_max (total_bytes_received (bandwidth (cx_metrics c))) n.
Proof.
  unfold process_complete_message. destruct (_ || _); [done|].
  destruct (validate_app_message_security _ _ _ _ _) as [[] r]; try done.
  by destruct (is_for_peer _ _).
Qed.

(** The fragment that completes a message is counted twice.  When a
    fragment completes a reassembly, the handler adds its accounted bytes to
    the received total once for the fragment and once more for the completed
    message. *)
Theorem completing_fragment_counted_twice clk src author id received data c err f m st :
  decode_app_message data = Err err -> decode_fragment data = Ok f ->
  fr_network_id f = cx_network_id c -> fr_source_peer_id f = peer_to_string author ->
  app_ident_topic (fr_network_id f) (fr_topic f) = Ok received ->
  push (cx_reassembler c) author f (expire_instant clk) (created_instant clk) = Ret (Ok (Some m), st) ->
  exists c', handle_app_message clk src (Some author) id received data c = Ret c' /\
    let n := accounted_transport_bytes (len data) in
    total_bytes_received (bandwidth (cx_metrics c')) =
      sat_add u64_max (sat_add u64_max (total_bytes_received (bandwidth (cx_metrics c))) n) n.
Proof.
  intros Hdec Hf Hn Hs Ht Hp. unfold handle_app_message. rewrite Hdec, Hf, Ht.
  rewrite decide_False by tauto. rewrite Hp. cbn [run_bind]. eexists. split; [done|].
  cbv zeta. by rewrite process_complete_bytes.
Qed.
End gossip_facts.
