(* ===== verification/GsTimeCache.v ===== *)
(** The expiring caches of the vendored gossipsub: the duplicate cache
    (external/libp2p-gossipsub/src/time_cache.rs), which decides whether a
    message was seen before, and the promises of peers that were asked for a
    message (external/libp2p-gossipsub/src/gossip_promises.rs). *)

From S2P Require Import Prelude Bytes Common.

#[local] Open Scope Z_scope.

(** [Instant::checked_add]: the last instant of the platform is a parameter. *)
Class InstantLib := { instant_max : Z }.

Definition instant_checked_add `{InstantLib} (now duration : Z) : option Z :=
  if decide (now + duration <= instant_max) then Some (now + duration) else None.

Section time_cache.
Context `{Countable Key} {Value : Type} `{InstantLib}.

Record ExpiringElement (E : Type) := { ee_element : E; ee_expires : Z }.
Arguments ee_element {E}.
Arguments ee_expires {E}.

Record TimeCache := {
  tc_map : gmap Key (ExpiringElement Value);
  tc_list : list (ExpiringElement Key);
  tc_ttl : Z;
}.

Definition TimeCache_new (ttl : Z) : TimeCache := {| tc_map := ∅; tc_list := []; tc_ttl := ttl |}.

(** The loop of [remove_expired_keys], over the list that it pops. *)
Fixpoint remove_expired (now : Z) (map : gmap Key (ExpiringElement Value)) (list : list (ExpiringElement Key))
    : gmap Key (ExpiringElement Value) * Datatypes.list (ExpiringElement Key) :=
  match list with
  | [] => (map, [])
  | element :: rest =>
      if decide (now < ee_expires element) then (map, list)
      else
        let key := ee_element element in
        remove_expired now
          match map !! key with
          | Some entry => if decide (ee_expires entry <= now) then delete key map else map
          | None => map
          end rest
  end.

Definition remove_expired_keys (now : Z) (c : TimeCache) : TimeCache :=
  let '(map, list) := remove_expired now (tc_map c) (tc_list c) in {| tc_map := map; tc_list := list; tc_ttl := tc_ttl c |}.

(** [Entry]: occupied by a value, or vacant with the expiration of an insertion. *)
Inductive CacheEntry : Type :=
| CacheOccupied (v : Value)
| CacheVacant (expiration : Z).

Definition tc_entry (now : Z) (c : TimeCache) (key : Key) : CacheEntry * TimeCache :=
  let c := remove_expired_keys now c in
  (match tc_map c !! key with
   | Some entry => CacheOccupied (ee_element entry)
   | None => CacheVacant (default now (instant_checked_add now (tc_ttl c)))
   end, c).

(** [VacantEntry::insert] *)
Definition vacant_insert (c : TimeCache) (key : Key) (expiration : Z) (value : Value) : TimeCache := {|
  tc_map := <[key := {| ee_element := value; ee_expires := expiration |}]> (tc_map c);
  tc_list := tc_list c ++ [{| ee_element := key; ee_expires := expiration |}];
  tc_ttl := tc_ttl c |}.

(** [Entry::or_default] *)
Definition or_default (now : Z) (c : TimeCache) (key : Key) (value : Value) : Value * TimeCache :=
  match tc_entry now c key with
  | (CacheOccupied v, c) => (v, c)
  | (CacheVacant expiration, c) => (value, vacant_insert c key expiration value)
  end.

Definition tc_contains_key (c : TimeCache) (key : Key) : bool := bool_decide (is_Some (tc_map c !! key)).
End time_cache.
Arguments ExpiringElement E : clear implicits.
Arguments ee_element {E}.
Arguments ee_expires {E}.
Arguments TimeCache Key {_ _} Value.
Arguments CacheEntry Value : clear implicits.

(** * [DuplicateCache] *)
Section duplicates.
Context `{Countable Key} `{InstantLib}.

Definition DuplicateCache : Type := TimeCache Key unit.

Definition dup_insert (now : Z) (c : DuplicateCache) (key : Key) : bool * DuplicateCache :=
  match tc_entry now c key with
  | (CacheVacant expiration, c) => (true, vacant_insert c key expiration tt)
  | (CacheOccupied _, c) => (false, c)
  end.

Definition dup_contains (c : DuplicateCache) (key : Key) : bool := tc_contains_key c key.

(** * The duplicate cache against its specification

    The reference keeps every accepted key with the time it was accepted, and
    accepts a key again when it was not accepted in the last [ttl]. *)
Definition recently (ttl now : Z) (key : Key) (log : list (Key * Z)) : bool :=
  existsb (fun e => bool_decide (e.1 = key) && bool_decide (now < e.2 + ttl)) log.

Definition ref_insert (ttl now : Z) (log : list (Key * Z)) (key : Key) : bool * list (Key * Z) :=
  if recently ttl now key log then (false, log) else (true, log ++ [(key, now)]).

Fixpoint dup_inserts (c : DuplicateCache) (calls : list (Z * Key)) : list bool :=
  match calls with
  | [] => []
  | (now, key) :: calls => let '(b, c) := dup_insert now c key in b :: dup_inserts c calls
  end.

Fixpoint ref_inserts (ttl : Z) (log : list (Key * Z)) (calls : list (Z * Key)) : list bool :=
  match calls with
  | [] => []
  | (now, key) :: calls => let '(b, log) := ref_insert ttl now log key in b :: ref_inserts ttl log calls
  end.

(** The cache holds, in the order of their expiry, the accepted keys that have
    not expired by the last call. *)
Definition list_entry (e : ExpiringElement Key) : Key * ExpiringElement unit :=
  (ee_element e, {| ee_element := tt; ee_expires := ee_expires e |}).

Definition log_entry (ttl : Z) (e : Key * Z) : ExpiringElement Key := {| ee_element := e.1; ee_expires := e.2 + ttl |}.

Definition dup_inv (ttl last : Z) (log : list (Key * Z)) (c : DuplicateCache) : Prop :=
  tc_ttl c = ttl /\ tc_map c = list_to_map (list_entry <$> tc_list c) /\ NoDup (ee_element <$> tc_list c) /\
  tc_list c = log_entry ttl <$> filter (fun e => last < e.2 + ttl) log /\
  StronglySorted Z.le (log.*2) /\ Forall (fun t => t <= last) (log.*2).

Lemma remove_expired_filter now (l : list (ExpiringElement Key)) :
  StronglySorted Z.le (ee_expires <$> l) -> NoDup (ee_element <$> l) ->
  let l' := filter (fun e => now < ee_expires e) l in
  remove_expired (Value := unit) now (list_to_map (list_entry <$> l)) l = (list_to_map (list_entry <$> l'), l').
Proof.
  induction l as [|e l IH]; intros Hs Hnd; [done|]. cbn [remove_expired]. cbn in Hs, Hnd.
  apply StronglySorted_inv in Hs as [Hs Ha]. apply NoDup_cons in Hnd as [Hn Hnd].
  destruct (decide (now < ee_expires e)) as [Hlt|Hge].
  - assert (E : filter (fun e => now < ee_expires e) (e :: l) = e :: l); [|by rewrite E].
    rewrite filter_cons_True by done. f_equal. apply filter_id. apply Forall_forall. intros x Hx.
    rewrite Forall_forall in Ha. specialize (Ha (ee_expires x)). apply Z.lt_le_trans with (ee_expires e); [done|].
    apply Ha. apply list_elem_of_fmap. eauto.
  - rewrite filter_cons_False by done. change (list_entry <$> e :: l) with (list_entry e :: (list_entry <$> l)).
    cbn [list_to_map foldr]. unfold list_entry at 1. cbn [fst snd]. rewrite lookup_insert_eq. cbn [ee_expires].
    rewrite decide_True by (cbn in *; lia). rewrite delete_insert_id; [by apply IH|].
    apply not_elem_of_list_to_map_1. rewrite <- list_fmap_compose. exact Hn.
Qed.

Lemma sorted_fmap_mono {A} (f g : A -> Z) (l : list A) (d : Z) :
  (forall x, g x = f x + d) -> StronglySorted Z.le (f <$> l) -> StronglySorted Z.le (g <$> l).
Proof.
  intros Hg. induction l as [|x l IH]; cbn; [done|]. intros [Hs Ha]%StronglySorted_inv. constructor; [by apply IH|].
  rewrite Forall_fmap in Ha |- *. eapply Forall_impl; [exact Ha|]. intros y. cbn. rewrite !Hg. lia.
Qed.

Lemma sorted_filter {A} (f : A -> Z) (Q : A -> Prop) `{forall x, Decision (Q x)} (l : list A) :
  StronglySorted Z.le (f <$> l) -> StronglySorted Z.le (f <$> filter Q l).
Proof.
  induction l as [|x l IH]; cbn; [done|]. intros [Hs Ha]%StronglySorted_inv. case_decide; [|by apply IH].
  cbn. constructor; [by apply IH|]. rewrite Forall_fmap in Ha |- *. apply Forall_forall. intros y [_ Hy]%list_elem_of_filter.
  rewrite Forall_forall in Ha. by apply Ha.
Qed.

Lemma filter_fmap {A B} (f : A -> B) (Q : B -> Prop) `{forall x, Decision (Q x)} (l : list A) :
  filter Q (f <$> l) = f <$> filter (fun x => Q (f x)) l.
Proof. induction l as [|x l IH]; [done|]. rewrite fmap_cons, !filter_cons, IH. by case_decide. Qed.

(** Cleaning at [now] leaves the keys accepted less than [ttl] ago. *)
Lemma dup_inv_clean ttl last now log (c : DuplicateCache) :
  last <= now -> dup_inv ttl last log c -> dup_inv ttl now log (remove_expired_keys now c).
Proof.
  intros Hn (Ht & Hm & Hnd & Hl & Hs & Ha). unfold remove_expired_keys. rewrite Hm.
  assert (Hsl : StronglySorted Z.le (ee_expires <$> tc_list c)).
  { rewrite Hl, <- list_fmap_compose. apply (sorted_fmap_mono snd _ _ ttl); [done|]. by apply sorted_filter. }
  rewrite remove_expired_filter by done. split_and!; cbn [tc_ttl tc_map tc_list]; try done.
  - eapply sublist_NoDup; [exact Hnd|]. apply fmap_sublist, sublist_filter.
  - rewrite Hl, filter_fmap. f_equal. rewrite list_filter_filter. apply list_filter_iff. intros e. cbn. lia.
  - eapply Forall_impl; [exact Ha|]. intros. cbn in *. lia.
Qed.

Lemma dup_inv_recently ttl now log (c : DuplicateCache) key :
  dup_inv ttl now log c -> recently ttl now key log = bool_decide (is_Some (tc_map c !! key)).
Proof.
  intros (_ & Hm & Hnd & Hl & _). apply eq_true_iff_eq. unfold recently. rewrite existsb_exists, bool_decide_eq_true, Hm. split.
  - intros ([k t] & Hin%list_elem_of_In & Hc). rewrite andb_true_iff, !bool_decide_eq_true in Hc. cbn in Hc. destruct Hc as [-> Hlt].
    exists (list_entry (log_entry ttl (key, t))).2. apply elem_of_list_to_map_1; [by rewrite <- list_fmap_compose|].
    apply list_elem_of_fmap. exists (log_entry ttl (key, t)). split; [done|]. rewrite Hl. apply list_elem_of_fmap.
    eexists. split; [done|]. apply list_elem_of_filter. done.
  - intros [e He]. apply elem_of_list_to_map_2, list_elem_of_fmap in He as (x & Hx & Hin). rewrite Hl in Hin.
    apply list_elem_of_fmap in Hin as ([k t] & -> & Hin). apply list_elem_of_filter in Hin as [Hlt Hin]. exists (k, t).
    split; [by apply list_elem_of_In|]. injection Hx as -> _. cbn in *. by rewrite !bool_decide_eq_true_2.
Qed.

Lemma dup_insert_refines ttl last now log (c : DuplicateCache) key :
  0 < ttl -> last <= now -> now + ttl <= instant_max -> dup_inv ttl last log c ->
  (dup_insert now c key).1 = (ref_insert ttl now log key).1 /\
  dup_inv ttl now (ref_insert ttl now log key).2 (dup_insert now c key).2.
Proof.
  intros Ht Hn Hm Hinv. apply (dup_inv_clean _ _ now) in Hinv; [|done].
  unfold dup_insert, tc_entry, ref_insert. rewrite (dup_inv_recently _ _ _ _ _ Hinv).
  generalize dependent (remove_expired_keys now c). clear c. intros c Hinv.
  destruct (tc_map c !! key) as [e|] eqn:E.
  { rewrite bool_decide_eq_true_2 by eauto. done. }
  rewrite bool_decide_eq_false_2 by (intros [? ?]; congruence). split; [done|].
  destruct Hinv as (H1 & H2 & H3 & H4 & H5 & H6). unfold instant_checked_add. rewrite H1, decide_True by done.
  rewrite H2 in E. apply not_elem_of_list_to_map_2 in E. rewrite <- list_fmap_compose in E.
  change (fst ∘ list_entry) with (ee_element (E := Key)) in E. unfold dup_inv. cbn. split_and!; [done| | | | |].
  - rewrite fmap_app, H2. symmetry.
    apply (list_to_map_snoc (M := gmap Key) (list_entry <$> tc_list c) key {| ee_element := tt; ee_expires := now + ttl |}).
    rewrite <- list_fmap_compose. exact E.
  - rewrite fmap_app. apply NoDup_app. split; [done|]. split; [|apply NoDup_singleton]. intros x Hx [= ->]%list_elem_of_singleton. done.
  - rewrite filter_app, fmap_app, filter_cons_True, <- H4 by (cbn; lia). done.
  - rewrite fmap_app. apply StronglySorted_app_2; [|done|repeat constructor]. intros x y Hx [= ->]%list_elem_of_singleton.
    rewrite Forall_forall in H6. by apply H6.
  - rewrite fmap_app. apply Forall_app. split; [done|]. repeat constructor. cbn. lia.
Qed.

(** C26: The duplicate cache forgets exactly by age.  Over any sequence of
    insertions in the order of the clock, the cache with its map and its queue
    of expiries gives the answers of the reference: a key is reported new
    exactly when it was not accepted within the last [ttl]. *)
Theorem duplicate_cache_exact (ttl : Z) (calls : list (Z * Key)) :
  0 < ttl -> StronglySorted Z.le (calls.*1) -> Forall (fun t => t + ttl <= instant_max) (calls.*1) ->
  dup_inserts (TimeCache_new ttl) calls = ref_inserts ttl [] calls.
Proof.
  intros Ht.
  assert (H' : forall last log (c : DuplicateCache) calls, dup_inv ttl last log c -> Forall (Z.le last) (calls.*1) ->
    StronglySorted Z.le (calls.*1) -> Forall (fun t => t + ttl <= instant_max) (calls.*1) ->
    dup_inserts c calls = ref_inserts ttl log calls).
  { intros last log c calls'. revert last log c. induction calls' as [|[now key] calls' IH]; intros last log c Hinv Hl Hs Hm; [done|].
    cbn in Hl, Hs, Hm. cbn [dup_inserts ref_inserts]. apply Forall_cons in Hl as [Hl Hl']. apply StronglySorted_inv in Hs as [Hs Ha]. apply Forall_cons in Hm as [Hm Hm'].
    destruct (dup_insert_refines ttl last now log c key Ht Hl Hm Hinv) as [E Hinv'].
    destruct (dup_insert now c key) as [b c'], (ref_insert ttl now log key) as [b' log']. cbn in E, Hinv'. subst b'. f_equal.
    by apply (IH now). }
  intros Hs Hm. destruct calls as [|[now key] calls]; [done|]. apply (H' now); [| |done|done].
  - unfold dup_inv. cbn. split_and!; try done; [apply NoDup_nil_2|constructor].
  - apply StronglySorted_inv in Hs as [_ Hs]. constructor; [cbn; lia|done].
Qed.
End duplicates.

(** * Promises *)
Section promises.
Context {P : PeerIdLib} `{Countable MsgId}.

Inductive ValidationError : Type :=
| InvalidSignature | EmptySequenceNumber | InvalidSequenceNumber | InvalidPeerId | SignaturePresent | SequenceNumberPresent
| MessageSourcePresent | TransformFailed | MessageSizeTooLargeForTopic.

Inductive RejectReason : Type :=
| RejectValidationError (e : ValidationError)
| SelfOrigin | BlackListedPeer | BlackListedSource | ValidationIgnored | ValidationFailed.

Definition GossipPromises : Type := gmap MsgId (gmap PeerId Z).

Definition promises_contains (g : GossipPromises) (message : MsgId) : bool := bool_decide (is_Some (g !! message)).

(** [peers_for_message]: the keys of the inner map, in any order. *)
Definition peers_for_message (g : GossipPromises) (message : MsgId) : gset PeerId :=
  match g !! message with Some peers => dom peers | None => ∅ end.

Definition add_promise_for (peer : PeerId) (expires : Z) (g : GossipPromises) (message : MsgId) : GossipPromises :=
  let peers := default ∅ (g !! message) in
  <[message := match peers !! peer with Some _ => peers | None => <[peer := expires]> peers end]> g.

Definition add_promise (g : GossipPromises) (peer : PeerId) (messages : list MsgId) (expires : Z) : GossipPromises :=
  foldl (add_promise_for peer expires) g messages.

Definition message_delivered (g : GossipPromises) (message : MsgId) : GossipPromises := delete message g.

Definition reject_message (g : GossipPromises) (message : MsgId) (reason : RejectReason) : GossipPromises :=
  match reason with
  | RejectValidationError InvalidSignature => g
  | SelfOrigin => g
  | _ => delete message g
  end.

(** The two nested [retain]s of [get_broken_promises]. *)
Definition count_broken (now : Z) (peer : PeerId) (expires : Z) (result : gmap PeerId Z) : gmap PeerId Z :=
  if decide (expires < now) then <[peer := default 0 (result !! peer) + 1]> result else result.

Definition keep_unexpired (now : Z) (peers : gmap PeerId Z) : option (gmap PeerId Z) :=
  let peers := filter (fun e => ~ e.2 < now) peers in if decide (peers = ∅) then None else Some peers.

Definition get_broken_promises (now : Z) (g : GossipPromises) : gmap PeerId Z * GossipPromises :=
  (map_fold (fun _ peers result => map_fold (count_broken now) result peers) ∅ g, omap (keep_unexpired now) g).

(** Whether [peer] broke its promise of a message, as a number. *)
Definition broke (now : Z) (peer : PeerId) (peers : gmap PeerId Z) : bool :=
  match peers !! peer with Some t => bool_decide (t < now) | None => false end.

Definition broken_messages (now : Z) (g : gmap MsgId (gmap PeerId Z)) (peer : PeerId) : gset MsgId :=
  dom (filter (fun e => broke now peer e.2 = true) g).

Lemma count_broken_spec now peers result p :
  map_fold (count_broken now) result peers !! p =
    if broke now p peers then Some (default 0 (result !! p) + 1) else result !! p.
Proof.
  revert p. apply (map_fold_weak_ind (fun r m => forall p, r !! p = if broke now p m then Some (default 0 (result !! p) + 1) else result !! p)).
  { intros p. unfold broke. by rewrite lookup_empty. }
  intros q t m r Hq IH p. unfold count_broken, broke. destruct (decide (p = q)) as [->|Hne].
  - rewrite lookup_insert_eq. specialize (IH q). unfold broke in IH. rewrite Hq in IH.
    case_decide; [rewrite lookup_insert_eq, IH|rewrite IH]; [by rewrite bool_decide_eq_true_2|by rewrite bool_decide_eq_false_2].
  - rewrite lookup_insert_ne by done. specialize (IH p). unfold broke in IH. case_decide; [rewrite lookup_insert_ne by done|]; exact IH.
Qed.

Lemma broken_fold now (g : gmap MsgId (gmap PeerId Z)) p :
  let r := map_fold (fun _ peers result => map_fold (count_broken now) result peers) ∅ g in
  default 0 (r !! p) = Z.of_nat (size (broken_messages now g p)) /\ (is_Some (r !! p) <-> broken_messages now g p ≠ ∅).
Proof.
  cbn zeta. apply (map_fold_weak_ind (fun r m => default 0 (r !! p) = Z.of_nat (size (broken_messages now m p)) /\
    (is_Some (r !! p) <-> broken_messages now m p ≠ ∅))).
  { assert (E : broken_messages now ∅ p = ∅) by (unfold broken_messages; by rewrite map_filter_empty, dom_empty_L). rewrite E, lookup_empty, size_empty. split; [done|].
    split; [by intros [? ?]|done]. }
  intros m peers g' r Hm [IH1 IH2]. rewrite count_broken_spec. unfold broken_messages in *. destruct (broke now p peers) eqn:E.
  - rewrite map_filter_insert_True by done. rewrite dom_insert_L, IH1. split; [|split; [set_solver|by eexists]]. cbn.
    rewrite size_union, size_singleton; [lia|]. apply disjoint_singleton_l, not_elem_of_dom, map_lookup_filter_None_2. by left.
  - rewrite map_filter_insert_False by (cbn; congruence). rewrite delete_id by done. done.
Qed.

(** Broken promises are counted exactly.  The sweep at [now] charges each
    peer once for every message it promised and whose deadline has passed, and
    charges no other peer; exactly the promises whose deadline has not passed
    stay, and no message stays without a promise. *)
Theorem broken_promises_exact (now : Z) (g : GossipPromises) :
  let '(result, g') := get_broken_promises now g in
  (forall p, default 0 (result !! p) = Z.of_nat (size (broken_messages now g p)) /\
             (is_Some (result !! p) <-> broken_messages now g p ≠ ∅)) /\
  (forall m p t, g' !! m ≫= (.!! p) = Some t <-> g !! m ≫= (.!! p) = Some t /\ now <= t) /\
  (forall m peers, g' !! m = Some peers -> peers ≠ ∅).
Proof.
  cbn. split; [intros p; apply broken_fold|].
  assert (Hl : forall m, omap (keep_unexpired now) g !! m = g !! m ≫= keep_unexpired now) by (intros m; apply lookup_omap).
  assert (Hk : forall peers p, keep_unexpired now peers ≫= (.!! p) = filter (fun e => ~ e.2 < now) peers !! p).
  { intros peers p. unfold keep_unexpired. case_decide as He; cbn; [|done]. by rewrite He, lookup_empty. }
  split.
  - intros m p t. rewrite Hl. destruct (g !! m) as [peers|]; [|split; [done|by intros [? _]]].
    change (keep_unexpired now peers ≫= (.!! p) = Some t <-> peers !! p = Some t /\ now <= t).
    rewrite Hk, map_lookup_filter_Some. cbn. split; intros [? ?]; split; (done || lia).
  - intros m peers. rewrite Hl. destruct (g !! m) as [peers0|]; [|done]. cbn. unfold keep_unexpired. case_decide; [done|congruence].
Qed.
End promises.
