(* ===== verification/GsBackoff.v ===== *)
(** The backoffs of the vendored gossipsub
    (external/libp2p-gossipsub/src/backoff.rs): for how long a peer that was
    pruned from a topic's mesh may not be grafted again.  A wheel of slots, one
    per heartbeat, says when each backoff is looked at next. *)

From S2P Require Import Prelude Bytes Common AppMessage GsTimeCache.

#[local] Open Scope Z_scope.

#[export] Instance TopicHash_countable : Countable TopicHash.
Proof. refine (inj_countable' topic_hash (fun s => {| topic_hash := s |}) _). by intros []. Defined.

(** [Duration::MAX], in nanoseconds. *)
Definition duration_max : Z := 18446744073709551615 * 1000000000 + 999999999.

Section backoff.
Context {P : PeerIdLib} `{InstantLib} `{!HashIter (TopicHash * PeerId)}.

Local Abbreviation pair := (TopicHash * PeerId)%type.
Local Abbreviation Backoffs := (gmap TopicHash (gmap PeerId (Z * nat))).

Record BackoffStorage := {
  backoffs : Backoffs;
  backoffs_by_heartbeat : list (gset pair);
  heartbeat_index : nat;
  bo_heartbeat_interval : Z;
  backoff_slack : Z;
}.

(** [heartbeats]: the quotient is cut to a [usize]. *)
Definition heartbeats (d interval : Z) : Z := div_ceil d interval mod (usize_max + 1).

(** A zero interval makes [new] divide by zero, so a storage has a positive one.
    The sum of the number of slots is not cut to a [usize]: it exceeds one only when
    the backoff takes more than 2^64 - 2^32 - 1 heartbeats. *)
Definition BackoffStorage_new (prune_backoff interval slack : Z) : run BackoffStorage :=
  if decide (interval = 0) then Panic
  else Ret {| backoffs := ∅;
              backoffs_by_heartbeat := replicate (Z.to_nat (heartbeats prune_backoff interval + slack + 1)) ∅;
              heartbeat_index := 0; bo_heartbeat_interval := interval; backoff_slack := slack |}.

Definition get_entry (b : Backoffs) (x : pair) : option (Z * nat) := b !! x.1 ≫= (.!! x.2).

Definition set_entry (b : Backoffs) (x : pair) (v : Z * nat) : Backoffs := <[x.1 := <[x.2 := v]> (default ∅ (b !! x.1))]> b.

Definition get_backoff_time_from_backoffs (b : Backoffs) (topic : TopicHash) (peer : PeerId) : option Z :=
  fst <$> get_entry b (topic, peer).

Definition get_backoff_time (s : BackoffStorage) (topic : TopicHash) (peer : PeerId) : option Z :=
  get_backoff_time_from_backoffs (backoffs s) topic peer.

Definition is_backoff_with_slack (s : BackoffStorage) (topic : TopicHash) (peer : PeerId) : bool :=
  match backoffs s !! topic with Some m => bool_decide (is_Some (m !! peer)) | None => false end.

(** [insert_into_backoffs_by_heartbeat]: the slot of a backoff of length
    [time]; the sum is a [usize]. *)
Definition slot_of (s : BackoffStorage) (time : Z) : nat :=
  Z.to_nat (((Z.of_nat (heartbeat_index s) + heartbeats time (bo_heartbeat_interval s) + backoff_slack s)
             mod (usize_max + 1)) mod len (backoffs_by_heartbeat s)).

Definition set_backoffs (b : Backoffs) (slots : list (gset pair)) (s : BackoffStorage) : BackoffStorage := {|
  backoffs := b; backoffs_by_heartbeat := slots; heartbeat_index := heartbeat_index s;
  bo_heartbeat_interval := bo_heartbeat_interval s; backoff_slack := backoff_slack s |}.

Definition update_backoff (now : Z) (s : BackoffStorage) (topic : TopicHash) (peer : PeerId) (time : Z) : BackoffStorage :=
  match instant_checked_add now time with
  | None => s
  | Some instant =>
      let x := (topic, peer) in
      let place slots := alter (fun p => {[x]} ∪ p) (slot_of s time) slots in
      match get_entry (backoffs s) x with
      | Some (backoff, index) =>
          if decide (backoff < instant) then
            set_backoffs (set_entry (backoffs s) x (instant, slot_of s time))
              (place (alter (fun p => p ∖ {[x]}) index (backoffs_by_heartbeat s))) s
          else s
      | None => set_backoffs (set_entry (backoffs s) x (instant, slot_of s time)) (place (backoffs_by_heartbeat s)) s
      end
  end.

(** One call of the closure of [retain] in [heartbeat]. *)
Definition keep_backoff (now slack : Z) (b : Backoffs) (x : pair) : bool :=
  match get_backoff_time_from_backoffs b x.1 x.2 with
  | Some backoff_time =>
      match instant_checked_add backoff_time slack with Some t => bool_decide (now < t) | None => false end
  | None => false
  end.

Definition remove_entry (b : Backoffs) (x : pair) : Backoffs :=
  match b !! x.1 with
  | Some m =>
      if decide (is_Some (m !! x.2)) then
        let m := delete x.2 m in if decide (m = ∅) then delete x.1 b else <[x.1 := m]> b
      else b
  | None => b
  end.

Definition retain_pair (now slack : Z) (st : Backoffs * gset pair) (x : pair) : Backoffs * gset pair :=
  let '(b, kept) := st in if keep_backoff now slack b x then (b, {[x]} ∪ kept) else (remove_entry b x, kept).

Definition advance (s : BackoffStorage) : run BackoffStorage :=
  if decide (backoffs_by_heartbeat s = []) then Panic
  else Ret {| backoffs := backoffs s; backoffs_by_heartbeat := backoffs_by_heartbeat s;
              heartbeat_index := S (heartbeat_index s) mod length (backoffs_by_heartbeat s);
              bo_heartbeat_interval := bo_heartbeat_interval s; backoff_slack := backoff_slack s |}.

Definition backoff_heartbeat (now : Z) (s : BackoffStorage) : run BackoffStorage :=
  match backoffs_by_heartbeat s !! heartbeat_index s with
  | Some slot =>
      let slack := bo_heartbeat_interval s * backoff_slack s in
      if decide (duration_max < slack) then Panic
      else
        let '(b, kept) := foldl (retain_pair now slack) (backoffs s, ∅) (hash_iter slot) in
        advance (set_backoffs b (<[heartbeat_index s := kept]> (backoffs_by_heartbeat s)) s)
  | None => advance s
  end.

(** * Entries *)
Lemma get_set_entry b x v y : get_entry (set_entry b x v) y = if decide (y = x) then Some v else get_entry b y.
Proof.
  unfold get_entry, set_entry. destruct x as [t p], y as [t' p']. cbn. destruct (decide (t' = t)) as [->|Ht].
  - rewrite lookup_insert_eq. cbn. destruct (decide (p' = p)) as [->|Hp].
    + by rewrite lookup_insert_eq, decide_True.
    + rewrite lookup_insert_ne by done. rewrite decide_False by congruence. destruct (b !! t); [done|]. cbn. by rewrite lookup_empty.
  - rewrite lookup_insert_ne by done. by rewrite decide_False by congruence.
Qed.

Lemma get_remove_entry b x y : get_entry (remove_entry b x) y = if decide (y = x) then None else get_entry b y.
Proof.
  unfold get_entry, remove_entry. destruct x as [t p], y as [t' p']. cbn.
  destruct (b !! t) as [m|] eqn:Et; [|case_decide as He; [injection He as -> ->; by rewrite Et|done]].
  destruct (decide (is_Some (m !! p))) as [Hp|Hp].
  - assert (E : forall m', (m' = delete p m) -> (if decide (m' = ∅) then delete t b else <[t := m']> b) !! t' ≫= (.!! p')
      = if decide ((t', p') = (t, p)) then None else b !! t' ≫= (.!! p')); [|by apply E].
    intros m' ->. destruct (decide (t' = t)) as [->|Ht].
    + rewrite Et. cbn. assert (E : delete p m !! p' = if decide ((t, p') = (t, p)) then None else m !! p').
      { destruct (decide (p' = p)) as [->|Hne]; [by rewrite lookup_delete_eq, decide_True|].
        by rewrite lookup_delete_ne, decide_False by congruence. }
      rewrite <- E. destruct (decide (delete p m = ∅)) as [Hm|Hm].
      * rewrite lookup_delete_eq, Hm. symmetry. apply lookup_empty.
      * by rewrite lookup_insert_eq.
    + rewrite (decide_False (P := (t', p') = (t, p))) by congruence. case_decide; [by rewrite lookup_delete_ne|by rewrite lookup_insert_ne].
  - case_decide as He; [|done]. injection He as -> ->. rewrite Et. cbn. apply eq_None_not_Some. exact Hp.
Qed.

#[local] Arguments get_entry : simpl never.
#[local] Arguments set_entry : simpl never.

(** * The wheel *)
Definition in_slot (slots : list (gset pair)) (i : nat) (x : pair) : Prop := exists p, slots !! i = Some p /\ x ∈ p.

Definition backoff_ok (s : BackoffStorage) : Prop :=
  (heartbeat_index s < length (backoffs_by_heartbeat s))%nat /\
  forall x i, in_slot (backoffs_by_heartbeat s) i x <-> exists d, get_entry (backoffs s) x = Some (d, i).

Lemma in_slot_alter f i slots j x :
  in_slot (alter f i slots) j x <-> exists p, slots !! j = Some p /\ x ∈ (if decide (j = i) then f p else p).
Proof.
  unfold in_slot. destruct (decide (j = i)) as [->|Hne].
  - rewrite list_lookup_alter_eq. destruct (slots !! i) as [p|]; cbn; naive_solver.
  - by rewrite list_lookup_alter_ne.
Qed.

Lemma slot_of_range s time : (0 < length (backoffs_by_heartbeat s))%nat -> (slot_of s time < length (backoffs_by_heartbeat s))%nat.
Proof.
  intros Hl. unfold slot_of. set (z := Z.modulo _ (usize_max + 1)).
  pose proof (Z.mod_pos_bound z (len (backoffs_by_heartbeat s))) as Hb. unfold len in *. lia.
Qed.

Lemma update_backoff_spec now s topic peer time :
  backoff_ok s ->
  let s' := update_backoff now s topic peer time in
  backoff_ok s' /\ heartbeat_index s' = heartbeat_index s /\ length (backoffs_by_heartbeat s') = length (backoffs_by_heartbeat s) /\
  bo_heartbeat_interval s' = bo_heartbeat_interval s /\ backoff_slack s' = backoff_slack s /\
  (forall x, x ≠ (topic, peer) -> get_entry (backoffs s') x = get_entry (backoffs s) x) /\
  (now + time <= instant_max -> get_backoff_time s' topic peer =
     Some (Z.max (now + time) (default (now + time) (get_backoff_time s topic peer)))).
Proof.
  intros [Hi Hw]. cbn zeta. unfold update_backoff, instant_checked_add. set (x := (topic, peer)).
  assert (Hr : (slot_of s time < length (backoffs_by_heartbeat s))%nat) by (apply slot_of_range; lia).
  assert (Hset : forall slots, length slots = length (backoffs_by_heartbeat s) ->
    (forall y i, y ≠ x -> in_slot slots i y <-> in_slot (backoffs_by_heartbeat s) i y) -> (forall i, ~ in_slot slots i x) ->
    backoff_ok (set_backoffs (set_entry (backoffs s) x (now + time, slot_of s time)) (alter (fun p => {[x]} ∪ p) (slot_of s time) slots) s)).
  { intros slots Hl Ho Hx. split; [cbn; rewrite length_alter; lia|]. intros y i. cbn. rewrite in_slot_alter, get_set_entry.
    destruct (decide (y = x)) as [->|Hne].
    - split.
      + intros (p & Hp & Hin). case_decide as He; [subst; by eexists|]. exfalso. apply (Hx i). by exists p.
      + intros [d [= _ <-]]. destruct (lookup_lt_is_Some_2 slots (slot_of s time)) as [p Hp]; [lia|]. exists p.
        rewrite decide_True by done. set_solver.
    - rewrite <- Hw, <- Ho by done. unfold in_slot. split; intros (p & Hp & Hin); exists p; (split; [done|]); case_decide; set_solver. }
  unfold get_backoff_time, get_backoff_time_from_backoffs. fold x.
  case_decide as Hmax; [|split_and!; [by split|done..]].
  destruct (get_entry (backoffs s) x) as [[backoff index]|] eqn:E.
  - case_decide as Hlt; [|split_and!; try done; intros _; rewrite E; cbn; f_equal; lia].
    split_and!; cbn; try done; [|by rewrite !length_alter|intros y Hy; by rewrite get_set_entry, decide_False|].
    + apply Hset; [by rewrite length_alter| |].
      * intros y i Hy. rewrite in_slot_alter. unfold in_slot. split; intros (p & Hp & Hin); exists p; (split; [done|]); case_decide; set_solver.
      * intros i (p & Hp & Hin)%in_slot_alter. case_decide as He; [set_solver|].
        assert (in_slot (backoffs_by_heartbeat s) i x) as Hs by (by exists p). apply Hw in Hs as [d Hd]. congruence.
    + intros _. rewrite get_set_entry, decide_True by done. cbn. f_equal. lia.
  - split_and!; cbn; try done; [|by rewrite length_alter|intros y Hy; by rewrite get_set_entry, decide_False|].
    + apply Hset; [done|done|]. intros i [d Hd]%Hw. congruence.
    + intros _. rewrite get_set_entry, decide_True by done. cbn. f_equal. lia.
Qed.

(** * Heartbeats *)
Definition keeps_entry (now slack : Z) (e : option (Z * nat)) : bool :=
  match e with
  | Some (t, _) => match instant_checked_add t slack with Some t => bool_decide (now < t) | None => false end
  | None => false
  end.

Lemma keep_backoff_entry now slack b x : keep_backoff now slack b x = keeps_entry now slack (get_entry b x).
Proof.
  unfold keep_backoff, keeps_entry, get_backoff_time_from_backoffs. destruct x as [t p]. cbn. by destruct (get_entry b (t, p)) as [[? ?]|].
Qed.

Lemma retain_spec now slack l b kept :
  NoDup l -> let '(b', kept') := foldl (retain_pair now slack) (b, kept) l in
  (forall y, get_entry b' y = if bool_decide (y ∈ l) && negb (keeps_entry now slack (get_entry b y)) then None else get_entry b y) /\
  (forall y, y ∈ kept' <-> y ∈ kept \/ (y ∈ l /\ keeps_entry now slack (get_entry b y) = true)).
Proof.
  revert b kept. induction l as [|x l IH]; intros b kept Hnd; cbn [foldl].
  { split; intros y; [|set_solver]. by rewrite bool_decide_eq_false_2 by set_solver. }
  apply NoDup_cons in Hnd as [Hx Hnd]. unfold retain_pair at 2. rewrite keep_backoff_entry.
  set (st := if keeps_entry now slack (get_entry b x) then _ else _).
  assert (Hst : (forall y, y ≠ x -> get_entry st.1 y = get_entry b y) /\
    get_entry st.1 x = (if keeps_entry now slack (get_entry b x) then get_entry b x else None) /\
    (forall y, y ∈ st.2 <-> y ∈ kept \/ (y = x /\ keeps_entry now slack (get_entry b x) = true))).
  { subst st. destruct (keeps_entry now slack (get_entry b x)); cbn; split_and!; try done; [set_solver| | |set_solver].
    - intros y Hy. by rewrite get_remove_entry, decide_False.
    - by rewrite get_remove_entry, decide_True. }
  destruct st as [b1 k1]. cbn in Hst. destruct Hst as (H1 & H2 & H3). specialize (IH b1 k1 Hnd).
  destruct (foldl (retain_pair now slack) (b1, k1) l) as [b' kept']. destruct IH as [IH1 IH2]. split; intros y.
  - rewrite IH1. destruct (decide (y = x)) as [->|Hne].
    + rewrite bool_decide_eq_false_2, (bool_decide_eq_true_2 (x ∈ x :: l)), H2 by set_solver. cbn.
      by destruct (keeps_entry now slack (get_entry b x)).
    + rewrite H1 by done. by rewrite (bool_decide_ext (y ∈ x :: l) (y ∈ l)) by set_solver.
  - rewrite IH2, H3, elem_of_cons. destruct (decide (y = x)) as [->|Hne]; [naive_solver|]. rewrite H1 by done. naive_solver.
Qed.

Lemma heartbeat_spec now s :
  backoff_ok s -> bo_heartbeat_interval s * backoff_slack s <= duration_max ->
  exists s', backoff_heartbeat now s = Ret s' /\ backoff_ok s' /\
    heartbeat_index s' = (S (heartbeat_index s) mod length (backoffs_by_heartbeat s))%nat /\
    length (backoffs_by_heartbeat s') = length (backoffs_by_heartbeat s) /\
    bo_heartbeat_interval s' = bo_heartbeat_interval s /\ backoff_slack s' = backoff_slack s /\
    forall x, get_entry (backoffs s') x =
      match get_entry (backoffs s) x with
      | Some (d, i) =>
          if bool_decide (i = heartbeat_index s) && negb (keeps_entry now (bo_heartbeat_interval s * backoff_slack s) (Some (d, i)))
          then None else Some (d, i)
      | None => None
      end.
Proof.
  intros [Hi Hw] Hsl. unfold backoff_heartbeat. destruct (lookup_lt_is_Some_2 _ _ Hi) as [slot Hslot]. rewrite Hslot.
  rewrite decide_False by lia. set (slack := bo_heartbeat_interval s * backoff_slack s).
  assert (Hnd : NoDup (hash_iter slot)) by (rewrite hash_iter_elements; apply NoDup_elements).
  pose proof (retain_spec now slack (hash_iter slot) (backoffs s) ∅ Hnd) as Hr.
  destruct (foldl (retain_pair now slack) (backoffs s, ∅) (hash_iter slot)) as [b kept]. destruct Hr as [Hr1 Hr2].
  assert (Hin : forall x, x ∈ hash_iter slot <-> exists d, get_entry (backoffs s) x = Some (d, heartbeat_index s)).
  { intros x. rewrite hash_iter_elements, elem_of_elements, <- Hw. unfold in_slot. rewrite Hslot. naive_solver. }
  assert (Hget : forall x, get_entry b x = match get_entry (backoffs s) x with
    | Some (d, i) => if bool_decide (i = heartbeat_index s) && negb (keeps_entry now slack (Some (d, i))) then None else Some (d, i)
    | None => None end).
  { intros x. rewrite Hr1. destruct (get_entry (backoffs s) x) as [[d i]|] eqn:E; [|by destruct (_ && _)].
    rewrite (bool_decide_ext (x ∈ hash_iter slot) (i = heartbeat_index s)); [done|]. rewrite Hin, E. naive_solver. }
  unfold advance. cbn. rewrite decide_False by (intros E; apply (f_equal length) in E; rewrite length_insert in E; cbn in E; lia).
  rewrite length_insert. eexists. split; [done|]. split_and!; try done; [|cbn; by rewrite length_insert].
  split; [cbn; rewrite length_insert; apply Nat.mod_upper_bound; lia|]. intros x i. cbn. rewrite Hget. unfold in_slot.
  destruct (decide (i = heartbeat_index s)) as [->|Hne].
  - rewrite list_lookup_insert_eq by done. split.
    + intros (p & [= <-] & Hp). apply Hr2 in Hp as [?%not_elem_of_empty|[Hx Hk]]; [done|]. apply Hin in Hx as [d Hd].
      rewrite Hd in Hk |- *. exists d. by rewrite Hk, andb_false_r.
    + intros [d Hd]. exists kept. split; [done|]. apply Hr2. right. destruct (get_entry (backoffs s) x) as [[d' i']|] eqn:E; [|done].
      destruct (_ && _) eqn:Ek; [done|]. injection Hd as -> ->. rewrite bool_decide_eq_true_2 in Ek by done.
      split; [apply Hin; eauto|]. by destruct (keeps_entry now slack (Some (d, heartbeat_index s))).
  - rewrite list_lookup_insert_ne by done. change (in_slot (backoffs_by_heartbeat s) i x <->
      exists d, match get_entry (backoffs s) x with
        | Some (d, i) => if bool_decide (i = heartbeat_index s) && negb (keeps_entry now slack (Some (d, i))) then None else Some (d, i)
        | None => None end = Some (d, i)).
    rewrite Hw. destruct (get_entry (backoffs s) x) as [[d' i']|]; [|done]. split.
    + intros [d [= -> ->]]. exists d. by rewrite bool_decide_eq_false_2.
    + intros [d Hd]. destruct (_ && _); [done|]. naive_solver.
Qed.

(** * Runs: updates and heartbeats in the order of the clock

    [wr_deadline] is the specification: the latest end of any backoff that was
    ever set for a peer and topic. *)
Record wheel_run := { wr_wheel : BackoffStorage; wr_now : Z; wr_deadline : gmap pair Z }.

Local Abbreviation slack_of s := (bo_heartbeat_interval s * backoff_slack s).

Inductive wheel_step : wheel_run -> wheel_run -> Prop :=
| WheelUpdate r now topic peer time :
    wr_now r <= now -> 0 <= time -> now + time + slack_of (wr_wheel r) <= instant_max ->
    wheel_step r {| wr_wheel := update_backoff now (wr_wheel r) topic peer time; wr_now := now;
      wr_deadline := <[(topic, peer) := Z.max (now + time) (default (now + time) (wr_deadline r !! (topic, peer)))]> (wr_deadline r) |}
| WheelHeartbeat r now s :
    wr_now r <= now -> backoff_heartbeat now (wr_wheel r) = Ret s ->
    wheel_step r {| wr_wheel := s; wr_now := now; wr_deadline := wr_deadline r |}.

Definition wheel_inv (s0 : BackoffStorage) (r : wheel_run) : Prop :=
  let s := wr_wheel r in
  backoff_ok s /\ length (backoffs_by_heartbeat s) = length (backoffs_by_heartbeat s0) /\
  bo_heartbeat_interval s = bo_heartbeat_interval s0 /\ backoff_slack s = backoff_slack s0 /\
  forall x, match wr_deadline r !! x with
            | None => get_entry (backoffs s) x = None
            | Some d => d + slack_of s0 <= instant_max /\
                ((exists i, get_entry (backoffs s) x = Some (d, i)) \/ (get_entry (backoffs s) x = None /\ d + slack_of s0 <= wr_now r))
            end.

Lemma entry_time s topic peer : get_backoff_time s topic peer = fst <$> get_entry (backoffs s) (topic, peer).
Proof. done. Qed.

Lemma entry_backoff s topic peer : is_backoff_with_slack s topic peer = bool_decide (is_Some (get_entry (backoffs s) (topic, peer))).
Proof.
  unfold is_backoff_with_slack, get_entry. cbn. by destruct (backoffs s !! topic).
Qed.

Lemma wheel_inv_step s0 r r' :
  0 <= slack_of s0 <= duration_max -> wheel_inv s0 r -> wheel_step r r' -> wheel_inv s0 r'.
Proof.
  intros Hs (Hok & Hl & Hi & Hb & Hd) Hstep. destruct Hstep as [r now topic peer time Hn Ht Hm|r now s Hn Hbeat].
  - destruct (update_backoff_spec now (wr_wheel r) topic peer time Hok) as (Hok' & _ & Hl' & Hi' & Hb' & Ho & Hg).
    unfold wheel_inv. cbn [wr_wheel wr_now wr_deadline]. rewrite Hl', Hi', Hb'. split_and!; [done..|]. rewrite Hi, Hb in Hm. intros x.
    destruct (decide (x = (topic, peer))) as [->|Hne].
    + rewrite lookup_insert_eq. rewrite !entry_time in Hg. specialize (Hg ltac:(lia)). specialize (Hd (topic, peer)).
      destruct (wr_deadline r !! (topic, peer)) as [d|]; cbn [default from_option id].
      * destruct Hd as [Hd1 Hd2]. split; [lia|]. left.
        destruct (get_entry (backoffs (update_backoff now (wr_wheel r) topic peer time)) (topic, peer)) as [[d' i]|]; [|done].
        cbn in Hg. exists i. do 2 f_equal. injection Hg as ->.
        destruct Hd2 as [[j ->]|[-> Hd2]]; cbn; lia.
      * rewrite Hd in Hg. cbn in Hg. split; [lia|]. left.
        destruct (get_entry (backoffs (update_backoff now (wr_wheel r) topic peer time)) (topic, peer)) as [[d' i]|]; [|done].
        cbn in Hg. exists i. do 2 f_equal. by injection Hg as ->.
    + rewrite lookup_insert_ne by done. rewrite Ho by done. specialize (Hd x). destruct (wr_deadline r !! x) as [d|]; [|done].
      destruct Hd as [Hd1 [Hd2|[Hd2 Hd3]]]; (split; [done|]); [by left|right; split; [done|lia]].
  - destruct (heartbeat_spec now (wr_wheel r) Hok) as (s' & E & Hok' & _ & Hl' & Hi' & Hb' & Hg); [rewrite Hi, Hb; lia|].
    rewrite E in Hbeat. injection Hbeat as <-. unfold wheel_inv. cbn [wr_wheel wr_now wr_deadline]. rewrite Hl', Hi', Hb'.
    split_and!; [done..|]. intros x. specialize (Hd x). rewrite Hg. destruct (wr_deadline r !! x) as [d|]; [|by rewrite Hd].
    destruct Hd as [Hd1 [[i ->]|[-> Hd2]]]; (split; [done|]); [|right; split; [done|lia]].
    destruct (_ && _) eqn:Ek; [|left; by exists i]. right. split; [done|]. apply andb_true_iff in Ek as [_ Ek].
    apply negb_true_iff in Ek. unfold keeps_entry, instant_checked_add in Ek. rewrite Hi, Hb, decide_True in Ek by done.
    rewrite bool_decide_eq_false in Ek. lia.
Qed.

(** Heartbeats at the times [ts]. *)
Fixpoint beats (s : BackoffStorage) (ts : list Z) : run BackoffStorage :=
  match ts with
  | [] => Ret s
  | now :: ts => let! s := backoff_heartbeat now s in beats s ts
  end.

(** How many slots the wheel turns before it looks at slot [i]. *)
Definition turns (s : BackoffStorage) (i : nat) : nat :=
  if decide (heartbeat_index s <= i)%nat then (i - heartbeat_index s)%nat
  else (i + length (backoffs_by_heartbeat s) - heartbeat_index s)%nat.

Lemma beats_release s ts x d :
  backoff_ok s -> slack_of s <= duration_max -> d + slack_of s <= instant_max -> Forall (Z.le (d + slack_of s)) ts ->
  (get_entry (backoffs s) x = None \/ exists i, get_entry (backoffs s) x = Some (d, i) /\ (turns s i < length ts)%nat) ->
  exists s', beats s ts = Ret s' /\ get_entry (backoffs s') x = None.
Proof.
  revert s. induction ts as [|now ts IH]; intros s Hok Hs Hm Hts Hx; cbn [beats].
  { exists s. split; [done|]. destruct Hx as [?|(i & _ & Hl)]; [done|cbn in Hl; lia]. }
  apply Forall_cons in Hts as [Hnow Hts].
  destruct (heartbeat_spec now s Hok Hs) as (s1 & E & Hok1 & Hi1 & Hl1 & Hv & Hb & Hg). rewrite E. cbn.
  apply IH; [done|rewrite Hv, Hb; lia|rewrite Hv, Hb; lia|by rewrite Hv, Hb|]. rewrite Hg.
  destruct Hx as [->|(i & Hx & Ht)]; [by left|]. rewrite Hx. unfold keeps_entry, instant_checked_add.
  rewrite (decide_True (P := d + slack_of s <= instant_max)) by done.
  rewrite (bool_decide_eq_false_2 (now < d + slack_of s)) by (apply Z.le_ngt; exact Hnow). cbn [negb]. rewrite andb_true_r. case_bool_decide as He; [by left|].
  right. exists i. split; [done|]. destruct Hok as [Hlt Hw]. assert (Hil : (i < length (backoffs_by_heartbeat s))%nat).
  { assert (in_slot (backoffs_by_heartbeat s) i x) as (p & Hp & _) by (apply Hw; eauto). by apply lookup_lt_Some in Hp. }
  unfold turns in *. rewrite Hi1, Hl1. cbn in Ht. set (n := length (backoffs_by_heartbeat s)) in *.
  destruct (decide (S (heartbeat_index s) = n)) as [Hn|Hn].
  - rewrite Hn, Nat.Div0.mod_same. repeat case_decide; lia.
  - rewrite Nat.mod_small by lia. repeat case_decide; lia.
Qed.

(** C25: A backoff is respected and then released.  In every run of the wheel,
    with [d] the latest end of any backoff set for a peer and topic: until [d]
    plus the slack has passed the peer is reported as backed off, with [d] as
    the time; and once it has passed, a full turn of the wheel releases it,
    whatever the length of the backoff. *)
Theorem backoffs_respected_and_released (prune interval slack now0 : Z) (s0 : BackoffStorage) (r : wheel_run)
    (topic : TopicHash) (peer : PeerId) (d : Z) :
  0 <= slack -> 0 <= interval * slack <= duration_max -> BackoffStorage_new prune interval slack = Ret s0 ->
  rtc wheel_step {| wr_wheel := s0; wr_now := now0; wr_deadline := ∅ |} r -> wr_deadline r !! (topic, peer) = Some d ->
  (wr_now r < d + interval * slack ->
     get_backoff_time (wr_wheel r) topic peer = Some d /\ is_backoff_with_slack (wr_wheel r) topic peer = true) /\
  (forall ts, Forall (Z.le (d + interval * slack)) ts -> (length (backoffs_by_heartbeat s0) <= length ts)%nat ->
     exists s, beats (wr_wheel r) ts = Ret s /\ is_backoff_with_slack s topic peer = false).
Proof.
  intros Hs0 Hs Hnew Hrun Hd. unfold BackoffStorage_new in Hnew. case_decide as Hiv; [done|]. injection Hnew as <-.
  set (s0 := {| backoffs := ∅; backoffs_by_heartbeat := _; heartbeat_index := 0; bo_heartbeat_interval := interval; backoff_slack := slack |}) in *.
  assert (Hlen : (0 < length (backoffs_by_heartbeat s0))%nat).
  { cbn. rewrite length_replicate. unfold heartbeats. pose proof (Z.mod_pos_bound (div_ceil prune interval) (usize_max + 1)). unfold usize_max in *. lia. }
  assert (Hinv : wheel_inv s0 r).
  { refine (rtc_ind_r (wheel_inv s0) _ _ _ r Hrun).
    - unfold wheel_inv, backoff_ok. cbn [wr_wheel wr_deadline]. split_and!; try done.
      intros x i. cbn. split.
      + intros (p & Hp & Hin). apply lookup_replicate in Hp as [-> _]. by apply not_elem_of_empty in Hin.
      + intros [d' Hd']. unfold get_entry in Hd'. by rewrite lookup_empty in Hd'.
    - intros. eapply wheel_inv_step; eauto. }
  destruct Hinv as (Hok & Hl & Hi & Hb & Hx). specialize (Hx (topic, peer)). rewrite Hd in Hx. cbn in Hi, Hb, Hx. destruct Hx as [Hm Hx].
  split.
  - intros Hnow. destruct Hx as [[i Hx]|[_ Hx]]; [|lia]. rewrite entry_time, entry_backoff, Hx. split; [done|].
    by apply bool_decide_eq_true_2.
  - intros ts Hts Hlt. destruct (beats_release (wr_wheel r) ts (topic, peer) d) as (s & E & Hn); rewrite ?Hi, ?Hb; try done; [lia| |].
    + destruct Hx as [[i Hx]|[Hx _]]; [right|by left]. exists i. split; [done|]. destruct Hok as [Hk Hw].
      assert (Hil : (i < length (backoffs_by_heartbeat (wr_wheel r)))%nat).
      { assert (in_slot (backoffs_by_heartbeat (wr_wheel r)) i (topic, peer)) as (p & Hp & _) by (apply Hw; eauto). by apply lookup_lt_Some in Hp. }
      unfold turns. rewrite Hl in *. case_decide; lia.
    + exists s. split; [done|]. rewrite entry_backoff, Hn. apply bool_decide_eq_false_2. by intros [? ?].
Qed.
End backoff.
