(* ===== verification/GsMessageCache.v ===== *)
(** The message cache of the vendored gossipsub
    (external/libp2p-gossipsub/src/mcache.rs): the messages a node can still
    hand out to peers that ask for them, kept for [history_length] heartbeats
    and announced for the first [history_gossip] of them. *)

From S2P Require Import Prelude Bytes Common AppMessage GsTimeCache GsBackoff.
From Stdlib Require Import Strings.Byte.

#[local] Open Scope Z_scope.

Section mcache.
Context {P : PeerIdLib}.

(** [RawMessage] of external/libp2p-gossipsub/src/types.rs. *)
Record RawMessage := {
  rm_source : option PeerId;
  rm_data : list byte;
  rm_sequence_number : option Z;
  rm_topic : TopicHash;
  rm_signature : option (list byte);
  rm_key : option (list byte);
  rm_validated : bool;
}.

Definition set_validated (m : RawMessage) : RawMessage := {|
  rm_source := rm_source m; rm_data := rm_data m; rm_sequence_number := rm_sequence_number m; rm_topic := rm_topic m;
  rm_signature := rm_signature m; rm_key := rm_key m; rm_validated := true |}.

Local Abbreviation MsgId := (list byte).

Record HistoryEntry := { mid : MsgId; he_topic : TopicHash }.

Record MessageCache := {
  msgs : gmap MsgId (RawMessage * gset PeerId);
  iwant_counts : gmap MsgId (gmap PeerId Z);
  history : list (list HistoryEntry);
  gossip : nat;
}.

Definition set_msgs (m : gmap MsgId (RawMessage * gset PeerId)) (c : MessageCache) : MessageCache := {|
  msgs := m; iwant_counts := iwant_counts c; history := history c; gossip := gossip c |}.

Definition MessageCache_new (gossip history_capacity : nat) : MessageCache := {|
  msgs := ∅; iwant_counts := ∅; history := replicate history_capacity []; gossip := gossip |}.

Definition mc_put (c : MessageCache) (message_id : MsgId) (msg : RawMessage) : bool * MessageCache :=
  match history c with
  | [] => (true, c)
  | newest :: older =>
      match msgs c !! message_id with
      | Some _ => (false, c)
      | None => (true, {|
          msgs := <[message_id := (msg, ∅)]> (msgs c); iwant_counts := iwant_counts c;
          history := (newest ++ [{| mid := message_id; he_topic := rm_topic msg |}]) :: older; gossip := gossip c |})
      end
  end.

Definition observe_duplicate (c : MessageCache) (message_id : MsgId) (source : PeerId) : MessageCache :=
  match msgs c !! message_id with
  | Some (message, originating) =>
      if rm_validated message then c else set_msgs (<[message_id := (message, {[source]} ∪ originating)]> (msgs c)) c
  | None => c
  end.

(** [*count += 1] on a [u32]. *)
Definition get_with_iwant_counts (c : MessageCache) (message_id : MsgId) (peer : PeerId) : option (RawMessage * Z) * MessageCache :=
  match msgs c !! message_id with
  | Some (message, _) =>
      if negb (rm_validated message) then (None, c)
      else
        let counts := default ∅ (iwant_counts c !! message_id) in
        let count := (default 0 (counts !! peer) + 1) mod (u32_max + 1) in
        (Some (message, count),
         {| msgs := msgs c; iwant_counts := <[message_id := <[peer := count]> counts]> (iwant_counts c);
            history := history c; gossip := gossip c |})
  | None => (None, c)
  end.

Definition mc_validate (c : MessageCache) (message_id : MsgId) : option (RawMessage * gset PeerId) * MessageCache :=
  match msgs c !! message_id with
  | Some (message, known_peers) =>
      (Some (set_validated message, known_peers), set_msgs (<[message_id := (set_validated message, ∅)]> (msgs c)) c)
  | None => (None, c)
  end.

Definition gossip_entry (c : MessageCache) (topic : TopicHash) (entry : HistoryEntry) : option MsgId :=
  if decide (he_topic entry = topic) then
    match msgs c !! mid entry with
    | Some (msg, _) => if rm_validated msg then Some (mid entry) else None
    | None => None
    end
  else None.

(** [self.history[..self.gossip]] panics when the cache is shorter. *)
Definition get_gossip_message_ids (c : MessageCache) (topic : TopicHash) : run (list MsgId) :=
  if decide (gossip c <= length (history c))%nat
  then Ret (foldl (fun current entries => current ++ omap (gossip_entry c topic) entries) [] (take (gossip c) (history c)))
  else Panic.

Definition drop_entry (c : MessageCache) (entry : HistoryEntry) : MessageCache := {|
  msgs := delete (mid entry) (msgs c); iwant_counts := delete (mid entry) (iwant_counts c); history := history c; gossip := gossip c |}.

Definition mc_shift (c : MessageCache) : MessageCache :=
  match last (history c) with
  | None => c
  | Some popped =>
      let c' := foldl drop_entry c popped in
      {| msgs := msgs c'; iwant_counts := iwant_counts c'; history := [] :: removelast (history c); gossip := gossip c |}
  end.

Definition mc_remove (c : MessageCache) (message_id : MsgId) : option (RawMessage * gset PeerId) * MessageCache :=
  (msgs c !! message_id,
   {| msgs := delete message_id (msgs c); iwant_counts := delete message_id (iwant_counts c); history := history c; gossip := gossip c |}).

(** * Operations in sequence *)
Inductive mc_op : Type :=
| McPut (id : MsgId) (msg : RawMessage)
| McObserve (id : MsgId) (p : PeerId)
| McIwant (id : MsgId) (p : PeerId)
| McValidate (id : MsgId)
| McShift
| McRemove (id : MsgId).

Definition mc_apply (c : MessageCache) (op : mc_op) : MessageCache :=
  match op with
  | McPut id msg => (mc_put c id msg).2
  | McObserve id p => observe_duplicate c id p
  | McIwant id p => (get_with_iwant_counts c id p).2
  | McValidate id => (mc_validate c id).2
  | McShift => mc_shift c
  | McRemove id => (mc_remove c id).2
  end.

Fixpoint shifts (ops : list mc_op) : nat :=
  match ops with
  | [] => 0
  | McShift :: ops => S (shifts ops)
  | _ :: ops => shifts ops
  end.

(** * The slots of the history *)
Definition slot_has (c : MessageCache) (i : nat) (e : HistoryEntry) : Prop := exists es, history c !! i = Some es /\ e ∈ es.

Lemma drop_entries_spec l c :
  history (foldl drop_entry c l) = history c /\ gossip (foldl drop_entry c l) = gossip c /\
  forall id, msgs (foldl drop_entry c l) !! id = if decide (id ∈ mid <$> l) then None else msgs c !! id.
Proof.
  revert c. induction l as [|e l IH]; intros c; [split_and!; [done|done|]; intros id; cbn; by rewrite decide_False by set_solver|].
  cbn [foldl]. destruct (IH (drop_entry c e)) as (H1 & H2 & H3). split_and!; [done|done|]. intros id. rewrite H3. cbn.
  destruct (decide (id = mid e)) as [->|Hne].
  - rewrite (decide_True (P := mid e ∈ mid e :: (mid <$> l))) by set_solver. case_decide; [done|]. apply lookup_delete_eq.
  - rewrite lookup_delete_ne by done. by rewrite (decide_ext (id ∈ mid e :: (mid <$> l)) (id ∈ mid <$> l)) by set_solver.
Qed.

Lemma removelast_lookup {A} (l : list A) i : (S i < length l)%nat -> removelast l !! i = l !! i.
Proof.
  revert i. induction l as [|x l IH]; intros i Hi; [done|]. destruct l as [|y l]; [cbn in Hi; lia|].
  change (removelast (x :: y :: l)) with (x :: removelast (y :: l)). destruct i as [|i]; [done|]. cbn [lookup list_lookup].
  apply IH. cbn in *. lia.
Qed.

Lemma removelast_length {A} (l : list A) : length (removelast l) = pred (length l).
Proof. induction l as [|x [|y l] IH]; [done|done|]. cbn [removelast length] in *. by rewrite IH. Qed.

(** A shift moves every slot down by one and deletes the messages of the last. *)
Lemma shift_spec c :
  history c ≠ [] ->
  length (history (mc_shift c)) = length (history c) /\ gossip (mc_shift c) = gossip c /\
  (forall i e, slot_has (mc_shift c) i e <-> exists j, i = S j /\ (i < length (history c))%nat /\ slot_has c j e) /\
  (forall id, msgs (mc_shift c) !! id =
     if bool_decide (Exists (fun e => mid e = id) (default [] (last (history c)))) then None else msgs c !! id).
Proof.
  intros Hne. unfold mc_shift. destruct (last (history c)) as [popped|] eqn:El; [|by apply last_None in El].
  destruct (drop_entries_spec popped c) as (H1 & H2 & H3).
  assert (Hlen : (0 < length (history c))%nat) by (destruct (history c); [done|cbn; lia]).
  split_and!; cbn; [rewrite removelast_length; lia|done| |].
  - intros i e. unfold slot_has. cbn. destruct i as [|j].
    + split; [intros (es & [= <-] & He)|intros (j & [=] & _)]. by apply not_elem_of_nil in He.
    + split.
      * intros (es & Hes & He). change (removelast (history c) !! j = Some es) in Hes. exists j. pose proof (lookup_lt_Some _ _ _ Hes) as Hl. rewrite removelast_length in Hl.
        split; [done|]. split; [lia|]. exists es. rewrite removelast_lookup in Hes by lia. done.
      * intros (j' & [= <-] & Hl & es & Hes & He). exists es. change (removelast (history c) !! j = Some es /\ e ∈ es).
        rewrite removelast_lookup by lia. done.
  - intros id. rewrite H3.
    assert (Hiff : id ∈ mid <$> popped <-> Exists (fun e => mid e = id) popped).
    { rewrite list_elem_of_fmap, Exists_exists. naive_solver. }
    case_decide; [by rewrite bool_decide_eq_true_2 by (by apply Hiff)|by rewrite bool_decide_eq_false_2 by (by rewrite <- Hiff)].
Qed.

Lemma put_spec c id msg :
  history c ≠ [] ->
  let c' := (mc_put c id msg).2 in
  length (history c') = length (history c) /\ gossip c' = gossip c /\
  (forall i e, slot_has c' i e <-> slot_has c i e \/ (i = 0%nat /\ msgs c !! id = None /\ e = {| mid := id; he_topic := rm_topic msg |})) /\
  (forall id', msgs c' !! id' = if decide (id' = id /\ msgs c !! id = None) then Some (msg, ∅) else msgs c !! id').
Proof.
  intros Hne. cbn zeta. unfold mc_put. destruct (history c) as [|newest older] eqn:Eh; [done|].
  destruct (msgs c !! id) as [x|] eqn:Em; cbn.
  { rewrite Eh. split_and!; [done|done| |intros id'; by rewrite decide_False by naive_solver]. intros i e. naive_solver. }
  split_and!; [done|done| |].
  - intros i e. unfold slot_has. cbn. rewrite Eh. destruct i as [|i]; cbn; [|naive_solver]. split.
    + intros (es & [= <-] & He). apply elem_of_app in He as [He|He%list_elem_of_singleton]; [left; eauto|by right].
    + intros [(es & [= <-] & He)|(_ & _ & ->)]; eexists; (split; [done|]); set_solver.
  - intros id'. destruct (decide (id' = id)) as [->|Hne']; [by rewrite lookup_insert_eq, decide_True|].
    rewrite lookup_insert_ne by done. by rewrite decide_False by naive_solver.
Qed.

(** The operations that change neither the history nor which messages are there. *)
Lemma quiet_spec c op id :
  match op with McPut _ _ | McShift | McRemove _ => False | _ => True end ->
  history (mc_apply c op) = history c /\ gossip (mc_apply c op) = gossip c /\
  (forall m p, msgs c !! id = Some (m, p) ->
     exists m' p', msgs (mc_apply c op) !! id = Some (m', p') /\ rm_topic m' = rm_topic m) /\
  (msgs c !! id = None -> msgs (mc_apply c op) !! id = None).
Proof.
  destruct op as [| id' p|id' p|id'| |]; try done; intros _; cbn.
  - unfold observe_duplicate. destruct (msgs c !! id') as [[m ps]|] eqn:E; [destruct (rm_validated m)|]; try (split_and!; by eauto).
    cbn. split_and!; [done|done| |]; destruct (decide (id = id')) as [->|Hne]; rewrite ?lookup_insert_eq, ?lookup_insert_ne by done; naive_solver.
  - unfold get_with_iwant_counts. destruct (msgs c !! id') as [[m ps]|] eqn:E; [destruct (negb (rm_validated m))|]; cbn; split_and!; by eauto.
  - unfold mc_validate. destruct (msgs c !! id') as [[m ps]|] eqn:E; cbn; [|split_and!; by eauto].
    split_and!; [done|done| |]; destruct (decide (id = id')) as [->|Hne]; rewrite ?lookup_insert_eq, ?lookup_insert_ne by done; naive_solver.
Qed.

Lemma apply_length c op : history c ≠ [] -> length (history (mc_apply c op)) = length (history c) /\ gossip (mc_apply c op) = gossip c.
Proof.
  intros Hne. destruct op as [id msg|id p|id p|id| |id].
  - destruct (put_spec c id msg Hne) as (H1 & H2 & _). done.
  - by destruct (quiet_spec c (McObserve id p) id I) as (-> & -> & _).
  - by destruct (quiet_spec c (McIwant id p) id I) as (-> & -> & _).
  - by destruct (quiet_spec c (McValidate id) id I) as (-> & -> & _).
  - by destruct (shift_spec c Hne) as (H1 & H2 & _).
  - done.
Qed.

(** * The life of a message *)
Section life.
Context (id : MsgId) (topic : TopicHash).

(** [n] shifts after the message was put, in a cache of [cap] slots. *)
Definition aged (cap n : nat) (c : MessageCache) : Prop :=
  length (history c) = cap /\
  if decide (n < cap)%nat then
    (forall i e, slot_has c i e -> mid e = id -> i = n /\ e = {| mid := id; he_topic := topic |}) /\
    slot_has c n {| mid := id; he_topic := topic |} /\
    exists m p, msgs c !! id = Some (m, p) /\ rm_topic m = topic
  else (forall i e, slot_has c i e -> mid e ≠ id) /\ msgs c !! id = None.

Lemma aged_shift cap n c : (0 < cap)%nat -> aged cap n c -> aged cap (S n) (mc_shift c).
Proof.
  intros Hcap [Hl Ha]. assert (Hne : history c ≠ []) by (intros E; rewrite E in Hl; cbn in Hl; lia).
  destruct (shift_spec c Hne) as (H1 & _ & H3 & H4). split; [lia|]. rewrite H4.
  destruct (last (history c)) as [popped|] eqn:El; [|by apply last_None in El]. cbn [default from_option Datatypes.id].
  rewrite last_lookup, Hl in El.
  destruct (decide (n < cap)%nat) as [Hn|Hn].
  - destruct Ha as (Hs & Hin & Hm). destruct (decide (S n < cap)%nat) as [Hn'|Hn'].
    + rewrite bool_decide_eq_false_2.
      2: { intros (e & He & Hid)%Exists_exists. destruct (Hs (pred cap) e) as [Hp _]; [by exists popped|done|]. lia. }
      split_and!; [|apply H3; exists n; split_and!; [done|lia|done]|done].
      intros i e (j & -> & _ & Hj)%H3 Hid. destruct (Hs _ _ Hj Hid) as [-> ->]. done.
    + assert (n = pred cap) as -> by lia. destruct Hin as (es & Hes & He). rewrite El in Hes. injection Hes as <-.
      rewrite bool_decide_eq_true_2 by (apply Exists_exists; by eexists). split; [|done].
      intros i e (j & -> & Hi & Hj)%H3 Hid. destruct (Hs _ _ Hj Hid) as [-> _]. lia.
  - destruct Ha as [Hs Hm]. rewrite decide_False by lia. split; [|rewrite Hm; by case_bool_decide].
    intros i e (j & -> & _ & Hj)%H3. by apply (Hs j).
Qed.

Lemma aged_other cap n c op :
  (0 < cap)%nat -> aged cap n c ->
  match op with McPut id' _ | McRemove id' => id' ≠ id | McShift => False | _ => True end -> aged cap n (mc_apply c op).
Proof.
  intros Hcap [Hl Ha] Hop. assert (Hne : history c ≠ []) by (intros E; rewrite E in Hl; cbn in Hl; lia).
  split; [by destruct (apply_length c op Hne) as [-> _]|].
  assert (Hcase : (forall i e, mid e = id -> slot_has (mc_apply c op) i e <-> slot_has c i e) /\
    (forall m p, msgs c !! id = Some (m, p) -> exists m' p', msgs (mc_apply c op) !! id = Some (m', p') /\ rm_topic m' = rm_topic m) /\
    (msgs c !! id = None -> msgs (mc_apply c op) !! id = None)).
  { assert (Hq : match op with McPut _ _ | McShift | McRemove _ => False | _ => True end ->
      (forall i e, mid e = id -> slot_has (mc_apply c op) i e <-> slot_has c i e) /\
      (forall m p, msgs c !! id = Some (m, p) -> exists m' p', msgs (mc_apply c op) !! id = Some (m', p') /\ rm_topic m' = rm_topic m) /\
      (msgs c !! id = None -> msgs (mc_apply c op) !! id = None)).
    { intros Hquiet. destruct (quiet_spec c op id Hquiet) as (E & _ & H2 & H3). unfold slot_has. by rewrite E. }
    destruct op as [id' msg|id' p|id' p|id'| |id']; try (by apply Hq).
    - destruct (put_spec c id' msg Hne) as (_ & _ & H3 & H4). cbn [mc_apply]. split_and!.
      + intros i e He. rewrite H3. split; [intros [?|(_ & _ & ->)]; [done|by cbn in He]|by left].
      + intros m p Hm. rewrite H4, decide_False by naive_solver. eauto.
      + intros Hm. rewrite H4, decide_False by naive_solver. done.
    - cbn. split_and!; [done| |]; rewrite lookup_delete_ne by done; eauto. }
  destruct Hcase as (H1 & H2 & H3). case_decide as Hn.
  - destruct Ha as (Hs & Hin & m & p & Hm & Ht). split_and!.
    + intros i e He Hid. apply Hs; [by apply H1|done].
    + by apply H1.
    + destruct (H2 m p Hm) as (m' & p' & ? & ?). exists m', p'. split; [done|congruence].
  - destruct Ha as [Hs Hm]. split; [|by apply H3]. intros i e He Hid. eapply Hs; [by apply H1|done].
Qed.

Lemma aged_run cap n c ops :
  (0 < cap)%nat -> aged cap n c ->
  Forall (fun op => match op with McPut id' _ | McRemove id' => id' ≠ id | _ => True end) ops ->
  aged cap (n + shifts ops) (foldl mc_apply c ops).
Proof.
  intros Hcap. revert n c. induction ops as [|op ops IH]; intros n c Ha Hops; cbn [foldl shifts]; [by rewrite Nat.add_0_r|].
  apply Forall_cons in Hops as [Hop Hops]. destruct op; try (apply IH; [by apply aged_other|done]).
  replace (n + S (shifts ops))%nat with (S n + shifts ops)%nat by lia. apply IH; [by apply aged_shift|done].
Qed.
End life.

Lemma fold_omap {A B} (f : A -> option B) (ll : list (list A)) (acc : list B) x :
  x ∈ foldl (fun current l => current ++ omap f l) acc ll <-> x ∈ acc \/ exists l a, l ∈ ll /\ a ∈ l /\ f a = Some x.
Proof.
  revert acc. induction ll as [|l ll IH]; intros acc; cbn [foldl].
  - split; [by left|intros [?|(l & a & Hl & _)]; [done|by apply not_elem_of_nil in Hl]].
  - rewrite IH, elem_of_app, list_elem_of_omap. setoid_rewrite elem_of_cons. naive_solver.
Qed.

(** A cached message lives for exactly the length of the history.  After a
    new message is put in the cache, whatever else happens except that it is
    removed or put again, it can be fetched until [history_length] heartbeats
    have shifted the history and not after; and it is among the ids announced
    for its topic exactly during the first [history_gossip] of them and while
    it is marked as validated. *)
Theorem message_cached_for_history_length (c : MessageCache) (id : MsgId) (msg : RawMessage) (ops : list mc_op) :
  history c ≠ [] -> msgs c !! id = None -> (forall i e, slot_has c i e -> mid e ≠ id) -> (gossip c <= length (history c))%nat ->
  Forall (fun op => match op with McPut id' _ | McRemove id' => id' ≠ id | _ => True end) ops ->
  let c' := foldl mc_apply (mc_put c id msg).2 ops in
  (is_Some (msgs c' !! id) <-> (shifts ops < length (history c))%nat) /\
  exists ids, get_gossip_message_ids c' (rm_topic msg) = Ret ids /\
    (id ∈ ids <-> (shifts ops < gossip c)%nat /\ exists m p, msgs c' !! id = Some (m, p) /\ rm_validated m = true).
Proof.
  intros Hne Hnone Hfresh Hg Hops. cbn zeta. set (cap := length (history c)) in *.
  assert (Hcap : (0 < cap)%nat) by (subst cap; destruct (history c); [done|cbn; lia]).
  destruct (put_spec c id msg Hne) as (H1 & H2 & H3 & H4).
  assert (H0 : aged id (rm_topic msg) cap 0 (mc_put c id msg).2).
  { split; [done|]. rewrite decide_True by done. split_and!.
    - intros i e [He|(-> & _ & ->)]%H3 Hid; [by apply Hfresh in He|done].
    - apply H3. by right.
    - exists msg, ∅. by rewrite H4, decide_True. }
  pose proof (aged_run id (rm_topic msg) cap 0 _ ops Hcap H0 Hops) as [Hl Ha]. cbn [Nat.add] in Ha.
  assert (Hgo : gossip (foldl mc_apply (mc_put c id msg).2 ops) = gossip c).
  { rewrite <- H2. assert (Hne' : history (mc_put c id msg).2 ≠ []) by (intros E; rewrite E in H1; cbn in H1; lia).
    clear -Hne'. revert Hne'. generalize ((mc_put c id msg).2). induction ops as [|op ops IH]; intros c' Hne'; cbn; [done|].
    destruct (apply_length c' op Hne') as [E1 E2]. rewrite IH; [done|]. intros E. rewrite E in E1. by destruct (history c'). }
  generalize dependent (foldl mc_apply (mc_put c id msg).2 ops). intros c' Hl Ha Hgo. split.
  - case_decide as Hn.
    + destruct Ha as (_ & _ & m & p & Hm & _). rewrite Hm. split; [done|by eexists].
    + destruct Ha as [_ Hm]. rewrite Hm. split; [by intros [? ?]|lia].
  - unfold get_gossip_message_ids. rewrite Hgo, Hl, decide_True by done. eexists. split; [done|]. rewrite fold_omap. split.
    + intros [Hn%not_elem_of_nil|(es & e & Hes & He & Hf)]; [done|]. apply list_elem_of_lookup in Hes as [i Hi].
      apply lookup_take_Some in Hi as [Hi Hlt]. unfold gossip_entry in Hf. case_decide; [|done].
      destruct (msgs c' !! mid e) as [[m p]|] eqn:Em; [|done]. destruct (rm_validated m) eqn:Ev; [|done]. injection Hf as Hid.
      assert (Hs : slot_has c' i e) by (by exists es). rewrite Hid in Em. split; [|by eauto].
      case_decide; [destruct Ha as (Ha & _); by destruct (Ha i e Hs Hid) as [-> _]|]. destruct Ha as [Ha _]. by apply Ha in Hs.
    + intros [Hlt (m & p & Hm & Hv)]. right. rewrite decide_True in Ha by lia. destruct Ha as (_ & (es & Hes & He) & _).
      eexists es, _. split_and!; [|exact He|].
      * apply list_elem_of_lookup. exists (shifts ops). by rewrite lookup_take_lt.
      * unfold gossip_entry. cbn. by rewrite decide_True, Hm, Hv.
Qed.

(** Entries move down the history with the shifts. *)
Definition turn (op : mc_op) : nat := match op with McShift => 1 | _ => 0 end.

Lemma slot_apply c op i e :
  history c ≠ [] -> slot_has c i e -> (i + turn op < length (history c))%nat -> slot_has (mc_apply c op) (i + turn op) e.
Proof.
  intros Hne He Hl. assert (Hq : match op with McPut _ _ | McShift | McRemove _ => False | _ => True end -> slot_has (mc_apply c op) (i + 0) e).
  { intros Hop. destruct (quiet_spec c op [] Hop) as (E & _). unfold slot_has. by rewrite Nat.add_0_r, E. }
  destruct op as [id msg|id p|id p|id| |id]; cbn [turn] in *; try (by apply Hq); rewrite ?Nat.add_0_r.
  - destruct (put_spec c id msg Hne) as (_ & _ & H3 & _). apply H3. by left.
  - destruct (shift_spec c Hne) as (_ & _ & H3 & _). apply H3. exists i. split_and!; [lia|lia|done].
  - done.
Qed.

Lemma slot_run c ops i e :
  history c ≠ [] -> slot_has c i e -> (i + shifts ops < length (history c))%nat ->
  slot_has (foldl mc_apply c ops) (i + shifts ops) e /\ length (history (foldl mc_apply c ops)) = length (history c).
Proof.
  revert c i. induction ops as [|op ops IH]; intros c i Hne He Hl; [by rewrite Nat.add_0_r|].
  assert (E : shifts (op :: ops) = (turn op + shifts ops)%nat) by (by destruct op). rewrite E, Nat.add_assoc in *. cbn [foldl].
  destruct (apply_length c op Hne) as [El _]. rewrite <- El. apply IH; [|apply slot_apply; [done|done|lia]|lia].
  intros E'. rewrite E' in El. by destruct (history c).
Qed.

(** An entry of the history, stale or not, deletes its message when it is popped. *)
Lemma entry_evicts c i e ops :
  history c ≠ [] -> slot_has c i e -> (i + S (shifts ops) = length (history c))%nat ->
  msgs (mc_shift (foldl mc_apply c ops)) !! mid e = None.
Proof.
  intros Hne He Hl. destruct (slot_run c ops i e Hne He) as [(es & Hes & Hin) El]; [lia|].
  destruct (shift_spec (foldl mc_apply c ops)) as (_ & _ & _ & H4). { intros E. rewrite E in El. by destruct (history c). }
  rewrite H4, bool_decide_eq_true_2; [done|]. rewrite last_lookup. replace (pred _) with (i + shifts ops)%nat by lia. rewrite Hes.
  apply Exists_exists. eauto.
Qed.

(** A message that was removed and cached again dies with its first copy.
    Removing a message leaves its id in the history; when the same id is put
    again [k] heartbeats after it was first put, the old entry still deletes it
    when that entry is popped, after [history_length - k] heartbeats instead of
    [history_length]. *)
Theorem recached_message_dies_early (c : MessageCache) (id : MsgId) (msg msg' : RawMessage) (ops ops' : list mc_op) :
  history c ≠ [] -> msgs c !! id = None -> (0 < shifts ops)%nat -> (shifts ops + S (shifts ops') = length (history c))%nat ->
  let c1 := foldl mc_apply (mc_put c id msg).2 ops in
  let c2 := (mc_put (mc_remove c1 id).2 id msg').2 in
  msgs c2 !! id = Some (msg', ∅) /\ (S (shifts ops') < length (history c2))%nat /\
  msgs (mc_shift (foldl mc_apply c2 ops')) !! id = None.
Proof.
  intros Hne Hnone Hk Hl. cbn zeta. destruct (put_spec c id msg Hne) as (H1 & _ & H3 & _).
  set (c0 := (mc_put c id msg).2) in *. set (e := {| mid := id; he_topic := rm_topic msg |}).
  assert (Hne0 : history c0 ≠ []) by (intros E; rewrite E in H1; by destruct (history c)).
  destruct (slot_run c0 ops 0 e Hne0) as [He El]; [apply H3; by right|lia|]. cbn [Nat.add] in He.
  set (c1 := foldl mc_apply c0 ops) in *. assert (Hne1 : history (mc_remove c1 id).2 ≠ []).
  { cbn. intros E. rewrite E in El. destruct (history c0); cbn in *; done. }
  destruct (put_spec (mc_remove c1 id).2 id msg' Hne1) as (G1 & _ & G3 & G4). split_and!.
  - rewrite G4, decide_True; [done|]. split; [done|]. apply lookup_delete_eq.
  - rewrite G1. cbn. lia.
  - assert (Hne2 : history (mc_put (mc_remove c1 id).2 id msg').2 ≠ []) by (intros E; rewrite E in G1; cbn in G1; rewrite El in G1; destruct (history c0); cbn in *; done).
    refine (entry_evicts (mc_put (mc_remove c1 id).2 id msg').2 (shifts ops) e ops' Hne2 _ _); [apply G3; by left|]. rewrite G1. cbn. lia.
Qed.
End mcache.
