(* ===== verification/GsSubscriptions.v ===== *)
(** The subscription filters of the vendored gossipsub
    (external/libp2p-gossipsub/src/subscription_filter.rs): which of the
    subscriptions a peer announces are taken over.  The trait is a class; what
    every filter promises is a class of laws, and the filters that wrap another
    one are verified against it. *)

From S2P Require Import Prelude Bytes Common AppMessage GsBackoff.

#[local] Open Scope Z_scope.

(** [Subscription] of external/libp2p-gossipsub/src/types.rs. *)
Inductive SubscriptionAction : Type := Subscribe | Unsubscribe.
#[export] Instance SubscriptionAction_eq_dec : EqDecision SubscriptionAction.
Proof. solve_decision. Defined.

Record SubscriptionOpts := { requests_partial : bool; supports_partial : bool }.
#[export] Instance SubscriptionOpts_eq_dec : EqDecision SubscriptionOpts.
Proof. solve_decision. Defined.

Record Subscription := { sb_action : SubscriptionAction; sb_topic : TopicHash; sb_options : SubscriptionOpts }.
#[export] Instance Subscription_eq_dec : EqDecision Subscription.
Proof. solve_decision. Defined.
#[export] Instance Subscription_countable : Countable Subscription.
Proof.
  refine (inj_countable'
    (fun s => (bool_decide (sb_action s = Subscribe), sb_topic s, requests_partial (sb_options s), supports_partial (sb_options s)))
    (fun x => let '(a, t, r, p) := x in {| sb_action := if a : bool then Subscribe else Unsubscribe; sb_topic := t;
                                            sb_options := {| requests_partial := r; supports_partial := p |} |}) _).
  by intros [[] t [r p]].
Defined.

(** The trait.  [can_subscribe] takes [&mut self]; the filters of the file keep
    no state but the callback of [CallbackSubscriptionFilter], which is taken
    as a function here. *)
Class TopicSubscriptionFilter (F : Type) := {
  can_subscribe : F -> TopicHash -> bool;
  filter_incoming_subscription_set : F -> gset Subscription -> gset TopicHash -> result (gset Subscription) string;
  filter_incoming_subscriptions : F -> list Subscription -> gset TopicHash -> result (gset Subscription) string;
}.

(** The default methods. *)
Definition dedup_subscription (m : gmap TopicHash Subscription) (s : Subscription) : gmap TopicHash Subscription :=
  match m !! sb_topic s with
  | Some entry => if decide (sb_action entry ≠ sb_action s) then delete (sb_topic s) m else m
  | None => <[sb_topic s := s]> m
  end.

Definition deduplicated (subscriptions : list Subscription) : gset Subscription :=
  list_to_set (snd <$> map_to_list (foldl dedup_subscription ∅ subscriptions)).

Definition allow_incoming_subscription (can : TopicHash -> bool) (s : Subscription) : bool := can (sb_topic s).

Definition default_filter_set (can : TopicHash -> bool) (subscriptions : gset Subscription) : result (gset Subscription) string :=
  Ok (filter (fun s => allow_incoming_subscription can s = true) subscriptions).

(** The filters of the file. *)
Record AllowAllSubscriptionFilter := AllowAll {}.
#[export] Instance allow_all_filter : TopicSubscriptionFilter AllowAllSubscriptionFilter := {
  can_subscribe _ _ := true;
  filter_incoming_subscription_set _ subs _ := default_filter_set (fun _ => true) subs;
  filter_incoming_subscriptions _ subs _ := default_filter_set (fun _ => true) (deduplicated subs) }.

Record WhitelistSubscriptionFilter := Whitelist { whitelist : gset TopicHash }.
#[export] Instance whitelist_filter : TopicSubscriptionFilter WhitelistSubscriptionFilter := {
  can_subscribe f t := bool_decide (t ∈ whitelist f);
  filter_incoming_subscription_set f subs _ := default_filter_set (fun t => bool_decide (t ∈ whitelist f)) subs;
  filter_incoming_subscriptions f subs _ := default_filter_set (fun t => bool_decide (t ∈ whitelist f)) (deduplicated subs) }.

Record CallbackSubscriptionFilter := Callback { callback : TopicHash -> bool }.
#[export] Instance callback_filter : TopicSubscriptionFilter CallbackSubscriptionFilter := {
  can_subscribe f t := callback f t;
  filter_incoming_subscription_set f subs _ := default_filter_set (callback f) subs;
  filter_incoming_subscriptions f subs _ := default_filter_set (callback f) (deduplicated subs) }.

Record MaxCountSubscriptionFilter (F : Type) := MaxCount {
  mx_filter : F;
  max_subscribed_topics : Z;
  max_subscriptions_per_request : Z;
}.
Arguments MaxCount {F}.
Arguments mx_filter {F}.
Arguments max_subscribed_topics {F}.
Arguments max_subscriptions_per_request {F}.

Definition MaxCountSubscriptionFilter_default {F} (f : F) : MaxCountSubscriptionFilter F := MaxCount f 100 100.

(** The two counters of [filter_incoming_subscriptions]. *)
Definition unsubscribed (current : gset TopicHash) (result : gset Subscription) : gset Subscription :=
  filter (fun s => sb_action s = Unsubscribe /\ sb_topic s ∈ current) result.
Definition new_subscribed (current : gset TopicHash) (result : gset Subscription) : gset Subscription :=
  filter (fun s => sb_action s = Subscribe /\ sb_topic s ∉ current) result.

Definition max_count_subscriptions `{TopicSubscriptionFilter F} (f : MaxCountSubscriptionFilter F) (subscriptions : list Subscription)
    (current : gset TopicHash) : result (gset Subscription) string :=
  if decide (max_subscriptions_per_request f < len subscriptions) then Err "too many subscriptions per request"%string
  else
    let? result := filter_incoming_subscriptions (mx_filter f) subscriptions current in
    if decide (max_subscribed_topics f + Z.of_nat (size (unsubscribed current result))
               < Z.of_nat (size (new_subscribed current result)) + Z.of_nat (size current))
    then Err "too many subscribed topics"%string else Ok result.

#[export] Instance max_count_filter `{TopicSubscriptionFilter F} : TopicSubscriptionFilter (MaxCountSubscriptionFilter F) := {
  can_subscribe f t := can_subscribe (mx_filter f) t;
  filter_incoming_subscription_set f subs _ := default_filter_set (can_subscribe (mx_filter f)) subs;
  filter_incoming_subscriptions := max_count_subscriptions }.

Record CombinedSubscriptionFilters (F G : Type) := Combined { filter1 : F; filter2 : G }.
Arguments Combined {F G}.
Arguments filter1 {F G}.
Arguments filter2 {F G}.

Definition combined_set `{TopicSubscriptionFilter F} `{TopicSubscriptionFilter G} (f : CombinedSubscriptionFilters F G)
    (subs : gset Subscription) (current : gset TopicHash) : result (gset Subscription) string :=
  let? intermediate := filter_incoming_subscription_set (filter1 f) subs current in
  filter_incoming_subscription_set (filter2 f) intermediate current.

#[export] Instance combined_filter `{TopicSubscriptionFilter F} `{TopicSubscriptionFilter G}
    : TopicSubscriptionFilter (CombinedSubscriptionFilters F G) := {
  can_subscribe f t := can_subscribe (filter1 f) t && can_subscribe (filter2 f) t;
  filter_incoming_subscription_set := combined_set;
  filter_incoming_subscriptions f subs current := combined_set f (deduplicated subs) current }.

(** * What every filter promises

    From a set or a list, only announced subscriptions to topics the filter
    allows; from a list, at most one per topic. *)
Definition one_per_topic (s : gset Subscription) : Prop := forall a b, a ∈ s -> b ∈ s -> sb_topic a = sb_topic b -> a = b.

Class SubscriptionFilterLaws (F : Type) `{TopicSubscriptionFilter F} := {
  filtered_set f subs current r :
    filter_incoming_subscription_set f subs current = Ok r ->
    r ⊆ subs /\ forall s, s ∈ r -> can_subscribe f (sb_topic s) = true;
  filtered_list f subs current r :
    filter_incoming_subscriptions f subs current = Ok r ->
    r ⊆ list_to_set subs /\ one_per_topic r /\ forall s, s ∈ r -> can_subscribe f (sb_topic s) = true;
}.

Lemma default_filter_laws can subs r :
  default_filter_set can subs = Ok r -> r ⊆ subs /\ forall s, s ∈ r -> can (sb_topic s) = true.
Proof. intros [= <-]. split; [set_solver|]. by intros s [? ?]%elem_of_filter. Qed.

Lemma dedup_inv subs m :
  (forall t s, m !! t = Some s -> sb_topic s = t) ->
  forall t s, foldl dedup_subscription m subs !! t = Some s -> sb_topic s = t /\ (s ∈ subs \/ m !! t = Some s).
Proof.
  revert m. induction subs as [|x subs IH]; intros m Hm t s; cbn [foldl]; [split; [by apply Hm|by right]|].
  intros Hs. apply IH in Hs as [Ht Hs].
  - split; [done|]. destruct Hs as [Hs|Hs]; [left; by right|]. unfold dedup_subscription in Hs.
    destruct (m !! sb_topic x) as [e|] eqn:E; [case_decide|].
    + apply lookup_delete_Some in Hs as [_ Hs]. by right.
    + by right.
    + apply lookup_insert_Some in Hs as [[_ <-]|[_ Hs]]; [left; by left|by right].
  - intros t' s' Hs'. unfold dedup_subscription in Hs'. destruct (m !! sb_topic x) as [e|]; [case_decide|].
    + apply lookup_delete_Some in Hs' as [_ Hs']. by apply Hm.
    + by apply Hm.
    + apply lookup_insert_Some in Hs' as [[<- <-]|[_ Hs']]; [done|by apply Hm].
Qed.

Lemma deduplicated_spec subs : deduplicated subs ⊆ list_to_set subs /\ one_per_topic (deduplicated subs).
Proof.
  assert (H : forall s, s ∈ deduplicated subs -> foldl dedup_subscription ∅ subs !! sb_topic s = Some s /\ s ∈ subs).
  { intros s Hs. unfold deduplicated in Hs. apply elem_of_list_to_set, list_elem_of_fmap in Hs as ([t s'] & -> & Hs).
    apply elem_of_map_to_list in Hs. cbn. destruct (dedup_inv subs ∅ ltac:(intros ? ?; rewrite lookup_empty; done) t s' Hs) as [<- [Hin|Hn]]; [done|].
    by rewrite lookup_empty in Hn. }
  split; [intros s Hs; apply elem_of_list_to_set; by apply H in Hs as [_ ?]|].
  intros a b [Ha _]%H [Hb _]%H E. rewrite E in Ha. congruence.
Qed.

Lemma one_per_topic_subset s s' : s' ⊆ s -> one_per_topic s -> one_per_topic s'.
Proof. intros Hs H a b Ha Hb. apply H; set_solver. Qed.

Lemma from_set_laws subs r (can : TopicHash -> bool) :
  r ⊆ deduplicated subs -> (forall s, s ∈ r -> can (sb_topic s) = true) ->
  r ⊆ list_to_set subs /\ one_per_topic r /\ forall s, s ∈ r -> can (sb_topic s) = true.
Proof. intros Hr Hc. destruct (deduplicated_spec subs) as [H1 H2]. split_and!; [set_solver|by eapply one_per_topic_subset|done]. Qed.

#[export] Instance allow_all_laws : SubscriptionFilterLaws AllowAllSubscriptionFilter.
Proof. split; intros f subs current r H%default_filter_laws; [done|]. destruct H. by apply from_set_laws. Qed.
#[export] Instance whitelist_laws : SubscriptionFilterLaws WhitelistSubscriptionFilter.
Proof. split; intros f subs current r H%default_filter_laws; [done|]. destruct H. by apply (from_set_laws subs r (can_subscribe f)). Qed.
#[export] Instance callback_laws : SubscriptionFilterLaws CallbackSubscriptionFilter.
Proof. split; intros f subs current r H%default_filter_laws; [done|]. destruct H. by apply from_set_laws. Qed.

#[export] Instance max_count_laws `{SubscriptionFilterLaws F} : SubscriptionFilterLaws (MaxCountSubscriptionFilter F).
Proof.
  split; intros f subs current r; cbn [filter_incoming_subscription_set filter_incoming_subscriptions can_subscribe max_count_filter].
  - intros Hr%default_filter_laws. exact Hr.
  - unfold max_count_subscriptions. case_decide; [done|].
    destruct (filter_incoming_subscriptions (mx_filter f) subs current) as [r'|] eqn:E; [cbn|done].
    case_decide; [done|]. intros [= <-]. by apply filtered_list in E.
Qed.

#[export] Instance combined_laws `{SubscriptionFilterLaws F} `{SubscriptionFilterLaws G} : SubscriptionFilterLaws (CombinedSubscriptionFilters F G).
Proof.
  assert (Hset : forall (f : CombinedSubscriptionFilters F G) subs current r, combined_set f subs current = Ok r ->
    r ⊆ subs /\ forall s, s ∈ r -> can_subscribe (filter1 f) (sb_topic s) && can_subscribe (filter2 f) (sb_topic s) = true).
  { intros f subs current r. unfold combined_set.
    destruct (filter_incoming_subscription_set (filter1 f) subs current) as [r1|] eqn:E1; [cbn|done].
    intros E2. apply filtered_set in E1 as [Hs1 Hc1], E2 as [Hs2 Hc2]. split; [set_solver|]. intros s Hs. rewrite Hc1, Hc2; set_solver. }
  split; intros f subs current r Hr%Hset; [done|]. destruct Hr as [Hr1 Hr2].
  by apply (from_set_laws subs r (fun t => can_subscribe (filter1 f) t && can_subscribe (filter2 f) t)).
Qed.

(** * The limits *)

(** The topics a peer is subscribed to once the accepted set is applied
    ([handle_received_subscriptions]). *)
Definition topics_after (current : gset TopicHash) (accepted : gset Subscription) : gset TopicHash :=
  (current ∪ set_map sb_topic (new_subscribed current accepted)) ∖ set_map sb_topic (unsubscribed current accepted).

Lemma size_topics accepted (P : Subscription -> Prop) `{!forall s, Decision (P s)} :
  one_per_topic accepted ->
  size (set_map (D := gset TopicHash) sb_topic (filter P accepted)) = size (filter P accepted).
Proof.
  intros Ho. unfold set_map. rewrite size_list_to_set, length_fmap; [done|].
  apply NoDup_fmap_2_strong; [|apply NoDup_elements].
  intros a b [_ Ha]%elem_of_elements%elem_of_filter [_ Hb]%elem_of_elements%elem_of_filter. by apply Ho.
Qed.

Lemma topics_after_size current accepted :
  one_per_topic accepted ->
  (size (topics_after current accepted) + size (unsubscribed current accepted)
   = size (new_subscribed current accepted) + size current)%nat.
Proof.
  intros Ho. unfold topics_after.
  rewrite size_difference.
  - rewrite size_union.
    + unfold new_subscribed, unsubscribed. rewrite !size_topics by done.
      enough (size (unsubscribed current accepted) <= size current)%nat by (unfold unsubscribed in *; lia).
      unfold unsubscribed. rewrite <- size_topics by done. apply subseteq_size. unfold unsubscribed. set_solver.
    + unfold new_subscribed. set_solver.
  - unfold unsubscribed. set_solver.
Qed.

(** Whatever filter it wraps, the counting filter lets an announcement
    through only if it is within the limit on a request, and then the peer is
    subscribed to at most [max_subscribed_topics] topics afterwards: the
    counters of the code are exact, because a filtered announcement has one
    entry per topic. *)
Theorem max_count_enforced `{SubscriptionFilterLaws F} (f : MaxCountSubscriptionFilter F) subs current accepted :
  filter_incoming_subscriptions f subs current = Ok accepted ->
  len subs <= max_subscriptions_per_request f /\
  Z.of_nat (size (topics_after current accepted)) <= max_subscribed_topics f /\
  (forall s, s ∈ accepted -> s ∈ subs /\ can_subscribe (mx_filter f) (sb_topic s) = true).
Proof.
  intros E. pose proof (filtered_list _ _ _ _ E) as (Hsub & Ho & Hcan).
  cbn [filter_incoming_subscriptions max_count_filter] in E. unfold max_count_subscriptions in E.
  destruct (decide (max_subscriptions_per_request f < len subs)); [done|].
  destruct (filter_incoming_subscriptions (mx_filter f) subs current) as [r|]; [cbn in E|done].
  destruct (decide (max_subscribed_topics f + Z.of_nat (size (unsubscribed current r))
               < Z.of_nat (size (new_subscribed current r)) + Z.of_nat (size current))); [done|]. injection E as <-.
  pose proof (topics_after_size current r Ho).
  split_and!; [lia|lia|]. intros s Hs. split; [|by apply Hcan]. set_solver.
Qed.

(** A counting filter inside a combined one counts nothing: the combined filter
    filters the deduplicated set, on which the counting filter only asks the
    filter it wraps. *)
Lemma combined_ignores_max_count `{TopicSubscriptionFilter F} `{TopicSubscriptionFilter G} (f : F) (g : G) max_topics max_request subs current :
  (forall x s c, filter_incoming_subscription_set (F := F) x s c = default_filter_set (can_subscribe x) s) ->
  filter_incoming_subscriptions (Combined (MaxCount f max_topics max_request) g) subs current
  = filter_incoming_subscriptions (Combined f g) subs current.
Proof.
  intros Hd. cbn [filter_incoming_subscriptions combined_filter]. unfold combined_set. cbn [filter1 filter2].
  by rewrite Hd.
Qed.

(** Of a topic announced twice with different actions nothing is kept, even if
    the second announcement alone would have ended a subscription. *)
Lemma opposite_announcements_cancel t o o' :
  deduplicated [{| sb_action := Subscribe; sb_topic := t; sb_options := o |}; {| sb_action := Unsubscribe; sb_topic := t; sb_options := o' |}] = ∅.
Proof.
  unfold deduplicated. cbn [foldl]. unfold dedup_subscription at 2. cbn [sb_topic]. rewrite lookup_empty.
  unfold dedup_subscription. cbn [sb_topic sb_action]. rewrite lookup_insert_eq. rewrite decide_True by done.
  by rewrite delete_insert_eq, delete_empty, map_to_list_empty.
Qed.
