(* ===== verification/GsQueue.v ===== *)
(** The outgoing queue of the vendored gossipsub
    (external/libp2p-gossipsub/src/queue.rs): the behaviour pushes the RPCs for
    a peer, the connection handlers of that peer pop them.  The handlers run in
    tasks of their own, and each of the three sub-queues has its own lock, so
    the operations of [Shared] are the atomic steps and a [Queue::poll_pop] is
    three of them, which pushes and the polls of other handlers may separate. *)

From S2P Require Import Prelude Bytes Common AppMessage GsBackoff GsMessageCache.
From Stdlib Require Import Strings.Byte.

#[local] Open Scope Z_scope.

Section queue.
Context {P : PeerIdLib}.

Local Abbreviation MsgId := (list byte).

(** * The RPCs ([types.rs])

    The timeout of a published message is a timer; it is represented by the
    instant it fires at. *)
Record IHave := { ih_topic_hash : TopicHash; ih_message_ids : list MsgId }.
Record IWant := { iw_message_ids : list MsgId }.
Record Graft := { gr_topic_hash : TopicHash }.
Record Prune := { pr_topic_hash : TopicHash; pr_peers : list (option PeerId); pr_backoff : option Z }.
Record IDontWant := { idw_message_ids : list MsgId }.
Record Extensions := { partial_messages : option bool }.

Inductive RpcOut : Type :=
  | RpcPublish (message_id : MsgId) (message : RawMessage) (timeout : Z)
  | RpcSubscribe (topic : TopicHash) (requests_partial supports_partial : bool)
  | RpcSubscribeMany (topics : list (TopicHash * bool * bool))
  | RpcUnsubscribe (topic : TopicHash)
  | RpcGraft (graft : Graft)
  | RpcPrune (prune : Prune)
  | RpcIHave (ihave : IHave)
  | RpcIWant (iwant : IWant)
  | RpcIDontWant (idontwant : IDontWant)
  | RpcExtensions (extensions : Extensions)
  | RpcTestExtension.

(** * [Shared] *)

(** A waker wakes the task that was polled with it. *)
Local Abbreviation Waker := Z.

Record SharedInner := { queue : list RpcOut; pending_pops : gmap Z Waker }.
Definition SharedInner_empty : SharedInner := {| queue := []; pending_pops := ∅ |}.

Definition CONTROL_MSGS_LIMIT : Z := 20000.

Definition register (id : Z) (waker : Waker) (s : SharedInner) : SharedInner :=
  {| queue := queue s; pending_pops := <[id := waker]> (pending_pops s) |}.

Definition shared_poll_pop (id : Z) (waker : Waker) (s : SharedInner) : option RpcOut * SharedInner :=
  match queue s with
  | t :: rest => (Some t, {| queue := rest; pending_pops := pending_pops s |})
  | [] => (None, register id waker s)
  end.

Definition shared_poll_is_empty (id : Z) (waker : Waker) (s : SharedInner) : bool * SharedInner :=
  match queue s with
  | [] => (true, register id waker s)
  | _ => (false, s)
  end.

(** The result, the wakers that are woken, the new contents. *)
Definition shared_try_push (capacity : option Z) (message : RpcOut) (s : SharedInner)
    : result unit RpcOut * gset Waker * SharedInner :=
  if match capacity with Some c => bool_decide (c <= len (queue s)) | None => false end
  then (Err message, ∅, s)
  else (Ok tt, map_img (pending_pops s), {| queue := queue s ++ [message]; pending_pops := ∅ |}).

Definition shared_retain (f : RpcOut -> bool) (s : SharedInner) : SharedInner :=
  {| queue := filter (fun m => f m = true) (queue s); pending_pops := pending_pops s |}.

Definition shared_drop (id : Z) (s : SharedInner) : SharedInner :=
  {| queue := queue s; pending_pops := delete id (pending_pops s) |}.

(** * [Queue]

    The shared contents of a peer's queue and the counter its clones are
    numbered with. *)
Inductive Sub : Type := Priority | Control | NonPriority.
#[export] Instance Sub_eq_dec : EqDecision Sub.
Proof using. clear P. solve_decision. Defined.

Record QueueStore := {
  priority : SharedInner;
  control : SharedInner;
  non_priority : SharedInner;
  non_priority_capacity : Z;
  count : Z;
}.

Definition Queue_new (capacity : Z) : QueueStore := {|
  priority := SharedInner_empty; control := SharedInner_empty; non_priority := SharedInner_empty;
  non_priority_capacity := capacity; count := 1 |}.

(** The id of the sub-queues of the queue [Queue::new] returns. *)
Definition first_id : Z := 1.

Definition sub (k : Sub) (q : QueueStore) : SharedInner :=
  match k with Priority => priority q | Control => control q | NonPriority => non_priority q end.

Definition set_sub (k : Sub) (s : SharedInner) (q : QueueStore) : QueueStore :=
  match k with
  | Priority => {| priority := s; control := control q; non_priority := non_priority q; non_priority_capacity := non_priority_capacity q; count := count q |}
  | Control => {| priority := priority q; control := s; non_priority := non_priority q; non_priority_capacity := non_priority_capacity q; count := count q |}
  | NonPriority => {| priority := priority q; control := control q; non_priority := s; non_priority_capacity := non_priority_capacity q; count := count q |}
  end.

Definition sub_capacity (k : Sub) (q : QueueStore) : option Z :=
  match k with Priority => None | Control => Some CONTROL_MSGS_LIMIT | NonPriority => Some (non_priority_capacity q) end.

(** Which sub-queue an RPC goes to. *)
Definition destination (message : RpcOut) : Sub :=
  match message with
  | RpcExtensions _ | RpcSubscribe _ _ _ | RpcSubscribeMany _ | RpcUnsubscribe _ => Priority
  | RpcGraft _ | RpcPrune _ | RpcIDontWant _ => Control
  | RpcPublish _ _ _ | RpcIHave _ | RpcTestExtension | RpcIWant _ => NonPriority
  end.

Definition queue_try_push (message : RpcOut) (q : QueueStore) : result unit RpcOut * gset Waker * QueueStore :=
  let k := destination message in
  let '(r, woken, s) := shared_try_push (sub_capacity k q) message (sub k q) in
  (r, woken, set_sub k s q).

Definition is_data (message_ids : list MsgId) (message : RpcOut) : bool :=
  match message with RpcPublish message_id _ _ => bool_decide (message_id ∈ message_ids) | _ => false end.

Definition remove_data_messages (message_ids : list MsgId) (q : QueueStore) : Z * QueueStore :=
  if decide (message_ids = []) then (0, q)
  else
    (len (filter (fun m => is_data message_ids m = true) (queue (non_priority q))),
     set_sub NonPriority (shared_retain (fun m => negb (is_data message_ids m)) (non_priority q)) q).

Definition queue_poll_pop (id : Z) (waker : Waker) (q : QueueStore) : option RpcOut * QueueStore :=
  let '(r, s) := shared_poll_pop id waker (priority q) in
  let q := set_sub Priority s q in
  match r with
  | Some rpc => (Some rpc, q)
  | None =>
      let '(r, s) := shared_poll_pop id waker (control q) in
      let q := set_sub Control s q in
      match r with
      | Some rpc => (Some rpc, q)
      | None =>
          let '(r, s) := shared_poll_pop id waker (non_priority q) in
          (r, set_sub NonPriority s q)
      end
  end.

Definition queue_poll_is_empty (id : Z) (waker : Waker) (q : QueueStore) : bool * QueueStore :=
  let '(p, s) := shared_poll_is_empty id waker (priority q) in
  let q := set_sub Priority s q in
  let '(c, s) := shared_poll_is_empty id waker (control q) in
  let q := set_sub Control s q in
  let '(n, s) := shared_poll_is_empty id waker (non_priority q) in
  (p && c && n, set_sub NonPriority s q).

(** [Clone]: the id of the new reference's sub-queues. *)
Definition queue_clone (q : QueueStore) : Z * QueueStore :=
  (count q, {| priority := priority q; control := control q; non_priority := non_priority q;
               non_priority_capacity := non_priority_capacity q; count := count q + 1 |}).

Definition priority_len (q : QueueStore) : Z := len (queue (priority q)) + len (queue (control q)).
Definition non_priority_len (q : QueueStore) : Z := len (queue (non_priority q)).

(** * The receivers

    A reference to the queue is polled by the task of its connection.  [Poll]
    is where its poll stands: [Popping k] is about to lock the sub-queue [k]
    in a [poll_pop], [Peeking k e] in a [poll_is_empty] whose earlier
    sub-queues were all empty ([e]); [Waiting] is after a poll that found
    nothing, [Dropping k] while its sub-queues from [k] on are dropped.
    [notified] says that the waker of the last poll was woken since it began. *)
Inductive Poll : Type :=
  | Running
  | Popping (k : Sub)
  | Peeking (k : Sub) (empty : bool)
  | Waiting
  | Dropping (k : Sub).

Record Receiver := { rc_id : Z; rc_waker : Waker; rc_poll : Poll; notified : bool }.

Record System := { store : QueueStore; receivers : gmap Z Receiver }.

Definition wake (woken : gset Waker) (r : Receiver) : Receiver :=
  {| rc_id := rc_id r; rc_waker := rc_waker r; rc_poll := rc_poll r; notified := notified r || bool_decide (rc_waker r ∈ woken) |}.

Definition at_poll (p : Poll) (r : Receiver) : Receiver :=
  {| rc_id := rc_id r; rc_waker := rc_waker r; rc_poll := p; notified := notified r |}.

Definition next_sub (k : Sub) : option Sub :=
  match k with Priority => Some Control | Control => Some NonPriority | NonPriority => None end.

(** The receivers are known by the number their reference got; the reference
    [Queue::new] returned stays with the behaviour and is not polled. *)
Inductive step : System -> System -> Prop :=
  | step_push y message r woken q :
      queue_try_push message (store y) = (r, woken, q) ->
      step y {| store := q; receivers := wake woken <$> receivers y |}
  | step_remove_data y message_ids n q :
      remove_data_messages message_ids (store y) = (n, q) ->
      step y {| store := q; receivers := receivers y |}
  | step_clone y id q :
      queue_clone (store y) = (id, q) ->
      step y {| store := q; receivers := <[id := {| rc_id := id; rc_waker := 0; rc_poll := Running; notified := false |}]> (receivers y) |}
  | step_poll y h r waker p :
      receivers y !! h = Some r -> rc_poll r = Running \/ rc_poll r = Waiting ->
      p = Popping Priority \/ p = Peeking Priority true ->
      step y {| store := store y; receivers := <[h := {| rc_id := rc_id r; rc_waker := waker; rc_poll := p; notified := false |}]> (receivers y) |}
  | step_pop y h r k x s :
      receivers y !! h = Some r -> rc_poll r = Popping k ->
      shared_poll_pop (rc_id r) (rc_waker r) (sub k (store y)) = (x, s) ->
      step y {| store := set_sub k s (store y);
                receivers := <[h := at_poll match x, next_sub k with
                                            | Some _, _ => Running
                                            | None, Some k' => Popping k'
                                            | None, None => Waiting
                                            end r]> (receivers y) |}
  | step_peek y h r k e x s :
      receivers y !! h = Some r -> rc_poll r = Peeking k e ->
      shared_poll_is_empty (rc_id r) (rc_waker r) (sub k (store y)) = (x, s) ->
      step y {| store := set_sub k s (store y);
                receivers := <[h := at_poll match next_sub k with
                                            | Some k' => Peeking k' (e && x)
                                            | None => if e && x then Waiting else Running
                                            end r]> (receivers y) |}
  | step_drop y h r :
      receivers y !! h = Some r -> rc_poll r = Running \/ rc_poll r = Waiting ->
      step y {| store := store y; receivers := <[h := at_poll (Dropping Priority) r]> (receivers y) |}
  | step_dropping y h r k :
      receivers y !! h = Some r -> rc_poll r = Dropping k ->
      step y {| store := set_sub k (shared_drop (rc_id r) (sub k (store y))) (store y);
                receivers := match next_sub k with
                             | Some k' => <[h := at_poll (Dropping k') r]> (receivers y)
                             | None => delete h (receivers y)
                             end |}.

Definition System_new (capacity : Z) : System := {| store := Queue_new capacity; receivers := ∅ |}.

(** A poll that nothing separates is [Queue::poll_pop]. *)
Definition poll_result (x : option RpcOut) : Poll := match x with Some _ => Running | None => Waiting end.

Lemma step_pop_at q rs h r k : let '(x, s) := shared_poll_pop (rc_id r) (rc_waker r) (sub k q) in
  step {| store := q; receivers := <[h := at_poll (Popping k) r]> rs |}
       {| store := set_sub k s q;
          receivers := <[h := at_poll match x, next_sub k with
                                      | Some _, _ => Running | None, Some k' => Popping k' | None, None => Waiting end r]> rs |}.
Proof.
  destruct (shared_poll_pop _ _ _) as [x s] eqn:E.
  pose proof (step_pop {| store := q; receivers := <[h := at_poll (Popping k) r]> rs |} h (at_poll (Popping k) r) k x s) as Hs.
  cbn [store receivers] in Hs. rewrite lookup_insert_eq, insert_insert_eq in Hs. exact (Hs eq_refl eq_refl E).
Qed.

Lemma poll_pop_runs q rs h r : let '(x, q') := queue_poll_pop (rc_id r) (rc_waker r) q in
  rtc step {| store := q; receivers := <[h := at_poll (Popping Priority) r]> rs |}
           {| store := q'; receivers := <[h := at_poll (poll_result x) r]> rs |}.
Proof.
  unfold queue_poll_pop.
  pose proof (step_pop_at q rs h r Priority) as H1. cbn [sub] in H1.
  destruct (shared_poll_pop _ _ (priority q)) as [[x|] s]; [by eapply rtc_once|].
  pose proof (step_pop_at (set_sub Priority s q) rs h r Control) as H2. cbn [sub] in H2.
  destruct (shared_poll_pop _ _ (control (set_sub Priority s q))) as [[x|] s2]; [by eapply rtc_l, rtc_once|].
  pose proof (step_pop_at (set_sub Control s2 (set_sub Priority s q)) rs h r NonPriority) as H3. cbn [sub] in H3.
  destruct (shared_poll_pop _ _ (non_priority _)) as [[x|] s3]; by eapply rtc_l, rtc_l, rtc_once.
Qed.

(** * The queue as one list

    What is to be sent, in the order it will be. *)
Definition contents (q : QueueStore) : list RpcOut := queue (priority q) ++ queue (control q) ++ queue (non_priority q).

Lemma poll_pop_contents id waker q :
  fst (queue_poll_pop id waker q) = head (contents q) /\
  contents (snd (queue_poll_pop id waker q)) = tail (contents q).
Proof.
  destruct q as [[qp pp] [qc pc] [qn pn] cap n]. unfold queue_poll_pop, shared_poll_pop, contents.
  destruct qp, qc, qn; done.
Qed.

Lemma poll_is_empty_contents id waker q :
  fst (queue_poll_is_empty id waker q) = bool_decide (contents q = []) /\
  contents (snd (queue_poll_is_empty id waker q)) = contents q.
Proof.
  destruct q as [[qp pp] [qc pc] [qn pn] cap n]. unfold queue_poll_is_empty, shared_poll_is_empty, contents.
  destruct qp, qc, qn; done.
Qed.

Lemma sub_set_sub k s q : sub k (set_sub k s q) = s.
Proof. by destruct k. Qed.
Lemma sub_set_sub_ne k k' s q : k ≠ k' -> sub k (set_sub k' s q) = sub k q.
Proof. by destruct k, k'. Qed.
Lemma sub_capacity_set_sub k k' s q : sub_capacity k (set_sub k' s q) = sub_capacity k q.
Proof. by destruct k, k'. Qed.
Lemma count_set_sub k s q : count (set_sub k s q) = count q.
Proof. by destruct k. Qed.

(** * No wake-up is lost *)

(** The sub-queues the current poll found empty. *)
Definition passed (p : Poll) (k : Sub) : Prop :=
  match p, k with
  | Waiting, _ => True
  | Popping Control, Priority | Peeking Control true, Priority => True
  | Popping NonPriority, (Priority | Control) | Peeking NonPriority true, (Priority | Control) => True
  | _, _ => False
  end.

Definition armed (q : QueueStore) (r : Receiver) : Prop :=
  forall k, passed (rc_poll r) k -> notified r = false ->
  queue (sub k q) = [] /\ pending_pops (sub k q) !! rc_id r = Some (rc_waker r).

Record queue_inv (y : System) : Prop := {
  inv_ids h r : receivers y !! h = Some r -> rc_id r = h /\ 1 <= h < count (store y);
  inv_armed h r : receivers y !! h = Some r -> armed (store y) r;
  inv_count : 1 <= count (store y);
}.

(** What a step on behalf of the reference [i] leaves to the others. *)
Definition undisturbed (i : Z) (s s' : SharedInner) : Prop :=
  (queue s = [] -> queue s' = []) /\ forall j, j ≠ i -> pending_pops s' !! j = pending_pops s !! j.

Lemma undisturbed_pop id w s x s' : shared_poll_pop id w s = (x, s') -> undisturbed id s s'.
Proof.
  unfold shared_poll_pop. destruct s as [[|m l] p]; cbn; intros [= <- <-]; split; cbn; try done.
  intros j Hj. by rewrite lookup_insert_ne.
Qed.
Lemma undisturbed_peek id w s x s' : shared_poll_is_empty id w s = (x, s') -> undisturbed id s s'.
Proof.
  unfold shared_poll_is_empty. destruct s as [[|m l] p]; cbn; intros [= <- <-]; split; cbn; try done.
  intros j Hj. by rewrite lookup_insert_ne.
Qed.
Lemma undisturbed_drop id s : undisturbed id s (shared_drop id s).
Proof. split; cbn; [done|]. intros j Hj. by rewrite lookup_delete_ne. Qed.

Lemma armed_undisturbed q k s' i r :
  undisturbed i (sub k q) s' -> rc_id r ≠ i -> armed q r -> armed (set_sub k s' q) r.
Proof.
  intros [Hq Hp] Hi Ha k' Hk Hn. destruct (Ha k' Hk Hn) as [H1 H2]. destruct (decide (k' = k)) as [->|].
  - rewrite sub_set_sub. split; [by apply Hq|]. by rewrite Hp.
  - by rewrite sub_set_sub_ne.
Qed.

(** A receiver's own step on [k] arms it for [k] when that was empty. *)
Lemma armed_own q k s' r p :
  undisturbed (rc_id r) (sub k q) s' ->
  (forall k', passed p k' -> k' ≠ k /\ passed (rc_poll r) k' \/
     k' = k /\ (notified r = false -> queue s' = [] /\ pending_pops s' !! rc_id r = Some (rc_waker r))) ->
  armed q r -> armed (set_sub k s' q) (at_poll p r).
Proof.
  intros _ Hpass Ha k' Hk Hn. cbn in *. destruct (Hpass k' Hk) as [[Hne Hp]|[-> Hs]].
  - rewrite sub_set_sub_ne by done. by apply Ha.
  - rewrite sub_set_sub. by apply Hs.
Qed.

Lemma armed_push m q r woken q' x :
  queue_try_push m q = (x, woken, q') -> armed q r -> armed q' (wake woken r).
Proof.
  unfold queue_try_push, shared_try_push. intros E Ha.
  destruct (match sub_capacity (destination m) q with Some c => _ | None => false end); cbn in E; injection E as <- <- <-.
  - intros k Hk Hn. cbn in *. apply orb_false_iff in Hn as [Hn _].
    assert (Hs : set_sub (destination m) (sub (destination m) q) q = q) by (by destruct q, (destination m)).
    rewrite Hs. by apply Ha.
  - intros k Hk Hn. cbn in Hk, Hn. apply orb_false_iff in Hn as [Hn Hw]. destruct (Ha k Hk Hn) as [H1 H2]. cbn.
    destruct (decide (k = destination m)) as [->|]; [|by rewrite sub_set_sub_ne].
    exfalso. apply bool_decide_eq_false in Hw. apply Hw. apply elem_of_map_img. by eexists.
Qed.

Lemma count_push m q x woken q' : queue_try_push m q = (x, woken, q') -> count q' = count q.
Proof. unfold queue_try_push. destruct (shared_try_push _ _ _) as [[]]. intros [= <- <- <-]. apply count_set_sub. Qed.

(** Receivers [h] aside, the invariant follows from [undisturbed]. *)
Lemma inv_own_step y h r k s' p :
  queue_inv y -> receivers y !! h = Some r -> undisturbed (rc_id r) (sub k (store y)) s' ->
  (forall k', passed p k' -> k' ≠ k /\ passed (rc_poll r) k' \/
     k' = k /\ (notified r = false -> queue s' = [] /\ pending_pops s' !! rc_id r = Some (rc_waker r))) ->
  queue_inv {| store := set_sub k s' (store y); receivers := <[h := at_poll p r]> (receivers y) |}.
Proof.
  intros [Hi Ha Hc] Hr Hu Hp. destruct (Hi h r Hr) as [Hid Hb].
  split; cbn; [..|by rewrite count_set_sub]; intros h' r' [[<- <-]|[Hne Hr']]%lookup_insert_Some.
  - rewrite count_set_sub. done.
  - rewrite count_set_sub. by apply Hi.
  - by apply armed_own; [..|by apply (Ha h)].
  - eapply armed_undisturbed; [done|..|by eapply Ha]. destruct (Hi h' r' Hr') as [-> _]. congruence.
Qed.

Lemma queue_inv_step z z' : step z z' -> queue_inv z -> queue_inv z'.
Proof.
  intros [] Hinv; pose proof Hinv as [Hi Ha Hc].
  - split; cbn; [..|by erewrite count_push];
      intros h r'; rewrite lookup_fmap, fmap_Some; intros (r0 & Hr0 & ->); [|eapply armed_push; eauto].
    erewrite count_push by done. apply (Hi h r0 Hr0).
  - unfold remove_data_messages in *. case_decide; simplify_eq; [by destruct y|].
    split; cbn; [exact Hi| |exact Hc]. intros h r Hr.
    intros k Hk Hn. destruct (Ha h r Hr k Hk Hn) as [H1 H2]. destruct k; cbn in *; try done. by rewrite H1.
  - unfold queue_clone in *. simplify_eq. split; cbn; [| |lia]; intros h r [[<- <-]|[Hne Hr]]%lookup_insert_Some; cbn.
    + lia.
    + destruct (Hi h r Hr). lia.
    + by intros [].
    + intros k. specialize (Ha h r Hr k). by destruct k.
  - split; cbn; [| |exact Hc]; intros h' r' [[<- <-]|[Hne Hr']]%lookup_insert_Some; [apply (Hi h r H)|by apply Hi| |by eapply Ha].
    intros k Hk. destruct H1 as [-> | ->], k; done.
  - eapply inv_own_step; [done..|by eapply undisturbed_pop|]. intros k' Hk'. rewrite H0.
    unfold shared_poll_pop in H1. destruct (queue (sub k (store y))) eqn:E; simplify_eq; [|by destruct k']. cbn.
    rewrite lookup_insert_eq. destruct k, k'; cbn in *; naive_solver.
  - eapply inv_own_step; [done..|by eapply undisturbed_peek|]. intros k' Hk'. rewrite H0.
    unfold shared_poll_is_empty in H1. destruct (queue (sub k (store y))) eqn:E; simplify_eq; cbn.
    + rewrite lookup_insert_eq. destruct k, k', e; cbn in *; naive_solver.
    + destruct k, k', e; cbn in *; naive_solver.
  - split; cbn; [| |exact Hc]; intros h' r' [[<- <-]|[Hne Hr']]%lookup_insert_Some; [apply (Hi h r H)|by apply Hi| |by eapply Ha].
    by intros [] Hk.
  - destruct (next_sub k) as [k'|] eqn:E.
    + eapply inv_own_step; [done..|apply undisturbed_drop|]. intros k'' Hk''. by destruct k''.
    + split; cbn; [..|by rewrite count_set_sub]; intros h' r' [Hne Hr']%lookup_delete_Some.
      * rewrite count_set_sub. by apply Hi.
      * eapply armed_undisturbed; [apply undisturbed_drop|..|by eapply Ha].
        destruct (Hi h' r' Hr') as [-> _], (Hi h r H) as [-> _]. congruence.
Qed.

Lemma queue_inv_reachable capacity y : rtc step (System_new capacity) y -> queue_inv y.
Proof.
  intros H. remember (System_new capacity) as y0 eqn:E. assert (queue_inv y0) as H0.
  { subst. split; cbn; [by intros ? ?|by intros ? ?|lia]. }
  clear E. induction H; eauto using queue_inv_step.
Qed.

(** C12: No wake-up is lost.  Whatever the interleaving of pushes, of the
    three-lock polls of the peer's handlers, of clones and drops: a handler
    whose poll found nothing and whose waker was not woken since that poll
    began has nothing to send, and every push that is accepted wakes it. *)
Theorem no_lost_wakeup capacity y h r :
  rtc step (System_new capacity) y -> receivers y !! h = Some r ->
  rc_poll r = Waiting -> notified r = false ->
  contents (store y) = [] /\
  forall message woken q, queue_try_push message (store y) = (Ok tt, woken, q) -> rc_waker r ∈ woken.
Proof.
  intros Hy Hr Hp Hn. pose proof (inv_armed y (queue_inv_reachable capacity y Hy) h r Hr) as Ha.
  assert (Hk : forall k, queue (sub k (store y)) = [] /\ pending_pops (sub k (store y)) !! rc_id r = Some (rc_waker r)).
  { intros k. apply Ha; [by rewrite Hp|done]. }
  split.
  - unfold contents. pose proof (Hk Priority) as [Hp' _]. pose proof (Hk Control) as [Hc _]. pose proof (Hk NonPriority) as [Hnp _].
    cbn in *. by rewrite Hp', Hc, Hnp.
  - intros message woken q. unfold queue_try_push, shared_try_push.
    destruct (match sub_capacity (destination message) (store y) with Some c => _ | None => false end); [done|].
    intros [= <- <-]. apply elem_of_map_img. exists (rc_id r). apply Hk.
Qed.

(** * The bounds *)
Definition within_capacity (q : QueueStore) : Prop :=
  forall k c, sub_capacity k q = Some c -> len (queue (sub k q)) <= c.

Lemma within_set_sub k s' q :
  len (queue s') <= len (queue (sub k q)) -> within_capacity q -> within_capacity (set_sub k s' q).
Proof.
  intros Hs H k' c. rewrite sub_capacity_set_sub. intros Hc%H. destruct (decide (k' = k)) as [->|].
  - rewrite sub_set_sub. lia.
  - by rewrite sub_set_sub_ne.
Qed.

Lemma within_push m q x woken q' : queue_try_push m q = (x, woken, q') -> within_capacity q -> within_capacity q'.
Proof.
  unfold queue_try_push, shared_try_push. intros E H.
  destruct (sub_capacity (destination m) q) as [c|] eqn:Ec; [case_bool_decide|]; simplify_eq.
  - by apply within_set_sub.
  - intros k c'. rewrite sub_capacity_set_sub. intros Hk. destruct (decide (k = destination m)) as [->|].
    + rewrite sub_set_sub. cbn [queue]. rewrite len_app. assert (c' = c) by congruence. unfold len in *. cbn. lia.
    + rewrite sub_set_sub_ne by done. by apply H.
  - intros k c'. rewrite sub_capacity_set_sub. intros Hk. rewrite sub_set_sub_ne by congruence. by apply H.
Qed.

Lemma within_step z z' : step z z' -> within_capacity (store z) -> within_capacity (store z').
Proof.
  intros [] H'; cbn [store]; try done.
  - by eapply within_push.
  - unfold remove_data_messages in *. case_decide; simplify_eq; [done|]. apply within_set_sub; [|done].
    unfold len. cbn. apply Nat2Z.inj_le, length_filter.
  - unfold queue_clone in *. simplify_eq. intros k c Hk. apply (H' k c). by destruct k.
  - apply within_set_sub; [|done]. unfold shared_poll_pop in *. destruct (queue (sub k (store y))) eqn:E; simplify_eq; unfold len; cbn; rewrite ?E; cbn; lia.
  - apply within_set_sub; [|done]. unfold shared_poll_is_empty in *. destruct (queue (sub k (store y))) eqn:E; simplify_eq; unfold len; cbn; rewrite ?E; cbn; lia.
  - by apply within_set_sub.
Qed.

(** In every reachable state the control queue holds at most
    [CONTROL_MSGS_LIMIT] RPCs and the non-priority queue at most its capacity,
    and a push is refused exactly when the RPC's sub-queue is full, with the
    RPC handed back: subscriptions and extensions never are. *)
Theorem queue_stays_within_capacity capacity y :
  0 <= capacity -> rtc step (System_new capacity) y ->
  within_capacity (store y) /\
  forall message r woken q, queue_try_push message (store y) = (r, woken, q) ->
  r = Ok tt /\ contents q ≡ₚ message :: contents (store y) \/
  r = Err message /\ q = store y /\ destination message ≠ Priority /\
    sub_capacity (destination message) (store y) = Some (len (queue (sub (destination message) (store y)))).
Proof.
  intros Hc Hy. assert (Hw : within_capacity (store y)).
  { assert (H0 : within_capacity (store (System_new capacity)))
      by (intros []; cbn; intros ? [= <-]; unfold CONTROL_MSGS_LIMIT, len; cbn; lia).
    induction Hy; eauto using within_step. }
  split; [done|]. intros message r woken q. unfold queue_try_push, shared_try_push.
  assert (Hpush : contents (set_sub (destination message)
      {| queue := queue (sub (destination message) (store y)) ++ [message]; pending_pops := ∅ |} (store y)) ≡ₚ message :: contents (store y)).
  { unfold contents. destruct (destination message); cbn; solve_Permutation. }
  destruct (sub_capacity (destination message) (store y)) as [c|] eqn:E; [case_bool_decide|]; intros [= <- <- <-]; [right|by left..].
  split_and!; [done|by destruct (store y), (destination message)| |].
  - intros Hd. by rewrite Hd in E.
  - apply Hw in E as ?. f_equal. lia.
Qed.

(** The reference [Queue::new] returns and its first clone have the same id, so
    dropping the former takes the latter's registration away. *)
Definition queue_drop (id : Z) (q : QueueStore) : QueueStore :=
  set_sub NonPriority (shared_drop id (non_priority q))
    (set_sub Control (shared_drop id (control q)) (set_sub Priority (shared_drop id (priority q)) q)).

Lemma original_drop_unregisters_first_clone capacity waker message :
  0 < capacity ->
  let '(id, q) := queue_clone (Queue_new capacity) in
  let q := snd (queue_poll_pop id waker q) in
  snd (fst (queue_try_push message q)) = {[waker]} /\
  fst (queue_try_push message (queue_drop first_id q)) = (Ok tt, ∅).
Proof.
  intros Hc. unfold queue_clone, queue_poll_pop, shared_poll_pop, queue_drop, queue_try_push, shared_try_push.
  cbn [Queue_new SharedInner_empty queue priority control non_priority set_sub register pending_pops count snd fst].
  destruct (destination message); cbn [sub sub_capacity queue pending_pops priority control non_priority set_sub shared_drop non_priority_capacity];
    rewrite ?(bool_decide_false (_ <= _)) by (unfold CONTROL_MSGS_LIMIT, len; cbn; lia); cbn [fst snd];
    (split; [cbn; by rewrite insert_empty, map_img_singleton_L|]);
    cbn; by rewrite delete_insert_eq, delete_empty, map_img_empty_L.
Qed.
End queue.
