(* ===== verification/GsConfig.v ===== *)
(** The configuration of the vendored gossipsub
    (external/libp2p-gossipsub/src/config.rs, the limits of
    external/libp2p-gossipsub/src/protocol.rs) and the configuration the node
    builds with it (crates/stack/behaviour.rs): what [ConfigBuilder::build]
    checks and what it lets through. *)

From S2P Require Import Prelude Bytes Common Float64 AppMessage Text Storage Namespace GsBackoff GsMessageCache.
From Stdlib Require Import Strings.Byte Strings.Ascii.

#[local] Open Scope Z_scope.

(** Durations are in nanoseconds. *)
Definition from_secs (s : Z) : Z := s * 1000000000.
Definition from_millis (s : Z) : Z := s * 1000000.
Definition as_secs (d : Z) : Z := d / 1000000000.
Definition as_millis (d : Z) : Z := d / 1000000.

(** [PeerKind] of types.rs, ordered as declared. *)
Inductive PeerKind : Type := NotSupported | Floodsub | Gossipsub | Gossipsubv1_1 | Gossipsubv1_2 | Gossipsubv1_3.
#[export] Instance PeerKind_eq_dec : EqDecision PeerKind.
Proof. solve_decision. Defined.

Definition kind_rank (k : PeerKind) : Z :=
  match k with NotSupported => 0 | Floodsub => 1 | Gossipsub => 2 | Gossipsubv1_1 => 3 | Gossipsubv1_2 => 4 | Gossipsubv1_3 => 5 end.

Definition is_gossipsub (k : PeerKind) : bool :=
  match k with Gossipsubv1_3 | Gossipsubv1_2 | Gossipsubv1_1 | Gossipsub => true | _ => false end.

Inductive ValidationMode : Type := Strict | Permissive | ModeAnonymous | ModeNone.
#[export] Instance ValidationMode_eq_dec : EqDecision ValidationMode.
Proof. solve_decision. Defined.

Inductive Version : Type := V1_0 | V1_1.

Inductive ConfigBuilderError : Type :=
  MaxTransmissionSizeTooSmall | HistoryLengthTooSmall | MeshParametersInvalid | MeshOutboundInvalid
  | UnsubscribeBackoffIsZero | InvalidProtocol.

(** [StreamProtocol]: a protocol name starts with a slash. *)
Definition StreamProtocol_try_from_owned (s : string) : option string :=
  match s with String (Ascii true true true true false true false false) _ => Some s | _ => None end.

Record TopicMeshConfig := { tm_n : Z; tm_n_low : Z; tm_n_high : Z; tm_outbound_min : Z }.
Definition TopicMeshConfig_default : TopicMeshConfig := {| tm_n := 6; tm_n_low := 5; tm_n_high := 12; tm_outbound_min := 2 |}.

Record TopicConfigs := { topic_mesh_params : gmap TopicHash TopicMeshConfig; default_mesh_params : TopicMeshConfig }.

Record ProtocolConfig := {
  pc_validation_mode : ValidationMode;
  pc_protocol_ids : list (string * PeerKind);
  pc_default_max_transmit_size : Z;
  pc_max_transmit_sizes : gmap TopicHash Z;
  pc_max_publish_messages : Z;
  pc_max_control_message_size : Z;
}.

Definition upd_pc_validation_mode (g : ValidationMode -> ValidationMode) (s : ProtocolConfig) : ProtocolConfig := {|
  pc_validation_mode := g (pc_validation_mode s); pc_protocol_ids := pc_protocol_ids s;
  pc_default_max_transmit_size := pc_default_max_transmit_size s;
  pc_max_transmit_sizes := pc_max_transmit_sizes s; pc_max_publish_messages := pc_max_publish_messages s;
  pc_max_control_message_size := pc_max_control_message_size s |}.
Definition upd_pc_protocol_ids (g : list (string * PeerKind) -> list (string * PeerKind)) (s : ProtocolConfig) : ProtocolConfig := {|
  pc_validation_mode := pc_validation_mode s; pc_protocol_ids := g (pc_protocol_ids s);
  pc_default_max_transmit_size := pc_default_max_transmit_size s;
  pc_max_transmit_sizes := pc_max_transmit_sizes s; pc_max_publish_messages := pc_max_publish_messages s;
  pc_max_control_message_size := pc_max_control_message_size s |}.
Definition upd_pc_default_max_transmit_size (g : Z -> Z) (s : ProtocolConfig) : ProtocolConfig := {|
  pc_validation_mode := pc_validation_mode s; pc_protocol_ids := pc_protocol_ids s;
  pc_default_max_transmit_size := g (pc_default_max_transmit_size s);
  pc_max_transmit_sizes := pc_max_transmit_sizes s; pc_max_publish_messages := pc_max_publish_messages s;
  pc_max_control_message_size := pc_max_control_message_size s |}.
Definition upd_pc_max_transmit_sizes (g : gmap TopicHash Z -> gmap TopicHash Z) (s : ProtocolConfig) : ProtocolConfig := {|
  pc_validation_mode := pc_validation_mode s; pc_protocol_ids := pc_protocol_ids s;
  pc_default_max_transmit_size := pc_default_max_transmit_size s;
  pc_max_transmit_sizes := g (pc_max_transmit_sizes s); pc_max_publish_messages := pc_max_publish_messages s;
  pc_max_control_message_size := pc_max_control_message_size s |}.
Definition upd_pc_max_publish_messages (g : Z -> Z) (s : ProtocolConfig) : ProtocolConfig := {|
  pc_validation_mode := pc_validation_mode s; pc_protocol_ids := pc_protocol_ids s;
  pc_default_max_transmit_size := pc_default_max_transmit_size s;
  pc_max_transmit_sizes := pc_max_transmit_sizes s; pc_max_publish_messages := g (pc_max_publish_messages s);
  pc_max_control_message_size := pc_max_control_message_size s |}.
Definition upd_pc_max_control_message_size (g : Z -> Z) (s : ProtocolConfig) : ProtocolConfig := {|
  pc_validation_mode := pc_validation_mode s; pc_protocol_ids := pc_protocol_ids s;
  pc_default_max_transmit_size := pc_default_max_transmit_size s;
  pc_max_transmit_sizes := pc_max_transmit_sizes s; pc_max_publish_messages := pc_max_publish_messages s;
  pc_max_control_message_size := g (pc_max_control_message_size s) |}.

Definition GOSSIPSUB_1_3_0_PROTOCOL : string * PeerKind := ("/meshsub/1.3.0"%string, Gossipsubv1_3).
Definition GOSSIPSUB_1_2_0_PROTOCOL : string * PeerKind := ("/meshsub/1.2.0"%string, Gossipsubv1_2).
Definition GOSSIPSUB_1_1_0_PROTOCOL : string * PeerKind := ("/meshsub/1.1.0"%string, Gossipsubv1_1).
Definition GOSSIPSUB_1_0_0_PROTOCOL : string * PeerKind := ("/meshsub/1.0.0"%string, Gossipsub).
Definition FLOODSUB_PROTOCOL : string * PeerKind := ("/floodsub/1.0.0"%string, Floodsub).

Definition ProtocolConfig_default : ProtocolConfig := {|
  pc_validation_mode := Strict;
  pc_protocol_ids := [GOSSIPSUB_1_3_0_PROTOCOL; GOSSIPSUB_1_2_0_PROTOCOL; GOSSIPSUB_1_1_0_PROTOCOL; GOSSIPSUB_1_0_0_PROTOCOL];
  pc_default_max_transmit_size := 65536;
  pc_max_transmit_sizes := ∅;
  pc_max_publish_messages := 500;
  pc_max_control_message_size := 16384 |}.

Definition max_transmit_size_for_topic (p : ProtocolConfig) (topic : TopicHash) : Z :=
  default (pc_default_max_transmit_size p) (pc_max_transmit_sizes p !! topic).

Section config.
Context {P : PeerIdLib} .

(** [Message] of types.rs. *)
Record Message := {
  ms_source : option PeerId;
  ms_data : list byte;
  ms_sequence_number : option Z;
  ms_topic : TopicHash;
}.

Record Config := {
  cf_protocol : ProtocolConfig;
  cf_history_length : nat;
  cf_history_gossip : nat;
  cf_retain_scores : Z;
  cf_gossip_lazy : Z;
  cf_gossip_factor : f64;
  cf_heartbeat_initial_delay : Z;
  cf_heartbeat_interval : Z;
  cf_fanout_ttl : Z;
  cf_check_explicit_peers_ticks : Z;
  cf_duplicate_cache_time : Z;
  cf_validate_messages : bool;
  cf_message_id_fn : (Message -> list byte);
  cf_allow_self_origin : bool;
  cf_do_px : bool;
  cf_prune_peers : Z;
  cf_prune_backoff : Z;
  cf_unsubscribe_backoff : Z;
  cf_backoff_slack : Z;
  cf_flood_publish : bool;
  cf_graft_flood_threshold : Z;
  cf_opportunistic_graft_ticks : Z;
  cf_opportunistic_graft_peers : Z;
  cf_gossip_retransimission : Z;
  cf_max_publish_messages : Z;
  cf_max_control_message_size : Z;
  cf_max_control_messages_sent : Z;
  cf_max_ihave_messages_heartbeat : Z;
  cf_iwant_followup_time : Z;
  cf_connection_handler_queue_len : Z;
  cf_connection_handler_publish_duration : Z;
  cf_connection_handler_forward_duration : Z;
  cf_idontwant_message_size_threshold : Z;
  cf_idontwant_on_publish : bool;
  cf_topic_configuration : TopicConfigs;
}.

Definition upd_cf_protocol (g : ProtocolConfig -> ProtocolConfig) (s : Config) : Config := {|
  cf_protocol := g (cf_protocol s); cf_history_length := cf_history_length s;
  cf_history_gossip := cf_history_gossip s; cf_retain_scores := cf_retain_scores s;
  cf_gossip_lazy := cf_gossip_lazy s; cf_gossip_factor := cf_gossip_factor s;
  cf_heartbeat_initial_delay := cf_heartbeat_initial_delay s; cf_heartbeat_interval := cf_heartbeat_interval s;
  cf_fanout_ttl := cf_fanout_ttl s; cf_check_explicit_peers_ticks := cf_check_explicit_peers_ticks s;
  cf_duplicate_cache_time := cf_duplicate_cache_time s; cf_validate_messages := cf_validate_messages s;
  cf_message_id_fn := cf_message_id_fn s; cf_allow_self_origin := cf_allow_self_origin s; cf_do_px := cf_do_px s;
  cf_prune_peers := cf_prune_peers s; cf_prune_backoff := cf_prune_backoff s;
  cf_unsubscribe_backoff := cf_unsubscribe_backoff s; cf_backoff_slack := cf_backoff_slack s;
  cf_flood_publish := cf_flood_publish s; cf_graft_flood_threshold := cf_graft_flood_threshold s;
  cf_opportunistic_graft_ticks := cf_opportunistic_graft_ticks s;
  cf_opportunistic_graft_peers := cf_opportunistic_graft_peers s;
  cf_gossip_retransimission := cf_gossip_retransimission s; cf_max_publish_messages := cf_max_publish_messages s;
  cf_max_control_message_size := cf_max_control_message_size s;
  cf_max_control_messages_sent := cf_max_control_messages_sent s;
  cf_max_ihave_messages_heartbeat := cf_max_ihave_messages_heartbeat s;
  cf_iwant_followup_time := cf_iwant_followup_time s;
  cf_connection_handler_queue_len := cf_connection_handler_queue_len s;
  cf_connection_handler_publish_duration := cf_connection_handler_publish_duration s;
  cf_connection_handler_forward_duration := cf_connection_handler_forward_duration s;
  cf_idontwant_message_size_threshold := cf_idontwant_message_size_threshold s;
  cf_idontwant_on_publish := cf_idontwant_on_publish s; cf_topic_configuration := cf_topic_configuration s |}.
Definition upd_cf_history_length (g : nat -> nat) (s : Config) : Config := {|
  cf_protocol := cf_protocol s; cf_history_length := g (cf_history_length s);
  cf_history_gossip := cf_history_gossip s; cf_retain_scores := cf_retain_scores s;
  cf_gossip_lazy := cf_gossip_lazy s; cf_gossip_factor := cf_gossip_factor s;
  cf_heartbeat_initial_delay := cf_heartbeat_initial_delay s; cf_heartbeat_interval := cf_heartbeat_interval s;
  cf_fanout_ttl := cf_fanout_ttl s; cf_check_explicit_peers_ticks := cf_check_explicit_peers_ticks s;
  cf_duplicate_cache_time := cf_duplicate_cache_time s; cf_validate_messages := cf_validate_messages s;
  cf_message_id_fn := cf_message_id_fn s; cf_allow_self_origin := cf_allow_self_origin s; cf_do_px := cf_do_px s;
  cf_prune_peers := cf_prune_peers s; cf_prune_backoff := cf_prune_backoff s;
  cf_unsubscribe_backoff := cf_unsubscribe_backoff s; cf_backoff_slack := cf_backoff_slack s;
  cf_flood_publish := cf_flood_publish s; cf_graft_flood_threshold := cf_graft_flood_threshold s;
  cf_opportunistic_graft_ticks := cf_opportunistic_graft_ticks s;
  cf_opportunistic_graft_peers := cf_opportunistic_graft_peers s;
  cf_gossip_retransimission := cf_gossip_retransimission s; cf_max_publish_messages := cf_max_publish_messages s;
  cf_max_control_message_size := cf_max_control_message_size s;
  cf_max_control_messages_sent := cf_max_control_messages_sent s;
  cf_max_ihave_messages_heartbeat := cf_max_ihave_messages_heartbeat s;
  cf_iwant_followup_time := cf_iwant_followup_time s;
  cf_connection_handler_queue_len := cf_connection_handler_queue_len s;
  cf_connection_handler_publish_duration := cf_connection_handler_publish_duration s;
  cf_connection_handler_forward_duration := cf_connection_handler_forward_duration s;
  cf_idontwant_message_size_threshold := cf_idontwant_message_size_threshold s;
  cf_idontwant_on_publish := cf_idontwant_on_publish s; cf_topic_configuration := cf_topic_configuration s |}.
Definition upd_cf_history_gossip (g : nat -> nat) (s : Config) : Config := {|
  cf_protocol := cf_protocol s; cf_history_length := cf_history_length s;
  cf_history_gossip := g (cf_history_gossip s); cf_retain_scores := cf_retain_scores s;
  cf_gossip_lazy := cf_gossip_lazy s; cf_gossip_factor := cf_gossip_factor s;
  cf_heartbeat_initial_delay := cf_heartbeat_initial_delay s; cf_heartbeat_interval := cf_heartbeat_interval s;
  cf_fanout_ttl := cf_fanout_ttl s; cf_check_explicit_peers_ticks := cf_check_explicit_peers_ticks s;
  cf_duplicate_cache_time := cf_duplicate_cache_time s; cf_validate_messages := cf_validate_messages s;
  cf_message_id_fn := cf_message_id_fn s; cf_allow_self_origin := cf_allow_self_origin s; cf_do_px := cf_do_px s;
  cf_prune_peers := cf_prune_peers s; cf_prune_backoff := cf_prune_backoff s;
  cf_unsubscribe_backoff := cf_unsubscribe_backoff s; cf_backoff_slack := cf_backoff_slack s;
  cf_flood_publish := cf_flood_publish s; cf_graft_flood_threshold := cf_graft_flood_threshold s;
  cf_opportunistic_graft_ticks := cf_opportunistic_graft_ticks s;
  cf_opportunistic_graft_peers := cf_opportunistic_graft_peers s;
  cf_gossip_retransimission := cf_gossip_retransimission s; cf_max_publish_messages := cf_max_publish_messages s;
  cf_max_control_message_size := cf_max_control_message_size s;
  cf_max_control_messages_sent := cf_max_control_messages_sent s;
  cf_max_ihave_messages_heartbeat := cf_max_ihave_messages_heartbeat s;
  cf_iwant_followup_time := cf_iwant_followup_time s;
  cf_connection_handler_queue_len := cf_connection_handler_queue_len s;
  cf_connection_handler_publish_duration := cf_connection_handler_publish_duration s;
  cf_connection_handler_forward_duration := cf_connection_handler_forward_duration s;
  cf_idontwant_message_size_threshold := cf_idontwant_message_size_threshold s;
  cf_idontwant_on_publish := cf_idontwant_on_publish s; cf_topic_configuration := cf_topic_configuration s |}.
Definition upd_cf_retain_scores (g : Z -> Z) (s : Config) : Config := {|
  cf_protocol := cf_protocol s; cf_history_length := cf_history_length s;
  cf_history_gossip := cf_history_gossip s; cf_retain_scores := g (cf_retain_scores s);
  cf_gossip_lazy := cf_gossip_lazy s; cf_gossip_factor := cf_gossip_factor s;
  cf_heartbeat_initial_delay := cf_heartbeat_initial_delay s; cf_heartbeat_interval := cf_heartbeat_interval s;
  cf_fanout_ttl := cf_fanout_ttl s; cf_check_explicit_peers_ticks := cf_check_explicit_peers_ticks s;
  cf_duplicate_cache_time := cf_duplicate_cache_time s; cf_validate_messages := cf_validate_messages s;
  cf_message_id_fn := cf_message_id_fn s; cf_allow_self_origin := cf_allow_self_origin s; cf_do_px := cf_do_px s;
  cf_prune_peers := cf_prune_peers s; cf_prune_backoff := cf_prune_backoff s;
  cf_unsubscribe_backoff := cf_unsubscribe_backoff s; cf_backoff_slack := cf_backoff_slack s;
  cf_flood_publish := cf_flood_publish s; cf_graft_flood_threshold := cf_graft_flood_threshold s;
  cf_opportunistic_graft_ticks := cf_opportunistic_graft_ticks s;
  cf_opportunistic_graft_peers := cf_opportunistic_graft_peers s;
  cf_gossip_retransimission := cf_gossip_retransimission s; cf_max_publish_messages := cf_max_publish_messages s;
  cf_max_control_message_size := cf_max_control_message_size s;
  cf_max_control_messages_sent := cf_max_control_messages_sent s;
  cf_max_ihave_messages_heartbeat := cf_max_ihave_messages_heartbeat s;
  cf_iwant_followup_time := cf_iwant_followup_time s;
  cf_connection_handler_queue_len := cf_connection_handler_queue_len s;
  cf_connection_handler_publish_duration := cf_connection_handler_publish_duration s;
  cf_connection_handler_forward_duration := cf_connection_handler_forward_duration s;
  cf_idontwant_message_size_threshold := cf_idontwant_message_size_threshold s;
  cf_idontwant_on_publish := cf_idontwant_on_publish s; cf_topic_configuration := cf_topic_configuration s |}.
Definition upd_cf_gossip_lazy (g : Z -> Z) (s : Config) : Config := {|
  cf_protocol := cf_protocol s; cf_history_length := cf_history_length s;
  cf_history_gossip := cf_history_gossip s; cf_retain_scores := cf_retain_scores s;
  cf_gossip_lazy := g (cf_gossip_lazy s); cf_gossip_factor := cf_gossip_factor s;
  cf_heartbeat_initial_delay := cf_heartbeat_initial_delay s; cf_heartbeat_interval := cf_heartbeat_interval s;
  cf_fanout_ttl := cf_fanout_ttl s; cf_check_explicit_peers_ticks := cf_check_explicit_peers_ticks s;
  cf_duplicate_cache_time := cf_duplicate_cache_time s; cf_validate_messages := cf_validate_messages s;
  cf_message_id_fn := cf_message_id_fn s; cf_allow_self_origin := cf_allow_self_origin s; cf_do_px := cf_do_px s;
  cf_prune_peers := cf_prune_peers s; cf_prune_backoff := cf_prune_backoff s;
  cf_unsubscribe_backoff := cf_unsubscribe_backoff s; cf_backoff_slack := cf_backoff_slack s;
  cf_flood_publish := cf_flood_publish s; cf_graft_flood_threshold := cf_graft_flood_threshold s;
  cf_opportunistic_graft_ticks := cf_opportunistic_graft_ticks s;
  cf_opportunistic_graft_peers := cf_opportunistic_graft_peers s;
  cf_gossip_retransimission := cf_gossip_retransimission s; cf_max_publish_messages := cf_max_publish_messages s;
  cf_max_control_message_size := cf_max_control_message_size s;
  cf_max_control_messages_sent := cf_max_control_messages_sent s;
  cf_max_ihave_messages_heartbeat := cf_max_ihave_messages_heartbeat s;
  cf_iwant_followup_time := cf_iwant_followup_time s;
  cf_connection_handler_queue_len := cf_connection_handler_queue_len s;
  cf_connection_handler_publish_duration := cf_connection_handler_publish_duration s;
  cf_connection_handler_forward_duration := cf_connection_handler_forward_duration s;
  cf_idontwant_message_size_threshold := cf_idontwant_message_size_threshold s;
  cf_idontwant_on_publish := cf_idontwant_on_publish s; cf_topic_configuration := cf_topic_configuration s |}.
Definition upd_cf_gossip_factor (g : f64 -> f64) (s : Config) : Config := {|
  cf_protocol := cf_protocol s; cf_history_length := cf_history_length s;
  cf_history_gossip := cf_history_gossip s; cf_retain_scores := cf_retain_scores s;
  cf_gossip_lazy := cf_gossip_lazy s; cf_gossip_factor := g (cf_gossip_factor s);
  cf_heartbeat_initial_delay := cf_heartbeat_initial_delay s; cf_heartbeat_interval := cf_heartbeat_interval s;
  cf_fanout_ttl := cf_fanout_ttl s; cf_check_explicit_peers_ticks := cf_check_explicit_peers_ticks s;
  cf_duplicate_cache_time := cf_duplicate_cache_time s; cf_validate_messages := cf_validate_messages s;
  cf_message_id_fn := cf_message_id_fn s; cf_allow_self_origin := cf_allow_self_origin s; cf_do_px := cf_do_px s;
  cf_prune_peers := cf_prune_peers s; cf_prune_backoff := cf_prune_backoff s;
  cf_unsubscribe_backoff := cf_unsubscribe_backoff s; cf_backoff_slack := cf_backoff_slack s;
  cf_flood_publish := cf_flood_publish s; cf_graft_flood_threshold := cf_graft_flood_threshold s;
  cf_opportunistic_graft_ticks := cf_opportunistic_graft_ticks s;
  cf_opportunistic_graft_peers := cf_opportunistic_graft_peers s;
  cf_gossip_retransimission := cf_gossip_retransimission s; cf_max_publish_messages := cf_max_publish_messages s;
  cf_max_control_message_size := cf_max_control_message_size s;
  cf_max_control_messages_sent := cf_max_control_messages_sent s;
  cf_max_ihave_messages_heartbeat := cf_max_ihave_messages_heartbeat s;
  cf_iwant_followup_time := cf_iwant_followup_time s;
  cf_connection_handler_queue_len := cf_connection_handler_queue_len s;
  cf_connection_handler_publish_duration := cf_connection_handler_publish_duration s;
  cf_connection_handler_forward_duration := cf_connection_handler_forward_duration s;
  cf_idontwant_message_size_threshold := cf_idontwant_message_size_threshold s;
  cf_idontwant_on_publish := cf_idontwant_on_publish s; cf_topic_configuration := cf_topic_configuration s |}.
Definition upd_cf_heartbeat_initial_delay (g : Z -> Z) (s : Config) : Config := {|
  cf_protocol := cf_protocol s; cf_history_length := cf_history_length s;
  cf_history_gossip := cf_history_gossip s; cf_retain_scores := cf_retain_scores s;
  cf_gossip_lazy := cf_gossip_lazy s; cf_gossip_factor := cf_gossip_factor s;
  cf_heartbeat_initial_delay := g (cf_heartbeat_initial_delay s);
  cf_heartbeat_interval := cf_heartbeat_interval s; cf_fanout_ttl := cf_fanout_ttl s;
  cf_check_explicit_peers_ticks := cf_check_explicit_peers_ticks s;
  cf_duplicate_cache_time := cf_duplicate_cache_time s; cf_validate_messages := cf_validate_messages s;
  cf_message_id_fn := cf_message_id_fn s; cf_allow_self_origin := cf_allow_self_origin s; cf_do_px := cf_do_px s;
  cf_prune_peers := cf_prune_peers s; cf_prune_backoff := cf_prune_backoff s;
  cf_unsubscribe_backoff := cf_unsubscribe_backoff s; cf_backoff_slack := cf_backoff_slack s;
  cf_flood_publish := cf_flood_publish s; cf_graft_flood_threshold := cf_graft_flood_threshold s;
  cf_opportunistic_graft_ticks := cf_opportunistic_graft_ticks s;
  cf_opportunistic_graft_peers := cf_opportunistic_graft_peers s;
  cf_gossip_retransimission := cf_gossip_retransimission s; cf_max_publish_messages := cf_max_publish_messages s;
  cf_max_control_message_size := cf_max_control_message_size s;
  cf_max_control_messages_sent := cf_max_control_messages_sent s;
  cf_max_ihave_messages_heartbeat := cf_max_ihave_messages_heartbeat s;
  cf_iwant_followup_time := cf_iwant_followup_time s;
  cf_connection_handler_queue_len := cf_connection_handler_queue_len s;
  cf_connection_handler_publish_duration := cf_connection_handler_publish_duration s;
  cf_connection_handler_forward_duration := cf_connection_handler_forward_duration s;
  cf_idontwant_message_size_threshold := cf_idontwant_message_size_threshold s;
  cf_idontwant_on_publish := cf_idontwant_on_publish s; cf_topic_configuration := cf_topic_configuration s |}.
Definition upd_cf_heartbeat_interval (g : Z -> Z) (s : Config) : Config := {|
  cf_protocol := cf_protocol s; cf_history_length := cf_history_length s;
  cf_history_gossip := cf_history_gossip s; cf_retain_scores := cf_retain_scores s;
  cf_gossip_lazy := cf_gossip_lazy s; cf_gossip_factor := cf_gossip_factor s;
  cf_heartbeat_initial_delay := cf_heartbeat_initial_delay s;
  cf_heartbeat_interval := g (cf_heartbeat_interval s); cf_fanout_ttl := cf_fanout_ttl s;
  cf_check_explicit_peers_ticks := cf_check_explicit_peers_ticks s;
  cf_duplicate_cache_time := cf_duplicate_cache_time s; cf_validate_messages := cf_validate_messages s;
  cf_message_id_fn := cf_message_id_fn s; cf_allow_self_origin := cf_allow_self_origin s; cf_do_px := cf_do_px s;
  cf_prune_peers := cf_prune_peers s; cf_prune_backoff := cf_prune_backoff s;
  cf_unsubscribe_backoff := cf_unsubscribe_backoff s; cf_backoff_slack := cf_backoff_slack s;
  cf_flood_publish := cf_flood_publish s; cf_graft_flood_threshold := cf_graft_flood_threshold s;
  cf_opportunistic_graft_ticks := cf_opportunistic_graft_ticks s;
  cf_opportunistic_graft_peers := cf_opportunistic_graft_peers s;
  cf_gossip_retransimission := cf_gossip_retransimission s; cf_max_publish_messages := cf_max_publish_messages s;
  cf_max_control_message_size := cf_max_control_message_size s;
  cf_max_control_messages_sent := cf_max_control_messages_sent s;
  cf_max_ihave_messages_heartbeat := cf_max_ihave_messages_heartbeat s;
  cf_iwant_followup_time := cf_iwant_followup_time s;
  cf_connection_handler_queue_len := cf_connection_handler_queue_len s;
  cf_connection_handler_publish_duration := cf_connection_handler_publish_duration s;
  cf_connection_handler_forward_duration := cf_connection_handler_forward_duration s;
  cf_idontwant_message_size_threshold := cf_idontwant_message_size_threshold s;
  cf_idontwant_on_publish := cf_idontwant_on_publish s; cf_topic_configuration := cf_topic_configuration s |}.
Definition upd_cf_fanout_ttl (g : Z -> Z) (s : Config) : Config := {|
  cf_protocol := cf_protocol s; cf_history_length := cf_history_length s;
  cf_history_gossip := cf_history_gossip s; cf_retain_scores := cf_retain_scores s;
  cf_gossip_lazy := cf_gossip_lazy s; cf_gossip_factor := cf_gossip_factor s;
  cf_heartbeat_initial_delay := cf_heartbeat_initial_delay s; cf_heartbeat_interval := cf_heartbeat_interval s;
  cf_fanout_ttl := g (cf_fanout_ttl s); cf_check_explicit_peers_ticks := cf_check_explicit_peers_ticks s;
  cf_duplicate_cache_time := cf_duplicate_cache_time s; cf_validate_messages := cf_validate_messages s;
  cf_message_id_fn := cf_message_id_fn s; cf_allow_self_origin := cf_allow_self_origin s; cf_do_px := cf_do_px s;
  cf_prune_peers := cf_prune_peers s; cf_prune_backoff := cf_prune_backoff s;
  cf_unsubscribe_backoff := cf_unsubscribe_backoff s; cf_backoff_slack := cf_backoff_slack s;
  cf_flood_publish := cf_flood_publish s; cf_graft_flood_threshold := cf_graft_flood_threshold s;
  cf_opportunistic_graft_ticks := cf_opportunistic_graft_ticks s;
  cf_opportunistic_graft_peers := cf_opportunistic_graft_peers s;
  cf_gossip_retransimission := cf_gossip_retransimission s; cf_max_publish_messages := cf_max_publish_messages s;
  cf_max_control_message_size := cf_max_control_message_size s;
  cf_max_control_messages_sent := cf_max_control_messages_sent s;
  cf_max_ihave_messages_heartbeat := cf_max_ihave_messages_heartbeat s;
  cf_iwant_followup_time := cf_iwant_followup_time s;
  cf_connection_handler_queue_len := cf_connection_handler_queue_len s;
  cf_connection_handler_publish_duration := cf_connection_handler_publish_duration s;
  cf_connection_handler_forward_duration := cf_connection_handler_forward_duration s;
  cf_idontwant_message_size_threshold := cf_idontwant_message_size_threshold s;
  cf_idontwant_on_publish := cf_idontwant_on_publish s; cf_topic_configuration := cf_topic_configuration s |}.
Definition upd_cf_check_explicit_peers_ticks (g : Z -> Z) (s : Config) : Config := {|
  cf_protocol := cf_protocol s; cf_history_length := cf_history_length s;
  cf_history_gossip := cf_history_gossip s; cf_retain_scores := cf_retain_scores s;
  cf_gossip_lazy := cf_gossip_lazy s; cf_gossip_factor := cf_gossip_factor s;
  cf_heartbeat_initial_delay := cf_heartbeat_initial_delay s; cf_heartbeat_interval := cf_heartbeat_interval s;
  cf_fanout_ttl := cf_fanout_ttl s; cf_check_explicit_peers_ticks := g (cf_check_explicit_peers_ticks s);
  cf_duplicate_cache_time := cf_duplicate_cache_time s; cf_validate_messages := cf_validate_messages s;
  cf_message_id_fn := cf_message_id_fn s; cf_allow_self_origin := cf_allow_self_origin s; cf_do_px := cf_do_px s;
  cf_prune_peers := cf_prune_peers s; cf_prune_backoff := cf_prune_backoff s;
  cf_unsubscribe_backoff := cf_unsubscribe_backoff s; cf_backoff_slack := cf_backoff_slack s;
  cf_flood_publish := cf_flood_publish s; cf_graft_flood_threshold := cf_graft_flood_threshold s;
  cf_opportunistic_graft_ticks := cf_opportunistic_graft_ticks s;
  cf_opportunistic_graft_peers := cf_opportunistic_graft_peers s;
  cf_gossip_retransimission := cf_gossip_retransimission s; cf_max_publish_messages := cf_max_publish_messages s;
  cf_max_control_message_size := cf_max_control_message_size s;
  cf_max_control_messages_sent := cf_max_control_messages_sent s;
  cf_max_ihave_messages_heartbeat := cf_max_ihave_messages_heartbeat s;
  cf_iwant_followup_time := cf_iwant_followup_time s;
  cf_connection_handler_queue_len := cf_connection_handler_queue_len s;
  cf_connection_handler_publish_duration := cf_connection_handler_publish_duration s;
  cf_connection_handler_forward_duration := cf_connection_handler_forward_duration s;
  cf_idontwant_message_size_threshold := cf_idontwant_message_size_threshold s;
  cf_idontwant_on_publish := cf_idontwant_on_publish s; cf_topic_configuration := cf_topic_configuration s |}.
Definition upd_cf_duplicate_cache_time (g : Z -> Z) (s : Config) : Config := {|
  cf_protocol := cf_protocol s; cf_history_length := cf_history_length s;
  cf_history_gossip := cf_history_gossip s; cf_retain_scores := cf_retain_scores s;
  cf_gossip_lazy := cf_gossip_lazy s; cf_gossip_factor := cf_gossip_factor s;
  cf_heartbeat_initial_delay := cf_heartbeat_initial_delay s; cf_heartbeat_interval := cf_heartbeat_interval s;
  cf_fanout_ttl := cf_fanout_ttl s; cf_check_explicit_peers_ticks := cf_check_explicit_peers_ticks s;
  cf_duplicate_cache_time := g (cf_duplicate_cache_time s); cf_validate_messages := cf_validate_messages s;
  cf_message_id_fn := cf_message_id_fn s; cf_allow_self_origin := cf_allow_self_origin s; cf_do_px := cf_do_px s;
  cf_prune_peers := cf_prune_peers s; cf_prune_backoff := cf_prune_backoff s;
  cf_unsubscribe_backoff := cf_unsubscribe_backoff s; cf_backoff_slack := cf_backoff_slack s;
  cf_flood_publish := cf_flood_publish s; cf_graft_flood_threshold := cf_graft_flood_threshold s;
  cf_opportunistic_graft_ticks := cf_opportunistic_graft_ticks s;
  cf_opportunistic_graft_peers := cf_opportunistic_graft_peers s;
  cf_gossip_retransimission := cf_gossip_retransimission s; cf_max_publish_messages := cf_max_publish_messages s;
  cf_max_control_message_size := cf_max_control_message_size s;
  cf_max_control_messages_sent := cf_max_control_messages_sent s;
  cf_max_ihave_messages_heartbeat := cf_max_ihave_messages_heartbeat s;
  cf_iwant_followup_time := cf_iwant_followup_time s;
  cf_connection_handler_queue_len := cf_connection_handler_queue_len s;
  cf_connection_handler_publish_duration := cf_connection_handler_publish_duration s;
  cf_connection_handler_forward_duration := cf_connection_handler_forward_duration s;
  cf_idontwant_message_size_threshold := cf_idontwant_message_size_threshold s;
  cf_idontwant_on_publish := cf_idontwant_on_publish s; cf_topic_configuration := cf_topic_configuration s |}.
Definition upd_cf_validate_messages (g : bool -> bool) (s : Config) : Config := {|
  cf_protocol := cf_protocol s; cf_history_length := cf_history_length s;
  cf_history_gossip := cf_history_gossip s; cf_retain_scores := cf_retain_scores s;
  cf_gossip_lazy := cf_gossip_lazy s; cf_gossip_factor := cf_gossip_factor s;
  cf_heartbeat_initial_delay := cf_heartbeat_initial_delay s; cf_heartbeat_interval := cf_heartbeat_interval s;
  cf_fanout_ttl := cf_fanout_ttl s; cf_check_explicit_peers_ticks := cf_check_explicit_peers_ticks s;
  cf_duplicate_cache_time := cf_duplicate_cache_time s; cf_validate_messages := g (cf_validate_messages s);
  cf_message_id_fn := cf_message_id_fn s; cf_allow_self_origin := cf_allow_self_origin s; cf_do_px := cf_do_px s;
  cf_prune_peers := cf_prune_peers s; cf_prune_backoff := cf_prune_backoff s;
  cf_unsubscribe_backoff := cf_unsubscribe_backoff s; cf_backoff_slack := cf_backoff_slack s;
  cf_flood_publish := cf_flood_publish s; cf_graft_flood_threshold := cf_graft_flood_threshold s;
  cf_opportunistic_graft_ticks := cf_opportunistic_graft_ticks s;
  cf_opportunistic_graft_peers := cf_opportunistic_graft_peers s;
  cf_gossip_retransimission := cf_gossip_retransimission s; cf_max_publish_messages := cf_max_publish_messages s;
  cf_max_control_message_size := cf_max_control_message_size s;
  cf_max_control_messages_sent := cf_max_control_messages_sent s;
  cf_max_ihave_messages_heartbeat := cf_max_ihave_messages_heartbeat s;
  cf_iwant_followup_time := cf_iwant_followup_time s;
  cf_connection_handler_queue_len := cf_connection_handler_queue_len s;
  cf_connection_handler_publish_duration := cf_connection_handler_publish_duration s;
  cf_connection_handler_forward_duration := cf_connection_handler_forward_duration s;
  cf_idontwant_message_size_threshold := cf_idontwant_message_size_threshold s;
  cf_idontwant_on_publish := cf_idontwant_on_publish s; cf_topic_configuration := cf_topic_configuration s |}.
Definition upd_cf_message_id_fn (g : (Message -> list byte) -> (Message -> list byte)) (s : Config) : Config := {|
  cf_protocol := cf_protocol s; cf_history_length := cf_history_length s;
  cf_history_gossip := cf_history_gossip s; cf_retain_scores := cf_retain_scores s;
  cf_gossip_lazy := cf_gossip_lazy s; cf_gossip_factor := cf_gossip_factor s;
  cf_heartbeat_initial_delay := cf_heartbeat_initial_delay s; cf_heartbeat_interval := cf_heartbeat_interval s;
  cf_fanout_ttl := cf_fanout_ttl s; cf_check_explicit_peers_ticks := cf_check_explicit_peers_ticks s;
  cf_duplicate_cache_time := cf_duplicate_cache_time s; cf_validate_messages := cf_validate_messages s;
  cf_message_id_fn := g (cf_message_id_fn s); cf_allow_self_origin := cf_allow_self_origin s;
  cf_do_px := cf_do_px s; cf_prune_peers := cf_prune_peers s; cf_prune_backoff := cf_prune_backoff s;
  cf_unsubscribe_backoff := cf_unsubscribe_backoff s; cf_backoff_slack := cf_backoff_slack s;
  cf_flood_publish := cf_flood_publish s; cf_graft_flood_threshold := cf_graft_flood_threshold s;
  cf_opportunistic_graft_ticks := cf_opportunistic_graft_ticks s;
  cf_opportunistic_graft_peers := cf_opportunistic_graft_peers s;
  cf_gossip_retransimission := cf_gossip_retransimission s; cf_max_publish_messages := cf_max_publish_messages s;
  cf_max_control_message_size := cf_max_control_message_size s;
  cf_max_control_messages_sent := cf_max_control_messages_sent s;
  cf_max_ihave_messages_heartbeat := cf_max_ihave_messages_heartbeat s;
  cf_iwant_followup_time := cf_iwant_followup_time s;
  cf_connection_handler_queue_len := cf_connection_handler_queue_len s;
  cf_connection_handler_publish_duration := cf_connection_handler_publish_duration s;
  cf_connection_handler_forward_duration := cf_connection_handler_forward_duration s;
  cf_idontwant_message_size_threshold := cf_idontwant_message_size_threshold s;
  cf_idontwant_on_publish := cf_idontwant_on_publish s; cf_topic_configuration := cf_topic_configuration s |}.
Definition upd_cf_allow_self_origin (g : bool -> bool) (s : Config) : Config := {|
  cf_protocol := cf_protocol s; cf_history_length := cf_history_length s;
  cf_history_gossip := cf_history_gossip s; cf_retain_scores := cf_retain_scores s;
  cf_gossip_lazy := cf_gossip_lazy s; cf_gossip_factor := cf_gossip_factor s;
  cf_heartbeat_initial_delay := cf_heartbeat_initial_delay s; cf_heartbeat_interval := cf_heartbeat_interval s;
  cf_fanout_ttl := cf_fanout_ttl s; cf_check_explicit_peers_ticks := cf_check_explicit_peers_ticks s;
  cf_duplicate_cache_time := cf_duplicate_cache_time s; cf_validate_messages := cf_validate_messages s;
  cf_message_id_fn := cf_message_id_fn s; cf_allow_self_origin := g (cf_allow_self_origin s);
  cf_do_px := cf_do_px s; cf_prune_peers := cf_prune_peers s; cf_prune_backoff := cf_prune_backoff s;
  cf_unsubscribe_backoff := cf_unsubscribe_backoff s; cf_backoff_slack := cf_backoff_slack s;
  cf_flood_publish := cf_flood_publish s; cf_graft_flood_threshold := cf_graft_flood_threshold s;
  cf_opportunistic_graft_ticks := cf_opportunistic_graft_ticks s;
  cf_opportunistic_graft_peers := cf_opportunistic_graft_peers s;
  cf_gossip_retransimission := cf_gossip_retransimission s; cf_max_publish_messages := cf_max_publish_messages s;
  cf_max_control_message_size := cf_max_control_message_size s;
  cf_max_control_messages_sent := cf_max_control_messages_sent s;
  cf_max_ihave_messages_heartbeat := cf_max_ihave_messages_heartbeat s;
  cf_iwant_followup_time := cf_iwant_followup_time s;
  cf_connection_handler_queue_len := cf_connection_handler_queue_len s;
  cf_connection_handler_publish_duration := cf_connection_handler_publish_duration s;
  cf_connection_handler_forward_duration := cf_connection_handler_forward_duration s;
  cf_idontwant_message_size_threshold := cf_idontwant_message_size_threshold s;
  cf_idontwant_on_publish := cf_idontwant_on_publish s; cf_topic_configuration := cf_topic_configuration s |}.
Definition upd_cf_do_px (g : bool -> bool) (s : Config) : Config := {|
  cf_protocol := cf_protocol s; cf_history_length := cf_history_length s;
  cf_history_gossip := cf_history_gossip s; cf_retain_scores := cf_retain_scores s;
  cf_gossip_lazy := cf_gossip_lazy s; cf_gossip_factor := cf_gossip_factor s;
  cf_heartbeat_initial_delay := cf_heartbeat_initial_delay s; cf_heartbeat_interval := cf_heartbeat_interval s;
  cf_fanout_ttl := cf_fanout_ttl s; cf_check_explicit_peers_ticks := cf_check_explicit_peers_ticks s;
  cf_duplicate_cache_time := cf_duplicate_cache_time s; cf_validate_messages := cf_validate_messages s;
  cf_message_id_fn := cf_message_id_fn s; cf_allow_self_origin := cf_allow_self_origin s;
  cf_do_px := g (cf_do_px s); cf_prune_peers := cf_prune_peers s; cf_prune_backoff := cf_prune_backoff s;
  cf_unsubscribe_backoff := cf_unsubscribe_backoff s; cf_backoff_slack := cf_backoff_slack s;
  cf_flood_publish := cf_flood_publish s; cf_graft_flood_threshold := cf_graft_flood_threshold s;
  cf_opportunistic_graft_ticks := cf_opportunistic_graft_ticks s;
  cf_opportunistic_graft_peers := cf_opportunistic_graft_peers s;
  cf_gossip_retransimission := cf_gossip_retransimission s; cf_max_publish_messages := cf_max_publish_messages s;
  cf_max_control_message_size := cf_max_control_message_size s;
  cf_max_control_messages_sent := cf_max_control_messages_sent s;
  cf_max_ihave_messages_heartbeat := cf_max_ihave_messages_heartbeat s;
  cf_iwant_followup_time := cf_iwant_followup_time s;
  cf_connection_handler_queue_len := cf_connection_handler_queue_len s;
  cf_connection_handler_publish_duration := cf_connection_handler_publish_duration s;
  cf_connection_handler_forward_duration := cf_connection_handler_forward_duration s;
  cf_idontwant_message_size_threshold := cf_idontwant_message_size_threshold s;
  cf_idontwant_on_publish := cf_idontwant_on_publish s; cf_topic_configuration := cf_topic_configuration s |}.
Definition upd_cf_prune_peers (g : Z -> Z) (s : Config) : Config := {|
  cf_protocol := cf_protocol s; cf_history_length := cf_history_length s;
  cf_history_gossip := cf_history_gossip s; cf_retain_scores := cf_retain_scores s;
  cf_gossip_lazy := cf_gossip_lazy s; cf_gossip_factor := cf_gossip_factor s;
  cf_heartbeat_initial_delay := cf_heartbeat_initial_delay s; cf_heartbeat_interval := cf_heartbeat_interval s;
  cf_fanout_ttl := cf_fanout_ttl s; cf_check_explicit_peers_ticks := cf_check_explicit_peers_ticks s;
  cf_duplicate_cache_time := cf_duplicate_cache_time s; cf_validate_messages := cf_validate_messages s;
  cf_message_id_fn := cf_message_id_fn s; cf_allow_self_origin := cf_allow_self_origin s; cf_do_px := cf_do_px s;
  cf_prune_peers := g (cf_prune_peers s); cf_prune_backoff := cf_prune_backoff s;
  cf_unsubscribe_backoff := cf_unsubscribe_backoff s; cf_backoff_slack := cf_backoff_slack s;
  cf_flood_publish := cf_flood_publish s; cf_graft_flood_threshold := cf_graft_flood_threshold s;
  cf_opportunistic_graft_ticks := cf_opportunistic_graft_ticks s;
  cf_opportunistic_graft_peers := cf_opportunistic_graft_peers s;
  cf_gossip_retransimission := cf_gossip_retransimission s; cf_max_publish_messages := cf_max_publish_messages s;
  cf_max_control_message_size := cf_max_control_message_size s;
  cf_max_control_messages_sent := cf_max_control_messages_sent s;
  cf_max_ihave_messages_heartbeat := cf_max_ihave_messages_heartbeat s;
  cf_iwant_followup_time := cf_iwant_followup_time s;
  cf_connection_handler_queue_len := cf_connection_handler_queue_len s;
  cf_connection_handler_publish_duration := cf_connection_handler_publish_duration s;
  cf_connection_handler_forward_duration := cf_connection_handler_forward_duration s;
  cf_idontwant_message_size_threshold := cf_idontwant_message_size_threshold s;
  cf_idontwant_on_publish := cf_idontwant_on_publish s; cf_topic_configuration := cf_topic_configuration s |}.
Definition upd_cf_prune_backoff (g : Z -> Z) (s : Config) : Config := {|
  cf_protocol := cf_protocol s; cf_history_length := cf_history_length s;
  cf_history_gossip := cf_history_gossip s; cf_retain_scores := cf_retain_scores s;
  cf_gossip_lazy := cf_gossip_lazy s; cf_gossip_factor := cf_gossip_factor s;
  cf_heartbeat_initial_delay := cf_heartbeat_initial_delay s; cf_heartbeat_interval := cf_heartbeat_interval s;
  cf_fanout_ttl := cf_fanout_ttl s; cf_check_explicit_peers_ticks := cf_check_explicit_peers_ticks s;
  cf_duplicate_cache_time := cf_duplicate_cache_time s; cf_validate_messages := cf_validate_messages s;
  cf_message_id_fn := cf_message_id_fn s; cf_allow_self_origin := cf_allow_self_origin s; cf_do_px := cf_do_px s;
  cf_prune_peers := cf_prune_peers s; cf_prune_backoff := g (cf_prune_backoff s);
  cf_unsubscribe_backoff := cf_unsubscribe_backoff s; cf_backoff_slack := cf_backoff_slack s;
  cf_flood_publish := cf_flood_publish s; cf_graft_flood_threshold := cf_graft_flood_threshold s;
  cf_opportunistic_graft_ticks := cf_opportunistic_graft_ticks s;
  cf_opportunistic_graft_peers := cf_opportunistic_graft_peers s;
  cf_gossip_retransimission := cf_gossip_retransimission s; cf_max_publish_messages := cf_max_publish_messages s;
  cf_max_control_message_size := cf_max_control_message_size s;
  cf_max_control_messages_sent := cf_max_control_messages_sent s;
  cf_max_ihave_messages_heartbeat := cf_max_ihave_messages_heartbeat s;
  cf_iwant_followup_time := cf_iwant_followup_time s;
  cf_connection_handler_queue_len := cf_connection_handler_queue_len s;
  cf_connection_handler_publish_duration := cf_connection_handler_publish_duration s;
  cf_connection_handler_forward_duration := cf_connection_handler_forward_duration s;
  cf_idontwant_message_size_threshold := cf_idontwant_message_size_threshold s;
  cf_idontwant_on_publish := cf_idontwant_on_publish s; cf_topic_configuration := cf_topic_configuration s |}.
Definition upd_cf_unsubscribe_backoff (g : Z -> Z) (s : Config) : Config := {|
  cf_protocol := cf_protocol s; cf_history_length := cf_history_length s;
  cf_history_gossip := cf_history_gossip s; cf_retain_scores := cf_retain_scores s;
  cf_gossip_lazy := cf_gossip_lazy s; cf_gossip_factor := cf_gossip_factor s;
  cf_heartbeat_initial_delay := cf_heartbeat_initial_delay s; cf_heartbeat_interval := cf_heartbeat_interval s;
  cf_fanout_ttl := cf_fanout_ttl s; cf_check_explicit_peers_ticks := cf_check_explicit_peers_ticks s;
  cf_duplicate_cache_time := cf_duplicate_cache_time s; cf_validate_messages := cf_validate_messages s;
  cf_message_id_fn := cf_message_id_fn s; cf_allow_self_origin := cf_allow_self_origin s; cf_do_px := cf_do_px s;
  cf_prune_peers := cf_prune_peers s; cf_prune_backoff := cf_prune_backoff s;
  cf_unsubscribe_backoff := g (cf_unsubscribe_backoff s); cf_backoff_slack := cf_backoff_slack s;
  cf_flood_publish := cf_flood_publish s; cf_graft_flood_threshold := cf_graft_flood_threshold s;
  cf_opportunistic_graft_ticks := cf_opportunistic_graft_ticks s;
  cf_opportunistic_graft_peers := cf_opportunistic_graft_peers s;
  cf_gossip_retransimission := cf_gossip_retransimission s; cf_max_publish_messages := cf_max_publish_messages s;
  cf_max_control_message_size := cf_max_control_message_size s;
  cf_max_control_messages_sent := cf_max_control_messages_sent s;
  cf_max_ihave_messages_heartbeat := cf_max_ihave_messages_heartbeat s;
  cf_iwant_followup_time := cf_iwant_followup_time s;
  cf_connection_handler_queue_len := cf_connection_handler_queue_len s;
  cf_connection_handler_publish_duration := cf_connection_handler_publish_duration s;
  cf_connection_handler_forward_duration := cf_connection_handler_forward_duration s;
  cf_idontwant_message_size_threshold := cf_idontwant_message_size_threshold s;
  cf_idontwant_on_publish := cf_idontwant_on_publish s; cf_topic_configuration := cf_topic_configuration s |}.
Definition upd_cf_backoff_slack (g : Z -> Z) (s : Config) : Config := {|
  cf_protocol := cf_protocol s; cf_history_length := cf_history_length s;
  cf_history_gossip := cf_history_gossip s; cf_retain_scores := cf_retain_scores s;
  cf_gossip_lazy := cf_gossip_lazy s; cf_gossip_factor := cf_gossip_factor s;
  cf_heartbeat_initial_delay := cf_heartbeat_initial_delay s; cf_heartbeat_interval := cf_heartbeat_interval s;
  cf_fanout_ttl := cf_fanout_ttl s; cf_check_explicit_peers_ticks := cf_check_explicit_peers_ticks s;
  cf_duplicate_cache_time := cf_duplicate_cache_time s; cf_validate_messages := cf_validate_messages s;
  cf_message_id_fn := cf_message_id_fn s; cf_allow_self_origin := cf_allow_self_origin s; cf_do_px := cf_do_px s;
  cf_prune_peers := cf_prune_peers s; cf_prune_backoff := cf_prune_backoff s;
  cf_unsubscribe_backoff := cf_unsubscribe_backoff s; cf_backoff_slack := g (cf_backoff_slack s);
  cf_flood_publish := cf_flood_publish s; cf_graft_flood_threshold := cf_graft_flood_threshold s;
  cf_opportunistic_graft_ticks := cf_opportunistic_graft_ticks s;
  cf_opportunistic_graft_peers := cf_opportunistic_graft_peers s;
  cf_gossip_retransimission := cf_gossip_retransimission s; cf_max_publish_messages := cf_max_publish_messages s;
  cf_max_control_message_size := cf_max_control_message_size s;
  cf_max_control_messages_sent := cf_max_control_messages_sent s;
  cf_max_ihave_messages_heartbeat := cf_max_ihave_messages_heartbeat s;
  cf_iwant_followup_time := cf_iwant_followup_time s;
  cf_connection_handler_queue_len := cf_connection_handler_queue_len s;
  cf_connection_handler_publish_duration := cf_connection_handler_publish_duration s;
  cf_connection_handler_forward_duration := cf_connection_handler_forward_duration s;
  cf_idontwant_message_size_threshold := cf_idontwant_message_size_threshold s;
  cf_idontwant_on_publish := cf_idontwant_on_publish s; cf_topic_configuration := cf_topic_configuration s |}.
Definition upd_cf_flood_publish (g : bool -> bool) (s : Config) : Config := {|
  cf_protocol := cf_protocol s; cf_history_length := cf_history_length s;
  cf_history_gossip := cf_history_gossip s; cf_retain_scores := cf_retain_scores s;
  cf_gossip_lazy := cf_gossip_lazy s; cf_gossip_factor := cf_gossip_factor s;
  cf_heartbeat_initial_delay := cf_heartbeat_initial_delay s; cf_heartbeat_interval := cf_heartbeat_interval s;
  cf_fanout_ttl := cf_fanout_ttl s; cf_check_explicit_peers_ticks := cf_check_explicit_peers_ticks s;
  cf_duplicate_cache_time := cf_duplicate_cache_time s; cf_validate_messages := cf_validate_messages s;
  cf_message_id_fn := cf_message_id_fn s; cf_allow_self_origin := cf_allow_self_origin s; cf_do_px := cf_do_px s;
  cf_prune_peers := cf_prune_peers s; cf_prune_backoff := cf_prune_backoff s;
  cf_unsubscribe_backoff := cf_unsubscribe_backoff s; cf_backoff_slack := cf_backoff_slack s;
  cf_flood_publish := g (cf_flood_publish s); cf_graft_flood_threshold := cf_graft_flood_threshold s;
  cf_opportunistic_graft_ticks := cf_opportunistic_graft_ticks s;
  cf_opportunistic_graft_peers := cf_opportunistic_graft_peers s;
  cf_gossip_retransimission := cf_gossip_retransimission s; cf_max_publish_messages := cf_max_publish_messages s;
  cf_max_control_message_size := cf_max_control_message_size s;
  cf_max_control_messages_sent := cf_max_control_messages_sent s;
  cf_max_ihave_messages_heartbeat := cf_max_ihave_messages_heartbeat s;
  cf_iwant_followup_time := cf_iwant_followup_time s;
  cf_connection_handler_queue_len := cf_connection_handler_queue_len s;
  cf_connection_handler_publish_duration := cf_connection_handler_publish_duration s;
  cf_connection_handler_forward_duration := cf_connection_handler_forward_duration s;
  cf_idontwant_message_size_threshold := cf_idontwant_message_size_threshold s;
  cf_idontwant_on_publish := cf_idontwant_on_publish s; cf_topic_configuration := cf_topic_configuration s |}.
Definition upd_cf_graft_flood_threshold (g : Z -> Z) (s : Config) : Config := {|
  cf_protocol := cf_protocol s; cf_history_length := cf_history_length s;
  cf_history_gossip := cf_history_gossip s; cf_retain_scores := cf_retain_scores s;
  cf_gossip_lazy := cf_gossip_lazy s; cf_gossip_factor := cf_gossip_factor s;
  cf_heartbeat_initial_delay := cf_heartbeat_initial_delay s; cf_heartbeat_interval := cf_heartbeat_interval s;
  cf_fanout_ttl := cf_fanout_ttl s; cf_check_explicit_peers_ticks := cf_check_explicit_peers_ticks s;
  cf_duplicate_cache_time := cf_duplicate_cache_time s; cf_validate_messages := cf_validate_messages s;
  cf_message_id_fn := cf_message_id_fn s; cf_allow_self_origin := cf_allow_self_origin s; cf_do_px := cf_do_px s;
  cf_prune_peers := cf_prune_peers s; cf_prune_backoff := cf_prune_backoff s;
  cf_unsubscribe_backoff := cf_unsubscribe_backoff s; cf_backoff_slack := cf_backoff_slack s;
  cf_flood_publish := cf_flood_publish s; cf_graft_flood_threshold := g (cf_graft_flood_threshold s);
  cf_opportunistic_graft_ticks := cf_opportunistic_graft_ticks s;
  cf_opportunistic_graft_peers := cf_opportunistic_graft_peers s;
  cf_gossip_retransimission := cf_gossip_retransimission s; cf_max_publish_messages := cf_max_publish_messages s;
  cf_max_control_message_size := cf_max_control_message_size s;
  cf_max_control_messages_sent := cf_max_control_messages_sent s;
  cf_max_ihave_messages_heartbeat := cf_max_ihave_messages_heartbeat s;
  cf_iwant_followup_time := cf_iwant_followup_time s;
  cf_connection_handler_queue_len := cf_connection_handler_queue_len s;
  cf_connection_handler_publish_duration := cf_connection_handler_publish_duration s;
  cf_connection_handler_forward_duration := cf_connection_handler_forward_duration s;
  cf_idontwant_message_size_threshold := cf_idontwant_message_size_threshold s;
  cf_idontwant_on_publish := cf_idontwant_on_publish s; cf_topic_configuration := cf_topic_configuration s |}.
Definition upd_cf_opportunistic_graft_ticks (g : Z -> Z) (s : Config) : Config := {|
  cf_protocol := cf_protocol s; cf_history_length := cf_history_length s;
  cf_history_gossip := cf_history_gossip s; cf_retain_scores := cf_retain_scores s;
  cf_gossip_lazy := cf_gossip_lazy s; cf_gossip_factor := cf_gossip_factor s;
  cf_heartbeat_initial_delay := cf_heartbeat_initial_delay s; cf_heartbeat_interval := cf_heartbeat_interval s;
  cf_fanout_ttl := cf_fanout_ttl s; cf_check_explicit_peers_ticks := cf_check_explicit_peers_ticks s;
  cf_duplicate_cache_time := cf_duplicate_cache_time s; cf_validate_messages := cf_validate_messages s;
  cf_message_id_fn := cf_message_id_fn s; cf_allow_self_origin := cf_allow_self_origin s; cf_do_px := cf_do_px s;
  cf_prune_peers := cf_prune_peers s; cf_prune_backoff := cf_prune_backoff s;
  cf_unsubscribe_backoff := cf_unsubscribe_backoff s; cf_backoff_slack := cf_backoff_slack s;
  cf_flood_publish := cf_flood_publish s; cf_graft_flood_threshold := cf_graft_flood_threshold s;
  cf_opportunistic_graft_ticks := g (cf_opportunistic_graft_ticks s);
  cf_opportunistic_graft_peers := cf_opportunistic_graft_peers s;
  cf_gossip_retransimission := cf_gossip_retransimission s; cf_max_publish_messages := cf_max_publish_messages s;
  cf_max_control_message_size := cf_max_control_message_size s;
  cf_max_control_messages_sent := cf_max_control_messages_sent s;
  cf_max_ihave_messages_heartbeat := cf_max_ihave_messages_heartbeat s;
  cf_iwant_followup_time := cf_iwant_followup_time s;
  cf_connection_handler_queue_len := cf_connection_handler_queue_len s;
  cf_connection_handler_publish_duration := cf_connection_handler_publish_duration s;
  cf_connection_handler_forward_duration := cf_connection_handler_forward_duration s;
  cf_idontwant_message_size_threshold := cf_idontwant_message_size_threshold s;
  cf_idontwant_on_publish := cf_idontwant_on_publish s; cf_topic_configuration := cf_topic_configuration s |}.
Definition upd_cf_opportunistic_graft_peers (g : Z -> Z) (s : Config) : Config := {|
  cf_protocol := cf_protocol s; cf_history_length := cf_history_length s;
  cf_history_gossip := cf_history_gossip s; cf_retain_scores := cf_retain_scores s;
  cf_gossip_lazy := cf_gossip_lazy s; cf_gossip_factor := cf_gossip_factor s;
  cf_heartbeat_initial_delay := cf_heartbeat_initial_delay s; cf_heartbeat_interval := cf_heartbeat_interval s;
  cf_fanout_ttl := cf_fanout_ttl s; cf_check_explicit_peers_ticks := cf_check_explicit_peers_ticks s;
  cf_duplicate_cache_time := cf_duplicate_cache_time s; cf_validate_messages := cf_validate_messages s;
  cf_message_id_fn := cf_message_id_fn s; cf_allow_self_origin := cf_allow_self_origin s; cf_do_px := cf_do_px s;
  cf_prune_peers := cf_prune_peers s; cf_prune_backoff := cf_prune_backoff s;
  cf_unsubscribe_backoff := cf_unsubscribe_backoff s; cf_backoff_slack := cf_backoff_slack s;
  cf_flood_publish := cf_flood_publish s; cf_graft_flood_threshold := cf_graft_flood_threshold s;
  cf_opportunistic_graft_ticks := cf_opportunistic_graft_ticks s;
  cf_opportunistic_graft_peers := g (cf_opportunistic_graft_peers s);
  cf_gossip_retransimission := cf_gossip_retransimission s; cf_max_publish_messages := cf_max_publish_messages s;
  cf_max_control_message_size := cf_max_control_message_size s;
  cf_max_control_messages_sent := cf_max_control_messages_sent s;
  cf_max_ihave_messages_heartbeat := cf_max_ihave_messages_heartbeat s;
  cf_iwant_followup_time := cf_iwant_followup_time s;
  cf_connection_handler_queue_len := cf_connection_handler_queue_len s;
  cf_connection_handler_publish_duration := cf_connection_handler_publish_duration s;
  cf_connection_handler_forward_duration := cf_connection_handler_forward_duration s;
  cf_idontwant_message_size_threshold := cf_idontwant_message_size_threshold s;
  cf_idontwant_on_publish := cf_idontwant_on_publish s; cf_topic_configuration := cf_topic_configuration s |}.
Definition upd_cf_gossip_retransimission (g : Z -> Z) (s : Config) : Config := {|
  cf_protocol := cf_protocol s; cf_history_length := cf_history_length s;
  cf_history_gossip := cf_history_gossip s; cf_retain_scores := cf_retain_scores s;
  cf_gossip_lazy := cf_gossip_lazy s; cf_gossip_factor := cf_gossip_factor s;
  cf_heartbeat_initial_delay := cf_heartbeat_initial_delay s; cf_heartbeat_interval := cf_heartbeat_interval s;
  cf_fanout_ttl := cf_fanout_ttl s; cf_check_explicit_peers_ticks := cf_check_explicit_peers_ticks s;
  cf_duplicate_cache_time := cf_duplicate_cache_time s; cf_validate_messages := cf_validate_messages s;
  cf_message_id_fn := cf_message_id_fn s; cf_allow_self_origin := cf_allow_self_origin s; cf_do_px := cf_do_px s;
  cf_prune_peers := cf_prune_peers s; cf_prune_backoff := cf_prune_backoff s;
  cf_unsubscribe_backoff := cf_unsubscribe_backoff s; cf_backoff_slack := cf_backoff_slack s;
  cf_flood_publish := cf_flood_publish s; cf_graft_flood_threshold := cf_graft_flood_threshold s;
  cf_opportunistic_graft_ticks := cf_opportunistic_graft_ticks s;
  cf_opportunistic_graft_peers := cf_opportunistic_graft_peers s;
  cf_gossip_retransimission := g (cf_gossip_retransimission s);
  cf_max_publish_messages := cf_max_publish_messages s;
  cf_max_control_message_size := cf_max_control_message_size s;
  cf_max_control_messages_sent := cf_max_control_messages_sent s;
  cf_max_ihave_messages_heartbeat := cf_max_ihave_messages_heartbeat s;
  cf_iwant_followup_time := cf_iwant_followup_time s;
  cf_connection_handler_queue_len := cf_connection_handler_queue_len s;
  cf_connection_handler_publish_duration := cf_connection_handler_publish_duration s;
  cf_connection_handler_forward_duration := cf_connection_handler_forward_duration s;
  cf_idontwant_message_size_threshold := cf_idontwant_message_size_threshold s;
  cf_idontwant_on_publish := cf_idontwant_on_publish s; cf_topic_configuration := cf_topic_configuration s |}.
Definition upd_cf_max_publish_messages (g : Z -> Z) (s : Config) : Config := {|
  cf_protocol := cf_protocol s; cf_history_length := cf_history_length s;
  cf_history_gossip := cf_history_gossip s; cf_retain_scores := cf_retain_scores s;
  cf_gossip_lazy := cf_gossip_lazy s; cf_gossip_factor := cf_gossip_factor s;
  cf_heartbeat_initial_delay := cf_heartbeat_initial_delay s; cf_heartbeat_interval := cf_heartbeat_interval s;
  cf_fanout_ttl := cf_fanout_ttl s; cf_check_explicit_peers_ticks := cf_check_explicit_peers_ticks s;
  cf_duplicate_cache_time := cf_duplicate_cache_time s; cf_validate_messages := cf_validate_messages s;
  cf_message_id_fn := cf_message_id_fn s; cf_allow_self_origin := cf_allow_self_origin s; cf_do_px := cf_do_px s;
  cf_prune_peers := cf_prune_peers s; cf_prune_backoff := cf_prune_backoff s;
  cf_unsubscribe_backoff := cf_unsubscribe_backoff s; cf_backoff_slack := cf_backoff_slack s;
  cf_flood_publish := cf_flood_publish s; cf_graft_flood_threshold := cf_graft_flood_threshold s;
  cf_opportunistic_graft_ticks := cf_opportunistic_graft_ticks s;
  cf_opportunistic_graft_peers := cf_opportunistic_graft_peers s;
  cf_gossip_retransimission := cf_gossip_retransimission s;
  cf_max_publish_messages := g (cf_max_publish_messages s);
  cf_max_control_message_size := cf_max_control_message_size s;
  cf_max_control_messages_sent := cf_max_control_messages_sent s;
  cf_max_ihave_messages_heartbeat := cf_max_ihave_messages_heartbeat s;
  cf_iwant_followup_time := cf_iwant_followup_time s;
  cf_connection_handler_queue_len := cf_connection_handler_queue_len s;
  cf_connection_handler_publish_duration := cf_connection_handler_publish_duration s;
  cf_connection_handler_forward_duration := cf_connection_handler_forward_duration s;
  cf_idontwant_message_size_threshold := cf_idontwant_message_size_threshold s;
  cf_idontwant_on_publish := cf_idontwant_on_publish s; cf_topic_configuration := cf_topic_configuration s |}.
Definition upd_cf_max_control_message_size (g : Z -> Z) (s : Config) : Config := {|
  cf_protocol := cf_protocol s; cf_history_length := cf_history_length s;
  cf_history_gossip := cf_history_gossip s; cf_retain_scores := cf_retain_scores s;
  cf_gossip_lazy := cf_gossip_lazy s; cf_gossip_factor := cf_gossip_factor s;
  cf_heartbeat_initial_delay := cf_heartbeat_initial_delay s; cf_heartbeat_interval := cf_heartbeat_interval s;
  cf_fanout_ttl := cf_fanout_ttl s; cf_check_explicit_peers_ticks := cf_check_explicit_peers_ticks s;
  cf_duplicate_cache_time := cf_duplicate_cache_time s; cf_validate_messages := cf_validate_messages s;
  cf_message_id_fn := cf_message_id_fn s; cf_allow_self_origin := cf_allow_self_origin s; cf_do_px := cf_do_px s;
  cf_prune_peers := cf_prune_peers s; cf_prune_backoff := cf_prune_backoff s;
  cf_unsubscribe_backoff := cf_unsubscribe_backoff s; cf_backoff_slack := cf_backoff_slack s;
  cf_flood_publish := cf_flood_publish s; cf_graft_flood_threshold := cf_graft_flood_threshold s;
  cf_opportunistic_graft_ticks := cf_opportunistic_graft_ticks s;
  cf_opportunistic_graft_peers := cf_opportunistic_graft_peers s;
  cf_gossip_retransimission := cf_gossip_retransimission s; cf_max_publish_messages := cf_max_publish_messages s;
  cf_max_control_message_size := g (cf_max_control_message_size s);
  cf_max_control_messages_sent := cf_max_control_messages_sent s;
  cf_max_ihave_messages_heartbeat := cf_max_ihave_messages_heartbeat s;
  cf_iwant_followup_time := cf_iwant_followup_time s;
  cf_connection_handler_queue_len := cf_connection_handler_queue_len s;
  cf_connection_handler_publish_duration := cf_connection_handler_publish_duration s;
  cf_connection_handler_forward_duration := cf_connection_handler_forward_duration s;
  cf_idontwant_message_size_threshold := cf_idontwant_message_size_threshold s;
  cf_idontwant_on_publish := cf_idontwant_on_publish s; cf_topic_configuration := cf_topic_configuration s |}.
Definition upd_cf_max_control_messages_sent (g : Z -> Z) (s : Config) : Config := {|
  cf_protocol := cf_protocol s; cf_history_length := cf_history_length s;
  cf_history_gossip := cf_history_gossip s; cf_retain_scores := cf_retain_scores s;
  cf_gossip_lazy := cf_gossip_lazy s; cf_gossip_factor := cf_gossip_factor s;
  cf_heartbeat_initial_delay := cf_heartbeat_initial_delay s; cf_heartbeat_interval := cf_heartbeat_interval s;
  cf_fanout_ttl := cf_fanout_ttl s; cf_check_explicit_peers_ticks := cf_check_explicit_peers_ticks s;
  cf_duplicate_cache_time := cf_duplicate_cache_time s; cf_validate_messages := cf_validate_messages s;
  cf_message_id_fn := cf_message_id_fn s; cf_allow_self_origin := cf_allow_self_origin s; cf_do_px := cf_do_px s;
  cf_prune_peers := cf_prune_peers s; cf_prune_backoff := cf_prune_backoff s;
  cf_unsubscribe_backoff := cf_unsubscribe_backoff s; cf_backoff_slack := cf_backoff_slack s;
  cf_flood_publish := cf_flood_publish s; cf_graft_flood_threshold := cf_graft_flood_threshold s;
  cf_opportunistic_graft_ticks := cf_opportunistic_graft_ticks s;
  cf_opportunistic_graft_peers := cf_opportunistic_graft_peers s;
  cf_gossip_retransimission := cf_gossip_retransimission s; cf_max_publish_messages := cf_max_publish_messages s;
  cf_max_control_message_size := cf_max_control_message_size s;
  cf_max_control_messages_sent := g (cf_max_control_messages_sent s);
  cf_max_ihave_messages_heartbeat := cf_max_ihave_messages_heartbeat s;
  cf_iwant_followup_time := cf_iwant_followup_time s;
  cf_connection_handler_queue_len := cf_connection_handler_queue_len s;
  cf_connection_handler_publish_duration := cf_connection_handler_publish_duration s;
  cf_connection_handler_forward_duration := cf_connection_handler_forward_duration s;
  cf_idontwant_message_size_threshold := cf_idontwant_message_size_threshold s;
  cf_idontwant_on_publish := cf_idontwant_on_publish s; cf_topic_configuration := cf_topic_configuration s |}.
Definition upd_cf_max_ihave_messages_heartbeat (g : Z -> Z) (s : Config) : Config := {|
  cf_protocol := cf_protocol s; cf_history_length := cf_history_length s;
  cf_history_gossip := cf_history_gossip s; cf_retain_scores := cf_retain_scores s;
  cf_gossip_lazy := cf_gossip_lazy s; cf_gossip_factor := cf_gossip_factor s;
  cf_heartbeat_initial_delay := cf_heartbeat_initial_delay s; cf_heartbeat_interval := cf_heartbeat_interval s;
  cf_fanout_ttl := cf_fanout_ttl s; cf_check_explicit_peers_ticks := cf_check_explicit_peers_ticks s;
  cf_duplicate_cache_time := cf_duplicate_cache_time s; cf_validate_messages := cf_validate_messages s;
  cf_message_id_fn := cf_message_id_fn s; cf_allow_self_origin := cf_allow_self_origin s; cf_do_px := cf_do_px s;
  cf_prune_peers := cf_prune_peers s; cf_prune_backoff := cf_prune_backoff s;
  cf_unsubscribe_backoff := cf_unsubscribe_backoff s; cf_backoff_slack := cf_backoff_slack s;
  cf_flood_publish := cf_flood_publish s; cf_graft_flood_threshold := cf_graft_flood_threshold s;
  cf_opportunistic_graft_ticks := cf_opportunistic_graft_ticks s;
  cf_opportunistic_graft_peers := cf_opportunistic_graft_peers s;
  cf_gossip_retransimission := cf_gossip_retransimission s; cf_max_publish_messages := cf_max_publish_messages s;
  cf_max_control_message_size := cf_max_control_message_size s;
  cf_max_control_messages_sent := cf_max_control_messages_sent s;
  cf_max_ihave_messages_heartbeat := g (cf_max_ihave_messages_heartbeat s);
  cf_iwant_followup_time := cf_iwant_followup_time s;
  cf_connection_handler_queue_len := cf_connection_handler_queue_len s;
  cf_connection_handler_publish_duration := cf_connection_handler_publish_duration s;
  cf_connection_handler_forward_duration := cf_connection_handler_forward_duration s;
  cf_idontwant_message_size_threshold := cf_idontwant_message_size_threshold s;
  cf_idontwant_on_publish := cf_idontwant_on_publish s; cf_topic_configuration := cf_topic_configuration s |}.
Definition upd_cf_iwant_followup_time (g : Z -> Z) (s : Config) : Config := {|
  cf_protocol := cf_protocol s; cf_history_length := cf_history_length s;
  cf_history_gossip := cf_history_gossip s; cf_retain_scores := cf_retain_scores s;
  cf_gossip_lazy := cf_gossip_lazy s; cf_gossip_factor := cf_gossip_factor s;
  cf_heartbeat_initial_delay := cf_heartbeat_initial_delay s; cf_heartbeat_interval := cf_heartbeat_interval s;
  cf_fanout_ttl := cf_fanout_ttl s; cf_check_explicit_peers_ticks := cf_check_explicit_peers_ticks s;
  cf_duplicate_cache_time := cf_duplicate_cache_time s; cf_validate_messages := cf_validate_messages s;
  cf_message_id_fn := cf_message_id_fn s; cf_allow_self_origin := cf_allow_self_origin s; cf_do_px := cf_do_px s;
  cf_prune_peers := cf_prune_peers s; cf_prune_backoff := cf_prune_backoff s;
  cf_unsubscribe_backoff := cf_unsubscribe_backoff s; cf_backoff_slack := cf_backoff_slack s;
  cf_flood_publish := cf_flood_publish s; cf_graft_flood_threshold := cf_graft_flood_threshold s;
  cf_opportunistic_graft_ticks := cf_opportunistic_graft_ticks s;
  cf_opportunistic_graft_peers := cf_opportunistic_graft_peers s;
  cf_gossip_retransimission := cf_gossip_retransimission s; cf_max_publish_messages := cf_max_publish_messages s;
  cf_max_control_message_size := cf_max_control_message_size s;
  cf_max_control_messages_sent := cf_max_control_messages_sent s;
  cf_max_ihave_messages_heartbeat := cf_max_ihave_messages_heartbeat s;
  cf_iwant_followup_time := g (cf_iwant_followup_time s);
  cf_connection_handler_queue_len := cf_connection_handler_queue_len s;
  cf_connection_handler_publish_duration := cf_connection_handler_publish_duration s;
  cf_connection_handler_forward_duration := cf_connection_handler_forward_duration s;
  cf_idontwant_message_size_threshold := cf_idontwant_message_size_threshold s;
  cf_idontwant_on_publish := cf_idontwant_on_publish s; cf_topic_configuration := cf_topic_configuration s |}.
Definition upd_cf_connection_handler_queue_len (g : Z -> Z) (s : Config) : Config := {|
  cf_protocol := cf_protocol s; cf_history_length := cf_history_length s;
  cf_history_gossip := cf_history_gossip s; cf_retain_scores := cf_retain_scores s;
  cf_gossip_lazy := cf_gossip_lazy s; cf_gossip_factor := cf_gossip_factor s;
  cf_heartbeat_initial_delay := cf_heartbeat_initial_delay s; cf_heartbeat_interval := cf_heartbeat_interval s;
  cf_fanout_ttl := cf_fanout_ttl s; cf_check_explicit_peers_ticks := cf_check_explicit_peers_ticks s;
  cf_duplicate_cache_time := cf_duplicate_cache_time s; cf_validate_messages := cf_validate_messages s;
  cf_message_id_fn := cf_message_id_fn s; cf_allow_self_origin := cf_allow_self_origin s; cf_do_px := cf_do_px s;
  cf_prune_peers := cf_prune_peers s; cf_prune_backoff := cf_prune_backoff s;
  cf_unsubscribe_backoff := cf_unsubscribe_backoff s; cf_backoff_slack := cf_backoff_slack s;
  cf_flood_publish := cf_flood_publish s; cf_graft_flood_threshold := cf_graft_flood_threshold s;
  cf_opportunistic_graft_ticks := cf_opportunistic_graft_ticks s;
  cf_opportunistic_graft_peers := cf_opportunistic_graft_peers s;
  cf_gossip_retransimission := cf_gossip_retransimission s; cf_max_publish_messages := cf_max_publish_messages s;
  cf_max_control_message_size := cf_max_control_message_size s;
  cf_max_control_messages_sent := cf_max_control_messages_sent s;
  cf_max_ihave_messages_heartbeat := cf_max_ihave_messages_heartbeat s;
  cf_iwant_followup_time := cf_iwant_followup_time s;
  cf_connection_handler_queue_len := g (cf_connection_handler_queue_len s);
  cf_connection_handler_publish_duration := cf_connection_handler_publish_duration s;
  cf_connection_handler_forward_duration := cf_connection_handler_forward_duration s;
  cf_idontwant_message_size_threshold := cf_idontwant_message_size_threshold s;
  cf_idontwant_on_publish := cf_idontwant_on_publish s; cf_topic_configuration := cf_topic_configuration s |}.
Definition upd_cf_connection_handler_publish_duration (g : Z -> Z) (s : Config) : Config := {|
  cf_protocol := cf_protocol s; cf_history_length := cf_history_length s;
  cf_history_gossip := cf_history_gossip s; cf_retain_scores := cf_retain_scores s;
  cf_gossip_lazy := cf_gossip_lazy s; cf_gossip_factor := cf_gossip_factor s;
  cf_heartbeat_initial_delay := cf_heartbeat_initial_delay s; cf_heartbeat_interval := cf_heartbeat_interval s;
  cf_fanout_ttl := cf_fanout_ttl s; cf_check_explicit_peers_ticks := cf_check_explicit_peers_ticks s;
  cf_duplicate_cache_time := cf_duplicate_cache_time s; cf_validate_messages := cf_validate_messages s;
  cf_message_id_fn := cf_message_id_fn s; cf_allow_self_origin := cf_allow_self_origin s; cf_do_px := cf_do_px s;
  cf_prune_peers := cf_prune_peers s; cf_prune_backoff := cf_prune_backoff s;
  cf_unsubscribe_backoff := cf_unsubscribe_backoff s; cf_backoff_slack := cf_backoff_slack s;
  cf_flood_publish := cf_flood_publish s; cf_graft_flood_threshold := cf_graft_flood_threshold s;
  cf_opportunistic_graft_ticks := cf_opportunistic_graft_ticks s;
  cf_opportunistic_graft_peers := cf_opportunistic_graft_peers s;
  cf_gossip_retransimission := cf_gossip_retransimission s; cf_max_publish_messages := cf_max_publish_messages s;
  cf_max_control_message_size := cf_max_control_message_size s;
  cf_max_control_messages_sent := cf_max_control_messages_sent s;
  cf_max_ihave_messages_heartbeat := cf_max_ihave_messages_heartbeat s;
  cf_iwant_followup_time := cf_iwant_followup_time s;
  cf_connection_handler_queue_len := cf_connection_handler_queue_len s;
  cf_connection_handler_publish_duration := g (cf_connection_handler_publish_duration s);
  cf_connection_handler_forward_duration := cf_connection_handler_forward_duration s;
  cf_idontwant_message_size_threshold := cf_idontwant_message_size_threshold s;
  cf_idontwant_on_publish := cf_idontwant_on_publish s; cf_topic_configuration := cf_topic_configuration s |}.
Definition upd_cf_connection_handler_forward_duration (g : Z -> Z) (s : Config) : Config := {|
  cf_protocol := cf_protocol s; cf_history_length := cf_history_length s;
  cf_history_gossip := cf_history_gossip s; cf_retain_scores := cf_retain_scores s;
  cf_gossip_lazy := cf_gossip_lazy s; cf_gossip_factor := cf_gossip_factor s;
  cf_heartbeat_initial_delay := cf_heartbeat_initial_delay s; cf_heartbeat_interval := cf_heartbeat_interval s;
  cf_fanout_ttl := cf_fanout_ttl s; cf_check_explicit_peers_ticks := cf_check_explicit_peers_ticks s;
  cf_duplicate_cache_time := cf_duplicate_cache_time s; cf_validate_messages := cf_validate_messages s;
  cf_message_id_fn := cf_message_id_fn s; cf_allow_self_origin := cf_allow_self_origin s; cf_do_px := cf_do_px s;
  cf_prune_peers := cf_prune_peers s; cf_prune_backoff := cf_prune_backoff s;
  cf_unsubscribe_backoff := cf_unsubscribe_backoff s; cf_backoff_slack := cf_backoff_slack s;
  cf_flood_publish := cf_flood_publish s; cf_graft_flood_threshold := cf_graft_flood_threshold s;
  cf_opportunistic_graft_ticks := cf_opportunistic_graft_ticks s;
  cf_opportunistic_graft_peers := cf_opportunistic_graft_peers s;
  cf_gossip_retransimission := cf_gossip_retransimission s; cf_max_publish_messages := cf_max_publish_messages s;
  cf_max_control_message_size := cf_max_control_message_size s;
  cf_max_control_messages_sent := cf_max_control_messages_sent s;
  cf_max_ihave_messages_heartbeat := cf_max_ihave_messages_heartbeat s;
  cf_iwant_followup_time := cf_iwant_followup_time s;
  cf_connection_handler_queue_len := cf_connection_handler_queue_len s;
  cf_connection_handler_publish_duration := cf_connection_handler_publish_duration s;
  cf_connection_handler_forward_duration := g (cf_connection_handler_forward_duration s);
  cf_idontwant_message_size_threshold := cf_idontwant_message_size_threshold s;
  cf_idontwant_on_publish := cf_idontwant_on_publish s; cf_topic_configuration := cf_topic_configuration s |}.
Definition upd_cf_idontwant_message_size_threshold (g : Z -> Z) (s : Config) : Config := {|
  cf_protocol := cf_protocol s; cf_history_length := cf_history_length s;
  cf_history_gossip := cf_history_gossip s; cf_retain_scores := cf_retain_scores s;
  cf_gossip_lazy := cf_gossip_lazy s; cf_gossip_factor := cf_gossip_factor s;
  cf_heartbeat_initial_delay := cf_heartbeat_initial_delay s; cf_heartbeat_interval := cf_heartbeat_interval s;
  cf_fanout_ttl := cf_fanout_ttl s; cf_check_explicit_peers_ticks := cf_check_explicit_peers_ticks s;
  cf_duplicate_cache_time := cf_duplicate_cache_time s; cf_validate_messages := cf_validate_messages s;
  cf_message_id_fn := cf_message_id_fn s; cf_allow_self_origin := cf_allow_self_origin s; cf_do_px := cf_do_px s;
  cf_prune_peers := cf_prune_peers s; cf_prune_backoff := cf_prune_backoff s;
  cf_unsubscribe_backoff := cf_unsubscribe_backoff s; cf_backoff_slack := cf_backoff_slack s;
  cf_flood_publish := cf_flood_publish s; cf_graft_flood_threshold := cf_graft_flood_threshold s;
  cf_opportunistic_graft_ticks := cf_opportunistic_graft_ticks s;
  cf_opportunistic_graft_peers := cf_opportunistic_graft_peers s;
  cf_gossip_retransimission := cf_gossip_retransimission s; cf_max_publish_messages := cf_max_publish_messages s;
  cf_max_control_message_size := cf_max_control_message_size s;
  cf_max_control_messages_sent := cf_max_control_messages_sent s;
  cf_max_ihave_messages_heartbeat := cf_max_ihave_messages_heartbeat s;
  cf_iwant_followup_time := cf_iwant_followup_time s;
  cf_connection_handler_queue_len := cf_connection_handler_queue_len s;
  cf_connection_handler_publish_duration := cf_connection_handler_publish_duration s;
  cf_connection_handler_forward_duration := cf_connection_handler_forward_duration s;
  cf_idontwant_message_size_threshold := g (cf_idontwant_message_size_threshold s);
  cf_idontwant_on_publish := cf_idontwant_on_publish s; cf_topic_configuration := cf_topic_configuration s |}.
Definition upd_cf_idontwant_on_publish (g : bool -> bool) (s : Config) : Config := {|
  cf_protocol := cf_protocol s; cf_history_length := cf_history_length s;
  cf_history_gossip := cf_history_gossip s; cf_retain_scores := cf_retain_scores s;
  cf_gossip_lazy := cf_gossip_lazy s; cf_gossip_factor := cf_gossip_factor s;
  cf_heartbeat_initial_delay := cf_heartbeat_initial_delay s; cf_heartbeat_interval := cf_heartbeat_interval s;
  cf_fanout_ttl := cf_fanout_ttl s; cf_check_explicit_peers_ticks := cf_check_explicit_peers_ticks s;
  cf_duplicate_cache_time := cf_duplicate_cache_time s; cf_validate_messages := cf_validate_messages s;
  cf_message_id_fn := cf_message_id_fn s; cf_allow_self_origin := cf_allow_self_origin s; cf_do_px := cf_do_px s;
  cf_prune_peers := cf_prune_peers s; cf_prune_backoff := cf_prune_backoff s;
  cf_unsubscribe_backoff := cf_unsubscribe_backoff s; cf_backoff_slack := cf_backoff_slack s;
  cf_flood_publish := cf_flood_publish s; cf_graft_flood_threshold := cf_graft_flood_threshold s;
  cf_opportunistic_graft_ticks := cf_opportunistic_graft_ticks s;
  cf_opportunistic_graft_peers := cf_opportunistic_graft_peers s;
  cf_gossip_retransimission := cf_gossip_retransimission s; cf_max_publish_messages := cf_max_publish_messages s;
  cf_max_control_message_size := cf_max_control_message_size s;
  cf_max_control_messages_sent := cf_max_control_messages_sent s;
  cf_max_ihave_messages_heartbeat := cf_max_ihave_messages_heartbeat s;
  cf_iwant_followup_time := cf_iwant_followup_time s;
  cf_connection_handler_queue_len := cf_connection_handler_queue_len s;
  cf_connection_handler_publish_duration := cf_connection_handler_publish_duration s;
  cf_connection_handler_forward_duration := cf_connection_handler_forward_duration s;
  cf_idontwant_message_size_threshold := cf_idontwant_message_size_threshold s;
  cf_idontwant_on_publish := g (cf_idontwant_on_publish s); cf_topic_configuration := cf_topic_configuration s |}.
Definition upd_cf_topic_configuration (g : TopicConfigs -> TopicConfigs) (s : Config) : Config := {|
  cf_protocol := cf_protocol s; cf_history_length := cf_history_length s;
  cf_history_gossip := cf_history_gossip s; cf_retain_scores := cf_retain_scores s;
  cf_gossip_lazy := cf_gossip_lazy s; cf_gossip_factor := cf_gossip_factor s;
  cf_heartbeat_initial_delay := cf_heartbeat_initial_delay s; cf_heartbeat_interval := cf_heartbeat_interval s;
  cf_fanout_ttl := cf_fanout_ttl s; cf_check_explicit_peers_ticks := cf_check_explicit_peers_ticks s;
  cf_duplicate_cache_time := cf_duplicate_cache_time s; cf_validate_messages := cf_validate_messages s;
  cf_message_id_fn := cf_message_id_fn s; cf_allow_self_origin := cf_allow_self_origin s; cf_do_px := cf_do_px s;
  cf_prune_peers := cf_prune_peers s; cf_prune_backoff := cf_prune_backoff s;
  cf_unsubscribe_backoff := cf_unsubscribe_backoff s; cf_backoff_slack := cf_backoff_slack s;
  cf_flood_publish := cf_flood_publish s; cf_graft_flood_threshold := cf_graft_flood_threshold s;
  cf_opportunistic_graft_ticks := cf_opportunistic_graft_ticks s;
  cf_opportunistic_graft_peers := cf_opportunistic_graft_peers s;
  cf_gossip_retransimission := cf_gossip_retransimission s; cf_max_publish_messages := cf_max_publish_messages s;
  cf_max_control_message_size := cf_max_control_message_size s;
  cf_max_control_messages_sent := cf_max_control_messages_sent s;
  cf_max_ihave_messages_heartbeat := cf_max_ihave_messages_heartbeat s;
  cf_iwant_followup_time := cf_iwant_followup_time s;
  cf_connection_handler_queue_len := cf_connection_handler_queue_len s;
  cf_connection_handler_publish_duration := cf_connection_handler_publish_duration s;
  cf_connection_handler_forward_duration := cf_connection_handler_forward_duration s;
  cf_idontwant_message_size_threshold := cf_idontwant_message_size_threshold s;
  cf_idontwant_on_publish := cf_idontwant_on_publish s; cf_topic_configuration := g (cf_topic_configuration s) |}.

(** The parameters of a topic, or the defaults. *)
Definition mesh_params (c : Config) (topic : TopicHash) : TopicMeshConfig :=
  default (default_mesh_params (cf_topic_configuration c)) (topic_mesh_params (cf_topic_configuration c) !! topic).
Definition mesh_n_for_topic (c : Config) (topic : TopicHash) : Z := tm_n (mesh_params c topic).
Definition mesh_n_low_for_topic (c : Config) (topic : TopicHash) : Z := tm_n_low (mesh_params c topic).
Definition mesh_n_high_for_topic (c : Config) (topic : TopicHash) : Z := tm_n_high (mesh_params c topic).
Definition mesh_outbound_min_for_topic (c : Config) (topic : TopicHash) : Z := tm_outbound_min (mesh_params c topic).

(** * [ConfigBuilder] *)
Record ConfigBuilder := { b_config : Config; invalid_protocol : bool }.

Definition upd_config (g : Config -> Config) (b : ConfigBuilder) : ConfigBuilder :=
  {| b_config := g (b_config b); invalid_protocol := invalid_protocol b |}.

(** [ConfigBuilder::default]; its message id is a parameter here, the node
    replaces it. *)
Definition ConfigBuilder_default (default_message_id : Message -> list byte) : ConfigBuilder := {|
  b_config := {|
    cf_protocol := ProtocolConfig_default;
    cf_history_length := 5;
    cf_history_gossip := 3;
    cf_retain_scores := 4;
    cf_gossip_lazy := 6;
    cf_gossip_factor := f64_lit 1 4;
    cf_heartbeat_initial_delay := from_secs 5;
    cf_heartbeat_interval := from_secs 1;
    cf_fanout_ttl := from_secs 60;
    cf_check_explicit_peers_ticks := 300;
    cf_duplicate_cache_time := from_secs 60;
    cf_validate_messages := false;
    cf_message_id_fn := default_message_id;
    cf_allow_self_origin := false;
    cf_do_px := false;
    cf_prune_peers := 0;
    cf_prune_backoff := from_secs 60;
    cf_unsubscribe_backoff := from_secs 10;
    cf_backoff_slack := 1;
    cf_flood_publish := true;
    cf_graft_flood_threshold := from_secs 10;
    cf_opportunistic_graft_ticks := 60;
    cf_opportunistic_graft_peers := 2;
    cf_gossip_retransimission := 3;
    cf_max_publish_messages := 5000;
    cf_max_control_messages_sent := 5000;
    cf_max_control_message_size := 16384;
    cf_max_ihave_messages_heartbeat := 10;
    cf_iwant_followup_time := from_secs 3;
    cf_connection_handler_queue_len := 5000;
    cf_connection_handler_publish_duration := from_secs 5;
    cf_connection_handler_forward_duration := from_secs 1;
    cf_idontwant_message_size_threshold := 1000;
    cf_idontwant_on_publish := false;
    cf_topic_configuration := {| topic_mesh_params := ∅; default_mesh_params := TopicMeshConfig_default |} |};
  invalid_protocol := false |}.

Definition set_protocol_ids (ids : list (string * PeerKind)) (b : ConfigBuilder) : ConfigBuilder :=
  upd_config (upd_cf_protocol (upd_pc_protocol_ids (fun _ => ids))) b.

Definition protocol_id_prefix (prefix : string) (b : ConfigBuilder) : ConfigBuilder :=
  match StreamProtocol_try_from_owned (prefix +:+ "/1.1.0"), StreamProtocol_try_from_owned (prefix +:+ "/1.0.0") with
  | Some p1, Some p2 => set_protocol_ids [(p1, Gossipsubv1_1); (p2, Gossipsub)] b
  | _, _ => {| b_config := b_config b; invalid_protocol := true |}
  end.

Definition protocol_id (id : string) (custom_id_version : Version) (b : ConfigBuilder) : ConfigBuilder :=
  match StreamProtocol_try_from_owned id with
  | Some protocol => set_protocol_ids [(protocol, match custom_id_version with V1_1 => Gossipsubv1_1 | V1_0 => Gossipsub end)] b
  | None => {| b_config := b_config b; invalid_protocol := true |}
  end.

(** [support_floodsub] appends the protocol unless it is there. *)
Definition support_floodsub (b : ConfigBuilder) : ConfigBuilder :=
  if decide (FLOODSUB_PROTOCOL ∈ pc_protocol_ids (cf_protocol (b_config b))) then b
  else set_protocol_ids (pc_protocol_ids (cf_protocol (b_config b)) ++ [FLOODSUB_PROTOCOL]) b.

(** The setters of the default mesh parameters, and of those of one topic:
    [entry(topic).and_modify(..).or_insert_with(..)] starts from the library's
    defaults, not from the builder's. *)
Definition upd_topics (g : TopicConfigs -> TopicConfigs) (b : ConfigBuilder) : ConfigBuilder :=
  upd_config (upd_cf_topic_configuration g) b.

Definition upd_default_mesh (g : TopicMeshConfig -> TopicMeshConfig) (b : ConfigBuilder) : ConfigBuilder :=
  upd_topics (fun t => {| topic_mesh_params := topic_mesh_params t; default_mesh_params := g (default_mesh_params t) |}) b.

Definition upd_topic_mesh (topic : TopicHash) (g : TopicMeshConfig -> TopicMeshConfig) (b : ConfigBuilder) : ConfigBuilder :=
  upd_topics (fun t => {|
    topic_mesh_params := <[topic := g (default TopicMeshConfig_default (topic_mesh_params t !! topic))]> (topic_mesh_params t);
    default_mesh_params := default_mesh_params t |}) b.

Definition with_n (n : Z) (m : TopicMeshConfig) : TopicMeshConfig :=
  {| tm_n := n; tm_n_low := tm_n_low m; tm_n_high := tm_n_high m; tm_outbound_min := tm_outbound_min m |}.
Definition with_n_low (n : Z) (m : TopicMeshConfig) : TopicMeshConfig :=
  {| tm_n := tm_n m; tm_n_low := n; tm_n_high := tm_n_high m; tm_outbound_min := tm_outbound_min m |}.
Definition with_n_high (n : Z) (m : TopicMeshConfig) : TopicMeshConfig :=
  {| tm_n := tm_n m; tm_n_low := tm_n_low m; tm_n_high := n; tm_outbound_min := tm_outbound_min m |}.
Definition with_outbound_min (n : Z) (m : TopicMeshConfig) : TopicMeshConfig :=
  {| tm_n := tm_n m; tm_n_low := tm_n_low m; tm_n_high := tm_n_high m; tm_outbound_min := n |}.

Definition b_mesh_n (n : Z) : ConfigBuilder -> ConfigBuilder := upd_default_mesh (with_n n).
Definition b_mesh_n_low (n : Z) : ConfigBuilder -> ConfigBuilder := upd_default_mesh (with_n_low n).
Definition b_mesh_n_high (n : Z) : ConfigBuilder -> ConfigBuilder := upd_default_mesh (with_n_high n).
Definition b_mesh_outbound_min (n : Z) : ConfigBuilder -> ConfigBuilder := upd_default_mesh (with_outbound_min n).
Definition b_mesh_n_for_topic (n : Z) (topic : TopicHash) : ConfigBuilder -> ConfigBuilder := upd_topic_mesh topic (with_n n).
Definition b_mesh_n_low_for_topic (n : Z) (topic : TopicHash) : ConfigBuilder -> ConfigBuilder := upd_topic_mesh topic (with_n_low n).
Definition b_mesh_n_high_for_topic (n : Z) (topic : TopicHash) : ConfigBuilder -> ConfigBuilder := upd_topic_mesh topic (with_n_high n).
Definition b_mesh_outbound_min_for_topic (n : Z) (topic : TopicHash) : ConfigBuilder -> ConfigBuilder := upd_topic_mesh topic (with_outbound_min n).
Definition set_topic_config (topic : TopicHash) (config : TopicMeshConfig) : ConfigBuilder -> ConfigBuilder :=
  upd_topics (fun t => {| topic_mesh_params := <[topic := config]> (topic_mesh_params t); default_mesh_params := default_mesh_params t |}).

Definition b_max_transmit_size (n : Z) : ConfigBuilder -> ConfigBuilder :=
  upd_config (upd_cf_protocol (upd_pc_default_max_transmit_size (fun _ => n))).
Definition b_max_transmit_size_for_topic (n : Z) (topic : TopicHash) : ConfigBuilder -> ConfigBuilder :=
  upd_config (upd_cf_protocol (upd_pc_max_transmit_sizes (fun m => <[topic := n]> m))).
Definition b_max_publish_messages (max : Z) (b : ConfigBuilder) : ConfigBuilder :=
  upd_config (upd_cf_protocol (upd_pc_max_publish_messages (fun _ => max))) (upd_config (upd_cf_max_publish_messages (fun _ => max)) b).
Definition b_max_control_message_size (size : Z) (b : ConfigBuilder) : ConfigBuilder :=
  upd_config (upd_cf_protocol (upd_pc_max_control_message_size (fun _ => size))) (upd_config (upd_cf_max_control_message_size (fun _ => size)) b).
Definition b_validation_mode (mode : ValidationMode) : ConfigBuilder -> ConfigBuilder :=
  upd_config (upd_cf_protocol (upd_pc_validation_mode (fun _ => mode))).
Definition b_validate_messages : ConfigBuilder -> ConfigBuilder := upd_config (upd_cf_validate_messages (fun _ => true)).
Definition b_heartbeat_interval (d : Z) : ConfigBuilder -> ConfigBuilder := upd_config (upd_cf_heartbeat_interval (fun _ => d)).
Definition b_message_id_fn (f : Message -> list byte) : ConfigBuilder -> ConfigBuilder := upd_config (upd_cf_message_id_fn (fun _ => f)).
Definition b_do_px (b : ConfigBuilder) : ConfigBuilder := upd_config (upd_cf_do_px (fun _ => true)) b.

(** The checks of one preconfigured topic; the order of the keys only decides
    which of several errors is returned. *)
Definition check_topic (c : Config) (topic : TopicHash) : result unit ConfigBuilderError :=
  if decide (max_transmit_size_for_topic (cf_protocol c) topic < 100) then Err MaxTransmissionSizeTooSmall
  else if decide (mesh_outbound_min_for_topic c topic <= mesh_n_low_for_topic c topic /\
                  mesh_n_low_for_topic c topic <= mesh_n_for_topic c topic <= mesh_n_high_for_topic c topic)
  then if decide (mesh_n_for_topic c topic < mesh_outbound_min_for_topic c topic * 2) then Err MeshOutboundInvalid else Ok tt
  else Err MeshParametersInvalid.

Definition build (b : ConfigBuilder) : result Config ConfigBuilderError :=
  let c := b_config b in
  let? _ := try_for_each (check_topic c) (elements (dom (pc_max_transmit_sizes (cf_protocol c)))) in
  if decide ((cf_history_length c < cf_history_gossip c)%nat) then Err HistoryLengthTooSmall
  else if decide (as_millis (cf_unsubscribe_backoff c) = 0) then Err UnsubscribeBackoffIsZero
  else if invalid_protocol b then Err InvalidProtocol
  else Ok c.

(** * The node's configuration *)

(** [message_id_fn] of [build_behaviour]: the input of the hash. *)
Definition MESSAGE_ID_DOMAIN : list byte := str_as_bytes "p2p-net/gossipsub-message-id/v2" ++ [x00].

Definition message_id_input (m : Message) : list byte :=
  MESSAGE_ID_DOMAIN ++
  match ms_source m with
  | Some source => [x01] ++ be_bytes 8 (len (peer_to_bytes source)) ++ peer_to_bytes source
  | None => [x00]
  end ++
  be_bytes 8 (len (str_as_bytes (topic_hash (ms_topic m)))) ++ str_as_bytes (topic_hash (ms_topic m)) ++
  be_bytes 8 (len (ms_data m)) ++ ms_data m.

Definition message_id_fn `{Blake3Lib} (m : Message) : list byte := blake3_hash (message_id_input m).

Definition node_config `{Blake3Lib} (default_message_id : Message -> list byte) (gossipsub_heartbeat_interval_secs : Z)
    : result Config ConfigBuilderError :=
  build (b_message_id_fn message_id_fn
    (b_heartbeat_interval (from_secs gossipsub_heartbeat_interval_secs)
      (b_validate_messages (b_validation_mode Strict (ConfigBuilder_default default_message_id))))).

(** * What [build] checks *)

(** The parameters a mesh can be kept with. *)
Definition mesh_params_ok (m : TopicMeshConfig) : Prop :=
  0 <= tm_outbound_min m <= tm_n_low m /\ tm_n_low m <= tm_n m <= tm_n_high m /\ tm_outbound_min m * 2 <= tm_n m.

Lemma check_topic_ok c topic :
  check_topic c topic = Ok tt <->
  100 <= max_transmit_size_for_topic (cf_protocol c) topic /\
  mesh_outbound_min_for_topic c topic <= mesh_n_low_for_topic c topic /\
  mesh_n_low_for_topic c topic <= mesh_n_for_topic c topic <= mesh_n_high_for_topic c topic /\
  mesh_outbound_min_for_topic c topic * 2 <= mesh_n_for_topic c topic.
Proof. unfold check_topic. repeat case_decide; split; try done; lia. Qed.


(** [build] returns the configuration, and does so exactly when the topics with
    a transmit size of their own pass their checks, the history is long enough,
    the unsubscribe backoff is a millisecond or more and the protocol names
    were valid.  The mesh parameters of every other topic, the defaults
    included, are not among what is checked. *)
Lemma build_checks b c :
  build b = Ok c <->
  c = b_config b /\
  (forall topic, topic ∈ dom (pc_max_transmit_sizes (cf_protocol c)) -> check_topic c topic = Ok tt) /\
  (cf_history_gossip c <= cf_history_length c)%nat /\ as_millis (cf_unsubscribe_backoff c) ≠ 0 /\ invalid_protocol b = false.
Proof.
  unfold build. destruct (try_for_each _ _) as [[]|e] eqn:E; cbn.
  - apply try_for_each_Ok in E. rewrite Forall_forall in E.
    assert (E' : forall topic, topic ∈ dom (pc_max_transmit_sizes (cf_protocol (b_config b))) -> check_topic (b_config b) topic = Ok tt).
    { intros topic Ht. apply E. by apply elem_of_elements. }
    repeat case_decide; [split; [done|intros (-> & ?); lia]|split; [done|naive_solver]|].
    destruct (invalid_protocol b) eqn:Ei; (split; [|intros (-> & ?)]); try done; try naive_solver.
    intros [= <-]. split_and!; try done. lia.
  - split; [done|]. intros (-> & H & _). enough (try_for_each (check_topic (b_config b)) (elements (dom (pc_max_transmit_sizes (cf_protocol (b_config b))))) = Ok tt) by congruence.
    apply try_for_each_Ok, Forall_forall. intros topic Ht. apply H. by apply elem_of_elements.
Qed.

(** * The message id of the node *)
Lemma be_bytes_len8_inj (a b : list byte) x y :
  len a <= u64_max -> len b <= u64_max -> be_bytes 8 (len a) ++ a ++ x = be_bytes 8 (len b) ++ b ++ y -> a = b /\ x = y.
Proof.
  intros Ha Hb E. apply app_inj_1 in E as [El E]; [|by rewrite !length_be_bytes].
  assert (Hl : len a = len b).
  { rewrite <- (be_value_bytes 8 (len a)), <- (be_value_bytes 8 (len b)), El; [done|..];
      pose proof (len_nonneg a); pose proof (len_nonneg b); unfold u64_max in *; cbn; lia. }
  apply app_inj_1 in E; [done|]. unfold len in Hl. lia.
Qed.

(** What a message id stands for: its author, its topic and its payload. *)
Definition same_message (m m' : Message) : Prop :=
  ms_source m = ms_source m' /\ ms_topic m = ms_topic m' /\ ms_data m = ms_data m'.

(** The lengths fit the [u64] they are written as, as a [usize] does. *)
Definition lengths_fit (m : Message) : Prop :=
  len (default [] (peer_to_bytes <$> ms_source m)) <= u64_max /\
  len (str_as_bytes (topic_hash (ms_topic m))) <= u64_max /\ len (ms_data m) <= u64_max.

(** C20: The node's message id binds the author, the topic and the payload:
    the bytes that are hashed determine all three, so that two messages with the
    same id are the same message or a collision of the hash, and nobody can take
    the id of another author's message by publishing its bytes first. *)
Theorem message_id_binds_author `{Blake3Lib, !PeerIdLaws P} m m' :
  lengths_fit m -> lengths_fit m' ->
  message_id_fn m = message_id_fn m' ->
  same_message m m' \/
  message_id_input m ≠ message_id_input m' /\ blake3_hash (message_id_input m) = blake3_hash (message_id_input m').
Proof.
  intros (Hs & Ht & Hd) (Hs' & Ht' & Hd') E.
  destruct (decide (message_id_input m = message_id_input m')) as [Ei|]; [left|by right]. clear E.
  unfold message_id_input in Ei. apply app_inv_head in Ei.
  assert (Htail : forall t t' d d' : list byte, len t <= u64_max -> len t' <= u64_max -> len d <= u64_max -> len d' <= u64_max ->
    be_bytes 8 (len t) ++ t ++ be_bytes 8 (len d) ++ d = be_bytes 8 (len t') ++ t' ++ be_bytes 8 (len d') ++ d' -> t = t' /\ d = d').
  { intros t t' d d' H1 H2 H3 H4 [-> Hx]%be_bytes_len8_inj; [|done..]. split; [done|].
    rewrite <- (app_nil_r d), <- (app_nil_r d') in Hx at 2. by apply be_bytes_len8_inj in Hx as [-> _]. }
  assert (Hsrc : ms_source m = ms_source m' /\
    be_bytes 8 (len (str_as_bytes (topic_hash (ms_topic m)))) ++ str_as_bytes (topic_hash (ms_topic m)) ++ be_bytes 8 (len (ms_data m)) ++ ms_data m
    = be_bytes 8 (len (str_as_bytes (topic_hash (ms_topic m')))) ++ str_as_bytes (topic_hash (ms_topic m')) ++ be_bytes 8 (len (ms_data m')) ++ ms_data m').
  { destruct (ms_source m) as [s|], (ms_source m') as [s'|]; cbn [fmap option_fmap option_map default from_option Datatypes.id] in *; try discriminate Ei.
    - rewrite <- !app_assoc in Ei. apply app_inv_head in Ei. apply be_bytes_len8_inj in Ei as [Ei ->]; [|done..]. split; [|done].
      f_equal. pose proof (peer_from_to_bytes s) as E1. pose proof (peer_from_to_bytes s') as E2. rewrite Ei in E1. congruence.
    - apply app_inv_head in Ei. done. }
  destruct Hsrc as [Hsrc Ht0]. apply Htail in Ht0 as [Ht1 Hd1]; [|done..].
  split_and!; [done| |done]. apply str_as_bytes_inj in Ht1. destruct (ms_topic m), (ms_topic m'). cbn in Ht1. by f_equal.
Qed.
End config.
