(* ===== verification/GsScore.v ===== *)
(** The scores of the gossipsub router (external/libp2p-gossipsub/src/peer_score.rs and
    peer_score/params.rs): the counters of every peer, the score computed from them, and
    the record of who delivered which message.  The arithmetic is that of binary64
    numbers, the iteration order of the hash maps is any order, and a failing [expect]
    is a panic. *)

From S2P Require Import Prelude Bytes BTree Common Float64 AppMessage GsTimeCache GsBackoff GsConfig.
From Stdlib Require Import Strings.Byte.

#[local] Open Scope Z_scope.

(** * Parameters (peer_score/params.rs) *)
Record TopicScoreParams := {
  tp_topic_weight : f64;
  tp_time_in_mesh_weight : f64;
  tp_time_in_mesh_quantum : Z;
  tp_time_in_mesh_cap : f64;
  tp_first_message_deliveries_weight : f64;
  tp_first_message_deliveries_decay : f64;
  tp_first_message_deliveries_cap : f64;
  tp_mesh_message_deliveries_weight : f64;
  tp_mesh_message_deliveries_decay : f64;
  tp_mesh_message_deliveries_cap : f64;
  tp_mesh_message_deliveries_threshold : f64;
  tp_mesh_message_deliveries_window : Z;
  tp_mesh_message_deliveries_activation : Z;
  tp_mesh_failure_penalty_weight : f64;
  tp_mesh_failure_penalty_decay : f64;
  tp_invalid_message_deliveries_weight : f64;
  tp_invalid_message_deliveries_decay : f64;
}.

Definition TopicScoreParams_default : TopicScoreParams := {|
  tp_topic_weight := f64_lit 5 10;
  tp_time_in_mesh_weight := f64_of_Z 1; tp_time_in_mesh_quantum := from_millis 1; tp_time_in_mesh_cap := f64_of_Z 3600;
  tp_first_message_deliveries_weight := f64_of_Z 1; tp_first_message_deliveries_decay := f64_lit 5 10; tp_first_message_deliveries_cap := f64_of_Z 2000;
  tp_mesh_message_deliveries_weight := f64_of_Z (-1); tp_mesh_message_deliveries_decay := f64_lit 5 10; tp_mesh_message_deliveries_cap := f64_of_Z 100;
  tp_mesh_message_deliveries_threshold := f64_of_Z 20; tp_mesh_message_deliveries_window := from_millis 10;
  tp_mesh_message_deliveries_activation := from_secs 5;
  tp_mesh_failure_penalty_weight := f64_of_Z (-1); tp_mesh_failure_penalty_decay := f64_lit 5 10;
  tp_invalid_message_deliveries_weight := f64_of_Z (-1); tp_invalid_message_deliveries_decay := f64_lit 3 10 |}.

Definition f64_one : f64 := f64_of_Z 1.
Definition f64_ne (x y : f64) : bool := negb (f64_eq x y).
Definition outside_unit (x : f64) : bool := f64_le x f64_zero || f64_le f64_one x.

Definition check (bad : bool) (e : string) : result unit string := if bad then Err e else Ok tt.

Definition TopicScoreParams_validate (p : TopicScoreParams) : result unit string :=
  let? _ := check (f64_lt (tp_topic_weight p) f64_zero) "invalid topic weight; must be >= 0" in
  let? _ := check (bool_decide (tp_time_in_mesh_quantum p = 0)) "Invalid time_in_mesh_quantum; must be non zero" in
  let? _ := check (f64_lt (tp_time_in_mesh_weight p) f64_zero) "Invalid time_in_mesh_weight; must be positive (or 0 to disable)" in
  let? _ := check (f64_ne (tp_time_in_mesh_weight p) f64_zero && f64_le (tp_time_in_mesh_cap p) f64_zero) "Invalid time_in_mesh_cap must be positive" in
  let? _ := check (f64_lt (tp_first_message_deliveries_weight p) f64_zero) "Invalid first_message_deliveries_weight; must be positive (or 0 to disable)" in
  let? _ := check (f64_ne (tp_first_message_deliveries_weight p) f64_zero && outside_unit (tp_first_message_deliveries_decay p)) "Invalid first_message_deliveries_decay; must be between 0 and 1" in
  let? _ := check (f64_ne (tp_first_message_deliveries_weight p) f64_zero && f64_le (tp_first_message_deliveries_cap p) f64_zero) "Invalid first_message_deliveries_cap must be positive" in
  let? _ := check (f64_lt f64_zero (tp_mesh_message_deliveries_weight p)) "Invalid mesh_message_deliveries_weight; must be negative (or 0 to disable)" in
  let mesh := f64_ne (tp_mesh_message_deliveries_weight p) f64_zero in
  let? _ := check (mesh && outside_unit (tp_mesh_message_deliveries_decay p)) "Invalid mesh_message_deliveries_decay; must be between 0 and 1" in
  let? _ := check (mesh && f64_le (tp_mesh_message_deliveries_cap p) f64_zero) "Invalid mesh_message_deliveries_cap must be positive" in
  let? _ := check (mesh && f64_le (tp_mesh_message_deliveries_threshold p) f64_zero) "Invalid mesh_message_deliveries_threshold; must be positive" in
  let? _ := check (mesh && bool_decide (tp_mesh_message_deliveries_activation p < from_secs 1)) "Invalid mesh_message_deliveries_activation; must be at least 1s" in
  let? _ := check (f64_lt f64_zero (tp_mesh_failure_penalty_weight p)) "Invalid mesh_failure_penalty_weight; must be negative (or 0 to disable)" in
  let? _ := check (f64_ne (tp_mesh_failure_penalty_weight p) f64_zero && outside_unit (tp_mesh_failure_penalty_decay p)) "Invalid mesh_failure_penalty_decay; must be between 0 and 1" in
  let? _ := check (f64_lt f64_zero (tp_invalid_message_deliveries_weight p)) "Invalid invalid_message_deliveries_weight; must be negative (or 0 to disable)" in
  check (outside_unit (tp_invalid_message_deliveries_decay p)) "Invalid invalid_message_deliveries_decay; must be between 0 and 1".

Record PeerScoreParams := {
  sp_topics : gmap TopicHash TopicScoreParams;
  sp_topic_score_cap : f64;
  sp_app_specific_weight : f64;
  sp_ip_colocation_factor_weight : f64;
  sp_ip_colocation_factor_threshold : f64;
  sp_ip_colocation_factor_whitelist : gset IpAddr;
  sp_behaviour_penalty_weight : f64;
  sp_behaviour_penalty_threshold : f64;
  sp_behaviour_penalty_decay : f64;
  sp_decay_interval : Z;
  sp_decay_to_zero : f64;
  sp_retain_score : Z;
  sp_slow_peer_weight : f64;
  sp_slow_peer_threshold : f64;
  sp_slow_peer_decay : f64;
}.

Definition PeerScoreParams_default : PeerScoreParams := {|
  sp_topics := ∅; sp_topic_score_cap := f64_of_Z 3600; sp_app_specific_weight := f64_of_Z 10;
  sp_ip_colocation_factor_weight := f64_of_Z (-5); sp_ip_colocation_factor_threshold := f64_of_Z 10; sp_ip_colocation_factor_whitelist := ∅;
  sp_behaviour_penalty_weight := f64_of_Z (-10); sp_behaviour_penalty_threshold := f64_zero; sp_behaviour_penalty_decay := f64_lit 2 10;
  sp_decay_interval := from_secs 1; sp_decay_to_zero := f64_lit 1 10; sp_retain_score := from_secs 3600;
  sp_slow_peer_weight := f64_lit (-2) 10; sp_slow_peer_threshold := f64_zero; sp_slow_peer_decay := f64_lit 2 10 |}.

(** The thresholds of a score. *)
Record PeerScoreThresholds := {
  gossip_threshold : f64;
  publish_threshold : f64;
  graylist_threshold : f64;
  accept_px_threshold : f64;
  opportunistic_graft_threshold : f64;
}.

Definition PeerScoreThresholds_default : PeerScoreThresholds := {|
  gossip_threshold := f64_of_Z (-10); publish_threshold := f64_of_Z (-50); graylist_threshold := f64_of_Z (-80);
  accept_px_threshold := f64_of_Z 10; opportunistic_graft_threshold := f64_of_Z 20 |}.

Definition PeerScoreThresholds_validate (t : PeerScoreThresholds) : result unit string :=
  let? _ := check (f64_lt f64_zero (gossip_threshold t)) "invalid gossip threshold; it must be <= 0" in
  let? _ := check (f64_lt f64_zero (publish_threshold t) || f64_lt (gossip_threshold t) (publish_threshold t)) "Invalid publish threshold; it must be <= 0 and <= gossip threshold" in
  let? _ := check (f64_lt f64_zero (graylist_threshold t) || f64_lt (publish_threshold t) (graylist_threshold t)) "Invalid graylist threshold; it must be <= 0 and <= publish threshold" in
  let? _ := check (f64_lt (accept_px_threshold t) f64_zero) "Invalid accept px threshold; it must be >= 0" in
  check (f64_lt (opportunistic_graft_threshold t) f64_zero) "Invalid opportunistic grafting threshold; it must be >= 0".

(** [score_parameter_decay_with_base]; [f64::powf] is a function of the platform. *)
Definition score_parameter_decay_with_base (powf : f64 -> f64 -> f64) (decay base : Z) (decay_to_zero : f64) : f64 :=
  let ticks := f64_div (as_secs_f64 decay) (as_secs_f64 base) in powf decay_to_zero (f64_div f64_one ticks).
Definition score_parameter_decay (powf : f64 -> f64 -> f64) (decay : Z) : f64 :=
  score_parameter_decay_with_base powf decay (from_secs 1) (f64_lit 1 10).

Section score.
Context {P : PeerIdLib} {I : InstantLib} {HT : HashIter TopicHash} {HI : HashIter IpAddr} {HP : HashIter PeerId}.

Definition PeerScoreParams_validate (p : PeerScoreParams) : result unit string :=
  let? _ := try_for_each (fun topic =>
    match sp_topics p !! topic with
    | Some params => map_err (TopicScoreParams_validate params) (fun e => "Invalid score parameters for topic " +:+ topic_hash topic +:+ ": " +:+ e)
    | None => Ok tt
    end) (hash_iter (dom (sp_topics p))) in
  let? _ := check (f64_lt (sp_topic_score_cap p) f64_zero) "Invalid topic score cap; must be positive (or 0 for no cap)" in
  let? _ := check (f64_lt f64_zero (sp_ip_colocation_factor_weight p)) "Invalid ip_colocation_factor_weight; must be negative (or 0 to disable)" in
  let? _ := check (f64_ne (sp_ip_colocation_factor_weight p) f64_zero && f64_lt (sp_ip_colocation_factor_threshold p) f64_one) "Invalid ip_colocation_factor_threshold; must be at least 1" in
  let? _ := check (f64_lt f64_zero (sp_behaviour_penalty_weight p)) "Invalid behaviour_penalty_weight; must be negative (or 0 to disable)" in
  let? _ := check (f64_ne (sp_behaviour_penalty_weight p) f64_zero && outside_unit (sp_behaviour_penalty_decay p)) "invalid behaviour_penalty_decay; must be between 0 and 1" in
  let? _ := check (f64_lt (sp_behaviour_penalty_threshold p) f64_zero) "invalid behaviour_penalty_threshold; must be >= 0" in
  let? _ := check (bool_decide (sp_decay_interval p < from_secs 1)) "Invalid decay_interval; must be at least 1s" in
  check (outside_unit (sp_decay_to_zero p)) "Invalid decay_to_zero; must be between 0 and 1".

(** * State (peer_score.rs) *)
Inductive ConnectionStatus : Type := Connected | Disconnected (expire : Z).

Inductive MeshStatus : Type := MeshActive (graft_time mesh_time : Z) | MeshInActive.

Definition new_active (now : Z) : MeshStatus := MeshActive now 0.

Record TopicStats := {
  ts_mesh_status : MeshStatus;
  ts_first_message_deliveries : f64;
  ts_mesh_message_deliveries_active : bool;
  ts_mesh_message_deliveries : f64;
  ts_mesh_failure_penalty : f64;
  ts_invalid_message_deliveries : f64;
}.

Definition upd_ts_mesh_status (g : MeshStatus -> MeshStatus) (s : TopicStats) : TopicStats := {|
  ts_mesh_status := g (ts_mesh_status s); ts_first_message_deliveries := ts_first_message_deliveries s;
  ts_mesh_message_deliveries_active := ts_mesh_message_deliveries_active s;
  ts_mesh_message_deliveries := ts_mesh_message_deliveries s;
  ts_mesh_failure_penalty := ts_mesh_failure_penalty s;
  ts_invalid_message_deliveries := ts_invalid_message_deliveries s |}.
Definition upd_ts_first_message_deliveries (g : f64 -> f64) (s : TopicStats) : TopicStats := {|
  ts_mesh_status := ts_mesh_status s; ts_first_message_deliveries := g (ts_first_message_deliveries s);
  ts_mesh_message_deliveries_active := ts_mesh_message_deliveries_active s;
  ts_mesh_message_deliveries := ts_mesh_message_deliveries s;
  ts_mesh_failure_penalty := ts_mesh_failure_penalty s;
  ts_invalid_message_deliveries := ts_invalid_message_deliveries s |}.
Definition upd_ts_mesh_message_deliveries_active (g : bool -> bool) (s : TopicStats) : TopicStats := {|
  ts_mesh_status := ts_mesh_status s; ts_first_message_deliveries := ts_first_message_deliveries s;
  ts_mesh_message_deliveries_active := g (ts_mesh_message_deliveries_active s);
  ts_mesh_message_deliveries := ts_mesh_message_deliveries s;
  ts_mesh_failure_penalty := ts_mesh_failure_penalty s;
  ts_invalid_message_deliveries := ts_invalid_message_deliveries s |}.
Definition upd_ts_mesh_message_deliveries (g : f64 -> f64) (s : TopicStats) : TopicStats := {|
  ts_mesh_status := ts_mesh_status s; ts_first_message_deliveries := ts_first_message_deliveries s;
  ts_mesh_message_deliveries_active := ts_mesh_message_deliveries_active s;
  ts_mesh_message_deliveries := g (ts_mesh_message_deliveries s);
  ts_mesh_failure_penalty := ts_mesh_failure_penalty s;
  ts_invalid_message_deliveries := ts_invalid_message_deliveries s |}.
Definition upd_ts_mesh_failure_penalty (g : f64 -> f64) (s : TopicStats) : TopicStats := {|
  ts_mesh_status := ts_mesh_status s; ts_first_message_deliveries := ts_first_message_deliveries s;
  ts_mesh_message_deliveries_active := ts_mesh_message_deliveries_active s;
  ts_mesh_message_deliveries := ts_mesh_message_deliveries s;
  ts_mesh_failure_penalty := g (ts_mesh_failure_penalty s);
  ts_invalid_message_deliveries := ts_invalid_message_deliveries s |}.
Definition upd_ts_invalid_message_deliveries (g : f64 -> f64) (s : TopicStats) : TopicStats := {|
  ts_mesh_status := ts_mesh_status s; ts_first_message_deliveries := ts_first_message_deliveries s;
  ts_mesh_message_deliveries_active := ts_mesh_message_deliveries_active s;
  ts_mesh_message_deliveries := ts_mesh_message_deliveries s;
  ts_mesh_failure_penalty := ts_mesh_failure_penalty s;
  ts_invalid_message_deliveries := g (ts_invalid_message_deliveries s) |}.

Definition TopicStats_default : TopicStats := {|
  ts_mesh_status := MeshInActive; ts_first_message_deliveries := f64_zero; ts_mesh_message_deliveries_active := false;
  ts_mesh_message_deliveries := f64_zero; ts_mesh_failure_penalty := f64_zero; ts_invalid_message_deliveries := f64_zero |}.

Definition in_mesh (t : TopicStats) : bool := match ts_mesh_status t with MeshActive _ _ => true | MeshInActive => false end.

Record PeerStats := {
  st_status : ConnectionStatus;
  st_topics : gmap TopicHash TopicStats;
  st_known_ips : gset IpAddr;
  st_behaviour_penalty : f64;
  st_application_score : f64;
  st_slow_peer_penalty : f64;
}.

Definition upd_st_status (g : ConnectionStatus -> ConnectionStatus) (s : PeerStats) : PeerStats := {|
  st_status := g (st_status s); st_topics := st_topics s; st_known_ips := st_known_ips s;
  st_behaviour_penalty := st_behaviour_penalty s; st_application_score := st_application_score s;
  st_slow_peer_penalty := st_slow_peer_penalty s |}.
Definition upd_st_topics (g : gmap TopicHash TopicStats -> gmap TopicHash TopicStats) (s : PeerStats) : PeerStats := {|
  st_status := st_status s; st_topics := g (st_topics s); st_known_ips := st_known_ips s;
  st_behaviour_penalty := st_behaviour_penalty s; st_application_score := st_application_score s;
  st_slow_peer_penalty := st_slow_peer_penalty s |}.
Definition upd_st_known_ips (g : gset IpAddr -> gset IpAddr) (s : PeerStats) : PeerStats := {|
  st_status := st_status s; st_topics := st_topics s; st_known_ips := g (st_known_ips s);
  st_behaviour_penalty := st_behaviour_penalty s; st_application_score := st_application_score s;
  st_slow_peer_penalty := st_slow_peer_penalty s |}.
Definition upd_st_behaviour_penalty (g : f64 -> f64) (s : PeerStats) : PeerStats := {|
  st_status := st_status s; st_topics := st_topics s; st_known_ips := st_known_ips s;
  st_behaviour_penalty := g (st_behaviour_penalty s); st_application_score := st_application_score s;
  st_slow_peer_penalty := st_slow_peer_penalty s |}.
Definition upd_st_application_score (g : f64 -> f64) (s : PeerStats) : PeerStats := {|
  st_status := st_status s; st_topics := st_topics s; st_known_ips := st_known_ips s;
  st_behaviour_penalty := st_behaviour_penalty s; st_application_score := g (st_application_score s);
  st_slow_peer_penalty := st_slow_peer_penalty s |}.
Definition upd_st_slow_peer_penalty (g : f64 -> f64) (s : PeerStats) : PeerStats := {|
  st_status := st_status s; st_topics := st_topics s; st_known_ips := st_known_ips s;
  st_behaviour_penalty := st_behaviour_penalty s; st_application_score := st_application_score s;
  st_slow_peer_penalty := g (st_slow_peer_penalty s) |}.

Definition PeerStats_default : PeerStats := {|
  st_status := Connected; st_topics := ∅; st_known_ips := ∅; st_behaviour_penalty := f64_zero;
  st_application_score := f64_zero; st_slow_peer_penalty := f64_zero |}.

Inductive DeliveryStatus : Type := DeliveryUnknown | DeliveryValid (validated : Z) | DeliveryInvalid | DeliveryIgnored.

Record DeliveryRecord := { dr_status : DeliveryStatus; dr_first_seen : Z; dr_peers : gset PeerId }.

Definition DeliveryRecord_default (now : Z) : DeliveryRecord := {| dr_status := DeliveryUnknown; dr_first_seen := now; dr_peers := ∅ |}.

Definition TIME_CACHE_DURATION : Z := 120.

(** The timer of the decay is an input of the router; the calls of the callback for
    delivery times are collected in [sc_delivery_times]. *)
Record PeerScore := {
  sc_params : PeerScoreParams;
  sc_thresholds : PeerScoreThresholds;
  sc_peer_stats : gmap PeerId PeerStats;
  sc_peer_ips : gmap IpAddr (gset PeerId);
  sc_deliveries : TimeCache (list byte) DeliveryRecord;
  sc_callback : bool;
  sc_delivery_times : list (PeerId * TopicHash * f64);
}.

Definition upd_sc_params (g : PeerScoreParams -> PeerScoreParams) (s : PeerScore) : PeerScore := {|
  sc_params := g (sc_params s); sc_thresholds := sc_thresholds s; sc_peer_stats := sc_peer_stats s;
  sc_peer_ips := sc_peer_ips s; sc_deliveries := sc_deliveries s; sc_callback := sc_callback s;
  sc_delivery_times := sc_delivery_times s |}.
Definition upd_sc_thresholds (g : PeerScoreThresholds -> PeerScoreThresholds) (s : PeerScore) : PeerScore := {|
  sc_params := sc_params s; sc_thresholds := g (sc_thresholds s); sc_peer_stats := sc_peer_stats s;
  sc_peer_ips := sc_peer_ips s; sc_deliveries := sc_deliveries s; sc_callback := sc_callback s;
  sc_delivery_times := sc_delivery_times s |}.
Definition upd_sc_peer_stats (g : gmap PeerId PeerStats -> gmap PeerId PeerStats) (s : PeerScore) : PeerScore := {|
  sc_params := sc_params s; sc_thresholds := sc_thresholds s; sc_peer_stats := g (sc_peer_stats s);
  sc_peer_ips := sc_peer_ips s; sc_deliveries := sc_deliveries s; sc_callback := sc_callback s;
  sc_delivery_times := sc_delivery_times s |}.
Definition upd_sc_peer_ips (g : gmap IpAddr (gset PeerId) -> gmap IpAddr (gset PeerId)) (s : PeerScore) : PeerScore := {|
  sc_params := sc_params s; sc_thresholds := sc_thresholds s; sc_peer_stats := sc_peer_stats s;
  sc_peer_ips := g (sc_peer_ips s); sc_deliveries := sc_deliveries s; sc_callback := sc_callback s;
  sc_delivery_times := sc_delivery_times s |}.
Definition upd_sc_deliveries (g : TimeCache (list byte) DeliveryRecord -> TimeCache (list byte) DeliveryRecord) (s : PeerScore) : PeerScore := {|
  sc_params := sc_params s; sc_thresholds := sc_thresholds s; sc_peer_stats := sc_peer_stats s;
  sc_peer_ips := sc_peer_ips s; sc_deliveries := g (sc_deliveries s); sc_callback := sc_callback s;
  sc_delivery_times := sc_delivery_times s |}.
Definition upd_sc_callback (g : bool -> bool) (s : PeerScore) : PeerScore := {|
  sc_params := sc_params s; sc_thresholds := sc_thresholds s; sc_peer_stats := sc_peer_stats s;
  sc_peer_ips := sc_peer_ips s; sc_deliveries := sc_deliveries s; sc_callback := g (sc_callback s);
  sc_delivery_times := sc_delivery_times s |}.
Definition upd_sc_delivery_times (g : list (PeerId * TopicHash * f64) -> list (PeerId * TopicHash * f64)) (s : PeerScore) : PeerScore := {|
  sc_params := sc_params s; sc_thresholds := sc_thresholds s; sc_peer_stats := sc_peer_stats s;
  sc_peer_ips := sc_peer_ips s; sc_deliveries := sc_deliveries s; sc_callback := sc_callback s;
  sc_delivery_times := g (sc_delivery_times s) |}.

Definition PeerScore_new (params : PeerScoreParams) (thresholds : PeerScoreThresholds) (callback : bool) : PeerScore := {|
  sc_params := params; sc_thresholds := thresholds; sc_peer_stats := ∅; sc_peer_ips := ∅;
  sc_deliveries := TimeCache_new (from_secs TIME_CACHE_DURATION); sc_callback := callback; sc_delivery_times := [] |}.

(** * The score *)
Definition capped_at (v cap : f64) : f64 := if f64_lt v cap then v else cap.

Definition topic_score (p : TopicScoreParams) (t : TopicStats) : f64 :=
  let score := f64_zero in
  let score :=
    match ts_mesh_status t with
    | MeshActive _ mesh_time =>
        let p1 := capped_at (f64_div (as_secs_f64 mesh_time) (as_secs_f64 (tp_time_in_mesh_quantum p))) (tp_time_in_mesh_cap p) in
        f64_add score (f64_mul p1 (tp_time_in_mesh_weight p))
    | MeshInActive => score
    end in
  let p2 := capped_at (ts_first_message_deliveries t) (tp_first_message_deliveries_cap p) in
  let score := f64_add score (f64_mul p2 (tp_first_message_deliveries_weight p)) in
  let score :=
    if ts_mesh_message_deliveries_active t && f64_lt (ts_mesh_message_deliveries t) (tp_mesh_message_deliveries_threshold p)
       && f64_ne (tp_mesh_message_deliveries_weight p) f64_zero then
      let deficit := f64_sub (tp_mesh_message_deliveries_threshold p) (ts_mesh_message_deliveries t) in
      f64_add score (f64_mul (f64_mul deficit deficit) (tp_mesh_message_deliveries_weight p))
    else score in
  let score := f64_add score (f64_mul (ts_mesh_failure_penalty t) (tp_mesh_failure_penalty_weight p)) in
  let p4 := f64_mul (ts_invalid_message_deliveries t) (ts_invalid_message_deliveries t) in
  f64_add score (f64_mul p4 (tp_invalid_message_deliveries_weight p)).

Definition add_topic_score (s : PeerScore) (st : PeerStats) (score : f64) (topic : TopicHash) : f64 :=
  match st_topics st !! topic, sp_topics (sc_params s) !! topic with
  | Some t, Some p => f64_add score (f64_mul (topic_score p t) (tp_topic_weight p))
  | _, _ => score
  end.

Definition add_ip_penalty (s : PeerScore) (score : f64) (ip : IpAddr) : f64 :=
  if bool_decide (ip ∈ sp_ip_colocation_factor_whitelist (sc_params s)) then score
  else
    match sc_peer_ips s !! ip with
    | Some peers =>
        let peers_in_ip := f64_of_Z (Z.of_nat (size peers)) in
        if f64_lt (sp_ip_colocation_factor_threshold (sc_params s)) peers_in_ip && f64_ne (sp_ip_colocation_factor_weight (sc_params s)) f64_zero then
          let surplus := f64_sub peers_in_ip (sp_ip_colocation_factor_threshold (sc_params s)) in
          f64_add score (f64_mul (f64_mul surplus surplus) (sp_ip_colocation_factor_weight (sc_params s)))
        else score
    | None => score
    end.

Definition topics_part (s : PeerScore) (st : PeerStats) : f64 :=
  let score := foldl (add_topic_score s st) f64_zero (hash_iter (dom (st_topics st))) in
  if f64_lt f64_zero (sp_topic_score_cap (sc_params s)) && f64_lt (sp_topic_score_cap (sc_params s)) score
  then sp_topic_score_cap (sc_params s) else score.

Definition behaviour_part (p : PeerScoreParams) (st : PeerStats) (score : f64) : f64 :=
  if f64_lt (sp_behaviour_penalty_threshold p) (st_behaviour_penalty st) then
    let excess := f64_sub (st_behaviour_penalty st) (sp_behaviour_penalty_threshold p) in
    f64_add score (f64_mul (f64_mul excess excess) (sp_behaviour_penalty_weight p))
  else score.

Definition slow_part (p : PeerScoreParams) (st : PeerStats) (score : f64) : f64 :=
  if f64_lt (sp_slow_peer_threshold p) (st_slow_peer_penalty st) then
    let excess := f64_sub (st_slow_peer_penalty st) (sp_slow_peer_threshold p) in
    f64_add score (f64_mul excess (sp_slow_peer_weight p))
  else score.

(** [score_report], of which only the score is used. *)
Definition score_report (s : PeerScore) (peer_id : PeerId) : f64 :=
  match sc_peer_stats s !! peer_id with
  | None => f64_zero
  | Some st =>
      let score := topics_part s st in
      let score := f64_add score (f64_mul (st_application_score st) (sp_app_specific_weight (sc_params s))) in
      let score := foldl (add_ip_penalty s) score (hash_iter (st_known_ips st)) in
      slow_part (sc_params s) st (behaviour_part (sc_params s) st score)
  end.

(** * Access to the counters *)
Definition with_peer (peer_id : PeerId) (f : PeerStats -> run PeerStats) (s : PeerScore) : run PeerScore :=
  match sc_peer_stats s !! peer_id with
  | Some st => let! st := f st in Ret (upd_sc_peer_stats <[peer_id := st]> s)
  | None => Ret s
  end.

(** [stats_or_default_mut], and what the caller does with the counters it gets. *)
Definition with_topic_stats (params : PeerScoreParams) (topic : TopicHash) (f : TopicStats -> run TopicStats) (st : PeerStats) : run PeerStats :=
  match (if decide (is_Some (sp_topics params !! topic)) then Some (default TopicStats_default (st_topics st !! topic)) else st_topics st !! topic) with
  | Some t => let! t := f t in Ret (upd_st_topics <[topic := t]> st)
  | None => Ret st
  end.

(** * Penalties and decay *)
Definition add_penalty (peer_id : PeerId) (count : Z) : PeerScore -> run PeerScore :=
  with_peer peer_id (fun st => Ret (upd_st_behaviour_penalty (fun x => f64_add x (f64_of_Z count)) st)).

Definition failed_message_slow_peer (peer_id : PeerId) : PeerScore -> run PeerScore :=
  with_peer peer_id (fun st => Ret (upd_st_slow_peer_penalty (fun x => f64_add x f64_one) st)).

Definition set_application_score (peer_id : PeerId) (new_score : f64) (s : PeerScore) : bool * PeerScore :=
  match sc_peer_stats s !! peer_id with
  | Some st => (true, upd_sc_peer_stats <[peer_id := upd_st_application_score (fun _ => new_score) st]> s)
  | None => (false, s)
  end.

Definition remove_ips_for_peer (st : PeerStats) (peer_id : PeerId) (ips : gmap IpAddr (gset PeerId)) : gmap IpAddr (gset PeerId) :=
  foldl (fun ips ip => alter (fun peers => peers ∖ {[peer_id]}) ip ips) ips (hash_iter (st_known_ips st)).

Definition decay_counter (params : PeerScoreParams) (decay x : f64) : f64 :=
  let x := f64_mul x decay in if f64_lt x (sp_decay_to_zero params) then f64_zero else x.

Definition refresh_mesh (now : Z) (p : TopicScoreParams) (t : TopicStats) : TopicStats :=
  match ts_mesh_status t with
  | MeshActive graft_time _ =>
      let mesh_time := Z.max 0 (now - graft_time) in
      let t := upd_ts_mesh_status (fun _ => MeshActive graft_time mesh_time) t in
      if decide (tp_mesh_message_deliveries_activation p < mesh_time) then upd_ts_mesh_message_deliveries_active (fun _ => true) t else t
  | MeshInActive => t
  end.

Definition refresh_topic (now : Z) (params : PeerScoreParams) (topic : TopicHash) (t : TopicStats) : TopicStats :=
  match sp_topics params !! topic with
  | Some p =>
      let t := upd_ts_first_message_deliveries (decay_counter params (tp_first_message_deliveries_decay p)) t in
      let t := upd_ts_mesh_message_deliveries (decay_counter params (tp_mesh_message_deliveries_decay p)) t in
      let t := upd_ts_mesh_failure_penalty (decay_counter params (tp_mesh_failure_penalty_decay p)) t in
      let t := upd_ts_invalid_message_deliveries (decay_counter params (tp_invalid_message_deliveries_decay p)) t in
      refresh_mesh now p t
  | None => t
  end.

(** The closure of [retain]: [None] is a peer that is dropped. *)
Definition refresh_stats (now : Z) (params : PeerScoreParams) (st : PeerStats) : option PeerStats :=
  match st_status st with
  | Disconnected expire => if decide (expire < now) then None else Some st
  | Connected =>
      let st := upd_st_topics (map_imap (fun topic t => Some (refresh_topic now params topic t))) st in
      let st := upd_st_behaviour_penalty (decay_counter params (sp_behaviour_penalty_decay params)) st in
      Some (upd_st_slow_peer_penalty (decay_counter params (sp_slow_peer_decay params)) st)
  end.

Definition refresh_peer (now : Z) (s : PeerScore) (peer_id : PeerId) : PeerScore :=
  match sc_peer_stats s !! peer_id with
  | Some st =>
      match refresh_stats now (sc_params s) st with
      | Some st => upd_sc_peer_stats <[peer_id := st]> s
      | None => upd_sc_peer_ips (remove_ips_for_peer st peer_id) (upd_sc_peer_stats (delete peer_id) s)
      end
  | None => s
  end.

Definition refresh_scores (now : Z) (s : PeerScore) : PeerScore := foldl (refresh_peer now) s (hash_iter (dom (sc_peer_stats s))).

(** * Peers and their addresses *)
Definition score_add_peer (peer_id : PeerId) (s : PeerScore) : PeerScore :=
  upd_sc_peer_stats <[peer_id := upd_st_status (fun _ => Connected) (default PeerStats_default (sc_peer_stats s !! peer_id))]> s.

Definition score_add_ip (peer_id : PeerId) (ip : IpAddr) (s : PeerScore) : PeerScore :=
  let st := upd_st_status (fun _ => Connected) (default PeerStats_default (sc_peer_stats s !! peer_id)) in
  upd_sc_peer_ips (fun ips => <[ip := {[peer_id]} ∪ default ∅ (ips !! ip)]> ips)
    (upd_sc_peer_stats <[peer_id := upd_st_known_ips (fun l => {[ip]} ∪ l) st]> s).

Definition score_remove_ip (peer_id : PeerId) (ip : IpAddr) (s : PeerScore) : PeerScore :=
  match sc_peer_stats s !! peer_id with
  | Some st =>
      upd_sc_peer_ips (alter (fun peers => peers ∖ {[peer_id]}) ip)
        (upd_sc_peer_stats <[peer_id := upd_st_known_ips (fun l => l ∖ {[ip]}) st]> s)
  | None => s
  end.

Definition failure_penalty (threshold : f64) (t : TopicStats) : TopicStats :=
  let deficit := f64_sub threshold (ts_mesh_message_deliveries t) in
  upd_ts_mesh_failure_penalty (fun x => f64_add x (f64_mul deficit deficit)) t.

Definition retain_topic (params : PeerScoreParams) (topic : TopicHash) (t : TopicStats) : TopicStats :=
  let t := upd_ts_first_message_deliveries (fun _ => f64_zero) t in
  let t :=
    match sp_topics params !! topic with
    | Some p =>
        if in_mesh t && ts_mesh_message_deliveries_active t && f64_lt (ts_mesh_message_deliveries t) (tp_mesh_message_deliveries_threshold p)
        then failure_penalty (tp_mesh_message_deliveries_threshold p) t else t
    | None => t
    end in
  upd_ts_mesh_message_deliveries_active (fun _ => false) (upd_ts_mesh_status (fun _ => MeshInActive) t).

Definition score_remove_peer (now : Z) (peer_id : PeerId) (s : PeerScore) : PeerScore :=
  match sc_peer_stats s !! peer_id with
  | None => s
  | Some st =>
      if f64_lt f64_zero (score_report s peer_id) then
        upd_sc_peer_stats (delete peer_id) (upd_sc_peer_ips (remove_ips_for_peer st peer_id) s)
      else
        let st := upd_st_topics (map_imap (fun topic t => Some (retain_topic (sc_params s) topic t))) st in
        let expire := default now (instant_checked_add now (sp_retain_score (sc_params s))) in
        upd_sc_peer_stats <[peer_id := upd_st_status (fun _ => Disconnected expire) st]> s
  end.

(** * The mesh *)
Definition score_graft (now : Z) (peer_id : PeerId) (topic : TopicHash) (s : PeerScore) : run PeerScore :=
  with_peer peer_id (with_topic_stats (sc_params s) topic (fun t =>
    Ret (upd_ts_mesh_message_deliveries_active (fun _ => false) (upd_ts_mesh_status (fun _ => new_active now) t)))) s.

Definition score_prune (peer_id : PeerId) (topic : TopicHash) (s : PeerScore) : run PeerScore :=
  with_peer peer_id (with_topic_stats (sc_params s) topic (fun t =>
    let! p := expect (sp_topics (sc_params s) !! topic) in
    let threshold := tp_mesh_message_deliveries_threshold p in
    let t := if ts_mesh_message_deliveries_active t && f64_lt (ts_mesh_message_deliveries t) threshold then failure_penalty threshold t else t in
    Ret (upd_ts_mesh_status (fun _ => MeshInActive) (upd_ts_mesh_message_deliveries_active (fun _ => false) t)))) s.

(** * Deliveries *)
Definition count_one (cap x : f64) : f64 := if f64_lt cap (f64_add x f64_one) then cap else f64_add x f64_one.

Definition mark_invalid_message_delivery (peer_id : PeerId) (topic : TopicHash) (s : PeerScore) : run PeerScore :=
  with_peer peer_id (with_topic_stats (sc_params s) topic (fun t =>
    Ret (upd_ts_invalid_message_deliveries (fun x => f64_add x f64_one) t))) s.

Definition mark_first_message_delivery (peer_id : PeerId) (topic : TopicHash) (s : PeerScore) : run PeerScore :=
  with_peer peer_id (with_topic_stats (sc_params s) topic (fun t =>
    let! p := expect (sp_topics (sc_params s) !! topic) in
    let t := upd_ts_first_message_deliveries (count_one (tp_first_message_deliveries_cap p)) t in
    Ret (if in_mesh t then upd_ts_mesh_message_deliveries (count_one (tp_mesh_message_deliveries_cap p)) t else t))) s.

Definition in_window (now : Z) (p : TopicScoreParams) (validated_time : option Z) : bool :=
  match validated_time with
  | Some validated => bool_decide (now <= default now (instant_checked_add validated (tp_mesh_message_deliveries_window p)))
  | None => true
  end.

Definition mark_duplicate_message_delivery (now : Z) (peer_id : PeerId) (topic : TopicHash) (validated_time : option Z) (s : PeerScore) : run PeerScore :=
  with_peer peer_id (with_topic_stats (sc_params s) topic (fun t =>
    if in_mesh t then
      let! p := expect (sp_topics (sc_params s) !! topic) in
      Ret (if in_window now p validated_time then upd_ts_mesh_message_deliveries (count_one (tp_mesh_message_deliveries_cap p)) t else t)
    else Ret t)) s.

Fixpoint run_each {A S} (f : A -> S -> run S) (l : list A) (s : S) : run S :=
  match l with [] => Ret s | x :: l => let! s := f x s in run_each f l s end.

(** The record of a message, made when there is none, and a change of it. *)
Definition delivery_record (now : Z) (msg_id : list byte) (s : PeerScore) : DeliveryRecord * PeerScore :=
  let '(r, c) := or_default now (sc_deliveries s) msg_id (DeliveryRecord_default now) in (r, upd_sc_deliveries (fun _ => c) s).

Definition set_record (msg_id : list byte) (r : DeliveryRecord) (s : PeerScore) : PeerScore :=
  upd_sc_deliveries (fun c => {|
    tc_map := alter (fun e => {| ee_element := r; ee_expires := ee_expires e |}) msg_id (tc_map c);
    tc_list := tc_list c; tc_ttl := tc_ttl c |}) s.

Definition report_time (from : PeerId) (topic : TopicHash) (time : f64) (s : PeerScore) : PeerScore :=
  if sc_callback s && match sc_peer_stats s !! from ≫= fun st => st_topics st !! topic with Some t => in_mesh t | None => false end
  then upd_sc_delivery_times (fun l => l ++ [(from, topic, time)]) s else s.

Definition validate_message (now : Z) (from : PeerId) (msg_id : list byte) (topic : TopicHash) (s : PeerScore) : PeerScore :=
  report_time from topic f64_zero (snd (delivery_record now msg_id s)).

Definition deliver_message (now : Z) (from : PeerId) (msg_id : list byte) (topic : TopicHash) (s : PeerScore) : run PeerScore :=
  let! s := mark_first_message_delivery from topic s in
  let '(record, s) := delivery_record now msg_id s in
  match dr_status record with
  | DeliveryUnknown =>
      let s := set_record msg_id {| dr_status := DeliveryValid now; dr_first_seen := dr_first_seen record; dr_peers := dr_peers record |} s in
      run_each (fun p s => if decide (p ≠ from) then mark_duplicate_message_delivery now p topic None s else Ret s) (hash_iter (dr_peers record)) s
  | _ => Ret s
  end.

Definition reject_invalid_message (from : PeerId) (topic : TopicHash) : PeerScore -> run PeerScore := mark_invalid_message_delivery from topic.

Definition score_reject_message (now : Z) (from : PeerId) (msg_id : list byte) (topic : TopicHash) (reason : RejectReason) (s : PeerScore) : run PeerScore :=
  match reason with
  | RejectValidationError _ | SelfOrigin => reject_invalid_message from topic s
  | BlackListedPeer | BlackListedSource => Ret s
  | _ =>
      let '(record, s) := delivery_record now msg_id s in
      match dr_status record, reason with
      | DeliveryUnknown, ValidationIgnored =>
          Ret (set_record msg_id {| dr_status := DeliveryIgnored; dr_first_seen := dr_first_seen record; dr_peers := ∅ |} s)
      | DeliveryUnknown, _ =>
          let s := set_record msg_id {| dr_status := DeliveryInvalid; dr_first_seen := dr_first_seen record; dr_peers := ∅ |} s in
          let! s := mark_invalid_message_delivery from topic s in
          run_each (fun p => mark_invalid_message_delivery p topic) (hash_iter (dr_peers record)) s
      | _, _ => Ret s
      end
  end.

Definition duplicated_message (now : Z) (from : PeerId) (msg_id : list byte) (topic : TopicHash) (s : PeerScore) : run PeerScore :=
  let '(record, s) := delivery_record now msg_id s in
  if decide (from ∈ dr_peers record) then Ret s
  else
    let time := match dr_status record with DeliveryValid validated => as_secs_f64 (Z.max 0 (now - validated)) | _ => f64_zero end in
    let s := report_time from topic time s in
    let seen := {| dr_status := dr_status record; dr_first_seen := dr_first_seen record; dr_peers := {[from]} ∪ dr_peers record |} in
    match dr_status record with
    | DeliveryUnknown => Ret (set_record msg_id seen s)
    | DeliveryValid validated => mark_duplicate_message_delivery now from topic (Some validated) (set_record msg_id seen s)
    | DeliveryInvalid => mark_invalid_message_delivery from topic s
    | DeliveryIgnored => Ret s
    end.

(** * Parameters of topics *)
Definition clamp (cap x : f64) : f64 := if f64_lt cap x then cap else x.

Definition set_topic_params (topic : TopicHash) (params : TopicScoreParams) (s : PeerScore) : PeerScore :=
  let old := sp_topics (sc_params s) !! topic in
  let s := upd_sc_params (fun p => {|
    sp_topics := <[topic := params]> (sp_topics p); sp_topic_score_cap := sp_topic_score_cap p; sp_app_specific_weight := sp_app_specific_weight p;
    sp_ip_colocation_factor_weight := sp_ip_colocation_factor_weight p; sp_ip_colocation_factor_threshold := sp_ip_colocation_factor_threshold p;
    sp_ip_colocation_factor_whitelist := sp_ip_colocation_factor_whitelist p; sp_behaviour_penalty_weight := sp_behaviour_penalty_weight p;
    sp_behaviour_penalty_threshold := sp_behaviour_penalty_threshold p; sp_behaviour_penalty_decay := sp_behaviour_penalty_decay p;
    sp_decay_interval := sp_decay_interval p; sp_decay_to_zero := sp_decay_to_zero p; sp_retain_score := sp_retain_score p;
    sp_slow_peer_weight := sp_slow_peer_weight p; sp_slow_peer_threshold := sp_slow_peer_threshold p; sp_slow_peer_decay := sp_slow_peer_decay p |}) s in
  match old with
  | None => s
  | Some old =>
      let each (f : TopicStats -> TopicStats) := upd_sc_peer_stats (fmap (upd_st_topics (alter f topic))) in
      let s := if f64_lt (tp_first_message_deliveries_cap params) (tp_first_message_deliveries_cap old)
               then each (upd_ts_first_message_deliveries (clamp (tp_first_message_deliveries_cap params))) s else s in
      if f64_lt (tp_mesh_message_deliveries_cap params) (tp_mesh_message_deliveries_cap old)
      then each (upd_ts_mesh_message_deliveries (clamp (tp_mesh_message_deliveries_cap params))) s else s
  end.

Definition get_topic_params (s : PeerScore) (topic : TopicHash) : option TopicScoreParams := sp_topics (sc_params s) !! topic.

Definition mesh_message_deliveries (s : PeerScore) (peer : PeerId) (topic : TopicHash) : option f64 :=
  ts_mesh_message_deliveries <$> (sc_peer_stats s !! peer ≫= fun st => st_topics st !! topic).
End score.
