(* ===== verification/GsProtocol.v ===== *)
(** The wire format of the vendored gossipsub: the RPCs as protobuf
    ([From<RpcOut> for proto::Rpc] of external/libp2p-gossipsub/src/types.rs),
    what the codec makes of a received RPC
    (external/libp2p-gossipsub/src/protocol.rs), and how a message is built and
    signed ([build_raw_message] of external/libp2p-gossipsub/src/behaviour.rs). *)

From S2P Require Import Prelude Bytes Text Common AppMessage Storage GsTimeCache GsBackoff GsMessageCache GsSubscriptions GsQueue GsConfig.
From Stdlib Require Import Strings.Byte.

#[local] Open Scope Z_scope.

(** * The generated protobuf types *)
Record ProtoMessage := {
  pm_from : option (list byte);
  pm_data : option (list byte);
  pm_seqno : option (list byte);
  pm_topic : string;
  pm_signature : option (list byte);
  pm_key : option (list byte);
}.
Record SubOpts := {
  so_subscribe : option bool; so_topic_id : option string;
  so_requests_partial : option bool; so_supports_partial : option bool }.
Record ControlIHave := { ci_topic_id : option string; ci_message_ids : list (list byte) }.
Record ControlIWant := { cw_message_ids : list (list byte) }.
Record ControlGraft := { cg_topic_id : option string }.
Record ProtoPeerInfo := { pp_peer_id : option (list byte); pp_signed_peer_record : option (list byte) }.
Record ControlPrune := { cp_topic_id : option string; cp_peers : list ProtoPeerInfo; cp_backoff : option Z }.
Record ControlIDontWant := { cd_message_ids : list (list byte) }.
Record ControlExtensions := { ce_partial_messages : option bool }.
Record ControlMessage := {
  cm_ihave : list ControlIHave; cm_iwant : list ControlIWant; cm_graft : list ControlGraft;
  cm_prune : list ControlPrune; cm_idontwant : list ControlIDontWant; cm_extensions : option ControlExtensions }.
Record ProtoRpc := { rpc_subscriptions : list SubOpts; rpc_publish : list ProtoMessage; rpc_control : option ControlMessage }.

Definition ControlMessage_default : ControlMessage :=
  {| cm_ihave := []; cm_iwant := []; cm_graft := []; cm_prune := []; cm_idontwant := []; cm_extensions := None |}.

(** [prost] and [prost_codec]: the encoding of a message, the codec that writes
    an RPC behind its length and reads one from a buffer (with what is left of
    it), both up to a maximal length, and the field walk of
    [validate_rpc_limits]: the end of the prefix, the tag of the next field and
    what follows it. *)
Class ProstLib := {
  message_encode : ProtoMessage -> list byte;
  rpc_encode : Z -> ProtoRpc -> result (list byte) string;
  rpc_decode : Z -> list byte -> result (option (ProtoRpc * list byte)) string;
  consume_message_prefix : list byte -> result (option (list byte)) string;
  next_field : list byte -> result (Z * list byte) string;
}.

(** A field takes bytes. *)
Class ProstLaws (L : ProstLib) : Prop := {
  next_field_shorter buf tag rest : next_field buf = Ok (tag, rest) -> (length rest < length buf)%nat;
}.

(** [libp2p_identity]: signing, public keys and their peer ids. *)
Class SigningLib {P : PeerIdLib} {K : KeypairLib} := {
  PublicKey : Type;
  kp_public : Keypair -> PublicKey;
  kp_sign : Keypair -> list byte -> result (list byte) string;
  pk_encode : PublicKey -> list byte;
  pk_decode : list byte -> option PublicKey;
  pk_verify : PublicKey -> list byte -> list byte -> bool;
  pk_to_peer_id : PublicKey -> PeerId;
}.

(** A signature verifies, an encoded key is read back, a peer id has bytes, and
    a short enough key is inlined in it after the two bytes of the identity
    multihash. *)
Class SigningLaws {P : PeerIdLib} {K : KeypairLib} (S : SigningLib) : Prop := {
  sign_verifies k bs sg : kp_sign k bs = Ok sg -> pk_verify (kp_public k) bs sg = true;
  pk_decode_encode k : pk_decode (pk_encode k) = Some k;
  peer_id_bytes k : peer_to_bytes (pk_to_peer_id k) ≠ [];
  inlined_key k : len (pk_encode k) <= 42 -> drop 2 (peer_to_bytes (pk_to_peer_id k)) = pk_encode k;
}.

Section protocol.
Context {P : PeerIdLib} {K : KeypairLib} {S : SigningLib} {L : ProstLib}.

Local Abbreviation MsgId := (list byte).

(** * Sending: [types.rs] *)
Definition proto_message_of (m : RawMessage) : ProtoMessage := {|
  pm_from := peer_to_bytes <$> rm_source m; pm_data := Some (rm_data m);
  pm_seqno := be_bytes 8 <$> rm_sequence_number m; pm_topic := topic_hash (rm_topic m);
  pm_signature := rm_signature m; pm_key := rm_key m |}.

Definition raw_protobuf_len (m : RawMessage) : Z := len (message_encode (proto_message_of m)).

Definition control_rpc (c : ControlMessage) : ProtoRpc :=
  {| rpc_subscriptions := []; rpc_publish := []; rpc_control := Some c |}.
Definition subscription_rpc (l : list SubOpts) : ProtoRpc :=
  {| rpc_subscriptions := l; rpc_publish := []; rpc_control := None |}.
Definition subscribe_opts (topic : TopicHash) (requests_partial supports_partial : bool) : SubOpts := {|
  so_subscribe := Some true; so_topic_id := Some (topic_hash topic);
  so_requests_partial := Some requests_partial; so_supports_partial := Some supports_partial |}.

Definition into_protobuf (rpc : RpcOut) : ProtoRpc :=
  match rpc with
  | RpcPublish _ message _ => {| rpc_subscriptions := []; rpc_publish := [proto_message_of message]; rpc_control := None |}
  | RpcSubscribe topic requests_partial supports_partial => subscription_rpc [subscribe_opts topic requests_partial supports_partial]
  | RpcSubscribeMany topics => subscription_rpc ((fun '(t, r, s) => subscribe_opts t r s) <$> topics)
  | RpcUnsubscribe topic => subscription_rpc [{|
      so_subscribe := Some false; so_topic_id := Some (topic_hash topic);
      so_requests_partial := None; so_supports_partial := None |}]
  | RpcIHave i => control_rpc {|
      cm_ihave := [{| ci_topic_id := Some (topic_hash (ih_topic_hash i)); ci_message_ids := ih_message_ids i |}];
      cm_iwant := []; cm_graft := []; cm_prune := []; cm_idontwant := []; cm_extensions := None |}
  | RpcIWant i => control_rpc {|
      cm_ihave := []; cm_iwant := [{| cw_message_ids := iw_message_ids i |}];
      cm_graft := []; cm_prune := []; cm_idontwant := []; cm_extensions := None |}
  | RpcGraft g => control_rpc {|
      cm_ihave := []; cm_iwant := []; cm_graft := [{| cg_topic_id := Some (topic_hash (gr_topic_hash g)) |}];
      cm_prune := []; cm_idontwant := []; cm_extensions := None |}
  | RpcPrune p => control_rpc {|
      cm_ihave := []; cm_iwant := []; cm_graft := [];
      cm_prune := [{| cp_topic_id := Some (topic_hash (pr_topic_hash p));
                      cp_peers := (fun i => {| pp_peer_id := peer_to_bytes <$> i; pp_signed_peer_record := None |}) <$> pr_peers p;
                      cp_backoff := pr_backoff p |}];
      cm_idontwant := []; cm_extensions := None |}
  | RpcIDontWant i => control_rpc {|
      cm_ihave := []; cm_iwant := []; cm_graft := []; cm_prune := [];
      cm_idontwant := [{| cd_message_ids := idw_message_ids i |}]; cm_extensions := None |}
  | RpcExtensions e => control_rpc {|
      cm_ihave := []; cm_iwant := []; cm_graft := []; cm_prune := []; cm_idontwant := [];
      cm_extensions := Some {| ce_partial_messages := partial_messages e |} |}
  | RpcTestExtension => {| rpc_subscriptions := []; rpc_publish := []; rpc_control := None |}
  end.

(** * Publishing: [PublishConfig] and [build_raw_message] *)
Inductive MessageAuthenticity : Type :=
  | Signed (k : Keypair) | Author (p : PeerId) | RandomAuthor | Anonymous.

Definition is_signing (a : MessageAuthenticity) : bool := match a with Signed _ => true | _ => false end.
Definition is_anonymous (a : MessageAuthenticity) : bool := match a with Anonymous => true | _ => false end.

Inductive PublishConfig : Type :=
  | PcSigning (keypair : Keypair) (author : PeerId) (inline_key : option (list byte)) (last_seq_no : Z)
  | PcAuthor (p : PeerId)
  | PcRandomAuthor
  | PcAnonymous.

(** The first sequence number is the time in nanoseconds. *)
Definition PublishConfig_from (unix_nanos : Z) (a : MessageAuthenticity) : PublishConfig :=
  match a with
  | Signed keypair =>
      let key_enc := pk_encode (kp_public keypair) in
      PcSigning keypair (pk_to_peer_id (kp_public keypair)) (if decide (len key_enc <= 42) then None else Some key_enc) unix_nanos
  | Author peer_id => PcAuthor peer_id
  | RandomAuthor => PcRandomAuthor
  | Anonymous => PcAnonymous
  end.

Definition get_own_id (c : PublishConfig) : option PeerId :=
  match c with PcSigning _ author _ _ => Some author | PcAuthor author => Some author | _ => None end.

Definition SIGNING_PREFIX : list byte := str_as_bytes "libp2p-pubsub:".

(** [SequenceNumber::next] panics when the numbers are exhausted. *)
Definition seq_next (n : Z) : run Z := if decide (n + 1 <= u64_max) then Ret (n + 1) else Panic.

Definition unsigned_proto (author : PeerId) (data : list byte) (seqno : Z) (topic : TopicHash) : ProtoMessage := {|
  pm_from := Some (peer_to_bytes author); pm_data := Some data; pm_seqno := Some (be_bytes 8 seqno);
  pm_topic := topic_hash topic; pm_signature := None; pm_key := None |}.

Definition published_message (source : option PeerId) (data : list byte) (seqno : option Z) (topic : TopicHash)
    (signature key : option (list byte)) : RawMessage := {|
  rm_source := source; rm_data := data; rm_sequence_number := seqno; rm_topic := topic;
  rm_signature := signature; rm_key := key; rm_validated := true |}.

(** The random numbers and the random peer are those of the call. *)
Definition build_raw_message (random_number : Z) (random_peer : PeerId) (c : PublishConfig) (topic : TopicHash) (data : list byte)
    : run (result RawMessage string * PublishConfig) :=
  match c with
  | PcSigning keypair author inline_key last_seq_no =>
      let! sequence_number := seq_next last_seq_no in
      let c := PcSigning keypair author inline_key sequence_number in
      let buf := message_encode (unsigned_proto author data sequence_number topic) in
      Ret (let? signature := kp_sign keypair (SIGNING_PREFIX ++ buf) in
           Ok (published_message (Some author) data (Some sequence_number) topic (Some signature) inline_key), c)
  | PcAuthor peer_id => Ret (Ok (published_message (Some peer_id) data (Some random_number) topic None None), c)
  | PcRandomAuthor => Ret (Ok (published_message (Some random_peer) data (Some random_number) topic None None), c)
  | PcAnonymous => Ret (Ok (published_message None data None topic None None), c)
  end.

(** [validate_config] *)
Definition validate_config (a : MessageAuthenticity) (m : ValidationMode) : result unit string :=
  match m with
  | ModeAnonymous =>
      if is_signing a then Err "Cannot enable message signing with an Anonymous validation mode"%string
      else if negb (is_anonymous a) then Err "Published messages contain an author but incoming messages with an author will be rejected"%string
      else Ok tt
  | Strict => if negb (is_signing a) then Err "Messages will be published unsigned and incoming unsigned messages will be rejected"%string else Ok tt
  | _ => Ok tt
  end.

(** * Receiving: [GossipsubCodec] *)
Inductive ControlAction : Type :=
  | CaIHave (i : IHave) | CaIWant (i : IWant) | CaGraft (g : Graft) | CaPrune (p : Prune)
  | CaIDontWant (i : IDontWant) | CaExtensions (e : option Extensions).

Record RpcIn := { in_messages : list RawMessage; in_subscriptions : list Subscription; in_control_msgs : list ControlAction }.

Definition verify_signature (m : ProtoMessage) : bool :=
  match pm_from m with
  | None => false
  | Some from =>
      match peer_from_bytes from with
      | Err _ => false
      | Ok source =>
          match pm_signature m with
          | None => false
          | Some signature =>
              match match pm_key m ≫= pk_decode with
                    | Some key => Some key
                    | None => pk_decode (drop 2 (peer_to_bytes source))
                    end with
              | None => false
              | Some public_key =>
                  if decide (source ≠ pk_to_peer_id public_key) then false
                  else
                    let message_sig := {| pm_from := pm_from m; pm_data := pm_data m; pm_seqno := pm_seqno m;
                                          pm_topic := pm_topic m; pm_signature := None; pm_key := None |} in
                    pk_verify public_key (SIGNING_PREFIX ++ message_encode message_sig) signature
              end
          end
      end
  end.

(** The loop of [validate_rpc_limits] over the fields. *)
Fixpoint walk_fields (max_publish_messages max_control_message_size : Z) (fuel : nat) (buf : list byte) (publish_count control_size : Z)
    : result unit string :=
  match fuel with
  | O => Ok tt
  | Datatypes.S fuel =>
      if decide (buf = []) then Ok tt
      else
        let? x := next_field buf in
        let '(tag, rest) := x in
        if decide (tag = 2) then
          if decide (max_publish_messages < publish_count + 1) then Err "too many publish messages"%string
          else walk_fields max_publish_messages max_control_message_size fuel rest (publish_count + 1) control_size
        else if decide (tag = 1 \/ tag = 3) then
          let control_size := control_size + (len buf - len rest) in
          if decide (max_control_message_size < control_size) then Err "rpc control size exceeds max control message size"%string
          else walk_fields max_publish_messages max_control_message_size fuel rest publish_count control_size
        else walk_fields max_publish_messages max_control_message_size fuel rest publish_count control_size
  end.

Definition validate_rpc_limits (buf : list byte) (max_message_size max_publish_messages max_control_message_size : Z) : result bool string :=
  if decide (max_message_size < len buf) then Err "message exceeds maximum"%string
  else
    let? rest := consume_message_prefix buf in
    match rest with
    | None => Ok false
    | Some buf => let? _ := walk_fields max_publish_messages max_control_message_size (length buf) buf 0 0 in Ok true
    end.

(** The message that is handed over as invalid. *)
Definition invalid_raw (m : ProtoMessage) (sequence_number : option Z) (signature : option (list byte)) : RawMessage := {|
  rm_source := None; rm_data := default [] (pm_data m); rm_sequence_number := sequence_number;
  rm_topic := {| topic_hash := pm_topic m |}; rm_signature := signature; rm_key := pm_key m; rm_validated := false |}.

(** What to verify, or why not to. *)
Definition mode_checks (mode : ValidationMode) (m : ProtoMessage) : result (bool * bool * bool) ValidationError :=
  match mode with
  | Strict => Ok (true, true, true)
  | Permissive => Ok (bool_decide (is_Some (pm_signature m)), bool_decide (is_Some (pm_seqno m)), bool_decide (is_Some (pm_from m)))
  | ModeAnonymous =>
      if decide (is_Some (pm_signature m)) then Err SignaturePresent
      else if decide (is_Some (pm_seqno m)) then Err SequenceNumberPresent
      else if decide (is_Some (pm_from m)) then Err MessageSourcePresent
      else Ok (false, false, false)
  | ModeNone => Ok (false, false, false)
  end.

Definition check_seqno (verify : bool) (m : ProtoMessage) : result (option Z) ValidationError :=
  if negb verify then Ok None
  else match pm_seqno m with
       | Some seq_no =>
           if decide (seq_no = []) then Ok None
           else if decide (len seq_no ≠ 8) then Err InvalidSequenceNumber
           else Ok (Some (be_value seq_no))
       | None => Err EmptySequenceNumber
       end.

Definition check_source (verify : bool) (m : ProtoMessage) : result (option PeerId) ValidationError :=
  if negb verify then Ok None
  else match pm_from m with
       | Some (x :: l) => match peer_from_bytes (x :: l) with Ok peer_id => Ok (Some peer_id) | Err _ => Err InvalidPeerId end
       | _ => Ok None
       end.

(** One iteration of the loop of [decode]: a valid message or an invalid one. *)
Definition decode_message (mode : ValidationMode) (max_transmit_sizes : gmap TopicHash Z) (m : ProtoMessage)
    : result RawMessage (RawMessage * ValidationError) :=
  if match max_transmit_sizes !! {| topic_hash := pm_topic m |} with Some max => bool_decide (max < len (message_encode m)) | None => false end
  then Err (invalid_raw m None None, MessageSizeTooLargeForTopic)
  else
    let? checks := map_err (mode_checks mode m) (fun e => (invalid_raw m None None, e)) in
    let '(check_signature, check_sequence_no, check_peer) := checks in
    if check_signature && negb (verify_signature m) then Err (invalid_raw m None None, InvalidSignature)
    else
      let? sequence_number := map_err (check_seqno check_sequence_no m) (fun e => (invalid_raw m None (pm_signature m), e)) in
      let? source := map_err (check_source check_peer m) (fun e => (invalid_raw m sequence_number (pm_signature m), e)) in
      Ok {| rm_source := source; rm_data := default [] (pm_data m); rm_sequence_number := sequence_number;
            rm_topic := {| topic_hash := pm_topic m |}; rm_signature := pm_signature m; rm_key := pm_key m; rm_validated := false |}.

Fixpoint decode_messages (mode : ValidationMode) (sizes : gmap TopicHash Z) (l : list ProtoMessage) : list RawMessage * list (RawMessage * ValidationError) :=
  match l with
  | [] => ([], [])
  | m :: l =>
      let '(messages, invalid) := decode_messages mode sizes l in
      match decode_message mode sizes m with Ok r => (r :: messages, invalid) | Err e => (messages, e :: invalid) end
  end.

Definition topic_of (t : option string) : TopicHash := {| topic_hash := default ""%string t |}.

Definition decode_peer (i : ProtoPeerInfo) : option (option PeerId) :=
  match pp_peer_id i with
  | Some id => match peer_from_bytes id with Ok p => Some (Some p) | Err _ => None end
  | None => None
  end.

Definition decode_control (c : ControlMessage) : list ControlAction :=
  ((fun i => CaIHave {| ih_topic_hash := topic_of (ci_topic_id i); ih_message_ids := ci_message_ids i |}) <$> cm_ihave c) ++
  ((fun i => CaIWant {| iw_message_ids := cw_message_ids i |}) <$> cm_iwant c) ++
  ((fun g => CaGraft {| gr_topic_hash := topic_of (cg_topic_id g) |}) <$> cm_graft c) ++
  ((fun p => CaPrune {| pr_topic_hash := topic_of (cp_topic_id p); pr_peers := omap decode_peer (cp_peers p); pr_backoff := cp_backoff p |}) <$> cm_prune c) ++
  ((fun i => CaIDontWant {| idw_message_ids := cd_message_ids i |}) <$> cm_idontwant c) ++
  [CaExtensions ((fun e => {| partial_messages := ce_partial_messages e |}) <$> cm_extensions c)].

Definition decode_subscription (s : SubOpts) : Subscription := {|
  sb_action := if decide (so_subscribe s = Some true) then Subscribe else Unsubscribe;
  sb_topic := topic_of (so_topic_id s);
  sb_options := {| requests_partial := default false (so_requests_partial s); supports_partial := default false (so_supports_partial s) |} |}.

(** [Decoder::decode] on the parsed RPC. *)
Definition decode_rpc (mode : ValidationMode) (sizes : gmap TopicHash Z) (rpc : ProtoRpc) : RpcIn * list (RawMessage * ValidationError) :=
  let '(messages, invalid_messages) := decode_messages mode sizes (rpc_publish rpc) in
  ({| in_messages := messages; in_subscriptions := decode_subscription <$> rpc_subscriptions rpc;
      in_control_msgs := decode_control (default ControlMessage_default (rpc_control rpc)) |}, invalid_messages).

(** [Encoder::encode]. *)
Definition codec_encode (c : ProtocolConfig) (item : ProtoRpc) : result (list byte) string :=
  rpc_encode (pc_default_max_transmit_size c) item.

(** [Decoder::decode]. *)
Definition codec_decode (c : ProtocolConfig) (src : list byte)
    : result (option (RpcIn * list (RawMessage * ValidationError) * list byte)) string :=
  let? valid := validate_rpc_limits src (pc_default_max_transmit_size c) (pc_max_publish_messages c) (pc_max_control_message_size c) in
  if negb valid then Ok None
  else
    let? x := rpc_decode (pc_default_max_transmit_size c) src in
    match x with
    | None => Ok None
    | Some (rpc, rest) => Ok (Some (decode_rpc (pc_validation_mode c) (pc_max_transmit_sizes c) rpc, rest))
    end.

(** * What survives the wire *)

Definition unvalidated (m : RawMessage) : RawMessage := {|
  rm_source := rm_source m; rm_data := rm_data m; rm_sequence_number := rm_sequence_number m; rm_topic := rm_topic m;
  rm_signature := rm_signature m; rm_key := rm_key m; rm_validated := false |}.

(** The configuration of a node that signs, at any point of its life. *)
Definition signing_config (keypair : Keypair) (last_seq_no : Z) : PublishConfig :=
  match PublishConfig_from 0 (Signed keypair) with
  | PcSigning k author inline_key _ => PcSigning k author inline_key last_seq_no
  | c => c
  end.

Lemma verify_published {PL : PeerIdLaws P} {SL : SigningLaws S} keypair author key data seqno topic sg :
  author = pk_to_peer_id (kp_public keypair) ->
  key = (if decide (len (pk_encode (kp_public keypair)) <= 42) then None else Some (pk_encode (kp_public keypair))) ->
  kp_sign keypair (SIGNING_PREFIX ++ message_encode (unsigned_proto author data seqno topic)) = Ok sg ->
  verify_signature (proto_message_of (published_message (Some author) data (Some seqno) topic (Some sg) key)) = true.
Proof.
  intros -> -> Hs. unfold verify_signature. cbn [proto_message_of published_message pm_from pm_signature pm_key pm_data pm_seqno pm_topic
    rm_source rm_data rm_sequence_number rm_topic rm_signature rm_key fmap option_fmap option_map].
  rewrite peer_from_to_bytes.
  assert (Hk : match (if decide (len (pk_encode (kp_public keypair)) <= 42) then None else Some (pk_encode (kp_public keypair))) ≫= pk_decode with
               | Some key => Some key
               | None => pk_decode (drop 2 (peer_to_bytes (pk_to_peer_id (kp_public keypair)))) end = Some (kp_public keypair)).
  { case_decide as Hl; cbn [mbind option_bind]; [by rewrite inlined_key, pk_decode_encode|by rewrite pk_decode_encode]. }
  rewrite Hk. rewrite decide_False by tauto. by apply sign_verifies.
Qed.

(** A strict node takes over the message a signing node built, as long as it is
    within the limit of its topic. *)
Lemma built_message_decodes {PL : PeerIdLaws P} {SL : SigningLaws S} keypair last_seq_no topic data m c random_number random_peer id timeout sizes :
  0 <= last_seq_no ->
  build_raw_message random_number random_peer (signing_config keypair last_seq_no) topic data = Ret (Ok m, c) ->
  (forall max, sizes !! topic = Some max -> raw_protobuf_len m <= max) ->
  decode_rpc Strict sizes (into_protobuf (RpcPublish id m timeout))
  = ({| in_messages := [unvalidated m]; in_subscriptions := []; in_control_msgs := [CaExtensions None] |}, []) /\
  rm_source m = Some (pk_to_peer_id (kp_public keypair)) /\ rm_data m = data /\ rm_topic m = topic /\
  rm_sequence_number m = Some (last_seq_no + 1) /\ c = signing_config keypair (last_seq_no + 1).
Proof.
  intros Hn. unfold signing_config, PublishConfig_from. cbn [build_raw_message]. unfold seq_next. case_decide as Hseq; [cbn [run_bind]|done].
  intros E Hmax. destruct (kp_sign _ _) as [sg|] eqn:Es; cbn [result_bind] in E; [|done]. injection E as <- <-.
  split; [|done]. unfold decode_rpc, into_protobuf. cbn [rpc_publish rpc_subscriptions rpc_control decode_messages].
  unfold decode_message.
  replace (match sizes !! _ with Some max => _ | None => false end) with false.
  2: { destruct topic as [t]. cbn [proto_message_of pm_topic rm_topic topic_hash published_message].
       destruct (sizes !! _) as [max|] eqn:Em; [|done]. symmetry. apply bool_decide_eq_false. specialize (Hmax max eq_refl). unfold raw_protobuf_len in Hmax. lia. }
  cbn [mode_checks map_err result_bind].
  rewrite (verify_published keypair) by done. cbn [negb andb].
  unfold check_seqno, check_source. cbn [negb proto_message_of published_message pm_seqno pm_from rm_sequence_number rm_source fmap option_fmap option_map].
  rewrite decide_False by (intros E; apply (f_equal length) in E; by rewrite length_be_bytes in E).
  rewrite decide_False by (unfold len; rewrite length_be_bytes; intros []; done). cbn [map_err result_bind].
  rewrite be_value_bytes by (unfold u64_max in *; cbn; lia).
  pose proof (peer_from_to_bytes (pk_to_peer_id (kp_public keypair))) as Hp.
  pose proof (peer_id_bytes (kp_public keypair)) as Hb.
  destruct (peer_to_bytes (pk_to_peer_id (kp_public keypair))) as [|x l] eqn:Ex; [done|].
  rewrite Hp. cbn. by destruct topic.
Qed.

Lemma elem_of_decode_messages mode sizes l m :
  m ∈ fst (decode_messages mode sizes l) -> exists pm, pm ∈ l /\ decode_message mode sizes pm = Ok m.
Proof.
  induction l as [|pm l IH]; cbn [decode_messages]; [by intros ?%not_elem_of_nil|].
  destruct (decode_messages mode sizes l) as [ms bad]. destruct (decode_message mode sizes pm) as [r|] eqn:E; cbn [fst] in *.
  - intros [->|H]%elem_of_cons; [exists pm; split; [by left|done]|]. apply IH in H as (x & ? & ?). exists x. split; [by right|done].
  - intros H. apply IH in H as (x & ? & ?). exists x. split; [by right|done].
Qed.

Lemma verify_signature_true m :
  verify_signature m = true ->
  exists bytes source signature key,
    pm_from m = Some bytes /\ peer_from_bytes bytes = Ok source /\ pm_signature m = Some signature /\ pk_to_peer_id key = source /\
    pk_verify key (SIGNING_PREFIX ++ message_encode {|
      pm_from := pm_from m; pm_data := pm_data m; pm_seqno := pm_seqno m; pm_topic := pm_topic m; pm_signature := None; pm_key := None |}) signature = true.
Proof.
  unfold verify_signature. destruct (pm_from m) as [bytes|]; [|done]. destruct (peer_from_bytes bytes) as [source|] eqn:Ep; [|done].
  destruct (pm_signature m) as [sg|]; [|done]. destruct (match pm_key m ≫= pk_decode with Some _ => _ | None => _ end) as [key|]; [|done].
  destruct (decide (source ≠ pk_to_peer_id key)) as [|Hk]; [done|]. intros Hv. exists bytes, source, sg, key.
  split_and!; [done|done|done| |done]. by destruct (decide (source = pk_to_peer_id key)).
Qed.

(** C21: A strictly validating node takes over only messages that their author
    signed: the message has a source, its signature verifies under a key whose
    peer id is that source, and what is signed is the source, the payload, the
    sequence number and the topic that are handed on. *)
Theorem strict_accepts_only_signed sizes rpc r invalid m :
  is_ok (peer_from_bytes []) = false ->
  decode_rpc Strict sizes rpc = (r, invalid) -> m ∈ in_messages r ->
  exists source key signature pm,
    pm ∈ rpc_publish rpc /\ rm_source m = Some source /\ rm_signature m = Some signature /\ pk_to_peer_id key = source /\
    pk_verify key (SIGNING_PREFIX ++ message_encode {|
      pm_from := pm_from pm; pm_data := pm_data pm; pm_seqno := pm_seqno pm; pm_topic := pm_topic pm; pm_signature := None; pm_key := None |}) signature = true /\
    (exists bytes, pm_from pm = Some bytes /\ peer_from_bytes bytes = Ok source) /\
    rm_data m = default [] (pm_data pm) /\ rm_topic m = {| topic_hash := pm_topic pm |} /\
    (exists seqno, pm_seqno pm = Some seqno /\ (seqno = [] /\ rm_sequence_number m = None \/ len seqno = 8 /\ rm_sequence_number m = Some (be_value seqno))).
Proof.
  intros Hnil E Hm. unfold decode_rpc in E. destruct (decode_messages _ _ _) as [ms bad] eqn:Em. injection E as <- <-. cbn [in_messages] in Hm.
  pose proof (elem_of_decode_messages Strict sizes (rpc_publish rpc) m) as Hd. rewrite Em in Hd. destruct (Hd Hm) as (pm & Hpm & Hdec). clear Hd Em.
  unfold decode_message in Hdec. destruct (match sizes !! _ with Some _ => _ | None => _ end); [done|].
  cbn [mode_checks map_err result_bind andb] in Hdec. destruct (verify_signature pm) eqn:Ev; cbn [negb] in Hdec; [|done].
  apply verify_signature_true in Ev as (bytes & source & sg & key & Hf & Hp & Hsg & Hk & Hv).
  unfold check_seqno, check_source in Hdec. cbn [negb] in Hdec. rewrite Hf in Hdec.
  destruct bytes as [|b0 bytes]; [by rewrite Hp in Hnil|]. rewrite Hp in Hdec.
  exists source, key, sg, pm.
  assert (Hseq : exists seqno n, pm_seqno pm = Some seqno /\ (seqno = [] /\ n = None \/ len seqno = 8 /\ n = Some (be_value seqno)) /\
    m = {| rm_source := Some source; rm_data := default [] (pm_data pm); rm_sequence_number := n; rm_topic := {| topic_hash := pm_topic pm |};
           rm_signature := pm_signature pm; rm_key := pm_key pm; rm_validated := false |}).
  { destruct (pm_seqno pm) as [seqno|]; [|done]. destruct (decide (seqno = [])) as [->|].
    - exists [], None. cbn [map_err result_bind] in Hdec. injection Hdec as <-. split_and!; [done|by left|done].
    - destruct (decide (len seqno ≠ 8)); [done|]. exists seqno, (Some (be_value seqno)). cbn [map_err result_bind] in Hdec. injection Hdec as <-.
      split_and!; [done|right; split; [lia|done]|done]. }
  destruct Hseq as (seqno & n & Hs & Hn & ->).
  split_and!; try done.

  - eauto.
  - exists seqno. split; [done|exact Hn].
Qed.

(** What the receiver of an RPC that is no published message gets. *)
Definition received (rpc : RpcOut) : RpcIn :=
  let control actions := {| in_messages := []; in_subscriptions := []; in_control_msgs := actions |} in
  let subscriptions l := {| in_messages := []; in_subscriptions := l; in_control_msgs := [CaExtensions None] |} in
  let sub a '(t, r, p) := {| sb_action := a; sb_topic := t; sb_options := {| requests_partial := r; supports_partial := p |} |} in
  match rpc with
  | RpcIHave i => control [CaIHave i; CaExtensions None]
  | RpcIWant i => control [CaIWant i; CaExtensions None]
  | RpcGraft g => control [CaGraft g; CaExtensions None]
  | RpcPrune p => control [CaPrune {| pr_topic_hash := pr_topic_hash p; pr_peers := filter is_Some (pr_peers p); pr_backoff := pr_backoff p |}; CaExtensions None]
  | RpcIDontWant i => control [CaIDontWant i; CaExtensions None]
  | RpcExtensions e => control [CaExtensions (Some e)]
  | RpcSubscribe t r p => subscriptions [sub Subscribe (t, r, p)]
  | RpcSubscribeMany l => subscriptions (sub Subscribe <$> l)
  | RpcUnsubscribe t => subscriptions [sub Unsubscribe (t, false, false)]
  | RpcPublish _ _ _ | RpcTestExtension => control [CaExtensions None]
  end.

Lemma decode_peers {PL : PeerIdLaws P} (l : list (option PeerId)) :
  omap decode_peer ((fun i => {| pp_peer_id := peer_to_bytes <$> i; pp_signed_peer_record := None |}) <$> l) = filter is_Some l.
Proof.
  induction l as [|[p|] l IH]; [done|..].
  - rewrite filter_cons_True by done. rewrite <- IH. cbn [fmap list_fmap omap list_omap].
    unfold decode_peer at 1. cbn [pp_peer_id fmap option_fmap option_map]. by rewrite peer_from_to_bytes.
  - rewrite filter_cons_False by (intros [? ?]; done). by rewrite <- IH.
Qed.

(** Every RPC but a published message survives the wire: what the codec of
    any node reads from its protobuf form is the same control message or the
    same subscriptions (of a PRUNE, the proposed peers that have an id), with no
    message and nothing invalid. *)
Theorem control_rpc_round_trips {PL : PeerIdLaws P} mode sizes rpc :
  (forall id m t, rpc ≠ RpcPublish id m t) ->
  decode_rpc mode sizes (into_protobuf rpc) = (received rpc, []).
Proof.
  intros Hp. destruct rpc as [| | | |g|p|i|i|i|e|]; try (by destruct (Hp message_id message timeout)); unfold decode_rpc, received; cbn -[decode_peer];
    unfold topic_of, decode_subscription; cbn -[decode_peer].
  - by destruct topic.
  - do 2 f_equal. rewrite <- list_fmap_compose. apply list_fmap_ext. intros _ [[[] ?] ?] _. done.
  - by destruct topic.
  - by destruct g as [[]].
  - rewrite decode_peers. by destruct p as [[]].
  - by destruct i as [[]].
  - by destruct i.
  - by destruct i.
  - by destruct e.
  - done.
Qed.

(** * The limits on an RPC *)

(** The fields of an encoded RPC: their tags and sizes. *)
Fixpoint fields (fuel : nat) (buf : list byte) : result (list (Z * Z)) string :=
  match fuel with
  | O => Ok []
  | Datatypes.S fuel =>
      if decide (buf = []) then Ok []
      else
        let? x := next_field buf in
        let? l := fields fuel x.2 in
        Ok ((x.1, len buf - len x.2) :: l)
  end.

Definition publish_count (l : list (Z * Z)) : Z := len (filter (fun x => x.1 = 2) l).
Definition control_size (l : list (Z * Z)) : Z := foldr (fun x z => (if decide (x.1 = 1 \/ x.1 = 3) then x.2 else 0) + z) 0 l.

Lemma publish_count_cons t z l : publish_count ((t, z) :: l) = (if decide (t = 2) then 1 else 0) + publish_count l.
Proof. unfold publish_count, len. rewrite filter_cons. cbn [fst]. repeat case_decide; try done. cbn [length]. lia. Qed.

Lemma fields_nonneg {LL : ProstLaws L} fuel buf l : fields fuel buf = Ok l -> 0 <= control_size l /\ 0 <= publish_count l.
Proof.
  revert buf l. induction fuel as [|fuel IH]; intros buf l; cbn [fields]; [by intros [= <-]|].
  case_decide; [by intros [= <-]|]. destruct (next_field buf) as [[t rest]|] eqn:E; cbn [result_bind fst snd]; [|done].
  destruct (fields fuel rest) as [l'|] eqn:El; cbn [result_bind]; [|done]. intros [= <-]. apply IH in El as [H1 H2].
  apply next_field_shorter in E. rewrite publish_count_cons. unfold control_size in *. cbn [foldr fst snd].
  unfold len in *. repeat case_decide; lia.
Qed.

Lemma walk_fields_exact {LL : ProstLaws L} mp mc fuel buf pc cs :
  pc <= mp -> cs <= mc ->
  walk_fields mp mc fuel buf pc cs = Ok tt <->
  exists l, fields fuel buf = Ok l /\ pc + publish_count l <= mp /\ cs + control_size l <= mc.
Proof.
  revert buf pc cs. induction fuel as [|fuel IH]; intros buf pc cs Hp Hc; cbn [walk_fields fields].
  { split; [|done]. intros _. exists []. unfold publish_count, control_size, len. cbn. split_and!; [done|lia..]. }
  case_decide. { split; [|done]. intros _. exists []. unfold publish_count, control_size, len. cbn. split_and!; [done|lia..]. }
  destruct (next_field buf) as [[t rest]|] eqn:E; cbn [result_bind fst snd]; [|split; [done|intros (l & ? & _); done]].
  apply next_field_shorter in E.
  assert (Hx : forall pc' cs', pc' <= mp -> cs' <= mc -> pc' = pc + (if decide (t = 2) then 1 else 0) ->
      cs' = cs + (if decide (t = 1 \/ t = 3) then len buf - len rest else 0) ->
      walk_fields mp mc fuel rest pc' cs' = Ok tt <->
      exists l, (let? l := fields fuel rest in Ok ((t, len buf - len rest) :: l)) = Ok l /\ pc + publish_count l <= mp /\ cs + control_size l <= mc).
  { intros pc' cs' Hp' Hc' -> ->. rewrite IH by done. split.
    - intros (l & -> & H1 & H2). cbn [result_bind]. eexists. split; [done|]. rewrite publish_count_cons.
      unfold control_size in *. cbn [foldr fst snd]. lia.
    - intros (l & El & H1 & H2). destruct (fields fuel rest) as [l'|]; cbn [result_bind] in El; [|done]. injection El as <-.
      exists l'. rewrite publish_count_cons in H1. unfold control_size in *. cbn [foldr fst snd] in H2. split_and!; [done|lia..]. }
  assert (Hover : (exists l, (let? l := fields fuel rest in Ok ((t, len buf - len rest) :: l)) = Ok l /\ pc + publish_count l <= mp /\ cs + control_size l <= mc) ->
      pc + (if decide (t = 2) then 1 else 0) <= mp /\ cs + (if decide (t = 1 \/ t = 3) then len buf - len rest else 0) <= mc).
  { intros (l & El & H1 & H2). destruct (fields fuel rest) as [l'|] eqn:El'; cbn [result_bind] in El; [|done]. injection El as <-.
    apply fields_nonneg in El' as [? ?]. rewrite publish_count_cons in H1. unfold control_size in *. cbn [foldr fst snd] in H2. lia. }
  destruct (decide (t = 2)) as [->|Ht].
  - destruct (decide (mp < pc + 1)); [split; [done|]; intros Hf; apply Hover in Hf; lia|]. apply Hx; try done; [lia|rewrite decide_False by lia; lia].
  - destruct (decide (t = 1 \/ t = 3)).
    + destruct (decide (mc < cs + (len buf - len rest))); [split; [done|]; intros Hf; apply Hover in Hf; lia|]. apply Hx; [lia|lia|lia|lia].
    + apply Hx; lia.
Qed.

(** C27: The walk over the undecoded bytes enforces exactly the limits: an RPC
    is passed on to be decoded if and only if it is no longer than allowed, its
    fields can be read, it has no more published messages than allowed and its
    subscriptions and control messages together take no more bytes than
    allowed.  (The comments on the limit speak of each of them: see
    [control_limit_is_on_the_sum].) *)
Theorem rpc_limits_exact {LL : ProstLaws L} buf max_size max_publish max_control :
  0 <= max_publish -> 0 <= max_control ->
  validate_rpc_limits buf max_size max_publish max_control = Ok true <->
  len buf <= max_size /\
  exists body l, consume_message_prefix buf = Ok (Some body) /\ fields (length body) body = Ok l /\
    publish_count l <= max_publish /\ control_size l <= max_control.
Proof.
  intros Hp Hc. unfold validate_rpc_limits. case_decide; [split; [done|intros [? _]; lia]|].
  destruct (consume_message_prefix buf) as [[body|]|] eqn:E; cbn [result_bind].
  - pose proof (walk_fields_exact max_publish max_control (length body) body 0 0 Hp Hc) as Hw.
    destruct (walk_fields _ _ _ _ _ _) as [[]|]; cbn [result_bind].
    + split; [|done]. intros _. split; [lia|]. destruct Hw as [Hw _]. destruct (Hw eq_refl) as (l & ? & ? & ?). by exists body, l.
    + split; [done|]. intros (_ & body' & l & [= <-] & ? & ? & ?). destruct Hw as [_ Hw]. discriminate Hw. by exists l.
  - split; [done|]. by intros (_ & ? & ? & ? & _).
  - split; [done|]. by intros (_ & ? & ? & ? & _).
Qed.
(** What the comments on the limit do not say: an RPC is refused although each of
    its subscriptions and control messages is within the limit, when together
    they exceed it. *)
Theorem control_limit_is_on_the_sum {LL : ProstLaws L} buf body max_size max_publish max_control subscriptions control :
  0 <= max_publish -> consume_message_prefix buf = Ok (Some body) -> fields (length body) body = Ok [(1, subscriptions); (3, control)] ->
  subscriptions <= max_control -> control <= max_control -> max_control < subscriptions + control ->
  validate_rpc_limits buf max_size max_publish max_control <> Ok true.
Proof.
  intros Hp Eb Ef H1 H2 H3. unfold validate_rpc_limits. case_decide; [done|]. rewrite Eb. cbn [result_bind].
  assert (control_size [(1, subscriptions); (3, control)] = subscriptions + control) as Es.
  { unfold control_size. cbn [foldr fst snd]. rewrite !decide_True by lia. lia. }
  pose proof (fields_nonneg _ _ _ Ef) as [Hc _]. rewrite Es in Hc.
  pose proof (walk_fields_exact max_publish max_control (length body) body 0 0 Hp ltac:(lia)) as Hw.
  destruct (walk_fields _ _ _ _ _ _) as [[]|]; cbn [result_bind]; [|done]. exfalso.
  destruct Hw as [Hw _]. destruct (Hw eq_refl) as (l & El & _ & Hs). rewrite Ef in El. injection El as <-. lia.
Qed.

(** * Over the wire *)

(** The fields of the schema, in the order of their tags. *)
Definition rpc_tags (rpc : ProtoRpc) : list Z :=
  replicate (length (rpc_subscriptions rpc)) 1 ++ replicate (length (rpc_publish rpc)) 2 ++ (if rpc_control rpc is Some _ then [3] else []).

(** What the codec writes it reads, as long as the reader allows the length; and
    the fields of what it writes are those of the RPC. *)
Class WireLaws : Prop := {
  rpc_decode_encode max max' rpc bs : rpc_encode max rpc = Ok bs -> len bs <= max' -> rpc_decode max' bs = Ok (Some (rpc, []));
  rpc_encode_fields max rpc bs : rpc_encode max rpc = Ok bs ->
    exists body l, consume_message_prefix bs = Ok (Some body) /\ fields (length body) body = Ok l /\ l.*1 = rpc_tags rpc;
}.

(** C22: A message a signing node publishes is accepted by a node that validates
    strictly.  Built with [build_raw_message], encoded as an RPC by the codec of
    the sender and decoded by that of the receiver, limits included, it arrives
    with its author, its payload, its sequence number and its topic, and nothing
    else with it; provided the frame is no longer than the receiver's transmit
    size, the message no larger than its limit for the topic, if it has one, and
    at least one published message is allowed in an RPC. *)
Theorem published_message_is_accepted {PL : PeerIdLaws P} {SL : SigningLaws S} {LL : ProstLaws L} {W : WireLaws}
    keypair last_seq_no topic data m c random_number random_peer id timeout sender receiver bs :
  0 <= last_seq_no ->
  build_raw_message random_number random_peer (signing_config keypair last_seq_no) topic data = Ret (Ok m, c) ->
  codec_encode sender (into_protobuf (RpcPublish id m timeout)) = Ok bs ->
  pc_validation_mode receiver = Strict -> len bs <= pc_default_max_transmit_size receiver ->
  1 <= pc_max_publish_messages receiver -> 0 <= pc_max_control_message_size receiver ->
  (forall max, pc_max_transmit_sizes receiver !! topic = Some max -> raw_protobuf_len m <= max) ->
  codec_decode receiver bs =
    Ok (Some ({| in_messages := [unvalidated m]; in_subscriptions := []; in_control_msgs := [CaExtensions None] |}, [], [])) /\
  rm_source m = Some (pk_to_peer_id (kp_public keypair)) /\ rm_data m = data /\ rm_topic m = topic /\
  rm_sequence_number m = Some (last_seq_no + 1) /\ c = signing_config keypair (last_seq_no + 1).
Proof.
  intros Hn Hb He Hmode Hlen Hpub Hctl Hmax.
  destruct (built_message_decodes keypair last_seq_no topic data m c random_number random_peer id timeout _ Hn Hb Hmax) as [Hd Hrest].
  split; [|done]. unfold codec_decode, validate_rpc_limits. rewrite decide_False by lia.
  destruct (rpc_encode_fields _ _ _ He) as (body & l & -> & Ef & Et). cbn [result_bind].
  assert (walk_fields (pc_max_publish_messages receiver) (pc_max_control_message_size receiver) (length body) body 0 0 = Ok tt) as ->.
  { apply walk_fields_exact; [lia|lia|]. exists l. split; [done|]. destruct l as [|[t z] [|? ?]]; [done| |done]. injection Et as ->.
    rewrite publish_count_cons, decide_True by done. unfold control_size, publish_count. cbn [foldr fst snd filter list_filter]. rewrite decide_False by lia.
    change (len []) with 0. lia. }
  cbn [result_bind negb]. rewrite (rpc_decode_encode _ _ _ _ He Hlen). cbn [result_bind]. by rewrite Hmode, Hd.
Qed.
End protocol.
