(* ===== verification/GsRouter.v ===== *)
(** The state of the gossipsub router
    (external/libp2p-gossipsub/src/behaviour.rs): what the [Behaviour] keeps, the
    monad its operations run in, and the helpers they share, from
    [send_message] to the choice of random peers. *)

From S2P Require Import Prelude Bytes BTree Common Float64 AppMessage Storage GsTimeCache GsBackoff GsMessageCache GsSubscriptions GsQueue GsConfig GsScore GsProtocol.
From Stdlib Require Import Strings.Byte.

#[local] Open Scope Z_scope.

(** The [rand] crate, on the state of the thread's generator. *)
Class RandLib {P : PeerIdLib} := {
  Rng : Type;
  shuffle : forall {A}, Rng -> list A -> list A * Rng;
  sample : forall {A}, Rng -> nat -> list A -> list A * Rng;
  random_u64 : Rng -> Z * Rng;
  random_peer_id : Rng -> PeerId * Rng;
}.

(** [shuffle] permutes; [sample] takes as many as there are, up to the number. *)
Class RandLaws {P : PeerIdLib} (R : RandLib) : Prop := {
  shuffle_perm {A} g (l : list A) : fst (shuffle g l) ≡ₚ l;
  sample_perm {A} g n (l : list A) : exists rest, fst (sample g n l) ++ rest ≡ₚ l;
  sample_length {A} g n (l : list A) : length (fst (sample g n l)) = Nat.min n (length l);
}.

(** What the router asks of the scores of its peers
    (external/libp2p-gossipsub/src/peer_score.rs), which are modelled with the
    operations that implement this interface in their own file.  The operations that
    read the clock get the instant. *)
Class PeerScoreLib {P : PeerIdLib} := {
  ScoreState : Type;
  ps_new : PeerScoreParams -> PeerScoreThresholds -> bool -> ScoreState;
  ps_score : ScoreState -> PeerId -> f64;
  ps_thresholds : ScoreState -> PeerScoreThresholds;
  ps_graft : Z -> PeerId -> TopicHash -> ScoreState -> ScoreState;
  ps_prune : PeerId -> TopicHash -> ScoreState -> ScoreState;
  ps_add_penalty : PeerId -> Z -> ScoreState -> ScoreState;
  ps_reject_message : Z -> PeerId -> list byte -> TopicHash -> RejectReason -> ScoreState -> ScoreState;
  ps_reject_invalid_message : PeerId -> TopicHash -> ScoreState -> ScoreState;
  ps_duplicated_message : Z -> PeerId -> list byte -> TopicHash -> ScoreState -> ScoreState;
  ps_validate_message : Z -> PeerId -> list byte -> TopicHash -> ScoreState -> ScoreState;
  ps_deliver_message : Z -> PeerId -> list byte -> TopicHash -> ScoreState -> ScoreState;
  ps_failed_message_slow_peer : PeerId -> ScoreState -> ScoreState;
  ps_add_peer : PeerId -> ScoreState -> ScoreState;
  ps_remove_peer : Z -> PeerId -> ScoreState -> ScoreState;
  ps_add_ip : PeerId -> IpAddr -> ScoreState -> ScoreState;
  ps_remove_ip : PeerId -> IpAddr -> ScoreState -> ScoreState;
  ps_refresh_scores : Z -> ScoreState -> ScoreState;
  ps_set_application_score : PeerId -> f64 -> ScoreState -> bool * ScoreState;
  ps_set_topic_params : TopicHash -> TopicScoreParams -> ScoreState -> ScoreState;
  ps_get_topic_params : ScoreState -> TopicHash -> option TopicScoreParams;
}.

(** [DataTransform] (external/libp2p-gossipsub/src/transform.rs) *)
Class DataTransform {P : PeerIdLib} (D : Type) := {
  inbound_transform : D -> RawMessage -> result Message string;
  outbound_transform : D -> TopicHash -> list byte -> result (list byte) string;
}.

Record IdentityTransform := IdentityT {}.
#[export] Instance identity_transform {P : PeerIdLib} : DataTransform IdentityTransform := {
  inbound_transform _ m := Ok {| ms_source := rm_source m; ms_data := rm_data m; ms_sequence_number := rm_sequence_number m; ms_topic := rm_topic m |};
  outbound_transform _ _ data := Ok data }.

Record FailedMessages := { fm_priority : Z; fm_non_priority : Z }.
Inductive MessageAcceptance : Type := Accept | Reject | Ignore.
Inductive PublishError : Type :=
  | Duplicate | SigningError (e : string) | NoPeersSubscribedToTopic | MessageTooLarge | TransformFailed (e : string) | AllQueuesFull (n : Z).
Inductive SubscriptionError : Type := NotAllowed.

Section router.
Context {P : PeerIdLib} {K : KeypairLib} {S : SigningLib} {L : ProstLib} {R : RandLib} {PS : PeerScoreLib} `{InstantLib}.
Context {Fl : Type} {TF : TopicSubscriptionFilter Fl} {D : Type} {DT : DataTransform D}.
Context `{!HashIter PeerId} `{!HashIter TopicHash} `{!HashIter (list byte)} `{!HashIter Subscription} `{!HashIter (TopicHash * PeerId)}.

Local Abbreviation MsgId := (list byte).
Local Abbreviation ConnectionId := Z.

Record PeerDetails := {
  pd_kind : PeerKind;
  pd_extensions : option Extensions;
  pd_outbound : bool;
  pd_connections : list ConnectionId;
  pd_topics : gset TopicHash;
  pd_dont_send : list (MsgId * Z);
  pd_messages : QueueStore;
}.

Definition upd_pd_kind (g : PeerKind -> PeerKind) (s : PeerDetails) : PeerDetails := {|
  pd_kind := g (pd_kind s); pd_extensions := pd_extensions s; pd_outbound := pd_outbound s;
  pd_connections := pd_connections s; pd_topics := pd_topics s; pd_dont_send := pd_dont_send s;
  pd_messages := pd_messages s |}.
Definition upd_pd_extensions (g : option Extensions -> option Extensions) (s : PeerDetails) : PeerDetails := {|
  pd_kind := pd_kind s; pd_extensions := g (pd_extensions s); pd_outbound := pd_outbound s;
  pd_connections := pd_connections s; pd_topics := pd_topics s; pd_dont_send := pd_dont_send s;
  pd_messages := pd_messages s |}.
Definition upd_pd_outbound (g : bool -> bool) (s : PeerDetails) : PeerDetails := {|
  pd_kind := pd_kind s; pd_extensions := pd_extensions s; pd_outbound := g (pd_outbound s);
  pd_connections := pd_connections s; pd_topics := pd_topics s; pd_dont_send := pd_dont_send s;
  pd_messages := pd_messages s |}.
Definition upd_pd_connections (g : list ConnectionId -> list ConnectionId) (s : PeerDetails) : PeerDetails := {|
  pd_kind := pd_kind s; pd_extensions := pd_extensions s; pd_outbound := pd_outbound s;
  pd_connections := g (pd_connections s); pd_topics := pd_topics s; pd_dont_send := pd_dont_send s;
  pd_messages := pd_messages s |}.
Definition upd_pd_topics (g : gset TopicHash -> gset TopicHash) (s : PeerDetails) : PeerDetails := {|
  pd_kind := pd_kind s; pd_extensions := pd_extensions s; pd_outbound := pd_outbound s;
  pd_connections := pd_connections s; pd_topics := g (pd_topics s); pd_dont_send := pd_dont_send s;
  pd_messages := pd_messages s |}.
Definition upd_pd_dont_send (g : list (MsgId * Z) -> list (MsgId * Z)) (s : PeerDetails) : PeerDetails := {|
  pd_kind := pd_kind s; pd_extensions := pd_extensions s; pd_outbound := pd_outbound s;
  pd_connections := pd_connections s; pd_topics := pd_topics s; pd_dont_send := g (pd_dont_send s);
  pd_messages := pd_messages s |}.
Definition upd_pd_messages (g : QueueStore -> QueueStore) (s : PeerDetails) : PeerDetails := {|
  pd_kind := pd_kind s; pd_extensions := pd_extensions s; pd_outbound := pd_outbound s;
  pd_connections := pd_connections s; pd_topics := pd_topics s; pd_dont_send := pd_dont_send s;
  pd_messages := g (pd_messages s) |}.

Inductive HandlerIn : Type := JoinedMesh | LeftMesh.

Inductive GsEvent : Type :=
  | EvMessage (propagation_source : PeerId) (message_id : MsgId) (message : Message)
  | EvSubscribed (peer_id : PeerId) (topic : TopicHash)
  | EvUnsubscribed (peer_id : PeerId) (topic : TopicHash)
  | EvGossipsubNotSupported (peer_id : PeerId)
  | EvSlowPeer (peer_id : PeerId) (failed_messages : FailedMessages).

Inductive ToSwarm : Type :=
  | GenerateEvent (e : GsEvent)
  | NotifyHandler (peer_id : PeerId) (event : HandlerIn) (connection : ConnectionId)
  | DialPeer (peer_id : PeerId).

(** The thread's random generator is kept with the state; the heartbeat timer is
    an input of [poll]. *)
Record Behaviour := {
  gs_config : Config;
  gs_events : list ToSwarm;
  gs_publish_config : PublishConfig;
  gs_duplicate_cache : TimeCache MsgId unit;
  gs_connected_peers : gmap PeerId PeerDetails;
  gs_explicit_peers : gset PeerId;
  gs_blacklisted_peers : gset PeerId;
  gs_mesh : gmap TopicHash (gset PeerId);
  gs_fanout : gmap TopicHash (gset PeerId);
  gs_fanout_last_pub : gmap TopicHash Z;
  gs_backoffs : BackoffStorage;
  gs_mcache : MessageCache;
  gs_heartbeat_ticks : Z;
  gs_px_peers : gset PeerId;
  gs_peer_score : option ScoreState;
  gs_count_received_ihave : gmap PeerId Z;
  gs_count_sent_iwant : gmap PeerId Z;
  gs_subscription_filter : Fl;
  gs_data_transform : D;
  gs_failed_messages : gmap PeerId FailedMessages;
  gs_gossip_promises : gmap MsgId (gmap PeerId Z);
  gs_rng : Rng;
}.

Definition upd_gs_config (g : Config -> Config) (s : Behaviour) : Behaviour := {|
  gs_config := g (gs_config s); gs_events := gs_events s; gs_publish_config := gs_publish_config s;
  gs_duplicate_cache := gs_duplicate_cache s; gs_connected_peers := gs_connected_peers s;
  gs_explicit_peers := gs_explicit_peers s; gs_blacklisted_peers := gs_blacklisted_peers s; gs_mesh := gs_mesh s;
  gs_fanout := gs_fanout s; gs_fanout_last_pub := gs_fanout_last_pub s; gs_backoffs := gs_backoffs s;
  gs_mcache := gs_mcache s; gs_heartbeat_ticks := gs_heartbeat_ticks s; gs_px_peers := gs_px_peers s;
  gs_peer_score := gs_peer_score s; gs_count_received_ihave := gs_count_received_ihave s;
  gs_count_sent_iwant := gs_count_sent_iwant s; gs_subscription_filter := gs_subscription_filter s;
  gs_data_transform := gs_data_transform s; gs_failed_messages := gs_failed_messages s;
  gs_gossip_promises := gs_gossip_promises s; gs_rng := gs_rng s |}.
Definition upd_gs_events (g : list ToSwarm -> list ToSwarm) (s : Behaviour) : Behaviour := {|
  gs_config := gs_config s; gs_events := g (gs_events s); gs_publish_config := gs_publish_config s;
  gs_duplicate_cache := gs_duplicate_cache s; gs_connected_peers := gs_connected_peers s;
  gs_explicit_peers := gs_explicit_peers s; gs_blacklisted_peers := gs_blacklisted_peers s; gs_mesh := gs_mesh s;
  gs_fanout := gs_fanout s; gs_fanout_last_pub := gs_fanout_last_pub s; gs_backoffs := gs_backoffs s;
  gs_mcache := gs_mcache s; gs_heartbeat_ticks := gs_heartbeat_ticks s; gs_px_peers := gs_px_peers s;
  gs_peer_score := gs_peer_score s; gs_count_received_ihave := gs_count_received_ihave s;
  gs_count_sent_iwant := gs_count_sent_iwant s; gs_subscription_filter := gs_subscription_filter s;
  gs_data_transform := gs_data_transform s; gs_failed_messages := gs_failed_messages s;
  gs_gossip_promises := gs_gossip_promises s; gs_rng := gs_rng s |}.
Definition upd_gs_publish_config (g : PublishConfig -> PublishConfig) (s : Behaviour) : Behaviour := {|
  gs_config := gs_config s; gs_events := gs_events s; gs_publish_config := g (gs_publish_config s);
  gs_duplicate_cache := gs_duplicate_cache s; gs_connected_peers := gs_connected_peers s;
  gs_explicit_peers := gs_explicit_peers s; gs_blacklisted_peers := gs_blacklisted_peers s; gs_mesh := gs_mesh s;
  gs_fanout := gs_fanout s; gs_fanout_last_pub := gs_fanout_last_pub s; gs_backoffs := gs_backoffs s;
  gs_mcache := gs_mcache s; gs_heartbeat_ticks := gs_heartbeat_ticks s; gs_px_peers := gs_px_peers s;
  gs_peer_score := gs_peer_score s; gs_count_received_ihave := gs_count_received_ihave s;
  gs_count_sent_iwant := gs_count_sent_iwant s; gs_subscription_filter := gs_subscription_filter s;
  gs_data_transform := gs_data_transform s; gs_failed_messages := gs_failed_messages s;
  gs_gossip_promises := gs_gossip_promises s; gs_rng := gs_rng s |}.
Definition upd_gs_duplicate_cache (g : TimeCache MsgId unit -> TimeCache MsgId unit) (s : Behaviour) : Behaviour := {|
  gs_config := gs_config s; gs_events := gs_events s; gs_publish_config := gs_publish_config s;
  gs_duplicate_cache := g (gs_duplicate_cache s); gs_connected_peers := gs_connected_peers s;
  gs_explicit_peers := gs_explicit_peers s; gs_blacklisted_peers := gs_blacklisted_peers s; gs_mesh := gs_mesh s;
  gs_fanout := gs_fanout s; gs_fanout_last_pub := gs_fanout_last_pub s; gs_backoffs := gs_backoffs s;
  gs_mcache := gs_mcache s; gs_heartbeat_ticks := gs_heartbeat_ticks s; gs_px_peers := gs_px_peers s;
  gs_peer_score := gs_peer_score s; gs_count_received_ihave := gs_count_received_ihave s;
  gs_count_sent_iwant := gs_count_sent_iwant s; gs_subscription_filter := gs_subscription_filter s;
  gs_data_transform := gs_data_transform s; gs_failed_messages := gs_failed_messages s;
  gs_gossip_promises := gs_gossip_promises s; gs_rng := gs_rng s |}.
Definition upd_gs_connected_peers (g : gmap PeerId PeerDetails -> gmap PeerId PeerDetails) (s : Behaviour) : Behaviour := {|
  gs_config := gs_config s; gs_events := gs_events s; gs_publish_config := gs_publish_config s;
  gs_duplicate_cache := gs_duplicate_cache s; gs_connected_peers := g (gs_connected_peers s);
  gs_explicit_peers := gs_explicit_peers s; gs_blacklisted_peers := gs_blacklisted_peers s; gs_mesh := gs_mesh s;
  gs_fanout := gs_fanout s; gs_fanout_last_pub := gs_fanout_last_pub s; gs_backoffs := gs_backoffs s;
  gs_mcache := gs_mcache s; gs_heartbeat_ticks := gs_heartbeat_ticks s; gs_px_peers := gs_px_peers s;
  gs_peer_score := gs_peer_score s; gs_count_received_ihave := gs_count_received_ihave s;
  gs_count_sent_iwant := gs_count_sent_iwant s; gs_subscription_filter := gs_subscription_filter s;
  gs_data_transform := gs_data_transform s; gs_failed_messages := gs_failed_messages s;
  gs_gossip_promises := gs_gossip_promises s; gs_rng := gs_rng s |}.
Definition upd_gs_explicit_peers (g : gset PeerId -> gset PeerId) (s : Behaviour) : Behaviour := {|
  gs_config := gs_config s; gs_events := gs_events s; gs_publish_config := gs_publish_config s;
  gs_duplicate_cache := gs_duplicate_cache s; gs_connected_peers := gs_connected_peers s;
  gs_explicit_peers := g (gs_explicit_peers s); gs_blacklisted_peers := gs_blacklisted_peers s;
  gs_mesh := gs_mesh s; gs_fanout := gs_fanout s; gs_fanout_last_pub := gs_fanout_last_pub s;
  gs_backoffs := gs_backoffs s; gs_mcache := gs_mcache s; gs_heartbeat_ticks := gs_heartbeat_ticks s;
  gs_px_peers := gs_px_peers s; gs_peer_score := gs_peer_score s;
  gs_count_received_ihave := gs_count_received_ihave s; gs_count_sent_iwant := gs_count_sent_iwant s;
  gs_subscription_filter := gs_subscription_filter s; gs_data_transform := gs_data_transform s;
  gs_failed_messages := gs_failed_messages s; gs_gossip_promises := gs_gossip_promises s; gs_rng := gs_rng s |}.
Definition upd_gs_blacklisted_peers (g : gset PeerId -> gset PeerId) (s : Behaviour) : Behaviour := {|
  gs_config := gs_config s; gs_events := gs_events s; gs_publish_config := gs_publish_config s;
  gs_duplicate_cache := gs_duplicate_cache s; gs_connected_peers := gs_connected_peers s;
  gs_explicit_peers := gs_explicit_peers s; gs_blacklisted_peers := g (gs_blacklisted_peers s);
  gs_mesh := gs_mesh s; gs_fanout := gs_fanout s; gs_fanout_last_pub := gs_fanout_last_pub s;
  gs_backoffs := gs_backoffs s; gs_mcache := gs_mcache s; gs_heartbeat_ticks := gs_heartbeat_ticks s;
  gs_px_peers := gs_px_peers s; gs_peer_score := gs_peer_score s;
  gs_count_received_ihave := gs_count_received_ihave s; gs_count_sent_iwant := gs_count_sent_iwant s;
  gs_subscription_filter := gs_subscription_filter s; gs_data_transform := gs_data_transform s;
  gs_failed_messages := gs_failed_messages s; gs_gossip_promises := gs_gossip_promises s; gs_rng := gs_rng s |}.
Definition upd_gs_mesh (g : gmap TopicHash (gset PeerId) -> gmap TopicHash (gset PeerId)) (s : Behaviour) : Behaviour := {|
  gs_config := gs_config s; gs_events := gs_events s; gs_publish_config := gs_publish_config s;
  gs_duplicate_cache := gs_duplicate_cache s; gs_connected_peers := gs_connected_peers s;
  gs_explicit_peers := gs_explicit_peers s; gs_blacklisted_peers := gs_blacklisted_peers s;
  gs_mesh := g (gs_mesh s); gs_fanout := gs_fanout s; gs_fanout_last_pub := gs_fanout_last_pub s;
  gs_backoffs := gs_backoffs s; gs_mcache := gs_mcache s; gs_heartbeat_ticks := gs_heartbeat_ticks s;
  gs_px_peers := gs_px_peers s; gs_peer_score := gs_peer_score s;
  gs_count_received_ihave := gs_count_received_ihave s; gs_count_sent_iwant := gs_count_sent_iwant s;
  gs_subscription_filter := gs_subscription_filter s; gs_data_transform := gs_data_transform s;
  gs_failed_messages := gs_failed_messages s; gs_gossip_promises := gs_gossip_promises s; gs_rng := gs_rng s |}.
Definition upd_gs_fanout (g : gmap TopicHash (gset PeerId) -> gmap TopicHash (gset PeerId)) (s : Behaviour) : Behaviour := {|
  gs_config := gs_config s; gs_events := gs_events s; gs_publish_config := gs_publish_config s;
  gs_duplicate_cache := gs_duplicate_cache s; gs_connected_peers := gs_connected_peers s;
  gs_explicit_peers := gs_explicit_peers s; gs_blacklisted_peers := gs_blacklisted_peers s; gs_mesh := gs_mesh s;
  gs_fanout := g (gs_fanout s); gs_fanout_last_pub := gs_fanout_last_pub s; gs_backoffs := gs_backoffs s;
  gs_mcache := gs_mcache s; gs_heartbeat_ticks := gs_heartbeat_ticks s; gs_px_peers := gs_px_peers s;
  gs_peer_score := gs_peer_score s; gs_count_received_ihave := gs_count_received_ihave s;
  gs_count_sent_iwant := gs_count_sent_iwant s; gs_subscription_filter := gs_subscription_filter s;
  gs_data_transform := gs_data_transform s; gs_failed_messages := gs_failed_messages s;
  gs_gossip_promises := gs_gossip_promises s; gs_rng := gs_rng s |}.
Definition upd_gs_fanout_last_pub (g : gmap TopicHash Z -> gmap TopicHash Z) (s : Behaviour) : Behaviour := {|
  gs_config := gs_config s; gs_events := gs_events s; gs_publish_config := gs_publish_config s;
  gs_duplicate_cache := gs_duplicate_cache s; gs_connected_peers := gs_connected_peers s;
  gs_explicit_peers := gs_explicit_peers s; gs_blacklisted_peers := gs_blacklisted_peers s; gs_mesh := gs_mesh s;
  gs_fanout := gs_fanout s; gs_fanout_last_pub := g (gs_fanout_last_pub s); gs_backoffs := gs_backoffs s;
  gs_mcache := gs_mcache s; gs_heartbeat_ticks := gs_heartbeat_ticks s; gs_px_peers := gs_px_peers s;
  gs_peer_score := gs_peer_score s; gs_count_received_ihave := gs_count_received_ihave s;
  gs_count_sent_iwant := gs_count_sent_iwant s; gs_subscription_filter := gs_subscription_filter s;
  gs_data_transform := gs_data_transform s; gs_failed_messages := gs_failed_messages s;
  gs_gossip_promises := gs_gossip_promises s; gs_rng := gs_rng s |}.
Definition upd_gs_backoffs (g : BackoffStorage -> BackoffStorage) (s : Behaviour) : Behaviour := {|
  gs_config := gs_config s; gs_events := gs_events s; gs_publish_config := gs_publish_config s;
  gs_duplicate_cache := gs_duplicate_cache s; gs_connected_peers := gs_connected_peers s;
  gs_explicit_peers := gs_explicit_peers s; gs_blacklisted_peers := gs_blacklisted_peers s; gs_mesh := gs_mesh s;
  gs_fanout := gs_fanout s; gs_fanout_last_pub := gs_fanout_last_pub s; gs_backoffs := g (gs_backoffs s);
  gs_mcache := gs_mcache s; gs_heartbeat_ticks := gs_heartbeat_ticks s; gs_px_peers := gs_px_peers s;
  gs_peer_score := gs_peer_score s; gs_count_received_ihave := gs_count_received_ihave s;
  gs_count_sent_iwant := gs_count_sent_iwant s; gs_subscription_filter := gs_subscription_filter s;
  gs_data_transform := gs_data_transform s; gs_failed_messages := gs_failed_messages s;
  gs_gossip_promises := gs_gossip_promises s; gs_rng := gs_rng s |}.
Definition upd_gs_mcache (g : MessageCache -> MessageCache) (s : Behaviour) : Behaviour := {|
  gs_config := gs_config s; gs_events := gs_events s; gs_publish_config := gs_publish_config s;
  gs_duplicate_cache := gs_duplicate_cache s; gs_connected_peers := gs_connected_peers s;
  gs_explicit_peers := gs_explicit_peers s; gs_blacklisted_peers := gs_blacklisted_peers s; gs_mesh := gs_mesh s;
  gs_fanout := gs_fanout s; gs_fanout_last_pub := gs_fanout_last_pub s; gs_backoffs := gs_backoffs s;
  gs_mcache := g (gs_mcache s); gs_heartbeat_ticks := gs_heartbeat_ticks s; gs_px_peers := gs_px_peers s;
  gs_peer_score := gs_peer_score s; gs_count_received_ihave := gs_count_received_ihave s;
  gs_count_sent_iwant := gs_count_sent_iwant s; gs_subscription_filter := gs_subscription_filter s;
  gs_data_transform := gs_data_transform s; gs_failed_messages := gs_failed_messages s;
  gs_gossip_promises := gs_gossip_promises s; gs_rng := gs_rng s |}.
Definition upd_gs_heartbeat_ticks (g : Z -> Z) (s : Behaviour) : Behaviour := {|
  gs_config := gs_config s; gs_events := gs_events s; gs_publish_config := gs_publish_config s;
  gs_duplicate_cache := gs_duplicate_cache s; gs_connected_peers := gs_connected_peers s;
  gs_explicit_peers := gs_explicit_peers s; gs_blacklisted_peers := gs_blacklisted_peers s; gs_mesh := gs_mesh s;
  gs_fanout := gs_fanout s; gs_fanout_last_pub := gs_fanout_last_pub s; gs_backoffs := gs_backoffs s;
  gs_mcache := gs_mcache s; gs_heartbeat_ticks := g (gs_heartbeat_ticks s); gs_px_peers := gs_px_peers s;
  gs_peer_score := gs_peer_score s; gs_count_received_ihave := gs_count_received_ihave s;
  gs_count_sent_iwant := gs_count_sent_iwant s; gs_subscription_filter := gs_subscription_filter s;
  gs_data_transform := gs_data_transform s; gs_failed_messages := gs_failed_messages s;
  gs_gossip_promises := gs_gossip_promises s; gs_rng := gs_rng s |}.
Definition upd_gs_px_peers (g : gset PeerId -> gset PeerId) (s : Behaviour) : Behaviour := {|
  gs_config := gs_config s; gs_events := gs_events s; gs_publish_config := gs_publish_config s;
  gs_duplicate_cache := gs_duplicate_cache s; gs_connected_peers := gs_connected_peers s;
  gs_explicit_peers := gs_explicit_peers s; gs_blacklisted_peers := gs_blacklisted_peers s; gs_mesh := gs_mesh s;
  gs_fanout := gs_fanout s; gs_fanout_last_pub := gs_fanout_last_pub s; gs_backoffs := gs_backoffs s;
  gs_mcache := gs_mcache s; gs_heartbeat_ticks := gs_heartbeat_ticks s; gs_px_peers := g (gs_px_peers s);
  gs_peer_score := gs_peer_score s; gs_count_received_ihave := gs_count_received_ihave s;
  gs_count_sent_iwant := gs_count_sent_iwant s; gs_subscription_filter := gs_subscription_filter s;
  gs_data_transform := gs_data_transform s; gs_failed_messages := gs_failed_messages s;
  gs_gossip_promises := gs_gossip_promises s; gs_rng := gs_rng s |}.
Definition upd_gs_peer_score (g : option ScoreState -> option ScoreState) (s : Behaviour) : Behaviour := {|
  gs_config := gs_config s; gs_events := gs_events s; gs_publish_config := gs_publish_config s;
  gs_duplicate_cache := gs_duplicate_cache s; gs_connected_peers := gs_connected_peers s;
  gs_explicit_peers := gs_explicit_peers s; gs_blacklisted_peers := gs_blacklisted_peers s; gs_mesh := gs_mesh s;
  gs_fanout := gs_fanout s; gs_fanout_last_pub := gs_fanout_last_pub s; gs_backoffs := gs_backoffs s;
  gs_mcache := gs_mcache s; gs_heartbeat_ticks := gs_heartbeat_ticks s; gs_px_peers := gs_px_peers s;
  gs_peer_score := g (gs_peer_score s); gs_count_received_ihave := gs_count_received_ihave s;
  gs_count_sent_iwant := gs_count_sent_iwant s; gs_subscription_filter := gs_subscription_filter s;
  gs_data_transform := gs_data_transform s; gs_failed_messages := gs_failed_messages s;
  gs_gossip_promises := gs_gossip_promises s; gs_rng := gs_rng s |}.
Definition upd_gs_count_received_ihave (g : gmap PeerId Z -> gmap PeerId Z) (s : Behaviour) : Behaviour := {|
  gs_config := gs_config s; gs_events := gs_events s; gs_publish_config := gs_publish_config s;
  gs_duplicate_cache := gs_duplicate_cache s; gs_connected_peers := gs_connected_peers s;
  gs_explicit_peers := gs_explicit_peers s; gs_blacklisted_peers := gs_blacklisted_peers s; gs_mesh := gs_mesh s;
  gs_fanout := gs_fanout s; gs_fanout_last_pub := gs_fanout_last_pub s; gs_backoffs := gs_backoffs s;
  gs_mcache := gs_mcache s; gs_heartbeat_ticks := gs_heartbeat_ticks s; gs_px_peers := gs_px_peers s;
  gs_peer_score := gs_peer_score s; gs_count_received_ihave := g (gs_count_received_ihave s);
  gs_count_sent_iwant := gs_count_sent_iwant s; gs_subscription_filter := gs_subscription_filter s;
  gs_data_transform := gs_data_transform s; gs_failed_messages := gs_failed_messages s;
  gs_gossip_promises := gs_gossip_promises s; gs_rng := gs_rng s |}.
Definition upd_gs_count_sent_iwant (g : gmap PeerId Z -> gmap PeerId Z) (s : Behaviour) : Behaviour := {|
  gs_config := gs_config s; gs_events := gs_events s; gs_publish_config := gs_publish_config s;
  gs_duplicate_cache := gs_duplicate_cache s; gs_connected_peers := gs_connected_peers s;
  gs_explicit_peers := gs_explicit_peers s; gs_blacklisted_peers := gs_blacklisted_peers s; gs_mesh := gs_mesh s;
  gs_fanout := gs_fanout s; gs_fanout_last_pub := gs_fanout_last_pub s; gs_backoffs := gs_backoffs s;
  gs_mcache := gs_mcache s; gs_heartbeat_ticks := gs_heartbeat_ticks s; gs_px_peers := gs_px_peers s;
  gs_peer_score := gs_peer_score s; gs_count_received_ihave := gs_count_received_ihave s;
  gs_count_sent_iwant := g (gs_count_sent_iwant s); gs_subscription_filter := gs_subscription_filter s;
  gs_data_transform := gs_data_transform s; gs_failed_messages := gs_failed_messages s;
  gs_gossip_promises := gs_gossip_promises s; gs_rng := gs_rng s |}.
Definition upd_gs_subscription_filter (g : Fl -> Fl) (s : Behaviour) : Behaviour := {|
  gs_config := gs_config s; gs_events := gs_events s; gs_publish_config := gs_publish_config s;
  gs_duplicate_cache := gs_duplicate_cache s; gs_connected_peers := gs_connected_peers s;
  gs_explicit_peers := gs_explicit_peers s; gs_blacklisted_peers := gs_blacklisted_peers s; gs_mesh := gs_mesh s;
  gs_fanout := gs_fanout s; gs_fanout_last_pub := gs_fanout_last_pub s; gs_backoffs := gs_backoffs s;
  gs_mcache := gs_mcache s; gs_heartbeat_ticks := gs_heartbeat_ticks s; gs_px_peers := gs_px_peers s;
  gs_peer_score := gs_peer_score s; gs_count_received_ihave := gs_count_received_ihave s;
  gs_count_sent_iwant := gs_count_sent_iwant s; gs_subscription_filter := g (gs_subscription_filter s);
  gs_data_transform := gs_data_transform s; gs_failed_messages := gs_failed_messages s;
  gs_gossip_promises := gs_gossip_promises s; gs_rng := gs_rng s |}.
Definition upd_gs_data_transform (g : D -> D) (s : Behaviour) : Behaviour := {|
  gs_config := gs_config s; gs_events := gs_events s; gs_publish_config := gs_publish_config s;
  gs_duplicate_cache := gs_duplicate_cache s; gs_connected_peers := gs_connected_peers s;
  gs_explicit_peers := gs_explicit_peers s; gs_blacklisted_peers := gs_blacklisted_peers s; gs_mesh := gs_mesh s;
  gs_fanout := gs_fanout s; gs_fanout_last_pub := gs_fanout_last_pub s; gs_backoffs := gs_backoffs s;
  gs_mcache := gs_mcache s; gs_heartbeat_ticks := gs_heartbeat_ticks s; gs_px_peers := gs_px_peers s;
  gs_peer_score := gs_peer_score s; gs_count_received_ihave := gs_count_received_ihave s;
  gs_count_sent_iwant := gs_count_sent_iwant s; gs_subscription_filter := gs_subscription_filter s;
  gs_data_transform := g (gs_data_transform s); gs_failed_messages := gs_failed_messages s;
  gs_gossip_promises := gs_gossip_promises s; gs_rng := gs_rng s |}.
Definition upd_gs_failed_messages (g : gmap PeerId FailedMessages -> gmap PeerId FailedMessages) (s : Behaviour) : Behaviour := {|
  gs_config := gs_config s; gs_events := gs_events s; gs_publish_config := gs_publish_config s;
  gs_duplicate_cache := gs_duplicate_cache s; gs_connected_peers := gs_connected_peers s;
  gs_explicit_peers := gs_explicit_peers s; gs_blacklisted_peers := gs_blacklisted_peers s; gs_mesh := gs_mesh s;
  gs_fanout := gs_fanout s; gs_fanout_last_pub := gs_fanout_last_pub s; gs_backoffs := gs_backoffs s;
  gs_mcache := gs_mcache s; gs_heartbeat_ticks := gs_heartbeat_ticks s; gs_px_peers := gs_px_peers s;
  gs_peer_score := gs_peer_score s; gs_count_received_ihave := gs_count_received_ihave s;
  gs_count_sent_iwant := gs_count_sent_iwant s; gs_subscription_filter := gs_subscription_filter s;
  gs_data_transform := gs_data_transform s; gs_failed_messages := g (gs_failed_messages s);
  gs_gossip_promises := gs_gossip_promises s; gs_rng := gs_rng s |}.
Definition upd_gs_gossip_promises (g : gmap MsgId (gmap PeerId Z) -> gmap MsgId (gmap PeerId Z)) (s : Behaviour) : Behaviour := {|
  gs_config := gs_config s; gs_events := gs_events s; gs_publish_config := gs_publish_config s;
  gs_duplicate_cache := gs_duplicate_cache s; gs_connected_peers := gs_connected_peers s;
  gs_explicit_peers := gs_explicit_peers s; gs_blacklisted_peers := gs_blacklisted_peers s; gs_mesh := gs_mesh s;
  gs_fanout := gs_fanout s; gs_fanout_last_pub := gs_fanout_last_pub s; gs_backoffs := gs_backoffs s;
  gs_mcache := gs_mcache s; gs_heartbeat_ticks := gs_heartbeat_ticks s; gs_px_peers := gs_px_peers s;
  gs_peer_score := gs_peer_score s; gs_count_received_ihave := gs_count_received_ihave s;
  gs_count_sent_iwant := gs_count_sent_iwant s; gs_subscription_filter := gs_subscription_filter s;
  gs_data_transform := gs_data_transform s; gs_failed_messages := gs_failed_messages s;
  gs_gossip_promises := g (gs_gossip_promises s); gs_rng := gs_rng s |}.
Definition upd_gs_rng (g : Rng -> Rng) (s : Behaviour) : Behaviour := {|
  gs_config := gs_config s; gs_events := gs_events s; gs_publish_config := gs_publish_config s;
  gs_duplicate_cache := gs_duplicate_cache s; gs_connected_peers := gs_connected_peers s;
  gs_explicit_peers := gs_explicit_peers s; gs_blacklisted_peers := gs_blacklisted_peers s; gs_mesh := gs_mesh s;
  gs_fanout := gs_fanout s; gs_fanout_last_pub := gs_fanout_last_pub s; gs_backoffs := gs_backoffs s;
  gs_mcache := gs_mcache s; gs_heartbeat_ticks := gs_heartbeat_ticks s; gs_px_peers := gs_px_peers s;
  gs_peer_score := gs_peer_score s; gs_count_received_ihave := gs_count_received_ihave s;
  gs_count_sent_iwant := gs_count_sent_iwant s; gs_subscription_filter := gs_subscription_filter s;
  gs_data_transform := gs_data_transform s; gs_failed_messages := gs_failed_messages s;
  gs_gossip_promises := gs_gossip_promises s; gs_rng := g (gs_rng s) |}.

(** * Operations: state and panics *)
Definition M (A : Type) : Type := Behaviour -> run (A * Behaviour).
#[global] Instance M_ret : MRet M := fun A a s => Ret (a, s).
#[global] Instance M_bind : MBind M := fun A B k m s => let! x := m s in k x.1 x.2.

Definition get : M Behaviour := fun s => Ret (s, s).
Definition gets {A} (f : Behaviour -> A) : M A := fun s => Ret (f s, s).
Definition modify (f : Behaviour -> Behaviour) : M unit := fun s => Ret (tt, f s).
Definition panic {A} : M A := fun _ => Panic.
Definition lift {A} (r : run A) : M A := fun s => let! a := r in Ret (a, s).

Fixpoint for_each {A} (f : A -> M unit) (l : list A) : M unit :=
  match l with
  | [] => mret tt
  | x :: l => f x;; for_each f l
  end.

Fixpoint foldM {A B} (f : B -> A -> M B) (b : B) (l : list A) : M B :=
  match l with
  | [] => mret b
  | x :: l => b' ← f b x; foldM f b' l
  end.

(** [usize] subtraction, with overflow checks. *)
Definition usize_sub (a b : Z) : M Z := if decide (b <= a) then mret (a - b) else panic.

Definition is_multiple_of (a n : Z) : bool := if decide (n = 0) then bool_decide (a = 0) else bool_decide (a mod n = 0).

(** What a random operation does with the generator. *)
Definition with_rng {A} (f : Rng -> A * Rng) : M A := fun s =>
  let '(a, g) := f (gs_rng s) in Ret (a, upd_gs_rng (fun _ => g) s).

Definition emit (e : ToSwarm) : M unit := modify (upd_gs_events (fun l => l ++ [e])).

Definition with_score (f : ScoreState -> ScoreState) : M unit := modify (upd_gs_peer_score (fmap f)).

(** [PeerScoreState::below_threshold], without the score it also returns for the
    logs. *)
Definition below_threshold (s : Behaviour) (peer_id : PeerId) (threshold : PeerScoreThresholds -> f64) : bool :=
  match gs_peer_score s with
  | Some ps => f64_lt (ps_score ps peer_id) (threshold (ps_thresholds ps))
  | None => false
  end.

Definition zero_threshold (_ : PeerScoreThresholds) : f64 := f64_zero.

Definition topics (s : Behaviour) : gset TopicHash := dom (gs_mesh s).
Definition mesh_peers (s : Behaviour) (topic : TopicHash) : gset PeerId := default ∅ (gs_mesh s !! topic).
Definition all_mesh_peers (s : Behaviour) : gset PeerId := map_fold (fun _ peers acc => acc ∪ peers) ∅ (gs_mesh s).

Definition update_peer (p : PeerId) (f : PeerDetails -> PeerDetails) : M unit := modify (upd_gs_connected_peers (alter f p)).

(** [RpcOut::priority] *)
Definition rpc_priority (r : RpcOut) : bool :=
  match r with
  | RpcSubscribe _ _ _ | RpcSubscribeMany _ | RpcUnsubscribe _ | RpcGraft _ | RpcPrune _ | RpcIDontWant _ => true
  | _ => false
  end.

Definition count_failed (priority : bool) (f : option FailedMessages) : option FailedMessages :=
  let f := default {| fm_priority := 0; fm_non_priority := 0 |} f in
  Some (if priority then {| fm_priority := fm_priority f + 1; fm_non_priority := fm_non_priority f |}
        else {| fm_priority := fm_priority f; fm_non_priority := fm_non_priority f + 1 |}).

Definition is_idontwant (r : RpcOut) : bool := match r with RpcIDontWant _ => true | _ => false end.

(** The wake-ups of the push are those of [GsQueue]. *)
Definition send_message (peer_id : PeerId) (rpc : RpcOut) : M bool :=
  peers ← gets gs_connected_peers;
  match peers !! peer_id with
  | None => mret false
  | Some peer =>
      if bool_decide (kind_rank (pd_kind peer) < kind_rank Gossipsubv1_2) && is_idontwant rpc then mret false
      else
        match queue_try_push rpc (pd_messages peer) with
        | (Ok _, _, q) => update_peer peer_id (upd_pd_messages (fun _ => q));; mret true
        | (Err rpc, _, _) =>
            modify (upd_gs_failed_messages (partial_alter (count_failed (rpc_priority rpc)) peer_id));;
            with_score (ps_failed_message_slow_peer peer_id);;
            mret false
        end
  end.

Definition send_all (l : list (PeerId * RpcOut)) : M unit := for_each (fun x => send_message x.1 x.2;; mret tt) l.

(** * Telling the handlers who is in a mesh *)

(** Is the peer in the mesh of one of its topics that satisfies [f]? *)
Definition in_mesh_of (mesh : gmap TopicHash (gset PeerId)) (peer_id : PeerId) (f : TopicHash -> bool) (l : list TopicHash) : bool :=
  existsb (fun topic => f topic && match mesh !! topic with Some peers => bool_decide (peer_id ∈ peers) | None => false end) l.

Definition notify_first (peer_id : PeerId) (f : TopicHash -> bool) (event : HandlerIn) : M unit :=
  s ← get;
  match gs_connected_peers s !! peer_id with
  | None => mret tt
  | Some peer =>
      match pd_connections peer with
      | [] => panic
      | connection_id :: _ =>
          if in_mesh_of (gs_mesh s) peer_id f (elements (pd_topics peer)) then mret tt
          else emit (NotifyHandler peer_id event connection_id)
      end
  end.

Definition peer_added_to_mesh (peer_id : PeerId) (new_topics : list TopicHash) : M unit :=
  notify_first peer_id (fun topic => bool_decide (topic ∉ new_topics)) JoinedMesh.

Definition peer_removed_from_mesh (peer_id : PeerId) (old_topic : TopicHash) : M unit :=
  notify_first peer_id (fun topic => bool_decide (topic ≠ old_topic)) LeftMesh.

(** * Random peers of a topic *)
Definition is_candidate (s : Behaviour) (topic : TopicHash) (f : PeerId -> bool) (p : PeerId) : bool :=
  match gs_connected_peers s !! p with
  | Some d => bool_decide (topic ∈ pd_topics d) && f p && is_gossipsub (pd_kind d)
  | None => false
  end.

Definition gossip_candidates (s : Behaviour) (topic : TopicHash) (f : PeerId -> bool) : list PeerId :=
  filter (fun p => is_candidate s topic f p = true) (hash_iter (dom (gs_connected_peers s))).

Definition get_random_peers_dynamic (topic : TopicHash) (n_map : Z -> Z) (f : PeerId -> bool) : M (gset PeerId) :=
  s ← get;
  let gossip_peers := gossip_candidates s topic f in
  let n := n_map (len gossip_peers) in
  if decide (len gossip_peers <= n) then mret (list_to_set gossip_peers)
  else
    shuffled ← with_rng (fun g => shuffle g gossip_peers);
    mret (list_to_set (take (Z.to_nat n) shuffled)).

Definition get_random_peers (topic : TopicHash) (n : Z) (f : PeerId -> bool) : M (gset PeerId) :=
  get_random_peers_dynamic topic (fun _ => n) f.
End router.
Arguments Behaviour {P K R PS} Fl D.
Arguments M {P K R PS} Fl D A.
