(* ===== verification/GsScoreFacts.v ===== *)
(** Facts about the scores of the gossipsub router: the bookkeeping is exact and never
    panics, no peer scores above the cap by its behaviour, a bad score outlives a
    reconnection, and the first deliverer of a message can be counted twice.  The
    bookkeeping discharges the interface the router is written against. *)

From S2P Require Import Prelude Bytes BTree Common Float64 AppMessage GsTimeCache GsBackoff GsConfig GsScore GsRouter.
From Stdlib Require Import Strings.Byte.

#[local] Open Scope Z_scope.

Section facts.
Context {P : PeerIdLib} {I : InstantLib} {HT : HashIter TopicHash} {HI : HashIter IpAddr} {HP : HashIter PeerId}.
Implicit Types (s : PeerScore) (st : PeerStats) (p q : PeerId) (ip : IpAddr).

(** * The invariant

    Counters exist only for topics that are scored, and the peers of an address are
    exactly those that have it. *)
Definition has_ip (stats : gmap PeerId PeerStats) (p : PeerId) (ip : IpAddr) : Prop :=
  exists st, stats !! p = Some st /\ ip ∈ st_known_ips st.
Definition lists_peer (ips : gmap IpAddr (gset PeerId)) (p : PeerId) (ip : IpAddr) : Prop :=
  exists peers, ips !! ip = Some peers /\ p ∈ peers.

Definition topics_scored (params : PeerScoreParams) (st : PeerStats) : Prop := dom (st_topics st) ⊆ dom (sp_topics params).

Record score_ok (s : PeerScore) : Prop := {
  so_topics : forall p st, sc_peer_stats s !! p = Some st -> topics_scored (sc_params s) st;
  so_ips : forall p ip, has_ip (sc_peer_stats s) p ip <-> lists_peer (sc_peer_ips s) p ip;
}.

(** An operation that does not panic and keeps the invariant. *)
Definition keeps_score (f : PeerScore -> run PeerScore) : Prop := forall s, score_ok s -> exists s', f s = Ret s' /\ score_ok s'.

Lemma ok_insert s p st : score_ok s -> topics_scored (sc_params s) st ->
  (forall ip, ip ∈ st_known_ips st <-> has_ip (sc_peer_stats s) p ip) -> score_ok (upd_sc_peer_stats <[p := st]> s).
Proof.
  intros [Ht Hi] Hst Hk. split; cbn.
  - intros q st' [[<- <-]|[_ Hq]]%lookup_insert_Some; [done|by eapply Ht].
  - intros q ip. rewrite <- Hi. unfold has_ip at 1. destruct (decide (q = p)) as [->|].
    + rewrite lookup_insert_eq, <- Hk. split; [intros (? & [= <-] & ?); done|eauto].
    + by rewrite lookup_insert_ne.
Qed.

Lemma with_peer_ok p f s : score_ok s ->
  (forall st, sc_peer_stats s !! p = Some st -> topics_scored (sc_params s) st ->
     exists st', f st = Ret st' /\ topics_scored (sc_params s) st' /\ st_known_ips st' = st_known_ips st) ->
  exists s', with_peer p f s = Ret s' /\ score_ok s' /\ sc_params s' = sc_params s.
Proof.
  intros Hs Hf. unfold with_peer. destruct (sc_peer_stats s !! p) as [st|] eqn:E; [|by exists s].
  destruct (Hf st eq_refl (so_topics _ Hs p st E)) as (st' & -> & Ht & Hk). eexists. split; [done|]. split; [|done]. apply ok_insert; [done|done|].
  intros ip. rewrite Hk. split; [intros; by exists st|]. intros (st0 & E0 & H). rewrite E in E0. by injection E0 as ->.
Qed.

Lemma with_topic_ok params topic f st :
  topics_scored params st -> (is_Some (sp_topics params !! topic) -> forall t, exists t', f t = Ret t') ->
  exists st', with_topic_stats params topic f st = Ret st' /\ topics_scored params st' /\ st_known_ips st' = st_known_ips st.
Proof.
  intros Hst Hf. unfold with_topic_stats. set (o := if decide _ then _ else _).
  assert (Ho : is_Some o -> is_Some (sp_topics params !! topic)).
  { unfold o. case_decide as Hp; [done|]. intros H%elem_of_dom. apply elem_of_dom, Hst, H. }
  destruct o as [t|] eqn:E; [|by exists st]. destruct (Hf (Ho ltac:(by eexists)) t) as (t' & ->). eexists. split; [done|]. split; [|done].
  unfold topics_scored. cbn. rewrite dom_insert. apply union_subseteq. split; [|done].
  apply singleton_subseteq_l, elem_of_dom, Ho. by eexists.
Qed.

Lemma topic_op_ok p params topic f s : params = sc_params s -> score_ok s ->
  (is_Some (sp_topics params !! topic) -> forall t, exists t', f t = Ret t') ->
  exists s', with_peer p (with_topic_stats params topic f) s = Ret s' /\ score_ok s' /\ sc_params s' = sc_params s.
Proof. intros -> Hs Hf. apply with_peer_ok; [done|]. intros st _ Hst. by apply with_topic_ok. Qed.

Lemma mark_invalid_ok p topic s : score_ok s -> exists s', mark_invalid_message_delivery p topic s = Ret s' /\ score_ok s' /\ sc_params s' = sc_params s.
Proof. intros Hs. apply topic_op_ok; [done|done|]. intros _ t. by eexists. Qed.
Lemma mark_first_ok p topic s : score_ok s -> exists s', mark_first_message_delivery p topic s = Ret s' /\ score_ok s' /\ sc_params s' = sc_params s.
Proof. intros Hs. apply topic_op_ok; [done|done|]. intros [tp E] t. rewrite E. by eexists. Qed.
Lemma mark_duplicate_ok now p topic v s : score_ok s -> exists s', mark_duplicate_message_delivery now p topic v s = Ret s' /\ score_ok s' /\ sc_params s' = sc_params s.
Proof. intros Hs. apply topic_op_ok; [done|done|]. intros [tp E] t. rewrite E. destruct (in_mesh t); by eexists. Qed.
Lemma graft_ok now p topic : keeps_score (score_graft now p topic).
Proof. intros s Hs. edestruct topic_op_ok as (s' & E & H & _); [done|exact Hs| |by exists s']. intros _ t. by eexists. Qed.
Lemma prune_ok p topic : keeps_score (score_prune p topic).
Proof. intros s Hs. edestruct topic_op_ok as (s' & E & H & _); [done|exact Hs| |by exists s']. intros [tp E] t. rewrite E. by eexists. Qed.

Lemma run_each_ok {A} (f : A -> PeerScore -> run PeerScore) l :
  (forall x, keeps_score (f x)) -> keeps_score (run_each f l).
Proof.
  intros Hf. induction l as [|x l IH]; intros s Hs; cbn [run_each]; [by exists s|].
  destruct (Hf x s Hs) as (s' & -> & H'). by apply IH.
Qed.

Lemma ok_congruent s s' : sc_params s' = sc_params s -> sc_peer_stats s' = sc_peer_stats s -> sc_peer_ips s' = sc_peer_ips s -> score_ok s -> score_ok s'.
Proof. intros E1 E2 E3 [Ht Hi]. split; rewrite ?E1, ?E2, ?E3; done. Qed.

Lemma delivery_record_same now id s r s' : delivery_record now id s = (r, s') ->
  sc_params s' = sc_params s /\ sc_peer_stats s' = sc_peer_stats s /\ sc_peer_ips s' = sc_peer_ips s.
Proof. unfold delivery_record. destruct (or_default _ _ _ _). by intros [= _ <-]. Qed.

Lemma delivery_record_ok now id s r s' : delivery_record now id s = (r, s') -> score_ok s -> score_ok s'.
Proof. intros (? & ? & ?)%delivery_record_same. by apply ok_congruent. Qed.

Lemma set_record_ok id r s : score_ok s -> score_ok (set_record id r s).
Proof. by apply ok_congruent. Qed.

Lemma report_time_ok p t x s : score_ok s -> score_ok (report_time p t x s).
Proof. unfold report_time. destruct (_ && _); [by apply ok_congruent|done]. Qed.

Lemma score_validate_ok now p id topic s : score_ok s -> score_ok (validate_message now p id topic s).
Proof.
  intros Hs. unfold validate_message. apply report_time_ok. destruct (delivery_record now id s) as [r s'] eqn:E. by eapply delivery_record_ok.
Qed.

Lemma deliver_ok now p id topic : keeps_score (deliver_message now p id topic).
Proof.
  intros s Hs. unfold deliver_message. destruct (mark_first_ok p topic s Hs) as (s1 & -> & H1 & _). cbn [run_bind].
  destruct (delivery_record now id s1) as [r s2] eqn:E. pose proof (delivery_record_ok _ _ _ _ _ E H1) as H2.
  destruct (dr_status r); [|by exists s2..]. apply run_each_ok; [|by apply set_record_ok].
  intros q s3 H3. case_decide; [|by exists s3]. destruct (mark_duplicate_ok now q topic None s3 H3) as (s4 & ? & ? & _). by exists s4.
Qed.

Lemma reject_invalid_ok p topic : keeps_score (reject_invalid_message p topic).
Proof. intros s Hs. destruct (mark_invalid_ok p topic s Hs) as (s' & ? & ? & _). by exists s'. Qed.

Lemma reject_ok now p id topic reason : keeps_score (score_reject_message now p id topic reason).
Proof.
  intros s Hs. unfold score_reject_message. destruct reason; try (by exists s); try (by apply reject_invalid_ok);
    destruct (delivery_record now id s) as [r s1] eqn:E; pose proof (delivery_record_ok _ _ _ _ _ E Hs) as H1; destruct (dr_status r); try (by exists s1).
  - eexists. split; [done|]. by apply set_record_ok.
  - destruct (mark_invalid_ok p topic (set_record id {| dr_status := DeliveryInvalid; dr_first_seen := dr_first_seen r; dr_peers := ∅ |} s1)) as (s2 & -> & H2 & _);
      [by apply set_record_ok|]. cbn [run_bind]. apply run_each_ok; [|done]. intros q. apply reject_invalid_ok.
Qed.

Lemma duplicated_ok now p id topic : keeps_score (duplicated_message now p id topic).
Proof.
  intros s Hs. unfold duplicated_message. destruct (delivery_record now id s) as [r s1] eqn:E. pose proof (delivery_record_ok _ _ _ _ _ E Hs) as H1.
  case_decide; [by exists s1|]. cbv zeta.
  match goal with |- context [report_time p topic ?y s1] => pose proof (report_time_ok p topic y s1 H1) as H2; set (s2 := report_time p topic y s1) in * end.
  clearbody s2.
  destruct (dr_status r); [| | |by exists s2].
  - eexists. split; [done|]. by apply set_record_ok.
  - edestruct (mark_duplicate_ok now p topic (Some validated)) as (s3 & E3 & ? & _); [|by exists s3]. by apply set_record_ok.
  - by apply reject_invalid_ok.
Qed.

(** * Peers and addresses *)
Lemma lists_remove st p ips q ip : lists_peer (remove_ips_for_peer st p ips) q ip <-> lists_peer ips q ip /\ ~ (q = p /\ ip ∈ st_known_ips st).
Proof.
  unfold remove_ips_for_peer. rewrite <- (elem_of_elements (st_known_ips st) ip), <- (hash_iter_elements (st_known_ips st)).
  generalize (hash_iter (st_known_ips st)). intros l. revert ips. induction l as [|i l IH]; intros ips; cbn [foldl].
  - split; [intros H; split; [done|]; intros [_ H']; by apply not_elem_of_nil in H'|by intros [H _]].
  - rewrite IH. rewrite elem_of_cons. unfold lists_peer. destruct (decide (ip = i)) as [->|Hne].
    + rewrite lookup_alter_eq. destruct (ips !! i) as [peers|]; cbn; split.
      * intros [(? & [= <-] & Hq) Hn]. rewrite elem_of_difference, elem_of_singleton in Hq. naive_solver.
      * intros [(? & [= <-] & Hq) Hn]. split; [|naive_solver]. eexists. split; [done|]. set_solver.
      * by intros [(? & ? & ?) _].
      * by intros [(? & ? & ?) _].
    + rewrite lookup_alter_ne by done. naive_solver.
Qed.

Lemma ok_forget s p st : score_ok s -> sc_peer_stats s !! p = Some st ->
  score_ok (upd_sc_peer_ips (remove_ips_for_peer st p) (upd_sc_peer_stats (delete p) s)).
Proof.
  intros [Ht Hi] E. split; cbn.
  - intros q st' [_ Hq]%lookup_delete_Some. by eapply Ht.
  - intros q ip. rewrite lists_remove, <- Hi. unfold has_ip. destruct (decide (q = p)) as [->|].
    + rewrite lookup_delete_eq. split; [by intros (? & ? & _)|]. intros [(st' & E' & H) Hn]. exfalso. apply Hn. rewrite E in E'. by injection E' as ->.
    + rewrite lookup_delete_ne by done. naive_solver.
Qed.

Lemma ok_replace s p st st' : score_ok s -> sc_peer_stats s !! p = Some st -> st_known_ips st' = st_known_ips st -> dom (st_topics st') = dom (st_topics st) ->
  score_ok (upd_sc_peer_stats <[p := st']> s).
Proof.
  intros Hs E Hk Hd. apply ok_insert; [done|unfold topics_scored; rewrite Hd; by apply (so_topics _ Hs p)|].
  intros ip. rewrite Hk. split; [intros; by exists st|]. intros (st0 & E0 & H). rewrite E in E0. by injection E0 as ->.
Qed.

Lemma dom_imap_total {A} (f : TopicHash -> A -> A) (m : gmap TopicHash A) : dom (map_imap (fun k x => Some (f k x)) m) = dom m.
Proof.
  apply set_eq. intros k. rewrite !elem_of_dom, map_lookup_imap. destruct (m !! k); cbn; [split; by eexists|done].
Qed.

Lemma refresh_peer_ok now s p : score_ok s -> score_ok (refresh_peer now s p).
Proof.
  intros Hs. unfold refresh_peer. destruct (sc_peer_stats s !! p) as [st|] eqn:E; [|done]. unfold refresh_stats.
  destruct (st_status st) as [|expire]; [|case_decide; [by apply ok_forget|by apply (ok_replace s p st st)]].
  apply (ok_replace s p st); [done|done|done|]. apply dom_imap_total.
Qed.

Lemma refresh_ok now s : score_ok s -> score_ok (refresh_scores now s).
Proof.
  unfold refresh_scores. generalize (hash_iter (dom (sc_peer_stats s))). intros l. revert s.
  induction l as [|p l IH]; intros s Hs; [done|]. cbn [foldl]. by apply IH, refresh_peer_ok.
Qed.

Lemma remove_peer_ok now p s : score_ok s -> score_ok (score_remove_peer now p s).
Proof.
  intros Hs. unfold score_remove_peer. destruct (sc_peer_stats s !! p) as [st|] eqn:E; [|done].
  destruct (f64_lt _ _); [exact (ok_forget s p st Hs E)|]. apply (ok_replace s p st); [done|done|done|]. apply dom_imap_total.
Qed.

Lemma add_peer_ok p s : score_ok s -> score_ok (score_add_peer p s).
Proof.
  intros Hs. unfold score_add_peer. destruct (sc_peer_stats s !! p) as [st|] eqn:E; [by apply (ok_replace s p st)|]. cbn.
  apply ok_insert; [done|done|]. intros ip. cbn. split; [set_solver|]. intros (st & E' & _). by rewrite E in E'.
Qed.

Lemma add_ip_ok p ip s : score_ok s -> score_ok (score_add_ip p ip s).
Proof.
  intros Hs. unfold score_add_ip. set (st := upd_st_status _ _).
  assert (Hst : topics_scored (sc_params s) st) by (unfold st; destruct (sc_peer_stats s !! p) as [st0|] eqn:E; [by apply (so_topics _ Hs p st0)|done]).
  assert (Hk : forall i, i ∈ st_known_ips st <-> has_ip (sc_peer_stats s) p i).
  { intros i. unfold st, has_ip. destruct (sc_peer_stats s !! p) as [st0|]; cbn; [naive_solver|set_solver]. }
  destruct Hs as [Ht Hi]. split; cbn.
  - intros q st' [[<- <-]|[_ Hq]]%lookup_insert_Some; [done|by eapply Ht].
  - intros q i. unfold has_ip, lists_peer. destruct (decide (q = p)) as [->|Hq], (decide (i = ip)) as [->|Hn].
    + rewrite !lookup_insert_eq. split; intros _; eexists; (split; [done|cbn; set_solver]).
    + rewrite lookup_insert_eq, lookup_insert_ne by done. rewrite <- (Hi p i : _ <-> lists_peer _ _ _), <- Hk.
      split; [intros (? & [= <-] & H); cbn in H; set_solver|]. intros H. eexists. split; [done|]. cbn. set_solver.
    + rewrite lookup_insert_eq, lookup_insert_ne by done. rewrite (Hi q ip : (exists st', _ /\ _) <-> _). unfold lists_peer.
      destruct (sc_peer_ips s !! ip) as [peers|]; cbn; split.
      * intros (? & [= <-] & H). eexists. split; [done|set_solver].
      * intros (? & [= <-] & H). eexists. split; [done|set_solver].
      * by intros (? & ? & _).
      * intros (? & [= <-] & H). set_solver.
    + rewrite !lookup_insert_ne by done. apply Hi.
Qed.

Lemma remove_ip_ok p ip s : score_ok s -> score_ok (score_remove_ip p ip s).
Proof.
  intros Hs. unfold score_remove_ip. destruct (sc_peer_stats s !! p) as [st|] eqn:E; [|done]. destruct Hs as [Ht Hi]. split; cbn.
  - intros q st' [[<- <-]|[_ Hq]]%lookup_insert_Some; [by apply (Ht p st)|by eapply Ht].
  - intros q i. unfold has_ip, lists_peer. destruct (decide (q = p)) as [->|Hq], (decide (i = ip)) as [->|Hn].
    + rewrite lookup_insert_eq, lookup_alter_eq. split; [intros (? & [= <-] & H); cbn in H; set_solver|].
      intros (peers & H & Hp). destruct (sc_peer_ips s !! ip); [|done]. injection H as <-. set_solver.
    + rewrite lookup_insert_eq, lookup_alter_ne by done. rewrite <- (Hi p i : _ <-> (exists peers, _ /\ _)). unfold has_ip. rewrite E. cbn.
      split; intros (? & [= <-] & H); eexists; (split; [done|]); cbn in *; set_solver.
    + rewrite lookup_insert_ne, lookup_alter_eq by done. rewrite (Hi q ip : (exists st', _ /\ _) <-> _). unfold lists_peer.
      destruct (sc_peer_ips s !! ip) as [peers|]; cbn; [|naive_solver]. split; intros (? & [= <-] & H); eexists; (split; [done|set_solver]).
    + rewrite lookup_insert_ne, lookup_alter_ne by done. apply Hi.
Qed.

Lemma penalty_ok p n : keeps_score (add_penalty p n).
Proof. intros s Hs. destruct (with_peer_ok p (fun st => Ret (upd_st_behaviour_penalty (fun x => f64_add x (f64_of_Z n)) st)) s Hs) as (s' & ? & ? & _); [by eexists|by exists s']. Qed.
Lemma slow_ok p : keeps_score (failed_message_slow_peer p).
Proof. intros s Hs. destruct (with_peer_ok p (fun st => Ret (upd_st_slow_peer_penalty (fun x => f64_add x f64_one) st)) s Hs) as (s' & ? & ? & _); [by eexists|by exists s']. Qed.
Lemma set_application_ok p x s : score_ok s -> score_ok (set_application_score p x s).2.
Proof. intros Hs. unfold set_application_score. destruct (sc_peer_stats s !! p) as [st|] eqn:E; [|done]. by apply (ok_replace s p st). Qed.

(** Changing every counter of a topic, or adding the topic to the scored ones. *)
Lemma ok_each s topic f : score_ok s -> score_ok (upd_sc_peer_stats (fmap (upd_st_topics (alter f topic))) s).
Proof.
  intros [Ht Hi]. split; cbn.
  - intros q st. rewrite lookup_fmap_Some. intros (st0 & <- & E). unfold topics_scored. cbn. rewrite dom_alter_L. by apply (Ht q).
  - intros q ip. rewrite <- Hi. unfold has_ip. rewrite lookup_fmap. destruct (sc_peer_stats s !! q) as [st|]; cbn; [|naive_solver].
    split; intros (? & [= <-] & H); eauto.
Qed.

Lemma ok_params s g : score_ok s -> (forall x : PeerScoreParams, dom (sp_topics x) ⊆ dom (sp_topics (g x))) -> score_ok (upd_sc_params g s).
Proof. intros [Ht Hi] Hg. split; [|done]. intros q st E. unfold topics_scored. etrans; [by apply (Ht q)|apply Hg]. Qed.

Lemma set_topic_params_ok topic params s : score_ok s -> score_ok (set_topic_params topic params s).
Proof.
  intros Hs. unfold set_topic_params. set (g := fun x : PeerScoreParams => Build_PeerScoreParams _ _ _ _ _ _ _ _ _ _ _ _ _ _ _).
  assert (H1 : score_ok (upd_sc_params g s)) by (apply ok_params; [done|]; intros x; cbn; rewrite dom_insert; set_solver).
  set (s1 := upd_sc_params g s) in *. clearbody s1. destruct (sp_topics _ !! topic) as [old|]; [|done].
  destruct (f64_lt _ _), (f64_lt _ _); auto using ok_each.
Qed.

(** * Runs *)
Inductive score_op : Type :=
  | ScGraft (p : PeerId) (topic : TopicHash) | ScPrune (p : PeerId) (topic : TopicHash) | ScPenalty (p : PeerId) (n : Z)
  | ScReject (p : PeerId) (id : list byte) (topic : TopicHash) (reason : RejectReason) | ScRejectInvalid (p : PeerId) (topic : TopicHash)
  | ScDuplicated (p : PeerId) (id : list byte) (topic : TopicHash) | ScValidate (p : PeerId) (id : list byte) (topic : TopicHash)
  | ScDeliver (p : PeerId) (id : list byte) (topic : TopicHash) | ScSlow (p : PeerId) | ScAddPeer (p : PeerId) | ScRemovePeer (p : PeerId)
  | ScAddIp (p : PeerId) (ip : IpAddr) | ScRemoveIp (p : PeerId) (ip : IpAddr) | ScApplication (p : PeerId) (x : f64)
  | ScTopicParams (topic : TopicHash) (params : TopicScoreParams) | ScRefresh.

Definition score_run (now : Z) (op : score_op) (s : PeerScore) : run PeerScore :=
  match op with
  | ScGraft p topic => score_graft now p topic s
  | ScPrune p topic => score_prune p topic s
  | ScPenalty p n => add_penalty p n s
  | ScReject p id topic reason => score_reject_message now p id topic reason s
  | ScRejectInvalid p topic => reject_invalid_message p topic s
  | ScDuplicated p id topic => duplicated_message now p id topic s
  | ScValidate p id topic => Ret (validate_message now p id topic s)
  | ScDeliver p id topic => deliver_message now p id topic s
  | ScSlow p => failed_message_slow_peer p s
  | ScAddPeer p => Ret (score_add_peer p s)
  | ScRemovePeer p => Ret (score_remove_peer now p s)
  | ScAddIp p ip => Ret (score_add_ip p ip s)
  | ScRemoveIp p ip => Ret (score_remove_ip p ip s)
  | ScApplication p x => Ret (set_application_score p x s).2
  | ScTopicParams topic params => Ret (set_topic_params topic params s)
  | ScRefresh => Ret (refresh_scores now s)
  end.

Inductive scored (params : PeerScoreParams) (thresholds : PeerScoreThresholds) (callback : bool) : PeerScore -> Prop :=
  | scored_new : scored params thresholds callback (PeerScore_new params thresholds callback)
  | scored_op s now op s' : scored params thresholds callback s -> score_run now op s = Ret s' -> scored params thresholds callback s'.

Lemma score_run_ok now op : keeps_score (score_run now op).
Proof.
  destruct op; intros s Hs; cbn [score_run];
    [by apply graft_ok|by apply prune_ok|by apply penalty_ok|by apply reject_ok|by apply reject_invalid_ok|by apply duplicated_ok| |by apply deliver_ok|by apply slow_ok|..];
    (eexists; split; [done|]); [apply score_validate_ok|apply add_peer_ok|apply remove_peer_ok|apply add_ip_ok|apply remove_ip_ok|apply set_application_ok|apply set_topic_params_ok|apply refresh_ok]; done.
Qed.

Lemma score_new_ok params thresholds callback : score_ok (PeerScore_new params thresholds callback).
Proof. split; [done|]. intros p ip. split; by intros (? & ? & _). Qed.

Lemma scored_ok params thresholds callback s : scored params thresholds callback s -> score_ok s.
Proof.
  induction 1 as [|s now op s' _ IH E]; [apply score_new_ok|].
  destruct (score_run_ok now op s IH) as (s'' & E' & H). rewrite E in E'. by injection E' as ->.
Qed.

(** The bookkeeping of the scores is exact and never panics.  In every state that can
    be reached, whatever was reported about whom and when: the peers counted for an
    address are exactly those that have it, so that the colocation penalty counts
    peers that are there; counters exist only for topics that are scored; and every
    operation returns, the ones that expect the parameters of a topic included. *)
Theorem score_bookkeeping_exact params thresholds callback s :
  scored params thresholds callback s ->
  (forall p ip, (exists st, sc_peer_stats s !! p = Some st /\ ip ∈ st_known_ips st) <-> (exists peers, sc_peer_ips s !! ip = Some peers /\ p ∈ peers)) /\
  (forall p st topic, sc_peer_stats s !! p = Some st -> is_Some (st_topics st !! topic) -> is_Some (get_topic_params s topic)) /\
  (forall now op, exists s', score_run now op s = Ret s').
Proof.
  intros H%scored_ok. split_and!; [apply (so_ips _ H)| |].
  - intros p st topic E Ht. apply elem_of_dom in Ht. apply elem_of_dom, (so_topics _ H p st E), Ht.
  - intros now op. destruct (score_run_ok now op s H) as (s' & E & _). by exists s'.
Qed.

(** The entry of an address stays when its last peer leaves. *)
Lemma address_entry_stays s p st ip :
  sc_peer_stats s !! p = Some st -> sc_peer_ips s !! ip = Some {[p]} -> sc_peer_ips (score_remove_ip p ip s) !! ip = Some ∅.
Proof. intros E Hi. unfold score_remove_ip. rewrite E. cbn. rewrite lookup_alter_eq, Hi. cbn. f_equal. set_solver. Qed.

(** * The cap *)
Lemma check_Ok b e : check b e = Ok tt <-> b = false.
Proof. by destruct b. Qed.

Lemma validated_weights params : PeerScoreParams_validate params = Ok tt ->
  f64_lt f64_zero (sp_ip_colocation_factor_weight params) = false /\ f64_lt f64_zero (sp_behaviour_penalty_weight params) = false.
Proof. unfold PeerScoreParams_validate. rewrite !bind_unit_Ok, !check_Ok. naive_solver. Qed.

Lemma ip_penalties_below s bound l score : f64_lt f64_zero (sp_ip_colocation_factor_weight (sc_params s)) = false ->
  f64_lt bound score = false -> f64_lt bound (foldl (add_ip_penalty s) score l) = false.
Proof.
  intros Hw. revert score. induction l as [|ip l IH]; intros score Hs; [done|]. cbn [foldl]. apply IH. unfold add_ip_penalty.
  case_bool_decide; [done|]. destruct (sc_peer_ips s !! ip); [|done]. destruct (_ && _); [|done]. apply f64_penalty; [done|apply f64_square|done].
Qed.

(** C18: No behaviour lifts a peer above the cap.  With validated parameters and a cap (and
    a weight for slow peers that is not positive, which validation leaves open), a peer
    to which the application gives no positive score never scores above
    [topic_score_cap]: whatever its counters are, the penalties that are added after
    the cap never raise the rounded sum. *)
Theorem score_never_above_cap s p st :
  PeerScoreParams_validate (sc_params s) = Ok tt -> f64_lt f64_zero (sp_slow_peer_weight (sc_params s)) = false ->
  f64_lt f64_zero (sp_topic_score_cap (sc_params s)) = true ->
  sc_peer_stats s !! p = Some st -> f64_lt f64_zero (f64_mul (st_application_score st) (sp_app_specific_weight (sc_params s))) = false ->
  f64_lt (sp_topic_score_cap (sc_params s)) (score_report s p) = false.
Proof.
  intros (Hip & Hb)%validated_weights Hslow Hcap E Happ. unfold score_report. rewrite E. set (cap := sp_topic_score_cap (sc_params s)) in *.
  assert (Ht : f64_lt cap (topics_part s st) = false).
  { unfold topics_part. fold cap. rewrite Hcap. cbn [andb]. set (x := foldl _ _ _).
    destruct (f64_lt cap x) eqn:El; [apply f64_lt_irrefl|done]. }
  set (score1 := f64_add _ _). assert (H1 : f64_lt cap score1 = false) by (by apply f64_add_below).
  pose proof (ip_penalties_below s cap (hash_iter (st_known_ips st)) score1 Hip H1) as H2. set (score2 := foldl _ _ _) in *. clearbody score2.
  assert (H3 : f64_lt cap (behaviour_part (sc_params s) st score2) = false).
  { unfold behaviour_part. destruct (f64_lt _ (st_behaviour_penalty st)); [|done]. apply f64_penalty; [done|apply f64_square|done]. }
  unfold slow_part. destruct (f64_lt (sp_slow_peer_threshold _) _) eqn:El; [|done]. apply f64_penalty; [done|by apply f64_excess|done].
Qed.

(** * Retention *)
Lemma refresh_peer_other now s p q : p ≠ q -> sc_peer_stats (refresh_peer now s q) !! p = sc_peer_stats s !! p /\ sc_params (refresh_peer now s q) = sc_params s.
Proof.
  intros Hn. unfold refresh_peer. destruct (sc_peer_stats s !! q); [|done]. destruct (refresh_stats _ _ _); cbn; (split; [|done]).
  - by rewrite lookup_insert_ne.
  - by rewrite lookup_delete_ne.
Qed.

Lemma refresh_lookup now s p st : sc_peer_stats s !! p = Some st -> sc_peer_stats (refresh_scores now s) !! p = refresh_stats now (sc_params s) st /\
  sc_params (refresh_scores now s) = sc_params s.
Proof.
  intros E. unfold refresh_scores. assert (Hp : p ∈ hash_iter (dom (sc_peer_stats s))).
  { rewrite hash_iter_elements, elem_of_elements, elem_of_dom. by eexists. }
  assert (Hnd : NoDup (hash_iter (dom (sc_peer_stats s)))) by (rewrite hash_iter_elements; apply NoDup_elements).
  revert Hp Hnd. generalize (hash_iter (dom (sc_peer_stats s))). intros l.
  assert (Hrest : forall l s, p ∉ l -> sc_peer_stats (foldl (refresh_peer now) s l) !! p = sc_peer_stats s !! p /\ sc_params (foldl (refresh_peer now) s l) = sc_params s).
  { clear. induction l as [|q l IH]; intros s Hn; [done|]. rewrite not_elem_of_cons in Hn. destruct Hn as [Hq Hn]. cbn [foldl].
    destruct (IH (refresh_peer now s q) Hn) as [-> ->]. by apply refresh_peer_other. }
  revert s E. induction l as [|q l IH]; intros s E Hp Hnd; [by apply not_elem_of_nil in Hp|]. rewrite NoDup_cons in Hnd. destruct Hnd as [Hq Hnd]. cbn [foldl].
  destruct (decide (p = q)) as [->|Hne].
  - destruct (Hrest l (refresh_peer now s q) Hq) as [-> ->]. unfold refresh_peer. rewrite E.
    destruct (refresh_stats now (sc_params s) st); cbn; [by rewrite lookup_insert_eq|by rewrite lookup_delete_eq].
  - apply elem_of_cons in Hp as [?|Hp]; [done|]. destruct (refresh_peer_other now s p q Hne) as [E' Ep]. rewrite <- Ep.
    apply IH; [congruence|done|done].
Qed.

Definition refreshes (s : PeerScore) (times : list Z) : PeerScore := foldl (fun s t => refresh_scores t s) s times.

Lemma refreshes_keep times s p st expire : sc_peer_stats s !! p = Some st -> st_status st = Disconnected expire -> Forall (fun t => t <= expire) times ->
  sc_peer_stats (refreshes s times) !! p = Some st.
Proof.
  intros E Hd Ht. revert s E. induction Ht as [|t times Hle _ IH]; intros s E; [done|]. cbn [refreshes foldl]. apply IH.
  destruct (refresh_lookup t s p st E) as [-> _]. unfold refresh_stats. rewrite Hd. by rewrite decide_False by lia.
Qed.

(** C19: A bad score outlives a reconnection.  A peer without a positive score that
    disconnects and comes back within the retention time, however often the scores are
    refreshed in between, has the penalties it left with: the behavioural penalty, the
    slow-peer penalty, the application's score and the invalid messages of every topic
    are what they were, not decayed, and the credit for first deliveries is gone.  The
    first refresh after the retention time forgets it. *)
Theorem bad_score_survives_reconnection s p st now times :
  sc_peer_stats s !! p = Some st -> f64_lt f64_zero (score_report s p) = false ->
  now + sp_retain_score (sc_params s) <= instant_max -> Forall (fun t => t <= now + sp_retain_score (sc_params s)) times ->
  let gone := refreshes (score_remove_peer now p s) times in
  (exists st', sc_peer_stats (score_add_peer p gone) !! p = Some st' /\ st_status st' = Connected /\
     st_behaviour_penalty st' = st_behaviour_penalty st /\ st_slow_peer_penalty st' = st_slow_peer_penalty st /\
     st_application_score st' = st_application_score st /\
     forall topic, ts_invalid_message_deliveries <$> (st_topics st' !! topic) = ts_invalid_message_deliveries <$> (st_topics st !! topic) /\
       forall t, st_topics st' !! topic = Some t -> ts_first_message_deliveries t = f64_zero) /\
  forall later, now + sp_retain_score (sc_params s) < later -> sc_peer_stats (refresh_scores later gone) !! p = None.
Proof.
  intros E Hbad Hmax Ht gone. set (expire := now + sp_retain_score (sc_params s)) in *.
  set (st1 := upd_st_status (fun _ => Disconnected expire) (upd_st_topics (map_imap (fun topic t => Some (retain_topic (sc_params s) topic t))) st)).
  assert (E1 : sc_peer_stats (score_remove_peer now p s) !! p = Some st1).
  { unfold score_remove_peer. rewrite E, Hbad. unfold instant_checked_add. rewrite decide_True by done. cbn. by rewrite lookup_insert_eq. }
  assert (E2 : sc_peer_stats gone !! p = Some st1) by (by apply (refreshes_keep times _ p st1 expire E1)).
  split.
  - unfold score_add_peer. rewrite E2. cbn. rewrite lookup_insert_eq. eexists. split_and!; [done|done|done|done|done|].
    intros topic. cbn. rewrite map_lookup_imap. destruct (st_topics st !! topic) as [t|]; cbn; [|done]. unfold retain_topic.
    split; [f_equal; by destruct (sp_topics (sc_params s) !! topic); [destruct (_ && _)|]|].
    intros t' [= <-]. by destruct (sp_topics (sc_params s) !! topic); [destruct (_ && _)|].
  - intros later Hl. destruct (refresh_lookup later gone p st1 E2) as [-> _]. unfold refresh_stats, st1. cbn. by rewrite decide_True by lia.
Qed.

(** * One message, counted twice *)
Lemma remove_expired_keeps {K V} `{Countable K} now (map : gmap K (ExpiringElement V)) list k e :
  map !! k = Some e -> now < ee_expires e -> (remove_expired now map list).1 !! k = Some e.
Proof.
  intros Hk He. revert map Hk. induction list as [|x list IH]; intros map Hk; [done|]. cbn [remove_expired]. case_decide; [done|]. apply IH.
  destruct (decide (ee_element x = k)) as [->|Hn]; [rewrite Hk; by rewrite decide_False by lia|].
  destruct (map !! ee_element x); [|done]. case_decide; [|done]. by rewrite lookup_delete_ne.
Qed.

Lemma remove_expired_None {K V} `{Countable K} now (map : gmap K (ExpiringElement V)) list k :
  map !! k = None -> (remove_expired now map list).1 !! k = None.
Proof.
  revert map. induction list as [|x list IH]; intros map Hk; [done|]. cbn [remove_expired]. case_decide; [done|]. apply IH.
  destruct (map !! ee_element x); [|done]. case_decide; [|done]. by apply lookup_delete_None; right.
Qed.

Lemma delivery_record_new now id s : tc_map (sc_deliveries s) !! id = None -> now + tc_ttl (sc_deliveries s) <= instant_max ->
  exists s', delivery_record now id s = (DeliveryRecord_default now, s') /\
    tc_map (sc_deliveries s') !! id = Some {| ee_element := DeliveryRecord_default now; ee_expires := now + tc_ttl (sc_deliveries s) |}.
Proof.
  intros Hn Hmax. unfold delivery_record, or_default, tc_entry, remove_expired_keys.
  pose proof (remove_expired_None now (tc_map (sc_deliveries s)) (tc_list (sc_deliveries s)) id Hn) as E.
  destruct (remove_expired _ _ _) as [map list]. cbn in E |- *. rewrite E. unfold instant_checked_add. rewrite decide_True by done.
  eexists. split; [done|]. cbn. by rewrite lookup_insert_eq.
Qed.

Lemma delivery_record_known now id s r expires : tc_map (sc_deliveries s) !! id = Some {| ee_element := r; ee_expires := expires |} -> now < expires ->
  exists s', delivery_record now id s = (r, s').
Proof.
  intros Hn He. unfold delivery_record, or_default, tc_entry, remove_expired_keys.
  pose proof (remove_expired_keeps now (tc_map (sc_deliveries s)) (tc_list (sc_deliveries s)) id _ Hn He) as E.
  destruct (remove_expired _ _ _) as [map list]. cbn in E |- *. rewrite E. by eexists.
Qed.

Lemma topic_op_lookup s p topic f st t t' params : sc_peer_stats s !! p = Some st -> st_topics st !! topic = Some t -> f t = Ret t' ->
  with_peer p (with_topic_stats params topic f) s = Ret (upd_sc_peer_stats <[p := upd_st_topics <[topic := t']> st]> s).
Proof.
  intros E Et Ef. unfold with_peer, with_topic_stats. rewrite E, Et. cbn [default from_option Datatypes.id].
  case_decide; by rewrite Ef.
Qed.

(** The first deliverer of a message can be counted twice.  The mesh deliveries of a
    peer that is the first to deliver a message go up by one when the message is
    validated, and once more when the peer sends the message again within the window:
    the record of the message has the peers that sent duplicates, but not the one that
    sent it first. *)
Theorem first_deliverer_counted_twice s p id topic now now' st t tp :
  sc_peer_stats s !! p = Some st -> st_topics st !! topic = Some t -> in_mesh t = true -> sp_topics (sc_params s) !! topic = Some tp ->
  tc_map (sc_deliveries s) !! id = None -> now + tc_ttl (sc_deliveries s) <= instant_max ->
  now + tp_mesh_message_deliveries_window tp <= instant_max -> now' < now + tc_ttl (sc_deliveries s) -> now' <= now + tp_mesh_message_deliveries_window tp ->
  exists s1 s2, deliver_message now p id topic s = Ret s1 /\ duplicated_message now' p id topic s1 = Ret s2 /\
    mesh_message_deliveries s2 p topic =
      Some (count_one (tp_mesh_message_deliveries_cap tp) (count_one (tp_mesh_message_deliveries_cap tp) (ts_mesh_message_deliveries t))).
Proof.
  intros E Et Hm Etp Hnew Hmax Hwmax Hnow Hwin.
  set (cap := tp_mesh_message_deliveries_cap tp).
  set (t1 := upd_ts_mesh_message_deliveries (count_one cap) (upd_ts_first_message_deliveries (count_one (tp_first_message_deliveries_cap tp)) t)).
  set (st1 := upd_st_topics <[topic := t1]> st). set (sa := upd_sc_peer_stats <[p := st1]> s).
  assert (E1 : mark_first_message_delivery p topic s = Ret sa).
  { apply (topic_op_lookup _ _ _ _ st t t1); [done|done|]. rewrite Etp. cbn [expect run_bind]. unfold in_mesh in *. cbn. by rewrite Hm. }
  destruct (delivery_record_new now id sa Hnew Hmax) as (sb & Er & Hb). destruct (delivery_record_same _ _ _ _ _ Er) as (Epb & Esb & _).
  set (rv := {| dr_status := DeliveryValid now; dr_first_seen := now; dr_peers := ∅ |}). set (s1 := set_record id rv sb).
  assert (Hd : deliver_message now p id topic s = Ret s1).
  { unfold deliver_message. rewrite E1. cbn [run_bind]. rewrite Er. cbn [dr_status DeliveryRecord_default dr_peers dr_first_seen]. fold rv s1.
    pose proof (hash_iter_elements (∅ : gset PeerId)) as Hempty. rewrite elements_empty in Hempty. apply Permutation_nil_r in Hempty. by rewrite Hempty. }
  exists s1.
  destruct (delivery_record_known now' id s1 rv (now + tc_ttl (sc_deliveries s))) as (s2 & Er2); [cbn; by rewrite lookup_alter_eq, Hb|done|].
  destruct (delivery_record_same _ _ _ _ _ Er2) as (Ep2 & Es2 & _). unfold duplicated_message. rewrite Er2.
  rewrite decide_False by (cbn; set_solver). cbn [dr_status rv]. set (x := as_secs_f64 _). set (rec := Build_DeliveryRecord _ _ _).
  set (s3 := set_record id rec (report_time p topic x s2)).
  assert (Es3 : sc_peer_stats s3 !! p = Some st1 /\ sc_params s3 = sc_params s).
  { unfold s3, report_time. assert (Hp : sc_peer_stats s2 !! p = Some st1 /\ sc_params s2 = sc_params s).
    { rewrite Es2, Ep2. cbn. rewrite Esb, Epb. cbn. by rewrite lookup_insert_eq. }
    by destruct (_ && _). }
  destruct Es3 as [Es3 Ep3]. eexists. split; [done|]. split.
  - apply (topic_op_lookup _ _ _ _ st1 t1 (upd_ts_mesh_message_deliveries (count_one cap) t1)); [done|by cbn; rewrite lookup_insert_eq|].
    replace (in_mesh t1) with true by (by rewrite <- Hm). rewrite Ep3, Etp. cbn [expect run_bind]. unfold in_window, instant_checked_add.
    rewrite decide_True by done. cbn [default from_option Datatypes.id]. by rewrite bool_decide_true by done.
  - unfold mesh_message_deliveries. cbn. rewrite lookup_insert_eq. cbn. by rewrite lookup_insert_eq.
Qed.

(** * The interface of the router *)
Definition OkScore : Type := {s : PeerScore | score_ok s}.

Definition lift_run (f : PeerScore -> run PeerScore) (H : keeps_score f) (s : OkScore) : OkScore :=
  match f (proj1_sig s) as r return (exists s', r = Ret s' /\ score_ok s') -> OkScore with
  | Ret s' => fun H => exist _ s' (match H with ex_intro _ x (conj E Hx) => eq_ind_r score_ok Hx (f_equal (fun r => match r with Ret y => y | Panic => s' end) E) end)
  | Panic => fun H => False_rect _ (match H with ex_intro _ x (conj E _) => eq_ind Panic (fun r => match r with Panic => True | Ret _ => False end) Logic.I _ E end)
  end (H (proj1_sig s) (proj2_sig s)).

Definition lift (f : PeerScore -> PeerScore) (H : forall s, score_ok s -> score_ok (f s)) (s : OkScore) : OkScore :=
  exist _ (f (proj1_sig s)) (H _ (proj2_sig s)).

#[export] Instance peer_score_lib : PeerScoreLib := {|
  ScoreState := OkScore;
  ps_new params thresholds callback := exist _ (PeerScore_new params thresholds callback) (score_new_ok params thresholds callback);
  ps_score x := score_report (proj1_sig x);
  ps_thresholds x := sc_thresholds (proj1_sig x);
  ps_graft now p topic := lift_run _ (graft_ok now p topic);
  ps_prune p topic := lift_run _ (prune_ok p topic);
  ps_add_penalty p n := lift_run _ (penalty_ok p n);
  ps_reject_message now p id topic reason := lift_run _ (reject_ok now p id topic reason);
  ps_reject_invalid_message p topic := lift_run _ (reject_invalid_ok p topic);
  ps_duplicated_message now p id topic := lift_run _ (duplicated_ok now p id topic);
  ps_validate_message now p id topic := lift _ (score_validate_ok now p id topic);
  ps_deliver_message now p id topic := lift_run _ (deliver_ok now p id topic);
  ps_failed_message_slow_peer p := lift_run _ (slow_ok p);
  ps_add_peer p := lift _ (add_peer_ok p);
  ps_remove_peer now p := lift _ (remove_peer_ok now p);
  ps_add_ip p ip := lift _ (add_ip_ok p ip);
  ps_remove_ip p ip := lift _ (remove_ip_ok p ip);
  ps_refresh_scores now := lift _ (refresh_ok now);
  ps_set_application_score p x (s : OkScore) := ((set_application_score p x (proj1_sig s)).1, lift _ (set_application_ok p x) s);
  ps_set_topic_params topic params := lift _ (set_topic_params_ok topic params);
  ps_get_topic_params x := get_topic_params (proj1_sig x) |}.

(** An operation of the interface does what the component's operation does. *)
Lemma lift_run_eq f H (s : OkScore) : f (proj1_sig s) = Ret (proj1_sig (lift_run f H s)).
Proof. unfold lift_run. generalize (H (proj1_sig s) (proj2_sig s)). by destruct (f (proj1_sig s)) as [s'|]; [|intros (? & ? & _)]. Qed.
End facts.
