(* ===== verification/GsMesh.v ===== *)
(** The mesh of the gossipsub router (external/libp2p-gossipsub/src/behaviour.rs):
    joining and leaving topics, GRAFT and PRUNE, the subscriptions of peers, the
    upkeep of the mesh and of the fanout at every heartbeat, and connections. *)

From S2P Require Import Prelude Bytes BTree Common Float64 AppMessage Storage GsTimeCache GsBackoff GsMessageCache GsSubscriptions GsQueue GsConfig GsScore GsProtocol GsRouter.
From Stdlib Require Import Strings.Byte.

#[local] Open Scope Z_scope.

Section mesh.
Context {P : PeerIdLib} {K : KeypairLib} {S : SigningLib} {L : ProstLib} {R : RandLib} {PS : PeerScoreLib} {I : InstantLib}.
Context {Fl : Type} {TF : TopicSubscriptionFilter Fl} {D : Type} {DT : DataTransform D}.
Context {HP : HashIter PeerId} {HT : HashIter TopicHash} {HM : HashIter (list byte)} {HS : HashIter Subscription} {HB : HashIter (TopicHash * PeerId)}.

Local Abbreviation MsgId := (list byte).
Local Abbreviation Router := (Behaviour Fl D).
Local Abbreviation RM := (M Fl D).
Local Abbreviation topic_lists := (gmap PeerId (list TopicHash)).

(** The instant of the call. *)
Context (now : Z).

Definition may_graft (s : Router) (topic : TopicHash) (p : PeerId) : bool :=
  bool_decide (p ∉ gs_explicit_peers s) && negb (below_threshold s p zero_threshold)
  && negb (is_backoff_with_slack (gs_backoffs s) topic p).

(** * Joining and leaving *)

(** The peers [join] takes over from the fanout of the topic. *)
Definition fanout_to_mesh (s : Router) (topic : TopicHash) (peers : gset PeerId) : gset PeerId :=
  let peers := filter (fun p => may_graft s topic p = true) peers in
  list_to_set (take (Z.to_nat (Z.min (Z.of_nat (size peers)) (mesh_n_for_topic (gs_config s) topic))) (bt_iter peers)).

Definition join_fanout (topic : TopicHash) : RM (gset PeerId) :=
  s ← get;
  match gs_fanout s !! topic with
  | Some peers =>
      let added := fanout_to_mesh s topic peers in
      modify (upd_gs_fanout (delete topic));;
      modify (upd_gs_mesh (<[topic := added]>));;
      modify (upd_gs_fanout_last_pub (delete topic));;
      mret added
  | None => mret ∅
  end.

Definition extend_mesh (topic : TopicHash) (peers : gset PeerId) : RM unit :=
  modify (upd_gs_mesh (partial_alter (fun m => Some (default ∅ m ∪ peers)) topic)).

Definition join (topic : TopicHash) : RM unit :=
  config ← gets gs_config;
  let mesh_n := mesh_n_for_topic config topic in
  extend_mesh topic ∅;;
  added ← join_fanout topic;
  added ← (if decide (Z.of_nat (size added) < mesh_n) then
             s ← get;
             random ← get_random_peers topic (mesh_n - Z.of_nat (size added)) (fun p => bool_decide (p ∉ added) && may_graft s topic p);
             extend_mesh topic random;;
             mret (added ∪ random)
           else mret added);
  for_each (fun p => with_score (ps_graft now p topic);; send_message p (RpcGraft {| gr_topic_hash := topic |});; peer_added_to_mesh p [topic])
    (hash_iter added).

Definition make_prune (topic : TopicHash) (peer : PeerId) (do_px on_unsubscribe : bool) : RM Prune :=
  with_score (ps_prune peer topic);;
  s ← get;
  match pd_kind <$> gs_connected_peers s !! peer with
  | Some Gossipsub => mret {| pr_topic_hash := topic; pr_peers := []; pr_backoff := None |}
  | _ =>
      peers ← (if do_px then
                 px ← get_random_peers topic (cf_prune_peers (gs_config s))
                        (fun p => bool_decide (p ≠ peer) && negb (below_threshold s p zero_threshold));
                 mret (Some <$> bt_iter px)
               else mret []);
      let backoff := if on_unsubscribe then cf_unsubscribe_backoff (gs_config s) else cf_prune_backoff (gs_config s) in
      modify (upd_gs_backoffs (fun b => update_backoff now b topic peer backoff));;
      mret {| pr_topic_hash := topic; pr_peers := peers; pr_backoff := Some (as_secs backoff) |}
  end.

Definition leave (topic : TopicHash) : RM unit :=
  s ← get;
  match gs_mesh s !! topic with
  | None => mret tt
  | Some peers =>
      modify (upd_gs_mesh (delete topic));;
      for_each (fun p =>
        prune ← make_prune topic p (cf_do_px (gs_config s)) true;
        send_message p (RpcPrune prune);; peer_removed_from_mesh p topic) (bt_iter peers)
  end.

(** [subscribe] and [unsubscribe], of the topic's hash. *)
Definition gs_subscribe (topic : TopicHash) : RM (result bool SubscriptionError) :=
  s ← get;
  if negb (can_subscribe (gs_subscription_filter s) topic) then mret (Err NotAllowed)
  else if decide (is_Some (gs_mesh s !! topic)) then mret (Ok false)
  else
    send_all ((fun p => (p, RpcSubscribe topic false false)) <$> hash_iter (dom (gs_connected_peers s)));;
    join topic;;
    mret (Ok true).

Definition gs_unsubscribe (topic : TopicHash) : RM bool :=
  s ← get;
  if decide (gs_mesh s !! topic = None) then mret false
  else
    send_all ((fun p => (p, RpcUnsubscribe topic)) <$> hash_iter (dom (gs_connected_peers s)));;
    leave topic;;
    mret true.

(** * Explicit and blacklisted peers *)
Definition check_explicit_peer_connection (p : PeerId) : RM unit :=
  s ← get;
  if decide (gs_connected_peers s !! p = None) then emit (DialPeer p) else mret tt.

Definition add_explicit_peer (p : PeerId) : RM unit :=
  modify (upd_gs_explicit_peers (fun e => {[p]} ∪ e));; check_explicit_peer_connection p.
Definition remove_explicit_peer (p : PeerId) : RM unit := modify (upd_gs_explicit_peers (fun e => e ∖ {[p]})).
Definition blacklist_peer (p : PeerId) : RM unit := modify (upd_gs_blacklisted_peers (fun e => {[p]} ∪ e)).
Definition remove_blacklisted_peer (p : PeerId) : RM unit := modify (upd_gs_blacklisted_peers (fun e => e ∖ {[p]})).

(** * Scoring (the operations of the behaviour) *)
Definition with_peer_score_and_message_delivery_time_callback (params : PeerScoreParams) (thresholds : PeerScoreThresholds) (callback : bool) : RM (result unit string) :=
  match PeerScoreParams_validate params, PeerScoreThresholds_validate thresholds with
  | Err e, _ => mret (Err e)
  | Ok _, Err e => mret (Err e)
  | Ok _, Ok _ =>
      s ← get;
      match gs_peer_score s with
      | Some _ => mret (Err "Peer score set twice"%string)
      | None => modify (upd_gs_peer_score (fun _ => Some (ps_new params thresholds callback)));; mret (Ok tt)
      end
  end.

Definition with_peer_score (params : PeerScoreParams) (thresholds : PeerScoreThresholds) : RM (result unit string) :=
  with_peer_score_and_message_delivery_time_callback params thresholds false.

Definition gs_set_topic_params (topic : TopicHash) (params : TopicScoreParams) : RM (result unit string) :=
  s ← get;
  match gs_peer_score s with
  | Some _ => with_score (ps_set_topic_params topic params);; mret (Ok tt)
  | None => mret (Err "Peer score must be initialised with `with_peer_score()`"%string)
  end.

Definition gs_get_topic_params (s : Router) (topic : TopicHash) : option TopicScoreParams :=
  match gs_peer_score s with Some ps => ps_get_topic_params ps topic | None => None end.

Definition gs_set_application_score (peer_id : PeerId) (new_score : f64) : RM bool :=
  s ← get;
  match gs_peer_score s with
  | Some ps =>
      with_score (fun ps => (ps_set_application_score peer_id new_score ps).2);; mret (ps_set_application_score peer_id new_score ps).1
  | None => mret false
  end.

Definition gs_peer_score_of (s : Router) (peer_id : PeerId) : option f64 :=
  match gs_peer_score s with Some ps => Some (ps_score ps peer_id) | None => None end.

(** * GRAFT *)

(** The penalty of a GRAFT within the backoff: a second one when it is far from over. *)
Definition graft_penalty (c : Config) (peer_id : PeerId) (backoff_time : Z) : RM unit :=
  with_score (ps_add_penalty peer_id 1);;
  let extra := if decide (cf_graft_flood_threshold c <= cf_prune_backoff c)
               then bool_decide (cf_prune_backoff c - cf_graft_flood_threshold c < sat_sub backoff_time now)
               else true in
  if extra then with_score (ps_add_penalty peer_id 1) else mret tt.

(** The end of the peer's backoff, if it is not over. *)
Definition active_backoff (s : Router) (topic : TopicHash) (p : PeerId) : option Z :=
  match get_backoff_time (gs_backoffs s) topic p with
  | Some t => if decide (now < t) then Some t else None
  | None => None
  end.

(** One topic of a GRAFT.  The accumulator: whether to exchange peers in the
    answer, and the topics to prune. *)
Definition graft_topic (peer_id : PeerId) (peer : PeerDetails) (below_zero : bool) (acc : bool * gset TopicHash) (topic : TopicHash)
    : RM (bool * gset TopicHash) :=
  let '(do_px, to_prune) := acc in
  s ← get;
  match gs_mesh s !! topic with
  | None => mret (false, to_prune)
  | Some peers =>
      if decide (peer_id ∈ peers) then mret (do_px, to_prune)
      else
        match active_backoff s topic peer_id with
        | Some backoff_time => graft_penalty (gs_config s) peer_id backoff_time;; mret (false, {[topic]} ∪ to_prune)
        | None =>
            if below_zero then mret (false, {[topic]} ∪ to_prune)
            else if decide (topic ∉ pd_topics peer) then mret (false, to_prune)
            else if bool_decide (mesh_n_high_for_topic (gs_config s) topic <= Z.of_nat (size peers)) && negb (pd_outbound peer)
            then mret (do_px, {[topic]} ∪ to_prune)
            else
              extend_mesh topic {[peer_id]};;
              peer_added_to_mesh peer_id [topic];;
              with_score (ps_graft now peer_id topic);;
              mret (do_px, to_prune)
        end
  end.

(** [map(make_prune).collect()] comes before the first PRUNE is sent. *)
Fixpoint make_prunes (l : list (TopicHash * PeerId)) (do_px : bool) : RM (list Prune) :=
  match l with
  | [] => mret []
  | (topic, peer) :: l => prune ← make_prune topic peer do_px false; rest ← make_prunes l do_px; mret (prune :: rest)
  end.

Definition handle_graft (peer_id : PeerId) (topics : list TopicHash) : RM unit :=
  s ← get;
  match gs_connected_peers s !! peer_id with
  | None => mret tt
  | Some peer =>
      if decide (peer_id ∈ gs_explicit_peers s) then mret tt
      else
        acc ← foldM (graft_topic peer_id peer (below_threshold s peer_id zero_threshold)) (cf_do_px (gs_config s), ∅) topics;
        prunes ← make_prunes ((fun t => (t, peer_id)) <$> hash_iter acc.2) acc.1;
        send_all ((fun p => (peer_id, RpcPrune p)) <$> prunes)
  end.

Definition handle_extensions (peer_id : PeerId) (extensions : Extensions) : RM unit :=
  update_peer peer_id (upd_pd_extensions (fun e => match e with Some _ => e | None => Some extensions end)).

(** * PRUNE *)
Definition MAX_REMOTE_PRUNE_BACKOFF_SECONDS : Z := 3600.

Definition remove_peer_from_mesh (peer_id : PeerId) (topic : TopicHash) (backoff : option Z) (always_update_backoff : bool) : RM bool :=
  s ← get;
  let peer_removed := match gs_mesh s !! topic with Some peers => bool_decide (peer_id ∈ peers) | None => false end in
  (if peer_removed then
     modify (upd_gs_mesh (alter (fun peers => peers ∖ {[peer_id]}) topic));;
     with_score (ps_prune peer_id topic);;
     peer_removed_from_mesh peer_id topic
   else mret tt);;
  (if always_update_backoff || peer_removed then
     let time := match backoff with
                 | Some backoff => from_secs (Z.min backoff MAX_REMOTE_PRUNE_BACKOFF_SECONDS)
                 | None => cf_prune_backoff (gs_config s)
                 end in
     modify (upd_gs_backoffs (fun b => update_backoff now b topic peer_id time))
   else mret tt);;
  mret peer_removed.

Definition px_connect (px : list (option PeerId)) : RM unit :=
  n ← gets (fun s => cf_prune_peers (gs_config s));
  let px := filter is_Some px in
  px ← (if decide (n < len px) then shuffled ← with_rng (fun g => shuffle g px); mret (take (Z.to_nat n) shuffled) else mret px);
  for_each (fun p => match p with
                     | Some peer_id => modify (upd_gs_px_peers (fun x => {[peer_id]} ∪ x));; emit (DialPeer peer_id)
                     | None => mret tt
                     end) px.

Definition prune_topic (peer_id : PeerId) (below : bool) (data : Prune) : RM unit :=
  remove_peer_from_mesh peer_id (pr_topic_hash data) (pr_backoff data) true;;
  s ← get;
  if bool_decide (is_Some (gs_mesh s !! pr_topic_hash data)) && bool_decide (pr_peers data ≠ []) && negb below
     && bool_decide (0 < cf_prune_peers (gs_config s))
  then px_connect (pr_peers data) else mret tt.

Definition handle_prune (peer_id : PeerId) (prune_data : list Prune) : RM unit :=
  s ← get;
  for_each (prune_topic peer_id (below_threshold s peer_id accept_px_threshold)) prune_data.

(** * The subscriptions of a peer *)

(** The accumulator: the topics to unsubscribe and to graft, and the events for
    the application. *)
Record SubscriptionWork := { sw_unsubscribed : list TopicHash; sw_graft : list TopicHash; sw_events : list GsEvent }.

Definition subscribe_topic (peer_id : PeerId) (w : SubscriptionWork) (topic : TopicHash) : RM SubscriptionWork :=
  update_peer peer_id (upd_pd_topics (fun t => {[topic]} ∪ t));;
  s ← get;
  let events := sw_events w ++ [EvSubscribed peer_id topic] in
  let is_gossip := match gs_connected_peers s !! peer_id with Some d => is_gossipsub (pd_kind d) | None => false end in
  match gs_mesh s !! topic with
  | Some peers =>
      if bool_decide (peer_id ∉ gs_explicit_peers s) && is_gossip && negb (below_threshold s peer_id zero_threshold)
         && negb (is_backoff_with_slack (gs_backoffs s) topic peer_id)
         && bool_decide (Z.of_nat (size peers) < mesh_n_low_for_topic (gs_config s) topic) && bool_decide (peer_id ∉ peers)
      then
        extend_mesh topic {[peer_id]};;
        with_score (ps_graft now peer_id topic);;
        mret {| sw_unsubscribed := sw_unsubscribed w; sw_graft := sw_graft w ++ [topic]; sw_events := events |}
      else mret {| sw_unsubscribed := sw_unsubscribed w; sw_graft := sw_graft w; sw_events := events |}
  | None => mret {| sw_unsubscribed := sw_unsubscribed w; sw_graft := sw_graft w; sw_events := events |}
  end.

Definition unsubscribe_topic (peer_id : PeerId) (w : SubscriptionWork) (topic : TopicHash) : RM SubscriptionWork :=
  update_peer peer_id (upd_pd_topics (fun t => t ∖ {[topic]}));;
  mret {| sw_unsubscribed := sw_unsubscribed w ++ [topic]; sw_graft := sw_graft w; sw_events := sw_events w ++ [EvUnsubscribed peer_id topic] |}.

Definition one_subscription (peer_id : PeerId) (w : SubscriptionWork) (s : Subscription) : RM SubscriptionWork :=
  match sb_action s with Subscribe => subscribe_topic peer_id w (sb_topic s) | Unsubscribe => unsubscribe_topic peer_id w (sb_topic s) end.

Definition remove_from_fanout (peer_id : PeerId) (topic : TopicHash) : RM unit :=
  modify (upd_gs_fanout (alter (fun peers => peers ∖ {[peer_id]}) topic)).

Definition handle_received_subscriptions (subscriptions : list Subscription) (peer_id : PeerId) : RM unit :=
  s ← get;
  match gs_connected_peers s !! peer_id with
  | None => mret tt
  | Some peer =>
      match filter_incoming_subscriptions (gs_subscription_filter s) subscriptions (pd_topics peer) with
      | Err _ => mret tt
      | Ok filtered =>
          w ← foldM (one_subscription peer_id) {| sw_unsubscribed := []; sw_graft := []; sw_events := [] |} (hash_iter filtered);
          for_each (fun topic => remove_from_fanout peer_id topic;; remove_peer_from_mesh peer_id topic None false;; mret tt) (sw_unsubscribed w);;
          (if decide (sw_graft w = []) then mret tt else peer_added_to_mesh peer_id (sw_graft w));;
          send_all ((fun topic => (peer_id, RpcGraft {| gr_topic_hash := topic |})) <$> sw_graft w);;
          for_each (fun e => emit (GenerateEvent e)) (sw_events w)
      end
  end.
End mesh.
