(* ===== verification/GsHeartbeat.v ===== *)
(** The heartbeat of the gossipsub router
    (external/libp2p-gossipsub/src/behaviour.rs): every interval the meshes are
    brought back to their size, the fanout is kept alive, gossip about recent
    messages is sent and the caches are shifted. *)

From S2P Require Import Prelude Bytes BTree Common Float64 AppMessage Storage GsTimeCache GsBackoff GsMessageCache GsSubscriptions GsQueue GsConfig GsScore GsProtocol GsRouter GsMesh.
From Stdlib Require Import Strings.Byte.

#[local] Open Scope Z_scope.

Section heartbeat.
Context {P : PeerIdLib} {K : KeypairLib} {S : SigningLib} {L : ProstLib} {R : RandLib} {PS : PeerScoreLib} {I : InstantLib}.
Context {Fl : Type} {TF : TopicSubscriptionFilter Fl} {D : Type} {DT : DataTransform D}.
Context {HP : HashIter PeerId} {HT : HashIter TopicHash} {HM : HashIter (list byte)} {HS : HashIter Subscription} {HB : HashIter (TopicHash * PeerId)}.

Local Abbreviation MsgId := (list byte).
Local Abbreviation Router := (Behaviour Fl D).
Local Abbreviation RM := (M Fl D).
Local Abbreviation topic_lists := (gmap PeerId (list TopicHash)).

Context (now : Z).

(** * The mesh of one topic *)

(** What the upkeep of the meshes collects for [send_graft_prune]. *)
Record MeshWork := { to_graft : topic_lists; to_prune : topic_lists; no_px : gset PeerId }.
Definition MeshWork_empty : MeshWork := {| to_graft := ∅; to_prune := ∅; no_px := ∅ |}.

Definition add_topic (topic : TopicHash) (m : topic_lists) (p : PeerId) : topic_lists :=
  <[p := default [] (m !! p) ++ [topic]]> m.
Definition note_grafts (topic : TopicHash) (peers : gset PeerId) (w : MeshWork) : MeshWork :=
  {| to_graft := foldl (add_topic topic) (to_graft w) (bt_iter peers); to_prune := to_prune w; no_px := no_px w |}.
Definition note_prunes (topic : TopicHash) (l : list PeerId) (w : MeshWork) : MeshWork :=
  {| to_graft := to_graft w; to_prune := foldl (add_topic topic) (to_prune w) l; no_px := no_px w |}.
Definition note_no_px (peers : gset PeerId) (w : MeshWork) : MeshWork :=
  {| to_graft := to_graft w; to_prune := to_prune w; no_px := peers ∪ no_px w |}.

(** [scores.get(p).map(|r| r.score).unwrap_or_default()], from the scores that
    were cached for the connected peers. *)
Definition cached_score (s : Router) (p : PeerId) : f64 :=
  match gs_peer_score s with
  | Some ps => if decide (is_Some (gs_connected_peers s !! p)) then ps_score ps p else f64_zero
  | None => f64_zero
  end.

Definition is_outbound (s : Router) (p : PeerId) : bool :=
  match gs_connected_peers s !! p with Some d => pd_outbound d | None => false end.

Definition graftable (s : Router) (topic : TopicHash) (peers : gset PeerId) (p : PeerId) : bool :=
  bool_decide (p ∉ peers) && bool_decide (p ∉ gs_explicit_peers s) && negb (is_backoff_with_slack (gs_backoffs s) topic p).

(** Peers with a negative score are dropped. *)
Definition drop_negative (s : Router) (topic : TopicHash) (st : gset PeerId * MeshWork) : gset PeerId * MeshWork :=
  let '(peers, w) := st in
  let dropped := filter (fun p => f64_lt (cached_score s p) f64_zero = true) peers in
  (peers ∖ dropped, note_no_px dropped (note_prunes topic (bt_iter dropped) w)).

(** Too few peers. *)
Definition fill_mesh (topic : TopicHash) (st : gset PeerId * MeshWork) : RM (gset PeerId * MeshWork) :=
  let '(peers, w) := st in
  s ← get;
  if decide (Z.of_nat (size peers) < mesh_n_low_for_topic (gs_config s) topic) then
    desired ← usize_sub (mesh_n_for_topic (gs_config s) topic) (Z.of_nat (size peers));
    new ← get_random_peers topic desired (fun p => graftable s topic peers p && f64_le f64_zero (cached_score s p));
    mret (peers ∪ new, note_grafts topic new w)
  else mret st.

(** The loop that removes the first [excess] peers it may: the peers that go,
    in order. *)
Fixpoint choose_excess (s : Router) (outbound_min excess outbound : Z) (l : list PeerId) : list PeerId :=
  match l with
  | [] => []
  | p :: l =>
      if decide (excess = 0) then []
      else if is_outbound s p then
        if decide (outbound <= outbound_min) then choose_excess s outbound_min excess outbound l
        else p :: choose_excess s outbound_min (excess - 1) (outbound - 1) l
      else p :: choose_excess s outbound_min (excess - 1) outbound l
  end.

Definition count_outbound (s : Router) (l : list PeerId) : Z := len (filter (fun p => is_outbound s p = true) l).

(** The order of removal: random, but the [retain_scores] best come last. *)
Definition score_le (s : Router) (p q : PeerId) : Prop := f64_lt (cached_score s q) (cached_score s p) = false.
#[global] Instance score_le_dec s : RelDecision (score_le s).
Proof. intros p q. unfold score_le. apply _. Defined.

Definition removal_order (peers : gset PeerId) : RM (list PeerId) :=
  s ← get;
  shuffled ← with_rng (fun g => shuffle g (bt_iter peers));
  let sorted := merge_sort (score_le s) shuffled in
  if decide (cf_retain_scores (gs_config s) < Z.of_nat (size peers)) then
    let k := Z.to_nat (Z.of_nat (size peers) - cf_retain_scores (gs_config s)) in
    worst ← with_rng (fun g => shuffle g (take k sorted));
    mret (worst ++ drop k sorted)
  else mret sorted.

(** Too many peers. *)
Definition thin_mesh (topic : TopicHash) (st : gset PeerId * MeshWork) : RM (gset PeerId * MeshWork) :=
  let '(peers, w) := st in
  s ← get;
  if decide (mesh_n_high_for_topic (gs_config s) topic <= Z.of_nat (size peers)) then
    excess ← usize_sub (Z.of_nat (size peers)) (mesh_n_for_topic (gs_config s) topic);
    order ← removal_order peers;
    let removed := choose_excess s (mesh_outbound_min_for_topic (gs_config s) topic) excess (count_outbound s order) order in
    mret (peers ∖ list_to_set removed, note_prunes topic removed w)
  else mret st.

(** Too few outbound peers. *)
Definition fill_outbound (topic : TopicHash) (st : gset PeerId * MeshWork) : RM (gset PeerId * MeshWork) :=
  let '(peers, w) := st in
  s ← get;
  let outbound := count_outbound s (elements peers) in
  if bool_decide (mesh_n_low_for_topic (gs_config s) topic <= Z.of_nat (size peers))
     && bool_decide (outbound < mesh_outbound_min_for_topic (gs_config s) topic)
  then
    new ← get_random_peers topic (mesh_outbound_min_for_topic (gs_config s) topic - outbound)
            (fun p => graftable s topic peers p && f64_le f64_zero (cached_score s p) && is_outbound s p);
    mret (peers ∪ new, note_grafts topic new w)
  else mret st.

(** Opportunistic grafting: the mesh scores badly. *)
Definition median_score (s : Router) (peers : gset PeerId) : option f64 :=
  let sorted := merge_sort (score_le s) (bt_iter peers) in
  let middle := (length sorted / 2)%nat in
  if decide (length sorted mod 2 = 0)%nat then
    match sorted !! (middle - 1)%nat, sorted !! middle with
    | Some a, Some b => Some (f64_mean (cached_score s a) (cached_score s b))
    | _, _ => None
    end
  else cached_score s <$> sorted !! middle.

Definition opportunistic_graft (topic : TopicHash) (st : gset PeerId * MeshWork) : RM (gset PeerId * MeshWork) :=
  let '(peers, w) := st in
  s ← get;
  match gs_peer_score s with
  | Some ps =>
      if is_multiple_of (gs_heartbeat_ticks s) (cf_opportunistic_graft_ticks (gs_config s)) && bool_decide (1 < Z.of_nat (size peers)) then
        match median_score s peers with
        | None => panic
        | Some median =>
            if f64_lt median (opportunistic_graft_threshold (ps_thresholds ps)) then
              new ← get_random_peers topic (cf_opportunistic_graft_peers (gs_config s))
                      (fun p => graftable s topic peers p && f64_lt median (cached_score s p));
              mret (peers ∪ new, note_grafts topic new w)
            else mret st
        end
      else mret st
  | None => mret st
  end.

Definition maintain_topic (w : MeshWork) (topic : TopicHash) : RM MeshWork :=
  s ← get;
  st ← fill_mesh topic (drop_negative s topic (default ∅ (gs_mesh s !! topic), w));
  st ← thin_mesh topic st;
  st ← fill_outbound topic st;
  st ← opportunistic_graft topic st;
  modify (upd_gs_mesh (<[topic := st.1]>));;
  mret st.2.

(** * The fanout *)
Definition expired_fanout (s : Router) : gmap TopicHash Z :=
  filter (fun e => cf_fanout_ttl (gs_config s) < sat_sub now e.2) (gs_fanout_last_pub s).

Definition expire_fanout : RM unit :=
  s ← get;
  let expired := expired_fanout s in
  modify (upd_gs_fanout (fun m => m ∖ ((fun _ => ∅) <$> expired)));;
  modify (upd_gs_fanout_last_pub (fun m => m ∖ expired)).

Definition fanout_stays (s : Router) (topic : TopicHash) (p : PeerId) : bool :=
  match gs_connected_peers s !! p with
  | Some d => bool_decide (topic ∈ pd_topics d)
              && negb (f64_lt (cached_score s p) match gs_peer_score s with Some ps => publish_threshold (ps_thresholds ps) | None => f64_zero end)
  | None => false
  end.

Definition maintain_fanout (topic : TopicHash) : RM unit :=
  s ← get;
  let peers := filter (fun p => fanout_stays s topic p = true) (default ∅ (gs_fanout s !! topic)) in
  let mesh_n := mesh_n_for_topic (gs_config s) topic in
  peers ← (if decide (Z.of_nat (size peers) < mesh_n) then
             new ← get_random_peers topic (mesh_n - Z.of_nat (size peers))
                     (fun p => bool_decide (p ∉ peers) && bool_decide (p ∉ gs_explicit_peers s) && negb (below_threshold s p publish_threshold));
             mret (peers ∪ new)
           else mret peers);
  modify (upd_gs_fanout (<[topic := peers]>)).

(** * Gossip *)

(** The IHAVE for one peer, shuffled and cut when there is too much. *)
Definition ihave_for (max : Z) (topic : TopicHash) (message_ids : list MsgId) (acc : list (PeerId * RpcOut)) (p : PeerId) : RM (list (PeerId * RpcOut)) :=
  ids ← (if decide (max < len message_ids) then shuffled ← with_rng (fun g => shuffle g message_ids); mret (take (Z.to_nat max) shuffled)
         else mret message_ids);
  mret (acc ++ [(p, RpcIHave {| ih_topic_hash := topic; ih_message_ids := ids |})]).

Definition gossip_share (c : Config) (m : Z) : Z := Z.max (cf_gossip_lazy c) (f64_share (cf_gossip_factor c) m).

Definition gossip_topic (acc : list (PeerId * RpcOut)) (x : TopicHash * gset PeerId) : RM (list (PeerId * RpcOut)) :=
  let '(topic, peers) := x in
  s ← get;
  message_ids ← lift (get_gossip_message_ids (gs_mcache s) topic);
  if decide (message_ids = []) then mret acc
  else
    let max := cf_max_control_messages_sent (gs_config s) in
    message_ids ← (if decide (max < len message_ids) then mret message_ids else with_rng (fun g => shuffle g message_ids));
    to_msg_peers ← get_random_peers_dynamic topic (gossip_share (gs_config s))
      (fun p => bool_decide (p ∉ peers) && bool_decide (p ∉ gs_explicit_peers s) && negb (below_threshold s p gossip_threshold));
    foldM (ihave_for max topic message_ids) acc (bt_iter to_msg_peers).

Definition entries_of (m : gmap TopicHash (gset PeerId)) : list (TopicHash * gset PeerId) :=
  (fun t => (t, default ∅ (m !! t))) <$> hash_iter (dom m).

Definition emit_gossip : RM unit :=
  s ← get;
  messages ← foldM gossip_topic [] (entries_of (gs_mesh s) ++ entries_of (gs_fanout s));
  send_all messages.

(** * GRAFT and PRUNE messages *)
Definition px_allowed (s : Router) (w : MeshWork) (p : PeerId) : bool := cf_do_px (gs_config s) && bool_decide (p ∉ no_px w).

Definition graft_peer (w : MeshWork) (p : PeerId) : RM unit :=
  s ← get;
  let topics := default [] (to_graft w !! p) in
  for_each (fun topic => with_score (ps_graft now p topic);; peer_added_to_mesh p [topic]) topics;;
  prunes ← make_prunes now ((fun t => (t, p)) <$> default [] (to_prune w !! p)) (px_allowed s w p);
  send_all (((fun topic => (p, RpcGraft {| gr_topic_hash := topic |})) <$> topics) ++ ((fun prune => (p, RpcPrune prune)) <$> prunes)).

Definition prune_peer (w : MeshWork) (p : PeerId) : RM unit :=
  s ← get;
  for_each (fun topic =>
    prune ← make_prune now topic p (px_allowed s w p) false;
    send_message p (RpcPrune prune);; peer_removed_from_mesh p topic) (default [] (to_prune w !! p)).

Definition send_graft_prune (w : MeshWork) : RM unit :=
  for_each (graft_peer w) (hash_iter (dom (to_graft w)));;
  for_each (prune_peer w) (hash_iter (dom (to_prune w) ∖ dom (to_graft w))).

(** * The heartbeat *)
Definition apply_iwant_penalties : RM unit :=
  s ← get;
  match gs_peer_score s with
  | None => mret tt
  | Some _ =>
      let '(broken, promises) := get_broken_promises now (gs_gossip_promises s) in
      modify (upd_gs_gossip_promises (fun _ => promises));;
      for_each (fun p => with_score (ps_add_penalty p (default 0 (broken !! p)))) (hash_iter (dom broken))
  end.

Definition IDONTWANT_TIMEOUT : Z := from_secs 3.

(** [while let Some(front) ..]: stale entries leave from the front. *)
Fixpoint flush_dont_send (l : list (MsgId * Z)) : list (MsgId * Z) :=
  match l with
  | [] => []
  | (id, instant) :: rest => if decide (sat_sub now instant <= IDONTWANT_TIMEOUT) then l else flush_dont_send rest
  end.

Definition report_slow_peers : RM unit :=
  s ← get;
  modify (upd_gs_failed_messages (fun _ => ∅));;
  for_each (fun p => emit (GenerateEvent (EvSlowPeer p (default {| fm_priority := 0; fm_non_priority := 0 |} (gs_failed_messages s !! p)))))
    (hash_iter (dom (gs_failed_messages s))).

Definition check_explicit_peers : RM unit :=
  s ← get;
  if is_multiple_of (gs_heartbeat_ticks s) (cf_check_explicit_peers_ticks (gs_config s))
  then for_each check_explicit_peer_connection (hash_iter (gs_explicit_peers s)) else mret tt.

(** The upkeep of all meshes, of the fanout, and what it makes the node send. *)
Definition maintain_all : RM MeshWork :=
  s ← get;
  w ← foldM maintain_topic MeshWork_empty (hash_iter (dom (gs_mesh s)));
  expire_fanout;;
  s ← get;
  for_each maintain_fanout (hash_iter (dom (gs_fanout s)));;
  mret w.

Definition backoff_tick : RM unit :=
  s ← get;
  b ← lift (backoff_heartbeat now (gs_backoffs s));
  modify (upd_gs_backoffs (fun _ => b)).

Definition heartbeat : RM unit :=
  modify (upd_gs_heartbeat_ticks (fun n => n + 1));;
  backoff_tick;;
  modify (upd_gs_count_sent_iwant (fun _ => ∅));;
  modify (upd_gs_count_received_ihave (fun _ => ∅));;
  apply_iwant_penalties;;
  check_explicit_peers;;
  w ← maintain_all;
  emit_gossip;;
  send_graft_prune w;;
  modify (upd_gs_mcache mc_shift);;
  report_slow_peers;;
  modify (upd_gs_connected_peers (fmap (upd_pd_dont_send flush_dont_send))).
End heartbeat.
