(* ===== verification/GsMessages.v ===== *)
(** The messages of the gossipsub router
    (external/libp2p-gossipsub/src/behaviour.rs): publishing, receiving,
    validating and forwarding, IHAVE and IWANT, connections, and the dispatch of
    the handlers' events. *)

From S2P Require Import Prelude Bytes BTree Common AppMessage Storage GsTimeCache GsBackoff GsMessageCache GsSubscriptions GsQueue GsConfig GsScore GsProtocol GsRouter GsMesh GsHeartbeat.
From Stdlib Require Import Strings.Byte.

#[local] Open Scope Z_scope.

Section messages.
Context {P : PeerIdLib} {K : KeypairLib} {S : SigningLib} {L : ProstLib} {R : RandLib} {PS : PeerScoreLib} {I : InstantLib}.
Context {Fl : Type} {TF : TopicSubscriptionFilter Fl} {D : Type} {DT : DataTransform D}.
Context {HP : HashIter PeerId} {HT : HashIter TopicHash} {HM : HashIter (list byte)} {HS : HashIter Subscription} {HB : HashIter (TopicHash * PeerId)}.

Local Abbreviation MsgId := (list byte).
Local Abbreviation Router := (Behaviour Fl D).
Local Abbreviation RM := (M Fl D).

Context (now : Z).

(** * Publishing *)
Definition publishable (s : Router) (topic : TopicHash) (p : PeerId) : bool :=
  match gs_connected_peers s !! p with
  | Some d => bool_decide (topic ∈ pd_topics d) && (bool_decide (p ∈ gs_explicit_peers s) || negb (below_threshold s p publish_threshold))
  | None => false
  end.

Definition publish_peers (s : Router) (topic : TopicHash) : gset PeerId :=
  filter (fun p => publishable s topic p = true) (dom (gs_connected_peers s)).

Definition always_included (s : Router) (p : PeerId) : bool :=
  bool_decide (p ∈ gs_explicit_peers s) || bool_decide (pd_kind <$> gs_connected_peers s !! p = Some Floodsub).

Definition filter_publish_candidates (topic : TopicHash) (candidates : gset PeerId) : RM (gset PeerId) :=
  s ← get;
  if cf_flood_publish (gs_config s) then mret candidates
  else
    let mesh_n := mesh_n_for_topic (gs_config s) topic in
    let recipients := filter (fun p => always_included s p = true) candidates in
    match gs_mesh s !! topic with
    | Some mesh_peers =>
        let mesh_peers := candidates ∩ mesh_peers in
        let needed := sat_sub mesh_n (Z.of_nat (size mesh_peers)) in
        extras ← (if decide (0 < needed)
                  then with_rng (fun g => sample g (Z.to_nat needed) (hash_iter (candidates ∖ mesh_peers ∖ recipients)))
                  else mret []);
        mret (recipients ∪ list_to_set extras ∪ mesh_peers)
    | None =>
        let fanout_peers := candidates ∩ default ∅ (gs_fanout s !! topic) in
        let needed := sat_sub mesh_n (Z.of_nat (size fanout_peers)) in
        let recipients := recipients ∪ fanout_peers in
        recipients ← (if decide (0 < needed) then
                        new_peers ← with_rng (fun g => sample g (Z.to_nat needed) (hash_iter (candidates ∖ recipients)));
                        modify (upd_gs_fanout (<[topic := list_to_set new_peers]>));;
                        mret (recipients ∪ list_to_set new_peers)
                      else mret recipients);
        modify (upd_gs_fanout_last_pub (<[topic := now]>));;
        mret recipients
    end.

Definition build_raw_message_m (topic : TopicHash) (data : list byte) : RM (result RawMessage string) :=
  s ← get;
  number ← with_rng random_u64;
  peer ← with_rng random_peer_id;
  x ← lift (build_raw_message number peer (gs_publish_config s) topic data);
  modify (upd_gs_publish_config (fun _ => x.2));;
  mret x.1.

(** The message and, when it is large and the configuration says so, an
    IDONTWANT before it; whether the message was queued. *)
Definition publish_to (s : Router) (msg_id : MsgId) (m : RawMessage) (sent : bool) (p : PeerId) : RM bool :=
  (if bool_decide (cf_idontwant_message_size_threshold (gs_config s) < raw_protobuf_len m) && cf_idontwant_on_publish (gs_config s)
   then send_message p (RpcIDontWant {| idw_message_ids := [msg_id] |});; mret tt else mret tt);;
  ok ← send_message p (RpcPublish msg_id m (now + cf_connection_handler_publish_duration (gs_config s)));
  mret (sent || ok).

Definition gs_publish (topic : TopicHash) (data : list byte) : RM (result MsgId PublishError) :=
  s ← get;
  match outbound_transform (gs_data_transform s) topic data with
  | Err e => mret (Err (TransformFailed e))
  | Ok transformed =>
      if decide (max_transmit_size_for_topic (cf_protocol (gs_config s)) topic < len transformed) then mret (Err MessageTooLarge)
      else
        raw ← build_raw_message_m topic transformed;
        match raw with
        | Err e => mret (Err (SigningError e))
        | Ok raw_message =>
            let msg_id := cf_message_id_fn (gs_config s) {|
              ms_source := rm_source raw_message; ms_data := data;
              ms_sequence_number := rm_sequence_number raw_message; ms_topic := rm_topic raw_message |} in
            if dup_contains (gs_duplicate_cache s) msg_id then mret (Err Duplicate)
            else
              recipients ← filter_publish_candidates topic (publish_peers s topic);
              if decide (recipients = ∅) then mret (Err NoPeersSubscribedToTopic)
              else
                modify (upd_gs_duplicate_cache (fun c => (dup_insert now c msg_id).2));;
                modify (upd_gs_mcache (fun c => (mc_put c msg_id raw_message).2));;
                modify (upd_gs_gossip_promises (fun g => message_delivered g msg_id));;
                sent ← foldM (publish_to s msg_id raw_message) false (hash_iter recipients);
                if (sent : bool) then mret (Ok msg_id) else mret (Err (AllQueuesFull (Z.of_nat (size recipients))))
        end
  end.

(** * Forwarding *)
Definition dont_send_contains (d : PeerDetails) (msg_id : MsgId) : bool := existsb (fun e => bool_decide (e.1 = msg_id)) (pd_dont_send d).

Definition not_origin (m : RawMessage) (propagation_source : option PeerId) (originating_peers : gset PeerId) (p : PeerId) : bool :=
  bool_decide (Some p ≠ propagation_source) && bool_decide (p ∉ originating_peers) && bool_decide (Some p ≠ rm_source m).

Definition forward_recipients (s : Router) (m : RawMessage) (propagation_source : option PeerId) (originating_peers : gset PeerId) : gset PeerId :=
  filter (fun p => match gs_connected_peers s !! p with
                   | Some d => not_origin m propagation_source originating_peers p && bool_decide (rm_topic m ∈ pd_topics d)
                       && (bool_decide (p ∈ gs_explicit_peers s)
                           || bool_decide (pd_kind d = Floodsub) && negb (below_threshold s p publish_threshold))
                   | None => false
                   end = true) (dom (gs_connected_peers s))
  ∪ filter (fun p => not_origin m propagation_source originating_peers p = true) (mesh_peers s (rm_topic m)).

Definition forward_to (msg_id : MsgId) (m : RawMessage) (p : PeerId) : RM unit :=
  s ← get;
  match gs_connected_peers s !! p with
  | None => mret tt
  | Some d =>
      if dont_send_contains d msg_id then mret tt
      else send_message p (RpcPublish msg_id m (now + cf_connection_handler_forward_duration (gs_config s)));; mret tt
  end.

Definition forward_msg (msg_id : MsgId) (m : RawMessage) (propagation_source : option PeerId) (originating_peers : gset PeerId) : RM bool :=
  (match propagation_source with Some p => with_score (ps_deliver_message now p msg_id (rm_topic m)) | None => mret tt end);;
  s ← get;
  let recipients := forward_recipients s m propagation_source originating_peers in
  if decide (recipients = ∅) then mret false
  else for_each (forward_to msg_id m) (hash_iter recipients);; mret true.

Definition report_message_validation_result (msg_id : MsgId) (propagation_source : PeerId) (acceptance : MessageAcceptance) : RM bool :=
  s ← get;
  match acceptance with
  | Accept =>
      let '(r, c) := mc_validate (gs_mcache s) msg_id in
      match r with
      | Some (raw_message, originating_peers) =>
          modify (upd_gs_mcache (fun _ => c));;
          forward_msg msg_id raw_message (Some propagation_source) originating_peers;; mret true
      | None => mret false
      end
  | _ =>
      let reason := match acceptance with Reject => ValidationFailed | _ => ValidationIgnored end in
      let '(r, c) := mc_remove (gs_mcache s) msg_id in
      modify (upd_gs_mcache (fun _ => c));;
      match r with
      | Some (raw_message, originating_peers) =>
          with_score (ps_reject_message now propagation_source msg_id (rm_topic raw_message) reason);;
          for_each (fun p => with_score (ps_reject_message now p msg_id (rm_topic raw_message) reason)) (hash_iter originating_peers);;
          mret true
      | None => mret false
      end
  end.

(** * Receiving *)
Definition handle_invalid_message (propagation_source : PeerId) (topic : TopicHash) (message_id : option MsgId) (reason : RejectReason) : RM unit :=
  match message_id with
  | Some id =>
      modify (upd_gs_gossip_promises (fun g => reject_message g id reason));;
      with_score (ps_reject_message now propagation_source id topic reason)
  | None => with_score (ps_reject_invalid_message propagation_source topic)
  end.

(** [message_is_valid]: the message with its flag set, if it is to be handled. *)
Definition self_published (s : Router) (m : RawMessage) (propagation_source : PeerId) : bool :=
  negb (cf_allow_self_origin (gs_config s)) &&
  match get_own_id (gs_publish_config s) with
  | Some own_id => bool_decide (own_id ≠ propagation_source) && bool_decide (rm_source m = Some own_id)
  | None => false
  end.

Definition from_blacklisted (s : Router) (m : RawMessage) : bool :=
  match rm_source m with Some source => bool_decide (source ∈ gs_blacklisted_peers s) | None => false end.

Definition message_is_valid (msg_id : MsgId) (m : RawMessage) (propagation_source : PeerId) : RM (option RawMessage) :=
  s ← get;
  if decide (propagation_source ∈ gs_blacklisted_peers s) then
    modify (upd_gs_gossip_promises (fun g => reject_message g msg_id BlackListedPeer));;
    with_score (ps_reject_message now propagation_source msg_id (rm_topic m) BlackListedPeer);;
    mret None
  else if from_blacklisted s m then
    handle_invalid_message propagation_source (rm_topic m) (Some msg_id) BlackListedSource;; mret None
  else
    let m := if cf_validate_messages (gs_config s) then m else set_validated m in
    if self_published s m propagation_source then
      handle_invalid_message propagation_source (rm_topic m) (Some msg_id) SelfOrigin;; mret None
    else mret (Some m).

Definition broadcast_idontwant (msg_id : MsgId) (message : Message) (m : RawMessage) (propagation_source : PeerId) : RM unit :=
  s ← get;
  if bool_decide (cf_idontwant_message_size_threshold (gs_config s) < raw_protobuf_len m) && negb (dup_contains (gs_duplicate_cache s) msg_id) then
    let recipients := filter (fun p => p ≠ propagation_source /\ Some p ≠ ms_source message)
                        (mesh_peers s (ms_topic message) ∪ peers_for_message (gs_gossip_promises s) msg_id) in
    send_all ((fun p => (p, RpcIDontWant {| idw_message_ids := [msg_id] |})) <$> hash_iter recipients)
  else mret tt.

(** A message that passed the checks and was not seen before. *)
Definition accept_message (msg_id : MsgId) (message : Message) (m : RawMessage) (propagation_source : PeerId) : RM unit :=
  modify (upd_gs_gossip_promises (fun g => message_delivered g msg_id));;
  with_score (ps_validate_message now propagation_source msg_id (ms_topic message));;
  modify (upd_gs_mcache (fun c => (mc_put c msg_id m).2));;
  s ← get;
  if decide (is_Some (gs_mesh s !! ms_topic message)) then
    emit (GenerateEvent (EvMessage propagation_source msg_id message));;
    if cf_validate_messages (gs_config s) then mret tt
    else forward_msg msg_id m (Some propagation_source) ∅;; mret tt
  else mret tt.

Definition handle_received_message (raw_message : RawMessage) (propagation_source : PeerId) : RM unit :=
  s ← get;
  match inbound_transform (gs_data_transform s) raw_message with
  | Err _ => handle_invalid_message propagation_source (rm_topic raw_message) None (RejectValidationError GsTimeCache.TransformFailed)
  | Ok message =>
      let msg_id := cf_message_id_fn (gs_config s) message in
      broadcast_idontwant msg_id message raw_message propagation_source;;
      valid ← message_is_valid msg_id raw_message propagation_source;
      match valid with
      | None => mret tt
      | Some raw_message =>
          s ← get;
          let '(new, cache) := dup_insert now (gs_duplicate_cache s) msg_id in
          modify (upd_gs_duplicate_cache (fun _ => cache));;
          if negb new then
            with_score (ps_duplicated_message now propagation_source msg_id (ms_topic message));;
            modify (upd_gs_mcache (fun c => observe_duplicate c msg_id propagation_source))
          else accept_message msg_id message raw_message propagation_source
      end
  end.

(** * IHAVE and IWANT *)

(** The announced ids to ask for: of topics the node is subscribed to, not seen
    and not asked for yet. *)
Definition wanted (s : Router) (acc : gset MsgId) (x : IHave) : gset MsgId :=
  if decide (is_Some (gs_mesh s !! ih_topic_hash x)) then
    acc ∪ list_to_set (filter (fun id => dup_contains (gs_duplicate_cache s) id = false /\ promises_contains (gs_gossip_promises s) id = false)
                         (ih_message_ids x))
  else acc.

Definition ask_for (peer_id : PeerId) (iwant_ids : gset MsgId) : RM unit :=
  s ← get;
  let max := cf_max_control_messages_sent (gs_config s) in
  let iasked := default 0 (gs_count_sent_iwant s !! peer_id) in
  let iask := if decide (max < iasked + Z.of_nat (size iwant_ids)) then sat_sub max iasked else Z.of_nat (size iwant_ids) in
  shuffled ← with_rng (fun g => shuffle g (hash_iter iwant_ids));
  let ids := take (Z.to_nat iask) shuffled in
  modify (upd_gs_count_sent_iwant (<[peer_id := iasked + iask]>));;
  let followup_time := default now (instant_checked_add now (cf_iwant_followup_time (gs_config s))) in
  modify (upd_gs_gossip_promises (fun g => add_promise g peer_id ids followup_time));;
  send_message peer_id (RpcIWant {| iw_message_ids := ids |});;
  mret tt.

Definition handle_ihave (peer_id : PeerId) (ihave_msgs : list IHave) : RM unit :=
  s ← get;
  if below_threshold s peer_id gossip_threshold then mret tt
  else
    let peer_have := default 0 (gs_count_received_ihave s !! peer_id) + 1 in
    modify (upd_gs_count_received_ihave (<[peer_id := peer_have]>));;
    if decide (cf_max_ihave_messages_heartbeat (gs_config s) < peer_have) then mret tt
    else if match gs_count_sent_iwant s !! peer_id with
            | Some iasked => bool_decide (cf_max_control_messages_sent (gs_config s) <= iasked)
            | None => false
            end
    then mret tt
    else
      let iwant_ids := foldl (wanted s) ∅ ihave_msgs in
      if decide (iwant_ids = ∅) then mret tt else ask_for peer_id iwant_ids.

Definition answer_iwant (peer_id : PeerId) (id : MsgId) : RM unit :=
  s ← get;
  let '(r, c) := get_with_iwant_counts (gs_mcache s) id peer_id in
  modify (upd_gs_mcache (fun _ => c));;
  match r with
  | Some (msg, count) =>
      if decide (cf_gossip_retransimission (gs_config s) < count) then mret tt
      else if match gs_connected_peers s !! peer_id with Some d => dont_send_contains d id | None => false end then mret tt
      else send_message peer_id (RpcPublish id msg (now + cf_connection_handler_forward_duration (gs_config s)));; mret tt
  | None => mret tt
  end.

Definition handle_iwant (peer_id : PeerId) (iwant_msgs : list MsgId) : RM unit :=
  s ← get;
  if below_threshold s peer_id gossip_threshold then mret tt
  else for_each (answer_iwant peer_id) iwant_msgs.

(** * IDONTWANT *)
Definition IDONTWANT_CAP : Z := 10000.

(** [LinkedHashMap::insert] moves a known key to the back. *)
Definition dont_send_insert (l : list (MsgId * Z)) (id : MsgId) : list (MsgId * Z) :=
  let l := filter (fun e => e.1 ≠ id) l ++ [(id, now)] in
  if decide (IDONTWANT_CAP < len l) then tail l else l.

Definition handle_idontwant (peer_id : PeerId) (message_ids : list MsgId) : RM unit :=
  update_peer peer_id (fun d =>
    upd_pd_dont_send (fun l => foldl dont_send_insert l message_ids)
      (upd_pd_messages (fun q => (remove_data_messages message_ids q).2) d)).

(** * The events of the handlers *)
Inductive HandlerEvent : Type :=
  | HandlerMessage (rpc : RpcIn) (invalid_messages : list (RawMessage * ValidationError))
  | HandlerPeerKind (kind : PeerKind)
  | HandlerMessageDropped (rpc : RpcOut).

(** The control messages of an RPC: IWANT, IDONTWANT and extensions are handled
    in order, the others are collected. *)
Record ControlWork := { cw_ihave : list IHave; cw_graft : list TopicHash; cw_prune : list Prune }.

Definition control_action (peer_id : PeerId) (w : ControlWork) (a : ControlAction) : RM ControlWork :=
  match a with
  | CaIHave i => mret {| cw_ihave := cw_ihave w ++ [i]; cw_graft := cw_graft w; cw_prune := cw_prune w |}
  | CaIWant i => handle_iwant peer_id (iw_message_ids i);; mret w
  | CaGraft g => mret {| cw_ihave := cw_ihave w; cw_graft := cw_graft w ++ [gr_topic_hash g]; cw_prune := cw_prune w |}
  | CaPrune p => mret {| cw_ihave := cw_ihave w; cw_graft := cw_graft w; cw_prune := cw_prune w ++ [p] |}
  | CaIDontWant i => handle_idontwant peer_id (idw_message_ids i);; mret w
  | CaExtensions (Some e) => handle_extensions peer_id e;; mret w
  | CaExtensions None => mret w
  end.

Definition handle_rpc (peer_id : PeerId) (rpc : RpcIn) (invalid_messages : list (RawMessage * ValidationError)) : RM unit :=
  (if decide (in_subscriptions rpc = []) then mret tt else handle_received_subscriptions now (in_subscriptions rpc) peer_id);;
  s ← get;
  if below_threshold s peer_id graylist_threshold then mret tt
  else
    (match gs_peer_score s with
     | Some _ => for_each (fun x => handle_invalid_message peer_id (rm_topic x.1) None (RejectValidationError x.2)) invalid_messages
     | None => mret tt
     end);;
    for_each (fun m => handle_received_message m peer_id) (in_messages rpc);;
    w ← foldM (control_action peer_id) {| cw_ihave := []; cw_graft := []; cw_prune := [] |} (in_control_msgs rpc);
    (if decide (cw_ihave w = []) then mret tt else handle_ihave peer_id (cw_ihave w));;
    (if decide (cw_graft w = []) then mret tt else handle_graft now peer_id (cw_graft w));;
    (if decide (cw_prune w = []) then mret tt else handle_prune now peer_id (cw_prune w)).

Definition on_connection_handler_event (peer_id : PeerId) (e : HandlerEvent) : RM unit :=
  match e with
  | HandlerPeerKind kind =>
      if decide (kind = NotSupported) then emit (GenerateEvent (EvGossipsubNotSupported peer_id))
      else update_peer peer_id (upd_pd_kind (fun k => if decide (k = Floodsub) then kind else k))
  | HandlerMessageDropped _ =>
      with_score (ps_failed_message_slow_peer peer_id);;
      modify (upd_gs_failed_messages (partial_alter (count_failed false) peer_id))
  | HandlerMessage rpc invalid_messages => handle_rpc peer_id rpc invalid_messages
  end.

(** * Connections *)
Definition new_details (s : Router) (outbound : bool) : PeerDetails := {|
  pd_kind := Floodsub; pd_extensions := None; pd_outbound := outbound; pd_connections := []; pd_topics := ∅; pd_dont_send := [];
  pd_messages := Queue_new (cf_connection_handler_queue_len (gs_config s)) |}.

(** Both [handle_established_*_connection]: the id of the handler's queue. *)
Definition handle_established_connection (connection_id : Z) (peer_id : PeerId) (outbound : bool) : RM Z :=
  s ← get;
  let d := default (new_details s outbound) (gs_connected_peers s !! peer_id) in
  let '(id, q) := queue_clone (pd_messages d) in
  let d := upd_pd_messages (fun _ => q) (upd_pd_connections (fun l => l ++ [connection_id]) d) in
  modify (upd_gs_connected_peers (<[peer_id := d]>));;
  (if decide (len (pd_connections d) <= 1) then send_message peer_id (RpcExtensions {| partial_messages := None |});; mret tt else mret tt);;
  mret id.

Definition handle_established_inbound_connection (connection_id : Z) (peer_id : PeerId) : RM Z :=
  handle_established_connection connection_id peer_id false.
Definition handle_established_outbound_connection (connection_id : Z) (peer_id : PeerId) : RM Z :=
  s ← get; handle_established_connection connection_id peer_id (bool_decide (peer_id ∉ gs_px_peers s)).

(** [get_ip_addr]: the first IP component of the address. *)
Definition get_ip_addr (addr : list Protocol) : option IpAddr :=
  head (omap (fun p => match p with Ip4 ip => Some (V4 ip) | Ip6 ip => Some (V6 ip) | _ => None end) addr).

Definition score_ip (f : PeerId -> IpAddr -> ScoreState -> ScoreState) (peer_id : PeerId) (addr : list Protocol) : RM unit :=
  match get_ip_addr addr with Some ip => with_score (f peer_id ip) | None => mret tt end.

Definition on_connection_established (peer_id : PeerId) (addr : list Protocol) (other_established : Z) : RM unit :=
  score_ip ps_add_ip peer_id addr;;
  if decide (0 < other_established) then mret tt
  else
    with_score (ps_add_peer peer_id);;
    s ← get;
    if decide (peer_id ∈ gs_blacklisted_peers s) then mret tt
    else
      let topics := (fun t => (t, false, false)) <$> hash_iter (dom (gs_mesh s)) in
      if decide (topics = []) then mret tt
      else send_message peer_id (RpcSubscribeMany topics);; mret tt.

Fixpoint remove_first (x : Z) (l : list Z) : option (list Z) :=
  match l with
  | [] => None
  | y :: l => if decide (y = x) then Some l else (fun l => y :: l) <$> remove_first x l
  end.

Definition one_closed (peer_id : PeerId) (connection_id : Z) : RM unit :=
  s ← get;
  match gs_connected_peers s !! peer_id with
  | None => mret tt
  | Some d =>
      match remove_first connection_id (pd_connections d) with
      | None => panic
      | Some l =>
          update_peer peer_id (upd_pd_connections (fun _ => l));;
          match l with
          | first :: _ => if in_mesh_of (gs_mesh s) peer_id (fun _ => true) (elements (pd_topics d))
                          then emit (NotifyHandler peer_id JoinedMesh first) else mret tt
          | [] => mret tt
          end
      end
  end.

Definition forget_topic (peer_id : PeerId) (topic : TopicHash) : RM unit :=
  modify (upd_gs_mesh (alter (fun peers => peers ∖ {[peer_id]}) topic));; remove_from_fanout peer_id topic.

Definition last_closed (peer_id : PeerId) : RM unit :=
  s ← get;
  match gs_connected_peers s !! peer_id with
  | None => mret tt
  | Some d =>
      for_each (forget_topic peer_id) (elements (pd_topics d));;
      modify (upd_gs_px_peers (fun x => x ∖ {[peer_id]}));;
      modify (upd_gs_connected_peers (delete peer_id));;
      with_score (ps_remove_peer now peer_id)
  end.

Definition on_connection_closed (peer_id : PeerId) (connection_id : Z) (addr : list Protocol) (remaining_established : Z) : RM unit :=
  score_ip ps_remove_ip peer_id addr;;
  if decide (remaining_established ≠ 0) then one_closed peer_id connection_id else last_closed peer_id.

Definition on_address_change (peer_id : PeerId) (old new : list Protocol) : RM unit :=
  score_ip ps_remove_ip peer_id old;; score_ip ps_add_ip peer_id new.

(** * Polling: the timers are inputs. *)
Definition gs_poll (decay_ready heartbeat_ready : bool) : RM (option ToSwarm) :=
  s ← get;
  match gs_events s with
  | e :: events => modify (upd_gs_events (fun _ => events));; mret (Some e)
  | [] =>
      (if decay_ready then with_score (ps_refresh_scores now) else mret tt);;
      (if heartbeat_ready then heartbeat now else mret tt);;
      mret None
  end.

(** [new_with_subscription_filter_and_transform] *)
Definition Behaviour_new (unix_nanos : Z) (rng : Rng) (privacy : MessageAuthenticity) (config : Config) (filter : Fl) (transform : D)
    : run (result Router string) :=
  match validate_config privacy (pc_validation_mode (cf_protocol config)) with
  | Err e => Ret (Err e)
  | Ok _ =>
      let! backoffs := BackoffStorage_new (cf_prune_backoff config) (cf_heartbeat_interval config) (cf_backoff_slack config) in
      Ret (Ok {|
        gs_config := config; gs_events := []; gs_publish_config := PublishConfig_from unix_nanos privacy;
        gs_duplicate_cache := TimeCache_new (cf_duplicate_cache_time config);
        gs_connected_peers := ∅; gs_explicit_peers := ∅; gs_blacklisted_peers := ∅; gs_mesh := ∅; gs_fanout := ∅;
        gs_fanout_last_pub := ∅; gs_backoffs := backoffs;
        gs_mcache := MessageCache_new (cf_history_gossip config) (cf_history_length config);
        gs_heartbeat_ticks := 0; gs_px_peers := ∅; gs_peer_score := None; gs_count_received_ihave := ∅; gs_count_sent_iwant := ∅;
        gs_subscription_filter := filter; gs_data_transform := transform; gs_failed_messages := ∅; gs_gossip_promises := ∅; gs_rng := rng |})
  end.
End messages.
