(* ===== verification/GsRouterFacts.v ===== *)
(** Reasoning about the operations of the gossipsub router: weakest
    preconditions that rule panics out, what the helpers leave alone, and the
    choice of random peers. *)

From S2P Require Import Prelude Bytes BTree Common AppMessage Storage GsTimeCache GsBackoff GsMessageCache GsSubscriptions GsQueue GsConfig GsScore GsProtocol GsRouter.
From Stdlib Require Import Strings.Byte.

#[local] Open Scope Z_scope.

Section facts.
Context {P : PeerIdLib} {K : KeypairLib} {R : RandLib} {PS : PeerScoreLib}.
Context {Fl D : Type} {HP : HashIter PeerId}.

Local Abbreviation Router := (Behaviour Fl D).
Local Abbreviation RM := (M Fl D).

(** [m] does not panic, and its result and final state satisfy [Q]. *)
Definition wp {A} (m : RM A) (Q : A -> Router -> Prop) (s : Router) : Prop :=
  match m s with Ret (a, s') => Q a s' | Panic => False end.

Lemma wp_mono {A} (m : RM A) (Q Q' : A -> Router -> Prop) s : wp m Q s -> (forall a s', Q a s' -> Q' a s') -> wp m Q' s.
Proof. unfold wp. destruct (m s) as [[a s']|]; auto. Qed.

Lemma wp_bind {A B} (m : RM A) (k : A -> RM B) Q s : wp m (fun a s' => wp (k a) Q s') s -> wp (m ≫= k) Q s.
Proof. unfold wp. cbv [mbind M_bind run_bind]. destruct (m s) as [[a s']|]; done. Qed.

Lemma wp_bind_ {A B} (m : RM A) (k : RM B) Q s : wp m (fun _ s' => wp k Q s') s -> wp (m;; k) Q s.
Proof. apply wp_bind. Qed.

Lemma wp_ret {A} (a : A) Q s : Q a s -> wp (mret a : RM A) Q s.
Proof. done. Qed.
Lemma wp_get Q s : Q s s -> wp get Q s.
Proof. done. Qed.
Lemma wp_gets {A} (f : Router -> A) Q s : Q (f s) s -> wp (gets f) Q s.
Proof. done. Qed.
Lemma wp_modify f Q s : Q tt (f s) -> wp (modify f) Q s.
Proof. done. Qed.
Lemma wp_emit e Q s : Q tt (upd_gs_events (fun l => l ++ [e]) s) -> wp (emit e) Q s.
Proof. done. Qed.
Lemma wp_with_score f Q s : Q tt (upd_gs_peer_score (fmap f) s) -> wp (with_score f) Q s.
Proof. done. Qed.
Lemma wp_lift {A} (r : run A) Q s a : r = Ret a -> Q a s -> wp (lift r) Q s.
Proof. unfold wp, lift. by intros ->. Qed.
Lemma wp_usize_sub a b Q s : b <= a -> Q (a - b) s -> wp (usize_sub a b) Q s.
Proof. intros H. unfold usize_sub. by rewrite decide_True. Qed.
Lemma wp_with_rng {A} (f : Rng -> A * Rng) Q s :
  Q (fst (f (gs_rng s))) (upd_gs_rng (fun _ => snd (f (gs_rng s))) s) -> wp (with_rng f) Q s.
Proof. unfold wp, with_rng. by destruct (f (gs_rng s)). Qed.

(** Loops keep what one iteration keeps. *)
Lemma wp_for_each {A} (f : A -> RM unit) l (J : Router -> Prop) s :
  J s -> (forall x s, x ∈ l -> J s -> wp (f x) (fun _ s' => J s') s) -> wp (for_each f l) (fun _ s' => J s') s.
Proof.
  revert s. induction l as [|x l IH]; intros s Hs Hf; [done|]. cbn [for_each]. apply wp_bind_.
  eapply wp_mono; [apply Hf; [by left|done]|]. intros [] s' Hs'. apply IH; [done|]. intros y s'' Hy. apply Hf. by right.
Qed.

Lemma wp_foldM {A B} (f : B -> A -> RM B) l (J : B -> Router -> Prop) b s :
  J b s -> (forall b x s, x ∈ l -> J b s -> wp (f b x) J s) -> wp (foldM f b l) J s.
Proof.
  revert b s. induction l as [|x l IH]; intros b s Hs Hf; [done|]. cbn [foldM]. apply wp_bind.
  eapply wp_mono; [apply Hf; [by left|done]|]. intros b' s' Hs'. apply IH; [done|]. intros b'' y s'' Hy. apply Hf. by right.
Qed.

(** * What the helpers leave alone *)

(** The part of a peer's details that its queue is not. *)
Definition core (d : PeerDetails) : PeerKind * bool * list Z * gset TopicHash * list (list byte * Z) :=
  (pd_kind d, pd_outbound d, pd_connections d, pd_topics d, pd_dont_send d).

Definition cores (s : Router) : gmap PeerId (PeerKind * bool * list Z * gset TopicHash * list (list byte * Z)) :=
  core <$> gs_connected_peers s.

(** Nothing but queues, failure counts, scores, events and the generator changes. *)
Record quiet (s s' : Router) : Prop := {
  q_config : gs_config s' = gs_config s;
  q_mesh : gs_mesh s' = gs_mesh s;
  q_fanout : gs_fanout s' = gs_fanout s;
  q_last_pub : gs_fanout_last_pub s' = gs_fanout_last_pub s;
  q_explicit : gs_explicit_peers s' = gs_explicit_peers s;
  q_blacklisted : gs_blacklisted_peers s' = gs_blacklisted_peers s;
  q_backoffs : gs_backoffs s' = gs_backoffs s;
  q_mcache : gs_mcache s' = gs_mcache s;
  q_duplicates : gs_duplicate_cache s' = gs_duplicate_cache s;
  q_promises : gs_gossip_promises s' = gs_gossip_promises s;
  q_publish : gs_publish_config s' = gs_publish_config s;
  q_ticks : gs_heartbeat_ticks s' = gs_heartbeat_ticks s;
  q_score : gs_peer_score s = None -> gs_peer_score s' = None;
  q_cores : cores s' = cores s;
}.

#[global] Instance quiet_preorder : PreOrder quiet.
Proof.
  split; [by intros s; split|].
  intros s1 s2 s3 [] []. split; try (by etrans); auto.
Qed.

Lemma quiet_rng g s : quiet s (upd_gs_rng g s).
Proof. by split. Qed.
Lemma quiet_event g s : quiet s (upd_gs_events g s).
Proof. by split. Qed.
Lemma quiet_score f s : quiet s (upd_gs_peer_score (fmap f) s).
Proof. split; try done. cbn. by intros ->. Qed.
Lemma quiet_failed g s : quiet s (upd_gs_failed_messages g s).
Proof. by split. Qed.
Lemma quiet_queue p g s : quiet s (upd_gs_connected_peers (alter (upd_pd_messages g) p) s).
Proof.
  split; try done. unfold cores. cbn. apply map_eq. intros q. rewrite !lookup_fmap.
  destruct (decide (q = p)) as [->|]; [rewrite lookup_alter_eq|by rewrite lookup_alter_ne]. by destruct (gs_connected_peers s !! p).
Qed.

Lemma send_message_quiet p rpc s : wp (send_message p rpc) (fun _ s' => quiet s s' /\ gs_events s' = gs_events s) s.
Proof.
  unfold send_message. apply wp_bind, wp_gets. destruct (gs_connected_peers s !! p) as [d|]; [|by split].
  destruct (bool_decide _ && is_idontwant rpc); [by split|]. destruct (queue_try_push rpc (pd_messages d)) as [[[[]|r] w] q].
  - apply wp_bind_. unfold update_peer. apply wp_modify, wp_ret. split; [apply quiet_queue|done].
  - apply wp_bind_, wp_modify, wp_bind_, wp_with_score, wp_ret. split; [|done]. etrans; [apply quiet_failed|apply quiet_score].
Qed.

Lemma send_all_quiet l s : wp (send_all l) (fun _ s' => quiet s s' /\ gs_events s' = gs_events s) s.
Proof.
  unfold send_all. apply (wp_for_each _ _ (fun s' => quiet s s' /\ gs_events s' = gs_events s)); [by split|].
  intros [p r] s1 _ [Hq He]. apply wp_bind_. eapply wp_mono; [apply send_message_quiet|]. intros ? s2 [Hq2 He2]. apply wp_ret.
  split; [by etrans|by rewrite He2].
Qed.

(** Every connected peer has a connection. *)
Definition connections_ok (s : Router) : Prop :=
  forall p d, gs_connected_peers s !! p = Some d -> pd_connections d ≠ [].

Lemma cores_lookup s s' p d :
  cores s' = cores s -> gs_connected_peers s' !! p = Some d -> exists d0, gs_connected_peers s !! p = Some d0 /\ core d0 = core d.
Proof.
  intros Hc Hd. assert (H : cores s !! p = Some (core d)) by (rewrite <- Hc; unfold cores; by rewrite lookup_fmap, Hd).
  unfold cores in H. rewrite lookup_fmap, fmap_Some in H. destruct H as (d0 & ? & ?). eauto.
Qed.

Lemma connections_ok_quiet s s' : quiet s s' -> connections_ok s -> connections_ok s'.
Proof.
  intros Hq Hc p d Hd. destruct (cores_lookup s s' p d (q_cores _ _ Hq) Hd) as (d0 & H0 & E). injection E as _ _ <- _ _. by apply (Hc p).
Qed.

(** The notification tells the first connection, or nobody. *)
Lemma notify_first_quiet p f e s :
  connections_ok s ->
  wp (notify_first p f e) (fun _ s' => quiet s s' /\
    (gs_events s' = gs_events s \/ exists c, gs_events s' = gs_events s ++ [NotifyHandler p e c])) s.
Proof.
  intros Hc. unfold notify_first. apply wp_bind, wp_get. destruct (gs_connected_peers s !! p) as [d|] eqn:E; [|by split; [|left]].
  specialize (Hc p d E). destruct (pd_connections d) as [|c l]; [done|]. destruct (in_mesh_of _ _ _ _); [by split; [|left]|].
  apply wp_emit. split; [apply quiet_event|]. right. by exists c.
Qed.

(** * Random peers *)
Lemma candidates_NoDup (s : Router) topic f : NoDup (gossip_candidates s topic f).
Proof. unfold gossip_candidates. apply NoDup_filter. rewrite hash_iter_elements. apply NoDup_elements. Qed.

Lemma elem_of_candidates (s : Router) topic f p : p ∈ gossip_candidates s topic f <-> is_candidate s topic f p = true.
Proof.
  unfold gossip_candidates. rewrite list_elem_of_filter, hash_iter_elements, elem_of_elements, elem_of_dom. split; [tauto|].
  intros H. split; [done|]. unfold is_candidate in H. by destruct (gs_connected_peers s !! p).
Qed.

Lemma NoDup_take {A} n (l : list A) : NoDup l -> NoDup (take n l).
Proof. rewrite <- (take_drop n l) at 1. by intros [? _]%NoDup_app. Qed.

(** As many of the candidates as wanted, and no other peer. *)
Lemma get_random_peers_spec `{!RandLaws R} topic n f s :
  0 <= n ->
  wp (get_random_peers topic n f) (fun r s' => quiet s s' /\ gs_events s' = gs_events s /\ gs_connected_peers s' = gs_connected_peers s /\
    gs_peer_score s' = gs_peer_score s /\
    (forall p, p ∈ r -> is_candidate s topic f p = true) /\
    Z.of_nat (size r) = Z.min n (len (gossip_candidates s topic f))) s.
Proof.
  intros Hn. unfold get_random_peers, get_random_peers_dynamic. apply wp_bind, wp_get. case_decide as Hl.
  - apply wp_ret. split_and!; try done.
    + intros p Hp. apply elem_of_candidates. set_solver.
    + rewrite size_list_to_set by apply candidates_NoDup. unfold len in *. lia.
  - apply wp_bind, wp_with_rng, wp_ret. destruct (shuffle _ _) as [l g] eqn:E; cbn [fst snd].
    pose proof (shuffle_perm (gs_rng s) (gossip_candidates s topic f)) as Hp. rewrite E in Hp. cbn in Hp.
    split_and!; try done.
    + intros p Hin%elem_of_list_to_set%elem_of_take. destruct Hin as (i & Hi & _). apply elem_of_candidates. rewrite <- Hp. by eapply list_elem_of_lookup_2.
    + rewrite size_list_to_set; [|apply NoDup_take; rewrite Hp; apply candidates_NoDup].
      rewrite length_take, (Permutation_length Hp). unfold len in *. lia.
Qed.
End facts.

(** One step of a weakest precondition. *)
Ltac wp_step :=
  lazymatch goal with
  | |- wp (mbind _ _) _ _ => apply wp_bind
  | |- wp (mret _) _ _ => apply wp_ret
  | |- wp get _ _ => apply wp_get
  | |- wp (gets _) _ _ => apply wp_gets
  | |- wp (modify _) _ _ => apply wp_modify
  | |- wp (emit _) _ _ => apply wp_emit
  | |- wp (with_score _) _ _ => apply wp_with_score
  | |- wp (with_rng _) _ _ => apply wp_with_rng
  end.
Ltac wp_steps := repeat (wp_step; cbn beta).
