(* ===== verification/GsMeshFacts.v ===== *)
(** The router's invariant: the meshes and the fanout hold connected peers that
    are subscribed to the topic, every connected peer has a connection, and the
    caches and wheels have the shape the operations count on.  Every operation
    on the mesh keeps it, and none of them panics in such a state. *)

From S2P Require Import Prelude Bytes BTree Common AppMessage Storage GsTimeCache GsBackoff GsMessageCache GsSubscriptions GsQueue GsConfig GsScore GsProtocol GsRouter GsMesh GsRouterFacts.
From Stdlib Require Import Strings.Byte.

#[local] Open Scope Z_scope.

Section mesh_facts.
Context {P : PeerIdLib} {K : KeypairLib} {S : SigningLib} {L : ProstLib} {R : RandLib} {RL : RandLaws R} {PS : PeerScoreLib} {I : InstantLib}.
Context {Fl : Type} {TF : TopicSubscriptionFilter Fl} {D : Type} {DT : DataTransform D}.
Context {HP : HashIter PeerId} {HT : HashIter TopicHash} {HM : HashIter (list byte)} {HS : HashIter Subscription} {HB : HashIter (TopicHash * PeerId)}.

Local Abbreviation MsgId := (list byte).
Local Abbreviation Router := (Behaviour Fl D).
Local Abbreviation RM := (M Fl D).
Local Abbreviation Cores := (gmap PeerId (PeerKind * bool * list Z * gset TopicHash * list (list byte * Z))).

(** * The invariant *)
Definition core_connections (c : PeerKind * bool * list Z * gset TopicHash * list (list byte * Z)) : list Z := c.1.1.2.
Definition core_topics (c : PeerKind * bool * list Z * gset TopicHash * list (list byte * Z)) : gset TopicHash := c.1.2.

Definition subscribed (cs : Cores) (topic : TopicHash) (p : PeerId) : Prop :=
  match cs !! p with Some c => topic ∈ core_topics c | None => False end.

Definition members_ok (cs : Cores) (m : gmap TopicHash (gset PeerId)) : Prop :=
  forall topic peers p, m !! topic = Some peers -> p ∈ peers -> subscribed cs topic p.

Definition connected_ok (cs : Cores) : Prop := forall p c, cs !! p = Some c -> core_connections c ≠ [].

Definition config_ok (c : Config) : Prop :=
  (forall topic, mesh_params_ok (mesh_params c topic)) /\ 0 <= cf_prune_peers c /\ 0 <= cf_opportunistic_graft_peers c /\
  0 <= cf_gossip_lazy c /\ 0 <= cf_retain_scores c.

Definition cache_ok (c : MessageCache) : Prop := (gossip c <= length (history c))%nat.

Definition backoff_ok (b : BackoffStorage) : Prop :=
  (heartbeat_index b < length (backoffs_by_heartbeat b))%nat /\ bo_heartbeat_interval b * backoff_slack b <= duration_max.

Record router_ok (s : Router) : Prop := {
  ok_connected : connected_ok (cores s);
  ok_mesh : members_ok (cores s) (gs_mesh s);
  ok_fanout : members_ok (cores s) (gs_fanout s);
  ok_config : config_ok (gs_config s);
  ok_cache : cache_ok (gs_mcache s);
  ok_backoff : backoff_ok (gs_backoffs s);
}.

Lemma router_ok_quiet s s' : quiet s s' -> router_ok s -> router_ok s'.
Proof. intros [E1 E2 E3 _ _ _ E4 E5 _ _ _ _ _ E6] []. split; rewrite ?E1, ?E2, ?E3, ?E4, ?E5, ?E6; done. Qed.

Lemma router_ok_connections s : router_ok s -> connections_ok s.
Proof.
  intros [Hc _ _ _ _ _] p d Hd. apply (Hc p (core d)). unfold cores. by rewrite lookup_fmap, Hd.
Qed.

(** [m] keeps the invariant and does not panic. *)
Definition safe {A} (m : RM A) : Prop := forall s, router_ok s -> wp m (fun _ s' => router_ok s') s.

Lemma safe_bind {A B} (m : RM A) (k : A -> RM B) : safe m -> (forall a, safe (k a)) -> safe (m ≫= k).
Proof. intros Hm Hk s Hs. apply wp_bind. eapply wp_mono; [by apply Hm|]. intros a s' Hs'. by apply Hk. Qed.
Lemma safe_ret {A} (a : A) : safe (mret a).
Proof. intros s Hs. by apply wp_ret. Qed.
Lemma safe_get {A} (k : Router -> RM A) : (forall s, router_ok s -> wp (k s) (fun _ s' => router_ok s') s) -> safe (s ← get; k s).
Proof. intros H s Hs. apply wp_bind, wp_get. by apply H. Qed.
Lemma safe_for_each {A} (f : A -> RM unit) l : (forall x, x ∈ l -> safe (f x)) -> safe (for_each f l).
Proof. intros H s Hs. apply (wp_for_each _ _ router_ok); [done|]. intros x s' Hx Hs'. by apply H. Qed.
Lemma safe_foldM {A B} (f : B -> A -> RM B) b l : (forall b x, x ∈ l -> safe (f b x)) -> safe (foldM f b l).
Proof. intros H s Hs. apply (wp_foldM _ _ (fun _ s => router_ok s)); [done|]. intros b' x s' Hx Hs'. by apply H. Qed.
Lemma safe_quiet {A} (m : RM A) : (forall s, router_ok s -> wp m (fun _ s' => quiet s s') s) -> safe m.
Proof. intros H s Hs. eapply wp_mono; [by apply H|]. intros a s' Hq. exact (router_ok_quiet s s' Hq Hs). Qed.

Lemma safe_send p rpc : safe (send_message p rpc).
Proof. apply safe_quiet. intros s _. eapply wp_mono; [apply send_message_quiet|]. by intros a s' [? _]. Qed.
Lemma safe_send_all l : safe (send_all l).
Proof. apply safe_quiet. intros s _. eapply wp_mono; [apply send_all_quiet|]. by intros a s' [? _]. Qed.
Lemma safe_score f : safe (with_score f).
Proof. apply safe_quiet. intros s _. apply wp_with_score, quiet_score. Qed.
Lemma safe_emit e : safe (emit e).
Proof. apply safe_quiet. intros s _. apply wp_emit, quiet_event. Qed.
Lemma safe_rng {A} (f : Rng -> A * Rng) : safe (with_rng f).
Proof. apply safe_quiet. intros s _. apply wp_with_rng, quiet_rng. Qed.
Lemma safe_added p l : safe (peer_added_to_mesh p l).
Proof.
  apply safe_quiet. intros s Hs. eapply wp_mono; [apply notify_first_quiet, router_ok_connections, Hs|]. by intros ? s' [? _].
Qed.
Lemma safe_removed p t : safe (peer_removed_from_mesh p t).
Proof.
  apply safe_quiet. intros s Hs. eapply wp_mono; [apply notify_first_quiet, router_ok_connections, Hs|]. by intros ? s' [? _].
Qed.
Lemma safe_if {A} (b : bool) (m k : RM A) : safe m -> safe k -> safe (if b then m else k).
Proof. by destruct b. Qed.
Lemma safe_if_dec {A} (Q : Prop) `{!Decision Q} (m k : RM A) : safe m -> safe k -> safe (if decide Q then m else k).
Proof. by destruct (decide Q). Qed.

(** Changes outside the invariant. *)
Lemma safe_modify f : (forall s, router_ok s -> router_ok (f s)) -> safe (modify f).
Proof. intros H s Hs. apply wp_modify. by apply H. Qed.

(** * Members *)
Lemma members_ok_insert cs m topic peers :
  members_ok cs m -> (forall p, p ∈ peers -> subscribed cs topic p) -> members_ok cs (<[topic := peers]> m).
Proof. intros Hm Hp t ps p [[<- <-]|[_ Ht]]%lookup_insert_Some Hin; [by apply Hp|by eapply Hm]. Qed.

Lemma members_ok_delete cs m topic : members_ok cs m -> members_ok cs (delete topic m).
Proof. intros Hm t ps p [_ Ht]%lookup_delete_Some. by apply (Hm t ps p). Qed.

Lemma members_ok_alter cs m topic (f : gset PeerId -> gset PeerId) :
  (forall ps, f ps ⊆ ps) -> members_ok cs m -> members_ok cs (alter f topic m).
Proof.
  intros Hf Hm t ps p Ht Hp. destruct (decide (t = topic)) as [->|].
  - rewrite lookup_alter_eq in Ht. destruct (m !! topic) as [ps0|] eqn:E; [|done]. cbn in Ht. injection Ht as <-. eapply Hm; [done|]. by apply Hf.
  - rewrite lookup_alter_ne in Ht by done. by eapply Hm.
Qed.

Lemma members_ok_extend cs m topic peers :
  members_ok cs m -> (forall p, p ∈ peers -> subscribed cs topic p) ->
  members_ok cs (partial_alter (fun x => Some (default ∅ x ∪ peers)) topic m).
Proof.
  intros Hm Hp t ps p Ht Hin. destruct (decide (t = topic)) as [->|].
  - rewrite lookup_partial_alter_eq in Ht. injection Ht as <-. apply elem_of_union in Hin as [Hin|Hin]; [|by apply Hp].
    destruct (m !! topic) as [ps0|] eqn:E; [by eapply Hm|set_solver].
  - rewrite lookup_partial_alter_ne in Ht by done. by eapply Hm.
Qed.

Lemma candidate_subscribed (s : Router) topic f p : is_candidate s topic f p = true -> subscribed (cores s) topic p.
Proof.
  unfold is_candidate, subscribed, cores. rewrite lookup_fmap. destruct (gs_connected_peers s !! p) as [d|]; [|done]. cbn.
  rewrite !andb_true_iff, bool_decide_eq_true. tauto.
Qed.

Lemma subscribed_details (s : Router) topic p d : gs_connected_peers s !! p = Some d -> subscribed (cores s) topic p <-> topic ∈ pd_topics d.
Proof. intros E. unfold subscribed, cores. by rewrite lookup_fmap, E. Qed.

(** Random peers of a topic may join its mesh. *)
Lemma random_peers_ok topic n f s (Q : gset PeerId -> Router -> Prop) :
  0 <= n -> router_ok s ->
  (forall r s', quiet s s' -> gs_events s' = gs_events s -> router_ok s' -> (forall p, p ∈ r -> subscribed (cores s') topic p) ->
     (forall p, p ∈ r -> is_candidate s topic f p = true) -> Q r s') ->
  wp (get_random_peers topic n f) Q s.
Proof.
  intros Hn Hs HQ. eapply wp_mono; [by apply get_random_peers_spec|]. intros r s' (Hq & He & _ & _ & Hr & _).
  apply HQ; try done; [exact (router_ok_quiet s s' Hq Hs)|]. intros p Hp. rewrite (q_cores _ _ Hq). by eapply candidate_subscribed, Hr.
Qed.

Lemma extend_mesh_ok topic peers s (Q : unit -> Router -> Prop) :
  router_ok s -> (forall p, p ∈ peers -> subscribed (cores s) topic p) ->
  (forall s', router_ok s' -> cores s' = cores s -> Q tt s') -> wp (extend_mesh topic peers) Q s.
Proof. intros Hs Hp HQ. apply wp_modify. apply HQ; [|done]. destruct Hs. split; try done. by apply members_ok_extend. Qed.

(** * Caches and wheels *)
Lemma update_backoff_ok now b topic p time : backoff_ok b -> backoff_ok (update_backoff now b topic p time).
Proof.
  intros [H1 H2]. unfold update_backoff. destruct (instant_checked_add now time); [|done].
  destruct (get_entry _ _) as [[]|]; [case_decide; [|done]|]; split; cbn; rewrite ?length_alter; done.
Qed.

Section at_time.
Context (now : Z).

Lemma safe_update_backoff topic p time : safe (modify (upd_gs_backoffs (fun b => update_backoff now b topic p time))).
Proof. apply safe_modify. intros s []. split; try done. by apply update_backoff_ok. Qed.

(** * Joining and leaving *)
Lemma fanout_to_mesh_sub (s : Router) topic peers : fanout_to_mesh s topic peers ⊆ peers.
Proof.
  unfold fanout_to_mesh. intros p Hp%elem_of_list_to_set%elem_of_take. destruct Hp as (i & Hi & _).
  apply list_elem_of_lookup_2 in Hi. unfold bt_iter in Hi. rewrite merge_sort_Permutation, elem_of_elements in Hi.
  by apply elem_of_filter in Hi as [_ ?].
Qed.

Lemma join_fanout_ok topic s :
  router_ok s -> wp (join_fanout topic) (fun added s' => router_ok s' /\ forall p, p ∈ added -> subscribed (cores s') topic p) s.
Proof.
  intros Hs. unfold join_fanout. wp_steps. destruct (gs_fanout s !! topic) as [peers|] eqn:E; wp_steps; [|split; [done|set_solver]].
  assert (Hp : forall p, p ∈ fanout_to_mesh s topic peers -> subscribed (cores s) topic p).
  { intros p Hp%fanout_to_mesh_sub. by eapply (ok_fanout _ Hs). }
  split; [|done]. destruct Hs. split; try done; [by apply members_ok_insert|by apply members_ok_delete].
Qed.

Lemma safe_join topic : safe (join now topic).
Proof.
  intros s Hs. unfold join. wp_steps. apply extend_mesh_ok; [done|set_solver|]. intros s1 H1 _. wp_steps.
  eapply wp_mono; [by apply join_fanout_ok|]. intros added s2 [H2 Hadd]. cbn beta.
  assert (Hend : forall added', safe (for_each (fun p => with_score (ps_graft now p topic);; send_message p (RpcGraft {| gr_topic_hash := topic |});; peer_added_to_mesh p [topic])
      (hash_iter added') : RM unit)).
  { intros a. apply safe_for_each. intros p _. apply safe_bind; [apply safe_score|]. intros _. apply safe_bind; [apply safe_send|]. intros _. apply safe_added. }
  wp_steps. case_decide; wp_steps; [|by apply Hend]. apply random_peers_ok; [lia|done|]. intros r s3 Hq _ H3 Hr _. wp_steps.
  apply extend_mesh_ok; [done|done|]. intros s4 H4 _. wp_steps. by apply Hend.
Qed.

Lemma safe_make_prune topic p do_px uns : safe (make_prune now topic p do_px uns).
Proof.
  unfold make_prune. apply safe_bind; [apply safe_score|]. intros _. apply safe_get. intros s Hs.
  assert (Hrest : safe (peers ← (if do_px then
       px ← get_random_peers topic (cf_prune_peers (gs_config s)) (fun q => bool_decide (q ≠ p) && negb (below_threshold s q zero_threshold));
       mret (Some <$> bt_iter px) else mret []);
     let backoff := if uns then cf_unsubscribe_backoff (gs_config s) else cf_prune_backoff (gs_config s) in
     modify (upd_gs_backoffs (fun b => update_backoff now b topic p backoff));;
     mret {| pr_topic_hash := topic; pr_peers := peers; pr_backoff := Some (as_secs backoff) |} : RM Prune)).
  { apply safe_bind.
    - apply safe_if; [|apply safe_ret]. intros s1 H1. wp_steps. apply random_peers_ok; [by apply (ok_config _ Hs)|done|].
      intros r s2 _ _ H2 _ _. by wp_steps.
    - intros peers. cbn zeta. apply safe_bind; [apply safe_update_backoff|]. intros _. apply safe_ret. }
  destruct (pd_kind <$> gs_connected_peers s !! p) as [[]|]; try (by apply Hrest). by apply wp_ret.
Qed.

Lemma safe_leave topic : safe (leave now topic).
Proof.
  unfold leave. apply safe_get. intros s Hs. destruct (gs_mesh s !! topic) as [peers|]; [|by wp_steps].
  revert Hs. generalize (bt_iter peers). intros l Hs. apply wp_bind_, wp_modify.
  apply safe_for_each; [|destruct Hs; split; try done; by apply members_ok_delete].
  intros p _. apply safe_bind; [apply safe_make_prune|]. intros prune. apply safe_bind; [apply safe_send|]. intros _. apply safe_removed.
Qed.

Lemma safe_subscribe topic : safe (gs_subscribe now topic).
Proof.
  unfold gs_subscribe. apply safe_get. intros s Hs. destruct (negb _); [by wp_steps|]. case_decide; [by wp_steps|]. revert s Hs H.
  intros s Hs _. apply wp_bind_. eapply wp_mono; [by apply safe_send_all|]. intros [] s1 H1. apply wp_bind_.
  eapply wp_mono; [by apply safe_join|]. intros [] s2 H2. by wp_steps.
Qed.

Lemma safe_unsubscribe topic : safe (gs_unsubscribe now topic).
Proof.
  unfold gs_unsubscribe. apply safe_get. intros s Hs. case_decide; [by wp_steps|].
  apply wp_bind_. eapply wp_mono; [by apply safe_send_all|]. intros [] s1 H1. apply wp_bind_.
  eapply wp_mono; [by apply safe_leave|]. intros [] s2 H2. by wp_steps.
Qed.

(** * GRAFT and PRUNE *)
Lemma safe_make_prunes l do_px : safe (make_prunes now l do_px).
Proof.
  induction l as [|[t p] l IH]; cbn [make_prunes]; [apply safe_ret|]. apply safe_bind; [apply safe_make_prune|]. intros prune.
  apply safe_bind; [exact IH|]. intros rest. apply safe_ret.
Qed.

Lemma safe_graft_penalty c p t : safe (graft_penalty now c p t).
Proof. unfold graft_penalty. apply safe_bind; [apply safe_score|]. intros _. apply safe_if; [apply safe_score|apply safe_ret]. Qed.

Lemma graft_penalty_cores c p t s :
  wp (graft_penalty now c p t : RM unit) (fun _ s' => quiet s s') s.
Proof.
  unfold graft_penalty. wp_steps. destruct (if decide _ then _ else true); wp_steps; [etrans; apply quiet_score|apply quiet_score].
Qed.

Lemma graft_topic_ok peer_id peer below acc topic (s0 s : Router) :
  gs_connected_peers s0 !! peer_id = Some peer -> router_ok s -> cores s = cores s0 ->
  wp (graft_topic now peer_id peer below acc topic) (fun _ s' => router_ok s' /\ cores s' = cores s0) s.
Proof.
  intros Hp Hs Hc. destruct acc as [do_px to_prune]. unfold graft_topic. wp_steps.
  destruct (gs_mesh s !! topic) as [peers|]; [|by wp_steps]. case_decide; [by wp_steps|].
  destruct (active_backoff now s topic peer_id) as [t|].
  { wp_steps. eapply wp_mono; [apply graft_penalty_cores|]. intros [] s' Hq. wp_steps.
    split; [exact (router_ok_quiet _ _ Hq Hs)|by rewrite (q_cores _ _ Hq)]. }
  destruct below; [by wp_steps|]. case_decide as Ht; [by wp_steps|]. destruct (bool_decide _ && negb _); [by wp_steps|].
  wp_steps. apply extend_mesh_ok; [done| |].
  { intros q ->%elem_of_singleton. rewrite Hc. apply (subscribed_details s0 topic peer_id peer Hp). by destruct (decide (topic ∈ pd_topics peer)). }
  intros s1 H1 E1. wp_steps. eapply wp_mono; [apply notify_first_quiet, router_ok_connections, H1|]. intros ? s2 [Hq _]. wp_steps.
  assert (Hq' : quiet s1 (upd_gs_peer_score (fmap (ps_graft now peer_id topic)) s2)) by (etrans; [exact Hq|apply quiet_score]).
  split; [exact (router_ok_quiet _ _ Hq' H1)|]. by rewrite (q_cores _ _ Hq'), E1.
Qed.

Lemma safe_graft peer_id topics : safe (handle_graft now peer_id topics).
Proof.
  unfold handle_graft. apply safe_get. intros s Hs. destruct (gs_connected_peers s !! peer_id) as [peer|] eqn:E; [|by wp_steps].
  case_decide; [by wp_steps|]. wp_steps.
  eapply wp_mono; [apply (wp_foldM _ _ (fun _ s' => router_ok s' /\ cores s' = cores s)); [done|]|].
  { intros b x s' _ [H1 H2]. by apply graft_topic_ok. }
  intros acc s1 [H1 _]. wp_steps. eapply wp_mono; [by apply safe_make_prunes|]. intros prunes s2 H2. cbn beta. by apply safe_send_all.
Qed.

Lemma safe_extensions p e : safe (handle_extensions p e).
Proof.
  apply safe_modify. intros s []. assert (E : cores (upd_gs_connected_peers (alter (upd_pd_extensions
    (fun x => match x with Some _ => x | None => Some e end)) p) s) = cores s).
  { unfold cores. cbn. apply map_eq. intros q. rewrite !lookup_fmap. destruct (decide (q = p)) as [->|]; [rewrite lookup_alter_eq|by rewrite lookup_alter_ne].
    by destruct (gs_connected_peers s !! p). }
  split; rewrite ?E; done.
Qed.

Lemma safe_remove_peer_from_mesh p topic backoff always : safe (remove_peer_from_mesh now p topic backoff always).
Proof.
  unfold remove_peer_from_mesh. apply safe_get. intros s Hs. revert s Hs.
  assert (H : forall (removed : bool) (s : Router), safe ((if removed then
     modify (upd_gs_mesh (alter (fun peers => peers ∖ {[p]}) topic));; with_score (ps_prune p topic);; peer_removed_from_mesh p topic else mret tt);;
     (if always || removed then let time := match backoff with Some backoff => from_secs (Z.min backoff MAX_REMOTE_PRUNE_BACKOFF_SECONDS)
        | None => cf_prune_backoff (gs_config s) end in modify (upd_gs_backoffs (fun b => update_backoff now b topic p time)) else mret tt);;
     mret removed : RM bool)).
  { intros removed s. apply safe_bind.
    - apply safe_if; [|apply safe_ret]. apply safe_bind.
      + apply safe_modify. intros s1 []. split; try done. apply members_ok_alter; [set_solver|done].
      + intros _. apply safe_bind; [apply safe_score|]. intros _. apply safe_removed.
    - intros _. apply safe_bind; [|intros _; apply safe_ret]. apply safe_if; [apply safe_update_backoff|apply safe_ret]. }
  intros s Hs. by apply H.
Qed.

Lemma safe_px_connect px : safe (px_connect px).
Proof.
  intros s Hs. unfold px_connect. wp_steps. revert s Hs.
  assert (H : forall l : list (option PeerId), safe (for_each (fun p => match p with
     | Some peer_id => modify (upd_gs_px_peers (fun x => {[peer_id]} ∪ x));; emit (DialPeer peer_id) | None => mret tt end) l : RM unit)).
  { intros l. apply safe_for_each. intros [p|] _; [|apply safe_ret]. apply safe_bind; [by apply safe_modify; intros ? []|]. intros _. apply safe_emit. }
  intros s Hs. case_decide; wp_steps; apply H; [|done]. exact (router_ok_quiet _ _ (quiet_rng _ _) Hs).
Qed.

Lemma safe_prune p l : safe (handle_prune now p l).
Proof.
  unfold handle_prune. apply safe_get. intros s Hs. apply safe_for_each; [|done]. intros data _. unfold prune_topic.
  apply safe_bind; [apply safe_remove_peer_from_mesh|]. intros _. apply safe_get. intros s1 H1.
  destruct (_ && _); [by apply safe_px_connect|by wp_steps].
Qed.

(** * Subscriptions

    Between its unsubscriptions and their effect on the mesh, the peer may be in
    a mesh of a topic it has just left. *)
Definition members_but (peer_id : PeerId) (left : list TopicHash) (cs : Cores) (m : gmap TopicHash (gset PeerId)) : Prop :=
  forall topic peers p, m !! topic = Some peers -> p ∈ peers -> subscribed cs topic p \/ p = peer_id /\ topic ∈ left.

Record almost_ok (peer_id : PeerId) (left : list TopicHash) (s : Router) : Prop := {
  al_connected : connected_ok (cores s);
  al_mesh : members_but peer_id left (cores s) (gs_mesh s);
  al_fanout : members_but peer_id left (cores s) (gs_fanout s);
  al_config : config_ok (gs_config s);
  al_cache : cache_ok (gs_mcache s);
  al_backoff : backoff_ok (gs_backoffs s);
}.

Lemma almost_nil peer_id s : almost_ok peer_id [] s <-> router_ok s.
Proof.
  split; intros []; split; try done; intros t ps p Ht Hp.
  - destruct (al_mesh0 t ps p Ht Hp) as [|[_ ?%not_elem_of_nil]]; done.
  - destruct (al_fanout0 t ps p Ht Hp) as [|[_ ?%not_elem_of_nil]]; done.
  - left. by eapply ok_mesh0.
  - left. by eapply ok_fanout0.
Qed.

Lemma almost_quiet peer_id left s s' : quiet s s' -> almost_ok peer_id left s -> almost_ok peer_id left s'.
Proof. intros [E1 E2 E3 _ _ _ E4 E5 _ _ _ _ _ E6] []. split; rewrite ?E1, ?E2, ?E3, ?E4, ?E5, ?E6; done. Qed.

Lemma almost_connections peer_id left s : almost_ok peer_id left s -> connections_ok s.
Proof. intros [Hc _ _ _ _ _] p d Hd. apply (Hc p (core d)). unfold cores. by rewrite lookup_fmap, Hd. Qed.

(** Changing the topics of a peer. *)
Lemma cores_topics g p (s : Router) : cores (upd_gs_connected_peers (alter (upd_pd_topics g) p) s) =
  alter (fun c => (c.1.1, g (core_topics c), c.2)) p (cores s).
Proof.
  unfold cores. cbn. apply map_eq. intros q. rewrite lookup_fmap. destruct (decide (q = p)) as [->|].
  - rewrite !lookup_alter_eq, lookup_fmap. by destruct (gs_connected_peers s !! p).
  - rewrite !lookup_alter_ne by done. by rewrite lookup_fmap.
Qed.

Lemma connected_ok_topics cs g p : connected_ok cs -> connected_ok (alter (fun c => (c.1.1, g (core_topics c), c.2)) p cs).
Proof.
  intros H q c. destruct (decide (q = p)) as [->|].
  - rewrite lookup_alter_eq. destruct (cs !! p) as [c0|] eqn:E; [|done]. cbn. intros [= <-]. apply (H p c0 E).
  - rewrite lookup_alter_ne by done. apply H.
Qed.

Lemma subscribed_topics cs g p t q :
  subscribed cs t q -> (q = p -> forall c, cs !! p = Some c -> t ∈ g (core_topics c)) ->
  subscribed (alter (fun c => (c.1.1, g (core_topics c), c.2)) p cs) t q.
Proof.
  unfold subscribed. intros H Hg. destruct (decide (q = p)) as [->|]; [rewrite lookup_alter_eq|by rewrite lookup_alter_ne].
  destruct (cs !! p) as [c|]; [|done]. cbn. by apply Hg.
Qed.

Lemma almost_subscribe peer_id left topic s :
  almost_ok peer_id left s ->
  almost_ok peer_id left (upd_gs_connected_peers (alter (upd_pd_topics (fun t => {[topic]} ∪ t)) peer_id) s).
Proof.
  intros []. split; try done; [rewrite cores_topics; by apply connected_ok_topics|..]; rewrite cores_topics; intros t ps q Ht Hq.
  - destruct (al_mesh0 t ps q Ht Hq) as [H|H]; [left|by right]. apply subscribed_topics; [done|]. intros -> c Hc. unfold subscribed in H. rewrite Hc in H. set_solver.
  - destruct (al_fanout0 t ps q Ht Hq) as [H|H]; [left|by right]. apply subscribed_topics; [done|]. intros -> c Hc. unfold subscribed in H. rewrite Hc in H. set_solver.
Qed.

Lemma members_but_unsubscribe peer_id left topic cs m :
  members_but peer_id left cs m ->
  members_but peer_id (left ++ [topic]) (alter (fun c => (c.1.1, core_topics c ∖ {[topic]}, c.2)) peer_id cs) m.
Proof.
  intros H t ps q Ht Hq. destruct (H t ps q Ht Hq) as [Hs|[-> Hl]]; [|right; set_solver].
  destruct (decide (q = peer_id /\ t = topic)) as [[-> ->]|Hn]; [right; set_solver|]. left.
  apply (subscribed_topics cs (fun x => x ∖ {[topic]})); [done|]. intros -> c Hc. unfold subscribed in Hs. rewrite Hc in Hs. set_solver.
Qed.

Lemma one_subscription_ok peer_id w x (s : Router) :
  almost_ok peer_id (sw_unsubscribed w) s /\ is_Some (gs_connected_peers s !! peer_id) ->
  wp (one_subscription now peer_id w x) (fun w' s' => almost_ok peer_id (sw_unsubscribed w') s' /\ is_Some (gs_connected_peers s' !! peer_id)) s.
Proof.
  intros [Hs [d Hd]]. unfold one_subscription. destruct (sb_action x).
  - unfold subscribe_topic, update_peer. wp_steps. apply (almost_subscribe _ _ (sb_topic x)) in Hs.
    set (s1 := upd_gs_connected_peers (alter (upd_pd_topics (fun t => {[sb_topic x]} ∪ t)) peer_id) s) in *.
    assert (H1 : gs_connected_peers s1 !! peer_id = Some (upd_pd_topics (fun t => {[sb_topic x]} ∪ t) d)).
    { unfold s1. cbn. by rewrite lookup_alter_eq, Hd. }
    destruct (gs_mesh s1 !! sb_topic x) as [peers|]; [destruct (_ && _)|]; wp_steps; cbn [sw_unsubscribed]; try (split; [done|by eexists]).
    unfold extend_mesh. wp_steps. cbn [sw_unsubscribed]. split; [|by eexists].
    apply (almost_quiet _ _ (upd_gs_mesh (partial_alter (fun m => Some (default ∅ m ∪ {[peer_id]})) (sb_topic x)) s1)); [apply quiet_score|].
    destruct Hs. split; try done. intros t ps q Ht Hq. cbn in Ht. destruct (decide (t = sb_topic x)) as [->|]; [|rewrite lookup_partial_alter_ne in Ht by done; by eapply al_mesh0].
    rewrite lookup_partial_alter_eq in Ht. injection Ht as <-. apply elem_of_union in Hq as [Hq | ->%elem_of_singleton].
    + change (gs_mesh s !! sb_topic x) with (gs_mesh s1 !! sb_topic x) in Hq.
      destruct (gs_mesh s1 !! sb_topic x) as [ps0|] eqn:E; [exact (al_mesh0 _ _ _ E Hq)|set_solver].
    + left. apply (subscribed_details _ _ _ _ H1). cbn. set_solver.
  - unfold unsubscribe_topic, update_peer. wp_steps. cbn [sw_unsubscribed]. split; [|cbn; rewrite lookup_alter_eq, Hd; by eexists].
    destruct Hs. split; try done; rewrite (cores_topics (fun t => t ∖ {[sb_topic x]})); [by apply (connected_ok_topics _ (fun t => t ∖ {[sb_topic x]}))|by apply members_but_unsubscribe..].
Qed.

Lemma members_but_remove peer_id left topic cs m :
  members_but peer_id (topic :: left) cs m -> members_but peer_id left cs (alter (fun peers => peers ∖ {[peer_id]}) topic m).
Proof.
  intros H t ps q Ht Hq. destruct (decide (t = topic)) as [->|].
  - rewrite lookup_alter_eq in Ht. destruct (m !! topic) as [ps0|] eqn:E; [|done]. cbn in Ht. injection Ht as <-.
    destruct (H topic ps0 q E) as [|[-> _]]; [set_solver|by left|set_solver].
  - rewrite lookup_alter_ne in Ht by done. destruct (H t ps q Ht Hq) as [|[-> [->|]%elem_of_cons]]; [by left|done|by right].
Qed.

Lemma members_but_absent peer_id left topic cs m :
  match m !! topic with Some peers => bool_decide (peer_id ∈ peers) | None => false end = false ->
  members_but peer_id (topic :: left) cs m -> members_but peer_id left cs m.
Proof.
  intros Hn H t ps q Ht Hq. destruct (H t ps q Ht Hq) as [|[-> [->|]%elem_of_cons]]; [by left| |by right].
  rewrite Ht in Hn. by apply bool_decide_eq_false in Hn.
Qed.

Lemma unsubscribe_one_ok peer_id topic left (s : Router) :
  almost_ok peer_id (topic :: left) s ->
  wp (remove_from_fanout peer_id topic;; remove_peer_from_mesh now peer_id topic None false;; mret tt) (fun _ s' => almost_ok peer_id left s') s.
Proof.
  intros []. unfold remove_from_fanout, remove_peer_from_mesh. wp_steps. cbn [gs_mesh upd_gs_fanout].
  apply members_but_remove in al_fanout0.
  destruct (match gs_mesh s !! topic with Some peers => bool_decide (peer_id ∈ peers) | None => false end) eqn:Er.
  - apply members_but_remove in al_mesh0. wp_steps. match goal with |- wp _ _ ?x => set (s2 := x) end.
    assert (H2 : almost_ok peer_id left s2) by (by split).
    eapply wp_mono; [by eapply notify_first_quiet, almost_connections|]. intros ? s3 [Hq _]. wp_steps.
    pose proof (almost_quiet _ _ _ _ Hq H2) as []. split; try done. by apply update_backoff_ok.
  - apply members_but_absent in al_mesh0; [|done]. wp_steps. by split.
Qed.

Lemma unsubscribe_loop_ok peer_id left (s : Router) :
  almost_ok peer_id left s ->
  wp (for_each (fun topic => remove_from_fanout peer_id topic;; remove_peer_from_mesh now peer_id topic None false;; mret tt) left)
     (fun _ s' => router_ok s') s.
Proof.
  revert s. induction left as [|topic left IH]; intros s Hs; [by apply almost_nil in Hs|]. cbn [for_each]. apply wp_bind_.
  eapply wp_mono; [by apply unsubscribe_one_ok|]. intros [] s' Hs'. by apply IH.
Qed.

Lemma safe_subscriptions l peer_id : safe (handle_received_subscriptions now l peer_id).
Proof.
  unfold handle_received_subscriptions. apply safe_get. intros s Hs. destruct (gs_connected_peers s !! peer_id) as [d|] eqn:E; [|by wp_steps].
  destruct (filter_incoming_subscriptions _ _ _) as [filtered|]; [|by wp_steps]. wp_steps.
  eapply wp_mono; [apply (wp_foldM _ _ (fun w s' => almost_ok peer_id (sw_unsubscribed w) s' /\ is_Some (gs_connected_peers s' !! peer_id)));
    [split; [by apply almost_nil|by eexists]|intros; by apply one_subscription_ok]|].
  intros w s1 [H1 _]. wp_steps. eapply wp_mono; [by apply unsubscribe_loop_ok|]. intros [] s2 H2. cbn beta.
  apply (safe_bind (if decide (sw_graft w = []) then mret tt else peer_added_to_mesh peer_id (sw_graft w))); [apply safe_if_dec; [apply safe_ret|apply safe_added]| |done].
  intros _. apply safe_bind; [apply safe_send_all|]. intros _. apply safe_for_each. intros e _. apply safe_emit.
Qed.
End at_time.
End mesh_facts.
