(* ===== verification/GsHeartbeatFacts.v ===== *)
(** The heartbeat keeps the router's invariant and never panics in it, and it
    brings a mesh back between its bounds. *)

From S2P Require Import Prelude Bytes BTree Common Float64 AppMessage Storage GsTimeCache GsBackoff GsMessageCache GsSubscriptions GsQueue GsConfig GsScore GsProtocol GsRouter GsMesh GsHeartbeat GsRouterFacts GsMeshFacts.
From Stdlib Require Import Strings.Byte.

#[local] Open Scope Z_scope.

Section heartbeat_facts.
Context {P : PeerIdLib} {K : KeypairLib} {S : SigningLib} {L : ProstLib} {R : RandLib} {RL : RandLaws R} {PS : PeerScoreLib} {I : InstantLib}.
Context {Fl : Type} {TF : TopicSubscriptionFilter Fl} {D : Type} {DT : DataTransform D}.
Context {HP : HashIter PeerId} {HT : HashIter TopicHash} {HM : HashIter (list byte)} {HS : HashIter Subscription} {HB : HashIter (TopicHash * PeerId)}.

Local Abbreviation MsgId := (list byte).
Local Abbreviation Router := (Behaviour Fl D).
Local Abbreviation RM := (M Fl D).

(** * The peers that are removed from a full mesh *)
Definition count_inbound (s : Router) (l : list PeerId) : Z := len (filter (fun p => is_outbound s p = false) l).

Lemma count_outbound_cons (s : Router) p l : count_outbound s (p :: l) = (if is_outbound s p then 1 else 0) + count_outbound s l.
Proof. unfold count_outbound, len. rewrite filter_cons. destruct (is_outbound s p); cbn [decide]; case_decide; try done; cbn [length]; lia. Qed.
Lemma count_inbound_cons (s : Router) p l : count_inbound s (p :: l) = (if is_outbound s p then 0 else 1) + count_inbound s l.
Proof. unfold count_inbound, len. rewrite filter_cons. destruct (is_outbound s p); case_decide; try done; cbn [length]; lia. Qed.
Lemma count_sides_nonneg (s : Router) l : 0 <= count_outbound s l /\ 0 <= count_inbound s l /\ count_outbound s l + count_inbound s l = len l.
Proof.
  induction l as [|p l IH]; [done|]. rewrite count_outbound_cons, count_inbound_cons. unfold len in *. cbn [length].
  destruct (is_outbound s p); lia.
Qed.

(** How many go: as many as wanted, but of the outbound ones only those above
    their minimum. *)
Lemma choose_excess_length (s : Router) omin e o l :
  0 <= e -> count_outbound s l <= o ->
  len (choose_excess s omin e o l) = Z.min e (count_inbound s l + Z.max 0 (Z.min (o - omin) (count_outbound s l))).
Proof.
  revert e o. induction l as [|p l IH]; intros e o He Ho; cbn [choose_excess].
  { unfold count_inbound, count_outbound, len. cbn. lia. }
  rewrite count_outbound_cons in *. rewrite count_inbound_cons. pose proof (count_sides_nonneg s l).
  destruct (decide (e = 0)) as [->|]; [change (len (@nil PeerId)) with 0; destruct (is_outbound s p); lia|].
  destruct (is_outbound s p); [destruct (decide (o <= omin))|].
  - rewrite IH by lia. lia.
  - change (p :: ?x) with ([p] ++ x). rewrite len_app, IH by lia. unfold len at 1. cbn [length]. lia.
  - change (p :: ?x) with ([p] ++ x). rewrite len_app, IH by lia. unfold len at 1. cbn [length]. lia.
Qed.

Lemma choose_excess_outbound (s : Router) omin e o l :
  0 <= e -> count_outbound s (choose_excess s omin e o l) <= Z.max 0 (o - omin).
Proof.
  revert e o. induction l as [|p l IH]; intros e o He; cbn [choose_excess]; [unfold count_outbound, len; cbn; lia|].
  destruct (decide (e = 0)) as [->|]; [unfold count_outbound, len; cbn; lia|].
  destruct (is_outbound s p) eqn:Ep; [destruct (decide (o <= omin))|].
  - specialize (IH e o He). lia.
  - rewrite count_outbound_cons, Ep. specialize (IH (e - 1) (o - 1) ltac:(lia)). lia.
  - rewrite count_outbound_cons, Ep. specialize (IH (e - 1) o ltac:(lia)). lia.
Qed.

Lemma choose_excess_sublist (s : Router) omin e o l : choose_excess s omin e o l `sublist_of` l.
Proof.
  revert e o. induction l as [|p l IH]; intros e o; cbn [choose_excess]; [done|].
  destruct (decide (e = 0)); [apply sublist_nil_l|]. destruct (is_outbound s p); [destruct (decide (o <= omin))|].
  - apply sublist_cons, IH.
  - apply sublist_skip, IH.
  - apply sublist_skip, IH.
Qed.

Lemma count_outbound_perm (s : Router) l l' : l ≡ₚ l' -> count_outbound s l = count_outbound s l'.
Proof. intros H. unfold count_outbound, len. by rewrite H. Qed.

(** * The stages of the upkeep of a topic *)
Context (topic : TopicHash).

Definition outbound_of (s : Router) (peers : gset PeerId) : Z := count_outbound s (elements peers).

Lemma is_outbound_quiet (s s' : Router) p : quiet s s' -> is_outbound s' p = is_outbound s p.
Proof.
  intros Hq. pose proof (q_cores _ _ Hq) as Hc. apply (f_equal (.!! p)) in Hc. unfold cores in Hc. rewrite !lookup_fmap in Hc.
  unfold is_outbound. destruct (gs_connected_peers s' !! p), (gs_connected_peers s !! p); try done. cbn in Hc. by injection Hc.
Qed.

Lemma outbound_of_quiet (s s' : Router) peers : quiet s s' -> outbound_of s' peers = outbound_of s peers.
Proof.
  intros Hq. unfold outbound_of, count_outbound. do 2 f_equal. apply list_filter_iff. intros p. by rewrite (is_outbound_quiet s s').
Qed.

Definition mesh_members (s : Router) (peers : gset PeerId) : Prop := forall p, p ∈ peers -> subscribed (cores s) topic p.

(** New peers are candidates that are not in the mesh yet. *)
Definition fresh (s : Router) (f : PeerId -> bool) : Z := len (gossip_candidates s topic f).

Lemma union_size_disjoint (X Y : gset PeerId) : (forall p, p ∈ Y -> p ∉ X) -> size (X ∪ Y) = (size X + size Y)%nat.
Proof. intros H. apply size_union. set_solver. Qed.

Lemma graftable_fresh (s : Router) peers p f : is_candidate s topic (fun p => graftable s topic peers p && f p) p = true -> p ∉ peers.
Proof.
  unfold is_candidate. destruct (gs_connected_peers s !! p); [|done]. unfold graftable.
  rewrite !andb_true_iff, !bool_decide_eq_true. tauto.
Qed.

Definition eligible (s : Router) (peers : gset PeerId) : Z :=
  fresh s (fun p => graftable s topic peers p && f64_le f64_zero (cached_score s p)).

Lemma fill_mesh_spec (s : Router) peers w :
  router_ok s -> mesh_members s peers ->
  wp (fill_mesh topic (peers, w)) (fun st s' =>
    quiet s s' /\ gs_peer_score s' = gs_peer_score s /\ mesh_members s' st.1 /\
    (if decide (Z.of_nat (size peers) < mesh_n_low_for_topic (gs_config s) topic)
     then peers ⊆ st.1 /\ Z.of_nat (size st.1) = Z.min (mesh_n_for_topic (gs_config s) topic) (Z.of_nat (size peers) + eligible s peers)
     else st.1 = peers)) s.
Proof.
  intros Hs Hm. unfold fill_mesh. wp_steps. case_decide as Hl; [|by wp_steps].
  destruct (proj1 (ok_config _ Hs) topic) as (_ & Hn & _). apply wp_bind.
  apply wp_usize_sub; [unfold mesh_n_low_for_topic, mesh_n_for_topic in *; lia|]. wp_steps.
  eapply wp_mono; [apply get_random_peers_spec; unfold mesh_n_low_for_topic, mesh_n_for_topic in *; lia|].
  intros new s' (Hq & _ & _ & Hps & Hnew & Hsz). wp_steps. cbn [fst]. split_and!; try done.
  - intros p [Hp|Hp]%elem_of_union; rewrite (q_cores _ _ Hq); [by apply Hm|by eapply candidate_subscribed, Hnew].
  - set_solver.
  - rewrite union_size_disjoint by (intros p Hp; by eapply graftable_fresh, Hnew). unfold eligible, fresh. lia.
Qed.

Lemma removal_order_spec (s : Router) peers :
  wp (removal_order peers) (fun l s' => quiet s s' /\ gs_peer_score s' = gs_peer_score s /\ l ≡ₚ elements peers) s.
Proof.
  unfold removal_order. wp_steps. destruct (shuffle (gs_rng s) (bt_iter peers)) as [l g] eqn:E. cbn [fst snd].
  pose proof (shuffle_perm (gs_rng s) (bt_iter peers)) as Hp. rewrite E in Hp. cbn [fst] in Hp.
  assert (Hl : merge_sort (score_le s) l ≡ₚ elements peers).
  { rewrite merge_sort_Permutation, Hp. unfold bt_iter. apply merge_sort_Permutation. }
  case_decide; wp_steps; [|by split_and!; [apply quiet_rng|..]].
  destruct (shuffle _ (take _ _)) as [l' g'] eqn:E'. cbn [fst snd].
  match type of E' with shuffle ?g0 ?x = _ => pose proof (shuffle_perm g0 x) as Hp'; rewrite E' in Hp' end. cbn [fst] in Hp'.
  split_and!; [etrans; apply quiet_rng|done|]. by rewrite Hp', take_drop.
Qed.

Lemma thin_mesh_spec (s : Router) peers w :
  router_ok s -> mesh_members s peers ->
  wp (thin_mesh topic (peers, w)) (fun st s' =>
    quiet s s' /\ gs_peer_score s' = gs_peer_score s /\ st.1 ⊆ peers /\
    (if decide (mesh_n_high_for_topic (gs_config s) topic <= Z.of_nat (size peers))
     then Z.of_nat (size st.1) = mesh_n_for_topic (gs_config s) topic /\
          Z.min (outbound_of s peers) (mesh_outbound_min_for_topic (gs_config s) topic) <= outbound_of s st.1
     else st.1 = peers)) s.
Proof.
  intros Hs Hm. unfold thin_mesh. wp_steps. case_decide as Hl; [|by wp_steps].
  destruct (proj1 (ok_config _ Hs) topic) as (Ho1 & Hn & Ho2). apply wp_bind.
  unfold mesh_n_low_for_topic, mesh_n_for_topic, mesh_n_high_for_topic, mesh_outbound_min_for_topic in *.
  apply wp_usize_sub; [lia|]. wp_steps. eapply wp_mono; [apply removal_order_spec|]. intros order s' (Hq & Hps & Hperm). wp_steps. cbn [fst].
  set (n := tm_n (mesh_params (gs_config s) topic)) in *. set (omin := tm_outbound_min (mesh_params (gs_config s) topic)) in *.
  set (e := Z.of_nat (size peers) - n). set (removed := choose_excess s omin e (count_outbound s order) order).
  assert (Hsub : removed `sublist_of` order) by apply choose_excess_sublist.
  assert (Hnd : NoDup order) by (rewrite Hperm; apply NoDup_elements).
  assert (Hndr : NoDup removed) by (by eapply sublist_NoDup).
  assert (Hin : list_to_set removed ⊆ peers).
  { intros p Hp%elem_of_list_to_set. apply (sublist_subseteq _ _ Hsub) in Hp. by rewrite Hperm, elem_of_elements in Hp. }
  assert (Hlen : len order = Z.of_nat (size peers)) by (unfold len; by rewrite Hperm).
  pose proof (count_sides_nonneg s order) as (? & ? & Hsum).
  assert (Hrem : len removed = e).
  { unfold removed. rewrite choose_excess_length by lia. lia. }
  split_and!; [done|done|set_solver|..].
  - rewrite size_difference by done. rewrite size_list_to_set by done. unfold len in *. unfold e in Hrem. lia.
  - assert (Hsplit : outbound_of s peers = outbound_of s (peers ∖ list_to_set removed) + count_outbound s removed).
    { unfold outbound_of, count_outbound, len. rewrite <- Nat2Z.inj_add, <- length_app, <- filter_app. f_equal. apply Permutation_length.
      apply filter_Permutation. apply NoDup_Permutation; [apply NoDup_elements|..].
      - apply NoDup_app. split_and!; [apply NoDup_elements|set_solver|done].
      - intros p. rewrite elem_of_app, !elem_of_elements, elem_of_difference, elem_of_list_to_set.
        destruct (decide (p ∈ removed)); [|tauto]. split; [tauto|]. intros _. apply Hin. by apply elem_of_list_to_set. }
    pose proof (choose_excess_outbound s omin e (count_outbound s order) order ltac:(lia)) as Hout. fold removed in Hout.
    rewrite (count_outbound_perm s _ _ Hperm) in Hout. unfold outbound_of in *. lia.
Qed.

Definition eligible_outbound (s : Router) (peers : gset PeerId) : Z :=
  fresh s (fun p => graftable s topic peers p && f64_le f64_zero (cached_score s p) && is_outbound s p).

Lemma outbound_of_union (s : Router) (X Y : gset PeerId) :
  (forall p, p ∈ Y -> (p ∉ X) /\ is_outbound s p = true) -> outbound_of s (X ∪ Y) = outbound_of s X + Z.of_nat (size Y).
Proof.
  intros H. assert (HY : Z.of_nat (size Y) = count_outbound s (elements Y)).
  { unfold count_outbound, len. rewrite filter_id; [done|]. apply Forall_forall. intros p Hp%elem_of_elements. by apply H. }
  rewrite HY. unfold outbound_of, count_outbound, len. rewrite <- Nat2Z.inj_add, <- length_app, <- filter_app. f_equal. apply Permutation_length.
  apply filter_Permutation. rewrite elements_disj_union; [done|]. intros p Hp Hq. by apply (H p Hq).
Qed.

Lemma fill_outbound_spec (s : Router) peers w :
  router_ok s -> mesh_members s peers ->
  wp (fill_outbound topic (peers, w)) (fun st s' =>
    quiet s s' /\ gs_peer_score s' = gs_peer_score s /\ mesh_members s' st.1 /\ peers ⊆ st.1 /\
    (if decide (mesh_n_low_for_topic (gs_config s) topic <= Z.of_nat (size peers) /\
                outbound_of s peers < mesh_outbound_min_for_topic (gs_config s) topic)
     then exists k, 0 <= k /\ k = Z.min (mesh_outbound_min_for_topic (gs_config s) topic - outbound_of s peers) (eligible_outbound s peers) /\
          Z.of_nat (size st.1) = Z.of_nat (size peers) + k /\ outbound_of s st.1 = outbound_of s peers + k
     else st.1 = peers)) s.
Proof.
  intros Hs Hm. unfold fill_outbound. wp_steps. fold (outbound_of s peers).
  destruct (decide (mesh_n_low_for_topic (gs_config s) topic <= Z.of_nat (size peers) /\
    outbound_of s peers < mesh_outbound_min_for_topic (gs_config s) topic)) as [[H1 H2]|Hn].
  - rewrite !bool_decide_true by done. cbn [andb]. wp_steps. eapply wp_mono; [apply get_random_peers_spec; lia|].
    intros new s' (Hq & _ & _ & Hps & Hnew & Hsz). wp_steps. cbn [fst].
    assert (Hn : forall p, p ∈ new -> (p ∉ peers) /\ is_outbound s p = true).
    { intros p Hp%Hnew. unfold is_candidate, graftable in Hp. destruct (gs_connected_peers s !! p); [|done].
      rewrite !andb_true_iff, !bool_decide_eq_true in Hp. tauto. }
    split_and!; [done|done| |set_solver|].
    + intros p [Hp|Hp]%elem_of_union; rewrite (q_cores _ _ Hq); [by apply Hm|by eapply candidate_subscribed, Hnew].
    + exists (Z.of_nat (size new)). split_and!; [lia|exact Hsz| |by apply outbound_of_union].
      rewrite union_size_disjoint by (intros p Hp; by apply Hn). lia.
  - assert (E : bool_decide (mesh_n_low_for_topic (gs_config s) topic <= Z.of_nat (size peers))
      && bool_decide (outbound_of s peers < mesh_outbound_min_for_topic (gs_config s) topic) = false).
    { apply andb_false_iff. rewrite !bool_decide_eq_false. lia. }
    rewrite E. wp_steps. by split_and!.
Qed.

Lemma median_score_Some (s : Router) (peers : gset PeerId) : (1 < size peers)%nat -> is_Some (median_score s peers).
Proof.
  intros H. unfold median_score.
  assert (Hl : length (merge_sort (score_le s) (bt_iter peers)) = size peers).
  { rewrite (Permutation_length (merge_sort_Permutation _ _)). unfold bt_iter. by rewrite (Permutation_length (merge_sort_Permutation _ _)). }
  set (l := merge_sort (score_le s) (bt_iter peers)) in *.
  assert (Hm : (length l / 2 < length l)%nat) by (apply Nat.div_lt; lia).
  assert (H1 : is_Some (l !! (length l / 2)%nat)) by (by apply lookup_lt_is_Some).
  assert (H2 : is_Some (l !! (length l / 2 - 1)%nat)) by (apply lookup_lt_is_Some; lia).
  destruct H1 as [a ->], H2 as [b ->]. case_decide; by eexists.
Qed.

Lemma opportunistic_graft_ok (s : Router) peers w :
  router_ok s -> mesh_members s peers ->
  wp (opportunistic_graft topic (peers, w)) (fun st s' => quiet s s' /\ mesh_members s' st.1 /\ (gs_peer_score s = None -> st.1 = peers)) s.
Proof.
  intros Hs Hm. unfold opportunistic_graft. wp_steps. destruct (gs_peer_score s) as [ps|]; [|by wp_steps].
  destruct (is_multiple_of _ _ && bool_decide (1 < Z.of_nat (size peers))) eqn:E; [|by wp_steps].
  apply andb_true_iff in E as [_ E%bool_decide_eq_true]. destruct (median_score_Some s peers ltac:(lia)) as [m ->].
  destruct (f64_lt m _); [|by wp_steps]. wp_steps. eapply wp_mono; [apply get_random_peers_spec; apply (ok_config _ Hs)|].
  intros new s' (Hq & _ & _ & Hps & Hnew & _). wp_steps. cbn [fst]. split_and!; [done| |done].
  intros p [Hp|Hp]%elem_of_union; rewrite (q_cores _ _ Hq); [by apply Hm|by eapply candidate_subscribed, Hnew].
Qed.

Lemma drop_negative_sub (s : Router) st : (drop_negative s topic st).1 ⊆ st.1.
Proof. destruct st as [peers w]. cbn. set_solver. Qed.

Lemma mesh_members_quiet (s s' : Router) peers : quiet s s' -> mesh_members s peers -> mesh_members s' peers.
Proof. intros Hq H p Hp. rewrite (q_cores _ _ Hq). by apply H. Qed.

Lemma mesh_default (s : Router) : router_ok s -> mesh_members s (default ∅ (gs_mesh s !! topic)).
Proof. intros Hs p Hp. destruct (gs_mesh s !! topic) as [ps|] eqn:E; [by eapply (ok_mesh _ Hs)|set_solver]. Qed.

(** What the upkeep of a topic leaves of the rest of the router. *)
Lemma maintain_topic_ok w (s : Router) :
  router_ok s -> wp (maintain_topic w topic) (fun _ s' => router_ok s' /\ cores s' = cores s) s.
Proof.
  intros Hs. unfold maintain_topic. wp_steps.
  destruct (drop_negative s topic (default ∅ (gs_mesh s !! topic), w)) as [peers w0] eqn:Ed.
  assert (Hm : mesh_members s peers).
  { intros p Hp. apply (mesh_default s Hs). pose proof (drop_negative_sub s (default ∅ (gs_mesh s !! topic), w)) as H. rewrite Ed in H. by apply H. }
  eapply wp_mono; [by apply fill_mesh_spec|]. intros [p1 w1] s1 (Q1 & _ & M1 & _). wp_steps. cbn [fst] in *.
  pose proof (router_ok_quiet _ _ Q1 Hs) as H1.
  eapply wp_mono; [by apply thin_mesh_spec|]. intros [p2 w2] s2 (Q2 & _ & M2 & _). wp_steps. cbn [fst] in *.
  pose proof (router_ok_quiet _ _ Q2 H1) as H2.
  assert (M2' : mesh_members s2 p2) by (apply (mesh_members_quiet s1 s2); [done|]; intros p Hp; by apply M1, M2).
  eapply wp_mono; [by apply fill_outbound_spec|]. intros [p3 w3] s3 (Q3 & _ & M3 & _). wp_steps. cbn [fst] in *.
  pose proof (router_ok_quiet _ _ Q3 H2) as H3.
  eapply wp_mono; [by apply opportunistic_graft_ok|]. intros [p4 w4] s4 (Q4 & M4 & _). wp_steps. cbn [fst snd] in *.
  pose proof (router_ok_quiet _ _ Q4 H3) as []. split; [split; try done; by apply members_ok_insert|].
  change (cores s4 = cores s). by rewrite (q_cores _ _ Q4), (q_cores _ _ Q3), (q_cores _ _ Q2), (q_cores _ _ Q1).
Qed.

(** * The size of a mesh after the heartbeat *)
Definition low (s : Router) : Z := mesh_n_low_for_topic (gs_config s) topic.
Definition target (s : Router) : Z := mesh_n_for_topic (gs_config s) topic.
Definition high (s : Router) : Z := mesh_n_high_for_topic (gs_config s) topic.
Definition outbound_min (s : Router) : Z := mesh_outbound_min_for_topic (gs_config s) topic.

Lemma drop_negative_disabled (s : Router) peers w :
  gs_peer_score s = None -> (drop_negative s topic (peers, w)).1 = peers.
Proof.
  intros Hn. cbn [drop_negative fst]. apply leibniz_equiv. intros p. rewrite elem_of_difference, elem_of_filter.
  unfold cached_score. rewrite Hn, f64_lt_irrefl. naive_solver.
Qed.

Lemma candidates_quiet (s s' : Router) f : quiet s s' -> len (gossip_candidates s' topic f) = len (gossip_candidates s topic f).
Proof.
  intros Hq. unfold len. f_equal. apply Permutation_length. apply NoDup_Permutation; [apply candidates_NoDup..|].
  intros p. rewrite !elem_of_candidates. unfold is_candidate.
  pose proof (q_cores _ _ Hq) as Hc. apply (f_equal (.!! p)) in Hc. unfold cores in Hc. rewrite !lookup_fmap in Hc.
  destruct (gs_connected_peers s' !! p) as [d'|], (gs_connected_peers s !! p) as [d|]; try done. cbn in Hc. injection Hc as E1 _ _ E2 _.
  by rewrite E1, E2.
Qed.

(** C17: The heartbeat repairs a mesh (of a router that does not score its
    peers, as the node's).  A mesh below its low mark keeps its peers and is
    filled to exactly the target size, or with every eligible peer when there are
    fewer; one at its high mark or above is cut to exactly the target size,
    keeping the outbound peers up to their minimum; one in between is kept.  When
    the mesh so repaired has reached the low mark but not its minimum of outbound
    peers, eligible outbound peers are added to it, exactly as many as the minimum
    lacks or as there are; otherwise nothing is added. *)
Theorem heartbeat_repairs_mesh w (s : Router) peers :
  router_ok s -> gs_peer_score s = None -> gs_mesh s !! topic = Some peers ->
  wp (maintain_topic w topic) (fun _ s' => exists core peers',
    gs_mesh s' !! topic = Some peers' /\
    (Z.of_nat (size peers) < low s -> peers ⊆ core /\
       Z.of_nat (size core) = Z.min (target s) (Z.of_nat (size peers) + eligible s peers)) /\
    (high s <= Z.of_nat (size peers) -> core ⊆ peers /\ Z.of_nat (size core) = target s /\
       Z.min (outbound_of s peers) (outbound_min s) <= outbound_of s core) /\
    (low s <= Z.of_nat (size peers) < high s -> core = peers) /\
    core ⊆ peers' /\ Z.of_nat (size peers') - Z.of_nat (size core) = outbound_of s peers' - outbound_of s core /\
    outbound_of s peers' =
      (if decide (low s <= Z.of_nat (size core) /\ outbound_of s core < outbound_min s)
       then Z.min (outbound_min s) (outbound_of s core + eligible_outbound s core) else outbound_of s core)) s.
Proof.
  intros Hs Hn Hp. unfold maintain_topic. wp_steps. rewrite Hp. cbn [default from_option Datatypes.id].
  destruct (drop_negative s topic (peers, w)) as [peers0 w0] eqn:Ed.
  pose proof (drop_negative_disabled s peers w Hn) as E0. rewrite Ed in E0. cbn [fst] in E0. subst peers0. clear Ed.
  assert (Hm : mesh_members s peers) by (intros p Hq; by eapply (ok_mesh _ Hs)).
  destruct (proj1 (ok_config _ Hs) topic) as (Ho1 & Hpar & Ho2).
  eapply wp_mono; [by apply fill_mesh_spec|]. intros [p1 w1] s1 (Q1 & N1 & M1 & Z1). wp_steps. cbn [fst] in *.
  pose proof (router_ok_quiet _ _ Q1 Hs) as H1.
  eapply wp_mono; [by apply thin_mesh_spec|]. intros [p2 w2] s2 (Q2 & N2 & M2 & Z2). wp_steps. cbn [fst] in *.
  pose proof (router_ok_quiet _ _ Q2 H1) as H2.
  assert (M2' : mesh_members s2 p2) by (apply (mesh_members_quiet s1 s2); [done|]; intros p Hq; by apply M1, M2).
  eapply wp_mono; [by apply fill_outbound_spec|]. intros [p3 w3] s3 (Q3 & N3 & M3 & Sub3 & Z3). wp_steps. cbn [fst] in *.
  pose proof (router_ok_quiet _ _ Q3 H2) as H3.
  eapply wp_mono; [by apply opportunistic_graft_ok|]. intros [p4 w4] s4 (Q4 & _ & E4). wp_steps. cbn [fst snd] in *.
  assert (p4 = p3) as -> by (apply E4; congruence). clear E4.
  exists p2, p3. cbn [gs_mesh upd_gs_mesh]. rewrite lookup_insert_eq. split; [done|].
  assert (C1 : gs_config s1 = gs_config s) by apply Q1. assert (C2 : gs_config s2 = gs_config s) by (etrans; [apply Q2|done]).
  assert (Q12 : quiet s s2) by (by etrans).
  assert (Ee : eligible_outbound s2 p2 = eligible_outbound s p2).
  { unfold eligible_outbound, fresh. rewrite (candidates_quiet s s2 _ Q12). unfold len. do 2 f_equal. apply list_filter_iff. intros p.
    unfold is_candidate. destruct (gs_connected_peers s !! p); [|done].
    unfold graftable, cached_score. rewrite (is_outbound_quiet s s2 p Q12), (q_explicit _ _ Q12), (q_backoffs _ _ Q12), Hn, (q_score _ _ Q12 Hn). done. }
  rewrite C1 in Z2. rewrite C2, Ee, !(outbound_of_quiet s s2 _ Q12) in Z3. rewrite !(outbound_of_quiet s s1 _ Q1) in Z2.
  assert (0 <= eligible s peers) by apply len_nonneg.
  assert (Same : Z.of_nat (size peers) < low s -> p2 = p1).
  { intros Hl. destruct (decide (mesh_n_high_for_topic _ _ <= _)) in Z2; [|done]. destruct Z2 as [E2 _].
    rewrite decide_True in Z1 by done. destruct Z1 as [_ E1].
    apply leibniz_equiv, set_subseteq_size_equiv; [done|]. unfold low, mesh_n_low_for_topic, mesh_n_for_topic, mesh_n_high_for_topic in *. lia. }
  unfold low, target, high, outbound_min, mesh_n_low_for_topic, mesh_n_for_topic, mesh_n_high_for_topic, mesh_outbound_min_for_topic in *.
  set (m := mesh_params (gs_config s) topic) in *.
  split_and!; [..|done| |].
  - intros Hl. rewrite Same by done. by rewrite decide_True in Z1 by lia.
  - intros Hl. rewrite decide_False in Z1 by lia. subst p1. rewrite decide_True in Z2 by lia. tauto.
  - intros Hl. rewrite decide_False in Z1 by lia. subst p1. by rewrite decide_False in Z2 by lia.
  - case_decide; [destruct Z3 as (k & ? & ? & ? & ?)|subst p3]; lia.
  - case_decide; [destruct Z3 as (k & ? & ? & ? & ?)|subst p3]; lia.
Qed.
End heartbeat_facts.

(** * The heartbeat as a whole *)
Section heartbeat_safe.
Context {P : PeerIdLib} {K : KeypairLib} {S : SigningLib} {L : ProstLib} {R : RandLib} {RL : RandLaws R} {PS : PeerScoreLib} {I : InstantLib}.
Context {Fl : Type} {TF : TopicSubscriptionFilter Fl} {D : Type} {DT : DataTransform D}.
Context {HP : HashIter PeerId} {HT : HashIter TopicHash} {HM : HashIter (list byte)} {HS : HashIter Subscription} {HB : HashIter (TopicHash * PeerId)}.

Local Abbreviation MsgId := (list byte).
Local Abbreviation Router := (Behaviour Fl D).
Local Abbreviation RM := (M Fl D).
Local Abbreviation safe := (GsMeshFacts.safe (Fl := Fl) (D := D)).
Context (now : Z).

Lemma random_dynamic_quiet topic n f (s : Router) :
  wp (get_random_peers_dynamic topic n f) (fun _ s' => quiet s s') s.
Proof. unfold get_random_peers_dynamic. wp_steps. case_decide; wp_steps; [done|apply quiet_rng]. Qed.

Lemma safe_random_dynamic topic n f : safe (get_random_peers_dynamic topic n f).
Proof. apply safe_quiet. intros s _. apply random_dynamic_quiet. Qed.

Lemma members_ok_difference cs (m : gmap TopicHash (gset PeerId)) x : members_ok cs m -> members_ok cs (m ∖ x).
Proof. intros H t ps p [Ht _]%lookup_difference_Some. by apply (H t ps p). Qed.

Lemma safe_expire_fanout : safe (expire_fanout now).
Proof. intros s []. unfold expire_fanout. wp_steps. split; try done. by apply members_ok_difference. Qed.

Lemma safe_maintain_fanout topic : safe (maintain_fanout topic).
Proof.
  unfold maintain_fanout. apply safe_get. intros s Hs.
  set (peers := filter (fun p => fanout_stays s topic p = true) (default ∅ (gs_fanout s !! topic))).
  assert (Hp : forall p, p ∈ peers -> subscribed (cores s) topic p).
  { intros p [Hp _]%elem_of_filter. unfold fanout_stays in Hp. destruct (gs_connected_peers s !! p) as [d|] eqn:E; [|done].
    apply andb_true_iff in Hp as [Hp%bool_decide_eq_true _]. by apply (subscribed_details s topic p d E). }
  wp_steps. case_decide; wp_steps.
  - apply random_peers_ok; [lia|done|]. intros r s1 Hq _ H1 Hr _. wp_steps. destruct H1. split; try done.
    apply members_ok_insert; [done|]. intros p [H1|H1]%elem_of_union; [|by apply Hr]. change (subscribed (cores s1) topic p). rewrite (q_cores _ _ Hq). by apply Hp.
  - destruct Hs. split; try done. by apply members_ok_insert.
Qed.

Lemma safe_maintain_all : safe (maintain_all now).
Proof.
  unfold maintain_all. apply safe_get. intros s Hs. wp_steps.
  eapply wp_mono; [apply (wp_foldM _ _ (fun _ s => router_ok s)); [done|]|].
  { intros b x s1 _ H1. eapply wp_mono; [by apply maintain_topic_ok|]. by intros ? ? [? _]. }
  intros w s1 H1. wp_steps. eapply wp_mono; [by apply safe_expire_fanout|]. intros [] s2 H2. wp_steps.
  eapply wp_mono; [apply (safe_for_each maintain_fanout); [intros; apply safe_maintain_fanout|done]|]. intros [] s3 H3. by wp_steps.
Qed.

Lemma safe_ihave_for max topic ids acc p : safe (ihave_for max topic ids acc p).
Proof.
  unfold ihave_for. apply safe_bind; [|intros; apply safe_ret]. apply safe_if_dec; [|apply safe_ret].
  apply safe_bind; [apply safe_rng|]. intros; apply safe_ret.
Qed.

Lemma gossip_ids_ok c topic : cache_ok c -> exists l, get_gossip_message_ids c topic = Ret l.
Proof. intros H. unfold get_gossip_message_ids. rewrite decide_True by done. by eexists. Qed.

Lemma safe_gossip_topic acc x : safe (gossip_topic acc x).
Proof.
  destruct x as [topic peers]. unfold gossip_topic. apply safe_get. intros s Hs.
  destruct (gossip_ids_ok (gs_mcache s) topic (ok_cache _ Hs)) as [ids E]. apply wp_bind. eapply wp_lift; [done|].
  case_decide; [by wp_steps|].
  match goal with |- wp ?m _ _ => enough (Hm : safe m) by (by apply Hm) end.
  apply safe_bind; [apply safe_if_dec; [apply safe_ret|apply safe_rng]|]. intros ids'.
  apply safe_bind; [apply safe_random_dynamic|]. intros r. apply safe_foldM. intros. apply safe_ihave_for.
Qed.

Lemma safe_emit_gossip : safe emit_gossip.
Proof.
  unfold emit_gossip. apply safe_get. intros s Hs. wp_steps.
  eapply wp_mono; [apply (safe_foldM gossip_topic); [intros; apply safe_gossip_topic|done]|]. intros l s1 H1. by apply safe_send_all.
Qed.

Lemma safe_graft_peer w p : safe (graft_peer now w p).
Proof.
  unfold graft_peer. apply safe_get. intros s Hs.
  match goal with |- wp ?m _ _ => enough (Hm : safe m) by (by apply Hm) end.
  apply safe_bind; [apply safe_for_each; intros; apply safe_bind; [apply safe_score|intros; apply safe_added]|]. intros _.
  apply safe_bind; [apply safe_make_prunes|]. intros prunes. apply safe_send_all.
Qed.

Lemma safe_prune_peer w p : safe (prune_peer now w p).
Proof.
  unfold prune_peer. apply safe_get. intros s Hs.
  match goal with |- wp ?m _ _ => enough (Hm : safe m) by (by apply Hm) end.
  apply safe_for_each. intros t _. apply safe_bind; [apply safe_make_prune|]. intros prune.
  apply safe_bind; [apply safe_send|]. intros _. apply safe_removed.
Qed.

Lemma safe_send_graft_prune w : safe (send_graft_prune now w).
Proof.
  unfold send_graft_prune. apply safe_bind; [apply safe_for_each; intros; apply safe_graft_peer|]. intros _.
  apply safe_for_each. intros. apply safe_prune_peer.
Qed.

Lemma safe_penalties : safe (apply_iwant_penalties now).
Proof.
  unfold apply_iwant_penalties. apply safe_get. intros s Hs. destruct (gs_peer_score s); [|by wp_steps].
  destruct (get_broken_promises now (gs_gossip_promises s)) as [broken promises].
  match goal with |- wp ?m _ _ => enough (Hm : safe m) by (by apply Hm) end.
  apply safe_bind; [by apply safe_modify; intros ? []|]. intros _. apply safe_for_each. intros. apply safe_score.
Qed.

Lemma backoff_heartbeat_ok b : backoff_ok b -> exists b', backoff_heartbeat now b = Ret b' /\ backoff_ok b'.
Proof.
  intros [Hi Hd]. unfold backoff_heartbeat. destruct (lookup_lt_is_Some_2 _ _ Hi) as [slot ->]. rewrite decide_False by lia.
  destruct (foldl _ _ _) as [bs kept]. unfold advance, set_backoffs. cbn [backoffs_by_heartbeat].
  rewrite decide_False; [|intros E; apply (f_equal length) in E; rewrite length_insert in E; cbn in E; lia].
  eexists. split; [done|]. split; cbn; [|done]. rewrite length_insert. apply Nat.mod_upper_bound. lia.
Qed.

Lemma safe_backoff_tick : safe (backoff_tick now).
Proof.
  unfold backoff_tick. apply safe_get. intros s Hs. destruct (backoff_heartbeat_ok (gs_backoffs s) (ok_backoff _ Hs)) as (b & E & Hb).
  apply wp_bind. eapply wp_lift; [done|]. wp_steps. destruct Hs. by split.
Qed.

Lemma mc_shift_ok c : cache_ok c -> cache_ok (mc_shift c).
Proof.
  unfold cache_ok, mc_shift. intros H. destruct (last (history c)) as [l|] eqn:E; [|done]. cbn [gossip history length].
  apply last_Some in E as [l' E]. rewrite E in *. rewrite removelast_last. rewrite length_app in H. cbn in H. lia.
Qed.

(** A change of a peer's details that keeps its connections and topics. *)
Lemma router_ok_details (f : PeerDetails -> PeerDetails) (s : Router) :
  (forall d, pd_connections (f d) = pd_connections d /\ pd_topics (f d) = pd_topics d) ->
  router_ok s -> router_ok (upd_gs_connected_peers (fmap f) s).
Proof.
  intros Hf []. assert (Hl : forall p, cores (upd_gs_connected_peers (fmap f) s) !! p = (fun d => core (f d)) <$> gs_connected_peers s !! p).
  { intros p. unfold cores. cbn. rewrite lookup_fmap, lookup_fmap. by destruct (gs_connected_peers s !! p). }
  assert (Hsub : forall t p, subscribed (cores s) t p -> subscribed (cores (upd_gs_connected_peers (fmap f) s)) t p).
  { intros t p. unfold subscribed. rewrite Hl. unfold cores. rewrite lookup_fmap. destruct (gs_connected_peers s !! p) as [d|]; [|done].
    cbn. unfold core, core_topics. cbn. by rewrite (proj2 (Hf d)). }
  split; try done.
  - intros p c. rewrite Hl. destruct (gs_connected_peers s !! p) as [d|] eqn:E; [|done]. cbn. intros [= <-]. unfold core_connections. cbn.
    rewrite (proj1 (Hf d)). apply (ok_connected p (core d)). unfold cores. by rewrite lookup_fmap, E.
  - intros t ps p Ht Hp. by eapply Hsub, ok_mesh.
  - intros t ps p Ht Hp. by eapply Hsub, ok_fanout.
Qed.

Lemma safe_heartbeat : safe (heartbeat now).
Proof.
  unfold heartbeat. apply safe_bind; [by apply safe_modify; intros ? []|]. intros _. apply safe_bind; [apply safe_backoff_tick|]. intros _.
  apply safe_bind; [by apply safe_modify; intros ? []|]. intros _. apply safe_bind; [by apply safe_modify; intros ? []|]. intros _.
  apply safe_bind; [apply safe_penalties|]. intros _.
  apply safe_bind.
  { unfold check_explicit_peers. apply safe_get. intros s Hs. destruct (is_multiple_of _ _); [|by wp_steps]. apply safe_for_each; [|done].
    intros p _. unfold check_explicit_peer_connection. apply safe_get. intros s1 H1. case_decide; [by apply safe_emit|by wp_steps]. }
  intros _. apply safe_bind; [apply safe_maintain_all|]. intros w. apply safe_bind; [apply safe_emit_gossip|]. intros _.
  apply safe_bind; [apply safe_send_graft_prune|]. intros _. apply safe_bind; [apply safe_modify; intros s []; split; try done; by apply mc_shift_ok|]. intros _.
  apply safe_bind.
  { unfold report_slow_peers. apply safe_get. intros s Hs. apply wp_bind_, wp_modify. apply safe_for_each; [intros; apply safe_emit|by destruct Hs]. }
  intros _. apply safe_modify. intros s Hs. apply router_ok_details; [done|done].
Qed.
End heartbeat_safe.
