(* ===== verification/GsMessageFacts.v ===== *)
(** The messages of the gossipsub router: every operation of its interface keeps
    the invariant and returns, a message is delivered once, and it is forwarded
    to the right peers and to no other. *)

From S2P Require Import Prelude Bytes BTree Common AppMessage Storage GsTimeCache GsBackoff GsMessageCache GsSubscriptions GsQueue GsConfig GsScore GsProtocol GsRouter GsMesh GsHeartbeat GsMessages GsRouterFacts GsMeshFacts GsHeartbeatFacts.
From Stdlib Require Import Strings.Byte.

#[local] Open Scope Z_scope.

Section message_facts.
Context {P : PeerIdLib} {K : KeypairLib} {S : SigningLib} {L : ProstLib} {R : RandLib} {RL : RandLaws R} {PS : PeerScoreLib} {I : InstantLib}.
Context {Fl : Type} {TF : TopicSubscriptionFilter Fl} {D : Type} {DT : DataTransform D}.
Context {HP : HashIter PeerId} {HT : HashIter TopicHash} {HM : HashIter (list byte)} {HS : HashIter Subscription} {HB : HashIter (TopicHash * PeerId)}.

Local Abbreviation MsgId := (list byte).
Local Abbreviation Router := (Behaviour Fl D).
Local Abbreviation RM := (M Fl D).
Local Abbreviation safe := (GsMeshFacts.safe (Fl := Fl) (D := D)).

(** * The message cache keeps its shape *)
Lemma mc_put_ok c id m : cache_ok c -> cache_ok (mc_put c id m).2.
Proof.
  unfold cache_ok, mc_put. intros H. destruct (history c) as [|h l] eqn:E; cbn [snd]; [by rewrite E|].
  destruct (msgs c !! id); cbn [snd gossip history length]; [by rewrite E|done].
Qed.
Lemma observe_ok c id p : cache_ok c -> cache_ok (observe_duplicate c id p).
Proof. unfold cache_ok, observe_duplicate. destruct (msgs c !! id) as [[m o]|]; [destruct (rm_validated m)|]; done. Qed.
Lemma iwant_ok c id p : cache_ok c -> cache_ok (get_with_iwant_counts c id p).2.
Proof. unfold cache_ok, get_with_iwant_counts. destruct (msgs c !! id) as [[m o]|]; [destruct (negb (rm_validated m))|]; done. Qed.
Lemma validate_ok c id : cache_ok c -> cache_ok (mc_validate c id).2.
Proof. unfold cache_ok, mc_validate. destruct (msgs c !! id) as [[m o]|]; done. Qed.

Lemma safe_mcache f : (forall c, cache_ok c -> cache_ok (f c)) -> safe (modify (upd_gs_mcache f)).
Proof. intros H. apply safe_modify. intros s []. split; try done. by apply H. Qed.

(** Changes the invariant does not speak of. *)
Ltac irrelevant := by apply safe_modify; intros ? [].

Section at_time.
Context (now : Z).

(** * Publishing *)
Lemma publish_peers_subscribed (s : Router) topic p : p ∈ publish_peers s topic -> subscribed (cores s) topic p.
Proof.
  unfold publish_peers. rewrite elem_of_filter. intros [H _]. unfold publishable in H. destruct (gs_connected_peers s !! p) as [d|] eqn:E; [|done].
  apply andb_true_iff in H as [H%bool_decide_eq_true _]. by apply (subscribed_details s topic p d E).
Qed.

Lemma filter_candidates_ok topic candidates (s : Router) :
  router_ok s -> (forall p, p ∈ candidates -> subscribed (cores s) topic p) ->
  wp (filter_publish_candidates now topic candidates) (fun r s' => router_ok s' /\ r ⊆ candidates /\ cores s' = cores s) s.
Proof.
  intros Hs Hc. unfold filter_publish_candidates. wp_steps. destruct (cf_flood_publish _); [by wp_steps|].
  assert (Hsample : forall n (X : gset PeerId), list_to_set (fst (sample (gs_rng s) n (hash_iter X))) ⊆ X).
  { intros n X p Hp%elem_of_list_to_set. destruct (sample_perm (gs_rng s) n (hash_iter X)) as [rest Hr].
    assert (H : p ∈ hash_iter X) by (rewrite <- Hr; set_solver). by rewrite hash_iter_elements, elem_of_elements in H. }
  destruct (gs_mesh s !! topic) as [mesh|].
  - wp_steps. case_decide; wp_steps; cbn [fst].
    + split_and!; [exact (router_ok_quiet _ _ (quiet_rng _ _) Hs)| |done].
      match goal with |- context [sample _ ?n (hash_iter ?X)] => pose proof (Hsample n X) end. set_solver.
    + split_and!; [done|set_solver|done].
  - wp_steps. case_decide; wp_steps.
    + match goal with |- context [sample _ ?n (hash_iter ?X)] => pose proof (Hsample n X) as Hsub end. split_and!; [|set_solver|done].
      destruct Hs. split; try done. apply members_ok_insert; [done|]. intros p Hp. apply Hc. apply Hsub in Hp. set_solver.
    + split_and!; [by destruct Hs|set_solver|done].
Qed.

(** The sequence numbers of a signing node are not exhausted. *)
Definition can_sign (s : Router) : Prop :=
  match gs_publish_config s with PcSigning _ _ _ n => n + 1 <= u64_max | _ => True end.

Lemma build_ok topic data (s : Router) :
  can_sign s -> wp (build_raw_message_m topic data) (fun _ s' => exists c, s' = upd_gs_publish_config (fun _ => c) (upd_gs_rng (fun _ => gs_rng s') s)) s.
Proof.
  intros Hs. unfold build_raw_message_m. wp_steps. cbn [gs_rng upd_gs_rng].
  assert (E : exists r c, build_raw_message (fst (random_u64 (gs_rng s))) (fst (random_peer_id (snd (random_u64 (gs_rng s))))) (gs_publish_config s) topic data = Ret (r, c)).
  { unfold can_sign in Hs. destruct (gs_publish_config s) as [k a i n| | |]; cbn; try (by do 2 eexists). unfold seq_next. rewrite decide_True by done. by do 2 eexists. }
  destruct E as (r & c & E). eapply wp_lift; [exact E|]. wp_steps. exists c. by destruct s.
Qed.

Lemma publish_safe topic data (s : Router) : router_ok s -> can_sign s -> wp (gs_publish now topic data) (fun _ s' => router_ok s') s.
Proof.
  intros Hs Hc. unfold gs_publish. wp_steps. destruct (outbound_transform _ _ _) as [transformed|]; [|by wp_steps]. case_decide; [by wp_steps|]. wp_steps.
  eapply wp_mono; [by apply build_ok|]. intros raw s1 [c E]. assert (H1 : router_ok s1) by (rewrite E; by destruct Hs).
  assert (C1 : cores s1 = cores s) by (by rewrite E). destruct raw as [m|]; [|by wp_steps]. destruct (dup_contains _ _); [by wp_steps|]. wp_steps.
  eapply wp_mono; [apply filter_candidates_ok; [done|]|]. { intros p Hp. rewrite C1. by apply publish_peers_subscribed. }
  intros recipients s2 (H2 & _ & _). case_decide; [by wp_steps|].
  match goal with |- wp ?x _ _ => enough (Hx : safe x) by (by apply Hx) end.
  apply safe_bind; [irrelevant|]. intros _. apply safe_bind; [apply safe_mcache; intros; by apply mc_put_ok|]. intros _.
  apply safe_bind; [irrelevant|]. intros _. apply safe_bind.
  - apply safe_foldM. intros b p _. unfold publish_to. apply safe_bind; [apply safe_if; [|apply safe_ret]; apply safe_bind; [apply safe_send|intros; apply safe_ret]|].
    intros _. apply safe_bind; [apply safe_send|]. intros; apply safe_ret.
  - intros [|]; apply safe_ret.
Qed.

(** * Forwarding and validation *)
Lemma safe_forward id m src orig : safe (forward_msg now id m src orig).
Proof.
  unfold forward_msg. apply safe_bind; [destruct src; [apply safe_score|apply safe_ret]|]. intros _. apply safe_get. intros s Hs.
  case_decide; [by wp_steps|]. apply wp_bind_.
  eapply wp_mono; [apply (safe_for_each (forward_to now id m)); [|done]|by intros [] s' H'; wp_steps]. intros p _. unfold forward_to. apply safe_get. intros s1 H1.
  destruct (gs_connected_peers s1 !! p) as [d|]; [|by wp_steps]. destruct (dont_send_contains d id); [by wp_steps|].
  apply wp_bind_. eapply wp_mono; [by apply safe_send|]. intros b s2 H2. by wp_steps.
Qed.

Lemma safe_report id p acc : safe (report_message_validation_result now id p acc).
Proof.
  unfold report_message_validation_result. apply safe_get. intros s Hs.
  assert (Hrej : forall reason, wp (let '(r, c) := mc_remove (gs_mcache s) id in
      modify (upd_gs_mcache (fun _ => c));;
      match r with
      | Some (raw_message, originating_peers) =>
          with_score (ps_reject_message now p id (rm_topic raw_message) reason);;
          for_each (fun q => with_score (ps_reject_message now q id (rm_topic raw_message) reason)) (hash_iter originating_peers);; mret true
      | None => mret false
      end : RM bool) (fun _ s' => router_ok s') s).
  { intros reason. cbn [mc_remove]. apply wp_bind_, wp_modify. match goal with |- wp ?x _ ?s1 => assert (H1 : router_ok s1) end.
    { destruct Hs. split; done. }
    destruct (msgs (gs_mcache s) !! id) as [[m o]|]; [|by wp_steps].
    match goal with |- wp ?x _ _ => enough (Hx : safe x) by (by apply Hx) end.
    apply safe_bind; [apply safe_score|]. intros _. apply safe_bind; [apply safe_for_each; intros; apply safe_score|]. intros; apply safe_ret. }
  destruct acc; [|apply Hrej|apply Hrej].
  destruct (mc_validate (gs_mcache s) id) as [r c] eqn:E. destruct r as [[m o]|]; [|by wp_steps].
  assert (Hv : cache_ok c). { pose proof (validate_ok (gs_mcache s) id (ok_cache _ Hs)) as H. by rewrite E in H. }
  apply wp_bind_, wp_modify. match goal with |- wp ?x _ _ => enough (Hx : safe x) by (apply Hx; destruct Hs; by split) end.
  apply safe_bind; [apply safe_forward|]. intros; apply safe_ret.
Qed.

(** * Receiving *)
Lemma safe_invalid p t id r : safe (handle_invalid_message now p t id r).
Proof. unfold handle_invalid_message. destruct id; [apply safe_bind; [irrelevant|intros _]|]; apply safe_score. Qed.

Lemma safe_message_is_valid id m p : safe (message_is_valid now id m p).
Proof.
  unfold message_is_valid. apply safe_get. intros s Hs.
  match goal with |- wp ?x _ _ => enough (Hx : safe x) by (by apply Hx) end.
  apply safe_if_dec; [apply safe_bind; [irrelevant|intros _; apply safe_bind; [apply safe_score|intros; apply safe_ret]]|].
  apply safe_if; [apply safe_bind; [apply safe_invalid|intros; apply safe_ret]|]. cbn zeta.
  apply safe_if; [apply safe_bind; [apply safe_invalid|intros; apply safe_ret]|apply safe_ret].
Qed.

Lemma safe_idontwant_broadcast id msg m p : safe (broadcast_idontwant id msg m p).
Proof. unfold broadcast_idontwant. apply safe_get. intros s Hs. destruct (_ && _); [by apply safe_send_all|by wp_steps]. Qed.

Lemma safe_accept id msg m p : safe (accept_message now id msg m p).
Proof.
  unfold accept_message. apply safe_bind; [irrelevant|]. intros _. apply safe_bind; [apply safe_score|]. intros _.
  apply safe_bind; [apply safe_mcache; intros; by apply mc_put_ok|]. intros _. apply safe_get. intros s Hs.
  match goal with |- wp ?x _ _ => enough (Hx : safe x) by (by apply Hx) end.
  apply safe_if_dec; [|apply safe_ret]. apply safe_bind; [apply safe_emit|]. intros _.
  apply safe_if; [apply safe_ret|]. apply safe_bind; [apply safe_forward|]. intros; apply safe_ret.
Qed.

Lemma safe_received m p : safe (handle_received_message now m p).
Proof.
  unfold handle_received_message. apply safe_get. intros s Hs. destruct (inbound_transform _ _) as [msg|]; [|by apply safe_invalid].
  match goal with |- wp ?x _ _ => enough (Hx : safe x) by (by apply Hx) end.
  apply safe_bind; [apply safe_idontwant_broadcast|]. intros _. apply safe_bind; [apply safe_message_is_valid|].
  intros [m'|]; [|apply safe_ret]. apply safe_get. intros s1 H1. destruct (dup_insert _ _ _) as [new cache].
  match goal with |- wp ?x _ _ => enough (Hx : safe x) by (by apply Hx) end.
  apply safe_bind; [irrelevant|]. intros _. apply safe_if; [|apply safe_accept].
  apply safe_bind; [apply safe_score|]. intros _. apply safe_mcache. intros; by apply observe_ok.
Qed.

Lemma safe_ihave p l : safe (handle_ihave now p l).
Proof.
  unfold handle_ihave. apply safe_get. intros s Hs. match goal with |- wp ?x _ _ => enough (Hx : safe x) by (by apply Hx) end.
  apply safe_if; [apply safe_ret|]. apply safe_bind; [irrelevant|]. intros _. apply safe_if_dec; [apply safe_ret|].
  apply safe_if; [apply safe_ret|]. cbn zeta. apply safe_if_dec; [apply safe_ret|]. unfold ask_for. apply safe_get. intros s1 H1.
  match goal with |- wp ?x _ _ => enough (Hx : safe x) by (by apply Hx) end. cbn zeta. apply safe_bind; [apply safe_rng|]. intros ids.
  apply safe_bind; [irrelevant|]. intros _. cbn zeta. apply safe_bind; [irrelevant|]. intros _. apply safe_bind; [apply safe_send|]. intros; apply safe_ret.
Qed.

Lemma safe_iwant p l : safe (handle_iwant now p l).
Proof.
  unfold handle_iwant. apply safe_get. intros s Hs. destruct (below_threshold _ _ _); [by wp_steps|]. apply safe_for_each; [|done]. intros id _.
  unfold answer_iwant. apply safe_get. intros s1 H1. destruct (get_with_iwant_counts (gs_mcache s1) id p) as [r c] eqn:E.
  pose proof (iwant_ok (gs_mcache s1) id p (ok_cache _ H1)) as Hc. rewrite E in Hc. cbn [snd] in Hc.
  apply wp_bind_, wp_modify. match goal with |- wp ?x _ _ => enough (Hx : safe x) by (apply Hx; destruct H1; by split) end.
  destruct r as [[m count]|]; [|apply safe_ret]. apply safe_if_dec; [apply safe_ret|]. apply safe_if; [apply safe_ret|].
  apply safe_bind; [apply safe_send|]. intros; apply safe_ret.
Qed.

(** A change of one peer's details that keeps its connections and topics. *)
Lemma safe_update_peer p f :
  (forall d, pd_connections (f d) = pd_connections d /\ pd_topics (f d) = pd_topics d) -> safe (update_peer p f).
Proof.
  intros Hf. apply safe_modify. intros s [].
  assert (Hl : forall q, (fun c => (core_connections c, core_topics c)) <$> cores (upd_gs_connected_peers (alter f p) s) !! q
      = (fun c => (core_connections c, core_topics c)) <$> cores s !! q).
  { intros q. unfold cores. cbn. rewrite !lookup_fmap. destruct (decide (q = p)) as [->|]; [rewrite lookup_alter_eq|by rewrite lookup_alter_ne].
    destruct (gs_connected_peers s !! p) as [d|]; [|done]. cbn. destruct (Hf d) as [E1 E2]. unfold core_connections, core_topics. cbn. by rewrite E1, E2. }
  assert (Hsub : forall t q, subscribed (cores s) t q -> subscribed (cores (upd_gs_connected_peers (alter f p) s)) t q).
  { intros t q. unfold subscribed. specialize (Hl q). destruct (cores s !! q), (cores (upd_gs_connected_peers (alter f p) s) !! q); try done.
    cbn in Hl. injection Hl as _ ->. done. }
  split; try done.
  - intros q c Hq. specialize (Hl q). rewrite Hq in Hl. destruct (cores s !! q) as [c'|] eqn:E; [|done]. cbn in Hl. injection Hl as -> _. by apply (ok_connected q).
  - intros t ps q Ht Hq. by eapply Hsub, ok_mesh.
  - intros t ps q Ht Hq. by eapply Hsub, ok_fanout.
Qed.

Lemma safe_idontwant p l : safe (handle_idontwant now p l).
Proof. by apply safe_update_peer. Qed.

Lemma safe_control p w a : safe (control_action now p w a).
Proof.
  destruct a as [i|i|g|pr|i|[e|]]; cbn [control_action]; try apply safe_ret.
  - apply safe_bind; [apply safe_iwant|]. intros; apply safe_ret.
  - apply safe_bind; [apply safe_idontwant|]. intros; apply safe_ret.
  - apply safe_bind; [apply safe_extensions|]. intros; apply safe_ret.
Qed.

Lemma safe_rpc p rpc inv : safe (handle_rpc now p rpc inv).
Proof.
  unfold handle_rpc. apply safe_bind; [apply safe_if_dec; [apply safe_ret|apply safe_subscriptions]|]. intros _. apply safe_get. intros s Hs.
  match goal with |- wp ?x _ _ => enough (Hx : safe x) by (by apply Hx) end. apply safe_if; [apply safe_ret|].
  apply safe_bind; [destruct (gs_peer_score s); [apply safe_for_each; intros; apply safe_invalid|apply safe_ret]|]. intros _.
  apply safe_bind; [apply safe_for_each; intros; apply safe_received|]. intros _.
  apply safe_bind; [apply safe_foldM; intros; apply safe_control|]. intros w.
  apply safe_bind; [apply safe_if_dec; [apply safe_ret|apply safe_ihave]|]. intros _.
  apply safe_bind; [apply safe_if_dec; [apply safe_ret|apply safe_graft]|]. intros _.
  apply safe_if_dec; [apply safe_ret|apply safe_prune].
Qed.

Lemma safe_handler_event p e : safe (on_connection_handler_event now p e).
Proof.
  destruct e as [rpc inv|kind|rpc]; cbn [on_connection_handler_event]; [apply safe_rpc|..].
  - apply safe_if_dec; [apply safe_emit|by apply safe_update_peer].
  - apply safe_bind; [apply safe_score|]. intros _. irrelevant.
Qed.
End at_time.
End message_facts.
