(* ===== verification/GsInvariant.v ===== *)
(** The gossipsub router as a whole: the operations of its interface as one step
    relation, and the invariant that every sequence of them keeps. *)

From S2P Require Import Prelude Bytes BTree Common Float64 AppMessage Storage GsTimeCache GsBackoff GsMessageCache GsSubscriptions GsQueue GsConfig GsScore GsProtocol GsRouter GsMesh GsHeartbeat GsMessages GsRouterFacts GsMeshFacts GsHeartbeatFacts GsMessageFacts.
From Stdlib Require Import Strings.Byte.

#[local] Open Scope Z_scope.

Section invariant.
Context {P : PeerIdLib} {K : KeypairLib} {S : SigningLib} {L : ProstLib} {R : RandLib} {RL : RandLaws R} {PS : PeerScoreLib} {I : InstantLib}.
Context {Fl : Type} {TF : TopicSubscriptionFilter Fl} {D : Type} {DT : DataTransform D}.
Context {HP : HashIter PeerId} {HT : HashIter TopicHash} {HM : HashIter (list byte)} {HS : HashIter Subscription} {HB : HashIter (TopicHash * PeerId)}.

Local Abbreviation MsgId := (list byte).
Local Abbreviation Router := (Behaviour Fl D).
Local Abbreviation RM := (M Fl D).
Local Abbreviation safe := (GsMeshFacts.safe (Fl := Fl) (D := D)).

(** * Connections *)
Lemma safe_score_ip f p addr : safe (score_ip f p addr).
Proof. unfold score_ip. destruct (get_ip_addr addr); [apply safe_score|apply safe_ret]. Qed.

(** A peer that is new, or keeps its topics, and has a connection. *)
Lemma router_ok_connect (s : Router) p d :
  router_ok s -> pd_connections d ≠ [] -> (forall d0, gs_connected_peers s !! p = Some d0 -> pd_topics d = pd_topics d0) ->
  router_ok (upd_gs_connected_peers (<[p := d]>) s).
Proof.
  intros [] Hc Ht. assert (Hl : cores (upd_gs_connected_peers (<[p := d]>) s) = <[p := core d]> (cores s)).
  { unfold cores. cbn. by rewrite fmap_insert. }
  assert (Hsub : forall t q, subscribed (cores s) t q -> subscribed (<[p := core d]> (cores s)) t q).
  { intros t q. unfold subscribed. destruct (decide (q = p)) as [->|]; [rewrite lookup_insert_eq|by rewrite lookup_insert_ne].
    unfold cores. rewrite lookup_fmap. destruct (gs_connected_peers s !! p) as [d0|] eqn:E; [|done]. cbn. unfold core_topics. cbn. by rewrite (Ht d0 eq_refl). }
  split; try done; rewrite Hl.
  - intros q c [[<- <-]|[_ Hq]]%lookup_insert_Some; [done|by apply (ok_connected q)].
  - intros t ps q H1 H2. by eapply Hsub, ok_mesh.
  - intros t ps q H1 H2. by eapply Hsub, ok_fanout.
Qed.

Lemma safe_established c p outbound : safe (handle_established_connection c p outbound).
Proof.
  unfold handle_established_connection. apply safe_get. intros s Hs. unfold queue_clone. cbn [fst snd].
  apply wp_bind_, wp_modify. match goal with |- wp ?x _ ?s1 => assert (H1 : router_ok s1); [|enough (Hx : safe x) by (by apply Hx)] end.
  - apply router_ok_connect; [done|cbn; by destruct (pd_connections _)|]. intros d0 ->. done.
  - apply safe_bind; [apply safe_if_dec; [apply safe_bind; [apply safe_send|intros]|]; apply safe_ret|]. intros; apply safe_ret.
Qed.

Lemma safe_connection_established p addr n : safe (on_connection_established p addr n).
Proof.
  unfold on_connection_established. apply safe_bind; [apply safe_score_ip|]. intros _. apply safe_if_dec; [apply safe_ret|].
  apply safe_bind; [apply safe_score|]. intros _. apply safe_get. intros s Hs.
  match goal with |- wp ?x _ _ => enough (Hx : safe x) by (by apply Hx) end. apply safe_if_dec; [apply safe_ret|]. cbn zeta.
  apply safe_if_dec; [apply safe_ret|]. apply safe_bind; [apply safe_send|intros; apply safe_ret].
Qed.

(** The connection that closes is known, and it is not the only one. *)
Definition knows_connection (s : Router) (p : PeerId) (c : Z) : Prop :=
  forall d, gs_connected_peers s !! p = Some d -> exists l, remove_first c (pd_connections d) = Some l /\ l ≠ [].

Lemma one_closed_ok p c (s : Router) : router_ok s -> knows_connection s p c -> wp (one_closed p c) (fun _ s' => router_ok s') s.
Proof.
  intros Hs Hk. unfold one_closed. wp_steps. destruct (gs_connected_peers s !! p) as [d|] eqn:E; [|by wp_steps].
  destruct (Hk d E) as (l & -> & Hl). unfold update_peer. wp_steps.
  match goal with |- wp ?x _ ?s1 => assert (H1 : router_ok s1); [|enough (Hx : safe x) by (by apply Hx)] end.
  - replace (upd_gs_connected_peers (alter (upd_pd_connections (fun _ => l)) p) s)
      with (upd_gs_connected_peers (<[p := upd_pd_connections (fun _ => l) d]>) s).
    + apply router_ok_connect; [done|done|]. intros d0 E0. rewrite E in E0. by injection E0 as <-.
    + unfold upd_gs_connected_peers. f_equal. apply map_eq. intros q. destruct (decide (q = p)) as [->|].
      * by rewrite lookup_insert_eq, lookup_alter_eq, E.
      * by rewrite lookup_insert_ne, lookup_alter_ne.
  - destruct l; [apply safe_ret|]. apply safe_if; [apply safe_emit|apply safe_ret].
Qed.

Lemma forget_loop p l (s : Router) :
  router_ok s ->
  (forall t ps, gs_mesh s !! t = Some ps -> p ∈ ps -> t ∈ l) -> (forall t ps, gs_fanout s !! t = Some ps -> p ∈ ps -> t ∈ l) ->
  wp (for_each (forget_topic p) l) (fun _ s' => router_ok s' /\
    (forall t ps, gs_mesh s' !! t = Some ps -> p ∉ ps) /\ (forall t ps, gs_fanout s' !! t = Some ps -> p ∉ ps)) s.
Proof.
  revert s. induction l as [|t l IH]; intros s Hs Hm Hf; cbn [for_each].
  { apply wp_ret. split_and!; [done|..]; intros t ps H1 H2;
      [by apply (Hm t ps H1), not_elem_of_nil in H2|by apply (Hf t ps H1), not_elem_of_nil in H2]. }
  apply wp_bind_. unfold forget_topic, remove_from_fanout. wp_steps. apply IH.
  - destruct Hs. split; try done; (apply members_ok_alter; [set_solver|done]).
  - cbn. intros t' ps H1 H2. destruct (decide (t' = t)) as [->|].
    + rewrite lookup_alter_eq in H1. destruct (gs_mesh s !! t) as [ps0|]; [|done]. cbn in H1. injection H1 as <-. set_solver.
    + rewrite lookup_alter_ne in H1 by done. apply (Hm t' ps H1) in H2. set_solver.
  - cbn. intros t' ps H1 H2. destruct (decide (t' = t)) as [->|].
    + rewrite lookup_alter_eq in H1. destruct (gs_fanout s !! t) as [ps0|]; [|done]. cbn in H1. injection H1 as <-. set_solver.
    + rewrite lookup_alter_ne in H1 by done. apply (Hf t' ps H1) in H2. set_solver.
Qed.

Lemma safe_last_closed now p : safe (last_closed now p).
Proof.
  intros s Hs. unfold last_closed. wp_steps. destruct (gs_connected_peers s !! p) as [d|] eqn:E; [|by wp_steps]. wp_steps.
  eapply wp_mono; [apply forget_loop; [done|..]|].
  - intros t ps H1 H2. apply elem_of_elements, (subscribed_details s t p d E). by eapply (ok_mesh _ Hs).
  - intros t ps H1 H2. apply elem_of_elements, (subscribed_details s t p d E). by eapply (ok_fanout _ Hs).
  - intros [] s1 (H1 & Hm & Hf). wp_steps. apply (router_ok_quiet _ _ (quiet_score _ _)). destruct H1.
    assert (Hl : forall q, q ≠ p -> forall t, subscribed (cores s1) t q -> subscribed (delete p (cores s1)) t q).
    { intros q Hq t. unfold subscribed. by rewrite lookup_delete_ne. }
    assert (Ec : cores (upd_gs_connected_peers (delete p) (upd_gs_px_peers (fun x => x ∖ {[p]}) s1)) = delete p (cores s1)).
    { unfold cores. cbn. apply fmap_delete. }
    split; try done; rewrite Ec.
    + intros q c [_ Hq]%lookup_delete_Some. by apply (ok_connected q).
    + intros t ps q H1 H2. apply Hl; [|by eapply ok_mesh]. intros ->. by apply (Hm t ps H1).
    + intros t ps q H1 H2. apply Hl; [|by eapply ok_fanout]. intros ->. by apply (Hf t ps H1).
Qed.

(** * The interface *)
Inductive gs_op : Type :=
  | OpSubscribe (topic : TopicHash) | OpUnsubscribe (topic : TopicHash)
  | OpPublish (topic : TopicHash) (data : list byte)
  | OpReport (id : MsgId) (source : PeerId) (acceptance : MessageAcceptance)
  | OpAddExplicit (p : PeerId) | OpRemoveExplicit (p : PeerId) | OpBlacklist (p : PeerId) | OpUnblacklist (p : PeerId)
  | OpHandlerEvent (p : PeerId) (e : HandlerEvent)
  | OpEstablishedInbound (c : Z) (p : PeerId) | OpEstablishedOutbound (c : Z) (p : PeerId)
  | OpConnectionEstablished (p : PeerId) (addr : list Protocol) (other_established : Z)
  | OpConnectionClosed (p : PeerId) (c : Z) (addr : list Protocol) (remaining_established : Z)
  | OpAddressChange (p : PeerId) (old new : list Protocol)
  | OpPeerScore (params : PeerScoreParams) (thresholds : PeerScoreThresholds) (callback : bool)
  | OpTopicParams (topic : TopicHash) (params : TopicScoreParams) | OpApplicationScore (p : PeerId) (x : f64)
  | OpPoll (decay_ready heartbeat_ready : bool).

Definition ignore {A} (m : RM A) : RM unit := m;; mret tt.

Definition run_op (now : Z) (op : gs_op) : RM unit :=
  match op with
  | OpSubscribe topic => ignore (gs_subscribe now topic)
  | OpUnsubscribe topic => ignore (gs_unsubscribe now topic)
  | OpPublish topic data => ignore (gs_publish now topic data)
  | OpReport id source acceptance => ignore (report_message_validation_result now id source acceptance)
  | OpAddExplicit p => add_explicit_peer p
  | OpRemoveExplicit p => remove_explicit_peer p
  | OpBlacklist p => blacklist_peer p
  | OpUnblacklist p => remove_blacklisted_peer p
  | OpHandlerEvent p e => on_connection_handler_event now p e
  | OpEstablishedInbound c p => ignore (handle_established_inbound_connection c p)
  | OpEstablishedOutbound c p => ignore (handle_established_outbound_connection c p)
  | OpConnectionEstablished p addr n => on_connection_established p addr n
  | OpConnectionClosed p c addr n => on_connection_closed now p c addr n
  | OpAddressChange p old new => on_address_change p old new
  | OpPeerScore params thresholds callback => ignore (with_peer_score_and_message_delivery_time_callback params thresholds callback)
  | OpTopicParams topic params => ignore (gs_set_topic_params topic params)
  | OpApplicationScore p x => ignore (gs_set_application_score p x)
  | OpPoll decay_ready heartbeat_ready => ignore (gs_poll now decay_ready heartbeat_ready)
  end.

(** What the swarm keeps to: it closes connections it opened, and tells how many
    are left.  And a node does not publish 2^64 messages. *)
Definition op_ok (s : Router) (op : gs_op) : Prop :=
  match op with
  | OpConnectionClosed p c _ n => n ≠ 0 -> knows_connection s p c
  | OpPublish _ _ => can_sign s
  | _ => True
  end.

Lemma ignore_wp {A} (m : RM A) (s : Router) : wp m (fun _ s' => router_ok s') s -> wp (ignore m) (fun _ s' => router_ok s') s.
Proof. intros H. apply wp_bind_. eapply wp_mono; [exact H|]. intros a s' H'. by apply wp_ret. Qed.

Lemma run_op_ok now op (s : Router) : router_ok s -> op_ok s op -> wp (run_op now op) (fun _ s' => router_ok s') s.
Proof.
  intros Hs Hok. destruct op; cbn [run_op]; try apply ignore_wp.
  - by apply safe_subscribe.
  - by apply safe_unsubscribe.
  - by apply publish_safe.
  - by apply safe_report.
  - revert Hs. apply safe_bind; [by apply safe_modify; intros ? []|]. intros _. unfold check_explicit_peer_connection.
    apply safe_get. intros s1 H1. case_decide; [by apply safe_emit|by wp_steps].
  - by destruct Hs.
  - by destruct Hs.
  - by destruct Hs.
  - by apply safe_handler_event.
  - by apply safe_established.
  - unfold handle_established_outbound_connection. wp_steps. by apply safe_established.
  - by apply safe_connection_established.
  - unfold on_connection_closed, score_ip. wp_steps.
    assert (Hc : forall s1, quiet s s1 -> gs_connected_peers s1 = gs_connected_peers s ->
      wp (if decide (remaining_established ≠ 0) then one_closed p c else last_closed now p) (fun _ s' => router_ok s') s1).
    { intros s1 Hq Hp. pose proof (router_ok_quiet _ _ Hq Hs) as H1. case_decide as Hn; [|by apply safe_last_closed].
      apply one_closed_ok; [done|]. unfold knows_connection. rewrite Hp. by apply Hok. }
    destruct (get_ip_addr addr); wp_steps; apply Hc; try done. apply quiet_score.
  - revert Hs. apply safe_bind; [apply safe_score_ip|]. intros _. apply safe_score_ip.
  - unfold with_peer_score_and_message_delivery_time_callback. destruct (PeerScoreParams_validate _) as [[]|e]; [|by apply wp_ret].
    destruct (PeerScoreThresholds_validate _) as [[]|e]; [|by apply wp_ret]. wp_steps. destruct (gs_peer_score s); wp_steps; [done|by destruct Hs].
  - unfold gs_set_topic_params. wp_steps. destruct (gs_peer_score s); wp_steps; [by apply (router_ok_quiet _ _ (quiet_score _ _))|done].
  - unfold gs_set_application_score. wp_steps. destruct (gs_peer_score s); wp_steps; [by apply (router_ok_quiet _ _ (quiet_score _ _))|done].
  - unfold gs_poll. wp_steps. destruct (gs_events s) as [|e l]; [|wp_steps; by destruct Hs]. revert Hs.
    apply safe_bind; [apply safe_if; [apply safe_score|apply safe_ret]|]. intros _.
    apply safe_bind; [apply safe_if; [apply safe_heartbeat|apply safe_ret]|]. intros; apply safe_ret.
Qed.

(** The states a router can be in when it was made with a sound configuration:
    mesh parameters that are valid for every topic, which [build] checks only for
    the topics with a transmit size of their own, and bounds that [build] and the
    types of the fields give.  [node_config_ok] shows them of the node's own
    configuration. *)
Inductive reachable : Router -> Prop :=
  | reachable_new unix_nanos rng privacy config fl tr s :
      config_ok config -> (cf_history_gossip config <= cf_history_length config)%nat ->
      0 <= cf_backoff_slack config -> cf_heartbeat_interval config * cf_backoff_slack config <= duration_max ->
      Behaviour_new unix_nanos rng privacy config fl tr = Ret (Ok s) -> reachable s
  | reachable_op s now op s' :
      reachable s -> op_ok s op -> run_op now op s = Ret (tt, s') -> reachable s'.

Lemma new_ok unix_nanos rng privacy config fl tr (s : Router) :
  config_ok config -> (cf_history_gossip config <= cf_history_length config)%nat ->
  0 <= cf_backoff_slack config -> cf_heartbeat_interval config * cf_backoff_slack config <= duration_max ->
  Behaviour_new unix_nanos rng privacy config fl tr = Ret (Ok s) -> router_ok s.
Proof.
  intros Hc Hh Hsl Hd. unfold Behaviour_new. destruct (validate_config _ _); [|done]. unfold BackoffStorage_new.
  case_decide as Hi; cbn [run_bind]; [done|]. intros [= <-]. split; try done.
  - unfold cache_ok. cbn. by rewrite length_replicate.
  - split; cbn; [|done]. rewrite length_replicate. unfold heartbeats. pose proof (Z.mod_pos_bound (div_ceil (cf_prune_backoff config) (cf_heartbeat_interval config)) (usize_max + 1)). ulia.
Qed.

(** The configuration the node builds is one of them. *)
Lemma node_config_ok `{Blake3Lib} default_id secs c :
  0 <= secs -> from_secs secs <= duration_max -> node_config default_id secs = Ok c ->
  config_ok c /\ (cf_history_gossip c <= cf_history_length c)%nat /\
  0 <= cf_backoff_slack c /\ cf_heartbeat_interval c * cf_backoff_slack c <= duration_max.
Proof.
  intros Hs Hd. unfold node_config. intros (-> & _ & Hh & _)%build_checks. split_and!; [|done|done|by cbn; lia].
  by split_and!.
Qed.

Lemma reachable_ok (s : Router) : reachable s -> router_ok s.
Proof.
  intros Hr. induction Hr as [|s now op s' _ IH Hok E]; [by eapply new_ok|]. pose proof (run_op_ok now op s IH Hok) as H. unfold wp in H. by rewrite E in H.
Qed.

(** C5: In every state a router can reach that was made with valid mesh
    parameters for every topic ([reachable]), under a swarm that closes only
    connections it opened and before the sequence numbers of published
    messages are exhausted ([op_ok]), the peers of every mesh and of every
    fanout are connected and subscribed to the topic, and every connected peer
    has a connection; and no operation panics, whatever the messages of the
    peers, the instant, the order in which the sets are traversed and the
    random choices are: each returns, in a state of the same kind. *)
Theorem router_never_panics (s : Router) :
  reachable s ->
  (forall topic peers p, gs_mesh s !! topic = Some peers \/ gs_fanout s !! topic = Some peers -> p ∈ peers ->
     exists d, gs_connected_peers s !! p = Some d /\ topic ∈ pd_topics d /\ pd_connections d ≠ []) /\
  forall now op, op_ok s op -> exists s', run_op now op s = Ret (tt, s') /\ router_ok s'.
Proof.
  intros Hs%reachable_ok. split.
  - intros topic peers p Hm Hp. assert (Hsub : subscribed (cores s) topic p) by (destruct Hm; [by eapply (ok_mesh _ Hs)|by eapply (ok_fanout _ Hs)]).
    unfold subscribed, cores in Hsub. rewrite lookup_fmap in Hsub. destruct (gs_connected_peers s !! p) as [d|] eqn:E; [|done].
    exists d. split_and!; [done|done|]. by apply (router_ok_connections s Hs p).
  - intros now op Hok. pose proof (run_op_ok now op s Hs Hok) as H. unfold wp in H. destruct (run_op now op s) as [[[] s']|]; [by exists s'|done].
Qed.
End invariant.
