(* ===== verification/GsFrame.v ===== *)
(** Operations of the gossipsub router that move its state along a preorder:
    what every step of an operation respects, the operation does, whenever it
    returns.  The rules follow the structure of a program, so that a tactic
    applies them. *)

From S2P Require Import Prelude Bytes BTree Common AppMessage Storage GsTimeCache GsBackoff GsMessageCache GsSubscriptions GsQueue GsConfig GsScore GsProtocol GsRouter.

Section frame.
Context {P : PeerIdLib} {K : KeypairLib} {R : RandLib} {PS : PeerScoreLib}.
Context {Fl D : Type}.

Local Abbreviation Router := (Behaviour Fl D).
Local Abbreviation RM := (M Fl D).

(** If [m] returns, its result and final state satisfy [Q]. *)
Definition wlp {A} (m : RM A) (Q : A -> Router -> Prop) (s : Router) : Prop :=
  match m s with Ret (a, s') => Q a s' | Panic => True end.

Lemma wlp_mono {A} (m : RM A) (Q Q' : A -> Router -> Prop) s : wlp m Q s -> (forall a s', Q a s' -> Q' a s') -> wlp m Q' s.
Proof. unfold wlp. destruct (m s) as [[a s']|]; auto. Qed.

Lemma wlp_bind {A B} (m : RM A) (k : A -> RM B) Q s : wlp m (fun a s' => wlp (k a) Q s') s -> wlp (m ≫= k) Q s.
Proof. unfold wlp. cbv [mbind M_bind run_bind]. by destruct (m s) as [[a s']|]. Qed.

Context (T : relation Router) {HT : PreOrder T}.

(** [m], when it returns, moves the state along [T] and returns a value that
    satisfies [Q]. *)
Definition within {A} (m : RM A) (Q : A -> Prop) : Prop := forall s, wlp m (fun a s' => T s s' /\ Q a) s.

Lemma within_bind {A B} (m : RM A) (k : A -> RM B) Q Q' :
  within m Q -> (forall a, Q a -> within (k a) Q') -> within (m ≫= k) Q'.
Proof.
  intros Hm Hk s. apply wlp_bind. eapply wlp_mono; [apply Hm|]. intros a s1 [H1 Ha]. eapply wlp_mono; [by apply Hk|].
  intros b s2 [H2 Hb]. split; [by etrans|done].
Qed.

Lemma within_seq {A B} (m : RM A) (k : A -> RM B) Q :
  within m (fun _ => True) -> (forall a, within (k a) Q) -> within (m ≫= k) Q.
Proof. intros Hm Hk. by eapply within_bind. Qed.

Lemma within_ret {A} (a : A) (Q : A -> Prop) : Q a -> within (mret a) Q.
Proof. intros H s. by split. Qed.
Lemma within_panic {A} (Q : A -> Prop) : within panic Q.
Proof. by intros s. Qed.
Lemma within_get : within get (fun _ => True).
Proof. intros s. by split. Qed.
Lemma within_gets {A} (f : Router -> A) : within (gets f) (fun _ => True).
Proof. intros s. by split. Qed.
Lemma within_modify f : (forall s, T s (f s)) -> within (modify f) (fun _ => True).
Proof. intros H s. split; [apply H|done]. Qed.
Lemma within_with_rng {A} (f : Rng -> A * Rng) : (forall s g, T s (upd_gs_rng (fun _ => g) s)) -> within (with_rng f) (fun _ => True).
Proof. intros H s. unfold wlp, with_rng. destruct (f (gs_rng s)). by split. Qed.
Lemma within_lift {A} (r : run A) : within (lift r) (fun _ => True).
Proof. intros s. unfold wlp, lift. by destruct r. Qed.

Lemma within_for_each {A} (f : A -> RM unit) l :
  (forall x, x ∈ l -> within (f x) (fun _ => True)) -> within (for_each f l) (fun _ => True).
Proof.
  induction l as [|x l IH]; intros H; cbn [for_each]; [by apply within_ret|]. apply within_seq; [apply H; by left|]. intros _.
  apply IH. intros y Hy. apply H. by right.
Qed.

Lemma within_foldM {A B} (f : B -> A -> RM B) b l (Q : B -> Prop) :
  Q b -> (forall b x, x ∈ l -> Q b -> within (f b x) Q) -> within (foldM f b l) Q.
Proof.
  revert b. induction l as [|x l IH]; intros b Hb H; cbn [foldM]; [by apply within_ret|]. eapply within_bind; [apply H; [by left|done]|].
  intros b' Hb'. apply IH; [done|]. intros b'' y Hy. apply H. by right.
Qed.
End frame.

Ltac w_ret := apply within_ret; [exact _|done].
Ltac w_seq := apply within_seq; [exact _| |].
Ltac head_of t := lazymatch t with ?f _ => head_of f | _ => t end.

(** One step through a program; [known] knows lemmas for whole operations, [leaf]
    proves that one update of the state respects the preorder. *)
Ltac within_step known leaf :=
  first [known |
  lazymatch goal with
  | |- within _ (mbind _ _) _ => w_seq; [|intros ?]
  | |- within _ (mret _) _ => w_ret
  | |- within _ panic _ => apply within_panic
  | |- within _ get _ => apply within_get; exact _
  | |- within _ (gets _) _ => apply within_gets; exact _
  | |- within _ (modify _) _ => apply within_modify; intros ?; leaf
  | |- within _ (with_rng _) _ => apply within_with_rng; intros ? ?; leaf
  | |- within _ (lift _) _ => apply within_lift; exact _
  | |- within _ (for_each _ _) _ => apply within_for_each; [exact _|intros ? _]
  | |- within _ (foldM _ _ _) _ => apply within_foldM; [exact _|done|intros ? ? _ _]
  | |- within _ (match ?x with _ => _ end) _ => destruct x
  | |- within _ (let '(_, _) := ?x in _) _ => destruct x
  | |- within _ ?m _ => first [progress cbn beta iota zeta | let h := head_of m in unfold h; cbn beta iota zeta]
  end].
