(* ===== verification/GsDelivery.v ===== *)
(** What the gossipsub router hands to the application: over any sequence of its
    operations, each message at most once within the time the duplicate cache
    remembers it. *)

From S2P Require Import Prelude Bytes BTree Common AppMessage Storage GsTimeCache GsBackoff GsMessageCache GsSubscriptions GsQueue GsConfig GsScore GsProtocol GsRouter GsMesh GsHeartbeat GsMessages GsRouterFacts GsInvariant GsFrame.
From Stdlib Require Import Strings.Byte.

#[local] Open Scope Z_scope.

Section delivery.
Context {P : PeerIdLib} {K : KeypairLib} {S : SigningLib} {L : ProstLib} {R : RandLib} {PS : PeerScoreLib} {I : InstantLib}.
Context {Fl : Type} {TF : TopicSubscriptionFilter Fl} {D : Type} {DT : DataTransform D}.
Context {HP : HashIter PeerId} {HT : HashIter TopicHash} {HM : HashIter (list byte)} {HS : HashIter Subscription} {HB : HashIter (TopicHash * PeerId)}.

Local Abbreviation MsgId := (list byte).
Local Abbreviation Router := (Behaviour Fl D).
Local Abbreviation RM := (M Fl D).

(** The message an event delivers. *)
Definition delivers (e : ToSwarm) : option MsgId :=
  match e with GenerateEvent (EvMessage _ id _) => Some id | _ => None end.

(** The ids that are new when [ids] are entered at [now]. *)
Fixpoint enter (now : Z) (c : DuplicateCache (Key := MsgId)) (ids : list MsgId) : list MsgId * DuplicateCache (Key := MsgId) :=
  match ids with
  | [] => ([], c)
  | id :: ids =>
      let '(new, c) := dup_insert now c id in
      let '(l, c) := enter now c ids in
      ((if new then [id] else []) ++ l, c)
  end.

Lemma enter_app now c l1 l2 :
  enter now c (l1 ++ l2) = ((enter now c l1).1 ++ (enter now (enter now c l1).2 l2).1, (enter now (enter now c l1).2 l2).2).
Proof.
  revert c. induction l1 as [|id l1 IH]; intros c; cbn [enter app fst snd]; [by destruct (enter now c l2)|].
  destruct (dup_insert now c id) as [new c1]. rewrite IH. destruct (enter now c1 l1) as [l c2]; cbn [fst snd].
  destruct (enter now c2 l2) as [l' c3]; cbn [fst snd]. by rewrite app_assoc.
Qed.

(** Within one operation, the ids of the messages that are delivered are new. *)
Definition advances (now : Z) (s s' : Router) : Prop :=
  exists events ids, gs_events s' = gs_events s ++ events /\
    gs_duplicate_cache s' = (enter now (gs_duplicate_cache s) ids).2 /\
    omap delivers events ⊆+ (enter now (gs_duplicate_cache s) ids).1.

Context (now : Z).

#[global] Instance advances_preorder : PreOrder (advances now).
Proof.
  split.
  - intros s. exists [], []. rewrite app_nil_r. done.
  - intros s1 s2 s3 (e1 & l1 & E1 & C1 & H1) (e2 & l2 & E2 & C2 & H2). exists (e1 ++ e2), (l1 ++ l2). rewrite enter_app. cbn [fst snd].
    split_and!; [by rewrite E2, E1, app_assoc|by rewrite <- C1|]. rewrite omap_app, <- C1. by apply submseteq_app.
Qed.

(** [m], when it returns, advances the state and returns a value that satisfies
    [Q]. *)
Local Abbreviation advancing := (within (advances now)).
Local Abbreviation any := (fun _ => True).

Lemma advances_same s s' : gs_events s' = gs_events s -> gs_duplicate_cache s' = gs_duplicate_cache s -> advances now s s'.
Proof. intros He Hd. exists [], []. rewrite app_nil_r. by cbn. Qed.

Lemma adv_emit e : delivers e = None -> advancing (emit e) any.
Proof. intros H. apply within_modify. intros s. exists [e], []. split_and!; [done|done|]. cbn. by rewrite H. Qed.

Ltac known := idtac; lazymatch goal with |- within _ (emit _) _ => apply adv_emit; reflexivity end.
Ltac adv := repeat within_step known ltac:(by apply advances_same).

(** * Operations that deliver nothing *)
Lemma adv_send p rpc : advancing (send_message p rpc) any.
Proof. adv. Qed.
Lemma adv_make_prunes l do_px : advancing (make_prunes now l do_px) any.
Proof. induction l as [|[t p] l IH]; cbn [make_prunes]; [w_ret|]. w_seq; [adv|]. intros ?. w_seq; [done|]. intros ?. w_ret. Qed.
Lemma adv_graft p topics : advancing (handle_graft now p topics) any.
Proof. adv. apply adv_make_prunes. Qed.

Definition delivers_none (w : SubscriptionWork) : Prop := Forall (fun e => delivers (GenerateEvent e) = None) (sw_events w).

Lemma adv_subscriptions subs p : advancing (handle_received_subscriptions now subs p) any.
Proof.
  unfold handle_received_subscriptions. w_seq; [adv|]. intros s. destruct (gs_connected_peers s !! p) as [d|]; [|w_ret].
  destruct (filter_incoming_subscriptions _ _ _) as [l|]; [|w_ret].
  apply (within_bind _ _ _ delivers_none).
  - apply within_foldM; [exact _|..]; [by constructor|]. intros w x _ Hw. unfold one_subscription.
    assert (Hsnoc : forall e, delivers (GenerateEvent e) = None -> Forall (fun e => delivers (GenerateEvent e) = None) (sw_events w ++ [e])).
    { intros e He. apply Forall_app. split; [done|by repeat constructor]. }
    destruct (sb_action x); [unfold subscribe_topic|unfold unsubscribe_topic]; (w_seq; [adv|]); intros _; [|apply within_ret; [exact _|by apply Hsnoc]].
    w_seq; [adv|]. intros s1. cbn zeta. destruct (gs_mesh s1 !! sb_topic x); [|apply within_ret; [exact _|by apply Hsnoc]].
    destruct (_ && _); [|apply within_ret; [exact _|by apply Hsnoc]]. do 2 (w_seq; [adv|intros _]). apply within_ret; [exact _|by apply Hsnoc].
  - intros w Hw. do 3 (w_seq; [adv|intros _]). apply within_for_each; [exact _|]. intros e He. apply adv_emit.
    unfold delivers_none in Hw. rewrite Forall_forall in Hw. by apply Hw.
Qed.

Lemma adv_subscribe topic : advancing (gs_subscribe now topic) any.
Proof. adv. Qed.
Lemma adv_unsubscribe topic : advancing (gs_unsubscribe now topic) any.
Proof. adv. Qed.
Lemma adv_report id p a : advancing (report_message_validation_result now id p a) any.
Proof. adv. Qed.
Lemma adv_prune p l : advancing (handle_prune now p l) any.
Proof. adv. Qed.
Lemma adv_ihave p l : advancing (handle_ihave now p l) any.
Proof. adv. Qed.
Lemma adv_heartbeat : advancing (heartbeat now) any.
Proof. adv. apply adv_make_prunes. Qed.

(** * Publishing and receiving *)
Lemma adv_enter id : advancing (modify (upd_gs_duplicate_cache (fun c => (dup_insert now c id).2))) any.
Proof.
  intros s. split; [|done]. exists [], [id]. rewrite app_nil_r.
  cbn [enter gs_duplicate_cache gs_events upd_gs_duplicate_cache].
  destruct (dup_insert now (gs_duplicate_cache s) id) as [new c]. cbn.
  split_and!; [done|done|]. apply submseteq_nil_l.
Qed.

Lemma adv_publish topic data : advancing (gs_publish now topic data) any.
Proof. adv. apply adv_enter. Qed.

(** [m] delivers the message [id] besides. *)
Definition advances_with (id : MsgId) (s s' : Router) : Prop :=
  exists events ids, gs_events s' = gs_events s ++ events /\
    gs_duplicate_cache s' = (enter now (gs_duplicate_cache s) ids).2 /\
    omap delivers events ⊆+ (id :: (enter now (gs_duplicate_cache s) ids).1).

Definition bringing {A} (id : MsgId) (m : RM A) : Prop := forall s, wlp m (fun _ s' => advances_with id s s') s.

Lemma advances_with_weaken id s s' : advances now s s' -> advances_with id s s'.
Proof. intros (e & l & E & C & H). exists e, l. split_and!; [done|done|]. by apply submseteq_cons. Qed.

Lemma advances_with_before id s1 s2 s3 : advances now s1 s2 -> advances_with id s2 s3 -> advances_with id s1 s3.
Proof.
  intros (e1 & l1 & E1 & C1 & H1) (e2 & l2 & E2 & C2 & H2). exists (e1 ++ e2), (l1 ++ l2). rewrite enter_app. cbn [fst snd].
  split_and!; [by rewrite E2, E1, app_assoc|by rewrite <- C1|]. rewrite omap_app, <- C1, Permutation_middle. by apply submseteq_app.
Qed.

Lemma advances_with_after id s1 s2 s3 : advances_with id s1 s2 -> advances now s2 s3 -> advances_with id s1 s3.
Proof.
  intros (e1 & l1 & E1 & C1 & H1) (e2 & l2 & E2 & C2 & H2). exists (e1 ++ e2), (l1 ++ l2). rewrite enter_app. cbn [fst snd].
  split_and!; [by rewrite E2, E1, app_assoc|by rewrite <- C1|]. rewrite omap_app, <- C1, app_comm_cons. by apply submseteq_app.
Qed.

Lemma bring_weaken {A} id (m : RM A) : advancing m any -> bringing id m.
Proof. intros Hm s. specialize (Hm s). unfold wlp in *. destruct (m s) as [[a s']|]; [|done]. by apply advances_with_weaken, Hm. Qed.

Lemma bring_before {A B} id (m : RM A) (k : A -> RM B) : advancing m any -> (forall a, bringing id (k a)) -> bringing id (m ≫= k).
Proof.
  intros Hm Hk s. specialize (Hm s). unfold wlp in *. cbv [mbind M_bind run_bind]. destruct (m s) as [[a s1]|]; [|done]. destruct Hm as [H1 _].
  specialize (Hk a s1). unfold wlp in Hk. cbn. destruct (k a s1) as [[b s2]|]; [|done]. by eapply advances_with_before.
Qed.

Lemma bring_after {A B} id (m : RM A) (k : A -> RM B) : bringing id m -> (forall a, advancing (k a) any) -> bringing id (m ≫= k).
Proof.
  intros Hm Hk s. specialize (Hm s). unfold wlp in *. cbv [mbind M_bind run_bind]. destruct (m s) as [[a s1]|]; [|done].
  specialize (Hk a s1). unfold wlp in Hk. cbn. destruct (k a s1) as [[b s2]|]; [|done]. destruct Hk as [H2 _]. by eapply advances_with_after.
Qed.

Lemma bring_accept id message m p : bringing id (accept_message now id message m p).
Proof.
  unfold accept_message. do 3 (apply bring_before; [adv|intros _]). apply bring_before; [adv|]. intros s.
  destruct (decide _); [|apply bring_weaken; w_ret]. apply bring_after; [|intros; adv].
  intros s1. exists [GenerateEvent (EvMessage p id message)], []. by split_and!.
Qed.

Lemma adv_receive_new id message m p :
  advancing (s ← get;
    let '(new, cache) := dup_insert now (gs_duplicate_cache s) id in
    modify (upd_gs_duplicate_cache (fun _ => cache));;
    if negb new then
      with_score (ps_duplicated_message now p id (ms_topic message));;
      modify (upd_gs_mcache (fun c => observe_duplicate c id p))
    else accept_message now id message m p) any.
Proof.
  intros s. unfold wlp. cbv [mbind M_bind run_bind get]. cbn [fst snd]. destruct (dup_insert now (gs_duplicate_cache s) id) as [new c] eqn:E.
  set (s1 := upd_gs_duplicate_cache (fun _ => c) s). destruct new; cbn [negb modify].
  - pose proof (bring_accept id message m p s1) as H. unfold wlp in H. cbn [fst snd]. fold s1. destruct (accept_message now id message m p s1) as [[a s2]|]; [|done].
    destruct H as (e & l & He & Hc & Hs). split; [|done]. exists e, (id :: l). cbn [enter]. rewrite E. cbn in He, Hc, Hs. rewrite He, Hc.
    destruct (enter now c l); by split_and!.
  - split; [|done]. exists [], [id]. cbn [enter]. rewrite E, app_nil_r. by split_and!.
Qed.

Lemma adv_receive m p : advancing (handle_received_message now m p) any.
Proof.
  unfold handle_received_message. w_seq; [adv|]. intros s. destruct (inbound_transform _ _) as [message|]; [|adv].
  cbn zeta. w_seq; [adv|]. intros _. w_seq; [adv|]. intros [m'|]; [|adv]. apply adv_receive_new.
Qed.

Ltac adv_all := repeat within_step
  ltac:(first [known | apply adv_subscriptions | apply adv_receive | apply adv_graft | apply adv_prune | apply adv_ihave | apply adv_heartbeat])
  ltac:(by apply advances_same).

Lemma adv_handler_event p e : advancing (on_connection_handler_event now p e) any.
Proof. destruct e; [|adv|adv]. cbn [on_connection_handler_event]. unfold handle_rpc. adv_all. Qed.

(** * Every operation *)

(** The messages an operation hands to the application: what it appended to the
    events. *)
Definition deliveries (s s' : Router) : list MsgId := omap delivers (drop (length (gs_events s)) (gs_events s')).

Definition accounted (s s' : Router) : Prop :=
  exists ids, gs_duplicate_cache s' = (enter now (gs_duplicate_cache s) ids).2 /\
    deliveries s s' ⊆+ (enter now (gs_duplicate_cache s) ids).1.

Lemma advances_accounted s s' : advances now s s' -> accounted s s'.
Proof. intros (e & ids & E & C & H). exists ids. unfold deliveries. by rewrite E, drop_app_length. Qed.

Lemma advancing_accounted (m : RM unit) (s s' : Router) : advancing m any -> m s = Ret (tt, s') -> accounted s s'.
Proof. intros H E. specialize (H s). unfold wlp in H. rewrite E in H. by apply advances_accounted, H. Qed.

Lemma adv_ignore {A} (m : RM A) : advancing m any -> advancing (ignore m) any.
Proof. intros H. w_seq; [done|]. intros; w_ret. Qed.

Lemma poll_accounted decay beat (s s' : Router) : ignore (gs_poll now decay beat) s = Ret (tt, s') -> accounted s s'.
Proof.
  unfold ignore, gs_poll, get. cbv [mbind M_bind run_bind]. cbn [fst snd]. destruct (gs_events s) as [|e l] eqn:E.
  - intros H. apply (advancing_accounted (ignore (m ← (if decay then with_score (ps_refresh_scores now) else mret tt);
      (if beat then heartbeat now else mret tt);; mret (None : option ToSwarm)))); [|exact H].
    apply adv_ignore. adv_all.
  - intros [= <-]. exists []. unfold deliveries. rewrite E. cbn. rewrite drop_ge by (cbn; lia). done.
Qed.

Lemma run_op_accounted op (s s' : Router) : run_op now op s = Ret (tt, s') -> accounted s s'.
Proof.
  destruct op; cbn [run_op]; try apply poll_accounted; apply advancing_accounted; try apply adv_ignore;
    first [apply adv_publish | apply adv_handler_event | solve [adv]].
Qed.
End delivery.

Section once.
Context {P : PeerIdLib} {K : KeypairLib} {S : SigningLib} {L : ProstLib} {R : RandLib} {PS : PeerScoreLib} {I : InstantLib}.
Context {Fl : Type} {TF : TopicSubscriptionFilter Fl} {D : Type} {DT : DataTransform D}.
Context {HP : HashIter PeerId} {HT : HashIter TopicHash} {HM : HashIter (list byte)} {HS : HashIter Subscription} {HB : HashIter (TopicHash * PeerId)}.

Local Abbreviation MsgId := (list byte).
Local Abbreviation Router := (Behaviour Fl D).

(** * Entries of one id are far apart *)
Definition apart (ttl : Z) (x y : MsgId * Z) : Prop := x.1 = y.1 -> ttl <= Z.abs (x.2 - y.2).

Lemma ordpairs_submseteq {A} (T : A -> A -> Prop) l l' :
  (forall x y, T x y -> T y x) -> l ⊆+ l' -> ForallOrdPairs T l' -> ForallOrdPairs T l.
Proof.
  intros Hsym H. induction H as [|x l l' H IH|x y l|x l l' H IH|l1 l2 l3 H1 IH1 H2 IH2]; intros Hl.
  - constructor.
  - inversion_clear Hl as [|? ? Hx Hl']. constructor; [|by apply IH]. apply List.Forall_forall. intros y Hy.
    rewrite List.Forall_forall in Hx. apply Hx. apply list_elem_of_In. eapply elem_of_submseteq; [|done]. by apply list_elem_of_In.
  - inversion_clear Hl as [|? ? Hx Hl']. inversion_clear Hl' as [|? ? Hy Hl]. inversion_clear Hx as [|? ? Hxy Hx'].
    constructor; [|by constructor]. constructor; [by apply Hsym|done].
  - inversion_clear Hl as [|? ? Hx Hl']. by apply IH.
  - by apply IH1, IH2.
Qed.

Lemma ordpairs_lookup {A} (T : A -> A -> Prop) l i j x y :
  ForallOrdPairs T l -> (i < j)%nat -> l !! i = Some x -> l !! j = Some y -> T x y.
Proof.
  intros H. revert i j. induction H as [|a l Ha Hl IH]; intros i j Hij Hi Hj; [done|]. destruct j as [|j]; [lia|]. destruct i as [|i].
  - injection Hi as ->. rewrite List.Forall_forall in Ha. apply Ha, list_elem_of_In. by eapply list_elem_of_lookup_2.
  - apply (IH i j); [lia|done..].
Qed.

Lemma ordpairs_app {A} (T : A -> A -> Prop) l k :
  ForallOrdPairs T l -> ForallOrdPairs T k -> (forall x y, x ∈ l -> y ∈ k -> T x y) -> ForallOrdPairs T (l ++ k).
Proof.
  intros H Hk. induction H as [|a l Ha Hl IH]; intros Hlk; cbn; [done|]. constructor.
  - apply List.Forall_app. split; [done|]. apply List.Forall_forall. intros y Hy. apply Hlk; [by left|by apply list_elem_of_In].
  - apply IH. intros x y Hx. apply Hlk. by right.
Qed.

Lemma ordpairs_all {A} (T : A -> A -> Prop) l : (forall x y, x ∈ l -> y ∈ l -> T x y) -> ForallOrdPairs T l.
Proof.
  induction l as [|a l IH]; intros H; constructor.
  - apply List.Forall_forall. intros y Hy. apply H; [by left|right; by apply list_elem_of_In].
  - apply IH. intros x y Hx Hy. apply H; by right.
Qed.

Lemma apart_sym ttl x y : apart ttl x y -> apart ttl y x.
Proof. unfold apart. intros H E. specialize (H (eq_sym E)). lia. Qed.

(** Entering ids keeps the log of what the cache accepted. *)
Definition tracked (ttl now : Z) (log : list (MsgId * Z)) (c : DuplicateCache (Key := MsgId)) : Prop :=
  exists last, last <= now /\ dup_inv ttl last log c.

Lemma enter_tracked ttl now log c ids :
  0 < ttl -> now + ttl <= instant_max -> tracked ttl now log c -> ForallOrdPairs (apart ttl) log ->
  let log' := log ++ ((fun id => (id, now)) <$> (enter now c ids).1) in
  tracked ttl now log' (enter now c ids).2 /\ ForallOrdPairs (apart ttl) log'.
Proof.
  intros Ht Hm. revert log c. induction ids as [|id ids IH]; intros log c Hc Hl; cbn [enter]; [by rewrite app_nil_r|].
  destruct Hc as (last & Hlast & Hinv). destruct (dup_insert_refines ttl last now log c id Ht Hlast Hm Hinv) as [E Hinv'].
  assert (Hap : ForallOrdPairs (apart ttl) (ref_insert ttl now log id).2).
  { unfold ref_insert. destruct (recently ttl now id log) eqn:Er; [done|]. cbn.
    apply (ordpairs_submseteq _ _ ((id, now) :: log)); [apply apart_sym|by rewrite (Permutation_app_comm log)|].
    constructor; [|done]. apply List.Forall_forall. intros [k t] Hin Ek. cbn in Ek. subst k. cbn.
    destruct (decide (now < t + ttl)) as [Hlt|]; [|lia]. enough (recently ttl now id log = true) by congruence.
    unfold recently. apply existsb_exists. exists (id, t). split; [done|]. cbn. by rewrite !bool_decide_eq_true_2. }
  destruct (dup_insert now c id) as [new c1]. cbn [fst snd] in E, Hinv'.
  destruct (IH _ c1 (ex_intro _ now (conj (Z.le_refl now) Hinv')) Hap) as [H1 H2].
  destruct (enter now c1 ids) as [l c2]. cbn [fst snd] in *. rewrite fmap_app, app_assoc.
  assert (El : log ++ ((fun id => (id, now)) <$> (if new then [id] else [])) = (ref_insert ttl now log id).2).
  { unfold ref_insert in *. destruct (recently ttl now id log); cbn in E; subst new; cbn; [by rewrite app_nil_r|done]. }
  by rewrite El.
Qed.

(** * Runs of the router, with what they hand to the application and when *)
Inductive runs (ttl : Z) : Router -> Z -> list (MsgId * Z) -> Prop :=
  | runs_new unix_nanos rng privacy config fl tr s start :
      cf_duplicate_cache_time config = ttl -> Behaviour_new unix_nanos rng privacy config fl tr = Ret (Ok s) ->
      runs ttl s start []
  | runs_op s last delivered now op s' :
      runs ttl s last delivered -> last <= now -> now + ttl <= instant_max -> run_op now op s = Ret (tt, s') ->
      runs ttl s' now (delivered ++ ((fun id => (id, now)) <$> deliveries s s')).

Definition runs_inv (ttl : Z) (s : Router) (last : Z) (delivered : list (MsgId * Z)) : Prop :=
  exists log, tracked ttl last log (gs_duplicate_cache s) /\ ForallOrdPairs (apart ttl) log /\ delivered ⊆+ log /\
    ForallOrdPairs (fun x y => x.2 <= y.2) delivered /\ Forall (fun x => x.2 <= last) delivered.

Lemma runs_ok ttl s last delivered : 0 < ttl -> runs ttl s last delivered -> runs_inv ttl s last delivered.
Proof.
  intros Ht H. induction H as [unix rng privacy config fl tr s start Hc E|s last ds now op s' H IH Hn Hm E].
  - exists []. split_and!; try constructor. exists start. split; [lia|]. revert E. unfold Behaviour_new.
    destruct (validate_config _ _); [|done]. destruct (BackoffStorage_new _ _ _); cbn [run_bind]; [|done]. intros [= <-]. cbn. rewrite Hc.
    unfold dup_inv. cbn. split_and!; try done; constructor.
  - destruct IH as (log & (last0 & H0 & Hinv) & Hap & Hsub & Hsort & Hall). apply run_op_accounted in E as (ids & Ec & Hd).
    assert (Htr : tracked ttl now log (gs_duplicate_cache s)) by (exists last0; split; [lia|done]).
    destruct (enter_tracked ttl now log _ ids Ht Hm Htr Hap) as [H1 H2].
    exists (log ++ ((fun id => (id, now)) <$> (enter now (gs_duplicate_cache s) ids).1)). rewrite Ec. split_and!; [done|done|..].
    + apply submseteq_app; [done|]. by apply fmap_submseteq.
    + apply ordpairs_app; [done|..].
      * apply ordpairs_all. intros x y (? & -> & _)%list_elem_of_fmap (? & -> & _)%list_elem_of_fmap. cbn. lia.
      * intros x y Hx (? & -> & _)%list_elem_of_fmap. rewrite Forall_forall in Hall. specialize (Hall x Hx). cbn. lia.
    + apply Forall_app. split; [eapply Forall_impl; [exact Hall|]; cbn; lia|].
      apply Forall_forall. intros x (? & -> & _)%list_elem_of_fmap. cbn. lia.
Qed.

(** C3: A message reaches the application at most once while the router
    remembers it.  Over any run of the router (any operations, messages, peers,
    random choices and orders of traversal, at instants that do not go back),
    two deliveries of one message id are at least [duplicate_cache_time] apart. *)
Theorem messages_delivered_once ttl (s : Router) last delivered i j id t t' :
  0 < ttl -> runs ttl s last delivered -> (i < j)%nat ->
  delivered !! i = Some (id, t) -> delivered !! j = Some (id, t') -> t + ttl <= t'.
Proof.
  intros Ht Hr Hij Hi Hj. destruct (runs_ok ttl s last delivered Ht Hr) as (log & _ & Hap & Hsub & Hsort & _).
  pose proof (ordpairs_submseteq _ _ _ (apart_sym ttl) Hsub Hap) as Hd.
  pose proof (ordpairs_lookup _ _ _ _ _ _ Hd Hij Hi Hj eq_refl) as Hab. cbn in Hab.
  pose proof (ordpairs_lookup _ _ _ _ _ _ Hsort Hij Hi Hj) as Hle. cbn in Hle. lia.
Qed.
End once.
