(* ===== verification/GsForward.v ===== *)
(** What the gossipsub router sends on: with validation by the application
    switched on, as the node has it, no message of another peer leaves the node
    before the application accepted it. *)

From S2P Require Import Prelude Bytes BTree Common AppMessage Storage GsTimeCache GsBackoff GsMessageCache GsSubscriptions GsQueue GsConfig GsScore GsProtocol GsRouter GsMesh GsHeartbeat GsMessages GsRouterFacts GsInvariant GsFrame.
From Stdlib Require Import Strings.Byte.

#[local] Open Scope Z_scope.

Section forward.
Context {P : PeerIdLib} {K : KeypairLib} {S : SigningLib} {L : ProstLib} {R : RandLib} {PS : PeerScoreLib} {I : InstantLib}.
Context {Fl : Type} {TF : TopicSubscriptionFilter Fl} {D : Type} {DT : DataTransform D}.
Context {HP : HashIter PeerId} {HT : HashIter TopicHash} {HM : HashIter (list byte)} {HS : HashIter Subscription} {HB : HashIter (TopicHash * PeerId)}.

Local Abbreviation MsgId := (list byte).
Local Abbreviation Router := (Behaviour Fl D).
Local Abbreviation RM := (M Fl D).

(** A message that the node made itself. *)
Definition built_by (me : option PeerId) (m : RawMessage) : Prop :=
  exists number peer c topic data c', get_own_id c = me /\ build_raw_message number peer c topic data = Ret (Ok m, c').

Lemma decode_unvalidated mode sizes rpc r invalid :
  decode_rpc mode sizes rpc = (r, invalid) -> Forall (fun m => rm_validated m = false) (in_messages r).
Proof.
  unfold decode_rpc. destruct (decode_messages _ _ _) as [ms bad] eqn:E. intros [= <- <-]. cbn. revert ms bad E.
  induction (rpc_publish rpc) as [|m l IH]; intros ms bad; cbn; [intros [= <- <-]; constructor|].
  destruct (decode_messages mode sizes l) as [ms' bad']. specialize (IH _ _ eq_refl).
  destruct (decode_message mode sizes m) as [x|] eqn:Em; intros [= <- <-]; [|done]. constructor; [|done]. revert Em.
  unfold decode_message. match goal with |- (if ?b then _ else _) = _ -> _ => destruct b end; [done|]. destruct (map_err (mode_checks _ _) _) as [[[a b] c]|]; cbn; [|done].
  destruct (_ && _); [done|]. destruct (map_err (check_seqno _ _) _); cbn; [|done]. destruct (map_err (check_source _ _) _); cbn; [|done].
  by intros [= <-].
Qed.

(** What the application accepts in an operation. *)
Definition accepts (op : gs_op) : gset MsgId := match op with OpReport id _ Accept => {[id]} | _ => ∅ end.

(** The RPCs of the handlers are what the codec read. *)
Definition from_codec (op : gs_op) : Prop :=
  match op with
  | OpHandlerEvent _ (HandlerMessage rpc invalid) => exists mode sizes wire, decode_rpc mode sizes wire = (rpc, invalid)
  | _ => True
  end.

Section guard.
Context (me : option PeerId) (accepted : gset MsgId).

Definition may_leave (id : MsgId) (m : RawMessage) : Prop := built_by me m \/ id ∈ accepted.
Definition rpc_may_leave (rpc : RpcOut) : Prop := match rpc with RpcPublish id m _ => may_leave id m | _ => True end.
Definition cache_guarded (c : MessageCache) : Prop :=
  forall id m ps, msgs c !! id = Some (m, ps) -> rm_validated m = true -> may_leave id m.
Definition queue_guarded (d : PeerDetails) : Prop := forall rpc, rpc ∈ contents (pd_messages d) -> rpc_may_leave rpc.

Record guarded (s : Router) : Prop := {
  gd_validate : cf_validate_messages (gs_config s) = true;
  gd_me : get_own_id (gs_publish_config s) = me;
  gd_cache : cache_guarded (gs_mcache s);
  gd_queues : map_Forall (fun _ d => queue_guarded d) (gs_connected_peers s);
}.

Definition guards (s s' : Router) : Prop := guarded s -> guarded s'.
#[global] Instance guards_preorder : PreOrder guards.
Proof. split; [intros s H; exact H|]. intros s1 s2 s3 H1 H2 H. by apply H2, H1. Qed.

Local Abbreviation guarding := (within guards).
Local Abbreviation any := (fun _ => True).

(** * The cache *)
Lemma cache_put c id m : cache_guarded c -> (rm_validated m = true -> may_leave id m) -> cache_guarded (mc_put c id m).2.
Proof.
  intros Hc Hm. unfold mc_put. destruct (history c); [done|]. destruct (msgs c !! id) eqn:E; [done|]. intros id' m' ps. cbn.
  rewrite lookup_insert_Some. intros [[<- [= <- <-]]|[_ H]]; [done|by eapply Hc].
Qed.

Lemma cache_observe c id p : cache_guarded c -> cache_guarded (observe_duplicate c id p).
Proof.
  intros Hc. unfold observe_duplicate. destruct (msgs c !! id) as [[m ps]|] eqn:E; [|done]. destruct (rm_validated m) eqn:Ev; [done|].
  intros id' m' ps'. cbn. rewrite lookup_insert_Some. intros [[<- [= <- <-]]|[_ H]]; [congruence|by eapply Hc].
Qed.

Lemma cache_subset c c' : msgs c' ⊆ msgs c -> cache_guarded c -> cache_guarded c'.
Proof. intros Hs Hc id m ps H. apply (Hc id m ps). by eapply lookup_weaken. Qed.

Lemma shift_subset c : msgs (mc_shift c) ⊆ msgs c.
Proof.
  unfold mc_shift. destruct (last (history c)) as [l|]; [|done]. cbn. clear. revert c. induction l as [|e l IH]; intros c; [done|]. cbn.
  etrans; [apply IH|]. cbn. apply delete_subseteq.
Qed.

Lemma iwant_msgs c id p : msgs (get_with_iwant_counts c id p).2 = msgs c.
Proof. unfold get_with_iwant_counts. destruct (msgs c !! id) as [[m ps]|]; [|done]. by destruct (rm_validated m). Qed.

Lemma iwant_guarded c id p m n : cache_guarded c -> (get_with_iwant_counts c id p).1 = Some (m, n) -> may_leave id m.
Proof.
  intros Hc. unfold get_with_iwant_counts. destruct (msgs c !! id) as [[m' ps]|] eqn:E; [|done].
  destruct (rm_validated m') eqn:Ev; cbn; [|done]. intros [= -> _]. by eapply Hc.
Qed.

Lemma cache_guarded_validate c id : id ∈ accepted -> cache_guarded c -> cache_guarded (mc_validate c id).2.
Proof.
  intros Hid Hc. unfold mc_validate. destruct (msgs c !! id) as [[m ps]|]; [|done]. intros id' m' ps'. cbn.
  rewrite lookup_insert_Some. intros [[<- _]|[_ H]]; [by right|by eapply Hc].
Qed.

(** * The queues *)
Lemma contents_push rpc q r w q' : queue_try_push rpc q = (r, w, q') -> contents q' ⊆ rpc :: contents q.
Proof.
  unfold queue_try_push, shared_try_push. destruct (match sub_capacity _ _ with Some c => _ | None => _ end); intros [= <- <- <-].
  - destruct (destination rpc), q; cbn; set_solver.
  - destruct (destination rpc), q; unfold contents; cbn; set_solver.
Qed.

Lemma contents_remove ids q : contents (remove_data_messages ids q).2 ⊆ contents q.
Proof.
  unfold remove_data_messages. case_decide; [done|]. destruct q; unfold contents; cbn. intros x. rewrite !elem_of_app, list_elem_of_filter. tauto.
Qed.

Lemma guards_peer f p : (forall d, contents (pd_messages (f d)) ⊆ contents (pd_messages d)) ->
  forall s : Router, guards s (upd_gs_connected_peers (alter f p) s).
Proof.
  intros Hf s []. split; try done. cbn. intros q d Hd. destruct (decide (q = p)) as [->|].
  - rewrite lookup_alter_eq in Hd. destruct (gs_connected_peers s !! p) as [d0|] eqn:E; [|done]. injection Hd as <-.
    intros rpc Hr. apply (gd_queues0 p d0 E). by apply Hf.
  - rewrite lookup_alter_ne in Hd by done. by eapply gd_queues0.
Qed.

Ltac guard_leaf := first [by intros [] | apply guards_peer; done].

Lemma guard_send p rpc : rpc_may_leave rpc -> guarding (send_message p rpc) any.
Proof.
  intros Hr s. unfold send_message, wlp, gets. cbv [mbind M_bind run_bind]. cbn [fst snd].
  destruct (gs_connected_peers s !! p) as [d|] eqn:E; [|by split]. destruct (_ && _); [by split|].
  destruct (queue_try_push rpc (pd_messages d)) as [[[[]|rpc'] w] q] eqn:Eq; cbn; (split; [|done]).
  - intros []. split; try done. cbn. intros q' d' Hd. destruct (decide (q' = p)) as [->|].
    + rewrite lookup_alter_eq, E in Hd. injection Hd as <-. intros x Hx. apply (contents_push _ _ _ _ _ Eq) in Hx.
      apply elem_of_cons in Hx as [->|Hx]; [done|]. by apply (gd_queues0 p d E).
    + rewrite lookup_alter_ne in Hd by done. by eapply gd_queues0.
  - by intros [].
Qed.

Lemma guard_send_all l : (forall x, x ∈ l -> rpc_may_leave x.2) -> guarding (send_all l) any.
Proof. intros H. apply within_for_each; [exact _|]. intros x Hx. w_seq; [by apply guard_send, H|]. intros _. w_ret. Qed.

Ltac guard_known := idtac;
  lazymatch goal with
  | |- within _ (send_message _ ?rpc) _ => apply guard_send; exact Logic.I
  | |- within _ (send_all (fmap _ _)) _ => apply guard_send_all; intros ? (? & -> & _)%list_elem_of_fmap; exact Logic.I
  end.
Ltac guard_auto := repeat within_step guard_known guard_leaf.

Context (now : Z).

Lemma guard_make_prunes l do_px : guarding (make_prunes now l do_px) any.
Proof. induction l as [|[t p] l IH]; cbn [make_prunes]; [w_ret|]. w_seq; [guard_auto|]. intros ?. w_seq; [done|]. intros ?. w_ret. Qed.
Lemma guard_graft p topics : guarding (handle_graft now p topics) any.
Proof. guard_auto. apply guard_make_prunes. Qed.
Lemma guard_subscriptions subs p : guarding (handle_received_subscriptions now subs p) any.
Proof. guard_auto. Qed.
Lemma guard_subscribe topic : guarding (gs_subscribe now topic) any.
Proof. guard_auto. Qed.
Lemma guard_unsubscribe topic : guarding (gs_unsubscribe now topic) any.
Proof. guard_auto. Qed.
Lemma guard_prune p l : guarding (handle_prune now p l) any.
Proof. guard_auto. Qed.
Lemma guard_ihave p l : guarding (handle_ihave now p l) any.
Proof. guard_auto. Qed.

(** * The heartbeat *)
Definition control_only (l : list (PeerId * RpcOut)) : Prop := forall x, x ∈ l -> rpc_may_leave x.2.

Lemma guard_emit_gossip : guarding emit_gossip any.
Proof.
  unfold emit_gossip. w_seq; [guard_auto|]. intros s. apply (within_bind _ _ _ control_only).
  - apply within_foldM; [exact _|by intros ? ?%not_elem_of_nil|]. intros acc [t ps] _ Hacc. unfold gossip_topic.
    do 2 (w_seq; [guard_auto|]; intros ?). destruct (decide _); [apply within_ret; [exact _|done]|]. cbn zeta. do 2 (w_seq; [guard_auto|]; intros ?).
    apply within_foldM; [exact _|done|]. intros acc' p _ Hacc'. unfold ihave_for. w_seq; [guard_auto|]. intros ids. apply within_ret; [exact _|].
    intros x. rewrite elem_of_app, list_elem_of_singleton. intros [Hx| ->]; [by apply Hacc'|done].
  - intros l Hl. by apply guard_send_all.
Qed.

Lemma guard_graft_prune w : guarding (send_graft_prune now w) any.
Proof.
  unfold send_graft_prune. w_seq; [|intros _; guard_auto]. apply within_for_each; [exact _|]. intros p _. unfold graft_peer.
  do 2 (w_seq; [guard_auto|]; intros ?). w_seq; [apply guard_make_prunes|]. intros prunes. apply guard_send_all.
  intros x. rewrite elem_of_app. by intros [(? & -> & _)%list_elem_of_fmap|(? & -> & _)%list_elem_of_fmap].
Qed.

Lemma guards_cache f : (forall c, cache_guarded c -> cache_guarded (f c)) -> forall s : Router, guards s (upd_gs_mcache f s).
Proof. intros Hf s []. split; try done. by apply Hf. Qed.

Lemma guards_flush (s : Router) : guards s (upd_gs_connected_peers (fmap (upd_pd_dont_send (flush_dont_send now))) s).
Proof. intros []. split; try done. cbn. intros p d. rewrite lookup_fmap, fmap_Some. intros (d0 & Hd & ->). by apply (gd_queues0 p d0). Qed.

Ltac guard_leaf' := first [guard_leaf | apply guards_flush | apply guards_cache; intros ?; first [apply cache_observe | apply cache_subset, shift_subset]].
Ltac guard_known' := first [guard_known | apply guard_emit_gossip | apply guard_graft_prune | apply guard_subscriptions | apply guard_graft
  | apply guard_prune | apply guard_ihave].
Ltac guard_all := repeat within_step guard_known' guard_leaf'.

Lemma guard_heartbeat : guarding (heartbeat now) any.
Proof. guard_all. Qed.

(** * Messages *)
Lemma guard_forward id m p ps : may_leave id m -> guarding (forward_msg now id m p ps) any.
Proof.
  intros Hm. unfold forward_msg. w_seq; [guard_auto|]. intros _. w_seq; [guard_auto|]. intros s. cbn zeta. destruct (decide _); [guard_auto|].
  w_seq; [|intros; guard_auto]. apply within_for_each; [exact _|]. intros q _. unfold forward_to. w_seq; [guard_auto|]. intros s1.
  destruct (gs_connected_peers s1 !! q); [|guard_auto]. destruct (dont_send_contains _ _); [guard_auto|]. w_seq; [by apply guard_send|]. intros; guard_auto.
Qed.

(** Where what is sent depends on the state, the guard is assumed of it. *)
Definition holding {A} (m : RM A) (Q : A -> Prop) : Prop := forall s, guarded s -> wlp m (fun a s' => guarded s' /\ Q a) s.

Lemma hold_within {A} (m : RM A) Q : guarding m Q -> holding m Q.
Proof. intros Hm s Hs. eapply wlp_mono; [apply Hm|]. intros a s' [H Ha]. by split; [apply H|]. Qed.
Lemma within_hold {A} (m : RM A) : holding m any -> guarding m any.
Proof. intros Hm s. unfold wlp. specialize (Hm s). unfold wlp in Hm. destruct (m s) as [[a s']|]; [|done]. split; [|done]. intros Hs. by apply Hm. Qed.
Lemma hold_bind {A B} (m : RM A) (k : A -> RM B) Q Q' : holding m Q -> (forall a, Q a -> holding (k a) Q') -> holding (m ≫= k) Q'.
Proof. intros Hm Hk s Hs. apply wlp_bind. eapply wlp_mono; [by apply Hm|]. intros a s' [H Ha]. by apply Hk. Qed.
Lemma hold_seq {A B} (m : RM A) (k : A -> RM B) Q' : guarding m any -> (forall a, holding (k a) Q') -> holding (m ≫= k) Q'.
Proof. intros Hm Hk. eapply hold_bind; [by apply hold_within|]. intros; apply Hk. Qed.
Lemma hold_get {A} (k : Router -> RM A) Q : (forall s, guarded s -> wlp (k s) (fun a s' => guarded s' /\ Q a) s) -> holding (get ≫= k) Q.
Proof. intros H s Hs. by apply H. Qed.
Lemma hold_update {A} f (k : RM A) Q s : guarded (f s) -> holding k Q -> wlp (modify f;; k) (fun a s' => guarded s' /\ Q a) s.
Proof. intros Hf Hk. by apply Hk. Qed.
Lemma guarded_cache (s : Router) c : guarded s -> cache_guarded c -> guarded (upd_gs_mcache (fun _ => c) s).
Proof. intros [] Hc. by split. Qed.

(** An acceptance that was counted. *)
Lemma guard_report id p a : (a = Accept -> id ∈ accepted) -> guarding (report_message_validation_result now id p a) any.
Proof.
  intros Ha. apply within_hold, hold_get. intros s Hs.
  assert (Hrm : cache_guarded (mc_remove (gs_mcache s) id).2) by (eapply cache_subset; [|apply Hs]; apply delete_subseteq).
  destruct a; [|destruct (mc_remove (gs_mcache s) id) as [[[m ps]|] c]; (apply hold_update; [by apply guarded_cache|]); apply hold_within; guard_auto..].
  pose proof (cache_guarded_validate (gs_mcache s) id (Ha eq_refl) (gd_cache _ Hs)) as Hc.
  destruct (mc_validate (gs_mcache s) id) as [[[m ps]|] c]; [|by split]. apply hold_update; [by apply guarded_cache|].
  apply hold_seq; [apply guard_forward; right; by apply Ha|]. intros _. apply hold_within. w_ret.
Qed.

Lemma guard_iwant p l : guarding (handle_iwant now p l) any.
Proof.
  unfold handle_iwant. w_seq; [guard_auto|]. intros s0. destruct (below_threshold _ _ _); [guard_auto|]. apply within_for_each; [exact _|].
  intros id _. apply within_hold, hold_get. intros s Hs.
  assert (Hc : cache_guarded (get_with_iwant_counts (gs_mcache s) id p).2)
    by (eapply cache_subset; [|apply Hs]; by rewrite iwant_msgs).
  pose proof (iwant_guarded (gs_mcache s) id p) as Hm.
  destruct (get_with_iwant_counts (gs_mcache s) id p) as [r c]. apply hold_update; [by apply guarded_cache|]. apply hold_within.
  destruct r as [[m n]|]; [|guard_auto]. destruct (decide _); [guard_auto|].
  match goal with |- within _ (if ?b then _ else _) _ => destruct b end; [guard_auto|].
  w_seq; [apply guard_send; by eapply Hm; [apply Hs|]|]. intros _. w_ret.
Qed.

(** The messages come from the codec, which marks none as validated. *)
Lemma hold_valid id m p : rm_validated m = false -> holding (message_is_valid now id m p) (fun r => forall m', r = Some m' -> rm_validated m' = false).
Proof.
  intros Hv. apply hold_get. intros s Hs. rewrite (gd_validate _ Hs). cbn zeta.
  repeat (match goal with |- wlp (if ?b then _ else _) _ _ => destruct b end; [refine (hold_within _ _ _ s Hs); repeat (w_seq; [guard_auto|]; intros _); w_ret|]).
  unfold wlp. cbn. split; [done|]. by intros ? [= <-].
Qed.

Lemma guard_receive m p : rm_validated m = false -> guarding (handle_received_message now m p) any.
Proof.
  intros Hv. unfold handle_received_message. w_seq; [guard_auto|]. intros s0. destruct (inbound_transform _ _) as [message|]; [|guard_auto].
  cbn zeta. w_seq; [guard_auto|]. intros _. apply within_hold. eapply hold_bind; [by apply hold_valid|]. intros [m'|] Hm; [|apply hold_within; guard_auto].
  specialize (Hm m' eq_refl). apply hold_seq; [guard_auto|]. intros s1. destruct (dup_insert now (gs_duplicate_cache s1) _) as [new c].
  apply hold_seq; [guard_auto|]. intros _. destruct (negb new); [apply hold_within; guard_all|]. unfold accept_message.
  do 2 (apply hold_seq; [guard_auto|]; intros _). apply hold_seq; [apply within_modify, guards_cache; intros c0 Hc; apply cache_put; [done|congruence]|]. intros _.
  apply hold_get. intros s Hs. refine (hold_within _ _ _ s Hs). rewrite (gd_validate _ Hs). guard_auto.
Qed.

(** * Publishing *)
Lemma build_keeps_author number peer c topic data r c' :
  build_raw_message number peer c topic data = Ret (r, c') -> get_own_id c' = get_own_id c.
Proof. destruct c; cbn; try (by intros [= <- <-]). destruct (seq_next last_seq_no); cbn; [|done]. by intros [= <- <-]. Qed.

Lemma hold_build topic data : holding (build_raw_message_m topic data) (fun r => forall m, r = Ok m -> built_by me m).
Proof.
  apply hold_get. intros s Hs. unfold with_rng, lift. unfold wlp. cbv [mbind M_bind run_bind].
  destruct (random_u64 _) as [number g1]. cbn [fst snd]. destruct (random_peer_id _) as [peer g2]. cbn [fst snd].
  destruct (build_raw_message number peer (gs_publish_config s) topic data) as [[r c]|] eqn:E; [|done]. cbn.
  pose proof (build_keeps_author _ _ _ _ _ _ _ E) as Hc. destruct Hs. split; [by split; cbn; rewrite ?Hc|].
  intros m ->. by exists number, peer, (gs_publish_config s), topic, data, c.
Qed.

Lemma guard_publish topic data : guarding (gs_publish now topic data) any.
Proof.
  unfold gs_publish. w_seq; [guard_auto|]. intros s. destruct (outbound_transform _ _ _); [|guard_auto]. destruct (decide _); [guard_auto|].
  apply within_hold. eapply hold_bind; [apply hold_build|]. intros [m|] Hm; [|apply hold_within; guard_auto]. specialize (Hm m eq_refl). cbn zeta.
  apply hold_within. match goal with |- within _ (if ?b then _ else _) _ => destruct b end; [guard_auto|]. w_seq; [guard_auto|]. intros recipients.
  destruct (decide _); [guard_auto|]. w_seq; [guard_auto|]. intros _.
  w_seq; [apply within_modify, guards_cache; intros c Hc; apply cache_put; [done|by left]|]. intros _. w_seq; [guard_auto|]. intros _.
  w_seq; [|intros; guard_auto]. apply within_foldM; [exact _|done|]. intros sent p _ _. unfold publish_to. w_seq; [guard_auto|]. intros _.
  w_seq; [apply guard_send; by left|]. intros; w_ret.
Qed.

(** * Every operation *)
Lemma guard_rpc p rpc invalid : Forall (fun m => rm_validated m = false) (in_messages rpc) -> guarding (handle_rpc now p rpc invalid) any.
Proof.
  intros Hm. unfold handle_rpc. do 2 (w_seq; [guard_all|]; intros ?). destruct (below_threshold _ _ _); [guard_auto|]. w_seq; [guard_auto|]. intros _.
  w_seq; [|intros _].
  - apply within_for_each; [exact _|]. intros m Hin. rewrite Forall_forall in Hm. by apply guard_receive, Hm.
  - repeat within_step ltac:(first [guard_known' | apply guard_iwant]) ltac:(first [guard_leaf' | apply guards_peer; intros d; apply contents_remove]).
Qed.

Lemma guard_established c p outbound : guarding (handle_established_connection c p outbound) any.
Proof.
  apply within_hold, hold_get. intros s Hs. unfold queue_clone. cbn [fst snd]. apply hold_update.
  - destruct Hs. split; try done. cbn. apply map_Forall_insert_2; [|done]. intros rpc. cbn.
    destruct (gs_connected_peers s !! p) as [d|] eqn:E; cbn; [by apply (gd_queues0 p d E)|by intros ?%not_elem_of_nil].
  - apply hold_within. guard_auto.
Qed.

Lemma guard_last_closed p : guarding (last_closed now p) any.
Proof.
  unfold last_closed. w_seq; [guard_auto|]. intros s. destruct (gs_connected_peers s !! p); [|guard_auto]. do 2 (w_seq; [guard_auto|]; intros _).
  w_seq; [|intros; guard_auto]. apply within_modify. intros s1 []. split; try done. cbn. by apply map_Forall_delete.
Qed.

Lemma guard_op op : from_codec op -> accepts op ⊆ accepted -> guarding (run_op now op) any.
Proof.
  intros Hop HA. destruct op; cbn [run_op]; try (unfold ignore; w_seq; [|intros; w_ret]).
  - apply guard_subscribe.
  - apply guard_unsubscribe.
  - apply guard_publish.
  - apply guard_report. intros ->. cbn in HA. set_solver.
  - guard_auto.
  - guard_auto.
  - guard_auto.
  - guard_auto.
  - destruct e as [rpc invalid| |]; cbn [on_connection_handler_event]; [|guard_auto..]. destruct Hop as (mode & sizes & wire & E).
    by eapply guard_rpc, decode_unvalidated.
  - apply guard_established.
  - unfold handle_established_outbound_connection. w_seq; [guard_auto|]. intros ?. apply guard_established.
  - guard_auto.
  - unfold on_connection_closed. w_seq; [guard_auto|]. intros _. destruct (decide _); [guard_auto|apply guard_last_closed].
  - guard_auto.
  - guard_auto.
  - guard_auto.
  - guard_auto.
  - unfold gs_poll. w_seq; [guard_auto|]. intros s. destruct (gs_events s); [|guard_auto]. w_seq; [guard_auto|]. intros _.
    w_seq; [destruct heartbeat_ready; [apply guard_heartbeat|guard_auto]|]. intros; w_ret.
Qed.
End guard.

Lemma guarded_mono me A B (s : Router) : A ⊆ B -> guarded me A s -> guarded me B s.
Proof.
  intros HAB []. assert (Hl : forall id m, may_leave me A id m -> may_leave me B id m) by (intros id m []; [by left|right; set_solver]).
  split; [done|done|..].
  - intros id m ps H1 H2. by eapply Hl, gd_cache0.
  - intros p d Hd rpc Hr. specialize (gd_queues0 p d Hd rpc Hr). destruct rpc; try done. by apply Hl.
Qed.

(** * Runs of the router: its operations, and handlers that take what is queued *)
Definition taken (p : PeerId) (d : PeerDetails) (id waker : Z) (s : Router) : Router :=
  upd_gs_connected_peers (<[p := upd_pd_messages (fun q => (queue_poll_pop id waker q).2) d]>) s.

Inductive relays (me : option PeerId) : Router -> gset MsgId -> Prop :=
  | relays_new unix_nanos rng privacy config fl tr s :
      cf_validate_messages config = true -> get_own_id (PublishConfig_from unix_nanos privacy) = me ->
      Behaviour_new unix_nanos rng privacy config fl tr = Ret (Ok s) -> relays me s ∅
  | relays_op s accepted now op s' :
      relays me s accepted -> from_codec op -> run_op now op s = Ret (tt, s') -> relays me s' (accepts op ∪ accepted)
  | relays_take s accepted p d id waker :
      relays me s accepted -> gs_connected_peers s !! p = Some d -> relays me (taken p d id waker s) accepted.

Lemma relays_guarded me s accepted : relays me s accepted -> guarded me accepted s.
Proof.
  induction 1 as [unix rng privacy config fl tr s Hv Hme E|s accepted now op s' H IH Hop E|s accepted p d id waker H IH Hd].
  - revert E. unfold Behaviour_new. destruct (validate_config _ _); [|done]. destruct (BackoffStorage_new _ _ _); cbn [run_bind]; [|done].
    intros [= <-]. split; try done.
  - apply (guarded_mono me accepted (accepts op ∪ accepted)) in IH; [|set_solver].
    pose proof (guard_op me (accepts op ∪ accepted) now op Hop ltac:(set_solver) s) as Hg. unfold wlp in Hg. rewrite E in Hg. by apply Hg.
  - destruct IH. split; try done. cbn. apply map_Forall_insert_2; [|done]. intros rpc. cbn. rewrite (proj2 (poll_pop_contents id waker (pd_messages d))).
    intros Hr. apply (gd_queues0 p d Hd). by destruct (contents (pd_messages d)); [|right].
Qed.

(** C4: A router whose application validates the messages passes on no message
    of another peer that was not accepted.  In every run, whatever the peers
    send: a message that is queued for a peer was made by the node itself, or
    the application reported its id as accepted; neither forwarding nor an
    answer to an IWANT lets another one out. *)
Theorem only_accepted_messages_leave me (s : Router) accepted p d id m timeout :
  relays me s accepted -> gs_connected_peers s !! p = Some d -> RpcPublish id m timeout ∈ contents (pd_messages d) ->
  built_by me m \/ id ∈ accepted.
Proof. intros Hr Hd Hm. apply (gd_queues _ _ _ (relays_guarded me s accepted Hr) p d Hd _ Hm). Qed.
End forward.
