(* ===== verification/GsRetry.v ===== *)
(** What the gossipsub router leaves undone: an IWANT that is not answered is
    not repeated, a peer that is grafted into two meshes at once is not announced
    to its handler, and publishing to a fanout forgets its peers. *)

From S2P Require Import Prelude Bytes BTree Common AppMessage Storage GsTimeCache GsBackoff GsMessageCache GsSubscriptions GsQueue GsConfig GsScore GsProtocol GsRouter GsMesh GsHeartbeat GsMessages GsRouterFacts GsInvariant GsFrame.
From Stdlib Require Import Strings.Byte.

#[local] Open Scope Z_scope.

Section retry.
Context {P : PeerIdLib} {K : KeypairLib} {S : SigningLib} {L : ProstLib} {R : RandLib} {PS : PeerScoreLib} {I : InstantLib}.
Context {Fl : Type} {TF : TopicSubscriptionFilter Fl} {D : Type} {DT : DataTransform D}.
Context {HP : HashIter PeerId} {HT : HashIter TopicHash} {HM : HashIter (list byte)} {HS : HashIter Subscription} {HB : HashIter (TopicHash * PeerId)}.

Local Abbreviation MsgId := (list byte).
Local Abbreviation Router := (Behaviour Fl D).
Local Abbreviation RM := (M Fl D).

(** The state after operations at their instants. *)
Inductive after : Router -> list (Z * gs_op) -> Router -> Prop :=
  | after_nil s : after s [] s
  | after_cons s now op s1 ops s2 : run_op now op s = Ret (tt, s1) -> after s1 ops s2 -> after s ((now, op) :: ops) s2.

(** No message arrives, none is published, and scoring stays off. *)
Definition no_message (op : gs_op) : Prop :=
  match op with
  | OpPublish _ _ | OpPeerScore _ _ _ => False
  | OpHandlerEvent _ (HandlerMessage rpc _) => in_messages rpc = []
  | _ => True
  end.

Definition promised (s : Router) (id : MsgId) : Prop := gs_peer_score s = None /\ promises_contains (gs_gossip_promises s) id = true.
Definition keeps_promises (s s' : Router) : Prop := forall id, promised s id -> promised s' id.
#[global] Instance keeps_promises_preorder : PreOrder keeps_promises.
Proof. split; [by intros s id|]. intros s1 s2 s3 H1 H2 id H. by apply H2, H1. Qed.

Local Abbreviation keeping := (within keeps_promises).
Local Abbreviation any := (fun _ => True).

Lemma keeps_same s s' : gs_peer_score s' = gs_peer_score s -> gs_gossip_promises s' = gs_gossip_promises s -> keeps_promises s s'.
Proof. intros H1 H2 id. unfold promised. by rewrite H1, H2. Qed.

Lemma keep_score f : keeping (with_score f) any.
Proof. apply within_modify. intros s id [H1 H2]. split; [|done]. cbn. by rewrite H1. Qed.

Lemma add_promise_keeps (g : gmap MsgId (gmap PeerId Z)) p ids t id :
  promises_contains g id = true -> promises_contains (add_promise g p ids t) id = true.
Proof.
  unfold promises_contains, add_promise. rewrite !bool_decide_eq_true. revert g. induction ids as [|x ids IH]; intros g Hg; [done|]. cbn [foldl].
  apply IH. unfold add_promise_for, GossipPromises. destruct (decide (x = id)) as [->|]; [rewrite lookup_insert_eq; by eexists|by rewrite lookup_insert_ne].
Qed.

Section ops.
Context (now : Z).

Lemma keep_penalties : keeping (apply_iwant_penalties now) any.
Proof.
  intros s. unfold apply_iwant_penalties. apply wlp_bind. unfold wlp at 1. cbn [get]. destruct (gs_peer_score s) as [ps|] eqn:E; [|by split].
  match goal with |- wlp ?m _ s => unfold wlp; destruct (m s) as [[a s']|]; [|done] end. split; [|done]. intros id [H _]. congruence.
Qed.

Ltac keep_leaf := first [by apply keeps_same | intros ? [? ?]; split; [done|]; cbn; by apply add_promise_keeps].
Ltac keep_known := first [apply keep_score | apply keep_penalties].
Ltac keep := repeat within_step keep_known keep_leaf.

Lemma keep_make_prunes l do_px : keeping (make_prunes now l do_px) any.
Proof. induction l as [|[t p] l IH]; cbn [make_prunes]; [w_ret|]. w_seq; [keep|]. intros ?. w_seq; [done|]. intros ?. w_ret. Qed.
Lemma keep_ihave p l : keeping (handle_ihave now p l) any.
Proof. keep. Qed.

Ltac keep_all := repeat within_step ltac:(first [keep_known | apply keep_make_prunes | apply keep_ihave]) keep_leaf.

Lemma keep_graft p topics : keeping (handle_graft now p topics) any.
Proof. keep_all. Qed.
Lemma keep_heartbeat : keeping (heartbeat now) any.
Proof. keep_all. Qed.

Lemma keep_rpc p rpc invalid : in_messages rpc = [] -> keeping (handle_rpc now p rpc invalid) any.
Proof.
  intros Hm. unfold handle_rpc. rewrite Hm. cbn [for_each].
  repeat within_step ltac:(first [keep_known | apply keep_graft | apply keep_ihave]) keep_leaf.
Qed.

Lemma keep_op op : no_message op -> keeping (run_op now op) any.
Proof.
  intros Hop. destruct op; cbn [run_op]; try done; try (unfold ignore; w_seq; [|intros; w_ret]).
  8: { destruct e; cbn [on_connection_handler_event]; [by apply keep_rpc|keep_all..]. }
  all: repeat within_step ltac:(first [keep_known | apply keep_heartbeat | apply keep_make_prunes]) keep_leaf.
Qed.
End ops.

Context (now : Z).

(** A message that was asked for and did not come is never asked for again
    by a router that does not score its peers, as the node's: whatever happens
    short of a message arriving or being published (heartbeats after the
    deadline and the disconnection of the asked peer included), an IHAVE for
    that message from any peer makes the router send nothing. *)
Theorem unanswered_iwant_never_retried (s s' : Router) id ops p topic :
  gs_peer_score s = None -> is_Some (gs_gossip_promises s !! id) -> Forall (fun x => no_message x.2) ops -> after s ops s' ->
  exists s'', handle_ihave now p [{| ih_topic_hash := topic; ih_message_ids := [id] |}] s' = Ret (tt, s'') /\
    gs_connected_peers s'' = gs_connected_peers s' /\ gs_gossip_promises s'' = gs_gossip_promises s'.
Proof.
  intros Hn Hp Hops Ha. assert (H : promised s' id); [|clear Hops Ha].
  { assert (H0 : promised s id) by (split; [done|by apply bool_decide_eq_true]). clear Hn Hp. induction Ha as [|s t op s1 ops s2 E Ha IH]; [done|].
    apply Forall_cons in Hops as [Ho Hops]. apply IH; [done|]. pose proof (keep_op t op Ho s) as Hk. unfold wlp in Hk. rewrite E in Hk. by apply Hk. }
  destruct H as [Hs Hc]. unfold handle_ihave, get, below_threshold. cbv [mbind M_bind run_bind]. cbn [fst snd]. rewrite Hs. cbn [modify].
  assert (Hw : foldl (wanted s') ∅ [{| ih_topic_hash := topic; ih_message_ids := [id] |}] = ∅).
  { cbn [foldl]. unfold wanted. destruct (decide _); [|done]. cbn [ih_message_ids]. rewrite filter_cons_False by (intros [_ ?]; congruence). set_solver. }
  rewrite Hw. repeat (match goal with |- context [if ?b then mret tt else _] => destruct b end; [by eexists|]). done.
Qed.

(** * Grafts of one heartbeat *)

(** A peer that one heartbeat grafts into two meshes is never announced to its
    connection handler: by the time the first graft is announced the peer is
    already in the other mesh, and the other way round. *)
Lemma two_grafts_not_announced (s : Router) w p d t1 t2 peers1 peers2 :
  gs_connected_peers s !! p = Some d -> pd_connections d ≠ [] -> t1 ≠ t2 -> t1 ∈ pd_topics d -> t2 ∈ pd_topics d ->
  gs_mesh s !! t1 = Some peers1 -> p ∈ peers1 -> gs_mesh s !! t2 = Some peers2 -> p ∈ peers2 ->
  to_graft w !! p = Some [t1; t2] -> to_prune w !! p = None ->
  wp (graft_peer now w p) (fun _ s' => gs_events s' = gs_events s) s.
Proof.
  intros Hd Hc Ht H1 H2 Hm1 Hp1 Hm2 Hp2 Hg Hn.
  assert (Hin : forall t t' peers, t ≠ t' -> t' ∈ pd_topics d -> gs_mesh s !! t' = Some peers -> p ∈ peers ->
    in_mesh_of (gs_mesh s) p (fun topic => bool_decide (topic ∉ [t])) (elements (pd_topics d)) = true).
  { intros t t' peers Hne Ht' Hm Hp. apply existsb_exists. exists t'. rewrite Hm, !bool_decide_eq_true_2; [|done|set_solver].
    split; [|done]. by apply list_elem_of_In, elem_of_elements. }
  unfold graft_peer, peer_added_to_mesh, notify_first. wp_steps. rewrite Hg, Hn. cbn [default from_option id for_each fmap list_fmap make_prunes].
  wp_steps. cbn [gs_connected_peers upd_gs_peer_score gs_mesh]. rewrite Hd. destruct (pd_connections d) as [|c l] eqn:Ec; [done|].
  rewrite (Hin t1 t2 peers2) by done. wp_steps. cbn [gs_connected_peers upd_gs_peer_score gs_mesh]. rewrite Hd, Ec.
  rewrite (Hin t2 t1 peers1) by (done || congruence). wp_steps.
  eapply wp_mono; [apply send_all_quiet|]. by intros _ s' [_ ->].
Qed.

(** * Publishing to a topic without a mesh *)

(** A fanout that is smaller than the mesh would be is replaced by the peers that
    complete it: publishing forgets the peers the fanout had. *)
Lemma fanout_forgets_its_peers `{!RandLaws R} (s : Router) topic candidates fanout_peers :
  cf_flood_publish (gs_config s) = false -> gs_mesh s !! topic = None -> gs_fanout s !! topic = Some fanout_peers ->
  fanout_peers ⊆ candidates -> Z.of_nat (size fanout_peers) < mesh_n_for_topic (gs_config s) topic ->
  wp (filter_publish_candidates now topic candidates) (fun r s' => fanout_peers ⊆ r /\
    exists peers, gs_fanout s' !! topic = Some peers /\ peers ## fanout_peers) s.
Proof.
  intros Hf Hm Hfp Hsub Hsz. unfold filter_publish_candidates. wp_steps. rewrite Hf, Hm, Hfp. cbn [default from_option id].
  replace (candidates ∩ fanout_peers) with fanout_peers by set_solver. unfold sat_sub. rewrite decide_True by lia. wp_steps.
  destruct (sample _ _ _) as [l g] eqn:E. cbn [fst snd]. split; [set_solver|]. eexists. split; [apply lookup_insert_eq|].
  intros x Hx Hfx. apply elem_of_list_to_set in Hx.
  match type of E with sample ?g ?n ?k = _ => destruct (sample_perm g n k) as [rest Hp]; rewrite E in Hp; cbn [fst] in Hp end.
  assert (Hin : x ∈ hash_iter (candidates ∖ (filter (λ p, always_included s p = true) candidates ∪ fanout_peers))) by (rewrite <- Hp; set_solver).
  rewrite hash_iter_elements in Hin. set_solver.
Qed.
End retry.
