(* ===== verification/GsHandler.v ===== *)
(** The connection handler of the gossipsub
    (external/libp2p-gossipsub/src/handler.rs): one long-lived substream in each
    direction, fed from the queue of the peer. *)

From S2P Require Import Prelude Bytes BTree Common AppMessage Storage GsTimeCache GsBackoff GsMessageCache GsSubscriptions GsQueue GsConfig GsProtocol GsRouter GsMesh GsHeartbeat GsMessages.
From Stdlib Require Import Strings.Byte.

#[local] Open Scope Z_scope.

(** [Framed<Stream, GossipsubCodec>]: the answers of a substream and what it is
    afterwards; [None] is [Poll::Pending]. *)
Class FramedLib {P : PeerIdLib} := {
  Framed : Type;
  fr_poll_ready : Framed -> option (result unit string) * Framed;
  fr_start_send : ProtoRpc -> Framed -> result unit string * Framed;
  fr_poll_flush : Framed -> option (result unit string) * Framed;
  fr_poll_next : Framed -> option (option (result HandlerEvent string)) * Framed;
  fr_poll_close : Framed -> option (result unit string) * Framed;
}.

Section handler.
Context {P : PeerIdLib} {FR : FramedLib}.

Definition MAX_SUBSTREAM_ATTEMPTS : Z := 5.

Inductive InboundSubstreamState : Type :=
  | WaitingInput (substream : Framed)
  | Closing (substream : Framed)
  | InboundPoisoned.

Inductive OutboundSubstreamState : Type :=
  | WaitingOutput (substream : Framed)
  | PendingSend (substream : Framed) (message : ProtoRpc)
  | PendingFlush (substream : Framed)
  | OutboundPoisoned.

(** The queue is shared with the behaviour; the handler has the number of its
    reference. *)
Record EnabledHandler := {
  eh_peer_id : PeerId;
  eh_listen_protocol : ProtocolConfig;
  eh_outbound_substream : option OutboundSubstreamState;
  eh_inbound_substream : option InboundSubstreamState;
  eh_message_queue : Z;
  eh_outbound_substream_establishing : bool;
  eh_outbound_substream_attempts : Z;
  eh_inbound_substream_attempts : Z;
  eh_peer_kind : option PeerKind;
  eh_peer_kind_sent : bool;
  eh_last_io_activity : Z;
  eh_in_mesh : bool;
}.

Definition upd_eh_peer_id (g : PeerId -> PeerId) (s : EnabledHandler) : EnabledHandler := {|
  eh_peer_id := g (eh_peer_id s); eh_listen_protocol := eh_listen_protocol s;
  eh_outbound_substream := eh_outbound_substream s; eh_inbound_substream := eh_inbound_substream s;
  eh_message_queue := eh_message_queue s;
  eh_outbound_substream_establishing := eh_outbound_substream_establishing s;
  eh_outbound_substream_attempts := eh_outbound_substream_attempts s;
  eh_inbound_substream_attempts := eh_inbound_substream_attempts s; eh_peer_kind := eh_peer_kind s;
  eh_peer_kind_sent := eh_peer_kind_sent s; eh_last_io_activity := eh_last_io_activity s;
  eh_in_mesh := eh_in_mesh s |}.
Definition upd_eh_listen_protocol (g : ProtocolConfig -> ProtocolConfig) (s : EnabledHandler) : EnabledHandler := {|
  eh_peer_id := eh_peer_id s; eh_listen_protocol := g (eh_listen_protocol s);
  eh_outbound_substream := eh_outbound_substream s; eh_inbound_substream := eh_inbound_substream s;
  eh_message_queue := eh_message_queue s;
  eh_outbound_substream_establishing := eh_outbound_substream_establishing s;
  eh_outbound_substream_attempts := eh_outbound_substream_attempts s;
  eh_inbound_substream_attempts := eh_inbound_substream_attempts s; eh_peer_kind := eh_peer_kind s;
  eh_peer_kind_sent := eh_peer_kind_sent s; eh_last_io_activity := eh_last_io_activity s;
  eh_in_mesh := eh_in_mesh s |}.
Definition upd_eh_outbound_substream (g : option OutboundSubstreamState -> option OutboundSubstreamState) (s : EnabledHandler) : EnabledHandler := {|
  eh_peer_id := eh_peer_id s; eh_listen_protocol := eh_listen_protocol s;
  eh_outbound_substream := g (eh_outbound_substream s); eh_inbound_substream := eh_inbound_substream s;
  eh_message_queue := eh_message_queue s;
  eh_outbound_substream_establishing := eh_outbound_substream_establishing s;
  eh_outbound_substream_attempts := eh_outbound_substream_attempts s;
  eh_inbound_substream_attempts := eh_inbound_substream_attempts s; eh_peer_kind := eh_peer_kind s;
  eh_peer_kind_sent := eh_peer_kind_sent s; eh_last_io_activity := eh_last_io_activity s;
  eh_in_mesh := eh_in_mesh s |}.
Definition upd_eh_inbound_substream (g : option InboundSubstreamState -> option InboundSubstreamState) (s : EnabledHandler) : EnabledHandler := {|
  eh_peer_id := eh_peer_id s; eh_listen_protocol := eh_listen_protocol s;
  eh_outbound_substream := eh_outbound_substream s; eh_inbound_substream := g (eh_inbound_substream s);
  eh_message_queue := eh_message_queue s;
  eh_outbound_substream_establishing := eh_outbound_substream_establishing s;
  eh_outbound_substream_attempts := eh_outbound_substream_attempts s;
  eh_inbound_substream_attempts := eh_inbound_substream_attempts s; eh_peer_kind := eh_peer_kind s;
  eh_peer_kind_sent := eh_peer_kind_sent s; eh_last_io_activity := eh_last_io_activity s;
  eh_in_mesh := eh_in_mesh s |}.
Definition upd_eh_message_queue (g : Z -> Z) (s : EnabledHandler) : EnabledHandler := {|
  eh_peer_id := eh_peer_id s; eh_listen_protocol := eh_listen_protocol s;
  eh_outbound_substream := eh_outbound_substream s; eh_inbound_substream := eh_inbound_substream s;
  eh_message_queue := g (eh_message_queue s);
  eh_outbound_substream_establishing := eh_outbound_substream_establishing s;
  eh_outbound_substream_attempts := eh_outbound_substream_attempts s;
  eh_inbound_substream_attempts := eh_inbound_substream_attempts s; eh_peer_kind := eh_peer_kind s;
  eh_peer_kind_sent := eh_peer_kind_sent s; eh_last_io_activity := eh_last_io_activity s;
  eh_in_mesh := eh_in_mesh s |}.
Definition upd_eh_outbound_substream_establishing (g : bool -> bool) (s : EnabledHandler) : EnabledHandler := {|
  eh_peer_id := eh_peer_id s; eh_listen_protocol := eh_listen_protocol s;
  eh_outbound_substream := eh_outbound_substream s; eh_inbound_substream := eh_inbound_substream s;
  eh_message_queue := eh_message_queue s;
  eh_outbound_substream_establishing := g (eh_outbound_substream_establishing s);
  eh_outbound_substream_attempts := eh_outbound_substream_attempts s;
  eh_inbound_substream_attempts := eh_inbound_substream_attempts s; eh_peer_kind := eh_peer_kind s;
  eh_peer_kind_sent := eh_peer_kind_sent s; eh_last_io_activity := eh_last_io_activity s;
  eh_in_mesh := eh_in_mesh s |}.
Definition upd_eh_outbound_substream_attempts (g : Z -> Z) (s : EnabledHandler) : EnabledHandler := {|
  eh_peer_id := eh_peer_id s; eh_listen_protocol := eh_listen_protocol s;
  eh_outbound_substream := eh_outbound_substream s; eh_inbound_substream := eh_inbound_substream s;
  eh_message_queue := eh_message_queue s;
  eh_outbound_substream_establishing := eh_outbound_substream_establishing s;
  eh_outbound_substream_attempts := g (eh_outbound_substream_attempts s);
  eh_inbound_substream_attempts := eh_inbound_substream_attempts s; eh_peer_kind := eh_peer_kind s;
  eh_peer_kind_sent := eh_peer_kind_sent s; eh_last_io_activity := eh_last_io_activity s;
  eh_in_mesh := eh_in_mesh s |}.
Definition upd_eh_inbound_substream_attempts (g : Z -> Z) (s : EnabledHandler) : EnabledHandler := {|
  eh_peer_id := eh_peer_id s; eh_listen_protocol := eh_listen_protocol s;
  eh_outbound_substream := eh_outbound_substream s; eh_inbound_substream := eh_inbound_substream s;
  eh_message_queue := eh_message_queue s;
  eh_outbound_substream_establishing := eh_outbound_substream_establishing s;
  eh_outbound_substream_attempts := eh_outbound_substream_attempts s;
  eh_inbound_substream_attempts := g (eh_inbound_substream_attempts s); eh_peer_kind := eh_peer_kind s;
  eh_peer_kind_sent := eh_peer_kind_sent s; eh_last_io_activity := eh_last_io_activity s;
  eh_in_mesh := eh_in_mesh s |}.
Definition upd_eh_peer_kind (g : option PeerKind -> option PeerKind) (s : EnabledHandler) : EnabledHandler := {|
  eh_peer_id := eh_peer_id s; eh_listen_protocol := eh_listen_protocol s;
  eh_outbound_substream := eh_outbound_substream s; eh_inbound_substream := eh_inbound_substream s;
  eh_message_queue := eh_message_queue s;
  eh_outbound_substream_establishing := eh_outbound_substream_establishing s;
  eh_outbound_substream_attempts := eh_outbound_substream_attempts s;
  eh_inbound_substream_attempts := eh_inbound_substream_attempts s; eh_peer_kind := g (eh_peer_kind s);
  eh_peer_kind_sent := eh_peer_kind_sent s; eh_last_io_activity := eh_last_io_activity s;
  eh_in_mesh := eh_in_mesh s |}.
Definition upd_eh_peer_kind_sent (g : bool -> bool) (s : EnabledHandler) : EnabledHandler := {|
  eh_peer_id := eh_peer_id s; eh_listen_protocol := eh_listen_protocol s;
  eh_outbound_substream := eh_outbound_substream s; eh_inbound_substream := eh_inbound_substream s;
  eh_message_queue := eh_message_queue s;
  eh_outbound_substream_establishing := eh_outbound_substream_establishing s;
  eh_outbound_substream_attempts := eh_outbound_substream_attempts s;
  eh_inbound_substream_attempts := eh_inbound_substream_attempts s; eh_peer_kind := eh_peer_kind s;
  eh_peer_kind_sent := g (eh_peer_kind_sent s); eh_last_io_activity := eh_last_io_activity s;
  eh_in_mesh := eh_in_mesh s |}.
Definition upd_eh_last_io_activity (g : Z -> Z) (s : EnabledHandler) : EnabledHandler := {|
  eh_peer_id := eh_peer_id s; eh_listen_protocol := eh_listen_protocol s;
  eh_outbound_substream := eh_outbound_substream s; eh_inbound_substream := eh_inbound_substream s;
  eh_message_queue := eh_message_queue s;
  eh_outbound_substream_establishing := eh_outbound_substream_establishing s;
  eh_outbound_substream_attempts := eh_outbound_substream_attempts s;
  eh_inbound_substream_attempts := eh_inbound_substream_attempts s; eh_peer_kind := eh_peer_kind s;
  eh_peer_kind_sent := eh_peer_kind_sent s; eh_last_io_activity := g (eh_last_io_activity s);
  eh_in_mesh := eh_in_mesh s |}.
Definition upd_eh_in_mesh (g : bool -> bool) (s : EnabledHandler) : EnabledHandler := {|
  eh_peer_id := eh_peer_id s; eh_listen_protocol := eh_listen_protocol s;
  eh_outbound_substream := eh_outbound_substream s; eh_inbound_substream := eh_inbound_substream s;
  eh_message_queue := eh_message_queue s;
  eh_outbound_substream_establishing := eh_outbound_substream_establishing s;
  eh_outbound_substream_attempts := eh_outbound_substream_attempts s;
  eh_inbound_substream_attempts := eh_inbound_substream_attempts s; eh_peer_kind := eh_peer_kind s;
  eh_peer_kind_sent := eh_peer_kind_sent s; eh_last_io_activity := eh_last_io_activity s;
  eh_in_mesh := g (eh_in_mesh s) |}.

Inductive DisabledHandler : Type :=
  | ProtocolUnsupported (peer_kind_sent : bool)
  | MaxSubstreamAttempts.

Inductive Handler : Type :=
  | HandlerEnabled (h : EnabledHandler)
  | HandlerDisabled (d : DisabledHandler).

Definition Handler_new (now : Z) (peer_id : PeerId) (protocol_config : ProtocolConfig) (message_queue : Z) : Handler :=
  HandlerEnabled {|
    eh_peer_id := peer_id; eh_listen_protocol := protocol_config; eh_inbound_substream := None; eh_outbound_substream := None;
    eh_outbound_substream_establishing := false; eh_outbound_substream_attempts := 0; eh_inbound_substream_attempts := 0;
    eh_message_queue := message_queue; eh_peer_kind := None; eh_peer_kind_sent := false; eh_last_io_activity := now; eh_in_mesh := false |}.

Definition set_outbound (o : option OutboundSubstreamState) : EnabledHandler -> EnabledHandler := upd_eh_outbound_substream (fun _ => o).
Definition set_inbound (i : option InboundSubstreamState) : EnabledHandler -> EnabledHandler := upd_eh_inbound_substream (fun _ => i).

Definition learn_kind (kind : PeerKind) (h : EnabledHandler) : EnabledHandler :=
  upd_eh_peer_kind (fun k => match k with None => Some kind | _ => k end) h.

Definition on_fully_negotiated_inbound (substream : Framed) (kind : PeerKind) (h : EnabledHandler) : EnabledHandler :=
  set_inbound (Some (WaitingInput substream)) (learn_kind kind h).

(** The assertion panics. *)
Definition on_fully_negotiated_outbound (substream : Framed) (kind : PeerKind) (h : EnabledHandler) : run EnabledHandler :=
  let h := learn_kind kind h in
  if decide (is_Some (eh_outbound_substream h)) then Panic else Ret (set_outbound (Some (WaitingOutput substream)) h).

(** What a poll gives: an event for the behaviour, a request for a substream, or
    nothing yet. *)
Inductive HandlerPoll : Type :=
  | NotifyBehaviour (e : HandlerEvent)
  | OutboundSubstreamRequest (protocol : ProtocolConfig)
  | HandlerPending.

Definition expired (now : Z) (message : RpcOut) : bool := match message with RpcPublish _ _ timeout => bool_decide (timeout <= now) | _ => false end.

Section polling.
Context (now : Z) (waker : Z).

(** One turn of the loop over the outbound substream: go on, leave the loop, or
    end the poll. *)
Inductive Turn : Type := Continue | Break | Return (e : HandlerPoll).

Definition outbound_turn (h : EnabledHandler) (q : QueueStore) : run (Turn * EnabledHandler * QueueStore) :=
  match eh_outbound_substream h with
  | Some (WaitingOutput substream) =>
      match queue_poll_pop (eh_message_queue h) waker q with
      | (Some message, q) =>
          if expired now message then Ret (Return (NotifyBehaviour (HandlerMessageDropped message)), set_outbound (Some (WaitingOutput substream)) h, q)
          else Ret (Continue, set_outbound (Some (PendingSend substream (into_protobuf message))) h, q)
      | (None, q) => Ret (Break, set_outbound (Some (WaitingOutput substream)) h, q)
      end
  | Some (PendingSend substream message) =>
      match fr_poll_ready substream with
      | (Some (Ok _), substream) =>
          match fr_start_send message substream with
          | (Ok _, substream) => Ret (Continue, set_outbound (Some (PendingFlush substream)) h, q)
          | (Err _, _) => Ret (Break, set_outbound None h, q)
          end
      | (Some (Err _), _) => Ret (Break, set_outbound None h, q)
      | (None, substream) => Ret (Break, set_outbound (Some (PendingSend substream message)) h, q)
      end
  | Some (PendingFlush substream) =>
      match fr_poll_flush substream with
      | (Some (Ok _), substream) =>
          Ret (Continue, set_outbound (Some (WaitingOutput substream)) (upd_eh_last_io_activity (fun _ => now) h), q)
      | (Some (Err _), _) => Ret (Break, set_outbound None h, q)
      | (None, substream) => Ret (Break, set_outbound (Some (PendingFlush substream)) h, q)
      end
  | None => Ret (Break, set_outbound None h, q)
  | Some OutboundPoisoned => Panic
  end.

(** The loop, for at most [fuel] turns; [None] when they do not suffice. *)
Fixpoint outbound_loop (fuel : nat) (h : EnabledHandler) (q : QueueStore) : run (option (option HandlerPoll * EnabledHandler * QueueStore)) :=
  match fuel with
  | O => Ret None
  | S fuel =>
      let! x := outbound_turn h q in
      let '(turn, h, q) := x in
      match turn with
      | Continue => outbound_loop fuel h q
      | Break => Ret (Some (None, h, q))
      | Return e => Ret (Some (Some e, h, q))
      end
  end.

Definition close_inbound (substream : Framed) (h : EnabledHandler) : EnabledHandler :=
  match fr_poll_close substream with
  | (Some _, _) => set_inbound None h
  | (None, substream) => set_inbound (Some (Closing substream)) h
  end.

(** The loop over the inbound substream: after a failed read it closes. *)
Definition inbound_loop (h : EnabledHandler) : run (HandlerPoll * EnabledHandler) :=
  match eh_inbound_substream h with
  | Some (WaitingInput substream) =>
      match fr_poll_next substream with
      | (Some (Some (Ok message)), substream) =>
          Ret (NotifyBehaviour message, set_inbound (Some (WaitingInput substream)) (upd_eh_last_io_activity (fun _ => now) h))
      | (Some _, substream) => Ret (HandlerPending, close_inbound substream h)
      | (None, substream) => Ret (HandlerPending, set_inbound (Some (WaitingInput substream)) h)
      end
  | Some (Closing substream) => Ret (HandlerPending, close_inbound substream h)
  | None => Ret (HandlerPending, set_inbound None h)
  | Some InboundPoisoned => Panic
  end.

(** Three turns send one message. *)
Definition outbound_fuel (q : QueueStore) : nat := 3 * length (contents q) + 3.

Definition process_streams (h : EnabledHandler) (q : QueueStore) : run (option (HandlerPoll * EnabledHandler * QueueStore)) :=
  let! x := outbound_loop (outbound_fuel q) h q in
  match x with
  | None => Ret None
  | Some (Some e, h, q) => Ret (Some (e, h, q))
  | Some (None, h, q) => let! y := inbound_loop h in let '(e, h) := y in Ret (Some (e, h, q))
  end.

Definition enabled_poll (h : EnabledHandler) (q : QueueStore) : run (option (HandlerPoll * EnabledHandler * QueueStore)) :=
  match eh_peer_kind_sent h, eh_peer_kind h with
  | false, Some kind => Ret (Some (NotifyBehaviour (HandlerPeerKind kind), upd_eh_peer_kind_sent (fun _ => true) h, q))
  | _, _ =>
      if decide (eh_outbound_substream h = None /\ eh_outbound_substream_establishing h = false) then
        let '(empty, q) := queue_poll_is_empty (eh_message_queue h) waker q in
        if negb empty then
          Ret (Some (OutboundSubstreamRequest (eh_listen_protocol h), upd_eh_outbound_substream_establishing (fun _ => true) h, q))
        else process_streams h q
      else process_streams h q
  end.

Definition handler_poll (h : Handler) (q : QueueStore) : run (option (HandlerPoll * Handler * QueueStore)) :=
  match h with
  | HandlerEnabled h =>
      let! x := enabled_poll h q in
      Ret (match x with Some (e, h, q) => Some (e, HandlerEnabled h, q) | None => None end)
  | HandlerDisabled (ProtocolUnsupported false) =>
      Ret (Some (NotifyBehaviour (HandlerPeerKind NotSupported), HandlerDisabled (ProtocolUnsupported true), q))
  | HandlerDisabled _ => Ret (Some (HandlerPending, h, q))
  end.
End polling.

(** * Events

    [is_inbound] and [is_outbound] are those of [libp2p_swarm]. *)
Definition handler_on_behaviour_event (message : HandlerIn) (h : Handler) : Handler :=
  match h with
  | HandlerEnabled h => HandlerEnabled (upd_eh_in_mesh (fun _ => match message with JoinedMesh => true | LeftMesh => false end) h)
  | HandlerDisabled _ => h
  end.

Definition connection_keep_alive (h : Handler) : bool := match h with HandlerEnabled h => eh_in_mesh h | HandlerDisabled _ => false end.

(** [listen_protocol]: [None] denies every inbound substream. *)
Definition handler_listen_protocol (h : Handler) : option ProtocolConfig :=
  match h with HandlerEnabled h => Some (eh_listen_protocol h) | HandlerDisabled _ => None end.

Inductive StreamUpgradeError : Type := UpgradeTimeout | NegotiationFailed | UpgradeIo.

Inductive ConnectionEvent : Type :=
  | FullyNegotiatedInbound (substream : Framed) (kind : PeerKind)
  | FullyNegotiatedOutbound (substream : Framed) (kind : PeerKind)
  | DialUpgradeError (e : StreamUpgradeError)
  | ListenUpgradeError
  | OtherConnectionEvent.

Definition is_inbound (e : ConnectionEvent) : bool := match e with FullyNegotiatedInbound _ _ | ListenUpgradeError => true | _ => false end.
Definition is_outbound_event (e : ConnectionEvent) : bool := match e with FullyNegotiatedOutbound _ _ | DialUpgradeError _ => true | _ => false end.

Definition enabled_event (e : ConnectionEvent) (h : EnabledHandler) : run Handler :=
  match e with
  | FullyNegotiatedInbound substream kind => Ret (HandlerEnabled (on_fully_negotiated_inbound substream kind h))
  | FullyNegotiatedOutbound substream kind => let! h := on_fully_negotiated_outbound substream kind h in Ret (HandlerEnabled h)
  | DialUpgradeError NegotiationFailed => Ret (HandlerDisabled (ProtocolUnsupported false))
  | _ => Ret (HandlerEnabled h)
  end.

Definition handler_on_connection_event (e : ConnectionEvent) (h : Handler) : run Handler :=
  match h with
  | HandlerDisabled _ => Ret h
  | HandlerEnabled h =>
      let h := if is_inbound e then upd_eh_inbound_substream_attempts (fun n => n + 1) h else h in
      if is_inbound e && bool_decide (eh_inbound_substream_attempts h = MAX_SUBSTREAM_ATTEMPTS) then Ret (HandlerDisabled MaxSubstreamAttempts)
      else
        let h := if is_outbound_event e
                 then upd_eh_outbound_substream_attempts (fun n => n + 1) (upd_eh_outbound_substream_establishing (fun _ => false) h) else h in
        if is_outbound_event e && bool_decide (eh_outbound_substream_attempts h = MAX_SUBSTREAM_ATTEMPTS) then Ret (HandlerDisabled MaxSubstreamAttempts)
        else enabled_event e h
  end.
End handler.

(** * Facts

    The gossipsub connection handler: every poll ends, the number of substreams
    it asks for is bounded, its assertions hold; and what a failed send leaves
    behind. *)

Section facts.
Context {P : PeerIdLib} {FR : FramedLib}.

(** No substream is left in the state it has while it is processed. *)
Definition sound (h : EnabledHandler) : Prop :=
  eh_outbound_substream h ≠ Some OutboundPoisoned /\ eh_inbound_substream h ≠ Some InboundPoisoned.

Definition outbound_rank (h : EnabledHandler) : nat :=
  match eh_outbound_substream h with Some (PendingSend _ _) => 2 | Some (PendingFlush _) => 1 | _ => 0 end.
Definition outbound_measure (h : EnabledHandler) (q : QueueStore) : nat := 3 * length (contents q) + outbound_rank h.

(** What the loops leave alone. *)
Definition same_bookkeeping (h h' : EnabledHandler) : Prop :=
  eh_outbound_substream_establishing h' = eh_outbound_substream_establishing h /\
  eh_outbound_substream_attempts h' = eh_outbound_substream_attempts h /\ eh_inbound_substream_attempts h' = eh_inbound_substream_attempts h /\
  eh_inbound_substream h' = eh_inbound_substream h /\ (eh_outbound_substream h = None -> eh_outbound_substream h' = None).

Definition not_request (e : HandlerPoll) : Prop := forall p, e ≠ OutboundSubstreamRequest p.

Ltac finish := do 3 eexists; split; [reflexivity|]; repeat split; try done; try (cbn; congruence); try (by intros ? [= <-]).

Lemma outbound_turn_spec now waker h q :
  sound h -> exists turn h' q', outbound_turn now waker h q = Ret (turn, h', q') /\ sound h' /\ same_bookkeeping h h' /\
    (turn = Continue -> (outbound_measure h' q' < outbound_measure h q)%nat) /\ (forall e, turn = Return e -> not_request e).
Proof.
  intros [Ho Hi]. unfold outbound_turn, outbound_measure, outbound_rank. destruct (eh_outbound_substream h) as [[sub|sub m|sub|]|] eqn:E; [..|by destruct Ho|].
  - pose proof (poll_pop_contents (eh_message_queue h) waker q) as [Hh Ht].
    destruct (queue_poll_pop (eh_message_queue h) waker q) as [[m|] q']; [|by finish].
    cbn in Hh, Ht. destruct (expired now m); finish. cbn. intros _. rewrite Ht. destruct (contents q); cbn in *; [done|lia].
  - destruct (fr_poll_ready sub) as [[[[]|e]|] sub']; [destruct (fr_start_send m sub') as [[[]|e] sub'']|..]; finish; cbn; lia.
  - destruct (fr_poll_flush sub) as [[[[]|e]|] sub']; finish; cbn; lia.
  - finish.
Qed.

Lemma outbound_loop_spec now waker fuel h q :
  sound h -> (outbound_measure h q < fuel)%nat ->
  exists e h' q', outbound_loop now waker fuel h q = Ret (Some (e, h', q')) /\ sound h' /\ same_bookkeeping h h' /\
    (forall x, e = Some x -> not_request x).
Proof.
  revert h q. induction fuel as [|fuel IH]; intros h q Hs Hf; [lia|]. cbn [outbound_loop].
  destruct (outbound_turn_spec now waker h q Hs) as (turn & h' & q' & -> & Hs' & Hb & Hm & Hr). cbn [run_bind].
  destruct turn as [| |e].
  - destruct (IH h' q' Hs') as (e & h2 & q2 & -> & Hs2 & Hb2 & Hr2); [specialize (Hm eq_refl); lia|]. exists e, h2, q2. split_and!; try done.
    destruct Hb as (? & ? & ? & ? & Hn), Hb2 as (? & ? & ? & ? & Hn2). repeat split; try congruence. auto.
  - by exists None, h', q'.
  - exists (Some e), h', q'. split_and!; try done. intros x [= <-]. by apply Hr.
Qed.

Lemma inbound_loop_spec now h :
  sound h -> exists e h', inbound_loop now h = Ret (e, h') /\ sound h' /\ not_request e /\
    eh_outbound_substream_establishing h' = eh_outbound_substream_establishing h /\
    eh_outbound_substream_attempts h' = eh_outbound_substream_attempts h /\ eh_inbound_substream_attempts h' = eh_inbound_substream_attempts h /\
    eh_outbound_substream h' = eh_outbound_substream h.
Proof.
  intros [Ho Hi]. unfold inbound_loop, close_inbound. destruct (eh_inbound_substream h) as [[sub|sub|]|] eqn:E; [..|by destruct Hi|].
  - destruct (fr_poll_next sub) as [[[[m|e]|]|] sub']; [|destruct (fr_poll_close sub') as [[r|] ?]..|]; do 2 eexists; by repeat split.
  - destruct (fr_poll_close sub) as [[r|] ?]; do 2 eexists; by repeat split.
  - do 2 eexists; by repeat split.
Qed.

(** The outcome of a poll: a request exactly when the establishing flag goes up,
    which it does only while there is no substream. *)
Definition poll_outcome (h : EnabledHandler) (e : HandlerPoll) (h' : EnabledHandler) : Prop :=
  sound h' /\ eh_outbound_substream_attempts h' = eh_outbound_substream_attempts h /\
  ((exists p, e = OutboundSubstreamRequest p) /\ eh_outbound_substream_establishing h = false /\
     eh_outbound_substream_establishing h' = true /\ eh_outbound_substream h' = None \/
   not_request e /\ eh_outbound_substream_establishing h' = eh_outbound_substream_establishing h /\
     (eh_outbound_substream h = None -> eh_outbound_substream h' = None)).

Lemma process_streams_spec now waker h q :
  sound h -> exists e h' q', process_streams now waker h q = Ret (Some (e, h', q')) /\ poll_outcome h e h'.
Proof.
  intros Hs. unfold process_streams. destruct (outbound_loop_spec now waker (outbound_fuel q) h q Hs) as (x & h1 & q1 & -> & Hs1 & Hb & Hr).
  { unfold outbound_measure, outbound_fuel, outbound_rank. destruct (eh_outbound_substream h) as [[]|]; lia. }
  destruct Hb as (He & Ha & Hia & Hi & Hn). cbn [run_bind]. destruct x as [e|].
  - exists e, h1, q1. split; [done|]. split_and!; try done. right. split_and!; try done. by apply Hr.
  - destruct (inbound_loop_spec now h1 Hs1) as (e & h2 & -> & Hs2 & Hr2 & He2 & Ha2 & _ & Ho2). cbn [run_bind].
    exists e, h2, q1. split; [done|]. split_and!; [done|congruence|]. right. split_and!; [done|congruence|]. intros. rewrite Ho2. auto.
Qed.

Lemma enabled_poll_spec now waker h q :
  sound h -> exists e h' q', enabled_poll now waker h q = Ret (Some (e, h', q')) /\ poll_outcome h e h'.
Proof.
  intros Hs. unfold enabled_poll.
  assert (Hrest : exists e h' q', (if decide (eh_outbound_substream h = None /\ eh_outbound_substream_establishing h = false) then
        let '(empty, q) := queue_poll_is_empty (eh_message_queue h) waker q in
        if negb empty then
          Ret (Some (OutboundSubstreamRequest (eh_listen_protocol h), upd_eh_outbound_substream_establishing (fun _ => true) h, q))
        else process_streams now waker h q
      else process_streams now waker h q) = Ret (Some (e, h', q')) /\ poll_outcome h e h').
  { case_decide as Hd; [|by apply process_streams_spec]. destruct (queue_poll_is_empty _ _ _) as [empty q1]. destruct (negb empty); [|by apply process_streams_spec].
    do 3 eexists. split; [done|]. split_and!; [done|done|]. left. destruct Hd. split_and!; [by eexists|done..]. }
  destruct (eh_peer_kind_sent h); [done|]. destruct (eh_peer_kind h) as [kind|]; [|done].
  do 3 eexists. split; [done|]. split_and!; [done|done|]. by right.
Qed.

(** * Runs of a handler with its swarm *)
Record HandlerRun := { hr_handler : Handler; hr_queue : QueueStore; hr_requested : Z; hr_answered : Z }.

Definition is_request (e : HandlerPoll) : bool := match e with OutboundSubstreamRequest _ => true | _ => false end.

(** The swarm answers a request for an outbound substream once; the behaviour
    and the other handlers of the peer use the queue at any time. *)
Inductive handler_step : HandlerRun -> HandlerRun -> Prop :=
  | hs_poll r now waker e h q :
      handler_poll now waker (hr_handler r) (hr_queue r) = Ret (Some (e, h, q)) ->
      handler_step r {| hr_handler := h; hr_queue := q; hr_requested := hr_requested r + (if is_request e then 1 else 0); hr_answered := hr_answered r |}
  | hs_event r e h :
      (is_outbound_event e = true -> hr_answered r < hr_requested r) -> handler_on_connection_event e (hr_handler r) = Ret h ->
      handler_step r {| hr_handler := h; hr_queue := hr_queue r; hr_requested := hr_requested r;
                        hr_answered := hr_answered r + (if is_outbound_event e then 1 else 0) |}
  | hs_behaviour r message :
      handler_step r {| hr_handler := handler_on_behaviour_event message (hr_handler r); hr_queue := hr_queue r;
                        hr_requested := hr_requested r; hr_answered := hr_answered r |}
  | hs_queue r q :
      handler_step r {| hr_handler := hr_handler r; hr_queue := q; hr_requested := hr_requested r; hr_answered := hr_answered r |}.

Definition HandlerRun_new (now : Z) (p : PeerId) (c : ProtocolConfig) (id : Z) (q : QueueStore) : HandlerRun := {|
  hr_handler := Handler_new now p c id; hr_queue := q; hr_requested := 0; hr_answered := 0 |}.

Definition handler_inv (r : HandlerRun) : Prop :=
  hr_requested r <= MAX_SUBSTREAM_ATTEMPTS /\
  match hr_handler r with
  | HandlerEnabled h =>
      sound h /\ eh_outbound_substream_attempts h = hr_answered r /\ hr_answered r < MAX_SUBSTREAM_ATTEMPTS /\
      hr_requested r = hr_answered r + (if eh_outbound_substream_establishing h then 1 else 0) /\
      (eh_outbound_substream_establishing h = true -> eh_outbound_substream h = None)
  | HandlerDisabled _ => True
  end.

Lemma poll_keeps_inv now waker r : handler_inv r ->
  exists e h q, handler_poll now waker (hr_handler r) (hr_queue r) = Ret (Some (e, h, q)) /\
    handler_inv {| hr_handler := h; hr_queue := q; hr_requested := hr_requested r + (if is_request e then 1 else 0); hr_answered := hr_answered r |}.
Proof.
  intros [Hr Hh]. unfold handler_poll. destruct (hr_handler r) as [h|[[]|]].
  - destruct Hh as (Hs & Ha & Hlt & Hreq & He). destruct (enabled_poll_spec now waker h (hr_queue r) Hs) as (e & h' & q' & -> & Hs' & Ha' & Hout).
    cbn [run_bind]. exists e, (HandlerEnabled h'), q'. split; [done|]. unfold handler_inv. cbn.
    destruct Hout as [([p ->] & E1 & E2 & E3)|(Hn & E1 & E3)].
    + rewrite E1 in Hreq. rewrite E2. cbn. split; [lia|]. split_and!; [done|congruence|done|lia|done].
    + assert (is_request e = false) as -> by (destruct e; try done; by destruct (Hn protocol)). rewrite E1.
      split; [lia|]. split_and!; [done|congruence|done|lia|]. intros Hest. auto.
  - exists HandlerPending, (HandlerDisabled (ProtocolUnsupported true)), (hr_queue r). split; [done|]. split; cbn; [lia|done].
  - exists (NotifyBehaviour (HandlerPeerKind NotSupported)), (HandlerDisabled (ProtocolUnsupported true)), (hr_queue r). split; [done|]. split; cbn; [lia|done].
  - exists HandlerPending, (HandlerDisabled MaxSubstreamAttempts), (hr_queue r). split; [done|]. split; cbn; [lia|done].
Qed.

Lemma event_keeps_inv e r : handler_inv r -> (is_outbound_event e = true -> hr_answered r < hr_requested r) ->
  exists h, handler_on_connection_event e (hr_handler r) = Ret h /\
    handler_inv {| hr_handler := h; hr_queue := hr_queue r; hr_requested := hr_requested r;
                   hr_answered := hr_answered r + (if is_outbound_event e then 1 else 0) |}.
Proof.
  intros [Hr Hh] Hout. unfold handler_on_connection_event. destruct (hr_handler r) as [h|d]; [|by eexists].
  destruct Hh as ([Ho Hi] & Ha & Hlt & Hreq & He).
  assert (Hdis : handler_inv {| hr_handler := HandlerDisabled MaxSubstreamAttempts; hr_queue := hr_queue r; hr_requested := hr_requested r;
    hr_answered := hr_answered r + (if is_outbound_event e then 1 else 0) |}) by by split.
  assert (Hest : is_outbound_event e = true -> eh_outbound_substream_establishing h = true /\ eh_outbound_substream h = None).
  { intros Ho'. specialize (Hout Ho'). destruct (eh_outbound_substream_establishing h); [by auto|lia]. }
  destruct (is_inbound e && bool_decide _) eqn:Ein; [by eexists|]. destruct (is_outbound_event e && bool_decide _) eqn:Eout; [by eexists|].
  destruct e as [sub kind|sub kind|er| |]; cbn [is_inbound is_outbound_event andb enabled_event] in *.
  - eexists. split; [done|]. split; [done|]. cbn. split_and!; try done; lia.
  - destruct (Hest eq_refl) as [Ht Hnone]. unfold on_fully_negotiated_outbound. cbn. rewrite Hnone, decide_False by (by intros [? ?]). cbn [run_bind].
    eexists. split; [done|]. split; [done|]. cbn. rewrite Ht in Hreq. apply bool_decide_eq_false in Eout. cbn in Eout. split_and!; try done; lia.
  - destruct (Hest eq_refl) as [Ht Hnone]. rewrite Ht in Hreq. apply bool_decide_eq_false in Eout. cbn in Eout.
    destruct er; (eexists; split; [done|]); (split; [done|]); cbn; try done; split_and!; try done; lia.
  - eexists. split; [done|]. split; [done|]. cbn. split_and!; try done; lia.
  - eexists. split; [done|]. split; [done|]. cbn. split_and!; try done; lia.
Qed.

Lemma handler_inv_reachable now p c id q r : rtc handler_step (HandlerRun_new now p c id q) r -> handler_inv r.
Proof.
  intros H. remember (HandlerRun_new now p c id q) as r0 eqn:E. assert (H0 : handler_inv r0) by (subst; repeat split; done). clear E.
  induction H as [|r1 r2 r3 Hs _ IH]; [done|]. apply IH. destruct Hs as [r t w e h q' E|r e h Ho E|r m|r q'].
  - destruct (poll_keeps_inv t w r H0) as (e' & h' & q2 & E' & Hi). rewrite E in E'. by injection E' as <- <- <-.
  - destruct (event_keeps_inv e r H0 Ho) as (h' & E' & Hi). rewrite E in E'. by injection E' as <-.
  - destruct H0 as [Hr Hh]. split; [done|]. cbn. destruct (hr_handler r); done.
  - done.
Qed.

(** A handler never asks for more than [MAX_SUBSTREAM_ATTEMPTS] outbound
    substreams, and never panics.  In every run with a swarm that answers each
    request at most once, whatever the substreams answer and whoever uses the
    queue: every poll returns after a bounded number of turns of its loops, and
    no event violates the assertion that there is one outbound substream. *)
Theorem handler_substreams_bounded now p c id q r :
  rtc handler_step (HandlerRun_new now p c id q) r ->
  hr_requested r <= MAX_SUBSTREAM_ATTEMPTS /\
  (forall t waker, exists e h q', handler_poll t waker (hr_handler r) (hr_queue r) = Ret (Some (e, h, q'))) /\
  (forall e, (is_outbound_event e = true -> hr_answered r < hr_requested r) -> exists h, handler_on_connection_event e (hr_handler r) = Ret h).
Proof.
  intros H%handler_inv_reachable. split_and!; [apply H|..].
  - intros t waker. destruct (poll_keeps_inv t waker r H) as (e & h & q' & E & _). eauto.
  - intros e He. destruct (event_keeps_inv e r H He) as (h & E & _). eauto.
Qed.

(** * A failed send *)

(** A failed send strands the messages of the queue.  When the outbound
    substream fails while a message is sent, that message is gone without a
    notice to the behaviour, and the poll is pending, with the other messages
    still queued and nothing registered in their sub-queue: the publications,
    IHAVEs and IWANTs that are pushed later wake nobody. *)
Theorem failed_send_strands_queue now waker h q stream message rest e stream' :
  eh_peer_kind_sent h = true -> eh_inbound_substream h = None -> eh_outbound_substream h = Some (WaitingOutput stream) ->
  queue (priority q) = [] -> queue (control q) = [] -> queue (non_priority q) = message :: rest -> pending_pops (non_priority q) = ∅ ->
  expired now message = false -> fr_poll_ready stream = (Some (Err e), stream') ->
  exists h' q', enabled_poll now waker h q = Ret (Some (HandlerPending, h', q')) /\ contents q' = rest /\ eh_outbound_substream h' = None /\
    forall m r woken q'', destination m = NonPriority -> queue_try_push m q' = (r, woken, q'') -> woken = ∅.
Proof.
  intros Hk Hi Ho Hp Hc Hn Hw He Hs. unfold enabled_poll. rewrite Hk, decide_False by (rewrite Ho; by intros []).
  unfold process_streams, outbound_fuel. replace (contents q) with (message :: rest) by (unfold contents; by rewrite Hp, Hc, Hn).
  assert (Hpop : queue_poll_pop (eh_message_queue h) waker q = (Some message,
    set_sub NonPriority {| queue := rest; pending_pops := ∅ |} (set_sub Control (register (eh_message_queue h) waker (control q))
      (set_sub Priority (register (eh_message_queue h) waker (priority q)) q)))).
  { unfold queue_poll_pop, shared_poll_pop. rewrite Hp. cbn [set_sub control non_priority]. rewrite Hc. cbn [set_sub non_priority]. by rewrite Hn, Hw. }
  cbn [length Nat.mul Nat.add]. rewrite !Nat.add_succ_r. cbn [outbound_loop]. unfold outbound_turn at 1. rewrite Ho, Hpop, He. cbn [run_bind].
  unfold outbound_turn at 1. cbn [set_outbound upd_eh_outbound_substream eh_outbound_substream]. rewrite Hs. cbn [run_bind].
  unfold inbound_loop. cbn. rewrite Hi. cbn. do 2 eexists. split; [reflexivity|]. split_and!; [by unfold contents; cbn; rewrite Hp, Hc|done|].
  intros m r woken q'' Hd. unfold queue_try_push. rewrite Hd. cbn [sub set_sub non_priority]. unfold shared_try_push. cbn [pending_pops].
  match goal with |- context [if ?b then _ else _] => destruct b end; intros [= _ <- _]; [done|]. by rewrite map_img_empty_L.
Qed.
End facts.
