(* ===== verification/Instances.v ===== *)
(** Concrete instances of the library interfaces, with their laws proved: the
    witnesses evaluate the model with them.  They show that the laws the
    theorems assume of [hex], [blake3], [PeerId], [Multiaddr] and [serde_json]
    can hold together; they are not models of those crates. *)

From S2P Require Import Prelude Bytes Text Common AppMessage Fragmentation.
From S2P Require Import GossipFacts.
From Stdlib Require Import Strings.Byte Ascii.

#[local] Open Scope Z_scope.

Module Demo.

Definition hex_digit (z : Z) : ascii := default "0"%char (String.get (Z.to_nat z) "0123456789abcdef").

Definition digit_value (c : ascii) : option Z :=
  let n := Z.of_nat (nat_of_ascii c) in
  if decide (48 <= n <= 57) then Some (n - 48)
  else if decide (97 <= n <= 102) then Some (n - 87)
  else if decide (65 <= n <= 70) then Some (n - 55) else None.

Fixpoint demo_hex_encode (bs : list byte) : string :=
  match bs with
  | [] => ""
  | b :: bs' => String (hex_digit (byte_to_Z b / 16))
                  (String (hex_digit (byte_to_Z b mod 16)) (demo_hex_encode bs'))
  end.

Fixpoint demo_hex_decode (s : string) : option (list byte) :=
  match s with
  | EmptyString => Some []
  | String a (String b s') =>
      match digit_value a, digit_value b, demo_hex_decode s' with
      | Some x, Some y, Some bs => Some (byte_of_Z (16 * x + y) :: bs)
      | _, _, _ => None
      end
  | _ => None
  end.

#[export] Instance demo_hex : HexLib := {|
  hex_encode := demo_hex_encode;
  hex_decode s := ok_or (demo_hex_decode s) "invalid hex"%string;
|}.

Lemma demo_hex_roundtrip bs : demo_hex_decode (demo_hex_encode bs) = Some bs.
Proof.
  induction bs as [|b bs IH]; [done|]. cbn [demo_hex_encode demo_hex_decode]. rewrite IH.
  destruct b; reflexivity.
Qed.

Lemma demo_hex_length n s bs :
  (String.length s <= n)%nat -> demo_hex_decode s = Some bs ->
  Z.of_nat (String.length s) = 2 * len bs.
Proof.
  revert s bs. induction n as [|n IH]; intros s bs Hn.
  - destruct s; cbn in *; [|lia]. by intros [= <-].
  - destruct s as [|a [|b s]]; cbn in *; [by intros [= <-]|done|].
    destruct (digit_value a), (digit_value b), (demo_hex_decode s) as [bs'|] eqn:E; try done.
    intros [= <-]. apply IH in E; [|lia]. unfold len in *. cbn. lia.
Qed.

#[export] Instance demo_hex_laws : HexLaws demo_hex.
Proof.
  split.
  - intros bs. cbn. by rewrite demo_hex_roundtrip.
  - intros s bs. cbn. destruct (demo_hex_decode s) eqn:E; cbn; [|done].
    intros [= <-]. by eapply demo_hex_length.
Qed.

(** A 32-byte digest: the bytes themselves, cut or padded. *)
#[export] Instance demo_blake3 : Blake3Lib := {|
  blake3_hash bs := take 32 (bs ++ replicate 32 x01);
|}.

#[export] Instance demo_blake3_laws : Blake3Laws demo_blake3.
Proof. split. intros bs. unfold len, blake3_hash, demo_blake3. rewrite length_take, length_app, length_replicate. lia. Qed.

(** Peers are single bytes, written as two hex digits. *)
#[export] Program Instance byte_ord : TotalOrd byte := {|
  ord_leb a b := byte_to_Z a <=? byte_to_Z b;
|}.
Next Obligation. intros; cbn; lia. Qed.
Next Obligation. intros; cbn; lia. Qed.
Next Obligation. intros x y z ??; cbn in *; lia. Qed.
Next Obligation.
  intros x y ??. rewrite <- (byte_of_to_Z x), <- (byte_of_to_Z y). f_equal. cbn in *. lia.
Qed.

Definition singleton_byte (o : option (list byte)) : option byte :=
  match o with Some [b] => Some b | _ => None end.

#[export] Instance demo_peer : PeerIdLib := {|
  PeerId := byte;
  peer_to_string b := demo_hex_encode [b];
  peer_parse s := ok_or (singleton_byte (demo_hex_decode s)) "invalid peer id"%string;
  peer_to_bytes b := [b];
  peer_from_bytes bs := ok_or (singleton_byte (Some bs)) "invalid peer id"%string;
|}.

#[export] Instance demo_peer_laws : PeerIdLaws demo_peer.
Proof. split; intros p; destruct p; reflexivity. Qed.

(** Addresses are component lists, written through their binary code. *)
Definition protocol_code (p : Protocol) : Z * list Z * string * option byte :=
  match p with
  | Ip4 ip => (0, [ip4_a ip; ip4_b ip; ip4_c ip; ip4_d ip], "", None)
  | Ip6 ip => (1, ip6_segments ip, "", None)
  | Dns n => (2, [], n, None)
  | Dns4 n => (3, [], n, None)
  | Dns6 n => (4, [], n, None)
  | Dnsaddr n => (5, [], n, None)
  | Tcp p => (6, [p], "", None)
  | Udp p => (7, [p], "", None)
  | QuicV1 => (8, [], "", None)
  | Ws => (9, [], "", None)
  | Wss => (10, [], "", None)
  | WebRTC => (11, [], "", None)
  | WebRTCDirect => (12, [], "", None)
  | P2p peer => (13, [], "", Some peer)
  | P2pCircuit => (14, [], "", None)
  | OtherProtocol t => (15, [], t, None)
  | Quic => (16, [], "", None)
  | P2pWebRtcDirect => (17, [], "", None)
  | WebTransport => (18, [], "", None)
  | Certhash h => (19, [], h, None)
  end%string.

Definition protocol_decode (c : Z * list Z * string * option byte) : option Protocol :=
  match c with
  | (0, [a; b; c; d], _, _) => Some (Ip4 {| ip4_a := a; ip4_b := b; ip4_c := c; ip4_d := d |})
  | (1, l, _, _) => Some (Ip6 {| ip6_segments := l |})
  | (2, _, n, _) => Some (Dns n)
  | (3, _, n, _) => Some (Dns4 n)
  | (4, _, n, _) => Some (Dns6 n)
  | (5, _, n, _) => Some (Dnsaddr n)
  | (6, [p], _, _) => Some (Tcp p)
  | (7, [p], _, _) => Some (Udp p)
  | (8, _, _, _) => Some QuicV1
  | (9, _, _, _) => Some Ws
  | (10, _, _, _) => Some Wss
  | (11, _, _, _) => Some WebRTC
  | (12, _, _, _) => Some WebRTCDirect
  | (13, _, _, Some p) => Some (P2p p)
  | (14, _, _, _) => Some P2pCircuit
  | (15, _, t, _) => Some (OtherProtocol t)
  | (16, _, _, _) => Some Quic
  | (17, _, _, _) => Some P2pWebRtcDirect
  | (18, _, _, _) => Some WebTransport
  | (19, _, h, _) => Some (Certhash h)
  | _ => None
  end.

Lemma protocol_decode_code p : protocol_decode (protocol_code p) = Some p.
Proof. by destruct p as [[]|[]| | | | | | | | | | | | | | | | | |]. Qed.

#[export] Instance protocol_countable : Countable (Protocol (P := demo_peer)) :=
  inj_countable protocol_code protocol_decode protocol_decode_code.

Fixpoint bits_of (p : positive) : string :=
  match p with
  | xH => "" | xO q => String "0" (bits_of q) | xI q => String "1" (bits_of q)
  end.

Fixpoint of_bits (s : string) : positive :=
  match s with
  | EmptyString => xH
  | String c s' => if decide (c = "0"%char) then xO (of_bits s') else xI (of_bits s')
  end.

Lemma of_bits_of p : of_bits (bits_of p) = p.
Proof. induction p as [p IH|p IH|]; cbn; try rewrite IH; done. Qed.

#[export] Program Instance addr_code_ord : TotalOrd (list (Protocol (P := demo_peer))) := {|
  ord_leb a b := Z.leb (Z.pos (encode a)) (Z.pos (encode b));
|}.
Next Obligation. intros; apply Z.leb_refl. Qed.
Next Obligation. intros; rewrite !Z.leb_le; lia. Qed.
Next Obligation. intros x y z; rewrite !Z.leb_le; lia. Qed.
Next Obligation. intros x y; rewrite !Z.leb_le. intros. apply (inj encode). lia. Qed.

#[export] Instance demo_multiaddr : MultiaddrLib (P := demo_peer) := {|
  Multiaddr := list (Protocol (P := demo_peer));
  addr_iter a := a;
  addr_with a p := a ++ [p];
  addr_to_string a := bits_of (encode a);
  addr_parse s := ok_or (decode (of_bits s)) "invalid multiaddr"%string;
|}.

#[export] Instance demo_multiaddr_laws : MultiaddrLaws demo_multiaddr.
Proof.
  split; intros a; [done|]. cbn [addr_parse addr_to_string demo_multiaddr].
  by rewrite of_bits_of, decode_encode.
Qed.

(** A self-delimiting record codec: the bits of the header, a separator that no
    bit uses, then the payload. *)
Fixpoint bit_bytes (p : positive) : list byte :=
  match p with xH => [xff] | xO q => x00 :: bit_bytes q | xI q => x01 :: bit_bytes q end.

Fixpoint read_bits (bs : list byte) : option (positive * list byte) :=
  match bs with
  | x00 :: bs' => prod_map xO id <$> read_bits bs'
  | x01 :: bs' => prod_map xI id <$> read_bits bs'
  | xff :: bs' => Some (xH, bs')
  | _ => None
  end.

Lemma read_bit_bytes p rest : read_bits (bit_bytes p ++ rest) = Some (p, rest).
Proof. induction p as [p IH|p IH|]; cbn; [rewrite IH..|]; done. Qed.

Definition message_header (m : AppMessage) : list positive :=
  [encode (msg_schema_version m); encode (msg_network_id m); encode (msg_topic m);
   encode (msg_source_peer_id m); encode (msg_target_peer_id m); encode (msg_timestamp_ns m);
   encode (msg_nonce_hex m)].

Definition message_of (h : list positive) (payload : list byte) : option AppMessage :=
  match h with
  | [v; n; t; s; d; ts; nonce] =>
      v ← decode v; n ← decode n; t ← decode t; s ← decode s; d ← decode d; ts ← decode ts;
      nonce ← decode nonce;
      Some {| msg_schema_version := v; msg_network_id := n; msg_topic := t; msg_source_peer_id := s;
              msg_target_peer_id := d; msg_timestamp_ns := ts; msg_nonce_hex := nonce;
              msg_payload := payload |}
  | _ => None
  end.

Definition fragment_header (f : AppFragment) : list positive :=
  [encode (fr_fragment_schema_version f); encode (fr_message_schema_version f);
   encode (fr_network_id f); encode (fr_topic f); encode (fr_source_peer_id f);
   encode (fr_target_peer_id f); encode (fr_timestamp_ns f); encode (fr_nonce_hex f);
   encode (fr_payload_hash_hex f); encode (fr_payload_len f); encode (fr_index f); encode (fr_total f)].

Definition fragment_of (h : list positive) (payload : list byte) : option AppFragment :=
  match h with
  | [fv; v; n; t; s; d; ts; nonce; hash; plen; idx; total] =>
      fv ← decode fv; v ← decode v; n ← decode n; t ← decode t; s ← decode s; d ← decode d;
      ts ← decode ts; nonce ← decode nonce; hash ← decode hash; plen ← decode plen;
      idx ← decode idx; total ← decode total; guard (0 <= idx);;
      Some {| fr_fragment_schema_version := fv; fr_message_schema_version := v; fr_network_id := n;
              fr_topic := t; fr_source_peer_id := s; fr_target_peer_id := d; fr_timestamp_ns := ts;
              fr_nonce_hex := nonce; fr_payload_hash_hex := hash; fr_payload_len := plen;
              fr_index := idx; fr_total := total; fr_payload := payload |}
  | _ => None
  end.

Definition read_record {T} (build : list positive -> list byte -> option T) (raw : list byte) : result T string :=
  match read_bits raw with
  | Some (h, payload) =>
      match decode h with
      | Some h => ok_or (build h payload) "invalid header"%string
      | None => Err "invalid header"%string
      end
  | None => Err "invalid bits"%string
  end.

#[export] Instance demo_json : SerdeJson AppMessage := {|
  json_to_vec m := Ok (bit_bytes (encode (message_header m)) ++ msg_payload m);
  json_from_slice := read_record message_of;
|}.

#[export] Instance demo_fragment_json : SerdeJson AppFragment := {|
  json_to_vec f :=
    if decide (0 <= fr_index f) then Ok (bit_bytes (encode (fragment_header f)) ++ fr_payload f)
    else Err "negative index"%string;
  json_from_slice := read_record fragment_of;
|}.

Lemma read_record_write {T} (build : list positive -> list byte -> option T) h payload x :
  build h payload = Some x -> read_record build (bit_bytes (encode h) ++ payload) = Ok x.
Proof. intros Hof. unfold read_record. rewrite read_bit_bytes, decode_encode. by rewrite Hof. Qed.

#[export] Instance demo_json_laws : SerdeJsonLaws AppMessage demo_json.
Proof.
  split. intros m raw [= <-]. apply read_record_write. unfold message_of, message_header.
  rewrite !decode_encode. by destruct m.
Qed.

#[export] Instance demo_fragment_json_laws : SerdeJsonLaws AppFragment demo_fragment_json.
Proof.
  split. intros f raw. cbn [json_to_vec json_from_slice demo_fragment_json].
  case_decide as Hi; [|done]. intros [= <-]. apply read_record_write. unfold fragment_of, fragment_header.
  rewrite !decode_encode. cbn [mbind option_bind]. destruct f. case_guard; done.
Qed.

Lemma fragment_of_index h payload f : fragment_of h payload = Some f -> 0 <= fr_index f.
Proof.
  unfold fragment_of. intros Hf. repeat (case_match; try done).
  repeat match goal with H : (?o ≫= _) = Some _ |- _ =>
    let x := fresh "x" in destruct o as [x|]; [cbn [mbind option_bind] in H|discriminate H] end.
  by injection Hf as <-.
Qed.

#[export] Instance demo_serde_usize : SerdeUsize demo_fragment_json.
Proof.
  split. intros raw f. cbn. unfold read_record. destruct (read_bits raw) as [[h payload]|]; [|done].
  destruct (decode h) as [l|]; [|done]. destruct (fragment_of l payload) eqn:E; cbn; [|done].
  intros [= <-]. by eapply fragment_of_index.
Qed.

Lemma demo_hex_digits bs : Forall (fun c => is_ascii_hexdigit c = true) (chars (demo_hex_encode bs)).
Proof.
  induction bs as [|b bs IH]; [constructor|]. cbn [demo_hex_encode]. unfold chars in *.
  cbn [String.list_ascii_of_string]. repeat constructor; [by destruct b..|exact IH].
Qed.

#[export] Instance demo_hex_digit_laws : HexDigits demo_hex.
Proof. split. apply demo_hex_digits. Qed.

End Demo.
