(* ===== verification/Witnesses.v ===== *)
(** Witnesses: each applies a property at concrete data, with the library
    parameters instantiated by [Instances.Demo], so that every hypothesis of
    the property is shown to hold there by evaluation.  Messages, the peer book
    and the gossip handlers. *)

From S2P Require Import Prelude Bytes Text BTree Common Instances ReplayCache Pulse PulseFacts Reputation.
From S2P Require Import AppMessage AppSecurity Fragmentation ReassemblyFacts Metrics Observability PeerBook.
From S2P Require Import GossipEvents GossipFacts.
Import Demo.

#[local] Open Scope Z_scope.

(** * Heartbeats *)
Module HeartbeatWitness.

Definition peer : PeerId := x2a.
Definition entropy : list byte := replicate 32 x07.
Definition now : Z := 1000 * NS_PER_SEC.
Definition cfg := MessageSecurityConfig_default.
Definition env := HeartbeatEnvelope_new peer entropy now.
Definition wire : list byte := default [] (ok (encode_heartbeat_wire env)).

Lemma wire_encoded : encode_heartbeat_wire env = Ok wire.
Proof. vm_compute. reflexivity. Qed.

Lemma heartbeat_wire_roundtrip_witness :
  decode_heartbeat_wire wire = Ret (Ok env).
Proof.
  refine (proj2 (heartbeat_wire_roundtrip env wire _ _ wire_encoded) peer entropy now eq_refl);
    vm_compute; split; discriminate.
Defined.

Definition accepted := validate_heartbeat_wire peer wire now cfg (HeartbeatReplayCache_new cfg).

Definition verdict (r : run (HeartbeatValidationResult * HeartbeatReplayCache)) :=
  match r with Ret (r, _) => Some (decision r, envelope r) | Panic => None end.

Lemma accepted_heartbeat_witness :
  exists env', is_frame wire env' /\ hb_timestamp_ns env' = now.
Proof.
  assert (verdict accepted = Some (Accept, Some env)) as Hv by (vm_compute; reflexivity).
  unfold accepted in Hv.
  destruct (validate_heartbeat_wire peer wire now cfg (HeartbeatReplayCache_new cfg)) as [[r c]|] eqn:E;
    [|discriminate Hv].
  injection Hv as Hd Hen.
  destruct (accepted_heartbeat_is_authentic_and_fresh peer wire now cfg _ r c E Hd) as (env' & He & Hf & _).
  exists env'. split; [exact Hf|]. rewrite Hen in He. injection He as <-. reflexivity.
Defined.

Definition twice := hb_run cfg (HeartbeatReplayCache_new cfg)
  [(peer, wire, now); (peer, wire, now + 5)].

Definition decisions {A} (r : run (list hb_event * A)) :=
  match r with Ret (tr, _) => map ev_decision tr | Panic => [] end.

Definition cache_size (r : run (list hb_event * HeartbeatReplayCache)) :=
  match r with Ret (_, c) => Z.of_nat (size (entries c)) | Panic => -1 end.

Lemma heartbeat_never_accepted_twice_witness :
  exists d, decisions twice = [Accept; d] /\ d ≠ Accept.
Proof.
  assert (decisions twice = [Accept; IgnoreDuplicate]) as He by (vm_compute; reflexivity).
  exists IgnoreDuplicate. split; [exact He|]. unfold twice in He.
  destruct (hb_run cfg (HeartbeatReplayCache_new cfg) _) as [[tr c]|] eqn:E; [|discriminate He].
  pose proof (hb_run_inputs _ _ _ _ _ E) as Hin. apply hb_run_trace in E.
  destruct tr as [|[s0 d0 n0 a0] [|[s1 d1 n1 a1] [|]]]; try discriminate Hin.
  cbn in He. injection He as -> ->. injection Hin as -> -> -> -> -> ->.
  apply (heartbeat_never_accepted_twice cfg [] peer wire now [] (now + 5) IgnoreDuplicate c).
  - vm_compute. reflexivity.
  - vm_compute. repeat split; discriminate.
  - exact E.
  - vm_compute. split; discriminate.
  - vm_compute. split; discriminate.
  - constructor.
  - vm_compute. reflexivity.
Defined.

Lemma heartbeat_cache_wf_witness :
  exists c w, represents (K := HeartbeatReplayKey) c w /\ len w = 1.
Proof.
  assert (cache_size twice = 1) as He by (vm_compute; reflexivity). unfold twice in He.
  destruct (hb_run cfg (HeartbeatReplayCache_new cfg) _) as [[tr c]|] eqn:E; [|discriminate He].
  destruct (heartbeat_cache_wf cfg tr c (hb_run_trace _ _ _ _ _ E)) as (w & Hw & _ & Hs).
  exists c, w. split; [exact Hw|]. rewrite <- Hs. exact He.
Defined.
End HeartbeatWitness.

(** * Reputation *)
Module ReputationWitness.

Definition alice : PeerId := x01.
Definition bob : PeerId := x02.
Definition carol : PeerId := x03.
Definition cfg := ReputationConfig_default.
(** Room for two peers: the third update evicts the oldest. *)
Definition st0 := with_capacity cfg 2.
Definition st1 := accept st0 alice 10.
Definition st2 := penalize_invalid st1 bob 20.
Definition st3 := accept st2 carol 30.

Definition scores (st : ReputationStore) : list (option Z) :=
  (fun p => score <$> by_peer st !! p) <$> [alice; bob; carol].

Lemma steps2 : rtc rep_step st0 st2.
Proof.
  apply (rtc_l _ _ st1); [exact (step_accept st0 alice 10)|].
  apply (rtc_l _ _ st2); [exact (step_penalize st1 bob 20)|apply rtc_refl].
Qed.

Lemma bounded_witness : rep_wf st3 /\ max_peers st3 = 2 /\ scores st3 = [None; Some (-5); Some 1].
Proof.
  destruct (reputation_store_bounded_and_indexed cfg 2 st3) as (Hwf & Hm & _).
  - vm_compute. split; discriminate.
  - apply (rtc_r _ st2); [exact steps2|exact (step_accept st2 carol 30)].
  - split; [exact Hwf|]. split; [exact Hm|]. vm_compute. reflexivity.
Defined.

Lemma st2_wf : rep_wf st2.
Proof.
  exact (update_peer_wf st1 bob _ 20 (on_invalid_good _)
    (update_peer_wf st0 alice _ 10 (on_accept_good _) (with_capacity_wf cfg 2))).
Qed.

Lemma eviction_witness :
  exists e, by_peer st2 !! alice = Some e /\ by_peer st3 !! alice = None /\
    forall q e', by_peer st3 !! q = Some e' -> ord_leb (last_updated e, alice) (last_updated e', q) = true.
Proof.
  assert (score <$> by_peer st2 !! alice = Some 1) as Hs by (vm_compute; reflexivity).
  assert (score <$> by_peer st3 !! alice = None) as Hn by (vm_compute; reflexivity).
  destruct (by_peer st2 !! alice) as [e|] eqn:E; [|discriminate Hs]. exists e. split; [reflexivity|].
  assert (by_peer st3 !! alice = None) as Hnone by (by destruct (by_peer st3 !! alice)).
  split; [exact Hnone|].
  pose proof (reputation_eviction_oldest_first st2 carol (on_accept (accept_reward cfg)) 30 alice e st2_wf
    (on_accept_good _) ltac:(discriminate) E) as [_ Hold].
  exact (proj2 (proj2 (proj2 (Hold Hnone)))).
Defined.

Lemma decay_witness :
  by_peer (tick_decay st2 (elements (dom (by_peer st2))) (20 + 60 * NS_PER_SEC)) !! bob
  = by_peer st2 !! bob ≫= decayed st2 (20 + 60 * NS_PER_SEC).
Proof.
  refine (tick_decay_exact st2 (elements (dom (by_peer st2))) (20 + 60 * NS_PER_SEC) st2_wf _
    (Permutation_refl _) bob).
  vm_compute; split; discriminate.
Defined.
End ReputationWitness.

(** * Application messages *)
Module AppWitness.

Definition author : PeerId := x2a.
Definition entropy : list byte := replicate 32 x07.
Definition now : Z := 1000 * NS_PER_SEC.
Definition cfg := MessageSecurityConfig_default.
Definition payload : list byte := [x68; x69].
Definition topic : string := " chat/room-1 ".
Definition built := AppMessage_broadcast 7 topic author payload entropy now.

Definition msg : AppMessage :=
  match built with
  | Ok m => m
  | Err _ => {| msg_schema_version := 0; msg_network_id := 0; msg_topic := ""; msg_source_peer_id := "";
                msg_target_peer_id := None; msg_timestamp_ns := 0; msg_nonce_hex := ""; msg_payload := [] |}
  end.

Lemma built_ok : built = Ok msg.
Proof. vm_compute. reflexivity. Qed.

Lemma normalize_witness : normalize_app_topic "chat/room-1" = Ok "chat/room-1"%string.
Proof.
  apply (normalize_app_topic_canonical topic "chat/room-1"). vm_compute. reflexivity.
Defined.

Definition wire : list byte := match encode_app_message msg with Ok raw => raw | Err _ => [] end.

Lemma roundtrip_witness : decode_app_message wire = Ok msg.
Proof. apply (app_message_roundtrip msg wire). vm_compute. reflexivity. Defined.

Definition received : TopicHash := IdentTopic_hash "p2p-net/app/v2/net-7/chat/room-1".

Lemma bound_witness : msg_network_id msg = 7 /\ trim (msg_topic msg) = "chat/room-1"%string.
Proof.
  destruct (authenticated_envelope_is_bound msg author received 7 topic) as (_ & Hn & Ht).
  - vm_compute. split; discriminate.
  - vm_compute. split; discriminate.
  - vm_compute. reflexivity.
  - vm_compute. reflexivity.
  - split; [exact Hn|]. rewrite Ht. vm_compute. reflexivity.
Defined.

Definition run2 := app_run cfg (AppMessageReplayCache_new cfg) [(author, msg, now); (author, msg, now + 5)].

Lemma app_never_twice_witness :
  exists d, map aev_decision run2.1 = [AppAccept; d] /\ d ≠ AppAccept.
Proof.
  assert (map aev_decision run2.1 = [AppAccept; AppIgnoreDuplicate]) as He by (vm_compute; reflexivity).
  exists AppIgnoreDuplicate. split; [exact He|].
  pose proof (app_run_trace cfg (AppMessageReplayCache_new cfg) [(author, msg, now); (author, msg, now + 5)]) as Htr.
  pose proof (app_run_inputs cfg (AppMessageReplayCache_new cfg) [(author, msg, now); (author, msg, now + 5)]) as Hin.
  unfold run2 in He. destruct (app_run cfg (AppMessageReplayCache_new cfg) _) as [tr c]. cbn [fst snd] in *.
  destruct tr as [|[s0 m0 n0 d0] [|[s1 m1 n1 d1] [|]]]; try discriminate He.
  cbn in He, Hin. injection He as -> ->. injection Hin as -> -> -> -> -> ->.
  apply (app_message_never_accepted_twice cfg [] author msg msg now [] (now + 5) AppIgnoreDuplicate c).
  - vm_compute. reflexivity.
  - vm_compute. repeat split; discriminate.
  - reflexivity.
  - reflexivity.
  - exact Htr.
  - vm_compute. split; discriminate.
  - vm_compute. split; discriminate.
  - constructor.
  - vm_compute. reflexivity.
Defined.
End AppWitness.

(** * Fragmentation: a two-fragment message whose fragments arrive in reverse. *)
Module FragmentWitness.

Definition author : PeerId := x2a.
Definition payload : list byte := replicate (S frag_size) x5a.
Definition msg : AppMessage := {|
  msg_schema_version := 2; msg_network_id := 7; msg_topic := "chat"; msg_source_peer_id := "2a";
  msg_target_peer_id := None; msg_timestamp_ns := 5; msg_nonce_hex := "00"; msg_payload := payload |}.

Definition wires : list (list byte) := match fragment_message msg with Ok ws => ws | Err _ => [] end.
Definition wire (i : nat) : list byte := nth i wires [].
Definition st0 := AppFragmentReassembler_default.
Definition frag (i : nat) : option AppFragment := ok (decode_fragment (wire i)).

Definition sizes {A E} (r : result (list (list A)) E) : option nat := length <$> ok r.

Lemma wires_ok : fragment_message msg = Ok wires /\ wires = [wire 0; wire 1].
Proof.
  assert (sizes (fragment_message msg) = Some 2%nat) as Hs by (vm_compute; reflexivity).
  unfold wire, wires. destruct (fragment_message msg) as [ws|]; [|discriminate Hs].
  destruct ws as [|a [|b [|]]]; try discriminate Hs. done.
Qed.

Lemma msg_large : large msg.
Proof. unfold large. vm_compute. reflexivity. Qed.

Lemma fragmentation_roundtrip_witness :
  exists st', receive_all st0 author [(wire 1, 10, 10); (wire 0, 20, 20)]
    = Ret ([Ok None; Ok (Some msg)], st').
Proof.
  destruct wires_ok as [Hw Hl].
  destruct (fragmentation_roundtrip msg author st0 wires (wire 1) 10 10 [(wire 0, 20, 20)]) as (st' & _ & H).
  - exact Hw.
  - exact msg_large.
  - reflexivity.
  - apply default_wf.
  - rewrite Hl. apply Permutation_swap.
  - reflexivity.
  - constructor; [vm_compute; reflexivity|constructor].
  - vm_compute. discriminate.
  - vm_compute. discriminate.
  - exists st'. rewrite Hl in H. exact H.
Defined.

Definition piece (i : nat) : AppFragment :=
  make_fragment msg (blake3_hex payload) 2 (Z.of_nat i) (take frag_size (drop (i * frag_size) payload)).
Definition push1 := push st0 author (piece 1) 10 10.
Definition held (r : run push_result) : Z :=
  match r with Ret (_, st) => r_global_bytes st | Panic => -1 end.
Definition delivered (r : run push_result) : option string :=
  match r with Ret (Ok (Some m), _) => Some (msg_topic m) | _ => None end.

Lemma piece_valid : validate_fragment (piece 0) = Ok tt /\ validate_fragment (piece 1) = Ok tt.
Proof. split; vm_compute; reflexivity. Qed.

Lemma accounting_witness :
  exists st, rtc push_step AppFragmentReassembler_default st /\ r_global_bytes st = 1 /\
    exists r st', push st author (piece 0) 20 20 = Ret (r, st').
Proof.
  assert (held push1 = 1) as Hh by (vm_compute; reflexivity). unfold push1 in Hh.
  destruct (push st0 author (piece 1) 10 10) as [[r st]|] eqn:E; [|discriminate Hh].
  exists st. assert (rtc push_step AppFragmentReassembler_default st) as Hst.
  { apply (rtc_l _ _ st); [|apply rtc_refl]. apply (push_step_push st0 author (piece 1) 10 10 r st);
      [exact (proj2 piece_valid)|discriminate|exact E]. }
  split; [exact Hst|]. split; [exact Hh|].
  apply (reassembler_accounting_and_ceilings st author (piece 0) 20 20 Hst (proj1 piece_valid)).
  discriminate.
Defined.

Lemma second_push :
  exists st m st', reasm_wf st /\ push st author (piece 0) 20 20 = Ret (Ok (Some m), st').
Proof.
  destruct (push_wf st0 author (piece 1) 10 10 default_wf (proj2 piece_valid) ltac:(discriminate))
    as (r & st & E & Hwf & _).
  assert (match push1 with Ret (_, st) => delivered (push st author (piece 0) 20 20) | Panic => None end
    = Some "chat"%string) as Hd by (vm_compute; reflexivity).
  unfold push1 in Hd. rewrite E in Hd. exists st.
  destruct (push st author (piece 0) 20 20) as [[[[m|]|] st']|]; try discriminate Hd. eauto.
Qed.

Lemma intact_witness :
  exists st m st', push st author (piece 0) 20 20 = Ret (Ok (Some m), st') /\
    len (msg_payload m) = 16385 /\ msg_source_peer_id m = peer_to_string author.
Proof.
  destruct second_push as (st & m & st' & Hwf & E). exists st, m, st'. split; [exact E|].
  destruct (reassembled_message_is_intact st author (piece 0) 20 20 m st' Hwf (proj1 piece_valid)
    ltac:(discriminate) E) as (_ & Hs & _ & Hl & _).
  split; [|exact Hs]. rewrite Hl. vm_compute. reflexivity.
Defined.
End FragmentWitness.

(** * Metrics *)
Module MetricsWitness.

Definition peer : PeerId := x01.
Definition calls : list accounting :=
  [{| acc_sent := true; acc_peer := Some peer; acc_topic := Some "a"%string; acc_bytes := 10 |};
   {| acc_sent := false; acc_peer := Some peer; acc_topic := None; acc_bytes := 5 |};
   {| acc_sent := true; acc_peer := None; acc_topic := Some "a"%string; acc_bytes := u64_max |}].

Lemma bandwidth_witness :
  total_bytes_sent (account_all calls) = u64_max /\
  exists s, peer_stats (account_all calls) !! peer = Some s /\ peer_bytes_sent s = 10.
Proof.
  destruct (bandwidth_accounting_exact calls) as (Hs & _ & _ & _ & Hp & _).
  - repeat constructor; vm_compute; discriminate.
  - split; [rewrite Hs; vm_compute; reflexivity|].
    assert (peer_bytes_sent <$> peer_stats (account_all calls) !! peer = Some 10) as He
      by (vm_compute; reflexivity).
    destruct (peer_stats (account_all calls) !! peer) as [s|] eqn:E; [|discriminate He].
    exists s. split; [reflexivity|]. rewrite (proj1 (Hp peer s E)). vm_compute. reflexivity.
Defined.
End MetricsWitness.

Module BookWitness.

Definition alice : PeerId := x01.
Definition bob : PeerId := x02.
Definition carol : PeerId := x03.

(** Room for two records: a connected one, and the older of two disconnected
    ones has to go. *)
Definition b0 : PeerBook := with_max_records 2.
Definition b1 : PeerBook := record_connected b0 alice None 10.
Definition b2 : PeerBook := record_namespace b1 bob "app" DhtProvider 20.
Definition b3 : PeerBook := record_peer b2 carol Manual 30.

Definition known (b : PeerBook) : list bool := (fun p => bool_decide (is_Some (pb_peers b !! p))) <$> [alice; bob; carol].

Lemma steps : rtc book_step b0 b2.
Proof.
  apply (rtc_l _ _ b1); [exact (bs_connected b0 alice None 10 eq_refl)|].
  apply (rtc_l _ _ b2); [|apply rtc_refl].
  apply (bs_namespace b1 bob "app" DhtProvider 20). vm_compute. reflexivity.
Qed.

Lemma indexes_witness : book_idx b2 /\ book_bounded b2 /\ pb_connected_count b2 = 1.
Proof.
  destruct (peer_book_indexes_exact 2 b2 steps) as (Hi & Hb & _).
  split; [exact Hi|]. split; [exact Hb|]. vm_compute. reflexivity.
Defined.

Lemma b2_idx : book_idx b2.
Proof.
  apply mutate_peer_spec; [|by apply good_id_addrs|vm_compute; reflexivity].
  apply mutate_peer_spec; [apply with_max_records_idx|exact (good_connected None)|reflexivity].
Qed.

Lemma book_eviction_witness :
  known b3 = [true; false; true] /\
  exists r, pb_peers b2 !! bob = Some r /\ pb_peers b3 !! bob = None /\ pr_connected r = false.
Proof.
  assert (known b3 = [true; false; true]) as Hk by (vm_compute; reflexivity). split; [exact Hk|].
  assert (pr_last_seen_unix_secs <$> pb_peers b2 !! bob = Some (Some 20)) as Hs by (vm_compute; reflexivity).
  destruct (pb_peers b2 !! bob) as [r|] eqn:E; [|discriminate Hs]. injection Hs as Hs.
  assert (pb_peers b3 !! bob = None) as Hn.
  { assert ((bool_decide (is_Some (pb_peers b3 !! bob))) = false) as Hb by (vm_compute; reflexivity).
    destruct (pb_peers b3 !! bob); [|reflexivity]. exfalso. apply bool_decide_eq_false in Hb. apply Hb. eauto. }
  exists r. split; [reflexivity|]. split; [exact Hn|].
  destruct (peer_book_evicts_oldest_disconnected b2 carol (add_source Manual) 30 bob r 20 b2_idx) as [_ Hev].
  - by apply good_id_addrs.
  - vm_compute. reflexivity.
  - discriminate.
  - exact E.
  - exact Hs.
  - exact (proj1 (Hev Hn)).
Defined.
End BookWitness.

Module GossipWitness.

Definition author : PeerId := x2a.
Definition relay : PeerId := x05.
Definition me : PeerId := x10.
Definition entropy : list byte := replicate 32 x07.
Definition now : Z := 1000 * NS_PER_SEC.
Definition cfg := MessageSecurityConfig_default.

Definition c0 : SwarmEventContext := {|
  cx_rep := ReputationStore_new ReputationConfig_default;
  cx_replay_cache := HeartbeatReplayCache_new cfg;
  cx_app_replay_cache := AppMessageReplayCache_new cfg;
  cx_reassembler := AppFragmentReassembler_default;
  cx_peer_book := with_max_records 1;
  cx_unverified_relayed_peers := ∅;
  cx_metrics := NodeMetrics_default;
  cx_observability := ObservabilityBatch_default;
  cx_app_messages := []; cx_reports := [];
  cx_message_security := cfg; cx_network_id := 7; cx_local_peer := me;
  cx_application_namespaces := [] |}.

Lemma c0_wf : ctx_wf c0.
Proof.
  split.
  - apply with_capacity_wf.
  - split; [vm_compute; discriminate|]. exists []. split; [apply represents_empty|vm_compute; discriminate].
  - split; [vm_compute; discriminate|]. exists []. split; [apply represents_empty|vm_compute; discriminate].
  - apply default_wf.
  - split; [apply with_max_records_idx|]. left. vm_compute. discriminate.
Qed.

Definition msg : AppMessage := {|
  msg_schema_version := 2; msg_network_id := 7; msg_topic := "chat"; msg_source_peer_id := "2a";
  msg_target_peer_id := None; msg_timestamp_ns := now;
  msg_nonce_hex := "0707070707070707070707070707070707070707070707070707070707070707";
  msg_payload := [x68; x69] |}.

Definition wire : list byte := match encode_app_message msg with Ok w => w | Err _ => [] end.
Definition topic : TopicHash := IdentTopic_hash "p2p-net/app/v2/net-7/chat".
Definition hb_topic : TopicHash := IdentTopic_hash "heartbeat".
Definition clk (t : Z) : Clock := {| unix_ns := now + t; unix_secs := 1000; instant := t; expire_instant := t; created_instant := t |}.
Definition gm (i : byte) : GossipMessage := {|
  gm_propagation_source := relay; gm_source := Some author; gm_id := [i]; gm_topic := topic; gm_data := wire |}.

(** The same envelope arrives twice under two gossip ids. *)
Definition r1 := handle_gossip_message hb_topic [topic] (clk 0) (gm x01) c0.
Definition step (r : run SwarmEventContext) (k : Clock) (m : GossipMessage) : run SwarmEventContext :=
  let! c := r in handle_gossip_message hb_topic [topic] k m c.
Definition r2 := step r1 (clk 5) (gm x02).

Definition verdicts (r : run SwarmEventContext) : list MessageAcceptance :=
  match r with Ret c => map snd (cx_reports c) | Panic => [] end.
Definition delivered (r : run SwarmEventContext) : list Z :=
  match r with Ret c => map msg_timestamp_ns (cx_app_messages c) | Panic => [] end.
Definition book_len (r : run SwarmEventContext) : Z :=
  match r with Ret c => pb_len (cx_peer_book c) | Panic => -1 end.

Lemma two_trace : exists c1 c2, r1 = Ret c1 /\ r2 = Ret c2 /\
  gossip_trace hb_topic [topic] c0 [(clk 0, gm x01); (clk 5, gm x02)] c2.
Proof.
  assert (verdicts r2 = [MA_Accept; MA_Ignore] /\ book_len r1 = 0) as [Hv Hb] by (split; vm_compute; reflexivity).
  unfold r2, step in *. unfold r1 in *.
  destruct (handle_gossip_message hb_topic [topic] (clk 0) (gm x01) c0) as [c1|] eqn:E1; [|discriminate Hv].
  cbn [run_bind] in *.
  destruct (handle_gossip_message hb_topic [topic] (clk 5) (gm x02) c1) as [c2|] eqn:E2; [|discriminate Hv].
  exists c1, c2. split; [reflexivity|]. split; [reflexivity|].
  destruct (handle_gossip_spec hb_topic [topic] (clk 0) (gm x01) c0 c0_wf) as (c1' & a & E1' & _ & Hcfg & _).
  { vm_compute. reflexivity. }
  rewrite E1 in E1'. injection E1' as <-. destruct Hcfg as (_ & _ & _ & Hns).
  econstructor; [vm_compute; reflexivity|exact E1|]. econstructor; [|exact E2|constructor].
  unfold room. rewrite Hns. cbn in Hb. rewrite Hb. vm_compute. reflexivity.
Qed.

Lemma total_witness :
  exists c2, gossip_trace hb_topic [topic] c0 [(clk 0, gm x01); (clk 5, gm x02)] c2 /\ ctx_wf c2.
Proof.
  destruct two_trace as (c1 & c2 & _ & E2 & Htr). exists c2. split; [exact Htr|].
  assert (book_len r2 = 0) as Hb by (vm_compute; reflexivity). rewrite E2 in Hb. cbn in Hb.
  refine (proj1 (gossip_handlers_total_and_report_once hb_topic [topic] c0 _ c2 (clk 9) (gm x03) c0_wf Htr _)).
  assert (cx_application_namespaces c2 = []) as Hns.
  { assert (match r2 with Ret c => length (cx_application_namespaces c) | Panic => 1%nat end = 0%nat) as Hl
      by (vm_compute; reflexivity).
    rewrite E2 in Hl. destruct (cx_application_namespaces c2); [reflexivity|discriminate Hl]. }
  unfold room. rewrite Hns, Hb. reflexivity.
Defined.

Lemma authentic_witness :
  exists c1 m, handle_gossip_message hb_topic [topic] (clk 0) (gm x01) c0 = Ret c1 /\
    cx_app_messages c1 = [m] /\ peer_parse (msg_source_peer_id m) = Ok author.
Proof.
  assert (delivered r1 = [now]) as Hd by (vm_compute; reflexivity). unfold r1 in Hd.
  destruct (handle_gossip_message hb_topic [topic] (clk 0) (gm x01) c0) as [c1|] eqn:E1; [|discriminate Hd].
  cbn in Hd. destruct (cx_app_messages c1) as [|m [|]] eqn:Em; try discriminate Hd.
  exists c1, m. split; [reflexivity|]. split; [exact Em|].
  destruct (delivered_message_is_authentic hb_topic [topic] (clk 0) (gm x01) c0 c1 m c0_wf) as (a & Ha & _ & Hp & _).
  - vm_compute. reflexivity.
  - exact E1.
  - exact Em.
  - injection Ha as <-. exact Hp.
Defined.

Lemma at_most_once_witness :
  exists c2, r2 = Ret c2 /\ delivered r2 = [now] /\ NoDup (delivery_key <$> cx_app_messages c2).
Proof.
  destruct two_trace as (c1 & c2 & _ & E2 & Htr). exists c2. split; [exact E2|].
  split; [vm_compute; reflexivity|].
  apply (application_delivery_at_most_once hb_topic [topic] c0 [(clk 0, gm x01); (clk 5, gm x02)] c2 c0_wf).
  - vm_compute. reflexivity.
  - vm_compute. repeat split; discriminate.
  - reflexivity.
  - reflexivity.
  - exact Htr.
  - repeat constructor; vm_compute; discriminate.
  - repeat constructor; vm_compute; discriminate.
  - vm_compute. discriminate.
Defined.

Lemma heartbeat_limit_witness :
  pb_max_records (cx_peer_book c0) = 1 /\
  3 <= pb_len (cx_peer_book (foldl (fun c p => record_heartbeat_peer (clk 0) p c) c0 [x01; x02; x03])).
Proof.
  split; [reflexivity|].
  refine (proj2 (heartbeat_authors_exceed_record_limit (clk 0) [x01; x02; x03] c0 c0_wf _ _)).
  - repeat constructor; set_solver.
  - vm_compute. reflexivity.
Defined.

(** The second of two fragments completes the message. *)
Definition frag_wire : list byte := FragmentWitness.wire 0.

Lemma frag_wire_decodes :
  is_ok (decode_app_message frag_wire) = false /\ decode_fragment frag_wire = Ok (FragmentWitness.piece 0).
Proof. split; vm_compute; reflexivity. Qed.

Lemma counted_twice_witness :
  exists c c', total_bytes_received (bandwidth (cx_metrics c)) = 0 /\
    handle_app_message (clk 20) relay (Some author) [x01] topic frag_wire c = Ret c' /\
    total_bytes_received (bandwidth (cx_metrics c')) = 2 * (len frag_wire + 64).
Proof.
  destruct FragmentWitness.second_push as (st & m & st' & _ & Hp).
  destruct frag_wire_decodes as [Hd Hf].
  destruct (decode_app_message frag_wire) as [|err] eqn:Ed; [discriminate Hd|].
  exists (set_reassembler st c0).
  destruct (completing_fragment_counted_twice (clk 20) relay author [x01] topic frag_wire (set_reassembler st c0)
    err (FragmentWitness.piece 0) m st' Ed Hf) as (c' & Hc' & Htot).
  - reflexivity.
  - vm_compute. reflexivity.
  - vm_compute. reflexivity.
  - exact Hp.
  - exists c'. split; [reflexivity|]. split; [exact Hc'|]. rewrite Htot. vm_compute. reflexivity.
Defined.
End GossipWitness.
