(* ===== verification/WitnessesRelay.v ===== *)
(** Witnesses of the relay components. *)

From S2P Require Import Prelude Bytes Text Common Observability Relay RelayFacts RelayLimiter.
From S2P Require Import RelayMetering RelayBehaviour RelayServer.
From S2P Require Import RelayServer Instances.
Import Demo.

#[local] Open Scope Z_scope.

Module RelayWitness.

Definition relay : PeerId := x01.
Definition alice : PeerId := x02.
Definition bob : PeerId := x03.

Definition relay_addr : Multiaddr := [Ip4 (Build_Ipv4Addr 10 0 0 1); Tcp 4001; P2p relay].
Definition reservation : Multiaddr := [Ip4 (Build_Ipv4Addr 10 0 0 1); Tcp 4001; P2p relay; P2pCircuit].

Lemma route_witness :
  relay_dial_addr_for_peer reservation alice = Some (reservation ++ [P2p alice]) /\
  relay_peer_id (reservation ++ [P2p alice]) = Some relay /\
  relay_dial_addr_for_peer (reservation ++ [P2p alice]) bob = None.
Proof.
  destruct (relay_route_targets_peer_through_relay reservation alice) as [H _].
  destruct H as (_ & _ & Hr & _ & Ho). split; [reflexivity|]. split; [exact Hr|]. apply Ho. discriminate.
Defined.

(** Thursdays from 22:00 to 02:00 of the next day. *)
Definition night : RelaySchedule :=
  {| sched_enabled := true; windows := [{| days := ["Thu "]; start := "22:00"; end_ := "02:00" |}] |}.

(** Friday 1970-01-02, 00:30 UTC. *)
Definition friday : Z := 86400 + 30 * 60.

Lemma schedule_witness :
  is_open_now_utc (Some friday) night = true /\ sched_enabled night = true /\
  exists w, w ∈ windows night /\ window_covers w (minute_of_week friday).
Proof.
  split; [reflexivity|]. split; [reflexivity|].
  destruct (schedule_open_iff_in_window night (Some friday)) as [H _].
  { intros secs [= <-]. unfold friday. lia. }
  destruct (H eq_refl) as [He|(secs & w & [= <-] & Hw & Hc)]; [discriminate He|]. exists w. split; [exact Hw|exact Hc].
Defined.

Lemma opens_witness : exists secs, 0 <= secs < 7 * 86400 /\ is_open_now_utc (Some secs) night = true.
Proof.
  destruct (validated_schedule_opens_every_week night 0) as (secs & Hs & Ho); [reflexivity|discriminate|lia|].
  exists secs. split; [lia|exact Ho].
Defined.

Definition trusted : RelayServiceConfig := {|
  enabled := true; access := AllowList; allow_peers := [peer_to_string alice]; deny_peers := [];
  max_reservations := 64; max_reservations_per_peer := 8; reservation_duration_secs := 3600;
  max_circuits := 128; max_circuits_per_peer := 4; max_circuit_duration_secs := 120; max_circuit_bytes := 1000;
  reservation_rate_per_peer_per_min := 4; reservation_rate_per_ip_per_min := 16;
  circuit_rate_per_peer_per_min := 16; circuit_rate_per_ip_per_min := 64; schedule := night |}.

Definition mediator : MediatorConfig := {|
  md_enabled := true; advertise_for_dcutr := true; allow_reservations := true; allow_circuits := true;
  require_authenticated_peers := true; max_mediated_peers := 64; md_max_reservations := 4; md_max_circuits := 16 |}.

Lemma trusted_witness :
  allows_peer (apply_to_relay mediator trusted) alice = true /\ allows_peer (apply_to_relay mediator trusted) bob = false.
Proof.
  destruct (authenticated_mediator_serves_trusted_peers_only mediator trusted) as [_ H]; [reflexivity..|].
  split; [|reflexivity]. apply H. assert (Ea : allowed_peer_ids trusted = [alice]) by reflexivity.
  assert (Ed : denied_peer_ids trusted = []) by reflexivity. rewrite Ea, Ed. split; [left|].
  intros Hin. inversion Hin.
Defined.

(** Eight reservations for a peer, four in all. *)
Lemma limits_witness :
  RelayServiceConfig_validate trusted = Ok tt /\ MediatorConfig_validate mediator trusted = Ok tt /\
  RelayServiceConfig_validate (apply_to_relay mediator trusted) ≠ Ok tt.
Proof.
  split; [reflexivity|]. split; [reflexivity|].
  destruct (mediated_relay_limits mediator trusted) as (_ & _ & _ & _ & H); [reflexivity..|cbn; lia|cbn; lia|cbn; lia|cbn; lia|cbn; lia|cbn; lia|cbn; lia|].
  intros Hv. apply H in Hv. cbn in Hv. lia.
Defined.

Definition burst : list (Z * Z) := [(7, 0); (7, 0); (7, 0); (7, 1000)].

Lemma limiter_witness :
  exists l bs l', rl_new (Id := Z) 2 1000 = Ret l /\ try_all l burst = Ret (bs, l') /\
    bs = [true; true; false; true] /\ admitted 7 burst bs <= 2 + 1000 / (1000 * 1).
Proof.
  destruct (rate_limiter_admission (Id := Z) 2 1 0 0 1000 [] burst 7) as (l & bs1 & bs2 & l' & Hn & Ht & Hl1 & _ & Ha & _).
  - vm_compute. split; discriminate.
  - lia.
  - repeat (constructor; cbn; try lia).
  - repeat (constructor; cbn; try lia).
  - lia.
  - destruct bs1; [|discriminate Hl1]. cbn in Ht. exists l, bs2, l'. split; [exact Hn|].
    split; [exact Ht|]. split; [|exact Ha].
    vm_compute in Hn. injection Hn as <-. vm_compute in Ht. injection Ht as <- _. reflexivity.
Defined.

(** Ten requests at once, and then one every minute: with a configured rate of
    four per minute, the peer is admitted 4 times at once and once a minute. *)
Definition requests : list (PeerId * Z) :=
  [(alice, 0); (alice, 0); (alice, 0); (alice, 0); (alice, 0); (alice, from_secs 60); (alice, from_secs 60)].

Lemma burst_witness :
  exists cfg l rest bs l', to_libp2p_config trusted = Ret cfg /\ rc_reservation_rate_limiters cfg = PerPeer l :: rest /\
    try_all l requests = Ret (bs, l') /\ admitted alice requests bs <= 4 + 1.
Proof.
  apply (reservation_rate_per_minute_is_a_burst trusted alice requests 0 1).
  - vm_compute. split; discriminate.
  - lia.
  - repeat (constructor; cbn; try (unfold from_secs; lia)).
  - repeat (constructor; cbn; try (unfold from_secs; lia)).
Defined.

(** A circuit is accepted, forwards 900 and 300 bytes, and closes twice. *)
Definition s1 : metered := {|
  mt_counters := usage_new ∅ 5; mt_meter := (open RelayMeter_default (usage_new ∅ 5) 0 alice bob 5 10).2;
  mt_forwarded := CircuitBytes_default |}.
Definition s2 : metered := {|
  mt_counters := record_bytes true (mt_counters s1) 5 900; mt_meter := mt_meter s1;
  mt_forwarded := {| src_to_dst := 900; dst_to_src := 0 |} |}.
Definition s3 : metered := {|
  mt_counters := record_bytes false (mt_counters s2) 5 300; mt_meter := mt_meter s1;
  mt_forwarded := {| src_to_dst := 900; dst_to_src := 300 |} |}.
Definition s4 : metered := {|
  mt_counters := mt_counters s3;
  mt_meter := (close (mt_meter s3) 0 alice bob (usage_snapshot (mt_counters s3) 5) None 20).2;
  mt_forwarded := mt_forwarded s3 |}.
Definition s5 : metered := {|
  mt_counters := mt_counters s4;
  mt_meter := (close (mt_meter s4) 0 alice bob CircuitBytes_default None 30).2;
  mt_forwarded := mt_forwarded s4 |}.

Lemma metered_run : rtc metered_step metered_init s5.
Proof.
  assert (Ha : exists a, active (mt_meter s1) !! 0 = Some a /\ ac_usage a = 5) by (eexists; split; reflexivity).
  destruct Ha as (a & Ha & Hu).
  apply (rtc_l _ _ s1); [exact (step_accept metered_init 0 alice bob 5 10 eq_refl eq_refl)|].
  apply (rtc_l _ _ s2).
  { pose proof (step_forward s1 0 a true 900 Ha ltac:(lia)) as H. rewrite Hu in H. exact H. }
  apply (rtc_l _ _ s3).
  { pose proof (step_forward s2 0 a false 300 Ha ltac:(lia)) as H. rewrite Hu in H. exact H. }
  apply (rtc_l _ _ s4).
  { pose proof (step_close s3 0 a alice bob None 20 Ha) as H. rewrite Hu in H. exact H. }
  apply (rtc_l _ _ s5); [|apply rtc_refl].
  exact (step_close_again s4 0 alice bob None 30 eq_refl).
Qed.

Lemma meter_witness :
  src_to_dst (totals (mt_meter s5) (mt_counters s5)) = 900 /\ dst_to_src (totals (mt_meter s5) (mt_counters s5)) = 300.
Proof. destruct (relay_meter_totals_exact s5 metered_run) as [H1 H2]. split; [exact H1|exact H2]. Defined.
End RelayWitness.

Module ServerWitness.
Import RelayWitness.

Definition cfg : RelayConfig := {|
  rc_max_reservations := 8; rc_max_reservations_per_peer := 1; rc_reservation_duration := from_secs 3600;
  rc_reservation_rate_limiters := []; rc_max_circuits := 8; rc_max_circuits_per_peer := 1;
  rc_max_circuit_duration := from_secs 120; rc_max_circuit_bytes := 1000; rc_circuit_src_rate_limiters := [] |}.

Definition anywhere : Multiaddr := [].

Definition get (r : run Behaviour) : Behaviour := match r with Ret b => b | Panic => Behaviour_new relay cfg [] end.
Definition event (b : Behaviour) (p : PeerId) (conn : Z) (e : HandlerEvent) : Behaviour :=
  get (on_connection_handler_event ∅ 0 b p conn e).

(** Bob reserves; Alice, on connection 1, opens a circuit to him. *)
Definition b0 : Behaviour := Behaviour_new relay cfg [relay_addr].
Definition b1 : Behaviour := on_connection_established b0 alice 1.
Definition b2 : Behaviour := on_connection_established b1 bob 2.
Definition b3 : Behaviour := event b2 bob 2 (HReservationReqReceived anywhere false false).
Definition b4 : Behaviour := event b3 alice 1 (HCircuitReqReceived bob anywhere false).
Definition b5 : Behaviour := event b4 alice 1 (HCircuitReqAccepted bob 0 5).

Lemma ret_get (r : run Behaviour) : match r with Ret _ => true | Panic => false end = true -> r = Ret (get r).
Proof. by destruct r. Qed.

Lemma behaviour_run : rtc behaviour_step b0 b5.
Proof.
  apply (rtc_l _ _ b1); [apply step_established|]. apply (rtc_l _ _ b2); [apply step_established|].
  apply (rtc_l _ _ b3).
  { apply (step_handler ∅ 0 _ _ bob 2 (HReservationReqReceived anywhere false false)). apply ret_get. vm_compute. reflexivity. }
  apply (rtc_l _ _ b4).
  { apply (step_handler ∅ 0 _ _ alice 1 (HCircuitReqReceived bob anywhere false)). apply ret_get. vm_compute. reflexivity. }
  apply (rtc_l _ _ b5); [|apply rtc_refl].
  apply (step_handler ∅ 0 _ _ alice 1 (HCircuitReqAccepted bob 0 5)). apply ret_get. vm_compute. reflexivity.
Qed.

Lemma circuits_bounded_witness : tracker_len (b_circuits b5) <= 8 /\ circuits_from (b_circuits b5) alice <= 1 + 1.
Proof.
  destruct (relay_circuits_bounded cfg relay [relay_addr] b5) as [H1 H2]; [cbn; lia|cbn; lia|exact behaviour_run|].
  split; [exact H1|apply H2].
Defined.

(** Alice has the one circuit she may have, and is given a second one. *)
Lemma off_by_one_witness :
  num_circuits_of_peer (b_circuits b5) alice = 1 /\
  exists b', on_circuit_request b5 alice 1 bob anywhere false 0 = Ret b' /\
    num_circuits_of_peer (b_circuits b') alice = rc_max_circuits_per_peer (b_config b') + 1.
Proof.
  split; [vm_compute; reflexivity|].
  apply (circuits_per_peer_limit_off_by_one b5 alice bob 1 2 anywhere 0 []); [..|reflexivity|].
  - vm_compute; reflexivity.
  - vm_compute; reflexivity.
  - reflexivity.
  - vm_compute; reflexivity.
Defined.

Definition counters : gmap Z CircuitBytes := record_src_to_dst (usage_new ∅ 5) 5 900.

Lemma twice_witness :
  exists acts b2', b_queued_actions (on_connection_closed counters b5 bob 2) = b_queued_actions b5 ++ acts /\
    GenerateEvent (EvCircuitClosed alice bob 0 {| src_to_dst := 900; dst_to_src := 0 |} (Some connection_aborted)) ∈ acts /\
    b_queued_actions b2' = b_queued_actions (on_connection_closed counters b5 bob 2) ++
      [GenerateEvent (EvCircuitClosed alice bob 0 CircuitBytes_default None)].
Proof.
  assert (Hc : exists c, circuits (b_circuits b5) !! 0 = Some c /\ c_status c = Accepted 5 /\
    c_src_peer_id c = alice /\ c_dst_peer_id c = bob /\ c_dst_connection_id c = 2)
    by (eexists; split; [reflexivity|]; repeat split).
  destruct Hc as (c & Hc & Hs & Ha & Hb & Hd).
  destruct (circuit_close_reported_twice counters counters b5 RelayMeter_default 0 0 0 0 c 5 None Hc Hs)
    as (acts & b2' & H1 & H2 & _ & H4 & _).
  rewrite Ha, Hb, Hd in *. exists acts, b2'. split; [exact H1|]. split; [exact H2|exact H4].
Defined.

(** Bob renews his reservation as its timer fires. *)
Definition handler : Handler := {| h_request_future := Some FutAccepting; h_active_reservation := Some 100 |}.

Lemma panic_witness :
  exists e1 hd1 b' e2 hd2,
    poll_reservation (from_secs 3600) 100 handler None = (Some e1, hd1) /\
    on_connection_handler_event ∅ 100 b3 bob 2 e1 = Ret b' /\
    poll_reservation (from_secs 3600) 101 hd1 (Some (Ok tt)) = (Some e2, hd2) /\
    on_connection_handler_event ∅ 101 b' bob 2 e2 = Panic.
Proof.
  apply (renewal_at_expiry_panics ∅ b3 bob 2 100 101 (from_secs 3600) 100 handler ReservationActive).
  - vm_compute. reflexivity.
  - reflexivity.
  - reflexivity.
  - lia.
Defined.

Definition quiet : ServerCounts := {|
  accepted_reservations := 1; accepted_reservations_total := 1; sc_active_circuits := 0; denied_reservations := 0;
  denied_circuits := 0; rate_limited_events := 0; at_capacity_events := 0; server_errors := 0 |}.
Definition state0 : ServerState := {|
  server_enabled := true; health := HealthEnabled; counts := quiet; relay_bytes_forwarded := 0;
  relay_bytes_src_to_dst := 0; relay_bytes_dst_to_src := 0; relay_meter := RelayMeter_default |}.
Definition sv0 : Server := {| sv_state := state0; sv_snapshot := apply_relay_state state0 ∅; sv_pulses := []; sv_events := [] |}.

(** Thursday noon is outside the night's window. *)
Definition noon : Z := 12 * 3600.

Lemma refused_witness :
  (enforce_relay_schedule trusted (Some noon) [alice; bob] sv0).1 = [alice; bob] /\
  exists sv', refuse_by_schedule trusted (Some noon) ∅ alice sv0 = Some sv' /\
    (enforce_relay_schedule trusted (Some noon) [alice; bob] sv').1 = [].
Proof.
  destruct (refused_connection_cancels_schedule_disconnect trusted (Some noon) ∅ [alice; bob] alice sv0)
    as [H1 (sv' & H2 & H3)]; [reflexivity..|].
  split; [exact H1|]. exists sv'. split; [exact H2|].
  specialize (H3 [(Some noon, [alice; bob])] ltac:(by repeat constructor)). cbn [schedule_ticks] in H3.
  destruct (enforce_relay_schedule trusted (Some noon) [alice; bob] sv') as [d s]. inversion H3 as [|x l Hd]. exact Hd.
Defined.

(** Alice's connection holds no reservation. *)
Lemma plain_close_witness :
  reservations (on_connection_closed ∅ b3 alice 1) = 1 /\
  accepted_reservations (counts (sv_state (handle_event (fun _ => "") ∅ 0 (EvReservationClosed alice) sv0))) = 0.
Proof.
  destruct (plain_connection_close_drops_reservation_count (fun _ => "") ∅ ∅ b3 alice 1 0 {[1 := ReservationNone]} sv0)
    as (H1 & _ & H3).
  - vm_compute. reflexivity.
  - reflexivity.
  - cbn. lia.
  - split; [rewrite H1; vm_compute; reflexivity|rewrite H3; reflexivity].
Defined.
End ServerWitness.
