(* ===== verification/WitnessesNet.v ===== *)
(** Witnesses of the connectivity components. *)

From S2P Require Import Prelude Bytes BTree Text Common Observability Relay RelayLimiter Addresses.
From S2P Require Import Connections Storage RelayClient.
From S2P Require Import AppMessage Metrics PeerCache PeerCacheFacts PeerBook ConnectionStrategy.
From S2P Require Import Namespace Instances.
From Stdlib Require Import Strings.Byte Ascii.
Import Demo.

#[local] Open Scope Z_scope.

Module NetWitness.

Definition relay : PeerId := x01.
Definition alice : PeerId := x02.
Definition bob : PeerId := x03.

Definition host (d : Z) : Multiaddr := [Ip4 (Build_Ipv4Addr 198 51 100 d); Tcp 4001].

(** * The per-IP cap: two connections of one host, one may stay *)
Definition one_per_ip : ConnectionLimitsConfig := {|
  cl_enabled := true; max_pending_incoming := None; max_pending_outgoing := None; max_established_incoming := None;
  max_established_outgoing := None; max_established := None; max_established_per_peer := None;
  max_established_per_ip := Some 1 |}.

Definition cap0 : capped := {| cp_state := ConnectionCapState_new one_per_ip; cp_kept := ∅ |}.
Definition cap1 : capped := {| cp_state := (record_established (cp_state cap0) 1 alice (host 7) true).2; cp_kept := {[1]} ∪ ∅ |}.
Definition cap2 : capped := {| cp_state := (record_established (cp_state cap1) 2 bob (host 7) false).2; cp_kept := {[1]} ∪ ∅ |}.

Lemma cap_run : rtc cap_step cap0 cap2.
Proof.
  apply (rtc_l _ _ cap1).
  { refine (cap_established cap0 1 alice (host 7) true false _ _ _ _ _); [reflexivity|set_solver|reflexivity|reflexivity]. }
  apply (rtc_l _ _ cap2); [|apply rtc_refl].
  refine (cap_established cap1 2 bob (host 7) false true _ _ _ _ _); [reflexivity|set_solver|reflexivity|reflexivity].
Qed.

Lemma cap_witness : count_for_ip (cp_state cap2) "198.51.100.7" = 2 /\ kept_from cap2 "198.51.100.7" <= 1.
Proof.
  destruct (per_ip_cap_enforced one_per_ip cap2 eq_refl cap_run) with (ip := "198.51.100.7") as [_ H].
  - intros limit [= <-]. lia.
  - split; [reflexivity|]. exact (H 1 eq_refl).
Defined.

(** * A direct path replaces the relayed one *)
Definition webrtc : Multiaddr := [WebRTC; P2p alice].
Definition up1 : upgrading := {|
  up_ctx := upgrade_on_established (up_ctx upgrading_init) alice 1 (host 7) true true;
  up_open := <[1 := (alice, true)]> (up_open upgrading_init) |}.
Definition up2 : upgrading := {|
  up_ctx := upgrade_on_established (up_ctx up1) alice 2 webrtc false true; up_open := <[2 := (alice, false)]> (up_open up1) |}.

Lemma upgrade_run : rtc upgrade_step upgrading_init up2.
Proof.
  apply (rtc_l _ _ up1); [refine (up_established _ alice 1 (host 7) true true _ _); [reflexivity|intros H; inversion H]|].
  apply (rtc_l _ _ up2); [|apply rtc_refl].
  refine (up_established _ alice 2 webrtc false true _ _); [reflexivity|intros H; inversion H].
Qed.

Lemma migration_witness :
  ux_closed (upgrade_on_identify (up_ctx up2) alice 2) = [1] /\ up_open up2 !! 1 = Some (alice, true).
Proof.
  destruct (migration_only_to_confirmed_direct_path up2 alice 2 false upgrade_run eq_refl) as (_ & replaced & H1 & H2).
  assert (E : ux_closed (upgrade_on_identify (up_ctx up2) alice 2) = [1]) by reflexivity.
  split; [exact E|]. rewrite E in H1. cbn in H1. rewrite <- H1 in H2.
  destruct H2 as (_ & H2 & _); [discriminate|]. by inversion H2.
Defined.

(** * Public addresses *)
Lemma public_witness :
  ensure_public (V4 (Build_Ipv4Addr 8 8 8 8)) "8.8.8.8" = Ok tt /\ valid_v4 (Build_Ipv4Addr 8 8 8 8).
Proof.
  assert (Hv : valid_v4 (Build_Ipv4Addr 8 8 8 8)) by (unfold valid_v4, octet; cbn; lia).
  destruct (public_ip_iff_outside_blocks (V4 (Build_Ipv4Addr 8 8 8 8)) "8.8.8.8" Hv) as [_ H].
  split; [|exact Hv]. apply H. reflexivity.
Defined.

(** * A relay listener closes and its reservation is requested again *)
Definition reservation : Multiaddr := [Ip4 (Build_Ipv4Addr 198 51 100 1); Tcp 4001; P2p relay; P2pCircuit].
Definition env : ClientEnv := {| env_windows := false; env_empty := []; env_local := alice |}.
Definition rq0 : requesting := requesting_init 0.
Definition rq1 : requesting := {|
  rq_client := upd_reservation_retries (fun r => RelayClient.track r 1 reservation) (note_requested_reservation (rq_client rq0) reservation);
  rq_requested := [reservation]; rq_dropped := []; rq_closes := rq_closes rq0; rq_now := 0 |}.
Definition ctx1 : ClientCtx := {|
  cx_client := rq_client rq1; cx_external := ExternalAddressCandidates_new;
  cx_snapshot := {| sn_public_addr := None; sn_client_reservations := 0; sn_client_reservation_attempts := 0;
    sn_client_reservation_failures := 0; sn_relayed_listen_addresses := []; sn_private_relayed_listen_addresses := [] |};
  cx_pulses := [] |}.
Definition rq2 : requesting := {|
  rq_client := cx_client (handle_listener_closed 1 10 None ctx1); rq_requested := [reservation]; rq_dropped := [];
  rq_closes := match rr_listeners (reservation_retries (rq_client rq1)) !! 1 with
               | Some addr => fun a => if decide (a = addr) then rq_closes rq1 a + 1 else rq_closes rq1 a
               | None => rq_closes rq1
               end;
  rq_now := 10 |}.

Lemma retry_run : rtc (client_step env) rq0 rq2.
Proof.
  apply (rtc_l _ _ rq1); [refine (cs_request env rq0 1 reservation _); reflexivity|].
  apply (rtc_l _ _ rq2); [|apply rtc_refl]. refine (cs_closed env rq1 ctx1 1 None 10 _ _); [cbn; lia|reflexivity].
Qed.

Lemma retry_witness :
  rr_due (reservation_retries (rq_client rq2)) = [(10 + from_secs 5, reservation)] /\
  (take_due (reservation_retries (rq_client rq2)) (10 + from_secs 120)).1 = [reservation].
Proof.
  destruct (no_reservation_forgotten env 0 rq2 retry_run) as (_ & H & _).
  assert (E : rr_due (reservation_retries (rq_client rq2)) = [(10 + from_secs 5, reservation)]) by reflexivity.
  split; [exact E|]. rewrite E in H. exact H.
Defined.

(** * Two processes create the identity key at once *)
#[local] Instance demo_keypair : KeypairLib := {| Keypair := list byte; keypair_to_protobuf k := Ok k; keypair_from_protobuf := Ok |}.
#[local] Instance demo_keypair_laws : KeypairLaws demo_keypair.
Proof. split. by intros k bs [= <-]. Qed.

Definition no_text (_ : list byte) : string := "".
Definition ram : MemoryNodeStorage := {| mem_entries := ∅; mem_poisoned := false |}.
Definition kA : Keypair := [x07].
Definition kB : Keypair := [x08].
Definition race (s : MemoryNodeStorage) (a b : Loader) : creators := {| cr_storage := s; cr_loaders := [(kA, a); (kB, b)] |}.
Definition created : MemoryNodeStorage := (persist_identity_key_if_absent "id" ram kA).2.

Lemma race_run : rtc (creators_step no_text "id") (race ram Starting Starting) (race created (Loaded (Ok kA)) (Loaded (Ok kA))).
Proof.
  apply (rtc_l _ _ (race ram Creating Starting)); [exact (creator_step no_text "id" (race ram Starting Starting) 0 kA Starting _ _ eq_refl eq_refl)|].
  apply (rtc_l _ _ (race ram Creating Creating)); [exact (creator_step no_text "id" (race ram Creating Starting) 1 kB Starting _ _ eq_refl eq_refl)|].
  apply (rtc_l _ _ (race created (Loaded (Ok kA)) Creating)); [exact (creator_step no_text "id" (race ram Creating Creating) 0 kA Creating _ _ eq_refl eq_refl)|].
  apply (rtc_l _ _ (race created (Loaded (Ok kA)) Reloading)); [exact (creator_step no_text "id" (race created (Loaded (Ok kA)) Creating) 1 kB Creating _ _ eq_refl eq_refl)|].
  apply (rtc_l _ _ (race created (Loaded (Ok kA)) (Loaded (Ok kA)))); [|apply rtc_refl].
  exact (creator_step no_text "id" (race created (Loaded (Ok kA)) Reloading) 1 kB Reloading _ _ eq_refl eq_refl).
Qed.

Lemma race_witness : exists winner, winner ∈ [kA; kB] /\ @Ok Keypair NetError kA = Ok winner.
Proof.
  destruct (identity_race_converges (SL := memory_storage_laws) no_text "id" ram [kA; kB] (race created (Loaded (Ok kA)) (Loaded (Ok kA))) ltac:(cbn; reflexivity)
    ltac:(repeat constructor) race_run 0%nat 1%nat kA kB (Ok kA) (Ok kA) eq_refl eq_refl) as (_ & _ & H).
  apply H. reflexivity.
Defined.

(** * A write reaches the journal *)
Definition br0 : browser := {| br_storage := bs_open ∅; br_flush := None |}.
Definition br1 : browser := {| br_storage := (bs_write_public (br_storage br0) "peers" [x01]).2; br_flush := None |}.
Definition br2 : browser := {| br_storage := br_storage br1; br_flush := Some (1, {["peers"%string := [x01]]}, false) |}.
Definition br3 : browser := {| br_storage := flush_write (br_storage br2) {["peers"%string := [x01]]}; br_flush := Some (1, {["peers"%string := [x01]]}, true) |}.
Definition br4 : browser := {| br_storage := flush_mark (br_storage br3) 1; br_flush := None |}.

Lemma browser_run : rtc browser_step br0 br4.
Proof.
  apply (rtc_l _ _ br1); [refine (browser_write br0 "peers" [x01] _); reflexivity|].
  apply (rtc_l _ _ br2); [refine (browser_flush_begin br1 1 _ _ _); reflexivity|].
  apply (rtc_l _ _ br3); [refine (browser_flush_write br2 1 _ _); reflexivity|].
  apply (rtc_l _ _ br4); [|apply rtc_refl]. refine (browser_flush_mark br3 1 _ _). reflexivity.
Qed.

Lemma journal_witness : bs_persisted (br_storage br4) = bs_values (br_storage br4) /\ is_dirty (br_storage br4) = false.
Proof.
  destruct (clean_journal_is_durable ∅ br4 browser_run) as [H _]; [reflexivity|]. split; [exact H|reflexivity].
Defined.

(** * The peer cache *)
Definition addr_tuple (e : CachedPeerAddr) : string * string * Z * Z * Z * option Z :=
  (ca_peer e, ca_addr e, ca_last_seen e, ca_failures e,
   match ca_kind e with KindPublicDirect => 0 | RelayReservation => 1 | LocalSession => 2 end, ca_expires e).
Definition addr_of_tuple (t : string * string * Z * Z * Z * option Z) : CachedPeerAddr :=
  let '(p, a, l, f, k, x) := t in
  {| ca_peer := p; ca_addr := a; ca_last_seen := l; ca_failures := f;
     ca_kind := if decide (k = 0) then KindPublicDirect else if decide (k = 1) then RelayReservation else LocalSession;
     ca_expires := x |}.
Definition file_tuple (f : PeerCacheFile) : Z * list (string * Z) * list (string * string * Z * Z * Z * option Z)
    * list (string * string * Z * Z * Z * option Z) * list string :=
  (pf_version f, fmap (M := list) (fun i => (id_peer i, id_last_seen i)) (pf_identities f), addr_tuple <$> pf_dialable_addrs f,
   addr_tuple <$> pf_entries f, pf_addrs f).
Definition file_of_tuple (t : Z * list (string * Z) * list (string * string * Z * Z * Z * option Z)
    * list (string * string * Z * Z * Z * option Z) * list string) : PeerCacheFile :=
  let '(v, ids, d, e, a) := t in
  {| pf_version := v; pf_identities := (fun i => {| id_peer := i.1; id_last_seen := i.2 |}) <$> ids;
     pf_dialable_addrs := addr_of_tuple <$> d; pf_entries := addr_of_tuple <$> e; pf_addrs := a |}.

Lemma file_of_file_tuple f : file_of_tuple (file_tuple f) = f.
Proof.
  assert (Ha : forall l : list CachedPeerAddr, addr_of_tuple <$> (addr_tuple <$> l) = l).
  { intros l. rewrite <- list_fmap_compose. rewrite <- (list_fmap_id l) at 2. apply list_fmap_ext. by intros _ [? ? ? ? [] ?] _. }
  destruct f as [v ids d e a]. unfold file_tuple, file_of_tuple. cbn [pf_version pf_identities pf_dialable_addrs pf_entries pf_addrs].
  rewrite !Ha. f_equal. rewrite <- list_fmap_compose. rewrite <- (list_fmap_id ids) at 2. apply list_fmap_ext. by intros _ [] _.
Qed.

#[local] Instance demo_cache_json : SerdeJson PeerCacheFile := {|
  json_to_vec f := Ok (bit_bytes (encode (file_tuple f)));
  json_from_slice raw := match read_bits raw with
                         | Some (p, _) => ok_or (file_of_tuple <$> decode p) "invalid cache"%string
                         | None => Err "invalid cache"%string
                         end |}.
#[local] Instance demo_cache_json_laws : SerdeJsonLaws PeerCacheFile demo_cache_json.
Proof.
  split. intros f raw [= <-]. cbn [json_from_slice demo_cache_json]. rewrite <- (app_nil_r (bit_bytes _)), read_bit_bytes, decode_encode.
  cbn [fmap option_fmap option_map ok_or]. by rewrite file_of_file_tuple.
Qed.

Lemma cache_json_ok (f : PeerCacheFile) : is_ok (json_to_vec f) = true.
Proof. done. Qed.

Definition policy : PeerCachePolicy := {|
  peer_cache_path := "cache"; peer_cache_max_entries := 4; peer_cache_max_age_secs := 3600; peer_identity_max_age_secs := 3600;
  peer_cache_public_addr_max_age_secs := 3600; peer_cache_relay_addr_max_age_secs := 3600;
  peer_cache_persist_local_addrs := false; peer_cache_local_addr_max_age_secs := 0; peer_cache_max_failures := 2 |}.

Definition cache_ops : list (list batch_op * Z) :=
  [([OpSeen alice (host 7) None; OpSeen bob (host 8) None; OpFailure bob], 100); ([OpSeen alice (host 9) None], 200)].

Lemma cache_witness :
  let s := foldl (fun s f => (wb_flush (foldl batch_run PeerCacheWriteBatch_default f.1) policy f.2 s).2) ram cache_ops in
  NoDup (ca_peer <$> load_entries_with_storage policy 300 s) /\ len (load_entries_with_storage policy 300 s) <= 4.
Proof.
  destruct (peer_cache_one_bound_address_per_peer (SL := memory_storage_laws) cache_json_ok policy ram cache_ops 300) as (H1 & H2 & _);
    [reflexivity|reflexivity|cbn; lia|]. split; [exact H2|exact H1].
Defined.

Definition batch : PeerCacheWriteBatch := foldl batch_run PeerCacheWriteBatch_default [OpSeen bob (host 8) None; OpSeen alice (host 7) None].

Lemma seen_witness :
  head (load_last_addrs_with_storage policy 150 1 (wb_flush batch policy 100 ram).2) = Some (host 7 ++ [P2p alice]).
Proof.
  apply (seen_peer_is_dialled_first (SL := memory_storage_laws) cache_json_ok policy ram batch [Seen bob (host 8) None] alice (host 7)
    (host 7 ++ [P2p alice]) KindPublicDirect 100 150 1); try reflexivity; try (cbn; lia).
  split; [reflexivity|]. by left.
Defined.

(** Two failures lose the peer, though it was seen again after them. *)
Lemma forgotten_witness :
  wb_pending (foldl batch_run PeerCacheWriteBatch_default
    (OpSeen alice (host 7) None :: replicate 2 (OpFailure alice) ++ [OpSeen alice (host 7) None]))
  = Seen alice (host 7) None :: replicate 2 (Failure alice).
Proof.
  destruct (reconnection_in_batch_forgotten policy alice (host 7) 2 100 PeerCacheFile_default) as [H _];
    [reflexivity|lia|unfold MAX_PENDING_CACHE_MUTATIONS; lia|constructor|exact H].
Defined.

(** * The plan of a peer known by a direct and a relayed address *)
Definition known : PeerBook :=
  record_addr (record_addr PeerBook_default alice (reservation ++ [P2p alice]) Bootstrap 1) alice (host 7) Bootstrap 2.

Lemma plan_witness :
  let plan := build_peer_book_connection_plan_with_capabilities alice known DcutrPolicy_default native in
  at_addr <$> attempts plan = [host 7; reservation ++ [P2p alice]] /\ NoDup (at_addr <$> attempts plan).
Proof.
  destruct (plan_tries_each_address_once_in_order alice known DcutrPolicy_default native) as [H _].
  split; [reflexivity|exact H].
Defined.

(** * A plan of two addresses, the first of which the swarm refuses *)
Definition try1 : ConnectionAttempt := {| at_addr := host 7; at_kind := Direct |}.
Definition try2 : ConnectionAttempt := {| at_addr := host 8; at_kind := Direct |}.
Definition try3 : ConnectionAttempt := {| at_addr := reservation; at_kind := Relayed_attempt |}.
Definition plan : ConnectionPlan := {|
  target_peer := Some alice; attempts := [try1; try2; try3]; plan_relay_preferred := false;
  attempt_dcutr_after_relay := false; plan_keep_relay_fallback := false |}.
Definition refuse_first (a : Multiaddr) : result unit string := if decide (a = host 7) then Err "refused"%string else Ok tt.

Lemma walk_witness :
  exists first, first :: (failures_start refuse_first 1 {[alice := [try3]]} alice).1
      = take 2 (filter (accepted_dial refuse_first) (attempts plan)) /\
    dial_attempts_loop refuse_first (attempts plan) [] = Ok first.
Proof.
  pose proof (failures_walk_the_plan refuse_first (fun _ => "") ∅ {[alice := [try3]]} plan alice 1 eq_refl) as H.
  destruct (failures_start refuse_first 1 {[alice := [try3]]} alice) as [starts p2] eqn:E.
  destruct H as (first & H1 & H2 & _); [|reflexivity|].
  - apply (bool_decide_unpack _). reflexivity.
  - exists first. split; [exact H1|exact H2].
Defined.

(** * Namespaces *)
Definition app1 : string := " My App".
Definition chat : list byte := tag_material 1 "my-app" "chat".

Lemma separate_witness :
  match build_discovery_namespace 1 app1 "chat" Hashed false, build_discovery_namespace 1 "MY-app" "chat" Hashed false with
  | Ok d1, Ok d2 => dn_namespace d1 = dn_namespace d2
  | _, _ => False
  end.
Proof.
  destruct (build_discovery_namespace 1 app1 "chat" Hashed false) as [d1|] eqn:E1; [|vm_compute in E1; discriminate E1].
  destruct (build_discovery_namespace 1 "MY-app" "chat" Hashed false) as [d2|] eqn:E2; [|vm_compute in E2; discriminate E2].
  apply (hashed_namespaces_separate 1 1 app1 "MY-app" "chat" "chat" false false d1 d2 "my-app" "my-app");
    [lia|lia|exact E1|exact E2|vm_compute; reflexivity|vm_compute; reflexivity|intros _; reflexivity|].
  split; [reflexivity|]. split; reflexivity.
Defined.

Definition tagged (tags : list string) : DiscoveryNamespaceConfig :=
  {| ns_app_id := "demo"; ns_tags := tags; ns_privacy := ReadableUnsafe; ns_allow_readable_tags := true |}.

Definition protocol_of (tags : list string) : string :=
  match application_protocol_version (tagged tags) "p2p-net" 7 with Ok p => p | Err _ => "" end.
Definition namespaces_of (tags : list string) : list string :=
  match rendezvous_namespaces (tagged tags) "p2p-net" 7 with Ok l => l | Err _ => [] end.

(** The tags in another order, one of them twice. *)
Lemma protocol_witness : protocol_of ["a"; "b"] = protocol_of ["b"; "a"; "b"]%string.
Proof.
  apply (equal_protocol_iff_equal_namespaces (tagged ["a"; "b"]) (tagged ["b"; "a"; "b"]) "p2p-net" "p2p-net" 7 7
    (namespaces_of ["a"; "b"]) (namespaces_of ["b"; "a"; "b"]));
    [lia|lia|apply (bool_decide_unpack _); vm_compute; reflexivity|apply (bool_decide_unpack _); vm_compute; reflexivity
    |vm_compute; reflexivity|vm_compute; reflexivity|vm_compute; reflexivity|vm_compute; reflexivity
    |intros _; vm_compute; reflexivity|].
  split; [reflexivity|]. intros ns.
    assert (H1 : namespaces_of ["a"; "b"] = ["p2p-net/7/demo/a"; "p2p-net/7/demo/b"]%string) by (vm_compute; reflexivity).
    assert (H2 : namespaces_of ["b"; "a"; "b"] = ["p2p-net/7/demo/b"; "p2p-net/7/demo/a"]%string) by (vm_compute; reflexivity).
    rewrite H1, H2, !elem_of_cons, !elem_of_nil. tauto.
Defined.
End NetWitness.
