(* ===== verification/WitnessesDht.v ===== *)
(** Witnesses of rendezvous and Kademlia discovery, of relay selection and of
    the connection handlers. *)

From S2P Require Import Prelude Bytes BTree Text Common Observability Relay RelayLimiter Addresses.
From S2P Require Import Connections Storage RelayClient AppMessage PeerBook PeerCache ConnectionStrategy.
From S2P Require Import StackDiscovery Rendezvous RendezvousFacts Dht DhtEvents DhtFacts Instances BoundedSet.
From S2P Require Import Metrics RelayMetering RelayServer RelayDiscovery ConnectionEvents.
From S2P Require Import ConnectionEventsFacts Dcutr.
From Stdlib Require Import Strings.Byte Ascii.
Import Demo.

#[local] Open Scope Z_scope.

Module DhtWitness.

Definition server : PeerId := x01.
Definition alice : PeerId := x02.
Definition bob : PeerId := x03.

(** * Rendezvous: a server, two namespaces *)
#[local] Instance demo_rz : RendezvousLib := {|
  RzNamespace := string; rz_namespace_new s := Ok s; rz_namespace_text s := s; Cookie := unit;
  DEFAULT_TTL := 7200; MIN_TTL := 7200; MAX_TTL := 259200; MAX_REGISTRATION_PEER := 255;
  MAX_REGISTRATIONS_TOTAL := 65536; COOKIES_CACHE_SIZE := 10000 |}.
#[local] Instance demo_rz_laws : RendezvousLaws demo_rz.
Proof. split. by intros s n [= ->]. Qed.

#[local] Instance sorted_iter {A} `{Countable A} : HashIter A := {| hash_iter := elements; hash_iter_elements s := reflexivity _ |}.

Definition names : list string := ["net/chat"; "net/files"]%string.
Definition valid : list (string * string) := [("net/chat", "net/chat"); ("net/files", "net/files")]%string.
Definition server_addr : Multiaddr := [Ip4 (Build_Ipv4Addr 198 51 100 1); Tcp 4001; P2p server].
Definition no_text (_ : NetError) : string := "".
Definition yes (_ : RzNamespace) (_ : PeerId) : result unit string := Ok tt.

Definition refreshed (s : RendezvousState) : Refresh :=
  refresh_rendezvous no_text RendezvousConfig_default (Ok names) true yes [server_addr] s.

Lemma register_witness :
  (server, "net/files"%string) ∈ reg_keys (rf_requests (refreshed RendezvousState_default)).
Proof.
  destruct (refresh_registers_every_namespace no_text RendezvousConfig_default names yes [server_addr]
    RendezvousState_default valid RendezvousActionPlan_default eq_refl eq_refl (fun _ _ => eq_refl) eq_refl) as (_ & H & _).
  apply H. split; [exists server_addr; split; [left|reflexivity]|]. split; [right; left|]. split; reflexivity.
Defined.

Definition run0 : rz_run := {| rn_state := RendezvousState_default; rn_sent := [] |}.
Definition run1 : rz_run := {| rn_state := rf_state (refreshed RendezvousState_default);
  rn_sent := rf_requests (refreshed RendezvousState_default) |}.

Lemma one_refresh : rtc (rz_step RendezvousConfig_default names) run0 run1.
Proof. eapply rtc_l; [|apply rtc_refl]. exact (rz_refresh _ _ no_text true yes [server_addr] run0 _ eq_refl). Qed.

Lemma first_namespace_witness :
  rn_sent run1 = [RzRegister (R := demo_rz) "net/chat"%string server 7200;
                  RzDiscover (R := demo_rz) "net/chat"%string None (Some 64) server;
                  RzRegister (R := demo_rz) "net/files"%string server 7200] /\
  Forall (first_only (R := demo_rz) "net/chat"%string) (rn_sent run1).
Proof.
  split; [reflexivity|].
  apply (only_first_namespace_discovered (R := demo_rz) RendezvousConfig_default names "net/chat" "net/chat"%string
    [("net/files", "net/files")]%string RendezvousActionPlan_default run1 eq_refl one_refresh).
Defined.

Definition registered_run : rz_run := {| rn_state := mark_registered (rn_state run1) server "net/chat"; rn_sent := rn_sent run1 |}.
Definition later_run : rz_run := {| rn_state := rf_state (refreshed (rn_state registered_run));
  rn_sent := rn_sent registered_run ++ rf_requests (refreshed (rn_state registered_run)) |}.

Lemma never_renewed_witness :
  is_registered (rn_state later_run) server "net/chat" = true.
Proof.
  apply (registration_never_renewed RendezvousConfig_default names registered_run later_run server "net/chat" eq_refl).
  eapply rtc_l; [|apply rtc_refl]. exact (rz_refresh _ _ no_text true yes [server_addr] registered_run _ eq_refl).
Defined.

(** * Signed address records *)
#[local] Instance demo_keypair : KeypairLib := {| Keypair := byte; keypair_to_protobuf k := Ok [k];
  keypair_from_protobuf bs := match bs with [k] => Ok k | _ => Err "bad key"%string end |}.

#[local] Instance demo_records : PeerRecordLib (K := demo_keypair) := {|
  public_peer k := k;
  SignedEnvelope := byte * list Multiaddr;
  peer_record_sign k addrs := Ok (k, addrs);
  envelope_encode e := bit_bytes (encode e);
  envelope_decode bs := match read_bits bs with
                        | Some (p, []) => ok_or (decode p) "bad record"%string
                        | _ => Err "bad record"%string
                        end;
  peer_record_read e := Ok e |}.

#[local] Instance demo_record_laws : PeerRecordLaws demo_records.
Proof.
  split.
  - intros e. cbn. rewrite <- (app_nil_r (bit_bytes _)), read_bit_bytes, decode_encode. done.
  - by intros k addrs e [= <-].
Qed.

Definition public_addr : Multiaddr := [Ip4 (Build_Ipv4Addr 8 8 8 8); Tcp 4001].
Definition private_addr : Multiaddr := [Ip4 (Build_Ipv4Addr 192 168 0 4); Tcp 4001].
Definition alice_addr : Multiaddr := public_addr ++ [P2p alice].
Definition alice_record : list byte := envelope_encode (alice, [private_addr; public_addr; alice_addr] : list Multiaddr).

Lemma accepted_witness :
  decode_peer_address_record alice_record alice = Ok [alice_addr] /\ public_route_to alice alice_addr.
Proof.
  assert (H : decode_peer_address_record alice_record alice = Ok [alice_addr]) by reflexivity.
  split; [exact H|]. apply accepted_record_addresses in H as (_ & _ & _ & _ & H). by apply Forall_cons in H as [H _].
Defined.

Lemma round_trip_witness :
  decode_peer_address_record (envelope_encode (alice, [alice_addr] : list Multiaddr)) alice = Ok [alice_addr].
Proof.
  assert (E : published_addresses (public_peer alice) [private_addr; public_addr] = [alice_addr]) by reflexivity.
  destruct (published_record_round_trips (R := demo_records) (alice : Keypair (KeypairLib := demo_keypair))
    [private_addr; public_addr] (alice, [alice_addr] : list Multiaddr)) as [H _].
  - by rewrite E.
  - by rewrite E.
  - apply Z.leb_le. vm_compute. reflexivity.
  - rewrite E in H. exact H.
Defined.

(** * Dials: a peer whose connections fail at once *)
Definition flapping : list (Z * DhtOp) :=
  [(1000, OpCandidate alice false (DialFailed "refused")); (1001, OpCandidate alice true (DialStarted "plan"));
   (1005, OpCandidate alice true (DialStarted "plan")); (1005, OpFailed alice); (1300, OpCandidate alice true (DialStarted "plan"))].

Lemma rate_witness : dial_count alice (dht_ops DhtProviderState_default flapping).2 = 3 /\ 3 <= 8 * (1 + (1300 - 1000) / 300).
Proof.
  assert (E : dial_count alice (dht_ops DhtProviderState_default flapping).2 = 3) by (vm_compute; reflexivity).
  split; [exact E|]. rewrite <- E.
  refine (auto_dial_rate {[alice]} _ 1000 flapping alice _ _ _).
  - rewrite size_singleton. lia.
  - lia.
  - change (StronglySorted Z.le [1000; 1000; 1001; 1005; 1005; 1300]).
    repeat (apply SSorted_nil || apply SSorted_cons || apply List.Forall_nil || apply List.Forall_cons || lia).
  - unfold flapping. repeat (apply List.Forall_nil || apply List.Forall_cons); cbn; set_solver.
Defined.

(** * The schedule *)
Definition first_refresh : DhtRefreshSchedule := record_refresh (from_secs 5) (DhtRefreshSchedule_new 0 300).

Lemma schedule_run_witness :
  next_due first_refresh = from_secs 20 /\
  last_refresh first_refresh + from_secs 5 <= next_due first_refresh <= last_refresh first_refresh + from_secs 300.
Proof.
  split; [reflexivity|]. apply (refresh_schedule_bounds 300 0 first_refresh).
  eapply rtc_l; [|apply rtc_refl]. refine (StepRefresh (DhtRefreshSchedule_new 0 300) (from_secs 5) _). reflexivity.
Defined.

(** * A refresh *)
#[local] Instance demo_sha : Sha256Lib := {| sha256 bs := bs |}.

Definition dht_env : DhtEnv := {| dhtx_config := DhtDiscoveryConfig_default; dhtx_public_enabled := false; dhtx_public_seeds := [];
  dhtx_namespaces := Ok ["net/chat"]%string |}.
Definition kad0 : Kad := {| kad_next := 1; kad_queries := [] |}.

Lemma refresh_witness : exists s' kad' plan,
  start_dht_namespace_discovery_with_interval dht_env no_text (fun _ => None) alice ∅ 1000 0 300 DhtProviderState_default kad0
    = Ret (s', kad', plan) /\ plan_le plan 48.
Proof.
  destruct (refresh_returns_within_bounds dht_env no_text (fun _ => None) alice ∅ 1000 0 300 DhtProviderState_default kad0)
    as (s' & kad' & plan & H & _ & _ & Hp); [reflexivity|done|by intros ? ?| |by exists s', kad', plan].
  repeat split; intros *; cbn; rewrite lookup_empty; discriminate.
Defined.
End DhtWitness.

Module ConnWitness.

#[local] Instance demo_rz : RendezvousLib := {|
  RzNamespace := string; rz_namespace_new s := Ok s; rz_namespace_text s := s; Cookie := unit;
  DEFAULT_TTL := 7200; MIN_TTL := 7200; MAX_TTL := 259200; MAX_REGISTRATION_PEER := 255;
  MAX_REGISTRATIONS_TOTAL := 65536; COOKIES_CACHE_SIZE := 10000 |}.
#[local] Instance demo_sha : Sha256Lib := {| sha256 bs := bs |}.
#[local] Instance sorted_iter : HashIter PeerId := {| hash_iter := elements; hash_iter_elements s := reflexivity _ |}.

Definition me : PeerId := x01.
Definition alice : PeerId := x02.

(** * Two addresses of one relay, one of another *)
Definition relay_at (d : Z) (p : PeerId) : Multiaddr := [Ip4 (Build_Ipv4Addr 198 51 100 d); Tcp 4001; P2p p].

Lemma selection_witness :
  selected_addrs (select_startup_relays RelayDiscoveryPolicy_default [relay_at 1 x11; relay_at 2 x11] [relay_at 3 x12] [] [])
    = [relay_at 1 x11; relay_at 3 x12] /\
  ignored_candidates (select_startup_relays RelayDiscoveryPolicy_default [relay_at 1 x11; relay_at 2 x11] [relay_at 3 x12] [] []) = 1.
Proof.
  destruct (relay_selection_exact RelayDiscoveryPolicy_default [relay_at 1 x11; relay_at 2 x11] [relay_at 3 x12] [] [])
    as (H1 & H2 & H3 & _); [reflexivity|vm_compute; discriminate|].
  rewrite H1. split; [reflexivity|]. rewrite H2 in H3.
  match type of H3 with ?a + _ = ?b => replace a with 2 in H3 by (vm_compute; reflexivity); replace b with 3 in H3 by (vm_compute; reflexivity) end.
  lia.
Defined.

(** * A node with no connections *)
Definition dcutr0 : DcutrState := {|
  dcutr_enabled := true; dcutr_attempts := 0; dcutr_successes := 0; dcutr_failures := 0; dcutr_relay_fallbacks := 0;
  dcutr_upgrade_eligible_connections := 0; dcutr_retry_suppressed := 0; dcutr_attempts_by_peer := ∅;
  dcutr_last_attempt_by_peer := ∅ |}.
Definition counters0 : RelayDiscoveryCounters := {|
  relay_discovery_selected_relays := ∅; relay_discovery_candidate_count := 0; relay_discovery_configured_candidates := 0;
  relay_discovery_cached_candidates := 0; relay_discovery_rendezvous_candidates := 0; relay_discovery_public_candidates := 0;
  relay_discovery_ignored_candidates := 0; relay_discovery_failures := 0; relay_discovery_replacements := 0 |}.
Definition quiet : ServerCounts := {|
  accepted_reservations := 0; accepted_reservations_total := 0; sc_active_circuits := 0; denied_reservations := 0;
  denied_circuits := 0; rate_limited_events := 0; at_capacity_events := 0; server_errors := 0 |}.
Definition server0 : ServerState := {|
  server_enabled := false; health := HealthDisabled; counts := quiet; relay_bytes_forwarded := 0;
  relay_bytes_src_to_dst := 0; relay_bytes_dst_to_src := 0; relay_meter := RelayMeter_default |}.
Definition relay0 : NodeRelay := {|
  nr_behind_nat := false; nr_server := server0; nr_client := RelayClient_default; nr_dcutr := dcutr0;
  nr_discovery := counters0; nr_unverified := ∅ |}.
Definition snapshot0 : NodeSnapshot := {|
  ns_connectivity := {| cv_known_peers := 0; cv_discovered_peers := 0; cv_dial_attempts := 0; cv_dial_failures := 0;
    cv_awaiting_address := 0; cv_pending := 0; cv_all := 0; cv_application := 0; cv_infrastructure := 0; cv_relay := 0;
    cv_dht_routing := 0 |};
  ns_limit_events := 0; ns_cap_disconnects := 0; ns_last_dial_error := None; ns_server := apply_relay_state server0 ∅;
  ns_client := {| sn_public_addr := None; sn_client_reservations := 0; sn_client_reservation_attempts := 0;
    sn_client_reservation_failures := 0; sn_relayed_listen_addresses := []; sn_private_relayed_listen_addresses := [] |};
  ns_dcutr := dcutr0; ns_discovery := counters0; ns_public_direct_listen_addresses := []; ns_local_listen_addresses := [];
  ns_rendezvous := (0, 0, 0, 0); ns_nat_status := "unknown"; ns_pulses := [] |}.
Definition node (external : ExternalAddressCandidates) (book : PeerBook) (pending : gmap PeerId (list ConnectionAttempt))
    (dht : DhtProviderState) : ConnCtx := {|
  cn_caps := ConnectionCapState_new ConnectionLimitsConfig_default; cn_relay := relay0; cn_book := book;
  cn_cache_writes := PeerCacheWriteBatch_default; cn_pending := pending; cn_stats := AutoDialStats_default; cn_dht := dht;
  cn_metrics := NodeMetrics_default; cn_external := external; cn_identify := IdentifyAddressState_default;
  cn_rendezvous := RendezvousState_default; cn_requests := []; cn_closed := []; cn_disconnected := []; cn_actions := [];
  cn_snapshot := snapshot0 |}.
Definition idle : ConnCtx := node ExternalAddressCandidates_new PeerBook_default ∅ DhtProviderState_default.

Definition env_at (now : Z) : ConnEnv := {|
  ce_dial := {| de_dial := fun _ => Ok tt; de_dial_peer := fun _ => false; de_connected := ∅; de_local := me;
    de_policy := DcutrPolicy_default; de_capabilities := native; de_debug_peer := fun _ => ""; de_error_text := fun _ => "" |};
  ce_now := now; ce_unix := 1000; ce_clock := None; ce_counters := ∅; ce_relay_cfg := RelayServiceConfig_default;
  ce_namespaces := ["net/chat"]; ce_protocol_version := "net/chat";
  ce_client := {| env_windows := false; env_empty := []; env_local := me |}; ce_policy := RelayDiscoveryPolicy_default;
  ce_public_enabled := false; ce_listen_on := fun _ => Ok 1; ce_rendezvous := RendezvousConfig_default;
  ce_rendezvous_names := Ok []; ce_rendezvous_peers := []; ce_rendezvous_client := false;
  ce_rendezvous_register := fun _ _ => Ok tt |}%string.

(** * A relayed stranger is dropped after 15 seconds *)
Definition stranger : EstablishedConnection := {|
  ec_peer := alice; ec_connection := 7; ec_remote_addr := relay_at 1 x11 ++ [P2pCircuit; P2p alice]; ec_relayed := true;
  ec_outgoing := false; ec_debug := ""; ec_connection_debug := "" |}.
Definition visited : ConnCtx := handle_connection_established (env_at 0) stranger idle.

Lemma unverified_witness :
  nr_unverified (cn_relay visited) !! alice = Some 0 /\
  nr_unverified (cn_relay (close_expired_unverified_relayed (env_at (from_secs 15)) visited).2) !! alice = None.
Proof.
  assert (E : nr_unverified (cn_relay visited) !! alice = Some 0) by reflexivity. split; [exact E|].
  destruct (unverified_relayed_peers_bounded idle visited eq_refl) as [_ H].
  - eapply rtc_l; [|apply rtc_refl]. exact (StepEstablished (env_at 0) stranger idle).
  - destruct (H (env_at (from_secs 15))) as [Hk _]. apply eq_None_not_Some. intros [t [Ht Hd]%Hk].
    rewrite E in Ht. injection Ht as <-. revert Hd. vm_compute. discriminate.
Defined.

(** * A public address goes away and comes back *)
Definition public : Multiaddr := [Ip4 (Build_Ipv4Addr 8 8 8 8); Tcp 4001].
Definition advertised : ConnCtx :=
  node (add_confirmed false ExternalAddressCandidates_new public) PeerBook_default ∅ DhtProviderState_default.

Lemma readvertised_witness :
  cn_actions (handle_expired_listen_addr public advertised) = [RemoveExternalAddress public] /\
  cn_external (handle_expired_listen_addr public advertised) = cn_external advertised.
Proof.
  destruct (expired_address_never_readvertised (env_at 0) public advertised) as (H1 & H2 & _).
  - reflexivity.
  - apply (bool_decide_eq_true_1 (public ∈ confirmed_seen (cn_external advertised))). vm_compute. reflexivity.
  - split; [exact H1|exact H2].
Defined.

(** * The only address of a plan fails without a peer id *)
Definition dialling : ConnCtx := node ExternalAddressCandidates_new PeerBook_default {[alice := []]} DhtProviderState_default.

Lemma stranded_witness :
  (env_auto_dial (ce_dial (env_at (from_secs 86400))) true PeerBook_default
     (cn_pending (handle_outgoing_connection_error (env_at 0) None "None" "refused" dialling)) alice).1 = AlreadyPending.
Proof.
  destruct (unattributed_failure_strands_peer (env_at 0) (env_at (from_secs 86400)) alice "None" "refused" dialling)
    as (_ & _ & _ & H & _).
  - exists []. reflexivity.
  - discriminate.
  - apply not_elem_of_empty.
  - exact (f_equal fst H).
Defined.

(** * Eight peers without an address, and a ninth with one *)
Definition waiting : list PeerId := [x10; x11; x12; x13; x14; x15; x16; x17].
Definition named (b : PeerBook) (p : PeerId) : PeerBook := record_namespace b p "net/chat" DhtProvider 1000.
Definition reachable : PeerId := x20.
Definition crowded : ConnCtx :=
  node ExternalAddressCandidates_new (record_addr (foldl named PeerBook_default (waiting ++ [reachable])) reachable public DhtProvider 1000) ∅
    (foldl (fun s p => (mark_auto_connect_waiting_for_addrs s p).2) DhtProviderState_default waiting).

Lemma blocked_witness :
  reconnect_candidates (cn_book crowded) = waiting ++ [reachable] /\
  maintain_application_connections (env_at 0) true crowded = ([], crowded) /\
  (env_auto_dial (ce_dial (env_at 0)) true (cn_book crowded) (cn_pending crowded) reachable).1 ≠ AwaitingAddress.
Proof.
  split; [vm_compute; reflexivity|]. split.
  - destruct (waiting_peers_block_reconnection [env_at 0] crowded) as [_ H].
    + replace (maintenance_candidates crowded) with waiting by (vm_compute; reflexivity).
      apply (bool_decide_eq_true_1 (Forall (fun p => p ∈ bset (auto_connect_waiting (cn_dht crowded))) waiting)). vm_compute. reflexivity.
    + by apply Forall_cons in H as [H _].
  - vm_compute. discriminate.
Defined.

(** * A peer is allowed, punches once, and must wait a minute *)
Definition circuit : Multiaddr := relay_at 1 x11 ++ [P2pCircuit].
Definition gate0 : gate_run := gate_start 60 2 0.
Definition gate1 : gate_run := {| gr_gate := allow_peer (gr_gate gate0) alice; gr_now := 0; gr_grants := ∅ |}.
Definition gate2 : gate_run := {|
  gr_gate := (handle_established_inbound_connection 7 (gr_gate gate1) alice circuit).2; gr_now := 7; gr_grants := {[alice := [7]]} |}.

Lemma gate_runs : rtc gate_step gate0 gate2.
Proof.
  apply (rtc_l _ _ gate1); [exact (GateAllow gate0 alice)|]. apply (rtc_l _ _ gate2); [|apply rtc_refl].
  refine (GateInbound gate1 7 alice circuit InnerHandler (gr_gate gate2) _ _); [cbn; lia|reflexivity].
Qed.

Lemma paced_witness :
  (handle_established_inbound_connection 8 (gr_gate gate2) alice circuit).1 ≠ InnerHandler /\
  (handle_established_inbound_connection (7 + from_secs 60) (gr_gate gate2) alice circuit).1 = InnerHandler.
Proof.
  destruct (hole_punching_paced 60 2 0 gate2) as (_ & _ & H); [unfold is_u32, u32_max; lia|exact gate_runs|].
  destruct (H alice) as (_ & _ & Hi). split.
  - intros (_ & _ & Hl)%Hi; [revert Hl; vm_compute; intros Hl; by apply Hl|vm_compute; discriminate|reflexivity].
  - apply Hi; [vm_compute; discriminate|reflexivity|]. split; [|split; [vm_compute; reflexivity|vm_compute; discriminate]].
    apply (bool_decide_eq_true_1 (alice ∈ allowed_peers (gr_gate gate2))). vm_compute. reflexivity.
Defined.
End ConnWitness.
