(* ===== verification/WitnessesGs.v ===== *)
(** Witnesses of the gossipsub theorems. *)

From S2P Require Import Prelude Bytes Text BTree Common Float64 AppMessage Storage GsTimeCache GsBackoff GsMessageCache GsSubscriptions GsQueue GsConfig GsScore GsProtocol.
From S2P Require Import GsRouter GsScoreFacts GsMesh GsHeartbeat GsMessages GsRouterFacts GsMeshFacts GsHeartbeatFacts GsMessageFacts GsInvariant GsFrame GsDelivery GsForward GsRetry GsHandler.
From S2P Require Import Instances.
From Stdlib Require Import Strings.Byte Ascii.
Import Demo.

#[local] Open Scope Z_scope.

Module GsWitness.

(** * Instances *)
#[local] Instance demo_instant : InstantLib := {| instant_max := 10 ^ 30 |}.
#[local] Instance sorted_iter {A} `{Countable A} : HashIter A := {| hash_iter := elements; hash_iter_elements s := reflexivity _ |}.
#[local] Instance demo_keypair : KeypairLib := {| Keypair := byte; keypair_to_protobuf k := Ok [k];
  keypair_from_protobuf bs := match bs with [k] => Ok k | _ => Err "bad key"%string end |}.

(** A key is its byte, encoded too long to be inlined in a peer id; a signature
    is the key and the text. *)
#[local] Instance demo_signing : SigningLib (K := demo_keypair) := {|
  PublicKey := byte; kp_public k := k; kp_sign k bs := Ok (k :: bs);
  pk_encode k := replicate 43 k; pk_decode bs := head bs;
  pk_verify k bs sg := bool_decide (sg = k :: bs); pk_to_peer_id k := k |}.
#[local] Instance demo_signing_laws : SigningLaws demo_signing.
Proof.
  split.
  - intros k bs sg [= <-]. by apply bool_decide_eq_true.
  - done.
  - done.
  - intros k Hk. vm_compute in Hk. by destruct Hk.
Qed.

(** Fields are two bytes: a tag and a byte of contents. *)
#[local] Instance demo_prost : ProstLib := {|
  message_encode m := default [] (pm_data m); rpc_encode max rpc := Err "unused"%string; rpc_decode max bs := Err "unused"%string;
  consume_message_prefix bs := Ok (Some bs);
  next_field bs := match bs with t :: _ :: rest => Ok (byte_to_Z t, rest) | _ => Err "short"%string end |}.
#[local] Instance demo_prost_laws : ProstLaws demo_prost.
Proof. split. intros buf tag rest. destruct buf as [|t [|x l]]; cbn; [done|done|]. intros [= <- <-]. lia. Qed.

(** A codec for RPCs: the RPC as a number in binary, a mark, and the tags of the
    fields, each a field of one byte. *)
Definition rpc_tuple (r : ProtoRpc) :=
  ((fun o => (so_subscribe o, so_topic_id o, so_requests_partial o, so_supports_partial o)) <$> rpc_subscriptions r,
   (fun m => (pm_from m, pm_data m, pm_seqno m, pm_topic m, pm_signature m, pm_key m)) <$> rpc_publish r,
   (fun c => ((fun i => (ci_topic_id i, ci_message_ids i)) <$> cm_ihave c, cw_message_ids <$> cm_iwant c, cg_topic_id <$> cm_graft c,
      (fun i => (cp_topic_id i, (fun q => (pp_peer_id q, pp_signed_peer_record q)) <$> cp_peers i, cp_backoff i)) <$> cm_prune c,
      cd_message_ids <$> cm_idontwant c, ce_partial_messages <$> cm_extensions c)) <$> rpc_control r).

Definition rpc_of_tuple t : ProtoRpc :=
  let '(subs, pubs, ctl) := t in {|
  rpc_subscriptions := (fun '(a, b, c, d) => {| so_subscribe := a; so_topic_id := b; so_requests_partial := c; so_supports_partial := d |}) <$> subs;
  rpc_publish := (fun '(a, b, c, d, e, f) => {| pm_from := a; pm_data := b; pm_seqno := c; pm_topic := d; pm_signature := e; pm_key := f |}) <$> pubs;
  rpc_control := (fun '(a, b, c, d, e, f) => {|
    cm_ihave := (fun '(t, i) => {| ci_topic_id := t; ci_message_ids := i |}) <$> a; cm_iwant := Build_ControlIWant <$> b;
    cm_graft := Build_ControlGraft <$> c;
    cm_prune := (fun '(t, q, o) => {| cp_topic_id := t; cp_peers := (fun '(i, j) => {| pp_peer_id := i; pp_signed_peer_record := j |}) <$> q; cp_backoff := o |}) <$> d;
    cm_idontwant := Build_ControlIDontWant <$> e; cm_extensions := Build_ControlExtensions <$> f |}) <$> ctl |}.

Lemma fmap_back {A B} (f : A -> B) (g : B -> A) (l : list A) : (forall x, g (f x) = x) -> g <$> (f <$> l) = l.
Proof. intros H. rewrite <- list_fmap_compose. rewrite <- (list_fmap_id l) at 2. apply list_fmap_ext. intros i x _. apply H. Qed.

Lemma rpc_of_tuple_of r : rpc_of_tuple (rpc_tuple r) = r.
Proof.
  destruct r as [subs pubs ctl]. unfold rpc_tuple, rpc_of_tuple. cbn [rpc_subscriptions rpc_publish rpc_control]. f_equal.
  - apply fmap_back. by intros [].
  - apply fmap_back. by intros [].
  - destruct ctl as [[a b c d e f]|]; [|done]. cbn [fmap option_fmap option_map cm_ihave cm_iwant cm_graft cm_prune cm_idontwant cm_extensions]. do 2 f_equal.
    + apply fmap_back. by intros [].
    + apply fmap_back. by intros [].
    + apply fmap_back. by intros [].
    + apply fmap_back. intros [t q o]. cbn. f_equal. apply fmap_back. by intros [].
    + apply fmap_back. by intros [].
    + by destruct f as [[]|].
Qed.

Fixpoint bits (p : positive) : list byte :=
  match p with xH => [x02] | xO p => x00 :: bits p | xI p => x01 :: bits p end.

Fixpoint read_bits (l : list byte) : option (positive * list byte) :=
  match l with
  | x00 :: l => '(p, rest) ← read_bits l; Some (xO p, rest)
  | x01 :: l => '(p, rest) ← read_bits l; Some (xI p, rest)
  | x02 :: l => Some (xH, l)
  | _ => None
  end.

Lemma read_bits_bits p l : read_bits (bits p ++ l) = Some (p, l).
Proof. induction p as [p IH|p IH|]; cbn [bits app read_bits]; [by rewrite IH..|done]. Qed.

Definition frame (rpc : ProtoRpc) : list byte := bits (encode (rpc_tuple rpc)) ++ (byte_of_Z <$> rpc_tags rpc).

Definition read_frame (bs : list byte) : option ProtoRpc := '(p, _) ← read_bits bs; rpc_of_tuple <$> decode p.

Definition wire_prost : ProstLib := {|
  message_encode m := default [] (pm_data m); rpc_encode max rpc := Ok (frame rpc);
  rpc_decode max bs := match read_frame bs with Some rpc => Ok (Some (rpc, [])) | None => Err "bad frame"%string end;
  consume_message_prefix bs := Ok (snd <$> read_bits bs);
  next_field bs := match bs with t :: rest => Ok (byte_to_Z t, rest) | _ => Err "short"%string end |}.

Lemma wire_prost_laws : ProstLaws wire_prost.
Proof. split. intros buf tag rest. destruct buf as [|t l]; cbn; [done|]. intros [= <- <-]. lia. Qed.

Lemma tag_fields tags : Forall (fun t => 0 <= t < 256) tags ->
  exists l, fields (L := wire_prost) (length (byte_of_Z <$> tags)) (byte_of_Z <$> tags) = Ok l /\ l.*1 = tags.
Proof.
  induction 1 as [|t tags Ht _ (l & E & El)]; [by exists []|]. exists ((t, 1) :: l). cbn [fmap list_fmap length fields].
  rewrite decide_False by done. cbn [next_field wire_prost result_bind snd fst]. rewrite E. cbn [result_bind fmap list_fmap fst].
  rewrite byte_to_of_Z, Z.mod_small by done. rewrite El. split; [|done]. do 3 f_equal. unfold len. cbn [length]. lia.
Qed.

Lemma wire_laws : WireLaws (L := wire_prost).
Proof.
  split; cbn [rpc_encode wire_prost].
  - intros max max2 rpc bs [= <-] _. cbn [rpc_decode wire_prost]. unfold read_frame, frame. rewrite read_bits_bits.
    cbn [mbind option_bind]. rewrite decode_encode. cbn [fmap option_fmap option_map]. by rewrite rpc_of_tuple_of.
  - intros max rpc bs [= <-]. cbn [consume_message_prefix wire_prost]. unfold frame. rewrite read_bits_bits. cbn [fmap option_fmap option_map snd].
    destruct (tag_fields (rpc_tags rpc)) as (l & E & El); [|by eauto].
    unfold rpc_tags. rewrite !Forall_app. split_and!; [apply Forall_replicate; lia..|]. by destruct (rpc_control rpc); repeat constructor.
Qed.

#[local] Instance demo_rand : RandLib := {| Rng := unit; shuffle A g l := (l, g); sample A g n l := (take n l, g);
  random_u64 g := (7, g); random_peer_id g := (x00, g) |}.
#[local] Instance demo_rand_laws : RandLaws demo_rand.
Proof.
  split; intros A g *; cbn.
  - done.
  - exists (drop n l). by rewrite take_drop.
  - apply length_take.
Qed.

Definition alice : PeerId := x0a.
Definition bob : PeerId := x0b.
Definition chat : TopicHash := {| topic_hash := "chat" |}.

(** * The caches *)
Lemma duplicate_cache_witness :
  dup_inserts (TimeCache_new 10) [(0, [x01]); (5, [x01]); (10, [x01])] = [true; false; true].
Proof.
  rewrite (duplicate_cache_exact 10 [(0, [x01]); (5, [x01]); (10, [x01])]); [reflexivity|lia| |].
  - repeat constructor; cbn; lia.
  - repeat constructor; vm_compute; discriminate.
Defined.

Definition wheel0 : BackoffStorage := match BackoffStorage_new 60 1 1 with Ret s => s | Panic => {| backoffs := ∅; backoffs_by_heartbeat := []; heartbeat_index := 0; bo_heartbeat_interval := 1; backoff_slack := 1 |} end.
Definition wheel1 : wheel_run := {| wr_wheel := update_backoff 0 wheel0 chat alice 5; wr_now := 0; 
  wr_deadline := <[(chat, alice) := Z.max (0 + 5) (default (0 + 5) ((∅ : gmap (TopicHash * PeerId) Z) !! (chat, alice)))]> ∅ |}.

Lemma backoff_witness : get_backoff_time (wr_wheel wheel1) chat alice = Some 5 /\ is_backoff_with_slack (wr_wheel wheel1) chat alice = true.
Proof.
  destruct (backoffs_respected_and_released 60 1 1 0 wheel0 wheel1 chat alice 5) as [H _]; [lia|vm_compute; split; discriminate|reflexivity| |reflexivity|apply H; cbn; lia].
  eapply rtc_l; [|apply rtc_refl]. apply (WheelUpdate {| wr_wheel := wheel0; wr_now := 0; wr_deadline := ∅ |} 0 chat alice 5); [cbn; lia|lia|vm_compute; discriminate].
Defined.

Definition hello : RawMessage := {| rm_source := Some alice; rm_data := [x68]; rm_sequence_number := Some 1; rm_topic := chat;
  rm_signature := None; rm_key := None; rm_validated := true |}.

Lemma message_cache_witness :
  (is_Some (msgs (foldl mc_apply (mc_put (MessageCache_new 2 3) [x01] hello).2 [McShift; McShift]) !! [x01]) <-> (2 < 3)%nat).
Proof.
  apply (message_cached_for_history_length (MessageCache_new 2 3) [x01] hello [McShift; McShift]);
    [done|done| |cbn; lia|repeat constructor].
  intros i e (l & Hl & He). cbn in Hl. repeat (destruct i as [|i]; [injection Hl as <-; by apply not_elem_of_nil in He|]). done.
Defined.

Lemma recached_witness :
  msgs (mc_shift (foldl mc_apply (mc_put (mc_remove (mc_shift (mc_put (MessageCache_new 2 3) [x01] hello).2) [x01]).2 [x01] hello).2 [McShift])) !! [x01] = None.
Proof.
  apply (recached_message_dies_early (MessageCache_new 2 3) [x01] hello hello [McShift] [McShift]); [done|done|cbn; lia|cbn; lia].
Defined.

(** * Subscriptions *)
Definition topic_n (n : Z) : TopicHash := {| topic_hash := bits_of (Z.to_pos n) |}.
Definition subscribe_n (n : Z) : Subscription := {| sb_action := Subscribe; sb_topic := topic_n n; sb_options := {| requests_partial := false; supports_partial := false |} |}.

Lemma max_count_witness :
  Z.of_nat (size (topics_after ∅ {[subscribe_n 1; subscribe_n 2]})) <= 2.
Proof.
  apply (max_count_enforced (MaxCount AllowAll 2 5) [subscribe_n 1; subscribe_n 2] ∅ {[subscribe_n 1; subscribe_n 2]}). reflexivity.
Defined.

(** * The queue of a peer: one handler that waits *)
Definition handler : Receiver := {| rc_id := 1; rc_waker := 9; rc_poll := Popping Priority; notified := false |}.
Definition cloned : System := {| store := (queue_clone (Queue_new 2)).2;
  receivers := <[1 := {| rc_id := 1; rc_waker := 0; rc_poll := Running; notified := false |}]> ∅ |}.
Definition waiting : System := {| store := (queue_poll_pop 1 9 (store cloned)).2; receivers := <[1 := at_poll Waiting handler]> (receivers cloned) |}.

Lemma waiting_reached : rtc step (System_new 2) waiting.
Proof.
  eapply rtc_l; [exact (step_clone (System_new 2) _ _ eq_refl)|].
  eapply rtc_l; [exact (step_poll cloned 1 _ 9 (Popping Priority) eq_refl (or_introl eq_refl) (or_introl eq_refl))|].
  exact (poll_pop_runs (store cloned) (receivers cloned) 1 handler).
Qed.

Lemma no_lost_wakeup_witness :
  contents (store waiting) = [] /\ forall message woken q, queue_try_push message (store waiting) = (Ok tt, woken, q) -> 9 ∈ woken.
Proof. apply (no_lost_wakeup 2 waiting 1 (at_poll Waiting handler) waiting_reached); reflexivity. Defined.

Lemma queue_capacity_witness : within_capacity (store waiting).
Proof. apply (queue_stays_within_capacity 2 waiting); [lia|exact waiting_reached]. Defined.

(** * Messages on the wire *)
Definition note : Message := {| ms_source := Some alice; ms_data := [x68]; ms_sequence_number := Some 1; ms_topic := chat |}.

Lemma message_id_witness : same_message note {| ms_source := Some alice; ms_data := [x68]; ms_sequence_number := Some 2; ms_topic := chat |}.
Proof.
  destruct (message_id_binds_author note {| ms_source := Some alice; ms_data := [x68]; ms_sequence_number := Some 2; ms_topic := chat |})
    as [H|[H _]]; [vm_compute; split_and!; discriminate..|reflexivity|exact H|]. exfalso. apply H. reflexivity.
Defined.

Definition key_a : Keypair := x0a.
Definition published : RawMessage :=
  published_message (Some alice) [x68] (Some 6) chat (Some (x0a :: SIGNING_PREFIX ++ [x68])) (Some (replicate 43 x0a)).

(** A receiver whose limits the frame just meets. *)
Definition published_frame : list byte := frame (into_protobuf (RpcPublish [x01] published 0)).
Definition strict_receiver : ProtocolConfig := {| pc_validation_mode := Strict; pc_protocol_ids := [];
  pc_default_max_transmit_size := len published_frame; pc_max_transmit_sizes := {[chat := 1]};
  pc_max_publish_messages := 1; pc_max_control_message_size := 0 |}.

Lemma published_witness :
  codec_decode (L := wire_prost) strict_receiver published_frame
  = Ok (Some ({| in_messages := [unvalidated published]; in_subscriptions := []; in_control_msgs := [CaExtensions None] |}, [], [])).
Proof.
  apply (published_message_is_accepted (L := wire_prost) (LL := wire_prost_laws) (W := wire_laws)
    key_a 5 chat [x68] published (signing_config key_a 6) 0 x00 [x01] 0 strict_receiver strict_receiver published_frame).
  - lia.
  - reflexivity.
  - reflexivity.
  - reflexivity.
  - apply Z.le_refl.
  - apply Z.le_refl.
  - apply Z.le_refl.
  - intros max Hmax. cbn [pc_max_transmit_sizes strict_receiver] in Hmax. rewrite lookup_singleton_eq in Hmax. injection Hmax as <-. vm_compute. discriminate.
Defined.

Definition arrived : RpcIn := {| in_messages := [unvalidated published]; in_subscriptions := []; in_control_msgs := [CaExtensions None] |}.
Lemma arrives : decode_rpc Strict ∅ (into_protobuf (RpcPublish [x01] published 0)) = (arrived, []).
Proof. vm_cast_no_check (eq_refl (arrived, [] : list (RawMessage * ValidationError))). Qed.

Lemma strict_witness : exists key : PublicKey, pk_to_peer_id key = alice.
Proof.
  destruct (strict_accepts_only_signed ∅ _ arrived [] (unvalidated published) eq_refl arrives (list_elem_of_here _ _))
    as (source & key & signature & pm & _ & Hs & _ & Hk & _).
  exists key. rewrite Hk. by injection Hs as ->.
Defined.

Lemma control_witness : decode_rpc Strict ∅ (into_protobuf (RpcGraft {| gr_topic_hash := chat |})) = (received (RpcGraft {| gr_topic_hash := chat |}), []).
Proof. apply (control_rpc_round_trips Strict ∅ (RpcGraft {| gr_topic_hash := chat |})). done. Defined.

Lemma sum_limit_witness : validate_rpc_limits [x01; x00; x03; x00] 100 1 3 <> Ok true.
Proof. apply (control_limit_is_on_the_sum [x01; x00; x03; x00] [x01; x00; x03; x00] 100 1 3 2 2); [lia|reflexivity|reflexivity|lia|lia|lia]. Defined.

Lemma rpc_limits_witness : ~ validate_rpc_limits [x02; x00; x02; x00] 100 1 10 = Ok true.
Proof.
  intros H. apply (rpc_limits_exact [x02; x00; x02; x00] 100 1 10) in H as (_ & body & l & E & El & Hp & _); [|lia|lia].
  injection E as <-. vm_compute in El. injection El as <-. vm_compute in Hp. by apply Hp.
Defined.

(** * A router *)
Local Abbreviation Router := (Behaviour AllowAllSubscriptionFilter IdentityTransform).

Definition demo_config : Config :=
  b_config (b_message_id_fn message_id_fn (b_heartbeat_interval (from_secs 1)
    (b_validate_messages (b_validation_mode Strict (ConfigBuilder_default (fun _ => [])))))).
Lemma config_built : node_config (fun _ => []) 1 = Ok demo_config.
Proof. vm_cast_no_check (eq_refl (Ok demo_config : result Config ConfigBuilderError)). Qed.

Definition started : run (result Router string) := Behaviour_new 0 tt (Signed key_a) demo_config AllowAll IdentityT.
Definition the_router (r : run (result Router string)) : (if r is Ret (Ok _) then True else False) -> Router :=
  match r with Ret (Ok s) => fun _ => s | _ => fun H => False_rect Router H end.
Definition router0 : Router := the_router started Logic.I.
Lemma router0_new : Behaviour_new 0 tt (Signed key_a) demo_config AllowAll IdentityT = Ret (Ok router0).
Proof. reflexivity. Qed.

Definition exec (s : Router) (now : Z) (op : gs_op) : Router := match run_op now op s with Ret (_, s') => s' | Panic => s end.
Lemma exec_runs (s : Router) now op : (if run_op now op s is Ret _ then true else false) = true -> run_op now op s = Ret (tt, exec s now op).
Proof. unfold exec. by destruct (run_op now op s) as [[[] s']|]. Qed.

(** What a computed option holds, from a test that computes to [true]. *)
Lemma some_default {A} (o : option A) d : (if o is Some _ then true else false) = true -> o = Some (default d o).
Proof. by destruct o. Qed.
Lemma none_tested {A} (o : option A) : (if o is Some _ then false else true) = true -> o = None.
Proof. by destruct o. Qed.

Definition from_bob (rpc : RpcIn) : gs_op := OpHandlerEvent bob (HandlerMessage rpc []).
Definition bob_joins : RpcIn := {| in_messages := []; in_subscriptions := [{| sb_action := Subscribe; sb_topic := chat;
  sb_options := {| requests_partial := false; supports_partial := false |} |}]; in_control_msgs := [] |}.
Definition router1 : Router := exec router0 0 (OpSubscribe chat).
Definition router2 : Router := exec router1 0 (OpEstablishedInbound 1 bob).
Definition router3 : Router := exec router2 0 (OpHandlerEvent bob (HandlerPeerKind Gossipsubv1_1)).
Definition router4 : Router := exec router3 0 (from_bob bob_joins).

Lemma router4_reachable : reachable router4.
Proof.
  assert (reachable router0) as H0.
  { destruct (node_config_ok (fun _ => []) 1 demo_config) as (H1 & H2 & H3 & H4); [lia|vm_compute; discriminate|exact config_built|].
    exact (reachable_new _ _ _ _ _ _ _ H1 H2 H3 H4 router0_new). }
  repeat (eapply reachable_op; [| |apply exec_runs; vm_compute; reflexivity]; [|exact Logic.I]). exact H0.
Qed.

(** The router starts to score its peers. *)
Definition scoring : Router := exec router4 0 (OpPeerScore PeerScoreParams_default PeerScoreThresholds_default false).

Lemma scoring_reachable : reachable scoring.
Proof. eapply (reachable_op _ 0 (OpPeerScore PeerScoreParams_default PeerScoreThresholds_default false)); [exact router4_reachable|exact Logic.I|apply exec_runs; vm_compute; reflexivity]. Qed.

Lemma never_panics_witness : (if gs_peer_score scoring is Some _ then true else false) = true /\
  (exists d, gs_connected_peers scoring !! bob = Some d /\ chat ∈ pd_topics d /\ pd_connections d ≠ []) /\
  exists s', run_op (from_secs 1) (OpPoll true true) scoring = Ret (tt, s') /\ router_ok s'.
Proof.
  destruct (router_never_panics scoring scoring_reachable) as [Hm Hr]. split; [vm_compute; reflexivity|]. split; [|by apply Hr].
  apply (Hm chat {[bob]} bob); [left; vm_compute; reflexivity|set_solver].
Defined.

Lemma repairs_witness :
  wp (maintain_topic MeshWork_empty chat) (fun _ s' => exists (core peers : gset PeerId), gs_mesh s' !! chat = Some peers /\ bob ∈ peers /\ Z.of_nat (size core) = 1) router4.
Proof.
  eapply wp_mono; [apply (heartbeat_repairs_mesh chat MeshWork_empty router4 {[bob]} (reachable_ok _ router4_reachable)); [apply none_tested|]; vm_compute; reflexivity|].
  intros _ s' (core & peers & Hm & Hlow & _ & _ & Hsub & _). destruct Hlow as [Hb Hsz]; [vm_compute; reflexivity|].
  exists core, peers. split; [exact Hm|]. split; [apply Hsub, Hb; by apply elem_of_singleton|]. rewrite Hsz. vm_compute. reflexivity.
Defined.

(** A message of bob arrives twice, a minute apart. *)
Definition bobs : RawMessage := {| rm_source := Some bob; rm_data := [x68]; rm_sequence_number := Some 1; rm_topic := chat;
  rm_signature := None; rm_key := None; rm_validated := false |}.
Definition bob_sends : RpcIn := {| in_messages := [bobs]; in_subscriptions := []; in_control_msgs := [] |}.
Definition bobs_id : list byte := message_id_fn {| ms_source := Some bob; ms_data := [x68]; ms_sequence_number := Some 1; ms_topic := chat |}.
Definition router5 : Router := exec router4 0 (from_bob bob_sends).
Definition router6 : Router := exec router5 (from_secs 60) (from_bob bob_sends).

Definition twice : list (list byte * Z) := [(bobs_id, 0); (bobs_id, from_secs 60)].

Lemma delivered_twice : runs (from_secs 60) router6 (from_secs 60) twice.
Proof.
  assert (H0 : runs (from_secs 60) router0 0 []) by exact (runs_new _ _ _ _ _ _ _ _ 0 eq_refl router0_new).
  assert (Hstep : forall s op ds, runs (from_secs 60) s 0 ds -> (if run_op 0 op s is Ret _ then true else false) = true -> deliveries s (exec s 0 op) = [] ->
    runs (from_secs 60) (exec s 0 op) 0 ds).
  { intros s op ds H Hr Hd. rewrite <- (app_nil_r ds). pose proof (runs_op (from_secs 60) s 0 ds 0 op (exec s 0 op) H) as Hop. rewrite Hd in Hop.
    apply Hop; [lia|vm_compute; discriminate|by apply exec_runs]. }
  assert (H4 : runs (from_secs 60) router4 0 []).
  { do 4 (apply Hstep; [|vm_compute; reflexivity..]). exact H0. }
  assert (H5 : runs (from_secs 60) router5 0 ([] ++ ((fun id => (id, 0)) <$> deliveries router4 router5))).
  { eapply runs_op; [exact H4|lia|vm_compute; discriminate|apply exec_runs; vm_compute; reflexivity]. }
  replace twice with (([] ++ ((fun id => (id, 0)) <$> deliveries router4 router5)) ++ ((fun id => (id, from_secs 60)) <$> deliveries router5 router6))
    by (vm_compute; reflexivity).
  eapply runs_op; [exact H5|vm_compute; discriminate|vm_compute; discriminate|apply exec_runs; vm_compute; reflexivity].
Qed.

Lemma delivered_once_witness : 0 + from_secs 60 <= from_secs 60.
Proof. apply (messages_delivered_once (from_secs 60) router6 (from_secs 60) twice 0 1 bobs_id 0 (from_secs 60)); [vm_compute; reflexivity|exact delivered_twice|lia|reflexivity|reflexivity]. Defined.

(** A message of bob is accepted and goes to carol. *)
Definition carol : PeerId := x0c.
Definition wire_join : ProtoRpc := {| rpc_subscriptions := [{| so_subscribe := Some true; so_topic_id := Some "chat"%string;
  so_requests_partial := None; so_supports_partial := None |}]; rpc_publish := []; rpc_control := None |}.
Definition wire_message : ProtoRpc := {| rpc_subscriptions := []; rpc_publish := [{| pm_from := None; pm_data := Some [x68]; pm_seqno := None;
  pm_topic := "chat"; pm_signature := None; pm_key := None |}]; rpc_control := None |}.
Definition reads (p : PeerId) (wire : ProtoRpc) : gs_op :=
  OpHandlerEvent p (HandlerMessage (decode_rpc ModeNone ∅ wire).1 (decode_rpc ModeNone ∅ wire).2).
Lemma reads_from_codec p wire : from_codec (reads p wire).
Proof. exists ModeNone, ∅, wire. apply surjective_pairing. Qed.

Definition anonymous_id : list byte := message_id_fn {| ms_source := None; ms_data := [x68]; ms_sequence_number := None; ms_topic := chat |}.
Definition script : list gs_op :=
  [OpSubscribe chat; OpEstablishedInbound 1 bob; OpEstablishedInbound 2 carol; OpHandlerEvent bob (HandlerPeerKind Gossipsubv1_1);
   OpHandlerEvent carol (HandlerPeerKind Gossipsubv1_1); reads bob wire_join; reads carol wire_join; reads bob wire_message; OpReport anonymous_id bob Accept].
Definition router7 : Router := foldl (fun s op => exec s 0 op) router0 script.
Definition to_carol : PeerDetails := default (new_details router7 false) (gs_connected_peers router7 !! carol).
Definition sent : option RpcOut := contents (pd_messages to_carol) !! 2%nat.
Definition sent_id : list byte := match sent with Some (RpcPublish id _ _) => id | _ => [] end.
Definition sent_message : RawMessage := match sent with Some (RpcPublish _ m _) => m | _ => bobs end.
Definition sent_timeout : Z := match sent with Some (RpcPublish _ _ t) => t | _ => 0 end.

Lemma sent_publish : (if sent is Some (RpcPublish _ _ _) then true else false) = true -> sent = Some (RpcPublish sent_id sent_message sent_timeout).
Proof. unfold sent_id, sent_message, sent_timeout. by destruct sent as [[]|]. Qed.

Lemma script_relays : relays (Some alice) router7 {[anonymous_id]}.
Proof.
  assert (Hstep : forall s op A, relays (Some alice) s A -> from_codec op -> (if run_op 0 op s is Ret _ then true else false) = true ->
    relays (Some alice) (exec s 0 op) (accepts op ∪ A)) by (intros s op A H Hc Hr; by eapply relays_op, exec_runs).
  assert (H0 : relays (Some alice) router0 ∅) by (eapply relays_new; [| |exact router0_new]; reflexivity).
  replace {[anonymous_id]} with (foldl (fun A op => accepts op ∪ A) ∅ script) by (cbn [foldl script accepts]; set_solver). unfold router7, script. cbn [foldl].
  do 9 (apply Hstep; [| |vm_compute; reflexivity]; [|first [exact Logic.I | apply reads_from_codec]]). exact H0.
Qed.

Lemma accepted_only_witness : built_by (Some alice) sent_message \/ sent_id ∈ ({[anonymous_id]} : gset (list byte)).
Proof.
  apply (only_accepted_messages_leave (Some alice) router7 {[anonymous_id]} carol to_carol sent_id sent_message sent_timeout script_relays).
  - apply some_default. vm_compute. reflexivity.
  - apply (list_elem_of_lookup_2 _ 2), sent_publish. vm_compute. reflexivity.
Defined.

(** bob announces a message, is asked for it and does not answer; an hour and a
    heartbeat later carol announces it. *)
Definition announces (id : list byte) : RpcIn := {| in_messages := []; in_subscriptions := [];
  in_control_msgs := [CaIHave {| ih_topic_hash := chat; ih_message_ids := [id] |}] |}.
Definition router8 : Router := exec router7 0 (from_bob (announces [x01])).
Definition an_hour_later : list (Z * gs_op) := replicate 6 (from_secs 3600, OpPoll false true) ++ [(from_secs 3600, OpConnectionClosed bob 1 [] 0)].
Definition router9 : Router := foldl (fun s x => exec s x.1 x.2) router8 an_hour_later.

Lemma asked : is_Some (gs_gossip_promises router8 !! [x01]).
Proof. eexists. apply (some_default _ ∅). vm_compute. reflexivity. Qed.

Lemma never_retried_witness :
  exists s, handle_ihave (from_secs 3601) carol [{| ih_topic_hash := chat; ih_message_ids := [[x01]] |}] router9 = Ret (tt, s) /\
    gs_connected_peers s = gs_connected_peers router9 /\ gs_gossip_promises s = gs_gossip_promises router9.
Proof.
  apply (unanswered_iwant_never_retried (from_secs 3601) router8 router9 [x01] an_hour_later carol chat).
  - apply none_tested. vm_compute. reflexivity.
  - exact asked.
  - repeat constructor.
  - unfold router9, an_hour_later. cbn [foldl replicate app fst snd].
    do 7 (eapply after_cons; [apply exec_runs; vm_compute; reflexivity|]). apply after_nil.
Defined.

(** * Scores: bob is in the mesh, misbehaves and leaves *)
Definition score_of (r : run PeerScore) : PeerScore := match r with Ret s => s | Panic => PeerScore_new PeerScoreParams_default PeerScoreThresholds_default false end.
Definition chat_params : PeerScoreParams := {|
  sp_topics := {[chat := TopicScoreParams_default]}; sp_topic_score_cap := f64_of_Z 3600; sp_app_specific_weight := f64_of_Z 10;
  sp_ip_colocation_factor_weight := f64_of_Z (-5); sp_ip_colocation_factor_threshold := f64_of_Z 10; sp_ip_colocation_factor_whitelist := ∅;
  sp_behaviour_penalty_weight := f64_of_Z (-10); sp_behaviour_penalty_threshold := f64_zero; sp_behaviour_penalty_decay := f64_lit 2 10;
  sp_decay_interval := from_secs 1; sp_decay_to_zero := f64_lit 1 10; sp_retain_score := from_secs 3600;
  sp_slow_peer_weight := f64_lit (-2) 10; sp_slow_peer_threshold := f64_zero; sp_slow_peer_decay := f64_lit 2 10 |}.
Definition home : IpAddr := V4 {| ip4_a := 10; ip4_b := 0; ip4_c := 0; ip4_d := 1 |}.
Definition score0 : PeerScore := PeerScore_new chat_params PeerScoreThresholds_default false.
Definition score_ops : list score_op := [ScAddIp bob home; ScGraft bob chat; ScPenalty bob 3].
Definition score3 : PeerScore := foldl (fun s op => score_of (score_run 0 op s)) score0 score_ops.
Definition bob_stats : PeerStats := default PeerStats_default (sc_peer_stats score3 !! bob).

Lemma ran (r : run PeerScore) : (if r is Ret _ then true else false) = true -> r = Ret (score_of r).
Proof. by destruct r. Qed.

Lemma score3_scored : scored chat_params PeerScoreThresholds_default false score3.
Proof.
  assert (Hstep : forall s op, scored chat_params PeerScoreThresholds_default false s -> (if score_run 0 op s is Ret _ then true else false) = true ->
    scored chat_params PeerScoreThresholds_default false (score_of (score_run 0 op s))) by (intros s op H Hr; eapply scored_op; [exact H|by apply ran]).
  unfold score3, score_ops. cbn [foldl]. do 3 (apply Hstep; [|vm_compute; reflexivity]). apply scored_new.
Qed.

Lemma bookkeeping_witness : (exists st, sc_peer_stats score3 !! bob = Some st /\ home ∈ st_known_ips st) /\ exists s', score_run 5 ScRefresh score3 = Ret s'.
Proof.
  destruct (score_bookkeeping_exact chat_params PeerScoreThresholds_default false score3 score3_scored) as (Hi & _ & Hr). split; [|apply Hr].
  apply Hi. exists (default ∅ (sc_peer_ips score3 !! home)). split; [apply some_default; vm_compute; reflexivity|].
  apply (bool_decide_eq_true_1 (bob ∈ _)). vm_compute. reflexivity.
Defined.

Lemma score_cap_witness : f64_lt (f64_of_Z 3600) (score_report score3 bob) = false.
Proof.
  apply (score_never_above_cap score3 bob bob_stats); (apply some_default || idtac); vm_compute; reflexivity.
Defined.

Lemma reconnection_witness : exists st, sc_peer_stats (score_add_peer bob (refreshes (score_remove_peer 0 bob score3) [from_secs 60; from_secs 120])) !! bob = Some st /\
  st_behaviour_penalty st = st_behaviour_penalty bob_stats.
Proof.
  destruct (bad_score_survives_reconnection score3 bob bob_stats 0 [from_secs 60; from_secs 120]) as [(st & E & _ & Hb & _) _].
  - apply some_default. vm_compute. reflexivity.
  - vm_compute. reflexivity.
  - vm_compute. discriminate.
  - repeat constructor; vm_compute; discriminate.
  - exact (ex_intro _ st (conj E Hb)).
Defined.

Definition bob_chat : TopicStats := default TopicStats_default (st_topics bob_stats !! chat).
Lemma twice_counted_witness : exists s1 s2, deliver_message 0 bob [x01] chat score3 = Ret s1 /\ duplicated_message 1 bob [x01] chat s1 = Ret s2 /\
  mesh_message_deliveries s2 bob chat = Some (count_one (f64_of_Z 100) (count_one (f64_of_Z 100) (ts_mesh_message_deliveries bob_chat))).
Proof.
  apply (first_deliverer_counted_twice score3 bob [x01] chat 0 1 bob_stats bob_chat TopicScoreParams_default);
    (apply some_default || idtac); vm_compute; (reflexivity || discriminate).
Defined.

(** * A handler, with substreams that work ([true]) or fail *)
#[local] Instance demo_framed : FramedLib := {|
  Framed := bool; fr_poll_ready b := (Some (if b then Ok tt else Err "broken"%string), b); fr_start_send _ b := (Ok tt, b);
  fr_poll_flush b := (Some (Ok tt), b); fr_poll_next b := (None, b); fr_poll_close b := (Some (Ok tt), b) |}.

Definition greeting : RpcOut := RpcPublish [x01] hello 10.
Definition filled : QueueStore := (queue_try_push greeting (queue_clone (Queue_new 2)).2).2.
Definition fresh_run : HandlerRun := HandlerRun_new 0 bob ProtocolConfig_default 1 filled.
Definition polled : option (HandlerPoll * Handler * QueueStore) :=
  match handler_poll 0 9 (hr_handler fresh_run) (hr_queue fresh_run) with Ret x => x | Panic => None end.
Definition asked_run : HandlerRun :=
  match polled with
  | Some (e, h, q) => {| hr_handler := h; hr_queue := q; hr_requested := 1; hr_answered := 0 |}
  | None => fresh_run
  end.

Lemma handler_witness : hr_requested asked_run = 1 /\ hr_requested asked_run <= MAX_SUBSTREAM_ATTEMPTS.
Proof.
  split; [reflexivity|]. apply (handler_substreams_bounded 0 bob ProtocolConfig_default 1 filled asked_run).
  eapply rtc_l; [|apply rtc_refl].
  refine (hs_poll fresh_run 0 9 (OutboundSubstreamRequest ProtocolConfig_default) (hr_handler asked_run) (hr_queue asked_run) _). reflexivity.
Defined.

Definition broken_handler : EnabledHandler := {|
  eh_peer_id := bob; eh_listen_protocol := ProtocolConfig_default; eh_inbound_substream := None; eh_outbound_substream := Some (WaitingOutput false);
  eh_outbound_substream_establishing := false; eh_outbound_substream_attempts := 1; eh_inbound_substream_attempts := 0; eh_message_queue := 1;
  eh_peer_kind := Some Gossipsubv1_1; eh_peer_kind_sent := true; eh_last_io_activity := 0; eh_in_mesh := true |}.

Lemma failed_send_witness :
  exists h q, enabled_poll 0 9 broken_handler (queue_try_push greeting filled).2 = Ret (Some (HandlerPending, h, q)) /\ contents q = [greeting].
Proof.
  destruct (failed_send_strands_queue 0 9 broken_handler (queue_try_push greeting filled).2 false greeting [greeting] "broken"%string false)
    as (h & q & H1 & H2 & _); try reflexivity. by exists h, q.
Defined.
End GsWitness.
