(* ===== verification/WitnessesSvc.v ===== *)
(** Witnesses of the services at the edge of the node (DNS, LAN discovery, TURN) and of
    its configuration. *)

From S2P Require Import Prelude Bytes BTree Text Common Relay RelayLimiter Addresses AppMessage ConnectionStrategy RelayDiscovery Rendezvous.
From S2P Require Import Dns Lan Turn NodeConfig Instances.
From Stdlib Require Import Strings.Byte Ascii.
From stdpp Require Import pretty.
Import Demo.

#[local] Open Scope Z_scope.

Module SvcWitness.

Definition alice : PeerId := x02.
Definition bob : PeerId := x03.
Definition nowhere : Multiaddr := [].

(** * DNS: a resolver whose every answer is the same, counting the requests *)
#[local] Instance demo_url : UrlLib := {|
  Url := string; url_parse := @Ok string string; url_scheme _ := "https"; url_host_str := @Some string;
  url_append_pair k v u := u +:+ "?" +:+ k +:+ "=" +:+ v; url_as_str u := u |}.

#[local] Instance demo_network : Network Z := {|
  transmit _ _ w := (Some (Ok {| rs_status := 200; rs_status_text := "OK"; rs_content_length := None; rs_bytes := Ok [] |}), w + 1);
  lookup_host _ w := (Ok [V4 (Build_Ipv4Addr 198 51 100 7)], w) |}.

Definition leaf : Multiaddr := [Dns4 "h"; Tcp 4001; P2p alice].
Definition one_leaf (_ : list byte) : result DnsJsonResponse string :=
  Ok {| dns_answer := Some [{| record_type := 16; answer_data := "dnsaddr=" +:+ addr_to_string leaf |}] |}.
Definition asked : Multiaddr := [Dnsaddr "example"; P2p alice].

Lemma dns_bounded_witness :
  has_dnsaddr asked = true /\
  exists r w', resolve_multiaddr nowhere one_leaf DnsaddrConfig_default asked 0 = Some (r, w') /\ w' <= 0 + (32 ^ 9 - 1) / 31 /\
    forall l, r = Ok l -> len l <= MAX_DNSADDR_TOTAL_RECORDS /\ NoDup l /\ Forall (fun a => has_dnsaddr a = false) l /\
      forall domain suffix, split_first_dnsaddr asked = Some (domain, suffix) -> Forall (fun a => multiaddr_ends_with suffix a = true) l.
Proof.
  split; [reflexivity|].
  apply (dnsaddr_resolution_bounded nowhere eq_refl one_leaf id); [intros; cbn; lia|intros; cbn; lia|reflexivity].
Defined.

(** The record resolves to the host's address, for one request. *)
Lemma dns_resolves :
  match resolve_multiaddr nowhere one_leaf DnsaddrConfig_default asked 0 with
  | Some (Ok [a], 1) => bool_decide (a = [Ip4 (Build_Ipv4Addr 198 51 100 7); Tcp 4001; P2p alice])
  | _ => false
  end = true.
Proof. vm_compute. reflexivity. Qed.

Lemma txt_witness :
  decode_dnsaddr_txt_value (text (zone_text [[["a"%char]; [quote]]; [[backslash]; ["b"%char]]])) =
    Ok (text ["a"%char; quote; backslash; "b"%char]).
Proof.
  apply (txt_record_round_trip [["a"%char]; [quote]] [[[backslash]; ["b"%char]]]).
  - repeat constructor; apply utf8_ascii; vm_compute; reflexivity.
  - repeat constructor; apply utf8_ascii; vm_compute; reflexivity.
  - apply Z.leb_le. vm_compute. reflexivity.
Defined.

(** * LAN: alice announces a listener on all interfaces, bob hears it *)
Definition write_text (s : string) : list byte := bit_bytes (Pos.of_succ_nat (String.length s)) ++ String.list_byte_of_string s.

Fixpoint read_texts (n : nat) (raw : list byte) : option (list string) :=
  match n with
  | O => Some []
  | S n' =>
      '(p, rest) ← read_bits raw;
      l ← read_texts n' (drop (pred (Pos.to_nat p)) rest);
      Some (String.string_of_list_byte (take (pred (Pos.to_nat p)) rest) :: l)
  end.

Lemma length_text_bytes s : length (String.list_byte_of_string s) = String.length s.
Proof. induction s as [|c s IH]; [done|]. cbn. by f_equal. Qed.

Lemma read_written l : read_texts (length l) (mjoin (write_text <$> l)) = Some l.
Proof.
  induction l as [|s l IH]; [done|]. rewrite fmap_cons, join_cons. unfold write_text at 1. cbn [length read_texts].
  rewrite <- app_assoc, read_bit_bytes. cbn [mbind option_bind]. rewrite SuccNat2Pos.id_succ. cbn [pred].
  rewrite <- (length_text_bytes s), drop_app_length, take_app_length, IH. cbn [mbind option_bind]. by rewrite String.string_of_list_byte_of_string.
Qed.

#[local] Instance demo_beacon_json : SerdeJson LanBeacon := {|
  json_to_vec b := Ok (bit_bytes (encode (lb_version b, lb_network_id b, lb_application_protocol b, lb_peer_id b,
    length (lb_addresses b), lb_reply_requested b)) ++ mjoin (write_text <$> lb_addresses b));
  json_from_slice raw := ok_or (
    '(h, rest) ← read_bits raw;
    '(v, n, p, q, k, r) ← decode h;
    a ← read_texts k rest;
    Some {| lb_version := v; lb_network_id := n; lb_application_protocol := p; lb_peer_id := q; lb_addresses := a;
            lb_reply_requested := r |}) "invalid beacon" |}.

#[local] Instance demo_beacon_laws : SerdeJsonLaws LanBeacon demo_beacon_json.
Proof.
  split. intros b raw [= <-]. cbn [json_from_slice demo_beacon_json]. rewrite read_bit_bytes. cbn [mbind option_bind].
  rewrite decode_encode. cbn [mbind option_bind]. rewrite read_written. by destruct b.
Qed.

(** The network delivers its one datagram. *)
#[local] Instance demo_udp : UdpSocket (list byte * SocketAddr) := {|
  udp_send bytes target _ := (Ok tt, (bytes, target)); udp_recv w := (Ok w, w) |}.

Definition home (d : Z) : Ipv4Addr := Build_Ipv4Addr 192 168 1 d.
Definition from_home : SocketAddr := {| sa_ip := V4 (home 7); sa_port := 44777 |}.
Definition everywhere : Multiaddr := [Ip4 (Build_Ipv4Addr 0 0 0 0); Tcp 4001].
Definition beacon : list byte := default [] (ok (encode_beacon 7 "/app/1" alice (collect_advertised_addresses [everywhere]) false)).

Lemma beacon_fits : encode_beacon 7 "/app/1" alice (collect_advertised_addresses [everywhere]) false = Ok beacon.
Proof.
  unfold beacon. assert (is_ok (encode_beacon 7 "/app/1" alice (collect_advertised_addresses [everywhere]) false) = true) as H by (vm_compute; reflexivity).
  by destruct (encode_beacon _ _ _ _ _).
Qed.

Lemma listener_witness :
  exists a, lan_recv nowhere bob 7 "/app/1" (beacon, from_home) = (Ok (Some {| announcement := Some a; reply_to := None |}), (beacon, from_home)) /\
    la_peer_id a = alice /\ exists x, x ∈ la_addresses a /\ addr_iter x = [Ip4 (home 7); Tcp 4001; P2p alice].
Proof.
  apply (announced_listener_is_found nowhere eq_refl 7 "/app/1" alice bob [everywhere] everywhere (Ip4 (Build_Ipv4Addr 0 0 0 0)) [Tcp 4001] (Ip4 (home 7)) beacon from_home).
  - exact beacon_fits.
  - left.
  - reflexivity.
  - repeat constructor.
  - reflexivity.
  - reflexivity.
  - reflexivity.
  - done.
Defined.

Lemma beacon_heard : match decode_beacon nowhere beacon from_home bob 7 "/app/1" with Some _ => true | None => false end = true.
Proof. vm_compute. reflexivity. Qed.

Lemma accepted_beacon_witness :
  exists r beacon' peer, decode_beacon nowhere beacon from_home bob 7 "/app/1" = Some r /\ json_from_slice beacon = Ok beacon' /\
    peer_parse (lb_peer_id beacon') = Ok peer /\ peer ≠ bob.
Proof.
  destruct (decode_beacon nowhere beacon from_home bob 7 "/app/1") as [r|] eqn:E; [|pose proof beacon_heard as H; rewrite E in H; discriminate H].
  destruct (accepted_beacon_is_local nowhere eq_refl beacon from_home bob 7 "/app/1" r E) as (_ & b & peer & H1 & _ & _ & _ & H2 & H3 & _).
  exists r, b, peer. auto.
Defined.

(** * TURN: alice is reached directly and offers the TURN server on her host *)
#[local] Instance demo_ip_text : IpText := {| ip_parse _ := None;
  ip_text ip := match ip with V4 i => pretty (ip4_a i) +:+ "." +:+ pretty (ip4_b i) +:+ "." +:+ pretty (ip4_c i) +:+ "." +:+ pretty (ip4_d i) | V6 _ => "::" end |}.

Definition at_alice : Multiaddr := [Ip4 (Build_Ipv4Addr 198 51 100 7); Tcp 4001; P2p alice].
Definition her_server : IceServer := {| ice_urls := ["turn:198.51.100.7:3478"]; ice_username := Some "u"; ice_credential := Some "c" |}.
Definition other_server : IceServer := {| ice_urls := ["turn:203.0.113.9:3478"]; ice_username := Some "u"; ice_credential := Some "c" |}.
Definition offered : TurnCredentials := {| tc_ice_servers := [her_server; other_server]; tc_ttl := Some 600 |}.

Definition client0 : TurnClientState := TurnClientState_new TurnClientConfig_default.
Definition client1 : TurnClientState := note_connection alice at_alice client0.
Definition client2 : TurnClientState := (accept_from_broker alice offered 0 client1).2.

(** The server on alice's host is taken, the other one is not. *)
Lemma only_her_server : bool_decide (effective client2 = [her_server]) = true.
Proof. vm_compute. reflexivity. Qed.

Lemma trusted_servers_witness : exists peer later c earlier,
  [Offered alice offered; Connected alice at_alice] = later ++ Offered peer c :: earlier /\ her_server ∈ tc_ice_servers c /\
  forall host, host ∈ server_hosts her_server -> host ∈ accepted_provider_hosts TurnClientConfig_default \/ connected_at earlier peer host.
Proof.
  destruct (client_uses_trusted_servers TurnClientConfig_default [Offered alice offered; Connected alice at_alice] client2) as (_ & _ & H).
  - apply (rtc_l _ _ ([Connected alice at_alice], client1)); [apply cs_connected|].
    apply (rtc_l _ _ ([Offered alice offered; Connected alice at_alice], client2)); [apply cs_offered|]. apply rtc_refl.
  - apply Z.leb_le. reflexivity.
  - destruct (H her_server) as (source & Hsrc & Hin & Hl).
    + pose proof (bool_decide_eq_true_1 _ only_her_server) as ->. left.
    + assert (source = Libp2p) as Es.
      { destruct source; first [reflexivity|vm_compute in Hin; by apply not_elem_of_nil in Hin]. }
      destruct (Hl Es) as (peer & learned & later & c & earlier & _ & _ & Et & Hc & _ & Hh). exists peer, later, c, earlier. auto.
Defined.

(** * TURN broker: two requests a minute, and the window that starts anew *)
Definition twice_a_minute : TurnBrokerConfig := {|
  bk_enabled := true; bk_provider := None; bk_credential_ttl_secs := 600; bk_max_requests_per_peer_per_minute := 2 |}.
Definition requests : list (PeerId * Z) := [(alice, 0); (alice, from_secs 59); (alice, from_secs 60); (alice, from_secs 61); (alice, from_secs 62)].

(** Three of them are granted within the minute from second 59: the bound is reached. *)
Lemma rate_limit_reached :
  count_in (from_secs 59) (from_secs 119) (admissions alice (TurnBrokerState_new twice_a_minute 0) requests) = 3.
Proof. vm_compute. reflexivity. Qed.

Lemma rate_limit_witness :
  count_in (from_secs 59) (from_secs 59 + RATE_WINDOW) (admissions alice (TurnBrokerState_new twice_a_minute 0) requests) <= 2 * 2 - 1.
Proof.
  apply (broker_rate_limit twice_a_minute 0 requests alice (from_secs 59)).
  - apply Z.leb_le. reflexivity.
  - cbn. unfold from_secs. repeat split; apply Z.leb_le; reflexivity.
Defined.

(** * TURN broker and client: credentials with ten seconds left *)
Definition nearly_expired : LearnedServers := {| ln_servers := [her_server]; ln_refresh_at := 0; ln_expires_at := from_secs 10 |}.
Definition broker : TurnBrokerState := {|
  tb_sources := [{| br_refresher := ProviderRefresher_new (SharedSecretProvider {| ss_urls := []; ss_secret := SecretValue "s" |}) 600 0;
                    br_cached := Some nearly_expired |}];
  tb_ttl_secs := 600; tb_max_per_window := 6; tb_windows := ∅; tb_status := TurnBrokerStatus_default |}.
Definition grant : TurnCredentials := {| tc_ice_servers := [her_server]; tc_ttl := Some 10 |}.
Definition kept : LearnedServers := LearnedServers_new {| tc_ice_servers := [her_server]; tc_ttl := Some 60 |} 0.

Lemma with_state {A B} (x : A) (p : A * B) : p.1 = x -> p = (x, p.2).
Proof. by intros <-; destruct p. Qed.

Lemma outlive_witness :
  (forall live, live ∈ live_sources 0 broker -> ln_expires_at kept <= ln_expires_at live) <->
  (forall live, live ∈ live_sources 0 broker -> 0 + from_secs MIN_CREDENTIAL_TTL_SECS <= ln_expires_at live).
Proof.
  apply (granted_credentials_outlive_their_source bob alice 0 broker grant (broker_answer bob 0 broker).2 client1
    (accept_from_broker alice grant 0 client1).1 (accept_from_broker alice grant 0 client1).2 kept).
  - apply with_state. vm_compute. reflexivity.
  - apply surjective_pairing.
  - vm_compute. reflexivity.
  - vm_compute. reflexivity.
Defined.

(** * Configuration: a relay behind one listener, with no public fallback *)
#[local] Instance svc_rz : RendezvousLib := {|
  RzNamespace := string; rz_namespace_new s := Ok s; rz_namespace_text s := s; Cookie := unit;
  DEFAULT_TTL := 7200; MIN_TTL := 7200; MAX_TTL := 259200; MAX_REGISTRATION_PEER := 255;
  MAX_REGISTRATIONS_TOTAL := 65536; COOKIES_CACHE_SIZE := 10000 |}.

Definition private_discovery (d : DiscoveryConfig) : DiscoveryConfig := {|
  dc_peer_cache := dc_peer_cache d; dc_bootstrap_seed_peers := []; dc_rendezvous_peers := []; dc_namespace := dc_namespace d; dc_lan := dc_lan d;
  dc_public_bootstrap := private_infrastructure_only; dc_dht := dc_dht d; dc_relay_discovery := dc_relay_discovery d;
  dc_rendezvous := dc_rendezvous d |}.

Definition relay_node : NodeConfig :=
  upd_nc_relay (set_relay_enabled true) (upd_nc_listen_addresses (fun _ => [addr_to_string everywhere])
    (upd_nc_discovery private_discovery NodeConfig_default)).

Definition desktop : EnvironmentReport := {|
  er_platform := Linux; er_reachability := ReachPublic; er_nat_status := NatKindPublic; er_can_listen_tcp := true; er_can_listen_quic := false;
  er_can_accept_inbound := true; er_likely_cgnat := false; er_battery_sensitive := false; er_background_restricted := false;
  er_observed_external_addresses := []; er_listen_failures := 0 |}.

Lemma relay_resolves : match resolve_node_config relay_node desktop with Ok r => rs_relay_server_enabled r && rs_should_listen r | Err _ => false end = true.
Proof. vm_compute. reflexivity. Qed.

Lemma stable_witness :
  exists r, resolve_node_config relay_node desktop = Ok r /\
    resolve_node_config (apply_resolved_capabilities relay_node r) desktop =
      Ok (with_listen_addresses (if rs_should_listen r then rs_listen_addresses r else []) r).
Proof.
  destruct (resolve_node_config relay_node desktop) as [r|e] eqn:E; [|pose proof relay_resolves as H; rewrite E in H; discriminate H].
  exists r. split; [reflexivity|]. apply (resolution_is_stable relay_node desktop r E).
Defined.

Lemma relay_node_valid : match validate_node_config relay_node with Ok _ => true | Err _ => false end = true.
Proof. vm_compute. reflexivity. Qed.

Lemma composed_witness :
  len (compose_servers (ice_plan (nc_browser_webrtc relay_node))
    (effective (TurnClientState_new (with_legacy_turn (nc_browser_webrtc relay_node) (turn_client (nc_turn (with_profile_defaults_applied relay_node))))))) <= MAX_ICE_SERVERS.
Proof.
  apply (composed_servers_bounded relay_node []).
  - destruct (validate_node_config relay_node) as [[]|e] eqn:E; [reflexivity|]. pose proof relay_node_valid as H. rewrite E in H. discriminate H.
  - apply rtc_refl.
Defined.

(** The listener on all interfaces is advertised under the probed address. *)
Lemma synthesized_witness :
  let out := synthesize_external_addresses nowhere (V4 (Build_Ipv4Addr 8 8 8 8)) [addr_to_string everywhere] in
  NoDup out /\ Forall (advertised_ok (V4 (Build_Ipv4Addr 8 8 8 8))) out /\
  exists a, a ∈ out /\ addr_iter a = [Ip4 (Build_Ipv4Addr 8 8 8 8); Tcp 4001].
Proof.
  destruct (synthesized_addresses_dialable nowhere eq_refl (V4 (Build_Ipv4Addr 8 8 8 8)) [addr_to_string everywhere]) as (H1 & H2 & H3).
  split; [exact H1|]. split; [exact H2|]. apply (H3 (addr_to_string everywhere) everywhere (Build_Ipv4Addr 8 8 8 8) 4001); [left|apply addr_parse_to_string|reflexivity|discriminate|reflexivity|reflexivity].
Defined.

End SvcWitness.
